(* ===== verification/_CoqProject ===== *)
-Q . S2P
Prelude.v
Words.v
Instr.v
Catalog.v
Decoder.v
CpuState.v
AotScalar.v
Ir.v
IrValue.v
AotVector.v
Services.v
IrSem.v
IrRefine.v
PassSim.v
Aliases.v
AliasPass.v
ConstEval.v
Fold.v
Dce.v
Cse.v
Simplify.v
SimplifySim.v
Promote.v
PromoteSlots.v
PromoteRun.v
PromoteCorrect.v
CrForward.v
CrPatch.v
CrForwardSim.v
CrForwardCorrect.v
Optimizer.v
Verifier.v
VerifierSpec.v
FlatMemory.v
FlatMemorySpec.v
FlatMonitor.v
NullRuntime.v
Lifter.v
Fallback.v
LiftWp.v
IntegerParity.v
IntegerAgree.v
StateWf.v
LifterControl.v
LifterMemory.v
LifterFloat.v
Lift.v
ControlFlow.v
FunctionCompiler.v
LiftStatic.v
LiftStaticForms.v
LiftTotal.v
FunctionCompilerSpec.v
IntegerBlocks.v
OptimizerProps.v
VerifierProps.v
IntegerProps.v
CompilerProps.v
Dispatcher.v
DispatcherInv.v
DispatcherSystem.v
DispatcherReach.v
DispatcherBounds.v
DispatcherProps.v
FallbackMemory.v
FallbackSystem.v
FallbackVector.v
FallbackRun.v
EmitFunction.v
FallbackProps.v
LeafShape.v
LeafLift.v
LeafBlock.v
LeafStructure.v
LeafProps.v
PhysicalRanges.v
HandleTable.v
AddressSpace.v
AddressSpaceInv.v
AddressSpaceOps.v
