(* ===== verification/Prelude.v ===== *)
(** * Xenon Recomp: a verified model of the CPU recompilation core and guest memory

    Xenon Recomp translates Xbox 360 (PowerPC) code ahead of time into C++. This
    library models the part that decides whether the translation is right, from the
    instruction word to the code that runs, together with the interpreter that
    executes what was not translated, the memory both run in, and the kernel's handles
    and dispatcher that the translated threads use. This file holds the notations, tactics and list and bit lemmas
    the rest shares.

    ** The program and where it is modelled

    Instruction words (src/cpu/ppc/decoder, include/xenon/cpu/instruction.hpp,
    types.hpp, state.hpp): [Words], [Instr], [Catalog], [Decoder], [CpuState].
    Machine integers are [Z] with the wrap-around written out; the opcode
    catalogue is the source's table, row by row.

    The helpers that generated code calls (include/xenon/cpu/aot_semantics.hpp):
    [AotScalar], [AotVector].

    The intermediate representation (include/xenon/cpu/ir.hpp, src/cpu/ir): [Ir] with
    the builder, [Verifier] with its specification in [VerifierSpec].

    The lifter (src/cpu/ppc/lifter): [Lifter] for integers, [LifterControl],
    [LifterMemory], [LifterFloat], and [Lift] for vectors and the dispatch.

    The optimiser (src/cpu/optimizer): [ConstEval] and [Fold], [Aliases], [Cse] and
    [Dce], [Simplify], [Promote], [CrForward], [ControlFlow], and [Optimizer] for the
    order of the passes.

    The function compiler (src/cpu/codegen/function_compiler.cpp):
    [FunctionCompiler].

    The code that comes out (src/cpu/codegen/emission): the C++ text has the meaning
    its statements have when they run. [IrValue] is one expression, [IrSem] one
    statement and the body of one block, [EmitFunction] a function of many blocks.

    The runtime and memory that code calls (include/xenon/cpu/runtime.hpp,
    memory_port.hpp): the type classes of [Services]; [FlatMemory] and [NullRuntime]
    are the repository's own implementations.

    The fallback interpreter (src/cpu/codegen/fallback): [Fallback],
    [FallbackMemory], [FallbackSystem] and [FallbackVector] (floating point and
    vectors) execute one instruction, [FallbackRun] is the executor, [FallbackProps]
    the analyzer's question whether an instruction can be executed.

    The kernel dispatcher (src/kernel/synchronization): [Dispatcher] is the state and
    its operations under the lock, [DispatcherSystem] threads and signallers as one
    step relation.

    Kernel handles (src/kernel/handles): [HandleTable], with the object's handle count
    as a store shared by all handles.

    The production guest memory (src/memory/guest): [PhysicalRanges] allocates runs of
    physical pages and keeps the reverse mappings (physical_page_tracking.hpp).
    [AddressSpace] is everything the class does to its page tables: [Physical] has the
    owner, references, allocation and generation of each physical page,
    [AddressSpace] the guest pages, the compact translation table and the devices.
    An operation that may throw [std::logic_error] returns [option]; each public
    operation keeps its C++ name, with [space_] before the short ones. A loop over pages
    is [each] over the page numbers, with the loop's body as a definition of its own.
    [AddressSpaceInv] is its invariant, [AddressSpaceOps] what each operation does.

    ** How the parts meet

    [FunctionCompiler.compile_ranges] decodes guest words, marks leaders, lifts each
    run with [Lift], gives blocks their edges, verifies, runs [Optimizer_run] and
    verifies again. [EmitFunction.run_function] runs the result over a CPU state and
    a world [W]. The interpreter runs the guest words themselves over the same state
    and world, and is the reference that compiled code is compared with.

    An IR body runs in one of three modes ([IrSem.Mode]). [Lifted] is the strictest:
    operands have the type the lifter gave them. [Promoted] also admits the mixed
    forms the optimiser makes of them. [Emitted] is the C++ that is compiled. The
    early passes preserve the first two, the step from [Lifted] to [Emitted] is a
    refinement of values ([IrRefine]), and [Optimizer.v] composes the passes.

    ** What the theorems show

    The optimiser: each pass and the whole pipeline leave the state, the world and
    the outcome of a lifted body as they were ([OptimizerProps]; the proofs are in
    the pass files and in [PassSim], [Aliases], [AliasPass], [SimplifySim],
    [PromoteSlots], [PromoteRun], [PromoteCorrect], [CrPatch], [CrForwardSim],
    [CrForwardCorrect]).

    The lifter: what it emits for each comparable integer instruction computes what
    the interpreter computes, instruction by instruction ([LiftWp] is the program
    logic, [IntegerParity] and [IntegerAgree] the families), and a compiled
    block of them does too ([IntegerBlocks], [IntegerProps]). [IntegerAgree.comparable]
    is every integer instruction but two groups. The [o] forms of neg, mulld, mullw,
    divd, divdu, divw and divwu are left out: the interpreter does not record their
    overflow. So are sraw, srad, srawi and sradi onto one of their own source
    registers: there the lifted code takes CA from the operands and the interpreter
    from the registers it has just written, and everything else agrees
    ([IntegerProps.algebraic_shift_carry]). Every catalogued instruction lowers, to code
    that is well formed ([LiftStatic] and its companions, [LiftTotal]).

    The function compiler: its blocks partition the instructions, start at the
    leaders and are well formed ([FunctionCompilerSpec], [CompilerProps]).

    A whole compiled function: a leaf function (comparable integer instructions, and
    unlinked branches that stay inside it or return) runs, block after block, as the
    interpreter runs its words ([LeafShape]: the passes keep its shape; [LeafLift]:
    what is lifted for it; [LeafBlock]: its emitted blocks; [LeafStructure]: its
    edges and block starts; [LeafProps]: the two machines in step).

    The verifier accepts exactly the blocks that follow the typing rules of the IR,
    and the functions made of such blocks with a consistent control-flow graph.
    [VerifierSpec.well_typed] gives the rules as a judgement, one rule per group of
    operations, without the tables of the code ([VerifierProps]).

    FlatMemory: reads see the last write, out-of-range accesses fail and change
    nothing, and a conditional store needs an undisturbed reservation
    ([FlatMemorySpec], [FlatMonitor]).

    The interpreter: it keeps the register file well formed ([StateWf]), the
    analyzer's dry run predicts it, and it has a case for every word the decoder
    knows ([FallbackProps]).

    The dispatcher: no satisfiable wait stays registered, an entitled waiter can
    return, waiters are served in order, and counts stay in range: a recursion count
    until 2^31 - 1 waits have begun ([DispatcherInv],
    [DispatcherReach], [DispatcherBounds], [DispatcherProps]).

    Handles: the table is a finite map with counted objects, and no sequence of calls
    gains a right that an insertion did not give ([HandleTable]).

    Guest memory: the range allocator is two sets of pages ([PhysicalRanges]). Whatever
    is asked of an address space, nothing throws, every page has one owner and the
    repository's own invariant check passes; virtual allocation is first fit; a physical
    allocation can be freed; and an access that generated code makes through the table
    goes where the checked path goes ([AddressSpaceOps]).

    ** Parameters

    Code outside the repository's source, or not modelled, is an argument: guest
    memory ([MemoryPort], [ExecutableMemory]), the runtime ([RuntimeServices]) and
    the host's floating-point and vector arithmetic ([HostHelpers]). A call that
    throws in C++ returns [None] for its value. State promotion needs the runtime to
    leave registers alone in the calls it looks through ([PromotionLaws]), which
    [NullRuntime] satisfies. In [AddressSpace], [reader_drains_] says of each later
    reclaim whether the readers were seen to leave, and the [host] of [resolve_fast] is
    the host address of physical memory.

    ** Fuel and bounds

    [Decoder], the lifter, the optimiser, the verifier and the compiler are
    structural. The alias chase has the length of the alias vector as fuel, which
    [Aliases] shows is enough. [EmitFunction.run_function] has fuel for blocks
    entered, and [FallbackRun.run] the source's own instruction budget, a fuel for
    branches that do not count an instruction and the source's limit on nested calls.
    [FunctionCompiler] keeps the source's limit of 2^24 instructions. The address
    search of [AddressSpace.place] has fuel for every multiple of the alignment below
    2^32, which [AddressSpaceOps] shows is enough. Its theorems leave out one request:
    top-down with an alignment of 2 GiB, whose rounded candidate can lie past the region.

    ** Not modelled

    Counters, statistics, tracing observers and message texts. The text of the
    generated C++: its meaning is modelled instead. The fast paths of
    MemoryAccessContext, which bypass the MemoryPort. In the dispatcher the wake-up
    counter, of 64 bits in the code, is unbounded, and the tests for a pending alert and
    a pending APC are one step. A mutant's recursion count has its 32 bits; its overflow,
    undefined in C++, wraps around. In the address space: the bytes (cleared ranges
    are logged), reservations, write epochs, device callbacks, the optional host aperture
    (taken as inactive) and threads: an operation runs under the lock, as in the source,
    and no reclaim is pending when generated code reads the table. The loader, GPU,
    audio, input, network, file system, kernel objects other than those waited on,
    and the desktop applications: they are glue around host APIs or other subsystems,
    and only meet the CPU core through the classes above. *)

From stdpp Require Export base decidable option list gmap strings.
From Stdlib Require Export ZArith Lia Bool.

(** ** Notations for machine-word operations *)

Declare Scope word_scope.
Delimit Scope word_scope with word.

Notation "a .& b" := (Z.land a b) (at level 40, left associativity) : word_scope.
Notation "a .^ b" := (Z.lxor a b) (at level 45, left associativity) : word_scope.
Notation "a .| b" := (Z.lor a b) (at level 50, left associativity) : word_scope.
Notation "a .<< n" := (Z.shiftl a n) (at level 38, left associativity) : word_scope.
Notation "a .>> n" := (Z.shiftr a n) (at level 38, left associativity) : word_scope.

Open Scope Z_scope.
Open Scope word_scope.

(** ** Shared tactics *)

(** Case analysis on the boolean tests of the goal. *)
Ltac bool_cases :=
  repeat match goal with
  | |- context [Z.eqb ?a ?b] => destruct (Z.eqb_spec a b)
  | |- context [Z.ltb ?a ?b] => destruct (Z.ltb_spec a b)
  | |- context [Z.leb ?a ?b] => destruct (Z.leb_spec a b)
  end.

(** Turn boolean comparison hypotheses into arithmetic facts. *)
Ltac bool_hyps :=
  repeat match goal with
  | H : andb _ _ = true |- _ => apply andb_true_iff in H; destruct H
  | H : orb _ _ = false |- _ => apply orb_false_iff in H; destruct H
  | H : negb _ = true |- _ => apply negb_true_iff in H
  | H : negb _ = false |- _ => apply negb_false_iff in H
  | H : (_ =? _) = true |- _ => apply Z.eqb_eq in H
  | H : (_ =? _) = false |- _ => apply Z.eqb_neq in H
  | H : (_ <? _) = true |- _ => apply Z.ltb_lt in H
  | H : (_ <? _) = false |- _ => apply Z.ltb_ge in H
  | H : (_ <=? _) = true |- _ => apply Z.leb_le in H
  | H : (_ <=? _) = false |- _ => apply Z.leb_gt in H
  end.

(** Invert the option binds of a hypothesis, naming nothing. *)
Ltac inv_bind H :=
  repeat match type of H with
  | mbind _ ?m = Some _ => let E := fresh "Hb" in destruct m eqn:E; [cbn in H | discriminate H]
  | (if ?b then _ else None) = Some _ => let E := fresh "Hb" in destruct b eqn:E; [| discriminate H]
  end.

(** ** Bits *)

Lemma testbit_above n x i : 0 <= n -> 0 <= x < 2 ^ n -> n <= i -> Z.testbit x i = false.
Proof.
  intros Hn Hx Hi. 
  destruct (Z.eq_dec x 0) as [->|Hne]; [apply Z.testbit_0_l|].
  apply Z.bits_above_log2; [lia|].
  assert (Z.log2 x < n) by (apply Z.log2_lt_pow2; lia). lia.
Qed.

Lemma bits_lt_pow2 n x :
  0 <= n -> 0 <= x -> (forall i, n <= i -> Z.testbit x i = false) -> x < 2 ^ n.
Proof.
  intros Hn Hx Hb. destruct (Z.eq_dec x 0) as [->|Hne].
  - apply Z.pow_pos_nonneg; lia.
  - apply Z.log2_lt_pow2; [lia|].
    destruct (Z.lt_ge_cases (Z.log2 x) n) as [|Hge]; [done|].
    specialize (Hb _ Hge). rewrite Z.bit_log2 in Hb by lia. discriminate.
Qed.

Section WordClosure.
Context (n a b : Z) (Hn : 0 <= n).
Context (Ha : 0 <= a < 2 ^ n) (Hb : 0 <= b < 2 ^ n).

Lemma land_bound : 0 <= a .& b < 2 ^ n.
Proof.
  assert (0 <= a .& b) by (apply Z.land_nonneg; lia). split; [done|].
  apply bits_lt_pow2; [done..|]. intros i Hi.
  by rewrite Z.land_spec, (testbit_above n a).
Qed.

Lemma lor_bound : 0 <= a .| b < 2 ^ n.
Proof.
  assert (0 <= a .| b) by (apply Z.lor_nonneg; lia). split; [done|].
  apply bits_lt_pow2; [done..|]. intros i Hi.
  by rewrite Z.lor_spec, (testbit_above n a), (testbit_above n b).
Qed.

Lemma lxor_bound : 0 <= a .^ b < 2 ^ n.
Proof.
  assert (0 <= a .^ b) by (apply Z.lxor_nonneg; lia). split; [done|].
  apply bits_lt_pow2; [done..|]. intros i Hi.
  by rewrite Z.lxor_spec, (testbit_above n a), (testbit_above n b).
Qed.
End WordClosure.

Lemma land_bound_l n a b : 0 <= n -> 0 <= a < 2 ^ n -> 0 <= a .& b < 2 ^ n.
Proof.
  intros Hn Ha. assert (0 <= a .& b) by (apply Z.land_nonneg; lia). split; [done|].
  apply bits_lt_pow2; [done..|]. intros i Hi.
  by rewrite Z.land_spec, (testbit_above n a).
Qed.

(** A number below [2 ^ n] is unchanged by the [n]-bit mask. *)
Lemma land_ones_small n x : 0 <= n -> 0 <= x < 2 ^ n -> x .& Z.ones n = x.
Proof. intros Hn Hx. rewrite Z.land_ones by done. by apply Z.mod_small. Qed.

(** ** Lists *)

Lemma foldl_ext_in {A B} (f g : A -> B -> A) (l : list B) a :
  (forall v x, x ∈ l -> f v x = g v x) -> foldl f a l = foldl g a l.
Proof.
  revert a. induction l as [|x l IH]; intros a Hfg; [done|]. cbn. rewrite Hfg by (by left).
  apply IH. intros v y Hy. apply Hfg. by right.
Qed.

Lemma list_lookup_total_insert_eq {A} `{Inhabited A} (l : list A) i x :
  (i < length l)%nat -> <[i:=x]> l !!! i = x.
Proof. intros Hi. by rewrite list_lookup_total_alt, list_lookup_insert_eq. Qed.

Lemma list_insert_lookup_total_id {A} `{Inhabited A} (l : list A) i :
  <[i := l !!! i]> l = l.
Proof.
  destruct (decide (i < length l)%nat) as [Hi|Hi].
  - apply list_insert_id. by apply list_lookup_lookup_total_lt.
  - apply list_insert_ge. lia.
Qed.

Lemma Forall_insert_ge {A} (P : A -> Prop) (l : list A) i x :
  Forall P l -> P x -> Forall P (<[i:=x]> l).
Proof. intros. by apply Forall_insert. Qed.

Lemma Forall_lookup_total {A} `{Inhabited A} (P : A -> Prop) (l : list A) i :
  Forall P l -> (i < length l)%nat -> P (l !!! i).
Proof.
  intros Hl Hi. eapply Forall_lookup_1; [done|]. by apply list_lookup_lookup_total_lt.
Qed.

(** ** Single bits *)

Lemma land_bit_zero x n : 0 <= n -> (x .& (1 .<< n) =? 0) = negb (Z.testbit x n).
Proof.
  intros Hn. rewrite Z.shiftl_1_l. destruct (Z.testbit x n) eqn:Hb; cbn.
  - apply Z.eqb_neq. intros H0. assert (Z.testbit (x .& 2 ^ n) n = true) as H1.
    { by rewrite Z.land_spec, Hb, Z.pow2_bits_true. }
    rewrite H0, Z.testbit_0_l in H1. discriminate.
  - apply Z.eqb_eq, Z.bits_inj'. intros i Hi. rewrite Z.land_spec, Z.testbit_0_l.
    destruct (Z.eq_dec i n) as [->|Hne]; [by rewrite Hb|].
    rewrite Z.pow2_bits_false by done. apply andb_false_r.
Qed.

Lemma testbit_top n x : 0 <= n -> 0 <= x < 2 * 2 ^ n -> Z.testbit x n = (2 ^ n <=? x).
Proof.
  intros Hn Hx. apply eq_true_iff_eq. rewrite Z.testbit_true, Z.leb_le by done.
  assert (0 < 2 ^ n) by (apply Z.pow_pos_nonneg; lia).
  pose proof (Z.div_mod x (2 ^ n)). pose proof (Z.mod_pos_bound x (2 ^ n)).
  assert (x / 2 ^ n = 0 \/ x / 2 ^ n = 1) as [Hq|Hq] by nia; rewrite Hq in *;
    change (0 mod 2) with 0; change (1 mod 2) with 1; lia.
Qed.
