(* ===== verification/Words.v ===== *)
(** * Machine words (include/xenon/cpu/types.hpp)

    C++ fixed-width integers are [Z] values with the wrap-around written out:
    [u8] .. [u64] are the conversions to [std::uint8_t] .. [std::uint64_t] and
    [s8] .. [s64] read a (wrapped) bit pattern as the signed type of that width.
    A [Vector128] is its list of sixteen bytes. *)

From S2P Require Import Prelude.

(** ** Conversions *)

Definition u8 (x : Z) : Z := x mod 0x100.
Definition u16 (x : Z) : Z := x mod 0x10000.
Definition u32 (x : Z) : Z := x mod 0x100000000.
Definition u64 (x : Z) : Z := x mod 0x10000000000000000.

Definition s8 (x : Z) : Z := if u8 x <? 0x80 then u8 x else u8 x - 0x100.
Definition s16 (x : Z) : Z := if u16 x <? 0x8000 then u16 x else u16 x - 0x10000.
Definition s32 (x : Z) : Z := if u32 x <? 0x80000000 then u32 x else u32 x - 0x100000000.
Definition s64 (x : Z) : Z :=
  if u64 x <? 0x8000000000000000 then u64 x else u64 x - 0x10000000000000000.

Abbreviation U64_MAX := 0xFFFFFFFFFFFFFFFF (only parsing).

Definition is_u8 (x : Z) : Prop := 0 <= x < 0x100.
Definition is_u16 (x : Z) : Prop := 0 <= x < 0x10000.
Definition is_u32 (x : Z) : Prop := 0 <= x < 0x100000000.
Definition is_u64 (x : Z) : Prop := 0 <= x < 0x10000000000000000.

(** The guest address type and byte/halfword views of a word. *)
Definition GuestAddress : Type := Z.

Definition not64 (x : Z) : Z := u64 (Z.lnot x).
Definition not32 (x : Z) : Z := u32 (Z.lnot x).

Create HintDb words.

Ltac word_unfold :=
  unfold is_u8, is_u16, is_u32, is_u64, s8, s16, s32, s64, not64, not32, Z.lnot, u8, u16, u32, u64 in *.

(** Linear arithmetic over wrapped words. *)
Ltac word_lia :=
  word_unfold; bool_cases; unfold Z.pred in *; Z.to_euclidean_division_equations; lia.

Lemma u8_range x : is_u8 (u8 x). Proof. apply Z.mod_pos_bound. lia. Qed.
Lemma u16_range x : is_u16 (u16 x). Proof. apply Z.mod_pos_bound. lia. Qed.
Lemma u32_range x : is_u32 (u32 x). Proof. apply Z.mod_pos_bound. lia. Qed.
Lemma u64_range x : is_u64 (u64 x). Proof. apply Z.mod_pos_bound. lia. Qed.

Lemma u32_small x : is_u32 x -> u32 x = x. Proof. apply Z.mod_small. Qed.
Lemma u64_small x : is_u64 x -> u64 x = x. Proof. apply Z.mod_small. Qed.

Lemma is_u32_u64 x : is_u32 x -> is_u64 x. Proof. word_lia. Qed.
Lemma is_u16_u64 x : is_u16 x -> is_u64 x. Proof. word_lia. Qed.
Lemma is_u8_u64 x : is_u8 x -> is_u64 x. Proof. word_lia. Qed.

Lemma u64_u32 x : u64 (u32 x) = u32 x. Proof. word_lia. Qed.
Lemma u32_u64 x : u32 (u64 x) = u32 x. Proof. word_lia. Qed.

Lemma land_u64 a b : is_u64 a -> is_u64 b -> is_u64 (a .& b).
Proof. intros; by apply (land_bound 64). Qed.
Lemma lor_u64 a b : is_u64 a -> is_u64 b -> is_u64 (a .| b).
Proof. intros; by apply (lor_bound 64). Qed.
Lemma lxor_u64 a b : is_u64 a -> is_u64 b -> is_u64 (a .^ b).
Proof. intros; by apply (lxor_bound 64). Qed.
Lemma land_u32 a b : is_u32 a -> is_u32 b -> is_u32 (a .& b).
Proof. intros; by apply (land_bound 32). Qed.
Lemma lor_u32 a b : is_u32 a -> is_u32 b -> is_u32 (a .| b).
Proof. intros; by apply (lor_bound 32). Qed.
Lemma lxor_u32 a b : is_u32 a -> is_u32 b -> is_u32 (a .^ b).
Proof. intros; by apply (lxor_bound 32). Qed.
Lemma land_u32_l a b : is_u32 a -> is_u32 (a .& b).
Proof. intros; by apply (land_bound_l 32). Qed.
Lemma land_u64_l a b : is_u64 a -> is_u64 (a .& b).
Proof. intros; by apply (land_bound_l 64). Qed.
Lemma not64_range x : is_u64 (not64 x). Proof. apply u64_range. Qed.
Lemma not32_range x : is_u32 (not32 x). Proof. apply u32_range. Qed.

Lemma s64_range x : - 0x8000000000000000 <= s64 x < 0x8000000000000000.
Proof. word_lia. Qed.
Lemma s32_range x : - 0x80000000 <= s32 x < 0x80000000.
Proof. word_lia. Qed.
Lemma u64_s64 x : u64 (s64 x) = u64 x. Proof. word_lia. Qed.
Lemma u32_s32 x : u32 (s32 x) = u32 x. Proof. word_lia. Qed.

#[export] Hint Resolve u8_range u16_range u32_range u64_range not64_range not32_range
  is_u32_u64 is_u16_u64 is_u8_u64 land_u64 lor_u64 lxor_u64 land_u32 lor_u32 lxor_u32
  land_u32_l land_u64_l : words.

Lemma testbit_u64 x i : 0 <= i -> Z.testbit (u64 x) i = (i <? 64) && Z.testbit x i.
Proof.
  intros Hi. change (u64 x) with (x mod 2 ^ 64).
  destruct (Z.ltb_spec i 64).
  - by rewrite Z.mod_pow2_bits_low.
  - by rewrite Z.mod_pow2_bits_high.
Qed.
Lemma testbit_u32 x i : 0 <= i -> Z.testbit (u32 x) i = (i <? 32) && Z.testbit x i.
Proof.
  intros Hi. change (u32 x) with (x mod 2 ^ 32).
  destruct (Z.ltb_spec i 32).
  - by rewrite Z.mod_pow2_bits_low.
  - by rewrite Z.mod_pow2_bits_high.
Qed.

(** ** Byte swapping *)

Definition byte_swap16 (v : Z) : Z := u16 (v .>> 8 .| v .<< 8).

Definition byte_swap32 (v : Z) : Z :=
  u32 ((v .& 0x000000FF) .<< 24) .| u32 ((v .& 0x0000FF00) .<< 8) .|
  ((v .& 0x00FF0000) .>> 8) .| ((v .& 0xFF000000) .>> 24).

Definition byte_swap64 (v : Z) : Z :=
  u64 ((v .& 0x00000000000000FF) .<< 56) .| u64 ((v .& 0x000000000000FF00) .<< 40) .|
  u64 ((v .& 0x0000000000FF0000) .<< 24) .| u64 ((v .& 0x00000000FF000000) .<< 8) .|
  ((v .& 0x000000FF00000000) .>> 8) .| ((v .& 0x0000FF0000000000) .>> 24) .|
  ((v .& 0x00FF000000000000) .>> 40) .| ((v .& 0xFF00000000000000) .>> 56).

(** ** Sign extension: [(raw ^ sign) - sign] *)

Definition sign_extend (bits : Z) (value : Z) : Z :=
  let raw := u64 value in
  let sign := u64 (1 .<< (bits - 1)) in
  s64 (u64 ((raw .^ sign) - sign)).

(** ** Rotation *)

(** [std::rotl] on a [w]-bit unsigned value, for a count already below [w]. *)
Definition rotl (w v r : Z) : Z :=
  if r =? 0 then v else ((v .<< r) mod 2 ^ w) .| (v .>> (w - r)).

Definition rotate_left64 (v s : Z) : Z := rotl 64 v (s .& 63).
Definition rotate_left32 (v s : Z) : Z := rotl 32 v (s .& 31).

(** ** Leading zeros ([std::countl_zero]) *)

Definition countl_zero (w v : Z) : Z := if v =? 0 then w else w - 1 - Z.log2 v.

(** ** Vector128: sixteen bytes in architectural order *)

Definition Vector128 : Type := list Z.

Definition vec_zero : Vector128 := replicate 16 0.

Definition vec_u8 (v : Vector128) (i : Z) : Z := v !!! Z.to_nat (i .& 15).
Definition vec_set_u8 (v : Vector128) (i x : Z) : Vector128 := <[Z.to_nat (i .& 15) := x]> v.

Definition vec_u16_be (v : Vector128) (lane : Z) : Z :=
  let p := Z.to_nat ((lane .& 7) * 2) in
  u16 ((v !!! p) .<< 8 .| (v !!! S p)).

Definition vec_u32_be (v : Vector128) (lane : Z) : Z :=
  let p := Z.to_nat ((lane .& 3) * 4) in
  ((v !!! p) .<< 24) .| ((v !!! (p + 1)%nat) .<< 16) .|
  ((v !!! (p + 2)%nat) .<< 8) .| (v !!! (p + 3)%nat).

Definition vec_set_u16_be (vec : Vector128) (lane v : Z) : Vector128 :=
  let p := Z.to_nat ((lane .& 7) * 2) in
  <[S p := u8 v]> (<[p := u8 (v .>> 8)]> vec).

Definition vec_set_u32_be (vec : Vector128) (lane v : Z) : Vector128 :=
  let p := Z.to_nat ((lane .& 3) * 4) in
  <[(p + 3)%nat := u8 v]> (<[(p + 2)%nat := u8 (v .>> 8)]>
    (<[(p + 1)%nat := u8 (v .>> 16)]> (<[p := u8 (v .>> 24)]> vec))).

Definition wf_vec (v : Vector128) : Prop := length v = 16%nat /\ Forall is_u8 v.
