(* ===== verification/Instr.v ===== *)
(** * Decoded guest instructions (include/xenon/cpu/instruction.hpp)

    Instruction formats, groups and types, the [OpcodeInfo] catalogue row and
    the field accessors of [DecodedInstruction]. The accessors are pure
    functions of the instruction word. *)

From S2P Require Import Prelude.
From S2P Require Import Words.

Inductive InstructionFormat : Type :=
  | FSC | FD | FDS | FB | FI | FX | FXL | FXFX | FXFL | FXS | FXO | FA | FM
  | FMD | FMDS | FDCBZ | FVX | FVC | FVA | FVX128 | FVX128_1 | FVX128_2
  | FVX128_3 | FVX128_4 | FVX128_5 | FVX128_R | FVX128_P.

#[export] Instance InstructionFormat_eq_dec : EqDecision InstructionFormat.
Proof. solve_decision. Defined.

Inductive InstructionGroup : Type :=
  | GBranch | GControl | GMemory | GInteger | GFloatingPoint | GVector.

#[export] Instance InstructionGroup_eq_dec : EqDecision InstructionGroup.
Proof. solve_decision. Defined.

Inductive InstructionType : Type := TGeneral | TSynchronizing.

#[export] Instance InstructionType_eq_dec : EqDecision InstructionType.
Proof. solve_decision. Defined.

(** [OpcodeId] wraps a [std::uint32_t]; 0 is the invalid identity. *)
Definition OpcodeId : Type := Z.
Definition kInvalidOpcodeId : OpcodeId := 0.
Definition opcode_valid (id : OpcodeId) : bool := negb (id =? 0).

Record OpcodeInfo : Type := mkOpcodeInfo {
  oi_id : OpcodeId;
  oi_pattern : Z;
  oi_mask : Z;
  oi_mnemonic : string;
  oi_format : InstructionFormat;
  oi_group : InstructionGroup;
  oi_type : InstructionType
}.

Record DecodedInstruction : Type := mkDecoded {
  di_address : GuestAddress;
  di_word : Z;
  di_info : option OpcodeInfo
}.

Section Fields.
Context (i : DecodedInstruction).
Abbreviation word := (di_word i).

Definition valid : bool := match di_info i with Some _ => true | None => false end.

Definition opcode_id : OpcodeId :=
  match di_info i with Some info => oi_id info | None => kInvalidOpcodeId end.

Definition mnemonic : string :=
  match di_info i with Some info => oi_mnemonic info | None => "invalid" end.

Definition primary : Z := word .>> 26.
Definition rt : Z := (word .>> 21) .& 31.
Definition rs : Z := rt.
Definition rd : Z := rt.
Definition frt : Z := rt.
Definition frs : Z := rt.
Definition ra : Z := (word .>> 16) .& 31.
Definition rb : Z := (word .>> 11) .& 31.
Definition frc : Z := (word .>> 6) .& 31.
Definition vd5 : Z := rt.
Definition va5 : Z := ra.
Definition vb5 : Z := rb.
Definition vc5 : Z := frc.

Definition simm16 : Z := s16 (word .& 0xFFFF).
Definition uimm16 : Z := word .& 0xFFFF.

Definition rc : bool :=
  match di_info i with
  | None => false
  | Some info =>
      match oi_format info with
      | FVC => negb ((word .>> 10) .& 1 =? 0)
      | FVX128_R => negb ((word .>> 6) .& 1 =? 0)
      | _ => negb (word .& 1 =? 0)
      end
  end.
Definition oe : bool := negb ((word .>> 10) .& 1 =? 0).

Definition crfd : Z := (word .>> 23) .& 7.
Definition crfs : Z := (word .>> 18) .& 7.

Definition bo : Z := (word .>> 21) .& 31.
Definition bi : Z := (word .>> 16) .& 31.
Definition aa : bool := negb ((word .>> 1) .& 1 =? 0).
Definition lk : bool := negb (word .& 1 =? 0).

Definition branch_i_displacement : Z := sign_extend 26 (word .& 0x03FFFFFC).
Definition branch_b_displacement : Z := sign_extend 16 (word .& 0x0000FFFC).
Definition ds_displacement : Z := sign_extend 16 (word .& 0xFFFC).

Definition spr : Z :=
  let enc := (word .>> 11) .& 0x3FF in
  ((enc .& 0x1F) .<< 5) .| ((enc .>> 5) .& 0x1F).

Definition sh32 : Z := (word .>> 11) .& 31.
Definition mb32 : Z := (word .>> 6) .& 31.
Definition me32 : Z := (word .>> 1) .& 31.
Definition sh64_md : Z := ((word .>> 11) .& 31) .| ((word .& 0x2) .<< 4).
Definition mb64_md : Z := ((word .>> 6) .& 31) .| (word .& 0x20).

Definition vx128_vd : Z := vd5 .| ((word .& 0xC) .<< 3).
Definition vx128_va : Z := va5 .| (word .& 0x20) .| ((word .& 0x400) .>> 4).
Definition vx128_vb : Z := vb5 .| ((word .& 0x3) .<< 5).
Definition vx128_3_imm : Z := (word .>> 16) .& 31.
Definition vx128_4_imm : Z := (word .>> 16) .& 31.
Definition vx128_4_z : Z := (word .>> 6) .& 3.
Definition vx128_5_sh : Z := (word .>> 6) .& 15.
Definition vx128_p_perm : Z := ((word .>> 16) .& 31) .| (((word .>> 6) .& 7) .<< 5).

(** decoder.cpp: branch target of the I and B forms, 0 otherwise. *)
Definition direct_branch_target : GuestAddress :=
  match di_info i with
  | None => 0
  | Some info =>
      match oi_format info with
      | FI => if aa then u32 branch_i_displacement
              else u32 (di_address i + branch_i_displacement)
      | FB => if aa then u32 branch_b_displacement
              else u32 (di_address i + branch_b_displacement)
      | _ => 0
      end
  end.
End Fields.

Definition mask_for_format (f : InstructionFormat) : Z :=
  match f with
  | FD | FB | FI | FM => 0xFC000000
  | FDS => 0xFC000003
  | FX | FXL | FXFX | FXFL => 0xFC0007FE
  | FXS => 0xFC0007FC
  | FXO => 0xFC0003FE
  | FA => 0xFC00003E
  | FMD => 0xFC00001C
  | FMDS => 0xFC00001E
  | FDCBZ => 0xFC2007FE
  | FVX => 0xFC0007FF
  | FVC => 0xFC0003FF
  | FVA => 0xFC00003F
  | FVX128 => 0xFC0003D0
  | FVX128_1 => 0xFC0007F3
  | FVX128_2 => 0xFC000210
  | FVX128_3 => 0xFC0007F0
  | FVX128_4 => 0xFC000730
  | FVX128_5 => 0xFC000010
  | FVX128_R => 0xFC000390
  | FVX128_P => 0xFC000630
  | FSC => 0xFC000003
  end.

(** ** Field ranges *)

Lemma land31_range x : 0 <= x .& 31 < 32.
Proof. change 31 with (Z.ones 5). rewrite Z.land_ones by lia. apply Z.mod_pos_bound. lia. Qed.
Lemma land7_range x : 0 <= x .& 7 < 8.
Proof. change 7 with (Z.ones 3). rewrite Z.land_ones by lia. apply Z.mod_pos_bound. lia. Qed.

Lemma rt_range i : 0 <= rt i < 32. Proof. apply land31_range. Qed.
Lemma ra_range i : 0 <= ra i < 32. Proof. apply land31_range. Qed.
Lemma rb_range i : 0 <= rb i < 32. Proof. apply land31_range. Qed.

Lemma uimm16_range i : is_u16 (uimm16 i).
Proof.
  unfold uimm16, is_u16. change 0xFFFF with (Z.ones 16). rewrite Z.land_ones by lia.
  apply Z.mod_pos_bound. lia.
Qed.

Lemma simm16_range i : -0x8000 <= simm16 i < 0x8000.
Proof. unfold simm16. pose proof (u16_range (di_word i .& 0xFFFF)). word_lia. Qed.

#[export] Hint Resolve rt_range ra_range rb_range uimm16_range simm16_range : words.
