(* ===== verification/Catalog.v ===== *)
(** * The opcode catalogue (src/cpu/ppc/decoder/opcode_catalog.inc)

    The declarative table of the decoder, row by row and in the order of the
    source: pattern, mnemonic, format, group and type. It is cut into four
    consecutive parts that [kRawCatalog] concatenates. *)

From S2P Require Import Prelude.
From S2P Require Import Words.
From S2P Require Import Instr.

Record RawOpcodeInfo : Type := mkRaw {
  raw_pattern : Z;
  raw_mask : Z;
  raw_mnemonic : string;
  raw_format : InstructionFormat;
  raw_group : InstructionGroup;
  raw_type : InstructionType
}.

(** The [X] macro: the mask follows from the format. *)
Definition X (pattern : Z) (name : string) (format : InstructionFormat)
    (group : InstructionGroup) (type : InstructionType) : RawOpcodeInfo :=
  mkRaw pattern (mask_for_format format) name format group type.

Local Open Scope string_scope.
Local Open Scope Z_scope.

Definition opcode_catalog_1 : list RawOpcodeInfo := [
  X 0x7c000014 "addcx" FXO GInteger TGeneral;
  X 0x7c000114 "addex" FXO GInteger TGeneral;
  X 0x38000000 "addi" FD GInteger TGeneral;
  X 0x30000000 "addic" FD GInteger TGeneral;
  X 0x34000000 "addicx" FD GInteger TGeneral;
  X 0x3c000000 "addis" FD GInteger TGeneral;
  X 0x7c0001d4 "addmex" FXO GInteger TGeneral;
  X 0x7c000214 "addx" FXO GInteger TGeneral;
  X 0x7c000194 "addzex" FXO GInteger TGeneral;
  X 0x7c000078 "andcx" FX GInteger TGeneral;
  X 0x74000000 "andisx" FD GInteger TGeneral;
  X 0x70000000 "andix" FD GInteger TGeneral;
  X 0x7c000038 "andx" FX GInteger TGeneral;
  X 0x4c000420 "bcctrx" FXL GBranch TSynchronizing;
  X 0x4c000020 "bclrx" FXL GBranch TSynchronizing;
  X 0x40000000 "bcx" FB GBranch TSynchronizing;
  X 0x48000000 "bx" FI GBranch TSynchronizing;
  X 0x7c000000 "cmp" FX GInteger TGeneral;
  X 0x2c000000 "cmpi" FD GInteger TGeneral;
  X 0x7c000040 "cmpl" FX GInteger TGeneral;
  X 0x28000000 "cmpli" FD GInteger TGeneral;
  X 0x7c000074 "cntlzdx" FX GInteger TGeneral;
  X 0x7c000034 "cntlzwx" FX GInteger TGeneral;
  X 0x4c000202 "crand" FXL GControl TGeneral;
  X 0x4c000102 "crandc" FXL GControl TGeneral;
  X 0x4c000242 "creqv" FXL GControl TGeneral;
  X 0x4c0001c2 "crnand" FXL GControl TGeneral;
  X 0x4c000042 "crnor" FXL GControl TGeneral;
  X 0x4c000382 "cror" FXL GControl TGeneral;
  X 0x4c000342 "crorc" FXL GControl TGeneral;
  X 0x4c000182 "crxor" FXL GControl TGeneral;
  X 0x7c0000ac "dcbf" FX GMemory TGeneral;
  X 0x7c0003ac "dcbi" FX GMemory TGeneral;
  X 0x7c00006c "dcbst" FX GMemory TGeneral;
  X 0x7c00022c "dcbt" FX GMemory TGeneral;
  X 0x7c0001ec "dcbtst" FX GMemory TGeneral;
  X 0x7c0007ec "dcbz" FDCBZ GMemory TGeneral;
  X 0x7c2007ec "dcbz128" FDCBZ GMemory TGeneral;
  X 0x7c000392 "divdux" FXO GInteger TGeneral;
  X 0x7c0003d2 "divdx" FXO GInteger TGeneral;
  X 0x7c000396 "divwux" FXO GInteger TGeneral;
  X 0x7c0003d6 "divwx" FXO GInteger TGeneral;
  X 0x7c0006ac "eieio" FX GInteger TGeneral;
  X 0x7c000238 "eqvx" FX GInteger TGeneral;
  X 0x7c000774 "extsbx" FX GInteger TGeneral;
  X 0x7c000734 "extshx" FX GInteger TGeneral;
  X 0x7c0007b4 "extswx" FX GInteger TGeneral;
  X 0xfc000210 "fabsx" FX GFloatingPoint TGeneral;
  X 0xec00002a "faddsx" FA GFloatingPoint TGeneral;
  X 0xfc00002a "faddx" FA GFloatingPoint TGeneral;
  X 0xfc00069c "fcfidx" FX GFloatingPoint TGeneral;
  X 0xfc000040 "fcmpo" FX GFloatingPoint TGeneral;
  X 0xfc000000 "fcmpu" FX GFloatingPoint TGeneral;
  X 0xfc00065c "fctidx" FX GFloatingPoint TGeneral;
  X 0xfc00065e "fctidzx" FX GFloatingPoint TGeneral;
  X 0xfc00001c "fctiwx" FX GFloatingPoint TGeneral;
  X 0xfc00001e "fctiwzx" FX GFloatingPoint TGeneral;
  X 0xec000024 "fdivsx" FA GFloatingPoint TGeneral;
  X 0xfc000024 "fdivx" FA GFloatingPoint TGeneral;
  X 0xec00003a "fmaddsx" FA GFloatingPoint TGeneral;
  X 0xfc00003a "fmaddx" FA GFloatingPoint TGeneral;
  X 0xfc000090 "fmrx" FX GFloatingPoint TGeneral;
  X 0xec000038 "fmsubsx" FA GFloatingPoint TGeneral;
  X 0xfc000038 "fmsubx" FA GFloatingPoint TGeneral;
  X 0xec000032 "fmulsx" FA GFloatingPoint TGeneral;
  X 0xfc000032 "fmulx" FA GFloatingPoint TGeneral;
  X 0xfc000110 "fnabsx" FX GFloatingPoint TGeneral;
  X 0xfc000050 "fnegx" FX GFloatingPoint TGeneral;
  X 0xec00003e "fnmaddsx" FA GFloatingPoint TGeneral;
  X 0xfc00003e "fnmaddx" FA GFloatingPoint TGeneral;
  X 0xec00003c "fnmsubsx" FA GFloatingPoint TGeneral;
  X 0xfc00003c "fnmsubx" FA GFloatingPoint TGeneral;
  X 0xec000030 "fresx" FA GFloatingPoint TGeneral;
  X 0xfc000018 "frspx" FX GFloatingPoint TGeneral;
  X 0xfc000034 "frsqrtex" FA GFloatingPoint TGeneral;
  X 0xfc00002e "fselx" FA GFloatingPoint TGeneral;
  X 0xec00002c "fsqrtsx" FA GFloatingPoint TGeneral;
  X 0xfc00002c "fsqrtx" FA GFloatingPoint TGeneral;
  X 0xec000028 "fsubsx" FA GFloatingPoint TGeneral;
  X 0xfc000028 "fsubx" FA GFloatingPoint TGeneral;
  X 0x7c0007ac "icbi" FX GMemory TGeneral;
  X 0x4c00012c "isync" FXL GInteger TGeneral;
  X 0x88000000 "lbz" FD GMemory TGeneral;
  X 0x8c000000 "lbzu" FD GMemory TGeneral;
  X 0x7c0000ee "lbzux" FX GMemory TGeneral;
  X 0x7c0000ae "lbzx" FX GMemory TGeneral;
  X 0xe8000000 "ld" FDS GMemory TGeneral;
  X 0x7c0000a8 "ldarx" FX GMemory TGeneral;
  X 0x7c000428 "ldbrx" FX GMemory TGeneral;
  X 0xe8000001 "ldu" FDS GMemory TGeneral;
  X 0x7c00006a "ldux" FX GMemory TGeneral;
  X 0x7c00002a "ldx" FX GMemory TGeneral;
  X 0xc8000000 "lfd" FD GMemory TGeneral;
  X 0xcc000000 "lfdu" FD GMemory TGeneral;
  X 0x7c0004ee "lfdux" FX GMemory TGeneral;
  X 0x7c0004ae "lfdx" FX GMemory TGeneral;
  X 0xc0000000 "lfs" FD GMemory TGeneral;
  X 0xc4000000 "lfsu" FD GMemory TGeneral;
  X 0x7c00046e "lfsux" FX GMemory TGeneral;
  X 0x7c00042e "lfsx" FX GMemory TGeneral;
  X 0xa8000000 "lha" FD GMemory TGeneral;
  X 0xac000000 "lhau" FD GMemory TGeneral;
  X 0x7c0002ee "lhaux" FX GMemory TGeneral;
  X 0x7c0002ae "lhax" FX GMemory TGeneral;
  X 0x7c00062c "lhbrx" FX GMemory TGeneral;
  X 0xa0000000 "lhz" FD GMemory TGeneral;
  X 0xa4000000 "lhzu" FD GMemory TGeneral;
  X 0x7c00026e "lhzux" FX GMemory TGeneral;
  X 0x7c00022e "lhzx" FX GMemory TGeneral;
  X 0xb8000000 "lmw" FD GMemory TGeneral;
  X 0x7c0004aa "lswi" FX GMemory TGeneral;
  X 0x7c00042a "lswx" FX GMemory TGeneral;
  X 0x7c00000e "lvebx" FX GMemory TGeneral;
  X 0x7c00004e "lvehx" FX GMemory TGeneral;
  X 0x7c00008e "lvewx" FX GMemory TGeneral;
  X 0x10000083 "lvewx128" FVX128_1 GMemory TGeneral;
  X 0x7c00040e "lvlx" FX GMemory TGeneral;
  X 0x10000403 "lvlx128" FVX128_1 GMemory TGeneral
].

Definition opcode_catalog_2 : list RawOpcodeInfo := [
  X 0x7c00060e "lvlxl" FX GMemory TGeneral;
  X 0x10000603 "lvlxl128" FVX128_1 GMemory TGeneral;
  X 0x7c00044e "lvrx" FX GMemory TGeneral;
  X 0x10000443 "lvrx128" FVX128_1 GMemory TGeneral;
  X 0x7c00064e "lvrxl" FX GMemory TGeneral;
  X 0x10000643 "lvrxl128" FVX128_1 GMemory TGeneral;
  X 0x7c00000c "lvsl" FX GVector TGeneral;
  X 0x10000003 "lvsl128" FVX128_1 GVector TGeneral;
  X 0x7c00004c "lvsr" FX GVector TGeneral;
  X 0x10000043 "lvsr128" FVX128_1 GVector TGeneral;
  X 0x7c0000ce "lvx" FX GMemory TGeneral;
  X 0x100000c3 "lvx128" FVX128_1 GMemory TGeneral;
  X 0x7c0002ce "lvxl" FX GMemory TGeneral;
  X 0x100002c3 "lvxl128" FVX128_1 GMemory TGeneral;
  X 0xe8000002 "lwa" FDS GMemory TGeneral;
  X 0x7c000028 "lwarx" FX GMemory TGeneral;
  X 0x7c0002ea "lwaux" FX GMemory TGeneral;
  X 0x7c0002aa "lwax" FX GMemory TGeneral;
  X 0x7c00042c "lwbrx" FX GMemory TGeneral;
  X 0x80000000 "lwz" FD GMemory TGeneral;
  X 0x84000000 "lwzu" FD GMemory TGeneral;
  X 0x7c00006e "lwzux" FX GMemory TGeneral;
  X 0x7c00002e "lwzx" FX GMemory TGeneral;
  X 0x4c000000 "mcrf" FXL GControl TGeneral;
  X 0xfc000080 "mcrfs" FX GControl TGeneral;
  X 0x7c000400 "mcrxr" FX GControl TGeneral;
  X 0x7c000026 "mfcr" FX GControl TGeneral;
  X 0xfc00048e "mffsx" FX GControl TGeneral;
  X 0x7c0000a6 "mfmsr" FX GControl TSynchronizing;
  X 0x7c0002a6 "mfspr" FXFX GControl TGeneral;
  X 0x7c0002e6 "mftb" FXFX GControl TGeneral;
  X 0x10000604 "mfvscr" FVX GControl TGeneral;
  X 0x7c000120 "mtcrf" FXFX GControl TGeneral;
  X 0xfc00008c "mtfsb0x" FX GControl TGeneral;
  X 0xfc00004c "mtfsb1x" FX GControl TGeneral;
  X 0xfc00010c "mtfsfix" FX GControl TGeneral;
  X 0xfc00058e "mtfsfx" FXFL GControl TGeneral;
  X 0x7c000124 "mtmsr" FX GControl TSynchronizing;
  X 0x7c000164 "mtmsrd" FX GControl TSynchronizing;
  X 0x7c0003a6 "mtspr" FXFX GControl TGeneral;
  X 0x10000644 "mtvscr" FVX GControl TGeneral;
  X 0x7c000012 "mulhdux" FXO GInteger TGeneral;
  X 0x7c000092 "mulhdx" FXO GInteger TGeneral;
  X 0x7c000016 "mulhwux" FXO GInteger TGeneral;
  X 0x7c000096 "mulhwx" FXO GInteger TGeneral;
  X 0x7c0001d2 "mulldx" FXO GInteger TGeneral;
  X 0x1c000000 "mulli" FD GInteger TGeneral;
  X 0x7c0001d6 "mullwx" FXO GInteger TGeneral;
  X 0x7c0003b8 "nandx" FX GInteger TGeneral;
  X 0x7c0000d0 "negx" FXO GInteger TGeneral;
  X 0x7c0000f8 "norx" FX GInteger TGeneral;
  X 0x7c000338 "orcx" FX GInteger TGeneral;
  X 0x60000000 "ori" FD GInteger TGeneral;
  X 0x64000000 "oris" FD GInteger TGeneral;
  X 0x7c000378 "orx" FX GInteger TGeneral;
  X 0x78000010 "rldclx" FMDS GInteger TGeneral;
  X 0x78000012 "rldcrx" FMDS GInteger TGeneral;
  X 0x78000000 "rldiclx" FMD GInteger TGeneral;
  X 0x78000004 "rldicrx" FMD GInteger TGeneral;
  X 0x78000008 "rldicx" FMD GInteger TGeneral;
  X 0x7800000c "rldimix" FMD GInteger TGeneral;
  X 0x50000000 "rlwimix" FM GInteger TGeneral;
  X 0x54000000 "rlwinmx" FM GInteger TGeneral;
  X 0x5c000000 "rlwnmx" FM GInteger TGeneral;
  X 0x44000002 "sc" FSC GBranch TSynchronizing;
  X 0x7c000036 "sldx" FX GInteger TGeneral;
  X 0x7c000030 "slwx" FX GInteger TGeneral;
  X 0x7c000674 "sradix" FXS GInteger TGeneral;
  X 0x7c000634 "sradx" FX GInteger TGeneral;
  X 0x7c000670 "srawix" FX GInteger TGeneral;
  X 0x7c000630 "srawx" FX GInteger TGeneral;
  X 0x7c000436 "srdx" FX GInteger TGeneral;
  X 0x7c000430 "srwx" FX GInteger TGeneral;
  X 0x98000000 "stb" FD GMemory TGeneral;
  X 0x9c000000 "stbu" FD GMemory TGeneral;
  X 0x7c0001ee "stbux" FX GMemory TGeneral;
  X 0x7c0001ae "stbx" FX GMemory TGeneral;
  X 0xf8000000 "std" FDS GMemory TGeneral;
  X 0x7c000528 "stdbrx" FX GMemory TGeneral;
  X 0x7c0001ad "stdcx" FX GMemory TGeneral;
  X 0xf8000001 "stdu" FDS GMemory TGeneral;
  X 0x7c00016a "stdux" FX GMemory TGeneral;
  X 0x7c00012a "stdx" FX GMemory TGeneral;
  X 0xd8000000 "stfd" FD GMemory TGeneral;
  X 0xdc000000 "stfdu" FD GMemory TGeneral;
  X 0x7c0005ee "stfdux" FX GMemory TGeneral;
  X 0x7c0005ae "stfdx" FX GMemory TGeneral;
  X 0x7c0007ae "stfiwx" FX GMemory TGeneral;
  X 0xd0000000 "stfs" FD GMemory TGeneral;
  X 0xd4000000 "stfsu" FD GMemory TGeneral;
  X 0x7c00056e "stfsux" FX GMemory TGeneral;
  X 0x7c00052e "stfsx" FX GMemory TGeneral;
  X 0xb0000000 "sth" FD GMemory TGeneral;
  X 0x7c00072c "sthbrx" FX GMemory TGeneral;
  X 0xb4000000 "sthu" FD GMemory TGeneral;
  X 0x7c00036e "sthux" FX GMemory TGeneral;
  X 0x7c00032e "sthx" FX GMemory TGeneral;
  X 0xbc000000 "stmw" FD GMemory TGeneral;
  X 0x7c0005aa "stswi" FX GMemory TGeneral;
  X 0x7c00052a "stswx" FX GMemory TGeneral;
  X 0x7c00010e "stvebx" FX GMemory TGeneral;
  X 0x7c00014e "stvehx" FX GMemory TGeneral;
  X 0x7c00018e "stvewx" FX GMemory TGeneral;
  X 0x10000183 "stvewx128" FVX128_1 GMemory TGeneral;
  X 0x7c00050e "stvlx" FX GMemory TGeneral;
  X 0x10000503 "stvlx128" FVX128_1 GMemory TGeneral;
  X 0x7c00070e "stvlxl" FX GMemory TGeneral;
  X 0x10000703 "stvlxl128" FVX128_1 GMemory TGeneral;
  X 0x7c00054e "stvrx" FX GMemory TGeneral;
  X 0x10000543 "stvrx128" FVX128_1 GMemory TGeneral;
  X 0x7c00074e "stvrxl" FX GMemory TGeneral;
  X 0x10000743 "stvrxl128" FVX128_1 GMemory TGeneral;
  X 0x7c0001ce "stvx" FX GMemory TGeneral;
  X 0x100001c3 "stvx128" FVX128_1 GMemory TGeneral;
  X 0x7c0003ce "stvxl" FX GMemory TGeneral;
  X 0x100003c3 "stvxl128" FVX128_1 GMemory TGeneral;
  X 0x90000000 "stw" FD GMemory TGeneral;
  X 0x7c00052c "stwbrx" FX GMemory TGeneral
].

Definition opcode_catalog_3 : list RawOpcodeInfo := [
  X 0x7c00012d "stwcx" FX GMemory TGeneral;
  X 0x94000000 "stwu" FD GMemory TGeneral;
  X 0x7c00016e "stwux" FX GMemory TGeneral;
  X 0x7c00012e "stwx" FX GMemory TGeneral;
  X 0x7c000010 "subfcx" FXO GInteger TGeneral;
  X 0x7c000110 "subfex" FXO GInteger TGeneral;
  X 0x20000000 "subficx" FD GInteger TGeneral;
  X 0x7c0001d0 "subfmex" FXO GInteger TGeneral;
  X 0x7c000050 "subfx" FXO GInteger TGeneral;
  X 0x7c000190 "subfzex" FXO GInteger TGeneral;
  X 0x7c0004ac "sync" FX GInteger TGeneral;
  X 0x7c000088 "td" FX GBranch TGeneral;
  X 0x08000000 "tdi" FD GBranch TGeneral;
  X 0x7c000008 "tw" FX GBranch TGeneral;
  X 0x0c000000 "twi" FD GBranch TGeneral;
  X 0x10000180 "vaddcuw" FVX GVector TGeneral;
  X 0x1000000a "vaddfp" FVX GVector TGeneral;
  X 0x14000010 "vaddfp128" FVX128 GVector TGeneral;
  X 0x10000300 "vaddsbs" FVX GVector TGeneral;
  X 0x10000340 "vaddshs" FVX GVector TGeneral;
  X 0x10000380 "vaddsws" FVX GVector TGeneral;
  X 0x10000000 "vaddubm" FVX GVector TGeneral;
  X 0x10000200 "vaddubs" FVX GVector TGeneral;
  X 0x10000040 "vadduhm" FVX GVector TGeneral;
  X 0x10000240 "vadduhs" FVX GVector TGeneral;
  X 0x10000080 "vadduwm" FVX GVector TGeneral;
  X 0x10000280 "vadduws" FVX GVector TGeneral;
  X 0x10000404 "vand" FVX GVector TGeneral;
  X 0x14000210 "vand128" FVX128 GVector TGeneral;
  X 0x10000444 "vandc" FVX GVector TGeneral;
  X 0x14000250 "vandc128" FVX128 GVector TGeneral;
  X 0x10000502 "vavgsb" FVX GVector TGeneral;
  X 0x10000542 "vavgsh" FVX GVector TGeneral;
  X 0x10000582 "vavgsw" FVX GVector TGeneral;
  X 0x10000402 "vavgub" FVX GVector TGeneral;
  X 0x10000442 "vavguh" FVX GVector TGeneral;
  X 0x10000482 "vavguw" FVX GVector TGeneral;
  X 0x18000230 "vcfpsxws128" FVX128_3 GVector TGeneral;
  X 0x18000270 "vcfpuxws128" FVX128_3 GVector TGeneral;
  X 0x1000034a "vcfsx" FVX GVector TGeneral;
  X 0x1000030a "vcfux" FVX GVector TGeneral;
  X 0x100003c6 "vcmpbfp" FVC GVector TGeneral;
  X 0x18000180 "vcmpbfp128" FVX128_R GVector TGeneral;
  X 0x100000c6 "vcmpeqfp" FVC GVector TGeneral;
  X 0x18000000 "vcmpeqfp128" FVX128_R GVector TGeneral;
  X 0x10000006 "vcmpequb" FVC GVector TGeneral;
  X 0x10000046 "vcmpequh" FVC GVector TGeneral;
  X 0x10000086 "vcmpequw" FVC GVector TGeneral;
  X 0x18000200 "vcmpequw128" FVX128_R GVector TGeneral;
  X 0x100001c6 "vcmpgefp" FVC GVector TGeneral;
  X 0x18000080 "vcmpgefp128" FVX128_R GVector TGeneral;
  X 0x100002c6 "vcmpgtfp" FVC GVector TGeneral;
  X 0x18000100 "vcmpgtfp128" FVX128_R GVector TGeneral;
  X 0x10000306 "vcmpgtsb" FVC GVector TGeneral;
  X 0x10000346 "vcmpgtsh" FVC GVector TGeneral;
  X 0x10000386 "vcmpgtsw" FVC GVector TGeneral;
  X 0x10000206 "vcmpgtub" FVC GVector TGeneral;
  X 0x10000246 "vcmpgtuh" FVC GVector TGeneral;
  X 0x10000286 "vcmpgtuw" FVC GVector TGeneral;
  X 0x180002b0 "vcsxwfp128" FVX128_3 GVector TGeneral;
  X 0x100003ca "vctsxs" FVX GVector TGeneral;
  X 0x1000038a "vctuxs" FVX GVector TGeneral;
  X 0x180002f0 "vcuxwfp128" FVX128_3 GVector TGeneral;
  X 0x1000018a "vexptefp" FVX GVector TGeneral;
  X 0x180006b0 "vexptefp128" FVX128_3 GVector TGeneral;
  X 0x100001ca "vlogefp" FVX GVector TGeneral;
  X 0x180006f0 "vlogefp128" FVX128_3 GVector TGeneral;
  X 0x14000110 "vmaddcfp128" FVX128 GVector TGeneral;
  X 0x1000002e "vmaddfp" FVA GVector TGeneral;
  X 0x140000d0 "vmaddfp128" FVX128 GVector TGeneral;
  X 0x1000040a "vmaxfp" FVX GVector TGeneral;
  X 0x18000280 "vmaxfp128" FVX128 GVector TGeneral;
  X 0x10000102 "vmaxsb" FVX GVector TGeneral;
  X 0x10000142 "vmaxsh" FVX GVector TGeneral;
  X 0x10000182 "vmaxsw" FVX GVector TGeneral;
  X 0x10000002 "vmaxub" FVX GVector TGeneral;
  X 0x10000042 "vmaxuh" FVX GVector TGeneral;
  X 0x10000082 "vmaxuw" FVX GVector TGeneral;
  X 0x10000020 "vmhaddshs" FVA GVector TGeneral;
  X 0x10000021 "vmhraddshs" FVA GVector TGeneral;
  X 0x1000044a "vminfp" FVX GVector TGeneral;
  X 0x180002c0 "vminfp128" FVX128 GVector TGeneral;
  X 0x10000302 "vminsb" FVX GVector TGeneral;
  X 0x10000342 "vminsh" FVX GVector TGeneral;
  X 0x10000382 "vminsw" FVX GVector TGeneral;
  X 0x10000202 "vminub" FVX GVector TGeneral;
  X 0x10000242 "vminuh" FVX GVector TGeneral;
  X 0x10000282 "vminuw" FVX GVector TGeneral;
  X 0x10000022 "vmladduhm" FVA GVector TGeneral;
  X 0x1000000c "vmrghb" FVX GVector TGeneral;
  X 0x1000004c "vmrghh" FVX GVector TGeneral;
  X 0x1000008c "vmrghw" FVX GVector TGeneral;
  X 0x18000300 "vmrghw128" FVX128 GVector TGeneral;
  X 0x1000010c "vmrglb" FVX GVector TGeneral;
  X 0x1000014c "vmrglh" FVX GVector TGeneral;
  X 0x1000018c "vmrglw" FVX GVector TGeneral;
  X 0x18000340 "vmrglw128" FVX128 GVector TGeneral;
  X 0x14000190 "vmsum3fp128" FVX128 GVector TGeneral;
  X 0x140001d0 "vmsum4fp128" FVX128 GVector TGeneral;
  X 0x10000025 "vmsummbm" FVA GVector TGeneral;
  X 0x10000028 "vmsumshm" FVA GVector TGeneral;
  X 0x10000029 "vmsumshs" FVA GVector TGeneral;
  X 0x10000024 "vmsumubm" FVA GVector TGeneral;
  X 0x10000026 "vmsumuhm" FVA GVector TGeneral;
  X 0x10000027 "vmsumuhs" FVA GVector TGeneral;
  X 0x10000308 "vmulesb" FVX GVector TGeneral;
  X 0x10000348 "vmulesh" FVX GVector TGeneral;
  X 0x10000208 "vmuleub" FVX GVector TGeneral;
  X 0x10000248 "vmuleuh" FVX GVector TGeneral;
  X 0x14000090 "vmulfp128" FVX128 GVector TGeneral;
  X 0x10000108 "vmulosb" FVX GVector TGeneral;
  X 0x10000148 "vmulosh" FVX GVector TGeneral;
  X 0x10000008 "vmuloub" FVX GVector TGeneral;
  X 0x10000048 "vmulouh" FVX GVector TGeneral;
  X 0x1000002f "vnmsubfp" FVA GVector TGeneral;
  X 0x14000150 "vnmsubfp128" FVX128 GVector TGeneral;
  X 0x10000504 "vnor" FVX GVector TGeneral;
  X 0x14000290 "vnor128" FVX128 GVector TGeneral
].

Definition opcode_catalog_4 : list RawOpcodeInfo := [
  X 0x10000484 "vor" FVX GVector TGeneral;
  X 0x140002d0 "vor128" FVX128 GVector TGeneral;
  X 0x1000002b "vperm" FVA GVector TGeneral;
  X 0x14000000 "vperm128" FVX128_2 GVector TGeneral;
  X 0x18000210 "vpermwi128" FVX128_P GVector TGeneral;
  X 0x18000610 "vpkd3d128" FVX128_4 GVector TGeneral;
  X 0x1000030e "vpkpx" FVX GVector TGeneral;
  X 0x1000018e "vpkshss" FVX GVector TGeneral;
  X 0x14000200 "vpkshss128" FVX128 GVector TGeneral;
  X 0x1000010e "vpkshus" FVX GVector TGeneral;
  X 0x14000240 "vpkshus128" FVX128 GVector TGeneral;
  X 0x100001ce "vpkswss" FVX GVector TGeneral;
  X 0x14000280 "vpkswss128" FVX128 GVector TGeneral;
  X 0x1000014e "vpkswus" FVX GVector TGeneral;
  X 0x140002c0 "vpkswus128" FVX128 GVector TGeneral;
  X 0x1000000e "vpkuhum" FVX GVector TGeneral;
  X 0x14000300 "vpkuhum128" FVX128 GVector TGeneral;
  X 0x1000008e "vpkuhus" FVX GVector TGeneral;
  X 0x14000340 "vpkuhus128" FVX128 GVector TGeneral;
  X 0x1000004e "vpkuwum" FVX GVector TGeneral;
  X 0x14000380 "vpkuwum128" FVX128 GVector TGeneral;
  X 0x100000ce "vpkuwus" FVX GVector TGeneral;
  X 0x140003c0 "vpkuwus128" FVX128 GVector TGeneral;
  X 0x1000010a "vrefp" FVX GVector TGeneral;
  X 0x18000630 "vrefp128" FVX128_3 GVector TGeneral;
  X 0x100002ca "vrfim" FVX GVector TGeneral;
  X 0x18000330 "vrfim128" FVX128_3 GVector TGeneral;
  X 0x1000020a "vrfin" FVX GVector TGeneral;
  X 0x18000370 "vrfin128" FVX128_3 GVector TGeneral;
  X 0x1000028a "vrfip" FVX GVector TGeneral;
  X 0x180003b0 "vrfip128" FVX128_3 GVector TGeneral;
  X 0x1000024a "vrfiz" FVX GVector TGeneral;
  X 0x180003f0 "vrfiz128" FVX128_3 GVector TGeneral;
  X 0x10000004 "vrlb" FVX GVector TGeneral;
  X 0x10000044 "vrlh" FVX GVector TGeneral;
  X 0x18000710 "vrlimi128" FVX128_4 GVector TGeneral;
  X 0x10000084 "vrlw" FVX GVector TGeneral;
  X 0x18000050 "vrlw128" FVX128 GVector TGeneral;
  X 0x1000014a "vrsqrtefp" FVX GVector TGeneral;
  X 0x18000670 "vrsqrtefp128" FVX128_3 GVector TGeneral;
  X 0x1000002a "vsel" FVA GVector TGeneral;
  X 0x14000350 "vsel128" FVX128 GVector TGeneral;
  X 0x100001c4 "vsl" FVX GVector TGeneral;
  X 0x10000104 "vslb" FVX GVector TGeneral;
  X 0x1000002c "vsldoi" FVA GVector TGeneral;
  X 0x10000010 "vsldoi128" FVX128_5 GVector TGeneral;
  X 0x10000144 "vslh" FVX GVector TGeneral;
  X 0x1000040c "vslo" FVX GVector TGeneral;
  X 0x14000390 "vslo128" FVX128 GVector TGeneral;
  X 0x10000184 "vslw" FVX GVector TGeneral;
  X 0x180000d0 "vslw128" FVX128 GVector TGeneral;
  X 0x1000020c "vspltb" FVX GVector TGeneral;
  X 0x1000024c "vsplth" FVX GVector TGeneral;
  X 0x1000030c "vspltisb" FVX GVector TGeneral;
  X 0x1000034c "vspltish" FVX GVector TGeneral;
  X 0x1000038c "vspltisw" FVX GVector TGeneral;
  X 0x18000770 "vspltisw128" FVX128_3 GVector TGeneral;
  X 0x1000028c "vspltw" FVX GVector TGeneral;
  X 0x18000730 "vspltw128" FVX128_3 GVector TGeneral;
  X 0x100002c4 "vsr" FVX GVector TGeneral;
  X 0x10000304 "vsrab" FVX GVector TGeneral;
  X 0x10000344 "vsrah" FVX GVector TGeneral;
  X 0x10000384 "vsraw" FVX GVector TGeneral;
  X 0x18000150 "vsraw128" FVX128 GVector TGeneral;
  X 0x10000204 "vsrb" FVX GVector TGeneral;
  X 0x10000244 "vsrh" FVX GVector TGeneral;
  X 0x1000044c "vsro" FVX GVector TGeneral;
  X 0x140003d0 "vsro128" FVX128 GVector TGeneral;
  X 0x10000284 "vsrw" FVX GVector TGeneral;
  X 0x180001d0 "vsrw128" FVX128 GVector TGeneral;
  X 0x10000580 "vsubcuw" FVX GVector TGeneral;
  X 0x1000004a "vsubfp" FVX GVector TGeneral;
  X 0x14000050 "vsubfp128" FVX128 GVector TGeneral;
  X 0x10000700 "vsubsbs" FVX GVector TGeneral;
  X 0x10000740 "vsubshs" FVX GVector TGeneral;
  X 0x10000780 "vsubsws" FVX GVector TGeneral;
  X 0x10000400 "vsububm" FVX GVector TGeneral;
  X 0x10000600 "vsububs" FVX GVector TGeneral;
  X 0x10000440 "vsubuhm" FVX GVector TGeneral;
  X 0x10000640 "vsubuhs" FVX GVector TGeneral;
  X 0x10000480 "vsubuwm" FVX GVector TGeneral;
  X 0x10000680 "vsubuws" FVX GVector TGeneral;
  X 0x10000688 "vsum2sws" FVX GVector TGeneral;
  X 0x10000708 "vsum4sbs" FVX GVector TGeneral;
  X 0x10000648 "vsum4shs" FVX GVector TGeneral;
  X 0x10000608 "vsum4ubs" FVX GVector TGeneral;
  X 0x10000788 "vsumsws" FVX GVector TGeneral;
  X 0x180007f0 "vupkd3d128" FVX128_3 GVector TGeneral;
  X 0x1000034e "vupkhpx" FVX GVector TGeneral;
  X 0x1000020e "vupkhsb" FVX GVector TGeneral;
  X 0x18000380 "vupkhsb128" FVX128 GVector TGeneral;
  X 0x1000024e "vupkhsh" FVX GVector TGeneral;
  X 0x100003ce "vupklpx" FVX GVector TGeneral;
  X 0x1000028e "vupklsb" FVX GVector TGeneral;
  X 0x180003c0 "vupklsb128" FVX128 GVector TGeneral;
  X 0x100002ce "vupklsh" FVX GVector TGeneral;
  X 0x100004c4 "vxor" FVX GVector TGeneral;
  X 0x14000310 "vxor128" FVX128 GVector TGeneral;
  X 0x68000000 "xori" FD GInteger TGeneral;
  X 0x6c000000 "xoris" FD GInteger TGeneral;
  X 0x7c000278 "xorx" FX GInteger TGeneral
].

Definition kRawCatalog : list RawOpcodeInfo :=
  opcode_catalog_1 ++ opcode_catalog_2 ++ opcode_catalog_3 ++ opcode_catalog_4.
