(* ===== verification/Decoder.v ===== *)
(** * The instruction decoder (src/cpu/ppc/decoder/decoder.cpp)

    The catalogue with its FNV-1a opcode identities, the per-primary decode
    buckets sorted by mask specificity, the bucketed first-match decoder and
    the catalogue self-check. *)

From S2P Require Import Prelude.
From S2P Require Import Words.
From S2P Require Import Instr.
From S2P Require Import Catalog.

(** [std::popcount] of a 32-bit mask. *)
Fixpoint pos_ones (p : positive) : nat :=
  match p with xH => 1 | xO p => pos_ones p | xI p => S (pos_ones p) end.
Definition popcount (x : Z) : nat := match x with Zpos p => pos_ones p | _ => 0 end.

Definition fnv_step (hash c : Z) : Z := u32 ((hash .^ c) * 16777619).

Definition opcode_id_for (mnemonic : string) : Z :=
  let hash := foldl (λ h c, fnv_step h (Z.of_N (Ascii.N_of_ascii c))) 2166136261
                (String.list_ascii_of_string mnemonic) in
  if hash =? 0 then 1 else hash.

Definition make_catalog : list OpcodeInfo :=
  (λ source, mkOpcodeInfo (opcode_id_for (raw_mnemonic source)) (raw_pattern source)
     (raw_mask source) (raw_mnemonic source) (raw_format source) (raw_group source)
     (raw_type source)) <$> kRawCatalog.

Definition kCatalog : list OpcodeInfo := Eval vm_compute in make_catalog.

#[export] Instance OpcodeInfo_inhabited : Inhabited OpcodeInfo :=
  populate (mkOpcodeInfo 0 0 0 "" FSC GBranch TGeneral).

#[export] Instance OpcodeInfo_eq_dec : EqDecision OpcodeInfo.
Proof. solve_decision. Defined.

(** ** The decode index *)

(** Body of the inner loop of the bucket sort: exchange positions [i] and [j]
    when the mask at [j] is strictly more specific. *)
Definition exchange (mask_bits : nat -> nat) (i : nat) (bucket : list nat) (j : nat) : list nat :=
  let idx_i := bucket !!! i in
  let idx_j := bucket !!! j in
  if (mask_bits idx_i <? mask_bits idx_j)%nat
  then <[j := idx_i]> (<[i := idx_j]> bucket) else bucket.

Definition sort_bucket (mask_bits : nat -> nat) (bucket : list nat) : list nat :=
  let count := length bucket in
  foldl (λ b i, foldl (exchange mask_bits i) b (seq (S i) (count - S i))) bucket (seq 0 count).

(** Catalogue positions whose pattern has the given primary opcode, sorted. The
    source stores the 64 buckets back to back in one array with a (begin, count)
    pair each; here a bucket is its own list. *)
Definition make_bucket (primary : Z) : list nat :=
  sort_bucket (λ i, popcount (oi_mask (kCatalog !!! i)))
    (filter (λ i, oi_pattern (kCatalog !!! i) .>> 26 = primary) (seq 0 (length kCatalog))).

Definition make_decode_index : list (list nat) := make_bucket <$> seqZ 0 64.

Definition kDecodeIndex : list (list nat) := Eval vm_compute in make_decode_index.

Definition op_matches (word : Z) (op : OpcodeInfo) : bool :=
  word .& oi_mask op =? oi_pattern op .& oi_mask op.

Definition decode (address : GuestAddress) (word : Z) : DecodedInstruction :=
  let primary := word .>> 26 in
  let bucket := kDecodeIndex !!! Z.to_nat primary in
  mkDecoded address word
    (List.find (op_matches word) ((λ i, kCatalog !!! i) <$> bucket)).

Definition opcode_info (id : OpcodeId) : option OpcodeInfo :=
  if opcode_valid id then List.find (λ op, oi_id op =? id) kCatalog else None.

(** ** The catalogue self-check *)

Definition patterns_overlap (a b : OpcodeInfo) : bool :=
  let common := oi_mask a .& oi_mask b in
  oi_pattern a .& common =? oi_pattern b .& common.

Record OpcodeCatalogValidation : Type := mkValidation {
  entry_count : nat;
  ambiguous_overlaps : nat;
  duplicate_ids : nat;
  deterministic : bool
}.

Definition pair_overlaps (a b : OpcodeInfo) : bool :=
  if oi_pattern a .>> 26 =? oi_pattern b .>> 26 then
    if patterns_overlap a b then (popcount (oi_mask a) =? popcount (oi_mask b))%nat else false
  else false.

Fixpoint validate_from (ops : list OpcodeInfo) (r : OpcodeCatalogValidation) :
    OpcodeCatalogValidation :=
  match ops with
  | [] => r
  | a :: rest =>
      let invalid := if opcode_valid (oi_id a) then 0%nat else 1%nat in
      let dup := length (filter (λ b, oi_id a = oi_id b) rest) in
      let amb := length (List.filter (pair_overlaps a) rest) in
      validate_from rest
        (mkValidation (entry_count r) (ambiguous_overlaps r + amb)
           (duplicate_ids r + invalid + dup) (deterministic r))
  end.

Definition validate_catalog : OpcodeCatalogValidation :=
  let r := validate_from kCatalog (mkValidation (length kCatalog) 0 0 false) in
  mkValidation (entry_count r) (ambiguous_overlaps r) (duplicate_ids r)
    ((duplicate_ids r =? 0)%nat && (ambiguous_overlaps r =? 0)%nat).

(** ** Correctness of the decode index *)

(** The catalogue entry that the architecture prescribes for a word: it matches,
    and every other matching entry is strictly less specific. *)
Definition best_match (word : Z) (op : OpcodeInfo) : Prop :=
  op ∈ kCatalog /\ op_matches word op = true /\
  forall op', op' ∈ kCatalog -> op_matches word op' = true -> op' <> op ->
    (popcount (oi_mask op') < popcount (oi_mask op))%nat.

Definition bucket_ops (primary : Z) : list OpcodeInfo :=
  (λ i, kCatalog !!! i) <$> kDecodeIndex !!! Z.to_nat primary.

Definition specificity_ge (a b : OpcodeInfo) : bool :=
  (popcount (oi_mask b) <=? popcount (oi_mask a))%nat.

(** The facts about the concrete tables that the decoder relies on, as one
    boolean check per bucket. *)
Fixpoint strongly_sortedb (ops : list OpcodeInfo) : bool :=
  match ops with
  | [] => true
  | a :: rest => forallb (specificity_ge a) rest && strongly_sortedb rest
  end.

Definition bucket_ok (primary : Z) : bool :=
  let ops := bucket_ops primary in
  strongly_sortedb ops
  && forallb (λ op, bool_decide (op ∈ kCatalog)) ops
  && forallb (λ op, if oi_pattern op .>> 26 =? primary then bool_decide (op ∈ ops) else true)
       kCatalog.

Definition row_ok (op : OpcodeInfo) : bool :=
  (oi_mask op .& 0xFC000000 =? 0xFC000000)
  && (0 <=? oi_pattern op) && (oi_pattern op <? 0x100000000)
  && forallb (λ b, bool_decide (op = b) || negb (pair_overlaps op b)) kCatalog.

Lemma buckets_checked : forallb bucket_ok (seqZ 0 64) = true.
Proof. vm_compute. reflexivity. Qed.

Lemma rows_checked : forallb row_ok kCatalog = true.
Proof. vm_compute. reflexivity. Qed.

Lemma kCatalog_make : kCatalog = make_catalog.
Proof. vm_compute. reflexivity. Qed.

Lemma kDecodeIndex_make : kDecodeIndex = make_decode_index.
Proof. vm_compute. reflexivity. Qed.

#[global] Opaque kCatalog kDecodeIndex.

Lemma row_ok_elem op : op ∈ kCatalog -> row_ok op = true.
Proof.
  intros Hin. pose proof rows_checked as Hc. rewrite forallb_forall in Hc.
  apply Hc. by apply list_elem_of_In.
Qed.

Lemma bucket_ok_primary p : 0 <= p < 64 -> bucket_ok p = true.
Proof.
  intros Hp. pose proof buckets_checked as Hc. rewrite forallb_forall in Hc.
  apply Hc. apply list_elem_of_In, elem_of_seqZ. lia.
Qed.

Lemma shiftr26_mask x : is_u32 x -> x .>> 26 = (x .& 0xFC000000) .>> 26.
Proof.
  intros Hx. rewrite Z.shiftr_land. change (0xFC000000 .>> 26) with (Z.ones 6).
  rewrite land_ones_small; [done|lia|].
  rewrite Z.shiftr_div_pow2 by lia. unfold is_u32 in Hx.
  change (2 ^ 26) with 0x4000000. change (2 ^ 6) with 64.
  Z.to_euclidean_division_equations; lia.
Qed.

(** Matching entries share the primary opcode of the word, because every mask
    contains the six primary bits. *)
Lemma op_matches_primary word op :
  is_u32 word -> op ∈ kCatalog -> op_matches word op = true ->
  oi_pattern op .>> 26 = word .>> 26.
Proof.
  intros Hw Hin Hm. apply row_ok_elem in Hin. unfold row_ok in Hin. bool_hyps.
  unfold op_matches in Hm. bool_hyps.
  rewrite (shiftr26_mask word), (shiftr26_mask (oi_pattern op)) by (unfold is_u32 in *; lia).
  f_equal.
  match goal with H : oi_mask op .& _ = _ |- _ => rewrite <- H end.
  rewrite !Z.land_assoc. by f_equal.
Qed.

Lemma strongly_sortedb_spec ops pre a post :
  strongly_sortedb ops = true -> ops = pre ++ a :: post ->
  forall b, b ∈ post -> specificity_ge a b = true.
Proof.
  revert ops. induction pre as [|p pre IH]; intros ops Hs -> b Hb; cbn in Hs; bool_hyps.
  - rewrite forallb_forall in H. apply H. by apply list_elem_of_In.
  - by eapply IH.
Qed.

Lemma find_split {A} (f : A -> bool) l x :
  List.find f l = Some x ->
  exists pre post, l = pre ++ x :: post /\ f x = true /\ forall y, y ∈ pre -> f y = false.
Proof.
  induction l as [|a l IH]; [done|]. cbn. destruct (f a) eqn:Hfa.
  - intros [= <-]. exists [], l. split; [done|]. split; [done|]. intros y Hy. inversion Hy.
  - intros Hf. destruct (IH Hf) as (pre & post & -> & Hx & Hpre).
    exists (a :: pre), post. split; [done|]. split; [done|].
    intros y Hy. apply elem_of_cons in Hy as [->|Hy]; auto.
Qed.

(** Two different entries of one primary opcode that match one word have
    different specificities. *)
Lemma matches_not_ambiguous word a b :
  a ∈ kCatalog -> b ∈ kCatalog -> is_u32 word ->
  op_matches word a = true -> op_matches word b = true -> a <> b ->
  popcount (oi_mask a) <> popcount (oi_mask b).
Proof.
  intros Ha Hb Hw Hma Hmb Hne Heq.
  pose proof (op_matches_primary word a Hw Ha Hma) as Hpa.
  pose proof (op_matches_primary word b Hw Hb Hmb) as Hpb.
  apply row_ok_elem in Ha. unfold row_ok in Ha. bool_hyps.
  match goal with H : forallb _ _ = true |- _ => rewrite forallb_forall in H;
    specialize (H b); rename H into Hall end.
  apply list_elem_of_In in Hb. specialize (Hall Hb).
  rewrite bool_decide_false in Hall by done. cbn in Hall.
  unfold pair_overlaps in Hall. rewrite Hpa, Hpb, Z.eqb_refl in Hall.
  assert (patterns_overlap a b = true) as Hov.
  { unfold op_matches in *. bool_hyps. unfold patterns_overlap. apply Z.eqb_eq.
    rewrite (Z.land_comm (oi_mask a)) at 1. rewrite !Z.land_assoc.
    replace (oi_pattern a .& oi_mask b .& oi_mask a)
      with (oi_pattern a .& oi_mask a .& oi_mask b)
      by (rewrite <- !Z.land_assoc; f_equal; apply Z.land_comm).
    rewrite <- Hma.
    replace (oi_pattern b .& oi_mask a .& oi_mask b)
      with (oi_pattern b .& oi_mask b .& oi_mask a)
      by (rewrite <- !Z.land_assoc; f_equal; apply Z.land_comm).
    rewrite <- Hmb.
    rewrite <- !Z.land_assoc. f_equal. apply Z.land_comm. }
  rewrite Hov, Heq, Nat.eqb_refl in Hall. discriminate.
Qed.

(** C21: The bucketed first-match decoder implements the architectural rule: for
    every 32-bit word it returns the unique most specific matching catalogue
    entry, and reports an invalid instruction exactly when nothing matches. *)
Theorem decode_most_specific (address word : Z) (Hw : is_u32 word) :
  match di_info (decode address word) with
  | Some op => best_match word op /\ forall op', best_match word op' -> op' = op
  | None => forall op, op ∈ kCatalog -> op_matches word op = false
  end.
Proof.
  assert (0 <= word .>> 26 < 64) as Hp.
  { rewrite Z.shiftr_div_pow2 by lia. change (2 ^ 26) with 0x4000000. unfold is_u32 in Hw.
    Z.to_euclidean_division_equations; lia. }
  pose proof (bucket_ok_primary _ Hp) as Hok. unfold bucket_ok in Hok. bool_hyps.
  rewrite forallb_forall in *. unfold decode. cbn [di_info].
  change (List.find (op_matches word) _) with
    (List.find (op_matches word) (bucket_ops (word .>> 26))).
  assert (forall op, op ∈ kCatalog -> op_matches word op = true ->
            op ∈ bucket_ops (word .>> 26)) as Hin.
  { intros op Hop Hm. pose proof (op_matches_primary word op Hw Hop Hm) as Hprim.
    specialize (H0 op). rewrite Hprim, Z.eqb_refl in H0.
    eapply bool_decide_eq_true, H0. by apply list_elem_of_In. }
  destruct (List.find _ _) as [op|] eqn:Hfind.
  - apply find_split in Hfind as (pre & post & Hsplit & Hm & Hpre).
    assert (op ∈ kCatalog) as Hop.
    { eapply bool_decide_eq_true, H1. apply list_elem_of_In. rewrite Hsplit.
      apply elem_of_app. right. apply list_elem_of_here. }
    assert (best_match word op) as Hbest.
    { split; [done|]. split; [done|]. intros op' Hop' Hm' Hne.
      pose proof (Hin op' Hop' Hm') as Hin'. rewrite Hsplit in Hin'.
      apply elem_of_app in Hin' as [Hin'|Hin'].
      { rewrite (Hpre _ Hin') in Hm'. discriminate. }
      apply elem_of_cons in Hin' as [->|Hin']; [done|].
      pose proof (strongly_sortedb_spec _ _ _ _ H Hsplit _ Hin') as Hge.
      unfold specificity_ge in Hge. apply Nat.leb_le in Hge.
      pose proof (matches_not_ambiguous word op op' Hop Hop' Hw Hm Hm' (not_eq_sym Hne)). lia. }
    split; [done|]. intros op' (Hop' & Hm' & Hbest').
    destruct (decide (op' = op)) as [|Hne]; [done|]. exfalso.
    destruct Hbest as (_ & _ & Hb). specialize (Hb op' Hop' Hm' Hne).
    specialize (Hbest' op Hop Hm (not_eq_sym Hne)). lia.
  - intros op Hop. destruct (op_matches word op) eqn:Hm; [|done].
    pose proof (Hin op Hop Hm) as Hin'. apply list_elem_of_In in Hin'.
    pose proof (find_none _ _ Hfind _ Hin'). congruence.
Qed.

Lemma decode_most_specific_witness :
  is_u32 0x7C632A14 /\ best_match 0x7C632A14 (kCatalog !!! 7%nat).
Proof.
  split; [unfold is_u32; lia|].
  pose proof (decode_most_specific 0x82000000 0x7C632A14 ltac:(unfold is_u32; lia)) as H.
  exact (proj1 H).
Defined.

(** C33: The catalogue is deterministic in the source's own sense (455 entries, no
    duplicate identity, no equally specific overlap), every entry is found back
    from its identity, and every entry's own pattern decodes to that entry. *)
Theorem catalog_roundtrip :
  validate_catalog = mkValidation 455 0 0 true /\
  forall op, op ∈ kCatalog ->
    opcode_info (oi_id op) = Some op /\
    di_info (decode 0 (oi_pattern op)) = Some op.
Proof.
  split; [vm_compute; reflexivity|].
  assert (forallb (λ op, bool_decide (opcode_info (oi_id op) = Some op)
    && bool_decide (di_info (decode 0 (oi_pattern op)) = Some op)) kCatalog = true) as Hc
    by (vm_compute; reflexivity).
  rewrite forallb_forall in Hc. intros op Hop. apply list_elem_of_In, Hc in Hop.
  apply andb_true_iff in Hop as [H1 H2]. apply bool_decide_eq_true in H1, H2. done.
Qed.
