(* ===== verification/CpuState.v ===== *)
(** * Architectural CPU state (include/xenon/cpu/state.hpp, src/cpu/ppc/state/state.cpp)

    The register file as a record, the XER, CR, FPSCR and
    VSCR bit definitions, the field accessors, and the lemmas relating them. *)

From S2P Require Import Prelude.
From S2P Require Import Words.

Module xer_bits.
Definition SO := 0x80000000.
Definition OV := 0x40000000.
Definition CA := 0x20000000.
Definition BYTE_COUNT := 0x0000007F.
End xer_bits.

Module fpscr_bits.
Definition FX := 0x80000000.
Definition FEX := 0x40000000.
Definition VX := 0x20000000.
Definition OX := 0x10000000.
Definition UX := 0x08000000.
Definition ZX := 0x04000000.
Definition XX := 0x02000000.
Definition VXSNAN := 0x01000000.
Definition VXISI := 0x00800000.
Definition VXIDI := 0x00400000.
Definition VXZDZ := 0x00200000.
Definition VXIMZ := 0x00100000.
Definition VXVC := 0x00080000.
Definition FR := 0x00040000.
Definition FI := 0x00020000.
Definition FPRF_MASK := 0x0001F000.
Definition VXSOFT := 0x00000400.
Definition VXSQRT := 0x00000200.
Definition VXCVI := 0x00000100.
Definition VE := 0x00000080.
Definition OE := 0x00000040.
Definition UE := 0x00000020.
Definition ZE := 0x00000010.
Definition XE := 0x00000008.
Definition NI := 0x00000004.
Definition RN_MASK := 0x00000003.
End fpscr_bits.

Module vscr_bits.
Definition NJ := 0x00010000.
Definition SAT := 0x00000001.
End vscr_bits.

Record ReservationState : Type := mkReservation {
  res_valid : bool;
  res_width : Z;
  res_address : GuestAddress;
  res_observed_value : Z;
  res_token : Z
}.

Definition reservation_clear : ReservationState := mkReservation false 0 0 0 0.

(** A register array, by index; a register without an entry holds its initial
    value, zero. *)
Abbreviation RegFile A := (gmap Z A).

Record CpuState : Type := mkCpu {
  gpr : RegFile Z;
  fpr_bits : RegFile Z;
  vr : RegFile Vector128;
  lr : Z;
  ctr : Z;
  cr : Z;
  xer : Z;
  fpscr : Z;
  vscr : Z;
  msr : Z;
  vrsave : Z;
  pvr : Z;
  time_base : Z;
  cia : GuestAddress;
  nia : GuestAddress;
  reservation : ReservationState
}.

(** The default member initialisers. *)
Definition CpuState_init : CpuState :=
  mkCpu ∅ ∅ ∅ 0 0 0 0 0 0 0 0
    0x710700 0 0 0 reservation_clear.

#[export] Instance CpuState_inhabited : Inhabited CpuState := populate CpuState_init.
#[export] Instance Vector128_inhabited : Inhabited Vector128 := populate vec_zero.

Definition set_gprs (f : RegFile Z -> RegFile Z) (s : CpuState) : CpuState :=
  mkCpu (f (gpr s)) (fpr_bits s) (vr s) (lr s) (ctr s) (cr s) (xer s) (fpscr s) (vscr s)
    (msr s) (vrsave s) (pvr s) (time_base s) (cia s) (nia s) (reservation s).
Definition set_fprs (f : RegFile Z -> RegFile Z) (s : CpuState) : CpuState :=
  mkCpu (gpr s) (f (fpr_bits s)) (vr s) (lr s) (ctr s) (cr s) (xer s) (fpscr s) (vscr s)
    (msr s) (vrsave s) (pvr s) (time_base s) (cia s) (nia s) (reservation s).
Definition set_vrs (f : RegFile Vector128 -> RegFile Vector128) (s : CpuState) : CpuState :=
  mkCpu (gpr s) (fpr_bits s) (f (vr s)) (lr s) (ctr s) (cr s) (xer s) (fpscr s) (vscr s)
    (msr s) (vrsave s) (pvr s) (time_base s) (cia s) (nia s) (reservation s).
Definition set_lr (v : Z) (s : CpuState) : CpuState :=
  mkCpu (gpr s) (fpr_bits s) (vr s) v (ctr s) (cr s) (xer s) (fpscr s) (vscr s)
    (msr s) (vrsave s) (pvr s) (time_base s) (cia s) (nia s) (reservation s).
Definition set_ctr (v : Z) (s : CpuState) : CpuState :=
  mkCpu (gpr s) (fpr_bits s) (vr s) (lr s) v (cr s) (xer s) (fpscr s) (vscr s)
    (msr s) (vrsave s) (pvr s) (time_base s) (cia s) (nia s) (reservation s).
Definition set_cr (v : Z) (s : CpuState) : CpuState :=
  mkCpu (gpr s) (fpr_bits s) (vr s) (lr s) (ctr s) v (xer s) (fpscr s) (vscr s)
    (msr s) (vrsave s) (pvr s) (time_base s) (cia s) (nia s) (reservation s).
Definition set_xer (v : Z) (s : CpuState) : CpuState :=
  mkCpu (gpr s) (fpr_bits s) (vr s) (lr s) (ctr s) (cr s) v (fpscr s) (vscr s)
    (msr s) (vrsave s) (pvr s) (time_base s) (cia s) (nia s) (reservation s).
Definition set_fpscr (v : Z) (s : CpuState) : CpuState :=
  mkCpu (gpr s) (fpr_bits s) (vr s) (lr s) (ctr s) (cr s) (xer s) v (vscr s)
    (msr s) (vrsave s) (pvr s) (time_base s) (cia s) (nia s) (reservation s).
Definition set_vscr (v : Z) (s : CpuState) : CpuState :=
  mkCpu (gpr s) (fpr_bits s) (vr s) (lr s) (ctr s) (cr s) (xer s) (fpscr s) v
    (msr s) (vrsave s) (pvr s) (time_base s) (cia s) (nia s) (reservation s).
Definition set_msr (v : Z) (s : CpuState) : CpuState :=
  mkCpu (gpr s) (fpr_bits s) (vr s) (lr s) (ctr s) (cr s) (xer s) (fpscr s) (vscr s)
    v (vrsave s) (pvr s) (time_base s) (cia s) (nia s) (reservation s).
Definition set_vrsave (v : Z) (s : CpuState) : CpuState :=
  mkCpu (gpr s) (fpr_bits s) (vr s) (lr s) (ctr s) (cr s) (xer s) (fpscr s) (vscr s)
    (msr s) v (pvr s) (time_base s) (cia s) (nia s) (reservation s).
Definition set_nia (v : Z) (s : CpuState) : CpuState :=
  mkCpu (gpr s) (fpr_bits s) (vr s) (lr s) (ctr s) (cr s) (xer s) (fpscr s) (vscr s)
    (msr s) (vrsave s) (pvr s) (time_base s) (cia s) v (reservation s).
Definition set_reservation (v : ReservationState) (s : CpuState) : CpuState :=
  mkCpu (gpr s) (fpr_bits s) (vr s) (lr s) (ctr s) (cr s) (xer s) (fpscr s) (vscr s)
    (msr s) (vrsave s) (pvr s) (time_base s) (cia s) (nia s) v.

(** ** Array members *)

Definition get_gpr (s : CpuState) (r : Z) : Z := default 0 (gpr s !! r).
Definition set_gpr (r v : Z) (s : CpuState) : CpuState := set_gprs <[r := v]> s.
Definition get_fpr (s : CpuState) (r : Z) : Z := default 0 (fpr_bits s !! r).
Definition set_fpr (r v : Z) (s : CpuState) : CpuState := set_fprs <[r := v]> s.
Definition get_vr (s : CpuState) (r : Z) : Vector128 := default vec_zero (vr s !! r).
Definition set_vr (r : Z) (v : Vector128) (s : CpuState) : CpuState :=
  set_vrs <[r := v]> s.

(** ** Condition register *)

(** [x & ~mask] on a 32-bit register value. *)
Definition bits_clear (x mask : Z) : Z := Z.ldiff x mask.

Definition cr_field (s : CpuState) (field : Z) : Z :=
  let field := field .& 7 in
  let shift := (7 - field) * 4 in
  u8 ((cr s .>> shift) .& 0xF).

Definition set_cr_field (field value : Z) (s : CpuState) : CpuState :=
  let shift := (7 - (field .& 7)) * 4 in
  set_cr (bits_clear (cr s) (u32 (0xF .<< shift)) .| u32 ((value .& 0xF) .<< shift)) s.

Definition cr_bit (s : CpuState) (bit : Z) : bool :=
  let bit := bit .& 31 in
  negb (cr s .& (0x80000000 .>> bit) =? 0).

Definition set_cr_bit (bit : Z) (value : bool) (s : CpuState) : CpuState :=
  let bit := bit .& 31 in
  let mask := 0x80000000 .>> bit in
  set_cr (if value then cr s .| mask else bits_clear (cr s) mask) s.

(** ** XER *)

Definition flag_set (x flag : Z) : bool := negb (x .& flag =? 0).
Definition flag_update (x flag : Z) (v : bool) : Z :=
  if v then x .| flag else bits_clear x flag.

Definition xer_ca (s : CpuState) : bool := flag_set (xer s) xer_bits.CA.
Definition xer_ov (s : CpuState) : bool := flag_set (xer s) xer_bits.OV.
Definition xer_so (s : CpuState) : bool := flag_set (xer s) xer_bits.SO.
Definition set_xer_ca (v : bool) (s : CpuState) : CpuState :=
  set_xer (flag_update (xer s) xer_bits.CA v) s.
Definition set_xer_ov (v : bool) (s : CpuState) : CpuState :=
  set_xer (flag_update (xer s) xer_bits.OV v) s.
Definition set_xer_so (v : bool) (s : CpuState) : CpuState :=
  set_xer (flag_update (xer s) xer_bits.SO v) s.
Definition set_xer_overflow (overflow : bool) (s : CpuState) : CpuState :=
  let s := set_xer_ov overflow s in
  if overflow then set_xer_so true s else s.
Definition xer_byte_count (s : CpuState) : Z := u8 (xer s .& xer_bits.BYTE_COUNT).
Definition set_xer_byte_count (n : Z) (s : CpuState) : CpuState :=
  set_xer (bits_clear (xer s) xer_bits.BYTE_COUNT .| (n .& 0x7F)) s.

(** ** FPSCR and VSCR *)

Inductive FpRoundingMode : Type := Nearest | TowardZero | TowardPositive | TowardNegative.

Definition fp_rounding_mode (s : CpuState) : FpRoundingMode :=
  match fpscr s .& fpscr_bits.RN_MASK with
  | 0 => Nearest | 1 => TowardZero | 2 => TowardPositive | _ => TowardNegative
  end.

Definition vector_non_java (s : CpuState) : bool := flag_set (vscr s) vscr_bits.NJ.
Definition vector_saturated (s : CpuState) : bool := flag_set (vscr s) vscr_bits.SAT.
Definition set_vector_saturated (s : CpuState) : CpuState :=
  set_vscr (vscr s .| vscr_bits.SAT) s.
Definition clear_vector_saturated (s : CpuState) : CpuState :=
  set_vscr (bits_clear (vscr s) vscr_bits.SAT) s.

Definition update_cr0_signed (result : Z) (s : CpuState) : CpuState :=
  let signed_result := s64 result in
  let field := (if signed_result <? 0 then 0x8 else if 0 <? signed_result then 0x4 else 0x2)
               .| (if xer_so s then 0x1 else 0) in
  set_cr_field 0 field s.

Definition update_cr1_from_fpscr (s : CpuState) : CpuState :=
  let f := 0 in
  let f := if flag_set (fpscr s) fpscr_bits.FX then f .| 8 else f in
  let f := if flag_set (fpscr s) fpscr_bits.FEX then f .| 4 else f in
  let f := if flag_set (fpscr s) fpscr_bits.VX then f .| 2 else f in
  let f := if flag_set (fpscr s) fpscr_bits.OX then f .| 1 else f in
  set_cr_field 1 f s.

(** ** Well-formed states: array sizes and word ranges of what instructions compute with *)

Record wf_state (s : CpuState) : Prop := mkWf {
  wf_gpr : map_Forall (λ r v, 0 <= r < 32 /\ is_u64 v) (gpr s);
  wf_fpr : map_Forall (λ r v, 0 <= r < 32 /\ is_u64 v) (fpr_bits s);
  wf_vr : map_Forall (λ r v, 0 <= r < 128 /\ wf_vec v) (vr s);
  wf_lr : is_u64 (lr s);
  wf_ctr : is_u64 (ctr s);
  wf_cr : is_u32 (cr s);
  wf_xer : is_u32 (xer s);
  wf_fpscr : is_u32 (fpscr s);
  wf_vscr : is_u32 (vscr s);
  wf_msr : is_u64 (msr s);
  wf_vrsave : is_u32 (vrsave s);
  wf_pvr : is_u32 (pvr s);
  wf_time_base : is_u64 (time_base s)
}.

(** [set_cr_field] on the register value. *)
Definition field_shift (f : Z) : Z := (7 - (f .& 7)) * 4.
Definition field_put (f v x : Z) : Z :=
  bits_clear x (u32 (0xF .<< field_shift f)) .| u32 ((v .& 0xF) .<< field_shift f).

Lemma set_cr_field_put f v s : set_cr_field f v s = set_cr (field_put f v (cr s)) s.
Proof. done. Qed.

Lemma field_low f : 0 <= f .& 7 <= 7.
Proof.
  assert (f .& 7 = f mod 8) as -> by (by apply (Z.land_ones f 3)).
  pose proof (Z.mod_pos_bound f 8 ltac:(lia)). lia.
Qed.

Lemma field_shift_range f : exists k, 0 <= k <= 7 /\ field_shift f = k * 4.
Proof. pose proof (field_low f). exists (7 - (f .& 7)). unfold field_shift. split; lia. Qed.

Lemma nibble_testbit v n : Z.testbit (v .& 0xF) n = (0 <=? n) && (n <? 4) && Z.testbit v n.
Proof.
  destruct (Z.leb_spec 0 n); [|by rewrite Z.testbit_neg_r by lia].
  change 0xF with (Z.ones 4). rewrite Z.land_spec, Z.testbit_ones by lia.
  rewrite (proj2 (Z.leb_le 0 n)) by lia. cbn. by rewrite andb_comm.
Qed.

(** A field write, bit by bit. *)
Lemma field_put_testbit f v x n :
  0 <= n ->
  Z.testbit (field_put f v x) n =
    if (field_shift f <=? n) && (n <? field_shift f + 4)
    then Z.testbit v (n - field_shift f) else Z.testbit x n.
Proof.
  intros Hn. destruct (field_shift_range f) as (k & Hk & Hs). unfold field_put, bits_clear.
  rewrite Hs, Z.lor_spec, Z.ldiff_spec, !testbit_u32, !Z.shiftl_spec by lia.
  change 0xF with (Z.ones 4 .& 0xF) at 1. rewrite !nibble_testbit.
  destruct (Z.leb_spec (k * 4) n), (Z.ltb_spec n (k * 4 + 4)); cbn [andb].
  - rewrite (proj2 (Z.ltb_lt n 32)), (proj2 (Z.leb_le 0 (n - k * 4))),
      (proj2 (Z.ltb_lt (n - k * 4) 4)) by lia. cbn.
    rewrite Z.testbit_ones by lia. rewrite (proj2 (Z.leb_le 0 (n - k * 4))),
      (proj2 (Z.ltb_lt (n - k * 4) 4)) by lia. cbn. by rewrite andb_false_r.
  - rewrite (proj2 (Z.ltb_ge (n - k * 4) 4)) by lia. rewrite !andb_false_r. cbn.
    by rewrite andb_true_r, orb_false_r.
  - rewrite (proj2 (Z.leb_gt 0 (n - k * 4))) by lia. cbn. rewrite !andb_false_r. cbn.
    by rewrite andb_true_r, orb_false_r.
  - lia.
Qed.

Lemma field_put_twice f v w x : field_put f v (field_put f w x) = field_put f v x.
Proof.
  apply Z.bits_inj'. intros n Hn. rewrite !field_put_testbit by done. by case_match.
Qed.

Lemma field_shift_inj f g : field_shift f = field_shift g -> f .& 7 = g .& 7.
Proof. unfold field_shift. lia. Qed.

Lemma field_put_comm f g v w x :
  f .& 7 <> g .& 7 -> field_put f v (field_put g w x) = field_put g w (field_put f v x).
Proof.
  intros Hne. apply Z.bits_inj'. intros n Hn. rewrite !field_put_testbit by done.
  destruct (field_shift_range f) as (k & Hk & Hs), (field_shift_range g) as (j & Hj & Ht).
  assert (k <> j) by (intros ->; apply Hne, field_shift_inj; congruence).
  rewrite Hs, Ht.
  destruct (Z.leb_spec (k * 4) n), (Z.ltb_spec n (k * 4 + 4)),
    (Z.leb_spec (j * 4) n), (Z.ltb_spec n (j * 4 + 4)); cbn; try done; lia.
Qed.

(** The architectural bit [b] of the register is bit [31 - b] of its value. *)
Lemma cr_bit_testbit s b : cr_bit s b = Z.testbit (cr s) (31 - (b .& 31)).
Proof.
  assert (Hb : 0 <= b .& 31 < 32).
  { assert (b .& 31 = b mod 32) as -> by (by apply (Z.land_ones b 5)). apply Z.mod_pos_bound. lia. }
  unfold cr_bit. set (k := b .& 31) in *.
  assert (Hm : 0x80000000 .>> k = 2 ^ (31 - k)).
  { change 0x80000000 with (2 ^ 31). rewrite Z.shiftr_div_pow2 by lia.
    rewrite <- Z.pow_sub_r by lia. done. }
  rewrite Hm. destruct (Z.testbit (cr s) (31 - k)) eqn:Et.
  - apply negb_true_iff, Z.eqb_neq. intros Hz.
    apply (f_equal (λ z, Z.testbit z (31 - k))) in Hz.
    rewrite Z.land_spec, Et, Z.pow2_bits_true, Z.bits_0 in Hz by lia. done.
  - apply negb_false_iff, Z.eqb_eq. apply Z.bits_inj'. intros n Hn.
    rewrite Z.land_spec, Z.bits_0, Z.pow2_bits_eqb by lia.
    destruct (Z.eqb_spec (31 - k) n) as [<-|]; [by rewrite Et|by rewrite andb_false_r].
Qed.
