(* ===== verification/AotScalar.v ===== *)
(** * Scalar runtime helpers of generated code (include/xenon/cpu/aot_semantics.hpp)

    Carry, overflow, multiply-high, division, shift, trap, FPSCR and MSR
    helpers, shared by the code the AOT backend emits and by the fallback
    interpreter, with their arithmetic specifications. *)

From S2P Require Import Prelude.
From S2P Require Import Words.
From S2P Require Import CpuState.

(** ** Addition with carry *)

Definition add_carry (a b : Z) (carry : bool) : Z := u64 (u64 (a + b) + Z.b2z carry).

Definition carry_out (a b : Z) (carry : bool) : bool :=
  let ab := u64 (a + b) in
  let c1 := ab <? a in
  let abc := u64 (ab + Z.b2z carry) in
  let c2 := abc <? ab in
  c1 || c2.

Definition signed_add_overflow (a b : Z) (carry : bool) : bool :=
  let r := add_carry a b carry in
  let sign := 1 .<< 63 in
  negb (((a .^ r) .& (b .^ r) .& sign) =? 0).

(** ** Multiply high *)

Definition mul_hi_unsigned (a b : Z) : Z :=
  let a0 := u32 a in let a1 := a .>> 32 in
  let b0 := u32 b in let b1 := b .>> 32 in
  let p00 := u64 (a0 * b0) in
  let p01 := u64 (a0 * b1) in
  let p10 := u64 (a1 * b0) in
  let p11 := u64 (a1 * b1) in
  let middle := u64 (u64 ((p00 .>> 32) + u32 p01) + u32 p10) in
  u64 (u64 (u64 (p11 + (p01 .>> 32)) + (p10 .>> 32)) + (middle .>> 32)).

(** The arguments are [std::int64_t]. *)
Definition mul_hi_signed (a b : Z) : Z :=
  let ua := u64 a in
  let ub := u64 b in
  let hi := mul_hi_unsigned ua ub in
  let hi := if a <? 0 then u64 (hi - ub) else hi in
  if b <? 0 then u64 (hi - ua) else hi.

Definition mul_hi_signed_width (a b width : Z) : Z :=
  if width =? 32 then
    let p := s32 a * s32 b in
    u32 (u64 p .>> 32)
  else mul_hi_signed (s64 a) (s64 b).

Definition mul_hi_unsigned_width (a b width : Z) : Z :=
  if width =? 32 then u32 (u64 (u32 a * u32 b) .>> 32)
  else mul_hi_unsigned a b.

Definition INT32_MIN := -0x80000000.
Definition INT32_MAX := 0x7FFFFFFF.
Definition INT64_MIN := -0x8000000000000000.
Definition INT64_MAX := 0x7FFFFFFFFFFFFFFF.

Definition mul_overflow_signed (a b width : Z) : bool :=
  if width =? 32 then
    let p := s32 a * s32 b in
    (INT32_MAX <? p) || (p <? INT32_MIN)
  else
    let x := s64 a in
    let y := s64 b in
    if (x =? 0) || (y =? 0) then false
    else if x =? -1 then y =? INT64_MIN
    else if y =? -1 then x =? INT64_MIN
    else if 0 <? x then
      if 0 <? y then Z.quot INT64_MAX y <? x else y <? Z.quot INT64_MIN x
    else if 0 <? y then x <? Z.quot INT64_MIN y
    else negb (x =? 0) && (y <? Z.quot INT64_MAX x).

(** ** Division *)

Definition div_signed (a b width : Z) : Z :=
  if width =? 32 then
    let x := s32 a in
    let y := s32 b in
    if (y =? 0) || ((x =? INT32_MIN) && (y =? -1)) then 0 else u32 (Z.quot x y)
  else
    let x := s64 a in
    let y := s64 b in
    if (y =? 0) || ((x =? INT64_MIN) && (y =? -1)) then 0 else u64 (Z.quot x y).

Definition div_unsigned (a b width : Z) : Z :=
  if width =? 32 then
    let x := u32 a in
    let y := u32 b in
    if y =? 0 then 0 else u32 (Z.quot x y)
  else if b =? 0 then 0 else Z.quot a b.

Definition div_overflow (a b width : Z) (uns : bool) : bool :=
  if uns then if width =? 32 then u32 b =? 0 else b =? 0
  else if width =? 32 then
    let x := s32 a in
    let y := s32 b in
    (y =? 0) || ((x =? INT32_MIN) && (y =? -1))
  else
    let x := s64 a in
    let y := s64 b in
    (y =? 0) || ((x =? INT64_MIN) && (y =? -1)).

(** ** PowerPC shifts, selected by mnemonic *)

Definition ppc_shift (mnemonic : string) (value shift : Z) : Z :=
  if String.eqb mnemonic "slwx" then
    let sh := shift .& 0x3F in
    if 32 <=? sh then 0 else u32 (u32 value .<< sh)
  else if String.eqb mnemonic "srwx" then
    let sh := shift .& 0x3F in
    if 32 <=? sh then 0 else u32 value .>> sh
  else if String.eqb mnemonic "srawx" || String.eqb mnemonic "srawix" then
    let sh := shift .& 0x3F in
    let v := s32 value in
    let r := if 32 <=? sh then (if v <? 0 then -1 else 0) else v .>> sh in
    u64 r
  else if String.eqb mnemonic "sldx" then
    let sh := shift .& 0x7F in
    if 64 <=? sh then 0 else u64 (value .<< sh)
  else if String.eqb mnemonic "srdx" then
    let sh := shift .& 0x7F in
    if 64 <=? sh then 0 else value .>> sh
  else if String.eqb mnemonic "sradx" || String.eqb mnemonic "sradix" then
    let sh := shift .& 0x7F in
    let v := s64 value in
    u64 (if 64 <=? sh then (if v <? 0 then -1 else 0) else v .>> sh)
  else value.

Definition ppc_shift_carry (mnemonic : string) (value shift : Z) : bool :=
  if String.eqb mnemonic "srawx" || String.eqb mnemonic "srawix" then
    let sh := shift .& 0x3F in
    let v := s32 value in
    if (0 <=? v) || (sh =? 0) then false
    else if 32 <=? sh then true
    else
      let mask := u32 (1 .<< sh) - 1 in
      negb (u32 v .& mask =? 0)
  else if String.eqb mnemonic "sradx" || String.eqb mnemonic "sradix" then
    let sh := shift .& 0x7F in
    let v := s64 value in
    if (0 <=? v) || (sh =? 0) then false
    else if 64 <=? sh then true
    else
      let mask := u64 (1 .<< sh) - 1 in
      negb (u64 v .& mask =? 0)
  else false.

(** ** Condition-register helpers *)

(** The arguments [a] and [b] are [std::int64_t]. *)
Definition write_cr_compare (field a b : Z) (is_signed : bool) (s : CpuState) : CpuState :=
  let nibble :=
    if is_signed then (if a <? b then 0x8 else if b <? a then 0x4 else 0x2)
    else
      let ua := u64 a in
      let ub := u64 b in
      if ua <? ub then 0x8 else if ub <? ua then 0x4 else 0x2 in
  let nibble := if xer_so s then nibble .| 1 else nibble in
  set_cr_field field nibble s.

Definition update_cr6_from_vector_compare (v : Vector128) (s : CpuState) : CpuState :=
  let all_true := forallb (λ b, b =? 0xFF) v in
  let all_false := forallb (λ b, b =? 0) v in
  let cr6 := 0 in
  let cr6 := if all_true then cr6 .| 0x8 else cr6 in
  let cr6 := if all_false then cr6 .| 0x2 else cr6 in
  set_cr_field 6 cr6 s.

(** ** Bit-pattern floating-point helpers (a [double] is its 64-bit pattern) *)

Definition fp_abs_bits (v : Z) : Z := v .& 0x7FFFFFFFFFFFFFFF.
Definition fp_neg_bits (v : Z) : Z := v .^ 0x8000000000000000.

Definition fp_select (condition nonnegative negative_or_nan : Z) : Z :=
  let bits := condition in
  let mag := bits .& 0x7FFFFFFFFFFFFFFF in
  let nan := (mag .& 0x7FF0000000000000 =? 0x7FF0000000000000)
             && negb (mag .& 0x000FFFFFFFFFFFFF =? 0) in
  if nan then negative_or_nan
  else if mag =? 0 then nonnegative
  else if bits .>> 63 =? 0 then nonnegative else negative_or_nan.

(** ** Trap condition *)

Definition trap_condition (to a b : Z) (word : bool) : bool :=
  let a := if word then u32 a else a in
  let b := if word then u32 b else b in
  let sa := if word then s32 a else s64 a in
  let sb := if word then s32 b else s64 b in
  (negb (to .& 0x10 =? 0) && (sa <? sb)) ||
  (negb (to .& 0x08 =? 0) && (sb <? sa)) ||
  (negb (to .& 0x04 =? 0) && (a =? b)) ||
  (negb (to .& 0x02 =? 0) && (a <? b)) ||
  (negb (to .& 0x01 =? 0) && (b <? a)).

(** ** FPSCR *)

Definition fpscr_invalid_detail_mask : Z :=
  fpscr_bits.VXSNAN .| fpscr_bits.VXISI .| fpscr_bits.VXIDI .| fpscr_bits.VXZDZ .|
  fpscr_bits.VXIMZ .| fpscr_bits.VXVC .| fpscr_bits.VXSOFT .| fpscr_bits.VXSQRT .|
  fpscr_bits.VXCVI.

Definition recompute_fpscr_summaries (fpscr : Z) : Z :=
  let fpscr := if negb (fpscr .& fpscr_invalid_detail_mask =? 0)
               then fpscr .| fpscr_bits.VX else bits_clear fpscr fpscr_bits.VX in
  let enabled :=
    (flag_set fpscr fpscr_bits.VX && flag_set fpscr fpscr_bits.VE) ||
    (flag_set fpscr fpscr_bits.OX && flag_set fpscr fpscr_bits.OE) ||
    (flag_set fpscr fpscr_bits.UX && flag_set fpscr fpscr_bits.UE) ||
    (flag_set fpscr fpscr_bits.ZX && flag_set fpscr fpscr_bits.ZE) ||
    (flag_set fpscr fpscr_bits.XX && flag_set fpscr fpscr_bits.XE) in
  if enabled then fpscr .| fpscr_bits.FEX else bits_clear fpscr fpscr_bits.FEX.

Definition set_fpscr_bit (architectural_bit : Z) (value : bool) (s : CpuState) : CpuState :=
  let architectural_bit := architectural_bit .& 31 in
  let mask := 0x80000000 .>> architectural_bit in
  if (mask =? fpscr_bits.FEX) || (mask =? fpscr_bits.VX) then s
  else set_fpscr (recompute_fpscr_summaries
         (if value then fpscr s .| mask else bits_clear (fpscr s) mask)) s.

Definition write_fpscr_field (field value : Z) (s : CpuState) : CpuState :=
  let field := field .& 7 in
  let shift := (7 - field) * 4 in
  let mask := u32 (0xF .<< shift) in
  let writable := bits_clear mask (fpscr_bits.FEX .| fpscr_bits.VX) in
  let incoming := u32 ((value .& 0xF) .<< shift) in
  set_fpscr (recompute_fpscr_summaries
    (bits_clear (fpscr s) writable .| (incoming .& writable))) s.

Definition write_fpscr_fields (field_mask source : Z) (s : CpuState) : CpuState :=
  foldl (λ s field,
    if field_mask .& (0x80 .>> field) =? 0 then s
    else
      let shift := (7 - field) * 4 in
      write_fpscr_field field (u8 ((source .>> shift) .& 0xF)) s) s (seqZ 0 8).

Definition move_fpscr_field_to_cr (cr_fld fpscr_field : Z) (s : CpuState) : CpuState :=
  let fpscr_field := fpscr_field .& 7 in
  let shift := (7 - fpscr_field) * 4 in
  let s := set_cr_field cr_fld (u8 ((fpscr s .>> shift) .& 0xF)) s in
  if fpscr_field <=? 3 then
    let clear_masks :=
      [fpscr_bits.FX .| fpscr_bits.OX;
       fpscr_bits.UX .| fpscr_bits.ZX .| fpscr_bits.XX .| fpscr_bits.VXSNAN;
       fpscr_bits.VXISI .| fpscr_bits.VXIDI .| fpscr_bits.VXZDZ .| fpscr_bits.VXIMZ;
       fpscr_bits.VXVC] in
    set_fpscr (recompute_fpscr_summaries
      (bits_clear (fpscr s) (clear_masks !!! Z.to_nat fpscr_field))) s
  else s.

(** ** MSR *)

Definition msr_arch_bit (n : Z) : Z := 1 .<< (63 - n).
Definition msr_arch_range (first last : Z) : Z :=
  foldl (λ mask n, mask .| msr_arch_bit n) 0 (seqZ first (last - first + 1)).

Definition msr_or_pr (source : Z) (pr : bool) (msr bit : Z) : Z :=
  if negb (source .& bit =? 0) || pr then msr .| bit else msr .& not64 bit.

Definition write_msr (source : Z) (limited doubleword : bool) (s : CpuState) : CpuState :=
  let EE := msr_arch_bit 48 in
  let PR := msr_arch_bit 49 in
  let IR := msr_arch_bit 58 in
  let DR := msr_arch_bit 59 in
  let RI := msr_arch_bit 62 in
  if limited then
    let mask := EE .| RI in
    set_msr ((msr s .& not64 mask) .| (source .& mask)) s
  else
    let m :=
      if doubleword then
        let copy_mask := msr_arch_range 1 2 .| msr_arch_range 4 47 .| msr_arch_range 49 50
                         .| msr_arch_range 52 57 .| msr_arch_range 60 63 in
        let m := (msr s .& not64 copy_mask) .| (source .& copy_mask) in
        let sf := negb (source .& (msr_arch_bit 0 .| msr_arch_bit 1) =? 0) in
        if sf then m .| msr_arch_bit 0 else m .& not64 (msr_arch_bit 0)
      else
        let copy_mask := msr_arch_range 32 47 .| msr_arch_range 49 50
                         .| msr_arch_range 52 57 .| msr_arch_range 60 63 in
        (msr s .& not64 copy_mask) .| (source .& copy_mask) in
    let pr := negb (source .& PR =? 0) in
    let m := msr_or_pr source pr m EE in
    let m := msr_or_pr source pr m IR in
    let m := msr_or_pr source pr m DR in
    set_msr m s.

(** ** Arithmetic specifications *)

Lemma testbit63 x : is_u64 x -> Z.testbit x 63 = (0x8000000000000000 <=? x).
Proof. intros Hx. rewrite testbit_top; [done|lia|]. unfold is_u64 in Hx. lia. Qed.

Lemma xorb_leb (p q : bool) : xorb p q = negb (eqb p q).
Proof. by destruct p, q. Qed.

(** The carry helper computes the carry out of the 64-bit sum, and the signed
    overflow helper detects exactly the sums that leave the signed range. *)
Theorem carry_and_overflow_spec (a b : Z) (c : bool) (Ha : is_u64 a) (Hb : is_u64 b) :
  add_carry a b c = (a + b + Z.b2z c) mod 0x10000000000000000 /\
  carry_out a b c = (0x10000000000000000 <=? a + b + Z.b2z c) /\
  signed_add_overflow a b c =
    negb ((INT64_MIN <=? s64 a + s64 b + Z.b2z c) && (s64 a + s64 b + Z.b2z c <=? INT64_MAX)).
Proof.
  assert (add_carry a b c = (a + b + Z.b2z c) mod 0x10000000000000000) as Hadd.
  { unfold add_carry. destruct c; cbn [Z.b2z]; word_lia. }
  split; [done|]. split.
  - unfold carry_out. destruct c; cbn [Z.b2z]; apply eq_true_iff_eq;
      rewrite orb_true_iff, !Z.ltb_lt, Z.leb_le; word_lia.
  - unfold signed_add_overflow. rewrite land_bit_zero, negb_involutive by lia.
    rewrite Z.land_spec, !Z.lxor_spec, Hadd.
    rewrite !testbit63 by (done || apply u64_range).
    unfold INT64_MIN, INT64_MAX, s64. rewrite !u64_small by done. unfold is_u64 in *.
    set (t := a + b + Z.b2z c). assert (0 <= Z.b2z c <= 1) by (destruct c; cbn; lia).
    destruct (Z.leb_spec 0x10000000000000000 t) as [Hc|Hc].
    + assert (t mod 0x10000000000000000 = t - 0x10000000000000000) as ->
        by (Z.to_euclidean_division_equations; lia).
      bool_cases; cbn; lia.
    + assert (t mod 0x10000000000000000 = t) as -> by (apply Z.mod_small; lia).
      bool_cases; cbn; lia.
Qed.

Lemma carry_and_overflow_spec_witness :
  is_u64 U64_MAX /\ carry_out U64_MAX 1 false = true /\
  signed_add_overflow 0x7FFFFFFFFFFFFFFF 1 false = true.
Proof.
  assert (is_u64 U64_MAX) by (unfold is_u64; lia).
  assert (is_u64 1) by (unfold is_u64; lia).
  assert (is_u64 0x7FFFFFFFFFFFFFFF) by (unfold is_u64; lia).
  split; [done|]. split.
  - rewrite (proj1 (proj2 (carry_and_overflow_spec U64_MAX 1 false ltac:(done) ltac:(done)))).
    reflexivity.
  - rewrite (proj2 (proj2 (carry_and_overflow_spec 0x7FFFFFFFFFFFFFFF 1 false
      ltac:(done) ltac:(done)))). reflexivity.
Defined.

Lemma shiftr32 x : x .>> 32 = x / 0x100000000.
Proof. by rewrite Z.shiftr_div_pow2. Qed.

Lemma mul_u32_bound x y : is_u32 x -> is_u32 y -> 0 <= x * y <= 0xFFFFFFFE00000001.
Proof. unfold is_u32. nia. Qed.

(** The two 32-bit halves of a 64-bit word. *)
Lemma u64_halves a : is_u64 a ->
  exists a1 a0, is_u32 a1 /\ is_u32 a0 /\ a = a1 * 0x100000000 + a0 /\
    a .>> 32 = a1 /\ u32 a = a0.
Proof.
  intros Ha. exists (a / 0x100000000), (u32 a). rewrite shiftr32.
  repeat split; word_lia.
Qed.

Lemma mul_hi_unsigned_correct a b :
  is_u64 a -> is_u64 b -> mul_hi_unsigned a b = (a * b) / 0x10000000000000000.
Proof.
  intros (a1 & a0 & Ha1 & Ha0 & Ea & Eah & Eal)%u64_halves
         (b1 & b0 & Hb1 & Hb0 & Eb & Ebh & Ebl)%u64_halves.
  unfold mul_hi_unsigned. rewrite Eah, Eal, Ebh, Ebl, !shiftr32. clear Eah Eal Ebh Ebl. subst a b.
  pose proof (mul_u32_bound a0 b0 Ha0 Hb0). pose proof (mul_u32_bound a0 b1 Ha0 Hb1).
  pose proof (mul_u32_bound a1 b0 Ha1 Hb0). pose proof (mul_u32_bound a1 b1 Ha1 Hb1).
  replace ((a1 * 0x100000000 + a0) * (b1 * 0x100000000 + b0))
    with (a1 * b1 * 0x10000000000000000 + (a0 * b1 + a1 * b0) * 0x100000000 + a0 * b0) by ring.
  generalize dependent (a0 * b0). intros p00 ?. generalize dependent (a0 * b1). intros p01 ?.
  generalize dependent (a1 * b0). intros p10 ?. generalize dependent (a1 * b1). intros p11 ?.
  clear Ha0 Ha1 Hb0 Hb1 a0 a1 b0 b1.
  rewrite !(u64_small p00), !(u64_small p01), !(u64_small p10), !(u64_small p11)
    by (unfold is_u64; lia).
  word_unfold. Z.to_euclidean_division_equations. lia.
Qed.

Lemma mul_s64_bound x y :
  INT64_MIN <= x <= INT64_MAX -> INT64_MIN <= y <= INT64_MAX ->
  -0x4000000000000000 * 0x10000000000000000 <= x * y <= 0x4000000000000000 * 0x10000000000000000.
Proof. unfold INT64_MIN, INT64_MAX. nia. Qed.

Lemma mul_hi_signed_correct x y :
  INT64_MIN <= x <= INT64_MAX -> INT64_MIN <= y <= INT64_MAX ->
  mul_hi_signed x y = u64 ((x * y) / 0x10000000000000000).
Proof.
  intros Hx Hy. pose proof (mul_s64_bound x y Hx Hy). unfold INT64_MIN, INT64_MAX in *.
  assert (u64 x = x + (if x <? 0 then 0x10000000000000000 else 0)) as Ex by word_lia.
  assert (u64 y = y + (if y <? 0 then 0x10000000000000000 else 0)) as Ey by word_lia.
  unfold mul_hi_signed. rewrite mul_hi_unsigned_correct by apply u64_range.
  rewrite Ex, Ey. set (q := (x * y) / 0x10000000000000000).
  assert (forall k, (x * y + k * 0x10000000000000000) / 0x10000000000000000 = q + k) as Hdiv
    by (intros k; apply Z.div_add; lia).
  destruct (Z.ltb_spec x 0), (Z.ltb_spec y 0).
  - replace ((x + 0x10000000000000000) * (y + 0x10000000000000000))
      with (x * y + (x + y + 0x10000000000000000) * 0x10000000000000000) by ring.
    rewrite Hdiv. clearbody q. clear. word_lia.
  - replace ((x + 0x10000000000000000) * (y + 0))
      with (x * y + y * 0x10000000000000000) by ring.
    rewrite Hdiv. clearbody q. clear. word_lia.
  - replace ((x + 0) * (y + 0x10000000000000000))
      with (x * y + x * 0x10000000000000000) by ring.
    rewrite Hdiv. clearbody q. clear. word_lia.
  - replace ((x + 0) * (y + 0)) with (x * y + 0 * 0x10000000000000000) by ring.
    rewrite Hdiv. assert (0 <= q <= 0x4000000000000000) as Hq.
    { unfold q. assert (0 <= x * y) by nia. Z.to_euclidean_division_equations. lia. }
    clearbody q. word_lia.
Qed.

(** Overflow tests by division: [x * y] exceeds a bound iff [x] exceeds the
    truncated quotient of the bound by [y]. *)
Lemma quot_pos_lt m y x : 0 < y -> 0 <= m -> (Z.quot m y <? x) = (m <? x * y).
Proof.
  intros Hy Hm. apply eq_true_iff_eq. rewrite !Z.ltb_lt, Z.quot_div_nonneg by lia.
  pose proof (Z.div_mod m y). pose proof (Z.mod_pos_bound m y). nia.
Qed.

Lemma quot_neg_lt m y x : 0 < y -> m <= 0 -> (x <? Z.quot m y) = (x * y <? m).
Proof.
  intros Hy Hm. apply eq_true_iff_eq. rewrite !Z.ltb_lt.
  replace m with (- (- m)) by lia. rewrite Z.quot_opp_l, Z.quot_div_nonneg by lia.
  pose proof (Z.div_mod (- m) y). pose proof (Z.mod_pos_bound (- m) y). nia.
Qed.

Lemma quot_negneg_lt m x y : x < 0 -> 0 <= m -> (y <? Z.quot m x) = (m <? x * y).
Proof.
  intros Hx Hm. apply eq_true_iff_eq. rewrite !Z.ltb_lt.
  replace x with (- (- x)) at 1 by lia. rewrite Z.quot_opp_r, Z.quot_div_nonneg by lia.
  pose proof (Z.div_mod m (- x)). pose proof (Z.mod_pos_bound m (- x)). nia.
Qed.

Definition product_in_range (lo hi p : Z) : bool := (lo <=? p) && (p <=? hi).

Lemma mul_overflow_signed_64 a b :
  mul_overflow_signed a b 64 = negb (product_in_range INT64_MIN INT64_MAX (s64 a * s64 b)).
Proof.
  unfold mul_overflow_signed. cbn [Z.eqb Pos.eqb].
  pose proof (s64_range a) as Hx. pose proof (s64_range b) as Hy.
  set (x := s64 a) in *. set (y := s64 b) in *. clearbody x y.
  unfold product_in_range. rewrite negb_andb, <- !Z.ltb_antisym.
  destruct (Z.eqb_spec x 0) as [->|]; [done|].
  destruct (Z.eqb_spec y 0) as [->|]; [by rewrite Z.mul_0_r|]. cbn [orb].
  destruct (Z.eqb_spec x (-1)) as [->|].
  { unfold INT64_MIN, INT64_MAX. bool_cases; cbn; lia. }
  destruct (Z.eqb_spec y (-1)) as [->|].
  { unfold INT64_MIN, INT64_MAX. bool_cases; cbn; lia. }
  destruct (Z.ltb_spec 0 x), (Z.ltb_spec 0 y).
  - rewrite quot_pos_lt by (unfold INT64_MAX; lia).
    destruct (Z.ltb_spec (x * y) INT64_MIN); [unfold INT64_MIN in *; nia|done].
  - rewrite quot_neg_lt by (unfold INT64_MIN; lia). rewrite (Z.mul_comm y x).
    destruct (Z.ltb_spec INT64_MAX (x * y)); [unfold INT64_MAX in *; nia|].
    by rewrite orb_false_r.
  - rewrite quot_neg_lt by (unfold INT64_MIN; lia).
    destruct (Z.ltb_spec INT64_MAX (x * y)); [unfold INT64_MAX in *; nia|].
    by rewrite orb_false_r.
  - rewrite quot_negneg_lt by (unfold INT64_MAX; lia).
    destruct (Z.eqb_spec x 0); [done|]. cbn [negb andb].
    destruct (Z.ltb_spec (x * y) INT64_MIN); [unfold INT64_MIN in *; nia|done].
Qed.

(** The multiply helpers compute the exact upper half of the full product and
    detect exactly the products outside the signed range, at both widths, without
    ever forming a product wider than 64 bits. *)
Theorem multiply_spec (a b : Z) (Ha : is_u64 a) (Hb : is_u64 b) :
  mul_hi_unsigned_width a b 64 = (a * b) / 0x10000000000000000 /\
  mul_hi_signed_width a b 64 = u64 ((s64 a * s64 b) / 0x10000000000000000) /\
  mul_hi_unsigned_width a b 32 = (u32 a * u32 b) / 0x100000000 /\
  mul_hi_signed_width a b 32 = u32 ((s32 a * s32 b) / 0x100000000) /\
  mul_overflow_signed a b 64 = negb (product_in_range INT64_MIN INT64_MAX (s64 a * s64 b)) /\
  mul_overflow_signed a b 32 = negb (product_in_range INT32_MIN INT32_MAX (s32 a * s32 b)).
Proof.
  split; [by apply mul_hi_unsigned_correct|]. split.
  { apply mul_hi_signed_correct; [pose proof (s64_range a)|pose proof (s64_range b)];
      unfold INT64_MIN, INT64_MAX; lia. }
  split.
  { unfold mul_hi_unsigned_width. cbn [Z.eqb Pos.eqb]. rewrite shiftr32.
    pose proof (mul_u32_bound _ _ (u32_range a) (u32_range b)) as Hp.
    generalize dependent (u32 a * u32 b). intros p Hp. word_lia. }
  split.
  { unfold mul_hi_signed_width. cbn [Z.eqb Pos.eqb]. rewrite shiftr32.
    assert (-0x4000000000000000 <= s32 a * s32 b <= 0x4000000000000000) as Hp
      by (pose proof (s32_range a); pose proof (s32_range b); nia).
    generalize dependent (s32 a * s32 b). intros p Hp. word_lia. }
  split; [apply mul_overflow_signed_64|].
  unfold mul_overflow_signed, product_in_range. cbn [Z.eqb Pos.eqb].
  by rewrite negb_andb, <- !Z.ltb_antisym, orb_comm.
Qed.

Lemma multiply_spec_witness :
  is_u64 U64_MAX /\
  mul_hi_unsigned_width U64_MAX U64_MAX 64 = 0xFFFFFFFFFFFFFFFE /\
  mul_hi_signed_width U64_MAX 2 64 = U64_MAX.
Proof.
  assert (is_u64 U64_MAX) as Hm by (unfold is_u64; lia).
  assert (is_u64 2) as H2 by (unfold is_u64; lia). split; [done|]. split.
  - rewrite (proj1 (multiply_spec U64_MAX U64_MAX Hm Hm)). reflexivity.
  - rewrite (proj1 (proj2 (multiply_spec U64_MAX 2 Hm H2))). reflexivity.
Defined.

Lemma land_0x3F_range x : 0 <= x .& 0x3F < 64.
Proof. change 0x3F with (Z.ones 6). rewrite Z.land_ones by lia. apply Z.mod_pos_bound. lia. Qed.
Lemma land_0x7F_range x : 0 <= x .& 0x7F < 128.
Proof. change 0x7F with (Z.ones 7). rewrite Z.land_ones by lia. apply Z.mod_pos_bound. lia. Qed.

(** Arithmetic shifts saturate to the sign once the count reaches the width. *)
Lemma shift_saturate w v sh :
  0 <= w -> w <= sh -> - 2 ^ w <= v < 2 ^ w -> v / 2 ^ sh = if v <? 0 then -1 else 0.
Proof.
  intros Hw Hsh Hv. assert (2 ^ w <= 2 ^ sh) by (apply Z.pow_le_mono_r; lia).
  destruct (Z.ltb_spec v 0).
  - symmetry. apply (Z.div_unique _ _ _ (v + 2 ^ sh)); lia.
  - apply Z.div_small. lia.
Qed.

(** The bits shifted out of a word are its residue modulo the power of two. *)
Lemma shifted_out w v sh :
  0 <= sh -> sh < w ->
  ((v mod 2 ^ w) .& (2 ^ sh - 1) =? 0) = (v mod 2 ^ sh =? 0).
Proof.
  intros Hsh Hw. replace (2 ^ sh - 1) with (Z.ones sh) by (rewrite Z.ones_equiv; lia).
  rewrite Z.land_ones by done. f_equal.
  apply Z.mod_mod_divide.
  exists (2 ^ (w - sh)). rewrite <- Z.pow_add_r by lia. f_equal. lia.
Qed.

(** The algebraic right shifts compute the floor of the signed quotient by the
    power of two for every count, saturating included, and XER.CA is set exactly
    when a negative value loses one bits. *)
Theorem shift_right_algebraic_spec (v sh : Z) :
  ppc_shift "sradx" v sh = u64 (s64 v / 2 ^ (sh .& 0x7F)) /\
  ppc_shift_carry "sradx" v sh = (s64 v <? 0) && negb (s64 v mod 2 ^ (sh .& 0x7F) =? 0) /\
  ppc_shift "srawx" v sh = u64 (s32 v / 2 ^ (sh .& 0x3F)) /\
  ppc_shift_carry "srawx" v sh = (s32 v <? 0) && negb (s32 v mod 2 ^ (sh .& 0x3F) =? 0).
Proof.
  pose proof (land_0x7F_range sh) as H7. pose proof (land_0x3F_range sh) as H6.
  pose proof (s64_range v) as Hv. pose proof (s32_range v) as Hw.
  unfold ppc_shift, ppc_shift_carry. cbn [String.eqb Ascii.eqb Bool.eqb orb andb].
  generalize dependent (sh .& 0x7F). intros n Hn. generalize dependent (sh .& 0x3F). intros k Hk.
  repeat split.
  - f_equal. destruct (Z.leb_spec 64 n).
    + rewrite (shift_saturate 63); [done|lia..].
    + by rewrite Z.shiftr_div_pow2 by lia.
  - destruct (Z.leb_spec 0 (s64 v)), (Z.ltb_spec (s64 v) 0); try lia; [done|]. cbn [orb andb].
    destruct (Z.eqb_spec n 0) as [->|]; [cbn; rewrite Z.mod_1_r; done|].
    destruct (Z.leb_spec 64 n).
    + rewrite (Z.mod_eq _ (2 ^ n)), (shift_saturate 63), (proj2 (Z.ltb_lt _ _)); try lia.
      assert (2 ^ 64 <= 2 ^ n) by (apply Z.pow_le_mono_r; lia). bool_cases; cbn; lia.
    + f_equal. rewrite Z.shiftl_1_l, (u64_small (2 ^ n)).
      * by rewrite <- (shifted_out 64 (s64 v) n) by lia.
      * split; [lia|]. apply (Z.pow_lt_mono_r 2 n 64); lia.
  - f_equal. destruct (Z.leb_spec 32 k).
    + rewrite (shift_saturate 31); [done|lia..].
    + by rewrite Z.shiftr_div_pow2 by lia.
  - destruct (Z.leb_spec 0 (s32 v)), (Z.ltb_spec (s32 v) 0); try lia; [done|]. cbn [orb andb].
    destruct (Z.eqb_spec k 0) as [->|]; [cbn; rewrite Z.mod_1_r; done|].
    destruct (Z.leb_spec 32 k).
    + rewrite (Z.mod_eq _ (2 ^ k)), (shift_saturate 31), (proj2 (Z.ltb_lt _ _)); try lia.
      assert (2 ^ 32 <= 2 ^ k) by (apply Z.pow_le_mono_r; lia). bool_cases; cbn; lia.
    + f_equal. rewrite Z.shiftl_1_l, (u32_small (2 ^ k)).
      * by rewrite <- (shifted_out 32 (s32 v) k) by lia.
      * split; [lia|]. apply (Z.pow_lt_mono_r 2 k 32); lia.
Qed.
