(* ===== verification/Ir.v ===== *)
(** * Xenon IR (include/xenon/cpu/ir.hpp, src/cpu/ir/ir.cpp)

    Operations, types, effects, instructions, blocks and functions of the
    intermediate representation, and the [Builder] that the lifter writes with. *)

From S2P Require Import Prelude.
From S2P Require Import Words.
From S2P Require Import Instr.

Definition ValueId : Type := Z.
Definition kNoValue : ValueId := 0xFFFFFFFF.

Inductive IrType : Type := Void | I1 | I8 | I16 | I32 | I64 | F32 | F64 | V128.

#[export] Instance IrType_eq_dec : EqDecision IrType.
Proof. solve_decision. Defined.

(** The integer the C++ enumerator stands for, as stored in [imm1] by stores. *)
Definition type_code (t : IrType) : Z :=
  match t with
  | Void => 0 | I1 => 1 | I8 => 2 | I16 => 3 | I32 => 4 | I64 => 5
  | F32 => 6 | F64 => 7 | V128 => 8
  end.

Definition type_of_code (n : Z) : option IrType :=
  match n with
  | 0 => Some Void | 1 => Some I1 | 2 => Some I8 | 3 => Some I16 | 4 => Some I32
  | 5 => Some I64 | 6 => Some F32 | 7 => Some F64 | 8 => Some V128 | _ => None
  end.

Inductive Endian : Type := Big | Little | Raw.

#[export] Instance Endian_eq_dec : EqDecision Endian.
Proof. solve_decision. Defined.

Definition endian_code (e : Endian) : Z := match e with Big => 0 | Little => 1 | Raw => 2 end.

(** ** Effects: a bit set *)

Module Effect.
Definition None := 0.
Definition StateRead := 1 .<< 0.
Definition StateWrite := 1 .<< 1.
Definition MemoryRead := 1 .<< 2.
Definition MemoryWrite := 1 .<< 3.
Definition Barrier := 1 .<< 4.
Definition Call := 1 .<< 5.
Definition Trap := 1 .<< 6.
Definition MayFault := 1 .<< 7.
Definition ControlFlow := 1 .<< 8.
Definition Synchronization := 1 .<< 9.
End Effect.

Definition has_effect (set flag : Z) : bool := negb (set .& flag =? 0).

(** ** Operations *)

Module Op.
Inductive t : Type :=
  | Constant | ReadGpr | WriteGpr | ReadFprBits | WriteFprBits | ReadVector | WriteVector
  | ReadCR | WriteCR | ReadCRBit | WriteCRBit | ReadCRField | WriteCRField
  | WriteCRCompare | WriteCR0StoreConditional | UpdateCR0Signed | MoveCRFields
  | MoveXERToCR | ReadXER | WriteXER | ReadXerCA | ReadXerOV | ReadXerSO | SetXerCA
  | SetXerOV | SetXerSO | SetXerOverflowSticky | ReadFPSCR | WriteFPSCR
  | UpdateCR1FromFPSCR | MoveFPSCRFieldToCR | MoveFPSCRToFPRBits | SetFPSCRBit
  | WriteFPSCRFieldImmediate | WriteFPSCRFields | ReadVSCR | WriteVSCR | SetVSCRSaturation
  | MoveVSCRToVector | MoveVectorToVSCR | ReadLR | WriteLR | ReadCTR | WriteCTR | ReadMSR
  | WriteMSR | ReadTimeBase | ReadVRSAVE | WriteVRSAVE | ReadPVR | ReadSPR | WriteSPR
  | Add | AddImmediate | AddCarry | Sub | Mul | MulHighSigned | MulHighUnsigned
  | DivSigned | DivUnsigned | Neg | CountLeadingZeros | CarryOut | SignedOverflow
  | MulOverflowSigned | DivOverflow | PpcShift | PpcShiftCarry | And | Or | Xor | Not
  | Shl | ShrLogical | ShrArithmetic | Rotl | SignExtend | ZeroExtend | Truncate | Bitcast
  | FPromote | FTruncate | CompareEq | CompareNe | CompareSlt | CompareSgt | CompareUlt
  | CompareUgt | Select | FAdd | FSub | FMul | FDiv | FFma | FSqrt | FAbs | FNeg
  | FCompare | FSelect | FRoundSingle | FConvertFromI64 | FConvertToI64
  | FReciprocalEstimate | FReciprocalSqrtEstimate | FUpdateStatus | VAdd | VSub | VMul
  | VMadd | VMin | VMax | VAvg | VAnd | VAndNot | VOr | VXor | VNot | VCompare
  | VUpdateCR6 | VShuffle | VPermute | VPack | VUnpack | VConvert | VShift | VShiftDouble
  | VRotate | VRotateInsert | VSplat | VMerge | VSum | VEstimate | VDot | VSelect
  | VMultiplyEvenOdd | VLoadElement | VStoreElement | VLoadLeft | VLoadRight | VStoreLeft
  | VStoreRight | VMakeLoadShiftLeft | VMakeLoadShiftRight | Load | Store | ReserveLoad
  | StoreConditional | StringLoad | StringStore | Barrier | CacheZero | ICacheInvalidate
  | CacheHint | Branch | BranchIf | BranchIndirect | Call | CallIndirect | Return | Trap
  | Syscall.
End Op.

(** The enumerator values. *)
Definition op_code (op : Op.t) : Z :=
  match op with
    | Op.Constant => 0 | Op.ReadGpr => 1 | Op.WriteGpr => 2 | Op.ReadFprBits => 3
    | Op.WriteFprBits => 4 | Op.ReadVector => 5 | Op.WriteVector => 6 | Op.ReadCR => 7
    | Op.WriteCR => 8 | Op.ReadCRBit => 9 | Op.WriteCRBit => 10 | Op.ReadCRField => 11
    | Op.WriteCRField => 12 | Op.WriteCRCompare => 13 | Op.WriteCR0StoreConditional => 14
    | Op.UpdateCR0Signed => 15 | Op.MoveCRFields => 16 | Op.MoveXERToCR => 17
    | Op.ReadXER => 18 | Op.WriteXER => 19 | Op.ReadXerCA => 20 | Op.ReadXerOV => 21
    | Op.ReadXerSO => 22 | Op.SetXerCA => 23 | Op.SetXerOV => 24 | Op.SetXerSO => 25
    | Op.SetXerOverflowSticky => 26 | Op.ReadFPSCR => 27 | Op.WriteFPSCR => 28
    | Op.UpdateCR1FromFPSCR => 29 | Op.MoveFPSCRFieldToCR => 30
    | Op.MoveFPSCRToFPRBits => 31 | Op.SetFPSCRBit => 32 | Op.WriteFPSCRFieldImmediate => 33
    | Op.WriteFPSCRFields => 34 | Op.ReadVSCR => 35 | Op.WriteVSCR => 36
    | Op.SetVSCRSaturation => 37 | Op.MoveVSCRToVector => 38 | Op.MoveVectorToVSCR => 39
    | Op.ReadLR => 40 | Op.WriteLR => 41 | Op.ReadCTR => 42 | Op.WriteCTR => 43
    | Op.ReadMSR => 44 | Op.WriteMSR => 45 | Op.ReadTimeBase => 46 | Op.ReadVRSAVE => 47
    | Op.WriteVRSAVE => 48 | Op.ReadPVR => 49 | Op.ReadSPR => 50 | Op.WriteSPR => 51
    | Op.Add => 52 | Op.AddImmediate => 53 | Op.AddCarry => 54 | Op.Sub => 55 | Op.Mul => 56
    | Op.MulHighSigned => 57 | Op.MulHighUnsigned => 58 | Op.DivSigned => 59
    | Op.DivUnsigned => 60 | Op.Neg => 61 | Op.CountLeadingZeros => 62 | Op.CarryOut => 63
    | Op.SignedOverflow => 64 | Op.MulOverflowSigned => 65 | Op.DivOverflow => 66
    | Op.PpcShift => 67 | Op.PpcShiftCarry => 68 | Op.And => 69 | Op.Or => 70 | Op.Xor => 71
    | Op.Not => 72 | Op.Shl => 73 | Op.ShrLogical => 74 | Op.ShrArithmetic => 75
    | Op.Rotl => 76 | Op.SignExtend => 77 | Op.ZeroExtend => 78 | Op.Truncate => 79
    | Op.Bitcast => 80 | Op.FPromote => 81 | Op.FTruncate => 82 | Op.CompareEq => 83
    | Op.CompareNe => 84 | Op.CompareSlt => 85 | Op.CompareSgt => 86 | Op.CompareUlt => 87
    | Op.CompareUgt => 88 | Op.Select => 89 | Op.FAdd => 90 | Op.FSub => 91 | Op.FMul => 92
    | Op.FDiv => 93 | Op.FFma => 94 | Op.FSqrt => 95 | Op.FAbs => 96 | Op.FNeg => 97
    | Op.FCompare => 98 | Op.FSelect => 99 | Op.FRoundSingle => 100
    | Op.FConvertFromI64 => 101 | Op.FConvertToI64 => 102 | Op.FReciprocalEstimate => 103
    | Op.FReciprocalSqrtEstimate => 104 | Op.FUpdateStatus => 105 | Op.VAdd => 106
    | Op.VSub => 107 | Op.VMul => 108 | Op.VMadd => 109 | Op.VMin => 110 | Op.VMax => 111
    | Op.VAvg => 112 | Op.VAnd => 113 | Op.VAndNot => 114 | Op.VOr => 115 | Op.VXor => 116
    | Op.VNot => 117 | Op.VCompare => 118 | Op.VUpdateCR6 => 119 | Op.VShuffle => 120
    | Op.VPermute => 121 | Op.VPack => 122 | Op.VUnpack => 123 | Op.VConvert => 124
    | Op.VShift => 125 | Op.VShiftDouble => 126 | Op.VRotate => 127
    | Op.VRotateInsert => 128 | Op.VSplat => 129 | Op.VMerge => 130 | Op.VSum => 131
    | Op.VEstimate => 132 | Op.VDot => 133 | Op.VSelect => 134 | Op.VMultiplyEvenOdd => 135
    | Op.VLoadElement => 136 | Op.VStoreElement => 137 | Op.VLoadLeft => 138
    | Op.VLoadRight => 139 | Op.VStoreLeft => 140 | Op.VStoreRight => 141
    | Op.VMakeLoadShiftLeft => 142 | Op.VMakeLoadShiftRight => 143 | Op.Load => 144
    | Op.Store => 145 | Op.ReserveLoad => 146 | Op.StoreConditional => 147
    | Op.StringLoad => 148 | Op.StringStore => 149 | Op.Barrier => 150 | Op.CacheZero => 151
    | Op.ICacheInvalidate => 152 | Op.CacheHint => 153 | Op.Branch => 154
    | Op.BranchIf => 155 | Op.BranchIndirect => 156 | Op.Call => 157
    | Op.CallIndirect => 158 | Op.Return => 159 | Op.Trap => 160 | Op.Syscall => 161
  end.

Definition op_table : list Op.t :=
  [Op.Constant; Op.ReadGpr; Op.WriteGpr; Op.ReadFprBits; Op.WriteFprBits; Op.ReadVector;
    Op.WriteVector; Op.ReadCR; Op.WriteCR; Op.ReadCRBit; Op.WriteCRBit; Op.ReadCRField;
    Op.WriteCRField; Op.WriteCRCompare; Op.WriteCR0StoreConditional; Op.UpdateCR0Signed;
    Op.MoveCRFields; Op.MoveXERToCR; Op.ReadXER; Op.WriteXER; Op.ReadXerCA; Op.ReadXerOV;
    Op.ReadXerSO; Op.SetXerCA; Op.SetXerOV; Op.SetXerSO; Op.SetXerOverflowSticky;
    Op.ReadFPSCR; Op.WriteFPSCR; Op.UpdateCR1FromFPSCR; Op.MoveFPSCRFieldToCR;
    Op.MoveFPSCRToFPRBits; Op.SetFPSCRBit; Op.WriteFPSCRFieldImmediate; Op.WriteFPSCRFields;
    Op.ReadVSCR; Op.WriteVSCR; Op.SetVSCRSaturation; Op.MoveVSCRToVector;
    Op.MoveVectorToVSCR; Op.ReadLR; Op.WriteLR; Op.ReadCTR; Op.WriteCTR; Op.ReadMSR;
    Op.WriteMSR; Op.ReadTimeBase; Op.ReadVRSAVE; Op.WriteVRSAVE; Op.ReadPVR; Op.ReadSPR;
    Op.WriteSPR; Op.Add; Op.AddImmediate; Op.AddCarry; Op.Sub; Op.Mul; Op.MulHighSigned;
    Op.MulHighUnsigned; Op.DivSigned; Op.DivUnsigned; Op.Neg; Op.CountLeadingZeros;
    Op.CarryOut; Op.SignedOverflow; Op.MulOverflowSigned; Op.DivOverflow; Op.PpcShift;
    Op.PpcShiftCarry; Op.And; Op.Or; Op.Xor; Op.Not; Op.Shl; Op.ShrLogical;
    Op.ShrArithmetic; Op.Rotl; Op.SignExtend; Op.ZeroExtend; Op.Truncate; Op.Bitcast;
    Op.FPromote; Op.FTruncate; Op.CompareEq; Op.CompareNe; Op.CompareSlt; Op.CompareSgt;
    Op.CompareUlt; Op.CompareUgt; Op.Select; Op.FAdd; Op.FSub; Op.FMul; Op.FDiv; Op.FFma;
    Op.FSqrt; Op.FAbs; Op.FNeg; Op.FCompare; Op.FSelect; Op.FRoundSingle;
    Op.FConvertFromI64; Op.FConvertToI64; Op.FReciprocalEstimate;
    Op.FReciprocalSqrtEstimate; Op.FUpdateStatus; Op.VAdd; Op.VSub; Op.VMul; Op.VMadd;
    Op.VMin; Op.VMax; Op.VAvg; Op.VAnd; Op.VAndNot; Op.VOr; Op.VXor; Op.VNot; Op.VCompare;
    Op.VUpdateCR6; Op.VShuffle; Op.VPermute; Op.VPack; Op.VUnpack; Op.VConvert; Op.VShift;
    Op.VShiftDouble; Op.VRotate; Op.VRotateInsert; Op.VSplat; Op.VMerge; Op.VSum;
    Op.VEstimate; Op.VDot; Op.VSelect; Op.VMultiplyEvenOdd; Op.VLoadElement;
    Op.VStoreElement; Op.VLoadLeft; Op.VLoadRight; Op.VStoreLeft; Op.VStoreRight;
    Op.VMakeLoadShiftLeft; Op.VMakeLoadShiftRight; Op.Load; Op.Store; Op.ReserveLoad;
    Op.StoreConditional; Op.StringLoad; Op.StringStore; Op.Barrier; Op.CacheZero;
    Op.ICacheInvalidate; Op.CacheHint; Op.Branch; Op.BranchIf; Op.BranchIndirect; Op.Call;
    Op.CallIndirect; Op.Return; Op.Trap; Op.Syscall].

Lemma op_table_code op : op_table !! Z.to_nat (op_code op) = Some op.
Proof. by destruct op. Qed.

Lemma op_code_inj a b : op_code a = op_code b -> a = b.
Proof. intros H. pose proof (op_table_code a). pose proof (op_table_code b). congruence. Qed.

#[export] Instance Op_eq_dec : EqDecision Op.t.
Proof.
  intros a b. destruct (Z.eq_dec (op_code a) (op_code b)) as [H|H].
  - left. by apply op_code_inj.
  - right. congruence.
Defined.

Definition op_eqb (a b : Op.t) : bool := op_code a =? op_code b.

Lemma op_eqb_eq a b : op_eqb a b = true <-> a = b.
Proof. unfold op_eqb. rewrite Z.eqb_eq. split; [apply op_code_inj|congruence]. Qed.

(** ** Instructions, blocks and functions *)

(** An [OperandList] holds at most four operands; assigning more throws. *)
Definition kCapacity : nat := 4.
Definition operands_assign (values : list ValueId) : option (list ValueId) :=
  if (kCapacity <? length values)%nat then None else Some values.

Record Instruction : Type := mkInstr {
  i_op : Op.t;
  i_type : IrType;
  i_result : ValueId;
  i_args : list ValueId;
  i_imm0 : Z;
  i_imm1 : Z;
  i_guest_address : GuestAddress;
  i_guest_word : Z;
  i_guest_opcode : OpcodeId
}.

Inductive EdgeKind : Type := Fallthrough | Branch | Call.

#[export] Instance EdgeKind_eq_dec : EqDecision EdgeKind.
Proof. solve_decision. Defined.

Record ControlFlowEdge : Type := mkEdge {
  e_target : GuestAddress;
  e_kind : EdgeKind;
  e_local : bool
}.

#[export] Instance ControlFlowEdge_eq_dec : EqDecision ControlFlowEdge.
Proof. solve_decision. Defined.

Record Block : Type := mkBlock {
  b_guest_address : GuestAddress;
  b_instructions : list Instruction;
  b_end_address : GuestAddress;
  b_successors : list ControlFlowEdge;
  b_predecessors : list GuestAddress;
  b_has_external_exit : bool;
  b_has_indirect_exit : bool;
  b_has_indirect_call : bool
}.

Definition set_instructions (l : list Instruction) (b : Block) : Block :=
  mkBlock (b_guest_address b) l (b_end_address b) (b_successors b) (b_predecessors b)
    (b_has_external_exit b) (b_has_indirect_exit b) (b_has_indirect_call b).

Record Function : Type := mkFunction {
  f_guest_address : GuestAddress;
  f_blocks : list Block
}.

(** ** Effect classification *)

Definition effects (op : Op.t) : Z :=
  match op with
   | Op.ReadGpr | Op.ReadFprBits | Op.ReadVector | Op.ReadCR | Op.ReadCRBit | Op.ReadCRField
   | Op.ReadXER | Op.ReadXerCA | Op.ReadXerOV | Op.ReadXerSO | Op.ReadFPSCR | Op.ReadVSCR
   | Op.ReadLR | Op.ReadCTR | Op.ReadMSR | Op.ReadVRSAVE | Op.ReadPVR =>
      Effect.StateRead
   | Op.ReadTimeBase | Op.ReadSPR =>
      Effect.StateRead .| Effect.Call
   | Op.WriteGpr | Op.WriteFprBits | Op.WriteVector | Op.WriteCR | Op.WriteCRBit
   | Op.WriteCRField | Op.WriteCRCompare | Op.WriteCR0StoreConditional | Op.UpdateCR0Signed
   | Op.MoveCRFields | Op.WriteXER | Op.SetXerCA | Op.SetXerOV | Op.SetXerSO | Op.WriteFPSCR
   | Op.WriteFPSCRFieldImmediate | Op.WriteFPSCRFields | Op.WriteVSCR | Op.SetVSCRSaturation
   | Op.MoveVectorToVSCR | Op.WriteLR | Op.WriteCTR | Op.WriteMSR | Op.WriteVRSAVE =>
      Effect.StateWrite
   | Op.MoveVSCRToVector =>
      Effect.StateRead
   | Op.MoveXERToCR | Op.SetXerOverflowSticky | Op.UpdateCR1FromFPSCR
   | Op.MoveFPSCRFieldToCR | Op.SetFPSCRBit =>
      Effect.StateRead .| Effect.StateWrite
   | Op.WriteSPR =>
      Effect.StateWrite .| Effect.Call
   | Op.FAdd | Op.FSub | Op.FMul | Op.FDiv | Op.FFma | Op.FSqrt | Op.FCompare
   | Op.FRoundSingle | Op.FConvertFromI64 | Op.FConvertToI64 | Op.FReciprocalEstimate
   | Op.FReciprocalSqrtEstimate | Op.FUpdateStatus =>
      Effect.StateWrite
   | Op.VAdd | Op.VSub | Op.VMul | Op.VMadd | Op.VMin | Op.VMax | Op.VAvg | Op.VAnd
   | Op.VAndNot | Op.VOr | Op.VXor | Op.VNot | Op.VCompare | Op.VShuffle | Op.VPermute
   | Op.VPack | Op.VUnpack | Op.VConvert | Op.VShift | Op.VShiftDouble | Op.VRotate
   | Op.VRotateInsert | Op.VSplat | Op.VMerge | Op.VSum | Op.VEstimate | Op.VDot
   | Op.VSelect | Op.VMultiplyEvenOdd | Op.VUpdateCR6 =>
      Effect.StateWrite
   | Op.Load | Op.VLoadElement | Op.VLoadLeft | Op.VLoadRight =>
      Effect.MemoryRead .| Effect.MayFault
   | Op.Store | Op.VStoreElement | Op.VStoreLeft | Op.VStoreRight | Op.CacheZero =>
      Effect.MemoryWrite .| Effect.MayFault
   | Op.ReserveLoad =>
      Effect.MemoryRead .| Effect.StateWrite .| Effect.Synchronization .| Effect.MayFault
   | Op.StoreConditional =>
      Effect.MemoryRead .| Effect.MemoryWrite .| Effect.StateWrite .| Effect.Synchronization
      .| Effect.MayFault
   | Op.StringLoad =>
      Effect.MemoryRead .| Effect.StateWrite .| Effect.MayFault
   | Op.StringStore =>
      Effect.MemoryWrite .| Effect.StateRead .| Effect.MayFault
   | Op.ICacheInvalidate =>
      Effect.MemoryWrite .| Effect.Barrier .| Effect.Synchronization .| Effect.MayFault
   | Op.CacheHint =>
      Effect.MemoryRead
   | Op.Barrier =>
      Effect.Barrier .| Effect.Synchronization
   | Op.Branch | Op.BranchIf | Op.BranchIndirect | Op.Return =>
      Effect.ControlFlow
   | Op.Call | Op.CallIndirect =>
      Effect.ControlFlow .| Effect.Call .| Effect.StateRead .| Effect.StateWrite
   | Op.Trap =>
      Effect.ControlFlow .| Effect.Trap .| Effect.Call .| Effect.StateRead .| Effect.StateWrite
   | Op.Syscall =>
      Effect.ControlFlow .| Effect.Call .| Effect.StateRead .| Effect.StateWrite
   | _ =>
      Effect.None
  end.

Definition is_block_terminator (i : Instruction) : bool :=
  match i_op i with
  | Op.Branch | Op.Return | Op.Syscall | Op.Trap => true
  | Op.BranchIf | Op.BranchIndirect => i_imm0 i =? 0
  | Op.Barrier => i_imm0 i =? 4
  | _ => false
  end.

(** ** The builder

    [Builder] appends to a block, numbers results consecutively and tags each
    instruction with its guest origin. Its methods live in a state monad that
    fails when [OperandList::assign] throws. *)

Record Builder : Type := mkBuilder {
  bl_instructions : list Instruction;
  bl_next_value : ValueId;
  bl_current_guest : option DecodedInstruction
}.

Definition B (A : Type) : Type := Builder -> option (A * Builder).
Definition bret {A} (x : A) : B A := λ st, Some (x, st).
Definition bbind {A C} (m : B A) (k : A -> B C) : B C :=
  λ st, match m st with Some (x, st') => k x st' | None => None end.

Declare Scope builder_scope.
Delimit Scope builder_scope with builder.
Notation "'let!' x := m 'in' k" := (bbind m (λ x, k))
  (at level 10, x pattern, m at level 100, k at level 200) : builder_scope.
Notation "'do!' m 'in' k" := (bbind m (λ _, k))
  (at level 10, m at level 100, k at level 200) : builder_scope.

Definition emit (op : Op.t) (type : IrType) (args : list ValueId) (imm0 imm1 : Z)
    (guest : option DecodedInstruction) : B ValueId :=
  λ st,
    match operands_assign args with
    | None => None
    | Some args =>
        let value := match type with Void => false | _ => true end in
        let result := if value then bl_next_value st else kNoValue in
        let next := if value then u32 (bl_next_value st + 1) else bl_next_value st in
        let source := match guest with Some g => Some g | None => bl_current_guest st end in
        let i :=
          match source with
          | Some s => mkInstr op type result args imm0 imm1 (di_address s) (di_word s) (opcode_id s)
          | None => mkInstr op type result args imm0 imm1 0 0 kInvalidOpcodeId
          end in
        Some (result, mkBuilder (bl_instructions st ++ [i]) next (bl_current_guest st))
    end.

Definition set_guest (guest : option DecodedInstruction) : B unit :=
  λ st, Some (tt, mkBuilder (bl_instructions st) (bl_next_value st) guest).

Definition emit0 (op : Op.t) (type : IrType) (args : list ValueId) : B ValueId :=
  emit op type args 0 0 None.

Definition constant_i64 (value : Z) : B ValueId := emit Op.Constant I64 [] value 0 None.
Definition constant_i32 (value : Z) : B ValueId := emit Op.Constant I32 [] value 0 None.
Definition constant_i1 (value : bool) : B ValueId :=
  emit Op.Constant I1 [] (if value then 1 else 0) 0 None.

Definition read_gpr (reg : Z) : B ValueId := emit Op.ReadGpr I64 [] reg 0 None.
Definition write_gpr (reg : Z) (value : ValueId) : B unit :=
  bbind (emit Op.WriteGpr Void [value] reg 0 None) (λ _, bret tt).
Definition read_fpr_bits (reg : Z) : B ValueId := emit Op.ReadFprBits I64 [] reg 0 None.
Definition write_fpr_bits (reg : Z) (value : ValueId) : B unit :=
  bbind (emit Op.WriteFprBits Void [value] reg 0 None) (λ _, bret tt).
Definition read_vector (reg : Z) : B ValueId := emit Op.ReadVector V128 [] reg 0 None.
Definition write_vector (reg : Z) (value : ValueId) : B unit :=
  bbind (emit Op.WriteVector Void [value] reg 0 None) (λ _, bret tt).
Definition read_lr : B ValueId := emit0 Op.ReadLR I64 [].
Definition write_lr (value : ValueId) : B unit :=
  bbind (emit0 Op.WriteLR Void [value]) (λ _, bret tt).
Definition read_ctr : B ValueId := emit0 Op.ReadCTR I64 [].
Definition write_ctr (value : ValueId) : B unit :=
  bbind (emit0 Op.WriteCTR Void [value]) (λ _, bret tt).
