(* ===== verification/IrValue.v ===== *)
(** * IR values and pure operations
    (src/cpu/codegen/emission/instruction_emission.cpp)

    The AOT backend gives IR its meaning: each instruction becomes one C++
    declaration [<type> v<result> = <expression>]. A [TVal] is the value of such
    a variable together with its declared type. [eval_pure] is the meaning of the
    expression emitted for an operation without side effects; it is undefined
    ([None]) where the emitted C++ would rely on an implicit conversion that the
    optimiser's type-directed rewrites do not respect.

    The one mixed-width form the lifter emits is a 32-bit bitwise operation over a
    64-bit mask constant. The optimiser may alias its result to the 64-bit
    operand, so how the result is consumed matters: see [Mode]. *)

From S2P Require Import Prelude.
From S2P Require Import Words.
From S2P Require Import Instr.
From S2P Require Import Decoder.
From S2P Require Import CpuState.
From S2P Require Import AotScalar.
From S2P Require Import Ir.

(** Three levels of strictness. [Emitted] is the emitted C++. [Promoted] marks the
    result of a mixed-width operation as [TLoose], which only width-insensitive
    operations consume, and leaves a compare with several true relations
    undefined. [Lifted] also marks the zero extension of such a result
    ([TLooseExt]) and leaves its truncation undefined. A block as lifted runs in
    [Lifted] mode, a block after state promotion in [Promoted] mode, and every
    block in [Emitted] mode. *)
Inductive Mode : Type := Lifted | Promoted | Emitted.

#[export] Instance Mode_eq_dec : EqDecision Mode.
Proof. solve_decision. Defined.

Inductive TVal : Type :=
  | TInt (t : IrType) (z : Z)
  | TLoose (z : Z)
  | TLooseExt (z : Z)
  | TF32 (bits : Z)
  | TF64 (bits : Z)
  | TVec (v : Vector128).

#[export] Instance TVal_eq_dec : EqDecision TVal.
Proof. solve_decision. Defined.

(** ** Widths, wrapping and signedness of integer types *)

(** value_simplification.cpp: 0 for the non-integer types. *)
Definition integer_width (t : IrType) : Z :=
  match t with I1 => 1 | I8 => 8 | I16 => 16 | I32 => 32 | I64 => 64 | _ => 0 end.

(** instruction_emission.cpp: [bits], 64 for everything wider than [I32]. *)
Definition type_bits (t : IrType) : Z :=
  match t with I1 => 1 | I8 => 8 | I16 => 16 | I32 => 32 | _ => 64 end.

Definition is_int_type (t : IrType) : bool := 0 <? integer_width t.
(** [I8] .. [I64]: the types whose signed counterpart has the same width. *)
Definition is_wide_int_type (t : IrType) : bool := 1 <? integer_width t.

Definition wrap (t : IrType) (z : Z) : Z := z mod 2 ^ integer_width t.

(** Reading a value of type [t] through [signed_type(t)]. *)
Definition signed_view (t : IrType) (z : Z) : Z :=
  match t with I8 => s8 z | I16 => s16 z | I32 => s32 z | _ => s64 z end.

(** ** Operand views *)

(** The declared integer type and the bits of a value that is not [TLoose]. *)
Definition int_view (v : TVal) : option (IrType * Z) :=
  match v with TInt t z => Some (t, z) | TLooseExt z => Some (I64, z) | _ => None end.

(** An operand a compare or a register write reads at type [t]. *)
Definition viewed (t : IrType) (v : TVal) : option Z :=
  '(t', z) ← int_view v; if decide (t' = t) then Some z else None.

(** An operand whose declared type is [t]. *)
Definition exact (t : IrType) (v : TVal) : option Z :=
  match v with
  | TInt t' z => if decide (t' = t) then Some z else None
  | _ => None
  end.

Definition any_int (v : TVal) : option Z :=
  match v with TInt _ z | TLoose z | TLooseExt z => Some z | _ => None end.

(** Operand of a bitwise operation of type [t]: its bits, and whether the
    operand's declared type is not [t]. *)
Definition bit_operand (t : IrType) (v : TVal) : option (Z * bool) :=
  match v with
  | TLoose z | TLooseExt z => if decide (t = I32) then Some (z, true) else None
  | TInt t' z =>
      if decide (t' = t) then Some (z, false)
      else if decide (t = I32 /\ t' = I64) then
        if z <? 0x100000000 then Some (z, true) else None
      else None
  | _ => None
  end.

Definition as_vec (v : TVal) : option Vector128 :=
  match v with TVec x => Some x | _ => None end.
Definition as_f64 (v : TVal) : option Z := match v with TF64 x => Some x | _ => None end.

Definition tbool (b : bool) : TVal := TInt I1 (Z.b2z b).

(** A result declared with a fixed type. *)
Definition typed (i : Instruction) (t : IrType) (v : TVal) : option TVal :=
  if decide (i_type i = t) then Some v else None.

(** ** Shared expression forms *)

Definition guest_mnemonic (i : Instruction) : string :=
  match opcode_info (i_guest_opcode i) with Some info => oi_mnemonic info | None => "" end.

(** [imm0] of a shift intrinsic is the pattern of its guest opcode. *)
Definition shift_metadata_ok (i : Instruction) : bool :=
  match opcode_info (i_guest_opcode i) with
  | Some info => (i_imm0 i =? oi_pattern info)
  | None => false
  end.

Definition constant_value (t : IrType) (imm0 : Z) : option TVal :=
  match t with
  | I1 => Some (tbool (negb (imm0 =? 0)))
  | I8 | I16 | I32 | I64 => Some (TInt t (wrap t imm0))
  | F32 => Some (TF32 (u32 imm0))
  | F64 => Some (TF64 (u64 imm0))
  | _ => None
  end.

Definition arith (f : Z -> Z -> Z) (t : IrType) (a b : TVal) : option TVal :=
  if decide (t = I32 \/ t = I64) then
    x ← exact t a; y ← exact t b; Some (TInt t (wrap t (f x y)))
  else None.

Definition bitwise (mode : Mode) (f : Z -> Z -> Z) (t : IrType) (a b : TVal) : option TVal :=
  if is_int_type t then
    '(x, lx) ← bit_operand t a; '(y, ly) ← bit_operand t b;
    let r := wrap t (f x y) in
    Some (if negb (bool_decide (mode = Emitted)) && (lx || ly) then TLoose r else TInt t r)
  else None.

(** [b >= bits ? on_overflow : shifted] over an operand of the result type. *)
Definition shift_op (f : Z -> Z -> Z) (over : Z -> Z) (t : IrType) (a b : TVal) : option TVal :=
  if is_wide_int_type t then
    x ← exact t a; n ← any_int b;
    Some (TInt t (wrap t (if type_bits t <=? n then over x else f x n)))
  else None.

Definition compare_op (wide_only : bool) (f : IrType -> Z -> Z -> bool) (i : Instruction)
    (a b : TVal) : option TVal :=
  '(t, x) ← int_view a;
  if (if wide_only then is_wide_int_type t else is_int_type t) then
    y ← viewed t b; typed i I1 (tbool (f t x y))
  else None.

Definition same_class (t : IrType) (v : TVal) : bool :=
  match v with
  | TInt t' _ => bool_decide (t' = t)
  | TLoose _ => false
  | TLooseExt _ => bool_decide (t = I64)
  | TF32 _ => bool_decide (t = F32)
  | TF64 _ => bool_decide (t = F64)
  | TVec _ => bool_decide (t = V128)
  end.

Definition vector_load_shift_left (ea : Z) : Vector128 :=
  let n := ea .& 15 in (λ i, u8 ((n + i) .& 31)) <$> seqZ 0 16.
Definition vector_load_shift_right (ea : Z) : Vector128 :=
  let n := ea .& 15 in (λ i, u8 (u32 (16 - n + i) .& 31)) <$> seqZ 0 16.

(** Host floating-point conversions (C++ [static_cast] between [float] and
    [double]) are the host's, not the program's. *)
Class HostFloat := {
  hf_promote : Z -> Z;
  hf_truncate : Z -> Z
}.

Section Pure.
Context `{HostFloat} (mode : Mode).

(** ** The emitted expression of each pure operation *)

Definition eval_pure (i : Instruction) (args : list TVal) : option TVal :=
  let t := i_type i in
  match i_op i, args with
  | Op.Constant, [] => constant_value t (i_imm0 i)
  | Op.Add, [a; b] => arith Z.add t a b
  | Op.Sub, [a; b] => arith Z.sub t a b
  | Op.Mul, [a; b] => arith Z.mul t a b
  | Op.AddImmediate, [a] =>
      x ← exact I64 a; typed i I64 (TInt I64 (u64 (x + i_imm0 i)))
  | Op.And, [a; b] => bitwise mode Z.land t a b
  | Op.Or, [a; b] => bitwise mode Z.lor t a b
  | Op.Xor, [a; b] => bitwise mode Z.lxor t a b
  | Op.Not, [a] =>
      if is_int_type t then x ← exact t a; Some (TInt t (wrap t (Z.lnot x))) else None
  | Op.AddCarry, [a; b; c] =>
      x ← exact I64 a; y ← exact I64 b; z ← exact I1 c;
      typed i I64 (TInt I64 (add_carry x y (negb (z =? 0))))
  | Op.CarryOut, [a; b; c] =>
      x ← exact I64 a; y ← exact I64 b; z ← exact I1 c;
      typed i I1 (tbool (carry_out x y (negb (z =? 0))))
  | Op.SignedOverflow, [a; b; c] =>
      x ← exact I64 a; y ← exact I64 b; z ← exact I1 c;
      typed i I1 (tbool (signed_add_overflow x y (negb (z =? 0))))
  | Op.MulHighSigned, [a; b] =>
      if decide (t = I32 \/ t = I64) then
        x ← exact t a; y ← exact t b;
        Some (TInt t (wrap t (mul_hi_signed_width x y (type_bits t))))
      else None
  | Op.MulHighUnsigned, [a; b] =>
      if decide (t = I32 \/ t = I64) then
        x ← exact t a; y ← exact t b;
        Some (TInt t (wrap t (mul_hi_unsigned_width x y (type_bits t))))
      else None
  | Op.MulOverflowSigned, [a; b] =>
      x ← any_int a; y ← any_int b;
      typed i I1 (tbool (mul_overflow_signed x y (i_imm0 i)))
  | Op.DivSigned, [a; b] =>
      if decide (t = I32 \/ t = I64) then
        x ← exact t a; y ← exact t b;
        Some (TInt t (wrap t (div_signed x y (i_imm0 i))))
      else None
  | Op.DivUnsigned, [a; b] =>
      if decide (t = I32 \/ t = I64) then
        x ← exact t a; y ← exact t b;
        Some (TInt t (wrap t (div_unsigned x y (i_imm0 i))))
      else None
  | Op.DivOverflow, [a; b] =>
      x ← any_int a; y ← any_int b;
      typed i I1 (tbool (div_overflow x y (i_imm0 i) (negb (i_imm1 i =? 0))))
  | Op.Neg, [a] =>
      if is_wide_int_type t then x ← exact t a; Some (TInt t (wrap t (0 - x))) else None
  | Op.CountLeadingZeros, [a] =>
      if decide (t = I32 \/ t = I64) then
        x ← exact t a; Some (TInt t (wrap t (countl_zero (type_bits t) x)))
      else None
  | Op.PpcShift, [a; b] =>
      if shift_metadata_ok i then
        x ← exact I64 a; y ← exact I64 b;
        typed i I64 (TInt I64 (u64 (ppc_shift (guest_mnemonic i) x y)))
      else None
  | Op.PpcShiftCarry, [a; b] =>
      if shift_metadata_ok i then
        x ← exact I64 a; y ← exact I64 b;
        typed i I1 (tbool (ppc_shift_carry (guest_mnemonic i) x y))
      else None
  | Op.Shl, [a; b] => shift_op (λ x n, x .<< n) (λ _, 0) t a b
  | Op.ShrLogical, [a; b] => shift_op (λ x n, x .>> n) (λ _, 0) t a b
  | Op.ShrArithmetic, [a; b] =>
      shift_op (λ x n, signed_view t x .>> n)
        (λ x, if signed_view t x <? 0 then -1 else 0) t a b
  | Op.Rotl, [a; b] =>
      if decide (t = I32) then
        x ← exact I32 a; n ← any_int b; Some (TInt I32 (rotate_left32 x (u32 n)))
      else if decide (t = I64) then
        x ← exact I64 a; n ← any_int b; Some (TInt I64 (rotate_left64 x (u32 n)))
      else None
  | Op.SignExtend, [TInt src x] =>
      if is_wide_int_type src && (integer_width src <=? integer_width t)
      then Some (TInt t (wrap t (signed_view src x))) else None
  | Op.ZeroExtend, [TInt src x] =>
      if is_int_type src && (integer_width src <=? integer_width t)
      then Some (TInt t (wrap t x)) else None
  | Op.ZeroExtend, [TLoose x] | Op.ZeroExtend, [TLooseExt x] =>
      typed i I64 (if decide (mode = Lifted) then TLooseExt x else TInt I64 x)
  | Op.Truncate, [TInt src x] =>
      if is_wide_int_type t && (integer_width t <=? integer_width src)
      then Some (TInt t (wrap t x)) else None
  | Op.Bitcast, [TF64 x] => typed i I64 (TInt I64 (wrap I64 x))
  | Op.Bitcast, [TInt src x] =>
      if decide (src = I64) then typed i F64 (TF64 x)
      else if decide (src = I32) then typed i F32 (TF32 x) else None
  | Op.Bitcast, [TF32 x] => typed i I32 (TInt I32 (wrap I32 x))
  | Op.FPromote, [TF32 x] => typed i F64 (TF64 (hf_promote x))
  | Op.FTruncate, [TF64 x] => typed i F32 (TF32 (hf_truncate x))
  | Op.CompareEq, [a; b] => compare_op false (λ _ x y, x =? y) i a b
  | Op.CompareNe, [a; b] => compare_op false (λ _ x y, negb (x =? y)) i a b
  | Op.CompareUlt, [a; b] => compare_op false (λ _ x y, x <? y) i a b
  | Op.CompareUgt, [a; b] => compare_op false (λ _ x y, y <? x) i a b
  | Op.CompareSlt, [a; b] =>
      compare_op true (λ t x y, signed_view t x <? signed_view t y) i a b
  | Op.CompareSgt, [a; b] =>
      compare_op true (λ t x y, signed_view t y <? signed_view t x) i a b
  | Op.Select, [c; a; b] =>
      z ← exact I1 c;
      if same_class t a && same_class t b then Some (if z =? 0 then b else a) else None
  | Op.FAbs, [TF64 x] => typed i F64 (TF64 (fp_abs_bits x))
  | Op.FNeg, [TF64 x] => typed i F64 (TF64 (fp_neg_bits x))
  | Op.FSelect, [TF64 c; TF64 a; TF64 b] => typed i F64 (TF64 (fp_select c a b))
  | Op.MoveFPSCRToFPRBits, [a] => x ← exact I64 a; typed i I64 (TInt I64 (wrap I64 x))
  | Op.VMakeLoadShiftLeft, [a; b] =>
      x ← exact I64 a; y ← exact I64 b;
      typed i V128 (TVec (vector_load_shift_left (u64 (x + y))))
  | Op.VMakeLoadShiftRight, [a; b] =>
      x ← exact I64 a; y ← exact I64 b;
      typed i V128 (TVec (vector_load_shift_right (u64 (x + y))))
  | _, _ => None
  end.
End Pure.
