(* ===== verification/AotVector.v ===== *)
(** * Inline vector helpers of the AOT backend
    (include/xenon/cpu/aot_semantics.hpp lines 22-139)

    The vector operations that instruction_emission.cpp lowers to inline code:
    bitwise logic, select, splats and modular lane arithmetic. The remaining
    operations go through [execute_vector] and are a parameter of the IR
    semantics. *)

From S2P Require Import Prelude.
From S2P Require Import Words.
From S2P Require Import CpuState.

(** ** Bitwise logic

    The C++ code works on the two 64-bit halves of the register; the operations
    act on each bit, hence on each byte. *)

Definition map_bytes2 (f : Z -> Z -> Z) (a b : Vector128) : Vector128 := zip_with f a b.

Definition not8 (x : Z) : Z := 0xFF .^ x.

Definition vector_logic (mnemonic : string) (a b : Vector128) : option Vector128 :=
  if bool_decide (mnemonic = "vand" \/ mnemonic = "vand128")
  then Some (map_bytes2 Z.land a b)
  else if bool_decide (mnemonic = "vandc" \/ mnemonic = "vandc128")
  then Some (map_bytes2 (λ x y, x .& not8 y) a b)
  else if bool_decide (mnemonic = "vor" \/ mnemonic = "vor128")
  then Some (map_bytes2 Z.lor a b)
  else if bool_decide (mnemonic = "vxor" \/ mnemonic = "vxor128")
  then Some (map_bytes2 Z.lxor a b)
  else if bool_decide (mnemonic = "vnor" \/ mnemonic = "vnor128")
  then Some (map_bytes2 (λ x y, not8 (x .| y)) a b)
  else None.

Definition vector_select (a b mask : Vector128) : Vector128 :=
  zip_with Z.lor (map_bytes2 (λ x m, x .& not8 m) a mask) (map_bytes2 Z.land b mask).

(** ** Splats *)

Definition set_halfwords (f : Z -> Z) : Vector128 :=
  fold_left (λ r i, vec_set_u16_be r i (f i)) (seqZ 0 8) vec_zero.
Definition set_words (f : Z -> Z) : Vector128 :=
  fold_left (λ r i, vec_set_u32_be r i (f i)) (seqZ 0 4) vec_zero.

Definition vector_splat_byte (src : Vector128) (imm : Z) : Vector128 :=
  replicate 16 (vec_u8 src imm).
Definition vector_splat_halfword (src : Vector128) (imm : Z) : Vector128 :=
  let value := vec_u16_be src (imm .& 7) in set_halfwords (λ _, value).
Definition vector_splat_word (src : Vector128) (imm : Z) : Vector128 :=
  let value := vec_u32_be src (imm .& 3) in set_words (λ _, value).
Definition vector_splat_immediate_byte (imm : Z) : Vector128 :=
  replicate 16 (u8 (s8 ((imm .& 31) .<< 3) .>> 3)).
Definition vector_splat_immediate_halfword (imm : Z) : Vector128 :=
  let value := u16 (s16 ((imm .& 31) .<< 11) .>> 11) in set_halfwords (λ _, value).
Definition vector_splat_immediate_word (imm : Z) : Vector128 :=
  let value := u32 (s32 ((imm .& 31) .<< 27) .>> 27) in set_words (λ _, value).

(** ** Modular lane arithmetic, by lane width in bytes *)

Definition lanewise (f : Z -> Z -> Z) (width : Z) (a b : Vector128) : option Vector128 :=
  match width with
  | 1 => Some (zip_with (λ x y, u8 (f x y)) a b)
  | 2 => Some (set_halfwords (λ i, u16 (f (vec_u16_be a i) (vec_u16_be b i))))
  | 4 => Some (set_words (λ i, u32 (f (vec_u32_be a i) (vec_u32_be b i))))
  | _ => None
  end.

Definition vector_add_modular (width : Z) (a b : Vector128) : option Vector128 :=
  lanewise Z.add width a b.
Definition vector_sub_modular (width : Z) (a b : Vector128) : option Vector128 :=
  lanewise Z.sub width a b.

(** ** Laws *)

Lemma set_halfwords_u16 f i :
  0 <= i < 8 -> (forall j, 0 <= f j < 0x10000) -> vec_u16_be (set_halfwords f) i = f i.
Proof.
  intros Hi Hf.
  assert (Hb : forall z, 0 <= z < 0x10000 -> u16 (u8 (z .>> 8) .<< 8 .| u8 z) = z).
  { intros z Hz. unfold u16, u8. rewrite Z.shiftr_div_pow2, Z.shiftl_mul_pow2 by lia.
    assert (Hd : Z.land ((z / 2 ^ 8) mod 256 * 2 ^ 8) (z mod 256) = 0).
    { apply Z.bits_inj'. intros n Hn. rewrite Z.land_spec, Z.bits_0.
      change 256 with (2 ^ 8). destruct (Z.lt_ge_cases n 8).
      - by rewrite Z.mul_pow2_bits_low.
      - rewrite (Z.mod_pow2_bits_high z) by lia. apply andb_false_r. }
    rewrite <- Z.lxor_lor, <- Z.add_nocarry_lxor by exact Hd.
    change (2 ^ 8) with 256. Z.to_euclidean_division_equations; lia. }
  assert (i = 0 \/ i = 1 \/ i = 2 \/ i = 3 \/ i = 4 \/ i = 5 \/ i = 6 \/ i = 7) as Hc by lia.
  destruct Hc as [->|[->|[->|[->|[->|[->|[->| ->]]]]]]]; apply Hb; apply Hf.
Qed.
