(* ===== verification/Services.v ===== *)
(** * Services reached from compiled code
    (include/xenon/cpu/runtime.hpp, include/xenon/cpu/memory_port.hpp,
    src/cpu/codegen/aot/aot_semantics.cpp)

    Execution results, the virtual [MemoryPort] and [RuntimeServices] interfaces
    as type classes over an abstract host world [W], the execution-context
    operations built on them, and the memory helpers of the AOT backend.

    A call that may throw a C++ exception (a memory fault, guest thread
    termination) returns [None] for its value; the world is still updated. *)

From S2P Require Import Prelude.
From S2P Require Import Words.
From S2P Require Import CpuState.
From S2P Require Import Ir.

(** ** Execution results *)

Inductive FlowReason : Type :=
  | RFallthrough | RBranch | RReturn | RTrap | RSyscall | RHalt | RLongJump.

#[export] Instance FlowReason_eq_dec : EqDecision FlowReason.
Proof. solve_decision. Defined.

Record ExecutionResult : Type := mkResult {
  er_reason : FlowReason;
  er_next_address : GuestAddress;
  er_detail : Z
}.

Definition terminal (r : ExecutionResult) : bool :=
  match er_reason r with RTrap | RHalt => true | _ => false end.

Definition reason_is (x : FlowReason) (r : ExecutionResult) : bool :=
  bool_decide (er_reason r = x).

Inductive CompiledLookupKind : Type := LookupBranch | LookupCall.

(** ** Interfaces *)

(** The value of an access, or [None] when it throws, and the world after it. *)
Definition MemResult (W A : Type) : Type := option A * W.

Class MemoryPort (W : Type) := {
  mp_read8 : GuestAddress -> W -> MemResult W Z;
  (** [read16/32/64_be] and [_le]: width in bits, and whether little-endian. *)
  mp_read : Z -> bool -> GuestAddress -> W -> MemResult W Z;
  mp_read128 : GuestAddress -> W -> MemResult W Vector128;
  mp_write8 : GuestAddress -> Z -> W -> MemResult W unit;
  mp_write : Z -> bool -> GuestAddress -> Z -> W -> MemResult W unit;
  mp_write128 : GuestAddress -> Vector128 -> W -> MemResult W unit;
  mp_read_bytes : GuestAddress -> Z -> W -> MemResult W (list Z);
  mp_write_bytes : GuestAddress -> list Z -> W -> MemResult W unit;
  (** [reserve32/64]: the monitor token and the value read. *)
  mp_reserve : Z -> GuestAddress -> W -> MemResult W (Z * Z);
  mp_store_conditional : Z -> GuestAddress -> Z -> Z -> W -> MemResult W bool;
  mp_cancel_reservation : Z -> W -> W;
  mp_barrier : Z -> W -> W;
  mp_zero_cache_block : GuestAddress -> Z -> W -> MemResult W unit;
  mp_instruction_cache_invalidate : GuestAddress -> W -> MemResult W unit
}.

(** What a call into the runtime or into other compiled code does to the CPU
    state and the world; no result when it throws. *)
Definition Service (W : Type) : Type :=
  CpuState -> W -> option ExecutionResult * CpuState * W.

Class RuntimeServices (W : Type) := {
  rt_call : GuestAddress -> Service W;
  rt_syscall : Z -> Service W;
  rt_trap : Z -> Service W;
  rt_read_spr : Z -> CpuState -> W -> Z * W;
  rt_write_spr : Z -> Z -> CpuState -> W -> CpuState * W;
  rt_read_time_base : CpuState -> W -> Z * W;
  (** [false] when [enter_safepoint] throws. *)
  rt_poll_safepoint : CpuState -> W -> bool * CpuState * W;
  rt_is_recognized_import_thunk : GuestAddress -> W -> bool;
  (** The compiled registry, with and without the miss observer. *)
  ctx_compiled_lookup : GuestAddress -> CompiledLookupKind -> CpuState -> W ->
    option (Service W) * CpuState * W;
  ctx_lookup_miss : GuestAddress -> CompiledLookupKind -> CpuState -> W -> CpuState * W;
  (** [None] when not handled. *)
  ctx_dynamic_fallback : GuestAddress -> CompiledLookupKind -> CpuState -> W ->
    option (option ExecutionResult) * CpuState * W
}.

(** ** Execution-context operations *)

Section Context_.
Context {W : Type} `{RuntimeServices W}.

Definition call_import_from_branch (target : GuestAddress) : Service W := λ s w,
  let '(result, s, w) := rt_call target s w in
  match result with
  | Some r =>
      if reason_is RFallthrough r
      then (Some (mkResult RReturn (u32 (lr s .& not64 3)) 0), s, w)
      else (Some r, s, w)
  | None => (None, s, w)
  end.

Definition lookup_compiled (target : GuestAddress) (kind : CompiledLookupKind)
    (s : CpuState) (w : W) : option (Service W) * CpuState * W :=
  let '(entry, s, w) := ctx_compiled_lookup target kind s w in
  match entry with
  | Some e => (Some e, s, w)
  | None => let '(s, w) := ctx_lookup_miss target kind s w in (None, s, w)
  end.

(** The loop runs one tail branch per iteration; [None] when the fuel runs out. *)
Fixpoint follow_tail_branches (fuel : nat) (result : ExecutionResult) (s : CpuState) (w : W)
    : option (option ExecutionResult * CpuState * W) :=
  if negb (reason_is RBranch result) then Some (Some result, s, w)
  else
    match fuel with
    | O => None
    | S fuel =>
        let target := er_next_address result in
        let '(native, s, w) := ctx_compiled_lookup target LookupBranch s w in
        match native with
        | Some native =>
            let '(alive, s, w) := rt_poll_safepoint s w in
            if negb alive then Some (None, s, w)
            else
              let '(r, s, w) := native s w in
              match r with
              | Some r => follow_tail_branches fuel r s w
              | None => Some (None, s, w)
              end
        | None =>
            if rt_is_recognized_import_thunk target w then
              let '(r, s, w) := call_import_from_branch target s w in
              match r with
              | Some r => follow_tail_branches fuel r s w
              | None => Some (None, s, w)
              end
            else Some (Some result, s, w)
        end
    end.

(** [lookup_compiled(guest_target, Call)], else the dynamic fallback, else
    [runtime.call(raw_target)]; the first component tells whether a compiled
    entry ran. *)
Definition dispatch_call (guest_target raw_target : GuestAddress) (s : CpuState) (w : W)
    : bool * option ExecutionResult * CpuState * W :=
  let '(native, s, w) := lookup_compiled guest_target LookupCall s w in
  match native with
  | Some native => let '(r, s, w) := native s w in (true, r, s, w)
  | None =>
      let '(handled, s, w) := ctx_dynamic_fallback guest_target LookupCall s w in
      match handled with
      | Some r => (false, r, s, w)
      | None => let '(r, s, w) := rt_call raw_target s w in (false, r, s, w)
      end
  end.
End Context_.

(** ** Memory helpers of the AOT backend *)

Section MemoryHelpers.
Context {W : Type} `{MemoryPort W}.

Definition align_down (ea bytes : Z) : GuestAddress := ea .& not32 (bytes - 1).

Definition vector_load_element (old : Vector128) (ea width : Z) (w : W)
    : MemResult W Vector128 :=
  let p := ea .& 15 in
  if width =? 1 then
    let '(v, w) := mp_read8 ea w in ((λ v, <[Z.to_nat p := u8 v]> old) <$> v, w)
  else if width =? 2 then
    let '(v, w) := mp_read 16 false (align_down ea 2) w in
    ((λ v, vec_set_u16_be old ((p .& 14) / 2) v) <$> v, w)
  else
    let '(v, w) := mp_read 32 false (align_down ea 4) w in
    ((λ v, vec_set_u32_be old ((p .& 12) / 4) v) <$> v, w).

Definition vector_store_element (v : Vector128) (ea width : Z) (w : W) : MemResult W unit :=
  let p := ea .& 15 in
  if width =? 1 then mp_write8 ea (v !!! Z.to_nat p) w
  else if width =? 2 then mp_write 16 false (align_down ea 2) (vec_u16_be v ((p .& 14) / 2)) w
  else mp_write 32 false (align_down ea 4) (vec_u32_be v ((p .& 12) / 4)) w.

Definition vector_load_left (ea : Z) (w : W) : MemResult W Vector128 :=
  let n := ea .& 15 in
  let '(bytes, w) := mp_read_bytes ea (16 - n) w in
  ((λ bytes, bytes ++ replicate (Z.to_nat n) 0) <$> bytes, w).

Definition vector_load_right (ea : Z) (w : W) : MemResult W Vector128 :=
  let n := ea .& 15 in
  if n =? 0 then (Some vec_zero, w)
  else
    let '(bytes, w) := mp_read_bytes (align_down ea 16) n w in
    ((λ bytes, replicate (Z.to_nat (16 - n)) 0 ++ bytes) <$> bytes, w).

Definition vector_store_left (value : Vector128) (ea : Z) (w : W) : MemResult W unit :=
  let n := ea .& 15 in mp_write_bytes ea (take (Z.to_nat (16 - n)) value) w.

Definition vector_store_right (value : Vector128) (ea : Z) (w : W) : MemResult W unit :=
  let n := ea .& 15 in
  if n =? 0 then (Some tt, w)
  else mp_write_bytes (align_down ea 16) (drop (Z.to_nat (16 - n)) value) w.

(** ** String moves, in chunks of 128 bytes *)

Definition string_load_byte (first : Z) (n byte : Z) (s : CpuState) : CpuState :=
  let reg := u32 (first + n / 4) .& 31 in
  let pos := n .& 3 in
  let s := if pos =? 0 then set_gpr reg 0 s else s in
  set_gpr reg (get_gpr s reg .| (u8 byte .<< (24 - 8 * pos))) s.

Definition string_load_chunk (first offset : Z) (bytes : list Z) (s : CpuState) : CpuState :=
  snd (fold_left (λ '(n, s) byte, (n + 1, string_load_byte first n byte s))
         bytes (offset, s)).

(** [false]: a fault, with the registers loaded so far kept. *)
Fixpoint string_load_loop (fuel : nat) (ea count first offset : Z) (s : CpuState) (w : W)
    : bool * CpuState * W :=
  match fuel with
  | O => (true, s, w)
  | S fuel =>
      if offset <? count then
        let chunk := Z.min (count - offset) 128 in
        match mp_read_bytes (u32 (ea + offset)) chunk w with
        | (None, w) => (false, s, w)
        | (Some bytes, w) =>
            string_load_loop fuel ea count first (offset + chunk)
              (string_load_chunk first offset bytes s) w
        end
      else (true, s, w)
  end.

Definition string_load (ea count first : Z) (s : CpuState) (w : W) : bool * CpuState * W :=
  string_load_loop (S (Z.to_nat (count / 128 + 1))) ea count first 0 s w.

Definition string_store_byte (s : CpuState) (first n : Z) : Z :=
  let reg := u32 (first + n / 4) .& 31 in
  let pos := n .& 3 in
  u8 (get_gpr s reg .>> (24 - 8 * pos)).

Fixpoint string_store_loop (fuel : nat) (ea count first offset : Z) (s : CpuState) (w : W)
    : bool * W :=
  match fuel with
  | O => (true, w)
  | S fuel =>
      if offset <? count then
        let chunk := Z.min (count - offset) 128 in
        match mp_write_bytes (u32 (ea + offset))
                (string_store_byte s first <$> seqZ offset chunk) w with
        | (None, w) => (false, w)
        | (Some _, w) => string_store_loop fuel ea count first (offset + chunk) s w
        end
      else (true, w)
  end.

Definition string_store (ea count first : Z) (s : CpuState) (w : W) : bool * W :=
  string_store_loop (S (Z.to_nat (count / 128 + 1))) ea count first 0 s w.
End MemoryHelpers.
