(* ===== verification/IrSem.v ===== *)
(** * Semantics of IR blocks
    (src/cpu/codegen/emission/instruction_emission.cpp,
    src/cpu/codegen/emission/backend_cpp_aot.cpp)

    [exec_inst] is the C++ statement that [emit_one] generates for one IR
    instruction; [exec_list] is the straight-line body [emit_function] generates
    for a block, with the CIA/NIA materialisation of [emit_guest_pc]; [run_block]
    adds the prologue and epilogue. Execution is partial: it is undefined
    ([None]) where an operand is not defined or does not have the type the
    operation is lifted with; how strict it is depends on the [Mode]. *)

From S2P Require Import Prelude.
From S2P Require Import Words.
From S2P Require Import Instr.
From S2P Require Import Decoder.
From S2P Require Import CpuState.
From S2P Require Import AotScalar.
From S2P Require Import AotVector.
From S2P Require Import Ir.
From S2P Require Import IrValue.
From S2P Require Import Services.

(** ** Host arithmetic helpers *)

(** The floating-point helpers of aot_semantics.hpp, by their arguments. They
    read and write FPSCR and the host floating-point environment, nothing else of
    the CPU state. *)
Inductive FpCall : Type :=
  | FpAdd (a b : Z) | FpSub (a b : Z) | FpMul (a b : Z) | FpDiv (a b : Z)
  | FpFma (a b c : Z) | FpSqrt (a : Z) | FpRoundSingle (a : Z) | FpFromI64 (bits : Z)
  | FpToIntegerBits (a width : Z) (toward_zero : bool)
  | FpReciprocal (a : Z) | FpRsqrt (a : Z) | FpCompareField (a b : Z)
  | FpUpdateStatus (a : Z) | FpUpdateConversionStatus
  | FpUpdateCompareStatus (a b : Z) (ordered : bool).

Class HostHelpers (W : Type) := {
  (** result, new FPSCR, new world *)
  hh_fp : FpCall -> Z -> W -> Z * Z * W;
  (** [execute_vector(semantic, guest word, state, a, b, c, d)]: reads and writes
      VSCR only. *)
  hh_vector : string -> Z -> list Vector128 -> Z -> W -> Vector128 * Z * W;
  hh_float :: HostFloat
}.

(** ** Steps *)

(** [Next] carries the value the statement declares, if any. *)
Inductive Step (W : Type) : Type :=
  | Next (v : option TVal) (s : CpuState) (w : W)
  | Exit (r : option ExecutionResult) (s : CpuState) (w : W).
Arguments Next {W} v s w.
Arguments Exit {W} r s w.

Definition bool_of (v : TVal) : option bool := (λ z, negb (z =? 0)) <$> exact I1 v.
Definition address_of (v : TVal) : option GuestAddress := u32 <$> any_int v.

(** A register of the given C++ width declared as a variable of type [t]. *)
Definition read_int (i : Instruction) (width z : Z) : option TVal :=
  if is_int_type (i_type i) && (width <=? integer_width (i_type i))
  then Some (TInt (i_type i) (wrap (i_type i) z)) else None.

(** The field [WriteCRCompare] writes: the first true of LT, GT, EQ, then SO. *)
Definition cr_compare_field (lt gt eq so : bool) : Z :=
  let f := if lt then 0x8 else if gt then 0x4 else if eq then 0x2 else 0 in
  if so then f .| 1 else f.

Definition exclusive (lt gt eq : bool) : bool := Z.b2z lt + Z.b2z gt + Z.b2z eq <=? 1.

(** The field [WriteCR0StoreConditional] writes. *)
Definition cr_store_field (ok : bool) (xer_value : Z) : Z :=
  (if ok then 0x2 else 0) .| (if flag_set xer_value xer_bits.SO then 1 else 0).

(** ** Architectural state reads and writes *)

Definition exec_state (mode : Mode) (i : Instruction) (args : list TVal) (s : CpuState)
    : option (option TVal * CpuState) :=
  let value (o : option TVal) := (λ v, (Some v, s)) <$> o in
  match i_op i, args with
  | Op.ReadGpr, [] => value (typed i I64 (TInt I64 (u64 (get_gpr s (i_imm0 i .& 31)))))
  | Op.WriteGpr, [a] => x ← viewed I64 a; Some (None, set_gpr (i_imm0 i .& 31) x s)
  | Op.ReadFprBits, [] => value (typed i I64 (TInt I64 (u64 (get_fpr s (i_imm0 i .& 31)))))
  | Op.WriteFprBits, [a] => x ← exact I64 a; Some (None, set_fpr (i_imm0 i .& 31) x s)
  | Op.ReadVector, [] => value (typed i V128 (TVec (get_vr s (i_imm0 i .& 127))))
  | Op.WriteVector, [a] => x ← as_vec a; Some (None, set_vr (i_imm0 i .& 127) x s)
  | Op.ReadCR, [] => value (read_int i 32 (cr s))
  | Op.WriteCR, [a] => x ← any_int a; Some (None, set_cr (u32 x) s)
  | Op.ReadCRBit, [] => value (typed i I1 (tbool (cr_bit s (i_imm0 i))))
  | Op.WriteCRBit, [a] => b ← bool_of a; Some (None, set_cr_bit (i_imm0 i) b s)
  | Op.ReadCRField, [] => value (read_int i 8 (cr_field s (i_imm0 i)))
  | Op.WriteCRField, [a] => x ← any_int a; Some (None, set_cr_field (i_imm0 i) (u8 x) s)
  | Op.WriteCRCompare, [a; b; c; d] =>
      lt ← bool_of a; gt ← bool_of b; eq ← bool_of c; so ← bool_of d;
      if negb (bool_decide (mode = Emitted)) && negb (exclusive lt gt eq) then None
      else Some (None, set_cr_field (i_imm0 i) (cr_compare_field lt gt eq so) s)
  | Op.WriteCR0StoreConditional, [a; b] =>
      ok ← bool_of a; x ← any_int b;
      Some (None, set_cr_field 0 (cr_store_field ok x) s)
  | Op.UpdateCR0Signed, [a] => x ← any_int a; Some (None, update_cr0_signed x s)
  | Op.MoveCRFields, [a] =>
      x ← any_int a;
      let src := u32 x in
      Some (None, foldl (λ s f,
        if i_imm0 i .& (0x80 .>> f) =? 0 then s
        else set_cr_field f (u8 ((src .>> ((7 - f) * 4)) .& 0xF)) s) s (seqZ 0 8))
  | Op.MoveXERToCR, [] =>
      let f := (if xer_so s then 8 else 0) .| (if xer_ov s then 4 else 0)
               .| (if xer_ca s then 2 else 0) in
      let s := set_cr_field (i_imm0 i) f s in
      Some (None, set_xer (bits_clear (xer s) (xer_bits.SO .| xer_bits.OV .| xer_bits.CA)) s)
  | Op.ReadXER, [] => value (read_int i 32 (xer s))
  | Op.ReadXerCA, [] => value (typed i I1 (tbool (xer_ca s)))
  | Op.ReadXerOV, [] => value (typed i I1 (tbool (xer_ov s)))
  | Op.ReadXerSO, [] => value (typed i I1 (tbool (xer_so s)))
  | Op.WriteXER, [a] => x ← any_int a; Some (None, set_xer (u32 x) s)
  | Op.SetXerCA, [a] => b ← bool_of a; Some (None, set_xer_ca b s)
  | Op.SetXerOV, [a] => b ← bool_of a; Some (None, set_xer_ov b s)
  | Op.SetXerSO, [a] => b ← bool_of a; Some (None, set_xer_so b s)
  | Op.SetXerOverflowSticky, [a] => b ← bool_of a; Some (None, set_xer_overflow b s)
  | Op.ReadFPSCR, [] => value (read_int i 32 (fpscr s))
  | Op.WriteFPSCR, [a] => x ← any_int a; Some (None, set_fpscr (u32 x) s)
  | Op.UpdateCR1FromFPSCR, [] => Some (None, update_cr1_from_fpscr s)
  | Op.MoveFPSCRFieldToCR, [] => Some (None, move_fpscr_field_to_cr (i_imm0 i) (i_imm1 i) s)
  | Op.SetFPSCRBit, [] => Some (None, set_fpscr_bit (i_imm0 i) (negb (i_imm1 i =? 0)) s)
  | Op.WriteFPSCRFieldImmediate, [] =>
      Some (None, write_fpscr_field (i_imm0 i) (u8 (i_imm1 i)) s)
  | Op.WriteFPSCRFields, [a] =>
      x ← any_int a; Some (None, write_fpscr_fields (u8 (i_imm0 i)) (u32 x) s)
  | Op.ReadVSCR, [] => value (read_int i 32 (vscr s))
  | Op.WriteVSCR, [a] => x ← any_int a; Some (None, set_vscr (u32 x) s)
  | Op.SetVSCRSaturation, [a] =>
      b ← bool_of a; Some (None, if (b : bool) then set_vector_saturated s else s)
  | Op.MoveVSCRToVector, [] => value (typed i V128 (TVec (vec_set_u32_be vec_zero 3 (vscr s))))
  | Op.MoveVectorToVSCR, [a] => x ← as_vec a; Some (None, set_vscr (vec_u32_be x 3) s)
  | Op.ReadLR, [] => value (typed i I64 (TInt I64 (u64 (lr s))))
  | Op.WriteLR, [a] => x ← exact I64 a; Some (None, set_lr x s)
  | Op.ReadCTR, [] => value (typed i I64 (TInt I64 (u64 (ctr s))))
  | Op.WriteCTR, [a] => x ← exact I64 a; Some (None, set_ctr x s)
  | Op.ReadMSR, [] => value (read_int i 64 (msr s))
  | Op.WriteMSR, [a] =>
      x ← any_int a;
      Some (None, write_msr x (negb (i_imm0 i =? 0)) (negb (i_imm1 i =? 0)) s)
  | Op.ReadVRSAVE, [] => value (read_int i 32 (vrsave s))
  | Op.WriteVRSAVE, [a] => x ← any_int a; Some (None, set_vrsave (u32 x) s)
  | Op.ReadPVR, [] => value (read_int i 32 (pvr s))
  | Op.VUpdateCR6, [a] => x ← as_vec a; Some (None, update_cr6_from_vector_compare x s)
  | _, _ => None
  end.

(** The variables of a generated function. *)
Abbreviation Env := (gmap Z TVal).

Section Semantics.
Context {W : Type} `{MemoryPort W, RuntimeServices W, HostHelpers W}.
(** Fuel for [follow_tail_branches], and the strictness. *)
Context (fuel : nat) (mode : Mode).

(** ** Floating point and vector computation *)

(** The arguments of the helper call, and the type its result is declared with. *)
Definition fp_call (i : Instruction) (args : list TVal) : option (FpCall * option IrType) :=
  match i_op i, args with
  | Op.FAdd, [TF64 a; TF64 b] => Some (FpAdd a b, Some F64)
  | Op.FSub, [TF64 a; TF64 b] => Some (FpSub a b, Some F64)
  | Op.FMul, [TF64 a; TF64 b] => Some (FpMul a b, Some F64)
  | Op.FDiv, [TF64 a; TF64 b] => Some (FpDiv a b, Some F64)
  | Op.FFma, [TF64 a; TF64 b; TF64 c] =>
      Some (FpFma a b (if Z.testbit (i_imm0 i) 0 then fp_neg_bits c else c), Some F64)
  | Op.FSqrt, [TF64 a] => Some (FpSqrt a, Some F64)
  | Op.FRoundSingle, [TF64 a] => Some (FpRoundSingle a, Some F64)
  | Op.FConvertFromI64, [a] => x ← exact I64 a; Some (FpFromI64 x, Some F64)
  | Op.FConvertToI64, [TF64 a] =>
      Some (FpToIntegerBits a (i_imm1 i) (negb (i_imm0 i =? 0)), Some I64)
  | Op.FReciprocalEstimate, [TF64 a] => Some (FpReciprocal a, Some F64)
  | Op.FReciprocalSqrtEstimate, [TF64 a] => Some (FpRsqrt a, Some F64)
  | Op.FCompare, [TF64 a; TF64 b] => Some (FpCompareField a b, Some I8)
  | Op.FUpdateStatus, [TF64 a; TF64 b] =>
      Some (FpUpdateCompareStatus a b (i_imm0 i =? 0x201), None)
  | Op.FUpdateStatus, [TF64 a] =>
      Some (if negb (i_imm0 i .& 0x100 =? 0) then FpUpdateConversionStatus
            else FpUpdateStatus a, None)
  | _, _ => None
  end.

Definition fp_result (i : Instruction) (t : IrType) (bits : Z) : option TVal :=
  match t with
  | F64 =>
      let bits := u64 bits in
      typed i F64 (TF64 (match i_op i with
        | Op.FFma => if Z.testbit (i_imm0 i) 1 then fp_neg_bits bits else bits
        | _ => bits end))
  | _ => typed i t (TInt t (wrap t bits))
  end.

Definition exec_fp (i : Instruction) (args : list TVal) (s : CpuState) (w : W)
    : option (Step W) :=
  '(call, t) ← fp_call i args;
  let '(bits, fpscr', w) := hh_fp call (fpscr s) w in
  let s := set_fpscr (u32 fpscr') s in
  match t with
  | Some t => v ← fp_result i t bits; Some (Next (Some v) s w)
  | None => Some (Next None s w)
  end.

(** [VAnd] .. [VNot], [VSplat] and the modular [VAdd]/[VSub] are emitted inline. *)
Definition vector_inline (i : Instruction) (args : list Vector128) : option (option Vector128) :=
  let m := guest_mnemonic i in
  let field := (i_guest_word i .>> 16) .& 31 in
  match i_op i, args with
  | Op.VSelect, [a; b; c] => Some (Some (vector_select a b c))
  | Op.VSelect, _ => Some None
  | (Op.VAnd | Op.VAndNot | Op.VOr | Op.VXor | Op.VNot), [a; b] => Some (vector_logic m a b)
  | (Op.VAnd | Op.VAndNot | Op.VOr | Op.VXor | Op.VNot), _ => Some None
  | Op.VSplat, _ =>
      let a := default vec_zero (head args) in
      if String.prefix "vspltb" m then Some (Some (vector_splat_byte a field))
      else if String.prefix "vsplth" m then Some (Some (vector_splat_halfword a field))
      else if String.prefix "vspltw" m then Some (Some (vector_splat_word a field))
      else if String.prefix "vspltisb" m then Some (Some (vector_splat_immediate_byte field))
      else if String.prefix "vspltish" m then Some (Some (vector_splat_immediate_halfword field))
      else if String.prefix "vspltisw" m then Some (Some (vector_splat_immediate_word field))
      else None
  | (Op.VAdd | Op.VSub), a :: b :: _ =>
      if bool_decide (m = "vaddubm") then Some (vector_add_modular 1 a b)
      else if bool_decide (m = "vadduhm") then Some (vector_add_modular 2 a b)
      else if bool_decide (m = "vadduwm") then Some (vector_add_modular 4 a b)
      else if bool_decide (m = "vsububm") then Some (vector_sub_modular 1 a b)
      else if bool_decide (m = "vsubuhm") then Some (vector_sub_modular 2 a b)
      else if bool_decide (m = "vsubuwm") then Some (vector_sub_modular 4 a b)
      else None
  | _, _ => None
  end.

Definition pad4 (l : list Vector128) : list Vector128 := take 4 (l ++ replicate 4 vec_zero).

Definition exec_vector (i : Instruction) (args : list TVal) (s : CpuState) (w : W)
    : option (Step W) :=
  args ← mapM as_vec args;
  match vector_inline i args with
  | Some r => r ← r; v ← typed i V128 (TVec r); Some (Next (Some v) s w)
  | None =>
      if String.eqb (guest_mnemonic i) "" then None
      else
        let '(r, vscr', w) :=
          hh_vector (guest_mnemonic i) (i_guest_word i) (pad4 args) (vscr s) w in
        v ← typed i V128 (TVec r); Some (Next (Some v) (set_vscr (u32 vscr') s) w)
  end.

(** ** Memory *)

(** A faulting access leaves the generated function with an exception. *)
Definition mem_step {A} (r : MemResult W A) (s : CpuState) (k : A -> W -> option (Step W))
    : option (Step W) :=
  match r with (Some a, w) => k a w | (None, w) => Some (Exit None s w) end.

Definition mem_done {A} (r : MemResult W A) (s : CpuState) : option (Step W) :=
  mem_step r s (λ _ w, Some (Next None s w)).

Definition exec_memory (i : Instruction) (args : list TVal) (s : CpuState) (w : W)
    : option (Step W) :=
  let little := i_imm0 i =? endian_code Little in
  match i_op i, args with
  | Op.Load, [a] =>
      ea ← address_of a;
      match i_type i with
      | I8 => mem_step (mp_read8 ea w) s (λ v w, Some (Next (Some (TInt I8 (u8 v))) s w))
      | V128 => mem_step (mp_read128 ea w) s (λ v w, Some (Next (Some (TVec v)) s w))
      | I16 | I32 | I64 =>
          mem_step (mp_read (type_bits (i_type i)) little ea w) s
            (λ v w, Some (Next (Some (TInt (i_type i) (wrap (i_type i) v))) s w))
      | _ => None
      end
  | Op.Store, [a; b] =>
      ea ← address_of a; st ← type_of_code (i_imm1 i);
      match st with
      | I8 => x ← any_int b; mem_done (mp_write8 ea (u8 x) w) s
      | V128 => x ← as_vec b; mem_done (mp_write128 ea x w) s
      | I16 | I32 | I64 =>
          x ← any_int b; mem_done (mp_write (type_bits st) little ea (wrap st x) w) s
      | _ => None
      end
  | Op.ReserveLoad, [a] =>
      ea ← address_of a;
      let bits := match i_type i with I32 => 32 | _ => 64 end in
      let w := if res_valid (reservation s)
               then mp_cancel_reservation (res_token (reservation s)) w else w in
      mem_step (mp_reserve bits ea w) s (λ '(token, value) w,
        v ← read_int i bits value;
        Some (Next (Some v)
          (set_reservation (mkReservation (negb (token =? 0)) (bits / 8) ea value token) s) w))
  | Op.StoreConditional, [a; b] =>
      ea ← address_of a; x ← any_int b; st ← type_of_code (i_imm1 i);
      let bits := match st with I32 => 32 | _ => 64 end in
      let r := reservation s in
      let finish (ok : bool) (w : W) : option (Step W) :=
        v ← typed i I1 (tbool ok); Some (Next (Some v) (set_reservation reservation_clear s) w) in
      if res_valid r then
        if res_width r =? bits / 8 then
          mem_step (mp_store_conditional bits ea (res_token r) (x mod 2 ^ bits) w) s finish
        else finish false (mp_cancel_reservation (res_token r) w)
      else finish false w
  | Op.StringLoad, [a; b] =>
      ea ← address_of a; n ← any_int b;
      let '(ok, s, w) := string_load ea (u32 n) (i_imm0 i) s w in
      Some (if ok : bool then Next None s w else Exit None s w)
  | Op.StringStore, [a; b] =>
      ea ← address_of a; n ← any_int b;
      let '(ok, w) := string_store ea (u32 n) (i_imm0 i) s w in
      Some (if ok : bool then Next None s w else Exit None s w)
  | Op.Barrier, [] =>
      let w := mp_barrier (i_imm0 i) w in
      if i_imm0 i =? 4 then
        let next := u32 (i_guest_address i + 4) in
        Some (Exit (Some (mkResult RBranch next 0)) (set_nia next s) w)
      else Some (Next None s w)
  | Op.CacheZero, [a] => ea ← address_of a; mem_done (mp_zero_cache_block ea (i_imm0 i) w) s
  | Op.ICacheInvalidate, [a] =>
      ea ← address_of a; mem_done (mp_instruction_cache_invalidate ea w) s
  | Op.CacheHint, [a] => x ← any_int a; Some (Next None s w)
  | Op.VLoadElement, [o; a] =>
      old ← as_vec o; ea ← address_of a;
      mem_step (vector_load_element old ea (i_imm0 i) w) s
        (λ v w, v ← typed i V128 (TVec v); Some (Next (Some v) s w))
  | Op.VStoreElement, [o; a] =>
      v ← as_vec o; ea ← address_of a; mem_done (vector_store_element v ea (i_imm0 i) w) s
  | Op.VLoadLeft, [o; a] =>
      old ← as_vec o; ea ← address_of a;
      mem_step (vector_load_left ea w) s
        (λ v w, v ← typed i V128 (TVec v); Some (Next (Some v) s w))
  | Op.VLoadRight, [o; a] =>
      old ← as_vec o; ea ← address_of a;
      mem_step (vector_load_right ea w) s
        (λ v w, v ← typed i V128 (TVec v); Some (Next (Some v) s w))
  | Op.VStoreLeft, [o; a] =>
      v ← as_vec o; ea ← address_of a; mem_done (vector_store_left v ea w) s
  | Op.VStoreRight, [o; a] =>
      v ← as_vec o; ea ← address_of a; mem_done (vector_store_right v ea w) s
  | _, _ => None
  end.

(** ** Control transfer and runtime calls *)

Definition branch_exit (reason : FlowReason) (target : GuestAddress) (s : CpuState) (w : W)
    : Step W := Exit (Some (mkResult reason target 0)) (set_nia target s) w.

(** [Call] and linked [BranchIf]: only a terminal result leaves the caller. *)
Definition direct_call (target : GuestAddress) (s : CpuState) (w : W) : Step W :=
  let '(_, r, s, w) := dispatch_call target target s w in
  match r with
  | None => Exit None s w
  | Some r => if terminal r then Exit (Some r) s w else Next None s w
  end.

(** [CallIndirect] and linked [BranchIndirect]: the callee must come back to
    [expected], computed from the state after the call. *)
Definition indirect_call (raw_target : GuestAddress) (expected : CpuState -> GuestAddress)
    (s : CpuState) (w : W) : option (Step W) :=
  let '(compiled, r, s, w) := dispatch_call (raw_target .& not32 3) raw_target s w in
  match r with
  | None => Some (Exit None s w)
  | Some r =>
      '(r, s, w) ← follow_tail_branches fuel r s w;
      Some match r with
      | None => Exit None s w
      | Some r =>
          let returned := reason_is RReturn r in
          if returned && (er_next_address r =? expected s) then Next None s w
          else if negb returned && negb compiled && reason_is RFallthrough r then Next None s w
          else Exit (Some r) s w
      end
  end.

Definition indirect_branch (guest_target : GuestAddress) (s : CpuState) (w : W) : Step W :=
  let '(native, s, w) := lookup_compiled guest_target LookupBranch s w in
  match native with
  | Some native => let '(r, s, w) := native s w in Exit r s w
  | None =>
      let '(handled, s, w) := ctx_dynamic_fallback guest_target LookupBranch s w in
      match handled with
      | Some r => Exit r s w
      | None => branch_exit RBranch guest_target s w
      end
  end.

Definition service_exit (r : option ExecutionResult * CpuState * W) : Step W :=
  let '(r, s, w) := r in Exit r s w.

Definition exec_trap (i : Instruction) (s : CpuState) (w : W) : Step W :=
  let word := i_guest_word i in
  let m := guest_mnemonic i in
  let is_word := String.eqb m "tw" || String.eqb m "twi" in
  let imm := String.eqb m "tdi" || String.eqb m "twi" in
  let ra := (word .>> 16) .& 31 in
  let rb := (word .>> 11) .& 31 in
  let simm := s16 (word .& 0xFFFF) in
  if trap_condition (i_imm0 i) (get_gpr s ra) (if imm then u64 simm else get_gpr s rb) is_word
  then service_exit (rt_trap (i_imm0 i) s w)
  else Next None s w.

Definition exec_control (i : Instruction) (args : list TVal) (s : CpuState) (w : W)
    : option (Step W) :=
  match i_op i, args with
  | Op.Branch, [a] => target ← address_of a; Some (branch_exit RBranch target s w)
  | Op.Call, [a] => target ← address_of a; Some (direct_call target s w)
  | Op.BranchIf, [c; a] =>
      taken ← bool_of c; target ← address_of a;
      if taken : bool then
        Some (if i_imm0 i =? 0 then branch_exit RBranch target s w else direct_call target s w)
      else Some (Next None s w)
  | Op.BranchIndirect, [c; a] =>
      taken ← bool_of c; raw ← any_int a;
      if taken : bool then
        if negb (i_imm0 i =? 0) then
          indirect_call (u32 raw) (λ _, u32 (i_guest_address i + 4)) s w
        else if i_imm1 i =? 1 then Some (branch_exit RReturn (u32 (raw .& not64 3)) s w)
        else Some (indirect_branch (u32 (raw .& not64 3)) s w)
      else Some (Next None s w)
  | Op.CallIndirect, [a] =>
      raw ← address_of a; indirect_call raw (λ s, u32 (lr s .& not64 3)) s w
  | Op.Return, [] => Some (branch_exit RReturn (u32 (lr s .& not64 3)) s w)
  | Op.Syscall, [] => Some (service_exit (rt_syscall (i_imm0 i) s w))
  | Op.Trap, [] => Some (exec_trap i s w)
  | Op.ReadTimeBase, [] =>
      let '(z, w) := rt_read_time_base s w in
      v ← read_int i 64 z; Some (Next (Some v) s w)
  | Op.ReadSPR, [] =>
      let '(z, w) := rt_read_spr (i_imm0 i) s w in
      v ← read_int i 64 z; Some (Next (Some v) s w)
  | Op.WriteSPR, [a] =>
      x ← exact I64 a;
      let '(s, w) := rt_write_spr (i_imm0 i) x s w in Some (Next None s w)
  | _, _ => None
  end.

(** ** One instruction *)

Definition is_vector_compute (op : Op.t) : bool :=
  (op_code Op.VAdd <=? op_code op) && (op_code op <=? op_code Op.VMultiplyEvenOdd).

Definition is_fp_helper (op : Op.t) : bool :=
  match op with
  | Op.FAdd | Op.FSub | Op.FMul | Op.FDiv | Op.FFma | Op.FSqrt | Op.FCompare
  | Op.FRoundSingle | Op.FConvertFromI64 | Op.FConvertToI64 | Op.FReciprocalEstimate
  | Op.FReciprocalSqrtEstimate | Op.FUpdateStatus => true
  | _ => false
  end.

Definition is_memory_op (op : Op.t) : bool :=
  (op_code Op.VLoadElement <=? op_code op) && (op_code op <=? op_code Op.CacheHint).

Definition is_control_op (op : Op.t) : bool :=
  (op_code Op.Branch <=? op_code op) ||
  match op with Op.ReadTimeBase | Op.ReadSPR | Op.WriteSPR => true | _ => false end.

(** [effects(op) == Effect::None]. *)
Definition is_pure (op : Op.t) : bool := effects op =? Effect.None.

Definition lift_state (w : W) (r : option (option TVal * CpuState)) : option (Step W) :=
  '(v, s) ← r; Some (Next v s w).

Definition exec_inst (i : Instruction) (args : list TVal) (s : CpuState) (w : W)
    : option (Step W) :=
  if is_pure (i_op i) then v ← eval_pure mode i args; Some (Next (Some v) s w)
  else if bool_decide (i_op i = Op.VUpdateCR6) then lift_state w (exec_state mode i args s)
  else if is_vector_compute (i_op i) then exec_vector i args s w
  else if is_fp_helper (i_op i) then exec_fp i args s w
  else if is_memory_op (i_op i) then exec_memory i args s w
  else if is_control_op (i_op i) then exec_control i args s w
  else lift_state w (exec_state mode i args s).

(** ** Blocks *)

Definition kInvalid (id : OpcodeId) : bool := id =? kInvalidOpcodeId.
Definition has_guest_source (i : Instruction) : bool := negb (kInvalid (i_guest_opcode i)).

(** The operations before which [emit_guest_pc] stores CIA and NIA. *)
Definition pc_boundary (op : Op.t) : bool :=
  let effect := effects op in
  has_effect effect Effect.MayFault || has_effect effect Effect.Call
  || has_effect effect Effect.Trap || has_effect effect Effect.ControlFlow
  || has_effect effect Effect.Barrier || has_effect effect Effect.Synchronization.

Definition set_cia (v : GuestAddress) (s : CpuState) : CpuState :=
  mkCpu (gpr s) (fpr_bits s) (vr s) (lr s) (ctr s) (cr s) (xer s) (fpscr s) (vscr s)
    (msr s) (vrsave s) (pvr s) (time_base s) v (nia s) (reservation s).

(** CPU state, world, and the guest address CIA was last stored for. *)
Record Machine : Type := mkMachine {
  m_cpu : CpuState;
  m_world : W;
  m_materialized : option GuestAddress
}.

Definition emit_guest_pc (i : Instruction) (m : Machine) : Machine :=
  if has_guest_source i && pc_boundary (i_op i) &&
     negb (bool_decide (m_materialized m = Some (i_guest_address i)))
  then mkMachine (set_nia (u32 (i_guest_address i + 4)) (set_cia (i_guest_address i) (m_cpu m)))
         (m_world m) (Some (i_guest_address i))
  else m.

Inductive BlockStep : Type :=
  | Continue (e : Env) (m : Machine)
  | Leave (r : option ExecutionResult) (s : CpuState) (w : W).

(** The declared variable must be present exactly when the IR names a result. *)
Definition bind_result (i : Instruction) (v : option TVal) (e : Env) : option Env :=
  match v with
  | Some v => if i_result i =? kNoValue then None else Some (<[i_result i := v]> e)
  | None => if i_result i =? kNoValue then Some e else None
  end.

Definition exec_one (i : Instruction) (e : Env) (m : Machine) : option BlockStep :=
  args ← mapM (e !!.) (i_args i);
  let m := emit_guest_pc i m in
  r ← exec_inst i args (m_cpu m) (m_world m);
  match r with
  | Next v s w => e ← bind_result i v e; Some (Continue e (mkMachine s w (m_materialized m)))
  | Exit r s w => Some (Leave r s w)
  end.

Fixpoint exec_list (l : list Instruction) (e : Env) (m : Machine) : option BlockStep :=
  match l with
  | [] => Some (Continue e m)
  | i :: l =>
      r ← exec_one i e m;
      match r with
      | Continue e m => exec_list l e m
      | Leave r s w => Some (Leave r s w)
      end
  end.

(** What the rest of the program can see of a body: variables go out of scope. *)
Inductive Outcome : Type :=
  | FellThrough (m : Machine)
  | Left_ (r : option ExecutionResult) (s : CpuState) (w : W).

Definition outcome (r : BlockStep) : Outcome :=
  match r with Continue _ m => FellThrough m | Leave r s w => Left_ r s w end.

Definition run_body (l : list Instruction) (m : Machine) : option Outcome :=
  outcome <$> exec_list l ∅ m.

(** ** The generated function of a block *)

Definition last_guest (l : list Instruction) : option GuestAddress :=
  foldl (λ c i, if has_guest_source i then Some (i_guest_address i) else c) None l.

Definition emit_exit_pc (current : option GuestAddress) (m : Machine) : Machine :=
  match current with
  | Some g =>
      if bool_decide (m_materialized m = Some g) then m
      else mkMachine (set_cia g (m_cpu m)) (m_world m) (Some g)
  | None => m
  end.

Definition final_cia (b : Block) (m : Machine) : Machine :=
  if negb (b_end_address b =? 0) && (u32 (b_guest_address b + 4) <=? b_end_address b) then
    emit_exit_pc (Some (u32 (b_end_address b - 4))) m
  else m.

Definition run_block (b : Block) (s : CpuState) (w : W)
    : option (option ExecutionResult * CpuState * W) :=
  let l := b_instructions b in
  let prologue := match l with [] => true | i :: _ => negb (has_guest_source i) end in
  let s := if prologue
           then set_nia (u32 (b_guest_address b + 4)) (set_cia (b_guest_address b) s) else s in
  r ← run_body l (mkMachine s w None);
  Some match r with
  | Left_ r s w => (r, s, w)
  | FellThrough m =>
      let m := final_cia b (emit_exit_pc (last_guest l) m) in
      let fallthrough :=
        if b_end_address b =? 0 then
          match last_guest l with
          | Some g => u32 (g + 4)
          | None => u32 (b_guest_address b + 4)
          end
        else b_end_address b in
      (Some (mkResult RFallthrough fallthrough 0), set_nia fallthrough (m_cpu m), m_world m)
  end.
End Semantics.

Arguments Machine : clear implicits.
Arguments BlockStep : clear implicits.
Arguments Outcome : clear implicits.
