(* ===== verification/IrRefine.v ===== *)
(** * Value refinement and typing of IR executions

    A loose value (the result of a mixed-width bitwise operation) is refined by
    an integer of type [I32] or [I64] with the same bits. Every operation of the
    semantics is monotone in this order and in the strictness mode, and every
    value it declares has the instruction's type. *)

From S2P Require Import Prelude.
From S2P Require Import Words.
From S2P Require Import CpuState.
From S2P Require Import AotScalar.
From S2P Require Import Ir.
From S2P Require Import IrValue.
From S2P Require Import Services.
From S2P Require Import IrSem.

Create HintDb ir.

(** ** Typing *)

Definition has_type (t : IrType) (v : TVal) : Prop :=
  match v with
  | TInt t' z => t' = t /\ is_int_type t = true /\ 0 <= z < 2 ^ integer_width t
  | TLoose z => t = I32 /\ 0 <= z < 0x100000000
  | TLooseExt z => t = I64 /\ 0 <= z < 0x100000000
  | TF32 _ => t = F32
  | TF64 _ => t = F64
  | TVec _ => t = V128
  end.

Definition wf_val (v : TVal) : Prop := exists t, has_type t v.

(** Not one of the two markers of mixed-width arithmetic. *)
Definition tight (v : TVal) : Prop :=
  match v with TLoose _ | TLooseExt _ => False | _ => True end.

(** Not the zero extension of such a value. *)
Definition no_ext (v : TVal) : Prop := match v with TLooseExt _ => False | _ => True end.

Lemma has_type_wf t v : has_type t v -> wf_val v.
Proof. by exists t. Qed.
#[export] Hint Resolve has_type_wf : ir.

Lemma wrap_range t z : is_int_type t = true -> 0 <= wrap t z < 2 ^ integer_width t.
Proof. intros Ht. apply Z.mod_pos_bound. by destruct t. Qed.
#[export] Hint Resolve wrap_range : ir.

Lemma wrap_id t z : 0 <= z < 2 ^ integer_width t -> wrap t z = z.
Proof. intros. by apply Z.mod_small. Qed.

Lemma has_type_wrap t z : is_int_type t = true -> has_type t (TInt t (wrap t z)).
Proof. intros Ht. split; [done|]. split; [done|]. by apply wrap_range. Qed.
#[export] Hint Resolve has_type_wrap : ir.

Lemma has_type_bool b : has_type I1 (tbool b).
Proof. destruct b; repeat split; cbn; lia. Qed.
#[export] Hint Resolve has_type_bool : ir.

Lemma has_type_u64 z : has_type I64 (TInt I64 (u64 z)).
Proof. split; [done|]. split; [done|]. by apply (wrap_range I64). Qed.
#[export] Hint Resolve has_type_u64 : ir.

Lemma typed_some i t v r : typed i t v = Some r -> r = v /\ i_type i = t.
Proof. unfold typed. case_decide; naive_solver. Qed.

Lemma wf_int t z : wf_val (TInt t z) -> 0 <= z < 2 ^ integer_width t.
Proof. intros [t' (-> & _ & ?)]. done. Qed.

Lemma int_view_wf v t z : wf_val v -> int_view v = Some (t, z) -> wf_val (TInt t z).
Proof.
  intros [t' Ht] Hv. destruct v; cbn in *; simplify_eq; [by exists t'|].
  destruct Ht as [-> ?]. exists I64. repeat split; cbn; lia.
Qed.

Lemma exact_inv t v z : exact t v = Some z -> v = TInt t z.
Proof. destruct v; cbn; try done. case_decide; [|done]. by intros [= <-]; subst. Qed.

Lemma exact_wf t v z : exact t v = Some z -> wf_val v -> 0 <= z < 2 ^ integer_width t.
Proof. by intros ->%exact_inv Hwf%wf_int. Qed.

Lemma exact_int t z : exact t (TInt t z) = Some z.
Proof. unfold exact. cbn. by rewrite decide_True. Qed.

Lemma is_wide_int t : is_wide_int_type t = true -> is_int_type t = true.
Proof. by destruct t. Qed.
#[export] Hint Resolve is_wide_int : ir.

Lemma rotl_range w v r :
  0 < w -> 0 <= r < w -> 0 <= v < 2 ^ w -> 0 <= rotl w v r < 2 ^ w.
Proof.
  intros Hw Hr Hv. unfold rotl. case_match; [done|].
  apply lor_bound; [lia| |].
  - apply Z.mod_pos_bound. apply Z.pow_pos_nonneg; lia.
  - rewrite Z.shiftr_div_pow2 by lia. assert (0 < 2 ^ (w - r)) by (apply Z.pow_pos_nonneg; lia).
    split; [apply Z.div_pos; lia|]. apply Z.div_lt_upper_bound; nia.
Qed.

(** Invert the option plumbing of an evaluation. *)
Ltac inv_eval H :=
  repeat first
    [ discriminate H
    | progress simplify_option_eq
    | match type of H with
      | (if ?b then _ else _) = Some _ => let E := fresh "E" in destruct b eqn:E
      | (match ?x with _ => _ end) = Some _ => destruct x; try discriminate H
      end ].

Section PureTyping.
Context `{HostFloat} (mode : Mode).

Lemma arith_type f t a b v : arith f t a b = Some v -> has_type t v.
Proof.
  unfold arith. intros E. case_decide as Ht; [|done]. simplify_option_eq.
  apply has_type_wrap. by destruct Ht as [-> | ->].
Qed.

Lemma bit_operand_loose t v z : bit_operand t v = Some (z, true) -> t = I32.
Proof.
  unfold bit_operand. destruct v; cbn; intros; repeat case_decide; repeat case_match;
    simplify_eq; intuition congruence.
Qed.

Lemma bitwise_type f t a b v : bitwise mode f t a b = Some v -> has_type t v.
Proof.
  unfold bitwise. intros E. destruct (is_int_type t) eqn:Ht; [|done].
  destruct (bit_operand t a) as [[x lx]|] eqn:Ea; [|done].
  destruct (bit_operand t b) as [[y ly]|] eqn:Eb; [|done].
  cbn in E. destruct (negb _ && (lx || ly)) eqn:El; simplify_eq; [|by apply has_type_wrap].
  apply andb_true_iff in El as [_ El]. assert (t = I32) as ->.
  { destruct lx; [by eapply bit_operand_loose|]. destruct ly; [|done].
    by eapply bit_operand_loose. }
  split; [done|]. by apply (wrap_range I32).
Qed.

Lemma shift_type f o t a b v : shift_op f o t a b = Some v -> has_type t v.
Proof.
  unfold shift_op. intros E. destruct (is_wide_int_type t) eqn:Ht; [|done].
  simplify_option_eq. auto with ir.
Qed.

Lemma compare_type wo f i a b v : compare_op wo f i a b = Some v -> has_type (i_type i) v.
Proof.
  unfold compare_op. destruct (int_view a) as [[t x]|]; [|done]. cbn. intros E.
  destruct (if wo then _ else _); [|done]. simplify_option_eq.
  match goal with H : typed _ _ _ = Some _ |- _ => apply typed_some in H as [-> ->] end.
  auto with ir.
Qed.

Lemma same_class_type t v : same_class t v = true -> wf_val v -> has_type t v.
Proof.
  intros Hc [t' Hv]. destruct v; cbn in *; rewrite ?bool_decide_eq_true in Hc; subst;
    intuition congruence.
Qed.

Lemma constant_type t imm v : constant_value t imm = Some v -> has_type t v.
Proof.
  destruct t; intros [= <-]; first [apply has_type_bool | by apply has_type_wrap | done].
Qed.

Lemma rotate32_type v x n :
  exact I32 v = Some x -> wf_val v -> has_type I32 (TInt I32 (rotate_left32 x n)).
Proof.
  intros Hv Hx. pose proof (exact_wf _ _ _ Hv Hx). split; [done|]. split; [done|]. apply (rotl_range 32); [lia| |done].
  change 31 with (Z.ones 5). rewrite Z.land_ones by lia. by apply Z.mod_pos_bound.
Qed.

Lemma rotate64_type v x n :
  exact I64 v = Some x -> wf_val v -> has_type I64 (TInt I64 (rotate_left64 x n)).
Proof.
  intros Hv Hx. pose proof (exact_wf _ _ _ Hv Hx). split; [done|]. split; [done|]. apply (rotl_range 64); [lia| |done].
  change 63 with (Z.ones 6). rewrite Z.land_ones by lia. by apply Z.mod_pos_bound.
Qed.

Lemma eval_pure_type i args v :
  Forall wf_val args -> eval_pure mode i args = Some v -> has_type (i_type i) v.
Proof.
  intros Hwf E. unfold eval_pure in E.
  destruct (i_op i) eqn:Eop; try discriminate E;
    destruct args as [|a [|b [|c [|]]]]; try discriminate E;
    repeat match goal with H : Forall _ (_ :: _) |- _ => apply Forall_cons in H as [? ?] end;
    try (by eapply arith_type); try (by eapply bitwise_type); try (by eapply shift_type);
    try (by eapply compare_type); try (by eapply constant_type).
  all: repeat match type of E with
    | (if decide ?P then _ else _) = Some _ => case_decide
    | (if ?b then _ else _) = Some _ => let E' := fresh "E'" in destruct b eqn:E'
    | mbind _ ?m = Some _ => let E' := fresh "E'" in destruct m eqn:E'; cbn in E
    | match ?x with _ => _ end = Some _ => destruct x
    end; try discriminate E.
  all: repeat match goal with
    | H : andb _ _ = true |- _ => apply andb_true_iff in H as [? ?]
    | H : typed _ _ _ = Some _ |- _ => apply typed_some in H as [-> ->]
    | H : Some _ = Some _ |- _ => injection H as <-
    end.
  all: try (by auto with ir); try (by apply has_type_wrap; auto with ir); try done.
  all: try (by eapply same_class_type).
  all: try match goal with H : wf_val (_ ?z) |- has_type _ (if _ then TLooseExt ?z else _) =>
             destruct H as [? [_ ?]]; case_decide; repeat split; cbn; done || lia end.
  all: try match goal with H : _ \/ _ |- _ => destruct H as [Hw|Hw]; rewrite Hw; by apply has_type_wrap end.
  all: try match goal with H : i_type _ = _ |- _ => rewrite H; first [by eapply rotate32_type | by eapply rotate64_type] end.
  all: try (case_match; by eapply same_class_type).
  all: apply has_type_wrap;
    match goal with H : (_ <=? integer_width _) = true |- _ => apply Z.leb_le in H end;
    destruct t, (i_type i); cbn in *; done || lia.
Qed.

Lemma eval_pure_tight i args v :
  mode = Emitted -> Forall tight args -> eval_pure mode i args = Some v -> tight v.
Proof.
  intros Hm Ht E. unfold eval_pure in E.
  destruct (i_op i) eqn:Eop; try discriminate E;
    destruct args as [|a [|b [|c [|]]]]; try discriminate E;
    repeat match goal with H : Forall _ (_ :: _) |- _ => apply Forall_cons in H as [? ?] end.
  all: unfold arith, shift_op, compare_op, typed, bitwise, constant_value in E;
    rewrite ?Hm in E; cbn [negb andb bool_decide Mode_eq_dec] in E.
  all: repeat match type of E with
    | (if decide ?P then _ else _) = Some _ => case_decide
    | (if ?b then _ else _) = Some _ => let E' := fresh "E'" in destruct b eqn:E'
    | mbind _ ?m = Some _ => let E' := fresh "E'" in destruct m as [?|] eqn:E'; cbn in E
    | (let '(_, _) := ?p in _) = Some _ => destruct p; cbn in E
    | match ?x with _ => _ end = Some _ => destruct x; cbn in E
    end; try discriminate E; simplify_eq; try done.
  all: by case_match.
Qed.

Lemma eval_pure_no_ext i args v :
  mode <> Lifted -> Forall no_ext args -> eval_pure mode i args = Some v -> no_ext v.
Proof.
  intros Hm Ht E. unfold eval_pure in E.
  destruct (i_op i) eqn:Eop; try discriminate E;
    destruct args as [|a [|b [|c [|]]]]; try discriminate E;
    repeat match goal with H : Forall _ (_ :: _) |- _ => apply Forall_cons in H as [? ?] end.
  all: unfold arith, shift_op, compare_op, typed, bitwise, constant_value in E;
    rewrite ?(decide_False (P := mode = Lifted)) in E by done.
  all: repeat match type of E with
    | (if decide ?P then _ else _) = Some _ => case_decide
    | (if ?b then _ else _) = Some _ => let E' := fresh "E'" in destruct b eqn:E'
    | mbind _ ?m = Some _ => let E' := fresh "E'" in destruct m as [?|] eqn:E'; cbn in E
    | (let '(_, _) := ?p in _) = Some _ => destruct p; cbn in E
    | match ?x with _ => _ end = Some _ => destruct x; cbn in E
    end; try discriminate E; simplify_eq; try done.
  all: by case_match.
Qed.
End PureTyping.

(** ** Commutative operations *)

Section Commutative.
Context (mode : Mode).

Lemma bitwise_comm f t a b :
  (forall x y, f x y = f y x) -> bitwise mode f t a b = bitwise mode f t b a.
Proof.
  intros Hf. unfold bitwise. destruct (is_int_type t); [|done].
  destruct (bit_operand t a) as [[x lx]|], (bit_operand t b) as [[y ly]|]; try done.
  cbn. by rewrite Hf, (orb_comm lx ly).
Qed.

Lemma arith_comm f t a b :
  (forall x y, f x y = f y x) -> arith f t a b = arith f t b a.
Proof.
  intros Hf. unfold arith. destruct (decide _); [|done].
  destruct (exact t a), (exact t b); try done. cbn. by rewrite Hf.
Qed.

Lemma compare_comm f i a b :
  (forall t x y, f t x y = f t y x) -> compare_op false f i a b = compare_op false f i b a.
Proof.
  intros Hf. unfold compare_op, viewed.
  destruct (int_view a) as [[t x]|], (int_view b) as [[t' y]|]; cbn; try done;
    repeat case_decide; simplify_eq; cbn; repeat case_match; cbn; try done.
  by rewrite Hf.
Qed.
End Commutative.

(** ** Refinement *)

(** More permissive modes. *)
Definition mode_le (m m' : Mode) : Prop := m = m' \/ m' = Emitted \/ (m = Lifted /\ m' = Promoted).

#[export] Instance mode_le_preorder : PreOrder mode_le.
Proof.
  split; [by left|]. intros a b c. unfold mode_le.
  destruct a, b, c; intuition congruence.
Qed.

Lemma mode_le_emitted m m' : mode_le m m' -> m = Emitted -> m' = Emitted.
Proof. unfold mode_le. intuition congruence. Qed.

Inductive vref : TVal -> TVal -> Prop :=
  | vref_refl v : vref v v
  | vref_loose z t : (t = I32 \/ t = I64) -> 0 <= z < 0x100000000 -> vref (TLoose z) (TInt t z)
  | vref_loose_ext z : 0 <= z < 0x100000000 -> vref (TLoose z) (TLooseExt z)
  | vref_ext z : 0 <= z < 0x100000000 -> vref (TLooseExt z) (TInt I64 z).

#[export] Hint Constructors vref : ir.

#[export] Instance vref_preorder : PreOrder vref.
Proof.
  split; [by intros ?; constructor|].
  intros a b c H1 H2. destruct H1; [done|..]; inversion H2; subst; eauto with ir.
Qed.

Lemma vrefs_refl l : Forall2 vref l l.
Proof. by induction l; constructor. Qed.
#[export] Hint Resolve vrefs_refl : ir.

Lemma vref_any v v' z : any_int v = Some z -> vref v v' -> any_int v' = Some z.
Proof. intros Hz H. by destruct H. Qed.

Lemma vref_int t z v' : vref (TInt t z) v' -> v' = TInt t z.
Proof. by inversion 1. Qed.

Lemma int_view_mono v v' t z :
  int_view v = Some (t, z) -> vref v v' -> int_view v' = Some (t, z).
Proof. intros Hz H. by destruct H. Qed.

Lemma viewed_mono t a a' z : viewed t a = Some z -> vref a a' -> viewed t a' = Some z.
Proof.
  unfold viewed. intros E Hv. destruct (int_view a) as [[t' x]|] eqn:Ea; [|done].
  by rewrite (int_view_mono _ _ _ _ Ea Hv).
Qed.

Lemma exact_mono t a a' z : exact t a = Some z -> vref a a' -> exact t a' = Some z.
Proof. intros ->%exact_inv ->%vref_int. apply exact_int. Qed.

Lemma vref_bit_operand t v v' z l :
  bit_operand t v = Some (z, l) -> vref v v' ->
  exists l', bit_operand t v' = Some (z, l') /\ (l' = true -> l = true).
Proof.
  intros Hz H. destruct H as [|x t' Ht Hx|x Hx|x Hx]; [by exists l|..].
  - cbn in Hz. case_decide; [|discriminate]. simplify_eq.
    destruct Ht as [->| ->]; cbn; eexists; split; try done.
    by rewrite (proj2 (Z.ltb_lt z 0x100000000)) by lia.
  - cbn in Hz. case_decide; [|discriminate]. simplify_eq. cbn. by eexists.
  - cbn in Hz. case_decide; [|discriminate]. simplify_eq. cbn.
    rewrite (proj2 (Z.ltb_lt z 0x100000000)) by lia. by eexists.
Qed.

Section Monotone.
Context `{HostFloat} (m m' : Mode) (Hm : mode_le m m').

Lemma bitwise_ref f t a b a' b' v :
  bitwise m f t a b = Some v -> vref a a' -> vref b b' ->
  exists v', bitwise m' f t a' b' = Some v' /\ vref v v'.
Proof.
  unfold bitwise. intros E Ha Hb. destruct (is_int_type t) eqn:Ht; [|done].
  destruct (bit_operand t a) as [[x lx]|] eqn:Ea; [|done].
  destruct (bit_operand t b) as [[y ly]|] eqn:Eb; [|done].
  destruct (vref_bit_operand _ _ _ _ _ Ea Ha) as (lx' & -> & Hlx).
  destruct (vref_bit_operand _ _ _ _ _ Eb Hb) as (ly' & -> & Hly).
  cbn in *. eexists. split; [done|].
  destruct (negb (bool_decide (m = Emitted)) && (lx || ly)) eqn:El; simplify_eq.
  - assert (t = I32) as ->.
    { apply andb_true_iff in El as [_ El]. destruct lx; [by eapply bit_operand_loose|].
      destruct ly; [by eapply bit_operand_loose|done]. }
    case_match; [done|]. apply vref_loose; [by left|]. by apply (wrap_range I32).
  - assert (El' : negb (bool_decide (m' = Emitted)) && (lx' || ly') = false); [|by rewrite El'].
    destruct (decide (m = Emitted)) as [He|He].
    + rewrite (bool_decide_true (m' = Emitted)); [done|]. by eapply mode_le_emitted.
    + rewrite bool_decide_false in El by done. cbn in El.
      destruct lx, ly, lx', ly'; rewrite ?andb_false_r; naive_solver.
Qed.

Lemma arith_ref f t a b a' b' v :
  arith f t a b = Some v -> vref a a' -> vref b b' -> arith f t a' b' = Some v.
Proof.
  unfold arith. intros E Ha Hb. case_decide; [|done].
  destruct (exact t a) eqn:Ea; [|done]. destruct (exact t b) eqn:Eb; [|done].
  by rewrite (exact_mono _ _ _ _ Ea Ha), (exact_mono _ _ _ _ Eb Hb).
Qed.

Lemma shift_ref f o t a b a' b' v :
  shift_op f o t a b = Some v -> vref a a' -> vref b b' -> shift_op f o t a' b' = Some v.
Proof.
  unfold shift_op. intros E Ha Hb. destruct (is_wide_int_type t); [|done].
  destruct (exact t a) eqn:Ea; [|done]. destruct (any_int b) eqn:Eb; [|done].
  by rewrite (exact_mono _ _ _ _ Ea Ha), (vref_any _ _ _ Eb Hb).
Qed.

Lemma compare_ref wo f i a b a' b' v :
  compare_op wo f i a b = Some v -> vref a a' -> vref b b' ->
  compare_op wo f i a' b' = Some v.
Proof.
  unfold compare_op. intros E Ha Hb. destruct (int_view a) as [[t x]|] eqn:Ea; [|done].
  rewrite (int_view_mono _ _ _ _ Ea Ha). cbn in *. destruct (if wo then _ else _); [|done].
  destruct (viewed t b) eqn:Eb; [|done]. by rewrite (viewed_mono _ _ _ _ Eb Hb).
Qed.

Lemma same_class_mono t a a' : same_class t a = true -> vref a a' -> same_class t a' = true.
Proof. intros Hs Hv. destruct Hv; try done. cbn in *. rewrite bool_decide_eq_true in *. done. Qed.

Lemma select_ref i c a b c' a' b' v :
  i_op i = Op.Select ->
  eval_pure m i [c; a; b] = Some v -> vref c c' -> vref a a' -> vref b b' ->
  exists v', eval_pure m' i [c'; a'; b'] = Some v' /\ vref v v'.
Proof.
  intros Hop E Hc Ha Hb. unfold eval_pure in *. rewrite Hop in *.
  destruct (exact I1 c) eqn:Ec; [|done]. rewrite (exact_mono _ _ _ _ Ec Hc). cbn in *.
  destruct (same_class (i_type i) a) eqn:Ea, (same_class (i_type i) b) eqn:Eb; try done.
  rewrite (same_class_mono _ _ _ Ea Ha), (same_class_mono _ _ _ Eb Hb). cbn in *.
  simplify_eq. eexists. split; [done|]. by case_match.
Qed.

Lemma zero_extend_ref i a a' v :
  i_op i = Op.ZeroExtend -> wf_val a ->
  eval_pure m i [a] = Some v -> vref a a' ->
  exists v', eval_pure m' i [a'] = Some v' /\ vref v v'.
Proof.
  intros Hop Hwf E Ha. unfold eval_pure in *. rewrite Hop in *.
  assert (Hx : forall z w, 0 <= z < 0x100000000 ->
    typed i I64 (if decide (m = Lifted) then TLooseExt z else TInt I64 z) = Some v ->
    (w = TInt I64 z \/ w = if decide (m' = Lifted) then TLooseExt z else TInt I64 z) ->
    i_type i = I64 /\ exists v', typed i I64 w = Some v' /\ vref v v').
  { intros z w Hr [-> Ht]%typed_some Hw. split; [done|]. exists w.
    unfold typed. rewrite decide_True by done. split; [done|]. unfold mode_le in Hm.
    destruct Hw as [->| ->]; destruct m, m'; cbn; first [by constructor | intuition congruence]. }
  assert (Hint : forall z, 0 <= z < 0x100000000 -> wrap I64 z = z).
  { intros z Hz. apply wrap_id. cbn. lia. }
  destruct Ha as [a|z t Ht Hr|z Hr|z Hr].
  - destruct a; try done; [by exists v|..]; destruct Hwf as [? [_ Hr]];
      (eapply Hx; [exact Hr|exact E|by right]).
  - destruct (Hx z (TInt I64 z) Hr E ltac:(by left)) as (Hi & v' & Hv' & Href).
    exists v'. split; [|done]. rewrite <- Hv', Hi, Hint by done.
    unfold typed. rewrite decide_True by done. by destruct Ht as [->| ->].
  - eapply Hx; [exact Hr|exact E|by right].
  - destruct (Hx z (TInt I64 z) Hr E ltac:(by left)) as (Hi & v' & Hv' & Href).
    exists v'. split; [|done]. rewrite <- Hv', Hi, Hint by done.
    unfold typed. by rewrite decide_True by done.
Qed.

Lemma eval_pure_ref i args args' v :
  Forall wf_val args -> eval_pure m i args = Some v -> Forall2 vref args args' ->
  exists v', eval_pure m' i args' = Some v' /\ vref v v'.
Proof.
  intros Hwf E Hargs.
  assert (Hb : forall f a b a' b', args = [a; b] -> args' = [a'; b'] ->
    eval_pure m i args = bitwise m f (i_type i) a b ->
    eval_pure m' i args' = bitwise m' f (i_type i) a' b' ->
    exists v', eval_pure m' i args' = Some v' /\ vref v v').
  { intros f a b a' b' -> -> E1 E2. rewrite E2. rewrite E1 in E.
    apply Forall2_cons in Hargs as [Ha Hargs]. apply Forall2_cons in Hargs as [Hb' _].
    by eapply bitwise_ref. }
  assert (Heq : eval_pure m' i args' = Some v ->
    exists v', eval_pure m' i args' = Some v' /\ vref v v') by (intros ?; by exists v).
  destruct i as [op t res ia imm0 imm1 ga gw go].
  destruct op; try discriminate E;
    destruct args as [|a [|b [|c [|]]]]; try discriminate E;
    repeat match goal with
    | H : Forall2 _ [] _ |- _ => inversion H; clear H; subst
    | H : Forall2 _ (_ :: _) _ |- _ => inversion H; clear H; subst
    | H : Forall _ (_ :: _) |- _ => apply Forall_cons in H as [? ?]
    end;
    try (by eapply Hb);
    try (by eapply select_ref); try (by eapply zero_extend_ref).
  all: clear Hb; apply Heq.
  all: try (eapply arith_ref; [exact E|done|done]);
    try (eapply shift_ref; [exact E|done|done]); try (eapply compare_ref; [exact E|done|done]).
  all: unfold eval_pure in E |- *;
    cbn [i_op i_type i_imm0 i_imm1] in E |- *; try exact E.
  (* operations that match on the operand's constructor *)
  all: try (repeat match goal with H : vref ?v _ |- _ => is_var v; destruct H end;
            first [exact E | discriminate E]; fail).
  all: repeat first
    [ exact E
    | match type of E with
      | mbind _ (exact ?t ?a) = Some _ =>
          let Ex := fresh in destruct (exact t a) eqn:Ex; [|discriminate E];
          match goal with H : vref a _ |- _ => rewrite (exact_mono _ _ _ _ Ex H) end;
          cbn [mbind option_bind] in E |- *
      | mbind _ (any_int ?a) = Some _ =>
          let Ex := fresh in destruct (any_int a) eqn:Ex; [|discriminate E];
          match goal with H : vref a _ |- _ => rewrite (vref_any _ _ _ Ex H) end;
          cbn [mbind option_bind] in E |- *
      | (if decide ?P then _ else _) = Some _ => destruct (decide P); [|try discriminate E]
      | (if ?b then _ else _) = Some _ => destruct b; [|discriminate E]
      end ].
Qed.
End Monotone.

(** ** Effectful instructions *)

Ltac vref_cases :=
  repeat match goal with
  | H : Forall2 vref [] _ |- _ => inversion H; clear H; subst
  | H : Forall2 vref (_ :: _) _ |- _ => inversion H; clear H; subst
  end;
  repeat match goal with
  | H : vref ?v _ |- _ => first [is_var v; destruct H | inversion H; clear H; subst]
  end.

Lemma exec_state_ref m m' i args args' s r :
  mode_le m m' -> exec_state m i args s = Some r -> Forall2 vref args args' ->
  exec_state m' i args' s = Some r.
Proof.
  intros Hm E Hargs. destruct i as [op t res ia imm0 imm1 ga gw go].
  destruct op; try discriminate E;
    destruct args as [|a [|b [|c [|d [|]]]]]; try discriminate E; vref_cases;
    first [exact E | discriminate E | idtac].
  all: unfold exec_state in *; cbn [i_op i_imm0] in *.
  all: repeat match type of E with
      | mbind _ ?x = Some _ =>
          let E' := fresh "E'" in destruct x eqn:E'; [|discriminate E];
          try discriminate E'; cbn [mbind option_bind] in E |- *
      end.
  (* WriteCRCompare: the exclusivity check *)
  destruct (decide (m = Emitted)) as [He|He].
  - rewrite (bool_decide_true (m' = Emitted)) by (by eapply mode_le_emitted).
    by rewrite (bool_decide_true (m = Emitted)) in E.
  - rewrite (bool_decide_false (m = Emitted)) in E by done. cbn in E |- *.
    destruct (exclusive _ _ _); [by rewrite andb_false_r|discriminate].
Qed.

Section EffectRefine.
Context {W : Type} `{MemoryPort W, RuntimeServices W, HostHelpers W}.
Context (fuel : nat) (m m' : Mode).

Lemma exec_memory_ref i args args' (s : CpuState) (w : W) r :
  exec_memory i args s w = Some r -> Forall2 vref args args' ->
  exec_memory i args' s w = Some r.
Proof.
  intros E Hargs. destruct i as [op t res ia imm0 imm1 ga gw go].
  destruct op; try discriminate E;
    destruct args as [|a [|b [|c [|d [|]]]]]; try discriminate E; vref_cases;
    first [exact E | discriminate E | idtac].
  all: unfold exec_memory in *; cbn [i_op] in *.
  all: repeat match type of E with
    | mbind _ ?m = Some _ => let E' := fresh "E'" in destruct m eqn:E'; cbn in E
    end; try discriminate E.
Qed.

Lemma exec_control_ref i args args' (s : CpuState) (w : W) r :
  exec_control fuel i args s w = Some r -> Forall2 vref args args' ->
  exec_control fuel i args' s w = Some r.
Proof.
  intros E Hargs. destruct i as [op t res ia imm0 imm1 ga gw go].
  destruct op; try discriminate E;
    destruct args as [|a [|b [|c [|d [|]]]]]; try discriminate E; vref_cases;
    first [exact E | discriminate E | idtac].
  all: unfold exec_control in *; cbn [i_op] in *.
  all: repeat match type of E with
    | mbind _ ?m = Some _ => let E' := fresh "E'" in destruct m eqn:E'; cbn in E
    end; try discriminate E.
Qed.

Lemma fp_call_ref i args args' r :
  fp_call i args = Some r -> Forall2 vref args args' -> fp_call i args' = Some r.
Proof.
  intros E Hargs. destruct i as [op t res ia imm0 imm1 ga gw go].
  destruct op; try discriminate E;
    destruct args as [|a [|b [|c [|]]]]; try discriminate E; vref_cases;
    first [exact E | discriminate E].
Qed.

Lemma as_vec_ref args args' r :
  mapM as_vec args = Some r -> Forall2 vref args args' -> args' = args.
Proof.
  intros E Hargs. revert r E. induction Hargs as [|a a' args args' Ha Hargs IH]; [done|].
  intros r E. destruct a; try discriminate E. inversion Ha; subst.
  cbn in E. destruct (mapM as_vec args) eqn:Em; [|discriminate]. by erewrite IH.
Qed.

Definition step_ref (r r' : Step W) : Prop :=
  match r, r' with
  | Next v s w, Next v' s' w' => option_Forall2 vref v v' /\ s' = s /\ w' = w
  | Exit x s w, Exit x' s' w' => x' = x /\ s' = s /\ w' = w
  | _, _ => False
  end.

Lemma step_ref_refl r : step_ref r r.
Proof. destruct r as [[v|]|]; repeat split; by constructor. Qed.

(** Effectful instructions do not observe the looseness of their operands. *)
Lemma exec_effect_ref i args args' (s : CpuState) (w : W) r :
  mode_le m m' ->
  is_pure (i_op i) = false -> exec_inst fuel m i args s w = Some r ->
  Forall2 vref args args' -> exec_inst fuel m' i args' s w = Some r.
Proof.
  unfold exec_inst. intros Hm -> E Hargs.
  assert (Hst : lift_state w (exec_state m i args s) = Some r ->
                lift_state w (exec_state m' i args' s) = Some r).
  { unfold lift_state. destruct (exec_state m i args s) as [[v s']|] eqn:Es; [|done].
    by rewrite (exec_state_ref _ _ _ _ _ _ _ Hm Es Hargs). }
  destruct (bool_decide (i_op i = Op.VUpdateCR6)); [auto|].
  destruct (is_vector_compute (i_op i)).
  { unfold exec_vector in *. destruct (mapM as_vec args) eqn:Em; [|discriminate].
    by rewrite (as_vec_ref _ _ _ Em Hargs), Em. }
  destruct (is_fp_helper (i_op i)).
  { unfold exec_fp in *. destruct (fp_call i args) as [[c t]|] eqn:Ec; [|discriminate].
    by rewrite (fp_call_ref _ _ _ _ Ec Hargs). }
  destruct (is_memory_op (i_op i)); [by eapply exec_memory_ref|].
  destruct (is_control_op (i_op i)); [by eapply exec_control_ref|]. auto.
Qed.

Lemma exec_inst_ref i args args' (s : CpuState) (w : W) r :
  mode_le m m' -> Forall wf_val args ->
  exec_inst fuel m i args s w = Some r -> Forall2 vref args args' ->
  exists r', exec_inst fuel m' i args' s w = Some r' /\ step_ref r r'.
Proof.
  intros Hm Hwf E Hargs. destruct (is_pure (i_op i)) eqn:Hp.
  - unfold exec_inst in *. rewrite Hp in *.
    destruct (eval_pure m i args) as [v|] eqn:Ev; [|discriminate]. cbn in E. simplify_eq.
    destruct (eval_pure_ref _ _ Hm _ _ _ _ Hwf Ev Hargs) as (v' & -> & Hv).
    eexists. split; [done|]. repeat split. by constructor.
  - exists r. split; [by eapply exec_effect_ref|apply step_ref_refl].
Qed.

(** ** The declared type of every result *)

(** Operations with effects produce values of exactly their declared type. *)
Definition tight_type (t : IrType) (v : TVal) : Prop := has_type t v /\ tight v.

Lemma tight_wrap t z : is_int_type t = true -> tight_type t (TInt t (wrap t z)).
Proof. intros Ht. split; [by apply has_type_wrap|done]. Qed.

Lemma read_int_type i n z v : read_int i n z = Some v -> tight_type (i_type i) v.
Proof.
  unfold read_int. destruct (is_int_type (i_type i)) eqn:Ht; [|done]. cbn.
  case_match; [|done]. intros [= <-]. by apply tight_wrap.
Qed.

Lemma typed_type i t x v : tight_type t x -> typed i t x = Some v -> tight_type (i_type i) v.
Proof. intros Hx [-> ->]%typed_some. done. Qed.

Lemma exec_state_type i args (s s' : CpuState) v :
  exec_state m i args s = Some (Some v, s') -> tight_type (i_type i) v.
Proof.
  intros E. destruct i as [op t res ia imm0 imm1 ga gw go].
  destruct op; try discriminate E;
    destruct args as [|a [|b [|c [|d [|]]]]]; try discriminate E.
  all: cbn in E; repeat match type of E with
    | (mbind _ ?m = Some _) => let E' := fresh "E'" in destruct m eqn:E'; cbn in E
    | (_ <$> ?m = Some _) => let E' := fresh "E'" in destruct m eqn:E'; cbn in E
    | (if ?b then _ else _) = Some _ => destruct b
    end; try discriminate E; simplify_eq.
  all: try (by eapply read_int_type).
  all: match goal with H : typed _ ?t ?x = Some _ |- _ =>
         apply (typed_type _ t x _) in H; [exact H|] end;
       split; first [apply has_type_u64 | apply has_type_bool | done].
Qed.

Ltac split_eval E :=
  repeat first
    [ discriminate E
    | match type of E with
      | mbind _ ?m = Some _ => let E' := fresh "E'" in destruct m eqn:E'; cbn in E
      | (let '(_, _) := ?p in _) _ = Some _ => destruct p; cbn in E
      | match ?x with _ => _ end = Some _ => destruct x eqn:?; cbn in E
      end ].

Lemma exec_memory_type i args (s s' : CpuState) (w w' : W) v :
  exec_memory i args s w = Some (Next (Some v) s' w') -> tight_type (i_type i) v.
Proof.
  intros E. unfold exec_memory, mem_done, mem_step in E. destruct (i_op i) eqn:Eop; try discriminate E;
    destruct args as [|a [|b [|c [|d [|]]]]]; try discriminate E.
  all: split_eval E; simplify_eq.
  all: first
    [ by eapply read_int_type
    | match goal with H : (if ?b then _ else _) = Next (Some _) _ _ |- _ =>
        destruct b; discriminate H end
    | by eapply (typed_type i V128 (TVec _)); [done|eassumption]
    | by eapply (typed_type i I1 (tbool _)); [split; [apply has_type_bool|done]|eassumption]
    | by apply (tight_wrap I8) | by apply tight_wrap | done ].
Qed.

Lemma exec_control_type i args (s s' : CpuState) (w w' : W) v :
  exec_control fuel i args s w = Some (Next (Some v) s' w') -> tight_type (i_type i) v.
Proof.
  intros E. unfold exec_control in E. destruct (i_op i) eqn:Eop; try discriminate E;
    destruct args as [|a [|b [|c [|d [|]]]]]; try discriminate E.
  all: split_eval E; simplify_eq.
  all: try by eapply read_int_type.
  all: exfalso; clear -E;
    unfold indirect_call, direct_call, indirect_branch, branch_exit, exec_trap, service_exit
      in E;
    repeat match type of E with
    | mbind _ ?m = _ => destruct m as [[[? ?] ?]|]; cbn in E
    | match ?x with _ => _ end = _ => destruct x
    | Some _ = Some _ => injection E as E
    end; discriminate E.
Qed.

Lemma exec_effect_type i args (s s' : CpuState) (w w' : W) v :
  is_pure (i_op i) = false -> exec_inst fuel m i args s w = Some (Next (Some v) s' w') ->
  tight_type (i_type i) v.
Proof.
  intros Hp. unfold exec_inst. rewrite Hp. intros E.
  assert (Hst : lift_state w (exec_state m i args s) = Some (Next (Some v) s' w') ->
                tight_type (i_type i) v).
  { unfold lift_state. destruct (exec_state m i args s) as [[x s'']|] eqn:Es; [|done].
    intros [= -> <- <-]. by eapply exec_state_type. }
  destruct (bool_decide (i_op i = Op.VUpdateCR6)); [auto|].
  destruct (is_vector_compute (i_op i)).
  { unfold exec_vector in E. destruct (mapM as_vec args); [|discriminate]. cbn in E.
    destruct (vector_inline _ _) as [[x|]|]; cbn in E; [|discriminate|].
    - destruct (typed i V128 (TVec x)) eqn:Et; [|discriminate]. cbn in E. simplify_eq.
      by apply (typed_type i V128 (TVec x) _ (conj eq_refl I) Et).
    - destruct (_ =? _)%string; [discriminate|]. destruct (hh_vector _ _ _ _ _) as [[x ?] ?].
      destruct (typed i V128 (TVec x)) eqn:Et; [|discriminate]. cbn in E. simplify_eq.
      by apply (typed_type i V128 (TVec x) _ (conj eq_refl I) Et). }
  destruct (is_fp_helper (i_op i)).
  { unfold exec_fp in E. destruct (fp_call i args) as [[c [t|]]|] eqn:Ec; [| |discriminate];
      cbn in E; destruct (hh_fp _ _ _) as [[x ?] ?]; [|discriminate].
    destruct (fp_result i t x) eqn:Er; [|discriminate]. cbn in E. simplify_eq.
    assert (Ht : t = F64 \/ t = I64 \/ t = I8).
    { clear Er Hst. destruct i as [op ? ? ? ? ? ? ? ?]. destruct op; try discriminate Ec;
        cbn in Ec; repeat case_match; simplify_option_eq; auto. }
    unfold fp_result in Er. destruct Ht as [->|[->| ->]]; apply typed_some in Er as [-> ->];
      first [by apply tight_wrap | done]. }
  destruct (is_memory_op (i_op i)); [by eapply exec_memory_type|].
  destruct (is_control_op (i_op i)); [by eapply exec_control_type|]. auto.
Qed.

Lemma exec_inst_type i args (s s' : CpuState) (w w' : W) v :
  Forall wf_val args -> exec_inst fuel m i args s w = Some (Next (Some v) s' w') ->
  has_type (i_type i) v.
Proof.
  intros Hwf E. destruct (is_pure (i_op i)) eqn:Hp; [|by eapply exec_effect_type].
  unfold exec_inst in E. rewrite Hp in E.
  destruct (eval_pure m i args) eqn:Ev; [|discriminate]. cbn in E. simplify_eq.
  by eapply eval_pure_type.
Qed.

Lemma exec_inst_no_ext i args (s s' : CpuState) (w w' : W) v :
  m <> Lifted -> Forall no_ext args ->
  exec_inst fuel m i args s w = Some (Next (Some v) s' w') -> no_ext v.
Proof.
  intros Hm Ht E. destruct (is_pure (i_op i)) eqn:Hp.
  - unfold exec_inst in E. rewrite Hp in E.
    destruct (eval_pure m i args) eqn:Ev; [|discriminate]. cbn in E. simplify_eq.
    by eapply eval_pure_no_ext.
  - destruct (exec_effect_type _ _ _ _ _ _ _ Hp E) as [_ Htight]. by destruct v.
Qed.

(** The emitted C++ has no loose values. *)
Lemma exec_inst_tight i args (s s' : CpuState) (w w' : W) v :
  m = Emitted -> Forall tight args ->
  exec_inst fuel m i args s w = Some (Next (Some v) s' w') -> tight v.
Proof.
  intros Hm Ht E. destruct (is_pure (i_op i)) eqn:Hp; [|by eapply exec_effect_type].
  unfold exec_inst in E. rewrite Hp in E.
  destruct (eval_pure m i args) eqn:Ev; [|discriminate]. cbn in E. simplify_eq.
  by eapply eval_pure_tight.
Qed.
End EffectRefine.
