(* ===== verification/PassSim.v ===== *)
(** * Block passes and their simulation

    The optimiser's passes walk a block front to back, keep a private state and
    append instructions to an output ([run_pass]). [ssa] is the shape of the IR
    the builder produces: increasing result ids, operands defined earlier.
    [run_pass_sim] lifts a per-instruction simulation to a whole block. *)

From S2P Require Import Prelude.
From S2P Require Import Words.
From S2P Require Import CpuState.
From S2P Require Import Ir.
From S2P Require Import IrValue.
From S2P Require Import Services.
From S2P Require Import IrSem.
From S2P Require Import IrRefine.

(** ** The shape of block IR *)

(** Operands are ids, and lie below the instruction's own result. *)
Definition args_ok (i : Instruction) : bool :=
  forallb (λ a, (0 <=? a) && (a <? i_result i)) (i_args i).

Definition result_ok (n : Z) (i : Instruction) : bool :=
  (i_result i =? kNoValue) || ((n <=? i_result i) && (i_result i <? kNoValue)).

(** The least id a later result may have: above this result, or above the
    operands of an instruction without a result. *)
Definition next_id (n : Z) (i : Instruction) : Z :=
  if i_result i =? kNoValue then foldr (λ a, Z.max (a + 1)) n (i_args i) else i_result i + 1.

Definition inst_ok (n : Z) (i : Instruction) : bool := args_ok i && result_ok n i.

(** Result ids increase from [n] on and exceed the operands that came before. *)
Fixpoint ssa (n : Z) (l : list Instruction) : bool :=
  match l with
  | [] => true
  | i :: l => inst_ok n i && ssa (next_id n i) l
  end.

Lemma ssa_cons n i l : ssa n (i :: l) = true <-> inst_ok n i = true /\ ssa (next_id n i) l = true.
Proof. apply andb_true_iff. Qed.

Lemma args_ok_spec i : args_ok i = true <-> Forall (λ a, 0 <= a < i_result i) (i_args i).
Proof.
  unfold args_ok. induction (i_args i) as [|a l IH]; cbn; [by split|].
  by rewrite !andb_true_iff, Forall_cons, IH, Z.leb_le, Z.ltb_lt.
Qed.

Lemma inst_ok_result n i :
  inst_ok n i = true -> i_result i <> kNoValue -> n <= i_result i < kNoValue.
Proof.
  intros [_ Hr]%andb_true_iff Hne. unfold result_ok in Hr.
  apply orb_true_iff in Hr as [?%Z.eqb_eq|[?%Z.leb_le ?%Z.ltb_lt]%andb_true_iff]; done.
Qed.

Lemma inst_ok_args_lt n i : inst_ok n i = true -> Forall (λ a, 0 <= a < i_result i) (i_args i).
Proof. intros [H _]%andb_true_iff. by apply args_ok_spec. Qed.

Lemma inst_ok_args n i : inst_ok n i = true -> Forall (λ a, 0 <= a < kNoValue) (i_args i).
Proof.
  intros Hi. pose proof (inst_ok_args_lt n i Hi) as Ha. eapply Forall_impl; [exact Ha|].
  intros a Hlt. cbn in Hlt. destruct (Z.eq_dec (i_result i) kNoValue) as [He|Hne]; [lia|].
  pose proof (inst_ok_result n i Hi Hne). lia.
Qed.

Lemma foldr_max_ge (n : Z) (l : list Z) : n <= foldr (λ a, Z.max (a + 1)) n l.
Proof. induction l as [|a l IH]; cbn; lia. Qed.

Lemma foldr_max_le (n b : Z) (l : list Z) :
  n <= b -> Forall (λ a, a < b) l -> foldr (λ a, Z.max (a + 1)) n l <= b.
Proof. intros Hn. induction 1 as [|a l Ha _ IH]; cbn; lia. Qed.

Lemma foldr_max_elem (n : Z) (l : list Z) : Forall (λ a, a < foldr (λ a, Z.max (a + 1)) n l) l.
Proof.
  induction l as [|a l IH]; constructor; cbn; [lia|].
  eapply Forall_impl; [exact IH|]. cbn. intros. lia.
Qed.

Lemma next_id_ge n i : inst_ok n i = true -> n <= next_id n i.
Proof.
  intros Hi. unfold next_id. destruct (Z.eqb_spec (i_result i) kNoValue); [apply foldr_max_ge|].
  pose proof (inst_ok_result n i Hi). lia.
Qed.

Lemma next_id_le n i : inst_ok n i = true -> n <= kNoValue -> next_id n i <= kNoValue.
Proof.
  intros Hi Hn. unfold next_id. destruct (Z.eqb_spec (i_result i) kNoValue).
  - apply foldr_max_le; [done|]. eapply Forall_impl; [by eapply inst_ok_args|]. cbn. lia.
  - pose proof (inst_ok_result n i Hi). lia.
Qed.

Lemma next_id_result n i : i_result i <> kNoValue -> next_id n i = i_result i + 1.
Proof. intros. unfold next_id. by destruct (Z.eqb_spec (i_result i) kNoValue). Qed.

(** The operands of an instruction without a result lie below what follows. *)
Lemma next_id_args n i :
  i_result i = kNoValue -> Forall (λ a, a < next_id n i) (i_args i).
Proof.
  intros Hv. unfold next_id. destruct (Z.eqb_spec (i_result i) kNoValue); [|done].
  apply foldr_max_elem.
Qed.

(** Smaller operands leave the bound where it is or lower. *)
Lemma next_id_shrink n n' i i' :
  n' <= n -> i_result i' = i_result i ->
  Forall (λ a', exists a, a ∈ i_args i /\ a' <= a) (i_args i') -> next_id n' i' <= next_id n i.
Proof.
  intros Hn Hr Ha. unfold next_id. rewrite Hr.
  destruct (Z.eqb_spec (i_result i) kNoValue); [|lia].
  apply foldr_max_le; [etrans; [exact Hn|apply foldr_max_ge]|].
  eapply Forall_impl; [exact Ha|]. intros a' (a & Hin & Hle).
  pose proof (foldr_max_elem n (i_args i)) as Hf. rewrite Forall_forall in Hf.
  specialize (Hf a Hin). cbn in Hf. lia.
Qed.

Lemma next_id_mono n n' i : n' <= n -> next_id n' i <= next_id n i.
Proof.
  intros Hn. apply next_id_shrink; [done|done|]. apply Forall_forall. intros a Ha. by exists a.
Qed.

Lemma inst_ok_mono n n' i : n' <= n -> inst_ok n i = true -> inst_ok n' i = true.
Proof.
  intros Hn. unfold inst_ok, result_ok. rewrite !andb_true_iff, !orb_true_iff, !andb_true_iff,
    !Z.leb_le, !Z.ltb_lt. intuition lia.
Qed.

Lemma ssa_mono n n' l : n' <= n -> ssa n l = true -> ssa n' l = true.
Proof.
  revert n n'. induction l as [|i l IH]; intros n n' Hn; [done|]. rewrite !ssa_cons.
  intros [Hi Hl]. split; [by eapply inst_ok_mono|]. eapply IH; [|exact Hl]. by apply next_id_mono.
Qed.

(** ** Instruction side conditions

    What the passes assume of an instruction beyond its operands: [I1] constants
    are 0 or 1, register indices are in range, register reads have a result and compares have none, the two XER read-modify-write
    operations the lifter never emits do not occur (state promotion does not
    flush the XER flags for them), and [ReadSPR] does not name XER, LR or CTR, which
    have operations of their own. *)

Definition const_imm_ok (i : Instruction) : bool :=
  negb (bool_decide (i_op i = Op.Constant /\ i_type i = I1)) || (i_imm0 i =? 0) || (i_imm0 i =? 1).

Definition index_below (n : Z) (i : Instruction) : bool := (0 <=? i_imm0 i) && (i_imm0 i <? n).

Definition has_result (i : Instruction) : bool := negb (i_result i =? kNoValue).

Definition promotable (i : Instruction) : bool :=
  match i_op i with
  | Op.UpdateCR0Signed | Op.SetXerOverflowSticky => false
  | Op.WriteGpr | Op.WriteFprBits => index_below 32 i
  | Op.WriteVector => index_below 128 i
  | Op.ReadGpr | Op.ReadFprBits => index_below 32 i && has_result i
  | Op.ReadVector => index_below 128 i && has_result i
  | Op.ReadLR | Op.ReadCTR | Op.ReadXerCA | Op.ReadXerOV | Op.ReadXerSO => has_result i
  | Op.WriteCRCompare => negb (has_result i)
  | Op.ReadSPR => negb ((i_imm0 i =? 1) || (i_imm0 i =? 8) || (i_imm0 i =? 9))
  | _ => true
  end.

Definition inst_wf (i : Instruction) : bool := const_imm_ok i && promotable i.

(** A block the optimiser accepts. *)
Definition body_ok (l : list Instruction) : bool := ssa 0 l && forallb inst_wf l.

Lemma body_ok_spec l : body_ok l = true <-> ssa 0 l = true /\ Forall (λ i, inst_wf i = true) l.
Proof.
  unfold body_ok. rewrite andb_true_iff. apply and_iff_compat_l.
  induction l as [|i l IH]; cbn; [done|]. by rewrite andb_true_iff, Forall_cons, IH.
Qed.

(** A deferred write put back into the block: no result, operands below [n]. *)
Definition late_write (n : Z) (i : Instruction) : Prop :=
  i_result i = kNoValue /\ inst_wf i = true /\ Forall (λ a, 0 <= a < n) (i_args i).

Lemma late_write_mono n n' i : n <= n' -> late_write n i -> late_write n' i.
Proof.
  intros Hn (Hr & Hw & Ha). split_and!; [done..|]. eapply Forall_impl; [exact Ha|].
  intros a Hlt. cbn in *. lia.
Qed.

Lemma late_write_ssa n l rest :
  n <= kNoValue -> Forall (late_write n) l -> ssa n rest = true -> ssa n (l ++ rest) = true.
Proof.
  intros Hn Hl Hrest. induction Hl as [|i l (Hr & _ & Ha) _ IH]; [done|].
  cbn [app]. apply ssa_cons.
  assert (Hid : next_id n i = n).
  { unfold next_id. rewrite Hr, Z.eqb_refl. apply Z.le_antisymm; [|apply foldr_max_ge].
    apply foldr_max_le; [lia|]. eapply Forall_impl; [exact Ha|]. cbn. lia. }
  rewrite Hid. split; [|done]. apply andb_true_iff. split.
  - apply args_ok_spec. rewrite Hr. eapply Forall_impl; [exact Ha|]. cbn. lia.
  - unfold result_ok. by rewrite Hr, Z.eqb_refl.
Qed.

(** ** Passes *)

Section Pass.
Context {St : Type} (step : St -> Instruction -> St * list Instruction).

Fixpoint run_pass (st : St) (l : list Instruction) : St * list Instruction :=
  match l with
  | [] => (st, [])
  | i :: l =>
      let '(st, out) := step st i in
      let '(st, rest) := run_pass st l in
      (st, out ++ rest)
  end.

Lemma run_pass_cons st i l :
  run_pass st (i :: l) =
    ((run_pass (step st i).1 l).1, (step st i).2 ++ (run_pass (step st i).1 l).2).
Proof. cbn. destruct (step st i) as [st' out]. cbn. by destruct (run_pass st' l). Qed.

(** A static invariant of the pass state. *)
Lemma run_pass_inv (ok : Instruction -> Prop) (P : Z -> St -> Prop) :
  (forall n st i, P n st -> inst_ok n i = true -> ok i -> P (next_id n i) (step st i).1) ->
  forall l n st, P n st -> ssa n l = true -> Forall ok l ->
    exists m, n <= m /\ P m (run_pass st l).1.
Proof.
  intros Hstep. induction l as [|i l IH]; intros n st HP Hs Hok; [by exists n|].
  apply ssa_cons in Hs as [Hi Hs]. apply Forall_cons in Hok as [Hoki Hok].
  rewrite run_pass_cons. cbn [fst].
  destruct (IH _ _ (Hstep _ _ _ HP Hi Hoki) Hs Hok) as (m & Hm & HP'). exists m. split; [|done].
  pose proof (next_id_ge n i Hi). lia.
Qed.

(** The output is again in SSA form. *)
Lemma run_pass_ssa (ok : Instruction -> Prop) (P : Z -> St -> Prop) :
  (forall n st i, P n st -> inst_ok n i = true -> ok i ->
     P (next_id n i) (step st i).1 /\
     forall rest, ssa (next_id n i) rest = true -> ssa n ((step st i).2 ++ rest) = true) ->
  forall l n st, P n st -> ssa n l = true -> Forall ok l -> ssa n (run_pass st l).2 = true.
Proof.
  intros Hstep. induction l as [|i l IH]; intros n st HP Hs Hok; [done|].
  apply ssa_cons in Hs as [Hi Hs]. apply Forall_cons in Hok as [Hoki Hok].
  rewrite run_pass_cons. cbn [snd].
  destruct (Hstep _ _ _ HP Hi Hoki) as [HP' Hout]. apply Hout. by apply IH.
Qed.

(** A property of every emitted instruction. *)
Lemma run_pass_Forall (P : St -> Prop) (ok : Instruction -> Prop) :
  (forall st i, P st -> ok i -> P (step st i).1 /\ Forall ok (step st i).2) ->
  forall l st, P st -> Forall ok l -> P (run_pass st l).1 /\ Forall ok (run_pass st l).2.
Proof.
  intros Hstep. induction l as [|i l IH]; intros st HP Hok; [done|].
  apply Forall_cons in Hok as [Hi Hok]. rewrite run_pass_cons. cbn [fst snd].
  destruct (Hstep st i HP Hi) as [HP' Hout]. destruct (IH _ HP' Hok) as [HP'' Hrest].
  split; [done|]. by apply Forall_app.
Qed.
End Pass.

(** ** Execution *)

Section Exec.
Context {W : Type} `{MemoryPort W, RuntimeServices W, HostHelpers W}.
Context (fuel : nat) (mode : Mode).

Abbreviation exec_one := (exec_one (W := W) fuel mode).
Abbreviation exec_list := (exec_list (W := W) fuel mode).

Lemma exec_list_app l1 l2 e m :
  exec_list (l1 ++ l2) e m =
    (r ← exec_list l1 e m;
     match r with
     | Continue e m => exec_list l2 e m
     | Leave r s w => Some (Leave r s w)
     end).
Proof.
  revert e m. induction l1 as [|i l1 IH]; intros e m; [done|]. cbn.
  destruct (exec_one i e m) as [[e' m'|]|]; cbn; [apply IH|done|done].
Qed.

Lemma exec_list_cons i l e m :
  exec_list (i :: l) e m =
    (r ← exec_one i e m;
     match r with
     | Continue e m => exec_list l e m
     | Leave r s w => Some (Leave r s w)
     end).
Proof. done. Qed.

Lemma exec_list_one i e m : exec_list [i] e m = exec_one i e m.
Proof. cbn. by destruct (exec_one i e m) as [[]|]. Qed.

(** Environments whose variables are the typed values of ids below [n]. *)
Definition env_ok (n : Z) (e : Env) : Prop :=
  forall v x, e !! v = Some x -> 0 <= v < n /\ wf_val x.

Lemma env_ok_empty n : env_ok n ∅.
Proof. intros v x Hv. by rewrite lookup_empty in Hv. Qed.

Lemma env_ok_mono n n' e : n <= n' -> env_ok n e -> env_ok n' e.
Proof. intros Hn He v x Hv. destruct (He _ _ Hv). split; [lia|done]. Qed.

Lemma env_ok_insert n r x e :
  env_ok n e -> 0 <= n <= r -> wf_val x -> env_ok (r + 1) (<[r := x]> e).
Proof.
  intros He Hr Hx v y Hv. destruct (decide (v = r)) as [->|Hne].
  - rewrite lookup_insert_eq in Hv. simplify_eq. split; [lia|done].
  - rewrite lookup_insert_ne in Hv by done. destruct (He _ _ Hv). split; [lia|done].
Qed.

Lemma mapM_lookup_wf n (e : Env) l args :
  env_ok n e -> mapM (e !!.) l = Some args -> Forall wf_val args.
Proof.
  intros He Hm. apply mapM_Some in Hm. induction Hm; constructor; [|done].
  by eapply He.
Qed.

Lemma lookups_extend (e : Env) r x args vs :
  e !! r = None -> mapM (e !!.) args = Some vs -> mapM (<[r := x]> e !!.) args = Some vs.
Proof.
  intros Hr Hm. apply mapM_Some. apply mapM_Some in Hm. eapply Forall2_impl; [exact Hm|].
  intros a y Hy. cbn in *. rewrite lookup_insert_ne; [done|]. intros <-. congruence.
Qed.

(** One executed instruction, in terms of its operands' values. *)
Lemma exec_one_inv i e m r :
  exec_one i e m = Some r ->
  exists args st, mapM (e !!.) (i_args i) = Some args /\
    exec_inst fuel mode i args (m_cpu (emit_guest_pc i m)) (m_world (emit_guest_pc i m))
      = Some st /\
    match st with
    | Next v s w => exists e', bind_result i v e = Some e' /\
        r = Continue e' (mkMachine s w (m_materialized (emit_guest_pc i m)))
    | Exit x s w => r = Leave x s w
    end.
Proof.
  unfold IrSem.exec_one. destruct (mapM _ _) as [args|]; [|done]. cbn.
  destruct (exec_inst _ _ _ _ _ _) as [[v s w|x s w]|] eqn:E; cbn; [| |done].
  - destruct (bind_result i v e) as [e'|] eqn:Eb; [|done]. cbn. intros [= <-].
    exists args, (Next v s w). split_and!; [done..|]. by exists e'.
  - intros [= <-]. by exists args, (Exit x s w).
Qed.

Lemma exec_one_intro i e m args st :
  mapM (e !!.) (i_args i) = Some args ->
  exec_inst fuel mode i args (m_cpu (emit_guest_pc i m)) (m_world (emit_guest_pc i m))
    = Some st ->
  exec_one i e m =
    match st with
    | Next v s w =>
        (λ e', Continue e' (mkMachine s w (m_materialized (emit_guest_pc i m))))
          <$> bind_result i v e
    | Exit x s w => Some (Leave x s w)
    end.
Proof.
  intros Ha Hs. unfold IrSem.exec_one. rewrite Ha. cbn. rewrite Hs. cbn.
  destruct st as [v s w|]; [|done]. by destruct (bind_result i v e).
Qed.

Lemma bind_result_ok n i v e e' :
  0 <= n -> inst_ok n i = true -> env_ok n e ->
  (forall x, v = Some x -> wf_val x) -> bind_result i v e = Some e' ->
  env_ok (next_id n i) e'.
Proof.
  intros Hn Hi He Hv Hb. pose proof (next_id_ge n i Hi). unfold bind_result in Hb.
  destruct v as [x|], (Z.eqb_spec (i_result i) kNoValue); simplify_eq;
    [|by eapply env_ok_mono]. rewrite next_id_result by done.
  eapply env_ok_insert; [done| |by apply Hv].
  pose proof (inst_ok_result n i Hi). lia.
Qed.

Lemma exec_one_env_ok n i e m e' m' :
  0 <= n -> inst_ok n i = true -> env_ok n e ->
  exec_one i e m = Some (Continue e' m') -> env_ok (next_id n i) e'.
Proof.
  intros Hn Hi He E. destruct (exec_one_inv _ _ _ _ E) as (args & st & Ha & Hs & Hr).
  destruct st as [v s w|]; [|done]. destruct Hr as (e1 & Hb & [= -> ->]).
  eapply bind_result_ok; [done..| |done]. intros x ->.
  exists (i_type i). eapply exec_inst_type; [|done]. by eapply mapM_lookup_wf.
Qed.

End Exec.

(** ** Per-instruction simulation

    The source block runs in mode [ms], the target block in mode [mt]. *)

Section Sim.
Context {W : Type} `{MemoryPort W, RuntimeServices W, HostHelpers W}.
Context (fuel : nat) (ms mt : Mode).
Context {St : Type} (step : St -> Instruction -> St * list Instruction).
(** Instruction-wise side condition of the pass. *)
Context (ok : Instruction -> Prop).
(** id bound, pass state, environments and machines of source and target. *)
Context (Inv : Z -> St -> Env -> Env -> Machine W -> Machine W -> Prop).

(** Both sides left the block alike, or both are still in it and related. *)
Definition sim_result (K : Env -> Env -> Machine W -> Machine W -> Prop)
    (r r' : BlockStep W) : Prop :=
  match r, r' with
  | Continue e1 m1, Continue e1' m1' => K e1 e1' m1 m1'
  | Leave x s w, Leave x' s' w' => x' = x /\ s' = s /\ w' = w
  | _, _ => False
  end.

Definition sim_step : Prop :=
  forall n st e e' m m' i r, Inv n st e e' m m' -> inst_ok n i = true -> ok i ->
    exec_one fuel ms i e m = Some r ->
    exists r', exec_list fuel mt (step st i).2 e' m' = Some r' /\
      sim_result (Inv (next_id n i) (step st i).1) r r'.

Lemma run_pass_sim :
  sim_step -> forall l n st e e' m m' r,
    Inv n st e e' m m' -> ssa n l = true -> Forall ok l ->
    exec_list fuel ms l e m = Some r ->
    exists r', exec_list fuel mt (run_pass step st l).2 e' m' = Some r' /\
      sim_result (λ e1 e1' m1 m1', exists n1, Inv n1 (run_pass step st l).1 e1 e1' m1 m1') r r'.
Proof.
  intros Hsim. induction l as [|i l IH]; intros n st e e' m m' r HI Hs Hok E.
  { cbn in E. simplify_eq. eexists. split; [done|]. cbn. by exists n. }
  apply ssa_cons in Hs as [Hi Hs]. apply Forall_cons in Hok as [Hoki Hok].
  rewrite run_pass_cons. cbn [fst snd]. rewrite exec_list_app. cbn in E.
  destruct (exec_one fuel ms i e m) as [r1|] eqn:E1; [|done]. cbn in E.
  destruct (Hsim _ _ _ _ _ _ _ _ HI Hi Hoki E1) as (r1' & -> & Hr1). cbn.
  destruct r1 as [e1 m1|x s w], r1' as [e1' m1'|x' s' w']; try done.
  - by apply (IH _ _ _ _ _ _ _ Hr1 Hs Hok).
  - destruct Hr1 as (-> & -> & ->). simplify_eq. by eexists.
Qed.

(** A pass whose relation gives equal machines preserves the run of a block. *)
Lemma run_body_sim l st n m o :
  sim_step -> Inv n st ∅ ∅ m m -> ssa n l = true -> Forall ok l ->
  (forall n st e e' m m', Inv n st e e' m m' -> m' = m) ->
  run_body fuel ms l m = Some o -> run_body fuel mt (run_pass step st l).2 m = Some o.
Proof.
  intros Hsim HI Hs Hok Heq E. unfold run_body in *.
  destruct (exec_list fuel ms l ∅ m) as [r|] eqn:Er; [|done]. cbn in E. simplify_eq.
  destruct (run_pass_sim Hsim _ _ _ _ _ _ _ _ HI Hs Hok Er) as (r' & -> & Hr). cbn. f_equal.
  destruct r as [e1 m1|x s w], r' as [e1' m1'|x' s' w']; try done.
  - destruct Hr as (n1 & Hr). cbn. by rewrite (Heq _ _ _ _ _ _ Hr).
  - by destruct Hr as (-> & -> & ->).
Qed.
End Sim.
