(* ===== verification/Aliases.v ===== *)
(** * Value aliases (the [aliases] vector and [resolve] of the optimiser passes)

    Every pass that replaces one value by another keeps a vector of parent
    pointers and chases it ([resolve]); value_simplification.cpp and
    state_promotion.cpp compress the path afterwards, redundancy_elimination.cpp
    does not. An alias never points to a later value, so the chase terminates;
    compression does not change what any value resolves to. *)

From S2P Require Import Prelude.
From S2P Require Import Words.
From S2P Require Import Ir.
From S2P Require Import CpuState.
From S2P Require Import IrValue.
From S2P Require Import Services.
From S2P Require Import IrSem.
From S2P Require Import IrRefine.
From S2P Require Import PassSim.

Abbreviation Aliases := (list Z).

(** optimizer_passes.hpp: the largest id that occurs in the block, or 0. *)
Definition max_value_id (l : list Instruction) : Z :=
  foldl (λ m i,
    foldl (λ m a, if a =? kNoValue then m else Z.max m a)
      (if i_result i =? kNoValue then m else Z.max m (i_result i)) (i_args i)) 0 l.

Definition init_aliases (maximum : Z) : Aliases := seqZ 0 (maximum + 1).

(** [while (current < size && aliases[current] != current) current = aliases[current]] *)
Fixpoint chase (fuel : nat) (al : Aliases) (v : Z) : Z :=
  match fuel with
  | O => v
  | S fuel =>
      match al !! Z.to_nat v with
      | Some a => if a =? v then v else chase fuel al a
      | None => v
      end
  end.

(** The second loop of [resolve]: point every value on the path at [current]. *)
Fixpoint compress (fuel : nat) (al : Aliases) (cursor current : Z) : Aliases :=
  match fuel with
  | O => al
  | S fuel =>
      match al !! Z.to_nat cursor with
      | Some next =>
          if next =? cursor then al
          else compress fuel (<[Z.to_nat cursor := current]> al) next current
      | None => al
      end
  end.

Definition resolve_plain (al : Aliases) (v : Z) : Z :=
  if (v =? kNoValue) || (Z.of_nat (length al) <=? v) then v else chase (length al) al v.

Definition resolve (al : Aliases) (v : Z) : Z * Aliases :=
  if (v =? kNoValue) || (Z.of_nat (length al) <=? v) then (v, al)
  else
    let current := chase (length al) al v in
    (current, compress (length al) al v current).

(** [aliases[result] = replacement], guarded by the size test. *)
Definition assign_alias (al : Aliases) (r t : Z) : Aliases :=
  if negb (r =? kNoValue) && (r <? Z.of_nat (length al)) then <[Z.to_nat r := t]> al else al.

(** ** The invariant *)

(** No alias points upwards, and ids from [n] on are still their own root. *)
Definition alias_ok (n : Z) (al : Aliases) : Prop :=
  forall k a, al !! k = Some a -> 0 <= a <= Z.of_nat k /\ (n <= Z.of_nat k -> a = Z.of_nat k).

(** What a value resolves to. *)
Definition find (al : Aliases) (v : Z) : Z := chase (Z.to_nat v) al v.

Lemma alias_ok_init maximum n : alias_ok n (init_aliases maximum).
Proof.
  intros k a Ha. apply lookup_seqZ in Ha as [-> ?]. lia.
Qed.

Lemma init_aliases_length maximum : 0 <= maximum -> Z.of_nat (length (init_aliases maximum)) = maximum + 1.
Proof. intros. unfold init_aliases. rewrite length_seqZ. lia. Qed.

Lemma Z_lt_induction_0 (P : Z -> Prop) :
  (forall v, (forall a, 0 <= a < v -> P a) -> P v) -> forall v, P v.
Proof.
  intros HP v. destruct (Z.lt_ge_cases v 0) as [Hv|Hv].
  - apply HP. intros a Ha. lia.
  - revert v Hv. apply Z_lt_induction. intros v IH. apply HP. intros a Ha. by apply IH.
Qed.

Section Chase.
Context (n : Z) (al : Aliases) (Hok : alias_ok n al).

Lemma alias_le v a : 0 <= v -> al !! Z.to_nat v = Some a -> 0 <= a <= v.
Proof. intros Hv Ha. pose proof (Hok _ _ Ha). lia. Qed.

Lemma chase_fuel f g v :
  0 <= v -> (Z.to_nat v <= f)%nat -> (Z.to_nat v <= g)%nat -> chase f al v = chase g al v.
Proof.
  assert (Hz : forall h, v = 0 -> chase h al v = v).
  { intros [|h] ->; [done|]. cbn [chase]. destruct (al !! Z.to_nat 0) as [a|] eqn:Ea; [|done].
    pose proof (Hok _ _ Ea). assert (a = 0) as -> by lia. done. }
  revert g v Hz. induction f as [|f IH]; intros g v Hz Hv Hf Hg; [rewrite !Hz by lia; done|].
  destruct g as [|g]; [rewrite !Hz by lia; done|]. cbn.
  destruct (al !! Z.to_nat v) as [a|] eqn:Ea; [|done].
  pose proof (alias_le v a Hv Ea). destruct (Z.eqb_spec a v); [done|].
  apply IH; [|lia..]. intros [|h] ->; [done|]. cbn [chase].
  destruct (al !! Z.to_nat 0) as [b|] eqn:Ea'; [|done].
  pose proof (Hok _ _ Ea'). assert (b = 0) as -> by lia. done.
Qed.

Lemma chase_find f v : 0 <= v -> (Z.to_nat v <= f)%nat -> chase f al v = find al v.
Proof. intros. by apply chase_fuel. Qed.

Lemma find_unfold v :
  0 <= v ->
  find al v = match al !! Z.to_nat v with
              | Some a => if a =? v then v else find al a
              | None => v end.
Proof.
  intros Hv. rewrite <- (chase_find (S (Z.to_nat v))) by lia. cbn.
  destruct (al !! Z.to_nat v) as [a|] eqn:Ea; [|done].
  pose proof (alias_le v a Hv Ea). destruct (Z.eqb_spec a v); [done|].
  apply chase_find; lia.
Qed.

(** Induction along the parent pointers. *)
Lemma alias_ind (P : Z -> Prop) :
  (forall v, 0 <= v -> (forall a, al !! Z.to_nat v = Some a -> a <> v -> 0 <= a < v -> P a) -> P v) ->
  forall v, 0 <= v -> P v.
Proof.
  intros HP v Hv. revert Hv. pattern v. apply Z_lt_induction_0. clear v. intros v IH Hv.
  apply HP; [done|]. intros a _ _ Ha. apply IH; lia.
Qed.

Lemma find_range v : 0 <= v -> 0 <= find al v <= v.
Proof.
  revert v. apply alias_ind. intros v Hv IH. rewrite find_unfold by done.
  destruct (al !! Z.to_nat v) as [a|] eqn:Ea; [|lia].
  pose proof (alias_le v a Hv Ea). destruct (Z.eqb_spec a v); [lia|].
  specialize (IH a eq_refl n0 ltac:(lia)). lia.
Qed.

Lemma find_idem v : 0 <= v -> find al (find al v) = find al v.
Proof.
  revert v. apply alias_ind. intros v Hv IH.
  destruct (al !! Z.to_nat v) as [a|] eqn:Ea.
  - pose proof (alias_le v a Hv Ea). destruct (Z.eqb_spec a v) as [->|Hne].
    + assert (Hf : find al v = v) by (rewrite find_unfold, Ea, Z.eqb_refl; done).
      by rewrite !Hf.
    + rewrite (find_unfold v), Ea by done. destruct (Z.eqb_spec a v); [done|].
      apply IH; [done..|lia].
  - assert (Hf : find al v = v) by (rewrite find_unfold, Ea; done). by rewrite !Hf.
Qed.

Lemma find_above v : 0 <= v -> n <= v -> find al v = v.
Proof.
  intros Hv Hn. rewrite find_unfold by done.
  destruct (al !! Z.to_nat v) as [a|] eqn:Ea; [|done].
  destruct (Hok _ _ Ea) as [_ Ha]. rewrite Ha by lia.
  rewrite Z2Nat.id by lia. by rewrite Z.eqb_refl.
Qed.

Lemma find_step v a : 0 <= v -> al !! Z.to_nat v = Some a -> find al a = find al v.
Proof.
  intros Hv Ha. pose proof (find_unfold v Hv) as Hf. rewrite Ha in Hf.
  destruct (Z.eqb_spec a v) as [->|]; [done|]. done.
Qed.
End Chase.

(** ** Path compression *)

(** Two alias vectors over the same ids that resolve every value alike. *)
Definition alias_equiv (n : Z) (al al' : Aliases) : Prop :=
  length al' = length al /\ alias_ok n al' /\ forall v, 0 <= v -> find al' v = find al v.

Lemma set_root n al k :
  alias_ok n al -> 0 <= k -> alias_equiv n al (<[Z.to_nat k := find al k]> al).
Proof.
  intros Hok Hk. pose proof (find_range n al Hok k Hk) as Hr.
  assert (Hok' : alias_ok n (<[Z.to_nat k := find al k]> al)).
  { intros j a Ha. apply list_lookup_insert_Some in Ha as [(<- & <- & Hl)|(Hne & Ha)].
    - split; [lia|]. intros Hn. rewrite (find_above n al Hok k); lia.
    - by apply Hok. }
  split_and!; [apply length_insert|done|].
  apply (alias_ind al (λ v, find (<[Z.to_nat k := find al k]> al) v = find al v)).
  intros v Hv IH. rewrite (find_unfold _ _ Hok' v) by done.
  destruct (Z.eq_dec v k) as [->|Hne].
  - destruct (decide (Z.to_nat k < length al)%nat) as [Hl|Hl].
    + rewrite list_lookup_insert_eq by done.
      destruct (Z.eqb_spec (find al k) k) as [He|He]; [done|].
      (* the root is its own root in both vectors *)
      rewrite (find_unfold _ _ Hok') by lia.
      rewrite list_lookup_insert_ne by lia.
      pose proof (find_idem _ _ Hok k Hk) as Hid. rewrite (find_unfold _ _ Hok) in Hid by lia.
      destruct (al !! Z.to_nat (find al k)) as [a|] eqn:Ea; [|done].
      destruct (Z.eqb_spec a (find al k)) as [->|Hn]; [done|].
      pose proof (alias_le _ _ Hok (find al k) a ltac:(lia) Ea).
      pose proof (find_range n al Hok a ltac:(lia)). lia.
    + rewrite list_insert_ge by lia. rewrite (find_unfold _ _ Hok k) by done.
      rewrite lookup_ge_None_2 by lia. done.
  - rewrite list_lookup_insert_ne by lia. rewrite (find_unfold _ _ Hok v) by done.
    destruct (al !! Z.to_nat v) as [a|] eqn:Ea; [|done].
    destruct (Z.eqb_spec a v) as [|Hav]; [done|].
    pose proof (alias_le _ _ Hok v a Hv Ea). apply IH; [done..|lia].
Qed.

Lemma alias_equiv_refl n al : alias_ok n al -> alias_equiv n al al.
Proof. done. Qed.

Lemma alias_equiv_trans n a b c : alias_equiv n a b -> alias_equiv n b c -> alias_equiv n a c.
Proof.
  intros (L1 & _ & F1) (L2 & O2 & F2). split_and!; [congruence|done|].
  intros v Hv. by rewrite F2, F1.
Qed.

Lemma compress_equiv n fuel al cursor :
  alias_ok n al -> 0 <= cursor ->
  alias_equiv n al (compress fuel al cursor (find al cursor)).
Proof.
  revert al cursor. induction fuel as [|fuel IH]; intros al cursor Hok Hc; [done|]. cbn.
  destruct (al !! Z.to_nat cursor) as [a|] eqn:Ea; [|done].
  destruct (Z.eqb_spec a cursor) as [|Hne]; [done|].
  pose proof (alias_le _ _ Hok cursor a Hc Ea) as Ha.
  pose proof (set_root n al cursor Hok Hc) as Hs.
  assert (Hf : find al cursor = find (<[Z.to_nat cursor := find al cursor]> al) a).
  { destruct Hs as (_ & _ & Hs). rewrite Hs by lia. symmetry. by apply (find_step n). }
  eapply alias_equiv_trans; [exact Hs|].
  set (al' := <[_ := _]> al) in *. rewrite Hf. apply IH; [apply Hs|lia].
Qed.

(** ** The operations of the passes *)

Lemma resolve_plain_spec n al v :
  alias_ok n al -> 0 <= v < kNoValue -> resolve_plain al v = find al v.
Proof.
  intros Hok Hv. unfold resolve_plain. destruct (Z.eqb_spec v kNoValue); [lia|]. cbn [orb].
  destruct (Z.leb_spec (Z.of_nat (length al)) v).
  - rewrite (find_unfold _ _ Hok) by lia. by rewrite lookup_ge_None_2 by lia.
  - eapply chase_find; [done|lia..].
Qed.

Lemma resolve_spec n al v :
  alias_ok n al -> 0 <= v < kNoValue ->
  (resolve al v).1 = find al v /\ alias_equiv n al (resolve al v).2.
Proof.
  intros Hok Hv. pose proof (resolve_plain_spec n al v Hok Hv) as Hp.
  unfold resolve, resolve_plain in *.
  destruct ((v =? kNoValue) || (Z.of_nat (length al) <=? v)); [done|]. cbn.
  split; [done|]. rewrite Hp. apply compress_equiv; [done|lia].
Qed.

(** Aliasing the fresh result [r] to an earlier value. *)
Lemma assign_alias_spec n al r t :
  alias_ok n al -> 0 <= n <= r -> r < kNoValue -> r < Z.of_nat (length al) ->
  0 <= t < r -> find al t = t ->
  length (assign_alias al r t) = length al /\ alias_ok (r + 1) (assign_alias al r t) /\
  find (assign_alias al r t) r = t /\
  (forall v, 0 <= v -> v <> r -> find (assign_alias al r t) v = find al v).
Proof.
  intros Hok Hr Hn Hl Ht Hroot. unfold assign_alias.
  destruct (Z.eqb_spec r kNoValue); [lia|]. destruct (Z.ltb_spec r (Z.of_nat (length al))); [|lia].
  cbn [andb negb].
  assert (Hok' : alias_ok (r + 1) (<[Z.to_nat r := t]> al)).
  { intros j a Ha. apply list_lookup_insert_Some in Ha as [(<- & <- & _)|(Hne & Ha)]; [lia|].
    destruct (Hok _ _ Ha). split; [done|]. intros. auto with lia. }
  assert (Hother : forall v, 0 <= v -> v <> r ->
            find (<[Z.to_nat r := t]> al) v = find al v).
  { apply (alias_ind al (λ v, v <> r -> find (<[Z.to_nat r := t]> al) v = find al v)).
    intros v Hv IH Hne. rewrite (find_unfold _ _ Hok' v), (find_unfold _ _ Hok v) by done.
    rewrite list_lookup_insert_ne by lia. destruct (al !! Z.to_nat v) as [a|] eqn:Ea; [|done].
    destruct (Z.eqb_spec a v) as [|Hav]; [done|].
    pose proof (alias_le _ _ Hok v a Hv Ea). apply IH; [done|done|lia|].
    (* nothing else points at a fresh id *)
    intros ->. destruct (Hok _ _ Ea) as [_ Hup]. lia. }
  split_and!; [apply length_insert|done| |done].
  rewrite (find_unfold _ _ Hok') by lia. rewrite list_lookup_insert_eq by lia.
  destruct (Z.eqb_spec t r); [lia|]. rewrite Hother by lia. done.
Qed.

Lemma alias_ok_mono n n' al : n <= n' -> alias_ok n al -> alias_ok n' al.
Proof. intros Hn Hok k a Ha. destruct (Hok _ _ Ha). split; [done|]. auto with lia. Qed.

(** ** The size of the vector *)

Lemma foldl_ge {A} (f : Z -> A -> Z) :
  (forall m x, m <= f m x) -> forall l m, m <= foldl f m l.
Proof. intros Hf. induction l as [|x l IH]; intros m; cbn; [lia|]. etrans; [apply Hf|apply IH]. Qed.

Lemma max_args_ge (args : list Z) m :
  m <= foldl (λ m a, if a =? kNoValue then m else Z.max m a) m args.
Proof. apply foldl_ge. intros m' x. case_match; lia. Qed.

Lemma max_value_id_ge l i :
  i ∈ l -> i_result i <> kNoValue -> i_result i <= max_value_id l.
Proof.
  intros Hi Hr. unfold max_value_id.
  apply list_elem_of_split in Hi as (l1 & l2 & ->). rewrite foldl_app. cbn.
  etrans; [|apply foldl_ge; intros m x; etrans; [|apply max_args_ge]; case_match; lia].
  etrans; [|apply max_args_ge]. destruct (Z.eqb_spec (i_result i) kNoValue); [done|lia].
Qed.

Lemma max_value_id_nonneg l : 0 <= max_value_id l.
Proof.
  apply foldl_ge. intros m x. etrans; [|apply max_args_ge]. case_match; lia.
Qed.

(** Every result of the block indexes the vector the passes allocate for it. *)
Lemma init_aliases_covers l :
  Forall (λ i, i_result i <> kNoValue ->
    i_result i < Z.of_nat (length (init_aliases (max_value_id l)))) l.
Proof.
  apply Forall_forall. intros i Hi Hr.
  rewrite init_aliases_length by apply max_value_id_nonneg.
  pose proof (max_value_id_ge l i Hi Hr). lia.
Qed.

(** [for (n...) instruction.args.set(n, resolve(instruction.args[n]))] *)
Fixpoint resolve_args (al : Aliases) (args : list Z) : list Z * Aliases :=
  match args with
  | [] => ([], al)
  | a :: args =>
      let '(r, al) := resolve al a in
      let '(rs, al) := resolve_args al args in
      (r :: rs, al)
  end.

Definition set_args (args : list Z) (i : Instruction) : Instruction :=
  mkInstr (i_op i) (i_type i) (i_result i) args (i_imm0 i) (i_imm1 i) (i_guest_address i)
    (i_guest_word i) (i_guest_opcode i).

Lemma set_args_self i : set_args (i_args i) i = i.
Proof. by destruct i. Qed.

Lemma resolve_args_spec n al args :
  alias_ok n al -> Forall (λ a, 0 <= a < kNoValue) args ->
  (resolve_args al args).1 = find al <$> args /\ alias_equiv n al (resolve_args al args).2.
Proof.
  intros Hok Hargs. revert al Hok. induction Hargs as [|a args Ha Hargs IH]; intros al Hok; [done|].
  cbn. destruct (resolve_spec n al a Hok ltac:(lia)) as [Hr He].
  destruct (resolve al a) as [r al1]. cbn in Hr, He.
  destruct (IH al1 (proj1 (proj2 He))) as [Hrs He'].
  destruct (resolve_args al1 args) as [rs al2]. cbn in *. split.
  - rewrite Hr, Hrs. f_equal. apply list_fmap_ext. intros k b Hb. apply He.
    eapply Forall_lookup_1 in Hargs; [|done]. lia.
  - by eapply alias_equiv_trans.
Qed.

(** ** The relation *)

Record alias_inv (n : Z) (al : Aliases) (e e' : Env) : Prop := mkAliasInv {
  ai_bound : 0 <= n <= kNoValue;
  ai_ok : alias_ok n al;
  ai_src : env_ok n e;
  ai_tgt : env_ok n e';
  ai_rel : forall v x, e !! v = Some x -> exists x', e' !! find al v = Some x' /\ vref x x';
  ai_root : forall v x, e' !! v = Some x -> find al v = v
}.

Lemma alias_inv_init maximum : alias_inv 0 (init_aliases maximum) ∅ ∅.
Proof.
  split; [by vm_compute|apply alias_ok_init|apply env_ok_empty|apply env_ok_empty|..].
  all: intros v x Hv; by rewrite lookup_empty in Hv.
Qed.

Lemma alias_inv_equiv n al al' e e' :
  alias_equiv n al al' -> alias_inv n al e e' -> alias_inv n al' e e'.
Proof.
  intros (Hl & Hok & Hf) [Hb Hok0 Hs Ht Hr Hroot]. split; try done.
  - intros v x Hv. rewrite Hf; [by apply Hr|]. by apply (Hs v x).
  - intros v x Hv. rewrite Hf; [by eapply Hroot|]. by apply (Ht v x).
Qed.

Lemma alias_inv_mono n n' al e e' :
  n <= n' -> n' <= kNoValue -> alias_inv n al e e' -> alias_inv n' al e e'.
Proof.
  intros Hn Hk [Hb Hok Hs Ht Hr Hroot]. split; [lia|by eapply alias_ok_mono|..]; try done;
    by eapply env_ok_mono.
Qed.

Lemma alias_inv_args n al e e' args vs :
  alias_inv n al e e' -> mapM (e !!.) args = Some vs ->
  exists vs', mapM (e' !!.) (find al <$> args) = Some vs' /\ Forall2 vref vs vs'.
Proof.
  intros Hi Hm. apply mapM_Some in Hm. induction Hm as [|a v args vs Ha Hm IH]; [by exists []|].
  destruct IH as (vs' & Hm' & Hv').
  destruct (ai_rel _ _ _ _ Hi a v Ha) as (v' & Hv & Hr).
  exists (v' :: vs'). split; [|by constructor]. cbn. rewrite Hv. cbn. by rewrite Hm'.
Qed.

(** Operands of an executed instruction are in scope. *)
Lemma alias_inv_arg n al e e' a x :
  alias_inv n al e e' -> e !! a = Some x ->
  0 <= a < n /\ 0 <= find al a < n /\ find al (find al a) = find al a /\
  exists x', e' !! find al a = Some x' /\ vref x x'.
Proof.
  intros Hi Ha. destruct (ai_src _ _ _ _ Hi a x Ha) as [Hn _].
  pose proof (find_range _ _ (ai_ok _ _ _ _ Hi) a ltac:(lia)).
  split_and!; [lia..| |by eapply ai_rel]. eapply find_idem; [by eapply ai_ok|lia].
Qed.

Section AliasExec.
Context {W : Type} `{MemoryPort W, RuntimeServices W, HostHelpers W}.
Context (fuel : nat) (ms mt : Mode).

Lemma pure_no_pc (i : Instruction) (m : Machine W) :
  is_pure (i_op i) = true -> emit_guest_pc i m = m.
Proof.
  unfold is_pure, emit_guest_pc, pc_boundary. intros ->%Z.eqb_eq. cbn.
  by rewrite andb_false_r.
Qed.

Lemma exec_one_pure i e (m : Machine W) r :
  is_pure (i_op i) = true -> exec_one fuel ms i e m = Some r ->
  exists args v, mapM (e !!.) (i_args i) = Some args /\ eval_pure ms i args = Some v /\
    i_result i <> kNoValue /\ r = Continue (<[i_result i := v]> e) m.
Proof.
  intros Hp E. destruct (exec_one_inv _ _ _ _ _ _ E) as (args & st & Ha & Hs & Hr).
  rewrite (pure_no_pc _ _ Hp) in Hs, Hr. unfold exec_inst in Hs. rewrite Hp in Hs.
  destruct (eval_pure ms i args) as [v|] eqn:Ev; [|done]. cbn in Hs. simplify_eq.
  destruct Hr as (e' & Hb & ->). unfold bind_result in Hb.
  destruct (Z.eqb_spec (i_result i) kNoValue); simplify_eq.
  exists args, v. by destruct m.
Qed.

Lemma exec_one_pure_intro i e (m : Machine W) args v :
  is_pure (i_op i) = true -> mapM (e !!.) (i_args i) = Some args ->
  eval_pure ms i args = Some v -> i_result i <> kNoValue ->
  exec_one fuel ms i e m = Some (Continue (<[i_result i := v]> e) m).
Proof.
  intros Hp Ha Hv Hr.
  rewrite (exec_one_intro _ _ _ _ _ args (Next (Some v) (m_cpu m) (m_world m)) Ha).
  - rewrite (pure_no_pc _ _ Hp). cbn. destruct (Z.eqb_spec (i_result i) kNoValue); [done|].
    by destruct m.
  - rewrite (pure_no_pc _ _ Hp). unfold exec_inst. by rewrite Hp, Hv.
Qed.

(** A dropped pure instruction: its result becomes an alias of the root [t]. *)
Lemma alias_inv_drop n al e e' r v t x' :
  alias_inv n al e e' -> n <= r < kNoValue -> r < Z.of_nat (length al) -> wf_val v ->
  find al t = t -> e' !! t = Some x' -> vref v x' ->
  alias_inv (r + 1) (assign_alias al r t) (<[r := v]> e) e' /\
  length (assign_alias al r t) = length al.
Proof.
  intros Hi Hr Hl Hv Ht Hx Href.
  pose proof (ai_bound _ _ _ _ Hi). destruct (ai_tgt _ _ _ _ Hi t x' Hx) as [Htn _].
  destruct (assign_alias_spec n al r t) as (Hlen & Hok & Hfr & Hfo);
    [by eapply ai_ok|lia..|done|].
  split; [|done]. split; [lia|done| | | |].
  - eapply env_ok_insert; [by eapply ai_src|lia|done].
  - eapply env_ok_mono; [|by eapply ai_tgt]. lia.
  - intros w y Hw. destruct (decide (w = r)) as [->|Hne].
    + rewrite lookup_insert_eq in Hw. simplify_eq. rewrite Hfr. by exists x'.
    + rewrite lookup_insert_ne in Hw by done.
      destruct (ai_src _ _ _ _ Hi w y Hw). rewrite Hfo by lia. by eapply ai_rel.
  - intros w y Hw. destruct (ai_tgt _ _ _ _ Hi w y Hw) as [Hwn _].
    rewrite Hfo by lia. by eapply ai_root.
Qed.

(** Both sides bind the fresh result [r]. *)
Lemma alias_inv_bind n al e e' r v v' :
  alias_inv n al e e' -> n <= r < kNoValue -> wf_val v -> wf_val v' -> vref v v' ->
  alias_inv (r + 1) al (<[r := v]> e) (<[r := v']> e').
Proof.
  intros Hi Hr Hv Hv' Href. pose proof (ai_bound _ _ _ _ Hi).
  assert (Hroot : find al r = r) by (eapply find_above; [by eapply ai_ok|lia..]).
  split; [lia|eapply alias_ok_mono; [|by eapply ai_ok]; lia|..].
  - eapply env_ok_insert; [by eapply ai_src|lia|done].
  - eapply env_ok_insert; [by eapply ai_tgt|lia|done].
  - intros w y Hw. destruct (decide (w = r)) as [->|Hne].
    + rewrite lookup_insert_eq in Hw. simplify_eq. rewrite Hroot, lookup_insert_eq. by exists v'.
    + rewrite lookup_insert_ne in Hw by done.
      destruct (alias_inv_arg _ _ _ _ _ _ Hi Hw) as (? & ? & _ & Hx).
      by rewrite lookup_insert_ne by lia.
  - intros w y Hw. destruct (decide (w = r)) as [->|Hne]; [done|].
    rewrite lookup_insert_ne in Hw by done. by eapply ai_root.
Qed.

Lemma exec_result_wf n i e args s (w : W) s' w' v :
  env_ok n e -> mapM (e !!.) (i_args i) = Some args ->
  exec_inst fuel ms i args s w = Some (Next (Some v) s' w') -> wf_val v.
Proof.
  intros He Ha Hx. exists (i_type i). eapply exec_inst_type; [|done].
  by eapply mapM_lookup_wf.
Qed.

(** A kept instruction, executed with resolved operands. *)
Lemma alias_inv_keep n al e e' i (m : Machine W) r :
  mode_le ms mt ->
  alias_inv n al e e' -> inst_ok n i = true -> exec_one fuel ms i e m = Some r ->
  exists r', exec_one fuel mt (set_args (find al <$> i_args i) i) e' m = Some r' /\
    sim_result (λ e1 e1' m1 m1', m1' = m1 /\ alias_inv (next_id n i) al e1 e1' /\
      forall v, v <> i_result i -> e1' !! v = e' !! v) r r'.
Proof.
  intros Hm Hi Hok E. pose proof (ai_bound _ _ _ _ Hi) as Hb.
  destruct (exec_one_inv _ _ _ _ _ _ E) as (args & st & Ha & Hs & Hr).
  destruct (alias_inv_args _ _ _ _ _ _ Hi Ha) as (args' & Ha' & Href).
  assert (Hwf : Forall wf_val args) by (eapply mapM_lookup_wf; [by eapply ai_src|done]).
  destruct (exec_inst_ref _ _ _ _ _ _ _ _ _ Hm Hwf Hs Href) as (st' & Hs' & Hst).
  assert (E' : exec_inst fuel mt (set_args (find al <$> i_args i) i) args'
                 (m_cpu (emit_guest_pc i m)) (m_world (emit_guest_pc i m)) = Some st') by done.
  rewrite (exec_one_intro _ _ (set_args _ i) _ _ _ _ Ha' E').
  destruct st as [v s w|x s w], st' as [v' s' w'|x' s' w']; try done.
  2:{ destruct Hst as (-> & -> & ->). subst r. by eexists. }
  destruct Hst as (Hv & -> & ->). destruct Hr as (e1 & Hbind & ->).
  unfold bind_result in *. cbn [i_result set_args] in *.
  inversion Hv as [y y' Hy|]; subst; destruct (Z.eqb_spec (i_result i) kNoValue) as [He|Hne];
    simplify_eq; cbn; eexists; (split; [done|]); (split; [done|]).
  - split.
    + rewrite next_id_result by done.
      apply (alias_inv_bind n); [done|by eapply inst_ok_result| | |done].
      * exists (i_type i). by eapply exec_inst_type.
      * exists (i_type (set_args (find al <$> i_args i) i)).
        eapply exec_inst_type; [|exact E']. eapply mapM_lookup_wf; [by eapply ai_tgt|exact Ha'].
    + intros w0 Hw0. by rewrite lookup_insert_ne by done.
  - split; [|done]. apply (alias_inv_mono n); [by apply next_id_ge| |done].
    apply next_id_le; [done|lia].
Qed.
End AliasExec.
