(* ===== verification/AliasPass.v ===== *)
(** * Passes that alias values away

    Common-subexpression elimination and value simplification share their
    outer shape: rewrite each instruction's operands through [aliases], keep the
    instruction or alias its result to an earlier value, and finally resolve the
    operands of every surviving instruction once more. The last step changes
    nothing: an operand that executes was resolved to a kept value, and a kept
    value is never aliased afterwards. *)

From S2P Require Import Prelude.
From S2P Require Import Words.
From S2P Require Import CpuState.
From S2P Require Import Ir.
From S2P Require Import IrValue.
From S2P Require Import Services.
From S2P Require Import IrSem.
From S2P Require Import IrRefine.
From S2P Require Import PassSim.
From S2P Require Import Aliases.

Definition rename (F : Z -> Z) (l : list Instruction) : list Instruction :=
  (λ i, set_args (F <$> i_args i) i) <$> l.

(** [for (auto& instruction : output) for (n...) args.set(n, resolve(args[n]))] *)
Fixpoint resolve_all (al : Aliases) (l : list Instruction) : list Instruction :=
  match l with
  | [] => []
  | i :: l =>
      let '(args, al) := resolve_args al (i_args i) in
      set_args args i :: resolve_all al l
  end.

Lemma list_fmap_ext_in {A B} (f g : A -> B) l :
  Forall (λ x, f x = g x) l -> f <$> l = g <$> l.
Proof. induction 1 as [|x l Hx _ IH]; [done|]. cbn. by rewrite Hx, IH. Qed.

Lemma rename_ext F G l :
  Forall (λ i, Forall (λ a, F a = G a) (i_args i)) l -> rename F l = rename G l.
Proof.
  intros Hl. apply list_fmap_ext_in. eapply Forall_impl; [exact Hl|]. intros i Hi. cbn in *.
  by rewrite (list_fmap_ext_in F G).
Qed.

Lemma resolve_all_spec n al l :
  alias_ok n al -> Forall (λ i, Forall (λ a, 0 <= a < kNoValue) (i_args i)) l ->
  resolve_all al l = rename (find al) l.
Proof.
  intros Hok Hl. revert al Hok. induction Hl as [|i l Hi Hl IH]; intros al Hok; [done|]. cbn.
  destruct (resolve_args_spec n al _ Hok Hi) as [Ha He].
  destruct (resolve_args al (i_args i)) as [args al']. cbn in *. subst args.
  destruct He as (_ & Hok' & Hf). unfold rename. cbn. f_equal. rewrite (IH al' Hok').
  apply rename_ext. eapply Forall_impl; [exact Hl|]. intros j Hj. cbn in *.
  eapply Forall_impl; [exact Hj|]. intros a Ha. apply Hf. cbn in Ha. lia.
Qed.

Lemma rename_plain_spec n al l :
  alias_ok n al -> Forall (λ i, Forall (λ a, 0 <= a < kNoValue) (i_args i)) l ->
  rename (resolve_plain al) l = rename (find al) l.
Proof.
  intros Hok Hl. apply rename_ext. eapply Forall_impl; [exact Hl|]. intros i Hi. cbn in *.
  eapply Forall_impl; [exact Hi|]. intros a Ha. by eapply resolve_plain_spec.
Qed.

Section Rename.
Context {W : Type} `{MemoryPort W, RuntimeServices W, HostHelpers W}.
Context (fuel : nat) (mode : Mode) (F : Z -> Z).

Lemma rename_args_id (e : Env) args vs :
  (forall v x, e !! v = Some x -> F v = v) -> mapM (e !!.) args = Some vs -> F <$> args = args.
Proof.
  intros Hfix Hm. apply mapM_Some in Hm. induction Hm as [|a v args vs Ha _ IH]; [done|].
  cbn. by rewrite (Hfix a v Ha), IH.
Qed.

(** Renaming that fixes every defined value does not change a run. *)
Lemma exec_list_rename l e (m : Machine W) r :
  (forall v x, e !! v = Some x -> F v = v) ->
  Forall (λ i, i_result i <> kNoValue -> F (i_result i) = i_result i) l ->
  exec_list fuel mode l e m = Some r -> exec_list fuel mode (rename F l) e m = Some r.
Proof.
  intros Hfix Hl. revert e m Hfix. induction Hl as [|i l Hi Hl IH]; intros e m Hfix E; [done|].
  cbn in E. destruct (exec_one fuel mode i e m) as [r1|] eqn:E1; [|done]. cbn in E.
  destruct (exec_one_inv _ _ _ _ _ _ E1) as (args & st & Ha & Hs & Hr).
  change (rename F (i :: l)) with (set_args (F <$> i_args i) i :: rename F l).
  rewrite (rename_args_id _ _ _ Hfix Ha), set_args_self. cbn. rewrite E1. cbn.
  destruct r1 as [e1 m1|x s w]; [|done]. apply IH; [|done].
  destruct st as [v s w|]; [|done]. destruct Hr as (e' & Hb & [= -> ->]).
  intros w0 x Hx. unfold bind_result in Hb.
  destruct v as [y|], (Z.eqb_spec (i_result i) kNoValue); simplify_eq; [|by eapply Hfix].
  destruct (decide (w0 = i_result i)) as [->|Hne]; [by apply Hi|].
  rewrite lookup_insert_ne in Hx by done. by eapply Hfix.
Qed.
End Rename.

(** ** What such a pass maintains, statically *)

Lemma inst_ok_shrink n i i' :
  inst_ok n i = true -> i_result i' = i_result i ->
  Forall (λ a', 0 <= a' /\ exists a, a ∈ i_args i /\ a' <= a) (i_args i') -> inst_ok n i' = true.
Proof.
  intros Hi Hr Ha. pose proof (inst_ok_args_lt n i Hi) as Hlt.
  apply andb_true_iff in Hi as [_ Hres]. apply andb_true_iff. split.
  - apply args_ok_spec. rewrite Hr. eapply Forall_impl; [exact Ha|].
    intros a' [H0 (a & Hin & Hle)]. rewrite Forall_forall in Hlt. specialize (Hlt a Hin). cbn in *. lia.
  - unfold result_ok in *. by rewrite Hr.
Qed.

(** Resolved operands are no larger. *)
Lemma resolved_args_shrink n al i :
  alias_ok n al -> inst_ok n i = true ->
  Forall (λ a', 0 <= a' /\ exists a, a ∈ i_args i /\ a' <= a) (find al <$> i_args i).
Proof.
  intros Hok Hi. apply Forall_fmap, Forall_forall. intros a Hin. cbn.
  pose proof (inst_ok_args n i Hi) as Ha. rewrite Forall_forall in Ha. specialize (Ha a Hin).
  cbn in Ha. pose proof (find_range n al Hok a ltac:(lia)). split; [lia|]. exists a. split; [done|lia].
Qed.

Section AliasPass.
Context {St : Type} (step : St -> Instruction -> St * list Instruction).
Context (aliases : St -> Aliases).
Context (ok : Instruction -> Prop) (P : Z -> St -> Prop).

(** The static part of a step: the invariant; what is in scope keeps its root; at most one
    instruction comes out, with the result and the (resolved) operands of the
    one that went in, and its result is a root. *)
Definition alias_step : Prop :=
  forall n st i, P n st -> inst_ok n i = true -> ok i ->
    P (next_id n i) (step st i).1 /\
    (forall v, 0 <= v < n -> find (aliases (step st i).1) v = find (aliases st) v) /\
    ((step st i).2 = [] \/ exists i', (step st i).2 = [i'] /\
       i_result i' = i_result i /\
       Forall (λ a', 0 <= a' /\ exists a, a ∈ i_args i /\ a' <= a) (i_args i') /\
       (i_result i <> kNoValue -> find (aliases (step st i).1) (i_result i) = i_result i)).

Context (Hstep : alias_step).

Lemma alias_step_inst_ok n st i i' :
  P n st -> inst_ok n i = true -> ok i -> (step st i).2 = [i'] ->
  inst_ok n i' = true /\ next_id n i' <= next_id n i.
Proof using Hstep.
  intros HP Hi Hoki Hout. destruct (Hstep n st i HP Hi Hoki) as (_ & _ & [Hn|(i2 & He & Hr & Ha & _)]);
    rewrite Hout in *; [done|]. simplify_eq. split.
  - by apply (inst_ok_shrink n i).
  - apply next_id_shrink; [done|done|]. eapply Forall_impl; [exact Ha|]. by intros a' [_ Ha'].
Qed.

Lemma alias_pass_ssa l n st :
  P n st -> ssa n l = true -> Forall ok l -> ssa n (run_pass step st l).2 = true.
Proof using Hstep.
  apply run_pass_ssa. clear l n st. intros n st i HP Hi Hoki.
  pose proof (Hstep n st i HP Hi Hoki) as (HP' & _ & Hout). split; [done|].
  intros rest Hrest. destruct Hout as [->|(i' & Ho & _)].
  - cbn. apply (ssa_mono (next_id n i)); [by apply next_id_ge|done].
  - pose proof (alias_step_inst_ok n st i i' HP Hi Hoki Ho) as [Hi' Hn]. rewrite Ho. cbn.
    rewrite Hi'. by apply (ssa_mono (next_id n i)).
Qed.

(** Values that are roots now are roots at the end, kept results included. *)
Lemma alias_pass_roots l n st :
  0 <= n -> P n st -> ssa n l = true -> Forall ok l ->
  (forall v, 0 <= v < n -> find (aliases st) v = v ->
     find (aliases (run_pass step st l).1) v = v) /\
  Forall (λ i, i_result i <> kNoValue ->
    find (aliases (run_pass step st l).1) (i_result i) = i_result i) (run_pass step st l).2.
Proof using Hstep.
  revert n st. induction l as [|i l IH]; intros n st Hn HP Hs Hok; [done|].
  apply ssa_cons in Hs as [Hi Hs]. apply Forall_cons in Hok as [Hoki Hok].
  destruct (Hstep n st i HP Hi Hoki) as (HP' & Hroots & Hout).
  pose proof (next_id_ge n i Hi) as Hge.
  destruct (IH _ _ (Z.le_trans _ _ _ Hn Hge) HP' Hs Hok) as [IHr IHo].
  rewrite run_pass_cons. cbn [fst snd]. split.
  - intros v Hv Hf. apply IHr; [lia|]. by rewrite Hroots.
  - apply Forall_app. split; [|done]. destruct Hout as [->|(i' & -> & Hr & _ & Hroot)]; [done|].
    constructor; [|done]. rewrite Hr. intros Hne. apply IHr; [|by apply Hroot].
    rewrite next_id_result by done. pose proof (inst_ok_result n i Hi Hne). lia.
Qed.

Lemma alias_pass_args l n st :
  P n st -> ssa n l = true -> Forall ok l ->
  Forall (λ i, Forall (λ a, 0 <= a < kNoValue) (i_args i)) (run_pass step st l).2.
Proof using Hstep.
  intros HP Hs Hok. pose proof (alias_pass_ssa l n st HP Hs Hok) as Hssa. revert Hssa.
  generalize (run_pass step st l).2. intros out. clear -St. revert n.
  induction out as [|i out IH]; intros n Hs; [done|]. apply ssa_cons in Hs as [Hi Hs].
  constructor; [by eapply inst_ok_args|by eapply IH].
Qed.
End AliasPass.

(** Renaming through the final aliases keeps the shape of the block. *)
Lemma rename_ssa n0 al n l :
  alias_ok n0 al -> ssa n l = true -> ssa n (rename (find al) l) = true.
Proof.
  intros Hok. revert n. induction l as [|i l IH]; intros n Hs; [done|].
  apply ssa_cons in Hs as [Hi Hs]. change (rename (find al) (i :: l)) with
    (set_args (find al <$> i_args i) i :: rename (find al) l).
  assert (Hsh : Forall (λ a', 0 <= a' /\ exists a, a ∈ i_args i /\ a' <= a) (find al <$> i_args i)).
  { apply Forall_fmap, Forall_forall. intros a Hin. cbn. pose proof (inst_ok_args n i Hi) as Ha.
    rewrite Forall_forall in Ha. specialize (Ha a Hin). cbn in Ha.
    pose proof (find_range n0 al Hok a ltac:(lia)). split; [lia|]. exists a. split; [done|lia]. }
  apply ssa_cons. split; [by apply (inst_ok_shrink n i)|].
  apply (ssa_mono (next_id n i)); [|by apply IH]. apply next_id_shrink; [done|done|].
  eapply Forall_impl; [exact Hsh|]. by intros a' [_ Ha'].
Qed.

Lemma rename_wf F l :
  Forall (λ i, inst_wf i = true) l -> Forall (λ i, inst_wf i = true) (rename F l).
Proof. intros Hl. apply Forall_fmap. eapply Forall_impl; [exact Hl|]. by intros i. Qed.
