(* ===== verification/ConstEval.v ===== *)
(** * The constant evaluator of the optimiser
    (src/cpu/optimizer/passes/value_simplification.cpp lines 19-98)

    [eval_binary] works on normalised 64-bit patterns with a width mask;
    [eval_pure] is the C++ expression the backend would have emitted. The lemmas
    show the two agree. *)

From S2P Require Import Prelude.
From S2P Require Import Words.
From S2P Require Import CpuState.
From S2P Require Import AotScalar.
From S2P Require Import Ir.
From S2P Require Import IrValue.
From S2P Require Import IrRefine.

Record ConstantValue : Type := mkConst { cv_type : IrType; cv_bits : Z }.

Definition width_mask (width : Z) : Z := if 64 <=? width then U64_MAX else (1 .<< width) - 1.

Definition normalize (value : Z) (type : IrType) : Z :=
  let width := integer_width type in
  if width =? 0 then value else value .& width_mask width.

Definition signed_less (a b width : Z) : bool :=
  let mask := width_mask width in
  let sign := 1 .<< (width - 1) in
  ((a .& mask) .^ sign) <? ((b .& mask) .^ sign).

Definition eval_shift_right_arithmetic (a b width mask : Z) : Z :=
  if b =? 0 then a
  else
    let negative := negb (a .& (1 .<< (width - 1)) =? 0) in
    if width <=? b then (if negative then mask else 0)
    else
      let result := a .>> b in
      let high := if width =? 64 then u64 (U64_MAX .<< (64 - b))
                  else mask .& u64 (U64_MAX .<< (width - b)) in
      (if negative then result .| high else result) .& mask.

Definition eval_rotate_left (a b width mask : Z) : Z :=
  let amount := b mod width in
  if amount =? 0 then a
  else (u64 (a .<< amount) .| (a .>> (width - amount))) .& mask.

Definition eval_binary (op : Op.t) (a b : Z) (operand_type result_type : IrType) : option Z :=
  let width := integer_width operand_type in
  if width =? 0 then None
  else
    let mask := width_mask width in
    let out := width_mask (integer_width result_type) in
    let a := a .& mask in
    let b := b .& mask in
    match op with
    | Op.Add => Some (u64 (a + b) .& out)
    | Op.Sub => Some (u64 (a - b) .& out)
    | Op.Mul => Some (u64 (a * b) .& out)
    | Op.And => Some ((a .& b) .& out)
    | Op.Or => Some ((a .| b) .& out)
    | Op.Xor => Some ((a .^ b) .& out)
    | Op.Shl =>
        Some (if integer_width result_type <=? b then 0 else u64 (a .<< b) .& out)
    | Op.ShrLogical => Some (if width <=? b then 0 else a .>> b)
    | Op.ShrArithmetic => Some (eval_shift_right_arithmetic a b width mask)
    | Op.Rotl => Some (eval_rotate_left a b width mask)
    | Op.CompareEq => Some (Z.b2z (a =? b))
    | Op.CompareNe => Some (Z.b2z (negb (a =? b)))
    | Op.CompareUlt => Some (Z.b2z (a <? b))
    | Op.CompareUgt => Some (Z.b2z (b <? a))
    | Op.CompareSlt => Some (Z.b2z (signed_less a b width))
    | Op.CompareSgt => Some (Z.b2z (signed_less b a width))
    | _ => None
    end.

(** ** Masks are wrap-around *)

Lemma width_mask_ones w : 0 <= w <= 64 -> width_mask w = Z.ones w.
Proof.
  intros Hw. unfold width_mask. destruct (Z.leb_spec 64 w).
  - replace w with 64 by lia. done.
  - rewrite Z.ones_equiv, Z.shiftl_1_l. lia.
Qed.

Lemma integer_width_range t : 0 <= integer_width t <= 64.
Proof. by destruct t. Qed.

Lemma land_mask x t : x .& width_mask (integer_width t) = wrap t x.
Proof.
  pose proof (integer_width_range t). rewrite width_mask_ones, Z.land_ones by lia. done.
Qed.

Lemma normalize_wrap x t : is_int_type t = true -> normalize x t = wrap t x.
Proof. intros Ht. unfold normalize. rewrite land_mask. by destruct t. Qed.

Lemma wrap_wrap t x : wrap t (wrap t x) = wrap t x.
Proof. unfold wrap. apply Z.mod_mod. by destruct t. Qed.

Lemma wrap_u64 t x : wrap t (u64 x) = wrap t x.
Proof.
  unfold wrap, u64. change 0x10000000000000000 with (2 ^ 64).
  pose proof (integer_width_range t). apply Z.mod_mod_divide.
  exists (2 ^ (64 - integer_width t)). rewrite <- Z.pow_add_r by lia. f_equal. lia.
Qed.

Lemma normalize_idem x t : normalize (normalize x t) t = normalize x t.
Proof.
  destruct (is_int_type t) eqn:Ht; [by rewrite !normalize_wrap, wrap_wrap by done|].
  unfold normalize. by destruct t.
Qed.

Lemma constant_value_int t z :
  is_int_type t = true -> (t = I1 -> z = 0 \/ z = 1) -> constant_value t z = Some (TInt t (wrap t z)).
Proof. intros Ht H1. destruct t; try done. destruct (H1 eq_refl); by subst. Qed.

Lemma constant_value_bool b : constant_value I1 (Z.b2z b) = Some (tbool b).
Proof. by destruct b. Qed.

(** The value a folded instruction declares. *)
Lemma constant_value_wrap t z :
  is_int_type t = true -> constant_value t (normalize z t) = Some (TInt t (wrap t z)).
Proof.
  intros Ht. rewrite normalize_wrap by done. rewrite constant_value_int; [by rewrite wrap_wrap|done|].
  intros ->. pose proof (wrap_range I1 z eq_refl). cbn in *. lia.
Qed.

(** ** Signed comparison and arithmetic shift *)

Lemma lxor_top w a :
  0 < w -> 0 <= a < 2 ^ w ->
  a .^ 2 ^ (w - 1) = if a <? 2 ^ (w - 1) then a + 2 ^ (w - 1) else a - 2 ^ (w - 1).
Proof.
  intros Hw Ha. assert (H2 : 2 ^ w = 2 * 2 ^ (w - 1)).
  { rewrite <- Z.pow_succ_r by lia. f_equal. lia. }
  assert (0 < 2 ^ (w - 1)) by (apply Z.pow_pos_nonneg; lia).
  assert (Hno : forall x, 0 <= x < 2 ^ (w - 1) -> x .^ 2 ^ (w - 1) = x + 2 ^ (w - 1)).
  { intros x Hx. symmetry. apply Z.add_nocarry_lxor. apply Z.bits_inj'. intros i Hi.
    rewrite Z.land_spec, Z.bits_0. destruct (Z.eq_dec i (w - 1)) as [->|Hne].
    - by rewrite (testbit_above (w - 1)) by lia.
    - rewrite Z.pow2_bits_false by done. apply andb_false_r. }
  destruct (Z.ltb_spec a (2 ^ (w - 1))); [apply Hno; lia|].
  rewrite <- (Z.sub_add (2 ^ (w - 1)) a) at 1. rewrite <- Hno by lia.
  by rewrite Z.lxor_assoc, Z.lxor_nilpotent, Z.lxor_0_r.
Qed.

Lemma signed_view_range t z :
  is_wide_int_type t = true -> 0 <= z < 2 ^ integer_width t ->
  signed_view t z = if z <? 2 ^ (integer_width t - 1) then z else z - 2 ^ integer_width t.
Proof.
  intros Ht Hz. destruct t; try done; cbn in *;
    unfold s8, s16, s32, s64, u8, u16, u32, u64; rewrite Z.mod_small by lia; done.
Qed.

Lemma signed_less_spec t a b :
  is_wide_int_type t = true ->
  0 <= a < 2 ^ integer_width t -> 0 <= b < 2 ^ integer_width t ->
  signed_less a b (integer_width t) = (signed_view t a <? signed_view t b).
Proof.
  intros Ht Ha Hb. unfold signed_less. rewrite !land_mask, !wrap_id, Z.shiftl_1_l by done.
  assert (0 < integer_width t) by (by destruct t).
  rewrite !lxor_top, !signed_view_range by done.
  assert (H2 : 2 ^ integer_width t = 2 * 2 ^ (integer_width t - 1)).
  { rewrite <- Z.pow_succ_r by lia. f_equal. lia. }
  apply eq_true_iff_eq. rewrite !Z.ltb_lt. bool_cases; lia.
Qed.

Lemma high_ones w b :
  0 < b < w -> w <= 64 ->
  (if w =? 64 then u64 (U64_MAX .<< (64 - b)) else width_mask w .& u64 (U64_MAX .<< (w - b)))
  = 2 ^ w - 2 ^ (w - b).
Proof.
  intros Hb Hw.
  assert (Hu : forall n, 0 <= n < 64 -> u64 (U64_MAX .<< n) = 2 ^ 64 - 2 ^ n).
  { intros n Hn. rewrite Z.shiftl_mul_pow2 by lia. unfold u64.
    change 0x10000000000000000 with (2 ^ 64). change U64_MAX with (2 ^ 64 - 1).
    assert (0 < 2 ^ n) by (apply Z.pow_pos_nonneg; lia).
    assert (2 ^ n < 2 ^ 64) by (apply Z.pow_lt_mono_r; lia).
    symmetry. apply Z.mod_unique with (2 ^ n - 1); [lia|]. lia. }
  destruct (Z.eqb_spec w 64) as [->|Hne]; [by rewrite Hu by lia|].
  rewrite Hu by lia. rewrite Z.land_comm, width_mask_ones, Z.land_ones by lia.
  assert (0 < 2 ^ (w - b)) by (apply Z.pow_pos_nonneg; lia).
  assert (2 ^ (w - b) < 2 ^ w) by (apply Z.pow_lt_mono_r; lia).
  symmetry. apply Z.mod_unique with (2 ^ (64 - w) - 1); [lia|].
  replace (2 ^ 64) with (2 ^ w * 2 ^ (64 - w)) by (rewrite <- Z.pow_add_r by lia; f_equal; lia).
  lia.
Qed.

Lemma lor_disjoint n x y : 0 <= n -> 0 <= x < 2 ^ n -> x .| (y * 2 ^ n) = x + y * 2 ^ n.
Proof.
  intros Hn Hx. rewrite <- Z.lxor_lor, <- Z.add_nocarry_lxor; [done|..].
  all: apply Z.bits_inj'; intros i Hi; rewrite Z.land_spec, Z.bits_0;
    destruct (Z.lt_ge_cases i n);
    [by rewrite Z.mul_pow2_bits_low by lia; rewrite andb_false_r|by rewrite (testbit_above n x)].
Qed.

Lemma eval_sra_spec t a b :
  is_wide_int_type t = true ->
  0 <= a < 2 ^ integer_width t -> 0 <= b ->
  wrap t (eval_shift_right_arithmetic a b (integer_width t) (width_mask (integer_width t)))
  = wrap t (if integer_width t <=? b then (if signed_view t a <? 0 then -1 else 0)
            else signed_view t a .>> b).
Proof.
  intros Ht Ha Hb. set (w := integer_width t) in *.
  assert (Hw : 1 < w <= 64) by (subst w; by destruct t).
  assert (H2 : 2 ^ w = 2 * 2 ^ (w - 1)).
  { rewrite <- Z.pow_succ_r by lia. f_equal. lia. }
  assert (0 < 2 ^ (w - 1)) by (apply Z.pow_pos_nonneg; lia).
  rewrite signed_view_range by done. fold w. unfold eval_shift_right_arithmetic.
  rewrite land_bit_zero, negb_involutive by lia.
  rewrite testbit_top by lia. rewrite (Z.leb_antisym a (2 ^ (w - 1))).
  destruct (Z.eqb_spec b 0) as [->|Hb0].
  { destruct (Z.leb_spec w 0); [lia|]. rewrite Z.shiftr_0_r.
    destruct (Z.ltb_spec a (2 ^ (w - 1))); [done|]. unfold wrap. fold w.
    replace (a - 2 ^ w) with (a + (-1) * 2 ^ w) by lia. by rewrite Z.mod_add by lia. }
  destruct (Z.leb_spec w b) as [Hwb|Hwb].
  { rewrite width_mask_ones, Z.ones_equiv by lia.
    destruct (Z.ltb_spec a (2 ^ (w - 1))); cbn [negb].
    - by destruct (Z.ltb_spec a 0); [lia|].
    - destruct (Z.ltb_spec (a - 2 ^ w) 0); [|lia]. unfold wrap. fold w.
      replace (Z.pred (2 ^ w)) with (-1 + 1 * 2 ^ w) by lia. by rewrite Z.mod_add by lia. }
  rewrite high_ones by lia.
  assert (Hlm : forall x, x .& width_mask w = wrap t x) by (intros; apply land_mask).
  assert (Hp : 0 < 2 ^ b) by (apply Z.pow_pos_nonneg; lia).
  assert (Hp' : 0 < 2 ^ (w - b)) by (apply Z.pow_pos_nonneg; lia).
  assert (Hsplit : 2 ^ w = 2 ^ (w - b) * 2 ^ b) by (rewrite <- Z.pow_add_r by lia; f_equal; lia).
  assert (Hsh : 0 <= a .>> b < 2 ^ (w - b)).
  { rewrite Z.shiftr_div_pow2 by lia. split; [apply Z.div_pos; lia|].
    apply Z.div_lt_upper_bound; lia. }
  destruct (Z.ltb_spec a (2 ^ (w - 1))); cbn [negb].
  - by rewrite Hlm, wrap_wrap.
  - rewrite Hlm, wrap_wrap.
    replace (2 ^ w - 2 ^ (w - b)) with ((2 ^ b - 1) * 2 ^ (w - b)) by lia.
    rewrite lor_disjoint by lia. rewrite !Z.shiftr_div_pow2 by lia.
    replace (a - 2 ^ w) with (a + (- 2 ^ (w - b)) * 2 ^ b) by lia.
    rewrite Z.div_add by lia. unfold wrap. fold w.
    rewrite <- (Z.mod_add _ (-1)) by lia. f_equal. lia.
Qed.

Lemma eval_rotl_spec t a b :
  (t = I32 \/ t = I64) -> 0 <= a < 2 ^ integer_width t -> 0 <= b ->
  eval_rotate_left a b (integer_width t) (width_mask (integer_width t))
  = rotl (integer_width t) a (b mod integer_width t).
Proof.
  intros Ht Ha Hb. unfold eval_rotate_left, rotl. set (w := integer_width t) in *.
  assert (Hw : 1 < w <= 64) by (subst w; by destruct Ht as [->| ->]).
  pose proof (Z.mod_pos_bound b w ltac:(lia)).
  destruct (Z.eqb_spec (b mod w) 0); [done|].
  rewrite width_mask_ones by lia. rewrite Z.land_lor_distr_l. f_equal.
  - rewrite Z.land_ones by lia. pose proof (wrap_u64 t (a .<< (b mod w))) as Hu.
    unfold wrap in Hu. fold w in Hu. done.
  - apply land_ones_small; [lia|]. rewrite Z.shiftr_div_pow2 by lia.
    assert (0 < 2 ^ (w - b mod w)) by (apply Z.pow_pos_nonneg; lia).
    split; [apply Z.div_pos; lia|]. apply Z.div_lt_upper_bound; nia.
Qed.
