(* ===== verification/Fold.v ===== *)
(** * Constant folding
    ([fold_constants], src/cpu/optimizer/passes/value_simplification.cpp)

    The pass and the proof that it preserves the execution of a block. *)

From S2P Require Import Prelude.
From S2P Require Import Words.
From S2P Require Import CpuState.
From S2P Require Import AotScalar.
From S2P Require Import Ir.
From S2P Require Import IrValue.
From S2P Require Import Services.
From S2P Require Import IrSem.
From S2P Require Import IrRefine.
From S2P Require Import PassSim.
From S2P Require Import Aliases.
From S2P Require Import ConstEval.

Abbreviation Constants := (gmap Z ConstantValue).

(** [make_constant]: rewrite the instruction in place. *)
Definition make_constant (i : Instruction) (value : Z) : Instruction :=
  mkInstr Op.Constant (i_type i) (i_result i) [] (normalize value (i_type i)) 0
    (i_guest_address i) (i_guest_word i) (i_guest_opcode i).

(** The value a one-operand instruction folds to over a constant operand. *)
Definition fold_unary (i : Instruction) (source : ConstantValue) : option Z :=
  let width := integer_width (i_type i) in
  match i_op i with
  | Op.Not => Some (not64 (cv_bits source) .& width_mask width)
  | Op.AddImmediate => Some (u64 (cv_bits source + i_imm0 i))
  | Op.Neg => Some (u64 (0 - cv_bits source))
  | Op.ZeroExtend | Op.Truncate | Op.Bitcast =>
      if width =? 0 then None else Some (cv_bits source)
  | Op.SignExtend =>
      let source_width := integer_width (cv_type source) in
      if (source_width =? 0) || (width =? 0) then None
      else
        let value := cv_bits source .& width_mask source_width in
        let value := if value .& (1 .<< (source_width - 1)) =? 0 then value
                     else value .| not64 (width_mask source_width) in
        Some (value .& width_mask width)
  | _ => None
  end.

Definition fold_value (c : Constants) (i : Instruction) : option Z :=
  match i_args i with
  | [a] => source ← c !! a; fold_unary i source
  | [a; yes; no] =>
      if bool_decide (i_op i = Op.Select) then
        condition ← c !! a;
        chosen ← c !! (if cv_bits condition =? 0 then no else yes);
        Some (cv_bits chosen)
      else None
  | [a; b] =>
      lhs ← c !! a; rhs ← c !! b;
      if bool_decide (cv_type lhs = cv_type rhs)
      then eval_binary (i_op i) (cv_bits lhs) (cv_bits rhs) (cv_type lhs) (i_type i)
      else None
  | _ => None
  end.

Definition fold_step (c : Constants) (i : Instruction) : Constants * list Instruction :=
  if i_result i =? kNoValue then (c, [i])
  else if bool_decide (i_op i = Op.Constant) then
    (<[i_result i := mkConst (i_type i) (normalize (i_imm0 i) (i_type i))]> c, [i])
  else
    match fold_value c i with
    | Some value =>
        let i := make_constant i value in
        (<[i_result i := mkConst (i_type i) (i_imm0 i)]> c, [i])
    | None => (c, [i])
    end.

Definition fold_constants (b : Block) : Block :=
  set_instructions (run_pass fold_step ∅ (b_instructions b)).2 b.

Section Fold.
Context {W : Type} `{MemoryPort W, RuntimeServices W, HostHelpers W}.
Context (fuel : nat) (ms mt : Mode) (Hm : mode_le ms mt).

(** ** A folded value is the value the instruction computes *)

(** What the pass knows about a constant. *)
Definition const_is (cv : ConstantValue) (x : TVal) : Prop :=
  constant_value (cv_type cv) (cv_bits cv) = Some x /\
  normalize (cv_bits cv) (cv_type cv) = cv_bits cv.

Lemma const_int_inv cv t z :
  const_is cv (TInt t z) ->
  cv_type cv = t /\ is_int_type t = true /\ cv_bits cv = z /\ 0 <= z < 2 ^ integer_width t.
Proof.
  destruct cv as [t' bits]. intros [Hc Hn]. cbn in *.
  destruct (is_int_type t') eqn:Ht'; [|by destruct t'].
  rewrite normalize_wrap in Hn by done. pose proof (wrap_range t' bits Ht') as Hr.
  rewrite Hn in Hr. rewrite constant_value_int in Hc; [|done|].
  - simplify_eq. rewrite Hn. split_and!; try done; lia.
  - intros ->. cbn in Hr. lia.
Qed.

Lemma const_loose cv z : ~ const_is cv (TLoose z).
Proof. intros [Hc _]. destruct cv as [[] ?]; cbn in Hc; simplify_eq. Qed.

Lemma const_loose_ext cv z : ~ const_is cv (TLooseExt z).
Proof. intros [Hc _]. destruct cv as [[] ?]; cbn in Hc; simplify_eq. Qed.

(** An integer view of a constant is the constant itself. *)
Lemma const_exact cv t x z : const_is cv x -> exact t x = Some z -> x = TInt t z.
Proof.
  intros _. apply exact_inv.
Qed.

Lemma signed_extend_spec src t z :
  is_wide_int_type src = true -> integer_width src <= integer_width t ->
  0 <= z < 2 ^ integer_width src ->
  wrap t (if z .& (1 .<< (integer_width src - 1)) =? 0 then z
          else z .| not64 (width_mask (integer_width src)))
  = wrap t (signed_view src z).
Proof.
  intros Hs Hle Hz. rewrite signed_view_range by done.
  set (w := integer_width src) in *.
  assert (Hw : 1 < w <= 64) by (subst w; by destruct src).
  assert (H2' : 2 ^ w = 2 * 2 ^ (w - 1)).
  { rewrite <- Z.pow_succ_r by lia. f_equal. lia. }
  rewrite land_bit_zero by lia. rewrite testbit_top by lia.
  rewrite (Z.leb_antisym z), negb_involutive.
  destruct (Z.ltb_spec z (2 ^ (w - 1))); [done|].
  assert (Hn : not64 (width_mask w) = (2 ^ (64 - w) - 1) * 2 ^ w).
  { rewrite width_mask_ones, Z.ones_equiv by lia. unfold not64, u64, Z.lnot.
    change 0x10000000000000000 with (2 ^ 64).
    assert (2 ^ 64 = 2 ^ (64 - w) * 2 ^ w) by (rewrite <- Z.pow_add_r by lia; f_equal; lia).
    assert (0 < 2 ^ (64 - w)) by (apply Z.pow_pos_nonneg; lia).
    symmetry. apply Z.mod_unique with (-1); nia. }
  rewrite Hn, lor_disjoint by lia.
  replace (z + (2 ^ (64 - w) - 1) * 2 ^ w) with (z - 2 ^ w + 2 ^ (64 - w) * 2 ^ w) by lia.
  rewrite <- Z.pow_add_r by lia. replace (64 - w + w) with 64 by lia.
  unfold wrap. pose proof (integer_width_range t).
  replace (2 ^ 64) with (2 ^ (64 - integer_width t) * 2 ^ integer_width t)
    by (rewrite <- Z.pow_add_r by lia; f_equal; lia).
  apply Z.mod_add. apply Z.pow_nonzero; lia.
Qed.

Lemma fold_unary_sound i cv x v z :
  const_is cv x -> eval_pure mt i [x] = Some v -> fold_unary i cv = Some z ->
  constant_value (i_type i) (normalize z (i_type i)) = Some v.
Proof.
  intros Hc Ev Hf. unfold fold_unary in Hf. unfold eval_pure in Ev.
  destruct (i_op i); try discriminate Hf; cbn in Ev, Hf.
  - (* AddImmediate *)
    destruct (exact I64 x) as [y|] eqn:Ex; [|done]. cbn in Ev. apply (const_exact _ _ _ _ Hc) in Ex as ->.
    apply typed_some in Ev as [-> ->]. simplify_eq.
    destruct (const_int_inv _ _ _ Hc) as (_ & _ & -> & _).
    rewrite constant_value_wrap by done. by rewrite wrap_u64.
  - (* Neg *)
    destruct (is_wide_int_type (i_type i)) eqn:Ht; [|done].
    destruct (exact _ x) as [y|] eqn:Ex; [|done]. cbn in Ev. apply (const_exact _ _ _ _ Hc) in Ex as ->.
    destruct (const_int_inv _ _ _ Hc) as (_ & Hi & <- & _). simplify_eq.
    by rewrite constant_value_wrap, wrap_u64 by done.
  - (* Not *)
    destruct (is_int_type (i_type i)) eqn:Ht; [|done].
    destruct (exact _ x) as [y|] eqn:Ex; [|done]. cbn in Ev. apply (const_exact _ _ _ _ Hc) in Ex as ->.
    destruct (const_int_inv _ _ _ Hc) as (_ & Hi & <- & _). simplify_eq.
    rewrite constant_value_wrap by done. rewrite land_mask, wrap_wrap. unfold not64.
    by rewrite wrap_u64.
  - (* SignExtend *)
    destruct x as [src y| | | | |]; try done.
    destruct (is_wide_int_type src && _) eqn:Ht; [|done].
    apply andb_true_iff in Ht as [Hs Hle%Z.leb_le].
    destruct (const_int_inv _ _ _ Hc) as (Hty & Hi & Hy & Hr). rewrite Hty, Hy in Hf.
    destruct ((_ =? 0) || (_ =? 0)); [done|]. injection Hf as <-. injection Ev as <-.
    assert (Ht : is_int_type (i_type i) = true).
    { unfold is_int_type. apply Z.ltb_lt. assert (1 < integer_width src) by (by destruct src). lia. }
    rewrite constant_value_wrap, !land_mask, wrap_wrap by done.
    rewrite (wrap_id src) by done. by rewrite signed_extend_spec.
  - (* ZeroExtend *)
    destruct (Z.eqb_spec (integer_width (i_type i)) 0); [done|]. simplify_eq.
    assert (Ht : is_int_type (i_type i) = true) by (by destruct (i_type i)).
    rewrite constant_value_wrap by done.
    destruct x as [src y|y|y| | |]; try done;
      [|by apply const_loose in Hc|by apply const_loose_ext in Hc].
    destruct (is_int_type src && _); [|done].
    by destruct (const_int_inv _ _ _ Hc) as (_ & _ & -> & _).
  - (* Truncate *)
    destruct (Z.eqb_spec (integer_width (i_type i)) 0); [done|]. simplify_eq.
    assert (Ht : is_int_type (i_type i) = true) by (by destruct (i_type i)).
    rewrite constant_value_wrap by done.
    destruct x as [src y|y|y| | |]; try done.
    destruct (is_wide_int_type (i_type i) && _); [|done].
    by destruct (const_int_inv _ _ _ Hc) as (_ & _ & -> & _).
  - (* Bitcast *)
    destruct (Z.eqb_spec (integer_width (i_type i)) 0) as [|Hw]; [done|]. simplify_eq.
    destruct x as [src y|y|y|y|y|]; try done.
    + case_decide; [|case_decide; [|done]]; apply typed_some in Ev as [-> Ht];
        by rewrite Ht in Hw.
    + apply typed_some in Ev as [-> ->]. rewrite constant_value_wrap by done.
      destruct Hc as [Hc _]. destruct cv as [[] ?]; cbn in Hc; simplify_eq. cbn.
      f_equal. f_equal. unfold wrap, u32. cbn. symmetry. by apply Z.mod_mod.
    + apply typed_some in Ev as [-> ->]. rewrite constant_value_wrap by done.
      destruct Hc as [Hc _]. destruct cv as [[] ?]; cbn in Hc; simplify_eq. cbn.
      f_equal. f_equal. by rewrite wrap_u64.
Qed.

Lemma fold_select_sound i cc ca cb c a b v :
  const_is cc c ->
  (if cv_bits cc =? 0 then const_is cb b else const_is ca a) ->
  i_op i = Op.Select -> eval_pure mt i [c; a; b] = Some v ->
  constant_value (i_type i)
    (normalize (cv_bits (if cv_bits cc =? 0 then cb else ca)) (i_type i)) = Some v.
Proof.
  intros Hc Hx Hop Ev. unfold eval_pure in Ev. rewrite Hop in Ev.
  destruct (exact I1 c) as [z|] eqn:Ez; [|done]. cbn in Ev. apply (const_exact _ _ _ _ Hc) in Ez as ->.
  destruct (const_int_inv _ _ _ Hc) as (_ & _ & Hz & _). rewrite Hz in *.
  destruct (same_class (i_type i) a && same_class (i_type i) b) eqn:Hs; [|done].
  apply andb_true_iff in Hs as [Ha Hb].
  assert (Hgen : forall cv x, const_is cv x -> same_class (i_type i) x = true ->
    constant_value (i_type i) (normalize (cv_bits cv) (i_type i)) = Some x).
  { intros [t bits] x [Hv Hn] Hsc. cbn in *.
    assert (t = i_type i) as <-; [|by rewrite Hn].
    destruct t; cbn in Hv; simplify_eq; cbn in Hsc; by apply bool_decide_eq_true in Hsc. }
  simplify_eq. destruct (cv_bits cc =? 0); by apply Hgen.
Qed.

Lemma arith_int f t t' a b v :
  arith f t (TInt t' a) (TInt t' b) = Some v ->
  is_int_type t = true /\ v = TInt t (wrap t (f a b)).
Proof.
  unfold arith, exact. case_decide as Ht; [|done]. cbn. case_decide; [|done]. cbn.
  intros [= <-]. split; [by destruct Ht as [->| ->]|done].
Qed.

Lemma bitwise_int f t t' a b v :
  bitwise mt f t (TInt t' a) (TInt t' b) = Some v ->
  is_int_type t = true /\ vref v (TInt t (wrap t (f a b))).
Proof.
  unfold bitwise. destruct (is_int_type t) eqn:Ht; [|done]. cbn. intros E. split; [done|].
  case_decide; [cbn in E; rewrite andb_false_r in E; simplify_eq; constructor|].
  case_decide as Ht'; [|done]. destruct Ht' as [-> ->].
  destruct (a <? 0x100000000); [|done]. destruct (b <? 0x100000000); [|done].
  cbn in E. case_match; simplify_eq; [|done]. apply vref_loose; [by left|]. by apply (wrap_range I32).
Qed.

Lemma shift_int f o t t' a b v :
  shift_op f o t (TInt t' a) (TInt t' b) = Some v ->
  t' = t /\ is_wide_int_type t = true /\
  v = TInt t (wrap t (if integer_width t <=? b then o a else f a b)).
Proof.
  unfold shift_op, exact. destruct (is_wide_int_type t) eqn:Ht; [|done]. cbn.
  case_decide; [|done]. cbn. intros [= <-]. split_and!; [done..|]. by destruct t.
Qed.

Lemma compare_int wo f i t a b v :
  compare_op wo f i (TInt t a) (TInt t b) = Some v ->
  (wo = true -> is_wide_int_type t = true) /\ i_type i = I1 /\ v = tbool (f t a b).
Proof.
  unfold compare_op, exact. cbn. destruct wo.
  - destruct (is_wide_int_type t); [|done]. cbn. rewrite decide_True by done. cbn.
    by intros [-> ->]%typed_some.
  - destruct (is_int_type t); [|done]. cbn. rewrite decide_True by done. cbn.
    by intros [-> ->]%typed_some.
Qed.

Lemma normalize_bool b : normalize (Z.b2z b) I1 = Z.b2z b.
Proof. by destruct b. Qed.

Lemma eval_binary_sound i t x y a b v z :
  const_is (mkConst t a) x -> const_is (mkConst t b) y ->
  eval_pure mt i [x; y] = Some v -> eval_binary (i_op i) a b t (i_type i) = Some z ->
  exists v', constant_value (i_type i) (normalize z (i_type i)) = Some v' /\ vref v v'.
Proof.
  intros Hx Hy Ev Hf. unfold eval_binary in Hf.
  destruct (Z.eqb_spec (integer_width t) 0) as [|Hw]; [done|].
  assert (Ht : is_int_type t = true) by (by destruct t).
  assert (exists x0, x = TInt t x0) as [x0 ->].
  { destruct Hx as [Hx _]. destruct t; cbn in Hx; simplify_eq; by eexists. }
  assert (exists y0, y = TInt t y0) as [y0 ->].
  { destruct Hy as [Hy _]. destruct t; cbn in Hy; simplify_eq; by eexists. }
  destruct (const_int_inv _ _ _ Hx) as (_ & _ & Ea & Ha).
  destruct (const_int_inv _ _ _ Hy) as (_ & _ & Eb & Hb). cbn in Ea, Eb. subst x0 y0.
  rewrite !land_mask, (wrap_id t a), (wrap_id t b) in Hf by done.
  unfold eval_pure in Ev. destruct (i_op i); try discriminate Hf; cbn in Hf, Ev.
  1-3: apply arith_int in Ev as [Hi ->]; injection Hf as <-; eexists;
       (split; [|reflexivity]); by rewrite constant_value_wrap, ?wrap_u64, ?wrap_wrap, ?wrap_u64.
  1-3: apply bitwise_int in Ev as [Hi Hv]; injection Hf as <-;
       eexists; (split; [|exact Hv]); by rewrite constant_value_wrap, wrap_wrap.
  1-3: apply shift_int in Ev as (-> & Hwide & ->); injection Hf as <-; eexists;
       (split; [|reflexivity]); rewrite constant_value_wrap by done.
  - destruct (_ <=? b); [done|]. by rewrite wrap_wrap, wrap_u64.
  - done.
  - by rewrite eval_sra_spec by (done || lia).
  - (* Rotl *)
    assert (Hrot : t = i_type i /\ (t = I32 \/ t = I64) /\
              v = TInt t (rotl (integer_width t) a (b mod integer_width t))).
    { assert (Hmk : forall w n, 0 <= n -> u32 b .& (2 ^ n - 1) = b mod 2 ^ n -> w = 2 ^ n ->
                rotl w a (u32 b .& (w - 1)) = rotl w a (b mod w)).
      { by intros w n Hn Hmask ->; rewrite Hmask. }
      assert (Hmod : forall n, 0 <= n <= 32 -> u32 b .& (2 ^ n - 1) = b mod 2 ^ n).
      { intros n Hn. replace (2 ^ n - 1) with (Z.ones n) by (rewrite Z.ones_equiv; lia).
        rewrite Z.land_ones by lia. apply Z.mod_mod_divide. exists (2 ^ (32 - n)).
        rewrite <- Z.pow_add_r by lia. by replace (32 - n + n) with 32 by lia. }
      unfold exact in Ev. cbn in Ev.
      case_decide; [|case_decide; [|done]]; case_decide; try done; cbn in Ev; simplify_eq;
        (split; [congruence|]); (split; [by auto|]).
      - f_equal. by apply (Hmk 32 5); [lia|apply Hmod; lia|].
      - f_equal. by apply (Hmk 64 6); [lia|apply Hmod; lia|]. }
    destruct Hrot as (-> & Hty & ->). injection Hf as <-. eexists. split; [|reflexivity].
    rewrite constant_value_wrap by done. rewrite eval_rotl_spec by (done || lia).
    f_equal. f_equal. apply wrap_id. apply rotl_range; [|apply Z.mod_pos_bound|done];
      by destruct Hty as [Hty|Hty]; rewrite Hty.
  - apply (compare_int false (λ _ x y, x =? y)) in Ev as (_ & -> & ->). injection Hf as <-.
    rewrite normalize_bool, constant_value_bool. by eexists.
  - apply (compare_int false (λ _ x y, negb (x =? y))) in Ev as (_ & -> & ->). injection Hf as <-.
    rewrite normalize_bool, constant_value_bool. by eexists.
  - apply (compare_int true (λ t x y, signed_view t x <? signed_view t y)) in Ev as (Hwi & -> & ->). injection Hf as <-.
    rewrite signed_less_spec by auto. rewrite normalize_bool, constant_value_bool. by eexists.
  - apply (compare_int true (λ t x y, signed_view t y <? signed_view t x)) in Ev as (Hwi & -> & ->). injection Hf as <-.
    rewrite signed_less_spec by auto. rewrite normalize_bool, constant_value_bool. by eexists.
  - apply (compare_int false (λ _ x y, x <? y)) in Ev as (_ & -> & ->). injection Hf as <-.
    rewrite normalize_bool, constant_value_bool. by eexists.
  - apply (compare_int false (λ _ x y, y <? x)) in Ev as (_ & -> & ->). injection Hf as <-.
    rewrite normalize_bool, constant_value_bool. by eexists.
Qed.

Lemma fold_value_sound n (c : Constants) (e : Env) i args v z :
  env_ok n e ->
  (forall a cv, c !! a = Some cv -> exists x, e !! a = Some x /\ const_is cv x) ->
  mapM (e !!.) (i_args i) = Some args -> eval_pure mt i args = Some v ->
  fold_value c i = Some z ->
  exists v', constant_value (i_type i) (normalize z (i_type i)) = Some v' /\ vref v v'.
Proof.
  intros He Hc Hargs Ev Hf. unfold fold_value in Hf.
  assert (Hget : forall a x cv, e !! a = Some x -> c !! a = Some cv -> const_is cv x).
  { intros a x cv Hx Hcv. destruct (Hc a cv Hcv) as (x' & Hx' & ?). congruence. }
  apply mapM_Some in Hargs.
  destruct (i_args i) as [|a [|b [|d [|]]]]; try discriminate Hf;
    apply Forall2_cons_inv_l in Hargs as (xa & args1 & Hxa & Hargs & ->);
    [apply Forall2_nil_inv_l in Hargs as ->
    |apply Forall2_cons_inv_l in Hargs as (xb & args2 & Hxb & Hargs & ->)..];
    [|apply Forall2_nil_inv_l in Hargs as ->
    |apply Forall2_cons_inv_l in Hargs as (xd & args3 & Hxd & Hargs & ->);
     apply Forall2_nil_inv_l in Hargs as ->].
  - destruct (c !! a) as [cv|] eqn:Ec; [|done]. cbn in Hf.
    exists v. split; [|reflexivity]. eapply fold_unary_sound; eauto.
  - destruct (c !! a) as [[ta ca]|] eqn:Ea; [|done]. destruct (c !! b) as [[tb cb]|] eqn:Eb; [|done].
    cbn in Hf. case_bool_decide; [|done]. subst tb.
    pose proof (Hget _ _ _ Hxa Ea) as Hca. pose proof (Hget _ _ _ Hxb Eb) as Hcb.
    eapply eval_binary_sound; [exact Hca|exact Hcb|done|done].
  - case_bool_decide as Hop; [|done].
    destruct (c !! a) as [cc|] eqn:Ea; [|done]. cbn in Hf.
    destruct (c !! _) as [cx|] eqn:Ex in Hf; [|done]. cbn in Hf. injection Hf as <-.
    exists v. split; [|reflexivity].
    assert (Hsel : cv_bits cx = cv_bits (if cv_bits cc =? 0 then cx else cx)) by (by case_match).
    rewrite Hsel. pose proof (Hget _ _ _ Hxa Ea) as Hcc.
    eapply fold_select_sound; [exact Hcc| |done|exact Ev].
    destruct (cv_bits cc =? 0); eapply Hget; done.
Qed.

(** ** Simulation *)

Record fold_inv (n : Z) (c : Constants) (e e' : Env) (m m' : Machine W) : Prop := mkFoldInv {
  fi_alias : alias_inv n [] e e';
  fi_const : forall a cv, c !! a = Some cv -> exists x, e' !! a = Some x /\ const_is cv x;
  fi_machine : m' = m
}.

Lemma find_nil v : 0 <= v -> find [] v = v.
Proof. intros. unfold find. by destruct (Z.to_nat v). Qed.

Lemma find_nil_args n l : Forall (λ a, 0 <= a < n) l -> find [] <$> l = l.
Proof. induction 1 as [|a l Ha _ IH]; [done|]. cbn. by rewrite IH, find_nil by lia. Qed.

Lemma fold_value_pure c i z : fold_value c i = Some z -> is_pure (i_op i) = true.
Proof.
  unfold fold_value, fold_unary, eval_binary.
  destruct (i_args i) as [|a [|b [|d [|]]]]; try done.
  - destruct (c !! a); [|done]. cbn. by destruct (i_op i).
  - destruct (c !! a); [|done]. destruct (c !! b); [|done]. cbn. case_bool_decide; [|done].
    destruct (_ =? 0); [done|]. by destruct (i_op i).
  - case_bool_decide as Hop; [|done]. by rewrite Hop.
Qed.

Lemma constant_normalize i v :
  i_op i = Op.Constant -> const_imm_ok i = true -> constant_value (i_type i) (i_imm0 i) = Some v ->
  const_is (mkConst (i_type i) (normalize (i_imm0 i) (i_type i))) v.
Proof.
  intros Hop Himm Hv. split; cbn; [|apply normalize_idem].
  destruct (is_int_type (i_type i)) eqn:Ht.
  - rewrite constant_value_wrap by done. rewrite <- Hv. symmetry. apply constant_value_int; [done|].
    intros H1'. unfold const_imm_ok in Himm. rewrite bool_decide_true in Himm by done.
    cbn in Himm. apply orb_true_iff in Himm as [?%Z.eqb_eq|?%Z.eqb_eq]; auto.
  - unfold normalize. by destruct (i_type i).
Qed.

Lemma const_is_wf cv x : const_is cv x -> wf_val x.
Proof. intros [Hc _]. exists (cv_type cv). by eapply constant_type. Qed.

Lemma fold_sim :
  sim_step fuel ms mt fold_step (λ i, const_imm_ok i = true) fold_inv.
Proof using Hm.
  intros n c e e' m m' i r [Hi Hc ->] Hok Himm E.
  pose proof (inst_ok_args _ _ Hok) as Hargs.
  destruct (alias_inv_keep _ _ _ _ _ _ _ _ _ _ Hm Hi Hok E) as (r' & E' & Hr').
  rewrite (find_nil_args kNoValue), set_args_self in E' by done.
  assert (Hkeep : forall c', (forall e1 e1' m1, r = Continue e1 m1 -> r' = Continue e1' m1 ->
      forall a cv, c' !! a = Some cv -> exists x, e1' !! a = Some x /\ const_is cv x) ->
    exists r', exec_list fuel mt [i] e' m = Some r' /\
      sim_result (fold_inv (next_id n i) c') r r').
  { intros c' Hc'. rewrite exec_list_one. exists r'. split; [done|].
    destruct r as [e1 m1|], r' as [e1' m1'|]; try done. destruct Hr' as (-> & Hi' & _).
    split; [done| |done]. by eapply Hc'. }
  assert (Hsame : forall e1 e1' m1, r = Continue e1 m1 -> r' = Continue e1' m1 ->
      forall a cv, c !! a = Some cv -> exists x, e1' !! a = Some x /\ const_is cv x).
  { intros e1 e1' m1 -> ->. destruct Hr' as (_ & Hi' & Hsame).
    intros a cv Ha. destruct (Hc a cv Ha) as (x & Hx & ?). exists x. split; [|done].
    rewrite Hsame; [done|]. destruct (ai_tgt _ _ _ _ Hi a x Hx) as [? _].
    pose proof (ai_bound _ _ _ _ Hi). intros ->.
    destruct (Z.eq_dec (i_result i) kNoValue) as [Hk|Hk]; [lia|].
    pose proof (inst_ok_result _ _ Hok Hk). lia. }
  unfold fold_step. destruct (Z.eqb_spec (i_result i) kNoValue) as [Hres|Hres];
    [by apply Hkeep|].
  pose proof (inst_ok_result _ _ Hok Hres) as Hrange.
  case_bool_decide as Hop.
  - apply Hkeep. intros e1 e1' m1 -> -> a cv Ha.
    assert (Hp : is_pure (i_op i) = true) by (by rewrite Hop).
    destruct (exec_one_pure _ _ _ _ _ _ Hp E') as (args & v & _ & Hv & _ & [= Heq]).
    cbn [fst] in Ha. apply lookup_insert_Some in Ha as [[<- <-]|[Hne Ha]]; [|by eapply Hsame].
    exists v. split; [by rewrite Heq, lookup_insert_eq|].
    apply constant_normalize; [done..|]. unfold eval_pure in Hv. rewrite Hop in Hv.
    by destruct args.
  - destruct (fold_value c i) as [z|] eqn:Ef; [|by apply Hkeep].
    pose proof (fold_value_pure _ _ _ Ef) as Hp.
    destruct (exec_one_pure _ _ _ _ _ _ Hp E) as (args0 & v0 & Ha0 & Hv0 & _ & ->).
    destruct (exec_one_pure _ _ _ _ _ _ Hp E') as (args & v & Ha & Hv & _ & ->).
    destruct (alias_inv_args _ _ _ _ _ _ Hi Ha0) as (args' & Ha' & Href).
    rewrite (find_nil_args kNoValue) in Ha' by done.
    assert (Some args = Some args') as [= <-] by (etrans; [symmetry; exact Ha|exact Ha']).
    assert (Hwf0 : Forall wf_val args0) by (eapply mapM_lookup_wf; [by eapply ai_src|done]).
    destruct (eval_pure_ref _ _ Hm _ _ _ _ Hwf0 Hv0 Href) as (v1 & Hv1 & Href1).
    rewrite Hv in Hv1. injection Hv1 as <-.
    destruct (fold_value_sound n c e' i args v z) as (v' & Hv' & Href'); try done.
    { by eapply ai_tgt. }
    assert (Hcv : const_is (mkConst (i_type i) (normalize z (i_type i))) v').
    { split; [done|apply normalize_idem]. }
    cbn [fst snd]. rewrite exec_list_one.
    rewrite (exec_one_pure_intro _ _ (make_constant i z) e' m [] v'); [|done..].
    eexists. split; [done|]. cbn [i_result make_constant i_type i_imm0].
    rewrite next_id_result by done.
    split; [| |done].
    + apply (alias_inv_bind n); [done..| | |by etrans].
      * exists (i_type i). by eapply eval_pure_type.
      * by eapply const_is_wf.
    + intros a cv Hac. apply lookup_insert_Some in Hac as [[<- <-]|[Hne Hac]].
      * exists v'. by rewrite lookup_insert_eq.
      * rewrite lookup_insert_ne by done. by apply Hc.
Qed.

(** ** Blocks *)

Lemma fold_inv_init m : fold_inv 0 ∅ ∅ ∅ m m.
Proof.
  split; [|done|done]. split; [by vm_compute| |apply env_ok_empty|apply env_ok_empty|..].
  all: intros k a Hk; by rewrite lookup_empty in Hk || done.
Qed.

Lemma fold_run l m o :
  body_ok l = true -> run_body fuel ms l m = Some o ->
  run_body fuel mt (run_pass fold_step ∅ l).2 m = Some o.
Proof using Hm.
  intros [Hs Hw]%body_ok_spec E. eapply run_body_sim; [exact fold_sim|apply fold_inv_init|done| | |exact E].
  - eapply Forall_impl; [exact Hw|]. by intros i [? _]%andb_true_iff.
  - by intros n st e e' m1 m1' [].
Qed.
End Fold.

Lemma fold_step_shape c i :
  exists i', (fold_step c i).2 = [i'] /\ i_result i' = i_result i /\
    (i' = i \/ exists z, i' = make_constant i z).
Proof.
  unfold fold_step. repeat case_match; eexists; (split; [done|]); split; eauto.
Qed.

Lemma fold_ok l : body_ok l = true -> body_ok (run_pass fold_step ∅ l).2 = true.
Proof.
  rewrite !body_ok_spec. intros [Hs Hw]. split.
  - eapply (run_pass_ssa _ (λ _, True) (λ _ _, True)); [|done..|by apply Forall_true].
    intros n st i _ Hi _. split; [done|]. intros rest Hr.
    destruct (fold_step_shape st i) as (i' & -> & Hres & Hi'). cbn [app].
    destruct Hi' as [->|[z ->]]; [by apply ssa_cons|]. apply ssa_cons. split.
    + apply andb_true_iff. split; [done|]. by apply andb_true_iff in Hi as [_ Hi].
    + apply (ssa_mono (next_id n i)); [|done]. apply next_id_shrink; [done|done|constructor].
  - eapply (run_pass_Forall _ (λ _, True)); [|done|done].
    intros st i _ Hi. split; [done|]. destruct (fold_step_shape st i) as (i' & -> & _ & [->|[z ->]]);
      constructor; try done.
    apply andb_true_iff. split; [|done]. unfold const_imm_ok. cbn.
    destruct (decide (i_type i = I1)) as [->|Hne]; [|by rewrite bool_decide_false by naive_solver].
    rewrite (normalize_wrap z I1) by done. pose proof (wrap_range I1 z eq_refl). cbn in *.
    assert (wrap I1 z = 0 \/ wrap I1 z = 1) as [-> | ->] by lia; [|done].
    by rewrite orb_true_r.
Qed.
