(* ===== verification/Dce.v ===== *)
(** * Dead-code elimination
    ([eliminate_dead_code], src/cpu/optimizer/passes/redundancy_elimination.cpp)

    Use counts over the block, then a backward walk that drops every pure
    instruction whose result is unused and releases its operands. *)

From S2P Require Import Prelude.
From S2P Require Import Words.
From S2P Require Import CpuState.
From S2P Require Import Ir.
From S2P Require Import IrValue.
From S2P Require Import Services.
From S2P Require Import IrSem.
From S2P Require Import IrRefine.
From S2P Require Import PassSim.
From S2P Require Import Aliases.

Abbreviation Uses := (list nat).

(** [arg != kNoValue && arg < uses.size()] *)
Definition counted (u : Uses) (a : Z) : bool :=
  negb (a =? kNoValue) && (a <? Z.of_nat (length u)).

Definition bump (u : Uses) (a : Z) : Uses :=
  if counted u a then <[Z.to_nat a := S (u !!! Z.to_nat a)]> u else u.

(** [if (uses[arg]) --uses[arg]] *)
Definition release (u : Uses) (a : Z) : Uses :=
  if counted u a then <[Z.to_nat a := pred (u !!! Z.to_nat a)]> u else u.

Definition count_uses (u : Uses) (l : list Instruction) : Uses :=
  foldl (λ u i, foldl bump u (i_args i)) u l.

Definition removable (u : Uses) (i : Instruction) : bool :=
  if (i_result i =? kNoValue) || (Z.of_nat (length u) <=? i_result i) then false
  else if negb (u !!! Z.to_nat (i_result i) =? 0)%nat then false
  else is_pure (i_op i).

(** The loop [for (index = size; index-- > 0;)], last instruction first. *)
Fixpoint dce_loop (l : list Instruction) (u : Uses) : list Instruction * Uses :=
  match l with
  | [] => ([], u)
  | i :: l =>
      let '(kept, u) := dce_loop l u in
      if removable u i then (kept, foldl release u (i_args i)) else (i :: kept, u)
  end.

Definition dce (l : list Instruction) : list Instruction :=
  match l with
  | [] => []
  | _ =>
      let uses := replicate (Z.to_nat (max_value_id l + 1)) 0%nat in
      (dce_loop l (count_uses uses l)).1
  end.

Definition eliminate_dead_code (b : Block) : Block :=
  set_instructions (dce (b_instructions b)) b.

(** ** Use counts *)

Definition occ (v : Z) (args : list Z) : nat := length (filter (v =.) args).
Definition uses_of (v : Z) (l : list Instruction) : nat :=
  sum_list (occ v ∘ i_args <$> l).

Lemma occ_cons v a args : occ v (a :: args) = ((if decide (v = a) then 1 else 0) + occ v args)%nat.
Proof. unfold occ. rewrite filter_cons. by case_decide. Qed.

Lemma uses_of_cons v i l : uses_of v (i :: l) = (occ v (i_args i) + uses_of v l)%nat.
Proof. done. Qed.

#[local] Arguments occ : simpl never.
#[local] Arguments uses_of : simpl never.

Lemma occ_zero v args : occ v args = 0%nat -> v ∉ args.
Proof.
  induction args as [|a args IH]; [by intros _ ?%not_elem_of_nil|]. rewrite occ_cons.
  intros Hz. apply not_elem_of_cons. case_decide; [lia|]. split; [done|]. apply IH. lia.
Qed.

Lemma length_bump u a : length (bump u a) = length u.
Proof. unfold bump. case_match; [apply length_insert|done]. Qed.
Lemma length_release u a : length (release u a) = length u.
Proof. unfold release. case_match; [apply length_insert|done]. Qed.
Lemma length_foldl_bump args u : length (foldl bump u args) = length u.
Proof. revert u. induction args as [|a args IH]; intros u; [done|]. cbn. by rewrite IH, length_bump. Qed.
Lemma length_foldl_release args u : length (foldl release u args) = length u.
Proof.
  revert u. induction args as [|a args IH]; intros u; [done|]. cbn. by rewrite IH, length_release.
Qed.

Section Counts.
Context (v : Z) (Hv : 0 <= v) (Hk : v <> kNoValue).

Lemma bump_lookup u a :
  0 <= a -> v < Z.of_nat (length u) ->
  bump u a !!! Z.to_nat v = ((if decide (v = a) then 1 else 0) + u !!! Z.to_nat v)%nat.
Proof using Hv Hk.
  intros Ha Hl. unfold bump, counted. destruct (decide (v = a)) as [<-|Hne].
  - destruct (Z.eqb_spec v kNoValue); [done|]. destruct (Z.ltb_spec v (Z.of_nat (length u))); [|lia].
    cbn. rewrite list_lookup_total_insert_eq by lia. done.
  - case_match; [|done]. by rewrite list_lookup_total_insert_ne by lia.
Qed.

Lemma release_lookup u a :
  0 <= a -> v < Z.of_nat (length u) ->
  release u a !!! Z.to_nat v = (u !!! Z.to_nat v - (if decide (v = a) then 1 else 0))%nat.
Proof using Hv Hk.
  intros Ha Hl. unfold release, counted. destruct (decide (v = a)) as [<-|Hne].
  - destruct (Z.eqb_spec v kNoValue); [done|]. destruct (Z.ltb_spec v (Z.of_nat (length u))); [|lia].
    cbn. rewrite list_lookup_total_insert_eq by lia. lia.
  - case_match; [|lia]. rewrite list_lookup_total_insert_ne by lia. lia.
Qed.

Lemma bumps_lookup args u :
  Forall (λ a, 0 <= a) args -> v < Z.of_nat (length u) ->
  foldl bump u args !!! Z.to_nat v = (occ v args + u !!! Z.to_nat v)%nat.
Proof using Hv Hk.
  intros Ha. revert u. induction Ha as [|a args Ha Hargs IH]; intros u Hl; [done|].
  rewrite occ_cons. cbn [foldl].
  rewrite IH by (by rewrite length_bump). rewrite bump_lookup by done. lia.
Qed.

Lemma releases_lookup args u :
  Forall (λ a, 0 <= a) args -> v < Z.of_nat (length u) ->
  foldl release u args !!! Z.to_nat v = (u !!! Z.to_nat v - occ v args)%nat.
Proof using Hv Hk.
  intros Ha. revert u. induction Ha as [|a args Ha Hargs IH]; intros u Hl; [cbn; unfold occ; cbn; lia|].
  rewrite occ_cons. cbn [foldl].
  rewrite IH by (by rewrite length_release). rewrite release_lookup by done. lia.
Qed.

Lemma count_uses_lookup l u :
  Forall (λ i, Forall (λ a, 0 <= a) (i_args i)) l -> v < Z.of_nat (length u) ->
  count_uses u l !!! Z.to_nat v = (uses_of v l + u !!! Z.to_nat v)%nat.
Proof using Hv Hk.
  intros Hl. revert u. induction Hl as [|i l Hi Hl IH]; intros u Hlen; [done|].
  rewrite uses_of_cons. change (count_uses u (i :: l)) with (count_uses (foldl bump u (i_args i)) l).
  rewrite IH by (by rewrite length_foldl_bump). rewrite bumps_lookup by done. lia.
Qed.

(** The counts the loop maintains: uses in the prefix still to visit ([k]) and
    in the instructions kept so far. *)
Lemma dce_loop_counts l u k :
  Forall (λ i, Forall (λ a, 0 <= a) (i_args i)) l -> v < Z.of_nat (length u) ->
  u !!! Z.to_nat v = (k + uses_of v l)%nat ->
  length (dce_loop l u).2 = length u /\
  (dce_loop l u).2 !!! Z.to_nat v = (k + uses_of v (dce_loop l u).1)%nat.
Proof using Hv Hk.
  intros Hl. revert k. induction Hl as [|i l Hi Hl IH]; intros k Hlen Hu; [done|]. cbn.
  rewrite uses_of_cons in Hu. destruct (IH (k + occ v (i_args i))%nat Hlen) as [Hlen' Hc]; [lia|].
  destruct (dce_loop l u) as [kept u']. cbn in *. destruct (removable u' i); cbn.
  - rewrite length_foldl_release. split; [done|].
    rewrite releases_lookup by (done || congruence). lia.
  - split; [done|]. rewrite uses_of_cons. lia.
Qed.
End Counts.

Lemma length_count_uses l u : length (count_uses u l) = length u.
Proof.
  revert u. induction l as [|i l IH]; intros u; [done|].
  change (count_uses u (i :: l)) with (count_uses (foldl bump u (i_args i)) l).
  by rewrite IH, length_foldl_bump.
Qed.

Lemma ssa_nonneg n l :
  0 <= n -> ssa n l = true ->
  Forall (λ i, Forall (λ a, 0 <= a) (i_args i)) l /\
  Forall (λ i, i_result i = kNoValue \/ 0 <= i_result i) l.
Proof.
  revert n. induction l as [|i l IH]; intros n Hn Hs; [done|]. apply ssa_cons in Hs as [Hi Hs].
  pose proof (next_id_ge n i Hi) as Hge. destruct (IH _ (Z.le_trans _ _ _ Hn Hge) Hs) as [IHa IHr].
  split; constructor.
  - eapply Forall_impl; [by eapply (inst_ok_args n)|]. intros a Ha. apply Ha.
  - done.
  - destruct (Z.eq_dec (i_result i) kNoValue) as [|Hne]; [by left|].
    pose proof (inst_ok_result n i Hi Hne). right. lia.
  - done.
Qed.

(** ** What is kept *)

Lemma dce_loop_sublist l u : (dce_loop l u).1 `sublist_of` l.
Proof.
  induction l as [|i l IH]; [done|]. cbn. destruct (dce_loop l u) as [kept u']. cbn in *.
  case_match; by constructor.
Qed.

Lemma dce_sublist l : dce l `sublist_of` l.
Proof. destruct l; [done|]. apply dce_loop_sublist. Qed.

Lemma ssa_sublist l l' n : l' `sublist_of` l -> ssa n l = true -> ssa n l' = true.
Proof.
  intros Hs. revert n. induction Hs as [|i l1 l2 _ IH|i l1 l2 _ IH]; intros n; [done|..].
  - rewrite !ssa_cons. intros [Hi Hl]. split; [done|by apply IH].
  - rewrite ssa_cons. intros [Hi Hl]. apply (ssa_mono (next_id n i)); [by apply next_id_ge|].
    by apply IH.
Qed.

Lemma dce_ok l : body_ok l = true -> body_ok (dce l) = true.
Proof.
  rewrite !body_ok_spec. intros [Hs Hf]. split; [by eapply ssa_sublist, Hs; apply dce_sublist|].
  rewrite !Forall_forall in *. intros i Hi. apply Hf.
  eapply elem_of_submseteq; [exact Hi|]. apply sublist_submseteq, dce_sublist.
Qed.

(** ** Correctness *)

Section Dce.
Context {W : Type} `{MemoryPort W, RuntimeServices W, HostHelpers W}.
Context (fuel : nat) (mode : Mode).

(** The environments agree on what the instructions use. *)
Definition agree_on (l : list Instruction) (e e' : Env) : Prop :=
  Forall (λ i, Forall (λ a, e' !! a = e !! a) (i_args i)) l.

Lemma agree_args (e e' : Env) args :
  Forall (λ a, e' !! a = e !! a) args -> mapM (e' !!.) args = mapM (e !!.) args.
Proof. induction 1 as [|a args Ha _ IH]; [done|]. cbn. by rewrite Ha, IH. Qed.

Lemma agree_insert l e e' r x :
  agree_on l e e' -> agree_on l (<[r := x]> e) (<[r := x]> e').
Proof.
  intros Ha. eapply Forall_impl; [exact Ha|]. intros i Hi. cbn in Hi.
  eapply Forall_impl; [exact Hi|]. intros a Heq. cbn in Heq.
  destruct (decide (a = r)) as [->|]; [by rewrite !lookup_insert_eq|].
  by rewrite !lookup_insert_ne.
Qed.

Lemma agree_skip l (e e' : Env) r x :
  uses_of r l = 0%nat -> agree_on l e e' -> agree_on l (<[r := x]> e) e'.
Proof.
  intros Hz Ha. induction Ha as [|i l Hi Hl IH]; [constructor|]. rewrite uses_of_cons in Hz.
  constructor; [|apply IH; lia]. assert (Hocc : r ∉ i_args i) by (apply occ_zero; lia).
  rewrite Forall_forall in *. intros a Hin. rewrite lookup_insert_ne by (by intros ->).
  by apply Hi.
Qed.

Lemma dce_loop_sim l u e e' m r :
  Forall (λ i, Forall (λ a, 0 <= a) (i_args i)) l ->
  Forall (λ i, i_result i = kNoValue \/ 0 <= i_result i) l ->
  (forall v, 0 <= v < Z.of_nat (length u) -> v <> kNoValue ->
     (uses_of v l <= u !!! Z.to_nat v)%nat) ->
  agree_on (dce_loop l u).1 e e' -> exec_list (W := W) fuel mode l e m = Some r ->
  exists r', exec_list fuel mode (dce_loop l u).1 e' m = Some r' /\ outcome r' = outcome r.
Proof.
  intros Hargs Hres. revert e e' m r. induction Hargs as [|i l Hi Hl IH]; intros e e' m r Hu Hag E.
  { cbn in *. simplify_eq. by eexists. }
  apply Forall_cons in Hres as [Hri Hrl].
  assert (Hu' : forall v, 0 <= v < Z.of_nat (length u) -> v <> kNoValue ->
     (uses_of v l <= u !!! Z.to_nat v)%nat).
  { intros v Hv Hk. specialize (Hu v Hv Hk). rewrite uses_of_cons in Hu. lia. }
  assert (Hcnt : forall v, 0 <= v < Z.of_nat (length u) -> v <> kNoValue ->
     (uses_of v (dce_loop l u).1 <= (dce_loop l u).2 !!! Z.to_nat v)%nat /\
     length (dce_loop l u).2 = length u).
  { intros v Hv Hk. specialize (Hu' v Hv Hk).
    destruct (dce_loop_counts v ltac:(lia) Hk l u (u !!! Z.to_nat v - uses_of v l) Hl)
      as [Hlen Hc]; [lia|lia|]. split; [lia|done]. }
  cbn in E, Hag |- *. destruct (exec_one fuel mode i e m) as [r1|] eqn:E1; [|done]. cbn in E.
  destruct (dce_loop l u) as [kept u1] eqn:Ed. cbn [fst snd] in *.
  destruct (removable u1 i) eqn:Erm; cbn [fst] in *.
  - (* dropped: pure and unused *)
    unfold removable in Erm. destruct (_ || _) eqn:Eb; [discriminate Erm|].
    apply orb_false_iff in Eb as [Hk%Z.eqb_neq Hsz%Z.leb_gt].
    destruct (_ =? 0)%nat eqn:Hz; [|discriminate Erm]. apply Nat.eqb_eq in Hz. cbn in Erm.
    rename Erm into Hp.
    destruct (exec_one_pure _ _ _ _ _ _ Hp E1) as (args & x & _ & _ & _ & ->).
    destruct Hri as [?|Hri]; [done|].
    assert (Hlen : length u1 = length u).
    { assert (Hv0 : (0 < length u1)%nat) by lia.
      destruct (decide (0 < length u)%nat) as [Hl0|Hl0].
      - by destruct (Hcnt 0 ltac:(lia) ltac:(done)).
      - exfalso. assert (length u1 = length u); [|lia].
        replace u1 with (dce_loop l u).2 by (by rewrite Ed). clear. revert u.
        induction l as [|j l IHl]; intros u; [done|]. cbn.
        specialize (IHl u). destruct (dce_loop l u). cbn in *. case_match; cbn; [|done].
        by rewrite length_foldl_release. }
    destruct (Hcnt (i_result i)) as [Hc _]; [lia|done|].
    apply (IH Hrl (<[i_result i := x]> e) e' m r); [done..| |done].
    apply agree_skip; [lia|done].
  - apply Forall_cons in Hag as [Hagi Hagl]. cbn.
    assert (E1' : exists r1', exec_one fuel mode i e' m = Some r1' /\
      match r1 with
      | Continue e1 m1 => exists e1', r1' = Continue e1' m1 /\ agree_on kept e1 e1'
      | Leave x s w => r1' = Leave x s w
      end).
    { destruct (exec_one_inv _ _ _ _ _ _ E1) as (args & st & Ha & Hs & Hr).
      pose proof (eq_trans (agree_args _ _ _ Hagi) Ha) as Ha'.
      rewrite (exec_one_intro _ _ _ _ _ _ _ Ha' Hs).
      destruct st as [x s w|x s w]; [|by exists r1; subst r1].
      destruct Hr as (e1 & Hb & ->). unfold bind_result in *.
      destruct x as [x|], (i_result i =? kNoValue); simplify_eq; cbn;
        eexists; (split; [done|]); eexists; (split; [done|]); [by apply agree_insert|done]. }
    destruct E1' as (r1' & -> & Hr1). cbn. destruct r1 as [e1 m1|x s w].
    + destruct Hr1 as (e1' & -> & Hag'). by apply (IH Hrl e1 e1' m1 r).
    + subst r1'. simplify_eq. by eexists.
Qed.

(** A block and its live part run alike. *)
Lemma dce_run l m o :
  body_ok l = true -> run_body (W := W) fuel mode l m = Some o ->
  run_body fuel mode (dce l) m = Some o.
Proof.
  intros [Hssa _]%body_ok_spec E. unfold run_body in *.
  destruct (exec_list fuel mode l ∅ m) as [r|] eqn:Er; [|done]. cbn in E. simplify_eq.
  destruct (ssa_nonneg 0 _ (Z.le_refl 0) Hssa) as [Hargs Hres].
  destruct l as [|i0 l0]; [cbn in *; by simplify_eq|].
  unfold dce. set (l := i0 :: l0) in *.
  set (u := replicate (Z.to_nat (max_value_id l + 1)) 0%nat).
  destruct (dce_loop_sim l (count_uses u l) ∅ ∅ m r Hargs Hres) as (r' & -> & Ho);
    [| |done|by cbn; f_equal].
  - intros v Hv Hk. rewrite length_count_uses in Hv.
    rewrite count_uses_lookup by (done || lia). lia.
  - apply Forall_forall. intros i _. by apply Forall_forall.
Qed.
End Dce.
