(* ===== verification/Cse.v ===== *)
(** * Common-subexpression elimination
    ([eliminate_common_subexpressions],
    src/cpu/optimizer/passes/redundancy_elimination.cpp)

    A pure instruction whose key (operation, type, resolved operands,
    immediates) was seen before is dropped and its result aliased to the earlier
    value. *)

From S2P Require Import Prelude.
From S2P Require Import Words.
From S2P Require Import Instr.
From S2P Require Import Catalog.
From S2P Require Import Decoder.
From S2P Require Import CpuState.
From S2P Require Import AotScalar.
From S2P Require Import Ir.
From S2P Require Import IrValue.
From S2P Require Import Services.
From S2P Require Import IrSem.
From S2P Require Import IrRefine.
From S2P Require Import PassSim.
From S2P Require Import Aliases.
From S2P Require Import AliasPass.

Definition commutative (op : Op.t) : bool :=
  match op with
  | Op.Add | Op.Mul | Op.And | Op.Or | Op.Xor | Op.CompareEq | Op.CompareNe => true
  | _ => false
  end.

(** [ExpressionKey]: op, type, args, imm0, imm1; enumerators by their code. *)
Abbreviation ExpressionKey := (Z * Z * list Z * Z * Z)%type.

Definition ordered_args (op : Op.t) (args : list Z) : list Z :=
  match args with
  | [a; b] => if commutative op && (b <? a) then [b; a] else args
  | _ => args
  end.

Definition expression_key (i : Instruction) : ExpressionKey :=
  (op_code (i_op i), type_code (i_type i), ordered_args (i_op i) (i_args i), i_imm0 i, i_imm1 i).

Record CseState : Type := mkCse {
  cs_aliases : Aliases;
  cs_expressions : gmap ExpressionKey Z
}.

Definition cse_step (st : CseState) (i0 : Instruction) : CseState * list Instruction :=
  let al := cs_aliases st in
  let i := set_args (resolve_plain al <$> i_args i0) i0 in
  if negb (i_result i =? kNoValue) && (effects (i_op i) =? Effect.None) then
    let key := expression_key i in
    match cs_expressions st !! key with
    | Some v =>
        (mkCse (<[Z.to_nat (i_result i) := resolve_plain al v]> al) (cs_expressions st), [])
    | None => (mkCse al (<[key := i_result i]> (cs_expressions st)), [i])
    end
  else (st, [i]).

Definition cse (l : list Instruction) : list Instruction :=
  match l with
  | [] => []
  | _ =>
      let '(st, out) := run_pass cse_step (mkCse (init_aliases (max_value_id l)) ∅) l in
      rename (resolve_plain (cs_aliases st)) out
  end.

Definition eliminate_common_subexpressions (b : Block) : Block :=
  set_instructions (cse (b_instructions b)) b.

(** ** Keys determine values *)

Lemma catalog_patterns_distinct : NoDup (oi_pattern <$> kCatalog).
Proof. apply (bool_decide_unpack _). by vm_compute. Qed.

(** The shift intrinsics read the guest opcode, which is not part of the key; its
    pattern is. *)
Lemma shift_pattern_mnemonic i j :
  i_imm0 i = i_imm0 j -> shift_metadata_ok i = true -> shift_metadata_ok j = true ->
  guest_mnemonic i = guest_mnemonic j.
Proof.
  unfold shift_metadata_ok, guest_mnemonic, opcode_info. intros Himm.
  destruct (opcode_valid (i_guest_opcode i)); [|done].
  destruct (opcode_valid (i_guest_opcode j)); [|done].
  destruct (List.find _ kCatalog) as [a|] eqn:Ea; [|done].
  destruct (List.find (λ op, oi_id op =? i_guest_opcode j) kCatalog) as [b|] eqn:Eb; [|done].
  intros Ha%Z.eqb_eq Hb%Z.eqb_eq.
  apply find_some, proj1, list_elem_of_In, list_elem_of_lookup in Ea as [x Ea].
  apply find_some, proj1, list_elem_of_In, list_elem_of_lookup in Eb as [y Eb].
  assert (x = y) as ->; [|by simplify_eq].
  eapply NoDup_lookup; [exact catalog_patterns_distinct|..]; rewrite list_lookup_fmap.
  - rewrite Ea. reflexivity.
  - rewrite Eb. cbn. congruence.
Qed.

Lemma type_code_inj a b : type_code a = type_code b -> a = b.
Proof. by destruct a, b. Qed.

Section KeyEval.
Context `{HostFloat} (mode : Mode).

Lemma eval_pure_comm i a b :
  commutative (i_op i) = true -> eval_pure mode i [a; b] = eval_pure mode i [b; a].
Proof.
  unfold eval_pure. destruct (i_op i); try done; intros _.
  - apply arith_comm, Z.add_comm.
  - apply arith_comm, Z.mul_comm.
  - apply bitwise_comm, Z.land_comm.
  - apply bitwise_comm, Z.lor_comm.
  - apply bitwise_comm, Z.lxor_comm.
  - apply compare_comm. intros. apply Z.eqb_sym.
  - apply compare_comm. intros. by rewrite Z.eqb_sym.
Qed.

(** Evaluating with the operands in key order gives the same value. *)
Lemma eval_ordered i (e : Env) args :
  mapM (e !!.) (i_args i) = Some args ->
  exists args', mapM (e !!.) (ordered_args (i_op i) (i_args i)) = Some args' /\
    eval_pure mode i args' = eval_pure mode i args.
Proof.
  intros Hm. unfold ordered_args. destruct (i_args i) as [|a [|b [|]]]; try by exists args.
  destruct (commutative (i_op i)) eqn:Hc; cbn [andb]; [|by exists args].
  destruct (b <? a); [|by exists args]. 
  apply mapM_Some in Hm. inversion Hm as [|? x ? ? Hx Hm']; subst.
  inversion Hm' as [|? y ? ? Hy Hm'']; subst. inversion Hm''; subst.
  exists [y; x]. split; [apply mapM_Some; by repeat constructor|]. by rewrite eval_pure_comm.
Qed.

Lemma eval_pure_fields i j args v v' :
  i_op i = i_op j -> i_type i = i_type j -> i_imm0 i = i_imm0 j -> i_imm1 i = i_imm1 j ->
  eval_pure mode i args = Some v -> eval_pure mode j args = Some v' -> v = v'.
Proof.
  destruct i as [op t r ar im0 im1 ga gw go], j as [op' t' r' ar' im0' im1' ga' gw' go'].
  cbn [i_op i_type i_imm0 i_imm1]. intros <- <- <- <-.
  pose proof (shift_pattern_mnemonic (mkInstr op t r ar im0 im1 ga gw go)
    (mkInstr op t r' ar' im0 im1 ga' gw' go') eq_refl) as Hsh.
  destruct (decide (op = Op.PpcShift \/ op = Op.PpcShiftCarry)) as [[->| ->]|Hno].
  1,2: unfold eval_pure, typed; cbn [i_op i_type]; destruct args as [|a [|b [|]]]; try done;
    do 2 (destruct (shift_metadata_ok _); [|done]); rewrite Hsh by done; congruence.
  intros H1 H2. assert (Heq : eval_pure mode (mkInstr op t r ar im0 im1 ga gw go) args =
    eval_pure mode (mkInstr op t r' ar' im0 im1 ga' gw' go') args); [|congruence].
  clear H1 H2. destruct op; try reflexivity; exfalso; apply Hno; auto.
Qed.

Lemma key_eval i j (e : Env) args args' v v' :
  expression_key i = expression_key j ->
  mapM (e !!.) (i_args i) = Some args -> mapM (e !!.) (i_args j) = Some args' ->
  eval_pure mode i args = Some v -> eval_pure mode j args' = Some v' -> v = v'.
Proof.
  intros [= Hop%op_code_inj Ht%type_code_inj Ho H0 H1] Hi Hj Ev Ev'.
  destruct (eval_ordered i e args Hi) as (x & Hx & Ex).
  destruct (eval_ordered j e args' Hj) as (y & Hy & Ey).
  rewrite Ho in Hx. assert (x = y) as -> by congruence.
  eapply eval_pure_fields; [done..|by rewrite Ex|by rewrite Ey].
Qed.
End KeyEval.

(** ** Correctness *)

Section Cse.
Context {W : Type} `{MemoryPort W, RuntimeServices W, HostHelpers W}.
Context (fuel : nat) (ms mt : Mode) (Hmode : mode_le ms mt) (size : Z).

Definition cse_index_ok (i : Instruction) : Prop :=
  i_result i <> kNoValue -> i_result i < size.

Record cse_static (n : Z) (st : CseState) : Prop := mkCseStatic {
  css_nonneg : 0 <= n;
  css_size : Z.of_nat (length (cs_aliases st)) = size;
  css_ok : alias_ok n (cs_aliases st);
  css_expr : forall key v, cs_expressions st !! key = Some v -> 0 <= v < n
}.

(** Every remembered expression is the value of a kept instruction. *)
Definition expressions_ok (st : CseState) (e' : Env) : Prop :=
  forall key v, cs_expressions st !! key = Some v ->
    exists i args x, expression_key i = key /\ mapM (e' !!.) (i_args i) = Some args /\
      eval_pure mt i args = Some x /\ e' !! v = Some x.

Record cse_inv (n : Z) (st : CseState) (e e' : Env) (m m' : Machine W) : Prop := mkCseInv {
  csi_machine : m' = m;
  csi_static : cse_static n st;
  csi_alias : alias_inv n (cs_aliases st) e e';
  csi_expr : expressions_ok st e'
}.

Lemma resolve_plain_args n al i :
  alias_ok n al -> inst_ok n i = true ->
  resolve_plain al <$> i_args i = find al <$> i_args i.
Proof.
  intros Hok Hi. apply list_fmap_ext_in. eapply Forall_impl; [by eapply inst_ok_args|].
  intros a Ha. by eapply resolve_plain_spec.
Qed.

Lemma cse_alias_eq al r t :
  0 <= r -> r <> kNoValue -> r < Z.of_nat (length al) ->
  <[Z.to_nat r := t]> al = assign_alias al r t.
Proof.
  intros. unfold assign_alias. destruct (Z.eqb_spec r kNoValue); [done|].
  by destruct (Z.ltb_spec r (Z.of_nat (length al))); [|lia].
Qed.

Lemma cse_step_static : alias_step cse_step cs_aliases cse_index_ok cse_static.
Proof using Type.
  intros n st i [Hn Hsz Hok Hex] Hi Hidx. unfold cse_step. cbn [i_result i_op set_args].
  rewrite (resolve_plain_args n) by done.
  pose proof (next_id_ge n i Hi) as Hge.
  pose proof (resolved_args_shrink n _ i Hok Hi) as Hargs.
  assert (Hroot : i_result i <> kNoValue -> find (cs_aliases st) (i_result i) = i_result i).
  { intros Hne. pose proof (inst_ok_result n i Hi Hne). apply (find_above n); [done|lia..]. }
  assert (Hok' : alias_ok (next_id n i) (cs_aliases st)) by (by eapply alias_ok_mono).
  destruct (Z.eqb_spec (i_result i) kNoValue) as [Hv|Hne]; cbn [negb andb].
  { split_and!; [split; [lia|done|done|]|done|].
    - intros k v Hk. specialize (Hex k v Hk). lia.
    - right. eexists. split_and!; [done..|]. done. }
  pose proof (inst_ok_result n i Hi Hne) as Hr. specialize (Hidx Hne).
  destruct (_ =? Effect.None).
  2:{ split_and!; [split; [lia|done|done|]|done|].
    - intros k v Hk. specialize (Hex k v Hk). lia.
    - right. eexists. split_and!; [done..|]. done. }
  destruct (cs_expressions st !! _) as [v|] eqn:Ev; cbn [fst snd cs_aliases cs_expressions].
  - pose proof (Hex _ _ Ev) as Hv. rewrite (resolve_plain_spec n) by (done || lia).
    pose proof (find_range n _ Hok v ltac:(lia)).
    destruct (assign_alias_spec n (cs_aliases st) (i_result i) (find (cs_aliases st) v))
      as (Hlen & Hok2 & _ & Hother); [done|lia..|eapply find_idem; [done|lia]|].
    rewrite cse_alias_eq by (done || lia).
    split_and!; [split; cbn; [lia|lia| |]| |by left].
    + by rewrite next_id_result.
    + intros k v' Hk. specialize (Hex k v' Hk). lia.
    + intros u Hu. by rewrite Hother by lia.
  - split_and!; [split; cbn; [lia|lia|done|]|done|].
    + rewrite next_id_result by done. intros k v Hk. apply lookup_insert_Some in Hk as [[_ <-]|[_ Hk]].
      * lia.
      * specialize (Hex k v Hk). lia.
    + right. eexists. split_and!; [done..|]. done.
Qed.

Lemma expressions_ok_mono st e' e1' r :
  env_ok r e' -> (forall v, v <> r -> e1' !! v = e' !! v) ->
  expressions_ok st e' -> expressions_ok st e1'.
Proof.
  intros He Hext Hex key v Hk. destruct (Hex key v Hk) as (i & args & x & Hkey & Ha & Hv & Hx).
  assert (Hm : forall w y, e' !! w = Some y -> e1' !! w = Some y).
  { intros w y Hw. rewrite Hext; [done|]. intros ->. pose proof (He _ _ Hw). lia. }
  exists i, args, x. split_and!; [done| |done|by apply Hm].
  apply mapM_Some. apply mapM_Some in Ha. eapply Forall2_impl; [exact Ha|]. intros; by apply Hm.
Qed.

Lemma cse_sim : sim_step (W := W) fuel ms mt cse_step cse_index_ok cse_inv.
Proof using Hmode.
  intros n st e e' m m' i r [-> Hst Hal Hex] Hi Hidx E.
  destruct (cse_step_static n st i Hst Hi Hidx) as (Hst' & _ & _). revert Hst'.
  pose proof (css_nonneg _ _ Hst) as Hn. pose proof (css_size _ _ Hst) as Hsz.
  destruct (alias_inv_keep fuel ms mt n _ e e' i m r Hmode Hal Hi E) as (r' & E' & Hsim).
  unfold cse_step. cbn [i_result i_op set_args].
  rewrite (resolve_plain_args n) by (done || apply Hst).
  set (i' := set_args (find (cs_aliases st) <$> i_args i) i) in *.
  assert (Hle : n <= i_result i).
  { pose proof (ai_bound _ _ _ _ Hal). destruct (Z.eq_dec (i_result i) kNoValue) as [He|Hne];
      [rewrite He; lia|]. pose proof (inst_ok_result n i Hi Hne). lia. }
  assert (Henv : env_ok (i_result i) e') by (eapply env_ok_mono; [exact Hle|by eapply ai_tgt]).
  assert (Hkeep : forall st', cs_aliases st' = cs_aliases st -> cse_static (next_id n i) st' ->
    (forall e1' m1', r' = Continue e1' m1' -> expressions_ok st' e1') ->
    exists r2, exec_list fuel mt [i'] e' m = Some r2 /\
      sim_result (cse_inv (next_id n i) st') r r2).
  { intros st' Heq Hst' Hx'. rewrite exec_list_one. exists r'. split; [done|].
    destruct r as [e1 m1|], r' as [e1' m1'|]; try done. destruct Hsim as (-> & Ha & _).
    split; [done|done|by rewrite Heq|by eapply Hx']. }
  assert (Hsame : forall e1' m1', r' = Continue e1' m1' -> expressions_ok st e1').
  { intros e1' m1' ->. destruct r as [e1 m1|]; [|done]. destruct Hsim as (_ & _ & Hext).
    by eapply expressions_ok_mono. }
  destruct (negb (i_result i =? kNoValue) && (effects (i_op i) =? Effect.None)) eqn:Hc;
    [|intros Hst'; by apply Hkeep].
  apply andb_true_iff in Hc as [Hne Hp]. apply negb_true_iff, Z.eqb_neq in Hne.
  pose proof (inst_ok_result n i Hi Hne) as Hr. specialize (Hidx Hne).
  assert (Hp' : is_pure (i_op i') = true) by done.
  (* the kept instruction evaluates in the target *)
  destruct (exec_one_pure _ _ _ _ _ _ Hp E) as (args & v & Ha & Hv & _ & ->).
  destruct r' as [e1' m1'|]; [|done]. destruct Hsim as (-> & Hal' & Hext).
  destruct (exec_one_pure _ _ _ _ _ _ Hp' E') as (args' & v' & Ha' & Hv' & _ & [= ->]).
  destruct (cs_expressions st !! expression_key i') as [w|] eqn:Ew; intros Hst'.
  - (* seen before *)
    cbn [fst snd]. exists (Continue e' m). split; [done|].
    destruct (Hex _ _ Ew) as (j & args2 & x & Hkey & Ha2 & Hv2 & Hx).
    assert (x = v') as -> by (by eapply (key_eval mt j i' e')).
    destruct (ai_tgt _ _ _ _ Hal w v' Hx) as [Hwn _].
    pose proof (ai_root _ _ _ _ Hal w v' Hx) as Hroot.
    rewrite (resolve_plain_spec n), Hroot by (apply Hst || lia).
    rewrite (resolve_plain_spec n), Hroot in Hst' by (apply Hst || lia).
    rewrite cse_alias_eq by (done || lia). rewrite cse_alias_eq in Hst' by (done || lia).
    assert (Href : vref v v').
    { destruct (ai_rel _ _ _ _ Hal' (i_result i) v) as (y & Hy & Hvy); [apply lookup_insert_eq|].
      rewrite (find_above n) in Hy by (apply Hst || lia). cbn in Hy.
      rewrite lookup_insert_eq in Hy. by simplify_eq. }
    destruct (alias_inv_drop n (cs_aliases st) e e' (i_result i) v w v') as [Hinv _];
      [done|lia|lia| |done|exact Hx|done|].
    { exists (i_type i). eapply eval_pure_type; [|done].
      exact (mapM_lookup_wf n e _ _ (ai_src _ _ _ _ Hal) Ha). }
    cbn. rewrite next_id_result in * by done. split; [done|done|done|exact Hex].
  - apply Hkeep; [done|done|]. intros e2 m2 [= <- <-] key u Hk. cbn in Hk.
    apply lookup_insert_Some in Hk as [[<- <-]|[_ Hk]].
    + exists i', args', v'. split_and!; [done| |done|apply lookup_insert_eq].
      apply mapM_Some. apply mapM_Some in Ha'. eapply Forall2_impl; [exact Ha'|].
      intros a y Hy. rewrite lookup_insert_ne; [done|]. intros <-. pose proof (Henv _ _ Hy). lia.
    + by eapply Hsame.
Qed.
End Cse.

Section CseRun.
Context {W : Type} `{MemoryPort W, RuntimeServices W, HostHelpers W}.

Lemma cse_static_init l :
  cse_static (Z.of_nat (length (init_aliases (max_value_id l)))) 0
    (mkCse (init_aliases (max_value_id l)) ∅).
Proof.
  split; cbn; [lia|done|apply alias_ok_init|]. intros key v Hk. by rewrite lookup_empty in Hk.
Qed.

(** The block of the source program and the block without its repeated
    expressions run alike. *)
Lemma cse_run fuel ms mt l (m : Machine W) o :
  mode_le ms mt -> body_ok l = true ->
  run_body fuel ms l m = Some o -> run_body fuel mt (cse l) m = Some o.
Proof.
  intros Hmode [Hssa _]%body_ok_spec E.
  destruct l as [|i0 l0]; [done|]. unfold cse. set (l := i0 :: l0) in *.
  set (N := Z.of_nat (length (init_aliases (max_value_id l)))).
  set (st0 := mkCse (init_aliases (max_value_id l)) ∅).
  pose proof (init_aliases_covers l) as Hidx. pose proof (cse_static_init l) as Hst0.
  pose proof (cse_sim fuel ms mt Hmode N) as Hsim.
  assert (HI : cse_inv mt N 0 st0 ∅ ∅ m m).
  { split; [done|done|apply alias_inv_init|]. intros key v Hk. unfold st0 in Hk. cbn in Hk.
    by rewrite lookup_empty in Hk. }
  pose proof (run_body_sim fuel ms mt cse_step _ _ l st0 0 m o Hsim HI Hssa Hidx) as Hrun.
  specialize (Hrun (λ _ _ _ _ _ _ h, csi_machine _ _ _ _ _ _ _ _ h) E).
  destruct (run_pass_inv cse_step (cse_index_ok N) (cse_static N)
    (λ n st i h1 h2 h3, proj1 (cse_step_static N n st i h1 h2 h3)) l 0 st0 Hst0 Hssa Hidx)
    as (n' & Hn' & Hst').
  destruct (alias_pass_roots _ _ _ _ (cse_step_static N) l 0 st0 ltac:(lia) Hst0 Hssa Hidx)
    as [_ Hroots].
  pose proof (alias_pass_args _ _ _ _ (cse_step_static N) l 0 st0 Hst0 Hssa Hidx) as Hargs.
  destruct (run_pass cse_step st0 l) as [st out]. cbn [fst snd] in *.
  rewrite (rename_plain_spec n') by (done || apply Hst').
  unfold run_body in *. destruct (exec_list fuel mt out ∅ m) as [r|] eqn:Er; [|done].
  erewrite exec_list_rename; [exact Hrun| | |exact Er].
  - intros v x Hv. by rewrite lookup_empty in Hv.
  - eapply Forall_impl; [exact Hroots|]. done.
Qed.

Lemma cse_ok l : body_ok l = true -> body_ok (cse l) = true.
Proof using Type.
  rewrite !body_ok_spec. intros [Hssa Hwf]. destruct l as [|i0 l0]; [done|]. unfold cse.
  set (l := i0 :: l0) in *. set (N := Z.of_nat (length (init_aliases (max_value_id l)))).
  set (st0 := mkCse (init_aliases (max_value_id l)) ∅).
  pose proof (init_aliases_covers l) as Hidx. pose proof (cse_static_init l) as Hst0.
  destruct (run_pass_inv cse_step (cse_index_ok N) (cse_static N)
    (λ n st i h1 h2 h3, proj1 (cse_step_static N n st i h1 h2 h3)) l 0 st0 Hst0 Hssa Hidx)
    as (n' & Hn' & Hst').
  pose proof (alias_pass_ssa _ _ _ _ (cse_step_static N) l 0 st0 Hst0 Hssa Hidx) as Hout.
  pose proof (alias_pass_args _ _ _ _ (cse_step_static N) l 0 st0 Hst0 Hssa Hidx) as Hargs.
  assert (Hw : True /\ Forall (λ i, inst_wf i = true) (run_pass cse_step st0 l).2).
  { apply run_pass_Forall with (P := λ _, True); [|done|done]. intros st i _ Hi. split; [done|].
    unfold cse_step. repeat case_match; cbn; repeat constructor; done. }
  destruct Hw as [_ Hw]. destruct (run_pass cse_step st0 l) as [st out]. cbn [fst snd] in *.
  rewrite (rename_plain_spec n') by (done || apply Hst').
  split; [by eapply rename_ssa; [apply Hst'|]|by apply rename_wf].
Qed.
End CseRun.
