(* ===== verification/Simplify.v ===== *)
(** * Value simplification
    ([simplify_values], src/cpu/optimizer/passes/value_simplification.cpp)

    Copies, no-op extensions, extension/truncation pairs, algebraic identities,
    self-comparisons and decided selects. *)

From S2P Require Import Prelude.
From S2P Require Import Words.
From S2P Require Import CpuState.
From S2P Require Import AotScalar.
From S2P Require Import Ir.
From S2P Require Import IrValue.
From S2P Require Import Services.
From S2P Require Import IrSem.
From S2P Require Import IrRefine.
From S2P Require Import PassSim.
From S2P Require Import Aliases.
From S2P Require Import AliasPass.
From S2P Require Import ConstEval.
From S2P Require Import Fold.

Record SimplifyState : Type := mkSimplify {
  sv_aliases : Aliases;
  sv_types : list IrType;
  sv_definitions : list (option Instruction);
  sv_constants : Constants
}.

Definition with_aliases (al : Aliases) (st : SimplifyState) : SimplifyState :=
  mkSimplify al (sv_types st) (sv_definitions st) (sv_constants st).

(** [input < value_types.size() ? value_types[input] : Type::Void] *)
Definition value_type (st : SimplifyState) (v : Z) : IrType :=
  default Void (sv_types st !! Z.to_nat v).

Definition definition (st : SimplifyState) (v : Z) : option Instruction :=
  default None (sv_definitions st !! Z.to_nat v).

Definition is_const (st : SimplifyState) (v : Z) : option Z * SimplifyState :=
  let '(r, al) := resolve (sv_aliases st) v in
  (cv_bits <$> sv_constants st !! r, with_aliases al st).

(** What becomes of an instruction: it is emitted, or its result is an alias. *)
Inductive Rewritten : Type := Keep (i : Instruction) | Alias (v : Z).

Definition is_conversion (op : Op.t) : bool :=
  match op with Op.Bitcast | Op.ZeroExtend | Op.SignExtend | Op.Truncate => true | _ => false end.

Definition is_extension (op : Op.t) : bool :=
  match op with Op.ZeroExtend | Op.SignExtend => true | _ => false end.

Definition simplify_unary (st : SimplifyState) (i : Instruction) (input : Z)
    : Rewritten * SimplifyState :=
  if bool_decide (i_op i = Op.AddImmediate) && (i_imm0 i =? 0) then (Alias input, st)
  else if is_conversion (i_op i) && bool_decide (value_type st input = i_type i) then
    (Alias input, st)
  else if bool_decide (i_op i = Op.Truncate) then
    match definition st input with
    | Some producer =>
        match is_extension (i_op producer), i_args producer with
        | true, [p] =>
            let '(original, al) := resolve (sv_aliases st) p in
            let st := with_aliases al st in
            if bool_decide (value_type st original = i_type i)
            then (Alias original, st) else (Keep i, st)
        | _, _ => (Keep i, st)
        end
    | None => (Keep i, st)
    end
  else (Keep i, st).

Definition const_eqb (c : option Z) (z : Z) : bool := bool_decide (c = Some z).

(** The comparison [a op a], rewritten in place to a constant. *)
Definition make_compare_constant (i : Instruction) : Instruction :=
  mkInstr Op.Constant (i_type i) (i_result i) []
    (if bool_decide (i_op i = Op.CompareEq) then 1 else 0) 0
    (i_guest_address i) (i_guest_word i) (i_guest_opcode i).

Definition simplify_binary (i : Instruction) (a b : Z) (ca cb : option Z) : Rewritten :=
  let width := integer_width (i_type i) in
  let all_ones := if width =? 0 then 0 else width_mask width in
  match i_op i with
  | Op.Add | Op.Or | Op.Xor =>
      if const_eqb cb 0 then Alias a else if const_eqb ca 0 then Alias b else Keep i
  | Op.Sub | Op.Shl | Op.ShrLogical | Op.ShrArithmetic | Op.Rotl =>
      if const_eqb cb 0 then Alias a else Keep i
  | Op.Mul =>
      if const_eqb cb 1 then Alias a else if const_eqb ca 1 then Alias b else Keep i
  | Op.And =>
      if const_eqb cb all_ones then Alias a else if const_eqb ca all_ones then Alias b else Keep i
  | Op.CompareEq | Op.CompareUlt | Op.CompareUgt | Op.CompareSlt | Op.CompareSgt
  | Op.CompareNe => if a =? b then Keep (make_compare_constant i) else Keep i
  | _ => Keep i
  end.

Definition simplify_select (st : SimplifyState) (i : Instruction) (condition yes no : Z)
    : Rewritten * SimplifyState :=
  if yes =? no then (Alias yes, st)
  else
    let '(c, st) := is_const st condition in
    match c with
    | Some value => (Alias (if value =? 0 then no else yes), st)
    | None => (Keep i, st)
    end.

Definition simplify_instruction (st : SimplifyState) (i : Instruction)
    : Rewritten * SimplifyState :=
  match i_args i with
  | [input] => if i_result i =? kNoValue then (Keep i, st) else simplify_unary st i input
  | [a; b] =>
      if i_result i =? kNoValue then (Keep i, st)
      else
        let '(ca, st) := is_const st a in
        let '(cb, st) := is_const st b in
        (simplify_binary i a b ca cb, st)
  | [condition; yes; no] =>
      if bool_decide (i_op i = Op.Select) then simplify_select st i condition yes no
      else (Keep i, st)
  | _ => (Keep i, st)
  end.

(** Bookkeeping for an instruction that stays. *)
Definition record_definition (st : SimplifyState) (i : Instruction) : SimplifyState :=
  let r := i_result i in
  if negb (r =? kNoValue) && (r <? Z.of_nat (length (sv_types st))) then
    mkSimplify (sv_aliases st)
      (<[Z.to_nat r := i_type i]> (sv_types st))
      (<[Z.to_nat r := Some i]> (sv_definitions st))
      (if bool_decide (i_op i = Op.Constant)
       then <[r := mkConst (i_type i) (normalize (i_imm0 i) (i_type i))]> (sv_constants st)
       else sv_constants st)
  else st.

Definition simplify_step (st : SimplifyState) (i0 : Instruction)
    : SimplifyState * list Instruction :=
  let '(args, al) := resolve_args (sv_aliases st) (i_args i0) in
  let '(rw, st) := simplify_instruction (with_aliases al st) (set_args args i0) in
  match rw with
  | Alias v =>
      let '(t, al) := resolve (sv_aliases st) v in
      (with_aliases (assign_alias al (i_result i0) t) st, [])
  | Keep i => (record_definition st i, [i])
  end.

Definition simplify_init (l : list Instruction) : SimplifyState :=
  let maximum := max_value_id l in
  mkSimplify (init_aliases maximum) (replicate (Z.to_nat (maximum + 1)) Void)
    (replicate (Z.to_nat (maximum + 1)) None) ∅.

Definition simplify (l : list Instruction) : list Instruction :=
  match l with
  | [] => []
  | _ =>
      let '(st, out) := run_pass simplify_step (simplify_init l) l in
      resolve_all (sv_aliases st) out
  end.

Definition simplify_values (b : Block) : Block :=
  set_instructions (simplify (b_instructions b)) b.

(** ** The rewrite, with what each value resolves to *)

Definition const_of (st : SimplifyState) (v : Z) : option Z :=
  cv_bits <$> sv_constants st !! find (sv_aliases st) v.

Definition rewrite_of (st : SimplifyState) (i : Instruction) : Rewritten :=
  match i_args i with
  | [input] =>
      if i_result i =? kNoValue then Keep i
      else if bool_decide (i_op i = Op.AddImmediate) && (i_imm0 i =? 0) then Alias input
      else if is_conversion (i_op i) && bool_decide (value_type st input = i_type i) then
        Alias input
      else if bool_decide (i_op i = Op.Truncate) then
        match definition st input with
        | Some producer =>
            match is_extension (i_op producer), i_args producer with
            | true, [p] =>
                let original := find (sv_aliases st) p in
                if bool_decide (value_type st original = i_type i) then Alias original else Keep i
            | _, _ => Keep i
            end
        | None => Keep i
        end
      else Keep i
  | [a; b] =>
      if i_result i =? kNoValue then Keep i
      else simplify_binary i a b (const_of st a) (const_of st b)
  | [c; yes; no] =>
      if bool_decide (i_op i = Op.Select) then
        if yes =? no then Alias yes
        else match const_of st c with
             | Some value => Alias (if value =? 0 then no else yes)
             | None => Keep i
             end
      else Keep i
  | _ => Keep i
  end.

(** Only the compression of the aliases changes. *)
Definition same_but_aliases (n : Z) (st st' : SimplifyState) : Prop :=
  exists al, st' = with_aliases al st /\ alias_equiv n (sv_aliases st) al.

Lemma is_const_spec n st v :
  alias_ok n (sv_aliases st) -> 0 <= v < kNoValue ->
  (is_const st v).1 = const_of st v /\ same_but_aliases n st (is_const st v).2.
Proof.
  intros Hok Hv. unfold is_const, const_of. destruct (resolve_spec n _ _ Hok Hv) as [Hr He].
  destruct (resolve (sv_aliases st) v) as [r al]. cbn in *. subst r. split; [done|]. by exists al.
Qed.

Lemma const_of_equiv n st st' v :
  0 <= v -> same_but_aliases n st st' -> const_of st' v = const_of st v.
Proof. intros Hv (al & -> & _ & _ & Hf). unfold const_of. cbn. by rewrite Hf. Qed.

Lemma same_but_aliases_refl n st : alias_ok n (sv_aliases st) -> same_but_aliases n st st.
Proof. intros Hok. exists (sv_aliases st). by destruct st. Qed.

Lemma same_but_aliases_trans n a b c :
  same_but_aliases n a b -> same_but_aliases n b c -> same_but_aliases n a c.
Proof.
  intros (al & -> & H1) (al' & -> & H2). exists al'. split; [done|]. by eapply alias_equiv_trans.
Qed.

Lemma same_but_aliases_ok n st st' : same_but_aliases n st st' -> alias_ok n (sv_aliases st').
Proof. intros (al & -> & _ & Hok & _). done. Qed.

Definition definitions_ok (st : SimplifyState) : Prop :=
  forall v d, definition st v = Some d -> 0 <= v < kNoValue ->
    i_result d = v /\ Forall (λ a, 0 <= a < v) (i_args d).

Lemma simplify_instruction_spec n st i :
  alias_ok n (sv_aliases st) -> definitions_ok st ->
  Forall (λ a, 0 <= a < kNoValue) (i_args i) ->
  (simplify_instruction st i).1 = rewrite_of st i /\
  same_but_aliases n st (simplify_instruction st i).2.
Proof.
  intros Hok Hdef Hargs. pose proof (same_but_aliases_refl n st Hok) as Hrefl.
  unfold simplify_instruction, rewrite_of.
  destruct (i_args i) as [|a [|b [|c [|]]]] eqn:Ea; try done;
    repeat match goal with H : Forall _ (_ :: _) |- _ => apply Forall_cons in H as [? ?] end.
  - destruct (i_result i =? kNoValue); [done|]. unfold simplify_unary.
    destruct (_ && _); [done|]. destruct (_ && _); [done|].
    destruct (bool_decide (i_op i = Op.Truncate)); [|done].
    destruct (definition st a) as [d|] eqn:Ed; [|done].
    destruct (is_extension (i_op d)); [|done]. destruct (Hdef a d Ed ltac:(lia)) as [_ Hd].
    destruct (i_args d) as [|p [|]]; try done. apply Forall_cons in Hd as [Hp _].
    destruct (resolve_spec n _ p Hok ltac:(lia)) as [Hr He].
    destruct (resolve (sv_aliases st) p) as [r al]. cbn in *. subst r.
    unfold value_type. cbn. destruct (bool_decide _); cbn; (split; [done|]); by exists al.
  - destruct (i_result i =? kNoValue); [done|].
    destruct (is_const_spec n st a Hok ltac:(lia)) as [Ha Hs1].
    destruct (is_const st a) as [ca st1]. cbn in Ha, Hs1.
    destruct (is_const_spec n st1 b (same_but_aliases_ok _ _ _ Hs1) ltac:(lia)) as [Hb Hs2].
    destruct (is_const st1 b) as [cb st2]. cbn in *. subst ca cb.
    rewrite (const_of_equiv n st st1) by (done || lia). split; [done|].
    by eapply same_but_aliases_trans.
  - destruct (bool_decide _); [|done]. unfold simplify_select. destruct (b =? c); [done|].
    destruct (is_const_spec n st a Hok ltac:(lia)) as [Ha Hs1].
    destruct (is_const st a) as [ca st1]. cbn in *. subst ca. by destruct (const_of st a).
Qed.

Lemma rewrite_of_equiv n st st' i :
  same_but_aliases n st st' -> definitions_ok st -> Forall (λ a, 0 <= a < kNoValue) (i_args i) ->
  rewrite_of st' i = rewrite_of st i.
Proof.
  intros (al & -> & _ & _ & Hf) Hdef Hargs. unfold rewrite_of, const_of.
  destruct (i_args i) as [|a [|b [|c [|]]]]; try done;
    repeat match goal with H : Forall _ (_ :: _) |- _ => apply Forall_cons in H as [? ?] end;
    cbn [sv_aliases with_aliases sv_constants]; rewrite ?Hf by lia; try done.
  destruct (_ =? _); [done|]. destruct (_ && _); [done|]. unfold value_type, definition.
  cbn [sv_types sv_definitions with_aliases]. destruct (_ && _); [done|].
  destruct (bool_decide _); [|done].
  destruct (default None (sv_definitions st !! Z.to_nat a)) as [d|] eqn:Ed; [|done].
  destruct (is_extension (i_op d)); [|done]. destruct (Hdef a d Ed ltac:(lia)) as [_ Hd].
  destruct (i_args d) as [|p [|]]; try done. apply Forall_cons in Hd as [Hp _].
  by rewrite Hf by lia.
Qed.

(** ** The shape of the output *)

Lemma rewrite_static n st i :
  alias_ok n (sv_aliases st) -> definitions_ok st -> i_result i <= kNoValue ->
  Forall (λ a, 0 <= a < i_result i) (i_args i) ->
  match rewrite_of st i with
  | Alias v => 0 <= v < i_result i
  | Keep i' => i' = i \/ i' = make_compare_constant i
  end.
Proof.
  intros Hok Hdef Hmax Hargs. unfold rewrite_of.
  destruct (i_args i) as [|a [|b [|c [|]]]] eqn:Ea; try by left.
  all: repeat match goal with H : Forall _ (_ :: _) |- _ => apply Forall_cons in H as [? ?] end.
  - destruct (_ =? _); [by left|]. destruct (_ && _); [done|]. destruct (_ && _); [done|].
    destruct (bool_decide _); [|by left]. destruct (definition st a) as [d|] eqn:Ed; [|by left].
    destruct (is_extension (i_op d)); [|by left].
    destruct (Hdef a d Ed ltac:(lia)) as [_ Hd].
    destruct (i_args d) as [|p [|]]; try by left. apply Forall_cons in Hd as [Hp _].
    destruct (bool_decide _); [|by left]. pose proof (find_range n _ Hok p ltac:(lia)). lia.
  - destruct (_ =? _); [by left|]. unfold simplify_binary.
    destruct (i_op i); repeat case_match; simplify_eq; auto.
  - destruct (bool_decide _); [|by left]. repeat case_match; simplify_eq; auto.
Qed.

Lemma definition_record st i v d :
  definition (record_definition st i) v = Some d ->
  (d = i /\ Z.to_nat v = Z.to_nat (i_result i)) \/ definition st v = Some d.
Proof.
  unfold record_definition, definition. destruct (_ && _); cbn; [|by right].
  destruct (decide (Z.to_nat v = Z.to_nat (i_result i))) as [He|Hne].
  - rewrite He. destruct (decide (Z.to_nat (i_result i) < length (sv_definitions st))%nat).
    + rewrite list_lookup_insert_eq by done. cbn. intros [= <-]. by left.
    + rewrite list_insert_ge by lia. by right.
  - rewrite list_lookup_insert_ne by done. by right.
Qed.

Lemma constants_record st i v cv :
  sv_constants (record_definition st i) !! v = Some cv ->
  (v = i_result i /\ i_result i <> kNoValue) \/ sv_constants st !! v = Some cv.
Proof.
  unfold record_definition. destruct (Z.eqb_spec (i_result i) kNoValue); cbn; [by right|].
  destruct (_ <? _); cbn; [|by right]. destruct (bool_decide _); [|by right].
  intros [[<- _]|[_ ?]]%lookup_insert_Some; [by left|by right].
Qed.

Lemma record_aliases st i : sv_aliases (record_definition st i) = sv_aliases st.
Proof. unfold record_definition. by case_match. Qed.

Lemma record_types_length st i :
  length (sv_types (record_definition st i)) = length (sv_types st) /\
  length (sv_definitions (record_definition st i)) = length (sv_definitions st).
Proof. unfold record_definition. case_match; cbn; rewrite ?length_insert; done. Qed.

Section SimplifyStatic.
Context (size : Z).

Definition index_ok (i : Instruction) : Prop :=
  (i_result i <> kNoValue -> i_result i < size) /\ const_imm_ok i = true.

Record simplify_static (n : Z) (st : SimplifyState) : Prop := mkSimplifyStatic {
  sts_nonneg : 0 <= n;
  sts_aliases : Z.of_nat (length (sv_aliases st)) = size;
  sts_types : Z.of_nat (length (sv_types st)) = size;
  sts_definitions : Z.of_nat (length (sv_definitions st)) = size;
  sts_ok : alias_ok n (sv_aliases st);
  sts_def : definitions_ok st;
  sts_const : forall v cv, sv_constants st !! v = Some cv -> v < n
}.

(** One step, with the aliases the resolutions leave behind. *)
Lemma simplify_step_spec n st i :
  simplify_static n st -> inst_ok n i = true ->
  exists st1, same_but_aliases n st st1 /\
    simplify_step st i =
      match rewrite_of st1 (set_args (find (sv_aliases st) <$> i_args i) i) with
      | Alias v =>
          let '(t, al) := resolve (sv_aliases st1) v in
          (with_aliases (assign_alias al (i_result i) t) st1, [])
      | Keep i' => (record_definition st1 i', [i'])
      end.
Proof using Type.
  intros [Hn Ha Ht Hd Hok Hdef _] Hi. unfold simplify_step.
  destruct (resolve_args_spec n _ _ Hok (inst_ok_args n i Hi)) as [Hr He].
  destruct (resolve_args (sv_aliases st) (i_args i)) as [args al]. cbn [fst snd] in *. subst args.
  set (i' := set_args (find (sv_aliases st) <$> i_args i) i).
  assert (Hs1 : same_but_aliases n st (with_aliases al st)) by (by exists al).
  assert (Hi' : Forall (λ a, 0 <= a < kNoValue) (i_args i')).
  { cbn. apply Forall_fmap. eapply Forall_impl; [by eapply inst_ok_args|]. intros a Hlt. cbn in *.
    pose proof (find_range n _ Hok a ltac:(lia)). lia. }
  destruct (simplify_instruction_spec n (with_aliases al st) i') as [Hrw Hs2];
    [apply He|exact Hdef|done|].
  destruct (simplify_instruction (with_aliases al st) i') as [rw st1]. cbn [fst snd] in *. subst rw.
  exists st1. pose proof (same_but_aliases_trans _ _ _ _ Hs1 Hs2) as Hs. split; [done|].
  by rewrite (rewrite_of_equiv n _ _ i' Hs2 Hdef Hi').
Qed.

Lemma simplify_step_static : alias_step simplify_step sv_aliases index_ok simplify_static.
Proof using Type.
  intros n st i Hst Hi [Hidx Himm].
  destruct (simplify_step_spec n st i Hst Hi) as (st1 & (al1 & -> & He) & ->).
  destruct Hst as [Hn Ha Ht Hd Hok Hdef Hcs]. destruct He as (Hlen & Hok1 & Hf1).
  pose proof (next_id_ge n i Hi) as Hge.
  set (i' := set_args (find (sv_aliases st) <$> i_args i) i).
  assert (Hargs : Forall (λ a, 0 <= a < i_result i) (i_args i')).
  { cbn. apply Forall_fmap. eapply Forall_impl; [by eapply (inst_ok_args_lt n)|]. intros a Hlt.
    cbn in *. pose proof (find_range n _ Hok a ltac:(lia)). lia. }
  assert (Hmax : i_result i <= kNoValue).
  { destruct (Z.eq_dec (i_result i) kNoValue) as [->|Hne]; [lia|].
    pose proof (inst_ok_result n i Hi Hne). lia. }
  pose proof (rewrite_static n (with_aliases al1 st) i' Hok1 Hdef Hmax Hargs) as Hrw.
  destruct (rewrite_of (with_aliases al1 st) i') as [i2|v].
  - (* kept *)
    assert (Hres : i_result i2 = i_result i) by (by destruct Hrw as [->| ->]).
    assert (Hargs2 : Forall (λ a', 0 <= a' /\ exists a, a ∈ i_args i /\ a' <= a) (i_args i2)).
    { destruct Hrw as [->| ->]; [by apply (resolved_args_shrink n)|constructor]. }
    assert (Hlt2 : Forall (λ a, 0 <= a < i_result i) (i_args i2)).
    { destruct Hrw as [->| ->]; [done|constructor]. }
    cbn [fst snd]. rewrite record_aliases. cbn [sv_aliases with_aliases]. split_and!.
    + destruct (record_types_length (with_aliases al1 st) i2) as [L1 L2].
      split; rewrite ?record_aliases, ?L1, ?L2; cbn; try lia.
      * by eapply alias_ok_mono.
      * intros w d Hw Hlt. apply definition_record in Hw as [[-> Heq]|Hw]; [|by apply Hdef].
        rewrite Hres in *. destruct (Z.eq_dec (i_result i) kNoValue) as [He|Hne].
        -- exfalso. clear -Hlt Heq He. rewrite He in Heq.
           apply Z2Nat.inj in Heq; [lia|apply Hlt|by vm_compute].
        -- pose proof (inst_ok_result n i Hi Hne). assert (w = i_result i) as -> by lia. done.
      * intros w cv Hw. apply constants_record in Hw as [[-> Hne]|Hw].
        -- rewrite Hres in *. rewrite next_id_result by done. lia.
        -- specialize (Hcs w cv Hw). lia.
    + intros w Hw. by rewrite Hf1 by lia.
    + right. exists i2. split_and!; [done..|]. intros Hne.
      pose proof (inst_ok_result n i Hi Hne). apply (find_above n); [done|lia..].
  - (* aliased *)
    assert (Hvr : 0 <= v < i_result i) by exact Hrw.
    destruct (resolve_spec n al1 v Hok1) as [Hr He]; [lia|]. cbn [sv_aliases with_aliases].
    destruct (resolve al1 v) as [t al2]. cbn [fst snd] in *. subst t.
    destruct He as (Hlen2 & Hok2 & Hf2).
    assert (Hfin : alias_ok (next_id n i) (assign_alias al2 (i_result i) (find al1 v)) /\
      length (assign_alias al2 (i_result i) (find al1 v)) = length al2 /\
      forall w, 0 <= w < n -> find (assign_alias al2 (i_result i) (find al1 v)) w = find al2 w).
    { destruct (Z.eq_dec (i_result i) kNoValue) as [Hv|Hne].
      - unfold assign_alias. rewrite Hv, Z.eqb_refl. cbn. split_and!; [by eapply alias_ok_mono|done|done].
      - pose proof (inst_ok_result n i Hi Hne). specialize (Hidx Hne).
        pose proof (find_range n al1 Hok1 v ltac:(lia)).
        destruct (assign_alias_spec n al2 (i_result i) (find al1 v)) as (L & O & _ & F);
          [done|lia..| |].
        { rewrite Hf2 by lia. apply (find_idem n); [done|lia]. }
        rewrite next_id_result by done. split_and!; [done..|]. intros w Hw. apply F; lia. }
    destruct Hfin as (O & L & F). cbn [with_aliases sv_aliases]. split_and!.
    + split; cbn; try lia; try done. intros w cv Hw. specialize (Hcs w cv Hw). lia.
    + intros w Hw. by rewrite F, Hf2, Hf1 by lia.
    + by left.
Qed.
End SimplifyStatic.
