(* ===== verification/SimplifySim.v ===== *)
(** * Correctness of value simplification

    Each identity of [simplify_values] as a fact about [eval_pure], and the
    simulation built from them. The pass is proved in the two settings the
    pipeline runs it in: on lifted blocks, and as the step to emitted C++. *)

From S2P Require Import Prelude.
From S2P Require Import Words.
From S2P Require Import CpuState.
From S2P Require Import AotScalar.
From S2P Require Import Ir.
From S2P Require Import IrValue.
From S2P Require Import Services.
From S2P Require Import IrSem.
From S2P Require Import IrRefine.
From S2P Require Import PassSim.
From S2P Require Import Aliases.
From S2P Require Import AliasPass.
From S2P Require Import ConstEval.
From S2P Require Import Fold.
From S2P Require Import Simplify.

(** The settings in which aliasing through an operation is sound. *)
Definition simplify_modes (ms mt : Mode) : Prop :=
  ms <> Emitted /\ (mt = Emitted \/ (ms = Lifted /\ mt = Lifted)).

Lemma simplify_modes_le ms mt : simplify_modes ms mt -> mode_le ms mt.
Proof. intros [Hs [Ht|[-> ->]]]; unfold mode_le; auto. Qed.

(** ** Identities *)

Section Identities.
Context `{HostFloat} (ms mt : Mode) (Hmodes : simplify_modes ms mt).

Lemma arith_identity f t a b v a' :
  arith f t a b = Some v -> wf_val a -> vref a a' ->
  (forall x y, any_int b = Some y -> f x y = x) -> vref v a'.
Proof using Type.
  unfold arith. intros E Ha Hr Hf. case_decide; [|done].
  destruct (exact t a) as [x|] eqn:Ex; [|done]. destruct (exact t b) as [y|] eqn:Ey; [|done].
  cbn in E. simplify_eq. apply exact_inv in Ex as ->, Ey as ->. apply vref_int in Hr as ->.
  rewrite (Hf x y) by done. rewrite wrap_id by (by apply wf_int). constructor.
Qed.

Lemma bit_operand_inv t a z l :
  bit_operand t a = Some (z, l) -> wf_val a -> is_int_type t = true ->
  0 <= z < 2 ^ integer_width t /\ any_int a = Some z /\
  forall a', vref a a' -> vref (if l then TLoose z else TInt t z) a' /\ (l = true -> t = I32).
Proof using Type.
  intros Hb Hwf Ht. destruct a as [t' x|x|x| | |]; cbn in Hb; try done.
  - case_decide; simplify_eq; [split; [by apply wf_int|done]|].
    case_decide as Ht2; [|done]. destruct Ht2 as [-> ->].
    destruct (Z.ltb_spec x 0x100000000); [|done]. simplify_eq. apply wf_int in Hwf.
    split; [cbn in *; lia|split; [done|]]. intros a' ->%vref_int. split; [|done].
    constructor; [by right|lia].
  - case_decide; [|done]. simplify_eq. destruct Hwf as [? [_ Hx]].
    split; [cbn; lia|done].
  - case_decide; [|done]. simplify_eq. destruct Hwf as [? [_ Hx]].
    split; [cbn; lia|split; [done|]]. intros a' Hr. split; [|done]. etrans; [|exact Hr]. by constructor.
Qed.

(** Anything a loose 32-bit result may stand for. *)
Lemma bitwise_identity f t a b v a' :
  bitwise ms f t a b = Some v -> wf_val a -> wf_val b -> vref a a' ->
  (forall x y, 0 <= x < 2 ^ integer_width t -> any_int b = Some y -> f x y = x) -> vref v a'.
Proof using Hmodes.
  unfold bitwise. intros E Ha Hb Hr Hf. destruct (is_int_type t) eqn:Ht; [|done].
  destruct (bit_operand t a) as [[x lx]|] eqn:Ex; [|done].
  destruct (bit_operand t b) as [[y ly]|] eqn:Ey; [|done]. cbn in E.
  destruct (bit_operand_inv _ _ _ _ Ex Ha Ht) as (Hx & _ & Hxr).
  destruct (bit_operand_inv _ _ _ _ Ey Hb Ht) as (_ & Hy & Hyl).
  rewrite (Hf x y Hx Hy), (wrap_id t x Hx) in E.
  rewrite (bool_decide_false (ms = Emitted)) in E by (apply Hmodes). cbn in E.
  destruct (Hxr a' Hr) as [Hv Hl]. destruct lx; cbn in E; [by simplify_eq|].
  destruct ly; simplify_eq; [|done].
  assert (t = I32) as -> by (by apply (Hyl b (vref_refl b))).
  etrans; [|exact Hv]. constructor; [by left|cbn in Hx; lia].
Qed.

Lemma shift_identity f o t a b v a' :
  shift_op f o t a b = Some v -> wf_val a -> vref a a' -> any_int b = Some 0 ->
  (forall x, 0 <= x < 2 ^ integer_width t -> wrap t (f x 0) = x) -> vref v a'.
Proof using Type.
  unfold shift_op. intros E Ha Hr Hb Hf. destruct (is_wide_int_type t) eqn:Ht; [|done].
  destruct (exact t a) as [x|] eqn:Ex; [|done]. cbn in E. rewrite Hb in E. cbn in E.
  apply exact_inv in Ex as ->. apply vref_int in Hr as ->.
  assert ((type_bits t <=? 0) = false) as Hz by (by destruct t). rewrite Hz in E. simplify_eq.
  rewrite Hf by (by apply wf_int). constructor.
Qed.

Lemma shift_op_amount f o t a b v :
  shift_op f o t a b = Some v -> is_wide_int_type t = true /\ is_Some (any_int b).
Proof using Type.
  unfold shift_op. destruct (is_wide_int_type t); [|done]. destruct (exact t a); [|done]. cbn.
  destruct (any_int b); [|done]. by eauto.
Qed.

Lemma rotl32_zero x : 0 <= x < 0x100000000 -> rotate_left32 x (u32 0) = x.
Proof using Type. done. Qed.
Lemma rotl64_zero x : 0 <= x < 0x10000000000000000 -> rotate_left64 x (u32 0) = x.
Proof using Type. done. Qed.

Lemma wrap_signed_view t x :
  is_wide_int_type t = true -> 0 <= x < 2 ^ integer_width t -> wrap t (signed_view t x) = x.
Proof using Type.
  intros Ht Hx. destruct t; try done; cbn in Hx |- *; unfold wrap, s8, s16, s32, s64; cbn;
    word_lia.
Qed.

Lemma wrap_wrap_le t t' x :
  is_int_type t = true -> integer_width t <= integer_width t' -> wrap t (wrap t' x) = wrap t x.
Proof using Type.
  intros Ht Hle. unfold wrap. assert (0 < integer_width t) by (by apply Z.ltb_lt).
  replace (integer_width t') with (integer_width t + (integer_width t' - integer_width t)) by lia.
  rewrite Z.pow_add_r by lia. apply Z.mod_mod_divide.
  exists (2 ^ (integer_width t' - integer_width t)). lia.
Qed.

Definition tight_in (x : TVal) : Prop := mt = Emitted -> tight x.

Lemma conversion_identity i x v x' :
  is_conversion (i_op i) = true -> eval_pure ms i [x] = Some v ->
  wf_val x -> vref x x' -> has_type (i_type i) x' -> tight_in x' -> vref v x'.
Proof using Hmodes.
  intros Hop E Hwf Hr Ht Htight. unfold eval_pure in E.
  assert (Hloose : forall z, tight_in (TLooseExt z) -> ms = Lifted).
  { intros z Hz. destruct Hmodes as [_ [Hm|[-> _]]]; [by destruct (Hz Hm)|done]. }
  destruct (i_op i); try done.
  - (* sign extension *)
    destruct x as [src z|z|z|z|z|z]; try done. apply vref_int in Hr as ->. destruct Ht as [-> [_ Hz]].
    destruct (is_wide_int_type (i_type i)) eqn:Hw; [|done]. cbn in E. case_match; [|done]. simplify_eq.
    rewrite wrap_signed_view by done. constructor.
  - (* zero extension *)
    destruct x as [src z|z|z|z|z|z]; try done.
    + apply vref_int in Hr as ->. destruct Ht as [-> [_ Hz]].
      case_match; [|done]. simplify_eq. rewrite wrap_id by done. constructor.
    + apply typed_some in E as [-> Hi]. rewrite Hi in Ht.
      inversion Hr as [|? ? Hty Hz|? Hz|]; subst; [by destruct Ht|..].
      * destruct Ht as [-> _]. case_decide; by constructor.
      * rewrite (decide_True (P := ms = Lifted)) by (by eapply Hloose). constructor.
    + apply typed_some in E as [-> Hi]. inversion Hr as [| | |? Hz]; subst.
      * rewrite (decide_True (P := ms = Lifted)) by (by eapply Hloose). constructor.
      * case_decide; by constructor.
  - (* truncation *)
    destruct x as [src z|z|z|z|z|z]; try done. apply vref_int in Hr as ->. destruct Ht as [-> [_ Hz]].
    case_match; [|done]. simplify_eq. rewrite wrap_id by done. constructor.
  - (* bit casts change the class *)
    exfalso. destruct x as [src z|z|z|z|z|z]; try done.
    + apply vref_int in Hr as ->. destruct Ht as [-> _]. repeat case_decide; subst; try done;
        apply typed_some in E as [_ ?]; congruence.
    + inversion Hr; subst. apply typed_some in E as [_ Hi]. cbn in Ht. congruence.
    + inversion Hr; subst. apply typed_some in E as [_ Hi]. cbn in Ht. congruence.
Qed.

Lemma truncate_extension i d x v x' o :
  i_op i = Op.Truncate -> is_extension (i_op d) = true ->
  eval_pure ms i [x] = Some v -> vref x x' -> eval_pure mt d [o] = Some x' ->
  has_type (i_type i) o -> tight_in o -> vref v o.
Proof using Hmodes.
  intros Hop Hd E Hr E' Ht Htight. unfold eval_pure in E, E'. rewrite Hop in E.
  destruct x as [src z|z|z|z|z|z]; try done. apply vref_int in Hr as ->.
  destruct (is_wide_int_type (i_type i)) eqn:Hw; [|done]. cbn in E.
  destruct (Z.leb_spec (integer_width (i_type i)) (integer_width src)) as [Hle|]; [|done].
  simplify_eq. pose proof (is_wide_int _ Hw) as Hint.
  assert (Hm : mt = Lifted \/ tight o).
  { destruct Hmodes as [_ [Hm|[_ Hm]]]; [right; by apply Htight|by left]. }
  destruct (i_op d); try done; destruct o as [s y|y|y|y|y|y]; try done.
  - destruct Ht as [-> [_ Hy]]. rewrite Hw in E'. cbn in E'. case_match; [|done]. simplify_eq.
    rewrite wrap_wrap_le by done. rewrite wrap_signed_view by done. constructor.
  - destruct Ht as [-> [_ Hy]]. case_match; [|done]. simplify_eq.
    rewrite wrap_wrap_le, wrap_id by done. constructor.
  - destruct Hm as [->|[]]. apply typed_some in E' as [? _]. done.
  - destruct Hm as [->|[]]. apply typed_some in E' as [? _]. done.
Qed.
End Identities.

(** ** What the pass knows about the values of the target block *)

Section SimplifySim.
Context {W : Type} `{MemoryPort W, RuntimeServices W, HostHelpers W}.
Context (fuel : nat) (ms mt : Mode) (Hmodes : simplify_modes ms mt).

Record knows (st : SimplifyState) (e' : Env) : Prop := mkKnows {
  kn_types : forall v x, e' !! v = Some x -> has_type (value_type st v) x;
  kn_defs : forall v d x, definition st v = Some d -> is_pure (i_op d) = true ->
    e' !! v = Some x ->
    exists args, mapM (e' !!.) (i_args d) = Some args /\ eval_pure mt d args = Some x;
  kn_consts : forall v cv x, sv_constants st !! v = Some cv -> e' !! v = Some x -> const_is cv x;
  kn_tight : forall v x, e' !! v = Some x -> tight_in mt x
}.

Lemma const_any cv x y : const_is cv x -> any_int x = Some y -> y = cv_bits cv.
Proof using Type.
  intros Hc Hy. destruct x; cbn in Hy; simplify_eq.
  - by apply const_int_inv in Hc as (_ & _ & -> & _).
  - by apply const_loose in Hc.
  - by apply const_loose_ext in Hc.
Qed.

Section Sound.
Context (st : SimplifyState) (e' : Env) (Hk : knows st e').
Context (Hroot : forall v x, e' !! v = Some x -> find (sv_aliases st) v = v).

Lemma const_of_any v a a' c y :
  e' !! v = Some a' -> vref a a' -> const_eqb (const_of st v) c = true ->
  any_int a = Some y -> y = c.
Proof using Hk Hroot.
  intros Hv Hr Hc Hy. apply bool_decide_eq_true in Hc. unfold const_of in Hc.
  rewrite (Hroot v a' Hv) in Hc. destruct (sv_constants st !! v) as [cv|] eqn:Ec; [|done].
  cbn in Hc. injection Hc as <-. eapply const_any; [by eapply kn_consts|by eapply vref_any].
Qed.

Lemma compare_self wo f i a b v x' :
  compare_op wo f i a b = Some v -> vref a x' -> vref b x' ->
  exists t z, v = tbool (f t z z) /\ i_type i = I1.
Proof using Type.
  unfold compare_op. intros E Ha Hb. destruct (int_view a) as [[t z]|] eqn:Ea; [|done]. cbn in E.
  destruct (if wo then _ else _); [|done]. destruct (viewed t b) as [y|] eqn:Eb; [|done].
  cbn in E. apply (int_view_mono _ _ _ _ Ea) in Ha. apply (viewed_mono _ _ _ _ Eb) in Hb.
  unfold viewed in Hb. rewrite Ha in Hb. cbn in Hb. rewrite decide_True in Hb by done.
  simplify_eq. apply typed_some in E as [-> Hi]. by exists t, y.
Qed.

Lemma binary_sound i ka kb a b a' b' v :
  wf_val a -> wf_val b -> e' !! ka = Some a' -> e' !! kb = Some b' -> vref a a' -> vref b b' ->
  eval_pure ms i [a; b] = Some v ->
  match simplify_binary i ka kb (const_of st ka) (const_of st kb) with
  | Alias t => exists x', e' !! t = Some x' /\ vref v x'
  | Keep i' => i' = i \/ (i' = make_compare_constant i /\ eval_pure mt i' [] = Some v)
  end.
Proof using Hk Hroot Hmodes.
  intros Ha Hb Hka Hkb Hra Hrb E. unfold simplify_binary, eval_pure in *.
  assert (Hca : forall c, const_eqb (const_of st ka) c = true ->
    forall y, any_int a = Some y -> y = c) by (intros; by eapply (const_of_any ka)).
  assert (Hcb : forall c, const_eqb (const_of st kb) c = true ->
    forall y, any_int b = Some y -> y = c) by (intros; by eapply (const_of_any kb)).
  assert (Hzero : is_Some (any_int b) -> const_eqb (const_of st kb) 0 = true -> any_int b = Some 0).
  { intros [y Hy] Hc. by rewrite <- (Hcb 0 Hc y Hy). }
  assert (Hmask : forall t x, 0 <= x < 2 ^ integer_width t ->
    x .& (if integer_width t =? 0 then 0 else width_mask (integer_width t)) = x).
  { intros t x Hx. destruct (Z.eqb_spec (integer_width t) 0) as [Hw|]; [|by rewrite land_mask, wrap_id].
    rewrite Hw in Hx. rewrite Z.land_0_r. cbn in Hx. lia. }
  destruct (i_op i) eqn:Hop; try (by left).
  (* comparisons *)
  all: try (destruct (Z.eqb_spec ka kb) as [->|]; [|by left]; right; split; [done|];
    assert (a' = b') as -> by congruence;
    destruct (compare_self _ _ _ _ _ _ _ E Hra Hrb) as (t & z & -> & Hi);
    unfold make_compare_constant; rewrite Hop; cbn [i_op i_type i_imm0]; rewrite Hi;
    rewrite ?Z.eqb_refl, ?Z.ltb_irrefl; reflexivity).
  (* identities of the left operand, then of the right one *)
  all: match goal with |- context [if const_eqb ?x ?c then _ else _] =>
         destruct (const_eqb x c) eqn:Ecb end; cbn beta iota;
    [exists a'; split; [done|]|
     first [by left
           | match goal with |- context [if const_eqb ?x ?c then _ else _] =>
               destruct (const_eqb x c) eqn:Eca end; cbn beta iota;
               [exists b'; split; [done|]|by left]]].
  - eapply arith_identity; [exact E|done..|]. intros x y Hy. rewrite (Hcb _ Ecb y Hy). lia.
  - rewrite arith_comm in E by (intros; lia).
    eapply arith_identity; [exact E|done..|]. intros x y Hy. rewrite (Hca _ Eca y Hy). lia.
  - eapply arith_identity; [exact E|done..|]. intros x y Hy. rewrite (Hcb _ Ecb y Hy). lia.
  - eapply arith_identity; [exact E|done..|]. intros x y Hy. rewrite (Hcb _ Ecb y Hy). lia.
  - rewrite arith_comm in E by (intros; lia).
    eapply arith_identity; [exact E|done..|]. intros x y Hy. rewrite (Hca _ Eca y Hy). lia.
  - eapply bitwise_identity; [exact Hmodes|exact E|done..|]. intros x y Hx Hy.
    rewrite (Hcb _ Ecb y Hy). by apply Hmask.
  - rewrite bitwise_comm in E by (intros; apply Z.land_comm).
    eapply bitwise_identity; [exact Hmodes|exact E|done..|]. intros x y Hx Hy.
    rewrite (Hca _ Eca y Hy). by apply Hmask.
  - eapply bitwise_identity; [exact Hmodes|exact E|done..|]. intros x y Hx Hy.
    rewrite (Hcb _ Ecb y Hy). apply Z.lor_0_r.
  - rewrite bitwise_comm in E by (intros; apply Z.lor_comm).
    eapply bitwise_identity; [exact Hmodes|exact E|done..|]. intros x y Hx Hy.
    rewrite (Hca _ Eca y Hy). apply Z.lor_0_r.
  - eapply bitwise_identity; [exact Hmodes|exact E|done..|]. intros x y Hx Hy.
    rewrite (Hcb _ Ecb y Hy). apply Z.lxor_0_r.
  - rewrite bitwise_comm in E by (intros; apply Z.lxor_comm).
    eapply bitwise_identity; [exact Hmodes|exact E|done..|]. intros x y Hx Hy.
    rewrite (Hca _ Eca y Hy). apply Z.lxor_0_r.
  - eapply shift_identity; [exact E|done..| |]; [apply Hzero; [apply (shift_op_amount _ _ _ _ _ _ E)|done]|].
    intros x Hx. cbn beta. rewrite Z.shiftl_0_r. by apply wrap_id.
  - eapply shift_identity; [exact E|done..| |]; [apply Hzero; [apply (shift_op_amount _ _ _ _ _ _ E)|done]|].
    intros x Hx. cbn beta. rewrite Z.shiftr_0_r. by apply wrap_id.
  - pose proof (shift_op_amount _ _ _ _ _ _ E) as [Hw Hn].
    eapply shift_identity; [exact E|done..|by apply Hzero|].
    intros x Hx. cbn beta. rewrite Z.shiftr_0_r. by apply wrap_signed_view.
  - assert (Hz : any_int b = Some 0).
    { apply Hzero; [|done]. repeat case_decide; try done; destruct (exact _ a); try done; cbn in E;
        by destruct (any_int b). }
    rewrite Hz in E. repeat case_decide; try done;
      (destruct (exact _ a) as [x|] eqn:Ex; [|done]); cbn in E; simplify_eq;
      apply exact_inv in Ex as ->; apply vref_int in Hra as ->; apply wf_int in Ha.
    + rewrite rotl32_zero by done. constructor.
    + rewrite rotl64_zero by done. constructor.
Qed.

Lemma rewrite_effect i : is_pure (i_op i) = false -> rewrite_of st i = Keep i.
Proof using Type.
  intros Hp. unfold rewrite_of, simplify_binary, is_conversion.
  destruct (i_args i) as [|a [|b [|c [|]]]]; try done; destruct (i_op i); try done;
    by destruct (_ =? kNoValue).
Qed.

Lemma unary_sound i k a a' v :
  i_args i = [k] -> i_result i <> kNoValue ->
  wf_val a -> e' !! k = Some a' -> vref a a' -> eval_pure ms i [a] = Some v ->
  match rewrite_of st i with
  | Alias t => exists x', e' !! t = Some x' /\ vref v x'
  | Keep i' => i' = i
  end.
Proof using Hk Hroot Hmodes.
  intros Hargs Hres Ha Hka Hra E. unfold rewrite_of. rewrite Hargs.
  destruct (Z.eqb_spec (i_result i) kNoValue); [done|].
  destruct (bool_decide (i_op i = Op.AddImmediate) && (i_imm0 i =? 0)) eqn:Hadd.
  { apply andb_true_iff in Hadd as [Hop%bool_decide_eq_true Him%Z.eqb_eq]. exists a'. split; [done|].
    unfold eval_pure in E. rewrite Hop, Him in E. destruct (exact I64 a) as [x|] eqn:Ex; [|done].
    cbn in E. apply typed_some in E as [-> _]. apply exact_inv in Ex as ->.
    apply vref_int in Hra as ->. apply wf_int in Ha. rewrite Z.add_0_r.
    rewrite u64_small by exact Ha. constructor. }
  destruct (is_conversion (i_op i) && bool_decide (value_type st k = i_type i)) eqn:Hcv.
  { apply andb_true_iff in Hcv as [Hop Ht%bool_decide_eq_true]. exists a'. split; [done|].
    eapply (conversion_identity ms mt); try done; [|by eapply kn_tight].
    rewrite <- Ht. by eapply kn_types. }
  destruct (bool_decide (i_op i = Op.Truncate)) eqn:Htr; [|done].
  apply bool_decide_eq_true in Htr. destruct (definition st k) as [d|] eqn:Ed; [|done].
  destruct (is_extension (i_op d)) eqn:Hext; [|done].
  destruct (i_args d) as [|p [|]] eqn:Ep; try done.
  cbv zeta. destruct (bool_decide (value_type st (find (sv_aliases st) p) = i_type i)) eqn:Ht; [|done].
  apply bool_decide_eq_true in Ht.
  destruct (kn_defs _ _ Hk k d a' Ed) as (args & Hm & Hev); [by destruct (i_op d)|done|].
  rewrite Ep in Hm. apply mapM_Some in Hm. inversion Hm as [|? o ? ? Ho Hm']; subst.
  inversion Hm'; subst. rewrite (Hroot p o Ho) in *. exists o. split; [done|].
  apply (truncate_extension ms mt Hmodes i d a v a' o Htr Hext E Hra Hev);
    [rewrite <- Ht; by eapply kn_types|by eapply kn_tight].
Qed.

Lemma select_sound i kc ka kb c a b c' a' b' v :
  i_args i = [kc; ka; kb] -> e' !! kc = Some c' -> e' !! ka = Some a' -> e' !! kb = Some b' ->
  vref c c' -> vref a a' -> vref b b' -> eval_pure ms i [c; a; b] = Some v ->
  match rewrite_of st i with
  | Alias t => exists x', e' !! t = Some x' /\ vref v x'
  | Keep i' => i' = i
  end.
Proof using Hk Hroot.
  intros Hargs Hkc Hka Hkb Hrc Hra Hrb E. unfold rewrite_of. rewrite Hargs.
  destruct (bool_decide (i_op i = Op.Select)) eqn:Hop; [|done].
  apply bool_decide_eq_true in Hop. unfold eval_pure in E. rewrite Hop in E.
  destruct (exact I1 c) as [z|] eqn:Ec; [|done]. cbn in E. case_match; [|done]. simplify_eq.
  destruct (Z.eqb_spec ka kb) as [->|Hne].
  { exists a'. split; [done|]. assert (a' = b') as -> by congruence. by case_match. }
  destruct (const_of st kc) as [w|] eqn:Hw; [|done].
  assert (z = w) as ->.
  { eapply (const_of_any kc c c' w z); try done; [by apply bool_decide_eq_true|].
    by apply exact_inv in Ec as ->. }
  destruct (w =? 0); by eexists.
Qed.

Lemma rewrite_sound i args args' v :
  i_result i <> kNoValue -> Forall wf_val args ->
  mapM (e' !!.) (i_args i) = Some args' -> Forall2 vref args args' ->
  eval_pure ms i args = Some v ->
  match rewrite_of st i with
  | Alias t => exists x', e' !! t = Some x' /\ vref v x'
  | Keep i' => i' = i \/ (i' = make_compare_constant i /\ eval_pure mt i' [] = Some v)
  end.
Proof using Hk Hroot Hmodes.
  intros Hres Hwf Hm Hr E. apply mapM_Some in Hm.
  destruct (i_args i) as [|ka [|kb [|kc [|]]]] eqn:Ea;
    try (unfold rewrite_of; rewrite Ea; by left).
  all: repeat match goal with
    | H : Forall2 _ (_ :: _) _ |- _ => inversion H; clear H; subst
    | H : Forall2 _ _ (_ :: _) |- _ => inversion H; clear H; subst
    | H : Forall2 _ [] _ |- _ => inversion H; clear H; subst
    | H : Forall2 _ _ [] |- _ => inversion H; clear H; subst
    | H : Forall _ (_ :: _) |- _ => apply Forall_cons in H as [? ?]
    end.
  - pose proof (unary_sound i ka) as Hu. destruct (rewrite_of st i); [left|]; by eapply Hu.
  - unfold rewrite_of. rewrite Ea. destruct (Z.eqb_spec (i_result i) kNoValue); [done|].
    match goal with E : eval_pure _ _ [?x; ?y] = _ |- _ =>
      by eapply (binary_sound i ka kb x y) end.
  - pose proof (select_sound i ka kb kc) as Hs. destruct (rewrite_of st i); [left|]; by eapply Hs.
Qed.
End Sound.

(** ** Maintaining that knowledge *)

Lemma value_type_record st i v :
  Z.to_nat v <> Z.to_nat (i_result i) ->
  value_type (record_definition st i) v = value_type st v /\
  definition (record_definition st i) v = definition st v /\
  sv_constants (record_definition st i) !! v = sv_constants st !! v.
Proof using Type.
  intros Hne. unfold record_definition, value_type, definition.
  case_match; [|done]. cbn. rewrite !list_lookup_insert_ne by done. split_and!; [done..|].
  case_match; [|done]. rewrite lookup_insert_ne; [done|]. by intros <-.
Qed.

(** A kept instruction that binds its result. *)
Lemma knows_bind size n st e' i x :
  simplify_static size n st -> knows st e' -> env_ok n e' ->
  n <= i_result i < kNoValue -> i_result i < size -> const_imm_ok i = true ->
  has_type (i_type i) x -> tight_in mt x ->
  (is_pure (i_op i) = true ->
     exists args, mapM (e' !!.) (i_args i) = Some args /\ eval_pure mt i args = Some x) ->
  knows (record_definition st i) (<[i_result i := x]> e').
Proof using Type.
  intros [Hn _ Hty Hdf _ _ Hcs] [Kt Kd Kc Kti] He Hr Hsz Himm Htype Htight Hpure.
  assert (Hnone : e' !! i_result i = None).
  { destruct (e' !! i_result i) as [y|] eqn:Ey; [|done]. pose proof (He _ _ Ey). lia. }
  assert (Hat : value_type (record_definition st i) (i_result i) = i_type i /\
    definition (record_definition st i) (i_result i) = Some i /\
    forall cv, sv_constants (record_definition st i) !! i_result i = Some cv ->
      (i_op i = Op.Constant /\ cv = mkConst (i_type i) (normalize (i_imm0 i) (i_type i))) \/
      sv_constants st !! i_result i = Some cv).
  { unfold record_definition, value_type, definition.
    destruct (Z.eqb_spec (i_result i) kNoValue); [lia|].
    destruct (Z.ltb_spec (i_result i) (Z.of_nat (length (sv_types st)))); [|lia].
    cbn. rewrite !list_lookup_insert_eq by lia. split_and!; [done..|]. intros cv.
    destruct (bool_decide _) eqn:Hop; [|by right]. apply bool_decide_eq_true in Hop.
    rewrite lookup_insert_eq. intros [= <-]. by left. }
  destruct Hat as (At & Ad & Ac).
  assert (Hother : forall v y, v <> i_result i -> e' !! v = Some y ->
    Z.to_nat v <> Z.to_nat (i_result i)).
  { intros v y Hne Hy. pose proof (He _ _ Hy). lia. }
  split.
  - intros v y Hy. apply lookup_insert_Some in Hy as [[<- <-]|[Hne Hy]]; [by rewrite At|].
    destruct (value_type_record st i v) as (-> & _); [by eapply Hother|]. by apply Kt.
  - intros v d y Hd Hp Hy. apply lookup_insert_Some in Hy as [[<- <-]|[Hne Hy]].
    + rewrite Ad in Hd. simplify_eq. destruct (Hpure Hp) as (args & Hm & Hev). exists args.
      split; [by apply lookups_extend|done].
    + destruct (value_type_record st i v) as (_ & Hdv & _); [by eapply Hother|].
      rewrite Hdv in Hd. destruct (Kd v d y Hd Hp Hy) as (args & Hm & Hev). exists args.
      split; [by apply lookups_extend|done].
  - intros v cv y Hcv Hy. apply lookup_insert_Some in Hy as [[<- <-]|[Hne Hy]].
    + destruct (Ac cv Hcv) as [[Hop ->]|Hold]; [|specialize (Hcs _ _ Hold); lia].
      destruct Hpure as (args & Hm & Hev); [by rewrite Hop|].
      apply constant_normalize; [done|done|]. unfold eval_pure in Hev. rewrite Hop in Hev.
      by destruct args.
    + destruct (value_type_record st i v) as (_ & _ & Hv); [by eapply Hother|].
      rewrite Hv in Hcv. by eapply Kc.
  - intros v y Hy. apply lookup_insert_Some in Hy as [[<- <-]|[Hne Hy]]; [done|by eapply Kti].
Qed.

Record simplify_inv (size n : Z) (st : SimplifyState) (e e' : Env) (m m' : Machine W) : Prop :=
  mkSimplifyInv {
    smi_machine : m' = m;
    smi_static : simplify_static size n st;
    smi_alias : alias_inv n (sv_aliases st) e e';
    smi_knows : knows st e'
  }.

Lemma knows_aliases al st e' : knows (with_aliases al st) e' <-> knows st e'.
Proof using Type. split; intros []; by split. Qed.

Lemma knows_void st i e' : i_result i = kNoValue -> knows st e' -> knows (record_definition st i) e'.
Proof using Type. intros Hv. unfold record_definition. by rewrite Hv, Z.eqb_refl. Qed.

Lemma lookups_tight st (e' : Env) ids args :
  mt = Emitted -> knows st e' -> mapM (e' !!.) ids = Some args -> Forall tight args.
Proof using Type.
  intros Hm Hk Ha. apply mapM_Some in Ha. induction Ha; constructor; [|done].
  by eapply kn_tight.
Qed.

(** An executed instruction extends the knowledge. *)
Lemma knows_exec size n st e' i (m : Machine W) e1' m1' :
  simplify_static size n st -> knows st e' -> env_ok n e' -> inst_ok n i = true ->
  index_ok size i -> exec_one fuel mt i e' m = Some (Continue e1' m1') ->
  knows (record_definition st i) e1'.
Proof using Type.
  intros Hst Hk He Hi [Hidx Himm] E.
  destruct (exec_one_inv _ _ _ _ _ _ E) as (args & stp & Ha & Hs & Hr).
  destruct stp as [v s w|]; [|done]. destruct Hr as (e2 & Hb & [= -> ->]). unfold bind_result in Hb.
  destruct v as [x|], (Z.eqb_spec (i_result i) kNoValue) as [Hv|Hne]; simplify_eq;
    [|by apply knows_void].
  eapply (knows_bind size n); try done.
  - by apply inst_ok_result.
  - by apply Hidx.
  - eapply exec_inst_type; [by eapply mapM_lookup_wf|exact Hs].
  - intros Hm. eapply exec_inst_tight; [exact Hm| |exact Hs]. by eapply lookups_tight.
  - intros Hp. destruct (exec_one_pure _ _ _ _ _ _ Hp E) as (args2 & y & Ha2 & Hy & _ & Heq).
    exists args2. split; [done|]. injection Heq as Heq _.
    assert (x = y) as ->; [|done]. 
    apply (f_equal (.!! i_result i)) in Heq. rewrite !lookup_insert_eq in Heq. by simplify_eq.
Qed.

Lemma simplify_sim size : sim_step (W := W) fuel ms mt simplify_step (index_ok size) (simplify_inv size).
Proof using Hmodes.
  intros n st e e' m m' i r [-> Hst Hal Hk] Hi Hidx E.
  pose proof (simplify_step_static size n st i Hst Hi Hidx) as (Hst' & _ & _).
  destruct (simplify_step_spec size n st i Hst Hi) as (st1 & (al1 & -> & He) & Hstep).
  rewrite Hstep in *. clear Hstep.
  pose proof (alias_inv_equiv _ _ _ _ _ He Hal) as Hal1.
  assert (Hfind : find al1 <$> i_args i = find (sv_aliases st) <$> i_args i).
  { apply list_fmap_ext_in. eapply Forall_impl; [by eapply inst_ok_args|]. intros a Ha. apply He.
    cbn in Ha. lia. }
  destruct (alias_inv_keep fuel ms mt n al1 e e' i m r (simplify_modes_le _ _ Hmodes) Hal1 Hi E)
    as (r' & E' & Hsim). rewrite Hfind in E'.
  set (i' := set_args (find (sv_aliases st) <$> i_args i) i) in *.
  assert (Hst1 : simplify_static size n (with_aliases al1 st)).
  { destruct Hst, He as (HL & HO & _). split; cbn; try done. lia. }
  assert (Hi' : inst_ok n i' = true).
  { pose proof (inst_ok_args_lt n i Hi) as Hlt. apply andb_true_iff in Hi as [_ Hres].
    apply andb_true_iff. split; [|done]. apply args_ok_spec. cbn. apply Forall_fmap.
    eapply Forall_impl; [exact Hlt|]. intros a Ha. cbn in *.
    pose proof (find_range n _ (ai_ok _ _ _ _ Hal) a ltac:(lia)). lia. }
  assert (Hkeep : simplify_static size (next_id n i) (record_definition (with_aliases al1 st) i') ->
    exists r2, exec_list fuel mt [i'] e' m = Some r2 /\
      sim_result (simplify_inv size (next_id n i) (record_definition (with_aliases al1 st) i')) r r2).
  { intros Hst2. rewrite exec_list_one. exists r'. split; [done|].
    destruct r as [e1 m1|], r' as [e1' m1'|]; try done. destruct Hsim as (-> & Ha & _).
    split; [done|done|by rewrite record_aliases|].
    eapply (knows_exec size n); [done|by apply knows_aliases|by eapply ai_tgt|done|done|exact E']. }
  destruct (is_pure (i_op i)) eqn:Hp.
  2:{ rewrite (rewrite_effect _ i' Hp) in *. by apply Hkeep. }
  destruct (exec_one_pure _ _ _ _ _ _ Hp E) as (args & v & Ha & Hv & Hne & ->).
  destruct (alias_inv_args _ _ _ _ _ _ Hal Ha) as (args' & Ha' & Href).
  assert (Hwf : Forall wf_val args) by exact (mapM_lookup_wf n e _ _ (ai_src _ _ _ _ Hal) Ha).
  pose proof (inst_ok_result n i Hi Hne) as Hres.
  assert (Hwfv : wf_val v) by (exists (i_type i); by eapply eval_pure_type).
  pose proof (rewrite_sound (with_aliases al1 st) e' (proj2 (knows_aliases al1 st e') Hk)
    (ai_root _ _ _ _ Hal1) i' args args' v Hne Hwf Ha' Href Hv) as Hrw.
  destruct (rewrite_of (with_aliases al1 st) i') as [i2|t].
  - destruct Hrw as [->|[-> Hc]]; [by apply Hkeep|]. cbn [fst snd]. rewrite exec_list_one.
    (* a comparison of a value with itself *)
    set (i2 := make_compare_constant i') in *.
    rewrite (exec_one_pure_intro fuel mt i2 e' m [] v eq_refl eq_refl Hc Hne).
    eexists. split; [done|]. cbn. rewrite next_id_result in * by done.
    split; [done|done|rewrite record_aliases; by apply (alias_inv_bind n)|].
    apply (knows_bind size n (with_aliases al1 st) e' i2); try done.
    + by apply knows_aliases.
    + by eapply ai_tgt.
    + by apply Hidx.
    + unfold const_imm_ok, i2. cbn. case_bool_decide; [|done]. cbn. by case_match.
    + by eapply (eval_pure_type mt i2 []).
    + intros Hm. by apply (eval_pure_tight mt i2 [] v Hm (Forall_nil_2 _)).
    + intros _. by exists [].
  - destruct Hrw as (x' & Hx & Hvx). pose proof (ai_root _ _ _ _ Hal1 t x' Hx) as Hroot.
    destruct (ai_tgt _ _ _ _ Hal1 t x' Hx) as [Htn _]. pose proof (ai_bound _ _ _ _ Hal1) as Hb.
    cbn [sv_aliases with_aliases] in *.
    destruct (resolve_spec n al1 t (ai_ok _ _ _ _ Hal1)) as [Hrt He2]; [lia|].
    destruct (resolve al1 t) as [t' al2]. cbn [fst snd] in *. subst t'. rewrite Hroot in *.
    exists (Continue e' m). split; [done|]. cbn. rewrite next_id_result in * by done.
    pose proof (alias_inv_equiv _ _ _ _ _ He2 Hal1) as Hal2.
    assert (Hlen2 : Z.of_nat (length al2) = size).
    { destruct He2 as [-> _], He as [-> _]. apply Hst. }
    destruct (alias_inv_drop n al2 e e' (i_result i) v t x') as [Hinv _]; try done.
    + destruct Hidx as [Hidx _]. specialize (Hidx Hne). lia.
    + by eapply ai_root.
    + split; [done|done|done|]. by rewrite !knows_aliases.
Qed.
End SimplifySim.

Section SimplifyRun.
Context {W : Type} `{MemoryPort W, RuntimeServices W, HostHelpers W}.

Definition simplify_size (l : list Instruction) : Z :=
  Z.of_nat (length (init_aliases (max_value_id l))).

Lemma simplify_index l :
  Forall (λ i, inst_wf i = true) l -> Forall (index_ok (simplify_size l)) l.
Proof using Type.
  intros Hwf. pose proof (init_aliases_covers l) as Hc. rewrite Forall_forall in *.
  intros i Hi. split; [by apply Hc|]. by apply Hwf, andb_true_iff in Hi as [? _].
Qed.

Lemma simplify_static_init l : simplify_static (simplify_size l) 0 (simplify_init l).
Proof using Type.
  pose proof (max_value_id_nonneg l). unfold simplify_size.
  split; cbn; rewrite ?length_replicate, ?init_aliases_length by done; try lia.
  - apply alias_ok_init.
  - intros v d Hd. unfold definition in Hd. cbn in Hd.
    destruct (replicate _ None !! Z.to_nat v) as [x|] eqn:Ex; [|done]. cbn in Hd. subst.
    by apply lookup_replicate in Ex as [? _].
  - intros v cv Hv. by rewrite lookup_empty in Hv.
Qed.

(** What running the pass leaves behind: a well-formed alias vector in which the
    kept results are roots. *)
Lemma simplify_pass l :
  body_ok l = true ->
  let '(st, out) := run_pass simplify_step (simplify_init l) l in
  exists n, alias_ok n (sv_aliases st) /\ ssa 0 out = true /\
    resolve_all (sv_aliases st) out = rename (find (sv_aliases st)) out /\
    Forall (λ i, i_result i <> kNoValue -> find (sv_aliases st) (i_result i) = i_result i) out.
Proof using Type.
  intros [Hssa Hwf]%body_ok_spec. pose proof (simplify_index l Hwf) as Hidx.
  pose proof (simplify_static_init l) as Hst0. set (N := simplify_size l) in *.
  destruct (run_pass_inv simplify_step (index_ok N) (simplify_static N)
    (λ n st i h1 h2 h3, proj1 (simplify_step_static N n st i h1 h2 h3))
    l 0 (simplify_init l) Hst0 Hssa Hidx) as (n' & Hn' & Hst').
  destruct (alias_pass_roots _ _ _ _ (simplify_step_static N) l 0 (simplify_init l)
    (Z.le_refl 0) Hst0 Hssa Hidx) as [_ Hroots].
  pose proof (alias_pass_args _ _ _ _ (simplify_step_static N) l 0 (simplify_init l) Hst0 Hssa Hidx)
    as Hargs.
  pose proof (alias_pass_ssa _ _ _ _ (simplify_step_static N) l 0 (simplify_init l) Hst0 Hssa Hidx)
    as Hout.
  destruct (run_pass simplify_step (simplify_init l) l) as [st out]. cbn [fst snd] in *.
  exists n'. split_and!; [apply Hst'|done| |done].
  by apply (resolve_all_spec n'); [apply Hst'|].
Qed.

Lemma simplify_run fuel ms mt l (m : Machine W) o :
  simplify_modes ms mt -> body_ok l = true ->
  run_body fuel ms l m = Some o -> run_body fuel mt (simplify l) m = Some o.
Proof.
  intros Hmodes Hbody E. pose proof (simplify_pass l Hbody) as Hpass.
  apply body_ok_spec in Hbody as [Hssa Hwf].
  destruct l as [|i0 l0]; [done|]. unfold simplify. set (l := i0 :: l0) in *.
  assert (HI : simplify_inv mt (simplify_size l) 0 (simplify_init l) ∅ ∅ m m).
  { split; [done|apply simplify_static_init|apply alias_inv_init|].
    split; intros v; intros *; rewrite ?lookup_empty; try done. }
  pose proof (run_body_sim fuel ms mt simplify_step _ _ l (simplify_init l) 0 m o
    (simplify_sim fuel ms mt Hmodes (simplify_size l)) HI Hssa (simplify_index l Hwf)
    (λ _ _ _ _ _ _ h, smi_machine _ _ _ _ _ _ _ _ h) E) as Hrun.
  destruct (run_pass simplify_step (simplify_init l) l) as [st out]. cbn [fst snd] in *.
  destruct Hpass as (n & Hok & _ & -> & Hroots). unfold run_body in *.
  destruct (exec_list fuel mt out ∅ m) as [r|] eqn:Er; [|done].
  erewrite exec_list_rename; [exact Hrun| |exact Hroots|exact Er].
  intros v x Hv. by rewrite lookup_empty in Hv.
Qed.

Lemma simplify_keeps_wf st i :
  inst_wf i = true -> Forall (λ i, inst_wf i = true) (simplify_step st i).2.
Proof using Type.
  intros Hwf. unfold simplify_step. destruct (resolve_args _ _) as [args al].
  assert (Hkeep : forall i', (simplify_instruction (with_aliases al st) (set_args args i)).1 = Keep i' ->
    i' = set_args args i \/ i' = make_compare_constant (set_args args i)).
  { intros i'. unfold simplify_instruction, simplify_unary, simplify_binary, simplify_select, is_const.
    cbn. repeat case_match; cbn; intros; simplify_eq; auto. }
  destruct (simplify_instruction _ _) as [[i'|v] st']; cbn in *;
    [|by destruct (resolve _ _)]. constructor; [|done].
  destruct (Hkeep i' eq_refl) as [->| ->]; [done|]. apply andb_true_iff. split; [|done].
  unfold const_imm_ok. cbn. case_bool_decide; [|done]. cbn. by case_match.
Qed.

Lemma simplify_ok l : body_ok l = true -> body_ok (simplify l) = true.
Proof using Type.
  intros Hbody. pose proof (simplify_pass l Hbody) as Hpass.
  apply body_ok_spec in Hbody as [Hssa Hwf]. apply body_ok_spec.
  destruct l as [|i0 l0]; [done|]. unfold simplify. set (l := i0 :: l0) in *.
  assert (Hw : True /\ Forall (λ i, inst_wf i = true) (run_pass simplify_step (simplify_init l) l).2).
  { apply run_pass_Forall with (P := λ _, True); [|done|done]. intros st i _ Hi. split; [done|].
    by apply simplify_keeps_wf. }
  destruct Hw as [_ Hw]. destruct (run_pass simplify_step (simplify_init l) l) as [st out].
  destruct Hpass as (n & Hok & Hout & -> & _). cbn [fst snd] in *.
  split; [by eapply rename_ssa|by apply rename_wf].
Qed.
End SimplifyRun.
