(* ===== verification/Promote.v ===== *)
(** * Promotion of architectural state
    ([promote_architectural_state], src/cpu/optimizer/passes/state_promotion.cpp)

    Register reads are served from the last value read or written, and register
    writes are deferred to the next point where the state must be in memory. *)

From S2P Require Import Prelude.
From S2P Require Import Words.
From S2P Require Import CpuState.
From S2P Require Import Ir.
From S2P Require Import IrValue.
From S2P Require Import PassSim.
From S2P Require Import Aliases.

Record TrackedValue : Type := mkTracked {
  tv_valid : bool;
  tv_dirty : bool;
  tv_value : Z
}.

Definition tracked_none : TrackedValue := mkTracked false false kNoValue.

(** A member of [PromotedState], as a name for the pointer [slot_for] returns. *)
Inductive Slot : Type :=
  | SlotGpr (r : Z) | SlotFpr (r : Z) | SlotVector (r : Z)
  | SlotLR | SlotCTR | SlotCA | SlotOV | SlotSO.

#[export] Instance Slot_eq_dec : EqDecision Slot.
Proof. solve_decision. Defined.

(** An array element without an entry is [tracked_none]. *)
Record PromotedState : Type := mkPromoted {
  ps_gpr : gmap Z TrackedValue;
  ps_fpr : gmap Z TrackedValue;
  ps_vector : gmap Z TrackedValue;
  ps_lr : TrackedValue;
  ps_ctr : TrackedValue;
  ps_xer_ca : TrackedValue;
  ps_xer_ov : TrackedValue;
  ps_xer_so : TrackedValue
}.

Definition promoted_none : PromotedState :=
  mkPromoted ∅ ∅ ∅ tracked_none tracked_none tracked_none tracked_none tracked_none.

Definition get_slot (ps : PromotedState) (sl : Slot) : TrackedValue :=
  match sl with
  | SlotGpr r => default tracked_none (ps_gpr ps !! r)
  | SlotFpr r => default tracked_none (ps_fpr ps !! r)
  | SlotVector r => default tracked_none (ps_vector ps !! r)
  | SlotLR => ps_lr ps
  | SlotCTR => ps_ctr ps
  | SlotCA => ps_xer_ca ps
  | SlotOV => ps_xer_ov ps
  | SlotSO => ps_xer_so ps
  end.

Definition set_slot (sl : Slot) (t : TrackedValue) (ps : PromotedState) : PromotedState :=
  let '(mkPromoted g f v l c ca ov so) := ps in
  match sl with
  | SlotGpr r => mkPromoted (<[r := t]> g) f v l c ca ov so
  | SlotFpr r => mkPromoted g (<[r := t]> f) v l c ca ov so
  | SlotVector r => mkPromoted g f (<[r := t]> v) l c ca ov so
  | SlotLR => mkPromoted g f v t c ca ov so
  | SlotCTR => mkPromoted g f v l t ca ov so
  | SlotCA => mkPromoted g f v l c t ov so
  | SlotOV => mkPromoted g f v l c ca t so
  | SlotSO => mkPromoted g f v l c ca ov t
  end.

Definition slot_for (i : Instruction) : option Slot :=
  match i_op i with
  | Op.ReadGpr | Op.WriteGpr => if i_imm0 i <? 32 then Some (SlotGpr (i_imm0 i)) else None
  | Op.ReadFprBits | Op.WriteFprBits => if i_imm0 i <? 32 then Some (SlotFpr (i_imm0 i)) else None
  | Op.ReadVector | Op.WriteVector => if i_imm0 i <? 128 then Some (SlotVector (i_imm0 i)) else None
  | Op.ReadLR | Op.WriteLR => Some SlotLR
  | Op.ReadCTR | Op.WriteCTR => Some SlotCTR
  | Op.ReadXerCA | Op.SetXerCA => Some SlotCA
  | Op.ReadXerOV | Op.SetXerOV => Some SlotOV
  | Op.ReadXerSO | Op.SetXerSO => Some SlotSO
  | _ => None
  end.

Definition promoted_read (op : Op.t) : bool :=
  match op with
  | Op.ReadGpr | Op.ReadFprBits | Op.ReadVector | Op.ReadLR | Op.ReadCTR | Op.ReadXerCA
  | Op.ReadXerOV | Op.ReadXerSO => true
  | _ => false
  end.

Definition promoted_write (op : Op.t) : bool :=
  match op with
  | Op.WriteGpr | Op.WriteFprBits | Op.WriteVector | Op.WriteLR | Op.WriteCTR | Op.SetXerCA
  | Op.SetXerOV | Op.SetXerSO => true
  | _ => false
  end.

Definition materialize (op : Op.t) (index : Z) (value : Z) (source : Instruction) : Instruction :=
  mkInstr op Void kNoValue [value] index 0
    (i_guest_address source) (i_guest_word source) (i_guest_opcode source).

(** The operation and index [flush] passes to [materialize] for a member. *)
Definition slot_write (sl : Slot) : Op.t * Z :=
  match sl with
  | SlotGpr r => (Op.WriteGpr, r)
  | SlotFpr r => (Op.WriteFprBits, r)
  | SlotVector r => (Op.WriteVector, r)
  | SlotLR => (Op.WriteLR, 0)
  | SlotCTR => (Op.WriteCTR, 0)
  | SlotCA => (Op.SetXerCA, 0)
  | SlotOV => (Op.SetXerOV, 0)
  | SlotSO => (Op.SetXerSO, 0)
  end.

(** The members in the order [flush] visits them. *)
Definition xer_slots : list Slot := [SlotCA; SlotOV; SlotSO].
Definition all_slots : list Slot :=
  (SlotGpr <$> seqZ 0 32) ++ (SlotFpr <$> seqZ 0 32) ++ (SlotVector <$> seqZ 0 128)
  ++ [SlotLR; SlotCTR] ++ xer_slots.

Fixpoint flush_slots (slots : list Slot) (ps : PromotedState) (source : Instruction)
    : PromotedState * list Instruction :=
  match slots with
  | [] => (ps, [])
  | sl :: slots =>
      let t := get_slot ps sl in
      if tv_dirty t then
        let '(op, index) := slot_write sl in
        let '(ps', out) := flush_slots slots (set_slot sl (mkTracked (tv_valid t) false (tv_value t)) ps) source in
        (ps', materialize op index (tv_value t) source :: out)
      else flush_slots slots ps source
  end.

Definition flush (ps : PromotedState) (source : Instruction) : PromotedState * list Instruction :=
  flush_slots all_slots ps source.

Definition flush_xer_flags (ps : PromotedState) (source : Instruction)
    : PromotedState * list Instruction := flush_slots xer_slots ps source.

Definition invalidate_xer_flags (ps : PromotedState) : PromotedState :=
  foldl (λ ps sl, set_slot sl tracked_none ps) ps xer_slots.

Definition requires_materialization (op : Op.t) : bool :=
  let effect := effects op in
  has_effect effect Effect.MayFault || has_effect effect Effect.Trap
  || has_effect effect Effect.ControlFlow || has_effect effect Effect.Barrier
  || has_effect effect Effect.Synchronization
  || match op with Op.Call | Op.CallIndirect | Op.WriteSPR => true | _ => false end.

Definition invalidates_after (i : Instruction) : bool :=
  match i_op i with
  | Op.Call | Op.CallIndirect | Op.WriteSPR | Op.StringLoad => true
  | Op.BranchIf | Op.BranchIndirect => negb (i_imm0 i =? 0)
  | _ => false
  end.

Record PromoteState : Type := mkPromoteState {
  pm_aliases : Aliases;
  pm_state : PromotedState
}.

(** The tail of the loop body: flush, emit, invalidate. *)
Definition promote_other (al : Aliases) (ps : PromotedState) (i : Instruction)
    : PromoteState * list Instruction :=
  let '(ps, out1) :=
    if bool_decide (i_op i = Op.ReadXER \/ i_op i = Op.MoveXERToCR)
    then flush_xer_flags ps i else (ps, []) in
  let '(ps, out2) :=
    if requires_materialization (i_op i) then flush ps i else (ps, []) in
  let ps := if bool_decide (i_op i = Op.WriteXER \/ i_op i = Op.MoveXERToCR)
            then invalidate_xer_flags ps else ps in
  let ps := if invalidates_after i then promoted_none else ps in
  (mkPromoteState al ps, out1 ++ out2 ++ [i]).

Definition promote_step (st : PromoteState) (i0 : Instruction)
    : PromoteState * list Instruction :=
  let ps := pm_state st in
  let '(args, al) := resolve_args (pm_aliases st) (i_args i0) in
  let i := set_args args i0 in
  if promoted_read (i_op i) then
    match slot_for i with
    | Some sl =>
        let t := get_slot ps sl in
        if tv_valid t then
          let '(target, al) := resolve al (tv_value t) in
          (mkPromoteState (assign_alias al (i_result i) target) ps, [])
        else (mkPromoteState al (set_slot sl (mkTracked true false (i_result i)) ps), [i])
    | None => (mkPromoteState al ps, [i])
    end
  else
    match promoted_write (i_op i), slot_for i, i_args i with
    | true, Some sl, a :: _ =>
        let '(v, al) := resolve al a in
        (mkPromoteState al (set_slot sl (mkTracked true true v) ps), [])
    | _, _, _ => promote_other al ps i
    end.

Definition promote (l : list Instruction) : list Instruction :=
  match last l with
  | None => []
  | Some end_source =>
      let '(st, out) :=
        run_pass promote_step (mkPromoteState (init_aliases (max_value_id l)) promoted_none) l in
      out ++ (flush (pm_state st) end_source).2
  end.

Definition promote_architectural_state (b : Block) : Block :=
  set_instructions (promote (b_instructions b)) b.

(** ** Members *)

Lemma get_set_slot sl sl' t ps :
  get_slot (set_slot sl t ps) sl' = if decide (sl = sl') then t else get_slot ps sl'.
Proof.
  destruct ps, sl, sl'; cbn; repeat case_decide; simplify_eq; try done;
    try (by rewrite lookup_insert_eq); by rewrite lookup_insert_ne by congruence.
Qed.

Lemma all_slots_NoDup : NoDup all_slots.
Proof. apply (bool_decide_unpack _). by vm_compute. Qed.

Lemma get_slot_none sl : get_slot promoted_none sl = tracked_none.
Proof. by destruct sl; cbn; rewrite ?lookup_empty. Qed.

(** A member of the C++ struct, as opposed to an index out of range. *)
Definition slot_in_range (sl : Slot) : Prop :=
  match sl with
  | SlotGpr r | SlotFpr r => 0 <= r < 32
  | SlotVector r => 0 <= r < 128
  | _ => True
  end.

Lemma all_slots_complete sl : slot_in_range sl -> sl ∈ all_slots.
Proof.
  unfold all_slots. rewrite !elem_of_app. intros Hr. destruct sl as [r|r|r| | | | |].
  - left. apply list_elem_of_fmap. exists r. split; [done|]. apply elem_of_seqZ. cbn in Hr. lia.
  - right; left. apply list_elem_of_fmap. exists r. split; [done|]. apply elem_of_seqZ. cbn in Hr. lia.
  - right; right; left. apply list_elem_of_fmap. exists r. split; [done|]. apply elem_of_seqZ.
    cbn in Hr. lia.
  - do 3 right. left. by repeat constructor.
  - do 3 right. left. by repeat constructor.
  - do 4 right. by repeat constructor.
  - do 4 right. by repeat constructor.
  - do 4 right. by repeat constructor.
Qed.
