(* ===== verification/PromoteSlots.v ===== *)
(** * Promoted registers as slots of the CPU state

    What the members of [PromotedState] stand for: a readable and writable part of
    [CpuState]. Distinct slots are independent, and a set of deferred writes is a
    patch that can be applied in any order. The source state is the target state with
    the deferred writes applied: an operation that does not force the state into
    memory neither reads nor writes the deferred registers, so it commutes with them. *)

From S2P Require Import Prelude.
From S2P Require Import Words.
From S2P Require Import CpuState.
From S2P Require Import Ir.
From S2P Require Import IrValue.
From S2P Require Import IrSem.
From S2P Require Import IrRefine.
From S2P Require Import PassSim.
From S2P Require Import Aliases.
From S2P Require Import Promote.
From S2P Require Import AotScalar.
From S2P Require Import Services.
From S2P Require Import AliasPass.

(** The variable a read of the slot declares. *)
Definition slot_get (sl : Slot) (s : CpuState) : TVal :=
  match sl with
  | SlotGpr r => TInt I64 (u64 (get_gpr s r))
  | SlotFpr r => TInt I64 (u64 (get_fpr s r))
  | SlotVector r => TVec (get_vr s r)
  | SlotLR => TInt I64 (u64 (lr s))
  | SlotCTR => TInt I64 (u64 (ctr s))
  | SlotCA => tbool (xer_ca s)
  | SlotOV => tbool (xer_ov s)
  | SlotSO => tbool (xer_so s)
  end.

Definition slot_set (sl : Slot) (x : TVal) (s : CpuState) : CpuState :=
  match sl, x with
  | SlotGpr r, TInt I64 z => set_gpr r z s
  | SlotFpr r, TInt I64 z => set_fpr r z s
  | SlotVector r, TVec v => set_vr r v s
  | SlotLR, TInt I64 z => set_lr z s
  | SlotCTR, TInt I64 z => set_ctr z s
  | SlotCA, TInt I1 z => set_xer_ca (negb (z =? 0)) s
  | SlotOV, TInt I1 z => set_xer_ov (negb (z =? 0)) s
  | SlotSO, TInt I1 z => set_xer_so (negb (z =? 0)) s
  | _, _ => s
  end.

Definition slot_type (sl : Slot) : IrType :=
  match sl with
  | SlotGpr _ | SlotFpr _ | SlotLR | SlotCTR => I64
  | SlotVector _ => V128
  | SlotCA | SlotOV | SlotSO => I1
  end.

(** Values a slot holds. *)
Definition slot_ok (sl : Slot) (x : TVal) : Prop := has_type (slot_type sl) x /\ tight x.

(** ** Flags *)

Lemma flag_set_update x f b : 0 < f -> flag_set (flag_update x f b) f = b.
Proof.
  intros Hf. unfold flag_set, flag_update, bits_clear. destruct b.
  - rewrite Z.land_lor_distr_l, Z.land_diag.
    replace (x .& f .| f) with f; [by destruct (Z.eqb_spec f 0); [lia|]|].
    apply Z.bits_inj'. intros n Hn. rewrite Z.lor_spec, Z.land_spec.
    by destruct (Z.testbit f n), (Z.testbit x n).
  - rewrite Z.land_comm. replace (f .& Z.ldiff x f) with 0; [done|].
    apply Z.bits_inj'. intros n Hn. rewrite Z.land_spec, Z.ldiff_spec, Z.bits_0.
    by destruct (Z.testbit f n), (Z.testbit x n).
Qed.

Lemma flag_set_other x f g b : f .& g = 0 -> flag_set (flag_update x f b) g = flag_set x g.
Proof.
  intros Hd. unfold flag_set, flag_update, bits_clear. do 2 f_equal. apply Z.bits_inj'. intros n Hn.
  apply (f_equal (λ z, Z.testbit z n)) in Hd. rewrite Z.land_spec, Z.bits_0 in Hd.
  destruct b; rewrite !Z.land_spec, ?Z.lor_spec, ?Z.ldiff_spec;
    by destruct (Z.testbit f n), (Z.testbit g n), (Z.testbit x n).
Qed.

Lemma flag_update_twice x f a b : flag_update (flag_update x f a) f b = flag_update x f b.
Proof.
  unfold flag_update, bits_clear. apply Z.bits_inj'. intros n Hn.
  destruct a, b; rewrite ?Z.lor_spec, ?Z.ldiff_spec, ?Z.lor_spec, ?Z.ldiff_spec;
    by destruct (Z.testbit f n), (Z.testbit x n).
Qed.

Lemma flag_update_comm x f g a b :
  f .& g = 0 -> flag_update (flag_update x f a) g b = flag_update (flag_update x g b) f a.
Proof.
  intros Hd. unfold flag_update, bits_clear. apply Z.bits_inj'. intros n Hn.
  apply (f_equal (λ z, Z.testbit z n)) in Hd. rewrite Z.land_spec, Z.bits_0 in Hd.
  destruct a, b; rewrite ?Z.lor_spec, ?Z.ldiff_spec, ?Z.lor_spec, ?Z.ldiff_spec;
    by destruct (Z.testbit f n), (Z.testbit g n), (Z.testbit x n).
Qed.

(** ** Laws of slots *)

Lemma tbool_inv x : has_type I1 x -> tight x -> exists b, x = tbool b.
Proof.
  destruct x as [t z| | | | |]; try done; cbn; intros Ht ?; try (by destruct Ht).
  destruct Ht as (-> & _ & Hz). exists (negb (z =? 0)). unfold tbool. f_equal. cbn in Hz.
  assert (z = 0 \/ z = 1) as [-> | ->] by lia; done.
Qed.

Lemma word_inv x : has_type I64 x -> tight x -> exists z, x = TInt I64 z /\ is_u64 z.
Proof.
  destruct x as [t z| | | | |]; try done; cbn; intros Ht ?; try (by destruct Ht).
  destruct Ht as (-> & _ & Hz). by exists z.
Qed.

Lemma vec_inv x : has_type V128 x -> exists v, x = TVec v.
Proof.
  destruct x as [t z|z|z|z|z|v]; cbn; intros Ht; try done; try (by destruct Ht as [? _]).
  - by destruct Ht as (-> & ? & _).
  - by exists v.
Qed.

Lemma bool_of_b2z b : negb (Z.b2z b =? 0) = b.
Proof. by destruct b. Qed.

Lemma slot_get_ok sl s : slot_ok sl (slot_get sl s).
Proof.
  split; [|by destruct sl]. destruct sl; first [apply has_type_u64|apply has_type_bool|done].
Qed.

Lemma slot_get_set sl sl' x s :
  slot_ok sl x -> slot_get sl' (slot_set sl x s) = if decide (sl' = sl) then x else slot_get sl' s.
Proof.
  intros [Hx Ht]. case_decide as Hsl.
  - subst sl'. destruct sl; cbn in Hx;
      first [ destruct (word_inv x Hx Ht) as (z & -> & Hz)
            | destruct (tbool_inv x Hx Ht) as [b ->] | destruct (vec_inv x Hx) as [v ->] ]; cbn;
      unfold get_gpr, get_fpr, get_vr; cbn; rewrite ?lookup_insert_eq; cbn;
      rewrite ?u64_small by done; try done;
      unfold xer_ca, xer_ov, xer_so; cbn; rewrite ?flag_set_update, ?bool_of_b2z by done; done.
  - destruct sl; cbn in Hx;
      first [ destruct (word_inv x Hx Ht) as (z & -> & Hz)
            | destruct (tbool_inv x Hx Ht) as [b ->] | destruct (vec_inv x Hx) as [v ->] ];
      destruct sl'; cbn; try done;
      unfold get_gpr, get_fpr, get_vr, xer_ca, xer_ov, xer_so; cbn;
      rewrite ?lookup_insert_ne by congruence; rewrite ?flag_set_other by done; done.
Qed.

Lemma slot_set_twice sl x y s :
  slot_ok sl x -> slot_ok sl y -> slot_set sl x (slot_set sl y s) = slot_set sl x s.
Proof.
  intros [Hx Ht] [Hy Ht']. destruct sl; cbn in Hx, Hy;
    first [ destruct (word_inv x Hx Ht) as (z & -> & Hz); destruct (word_inv y Hy Ht') as (z' & -> & Hz')
          | destruct (tbool_inv x Hx Ht) as [b ->]; destruct (tbool_inv y Hy Ht') as [b' ->]
          | destruct (vec_inv x Hx) as [v ->]; destruct (vec_inv y Hy) as [v' ->] ]; cbn;
    unfold set_gpr, set_fpr, set_vr, set_gprs, set_fprs, set_vrs, set_xer_ca, set_xer_ov, set_xer_so, set_xer,
      set_lr, set_ctr; cbn; rewrite ?insert_insert_eq, ?flag_update_twice; done.
Qed.

Lemma slot_set_comm sl sl' x y s :
  sl <> sl' -> slot_ok sl x -> slot_ok sl' y ->
  slot_set sl x (slot_set sl' y s) = slot_set sl' y (slot_set sl x s).
Proof.
  intros Hne [Hx Ht] [Hy Ht']. destruct sl; cbn in Hx;
    first [ destruct (word_inv x Hx Ht) as (z & -> & Hz)
          | destruct (tbool_inv x Hx Ht) as [b ->] | destruct (vec_inv x Hx) as [v ->] ];
    destruct sl'; cbn in Hy; try done;
    first [ destruct (word_inv y Hy Ht') as (z' & -> & Hz')
          | destruct (tbool_inv y Hy Ht') as [b' ->] | destruct (vec_inv y Hy) as [v' ->] ];
    cbn; try done;
    unfold set_gpr, set_fpr, set_vr, set_gprs, set_fprs, set_vrs, set_xer_ca, set_xer_ov, set_xer_so, set_xer; cbn;
    f_equal; first [by apply insert_insert_ne; congruence | by apply flag_update_comm].
Qed.

(** ** Patches *)

Section Patch.
(** The deferred value of each slot. *)
Implicit Type f : Slot -> option TVal.

Definition patch f (slots : list Slot) (s : CpuState) : CpuState :=
  foldl (λ s sl, match f sl with Some x => slot_set sl x s | None => s end) s slots.

Lemma patch_cons f sl slots s :
  patch f (sl :: slots) s =
    patch f slots (match f sl with Some x => slot_set sl x s | None => s end).
Proof. done. Qed.

Definition patch_ok f : Prop := forall sl x, f sl = Some x -> slot_ok sl x.

Definition upd (sl : Slot) (x : option TVal) f : Slot -> option TVal :=
  λ sl', if decide (sl' = sl) then x else f sl'.

Lemma patch_ext f g slots s :
  (forall sl, sl ∈ slots -> f sl = g sl) -> patch f slots s = patch g slots s.
Proof.
  revert s. induction slots as [|sl slots IH]; intros s Hfg; [done|]. rewrite !patch_cons.
  rewrite (Hfg sl) by (by left). apply IH. intros sl' Hin. apply Hfg. by right.
Qed.

Lemma patch_none slots s : patch (λ _, None) slots s = s.
Proof. induction slots as [|sl slots IH]; [done|exact IH]. Qed.

(** A state transformation that every slot write commutes with. *)
Lemma patch_frame (h : CpuState -> CpuState) f slots s :
  (forall sl x s, sl ∈ slots -> f sl = Some x -> h (slot_set sl x s) = slot_set sl x (h s)) ->
  h (patch f slots s) = patch f slots (h s).
Proof.
  revert s. induction slots as [|sl slots IH]; intros s Hh; [done|]. rewrite !patch_cons.
  rewrite IH by (intros; apply Hh; [by right|done]). f_equal.
  destruct (f sl) as [x|] eqn:Ef; [|done]. apply Hh; [by left|done].
Qed.

Lemma patch_set_out f slots sl x s :
  patch_ok f -> sl ∉ slots -> slot_ok sl x ->
  slot_set sl x (patch f slots s) = patch f slots (slot_set sl x s).
Proof.
  intros Hok Hnin Hx. apply (patch_frame (slot_set sl x)). intros sl' y s' Hin Hy.
  apply slot_set_comm; [by intros ->|done|by apply Hok].
Qed.

Lemma patch_app f l1 l2 s : patch f (l1 ++ l2) s = patch f l2 (patch f l1 s).
Proof. apply foldl_app. Qed.

Lemma patch_upd_out f slots sl x s : sl ∉ slots -> patch (upd sl x f) slots s = patch f slots s.
Proof.
  intros Hnin. apply patch_ext. intros sl' Hin. unfold upd. case_decide; [|done]. by subst.
Qed.

(** Deferring one more write. *)
Lemma patch_defer f slots sl x s :
  patch_ok f -> NoDup slots -> sl ∈ slots -> slot_ok sl x ->
  patch (upd sl (Some x) f) slots s = slot_set sl x (patch f slots s).
Proof.
  intros Hok Hnd Hin Hx. apply list_elem_of_split in Hin as (l1 & l2 & ->).
  apply NoDup_app in Hnd as (_ & Hnd1 & Hnd2). apply NoDup_cons in Hnd2 as [Hnd2 _].
  assert (Hnin : sl ∉ l1) by (intros H1; apply (Hnd1 sl H1); by left).
  rewrite !patch_app, !patch_cons. rewrite !patch_upd_out by done. unfold upd at 1.
  rewrite decide_True by done. rewrite (patch_set_out f l2) by done.
  destruct (f sl) as [y|] eqn:Ef; [|done].
  f_equal. symmetry. apply slot_set_twice; [done|by apply Hok].
Qed.

(** Performing one of the deferred writes. *)
Lemma patch_perform f slots sl x s :
  patch_ok f -> NoDup slots -> sl ∈ slots -> f sl = Some x ->
  patch f slots s = patch (upd sl None f) slots (slot_set sl x s).
Proof.
  intros Hok Hnd Hin Hx. apply list_elem_of_split in Hin as (l1 & l2 & ->).
  apply NoDup_app in Hnd as (_ & Hnd1 & Hnd2). apply NoDup_cons in Hnd2 as [Hnd2 _].
  assert (Hnin : sl ∉ l1) by (intros H1; apply (Hnd1 sl H1); by left).
  rewrite !patch_app, !patch_cons. rewrite !patch_upd_out by done. unfold upd at 1.
  rewrite decide_True, Hx by done. by rewrite patch_set_out by (done || by apply Hok).
Qed.

Lemma patch_get f slots sl s :
  patch_ok f -> NoDup slots ->
  slot_get sl (patch f slots s) =
    if decide (sl ∈ slots) then default (slot_get sl s) (f sl) else slot_get sl s.
Proof.
  intros Hok Hnd. revert s. induction Hnd as [|sl' slots Hnin Hnd IH]; intros s; [done|]. rewrite patch_cons.
  rewrite IH. destruct (f sl') as [x|] eqn:Ef.
  - rewrite slot_get_set by (by apply Hok). destruct (decide (sl = sl')) as [->|Hne].
    + rewrite (decide_False (P := sl' ∈ slots)) by done.
      rewrite decide_True by (by left). by rewrite Ef.
    + destruct (decide (sl ∈ slots)).
      * by rewrite decide_True by (by right).
      * rewrite decide_False; [done|]. by intros [?|?]%elem_of_cons.
  - destruct (decide (sl ∈ slots)).
    + by rewrite decide_True by (by right).
    + destruct (decide (sl ∈ sl' :: slots)) as [Hin|]; [|done].
      apply elem_of_cons in Hin as [->|?]; [|done]. by rewrite Ef.
Qed.
End Patch.

#[global] Arguments patch : simpl never.

(** ** Changing the promoted registers *)

Section MapRegs.
Context (G F : RegFile Z -> RegFile Z) (V : RegFile Vector128 -> RegFile Vector128).
Context (L C X : Z -> Z).

Definition map_regs (s : CpuState) : CpuState :=
  mkCpu (G (gpr s)) (F (fpr_bits s)) (V (vr s)) (L (lr s)) (C (ctr s)) (cr s) (X (xer s))
    (fpscr s) (vscr s) (msr s) (vrsave s) (pvr s) (time_base s) (cia s) (nia s) (reservation s).
End MapRegs.

(** What the runtime promises: reading a special-purpose register or the time base
    does not depend on the general, floating-point and vector registers, LR, CTR,
    XER or CR, which have IR operations of their own. *)
Class PromotionLaws (W : Type) `{RuntimeServices W} : Prop := {
  read_spr_regs : forall n G F V L C X s w,
    n <> 1 -> n <> 8 -> n <> 9 ->
    rt_read_spr n (map_regs G F V L C X s) w = rt_read_spr n s w;
  read_time_base_regs : forall G F V L C X s w,
    rt_read_time_base (map_regs G F V L C X s) w = rt_read_time_base s w;
  read_spr_cr : forall n c s w, rt_read_spr n (set_cr c s) w = rt_read_spr n s w;
  read_time_base_cr : forall c s w, rt_read_time_base (set_cr c s) w = rt_read_time_base s w
}.

Definition step_map {W} (h : CpuState -> CpuState) (r : Step W) : Step W :=
  match r with Next v s w => Next v (h s) w | Exit r s w => Exit r (h s) w end.

(** Operations that touch XER as a whole. *)
Definition xer_op (op : Op.t) : bool :=
  match op with Op.ReadXER | Op.MoveXERToCR | Op.WriteXER => true | _ => false end.

(** Operations the pass leaves in place without flushing. *)
Definition quiet (i : Instruction) : bool :=
  negb (promoted_read (i_op i)) && negb (promoted_write (i_op i))
  && negb (requires_materialization (i_op i)) && promotable i.

Section Commute.
Context {W : Type} `{MemoryPort W, RuntimeServices W, HostHelpers W, !PromotionLaws W}.
Context (fuel : nat) (mode : Mode).
Context (G F : RegFile Z -> RegFile Z) (V : RegFile Vector128 -> RegFile Vector128).
Context (L C X : Z -> Z).

Abbreviation h := (map_regs G F V L C X).

Lemma foldl_map {A} (g : CpuState -> A -> CpuState) l s :
  (forall s x, g (h s) x = h (g s x)) -> foldl g (h s) l = h (foldl g s l).
Proof using Type.
  intros Hg. revert s. induction l as [|x l IH]; intros s; [done|]. cbn. by rewrite Hg, IH.
Qed.

Lemma exec_state_map i args s :
  quiet i = true -> (xer_op (i_op i) = true -> X = id) ->
  exec_state mode i args (h s) = (λ '(v, s), (v, h s)) <$> exec_state mode i args s.
Proof using Type.
  destruct i as [op t res ia imm0 imm1 ga gw go]. intros Hq Hx.
  destruct op; try done; destruct args as [|a [|b [|c [|d [|]]]]]; try done.
  all: unfold exec_state; cbn [i_op i_type i_imm0 i_imm1].
  all: repeat match goal with
    | |- context [any_int ?a] => destruct (any_int a); cbn; try done
    | |- context [as_vec ?a] => destruct (as_vec a); cbn; try done
    | |- context [bool_of ?a] => destruct (bool_of a); cbn; try done
    | |- context [read_int _ _ _] => unfold read_int; cbn
    | |- context [typed _ _ _] => unfold typed; cbn
    end.
  all: try reflexivity; try (rewrite (Hx eq_refl); reflexivity).
  all: try (do 2 f_equal; apply foldl_map; intros; by destruct (_ =? 0)).
  all: unfold move_fpscr_field_to_cr, set_fpscr_bit, write_msr; cbn;
    repeat case_match; try reflexivity; by rewrite (Hx eq_refl).
Qed.

Lemma exec_inst_map i args s w :
  quiet i = true -> (xer_op (i_op i) = true -> X = id) ->
  exec_inst fuel mode i args (h s) w = step_map h <$> exec_inst (W := W) fuel mode i args s w.
Proof using PromotionLaws0.
  intros Hq Hx. unfold exec_inst.
  assert (Hst : lift_state w (exec_state mode i args (h s)) =
                step_map h <$> lift_state w (exec_state mode i args s)).
  { rewrite exec_state_map by done. unfold lift_state.
    by destruct (exec_state mode i args s) as [[v s']|]. }
  destruct (is_pure (i_op i)); [by destruct (eval_pure mode i args)|].
  destruct (bool_decide _); [done|].
  destruct (is_vector_compute (i_op i)).
  { unfold exec_vector. destruct (mapM as_vec args); [|done]. cbn.
    destruct (vector_inline i l) as [[r|]|]; cbn; [by destruct (typed _ _ _)|done|].
    destruct (_ =? _)%string; [done|]. destruct (hh_vector _ _ _ _ _) as [[r c] w'].
    by destruct (typed _ _ _). }
  destruct (is_fp_helper (i_op i)).
  { unfold exec_fp. destruct (fp_call i args) as [[c t]|]; [|done]. cbn.
    destruct (hh_fp c _ _) as [[x sc] w']. destruct t as [t|]; [|done]. by destruct (fp_result _ _ _). }
  unfold quiet in Hq. rewrite !andb_true_iff, !negb_true_iff in Hq. destruct Hq as [[[_ _] Hm] Hp].
  destruct (is_memory_op (i_op i)) eqn:Hmem.
  { unfold exec_memory. destruct (i_op i); try discriminate Hmem; try discriminate Hm;
      try reflexivity.
    destruct args as [|a [|]]; try reflexivity. by destruct (any_int a). }
  destruct (is_control_op (i_op i)) eqn:Hctl; [|done].
  unfold exec_control. unfold promotable in Hp.
  destruct (i_op i); try discriminate Hctl; try discriminate Hm; destruct args; try done.
  - rewrite (read_time_base_regs G F V L C X s w). destruct (rt_read_time_base s w) as [z w']. by destruct (read_int _ _ _).
  - apply negb_true_iff in Hp. rewrite !orb_false_iff, !Z.eqb_neq in Hp.
    rewrite (read_spr_regs (i_imm0 i) G F V L C X s w) by tauto. destruct (rt_read_spr _ s w) as [z w']. by destruct (read_int _ _ _).
Qed.
End Commute.

(** ** What an operation leaves alone *)

(** Follow an executed operation to the step it took. *)
Ltac split_exec E :=
  repeat match type of E with
  | mbind _ ?m = Some _ => destruct m; cbn in E; [|discriminate E]
  | Some (let '(_, _) := ?p in _) = Some _ => destruct p; cbn in E
  | (let '(_, _) := ?p in _) = Some _ => destruct p; cbn in E
  | (match ?x with _ => _ end) _ = Some _ => destruct x; cbn in E; try discriminate E
  | Some (match ?x with _ => _ end) = Some _ => destruct x; cbn in E; try discriminate E
  | match ?x with _ => _ end = Some _ => destruct x; cbn in E; try discriminate E
  end.

Definition same_regs (s s' : CpuState) : Prop :=
  gpr s' = gpr s /\ fpr_bits s' = fpr_bits s /\ vr s' = vr s /\ lr s' = lr s /\ ctr s' = ctr s.

Lemma slot_get_same sl s s' :
  same_regs s s' -> (sl ∈ xer_slots -> xer s' = xer s) -> slot_get sl s' = slot_get sl s.
Proof.
  intros (Hg & Hf & Hv & Hl & Hc) Hx.
  destruct sl; cbn; unfold get_gpr, get_fpr, get_vr, xer_ca, xer_ov, xer_so; try congruence;
    by rewrite Hx by (by repeat constructor).
Qed.

Section Frame.
Context {W : Type} `{MemoryPort W, RuntimeServices W, HostHelpers W, !PromotionLaws W}.
Context (fuel : nat) (mode : Mode).

(** Only materialised operations leave the block. *)
Lemma calm_next i args s (w : W) x s' w' :
  requires_materialization (i_op i) = false ->
  exec_inst fuel mode i args s w <> Some (Exit x s' w').
Proof using Type.
  intros Hm E. unfold exec_inst in E.
  assert (Hst : lift_state w (exec_state mode i args s) <> Some (Exit x s' w')).
  { unfold lift_state. by destruct (exec_state mode i args s) as [[? ?]|]. }
  destruct (is_pure (i_op i)) eqn:Hpure; [by destruct (eval_pure mode i args)|].
  destruct (bool_decide _); [done|].
  destruct (is_vector_compute (i_op i)).
  { unfold exec_vector in E. destruct (mapM as_vec args); [|done]. cbn in E.
    destruct (vector_inline i l) as [[r|]|]; cbn in E; [by destruct (typed _ _ _)|done|].
    destruct (_ =? _)%string; [done|]. destruct (hh_vector _ _ _ _ _) as [[r c] w2].
    by destruct (typed _ _ _). }
  destruct (is_fp_helper (i_op i)).
  { unfold exec_fp in E. destruct (fp_call i args) as [[c t]|]; [|done]. cbn in E.
    destruct (hh_fp c _ _) as [[y sc] w2]. destruct t as [t|]; [|done]. by destruct (fp_result _ _ _). }
  destruct (is_memory_op (i_op i)) eqn:Hmem.
  { unfold exec_memory in E. destruct (i_op i); try discriminate Hmem; try discriminate Hm;
      try discriminate E. destruct args as [|a [|]]; try discriminate E. by destruct (any_int a). }
  destruct (is_control_op (i_op i)) eqn:Hctl; [|done]. unfold exec_control in E.
  destruct (i_op i); try discriminate Hctl; try discriminate Hm; destruct args; try discriminate E.
  - destruct (rt_read_time_base s w) as [z w2]. by destruct (read_int _ _ _).
  - destruct (rt_read_spr _ s w) as [z w2]. by destruct (read_int _ _ _).
Qed.

Lemma quiet_next i args s (w : W) x s' w' :
  quiet i = true -> exec_inst fuel mode i args s w <> Some (Exit x s' w').
Proof using Type.
  unfold quiet. rewrite !andb_true_iff, !negb_true_iff. intros [[[_ _] Hm] _]. by apply calm_next.
Qed.

Lemma quiet_frame i args s (w : W) r :
  quiet i = true -> exec_inst fuel mode i args s w = Some r ->
  exists v s' w', r = Next v s' w' /\ same_regs s s' /\ (xer_op (i_op i) = false -> xer s' = xer s).
Proof.
  intros Hq E.
  assert (Hmap : forall X, (xer_op (i_op i) = true -> X = id) -> X (xer s) = xer s ->
    step_map (map_regs (λ _, gpr s) (λ _, fpr_bits s) (λ _, vr s) (λ _, lr s) (λ _, ctr s) X) r = r).
  { intros X HX Hs. pose proof (exec_inst_map fuel mode (λ _, gpr s) (λ _, fpr_bits s) (λ _, vr s)
      (λ _, lr s) (λ _, ctr s) X i args s w Hq HX) as Hm.
    replace (map_regs _ _ _ _ _ _ s) with s in Hm by (unfold map_regs; rewrite Hs; by destruct s).
    rewrite E in Hm. cbn in Hm. by injection Hm. }
  destruct r as [v s' w'|x s' w'].
  - exists v, s', w'. split; [done|]. split.
    + specialize (Hmap id (λ _, eq_refl) eq_refl). cbn in Hmap. injection Hmap as Hmap.
      rewrite <- Hmap. by repeat split.
    + intros Hx. specialize (Hmap (λ _, xer s)). cbn in Hmap. rewrite Hx in Hmap.
      specialize (Hmap ltac:(done) eq_refl). injection Hmap as Hmap. by rewrite <- Hmap.
  - by apply quiet_next in E.
Qed.

(** Materialised operations that do not invalidate leave the registers alone. *)
Lemma materialized_frame i args s (w : W) v s' w' :
  requires_materialization (i_op i) = true -> invalidates_after i = false ->
  exec_inst fuel mode i args s w = Some (Next v s' w') -> same_regs s s' /\ xer s' = xer s.
Proof using Type.
  intros Hm Hi E. unfold exec_inst in E.
  assert (Hp : is_pure (i_op i) = false) by (by destruct (i_op i)).
  assert (Hc : is_memory_op (i_op i) = true \/ is_control_op (i_op i) = true)
    by (destruct (i_op i); try discriminate Hm; auto).
  rewrite Hp in E. rewrite bool_decide_false in E by (intros He; by rewrite He in Hm).
  assert (is_vector_compute (i_op i) = false) as Hv by (by destruct (i_op i)). rewrite Hv in E.
  assert (is_fp_helper (i_op i) = false) as Hf by (by destruct (i_op i)). rewrite Hf in E.
  destruct (is_memory_op (i_op i)) eqn:Hmem.
  - unfold exec_memory, mem_done, mem_step in E. unfold invalidates_after in Hi.
    destruct (i_op i); try discriminate E; try discriminate Hi;
      destruct args as [|a [|b [|]]]; try discriminate E;
      split_exec E; simplify_eq; by repeat split.
  - destruct Hc as [?|Hctl]; [done|]. rewrite Hctl in E. unfold exec_control in E.
    unfold invalidates_after in Hi. destruct (i_op i); try discriminate E; try discriminate Hi;
      destruct args as [|a [|b [|]]]; try discriminate E;
      rewrite ?Hi in E; try (apply negb_false_iff in Hi; rewrite Hi in E);
      unfold branch_exit, indirect_branch, service_exit, exec_trap in E;
      split_exec E; simplify_eq; try (by repeat split).
    unfold service_exit in E. by destruct (rt_trap _ _ _) as [[? ?] ?].
Qed.
End Frame.
