(* ===== verification/PromoteRun.v ===== *)
(** * State promotion: the relation between states, flushes, and the output's shape *)

From S2P Require Import Prelude.
From S2P Require Import Words.
From S2P Require Import CpuState.
From S2P Require Import AotScalar.
From S2P Require Import Ir.
From S2P Require Import IrValue.
From S2P Require Import Services.
From S2P Require Import IrSem.
From S2P Require Import IrRefine.
From S2P Require Import PassSim.
From S2P Require Import Aliases.
From S2P Require Import AliasPass.
From S2P Require Import Promote.
From S2P Require Import PromoteSlots.

(** ** The relation *)

Definition dirty_val (ps : PromotedState) (e' : Env) (sl : Slot) : option TVal :=
  let t := get_slot ps sl in if tv_dirty t then e' !! tv_value t else None.

(** Source state [s], target state [s']. *)
Record promote_rel (ps : PromotedState) (e' : Env) (s s' : CpuState) : Prop := mkPromoteRel {
  pr_patch : s = patch (dirty_val ps e') all_slots s';
  pr_valid : forall sl, slot_in_range sl -> tv_valid (get_slot ps sl) = true ->
    e' !! tv_value (get_slot ps sl) = Some (slot_get sl s);
  pr_dirty : forall sl, tv_dirty (get_slot ps sl) = true ->
    slot_in_range sl /\ tv_valid (get_slot ps sl) = true
}.

Lemma dirty_patch_ok ps e' s s' : promote_rel ps e' s s' -> patch_ok (dirty_val ps e').
Proof.
  intros [_ Hv Hd] sl x. unfold dirty_val. destruct (tv_dirty (get_slot ps sl)) eqn:Ed; [|done].
  destruct (Hd sl Ed) as [Hr Hval]. rewrite (Hv sl Hr Hval). intros [= <-]. apply slot_get_ok.
Qed.

Lemma dirty_val_get ps e' s s' sl x :
  promote_rel ps e' s s' -> dirty_val ps e' sl = Some x -> x = slot_get sl s.
Proof.
  intros [_ Hv Hd]. unfold dirty_val. destruct (tv_dirty (get_slot ps sl)) eqn:Ed; [|done].
  destruct (Hd sl Ed) as [Hr Hval]. rewrite (Hv sl Hr Hval). by intros [= <-].
Qed.

Lemma promote_rel_none e' s : promote_rel promoted_none e' s s.
Proof.
  split.
  - symmetry. etrans; [|apply (patch_none all_slots)]. apply patch_ext. intros sl _.
    unfold dirty_val. by rewrite get_slot_none.
  - intros sl _. by rewrite get_slot_none.
  - intros sl. by rewrite get_slot_none.
Qed.

(** Nothing deferred: the states are equal. *)
Lemma promote_rel_clean ps e' s s' :
  promote_rel ps e' s s' -> (forall sl, slot_in_range sl -> tv_dirty (get_slot ps sl) = false) -> s' = s.
Proof.
  intros [Hp _ Hd] Hclean. rewrite Hp. symmetry. etrans; [|apply (patch_none all_slots)].
  apply patch_ext. intros sl _. unfold dirty_val. destruct (tv_dirty (get_slot ps sl)) eqn:Ed; [|done].
  destruct (Hd sl Ed) as [Hr _]. by rewrite (Hclean sl Hr) in Ed.
Qed.

(** A clean slot reads the same on both sides. *)
Lemma promote_rel_read ps e' s s' sl :
  promote_rel ps e' s s' -> tv_dirty (get_slot ps sl) = false -> slot_get sl s' = slot_get sl s.
Proof.
  intros Hrel Hd. rewrite (pr_patch _ _ _ _ Hrel).
  rewrite patch_get by (eauto using dirty_patch_ok, all_slots_NoDup).
  unfold dirty_val. rewrite Hd. by case_decide.
Qed.

Lemma promote_rel_extend ps e' s s' r x :
  e' !! r = None -> promote_rel ps e' s s' -> promote_rel ps (<[r := x]> e') s s'.
Proof.
  intros Hr Hrel. pose proof Hrel as [Hp Hv Hd].
  assert (Hval : forall sl, slot_in_range sl -> tv_valid (get_slot ps sl) = true ->
    <[r := x]> e' !! tv_value (get_slot ps sl) = Some (slot_get sl s)).
  { intros sl Hs Hvl. specialize (Hv sl Hs Hvl). rewrite lookup_insert_ne; [done|]. intros ->. congruence. }
  split; [|done|done]. etrans; [exact Hp|]. apply patch_ext. intros sl _. unfold dirty_val.
  destruct (tv_dirty (get_slot ps sl)) eqn:Ed; [|done]. destruct (Hd sl Ed) as [Hs Hvl].
  by rewrite (Hv sl Hs Hvl), (Hval sl Hs Hvl).
Qed.

(** Performing the deferred write of one slot. *)
Lemma promote_rel_perform ps e' s s' sl :
  promote_rel ps e' s s' -> tv_dirty (get_slot ps sl) = true ->
  promote_rel (set_slot sl (mkTracked (tv_valid (get_slot ps sl)) false (tv_value (get_slot ps sl))) ps)
    e' s (slot_set sl (slot_get sl s) s').
Proof.
  intros Hrel Ed. pose proof Hrel as [Hp Hv Hd]. destruct (Hd sl Ed) as [Hr Hval].
  split.
  - etrans; [exact Hp|]. rewrite (patch_perform _ _ sl (slot_get sl s)).
    + apply patch_ext. intros sl' _. unfold upd, dirty_val. rewrite get_set_slot.
      repeat case_decide; simplify_eq; done.
    + by eapply dirty_patch_ok.
    + apply all_slots_NoDup.
    + by apply all_slots_complete.
    + unfold dirty_val. by rewrite Ed, (Hv sl Hr Hval).
  - intros sl' Hr'. rewrite get_set_slot. case_decide; subst; [by apply Hv|by apply Hv].
  - intros sl'. rewrite get_set_slot. case_decide; subst; [done|by apply Hd].
Qed.

(** Recording the value just read. *)
Lemma promote_rel_track ps e' s s' sl v :
  promote_rel ps e' s s' -> tv_dirty (get_slot ps sl) = false -> e' !! v = Some (slot_get sl s) ->
  promote_rel (set_slot sl (mkTracked true false v) ps) e' s s'.
Proof.
  intros [Hp Hv Hd] Ed Hx. split.
  - etrans; [exact Hp|]. apply patch_ext. intros sl' _. unfold dirty_val. rewrite get_set_slot.
    case_decide; [|done]. subst. by rewrite Ed.
  - intros sl' Hr'. rewrite get_set_slot. case_decide; subst; [done|by apply Hv].
  - intros sl'. rewrite get_set_slot. case_decide; subst; [done|by apply Hd].
Qed.

(** Deferring a write. *)
Lemma promote_rel_defer ps e' s s' sl v x :
  promote_rel ps e' s s' -> slot_in_range sl -> slot_ok sl x -> e' !! v = Some x ->
  promote_rel (set_slot sl (mkTracked true true v) ps) e' (slot_set sl x s) s'.
Proof.
  intros Hrel Hr Hx Hv'. pose proof Hrel as [Hp Hv Hd]. split.
  - rewrite Hp at 1. rewrite <- (patch_defer (dirty_val ps e') all_slots).
    + apply patch_ext. intros sl' _. unfold upd, dirty_val. rewrite get_set_slot.
      repeat case_decide; simplify_eq; done.
    + by eapply dirty_patch_ok.
    + apply all_slots_NoDup.
    + by apply all_slots_complete.
    + done.
  - intros sl' Hr'. rewrite get_set_slot, slot_get_set by done.
    repeat case_decide; simplify_eq; [done|]. by apply Hv.
  - intros sl'. rewrite get_set_slot. case_decide; subst; [done|by apply Hd].
Qed.

(** Forgetting clean slots, and moving both states under a map that keeps the
    tracked registers. *)
Lemma promote_rel_move ps ps' e' s s' s1 s1' :
  promote_rel ps e' s s' ->
  s1 = patch (dirty_val ps' e') all_slots s1' ->
  (forall sl, get_slot ps' sl = tracked_none \/
     (get_slot ps' sl = get_slot ps sl /\ slot_get sl s1 = slot_get sl s)) ->
  promote_rel ps' e' s1 s1'.
Proof.
  intros [Hp Hv Hd] Heq Hsl. split; [done|..].
  - intros sl Hr. destruct (Hsl sl) as [->|[-> Hg]]; [done|]. rewrite Hg. by apply Hv.
  - intros sl. destruct (Hsl sl) as [->|[-> _]]; [done|]. apply Hd.
Qed.

(** ** Executing flushes *)

Section Flush.
Context {W : Type} `{MemoryPort W, RuntimeServices W, HostHelpers W}.
Context (fuel : nat) (mode : Mode).

Lemma land_mask_range r k : 0 <= k -> 0 <= r < 2 ^ k -> r .& (Z.ones k) = r.
Proof using Type. intros Hk Hr. rewrite Z.land_ones by done. by apply Z.mod_small. Qed.

Lemma write_no_pc i (m : Machine W) :
  promoted_write (i_op i) = true \/ promoted_read (i_op i) = true -> emit_guest_pc i m = m.
Proof using Type.
  intros Hw. unfold emit_guest_pc.
  assert (pc_boundary (i_op i) = false) as ->
    by (destruct (i_op i); try done; by destruct Hw).
  by rewrite andb_false_r.
Qed.

Lemma exec_materialize sl x v src e (m : Machine W) :
  slot_in_range sl -> slot_ok sl x -> e !! v = Some x ->
  exec_one fuel mode (materialize (slot_write sl).1 (slot_write sl).2 v src) e m =
    Some (Continue e (mkMachine (slot_set sl x (m_cpu m)) (m_world m) (m_materialized m))).
Proof using Type.
  intros Hr [Hx Ht] Hv. set (i := materialize _ _ v src).
  assert (Ha : mapM (e !!.) (i_args i) = Some [x]) by (apply mapM_Some; by repeat constructor).
  assert (Hpc : emit_guest_pc i m = m) by (apply write_no_pc; left; by destruct sl).
  rewrite (exec_one_intro fuel mode i e m [x] (Next None (slot_set sl x (m_cpu m)) (m_world m)) Ha);
    rewrite Hpc; [done|].
  unfold i. destruct sl; cbn in Hx, Hr;
    first [ destruct (word_inv x Hx Ht) as (z & -> & Hz)
          | destruct (tbool_inv x Hx Ht) as [b ->] | destruct (vec_inv x Hx) as [u ->] ];
    try reflexivity; unfold exec_inst; cbn -[Z.land].
  all: try (change 31 with (Z.ones 5)); try (change 127 with (Z.ones 7));
    rewrite land_mask_range by (cbn; lia); reflexivity.
Qed.

Lemma flush_slots_run slots ps src e' s (m' : Machine W) :
  promote_rel ps e' s (m_cpu m') ->
  exists s1', exec_list fuel mode (flush_slots slots ps src).2 e' m' =
      Some (Continue e' (mkMachine s1' (m_world m') (m_materialized m'))) /\
    promote_rel (flush_slots slots ps src).1 e' s s1' /\
    (forall sl, sl ∈ slots -> tv_dirty (get_slot (flush_slots slots ps src).1 sl) = false) /\
    (forall sl, tv_dirty (get_slot ps sl) = false ->
       get_slot (flush_slots slots ps src).1 sl = get_slot ps sl).
Proof using Type.
  revert ps m'. induction slots as [|sl slots IH]; intros ps m' Hrel.
  { exists (m_cpu m'). cbn. split_and!; [by destruct m'|done|by intros ? ?%elem_of_nil|done]. }
  cbn. destruct (tv_dirty (get_slot ps sl)) eqn:Ed.
  - pose proof (pr_dirty _ _ _ _ Hrel sl Ed) as [Hr Hval].
    pose proof (pr_valid _ _ _ _ Hrel sl Hr Hval) as Hx.
    pose proof (promote_rel_perform _ _ _ _ _ Hrel Ed) as Hrel1.
    destruct (IH _ (mkMachine (slot_set sl (slot_get sl s) (m_cpu m')) (m_world m') (m_materialized m'))
      Hrel1) as (s1' & E & Hrel2 & Hc & Hk).
    pose proof (exec_materialize sl _ _ src e' m' Hr (slot_get_ok sl s) Hx) as Em.
    destruct (slot_write sl) as [op index]. cbn [fst snd] in Em.
    destruct (flush_slots slots _ src) as [ps' out]. cbn [fst snd] in *.
    exists s1'. split; [|split; [done|split]].
    + rewrite exec_list_cons, Em. exact E.
    + intros sl' [->|Hin]%elem_of_cons; [|by apply Hc].
      rewrite Hk by (rewrite get_set_slot, decide_True by done; done).
      rewrite get_set_slot, decide_True by done. done.
    + intros sl' Hcl. rewrite Hk; rewrite get_set_slot; case_decide; subst; congruence || done.
  - destruct (IH ps m' Hrel) as (s1' & E & Hrel2 & Hc & Hk). exists s1'. split_and!; [done|done| |done].
    intros sl' [->|Hin]%elem_of_cons; [|by apply Hc]. by rewrite Hk.
Qed.

Lemma flush_run ps src e' (m m' : Machine W) :
  promote_rel ps e' (m_cpu m) (m_cpu m') ->
  m_world m' = m_world m -> m_materialized m' = m_materialized m ->
  exec_list fuel mode (flush ps src).2 e' m' = Some (Continue e' m) /\
  promote_rel (flush ps src).1 e' (m_cpu m) (m_cpu m) /\
  (forall sl, slot_in_range sl -> tv_dirty (get_slot (flush ps src).1 sl) = false).
Proof using Type.
  unfold flush. intros Hrel Hw Hm.
  destruct (flush_slots_run all_slots ps src e' _ m' Hrel) as (s1 & E & Hr1 & Hc & _).
  revert E Hr1 Hc. destruct (flush_slots all_slots ps src) as [ps1 out]. cbn [fst snd].
  intros E Hr1 Hc.
  assert (Hclean : forall sl, slot_in_range sl -> tv_dirty (get_slot ps1 sl) = false).
  { intros sl Hr. apply Hc. by apply all_slots_complete. }
  pose proof (promote_rel_clean _ _ _ _ Hr1 Hclean) as ->. rewrite E.
  split_and!; [|done|done]. rewrite Hw, Hm. by destruct m.
Qed.
End Flush.

(** ** Operations under a patch *)

Lemma slot_set_map sl x :
  slot_ok sl x -> exists G F V L C X,
    (forall s, slot_set sl x s = map_regs G F V L C X s) /\ (sl ∉ xer_slots -> X = id).
Proof.
  intros [Hx Ht]. destruct sl as [r|r|r| | | | |]; cbn in Hx;
    first [ destruct (word_inv x Hx Ht) as (z & -> & Hz)
          | destruct (tbool_inv x Hx Ht) as [b ->] | destruct (vec_inv x Hx) as [u ->] ].
  - by exists (<[r := z]>), id, id, id, id, id.
  - by exists id, (<[r := z]>), id, id, id, id.
  - by exists id, id, (<[r := u]>), id, id, id.
  - by exists id, id, id, (λ _, z), id, id.
  - by exists id, id, id, id, (λ _, z), id.
  - exists id, id, id, id, id, (λ x, flag_update x xer_bits.CA (negb (Z.b2z b =? 0))).
    split; [done|]. intros Hn. destruct Hn. by repeat constructor.
  - exists id, id, id, id, id, (λ x, flag_update x xer_bits.OV (negb (Z.b2z b =? 0))).
    split; [done|]. intros Hn. destruct Hn. by repeat constructor.
  - exists id, id, id, id, id, (λ x, flag_update x xer_bits.SO (negb (Z.b2z b =? 0))).
    split; [done|]. intros Hn. destruct Hn. by repeat constructor.
Qed.

Section Quiet.
Context {W : Type} `{MemoryPort W, RuntimeServices W, HostHelpers W, !PromotionLaws W}.
Context (fuel : nat) (mode : Mode).

(** Deferred writes the operation does not interact with. *)
Definition patch_quiet (i : Instruction) (f : Slot -> option TVal) : Prop :=
  patch_ok f /\ (xer_op (i_op i) = true -> forall sl, sl ∈ xer_slots -> f sl = None).

Lemma exec_inst_patch i args f slots s (w : W) :
  quiet i = true -> patch_quiet i f ->
  exec_inst fuel mode i args (patch f slots s) w =
    step_map (patch f slots) <$> exec_inst fuel mode i args s w.
Proof.
  intros Hq [Hok Hx]. revert s. induction slots as [|sl slots IH]; intros s.
  { change (patch f [] s) with s. by destruct (exec_inst fuel mode i args s w) as [[]|]. }
  rewrite patch_cons, IH. destruct (f sl) as [x|] eqn:Ef.
  - destruct (slot_set_map sl x (Hok sl x Ef)) as (G & F & V & L & C & X & Hs & HX).
    rewrite Hs, exec_inst_map; [|done|].
    + destruct (exec_inst fuel mode i args s w) as [[v s' w'|r s' w']|]; [| |done]; cbn;
        by rewrite patch_cons, Ef, Hs.
    + intros Hop. apply HX. intros Hin. by rewrite (Hx Hop sl Hin) in Ef.
  - destruct (exec_inst fuel mode i args s w) as [[v s' w'|r s' w']|]; [| |done]; cbn;
      by rewrite patch_cons, Ef.
Qed.

Lemma emit_guest_pc_patch i f slots (m m' : Machine W) :
  patch_ok f -> m_cpu m = patch f slots (m_cpu m') -> m_world m' = m_world m ->
  m_materialized m' = m_materialized m ->
  m_cpu (emit_guest_pc i m) = patch f slots (m_cpu (emit_guest_pc i m')) /\
  m_world (emit_guest_pc i m') = m_world (emit_guest_pc i m) /\
  m_materialized (emit_guest_pc i m') = m_materialized (emit_guest_pc i m).
Proof using Type.
  intros Hok Hc Hw Hm. unfold emit_guest_pc. rewrite Hm. destruct (_ && _); [|done].
  cbn. split_and!; [|done|done]. rewrite Hc.
  apply (patch_frame (λ s, set_nia (u32 (i_guest_address i + 4)) (set_cia (i_guest_address i) s))).
  intros sl x s _ Hx. destruct (slot_set_map sl x (Hok sl x Hx)) as (G & F & V & L & C & X & Hs & _).
  by rewrite !Hs.
Qed.

Lemma exec_one_quiet i e f slots (m m' : Machine W) r :
  quiet i = true -> patch_quiet i f ->
  m_cpu m = patch f slots (m_cpu m') -> m_world m' = m_world m ->
  m_materialized m' = m_materialized m -> exec_one fuel mode i e m = Some r ->
  exists e1 m1 m1', r = Continue e1 m1 /\ exec_one fuel mode i e m' = Some (Continue e1 m1') /\
    m_cpu m1 = patch f slots (m_cpu m1') /\ m_world m1' = m_world m1 /\
    m_materialized m1' = m_materialized m1.
Proof.
  intros Hq Hf Hc Hw Hm E. destruct (exec_one_inv _ _ _ _ _ _ E) as (args & st & Ha & Hs & Hr).
  destruct (emit_guest_pc_patch i f slots m m' (proj1 Hf) Hc Hw Hm) as (Hc' & Hw' & Hm').
  rewrite Hc', <- Hw', exec_inst_patch in Hs by done.
  destruct (exec_inst fuel mode i args (m_cpu (emit_guest_pc i m')) (m_world (emit_guest_pc i m')))
    as [st'|] eqn:Est; [|done]. cbn in Hs. injection Hs as <-.
  rewrite (exec_one_intro _ _ _ _ _ _ _ Ha Est).
  destruct st' as [v s' w'|x s' w']; [|by apply quiet_next in Est]. cbn in Hr.
  destruct Hr as (e1 & Hb & ->). rewrite Hb. cbn. do 3 eexists. split_and!; try done.
Qed.
End Quiet.

(** ** Tracked values are ids in scope *)

Definition tracked_ok (n : Z) (ps : PromotedState) : Prop :=
  forall sl, (tv_valid (get_slot ps sl) = true \/ tv_dirty (get_slot ps sl) = true) ->
    slot_in_range sl /\ 0 <= tv_value (get_slot ps sl) < n.

Lemma tracked_ok_mono n n' ps : n <= n' -> tracked_ok n ps -> tracked_ok n' ps.
Proof. intros Hn Hok sl Hsl. destruct (Hok sl Hsl). split; [done|lia]. Qed.

Lemma tracked_ok_none n : tracked_ok n promoted_none.
Proof. intros sl. rewrite get_slot_none. cbn. intuition congruence. Qed.

Lemma tracked_ok_set n ps sl t :
  tracked_ok n ps ->
  ((tv_valid t = true \/ tv_dirty t = true) -> slot_in_range sl /\ 0 <= tv_value t < n) ->
  tracked_ok n (set_slot sl t ps).
Proof. intros Hok Ht sl'. rewrite get_set_slot. case_decide; subst; [done|apply Hok]. Qed.

Lemma tracked_ok_xer n ps : tracked_ok n ps -> tracked_ok n (invalidate_xer_flags ps).
Proof.
  intros Hok. unfold invalidate_xer_flags. cbn. repeat apply tracked_ok_set; try done;
    cbn; intuition congruence.
Qed.

Lemma flush_slots_static n slots ps src :
  tracked_ok n ps ->
  tracked_ok n (flush_slots slots ps src).1 /\ Forall (late_write n) (flush_slots slots ps src).2.
Proof.
  revert ps. induction slots as [|sl slots IH]; intros ps Hok; [done|]. cbn.
  destruct (tv_dirty (get_slot ps sl)) eqn:Ed; [|by apply IH].
  destruct (Hok sl (or_intror Ed)) as [Hr Hv].
  assert (Hok' : tracked_ok n (set_slot sl (mkTracked (tv_valid (get_slot ps sl)) false
    (tv_value (get_slot ps sl))) ps)) by (by apply tracked_ok_set).
  destruct (IH _ Hok') as [IH1 IH2].
  destruct (slot_write sl) as [op index] eqn:Esw. destruct (flush_slots slots _ src) as [ps' out].
  cbn [fst snd] in *. split; [done|]. constructor; [|done].
  split_and!; [done| |constructor; [exact Hv|constructor]].
  destruct sl; cbn in Esw; simplify_eq; cbn in Hr |- *; try done;
    unfold inst_wf, promotable, index_below; cbn;
    by rewrite (proj2 (Z.leb_le _ _)), (proj2 (Z.ltb_lt _ _)) by lia.
Qed.

(** ** The static invariant *)

Section PromoteStatic.
Context (size : Z).

Definition promote_index_ok (i : Instruction) : Prop :=
  (i_result i <> kNoValue -> i_result i < size) /\ inst_wf i = true.

Record promote_static (n : Z) (st : PromoteState) : Prop := mkPromoteStatic {
  pst_bound : 0 <= n <= kNoValue;
  pst_size : Z.of_nat (length (pm_aliases st)) = size;
  pst_ok : alias_ok n (pm_aliases st);
  pst_tracked : tracked_ok n (pm_state st)
}.

Lemma slot_for_range i sl : inst_wf i = true -> slot_for i = Some sl -> slot_in_range sl.
Proof using Type.
  intros [_ Hp]%andb_true_iff Hs. unfold promotable, index_below, slot_for in *.
  destruct (i_op i); try done; repeat case_match; simplify_eq; cbn; try done;
    rewrite ?andb_true_iff, ?Z.leb_le, ?Z.ltb_lt in Hp; lia.
Qed.

Lemma read_result i : inst_wf i = true -> promoted_read (i_op i) = true -> i_result i <> kNoValue.
Proof using Type.
  intros [_ Hp]%andb_true_iff Hr. unfold promotable, has_result in Hp.
  destruct (i_op i); try done; rewrite ?andb_true_iff, negb_true_iff, Z.eqb_neq in Hp; tauto.
Qed.

Lemma promote_other_static n al ps i i' :
  0 <= n <= kNoValue -> inst_ok n i = true -> inst_wf i' = true -> i_result i' = i_result i ->
  Forall (λ a', 0 <= a' /\ exists a, a ∈ i_args i /\ a' <= a) (i_args i') ->
  Z.of_nat (length al) = size -> alias_ok n al -> tracked_ok n ps ->
  promote_static (next_id n i) (promote_other al ps i').1 /\
  Forall (λ i, inst_wf i = true) (promote_other al ps i').2 /\
  forall rest, ssa (next_id n i) rest = true -> ssa n ((promote_other al ps i').2 ++ rest) = true.
Proof using Type.
  intros Hn Hi Hwf Hres Hargs Hsz Hok Htr. pose proof (next_id_ge n i Hi) as Hge.
  pose proof (next_id_le n i Hi (proj2 Hn)) as Hle. unfold promote_other.
  assert (H1 : exists ps1 out1,
    (if bool_decide (i_op i' = Op.ReadXER \/ i_op i' = Op.MoveXERToCR)
     then flush_xer_flags ps i' else (ps, [])) = (ps1, out1) /\
    tracked_ok n ps1 /\ Forall (late_write n) out1).
  { case_bool_decide; [|by exists ps, []].
    destruct (flush_slots_static n xer_slots ps i' Htr). unfold flush_xer_flags.
    destruct (flush_slots xer_slots ps i') as [ps1 out1]. by exists ps1, out1. }
  destruct H1 as (ps1 & out1 & -> & Ht1 & Ho1).
  assert (H2 : exists ps2 out2,
    (if requires_materialization (i_op i') then flush ps1 i' else (ps1, [])) = (ps2, out2) /\
    tracked_ok n ps2 /\ Forall (late_write n) out2).
  { destruct (requires_materialization _); [|by exists ps1, []].
    destruct (flush_slots_static n all_slots ps1 i' Ht1). unfold flush.
    destruct (flush_slots all_slots ps1 i') as [ps2 out2]. by exists ps2, out2. }
  destruct H2 as (ps2 & out2 & -> & Ht2 & Ho2). cbn [fst snd]. split; [|split].
  - split; cbn; [lia|done|by eapply alias_ok_mono|].
    apply (tracked_ok_mono n); [done|]. destruct (invalidates_after i'); [apply tracked_ok_none|].
    case_bool_decide; [by apply tracked_ok_xer|done].
  - rewrite !Forall_app. split_and!; [..|by constructor];
      (eapply Forall_impl; [eassumption|]); by intros j (_ & Hj & _).
  - intros rest Hrest. rewrite <- !app_assoc. apply late_write_ssa; [lia|done|]. apply late_write_ssa; [lia|done|].
    cbn [app]. apply ssa_cons. split; [by apply (inst_ok_shrink n i)|].
    apply (ssa_mono (next_id n i)); [|done]. apply next_id_shrink; [done|done|].
    eapply Forall_impl; [exact Hargs|]. by intros a' [_ Ha'].
Qed.

Lemma promote_step_static n st i :
  promote_static n st -> inst_ok n i = true -> promote_index_ok i ->
  promote_static (next_id n i) (promote_step st i).1 /\
  Forall (λ i, inst_wf i = true) (promote_step st i).2 /\
  forall rest, ssa (next_id n i) rest = true -> ssa n ((promote_step st i).2 ++ rest) = true.
Proof using Type.
  intros [Hn Hsz Hok Htr] Hi [Hidx Hwf]. pose proof (next_id_ge n i Hi) as Hge.
  pose proof (next_id_le n i Hi (proj2 Hn)) as Hle. unfold promote_step.
  destruct (resolve_args_spec n _ _ Hok (inst_ok_args n i Hi)) as [Hr He].
  destruct (resolve_args (pm_aliases st) (i_args i)) as [args al]. cbn [fst snd] in *. subst args.
  pose proof (resolved_args_shrink n _ i Hok Hi) as Hargs.
  set (i' := set_args (find (pm_aliases st) <$> i_args i) i) in *.
  destruct He as (Hlen & Hok1 & Hf1). change (i_op i') with (i_op i). change (slot_for i') with (slot_for i).
  assert (Hkeep : forall rest, ssa (next_id n i) rest = true -> ssa n ([i'] ++ rest) = true).
  { intros rest Hrest. cbn [app]. apply ssa_cons. split; [by apply (inst_ok_shrink n i)|].
    apply (ssa_mono (next_id n i)); [|done]. apply next_id_shrink; [done|done|].
    eapply Forall_impl; [exact Hargs|]. by intros a' [_ Ha']. }
  assert (Hother : promote_static (next_id n i) (promote_other al (pm_state st) i').1 /\
    Forall (λ i, inst_wf i = true) (promote_other al (pm_state st) i').2 /\
    forall rest, ssa (next_id n i) rest = true ->
      ssa n ((promote_other al (pm_state st) i').2 ++ rest) = true).
  { apply promote_other_static; try done. lia. }
  destruct (promoted_read (i_op i)) eqn:Hread.
  - pose proof (read_result i Hwf Hread) as Hne. pose proof (inst_ok_result n i Hi Hne) as Hres.
    destruct (slot_for i) as [sl|] eqn:Esl.
    2:{ cbn [fst snd]. split_and!; [split; cbn; [lia|lia|by eapply alias_ok_mono|by eapply tracked_ok_mono]|by constructor|done]. }
    destruct (tv_valid (get_slot (pm_state st) sl)) eqn:Ev.
    + destruct (Htr sl (or_introl Ev)) as [_ Hval].
      destruct (resolve_spec n al (tv_value (get_slot (pm_state st) sl)) Hok1) as [Hrt He2]; [lia|].
      destruct (resolve al _) as [t al2]. cbn [fst snd] in *. destruct He2 as (Hlen2 & Hok2 & Hf2).
      change (i_result i') with (i_result i).
      pose proof (find_range n al Hok1 (tv_value (get_slot (pm_state st) sl)) ltac:(lia)) as Hfr.
      destruct (assign_alias_spec n al2 (i_result i) t) as (Hl3 & Ho3 & _); [done|lia..| |].
      { rewrite Hrt, Hf2 by lia. apply (find_idem n); [done|lia]. }
      split_and!; [|done|].
      * split; cbn; [lia|lia|by rewrite next_id_result|by eapply tracked_ok_mono].
      * intros rest Hrest. cbn. by apply (ssa_mono (next_id n i)).
    + cbn [fst snd]. split_and!; [|by constructor|done].
      split; cbn; [lia|lia|by eapply alias_ok_mono|].
      apply tracked_ok_set; [by eapply tracked_ok_mono|]. intros _.
      split; [by eapply slot_for_range|]. cbn. rewrite next_id_result by done. lia.
  - destruct (promoted_write (i_op i)) eqn:Hw; [|done]. destruct (slot_for i) as [sl|] eqn:Esl; [|done].
    destruct (i_args i') as [|a rest_args] eqn:Ea; [done|].
    pose proof Hargs as Hargs'. unfold i' in Ea. cbn [i_args set_args] in Ea.
    rewrite Ea in Hargs'. apply Forall_cons in Hargs' as [[Ha0 (a0 & Hin & Hle0)] _].
    pose proof (inst_ok_args n i Hi) as Hrange. rewrite Forall_forall in Hrange.
    specialize (Hrange a0 Hin). cbn in Hrange.
    destruct (resolve_spec n al a Hok1) as [Hrt He2]; [lia|].
    destruct (resolve al a) as [v al2]. cbn [fst snd] in *. destruct He2 as (Hlen2 & Hok2 & Hf2).
    pose proof (find_range n al Hok1 a ltac:(lia)) as Hfr.
    split_and!; [|done|intros rest Hrest; by apply (ssa_mono (next_id n i))].
    split; cbn; [lia|lia|by eapply alias_ok_mono|].
    apply tracked_ok_set; [by eapply tracked_ok_mono|]. intros _. cbn.
    split; [by eapply slot_for_range|]. subst v.
    assert (a0 < next_id n i); [|lia].
    destruct (Z.eq_dec (i_result i) kNoValue) as [Hv|Hne].
    + pose proof (next_id_args n i Hv) as Hna. rewrite Forall_forall in Hna. by apply Hna.
    + rewrite next_id_result by done. pose proof (inst_ok_args_lt n i Hi) as Hlt.
      rewrite Forall_forall in Hlt. specialize (Hlt a0 Hin). cbn in Hlt. lia.
Qed.
End PromoteStatic.

(** ** Executing promoted reads and writes *)

Section ReadWrite.
Context {W : Type} `{MemoryPort W, RuntimeServices W, HostHelpers W}.
Context (fuel : nat) (mode : Mode).

Lemma exec_inst_promoted i args (s : CpuState) (w : W) :
  promoted_write (i_op i) = true \/ promoted_read (i_op i) = true ->
  exec_inst fuel mode i args s w = lift_state w (exec_state mode i args s).
Proof using Type.
  unfold exec_inst. intros [Hp|Hp]; destruct (i_op i); try discriminate Hp; reflexivity.
Qed.

Lemma exec_read i sl e (m : Machine W) r :
  inst_wf i = true -> promoted_read (i_op i) = true -> slot_for i = Some sl ->
  exec_one fuel mode i e m = Some r ->
  r = Continue (<[i_result i := slot_get sl (m_cpu m)]> e) m /\
  forall e2 (m2 : Machine W), exec_one fuel mode (set_args (i_args i) i) e2 m2 =
    Some (Continue (<[i_result i := slot_get sl (m_cpu m2)]> e2) m2).
Proof using Type.
  intros Hwf Hr Hsl E. pose proof (slot_for_range i sl Hwf Hsl) as Hrange.
  pose proof (read_result i Hwf Hr) as Hne.
  destruct (exec_one_inv _ _ _ _ _ _ E) as (args & st & Ha & Hs & Hst).
  assert (Hx : args = [] /\ forall (s : CpuState) (w : W),
    exec_inst fuel mode i [] s w = Some (Next (Some (slot_get sl s)) s w)).
  { clear Hst E Ha. destruct i as [op t res ia im0 im1 ga gw go]. cbn in Hr, Hsl, Hs |- *.
    destruct op; try discriminate Hr; (destruct args; [|discriminate Hs]); (split; [done|]); intros s w;
      unfold slot_for in Hsl; cbn in Hsl; repeat case_match; simplify_eq; cbn in Hrange;
      unfold exec_inst in Hs |- *; cbn -[Z.land] in Hs |- *; unfold typed in *; cbn in *;
      (case_decide; [|discriminate Hs]); cbn; try reflexivity.
    all: try (change 31 with (Z.ones 5)); try (change 127 with (Z.ones 7));
      rewrite land_mask_range by (cbn; lia); reflexivity. }
  destruct Hx as [-> Hx]. rewrite (write_no_pc i m (or_intror Hr)) in Hs, Hst.
  rewrite Hx in Hs. injection Hs as <-. destruct Hst as (e1 & Hb & ->).
  unfold bind_result in Hb. destruct (Z.eqb_spec (i_result i) kNoValue); [done|]. simplify_eq.
  split; [by destruct m|]. intros e2 m2. rewrite set_args_self.
  assert (Hargs : i_args i = []).
  { apply mapM_Some in Ha. by inversion Ha. }
  rewrite (exec_one_intro fuel mode i e2 m2 [] (Next (Some (slot_get sl (m_cpu m2))) (m_cpu m2) (m_world m2))).
  - unfold bind_result. destruct (Z.eqb_spec (i_result i) kNoValue); [done|].
    rewrite (write_no_pc i m2 (or_intror Hr)). by destruct m2.
  - by rewrite Hargs.
  - rewrite (write_no_pc i m2 (or_intror Hr)). apply Hx.
Qed.

Lemma viewed_ok x z : wf_val x -> no_ext x -> viewed I64 x = Some z ->
  x = TInt I64 z /\ has_type I64 x /\ tight x.
Proof using Type.
  intros Hwf Hn Hv. destruct x as [t y| | | | |]; cbn in Hv; try done.
  destruct (decide (t = I64)) as [->|]; [|done]. simplify_eq. apply wf_int in Hwf as Hz.
  split_and!; done.
Qed.

Lemma exec_write i sl e (m : Machine W) r :
  (forall v x, e !! v = Some x -> wf_val x /\ no_ext x) ->
  inst_wf i = true -> promoted_write (i_op i) = true -> slot_for i = Some sl ->
  exec_one fuel mode i e m = Some r ->
  exists a x, i_args i = [a] /\ e !! a = Some x /\ slot_ok sl x /\ i_result i = kNoValue /\
    r = Continue e (mkMachine (slot_set sl x (m_cpu m)) (m_world m) (m_materialized m)).
Proof using Type.
  intros Henv Hwf Hw Hsl E. pose proof (slot_for_range i sl Hwf Hsl) as Hrange.
  destruct (exec_one_inv _ _ _ _ _ _ E) as (args & st & Ha & Hs & Hst).
  rewrite (write_no_pc i m (or_introl Hw)) in Hs, Hst. apply mapM_Some in Ha.
  assert (Hx : exists x, args = [x] /\ (wf_val x -> no_ext x -> slot_ok sl x /\
    st = Next None (slot_set sl x (m_cpu m)) (m_world m))).
  { clear Hst E Ha. destruct i as [op t res ia im0 im1 ga gw go]. cbn in Hw, Hsl.
    destruct op; try discriminate Hw; (destruct args as [|x [|]]; [discriminate Hs| |discriminate Hs]);
      exists x; (split; [done|]); intros Hwx Hnx;
      unfold slot_for in Hsl; cbn in Hsl; repeat case_match; simplify_eq; cbn in Hrange;
      rewrite exec_inst_promoted in Hs by (by left); cbn -[Z.land viewed] in Hs.
    - destruct (viewed I64 x) as [z|] eqn:Ez; [|discriminate Hs]. cbn -[Z.land] in Hs. simplify_eq.
      destruct (viewed_ok _ _ Hwx Hnx Ez) as (-> & ? & ?). split; [done|]. cbn -[Z.land].
      change 31 with (Z.ones 5). by rewrite land_mask_range by (cbn; lia).
    - destruct (exact I64 x) as [z|] eqn:Ez; [|discriminate Hs]. cbn -[Z.land] in Hs. simplify_eq.
      apply exact_inv in Ez as ->. apply wf_int in Hwx. split; [done|]. cbn -[Z.land].
      change 31 with (Z.ones 5). by rewrite land_mask_range by (cbn; lia).
    - destruct x; try discriminate Hs. cbn -[Z.land] in Hs. simplify_eq. split; [done|]. cbn -[Z.land].
      change 127 with (Z.ones 7). by rewrite land_mask_range by (cbn; lia).
    - unfold bool_of in Hs. destruct (exact I1 x) as [z|] eqn:Ez; [|discriminate Hs]. cbn in Hs. simplify_eq.
      apply exact_inv in Ez as ->. apply wf_int in Hwx. by split.
    - unfold bool_of in Hs. destruct (exact I1 x) as [z|] eqn:Ez; [|discriminate Hs]. cbn in Hs. simplify_eq.
      apply exact_inv in Ez as ->. apply wf_int in Hwx. by split.
    - unfold bool_of in Hs. destruct (exact I1 x) as [z|] eqn:Ez; [|discriminate Hs]. cbn in Hs. simplify_eq.
      apply exact_inv in Ez as ->. apply wf_int in Hwx. by split.
    - destruct (exact I64 x) as [z|] eqn:Ez; [|discriminate Hs]. cbn in Hs. simplify_eq.
      apply exact_inv in Ez as ->. apply wf_int in Hwx. by split.
    - destruct (exact I64 x) as [z|] eqn:Ez; [|discriminate Hs]. cbn in Hs. simplify_eq.
      apply exact_inv in Ez as ->. apply wf_int in Hwx. by split. }
  destruct Hx as (x & -> & Hx). inversion Ha as [|a ? ids ? Hax Hnil Heq]; subst.
  inversion Hnil; subst. destruct (Henv a x Hax) as [Hwx Hnx]. destruct (Hx Hwx Hnx) as [Hok ->].
  destruct Hst as (e1 & Hb & ->). unfold bind_result in Hb.
  destruct (Z.eqb_spec (i_result i) kNoValue); [|done]. simplify_eq.
  exists a, x. split_and!; done.
Qed.
End ReadWrite.
