(* ===== verification/PromoteCorrect.v ===== *)
(** * State promotion: the simulation and the run of a block *)

From S2P Require Import Prelude.
From S2P Require Import Words.
From S2P Require Import CpuState.
From S2P Require Import AotScalar.
From S2P Require Import Ir.
From S2P Require Import IrValue.
From S2P Require Import Services.
From S2P Require Import IrSem.
From S2P Require Import IrRefine.
From S2P Require Import PassSim.
From S2P Require Import Aliases.
From S2P Require Import AliasPass.
From S2P Require Import Promote.
From S2P Require Import PromoteSlots.
From S2P Require Import PromoteRun.

Lemma alias_equiv_mono n n' al al' : n <= n' -> alias_equiv n al al' -> alias_equiv n' al al'.
Proof. intros Hn (Hl & Hok & Hf). split_and!; [done|by eapply alias_ok_mono|done]. Qed.

(** ** [WriteXER] drops the deferred flags *)

Lemma get_invalidate_xer ps sl :
  get_slot (invalidate_xer_flags ps) sl =
    if decide (sl ∈ xer_slots) then tracked_none else get_slot ps sl.
Proof.
  unfold invalidate_xer_flags. cbn. rewrite !get_set_slot.
  destruct (decide (sl ∈ xer_slots)) as [Hin|Hnin].
  - repeat case_decide; try done. exfalso. unfold xer_slots in Hin.
    repeat (apply elem_of_cons in Hin as [->|Hin]; [done|]). by apply elem_of_nil in Hin.
  - repeat case_decide; subst; try done; exfalso; apply Hnin; by repeat constructor.
Qed.

#[local] Arguments invalidate_xer_flags : simpl never.

Lemma set_xer_slot c sl x s :
  slot_ok sl x ->
  set_xer c (slot_set sl x s) = if decide (sl ∈ xer_slots) then set_xer c s else slot_set sl x (set_xer c s).
Proof.
  intros [Hx Ht]. destruct sl; cbn in Hx;
    first [ destruct (word_inv x Hx Ht) as (z & -> & Hz)
          | destruct (tbool_inv x Hx Ht) as [b ->] | destruct (vec_inv x Hx) as [u ->] ];
    case_decide as Hin; try reflexivity; exfalso;
    first [ by apply Hin; repeat constructor
          | unfold xer_slots in Hin; rewrite !elem_of_cons in Hin; intuition congruence
          | unfold xer_slots in Hin; rewrite !elem_of_cons, elem_of_nil in Hin; intuition congruence ].
Qed.

Lemma patch_set_xer c f slots s :
  patch_ok f ->
  set_xer c (patch f slots s) =
    patch (λ sl, if decide (sl ∈ xer_slots) then None else f sl) slots (set_xer c s).
Proof.
  intros Hok. revert s. induction slots as [|sl slots IH]; intros s; [done|]. rewrite !patch_cons, IH.
  f_equal. destruct (f sl) as [x|] eqn:Ef; [|by case_decide].
  rewrite set_xer_slot by (by apply Hok). by case_decide.
Qed.

Section Other.
Context {W : Type} `{MemoryPort W, RuntimeServices W, HostHelpers W, !PromotionLaws W}.
Context (fuel : nat) (mode : Mode).

Definition put_cpu (s : CpuState) (m : Machine W) : Machine W :=
  mkMachine s (m_world m) (m_materialized m).

Lemma exec_write_xer i e (m : Machine W) r :
  i_op i = Op.WriteXER -> exec_one fuel mode i e m = Some r ->
  exists c, forall m2 : Machine W, exec_one fuel mode i e m2 =
    Some (Continue e (put_cpu (set_xer c (m_cpu m2)) m2)) /\
    (m2 = m -> r = Continue e (put_cpu (set_xer c (m_cpu m2)) m2)).
Proof using Type.
  intros Hop E. destruct (exec_one_inv _ _ _ _ _ _ E) as (args & st & Ha & Hs & Hr).
  assert (Hpc : forall m2 : Machine W, emit_guest_pc i m2 = m2).
  { intros m2. unfold emit_guest_pc. rewrite Hop. cbn. by rewrite andb_false_r. }
  assert (Hx : exists c, forall (s : CpuState) (w : W),
    exec_inst fuel mode i args s w = Some (Next None (set_xer c s) w)).
  { unfold exec_inst in Hs |- *. rewrite Hop in *. cbn in Hs |- *. unfold exec_state in *.
    rewrite Hop in *. destruct args as [|x [|]]; try discriminate Hs.
    destruct (any_int x) as [z|]; [|discriminate Hs]. by exists (u32 z). }
  destruct Hx as [c Hx]. exists c. rewrite Hpc, Hx in Hs. injection Hs as <-.
  rewrite Hpc in Hr. destruct Hr as (e1 & Hb & ->). unfold bind_result in Hb.
  destruct (Z.eqb_spec (i_result i) kNoValue) as [Hv|]; [|done]. injection Hb as <-.
  intros m2. split; [|by intros ->].
  rewrite (exec_one_intro fuel mode i e m2 args _ Ha (Hx _ _)). unfold bind_result.
  rewrite Hv, Z.eqb_refl, Hpc. done.
Qed.

Lemma quiet_xer i args s (w : W) v s' w' :
  quiet i = true -> i_op i <> Op.WriteXER -> i_op i <> Op.MoveXERToCR ->
  exec_inst fuel mode i args s w = Some (Next v s' w') -> xer s' = xer s.
Proof.
  intros Hq Hw Hm E. destruct (xer_op (i_op i)) eqn:Hx.
  - assert (i_op i = Op.ReadXER) as Hop by (by destruct (i_op i)).
    assert (Hst : exec_inst fuel mode i args s w = lift_state w (exec_state mode i args s))
      by (unfold exec_inst; by rewrite Hop).
    rewrite Hst in E. unfold exec_state in E. rewrite Hop in E.
    destruct args; [|discriminate E]. destruct (read_int i 32 (xer s)); [|discriminate E].
    injection E as _ <- _. done.
  - destruct (quiet_frame fuel mode i args s w _ Hq E) as (? & ? & ? & [= <- <- <-] & _ & Hxer).
    by apply Hxer.
Qed.

(** The environment after an executed instruction. *)
Lemma exec_one_env i e (m : Machine W) e1 m1 :
  exec_one fuel mode i e m = Some (Continue e1 m1) ->
  (e1 = e /\ i_result i = kNoValue) \/
  (i_result i <> kNoValue /\ exists x, e1 = <[i_result i := x]> e).
Proof using Type.
  intros E. destruct (exec_one_inv _ _ _ _ _ _ E) as (args & st & _ & _ & Hr).
  destruct st as [v s w|]; [|done]. destruct Hr as (e2 & Hb & [= -> _]). unfold bind_result in Hb.
  destruct v as [x|], (Z.eqb_spec (i_result i) kNoValue); simplify_eq; [right|left]; [|done].
  split; [done|by exists x].
Qed.

Lemma exec_one_frame i e (m : Machine W) e1 m1 :
  (quiet i = true \/ (requires_materialization (i_op i) = true /\ invalidates_after i = false)) ->
  exec_one fuel mode i e m = Some (Continue e1 m1) ->
  same_regs (m_cpu m) (m_cpu m1) /\
  (i_op i <> Op.WriteXER -> i_op i <> Op.MoveXERToCR -> xer (m_cpu m1) = xer (m_cpu m)).
Proof.
  intros Hc E. destruct (exec_one_inv _ _ _ _ _ _ E) as (args & st & _ & Hs & Hr).
  destruct st as [v s w|]; [|done]. destruct Hr as (e2 & _ & [= _ ->]). cbn.
  assert (Hpc : same_regs (m_cpu m) (m_cpu (emit_guest_pc i m)) /\
    xer (m_cpu (emit_guest_pc i m)) = xer (m_cpu m)).
  { unfold emit_guest_pc. by destruct (_ && _); repeat split. }
  destruct Hpc as [(P1 & P2 & P3 & P4 & P5) Px].
  destruct Hc as [Hq|[Hm Hi]].
  - destruct (quiet_frame fuel mode i args _ _ _ Hq Hs) as (? & ? & ? & [= <- <- <-] & Hreg & _).
    split; [destruct Hreg as (?&?&?&?&?); repeat split; congruence|]. intros Hw Hmv.
    rewrite (quiet_xer i args _ _ _ _ _ Hq Hw Hmv Hs). done.
  - destruct (materialized_frame fuel mode i args _ _ _ _ _ Hm Hi Hs) as [(?&?&?&?&?) Hx].
    split; [repeat split; congruence|]. intros _ _. congruence.
Qed.

Definition other_result (ps : PromotedState) (r r2 : BlockStep W) : Prop :=
  match r, r2 with
  | Continue e1 m1, Continue e2 m2 =>
      e2 = e1 /\ promote_rel ps e1 (m_cpu m1) (m_cpu m2) /\
      m_world m2 = m_world m1 /\ m_materialized m2 = m_materialized m1
  | Leave x s w, Leave x' s' w' => x' = x /\ s' = s /\ w' = w
  | _, _ => False
  end.

Lemma rel_after_bind ps e e1 i (s s' : CpuState) :
  (i_result i <> kNoValue -> e !! i_result i = None) ->
  (e1 = e /\ i_result i = kNoValue) \/
    (i_result i <> kNoValue /\ exists x, e1 = <[i_result i := x]> e) ->
  promote_rel ps e s s' -> promote_rel ps e1 s s'.
Proof using Type.
  intros Hf [[-> _]|(Hne & x & ->)] Hrel; [done|]. apply promote_rel_extend; [by apply Hf|done].
Qed.

(** A materialised operation. *)
Lemma other_materialized al ps i e (m m' : Machine W) r :
  (i_result i <> kNoValue -> e !! i_result i = None) ->
  requires_materialization (i_op i) = true ->
  promote_rel ps e (m_cpu m) (m_cpu m') -> m_world m' = m_world m ->
  m_materialized m' = m_materialized m -> exec_one fuel mode i e m = Some r ->
  exists r2, exec_list fuel mode (promote_other al ps i).2 e m' = Some r2 /\
    other_result (pm_state (promote_other al ps i).1) r r2.
Proof.
  intros Hf Hm Hrel Hw Hmt E. unfold promote_other.
  rewrite (bool_decide_false (i_op i = Op.ReadXER \/ _)) by (intros [He|He]; by rewrite He in Hm).
  rewrite (bool_decide_false (i_op i = Op.WriteXER \/ _)) by (intros [He|He]; by rewrite He in Hm).
  rewrite Hm. destruct (flush_run fuel mode ps i e m m' Hrel Hw Hmt) as (Efl & Hrel1 & Hclean).
  destruct (flush ps i) as [ps1 out]. cbn [fst snd app pm_state] in *.
  exists r. split; [by rewrite exec_list_app, Efl; cbn [mbind option_bind]; rewrite exec_list_one|].
  destruct r as [e1 m1|]; [|done]. split_and!; [done| |done|done].
  destruct (invalidates_after i) eqn:Hi; [apply promote_rel_none|].
  destruct (exec_one_frame i e m e1 m1 (or_intror (conj Hm Hi)) E) as [Hreg Hx].
  pose proof (rel_after_bind ps1 e e1 i _ _ Hf (exec_one_env _ _ _ _ _ E) Hrel1) as Hrel2.
  eapply promote_rel_move; [exact Hrel2| |].
  - symmetry. etrans; [|apply (patch_none all_slots)]. apply patch_ext. intros sl _. unfold dirty_val.
    destruct (tv_dirty (get_slot ps1 sl)) eqn:Ed; [|done].
    destruct (pr_dirty _ _ _ _ Hrel1 sl Ed) as [Hr _]. by rewrite (Hclean sl Hr) in Ed.
  - intros sl. right. split; [done|]. apply slot_get_same; [done|]. intros _.
    apply Hx; intros He; by rewrite He in Hm.
Qed.

(** An operation that runs with writes still deferred. *)
Lemma other_quiet ps i e (m m' : Machine W) r :
  (i_result i <> kNoValue -> e !! i_result i = None) ->
  quiet i = true -> i_op i <> Op.WriteXER ->
  (xer_op (i_op i) = true -> forall sl, sl ∈ xer_slots -> tv_dirty (get_slot ps sl) = false) ->
  promote_rel ps e (m_cpu m) (m_cpu m') -> m_world m' = m_world m ->
  m_materialized m' = m_materialized m -> exec_one fuel mode i e m = Some r ->
  exists r2, exec_one fuel mode i e m' = Some r2 /\
    other_result (if bool_decide (i_op i = Op.MoveXERToCR) then invalidate_xer_flags ps else ps) r r2.
Proof.
  intros Hf Hq Hnw Hxc Hrel Hw Hmt E.
  assert (Hpq : patch_quiet i (dirty_val ps e)).
  { split; [by eapply dirty_patch_ok|]. intros Hx sl Hin. unfold dirty_val. by rewrite (Hxc Hx sl Hin). }
  destruct (exec_one_quiet fuel mode i e _ _ m m' r Hq Hpq (pr_patch _ _ _ _ Hrel) Hw Hmt E)
    as (e1 & m1 & m1' & -> & E2 & Hc & Hw1 & Hm1).
  exists (Continue e1 m1'). split; [done|]. split_and!; [done| |done|done].
  destruct (exec_one_frame i e m e1 m1 (or_introl Hq) E) as [Hreg Hx].
  pose proof (rel_after_bind ps e e1 i _ _ Hf (exec_one_env _ _ _ _ _ E) Hrel) as Hrel2.
  assert (Hdv : forall sl, dirty_val ps e1 sl = dirty_val ps e sl).
  { intros sl. destruct (exec_one_env _ _ _ _ _ E) as [[-> _]|(Hne & x & ->)]; [done|].
    unfold dirty_val. destruct (tv_dirty (get_slot ps sl)) eqn:Ed; [|done].
    destruct (pr_dirty _ _ _ _ Hrel sl Ed) as [Hr Hv]. pose proof (pr_valid _ _ _ _ Hrel sl Hr Hv) as Hl.
    rewrite lookup_insert_ne; [done|]. intros Heq.
    assert (e !! tv_value (get_slot ps sl) = None) by (rewrite <- Heq; exact (Hf Hne)). congruence. }
  eapply promote_rel_move; [exact Hrel2| |].
  - rewrite Hc. apply patch_ext. intros sl _. case_bool_decide as Hmv; [|by rewrite Hdv].
    unfold dirty_val at 2. rewrite get_invalidate_xer. case_decide as Hin; [|by rewrite <- Hdv].
    unfold dirty_val. rewrite Hxc; [done|by rewrite Hmv|done].
  - intros sl. case_bool_decide as Hmv.
    + rewrite get_invalidate_xer. case_decide as Hin; [by left|]. right. split; [done|].
      by apply slot_get_same.
    + right. split; [done|]. apply slot_get_same; [done|]. intros _. by apply Hx.
Qed.

(** [WriteXER] overwrites the deferred flags. *)
Lemma other_write_xer ps i e (m m' : Machine W) r :
  i_op i = Op.WriteXER ->
  promote_rel ps e (m_cpu m) (m_cpu m') -> m_world m' = m_world m ->
  m_materialized m' = m_materialized m -> exec_one fuel mode i e m = Some r ->
  exists r2, exec_one fuel mode i e m' = Some r2 /\
    other_result (invalidate_xer_flags ps) r r2.
Proof using Type.
  intros Hop Hrel Hw Hmt E. destruct (exec_write_xer i e m r Hop E) as [c Hc].
  destruct (Hc m) as [_ Hr]. rewrite (Hr eq_refl). destruct (Hc m') as [-> _].
  eexists. split; [done|]. cbn. split_and!; [done| |done|done].
  eapply promote_rel_move; [exact Hrel| |].
  - rewrite (pr_patch _ _ _ _ Hrel), patch_set_xer by (by eapply dirty_patch_ok).
    apply patch_ext. intros sl _. unfold dirty_val. rewrite get_invalidate_xer. by case_decide.
  - intros sl. rewrite get_invalidate_xer. case_decide as Hin; [by left|]. right. split; [done|].
    apply slot_get_same; [by repeat split|done].
Qed.

Lemma quiet_intro i :
  inst_wf i = true -> promoted_read (i_op i) = false -> promoted_write (i_op i) = false ->
  requires_materialization (i_op i) = false -> quiet i = true.
Proof using Type.
  intros [_ Hp]%andb_true_iff Hr Hw Hm. unfold quiet. by rewrite Hr, Hw, Hm, Hp.
Qed.

Lemma promote_other_run al ps i e (m m' : Machine W) r :
  (i_result i <> kNoValue -> e !! i_result i = None) ->
  inst_wf i = true -> promoted_read (i_op i) = false -> promoted_write (i_op i) = false ->
  promote_rel ps e (m_cpu m) (m_cpu m') -> m_world m' = m_world m ->
  m_materialized m' = m_materialized m -> exec_one fuel mode i e m = Some r ->
  exists r2, exec_list fuel mode (promote_other al ps i).2 e m' = Some r2 /\
    other_result (pm_state (promote_other al ps i).1) r r2.
Proof.
  intros Hf Hwf Hr Hw Hrel Hworld Hmt E.
  destruct (requires_materialization (i_op i)) eqn:Hm; [by apply (other_materialized al ps i e m)|].
  pose proof (quiet_intro i Hwf Hr Hw Hm) as Hq.
  assert (Hinv : invalidates_after i = false).
  { unfold invalidates_after. destruct (i_op i); try done; discriminate Hm. }
  unfold promote_other. rewrite Hm, Hinv. cbn [app].
  destruct (decide (i_op i = Op.WriteXER)) as [Hop|Hnw].
  { rewrite (bool_decide_false (i_op i = Op.ReadXER \/ _)) by (rewrite Hop; intuition congruence).
    rewrite (bool_decide_true (i_op i = Op.WriteXER \/ _)) by (by left).
    cbn [app fst snd pm_state]. rewrite exec_list_one. by apply (other_write_xer ps i e m). }
  rewrite (bool_decide_ext (i_op i = Op.WriteXER \/ i_op i = Op.MoveXERToCR)
    (i_op i = Op.MoveXERToCR)) by intuition congruence.
  destruct (bool_decide (i_op i = Op.ReadXER \/ i_op i = Op.MoveXERToCR)) eqn:Hx.
  - destruct (flush_slots_run fuel mode xer_slots ps i e _ m' Hrel) as (s1 & Efl & Hrel1 & Hcl & _).
    unfold flush_xer_flags. destruct (flush_slots xer_slots ps i) as [ps1 out]. cbn [fst snd pm_state] in *.
    rewrite exec_list_app, Efl. cbn [mbind option_bind]. rewrite exec_list_one.
    by apply (other_quiet ps1 i e m).
  - cbn [app fst snd pm_state]. rewrite exec_list_one. apply (other_quiet ps i e m); try done.
    intros Hxo. apply bool_decide_eq_false in Hx. destruct (i_op i); try discriminate Hxo; exfalso; auto.
Qed.
End Other.

(** ** The simulation *)

Section PromoteSim.
Context {W : Type} `{MemoryPort W, RuntimeServices W, HostHelpers W, !PromotionLaws W}.
Context (fuel : nat) (ms mt : Mode) (Hmode : mode_le ms mt) (Hmt : mt <> Lifted) (size : Z).

Record promote_inv (n : Z) (st : PromoteState) (e e' : Env) (m m' : Machine W) : Prop :=
  mkPromoteInv {
    pi_world : m_world m' = m_world m;
    pi_materialized : m_materialized m' = m_materialized m;
    pi_static : promote_static size n st;
    pi_alias : alias_inv n (pm_aliases st) e e';
    pi_rel : promote_rel (pm_state st) e' (m_cpu m) (m_cpu m');
    pi_no_ext : forall v x, e' !! v = Some x -> no_ext x
  }.

Lemma exec_one_no_ext i e (m : Machine W) e1 m1 :
  (forall v x, e !! v = Some x -> no_ext x) ->
  exec_one fuel mt i e m = Some (Continue e1 m1) -> forall v x, e1 !! v = Some x -> no_ext x.
Proof using Hmt.
  intros He E. destruct (exec_one_inv _ _ _ _ _ _ E) as (args & st & Ha & Hs & Hr).
  destruct st as [y s w|]; [|done]. destruct Hr as (e2 & Hb & [= -> _]). unfold bind_result in Hb.
  destruct y as [y|], (Z.eqb_spec (i_result i) kNoValue); simplify_eq; [|done].
  intros v x Hx. apply lookup_insert_Some in Hx as [[_ <-]|[_ Hx]]; [|by eapply He].
  eapply exec_inst_no_ext; [exact Hmt| |exact Hs]. apply mapM_Some in Ha.
  clear -Ha He. induction Ha; constructor; [by eapply He|done].
Qed.

Lemma promote_sim : sim_step (W := W) fuel ms mt promote_step (promote_index_ok size) promote_inv.
Proof using Hmode Hmt PromotionLaws0.
  intros n st e e' m m' i r [Hw Hmat Hst Hal Hrel Hne] Hi Hidx E.
  pose proof (promote_step_static size n st i Hst Hi Hidx) as (Hst' & _ & _). revert Hst'.
  pose proof Hst as [Hn Hsz Hok Htr]. destruct Hidx as [Hidx Hwf].
  unfold promote_step. destruct (resolve_args_spec n _ _ Hok (inst_ok_args n i Hi)) as [Hra He].
  destruct (resolve_args (pm_aliases st) (i_args i)) as [args al]. cbn [fst snd] in *. subst args.
  pose proof (alias_inv_equiv _ _ _ _ _ He Hal) as Hal1.
  assert (Hfind : find al <$> i_args i = find (pm_aliases st) <$> i_args i).
  { apply list_fmap_ext_in. eapply Forall_impl; [by eapply inst_ok_args|]. intros a Ha. apply He.
    cbn in Ha. lia. }
  destruct (alias_inv_keep fuel ms mt n al e e' i m r Hmode Hal1 Hi E) as (r' & E' & Hsim).
  rewrite Hfind in E'. set (i' := set_args (find (pm_aliases st) <$> i_args i) i) in *.
  assert (Hwf' : inst_wf i' = true) by done.
  assert (Hlen : Z.of_nat (length al) = size) by (destruct He as [-> _]; done).
  assert (Henv : forall v x, e' !! v = Some x -> wf_val x /\ no_ext x).
  { intros v x Hv. split; [by eapply (ai_tgt _ _ _ _ Hal)|by eapply Hne]. }
  assert (Hfresh : i_result i <> kNoValue -> e' !! i_result i = None).
  { intros Hr. destruct (e' !! i_result i) as [y|] eqn:Ey; [|done].
    pose proof (inst_ok_result n i Hi Hr). pose proof (ai_tgt _ _ _ _ Hal _ _ Ey). lia. }
  change (i_op i') with (i_op i). change (slot_for i') with (slot_for i).
  destruct (promoted_read (i_op i)) eqn:Hread.
  - (* a register read *)
    pose proof (read_result i Hwf Hread) as Hres. pose proof (inst_ok_result n i Hi Hres) as Hrange.
    assert (exists sl, slot_for i = Some sl) as [sl Hsl].
    { apply andb_true_iff in Hwf as [_ Hp]. unfold promotable, index_below, slot_for in *.
      destruct (i_op i); try done; try (by eexists);
        apply andb_true_iff in Hp as [[_ ->]%andb_true_iff _]; by eexists. }
    rewrite Hsl. intros Hst'. destruct (exec_read fuel ms i sl e m r Hwf Hread Hsl E) as [-> _].
    destruct (tv_valid (get_slot (pm_state st) sl)) eqn:Ev.
    + destruct (Htr sl (or_introl Ev)) as [Hsr Hval].
      pose proof (pr_valid _ _ _ _ Hrel sl Hsr Ev) as Hx.
      pose proof (ai_root _ _ _ _ Hal1 _ _ Hx) as Hroot.
      destruct (resolve_spec n al (tv_value (get_slot (pm_state st) sl)) (proj1 (proj2 He))) as [Hrt He2];
        [lia|]. destruct (resolve al _) as [t al2]. cbn [fst snd] in *. rewrite Hroot in Hrt. subst t.
      pose proof (alias_inv_equiv _ _ _ _ _ He2 Hal1) as Hal2.
      change (i_result i') with (i_result i) in *.
      exists (Continue e' m'). split; [done|]. rewrite next_id_result in * by done. cbn.
      destruct (alias_inv_drop n al2 e e' (i_result i) (slot_get sl (m_cpu m))
        (tv_value (get_slot (pm_state st) sl)) (slot_get sl (m_cpu m))) as [Hinv _].
      * done.
      * lia.
      * destruct He2 as [-> _]. specialize (Hidx Hres). lia.
      * eapply has_type_wf, slot_get_ok.
      * by eapply ai_root.
      * done.
      * constructor.
      * by split.
    + assert (Hclean : tv_dirty (get_slot (pm_state st) sl) = false).
      { destruct (tv_dirty (get_slot (pm_state st) sl)) eqn:Ed; [|done].
        destruct (pr_dirty _ _ _ _ Hrel sl Ed). congruence. }
      destruct (exec_read fuel mt i' sl e' m r' Hwf' Hread Hsl E') as [-> Hrun].
      specialize (Hrun e' m'). rewrite set_args_self in Hrun. cbn [fst snd].
      rewrite exec_list_one, Hrun. eexists. split; [done|]. cbn. change (i_result i') with (i_result i) in *.
      rewrite (promote_rel_read _ _ _ _ _ Hrel Hclean). rewrite next_id_result in * by done.
      destruct Hsim as (_ & Hinv & _). split; try done.
      * apply promote_rel_track; [by apply promote_rel_extend; [apply Hfresh|]|done|].
        apply lookup_insert_eq.
      * intros v x Hv. apply lookup_insert_Some in Hv as [[_ <-]|[_ Hv]]; [|by eapply Hne].
        by destruct sl.
  - destruct (promoted_write (i_op i)) eqn:Hwr.
    + (* a register write *)
      assert (exists sl, slot_for i = Some sl) as [sl Hsl].
      { apply andb_true_iff in Hwf as [_ Hp]. unfold promotable, index_below, slot_for in *.
        destruct (i_op i); try done; try (by eexists);
          apply andb_true_iff in Hp as [_ ->]; by eexists. }
      rewrite Hsl.
      destruct (exec_write fuel mt i' sl e' m r' Henv Hwf' Hwr Hsl E')
        as (a & x & Ha & Hx & Hxok & Hvoid & ->).
      destruct r as [e1 m1|]; [|done]. destruct Hsim as (<- & Hinv & _).
      rewrite Ha. pose proof (ai_root _ _ _ _ Hal1 _ _ Hx) as Hroot.
      destruct (ai_tgt _ _ _ _ Hal1 a x Hx) as [Han _].
      destruct (resolve_spec n al a (proj1 (proj2 He))) as [Hrt He2]; [lia|].
      destruct (resolve al a) as [t al2]. cbn [fst snd] in *. rewrite Hroot in Hrt. subst t.
      intros Hst'. exists (Continue e' m'). split; [done|]. cbn. split; try done.
      * eapply alias_inv_equiv; [|exact Hinv]. by eapply alias_equiv_mono; [apply next_id_ge|].
      * apply promote_rel_defer; [done|by eapply slot_for_range|done|done].
    + intros Hst'.
      destruct (promote_other_run fuel mt al (pm_state st) i' e' m m' r' Hfresh Hwf' Hread Hwr Hrel Hw Hmat E')
        as (r2 & E2 & Hr2).
      exists r2. split; [done|]. destruct r as [e1 m1|x s w], r' as [e1' m1'|x' s' w']; try done;
        destruct r2 as [e2 m2|x2 s2 w2]; try done.
      * destruct Hsim as (-> & Hinv & _). destruct Hr2 as (-> & Hrel2 & Hw2 & Hm2).
        assert (Hal' : pm_aliases (promote_other al (pm_state st) i').1 = al)
          by (unfold promote_other; by repeat case_match).
        split; try done; [by rewrite Hal'|]. by eapply exec_one_no_ext.
      * destruct Hsim as (-> & -> & ->). by destruct Hr2 as (-> & -> & ->).
Qed.
End PromoteSim.

Section PromoteRun.
Context {W : Type} `{MemoryPort W, RuntimeServices W, HostHelpers W, !PromotionLaws W}.

Definition promote_size (l : list Instruction) : Z :=
  Z.of_nat (length (init_aliases (max_value_id l))).

Definition promote_init (l : list Instruction) : PromoteState :=
  mkPromoteState (init_aliases (max_value_id l)) promoted_none.

Lemma promote_static_init l : promote_static (promote_size l) 0 (promote_init l).
Proof using Type.
  split; [by vm_compute|done|apply alias_ok_init|apply tracked_ok_none].
Qed.

Lemma promote_index l :
  Forall (λ i, inst_wf i = true) l -> Forall (promote_index_ok (promote_size l)) l.
Proof using Type.
  intros Hwf. pose proof (init_aliases_covers l) as Hc. rewrite Forall_forall in *.
  intros i Hi. split; [by apply Hc|by apply Hwf].
Qed.

Lemma promote_run fuel ms mt l (m : Machine W) o :
  mode_le ms mt -> mt <> Lifted -> body_ok l = true ->
  run_body fuel ms l m = Some o -> run_body fuel mt (promote l) m = Some o.
Proof.
  intros Hmode Hmt [Hssa Hwf]%body_ok_spec E. unfold promote.
  destruct (last l) as [src|] eqn:Hlast; [|apply last_None in Hlast as ->; done].
  assert (HI : promote_inv (promote_size l) 0 (promote_init l) ∅ ∅ m m).
  { split; try done; [apply promote_static_init|apply alias_inv_init|apply promote_rel_none]. }
  unfold run_body in *. destruct (exec_list fuel ms l ∅ m) as [r|] eqn:Er; [|done].
  destruct (run_pass_sim fuel ms mt promote_step _ _
    (promote_sim fuel ms mt Hmode Hmt (promote_size l)) l 0 (promote_init l) ∅ ∅ m m r HI Hssa
    (promote_index l Hwf) Er) as (r' & Er' & Hr). unfold promote_init in *.
  destruct (run_pass promote_step _ l) as [st out]. cbn [fst snd] in *.
  rewrite exec_list_app, Er'. cbn [mbind option_bind].
  destruct r as [e1 m1|x s w], r' as [e1' m1'|x' s' w']; try done.
  - destruct Hr as (n & [Hw Hm _ _ Hrel _]).
    destruct (flush_run fuel mt (pm_state st) src e1' m1 m1' Hrel Hw Hm) as (-> & _). done.
  - by destruct Hr as (-> & -> & ->).
Qed.

Lemma promote_pass_ok size l n st :
  promote_static size n st -> ssa n l = true -> Forall (promote_index_ok size) l ->
  exists k, promote_static size k (run_pass promote_step st l).1 /\
    Forall (λ i, inst_wf i = true) (run_pass promote_step st l).2 /\
    forall tail, ssa k tail = true -> ssa n ((run_pass promote_step st l).2 ++ tail) = true.
Proof using Type.
  revert n st. induction l as [|i l IH]; intros n st HP Hs Hok; [by exists n|].
  apply ssa_cons in Hs as [Hi Hs]. apply Forall_cons in Hok as [Hoki Hok].
  destruct (promote_step_static size n st i HP Hi Hoki) as (HP' & Hwf & Hglue).
  destruct (IH _ _ HP' Hs Hok) as (k & HPk & Hwfk & Htail). rewrite run_pass_cons. cbn [fst snd].
  exists k. split_and!; [done|by apply Forall_app|]. intros tail Ht. rewrite <- app_assoc.
  apply Hglue. by apply Htail.
Qed.

Lemma promote_ok l : body_ok l = true -> body_ok (promote l) = true.
Proof using Type.
  intros [Hssa Hwf]%body_ok_spec. apply body_ok_spec. unfold promote.
  destruct (last l) as [src|] eqn:Hlast; [|done].
  destruct (promote_pass_ok (promote_size l) l 0 (promote_init l) (promote_static_init l) Hssa
    (promote_index l Hwf)) as (k & [Hb _ _ Htr] & Hout & Htail). unfold promote_init in *.
  destruct (run_pass promote_step _ l) as [st out]. cbn [fst snd] in *. unfold flush.
  destruct (flush_slots_static k all_slots (pm_state st) src Htr) as [_ Hfl].
  split.
  - apply Htail. rewrite <- (app_nil_r (flush_slots _ _ _).2). apply late_write_ssa; [lia|done|done].
  - apply Forall_app. split; [done|]. eapply Forall_impl; [exact Hfl|]. by intros i (_ & Hi & _).
Qed.
End PromoteRun.
