(* ===== verification/CrForward.v ===== *)
(** * Forwarding condition-register compares
    ([forward_cr_compare_state], src/cpu/optimizer/passes/state_promotion.cpp)

    A [WriteCRCompare] is held back; reads of its bits use the compare's operands
    directly, later writes of the field make it disappear, and it is emitted when
    the field or the whole register is needed. *)

From S2P Require Import Prelude.
From S2P Require Import Words.
From S2P Require Import CpuState.
From S2P Require Import Ir.
From S2P Require Import IrValue.
From S2P Require Import PassSim.
From S2P Require Import Aliases.
From S2P Require Import AliasPass.
From S2P Require Import Promote.

(** [std::array<PendingCRCompare, 8>]: an entry for each valid element. *)
Abbreviation Pending := (gmap Z Instruction).

Definition fields : list Z := seqZ 0 8.

Definition flush_field (field : Z) (p : Pending) : Pending * list Instruction :=
  let f := field .& 7 in
  match p !! f with
  | Some w => (delete f p, [w])
  | None => (p, [])
  end.

Fixpoint flush_fields (l : list Z) (p : Pending) : Pending * list Instruction :=
  match l with
  | [] => (p, [])
  | f :: l =>
      let '(p, out) := flush_field f p in
      let '(p, rest) := flush_fields l p in
      (p, out ++ rest)
  end.

Definition flush_all (p : Pending) : Pending * list Instruction := flush_fields fields p.

Definition drop_field (field : Z) (p : Pending) : Pending := delete (field .& 7) p.

(** The reads that force a pending compare out. *)
Definition flush_for_read (i : Instruction) (p : Pending) : Pending * list Instruction :=
  match i_op i with
  | Op.ReadCR => flush_all p
  | Op.ReadCRField => flush_field (i_imm0 i) p
  | Op.ReadCRBit => flush_field (i_imm0 i / 4) p
  | _ => (p, [])
  end.

(** The [switch] on operations that write the register. *)
Definition apply_cr_write (i : Instruction) (p : Pending) : Pending * list Instruction :=
  match i_op i with
  | Op.WriteCR => (∅, [])
  | Op.WriteCRField | Op.MoveXERToCR | Op.MoveFPSCRFieldToCR => (drop_field (i_imm0 i) p, [])
  | Op.WriteCRBit => flush_field (i_imm0 i / 4) p
  | Op.UpdateCR0Signed | Op.WriteCR0StoreConditional => (drop_field 0 p, [])
  | Op.UpdateCR1FromFPSCR => (drop_field 1 p, [])
  | Op.VUpdateCR6 => (drop_field 6 p, [])
  | Op.MoveCRFields =>
      (foldl (λ p f, if i_imm0 i .& (0x80 .>> f) =? 0 then p else drop_field f p) p fields, [])
  | _ => (p, [])
  end.

Record CrState : Type := mkCrState {
  crs_aliases : Aliases;
  crs_pending : Pending
}.

Definition forward_other (al : Aliases) (p : Pending) (i : Instruction)
    : CrState * list Instruction :=
  let '(p, out1) := flush_for_read i p in
  let '(p, out2) := apply_cr_write i p in
  let '(p, out3) := if requires_materialization (i_op i) then flush_all p else (p, []) in
  (mkCrState al p, out1 ++ out2 ++ out3 ++ [i]).

Definition forward_step (st : CrState) (i0 : Instruction) : CrState * list Instruction :=
  let p := crs_pending st in
  let '(args, al) := resolve_args (crs_aliases st) (i_args i0) in
  let i := set_args args i0 in
  if bool_decide (i_op i = Op.WriteCRCompare) then
    (mkCrState al (<[i_imm0 i .& 7 := i]> p), [])
  else if bool_decide (i_op i = Op.ReadCRBit) then
    let bit := i_imm0 i .& 31 in
    match p !! (bit / 4) with
    | Some w =>
        if (length (i_args w) =? 4)%nat then
          let '(replacement, al) := resolve al (i_args w !!! Z.to_nat (bit mod 4)) in
          (mkCrState (assign_alias al (i_result i) replacement) p, [])
        else forward_other al p i
    | None => forward_other al p i
    end
  else forward_other al p i.

Definition forward_cr (l : list Instruction) : list Instruction :=
  match l with
  | [] => []
  | _ =>
      let '(st, out) := run_pass forward_step (mkCrState (init_aliases (max_value_id l)) ∅) l in
      out ++ (flush_all (crs_pending st)).2
  end.

Definition forward_cr_compare_state (b : Block) : Block :=
  set_instructions (forward_cr (b_instructions b)) b.

Lemma land_low k x : 0 <= k -> 0 <= x .& Z.ones k < 2 ^ k.
Proof. intros Hk. rewrite Z.land_ones by done. apply Z.mod_pos_bound. by apply Z.pow_pos_nonneg. Qed.

(** ** The static invariant *)

Definition pending_ok (n : Z) (p : Pending) : Prop :=
  forall f w, p !! f = Some w ->
    0 <= f < 8 /\ i_op w = Op.WriteCRCompare /\ i_imm0 w .& 7 = f /\ late_write n w.

Lemma pending_ok_mono n n' p : n <= n' -> pending_ok n p -> pending_ok n' p.
Proof.
  intros Hn Hp f w Hw. destruct (Hp f w Hw) as (?&?&?&Hl). split_and!; try done.
  1,2: lia. by eapply late_write_mono.
Qed.

Lemma pending_ok_sub n p p' : p' ⊆ p -> pending_ok n p -> pending_ok n p'.
Proof. intros Hs Hp f w Hw. apply Hp. by eapply lookup_weaken. Qed.

Lemma flush_field_static n f p :
  pending_ok n p -> (flush_field f p).1 ⊆ p /\ Forall (late_write n) (flush_field f p).2.
Proof.
  intros Hp. unfold flush_field. destruct (p !! (f .& 7)) as [w|] eqn:Ew; [|done]. cbn.
  split; [apply delete_subseteq|]. constructor; [|done]. by apply (Hp _ _ Ew).
Qed.

Lemma flush_fields_static n l p :
  pending_ok n p -> (flush_fields l p).1 ⊆ p /\ Forall (late_write n) (flush_fields l p).2.
Proof.
  revert p. induction l as [|f l IH]; intros p Hp; [done|]. cbn.
  destruct (flush_field_static n f p Hp) as [Hs Ho]. destruct (flush_field f p) as [p1 out].
  cbn [fst snd] in *. destruct (IH p1 (pending_ok_sub n _ _ Hs Hp)) as [Hs1 Ho1].
  destruct (flush_fields l p1) as [p2 rest]. cbn [fst snd] in *.
  split; [by etrans|by apply Forall_app].
Qed.

Lemma flush_for_read_static n i p :
  pending_ok n p -> (flush_for_read i p).1 ⊆ p /\ Forall (late_write n) (flush_for_read i p).2.
Proof.
  intros Hp. unfold flush_for_read, flush_all.
  destruct (i_op i); auto using flush_field_static, flush_fields_static.
Qed.

Lemma drop_fields_sub g (l : list Z) (p : Pending) :
  foldl (λ p f, if (g f : bool) then p else drop_field f p) p l ⊆ p.
Proof.
  revert p. induction l as [|f l IH]; intros p; [done|]. cbn. etrans; [apply IH|].
  destruct (g f); [done|]. apply delete_subseteq.
Qed.

Lemma apply_cr_write_static n i p :
  pending_ok n p -> (apply_cr_write i p).1 ⊆ p /\ Forall (late_write n) (apply_cr_write i p).2.
Proof.
  intros Hp. unfold apply_cr_write, drop_field.
  destruct (i_op i); auto using flush_field_static; cbn; split; try done;
    try apply delete_subseteq; try apply map_empty_subseteq.
  apply (drop_fields_sub (λ f, i_imm0 i .& (0x80 .>> f) =? 0)).
Qed.

Section ForwardStatic.
Context (size : Z).

Definition forward_index_ok (i : Instruction) : Prop :=
  (i_result i <> kNoValue -> i_result i < size) /\ inst_wf i = true.

Record forward_static (n : Z) (st : CrState) : Prop := mkForwardStatic {
  fst_bound : 0 <= n <= kNoValue;
  fst_size : Z.of_nat (length (crs_aliases st)) = size;
  fst_ok : alias_ok n (crs_aliases st);
  fst_pending : pending_ok n (crs_pending st)
}.

Lemma compare_void i : inst_wf i = true -> i_op i = Op.WriteCRCompare -> i_result i = kNoValue.
Proof using Type.
  intros [_ Hp]%andb_true_iff Hop. unfold promotable, has_result in Hp. rewrite Hop in Hp.
  by rewrite negb_involutive, Z.eqb_eq in Hp.
Qed.

Lemma forward_other_static n al p i i' :
  0 <= n <= kNoValue -> inst_ok n i = true -> inst_wf i' = true -> i_result i' = i_result i ->
  Forall (λ a', 0 <= a' /\ exists a, a ∈ i_args i /\ a' <= a) (i_args i') ->
  Z.of_nat (length al) = size -> alias_ok n al -> pending_ok n p ->
  forward_static (next_id n i) (forward_other al p i').1 /\
  Forall (λ i, inst_wf i = true) (forward_other al p i').2 /\
  forall rest, ssa (next_id n i) rest = true -> ssa n ((forward_other al p i').2 ++ rest) = true.
Proof using Type.
  intros Hn Hi Hwf Hres Hargs Hsz Hok Hp. pose proof (next_id_ge n i Hi) as Hge.
  pose proof (next_id_le n i Hi (proj2 Hn)) as Hle. unfold forward_other.
  destruct (flush_for_read_static n i' p Hp) as [S1 O1].
  destruct (flush_for_read i' p) as [p1 out1]. cbn [fst snd] in *.
  pose proof (pending_ok_sub n _ _ S1 Hp) as Hp1.
  destruct (apply_cr_write_static n i' p1 Hp1) as [S2 O2].
  destruct (apply_cr_write i' p1) as [p2 out2]. cbn [fst snd] in *.
  pose proof (pending_ok_sub n _ _ S2 Hp1) as Hp2.
  assert (H3 : exists p3 out3,
    (if requires_materialization (i_op i') then flush_all p2 else (p2, [])) = (p3, out3) /\
    pending_ok n p3 /\ Forall (late_write n) out3).
  { destruct (requires_materialization _); [|by exists p2, []].
    destruct (flush_fields_static n fields p2 Hp2) as [S3 O3]. unfold flush_all.
    destruct (flush_fields fields p2) as [p3 out3]. exists p3, out3.
    split_and!; [done|by eapply pending_ok_sub|done]. }
  destruct H3 as (p3 & out3 & -> & Hp3 & O3). cbn [fst snd]. split; [|split].
  - split; cbn; [lia|done|by eapply alias_ok_mono|by eapply pending_ok_mono].
  - rewrite !Forall_app. split_and!; [..|by constructor];
      (eapply Forall_impl; [eassumption|]); by intros j (_ & Hj & _).
  - intros rest Hrest. rewrite <- !app_assoc. do 3 (apply late_write_ssa; [lia|done|]).
    cbn [app]. apply ssa_cons. split; [by apply (inst_ok_shrink n i)|].
    apply (ssa_mono (next_id n i)); [|done]. apply next_id_shrink; [done|done|].
    eapply Forall_impl; [exact Hargs|]. by intros a' [_ Ha'].
Qed.

Lemma pending_arg_range n p f w k :
  pending_ok n p -> p !! f = Some w -> (k < length (i_args w))%nat -> 0 <= i_args w !!! k < n.
Proof using Type.
  intros Hp Hw Hk. destruct (Hp f w Hw) as (_ & _ & _ & _ & _ & Ha).
  rewrite Forall_forall in Ha. apply Ha. apply list_elem_of_lookup_total. by exists k.
Qed.

Lemma forward_step_static n st i :
  forward_static n st -> inst_ok n i = true -> forward_index_ok i ->
  forward_static (next_id n i) (forward_step st i).1 /\
  Forall (λ i, inst_wf i = true) (forward_step st i).2 /\
  forall rest, ssa (next_id n i) rest = true -> ssa n ((forward_step st i).2 ++ rest) = true.
Proof using Type.
  intros [Hn Hsz Hok Hp] Hi [Hidx Hwf]. pose proof (next_id_ge n i Hi) as Hge.
  pose proof (next_id_le n i Hi (proj2 Hn)) as Hle. unfold forward_step.
  destruct (resolve_args_spec n _ _ Hok (inst_ok_args n i Hi)) as [Hr He].
  destruct (resolve_args (crs_aliases st) (i_args i)) as [args al]. cbn [fst snd] in *. subst args.
  pose proof (resolved_args_shrink n _ i Hok Hi) as Hargs.
  set (i' := set_args (find (crs_aliases st) <$> i_args i) i) in *.
  destruct He as (Hlen & Hok1 & Hf1). change (i_op i') with (i_op i). change (i_imm0 i') with (i_imm0 i).
  assert (Hother : forward_static (next_id n i) (forward_other al (crs_pending st) i').1 /\
    Forall (λ i, inst_wf i = true) (forward_other al (crs_pending st) i').2 /\
    forall rest, ssa (next_id n i) rest = true ->
      ssa n ((forward_other al (crs_pending st) i').2 ++ rest) = true).
  { apply forward_other_static; try done. lia. }
  case_bool_decide as Hcmp.
  - pose proof (compare_void i Hwf Hcmp) as Hvoid. cbn [fst snd].
    split_and!; [|done|intros rest Hrest; by apply (ssa_mono (next_id n i))].
    split; cbn; [lia|lia|by eapply alias_ok_mono|].
    intros f w Hw. apply lookup_insert_Some in Hw as [[<- <-]|[_ Hw]].
    + assert (Hf : 0 <= i_imm0 i .& 7 < 8) by exact (land_low 3 (i_imm0 i) ltac:(lia)).
      split; [exact Hf|]. split; [done|]. split; [done|]. split; [done|]. split; [done|].
      pose proof (next_id_args n i Hvoid) as Hna. rewrite Forall_forall in Hna.
      eapply Forall_impl; [exact Hargs|]. intros a' [H0 (a & Hin & Hle')]. specialize (Hna a Hin).
      cbn in *. lia.
    + by apply (pending_ok_mono n _ _ Hge Hp).
  - case_bool_decide as Hrd; [|done].
    destruct (crs_pending st !! _) as [w|] eqn:Ew; [|done].
    destruct (Nat.eqb_spec (length (i_args w)) 4) as [Hl4|]; [|done].
    assert (Hk : (Z.to_nat ((i_imm0 i .& 31) mod 4) < length (i_args w))%nat).
    { rewrite Hl4. pose proof (Z.mod_pos_bound (i_imm0 i .& 31) 4 ltac:(lia)). lia. }
    pose proof (pending_arg_range n _ _ _ _ Hp Ew Hk) as Hrange.
    set (a := i_args w !!! _) in *.
    destruct (resolve_spec n al a Hok1) as [Hrt He2]; [lia|].
    destruct (resolve al a) as [t al2]. cbn [fst snd] in *. destruct He2 as (Hlen2 & Hok2 & Hf2).
    change (i_result i') with (i_result i).
    pose proof (find_range n al Hok1 a ltac:(lia)) as Hfr.
    split_and!; [|done|intros rest Hrest; by apply (ssa_mono (next_id n i))].
    destruct (Z.eq_dec (i_result i) kNoValue) as [Hv|Hne].
    + unfold assign_alias. rewrite Hv, Z.eqb_refl. cbn.
      split; cbn; [lia|lia|by eapply alias_ok_mono|by eapply pending_ok_mono].
    + pose proof (inst_ok_result n i Hi Hne) as Hres. specialize (Hidx Hne).
      destruct (assign_alias_spec n al2 (i_result i) t) as (Hl3 & Ho3 & _); [done|lia..| |].
      { rewrite Hrt, Hf2 by lia. apply (find_idem n); [done|lia]. }
      split; cbn; [lia|lia|by rewrite next_id_result|by eapply pending_ok_mono].
Qed.
End ForwardStatic.
