(* ===== verification/CrPatch.v ===== *)
(** * Deferred field writes of the condition register

    A set of pending field values applied to the register, characterised bit by
    bit; the ways the pass changes the set; and the operations that do not see
    it. *)

From S2P Require Import Prelude.
From S2P Require Import Words.
From S2P Require Import CpuState.
From S2P Require Import AotScalar.
From S2P Require Import Ir.
From S2P Require Import IrValue.
From S2P Require Import Services.
From S2P Require Import IrSem.
From S2P Require Import IrRefine.
From S2P Require Import PassSim.
From S2P Require Import Promote.
From S2P Require Import PromoteSlots.
From S2P Require Import CrForward.

(** The field a bit of the register belongs to. *)
Definition bit_field (n : Z) : Z := 7 - n / 4.

Lemma field_put_bit f v x n :
  0 <= n ->
  Z.testbit (field_put f v x) n =
    if (n <? 32) && (bit_field n =? f .& 7) then Z.testbit v (n mod 4) else Z.testbit x n.
Proof.
  intros Hn. rewrite field_put_testbit by done. pose proof (field_low f) as Hf.
  unfold bit_field, field_shift. pose proof (Z.div_mod n 4 ltac:(lia)) as Hd.
  pose proof (Z.mod_pos_bound n 4 ltac:(lia)) as Hm.
  destruct (Z.leb_spec ((7 - (f .& 7)) * 4) n), (Z.ltb_spec n ((7 - (f .& 7)) * 4 + 4)); cbn [andb].
  - rewrite (proj2 (Z.ltb_lt n 32)) by lia. rewrite (proj2 (Z.eqb_eq _ _)) by lia. cbn.
    f_equal. lia.
  - destruct (Z.eqb_spec (7 - n / 4) (f .& 7)); [lia|]. by rewrite andb_false_r.
  - destruct (Z.eqb_spec (7 - n / 4) (f .& 7)); [lia|]. by rewrite andb_false_r.
  - lia.
Qed.

Section CPatch.
Implicit Type g : Z -> option Z.

Definition cpatch g (l : list Z) (x : Z) : Z :=
  foldl (λ x f, match g f with Some v => field_put f v x | None => x end) x l.

Lemma cpatch_cons g f l x :
  cpatch g (f :: l) x = cpatch g l (match g f with Some v => field_put f v x | None => x end).
Proof. done. Qed.

Lemma cpatch_bit g l x n :
  Forall (λ f, 0 <= f < 8) l -> NoDup l -> 0 <= n ->
  Z.testbit (cpatch g l x) n =
    if (n <? 32) && bool_decide (bit_field n ∈ l)
    then match g (bit_field n) with Some v => Z.testbit v (n mod 4) | None => Z.testbit x n end
    else Z.testbit x n.
Proof.
  intros Hl Hnd Hn. revert x. induction Hl as [|f l Hf Hl IH]; intros x.
  { cbn. by rewrite andb_false_r. }
  apply NoDup_cons in Hnd as [Hnin Hnd]. rewrite cpatch_cons, (IH Hnd).
  assert (Hland : f .& 7 = f).
  { assert (f .& 7 = f mod 8) as -> by (by apply (Z.land_ones f 3)). apply Z.mod_small. lia. }
  destruct (n <? 32) eqn:Hn32; cbn [andb].
  2:{ destruct (g f); [|done]. rewrite field_put_bit, Hn32 by done. done. }
  destruct (decide (bit_field n = f)) as [Heq|Hne].
  - rewrite (bool_decide_false (bit_field n ∈ l)) by (by rewrite Heq).
    rewrite bool_decide_true by (rewrite Heq; by left). rewrite Heq.
    destruct (g f) as [v|]; [|done].
    rewrite field_put_bit, Hn32, Heq, Hland, Z.eqb_refl by done. done.
  - assert (Hx : Z.testbit (match g f with Some v => field_put f v x | None => x end) n = Z.testbit x n).
    { destruct (g f); [|done]. rewrite field_put_bit, Hland by done.
      destruct (Z.eqb_spec (bit_field n) f); [done|]. by rewrite andb_false_r. }
    rewrite Hx. rewrite (bool_decide_ext (bit_field n ∈ f :: l) (bit_field n ∈ l)); [done|].
    rewrite elem_of_cons. intuition.
Qed.

Lemma fields_range : Forall (λ f, 0 <= f < 8) fields.
Proof. apply Forall_forall. intros f Hf%elem_of_seqZ. lia. Qed.

Lemma fields_NoDup : NoDup fields.
Proof. apply NoDup_seqZ. Qed.

Lemma fields_complete f : 0 <= f < 8 -> f ∈ fields.
Proof. intros Hf. apply elem_of_seqZ. lia. Qed.

(** All eight fields: every bit below 32 is covered. *)
Lemma cpatch_all_bit g x n :
  0 <= n ->
  Z.testbit (cpatch g fields x) n =
    if n <? 32
    then match g (bit_field n) with Some v => Z.testbit v (n mod 4) | None => Z.testbit x n end
    else Z.testbit x n.
Proof.
  intros Hn. rewrite cpatch_bit by (apply fields_range || apply fields_NoDup || done).
  destruct (Z.ltb_spec n 32); [|done]. cbn [andb].
  rewrite bool_decide_true; [done|]. apply fields_complete. unfold bit_field.
  pose proof (Z.div_mod n 4 ltac:(lia)). pose proof (Z.mod_pos_bound n 4 ltac:(lia)). lia.
Qed.

Lemma cpatch_ext g g' x :
  (forall f, 0 <= f < 8 -> g f = g' f) -> cpatch g fields x = cpatch g' fields x.
Proof.
  intros Hg. apply Z.bits_inj'. intros n Hn. rewrite !cpatch_all_bit by done.
  destruct (Z.ltb_spec n 32); [|done]. rewrite Hg; [done|]. unfold bit_field.
  pose proof (Z.div_mod n 4 ltac:(lia)). pose proof (Z.mod_pos_bound n 4 ltac:(lia)). lia.
Qed.

Lemma cpatch_none g x : (forall f, 0 <= f < 8 -> g f = None) -> cpatch g fields x = x.
Proof. intros Hg. rewrite (cpatch_ext g (λ _, None)) by done. done. Qed.

Definition cupd (f : Z) (v : option Z) g : Z -> option Z := λ f', if decide (f' = f) then v else g f'.

(** Holding a field write back, whatever was pending for the field. *)
Lemma cpatch_defer g f v x :
  cpatch (cupd (f .& 7) (Some v) g) fields x = field_put f v (cpatch g fields x).
Proof.
  apply Z.bits_inj'. intros n Hn. rewrite field_put_bit, !cpatch_all_bit by done. unfold cupd.
  destruct (Z.ltb_spec n 32); cbn [andb]; [|done].
  destruct (Z.eqb_spec (bit_field n) (f .& 7)); case_decide; done.
Qed.

(** A field write makes the pending value of the field irrelevant. *)
Lemma cpatch_overwrite g f v x :
  field_put f v (cpatch g fields x) = cpatch (cupd (f .& 7) None g) fields (field_put f v x).
Proof.
  apply Z.bits_inj'. intros n Hn. rewrite field_put_bit, !cpatch_all_bit, field_put_bit by done.
  unfold cupd. destruct (Z.ltb_spec n 32); cbn [andb]; [|done].
  destruct (Z.eqb_spec (bit_field n) (f .& 7)); case_decide; done.
Qed.

(** Writing a pending value out. *)
Lemma cpatch_perform g f v x :
  g (f .& 7) = Some v ->
  cpatch g fields x = cpatch (cupd (f .& 7) None g) fields (field_put f v x).
Proof.
  intros Hg. apply Z.bits_inj'. intros n Hn. rewrite !cpatch_all_bit, field_put_bit by done.
  unfold cupd. destruct (Z.ltb_spec n 32); cbn [andb]; [|done].
  destruct (Z.eqb_spec (bit_field n) (f .& 7)) as [->|]; case_decide; try done. by rewrite Hg.
Qed.

(** Several field writes at once. *)
Lemma cpatch_cpatch g h x :
  cpatch h fields (cpatch g fields x) =
    cpatch (λ f, match h f with Some _ => None | None => g f end) fields (cpatch h fields x).
Proof.
  apply Z.bits_inj'. intros n Hn. rewrite !cpatch_all_bit by done.
  destruct (n <? 32); [|done]. by destruct (h (bit_field n)).
Qed.
End CPatch.

(** ** Reading and writing around pending fields *)

Lemma low5 b : 0 <= b .& 31 < 32.
Proof. exact (land_low 5 b ltac:(lia)). Qed.

Lemma bit_of_index b : 0 <= b < 32 -> bit_field (31 - b) = b / 4 /\ (31 - b) mod 4 = 3 - b mod 4.
Proof.
  intros Hb. unfold bit_field. pose proof (Z.div_mod b 4 ltac:(lia)).
  pose proof (Z.mod_pos_bound b 4 ltac:(lia)).
  assert (Hd : (31 - b) / 4 = 7 - b / 4 /\ (31 - b) mod 4 = 3 - b mod 4).
  { assert (31 - b = 4 * (7 - b / 4) + (3 - b mod 4)) as E by lia.
    split; [symmetry; apply (Z.div_unique_pos _ 4 _ (3 - b mod 4))
           |symmetry; apply (Z.mod_unique_pos _ 4 (7 - b / 4))]; lia. }
  lia.
Qed.

Lemma cr_bit_cpatch g b x s :
  cr_bit (set_cr (cpatch g fields x) s) b =
    match g ((b .& 31) / 4) with
    | Some v => Z.testbit v (3 - (b .& 31) mod 4)
    | None => Z.testbit x (31 - (b .& 31))
    end.
Proof.
  rewrite cr_bit_testbit. cbn [cr set_cr]. pose proof (low5 b) as Hb.
  destruct (bit_of_index _ Hb) as [H1 H2]. rewrite cpatch_all_bit by lia.
  rewrite (proj2 (Z.ltb_lt _ _)) by lia. by rewrite H1, H2.
Qed.

Lemma cr_field_cpatch g f x s :
  g (f .& 7) = None -> cr_field (set_cr (cpatch g fields x) s) f = cr_field (set_cr x s) f.
Proof.
  intros Hg. unfold cr_field. cbn [cr set_cr]. f_equal. apply Z.bits_inj'. intros n Hn.
  rewrite !nibble_testbit. destruct (Z.leb_spec 0 n), (Z.ltb_spec n 4); cbn [andb]; try done.
  pose proof (field_low f) as Hf. rewrite !Z.shiftr_spec by lia. rewrite cpatch_all_bit by lia.
  assert (Hbf : bit_field (n + (7 - (f .& 7)) * 4) = f .& 7).
  { unfold bit_field. rewrite Z.div_add by lia. rewrite (Z.div_small n 4) by lia. lia. }
  rewrite Hbf, Hg. by case_match.
Qed.

Lemma index_field b : (b / 4) .& 7 = (b .& 31) / 4.
Proof.
  assert ((b / 4) .& 7 = (b / 4) mod 8) as -> by (by apply (Z.land_ones (b / 4) 3)).
  assert (b .& 31 = b mod 32) as -> by (by apply (Z.land_ones b 5)).
  pose proof (Z.div_mod b 32 ltac:(lia)). pose proof (Z.mod_pos_bound b 32 ltac:(lia)).
  pose proof (Z.div_mod (b mod 32) 4 ltac:(lia)). pose proof (Z.mod_pos_bound (b mod 32) 4 ltac:(lia)).
  assert (Hb : b / 4 = 8 * (b / 32) + b mod 32 / 4).
  { symmetry. apply (Z.div_unique_pos _ 4 _ ((b mod 32) mod 4)); lia. }
  rewrite Hb. symmetry. apply (Z.mod_unique_pos _ 8 (b / 32)); lia.
Qed.

Definition bit_put (b : Z) (v : bool) (x : Z) : Z :=
  let mask := 0x80000000 .>> (b .& 31) in if v then x .| mask else bits_clear x mask.

Lemma set_cr_bit_put b v s : set_cr_bit b v s = set_cr (bit_put b v (cr s)) s.
Proof. done. Qed.

Lemma bit_put_testbit b v x n :
  0 <= n -> Z.testbit (bit_put b v x) n = if n =? 31 - (b .& 31) then v else Z.testbit x n.
Proof.
  intros Hn. pose proof (low5 b) as Hb. unfold bit_put.
  assert (Hm : 0x80000000 .>> (b .& 31) = 2 ^ (31 - (b .& 31))).
  { change 0x80000000 with (2 ^ 31). rewrite Z.shiftr_div_pow2 by lia.
    rewrite <- Z.pow_sub_r by lia. done. }
  rewrite Hm. unfold bits_clear. destruct v; rewrite ?Z.lor_spec, ?Z.ldiff_spec, Z.pow2_bits_eqb by lia;
    rewrite (Z.eqb_sym _ n); destruct (n =? _); cbn;
    rewrite ?orb_true_r, ?orb_false_r, ?andb_false_r, ?andb_true_r; done.
Qed.

Lemma cpatch_bit_put g b v x :
  g ((b .& 31) / 4) = None ->
  bit_put b v (cpatch g fields x) = cpatch g fields (bit_put b v x).
Proof.
  intros Hg. pose proof (low5 b) as Hb. destruct (bit_of_index _ Hb) as [H1 H2].
  apply Z.bits_inj'. intros n Hn. rewrite bit_put_testbit, !cpatch_all_bit, bit_put_testbit by done.
  destruct (Z.eqb_spec n (31 - (b .& 31))) as [->|]; [|done]. rewrite H1, Hg. by case_match.
Qed.

Lemma move_fields_put imm src s :
  foldl (λ s f, if imm .& (0x80 .>> f) =? 0 then s
           else set_cr_field f (u8 ((src .>> ((7 - f) * 4)) .& 0xF)) s) s fields =
  set_cr (cpatch (λ f, if imm .& (0x80 .>> f) =? 0 then None
                       else Some (u8 ((src .>> ((7 - f) * 4)) .& 0xF))) fields (cr s)) s.
Proof.
  unfold cpatch. generalize fields. intros l. revert s. induction l as [|f l IH]; intros s; [by destruct s|].
  cbn [foldl]. rewrite IH. by destruct (_ =? 0).
Qed.

(** The bits of a compare with at most one relation true. *)
Lemma compare_field_bits lt gt eq so k :
  exclusive lt gt eq = true -> 0 <= k < 4 ->
  Some (Z.testbit (cr_compare_field lt gt eq so) (3 - k)) = [lt; gt; eq; so] !! Z.to_nat k.
Proof.
  intros Hx Hk. assert (k = 0 \/ k = 1 \/ k = 2 \/ k = 3) as [->|[->|[->| ->]]] by lia;
    destruct lt, gt, eq, so; done.
Qed.

(** ** Operations that do not see the register *)

Definition cr_op (op : Op.t) : bool :=
  match op with
  | Op.ReadCR | Op.WriteCR | Op.ReadCRBit | Op.WriteCRBit | Op.ReadCRField | Op.WriteCRField
  | Op.WriteCRCompare | Op.WriteCR0StoreConditional | Op.UpdateCR0Signed | Op.MoveCRFields
  | Op.MoveXERToCR | Op.UpdateCR1FromFPSCR | Op.MoveFPSCRFieldToCR | Op.VUpdateCR6 => true
  | _ => false
  end.

Section CrMap.
Context {W : Type} `{MemoryPort W, RuntimeServices W, HostHelpers W, !PromotionLaws W}.
Context (fuel : nat) (mode : Mode) (R : Z -> Z).

Definition map_cr (s : CpuState) : CpuState := set_cr (R (cr s)) s.

Lemma exec_state_cr i args s :
  cr_op (i_op i) = false ->
  exec_state mode i args (map_cr s) = (λ '(v, s), (v, map_cr s)) <$> exec_state mode i args s.
Proof using Type.
  destruct i as [op t res ia imm0 imm1 ga gw go]. intros Hq.
  destruct op; try discriminate Hq; try reflexivity;
    destruct args as [|a [|b [|]]]; try reflexivity.
  all: unfold exec_state; cbn [i_op i_type i_imm0 i_imm1].
  all: repeat match goal with
    | |- context [any_int ?a] => destruct (any_int a); cbn; try reflexivity
    | |- context [viewed ?t ?a] => destruct (viewed t a); cbn; try reflexivity
    | |- context [exact ?t ?a] => destruct (exact t a); cbn; try reflexivity
    | |- context [as_vec ?a] => destruct (as_vec a); cbn; try reflexivity
    | |- context [bool_of ?a] => destruct (bool_of a); cbn; try reflexivity
    | |- context [read_int _ _ _] => unfold read_int; cbn
    | |- context [typed _ _ _] => unfold typed; cbn
    end.
  all: try reflexivity.
  all: try (do 2 f_equal; unfold write_fpscr_fields; generalize (seqZ 0 8); intros l;
    revert s; induction l as [|f l IH]; intros s; [done|]; cbn [foldl]; rewrite <- IH;
    f_equal; by destruct (_ =? 0)).
  all: unfold set_xer_overflow, set_fpscr_bit, write_msr; cbn; repeat case_match; reflexivity.
Qed.

Lemma exec_inst_cr i args s w :
  cr_op (i_op i) = false -> requires_materialization (i_op i) = false ->
  exec_inst fuel mode i args (map_cr s) w = step_map map_cr <$> exec_inst (W := W) fuel mode i args s w.
Proof using PromotionLaws0.
  intros Hq Hm. unfold exec_inst.
  assert (Hst : lift_state w (exec_state mode i args (map_cr s)) =
                step_map map_cr <$> lift_state w (exec_state mode i args s)).
  { rewrite exec_state_cr by done. unfold lift_state.
    by destruct (exec_state mode i args s) as [[v s']|]. }
  destruct (is_pure (i_op i)); [by destruct (eval_pure mode i args)|].
  destruct (bool_decide _); [done|].
  destruct (is_vector_compute (i_op i)).
  { unfold exec_vector. destruct (mapM as_vec args); [|done]. cbn.
    destruct (vector_inline i l) as [[r|]|]; cbn; [by destruct (typed _ _ _)|done|].
    destruct (_ =? _)%string; [done|]. destruct (hh_vector _ _ _ _ _) as [[r c] w'].
    by destruct (typed _ _ _). }
  destruct (is_fp_helper (i_op i)).
  { unfold exec_fp. destruct (fp_call i args) as [[c t]|]; [|done]. cbn.
    destruct (hh_fp c _ _) as [[x sc] w']. destruct t as [t|]; [|done]. by destruct (fp_result _ _ _). }
  destruct (is_memory_op (i_op i)) eqn:Hmem.
  { unfold exec_memory. destruct (i_op i); try discriminate Hmem; try discriminate Hm;
      try reflexivity.
    destruct args as [|a [|]]; try reflexivity. by destruct (any_int a). }
  destruct (is_control_op (i_op i)) eqn:Hctl; [|done]. unfold exec_control.
  destruct (i_op i); try discriminate Hctl; try discriminate Hm; destruct args; try reflexivity.
  - unfold map_cr at 1. rewrite (read_time_base_cr (R (cr s)) s w).
    destruct (rt_read_time_base s w) as [z w']. by destruct (read_int _ _ _).
  - unfold map_cr at 1. rewrite (read_spr_cr (i_imm0 i) (R (cr s)) s w).
    destruct (rt_read_spr _ s w) as [z w']. by destruct (read_int _ _ _).
Qed.
End CrMap.
