(* ===== verification/CrForwardSim.v ===== *)
(** * Compare forwarding: pending compares and operations

    How a state with compares held back relates to the state the source has, and what
    one operation, with the flushes that the pass puts before it, does to the two. *)

From S2P Require Import Prelude.
From S2P Require Import Words.
From S2P Require Import CpuState.
From S2P Require Import AotScalar.
From S2P Require Import Ir.
From S2P Require Import IrValue.
From S2P Require Import Services.
From S2P Require Import IrSem.
From S2P Require Import IrRefine.
From S2P Require Import PassSim.
From S2P Require Import Aliases.
From S2P Require Import AliasPass.
From S2P Require Import Promote.
From S2P Require Import PromoteSlots.
From S2P Require Import PromoteCorrect.
From S2P Require Import CrForward.
From S2P Require Import CrPatch.

(** ** The relation *)

(** The operands of a pending compare. *)
Definition compare_bools (e' : Env) (w : Instruction) : option (bool * bool * bool * bool) :=
  args ← mapM (e' !!.) (i_args w);
  match args with
  | [a; b; c; d] => lt ← bool_of a; gt ← bool_of b; eq ← bool_of c; so ← bool_of d; Some (lt, gt, eq, so)
  | _ => None
  end.

Definition compare_value (q : bool * bool * bool * bool) : Z :=
  let '(lt, gt, eq, so) := q in cr_compare_field lt gt eq so.

Definition pend_val (e' : Env) (p : Pending) (f : Z) : option Z :=
  w ← p !! f; compare_value <$> compare_bools e' w.

Definition compare_exclusive (q : bool * bool * bool * bool) : bool :=
  let '(lt, gt, eq, _) := q in exclusive lt gt eq.

(** Source state [s], target state [s']. *)
Record cr_rel (p : Pending) (e' : Env) (s s' : CpuState) : Prop := mkCrRel {
  cr_patch : s = set_cr (cpatch (pend_val e' p) fields (cr s')) s';
  cr_pend : forall f w, p !! f = Some w ->
    exists q, compare_bools e' w = Some q /\ compare_exclusive q = true
}.

Lemma set_cr_self s : set_cr (cr s) s = s.
Proof. by destruct s. Qed.

Lemma cr_rel_empty e' s : cr_rel ∅ e' s s.
Proof.
  split.
  - rewrite cpatch_none; [by rewrite set_cr_self|]. intros f _. unfold pend_val. by rewrite lookup_empty.
  - intros f w Hw. by rewrite lookup_empty in Hw.
Qed.

Lemma cr_rel_clean p e' s s' : cr_rel p e' s s' -> (forall f, 0 <= f < 8 -> p !! f = None) -> s' = s.
Proof.
  intros [-> _] Hp. rewrite cpatch_none; [by rewrite set_cr_self|].
  intros f Hf. unfold pend_val. by rewrite Hp.
Qed.

Definition compare_args (args : list TVal) : option (bool * bool * bool * bool) :=
  match args with
  | [a; b; c; d] => lt ← bool_of a; gt ← bool_of b; eq ← bool_of c; so ← bool_of d; Some (lt, gt, eq, so)
  | _ => None
  end.

Lemma compare_bools_inv (e' : Env) w q :
  compare_bools e' w = Some q <->
  exists args, mapM (e' !!.) (i_args w) = Some args /\ compare_args args = Some q.
Proof. unfold compare_bools. apply bind_Some. Qed.

Lemma compare_bools_extend (e' : Env) r x w q :
  e' !! r = None -> compare_bools e' w = Some q -> compare_bools (<[r := x]> e') w = Some q.
Proof.
  intros Hr (args & Ha & Hb)%compare_bools_inv. apply compare_bools_inv. exists args.
  split; [exact (lookups_extend _ _ x _ _ Hr Ha)|done].
Qed.

Lemma cr_rel_extend p e' s s' r x :
  e' !! r = None -> cr_rel p e' s s' -> cr_rel p (<[r := x]> e') s s'.
Proof.
  intros Hr [Hp Hq]. split.
  - rewrite Hp at 1. f_equal. apply cpatch_ext. intros f _. unfold pend_val.
    destruct (p !! f) as [w|] eqn:Ew; [|done]. cbn. destruct (Hq f w Ew) as (q & Hb & _).
    by rewrite Hb, (compare_bools_extend _ _ _ _ _ Hr Hb).
  - intros f w Hw. destruct (Hq f w Hw) as (q & Hb & Hx). exists q.
    split; [by apply compare_bools_extend|done].
Qed.

Lemma pend_val_delete e' p k : forall f, pend_val e' (delete k p) f = cupd k None (pend_val e' p) f.
Proof.
  intros f. unfold pend_val, cupd. destruct (decide (f = k)) as [->|Hne].
  - by rewrite lookup_delete_eq.
  - by rewrite lookup_delete_ne.
Qed.

Lemma pend_val_insert e' p k w q :
  compare_bools e' w = Some q ->
  forall f, pend_val e' (<[k := w]> p) f = cupd k (Some (compare_value q)) (pend_val e' p) f.
Proof.
  intros Hb f. unfold pend_val, cupd. destruct (decide (f = k)) as [->|Hne].
  - rewrite lookup_insert_eq. cbn. by rewrite Hb.
  - by rewrite lookup_insert_ne.
Qed.

Lemma cr_pend_sub p p' e' s s' :
  p' ⊆ p -> cr_rel p e' s s' ->
  forall f w, p' !! f = Some w -> exists q, compare_bools e' w = Some q /\ compare_exclusive q = true.
Proof. intros Hs [_ Hq] f w Hw. apply (Hq f). by eapply lookup_weaken. Qed.

Section Flush.
Context {W : Type} `{MemoryPort W, RuntimeServices W, HostHelpers W}.
Context (fuel : nat) (mode : Mode).

Lemma exec_pending n p f w q e' (m : Machine W) :
  pending_ok n p -> p !! f = Some w -> compare_bools e' w = Some q -> compare_exclusive q = true ->
  exec_one fuel mode w e' m =
    Some (Continue e' (put_cpu (set_cr_field (i_imm0 w) (compare_value q) (m_cpu m)) m)).
Proof using Type.
  intros Hp Hw Hb Hx. destruct (Hp f w Hw) as (_ & Hop & _ & Hv & _).
  apply compare_bools_inv in Hb as (args & Ha & Hb). unfold compare_args in Hb.
  assert (Hpc : emit_guest_pc w m = m).
  { unfold emit_guest_pc. rewrite Hop. cbn. by rewrite andb_false_r. }
  rewrite (exec_one_intro fuel mode w e' m args
    (Next None (set_cr_field (i_imm0 w) (compare_value q) (m_cpu m)) (m_world m)) Ha).
  - unfold bind_result. rewrite Hv, Z.eqb_refl, Hpc. done.
  - rewrite Hpc. unfold exec_inst, exec_state. rewrite Hop. cbn.
    destruct args as [|a [|b [|c [|d [|]]]]]; try done.
    destruct (bool_of a) as [lt|]; [|done]. destruct (bool_of b) as [gt|]; [|done].
    destruct (bool_of c) as [eq|]; [|done]. destruct (bool_of d) as [so|]; [|done].
    cbn in Hb |- *. injection Hb as <-. cbn in Hx. rewrite Hx. by rewrite andb_false_r.
Qed.

Lemma flush_field_run n p f e' s (m' : Machine W) :
  pending_ok n p -> cr_rel p e' s (m_cpu m') ->
  exists s1', exec_list fuel mode (flush_field f p).2 e' m' = Some (Continue e' (put_cpu s1' m')) /\
    cr_rel (flush_field f p).1 e' s s1' /\ (flush_field f p).1 !! (f .& 7) = None.
Proof using Type.
  intros Hp Hrel. unfold flush_field. destruct (p !! (f .& 7)) as [w|] eqn:Ew.
  - destruct (cr_pend _ _ _ _ Hrel _ _ Ew) as (q & Hb & Hx).
    destruct (Hp _ _ Ew) as (_ & _ & Himm & _).
    exists (set_cr_field (i_imm0 w) (compare_value q) (m_cpu m')). cbn [fst snd].
    rewrite exec_list_one, (exec_pending n p _ w q e' m' Hp Ew Hb Hx).
    split_and!; [done| |by rewrite lookup_delete_eq]. split.
    + rewrite (cr_patch _ _ _ _ Hrel), set_cr_field_put.
      rewrite (cpatch_perform _ (i_imm0 w) (compare_value q)).
      * match goal with |- _ = set_cr ?c _ => change (set_cr c _) with (set_cr c (m_cpu m')) end.
        f_equal. cbn [cr set_cr]. apply cpatch_ext. intros f' _. by rewrite Himm, pend_val_delete.
      * unfold pend_val. rewrite Himm, Ew. cbn. by rewrite Hb.
    + intros f' w' Hw'. apply (cr_pend _ _ _ _ Hrel f'). by apply lookup_delete_Some in Hw' as [_ ?].
  - exists (m_cpu m'). cbn. split_and!; [by destruct m'|done|done].
Qed.

Lemma flush_fields_run n l p e' s (m' : Machine W) :
  pending_ok n p -> cr_rel p e' s (m_cpu m') ->
  exists s1', exec_list fuel mode (flush_fields l p).2 e' m' = Some (Continue e' (put_cpu s1' m')) /\
    cr_rel (flush_fields l p).1 e' s s1' /\
    (forall f, f ∈ l -> (flush_fields l p).1 !! (f .& 7) = None).
Proof using Type.
  revert p m'. induction l as [|f l IH]; intros p m' Hp Hrel.
  { exists (m_cpu m'). cbn. split_and!; [by destruct m'|done|by intros ? ?%elem_of_nil]. }
  cbn. destruct (flush_field_run n p f e' s m' Hp Hrel) as (s1 & E1 & Hrel1 & Hn1).
  pose proof (flush_field_static n f p Hp) as [Hs1 _].
  destruct (flush_field f p) as [p1 out]. cbn [fst snd] in *.
  destruct (IH p1 (put_cpu s1 m') (pending_ok_sub n _ _ Hs1 Hp) Hrel1) as (s2 & E2 & Hrel2 & Hn2).
  pose proof (flush_fields_static n l p1 (pending_ok_sub n _ _ Hs1 Hp)) as [Hs2 _].
  destruct (flush_fields l p1) as [p2 rest]. cbn [fst snd] in *.
  exists s2. split_and!; [|done|].
  - rewrite exec_list_app, E1. exact E2.
  - intros f' [->|Hin]%elem_of_cons; [|by apply Hn2].
    destruct (p2 !! (f .& 7)) as [w|] eqn:Ew; [|done]. eapply lookup_weaken in Ew; [|exact Hs2].
    congruence.
Qed.

Lemma flush_all_run n p e' (m m' : Machine W) :
  pending_ok n p -> cr_rel p e' (m_cpu m) (m_cpu m') ->
  m_world m' = m_world m -> m_materialized m' = m_materialized m ->
  exec_list fuel mode (flush_all p).2 e' m' = Some (Continue e' m) /\ (flush_all p).1 = ∅.
Proof using Type.
  intros Hp Hrel Hw Hm. unfold flush_all.
  destruct (flush_fields_run n fields p e' _ m' Hp Hrel) as (s1 & E & Hrel1 & Hn).
  pose proof (flush_fields_static n fields p Hp) as [Hs _].
  revert E Hrel1 Hn Hs. destruct (flush_fields fields p) as [p1 out]. cbn [fst snd]. intros E Hrel1 Hn Hs.
  assert (Hc : forall f, 0 <= f < 8 -> p1 !! f = None).
  { intros f Hf. rewrite <- (Hn f (fields_complete f Hf)). f_equal. symmetry.
    assert (f .& 7 = f mod 8) as -> by (by apply (Z.land_ones f 3)). apply Z.mod_small. lia. }
  assert (Hemp : p1 = ∅).
  { apply map_empty. intros f. destruct (p1 !! f) as [w|] eqn:Ew; [|done].
    destruct (pending_ok_sub n _ _ Hs Hp f w Ew) as [Hf _]. by rewrite Hc in Ew. }
  split; [|done]. pose proof (cr_rel_clean _ _ _ _ Hrel1 Hc) as ->. rewrite E. unfold put_cpu.
  rewrite Hw, Hm. by destruct m.
Qed.
End Flush.

(** ** Operations on the register *)

(** What remains pending after an operation that stays in place. *)
Definition after_op (i : Instruction) (g : Z -> option Z) : Z -> option Z :=
  match i_op i with
  | Op.WriteCR => λ _, None
  | Op.WriteCRField | Op.MoveXERToCR | Op.MoveFPSCRFieldToCR => cupd (i_imm0 i .& 7) None g
  | Op.UpdateCR0Signed | Op.WriteCR0StoreConditional => cupd 0 None g
  | Op.UpdateCR1FromFPSCR => cupd 1 None g
  | Op.VUpdateCR6 => cupd 6 None g
  | Op.MoveCRFields => λ f, if i_imm0 i .& (0x80 .>> f) =? 0 then g f else None
  | _ => g
  end.

(** What must have been written out before the operation. *)
Definition before_op (i : Instruction) (g : Z -> option Z) : Prop :=
  match i_op i with
  | Op.ReadCR => forall f, 0 <= f < 8 -> g f = None
  | Op.ReadCRField => g (i_imm0 i .& 7) = None
  | Op.ReadCRBit | Op.WriteCRBit => g ((i_imm0 i .& 31) / 4) = None
  | Op.WriteCRCompare => False
  | _ => True
  end.

Lemma put_state (s : CpuState) c d :
  set_cr c (set_cr d s) = set_cr c s.
Proof. done. Qed.

(** An operation that overwrites field [k] with [v]. *)
Lemma field_op_cr g k v x s :
  set_cr (field_put k v (cpatch g fields x)) s =
  set_cr (cpatch (cupd (k .& 7) None g) fields (cr (set_cr (field_put k v x) s)))
    (set_cr (field_put k v x) s).
Proof. cbn [cr set_cr]. by rewrite cpatch_overwrite, put_state. Qed.

Lemma exec_state_pending mode i args g s' v s1 :
  cr_op (i_op i) = true -> before_op i g ->
  exec_state mode i args (set_cr (cpatch g fields (cr s')) s') = Some (v, s1) ->
  exists s1', exec_state mode i args s' = Some (v, s1') /\
    s1 = set_cr (cpatch (after_op i g) fields (cr s1')) s1'.
Proof.
  destruct i as [op t res ia imm0 imm1 ga gw go]. intros Hop Hb E.
  destruct op; try discriminate Hop; unfold exec_state, after_op, before_op in *; cbn [i_op i_imm0 i_imm1] in *.
  - (* ReadCR *)
    destruct args; [|done]. rewrite cpatch_none, set_cr_self in E by done.
    destruct (read_int _ 32 _); [|done]. cbn in E |- *. simplify_eq. eexists. split; [done|].
    rewrite cpatch_none by exact Hb. by rewrite set_cr_self.
  - (* WriteCR *)
    destruct args as [|a [|]]; try done. destruct (any_int a) as [z|]; [|done]. cbn in E |- *. simplify_eq.
    eexists. split; [done|]. by rewrite (cpatch_none (λ _, None)) by done.
  - (* ReadCRBit *)
    destruct args; [|done]. rewrite cr_bit_cpatch, Hb, <- cr_bit_testbit in E.
    destruct (typed _ _ _); [|done]. cbn in E |- *. simplify_eq. by eexists.
  - (* WriteCRBit *)
    destruct args as [|a [|]]; try done. destruct (bool_of a) as [b|]; [|done]. cbn -[set_cr_bit] in E |- *.
    simplify_eq. eexists. split; [done|]. rewrite !set_cr_bit_put. cbn [cr set_cr].
    by rewrite cpatch_bit_put, !put_state by done.
  - (* ReadCRField *)
    destruct args; [|done]. rewrite cr_field_cpatch, set_cr_self in E by done.
    destruct (read_int _ 8 _); [|done]. cbn in E |- *. simplify_eq. by eexists.
  - (* WriteCRField *)
    destruct args as [|a [|]]; try done. destruct (any_int a) as [z|]; [|done].
    cbn -[set_cr_field] in E |- *. simplify_eq. eexists. split; [done|].
    rewrite !set_cr_field_put. cbn [cr set_cr]. rewrite put_state. apply field_op_cr.
  - done.
  - (* WriteCR0StoreConditional *)
    destruct args as [|a [|b [|]]]; try done. destruct (bool_of a) as [ok|]; [|done].
    destruct (any_int b) as [z|]; [|done]. cbn -[set_cr_field] in E |- *. simplify_eq.
    eexists. split; [done|]. rewrite !set_cr_field_put. cbn [cr set_cr]. rewrite put_state.
    apply (field_op_cr g 0).
  - (* UpdateCR0Signed *)
    destruct args as [|a [|]]; try done. destruct (any_int a) as [z|]; [|done].
    cbn -[update_cr0_signed] in E |- *. simplify_eq. eexists. split; [done|].
    unfold update_cr0_signed. rewrite !set_cr_field_put. cbn [cr set_cr]. rewrite put_state.
    apply (field_op_cr g 0).
  - (* MoveCRFields *)
    destruct args as [|a [|]]; try done. destruct (any_int a) as [z|]; [|done].
    cbn -[seqZ] in E |- *. change (seqZ 0 8) with fields in *. rewrite move_fields_put in E.
    rewrite move_fields_put. simplify_eq. eexists. split; [done|]. cbn [cr set_cr].
    rewrite !put_state, cpatch_cpatch. f_equal. apply cpatch_ext. intros f _.
    by destruct (_ =? 0).
  - (* MoveXERToCR *)
    destruct args; [|done]. cbn -[set_cr_field] in E |- *. simplify_eq. eexists. split; [done|].
    rewrite !set_cr_field_put. cbn [cr set_cr set_xer xer xer_so xer_ov xer_ca].
    rewrite cpatch_overwrite. done.
  - (* UpdateCR1FromFPSCR *)
    destruct args; [|done]. cbn -[update_cr1_from_fpscr] in E |- *. simplify_eq. eexists. split; [done|].
    unfold update_cr1_from_fpscr. rewrite !set_cr_field_put. cbn [cr set_cr]. rewrite put_state.
    apply (field_op_cr g 1).
  - (* MoveFPSCRFieldToCR *)
    destruct args; [|done]. cbn -[move_fpscr_field_to_cr] in E |- *. simplify_eq. eexists. split; [done|].
    unfold move_fpscr_field_to_cr. rewrite !set_cr_field_put. cbn [cr set_cr fpscr].
    rewrite cpatch_overwrite. by destruct (_ <=? 3).
  - (* VUpdateCR6 *)
    destruct args as [|a [|]]; try done. destruct (as_vec a) as [z|]; [|done].
    cbn -[update_cr6_from_vector_compare] in E |- *. simplify_eq. eexists. split; [done|].
    unfold update_cr6_from_vector_compare. rewrite !set_cr_field_put. cbn [cr set_cr]. rewrite put_state.
    apply (field_op_cr g 6).
Qed.

(** ** One instruction that is not forwarded *)

Definition pending_after (i : Instruction) (p : Pending) : Pending * list Instruction :=
  let '(p, out1) := flush_for_read i p in
  let '(p, out2) := apply_cr_write i p in (p, out1 ++ out2).

Lemma forward_other_split al p i :
  forward_other al p i =
    let '(p, out) := pending_after i p in
    let '(p, out3) := if requires_materialization (i_op i) then flush_all p else (p, []) in
    (mkCrState al p, out ++ out3 ++ [i]).
Proof.
  unfold forward_other, pending_after. destruct (flush_for_read i p) as [p1 o1].
  destruct (apply_cr_write i p1) as [p2 o2].
  destruct (requires_materialization _); [destruct (flush_all p2)|]; by rewrite <- app_assoc.
Qed.

Lemma pending_after_other i p : cr_op (i_op i) = false -> pending_after i p = (p, []).
Proof. intros Ho. unfold pending_after, flush_for_read, apply_cr_write. by destruct (i_op i). Qed.

Lemma cr_op_calm op : cr_op op = true -> requires_materialization op = false.
Proof. by destruct op. Qed.

Section Other.
Context {W : Type} `{MemoryPort W, RuntimeServices W, HostHelpers W, !PromotionLaws W}.
Context (fuel : nat) (mode : Mode).

Lemma exec_cr_op i (e : Env) (m : Machine W) :
  cr_op (i_op i) = true ->
  exec_one fuel mode i e m =
    (args ← mapM (e !!.) (i_args i);
     r ← exec_state mode i args (m_cpu m);
     e1 ← bind_result i r.1 e; Some (Continue e1 (put_cpu r.2 m))).
Proof using Type.
  intros Hop. unfold exec_one. destruct (mapM _ _) as [args|]; [|done]. cbn [mbind option_bind].
  assert (Hpc : emit_guest_pc i m = m).
  { unfold emit_guest_pc. destruct (i_op i); try discriminate Hop; cbn; by rewrite andb_false_r. }
  rewrite Hpc.
  assert (Hst : exec_inst fuel mode i args (m_cpu m) (m_world m) =
    lift_state (m_world m) (exec_state mode i args (m_cpu m))).
  { unfold exec_inst. by destruct (i_op i). }
  rewrite Hst. unfold lift_state. by destruct (exec_state mode i args (m_cpu m)) as [[v s]|].
Qed.

(** Target and source after an instruction that both execute. *)
Definition cr_result (p : Pending) (r r2 : BlockStep W) : Prop :=
  match r, r2 with
  | Continue e1 m1, Continue e2 m2 =>
      e2 = e1 /\ cr_rel p e1 (m_cpu m1) (m_cpu m2) /\
      m_world m2 = m_world m1 /\ m_materialized m2 = m_materialized m1
  | Leave x s w, Leave x' s' w' => x' = x /\ s' = s /\ w' = w
  | _, _ => False
  end.

Definition fresh (i : Instruction) (e : Env) : Prop :=
  i_result i <> kNoValue -> e !! i_result i = None.

Lemma cr_rel_bind p (e e1 : Env) i v s s' :
  fresh i e -> bind_result i v e = Some e1 -> cr_rel p e s s' -> cr_rel p e1 s s'.
Proof using Type.
  intros Hf Hb Hrel. unfold bind_result in Hb.
  destruct v as [x|], (Z.eqb_spec (i_result i) kNoValue); simplify_eq; [|done].
  apply cr_rel_extend; [by apply Hf|done].
Qed.

(** Writing out what the operation needs, and dropping what it overwrites. *)
Definition prepared (p : Pending) (i : Instruction) (e : Env) (s : CpuState) (m' : Machine W) : Prop :=
  exists s1 p1,
    exec_list fuel mode (pending_after i p).2 e m' = Some (Continue e (put_cpu s1 m')) /\
    cr_rel p1 e s s1 /\ before_op i (pend_val e p1) /\ (pending_after i p).1 ⊆ p1 /\
    forall f, 0 <= f < 8 -> pend_val e (pending_after i p).1 f = after_op i (pend_val e p1) f.

Lemma prepared_keep p p' i e s (m' : Machine W) :
  cr_rel p e s (m_cpu m') -> pending_after i p = (p', []) -> before_op i (pend_val e p) -> p' ⊆ p ->
  (forall f, 0 <= f < 8 -> pend_val e p' f = after_op i (pend_val e p) f) -> prepared p i e s m'.
Proof using Type.
  intros Hrel Hk Hb Hs Ha. exists (m_cpu m'), p. rewrite Hk. split_and!; try done. cbn. by destruct m'.
Qed.

Lemma prepared_drop k p i e s (m' : Machine W) :
  cr_rel p e s (m_cpu m') -> pending_after i p = (drop_field k p, []) ->
  before_op i (pend_val e p) -> (forall g, after_op i g = cupd (k .& 7) None g) -> prepared p i e s m'.
Proof using Type.
  intros Hrel Hk Hb Ha. eapply prepared_keep; [done|exact Hk|done|apply delete_subseteq|].
  intros f _. rewrite Ha. apply pend_val_delete.
Qed.

Lemma prepared_flush n k p i e s (m' : Machine W) :
  pending_ok n p -> cr_rel p e s (m_cpu m') -> pending_after i p = flush_field k p ->
  (forall g : Z -> option Z, g (k .& 7) = None -> before_op i g) -> (forall g, after_op i g = g) ->
  prepared p i e s m'.
Proof using Type.
  intros Hp Hrel Hk Hb Ha.
  destruct (flush_field_run fuel mode n p k e s m' Hp Hrel) as (s1 & E & Hr & Hn).
  exists s1, (flush_field k p).1. rewrite Hk. split_and!; [done|done| |done|].
  - apply Hb. unfold pend_val. by rewrite Hn.
  - intros f _. by rewrite Ha.
Qed.

Lemma drop_moved_lookup (t : Z -> bool) l (p : Pending) f :
  0 <= f < 8 -> f ∈ l -> Forall (λ f, 0 <= f < 8) l ->
  foldl (λ p f, if t f then p else drop_field f p) p l !! f = if t f then p !! f else None.
Proof using Type.
  intros Hf Hin Hl.
  assert (Hland : forall k, 0 <= k < 8 -> k .& 7 = k).
  { intros k Hk. assert (k .& 7 = k mod 8) as -> by (by apply (Z.land_ones k 3)). apply Z.mod_small. lia. }
  assert (Hgone : forall l p, Forall (λ f, 0 <= f < 8) l ->
    foldl (λ (p : Pending) f, if t f then p else drop_field f p) p l !! f =
      if t f then p !! f else if bool_decide (f ∈ l) then None else p !! f).
  { clear l Hin Hl p. intros l. induction l as [|k l IH]; intros p Hl; [by destruct (t f)|].
    apply Forall_cons in Hl as [Hk Hl]. cbn [foldl]. rewrite IH by done. unfold drop_field.
    rewrite (Hland k Hk).
    destruct (decide (f = k)) as [<-|Hne].
    - destruct (t f); [done|]. rewrite lookup_delete_eq. rewrite (bool_decide_true (f ∈ f :: l)) by (by left).
      by case_bool_decide.
    - assert (Hd : (if t k then p else delete k p) !! f = p !! f)
        by (destruct (t k); [done|by rewrite lookup_delete_ne]).
      rewrite Hd. rewrite (bool_decide_ext (f ∈ k :: l) (f ∈ l)); [done|].
      rewrite elem_of_cons. intuition. }
  rewrite Hgone by done. by rewrite bool_decide_true.
Qed.

Lemma pending_after_run n p i e s (m' : Machine W) :
  pending_ok n p -> cr_op (i_op i) = true -> i_op i <> Op.WriteCRCompare ->
  cr_rel p e s (m_cpu m') -> prepared p i e s m'.
Proof using Type.
  intros Hp Hop Hne Hrel.
  assert (Hfl : forall k, pending_after i p = flush_field k p ->
    (forall g : Z -> option Z, g (k .& 7) = None -> before_op i g) -> (forall g, after_op i g = g) ->
    prepared p i e s m') by (intros; by eapply prepared_flush).
  assert (Hdr : forall k, pending_after i p = (drop_field k p, []) -> before_op i (pend_val e p) ->
    (forall g, after_op i g = cupd (k .& 7) None g) -> prepared p i e s m')
    by (intros; by eapply prepared_drop).
  assert (Hpa : forall q : Pending * list Instruction, (let '(p, o) := q in (p, o ++ [])) = q)
    by (intros [q o]; by rewrite app_nil_r).
  destruct (i_op i) eqn:Eop; try discriminate Hop; try done.
  - (* ReadCR *)
    destruct (flush_fields_run fuel mode n fields p e s m' Hp Hrel) as (s1 & E & Hr & Hn).
    assert (Hk : pending_after i p = flush_fields fields p).
    { unfold pending_after, flush_for_read, apply_cr_write. rewrite Eop. apply Hpa. }
    exists s1, (flush_fields fields p).1. rewrite Hk. unfold before_op, after_op. rewrite Eop.
    split_and!; try done. intros f Hf. unfold pend_val.
    assert (f .& 7 = f) as Hland.
    { assert (f .& 7 = f mod 8) as -> by (by apply (Z.land_ones f 3)). apply Z.mod_small. lia. }
    rewrite <- Hland, Hn; [done|by apply fields_complete].
  - (* WriteCR *)
    eapply prepared_keep; [done| | |apply map_empty_subseteq|];
      unfold pending_after, flush_for_read, apply_cr_write, before_op, after_op; rewrite Eop; try done.
  - apply (Hfl (i_imm0 i / 4)); unfold pending_after, flush_for_read, apply_cr_write, before_op, after_op;
      rewrite Eop; [apply Hpa| |done]. intros g. by rewrite index_field.
  - apply (Hfl (i_imm0 i / 4)); unfold pending_after, flush_for_read, apply_cr_write, before_op, after_op;
      rewrite Eop; [by destruct (flush_field _ p)| |done]. intros g. by rewrite index_field.
  - apply (Hfl (i_imm0 i)); unfold pending_after, flush_for_read, apply_cr_write, before_op, after_op;
      rewrite Eop; [apply Hpa|done|done].
  - apply (Hdr (i_imm0 i)); unfold pending_after, flush_for_read, apply_cr_write, before_op, after_op;
      by rewrite Eop.
  - apply (Hdr 0); unfold pending_after, flush_for_read, apply_cr_write, before_op, after_op;
      by rewrite Eop.
  - apply (Hdr 0); unfold pending_after, flush_for_read, apply_cr_write, before_op, after_op;
      by rewrite Eop.
  - (* MoveCRFields *)
    eapply prepared_keep; [done| | |apply (drop_fields_sub (λ f, i_imm0 i .& (0x80 .>> f) =? 0) fields)|];
      unfold pending_after, flush_for_read, apply_cr_write, before_op, after_op; rewrite Eop; try done.
    intros f Hf. unfold pend_val.
    rewrite (drop_moved_lookup (λ f, i_imm0 i .& (0x80 .>> f) =? 0));
      [by destruct (_ =? 0)|done|by apply fields_complete|apply fields_range].
  - apply (Hdr (i_imm0 i)); unfold pending_after, flush_for_read, apply_cr_write, before_op, after_op;
      by rewrite Eop.
  - apply (Hdr 1); unfold pending_after, flush_for_read, apply_cr_write, before_op, after_op;
      by rewrite Eop.
  - apply (Hdr (i_imm0 i)); unfold pending_after, flush_for_read, apply_cr_write, before_op, after_op;
      by rewrite Eop.
  - apply (Hdr 6); unfold pending_after, flush_for_read, apply_cr_write, before_op, after_op;
      by rewrite Eop.
Qed.
End Other.
