(* ===== verification/CrForwardCorrect.v ===== *)
(** * Compare forwarding: the simulation and the run of a block

    [forward_run]: a block behaves as before when its compares are held back,
    forwarded into the reads of their bits, and written out on demand. *)

From S2P Require Import Prelude.
From S2P Require Import Words.
From S2P Require Import CpuState.
From S2P Require Import AotScalar.
From S2P Require Import Ir.
From S2P Require Import IrValue.
From S2P Require Import Services.
From S2P Require Import IrSem.
From S2P Require Import IrRefine.
From S2P Require Import PassSim.
From S2P Require Import Aliases.
From S2P Require Import AliasPass.
From S2P Require Import Promote.
From S2P Require Import PromoteSlots.
From S2P Require Import PromoteCorrect.
From S2P Require Import CrForward.
From S2P Require Import CrPatch.
From S2P Require Import CrForwardSim.

Section Other.
Context {W : Type} `{MemoryPort W, RuntimeServices W, HostHelpers W, !PromotionLaws W}.
Context (fuel : nat) (mode : Mode).

(** An operation on the register that stays in place. *)
Lemma other_cr_op n al p i (e : Env) (m m' : Machine W) r :
  fresh i e -> pending_ok n p -> cr_op (i_op i) = true -> i_op i <> Op.WriteCRCompare ->
  cr_rel p e (m_cpu m) (m_cpu m') -> m_world m' = m_world m ->
  m_materialized m' = m_materialized m -> exec_one fuel mode i e m = Some r ->
  exists r2, exec_list fuel mode (forward_other al p i).2 e m' = Some r2 /\
    cr_result (crs_pending (forward_other al p i).1) r r2.
Proof using Type.
  intros Hf Hp Hop Hne Hrel Hw Hmt E. rewrite forward_other_split, (cr_op_calm _ Hop).
  destruct (pending_after_run fuel mode n p i e _ m' Hp Hop Hne Hrel)
    as (s1 & p1 & Eout & Hrel1 & Hb & Hsub & Hafter).
  destruct (pending_after i p) as [p2 out]. cbn [fst snd crs_pending app] in *.
  rewrite exec_list_app, Eout. cbn [mbind option_bind]. rewrite exec_list_one.
  rewrite exec_cr_op in E |- * by done. destruct (mapM _ _) as [args|]; [|done].
  cbn [mbind option_bind] in *. cbn [m_cpu put_cpu] in *.
  destruct (exec_state mode i args (m_cpu m)) as [[v s]|] eqn:Es; [|done]. cbn [mbind option_bind fst snd] in *.
  rewrite (cr_patch _ _ _ _ Hrel1) in Es.
  destruct (exec_state_pending mode i args _ _ _ _ Hop Hb Es) as (s2 & E2 & Hs2). rewrite E2.
  cbn [mbind option_bind fst snd]. destruct (bind_result i v e) as [e1|] eqn:Eb; [|done]. cbn in *.
  simplify_eq. eexists. split; [done|]. cbn. split_and!; [done| |done|done].
  eapply cr_rel_bind; [exact Hf|exact Eb|]. split; [|by eapply cr_pend_sub].
  cbn. f_equal. symmetry. by apply cpatch_ext.
Qed.

(** An operation before which every pending compare is written out. *)
Lemma other_barrier n al p i (e : Env) (m m' : Machine W) r :
  pending_ok n p -> requires_materialization (i_op i) = true ->
  cr_rel p e (m_cpu m) (m_cpu m') -> m_world m' = m_world m ->
  m_materialized m' = m_materialized m -> exec_one fuel mode i e m = Some r ->
  exists r2, exec_list fuel mode (forward_other al p i).2 e m' = Some r2 /\
    cr_result (crs_pending (forward_other al p i).1) r r2.
Proof using Type.
  intros Hp Hm Hrel Hw Hmt E. rewrite forward_other_split, Hm.
  rewrite pending_after_other by (by destruct (i_op i)).
  destruct (flush_all_run fuel mode n p e m m' Hp Hrel Hw Hmt) as [Efl Hemp].
  destruct (flush_all p) as [p1 out]. cbn [fst snd app crs_pending] in *. subst p1.
  exists r. rewrite exec_list_app, Efl. cbn [mbind option_bind]. rewrite exec_list_one.
  split; [done|]. destruct r; [|done]. cbn. split_and!; try done. apply cr_rel_empty.
Qed.

(** An operation that neither reads nor writes the register. *)
Lemma other_blind al p i (e : Env) (m m' : Machine W) r :
  fresh i e -> cr_op (i_op i) = false -> requires_materialization (i_op i) = false ->
  cr_rel p e (m_cpu m) (m_cpu m') -> m_world m' = m_world m ->
  m_materialized m' = m_materialized m -> exec_one fuel mode i e m = Some r ->
  exists r2, exec_list fuel mode (forward_other al p i).2 e m' = Some r2 /\
    cr_result (crs_pending (forward_other al p i).1) r r2.
Proof.
  intros Hf Hop Hm Hrel Hw Hmt E. rewrite forward_other_split, Hm, pending_after_other by done.
  cbn [fst snd app crs_pending]. rewrite exec_list_one.
  destruct (exec_one_inv _ _ _ _ _ _ E) as (args & st & Ha & Hs & Hr).
  set (R := cpatch (pend_val e p) fields).
  assert (Hpc : m_cpu (emit_guest_pc i m) = map_cr R (m_cpu (emit_guest_pc i m')) /\
    m_world (emit_guest_pc i m) = m_world (emit_guest_pc i m') /\
    m_materialized (emit_guest_pc i m) = m_materialized (emit_guest_pc i m')).
  { unfold emit_guest_pc. rewrite Hmt, Hw, (cr_patch _ _ _ _ Hrel).
    destruct (_ && _); split_and!; try done; apply (cr_patch _ _ _ _ Hrel). }
  destruct Hpc as (Hc & Hw1 & Hm1). rewrite Hc, Hw1, exec_inst_cr in Hs by done.
  destruct (exec_inst fuel mode i args _ _) as [st0|] eqn:Es; [|done]. cbn in Hs. simplify_eq.
  rewrite (exec_one_intro _ _ _ _ _ _ _ Ha Es).
  destruct st0 as [v s w|x s w]; [|by apply calm_next in Es]. cbn in Hr.
  destruct Hr as (e1 & Hb & ->). rewrite Hb. eexists. split; [done|]. cbn. split_and!; try done.
  eapply cr_rel_bind; [exact Hf|exact Hb|]. split; [done|]. by apply (cr_pend _ _ _ _ Hrel).
Qed.

Lemma forward_other_run n al p i (e : Env) (m m' : Machine W) r :
  fresh i e -> pending_ok n p -> i_op i <> Op.WriteCRCompare ->
  cr_rel p e (m_cpu m) (m_cpu m') -> m_world m' = m_world m ->
  m_materialized m' = m_materialized m -> exec_one fuel mode i e m = Some r ->
  exists r2, exec_list fuel mode (forward_other al p i).2 e m' = Some r2 /\
    cr_result (crs_pending (forward_other al p i).1) r r2.
Proof.
  intros Hf Hp Hne Hrel Hw Hmt E. destruct (cr_op (i_op i)) eqn:Hop; [by apply (other_cr_op n al p i e m)|].
  destruct (requires_materialization (i_op i)) eqn:Hm;
    [by apply (other_barrier n al p i e m)|by apply (other_blind al p i e m)].
Qed.

(** An executed compare: its operands, and the field it writes. *)
Lemma exec_compare i (e : Env) (m : Machine W) r :
  i_op i = Op.WriteCRCompare -> i_result i = kNoValue -> mode <> Emitted ->
  exec_one fuel mode i e m = Some r ->
  exists q, compare_bools e i = Some q /\ compare_exclusive q = true /\
    r = Continue e (put_cpu (set_cr_field (i_imm0 i) (compare_value q) (m_cpu m)) m).
Proof using Type.
  intros Hop Hv Hmode E. rewrite exec_cr_op in E by (by rewrite Hop).
  destruct (mapM _ _) as [args|] eqn:Ea; [|done]. cbn [mbind option_bind] in E.
  unfold exec_state in E. rewrite Hop in E.
  destruct args as [|a [|b [|c [|d [|]]]]]; try discriminate E.
  destruct (bool_of a) as [lt|] eqn:Ba; [|discriminate E].
  destruct (bool_of b) as [gt|] eqn:Bb; [|discriminate E].
  destruct (bool_of c) as [eq|] eqn:Bc; [|discriminate E].
  destruct (bool_of d) as [so|] eqn:Bd; [|discriminate E]. cbn in E.
  rewrite (bool_decide_false (mode = Emitted)) in E by done. cbn in E.
  destruct (exclusive lt gt eq) eqn:Hx; [|discriminate E]. cbn in E.
  unfold bind_result in E. rewrite Hv, Z.eqb_refl in E. cbn in E.
  exists (lt, gt, eq, so). split_and!; [|done|by simplify_eq].
  apply compare_bools_inv. exists [a; b; c; d]. split; [exact Ea|]. cbn. by rewrite Ba, Bb, Bc, Bd.
Qed.
End Other.

(** ** Forwarding a bit *)

Lemma bool_of_value x b : wf_val x -> bool_of x = Some b -> x = tbool b.
Proof.
  intros Hw Hb. unfold bool_of in Hb. destruct (exact I1 x) as [z|] eqn:Ex; [|done].
  pose proof (exact_wf I1 x z Ex Hw) as Hz. apply exact_inv in Ex as ->. cbn in Hb, Hz.
  injection Hb as <-. unfold tbool. assert (z = 0 \/ z = 1) as [->| ->] by lia; done.
Qed.

(** The operand a read of bit [b] is replaced with holds the bit. *)
Lemma pending_bit p (e : Env) (s s' : CpuState) b w :
  (forall v x, e !! v = Some x -> wf_val x) -> cr_rel p e s s' -> p !! ((b .& 31) / 4) = Some w ->
  length (i_args w) = 4%nat /\
  e !! (i_args w !!! Z.to_nat ((b .& 31) mod 4)) = Some (tbool (cr_bit s b)).
Proof.
  intros Hwf Hrel Hw. destruct (cr_pend _ _ _ _ Hrel _ _ Hw) as (q & Hq & Hx).
  pose proof Hq as (args & Ha & Hc)%compare_bools_inv. apply mapM_Some in Ha.
  pose proof (Forall2_length _ _ _ Ha) as Hlen. unfold compare_args in Hc.
  destruct args as [|a0 [|a1 [|a2 [|a3 [|]]]]]; try discriminate Hc. split; [done|].
  destruct (bool_of a0) as [lt|] eqn:B0; [|discriminate Hc].
  destruct (bool_of a1) as [gt|] eqn:B1; [|discriminate Hc].
  destruct (bool_of a2) as [eq|] eqn:B2; [|discriminate Hc].
  destruct (bool_of a3) as [so|] eqn:B3; [|discriminate Hc]. cbn in Hc. injection Hc as <-. cbn in Hx.
  rewrite (cr_patch _ _ _ _ Hrel), cr_bit_cpatch. unfold pend_val. rewrite Hw. cbn [mbind option_bind].
  rewrite Hq. cbn [fmap option_fmap option_map compare_value].
  pose proof (Z.mod_pos_bound (b .& 31) 4 ltac:(lia)) as Hk.
  pose proof (compare_field_bits lt gt eq so _ Hx Hk) as Hbit.
  revert Hbit. generalize (Z.testbit (cr_compare_field lt gt eq so) (3 - (b .& 31) mod 4)). intros bit Hbit.
  destruct (i_args w) as [|v0 [|v1 [|v2 [|v3 [|]]]]]; try discriminate Hlen.
  rewrite !Forall2_cons in Ha. destruct Ha as (H0 & H1 & H2 & H3 & _).
  pose proof (bool_of_value _ _ (Hwf _ _ H0) B0) as ->. pose proof (bool_of_value _ _ (Hwf _ _ H1) B1) as ->.
  pose proof (bool_of_value _ _ (Hwf _ _ H2) B2) as ->. pose proof (bool_of_value _ _ (Hwf _ _ H3) B3) as ->.
  assert ((b .& 31) mod 4 = 0 \/ (b .& 31) mod 4 = 1 \/ (b .& 31) mod 4 = 2 \/ (b .& 31) mod 4 = 3)
    as [E|[E|[E|E]]] by lia; rewrite E in *; injection Hbit as ->; done.
Qed.

Section ForwardSim.
Context {W : Type} `{MemoryPort W, RuntimeServices W, HostHelpers W, !PromotionLaws W}.
Context (fuel : nat) (ms mt : Mode) (Hmode : mode_le ms mt) (Hmt : mt <> Emitted) (size : Z).

Record forward_inv (n : Z) (st : CrState) (e e' : Env) (m m' : Machine W) : Prop := mkForwardInv {
  fi_world : m_world m' = m_world m;
  fi_materialized : m_materialized m' = m_materialized m;
  fi_static : forward_static size n st;
  fi_alias : alias_inv n (crs_aliases st) e e';
  fi_rel : cr_rel (crs_pending st) e' (m_cpu m) (m_cpu m')
}.

Lemma exec_bit_read mode i (e : Env) (m : Machine W) r :
  i_op i = Op.ReadCRBit -> exec_one fuel mode i e m = Some r ->
  i_result i <> kNoValue /\
  r = Continue (<[i_result i := tbool (cr_bit (m_cpu m) (i_imm0 i))]> e) m.
Proof using Type.
  intros Hop E. rewrite exec_cr_op in E by (by rewrite Hop).
  destruct (mapM _ _) as [args|]; [|done]. cbn [mbind option_bind] in E. unfold exec_state in E.
  rewrite Hop in E. destruct args; [|discriminate E]. unfold typed in E.
  destruct (decide _); [|discriminate E]. cbn in E.
  destruct (Z.eqb_spec (i_result i) kNoValue); [discriminate E|]. cbn in E. simplify_eq.
  split; [done|]. by destruct m.
Qed.

Lemma forward_sim : sim_step (W := W) fuel ms mt forward_step (forward_index_ok size) forward_inv.
Proof using Hmode Hmt PromotionLaws0.
  intros n st e e' m m' i r [Hw Hmat Hst Hal Hrel] Hi Hidx E.
  pose proof (forward_step_static size n st i Hst Hi Hidx) as (Hst' & _ & _). revert Hst'.
  pose proof Hst as [Hn Hsz Hok Hp]. destruct Hidx as [Hidx Hwf].
  unfold forward_step. destruct (resolve_args_spec n _ _ Hok (inst_ok_args n i Hi)) as [Hra He].
  destruct (resolve_args (crs_aliases st) (i_args i)) as [args al]. cbn [fst snd] in *. subst args.
  pose proof (alias_inv_equiv _ _ _ _ _ He Hal) as Hal1.
  assert (Hfind : find al <$> i_args i = find (crs_aliases st) <$> i_args i).
  { apply list_fmap_ext_in. eapply Forall_impl; [by eapply inst_ok_args|]. intros a Ha. apply He.
    cbn in Ha. lia. }
  destruct (alias_inv_keep fuel ms mt n al e e' i m r Hmode Hal1 Hi E) as (r' & E' & Hsim).
  rewrite Hfind in E'. set (i' := set_args (find (crs_aliases st) <$> i_args i) i) in *.
  assert (Hfresh : fresh i' e').
  { intros Hr. change (i_result i') with (i_result i) in *.
    destruct (e' !! i_result i) as [y|] eqn:Ey; [|done].
    pose proof (inst_ok_result n i Hi Hr). pose proof (ai_tgt _ _ _ _ Hal _ _ Ey). lia. }
  change (i_op i') with (i_op i).
  assert (Hother : i_op i <> Op.WriteCRCompare ->
    forward_static size (next_id n i) (forward_other al (crs_pending st) i').1 ->
    exists r2, exec_list fuel mt (forward_other al (crs_pending st) i').2 e' m' = Some r2 /\
      sim_result (forward_inv (next_id n i) (forward_other al (crs_pending st) i').1) r r2).
  { intros Hne Hst'.
    destruct (forward_other_run fuel mt n al _ i' e' m m' r' Hfresh Hp Hne Hrel Hw Hmat E')
      as (r2 & E2 & Hr2).
    exists r2. split; [done|]. destruct r as [e1 m1|x s w], r' as [e1' m1'|x' s' w']; try done;
      destruct r2 as [e2 m2|x2 s2 w2]; try done.
    - destruct Hsim as (-> & Hinv & _). destruct Hr2 as (-> & Hrel2 & Hw2 & Hm2).
      assert (Hal' : crs_aliases (forward_other al (crs_pending st) i').1 = al)
        by (unfold forward_other; by repeat case_match).
      split; try done. by rewrite Hal'.
    - destruct Hsim as (-> & -> & ->). by destruct Hr2 as (-> & -> & ->). }
  case_bool_decide as Hcmp.
  - (* a compare is held back *)
    pose proof (compare_void i Hwf Hcmp) as Hvoid. intros Hst'. cbn [fst snd].
    destruct (exec_compare fuel mt i' e' m r' Hcmp Hvoid Hmt E') as (q & Hq & Hx & ->).
    destruct r as [e1 m1|]; [|done]. destruct Hsim as (<- & Hinv & _).
    exists (Continue e' m'). split; [done|]. cbn [sim_result]. split; try done. cbn [crs_pending m_cpu put_cpu].
    change (i_imm0 i') with (i_imm0 i). split.
    + rewrite set_cr_field_put, (cr_patch _ _ _ _ Hrel). cbn [cr set_cr]. rewrite put_state. f_equal.
      rewrite <- cpatch_defer. symmetry. apply cpatch_ext. intros f _. by apply pend_val_insert.
    + intros f w [[_ <-]|[_ Hf]]%lookup_insert_Some; [by exists q|by apply (cr_pend _ _ _ _ Hrel f)].
  - case_bool_decide as Hrd; [|by apply Hother]. change (i_imm0 i') with (i_imm0 i).
    destruct (crs_pending st !! _) as [w|] eqn:Ew; [|by apply Hother].
    destruct (Nat.eqb_spec (length (i_args w)) 4) as [Hl4|]; [|by apply Hother].
    (* a forwarded bit *)
    assert (Hk : (Z.to_nat ((i_imm0 i .& 31) mod 4) < length (i_args w))%nat).
    { rewrite Hl4. pose proof (Z.mod_pos_bound (i_imm0 i .& 31) 4 ltac:(lia)). lia. }
    pose proof (pending_arg_range n _ _ _ _ Hp Ew Hk) as Hrange.
    destruct (pending_bit _ e' _ _ (i_imm0 i) w (λ v x h, proj2 (ai_tgt _ _ _ _ Hal v x h)) Hrel Ew)
      as [_ Hbit].
    set (a := i_args w !!! _) in *.
    pose proof (ai_root _ _ _ _ Hal1 _ _ Hbit) as Hroot.
    destruct (resolve_spec n al a (proj1 (proj2 He))) as [Hrt He2]; [lia|].
    destruct (resolve al a) as [t al2]. cbn [fst snd] in *. rewrite Hroot in Hrt. subst t.
    change (i_result i') with (i_result i). intros Hst'.
    destruct (exec_bit_read ms i e m r Hrd E) as [Hres ->].
    exists (Continue e' m'). split; [done|]. cbn [sim_result]. rewrite next_id_result in * by done.
    pose proof (alias_inv_equiv _ _ _ _ _ He2 Hal1) as Hal2.
    destruct (alias_inv_drop n al2 e e' (i_result i) (tbool (cr_bit (m_cpu m) (i_imm0 i))) a
      (tbool (cr_bit (m_cpu m) (i_imm0 i)))) as [Hinv _].
    + done.
    + by apply inst_ok_result.
    + destruct He2 as [-> _]. destruct He as [-> _]. specialize (Hidx Hres). lia.
    + eapply has_type_wf, has_type_bool.
    + by eapply (ai_root _ _ _ _ Hal2).
    + done.
    + constructor.
    + by split.
Qed.
End ForwardSim.

Section ForwardRun.
Context {W : Type} `{MemoryPort W, RuntimeServices W, HostHelpers W, !PromotionLaws W}.

Definition forward_init (l : list Instruction) : CrState :=
  mkCrState (init_aliases (max_value_id l)) ∅.

Definition forward_size (l : list Instruction) : Z :=
  Z.of_nat (length (init_aliases (max_value_id l))).

Lemma forward_static_init l : forward_static (forward_size l) 0 (forward_init l).
Proof using Type.
  split; [by vm_compute|done|apply alias_ok_init|]. intros f w Hw. cbn in Hw.
  by rewrite lookup_empty in Hw.
Qed.

Lemma forward_index l :
  Forall (λ i, inst_wf i = true) l -> Forall (forward_index_ok (forward_size l)) l.
Proof using Type.
  intros Hwf. pose proof (init_aliases_covers l) as Hc. rewrite Forall_forall in *.
  intros i Hi. split; [by apply Hc|by apply Hwf].
Qed.

Lemma forward_run fuel ms mt l (m : Machine W) o :
  mode_le ms mt -> mt <> Emitted -> body_ok l = true ->
  run_body fuel ms l m = Some o -> run_body fuel mt (forward_cr l) m = Some o.
Proof.
  intros Hmode Hmt [Hssa Hwf]%body_ok_spec E. unfold forward_cr.
  destruct l as [|i0 l0]; [done|]. set (l := i0 :: l0) in *.
  assert (HI : forward_inv (forward_size l) 0 (forward_init l) ∅ ∅ m m).
  { split; try done; [apply forward_static_init|apply alias_inv_init|apply cr_rel_empty]. }
  unfold run_body in *. destruct (exec_list fuel ms l ∅ m) as [r|] eqn:Er; [|done].
  destruct (run_pass_sim fuel ms mt forward_step _ _
    (forward_sim fuel ms mt Hmode Hmt (forward_size l)) l 0 (forward_init l) ∅ ∅ m m r HI Hssa
    (forward_index l Hwf) Er) as (r' & Er' & Hr). unfold forward_init in *.
  destruct (run_pass forward_step _ l) as [st out]. cbn [fst snd] in *.
  rewrite exec_list_app, Er'. cbn [mbind option_bind].
  destruct r as [e1 m1|x s w], r' as [e1' m1'|x' s' w']; try done.
  - destruct Hr as (n & [Hw Hm Hst _ Hrel]).
    destruct (flush_all_run fuel mt n (crs_pending st) e1' m1 m1') as [-> _]; try done. by destruct Hst.
  - by destruct Hr as (-> & -> & ->).
Qed.

Lemma forward_pass_ok size l n st :
  forward_static size n st -> ssa n l = true -> Forall (forward_index_ok size) l ->
  exists k, forward_static size k (run_pass forward_step st l).1 /\
    Forall (λ i, inst_wf i = true) (run_pass forward_step st l).2 /\
    forall tail, ssa k tail = true -> ssa n ((run_pass forward_step st l).2 ++ tail) = true.
Proof using Type.
  revert n st. induction l as [|i l IH]; intros n st HP Hs Hok; [by exists n|].
  apply ssa_cons in Hs as [Hi Hs]. apply Forall_cons in Hok as [Hoki Hok].
  destruct (forward_step_static size n st i HP Hi Hoki) as (HP' & Hwf & Hglue).
  destruct (IH _ _ HP' Hs Hok) as (k & HPk & Hwfk & Htail). rewrite run_pass_cons. cbn [fst snd].
  exists k. split_and!; [done|by apply Forall_app|]. intros tail Ht. rewrite <- app_assoc.
  apply Hglue. by apply Htail.
Qed.

Lemma forward_ok l : body_ok l = true -> body_ok (forward_cr l) = true.
Proof using Type.
  intros [Hssa Hwf]%body_ok_spec. apply body_ok_spec. unfold forward_cr.
  destruct l as [|i0 l0]; [done|]. set (l := i0 :: l0) in *.
  destruct (forward_pass_ok (forward_size l) l 0 (forward_init l) (forward_static_init l) Hssa
    (forward_index l Hwf)) as (k & [Hb _ _ Hp] & Hout & Htail). unfold forward_init in *.
  destruct (run_pass forward_step _ l) as [st out]. cbn [fst snd] in *. unfold flush_all.
  destruct (flush_fields_static k fields (crs_pending st) Hp) as [_ Hfl].
  split.
  - apply Htail. rewrite <- (app_nil_r (flush_fields _ _).2). apply late_write_ssa; [lia|done|done].
  - apply Forall_app. split; [done|]. eapply Forall_impl; [exact Hfl|]. by intros i (_ & Hi & _).
Qed.
End ForwardRun.
