(* ===== verification/Optimizer.v ===== *)
(** * The optimiser pipeline ([Optimizer::run], src/cpu/optimizer/optimizer.cpp)

    The ten block passes in their fixed order, and the composition of their
    correctness lemmas: an optimised block behaves like the block the lifter
    produced. The counters of [OptimizationStats] are not modelled. *)

From S2P Require Import Prelude.
From S2P Require Import Words.
From S2P Require Import CpuState.
From S2P Require Import Ir.
From S2P Require Import IrValue.
From S2P Require Import Services.
From S2P Require Import IrSem.
From S2P Require Import IrRefine.
From S2P Require Import PassSim.
From S2P Require Import Fold.
From S2P Require Import Dce.
From S2P Require Import Cse.
From S2P Require Import Simplify.
From S2P Require Import SimplifySim.
From S2P Require Import Promote.
From S2P Require Import PromoteSlots.
From S2P Require Import PromoteCorrect.
From S2P Require Import CrForward.
From S2P Require Import CrForwardCorrect.

(** The scalar clean-up the pipeline runs twice. *)
Definition cleanup (b : Block) : Block :=
  eliminate_dead_code (eliminate_common_subexpressions (simplify_values (fold_constants b))).

Definition Optimizer_run (b : Block) : Block :=
  let b := fold_constants b in
  let b := simplify_values b in
  let b := eliminate_common_subexpressions b in
  let b := eliminate_dead_code b in
  let b := promote_architectural_state b in
  let b := forward_cr_compare_state b in
  let b := fold_constants b in
  let b := simplify_values b in
  let b := eliminate_common_subexpressions b in
  eliminate_dead_code b.

Section Pipeline.
Context {W : Type} `{MemoryPort W, RuntimeServices W, HostHelpers W, !PromotionLaws W}.

(** A block pass that keeps bodies well formed and preserves what they do when the
    source is read in mode [ms] and the target in mode [mt]. *)
Record pass_correct (ms mt : Mode) (pass : Block -> Block) : Prop := mkPassCorrect {
  pass_ok : forall b, body_ok (b_instructions b) = true -> body_ok (b_instructions (pass b)) = true;
  pass_run : forall fuel b (m : Machine W) o,
    body_ok (b_instructions b) = true ->
    run_body fuel ms (b_instructions b) m = Some o ->
    run_body fuel mt (b_instructions (pass b)) m = Some o
}.

Lemma pass_compose m1 m2 m3 p q :
  pass_correct m1 m2 p -> pass_correct m2 m3 q -> pass_correct m1 m3 (λ b, q (p b)).
Proof using Type.
  intros [Pok Prun] [Qok Qrun]. split; [by auto|]. intros fuel b m o Hb E. eauto.
Qed.

Lemma fold_correct mode : pass_correct mode mode fold_constants.
Proof using Type.
  split; [by intros; apply fold_ok|]. intros fuel b m o Hb E. by apply (fold_run fuel mode mode).
Qed.

Lemma simplify_correct ms mt : simplify_modes ms mt -> pass_correct ms mt simplify_values.
Proof using Type.
  intros Hm. split; [by intros; apply simplify_ok|]. intros fuel b m o Hb E. by apply (simplify_run fuel ms mt).
Qed.

Lemma cse_correct mode : pass_correct mode mode eliminate_common_subexpressions.
Proof using Type.
  split; [by intros; apply cse_ok|]. intros fuel b m o Hb E. by apply (cse_run fuel mode mode).
Qed.

Lemma dce_correct mode : pass_correct mode mode eliminate_dead_code.
Proof using Type.
  split; [by intros; apply dce_ok|]. intros fuel b m o Hb E. by apply (dce_run fuel mode).
Qed.

Lemma promote_correct : pass_correct Lifted Promoted promote_architectural_state.
Proof.
  split; [by intros; apply promote_ok|]. intros fuel b m o Hb E.
  apply (promote_run fuel Lifted Promoted); [by right; right|done..].
Qed.

Lemma forward_correct : pass_correct Promoted Promoted forward_cr_compare_state.
Proof.
  split; [by intros; apply forward_ok|]. intros fuel b m o Hb E.
  apply (forward_run fuel Promoted Promoted); [by left|done..].
Qed.

Lemma cleanup_correct ms mt : simplify_modes ms mt -> pass_correct ms mt cleanup.
Proof using Type.
  intros Hm. exact (pass_compose _ _ _ _ _ (pass_compose _ _ _ _ _ (pass_compose _ _ _ _ _
    (fold_correct ms) (simplify_correct ms mt Hm)) (cse_correct mt)) (dce_correct mt)).
Qed.

Lemma optimizer_correct : pass_correct Lifted Emitted Optimizer_run.
Proof.
  assert (Hfirst : simplify_modes Lifted Lifted) by (split; [done|by right]).
  assert (Hsecond : simplify_modes Promoted Emitted) by (split; [done|by left]).
  exact (pass_compose _ _ _ _ _ (pass_compose _ _ _ _ _ (pass_compose _ _ _ _ _
    (cleanup_correct _ _ Hfirst) promote_correct) forward_correct) (cleanup_correct _ _ Hsecond)).
Qed.
End Pipeline.
