(* ===== verification/Verifier.v ===== *)
(** * The IR verifier (src/cpu/ir/verifier.cpp)

    [verify_block] and [verify_function] with the source's order of checks; the
    message strings are not modelled. *)

From S2P Require Import Prelude.
From S2P Require Import Words.
From S2P Require Import Instr.
From S2P Require Import Decoder.
From S2P Require Import Ir.

Inductive VerifyError : Type :=
  | VNone | EmptyFunction | MissingEntryBlock | DuplicateBlock | InvalidBlockRange | InvalidResult
  | DuplicateResult | UseBeforeDefinition | InvalidResultType | InvalidOperandType
  | InvalidArgumentCount | InvalidTerminator | InvalidBranchTarget | InvalidLocalEdge
  | InvalidPredecessor | InvalidMemoryMetadata | InvalidGuestSource | InvalidSideEffectOrdering.

#[export] Instance VerifyError_eq_dec : EqDecision VerifyError.
Proof. solve_decision. Defined.

Record VerifyResult : Type := mkVerify {
  vr_ok : bool;
  vr_error : VerifyError;
  vr_block : GuestAddress;
  vr_index : nat
}.

Definition verified (block : GuestAddress) : VerifyResult := mkVerify true VNone block 0.
Definition failed (error : VerifyError) (block : GuestAddress) (index : nat) : VerifyResult :=
  mkVerify false error block index.

(** The least and the greatest operand count. *)
Definition arity (op : Op.t) : nat * nat :=
  match op with
  | Op.Constant | Op.ReadGpr | Op.ReadFprBits | Op.ReadVector | Op.ReadCR | Op.ReadCRBit
  | Op.ReadCRField | Op.MoveXERToCR | Op.ReadXER | Op.ReadXerCA | Op.ReadXerOV | Op.ReadXerSO
  | Op.ReadFPSCR | Op.UpdateCR1FromFPSCR | Op.MoveFPSCRFieldToCR | Op.SetFPSCRBit
  | Op.WriteFPSCRFieldImmediate | Op.ReadVSCR | Op.MoveVSCRToVector | Op.ReadLR | Op.ReadCTR
  | Op.ReadMSR | Op.ReadTimeBase | Op.ReadVRSAVE | Op.ReadPVR | Op.ReadSPR | Op.Trap | Op.Syscall
  | Op.Return | Op.Barrier => (0, 0)
  | Op.WriteGpr | Op.WriteFprBits | Op.WriteVector | Op.WriteCR | Op.WriteCRBit | Op.WriteCRField
  | Op.UpdateCR0Signed | Op.MoveCRFields | Op.WriteXER | Op.SetXerCA | Op.SetXerOV | Op.SetXerSO
  | Op.SetXerOverflowSticky | Op.WriteFPSCR | Op.MoveFPSCRToFPRBits | Op.WriteFPSCRFields
  | Op.WriteVSCR | Op.SetVSCRSaturation | Op.MoveVectorToVSCR | Op.WriteLR | Op.WriteCTR
  | Op.WriteMSR | Op.WriteVRSAVE | Op.WriteSPR | Op.AddImmediate | Op.Neg | Op.CountLeadingZeros
  | Op.Not | Op.SignExtend | Op.ZeroExtend | Op.Truncate | Op.Bitcast | Op.FPromote | Op.FTruncate
  | Op.FSqrt | Op.FAbs | Op.FNeg | Op.FRoundSingle | Op.FConvertFromI64 | Op.FConvertToI64
  | Op.FReciprocalEstimate | Op.FReciprocalSqrtEstimate | Op.VUpdateCR6 | Op.Load | Op.ReserveLoad
  | Op.CacheZero | Op.ICacheInvalidate | Op.CacheHint | Op.Branch | Op.Call | Op.CallIndirect => (1, 1)
  | Op.FUpdateStatus => (0, 2)
  | Op.Add | Op.Sub | Op.Mul | Op.MulHighSigned | Op.MulHighUnsigned | Op.DivSigned | Op.DivUnsigned
  | Op.MulOverflowSigned | Op.DivOverflow | Op.PpcShift | Op.PpcShiftCarry | Op.And | Op.Or | Op.Xor
  | Op.Shl | Op.ShrLogical | Op.ShrArithmetic | Op.Rotl | Op.CompareEq | Op.CompareNe
  | Op.CompareSlt | Op.CompareSgt | Op.CompareUlt | Op.CompareUgt | Op.FAdd | Op.FSub | Op.FMul
  | Op.FDiv | Op.FCompare | Op.Store | Op.StoreConditional | Op.StringLoad | Op.StringStore
  | Op.BranchIf | Op.BranchIndirect => (2, 2)
  | Op.AddCarry | Op.CarryOut | Op.SignedOverflow | Op.Select | Op.FFma | Op.FSelect => (3, 3)
  | Op.WriteCR0StoreConditional => (2, 2)
  | Op.WriteCRCompare => (4, 4)
  | Op.VAdd | Op.VSub | Op.VMul | Op.VMadd | Op.VMin | Op.VMax | Op.VAvg | Op.VAnd | Op.VAndNot
  | Op.VOr | Op.VXor | Op.VNot | Op.VCompare | Op.VShuffle | Op.VPermute | Op.VPack | Op.VUnpack
  | Op.VConvert | Op.VShift | Op.VShiftDouble | Op.VRotate | Op.VRotateInsert | Op.VSplat | Op.VMerge
  | Op.VSum | Op.VEstimate | Op.VDot | Op.VSelect | Op.VMultiplyEvenOdd => (1, 3)
  | Op.VLoadElement | Op.VStoreElement | Op.VLoadLeft | Op.VLoadRight | Op.VStoreLeft
  | Op.VStoreRight | Op.VMakeLoadShiftLeft | Op.VMakeLoadShiftRight => (2, 2)
  end%nat.

Definition expects_void (op : Op.t) : bool :=
  match op with
  | Op.WriteGpr | Op.WriteFprBits | Op.WriteVector | Op.WriteCR | Op.WriteCRBit | Op.WriteCRField
  | Op.WriteCRCompare | Op.WriteCR0StoreConditional | Op.UpdateCR0Signed | Op.MoveCRFields
  | Op.MoveXERToCR | Op.WriteXER | Op.SetXerCA | Op.SetXerOverflowSticky | Op.WriteFPSCR
  | Op.UpdateCR1FromFPSCR | Op.MoveFPSCRFieldToCR | Op.SetFPSCRBit | Op.WriteFPSCRFieldImmediate
  | Op.WriteFPSCRFields | Op.WriteVSCR | Op.SetVSCRSaturation | Op.MoveVectorToVSCR | Op.WriteLR
  | Op.WriteCTR | Op.WriteMSR | Op.WriteVRSAVE | Op.WriteSPR | Op.FUpdateStatus | Op.VUpdateCR6
  | Op.VStoreElement | Op.VStoreLeft | Op.VStoreRight | Op.Store | Op.StringLoad | Op.StringStore
  | Op.Barrier | Op.CacheZero | Op.ICacheInvalidate | Op.CacheHint | Op.Branch | Op.BranchIf
  | Op.BranchIndirect | Op.Call | Op.CallIndirect | Op.Return | Op.Trap | Op.Syscall => true
  | _ => false
  end.

Definition is_integer (t : IrType) : bool :=
  match t with I1 | I8 | I16 | I32 | I64 => true | _ => false end.
Definition is_address (t : IrType) : bool := match t with I32 | I64 => true | _ => false end.
Definition is_scalar_memory_type (t : IrType) : bool :=
  match t with I8 | I16 | I32 | I64 => true | _ => false end.
Definition valid_endian (v : Z) : bool := v <=? endian_code Raw.

Definition fixed_result_type_ok (i : Instruction) : bool :=
  match i_op i with
  | Op.ReadGpr | Op.ReadFprBits | Op.ReadLR | Op.ReadCTR | Op.ReadMSR | Op.ReadTimeBase | Op.ReadSPR
  | Op.MoveFPSCRToFPRBits => bool_decide (i_type i = I64)
  | Op.ReadCR | Op.ReadXER | Op.ReadFPSCR | Op.ReadVSCR | Op.ReadVRSAVE | Op.ReadPVR =>
      bool_decide (i_type i = I32)
  | Op.ReadCRBit | Op.ReadXerCA | Op.ReadXerOV | Op.ReadXerSO | Op.CarryOut | Op.SignedOverflow
  | Op.MulOverflowSigned | Op.DivOverflow | Op.PpcShiftCarry | Op.CompareEq | Op.CompareNe
  | Op.CompareSlt | Op.CompareSgt | Op.CompareUlt | Op.CompareUgt | Op.StoreConditional =>
      bool_decide (i_type i = I1)
  | Op.ReadCRField | Op.FCompare => bool_decide (i_type i = I8)
  | Op.ReadVector | Op.MoveVSCRToVector | Op.VAdd | Op.VSub | Op.VMul | Op.VMadd | Op.VMin | Op.VMax
  | Op.VAvg | Op.VAnd | Op.VAndNot | Op.VOr | Op.VXor | Op.VNot | Op.VCompare | Op.VShuffle
  | Op.VPermute | Op.VPack | Op.VUnpack | Op.VConvert | Op.VShift | Op.VShiftDouble | Op.VRotate
  | Op.VRotateInsert | Op.VSplat | Op.VMerge | Op.VSum | Op.VEstimate | Op.VDot | Op.VSelect
  | Op.VMultiplyEvenOdd | Op.VLoadElement | Op.VLoadLeft | Op.VLoadRight | Op.VMakeLoadShiftLeft
  | Op.VMakeLoadShiftRight => bool_decide (i_type i = V128)
  | _ => true
  end.

(** [values] and [defined]: the type of each value defined so far. *)
Abbreviation Values := (gmap Z IrType).

Definition type_of (values : Values) (i : Instruction) (n : nat) : option IrType :=
  a ← i_args i !! n; values !! a.

(** [type_of(n) == t], and a test of [type_of(n)]. *)
Definition has (values : Values) (i : Instruction) (n : nat) (t : IrType) : bool :=
  bool_decide (type_of values i n = Some t).
Definition type_test (p : IrType -> bool) (values : Values) (i : Instruction) (n : nat) : bool :=
  match type_of values i n with Some t => p t | None => false end.

(** [static_cast<Type>(imm1)]: the enumeration's underlying type has eight bits. *)
Definition stored_type (i : Instruction) : option IrType := type_of_code (u8 (i_imm1 i)).

Definition memory_ok (values : Values) (i : Instruction) : bool :=
  match i_op i with
  | Op.Load =>
      valid_endian (i_imm0 i)
      && (is_scalar_memory_type (i_type i) || bool_decide (i_type i = V128))
      && negb (bool_decide (i_type i = V128) &&
               (negb (i_imm0 i =? endian_code Raw) || negb (i_imm1 i =? 16)))
  | Op.Store =>
      valid_endian (i_imm0 i) &&
      match stored_type i with
      | Some stored =>
          (is_scalar_memory_type stored || bool_decide (stored = V128))
          && has values i 1 stored
          && negb (bool_decide (stored = V128) && negb (i_imm0 i =? endian_code Raw))
      | None => false
      end
  | Op.ReserveLoad => valid_endian (i_imm0 i) && is_address (i_type i)
  | Op.StoreConditional =>
      valid_endian (i_imm0 i) &&
      match stored_type i with
      | Some stored => is_address stored && has values i 1 stored
      | None => false
      end
  | Op.VLoadElement | Op.VStoreElement => (i_imm0 i =? 1) || (i_imm0 i =? 2) || (i_imm0 i =? 4)
  | Op.VLoadLeft | Op.VLoadRight | Op.VStoreLeft | Op.VStoreRight => i_imm0 i <=? 1
  | Op.CacheZero => (i_imm0 i =? 32) || (i_imm0 i =? 128)
  | Op.StringLoad | Op.StringStore => (i_imm0 i <? 32) && (i_imm1 i <=? 1)
  | _ => true
  end.

(** The [switch] on operand types. *)
Definition operands_ok (values : Values) (i : Instruction) : bool :=
  match i_op i with
  | Op.WriteGpr | Op.WriteFprBits | Op.WriteLR | Op.WriteCTR | Op.WriteMSR | Op.WriteSPR =>
      has values i 0 I64
  | Op.AddImmediate => bool_decide (i_type i = I64) && has values i 0 I64
  | Op.WriteVector | Op.MoveVectorToVSCR => has values i 0 V128
  | Op.Branch | Op.Call | Op.CallIndirect => has values i 0 I64
  | Op.BranchIf | Op.BranchIndirect => has values i 0 I1 && has values i 1 I64
  | Op.Load | Op.ReserveLoad | Op.CacheZero | Op.ICacheInvalidate | Op.CacheHint
  | Op.Store | Op.StoreConditional => type_test is_address values i 0
  | Op.VLoadElement | Op.VLoadLeft | Op.VLoadRight
  | Op.VStoreElement | Op.VStoreLeft | Op.VStoreRight =>
      has values i 0 V128 && type_test is_address values i 1
  | Op.StringLoad | Op.StringStore => type_test is_address values i 0 && has values i 1 I32
  | Op.CompareEq | Op.CompareNe | Op.CompareSlt | Op.CompareSgt | Op.CompareUlt | Op.CompareUgt =>
      bool_decide (type_of values i 0 = type_of values i 1) && type_test is_integer values i 0
  | Op.Select =>
      has values i 0 I1 && bool_decide (type_of values i 1 = type_of values i 2) &&
      has values i 1 (i_type i)
  | _ => true
  end.

Definition guest_source_ok (b : Block) (i : Instruction) : bool :=
  opcode_valid (i_guest_opcode i)
  && match opcode_info (i_guest_opcode i) with Some _ => true | None => false end
  && (i_guest_address i .& 3 =? 0)
  && (b_guest_address b <=? i_guest_address i)
  && negb (negb (b_end_address b =? 0) && (b_end_address b <=? i_guest_address i)).

Definition define (i : Instruction) (values : Values) : Values :=
  if expects_void (i_op i) then values else <[i_result i := i_type i]> values.

(** One iteration of the loop: an error, or the values defined afterwards. *)
Definition check_inst (b : Block) (require_guest_source : bool) (values : Values) (i : Instruction)
    : VerifyError + Values :=
  if require_guest_source && negb (guest_source_ok b i) then inl InvalidGuestSource
  else if (length (i_args i) <? (arity (i_op i)).1)%nat || ((arity (i_op i)).2 <? length (i_args i))%nat
  then inl InvalidArgumentCount
  else if negb (forallb (λ a, bool_decide (is_Some (values !! a))) (i_args i))
  then inl UseBeforeDefinition
  else if expects_void (i_op i) && negb (bool_decide (i_type i = Void) && (i_result i =? kNoValue))
  then inl InvalidResultType
  else if negb (expects_void (i_op i)) && (bool_decide (i_type i = Void) || (i_result i =? kNoValue))
  then inl InvalidResult
  else if negb (expects_void (i_op i)) && negb (fixed_result_type_ok i) then inl InvalidResultType
  else if negb (expects_void (i_op i)) && bool_decide (is_Some (values !! i_result i))
  then inl DuplicateResult
  else
    let values := define i values in
    if negb (operands_ok values i) then inl InvalidOperandType
    else if negb (memory_ok values i) then inl InvalidMemoryMetadata
    else inr values.

Fixpoint verify_from (b : Block) (require_guest_source : bool) (index : nat) (saw_terminator : bool)
    (values : Values) (l : list Instruction) : VerifyResult :=
  match l with
  | [] => verified (b_guest_address b)
  | i :: l =>
      if saw_terminator then failed InvalidSideEffectOrdering (b_guest_address b) index
      else
        match check_inst b require_guest_source values i with
        | inl error => failed error (b_guest_address b) index
        | inr values =>
            verify_from b require_guest_source (S index) (is_block_terminator i) values l
        end
  end.

Definition range_ok (b : Block) : bool :=
  negb (negb (b_end_address b =? 0) &&
        ((b_end_address b <=? b_guest_address b) ||
         negb (u32 (b_end_address b - b_guest_address b) .& 3 =? 0))).

Definition verify_block_impl (b : Block) (require_guest_source : bool) : VerifyResult :=
  if negb (range_ok b) then failed InvalidBlockRange (b_guest_address b) 0
  else verify_from b require_guest_source 0 false ∅ (b_instructions b).

Definition verify_block (b : Block) : VerifyResult := verify_block_impl b false.

(** ** Functions *)

(** The first loop: block addresses are distinct, and every block verifies. *)
Fixpoint collect_blocks (blocks : gmap Z Block) (l : list Block) : VerifyResult + gmap Z Block :=
  match l with
  | [] => inr blocks
  | b :: l =>
      match blocks !! b_guest_address b with
      | Some _ => inl (failed DuplicateBlock (b_guest_address b) 0)
      | None =>
          let r := verify_block_impl b true in
          if vr_ok r then collect_blocks (<[b_guest_address b := b]> blocks) l else inl r
      end
  end.

(** The edge kind and the operand of a direct control transfer. *)
Definition static_target (i : Instruction) : option (EdgeKind * nat) :=
  match i_op i with
  | Op.Branch => Some (Branch, 0%nat)
  | Op.Call => Some (Call, 0%nat)
  | Op.BranchIf => Some (if i_imm0 i =? 0 then Branch else Call, 1%nat)
  | _ => None
  end.

Definition note_constant (i : Instruction) (constants : gmap Z Z) : gmap Z Z :=
  if bool_decide (i_op i = Op.Constant) && negb (i_result i =? kNoValue)
  then <[i_result i := i_imm0 i]> constants else constants.

Definition target_in_cfg (b : Block) (constants : gmap Z Z) (i : Instruction) : bool :=
  match static_target i with
  | Some (kind, n) =>
      match a ← i_args i !! n; constants !! a with
      | Some value =>
          existsb (λ e, (e_target e =? u32 value) && bool_decide (e_kind e = kind)) (b_successors b)
      | None => true
      end
  | None => true
  end.

Fixpoint targets_ok (b : Block) (constants : gmap Z Z) (l : list Instruction) : bool :=
  match l with
  | [] => true
  | i :: l =>
      let constants := note_constant i constants in
      target_in_cfg b constants i && targets_ok b constants l
  end.

Definition edge_error (blocks : gmap Z Block) (b : Block) (e : ControlFlowEdge) : option VerifyError :=
  if negb (e_local e) then None
  else match blocks !! e_target e with
       | None => Some InvalidLocalEdge
       | Some target =>
           if bool_decide (e_kind e = Call) then None
           else if bool_decide (b_guest_address b ∈ b_predecessors target) then None
           else Some InvalidPredecessor
       end.

Definition predecessor_error (blocks : gmap Z Block) (b : Block) (p : GuestAddress)
    : option VerifyError :=
  match blocks !! p with
  | None => Some InvalidPredecessor
  | Some source =>
      if existsb (λ e, e_local e && negb (bool_decide (e_kind e = Call)) &&
                       (e_target e =? b_guest_address b)) (b_successors source)
      then None else Some InvalidPredecessor
  end.

Fixpoint first_error {A} (f : A -> option VerifyError) (l : list A) : option VerifyError :=
  match l with
  | [] => None
  | x :: l => match f x with Some e => Some e | None => first_error f l end
  end.

Definition cfg_error (blocks : gmap Z Block) (b : Block) : option VerifyError :=
  if negb (targets_ok b ∅ (b_instructions b)) then Some InvalidBranchTarget
  else match first_error (edge_error blocks b) (b_successors b) with
       | Some e => Some e
       | None => first_error (predecessor_error blocks b) (b_predecessors b)
       end.

Fixpoint verify_cfg (blocks : gmap Z Block) (function : GuestAddress) (l : list Block) : VerifyResult :=
  match l with
  | [] => verified function
  | b :: l =>
      match cfg_error blocks b with
      | Some e => failed e (b_guest_address b) 0
      | None => verify_cfg blocks function l
      end
  end.

Definition verify_function (f : Function) : VerifyResult :=
  match f_blocks f with
  | [] => failed EmptyFunction (f_guest_address f) 0
  | l =>
      match collect_blocks ∅ l with
      | inl r => r
      | inr blocks =>
          match blocks !! f_guest_address f with
          | None => failed MissingEntryBlock (f_guest_address f) 0
          | Some _ => verify_cfg blocks (f_guest_address f) l
          end
      end
  end.
