(* ===== verification/VerifierSpec.v ===== *)
(** * What the verifier accepts

    The typing rules of the IR, operation by operation ([well_typed]), the
    blocks and functions that follow them ([block_accepted],
    [function_accepted]), the proof that the verifier's loops accept exactly
    those, and the location an error is reported at. The rules do not mention
    the verifier's tables. *)

From S2P Require Import Prelude.
From S2P Require Import Words.
From S2P Require Import Instr.
From S2P Require Import Decoder.
From S2P Require Import Ir.
From S2P Require Import Verifier.

(** ** The typing rules *)

(** The types of a guest address, and of the integers and scalars memory holds. *)
Inductive address_type : IrType -> Prop :=
  | address_32 : address_type I32
  | address_64 : address_type I64.

Inductive scalar_type : IrType -> Prop :=
  | scalar_8 : scalar_type I8
  | scalar_16 : scalar_type I16
  | scalar_address t : address_type t -> scalar_type t.

Inductive integer_type : IrType -> Prop :=
  | integer_1 : integer_type I1
  | integer_scalar t : scalar_type t -> integer_type t.

(** [well_typed op imm0 imm1 operands result]: an operation with these immediates
    takes operands of these types and yields a value of this type; an operation
    for its effect only has the result type [Void]. *)
Inductive well_typed : Op.t -> Z -> Z -> list IrType -> IrType -> Prop :=
  (* reads of the guest state *)
  | wt_constant n m t : t <> Void -> well_typed Op.Constant n m [] t
  | wt_read_64 op n m :
      op ∈ [Op.ReadGpr; Op.ReadFprBits; Op.ReadLR; Op.ReadCTR; Op.ReadMSR; Op.ReadTimeBase; Op.ReadSPR] ->
      well_typed op n m [] I64
  | wt_read_32 op n m :
      op ∈ [Op.ReadCR; Op.ReadXER; Op.ReadFPSCR; Op.ReadVSCR; Op.ReadVRSAVE; Op.ReadPVR] ->
      well_typed op n m [] I32
  | wt_read_field n m : well_typed Op.ReadCRField n m [] I8
  | wt_read_bit op n m :
      op ∈ [Op.ReadCRBit; Op.ReadXerCA; Op.ReadXerOV; Op.ReadXerSO] -> well_typed op n m [] I1
  | wt_read_vector op n m : op ∈ [Op.ReadVector; Op.MoveVSCRToVector] -> well_typed op n m [] V128
  (* writes of the guest state *)
  | wt_write_64 op n m :
      op ∈ [Op.WriteGpr; Op.WriteFprBits; Op.WriteLR; Op.WriteCTR; Op.WriteMSR; Op.WriteSPR] ->
      well_typed op n m [I64] Void
  | wt_write_vector op n m :
      op ∈ [Op.WriteVector; Op.MoveVectorToVSCR] -> well_typed op n m [V128] Void
  | wt_write op n m t :
      op ∈ [Op.WriteCR; Op.WriteCRBit; Op.WriteCRField; Op.UpdateCR0Signed; Op.MoveCRFields; Op.WriteXER;
            Op.SetXerCA; Op.SetXerOverflowSticky; Op.WriteFPSCR; Op.WriteFPSCRFields; Op.WriteVSCR;
            Op.SetVSCRSaturation; Op.WriteVRSAVE; Op.VUpdateCR6] ->
      well_typed op n m [t] Void
  | wt_move op n m :
      op ∈ [Op.MoveXERToCR; Op.UpdateCR1FromFPSCR; Op.MoveFPSCRFieldToCR; Op.SetFPSCRBit;
            Op.WriteFPSCRFieldImmediate; Op.Barrier] ->
      well_typed op n m [] Void
  | wt_compare_fields n m a b c d : well_typed Op.WriteCRCompare n m [a; b; c; d] Void
  | wt_store_conditional_cr n m a b : well_typed Op.WriteCR0StoreConditional n m [a; b] Void
  | wt_status n m ts : (length ts <= 2)%nat -> well_typed Op.FUpdateStatus n m ts Void
  (* the two overflow flags are written by an operation with a result *)
  | wt_overflow_flag op n m t r : op ∈ [Op.SetXerOV; Op.SetXerSO] -> r <> Void -> well_typed op n m [t] r
  (* integer and floating-point arithmetic *)
  | wt_add_immediate n m : well_typed Op.AddImmediate n m [I64] I64
  | wt_fpscr_bits n m t : well_typed Op.MoveFPSCRToFPRBits n m [t] I64
  | wt_unary op n m t r :
      op ∈ [Op.Neg; Op.CountLeadingZeros; Op.Not; Op.SignExtend; Op.ZeroExtend; Op.Truncate; Op.Bitcast;
            Op.FPromote; Op.FTruncate; Op.FSqrt; Op.FAbs; Op.FNeg; Op.FRoundSingle; Op.FConvertFromI64;
            Op.FConvertToI64; Op.FReciprocalEstimate; Op.FReciprocalSqrtEstimate] ->
      r <> Void -> well_typed op n m [t] r
  | wt_binary op n m t u r :
      op ∈ [Op.Add; Op.Sub; Op.Mul; Op.MulHighSigned; Op.MulHighUnsigned; Op.DivSigned; Op.DivUnsigned;
            Op.PpcShift; Op.And; Op.Or; Op.Xor; Op.Shl; Op.ShrLogical; Op.ShrArithmetic; Op.Rotl;
            Op.FAdd; Op.FSub; Op.FMul; Op.FDiv] ->
      r <> Void -> well_typed op n m [t; u] r
  | wt_ternary op n m t u v r :
      op ∈ [Op.AddCarry; Op.FFma; Op.FSelect] -> r <> Void -> well_typed op n m [t; u; v] r
  | wt_select n m t : t <> Void -> well_typed Op.Select n m [I1; t; t] t
  (* conditions *)
  | wt_condition_2 op n m t u :
      op ∈ [Op.MulOverflowSigned; Op.DivOverflow; Op.PpcShiftCarry] -> well_typed op n m [t; u] I1
  | wt_condition_3 op n m t u v :
      op ∈ [Op.CarryOut; Op.SignedOverflow] -> well_typed op n m [t; u; v] I1
  | wt_compare op n m t :
      op ∈ [Op.CompareEq; Op.CompareNe; Op.CompareSlt; Op.CompareSgt; Op.CompareUlt; Op.CompareUgt] ->
      integer_type t -> well_typed op n m [t; t] I1
  | wt_float_compare n m t u : well_typed Op.FCompare n m [t; u] I8
  (* vectors *)
  | wt_vector op n m ts :
      op ∈ [Op.VAdd; Op.VSub; Op.VMul; Op.VMadd; Op.VMin; Op.VMax; Op.VAvg; Op.VAnd; Op.VAndNot; Op.VOr;
            Op.VXor; Op.VNot; Op.VCompare; Op.VShuffle; Op.VPermute; Op.VPack; Op.VUnpack; Op.VConvert;
            Op.VShift; Op.VShiftDouble; Op.VRotate; Op.VRotateInsert; Op.VSplat; Op.VMerge; Op.VSum;
            Op.VEstimate; Op.VDot; Op.VSelect; Op.VMultiplyEvenOdd] ->
      (1 <= length ts <= 3)%nat -> well_typed op n m ts V128
  | wt_load_shift op n m t u :
      op ∈ [Op.VMakeLoadShiftLeft; Op.VMakeLoadShiftRight] -> well_typed op n m [t; u] V128
  | wt_load_element n m p : n ∈ [1; 2; 4] -> address_type p -> well_typed Op.VLoadElement n m [V128; p] V128
  | wt_store_element n m p : n ∈ [1; 2; 4] -> address_type p -> well_typed Op.VStoreElement n m [V128; p] Void
  | wt_load_part op n m p :
      op ∈ [Op.VLoadLeft; Op.VLoadRight] -> n <= 1 -> address_type p -> well_typed op n m [V128; p] V128
  | wt_store_part op n m p :
      op ∈ [Op.VStoreLeft; Op.VStoreRight] -> n <= 1 -> address_type p -> well_typed op n m [V128; p] Void
  (* memory: [imm0] is the byte order, [imm1] the type stored or, of a vector load, the size *)
  | wt_load n m p t :
      n <= endian_code Raw -> address_type p -> scalar_type t -> well_typed Op.Load n m [p] t
  | wt_load_vector p : address_type p -> well_typed Op.Load (endian_code Raw) 16 [p] V128
  | wt_store n m p t :
      n <= endian_code Raw -> address_type p -> scalar_type t -> type_of_code (u8 m) = Some t ->
      well_typed Op.Store n m [p; t] Void
  | wt_store_vector m p :
      address_type p -> type_of_code (u8 m) = Some V128 ->
      well_typed Op.Store (endian_code Raw) m [p; V128] Void
  | wt_reserve n m p t :
      n <= endian_code Raw -> address_type p -> address_type t -> well_typed Op.ReserveLoad n m [p] t
  | wt_conditional n m p t :
      n <= endian_code Raw -> address_type p -> address_type t -> type_of_code (u8 m) = Some t ->
      well_typed Op.StoreConditional n m [p; t] I1
  | wt_string op n m p :
      op ∈ [Op.StringLoad; Op.StringStore] -> n < 32 -> m <= 1 -> address_type p ->
      well_typed op n m [p; I32] Void
  | wt_cache_zero n m p : n ∈ [32; 128] -> address_type p -> well_typed Op.CacheZero n m [p] Void
  | wt_cache op n m p :
      op ∈ [Op.ICacheInvalidate; Op.CacheHint] -> address_type p -> well_typed op n m [p] Void
  (* control transfers *)
  | wt_jump op n m : op ∈ [Op.Branch; Op.Call; Op.CallIndirect] -> well_typed op n m [I64] Void
  | wt_jump_if op n m : op ∈ [Op.BranchIf; Op.BranchIndirect] -> well_typed op n m [I1; I64] Void
  | wt_leave op n m : op ∈ [Op.Return; Op.Trap; Op.Syscall] -> well_typed op n m [] Void.

(** ** Accepted blocks *)

(** One of the instructions [pre] defines the value [a], of type [t]. *)
Definition defines (pre : list Instruction) (a : ValueId) (t : IrType) : Prop :=
  exists j, j ∈ pre /\ i_type j <> Void /\ i_result j = a /\ i_type j = t.

(** The instruction comes from a catalogued guest instruction within the block. *)
Record guest_sourced (b : Block) (i : Instruction) : Prop := mkSourced {
  gs_opcode : exists info, opcode_info (i_guest_opcode i) = Some info;
  gs_aligned : (4 | i_guest_address i);
  gs_start : b_guest_address b <= i_guest_address i;
  gs_end : b_end_address b <> 0 -> i_guest_address i < b_end_address b
}.

(** The instruction [i] of a block, after the instructions [pre] and before [post]. *)
Record position_accepted (b : Block) (require_guest_source : bool) (pre : list Instruction)
    (i : Instruction) (post : list Instruction) : Prop := mkPosition {
  pa_source : require_guest_source = true -> guest_sourced b i;
  pa_typed : exists ts, Forall2 (defines pre) (i_args i) ts /\
    well_typed (i_op i) (i_imm0 i) (i_imm1 i) ts (i_type i);
  pa_effect : i_type i = Void -> i_result i = kNoValue;
  pa_fresh : i_type i <> Void -> i_result i <> kNoValue /\ forall t, ~ defines pre (i_result i) t;
  pa_last : is_block_terminator i = true -> post = []
}.

Record block_accepted (b : Block) (require_guest_source : bool) : Prop := mkBlockAccepted {
  ba_range : b_end_address b = 0 \/
    (b_guest_address b < b_end_address b /\ (4 | b_end_address b - b_guest_address b));
  ba_positions : forall pre i post, b_instructions b = pre ++ i :: post ->
    position_accepted b require_guest_source pre i post
}.

(** ** Accepted functions *)

(** A local edge that control flow takes: calls return to their own block. *)
Definition flow_edge (e : ControlFlowEdge) : Prop := e_local e = true /\ e_kind e <> Call.

(** A direct control transfer, its kind of edge and the operand that is its target. *)
Inductive transfers : Instruction -> EdgeKind -> ValueId -> Prop :=
  | transfers_branch i a rest : i_op i = Op.Branch -> i_args i = a :: rest -> transfers i Branch a
  | transfers_call i a rest : i_op i = Op.Call -> i_args i = a :: rest -> transfers i Call a
  | transfers_branch_if i c a rest :
      i_op i = Op.BranchIf -> i_args i = c :: a :: rest -> i_imm0 i = 0 -> transfers i Branch a
  | transfers_call_if i c a rest :
      i_op i = Op.BranchIf -> i_args i = c :: a :: rest -> i_imm0 i <> 0 -> transfers i Call a.

Record function_accepted (f : Function) : Prop := mkFunctionAccepted {
  fa_addresses : NoDup (b_guest_address <$> f_blocks f);
  fa_entry : exists b, b ∈ f_blocks f /\ b_guest_address b = f_guest_address f;
  fa_blocks : forall b, b ∈ f_blocks f -> block_accepted b true;
  fa_targets : forall b pre i post kind c, b ∈ f_blocks f -> b_instructions b = pre ++ i :: post ->
    c ∈ pre -> i_op c = Op.Constant -> transfers i kind (i_result c) ->
    exists e, e ∈ b_successors b /\ e_target e = u32 (i_imm0 c) /\ e_kind e = kind;
  fa_local : forall b e, b ∈ f_blocks f -> e ∈ b_successors b -> e_local e = true ->
    exists target, target ∈ f_blocks f /\ b_guest_address target = e_target e /\
      (e_kind e <> Call -> b_guest_address b ∈ b_predecessors target);
  fa_predecessors : forall b p, b ∈ f_blocks f -> p ∈ b_predecessors b ->
    exists source e, source ∈ f_blocks f /\ b_guest_address source = p /\ e ∈ b_successors source /\
      flow_edge e /\ e_target e = b_guest_address b
}.

(** ** The loop's own checks

    [inst_accepted] lists what one iteration of the loop tests, with the loop's
    tables; it is a stepping stone of the proofs. *)

(** The types of the values a prefix defines. *)
Definition types_after (pre : list Instruction) (values : Values) : Values :=
  foldl (λ v i, define i v) values pre.

Record inst_accepted (b : Block) (require_guest_source : bool) (values : Values) (i : Instruction)
    : Prop := mkAccepted {
  ia_source : require_guest_source = true -> guest_source_ok b i = true;
  ia_arity : ((arity (i_op i)).1 <= length (i_args i) <= (arity (i_op i)).2)%nat;
  ia_defined : Forall (λ a, is_Some (values !! a)) (i_args i);
  ia_void : expects_void (i_op i) = true -> i_type i = Void /\ i_result i = kNoValue;
  ia_value : expects_void (i_op i) = false ->
    i_type i <> Void /\ i_result i <> kNoValue /\ fixed_result_type_ok i = true /\
    values !! i_result i = None;
  ia_operands : operands_ok (define i values) i = true;
  ia_memory : memory_ok (define i values) i = true
}.

Lemma check_inst_accepted b req values i values' :
  check_inst b req values i = inr values' <->
  inst_accepted b req values i /\ values' = define i values.
Proof.
  unfold check_inst. split.
  - intros E.
    destruct (req && _) eqn:E1; [discriminate E|].
    destruct ((_ <? _)%nat || _) eqn:E2; [discriminate E|].
    destruct (forallb _ _) eqn:E3; [|discriminate E]. cbn [negb] in E.
    apply orb_false_iff in E2 as [E2%Nat.ltb_ge E2'%Nat.ltb_ge].
    assert (Hdef : Forall (λ a, is_Some (values !! a)) (i_args i)).
    { apply Forall_forall. intros a Ha. rewrite forallb_forall in E3.
      apply list_elem_of_In, E3 in Ha. by apply bool_decide_eq_true in Ha. }
    assert (Hsrc : req = true -> guest_source_ok b i = true)
      by (intros ->; by apply negb_false_iff in E1).
    destruct (expects_void (i_op i)) eqn:Ev; cbn [andb negb] in E.
    + destruct (bool_decide (i_type i = Void) && _) eqn:E4; [|discriminate E]. cbn [negb] in E.
      apply andb_true_iff in E4 as [Ht%bool_decide_eq_true Hr%Z.eqb_eq].
      destruct (operands_ok _ _) eqn:Eo; [|discriminate E].
      destruct (memory_ok _ _) eqn:Em; [|discriminate E]. injection E as <-.
      split; [|done]. split; try done; by rewrite Ev.
    + destruct (bool_decide (i_type i = Void) || _) eqn:E4; [discriminate E|].
      apply orb_false_iff in E4 as [Ht%bool_decide_eq_false Hr%Z.eqb_neq].
      destruct (fixed_result_type_ok i) eqn:Ef; [|discriminate E]. cbn [negb] in E.
      destruct (bool_decide (is_Some (values !! i_result i))) eqn:Ed; [discriminate E|].
      apply bool_decide_eq_false, eq_None_not_Some in Ed.
      destruct (operands_ok _ _) eqn:Eo; [|discriminate E].
      destruct (memory_ok _ _) eqn:Em; [|discriminate E]. injection E as <-.
      split; [|done]. split; try done; by rewrite Ev.
  - intros [[Hs [Ha1 Ha2] Hd Hv Hr Ho Hm] ->].
    assert ((req && negb (guest_source_ok b i)) = false) as ->
      by (destruct req; [by rewrite Hs|done]).
    rewrite (proj2 (Nat.ltb_ge _ _) Ha1), (proj2 (Nat.ltb_ge _ _) Ha2). cbn [orb].
    assert (forallb (λ a, bool_decide (is_Some (values !! a))) (i_args i) = true) as ->.
    { apply forallb_forall. intros a Hin. apply list_elem_of_In in Hin. rewrite Forall_forall in Hd.
      by apply bool_decide_eq_true, Hd. }
    rewrite Ho, Hm. destruct (expects_void (i_op i)); cbn [andb negb].
    + destruct Hv as [-> ->]; [done|]. done.
    + destruct Hr as (Ht & Hr & -> & ->); [done|].
      rewrite (bool_decide_false _ Ht), (proj2 (Z.eqb_neq _ _) Hr). done.
Qed.

(** Every instruction is accepted after those before it, and nothing follows a terminator. *)
Definition insts_accepted (b : Block) (req : bool) (values : Values) (l : list Instruction) : Prop :=
  forall pre i post, l = pre ++ i :: post ->
    inst_accepted b req (types_after pre values) i /\ (is_block_terminator i = true -> post = []).

Lemma insts_accepted_nil b req values : insts_accepted b req values [].
Proof. intros [|] ? ? ?; done. Qed.

Lemma insts_accepted_cons b req values i l :
  insts_accepted b req values (i :: l) <->
  inst_accepted b req values i /\ (is_block_terminator i = true -> l = []) /\
  insts_accepted b req (define i values) l.
Proof.
  split.
  - intros Hall. destruct (Hall [] i l eq_refl) as [Hi Ht]. split_and!; [done|done|].
    intros pre j post ->. by destruct (Hall (i :: pre) j post eq_refl).
  - intros (Hi & Ht & Hl) [|i' pre] j post [= -> ->]; [done|]. by apply Hl.
Qed.

Lemma verify_from_ok b req n saw values l :
  vr_ok (verify_from b req n saw values l) = true <->
  (saw = true -> l = []) /\ insts_accepted b req values l.
Proof.
  revert n saw values. induction l as [|i l IH]; intros n saw values.
  { split; [intros _; split; [done|apply insts_accepted_nil]|done]. }
  cbn. rewrite insts_accepted_cons. destruct saw.
  { split; [done|]. by intros [Hs _]; discriminate Hs. }
  destruct (check_inst b req values i) as [e|values'] eqn:Ec.
  - split; [done|]. intros (_ & Hi & _).
    pose proof (proj2 (check_inst_accepted b req values i _) (conj Hi eq_refl)). congruence.
  - apply check_inst_accepted in Ec as [Hi ->]. rewrite IH. intuition discriminate.
Qed.

Lemma verify_block_accepted b req :
  vr_ok (verify_block_impl b req) = true <->
  range_ok b = true /\ insts_accepted b req ∅ (b_instructions b).
Proof.
  unfold verify_block_impl. destruct (range_ok b); cbn [negb]; [|by split; [|intros [? _]]].
  rewrite verify_from_ok. intuition. discriminate.
Qed.

(** *** Proof that the loop follows the rules *)

Lemma types_after_app pre pre' values :
  types_after (pre ++ pre') values = types_after pre' (types_after pre values).
Proof. apply foldl_app. Qed.

(** *** The loop's tests and the typing rules *)

Lemma address_type_iff t : is_address t = true <-> address_type t.
Proof. split; [destruct t; try discriminate; constructor|by intros []]. Qed.

Lemma scalar_type_iff t : is_scalar_memory_type t = true <-> scalar_type t.
Proof. split; [destruct t; try discriminate; repeat constructor|by intros [| |? []]]. Qed.

Lemma integer_type_iff t : is_integer t = true <-> integer_type t.
Proof. split; [destruct t; try discriminate; repeat constructor|by intros [|? [| |? []]]]. Qed.

(** The tests on the operand count, the result type, the operand types and the immediates. *)
Record shape_ok (values : Values) (i : Instruction) : Prop := mkShape {
  sh_arity : ((arity (i_op i)).1 <= length (i_args i) <= (arity (i_op i)).2)%nat;
  sh_void : expects_void (i_op i) = true -> i_type i = Void;
  sh_value : expects_void (i_op i) = false -> i_type i <> Void /\ fixed_result_type_ok i = true;
  sh_operands : operands_ok values i = true;
  sh_memory : memory_ok values i = true
}.

Lemma type_of_operand values i ts n :
  Forall2 (λ a t, values !! a = Some t) (i_args i) ts -> type_of values i n = ts !! n.
Proof.
  unfold type_of. intros Hall. revert n. induction Hall as [|a t l ts Ha _ IH]; intros n; [done|].
  destruct n as [|n]; [exact Ha|exact (IH n)].
Qed.

(** Turns the tests of a hypothesis into propositions. *)
Ltac read_tests :=
  repeat match goal with
  | H : _ && _ = true |- _ => apply andb_true_iff in H as [??]
  | H : _ || _ = true |- _ => apply orb_true_iff in H as [H|H]
  | H : _ && _ = false |- _ => apply andb_false_iff in H as [H|H]
  | H : _ || _ = false |- _ => apply orb_false_iff in H as [??]
  | H : negb _ = true |- _ => apply negb_true_iff in H
  | H : negb _ = false |- _ => apply negb_false_iff in H
  | H : bool_decide _ = true |- _ => apply bool_decide_eq_true in H
  | H : bool_decide _ = false |- _ => apply bool_decide_eq_false in H
  | H : (_ =? _) = true |- _ => apply Z.eqb_eq in H
  | H : (_ <=? _) = true |- _ => apply Z.leb_le in H
  | H : (_ <? _) = true |- _ => apply Z.ltb_lt in H
  | H : is_address _ = true |- _ => apply address_type_iff in H
  | H : is_scalar_memory_type _ = true |- _ => apply scalar_type_iff in H
  | H : is_integer _ = true |- _ => apply integer_type_iff in H
  | H : Some _ = Some _ |- _ => injection H as H
  end.

(** A side condition of a rule. *)
Ltac rule_side := first [eassumption | done | by apply (bool_decide_unpack _) | cbn; lia].

Lemma shape_typed values i ts :
  Forall2 (λ a t, values !! a = Some t) (i_args i) ts ->
  shape_ok values i -> well_typed (i_op i) (i_imm0 i) (i_imm1 i) ts (i_type i).
Proof.
  intros Hts [Ha Hv Hr Ho Hm].
  assert (Htype : forall n, type_of values i n = ts !! n) by (intros n; by apply type_of_operand).
  apply Forall2_length in Hts. rewrite Hts in Ha. clear Hts.
  destruct i as [op r res args n m ga gw gop].
  unfold operands_ok, memory_ok, fixed_result_type_ok, has, type_test, valid_endian, stored_type in *.
  rewrite ?(Htype 0%nat), ?(Htype 1%nat), ?(Htype 2%nat) in Ho. rewrite ?(Htype 1%nat) in Hm. clear Htype.
  cbn [i_op i_type i_imm0 i_imm1 i_args] in *.
  destruct op; cbn in Ha, Hv, Hr, Ho, Hm;
    (destruct ts as [|t0 [|t1 [|t2 [|t3 [|t4 ts]]]]]; cbn in Ha; try lia); clear Ha;
    try (specialize (Hv eq_refl); clear Hr); try (destruct (Hr eq_refl) as [Hne Hf]; clear Hr Hv);
    cbn in Ho, Hm; read_tests; subst.
  all: try (case_match; [|discriminate]; read_tests; subst).
  all: try solve [econstructor; rule_side|done].
Qed.

(** Turns the rule's side conditions into the tests. *)
Ltac write_tests :=
  repeat match goal with
  | |- _ && _ = true => apply andb_true_iff; split
  | |- bool_decide _ = true => apply bool_decide_eq_true
  | |- (_ <=? _) = true => apply Z.leb_le
  | |- (_ <? _) = true => apply Z.ltb_lt
  | |- is_address _ = true => apply address_type_iff
  | |- is_integer _ = true => apply integer_type_iff
  end.

Lemma address_not_void t : address_type t -> t <> Void.
Proof. by intros []. Qed.

Lemma scalar_facts t :
  scalar_type t -> t <> Void /\ is_scalar_memory_type t = true /\ bool_decide (t = V128) = false.
Proof. by intros [| |? []]. Qed.

Lemma typed_shape values i ts :
  Forall2 (λ a t, values !! a = Some t) (i_args i) ts ->
  well_typed (i_op i) (i_imm0 i) (i_imm1 i) ts (i_type i) -> shape_ok values i.
Proof.
  intros Hts Hw.
  assert (Htype : forall n, type_of values i n = ts !! n) by (intros n; by apply type_of_operand).
  apply Forall2_length in Hts.
  destruct i as [op r res args n m ga gw gop]. cbn [i_op i_type i_imm0 i_imm1 i_args] in *.
  destruct Hw;
    repeat match goal with
    | H : _ ∈ _ :: _ |- _ => apply elem_of_cons in H as [->|H]
    | H : _ ∈ [] |- _ => by apply elem_of_nil in H
    end.
  all: constructor; cbn [i_op i_type i_imm0 i_imm1 i_args] in *; rewrite ?Hts; cbn [length arity fst snd expects_void];
    unfold operands_ok, memory_ok, fixed_result_type_ok, has, type_test, valid_endian, stored_type;
    cbn [i_op i_type i_imm0 i_imm1 i_args];
    rewrite ?(Htype 0%nat), ?(Htype 1%nat), ?(Htype 2%nat); cbn.
  all: repeat match goal with H : type_of_code _ = Some _ |- _ => rewrite H; clear H end; cbn.
  all: try match goal with
       | H : scalar_type _ |- _ => destruct (scalar_facts _ H) as (? & -> & ->); clear H
       | H : scalar_type _ |- _ => destruct (scalar_facts _ H) as (? & _); clear H
       end.
  all: cbn; write_tests.
  all: first [done|lia|intros _; split; [done|reflexivity]|reflexivity|intros _; split; [by apply address_not_void|done]].
Qed.

(** *** Positions *)

(** [values] holds the values [pre] defines. *)
Definition holds (pre : list Instruction) (values : Values) : Prop :=
  forall a t, values !! a = Some t <-> defines pre a t.

Lemma operands_env pre values l :
  holds pre values ->
  Forall (λ a, is_Some (values !! a)) l -> exists ts, Forall2 (defines pre) l ts.
Proof.
  intros Hh. induction 1 as [|a l [t Ha] _ [ts Hts]]; [by exists []|].
  exists (t :: ts). constructor; [by apply Hh|done].
Qed.

Lemma land3_mod x : x .& 3 = x mod 4.
Proof. change 3 with (Z.ones 2). by rewrite Z.land_ones by lia. Qed.

Lemma land3_divides x : x .& 3 = 0 <-> (4 | x).
Proof. rewrite land3_mod. by apply Z.mod_divide. Qed.

Lemma guest_source_sourced b i : guest_source_ok b i = true <-> guest_sourced b i.
Proof.
  unfold guest_source_ok. split.
  - intros H. destruct (opcode_info (i_guest_opcode i)) as [info|] eqn:Ei; read_tests; try done.
    + split; [by exists info|by apply land3_divides|done|lia].
    + split; [by exists info|by apply land3_divides|done|]. intros _. by apply Z.leb_gt.
  - intros [[info Hi] Ha Hs He]. rewrite Hi. apply land3_divides in Ha. rewrite Ha.
    assert (opcode_valid (i_guest_opcode i) = true) as ->
      by (unfold opcode_info in Hi; by destruct (opcode_valid _)).
    rewrite (proj2 (Z.leb_le _ _) Hs). cbn. destruct (Z.eqb_spec (b_end_address b) 0) as [|Hne]; [done|].
    specialize (He Hne). by rewrite (proj2 (Z.leb_gt _ _) He).
Qed.

(** Defining a new value leaves the operands' types. *)
Lemma operands_define i values ts :
  (expects_void (i_op i) = false -> values !! i_result i = None) ->
  Forall2 (λ a t, values !! a = Some t) (i_args i) ts ->
  Forall2 (λ a t, define i values !! a = Some t) (i_args i) ts.
Proof.
  intros Hn Hts. eapply Forall2_impl; [exact Hts|]. intros a t Ha. unfold define.
  destruct (expects_void (i_op i)); [done|]. rewrite lookup_insert_ne; [done|].
  intros <-. by rewrite Hn in Ha.
Qed.

Lemma position_iff b req pre i post values :
  holds pre values ->
  inst_accepted b req values i /\ (is_block_terminator i = true -> post = []) <->
  position_accepted b req pre i post.
Proof.
  intros Hh. split.
  - intros [[Hs Ha Hd Hv Hr Ho Hm] Hlast]. destruct (operands_env _ _ _ Hh Hd) as [ts Hts].
    split; [by intros ?; apply guest_source_sourced, Hs| | | |done].
    + exists ts. split; [done|]. apply (shape_typed (define i values)).
      * apply operands_define; [intros Hv'; by apply Hr|]. eapply Forall2_impl; [exact Hts|]. intros a t. apply Hh.
      * split; [done|by intros ?; apply Hv| |done|done]. intros Hv'. by destruct (Hr Hv') as (? & _ & ? & _).
    + intros Ht. destruct (expects_void (i_op i)); [by apply Hv|]. by destruct Hr as [? _].
    + intros Ht. destruct (expects_void (i_op i)); [by destruct Hv|]. destruct Hr as (_ & ? & _ & Hn); [done|].
      split; [done|]. intros t Hdef. apply Hh in Hdef. congruence.
  - intros [Hs (ts & Hts & Hw) He Hf Hlast]. split; [|done].
    assert (Hts' : Forall2 (λ a t, values !! a = Some t) (i_args i) ts).
    { eapply Forall2_impl; [exact Hts|]. intros a t. apply Hh. }
    destruct (typed_shape values i ts Hts' Hw) as [Ha Hv Hr _ _].
    assert (Hn : expects_void (i_op i) = false -> values !! i_result i = None).
    { intros Hv'. apply eq_None_not_Some. intros [t Hl]. apply Hh in Hl.
      by apply (Hf (proj1 (Hr Hv'))) in Hl. }
    destruct (typed_shape (define i values) i ts (operands_define _ _ _ Hn Hts') Hw) as [_ _ _ Ho Hm].
    split; [by intros ?; apply guest_source_sourced, Hs|done| | | |done|done].
    + apply (Forall2_Forall_l _ _ _ _ Hts'), Forall_true. intros t a Hl. by exists t.
    + intros Hv'. by split; [apply Hv|apply He, Hv].
    + intros Hv'. destruct (Hr Hv') as [Ht Hfix]. split_and!; [done|by apply Hf|done|by apply Hn].
Qed.

Lemma holds_nil : holds [] ∅.
Proof. intros a t. rewrite lookup_empty. split; [done|]. by intros (j & ?%elem_of_nil & _). Qed.

Lemma holds_snoc b req pre i values :
  holds pre values -> inst_accepted b req values i -> holds (pre ++ [i]) (define i values).
Proof.
  intros Hh [_ _ _ Hv Hr _ _] a t.
  assert (Hd : defines (pre ++ [i]) a t <-> defines pre a t \/ (i_type i <> Void /\ i_result i = a /\ i_type i = t)).
  { unfold defines. split.
    - intros (j & [Hj| ->%list_elem_of_singleton]%elem_of_app & Hne & Hres & Ht); [left; by exists j|by right].
    - intros [(j & Hj & Hrest)|(Hne & Hres & Ht)]; [exists j|exists i]; rewrite elem_of_app, list_elem_of_singleton; auto. }
  assert (Hat : defines pre a t <-> values !! a = Some t) by (symmetry; apply Hh).
  rewrite Hd, Hat. unfold define. destruct (expects_void (i_op i)).
  - destruct Hv as [Ht _]; [done|]. intuition congruence.
  - destruct Hr as (Ht & _ & _ & Hn); [done|]. destruct (decide (i_result i = a)) as [<-|Hne].
    + rewrite lookup_insert_eq, Hn. intuition congruence.
    + rewrite lookup_insert_ne by done. intuition congruence.
Qed.

Lemma holds_prefix b req l pre post :
  (forall p i q, l = p ++ i :: q -> holds p (types_after p ∅) -> inst_accepted b req (types_after p ∅) i) ->
  l = pre ++ post -> holds pre (types_after pre ∅).
Proof.
  intros Hall. revert post. induction pre as [|i pre IH] using rev_ind; intros post ->; [apply holds_nil|].
  assert (Hh : holds pre (types_after pre ∅)) by (apply (IH (i :: post)); by rewrite <- app_assoc).
  rewrite types_after_app. eapply holds_snoc; [done|]. eapply Hall; [|done]. by rewrite <- app_assoc.
Qed.

Lemma insts_positions b req l :
  insts_accepted b req ∅ l <-> forall pre i post, l = pre ++ i :: post -> position_accepted b req pre i post.
Proof.
  split; intros Hall pre i post Hl.
  - apply (position_iff _ _ _ _ _ (types_after pre ∅)); [|by apply Hall].
    eapply holds_prefix; [|exact Hl]. intros p j q Hl' _. by eapply Hall.
  - apply (position_iff b req pre); [|by apply Hall].
    eapply holds_prefix; [|exact Hl]. intros p j q Hl' Hh. by eapply (position_iff b req p), Hall.
Qed.

Lemma range_ok_iff b :
  range_ok b = true <-> b_end_address b = 0 \/
    (b_guest_address b < b_end_address b /\ (4 | b_end_address b - b_guest_address b)).
Proof.
  assert (Hu : forall x, (u32 x) .& 3 = 0 <-> (4 | x)).
  { intros x. rewrite land3_divides, <- !Z.mod_divide by done.
    replace (u32 x mod 4) with (x mod 4) by (unfold u32; word_lia). done. }
  rewrite <- Hu. unfold range_ok.
  destruct (Z.eqb_spec (b_end_address b) 0), (Z.leb_spec (b_end_address b) (b_guest_address b)),
    (Z.eqb_spec (u32 (b_end_address b - b_guest_address b) .& 3) 0); cbn; intuition (lia || done).
Qed.

Lemma verify_block_rules b req : vr_ok (verify_block_impl b req) = true <-> block_accepted b req.
Proof.
  rewrite verify_block_accepted, range_ok_iff, insts_positions. split; [intros [? ?]; by split|by intros [? ?]].
Qed.

(** ** Single definition *)

Lemma types_after_lookup pre values a t :
  types_after pre values !! a = Some t ->
  values !! a = Some t \/
  exists k i, pre !! k = Some i /\ expects_void (i_op i) = false /\ i_result i = a /\ i_type i = t.
Proof.
  revert values. induction pre as [|i pre IH]; intros values Hl; [by left|].
  cbn in Hl. apply IH in Hl as [Hl|(k & j & Hk & Hj)]; [|by right; exists (S k), j].
  unfold define in Hl. destruct (expects_void (i_op i)) eqn:Ev; [by left|].
  apply lookup_insert_Some in Hl as [[<- <-]|[_ Hl]]; [|by left]. right. by exists 0%nat, i.
Qed.

Lemma types_after_keep b req pre post values a :
  insts_accepted b req values (pre ++ post) -> is_Some (values !! a) -> is_Some (types_after pre values !! a).
Proof.
  revert values. induction pre as [|i pre IH]; intros values Hacc Ha; [done|].
  apply insts_accepted_cons in Hacc as (Hi & _ & Hl). cbn. apply (IH _ Hl).
  unfold define. destruct (expects_void _); [done|].
  destruct (decide (i_result i = a)) as [->|]; [by rewrite lookup_insert_eq|by rewrite lookup_insert_ne].
Qed.

Lemma accepted_defined b req l j i a :
  insts_accepted b req ∅ l -> l !! j = Some i -> a ∈ i_args i ->
  a <> kNoValue /\
  exists k i', (k < j)%nat /\ l !! k = Some i' /\ i_result i' = a /\ expects_void (i_op i') = false.
Proof.
  intros Hacc Hj Ha. pose proof (take_drop_middle l j i Hj) as Hsplit.
  destruct (Hacc (take j l) i (drop (S j) l) (eq_sym Hsplit)) as [Hi _].
  pose proof (ia_defined _ _ _ _ Hi) as Hd. rewrite Forall_forall in Hd.
  destruct (Hd a Ha) as [t Ht]. apply types_after_lookup in Ht as [Ht|(k & i' & Hk & Hv & Hr & _)].
  { by rewrite lookup_empty in Ht. }
  apply lookup_take_Some in Hk as [Hk Hlt].
  split; [|by exists k, i'].
  pose proof (take_drop_middle l k i' Hk) as Hsplit'.
  destruct (Hacc _ _ _ (eq_sym Hsplit')) as [Hi' _].
  destruct (ia_value _ _ _ _ Hi' Hv) as (_ & Hne & _). congruence.
Qed.

Lemma accepted_unique_lt b req l j k i i' :
  insts_accepted b req ∅ l -> l !! j = Some i -> l !! k = Some i' -> (j < k)%nat ->
  i_result i = i_result i' -> i_result i = kNoValue.
Proof.
  intros Hacc Hj Hk Hlt Hr. pose proof (take_drop_middle l k i' Hk) as Hsplit.
  destruct (Hacc _ _ _ (eq_sym Hsplit)) as [Hi' _].
  assert (Hj' : take k l !! j = Some i) by (rewrite lookup_take_lt; done).
  pose proof (take_drop_middle _ j i Hj') as Hs2. set (pre := take j (take k l)) in *.
  set (mid := drop (S j) (take k l)) in *.
  rewrite <- Hsplit, <- Hs2, <- app_assoc in Hacc. cbn [app] in Hacc.
  destruct (Hacc _ _ _ eq_refl) as [Hi _].
  destruct (expects_void (i_op i)) eqn:Ev; [by apply (ia_void _ _ _ _ Hi)|].
  destruct (expects_void (i_op i')) eqn:Ev'; [rewrite Hr; by apply (ia_void _ _ _ _ Hi')|].
  destruct (ia_value _ _ _ _ Hi' Ev') as (_ & _ & _ & Hn). exfalso.
  assert (Hacc2 : insts_accepted b req (types_after pre ∅) (i :: mid ++ i' :: drop (S k) l)).
  { intros p x q Hpq. rewrite <- types_after_app. destruct (Hacc (pre ++ p) x q) as [Hx Ht].
    - by rewrite Hpq, app_assoc.
    - done. }
  apply insts_accepted_cons in Hacc2 as (_ & _ & Hacc2).
  assert (Hsome : is_Some (types_after mid (define i (types_after pre ∅)) !! i_result i')).
  { eapply types_after_keep; [exact Hacc2|]. unfold define. rewrite Ev, <- Hr.
    by rewrite lookup_insert_eq. }
  assert (types_after (take k l) ∅ = types_after mid (define i (types_after pre ∅))) as Heq.
  { rewrite <- Hs2, types_after_app. done. }
  rewrite Heq in Hn. rewrite Hn in Hsome. by destruct Hsome.
Qed.

Lemma accepted_unique b req l j k i i' :
  insts_accepted b req ∅ l -> l !! j = Some i -> l !! k = Some i' ->
  i_result i = i_result i' -> i_result i <> kNoValue -> j = k.
Proof.
  intros Hacc Hj Hk Hr Hne. destruct (Nat.lt_trichotomy j k) as [Hlt|[->|Hlt]]; [|done|].
  - destruct Hne. by eapply accepted_unique_lt.
  - destruct Hne. rewrite Hr. by eapply (accepted_unique_lt b req l k j).
Qed.

(** *** Direct transfers and their constants *)

Lemma transfers_static i kind a :
  transfers i kind a <-> exists n, static_target i = Some (kind, n) /\ i_args i !! n = Some a.
Proof.
  unfold static_target. split.
  - intros [j x rest -> ->|j x rest -> ->|j c x rest -> -> ->|j c x rest -> -> Hn].
    + by exists 0%nat.
    + by exists 0%nat.
    + by exists 1%nat.
    + exists 1%nat. by rewrite (proj2 (Z.eqb_neq _ _) Hn).
  - intros (n & Hs & Ha). destruct (i_op i) eqn:Eo; try discriminate Hs.
    + injection Hs as <- <-. destruct (i_args i) as [|x l] eqn:El; [done|]. injection Ha as <-.
      by eapply transfers_branch.
    + injection Hs as <- <-. destruct (i_args i) as [|c [|x l]] eqn:El; [done|done|]. injection Ha as <-.
      destruct (Z.eqb_spec (i_imm0 i) 0); [by eapply transfers_branch_if|by eapply transfers_call_if].
    + injection Hs as <- <-. destruct (i_args i) as [|x l] eqn:El; [done|]. injection Ha as <-.
      by eapply transfers_call.
Qed.

Definition constants_after (pre : list Instruction) (constants : gmap Z Z) : gmap Z Z :=
  foldl (λ m i, note_constant i m) constants pre.

Lemma constants_after_sound pre a v :
  constants_after pre ∅ !! a = Some v ->
  exists c, c ∈ pre /\ i_op c = Op.Constant /\ i_result c = a /\ i_imm0 c = v.
Proof.
  induction pre as [|i pre IH] using rev_ind; [intros Hl; cbn in Hl; by rewrite lookup_empty in Hl|].
  unfold constants_after in *. rewrite foldl_app. cbn. unfold note_constant at 1.
  assert (Hold : foldl (λ m i, note_constant i m) ∅ pre !! a = Some v ->
    exists c, c ∈ pre ++ [i] /\ i_op c = Op.Constant /\ i_result c = a /\ i_imm0 c = v).
  { intros (c & Hc & Hrest)%IH. exists c. split; [|done]. apply elem_of_app. by left. }
  case_bool_decide as Ho; cbn; [|exact Hold]. destruct (_ =? _); cbn; [exact Hold|].
  intros [[<- <-]|[_ Hl]]%lookup_insert_Some; [|by apply Hold].
  exists i. split_and!; [|done..]. apply elem_of_app. right. by left.
Qed.

Lemma constants_after_complete pre c :
  c ∈ pre -> i_op c = Op.Constant -> i_result c <> kNoValue ->
  (forall j, j ∈ pre -> i_result j = i_result c -> j = c) ->
  constants_after pre ∅ !! i_result c = Some (i_imm0 c).
Proof.
  intros Hc Ho Hr. induction pre as [|i pre IH] using rev_ind; intros Huniq; [by apply elem_of_nil in Hc|].
  unfold constants_after in *. rewrite foldl_app. cbn. unfold note_constant at 1.
  destruct (decide (i_result i = i_result c)) as [He|Hne].
  - assert (i = c) as -> by (apply Huniq; [apply elem_of_app; right; by left|done]).
    rewrite (bool_decide_true _ Ho), (proj2 (Z.eqb_neq _ _) Hr). apply lookup_insert_eq.
  - assert (Hold : foldl (λ m i, note_constant i m) ∅ pre !! i_result c = Some (i_imm0 c)).
    { apply IH.
      - apply elem_of_app in Hc as [Hc| ->%list_elem_of_singleton]; done.
      - intros j Hj. apply Huniq. apply elem_of_app. by left. }
    destruct (_ && _); [by rewrite lookup_insert_ne|done].
Qed.

Lemma targets_ok_positions b constants l :
  targets_ok b constants l = true <->
  forall pre i post, l = pre ++ i :: post ->
    target_in_cfg b (constants_after (pre ++ [i]) constants) i = true.
Proof.
  revert constants. induction l as [|i l IH]; intros constants; cbn.
  { split; [|done]. by intros _ [|] ? ?. }
  rewrite andb_true_iff, IH. split.
  - intros [Hi Hl] [|i' pre] j post [= <- ->]; [exact Hi|by eapply Hl].
  - intros Hall. split; [by apply (Hall [] i l)|]. intros pre j post ->. by apply (Hall (i :: pre) j post).
Qed.

Lemma target_in_cfg_static b constants i kind n a :
  static_target i = Some (kind, n) -> i_args i !! n = Some a ->
  target_in_cfg b constants i =
    match constants !! a with
    | Some value => existsb (λ e, (e_target e =? u32 value) && bool_decide (e_kind e = kind)) (b_successors b)
    | None => true
    end.
Proof. unfold target_in_cfg. intros Hs Ha. rewrite Hs. unfold ValueId in *. by rewrite Ha. Qed.

Lemma constant_named b req l k c :
  insts_accepted b req ∅ l -> l !! k = Some c -> i_op c = Op.Constant -> i_result c <> kNoValue.
Proof.
  intros Hacc Hk Ho. pose proof (take_drop_middle l k c Hk) as Hsplit.
  destruct (Hacc _ _ _ (eq_sym Hsplit)) as [Hin _]. apply (ia_value _ _ _ _ Hin). by rewrite Ho.
Qed.

Lemma targets_rules b :
  insts_accepted b true ∅ (b_instructions b) ->
  targets_ok b ∅ (b_instructions b) = true <->
  forall pre i post kind c, b_instructions b = pre ++ i :: post ->
    c ∈ pre -> i_op c = Op.Constant -> transfers i kind (i_result c) ->
    exists e, e ∈ b_successors b /\ e_target e = u32 (i_imm0 c) /\ e_kind e = kind.
Proof.
  intros Hacc. rewrite targets_ok_positions.
  assert (Hedge : forall value kind,
    existsb (λ e, (e_target e =? u32 value) && bool_decide (e_kind e = kind)) (b_successors b) = true <->
    exists e, e ∈ b_successors b /\ e_target e = u32 value /\ e_kind e = kind).
  { intros value kind. rewrite existsb_exists. setoid_rewrite <- list_elem_of_In.
    setoid_rewrite andb_true_iff. setoid_rewrite Z.eqb_eq. by setoid_rewrite bool_decide_eq_true. }
  assert (Hsame : forall pre i kind a, transfers i kind a -> constants_after (pre ++ [i]) ∅ = constants_after pre ∅).
  { intros pre i kind a Ht. unfold constants_after. rewrite foldl_app. cbn. unfold note_constant at 1.
    by destruct Ht as [? ? ? -> _|? ? ? -> _|? ? ? ? -> _ _|? ? ? ? -> _ _]. }
  split.
  - intros Hall pre i post kind c Hl Hc Ho Ht. specialize (Hall pre i post Hl).
    rewrite (Hsame _ _ _ _ Ht) in Hall. pose proof Ht as (n & Hs & Ha)%transfers_static.
    rewrite (target_in_cfg_static _ _ _ _ _ _ Hs Ha), (constants_after_complete pre c) in Hall;
      [by apply Hedge|done|done|..].
    + apply list_elem_of_lookup_1 in Hc as [k Hk]. eapply constant_named; [done| |done].
      rewrite Hl. by apply lookup_app_l_Some.
    + intros j Hj Hres.
      assert (Hin : forall x, x ∈ pre -> exists k, b_instructions b !! k = Some x).
      { intros x [k Hk]%list_elem_of_lookup_1. exists k. rewrite Hl. by apply lookup_app_l_Some. }
      destruct (Hin j Hj) as [kj Hkj], (Hin c Hc) as [kc Hkc].
      assert (kj = kc); [|congruence]. eapply accepted_unique; [done..|]. rewrite Hres.
      by eapply (constant_named b true (b_instructions b)).
  - intros Hall pre i post Hl.
    destruct (static_target i) as [[kind n]|] eqn:Es; [|unfold target_in_cfg; by rewrite Es].
    destruct (i_args i !! n) as [a|] eqn:Ea; [|unfold target_in_cfg; rewrite Es; unfold ValueId in *; by rewrite Ea].
    rewrite (target_in_cfg_static _ _ _ _ _ _ Es Ea).
    destruct (constants_after (pre ++ [i]) ∅ !! a) as [v|] eqn:Ev; [|done].
    assert (Ht : transfers i kind a) by (apply transfers_static; by exists n).
    rewrite (Hsame _ _ _ _ Ht) in Ev. apply constants_after_sound in Ev as (c & Hc & Ho & <- & <-).
    apply Hedge. by eapply Hall.
Qed.

(** ** Functions *)

Definition add_block (b : Block) (m : gmap Z Block) : gmap Z Block := <[b_guest_address b := b]> m.

Lemma collect_blocks_ok m l m' :
  collect_blocks m l = inr m' <->
  NoDup (b_guest_address <$> l) /\
  Forall (λ b, m !! b_guest_address b = None /\ vr_ok (verify_block_impl b true) = true) l /\
  m' = foldl (λ m b, add_block b m) m l.
Proof.
  revert m. induction l as [|b l IH]; intros m.
  { cbn. split; [intros [= <-]; split_and!; [constructor|constructor|done]|by intros (_ & _ & ->)]. }
  cbn [collect_blocks]. destruct (m !! b_guest_address b) as [b'|] eqn:Eb.
  { split; [done|]. intros (_ & [[Hn _] _]%Forall_cons & _). congruence. }
  destruct (vr_ok (verify_block_impl b true)) eqn:Ev.
  2:{ split; [intros [=]|]. intros (_ & [[_ Hv] _]%Forall_cons & _). congruence. }
  fold (add_block b m). rewrite IH. cbn [fmap list_fmap foldl]. rewrite NoDup_cons, Forall_cons.
  assert (Hiff : (b_guest_address b ∉ b_guest_address <$> l) /\ Forall (λ x, m !! b_guest_address x = None /\ vr_ok (verify_block_impl x true) = true) l <->
    Forall (λ x, add_block b m !! b_guest_address x = None /\ vr_ok (verify_block_impl x true) = true) l).
  { rewrite !Forall_forall. split.
    - intros [Hni Hall] x Hx. destruct (Hall x Hx) as [Hm Hv]. split; [|done]. unfold add_block.
      rewrite lookup_insert_ne; [done|]. intros Heq. apply Hni. apply list_elem_of_fmap. by exists x.
    - intros Hall. split.
      + intros (x & Heq & Hx)%list_elem_of_fmap. destruct (Hall x Hx) as [Hm _]. unfold add_block in Hm.
        by rewrite Heq, lookup_insert_eq in Hm.
      + intros x Hx. destruct (Hall x Hx) as [Hm Hv]. split; [|done]. unfold add_block in Hm.
        by apply lookup_insert_None in Hm as [? _]. }
  tauto.
Qed.

Lemma collected_lookup l m a b :
  NoDup (b_guest_address <$> l) -> Forall (λ b, m !! b_guest_address b = None) l ->
  foldl (λ m b, add_block b m) m l !! a = Some b <->
  (b ∈ l /\ b_guest_address b = a) \/ m !! a = Some b.
Proof.
  revert m. induction l as [|x l IH]; intros m Hnd Hm; cbn [foldl].
  { split; [by right|]. by intros [[?%elem_of_nil _]|]. }
  apply NoDup_cons in Hnd as [Hni Hnd]. apply Forall_cons in Hm as [Hx Hm]. rewrite IH; [|done|].
  - unfold add_block. rewrite elem_of_cons. destruct (decide (b_guest_address x = a)) as [<-|Hne].
    + rewrite lookup_insert_eq, Hx. split.
      * intros [[Hb Ha]|[= ->]]; [|by left; split; [left|]].
        destruct Hni. rewrite <- Ha. by apply list_elem_of_fmap_2.
      * intros [[[->|Hb] Ha]|]; [by right|by left|done].
    + rewrite lookup_insert_ne by done. split.
      * intros [[Hb Ha]|Hl]; [left; split; [by right|done]|by right].
      * intros [[[->|Hb] Ha]|Hl]; [done|by left|by right].
  - rewrite Forall_forall in *. intros y Hy. unfold add_block. rewrite lookup_insert_ne; [by apply Hm|].
    intros Heq. apply Hni. rewrite Heq. by apply list_elem_of_fmap_2.
Qed.

Lemma first_error_None {A} (f : A -> option VerifyError) l :
  first_error f l = None <-> Forall (λ x, f x = None) l.
Proof.
  induction l as [|x l IH]; cbn; [by split; [constructor|]|].
  rewrite Forall_cons. destruct (f x); [by split; [|intros [? _]]|]. rewrite IH. intuition.
Qed.

Lemma verify_cfg_ok blocks function l :
  vr_ok (verify_cfg blocks function l) = true <-> Forall (λ b, cfg_error blocks b = None) l.
Proof.
  induction l as [|b l IH]; cbn; [by split; [constructor|]|].
  rewrite Forall_cons. destruct (cfg_error blocks b); [by split; [|intros [? _]]|].
  rewrite IH. intuition.
Qed.

Section Cfg.
Context (l : list Block) (blocks : gmap Z Block).
Context (Hlook : forall a b, blocks !! a = Some b <-> b ∈ l /\ b_guest_address b = a).

Lemma edge_error_None b e :
  NoDup (b_guest_address <$> l) ->
  edge_error blocks b e = None <->
  (e_local e = true -> exists target, target ∈ l /\ b_guest_address target = e_target e /\
      (e_kind e <> Call -> b_guest_address b ∈ b_predecessors target)).
Proof using Hlook.
  intros Hnd. unfold edge_error. destruct (e_local e); cbn [negb]; [|split; [intros _ [=]|done]].
  destruct (blocks !! e_target e) as [t|] eqn:Et.
  - apply Hlook in Et as [Hin Ha].
    assert (Huniq : forall t', t' ∈ l -> b_guest_address t' = e_target e -> t' = t).
    { intros t' Hin' Ha'. assert (Ht : blocks !! e_target e = Some t') by (by apply Hlook).
      assert (Ht2 : blocks !! e_target e = Some t) by (by apply Hlook). congruence. }
    case_bool_decide as Hc.
    { split; [|done]. intros _ _. by exists t. }
    case_bool_decide as Hp.
    { split; [|done]. intros _ _. by exists t. }
    split; [done|]. intros Hall. destruct (Hall eq_refl) as (t' & Hin' & Ha' & Hp').
    rewrite (Huniq t' Hin' Ha') in Hp'. destruct Hp. by apply Hp'.
  - split; [done|]. intros Hall. destruct (Hall eq_refl) as (t' & Hin' & Ha' & _).
    assert (blocks !! e_target e = Some t') by (by apply Hlook). congruence.
Qed.

Lemma predecessor_error_None b p :
  predecessor_error blocks b p = None <->
  exists source e, source ∈ l /\ b_guest_address source = p /\ e ∈ b_successors source /\
      flow_edge e /\ e_target e = b_guest_address b.
Proof using Hlook.
  unfold predecessor_error. destruct (blocks !! p) as [s|] eqn:Es.
  - destruct (existsb _ _) eqn:Ex.
    + split; [|done]. intros _. apply existsb_exists in Ex as (e & He & Hc).
      apply list_elem_of_In in He. apply andb_true_iff in Hc as [[Hl Hk]%andb_true_iff Ht].
      apply negb_true_iff, bool_decide_eq_false in Hk. apply Z.eqb_eq in Ht.
      apply Hlook in Es as [Hin Ha]. by exists s, e.
    + split; [done|]. intros (s' & e & Hin & Ha & He & [Hl Hk] & Ht).
      assert (Es' : blocks !! p = Some s') by (by apply Hlook). rewrite Es in Es'. injection Es' as ->.
      assert (Hx : existsb (λ e, e_local e && negb (bool_decide (e_kind e = Call)) &&
                       (e_target e =? b_guest_address b)) (b_successors s') = true); [|congruence].
      apply existsb_exists. exists e. split; [by apply list_elem_of_In|].
      rewrite Hl, (bool_decide_false _ Hk), Ht, Z.eqb_refl. done.
  - split; [done|]. intros (s' & e & Hin & Ha & _).
    assert (blocks !! p = Some s') by (by apply Hlook). congruence.
Qed.

Lemma cfg_error_None b :
  cfg_error blocks b = None <->
  targets_ok b ∅ (b_instructions b) = true /\
  (forall e, e ∈ b_successors b -> edge_error blocks b e = None) /\
  (forall p, p ∈ b_predecessors b -> predecessor_error blocks b p = None).
Proof using Type.
  unfold cfg_error. destruct (targets_ok _ _ _); cbn [negb]; [|by split; [|intros [? _]]].
  rewrite <- !Forall_forall, <- !first_error_None.
  destruct (first_error (edge_error blocks b) _); [by split; [|intros (_ & ? & _)]|]. intuition.
Qed.
End Cfg.

Lemma collect_blocks_error m l r : collect_blocks m l = inl r -> vr_ok r = false.
Proof.
  revert m. induction l as [|b l IH]; intros m; [done|]. cbn. destruct (m !! _).
  { by intros [= <-]. }
  destruct (vr_ok (verify_block_impl b true)) eqn:Ev; [apply IH|]. by intros [= <-].
Qed.

Lemma verify_function_accepted f :
  vr_ok (verify_function f) = true <-> function_accepted f.
Proof.
  unfold verify_function. destruct (f_blocks f) as [|b0 bs] eqn:Ef.
  { split; [done|]. intros [_ (b & Hb & _) _ _ _ _]. rewrite Ef in Hb. by apply elem_of_nil in Hb. }
  set (l := b0 :: bs) in *.
  assert (Hempty : Forall (λ b, (∅ : gmap Z Block) !! b_guest_address b = None) l).
  { apply Forall_forall. intros b _. apply lookup_empty. }
  destruct (collect_blocks ∅ l) as [r|blocks] eqn:Ec.
  - split.
    + intros Hr. apply collect_blocks_error in Ec. congruence.
    + intros [Hnd _ Hb _ _ _]. rewrite Ef in Hnd, Hb.
      assert (Hok : collect_blocks ∅ l = inr (foldl (λ m b, add_block b m) ∅ l)); [|congruence].
      apply collect_blocks_ok. split_and!; [done| |done]. apply Forall_forall. intros b Hin.
      split; [apply lookup_empty|]. apply verify_block_rules. by apply Hb.
  - apply collect_blocks_ok in Ec as (Hnd & Hall & ->).
    assert (Hlook : forall a b, foldl (λ m b, add_block b m) ∅ l !! a = Some b <-> b ∈ l /\ b_guest_address b = a).
    { intros a b. rewrite collected_lookup by done. rewrite lookup_empty. intuition discriminate. }
    set (blocks := foldl (λ m b, add_block b m) ∅ l) in *.
    rewrite Forall_forall in Hall.
    assert (Hinsts : forall b, b ∈ l -> insts_accepted b true ∅ (b_instructions b)).
    { intros b Hb. destruct (Hall b Hb) as [_ Hv]. by apply verify_block_accepted in Hv as [_ ?]. }
    destruct (blocks !! f_guest_address f) as [entry|] eqn:Ee.
    + rewrite verify_cfg_ok, Forall_forall. split.
      * intros Hcfg.
        assert (Hc : forall b, b ∈ l -> targets_ok b ∅ (b_instructions b) = true /\
          (forall e, e ∈ b_successors b -> edge_error blocks b e = None) /\
          (forall p, p ∈ b_predecessors b -> predecessor_error blocks b p = None))
          by (intros b Hb; by apply cfg_error_None, Hcfg).
        split; rewrite Ef; [done|..].
        -- apply Hlook in Ee as [? ?]. by exists entry.
        -- intros b Hb. apply verify_block_rules. by apply Hall.
        -- intros b pre i post kind c Hb. apply targets_rules; [by apply Hinsts|]. by apply (Hc b Hb).
        -- intros b e Hb He. eapply (edge_error_None l blocks Hlook); [done|]. by apply (Hc b Hb).
        -- intros b p Hb Hp. eapply (predecessor_error_None l blocks Hlook). by apply (Hc b Hb).
      * intros [_ _ _ Ht Hl Hp] b Hb. rewrite Ef in Ht, Hl, Hp.
        apply cfg_error_None. split_and!; [apply targets_rules; [by apply Hinsts|intros *; by apply Ht]|..].
        -- intros e He. apply (edge_error_None l blocks Hlook); [done|]. by apply Hl.
        -- intros p Hpin. apply (predecessor_error_None l blocks Hlook). by apply Hp.
    + split; [done|]. intros [_ (b & Hb & Ha) _ _ _ _]. rewrite Ef in Hb.
      assert (blocks !! f_guest_address f = Some b) by (by apply Hlook). congruence.
Qed.
