(* ===== verification/FlatMemory.v ===== *)
(** * [FlatMemory] (src/cpu/execution/flat_memory.cpp)

    The contiguous memory the CPU is tested against, as an implementation of
    [MemoryPort]: bounds checks that throw, big- and little-endian accesses, and
    the load-reserve/store-conditional monitor. *)

From S2P Require Import Prelude.
From S2P Require Import Words.
From S2P Require Import Services.

Record FlatMemory : Type := mkFlat {
  fm_base : GuestAddress;
  fm_bytes : list Z;
  fm_generation : Z;
  fm_next_token : Z;
  fm_token : Z;
  fm_address : GuestAddress;
  fm_width : Z
}.

Definition flat_init (size : nat) (base : GuestAddress) : FlatMemory :=
  mkFlat base (replicate size 0) 1 1 0 0 0.

Definition set_bytes (l : list Z) (m : FlatMemory) : FlatMemory :=
  mkFlat (fm_base m) l (fm_generation m) (fm_next_token m) (fm_token m) (fm_address m) (fm_width m).

(** [None] when the access throws. *)
Definition offset (address width : Z) (m : FlatMemory) : option nat :=
  if (address <? fm_base m) || (fm_base m + Z.of_nat (length (fm_bytes m)) <? address + width)
  then None else Some (Z.to_nat (address - fm_base m)).

Definition touched (m : FlatMemory) : FlatMemory :=
  let g := u64 (fm_generation m + 1) in
  mkFlat (fm_base m) (fm_bytes m) (if g =? 0 then 1 else g) (fm_next_token m) 0 (fm_address m) 0.

(** ** Reads *)

Definition at_offset {A} (address width : Z) (f : nat -> A) (m : FlatMemory)
    : MemResult FlatMemory A := (f <$> offset address width m, m).

Definition read8 (a : GuestAddress) (m : FlatMemory) : MemResult FlatMemory Z :=
  at_offset a 1 (λ p, fm_bytes m !!! p) m.

Definition read16_be (a : GuestAddress) (m : FlatMemory) : MemResult FlatMemory Z :=
  let b := fm_bytes m in
  at_offset a 2 (λ p, u16 (u16 ((b !!! p) .<< 8) .| (b !!! (p + 1)%nat))) m.

Definition read32_be (a : GuestAddress) (m : FlatMemory) : MemResult FlatMemory Z :=
  let b := fm_bytes m in
  at_offset a 4 (λ p, u32 ((b !!! p) .<< 24) .| u32 ((b !!! (p + 1)%nat) .<< 16)
                      .| u32 ((b !!! (p + 2)%nat) .<< 8) .| (b !!! (p + 3)%nat)) m.

Definition read64_be (a : GuestAddress) (m : FlatMemory) : MemResult FlatMemory Z :=
  at_offset a 8 (λ p, foldl (λ v i, u64 (v .<< 8) .| (fm_bytes m !!! (p + i)%nat)) 0 (seq 0 8)) m.

Definition read16_le (a : GuestAddress) (m : FlatMemory) : MemResult FlatMemory Z :=
  let b := fm_bytes m in
  at_offset a 2 (λ p, u16 ((b !!! p) .| u16 ((b !!! (p + 1)%nat) .<< 8))) m.

Definition read32_le (a : GuestAddress) (m : FlatMemory) : MemResult FlatMemory Z :=
  at_offset a 4 (λ p, foldl (λ v i, v .| u32 ((fm_bytes m !!! (p + i)%nat) .<< (8 * Z.of_nat i)))
                        0 (seq 0 4)) m.

Definition read64_le (a : GuestAddress) (m : FlatMemory) : MemResult FlatMemory Z :=
  at_offset a 8 (λ p, foldl (λ v i, v .| u64 ((fm_bytes m !!! (p + i)%nat) .<< (8 * Z.of_nat i)))
                        0 (seq 0 8)) m.

Definition span (p n : nat) (m : FlatMemory) : list Z := take n (drop p (fm_bytes m)).

Definition read128 (a : GuestAddress) (m : FlatMemory) : MemResult FlatMemory Vector128 :=
  at_offset a 16 (λ p, span p 16 m) m.

Definition read_bytes (a : GuestAddress) (n : Z) (m : FlatMemory) : MemResult FlatMemory (list Z) :=
  if n =? 0 then (Some [], m) else at_offset a n (λ p, span p (Z.to_nat n) m) m.

(** ** Writes *)

(** Store [l] at [address]: nothing happens when the access throws. *)
Definition write_at (address : GuestAddress) (l : list Z) (m : FlatMemory) : MemResult FlatMemory unit :=
  match offset address (Z.of_nat (length l)) m with
  | Some p => (Some tt, touched (set_bytes (list_inserts p l (fm_bytes m)) m))
  | None => (None, m)
  end.

Definition write8 (a : GuestAddress) (v : Z) : FlatMemory -> MemResult FlatMemory unit :=
  write_at a [u8 v].
Definition write16_be (a : GuestAddress) (v : Z) : FlatMemory -> MemResult FlatMemory unit :=
  write_at a [u8 (v .>> 8); u8 v].
Definition write32_be (a : GuestAddress) (v : Z) : FlatMemory -> MemResult FlatMemory unit :=
  write_at a ((λ i, u8 (v .>> (24 - 8 * i))) <$> seqZ 0 4).
Definition write64_be (a : GuestAddress) (v : Z) : FlatMemory -> MemResult FlatMemory unit :=
  write_at a ((λ i, u8 (v .>> (56 - 8 * i))) <$> seqZ 0 8).
Definition write128 (a : GuestAddress) (v : Vector128) : FlatMemory -> MemResult FlatMemory unit :=
  write_at a v.
Definition write16_le (a : GuestAddress) (v : Z) : FlatMemory -> MemResult FlatMemory unit :=
  write_at a [u8 v; u8 (v .>> 8)].
Definition write32_le (a : GuestAddress) (v : Z) : FlatMemory -> MemResult FlatMemory unit :=
  write_at a ((λ i, u8 (v .>> (8 * i))) <$> seqZ 0 4).
Definition write64_le (a : GuestAddress) (v : Z) : FlatMemory -> MemResult FlatMemory unit :=
  write_at a ((λ i, u8 (v .>> (8 * i))) <$> seqZ 0 8).

Definition write_bytes (a : GuestAddress) (l : list Z) (m : FlatMemory) : MemResult FlatMemory unit :=
  match l with [] => (Some tt, m) | _ => write_at a l m end.

Definition fill_bytes (a : GuestAddress) (size value : Z) (m : FlatMemory) : MemResult FlatMemory unit :=
  if size =? 0 then (Some tt, m) else write_at a (replicate (Z.to_nat size) value) m.

(** ** Reservations *)

Definition set_monitor (next token : Z) (address : GuestAddress) (width : Z) (m : FlatMemory)
    : FlatMemory :=
  mkFlat (fm_base m) (fm_bytes m) (fm_generation m) next token address width.

(** The token handed out, and the next one: zero is skipped. *)
Definition take_token (next : Z) : Z * Z :=
  if next =? 0 then (u64 (next + 1), u64 (u64 (next + 1) + 1)) else (next, u64 (next + 1)).

Definition reserve (read : GuestAddress -> FlatMemory -> MemResult FlatMemory Z) (bytes : Z)
    (a : GuestAddress) (m : FlatMemory) : MemResult FlatMemory (Z * Z) :=
  match read a m with
  | (None, m) => (None, m)
  | (Some v, m) =>
      let '(token, next) := take_token (fm_next_token m) in
      (Some (token, v), set_monitor next token a bytes m)
  end.

Definition reserve32 : GuestAddress -> FlatMemory -> MemResult FlatMemory (Z * Z) :=
  reserve read32_be 4.
Definition reserve64 : GuestAddress -> FlatMemory -> MemResult FlatMemory (Z * Z) :=
  reserve read64_be 8.

Definition clear_monitor (m : FlatMemory) : FlatMemory :=
  set_monitor (fm_next_token m) 0 (fm_address m) 0 m.

Definition store_conditional (write : GuestAddress -> Z -> FlatMemory -> MemResult FlatMemory unit)
    (bytes : Z) (a : GuestAddress) (token v : Z) (m : FlatMemory) : MemResult FlatMemory bool :=
  let ok := negb (token =? 0) && (token =? fm_token m) && (fm_width m =? bytes) && (fm_address m =? a) in
  let m := clear_monitor m in
  if ok then let '(r, m) := write a v m in ((λ _, true) <$> r, m) else (Some false, m).

Definition store_conditional32 : GuestAddress -> Z -> Z -> FlatMemory -> MemResult FlatMemory bool :=
  store_conditional write32_be 4.
Definition store_conditional64 : GuestAddress -> Z -> Z -> FlatMemory -> MemResult FlatMemory bool :=
  store_conditional write64_be 8.

Definition cancel_reservation (token : Z) (m : FlatMemory) : FlatMemory :=
  if negb (token =? 0) && (token =? fm_token m) then clear_monitor m else m.

Definition zero_cache_block (a : GuestAddress) (n : Z) (m : FlatMemory) : MemResult FlatMemory unit :=
  write_at (a .& not32 (n - 1)) (replicate (Z.to_nat n) 0) m.

(** ** The interface *)

Definition flat_read (width : Z) (little : bool) : GuestAddress -> FlatMemory -> MemResult FlatMemory Z :=
  if width =? 16 then if little then read16_le else read16_be
  else if width =? 32 then if little then read32_le else read32_be
  else if little then read64_le else read64_be.

Definition flat_write (width : Z) (little : bool)
    : GuestAddress -> Z -> FlatMemory -> MemResult FlatMemory unit :=
  if width =? 16 then if little then write16_le else write16_be
  else if width =? 32 then if little then write32_le else write32_be
  else if little then write64_le else write64_be.

#[export] Instance flat_memory_port : MemoryPort FlatMemory := {
  mp_read8 := read8;
  mp_read := flat_read;
  mp_read128 := read128;
  mp_write8 := write8;
  mp_write := flat_write;
  mp_write128 := write128;
  mp_read_bytes := read_bytes;
  mp_write_bytes := write_bytes;
  mp_reserve := λ width, if width =? 32 then reserve32 else reserve64;
  mp_store_conditional := λ width, if width =? 32 then store_conditional32 else store_conditional64;
  mp_cancel_reservation := cancel_reservation;
  (** A host fence: no effect on a sequential execution. *)
  mp_barrier := λ _ m, m;
  mp_zero_cache_block := zero_cache_block;
  mp_instruction_cache_invalidate := λ _ m, (Some tt, m)
}.

(** ** Bytes and values *)

Definition be_value (l : list Z) : Z := foldl (λ v b, v * 256 + b) 0 l.
Definition be_bytes (n : nat) (v : Z) : list Z :=
  (λ i, u8 (v .>> (8 * (Z.of_nat n - 1) - 8 * i))) <$> seqZ 0 (Z.of_nat n).

Lemma be_value_snoc l b : be_value (l ++ [b]) = be_value l * 256 + b.
Proof. unfold be_value. by rewrite foldl_app. Qed.

Lemma be_bytes_S n v : be_bytes (S n) v = be_bytes n (v .>> 8) ++ [u8 v].
Proof.
  unfold be_bytes. replace (Z.of_nat (S n)) with (Z.of_nat n + 1) by lia. rewrite seqZ_app by lia.
  rewrite fmap_app. f_equal.
  - apply list_fmap_ext. intros i x Hx. apply list_elem_of_lookup_2, elem_of_seqZ in Hx.
    rewrite Z.shiftr_shiftr by lia. do 2 f_equal. lia.
  - rewrite Z.add_0_l. change (seqZ (Z.of_nat n) 1) with [Z.of_nat n]. rewrite list_fmap_singleton.
    replace (8 * (Z.of_nat n + 1 - 1) - 8 * Z.of_nat n) with 0 by lia. by rewrite Z.shiftr_0_r.
Qed.

Lemma be_round_trip n v : 0 <= v -> be_value (be_bytes n v) = v mod 2 ^ (8 * Z.of_nat n).
Proof.
  revert v. induction n as [|n IH]; intros v Hv.
  { cbn. by rewrite Z.mod_1_r. }
  rewrite be_bytes_S, be_value_snoc, IH by (by apply Z.shiftr_nonneg).
  rewrite Z.shiftr_div_pow2 by lia. change (2 ^ 8) with 256. unfold u8.
  replace (8 * Z.of_nat (S n)) with (8 * Z.of_nat n + 8) by lia.
  rewrite Z.pow_add_r by lia. change (2 ^ 8) with 256.
  assert (0 < 2 ^ (8 * Z.of_nat n)) by (apply Z.pow_pos_nonneg; lia).
  rewrite (Z.mul_comm (2 ^ _)), Z.rem_mul_r by lia. lia.
Qed.

Lemma be_bytes_length n v : length (be_bytes n v) = n.
Proof. unfold be_bytes. rewrite length_fmap, length_seqZ. lia. Qed.

Lemma be_bytes_u8 n v : Forall is_u8 (be_bytes n v).
Proof.
  apply Forall_fmap, Forall_forall. intros i _. cbn. unfold is_u8, u8.
  pose proof (Z.mod_pos_bound (v .>> (8 * (Z.of_nat n - 1) - 8 * i)) 256 ltac:(lia)). lia.
Qed.
