(* ===== verification/FlatMemorySpec.v ===== *)
(** * What [FlatMemory] promises

    Accesses in terms of the bytes they cover; read-after-write for every width
    and byte order; writes leave disjoint accesses alone; bounds; the monitor. *)

From S2P Require Import Prelude.
From S2P Require Import Words.
From S2P Require Import Services.
From S2P Require Import FlatMemory.

(** ** Assembling bytes *)

Lemma lor_low k v b : 0 <= k -> 0 <= v < 2 ^ k -> 0 <= b -> v .| (b .<< k) = v + b * 2 ^ k.
Proof.
  intros Hk Hv Hb. rewrite Z.shiftl_mul_pow2 by done. symmetry.
  rewrite <- Z.lxor_lor, <- Z.add_nocarry_lxor; [done|..]; apply Z.bits_inj'; intros n Hn;
    rewrite Z.land_spec, Z.bits_0; (destruct (Z.lt_ge_cases n k);
      [by rewrite Z.mul_pow2_bits_low, andb_false_r|by rewrite (testbit_above k v)]).
Qed.

Lemma lor_high v b : 0 <= v -> is_u8 b -> (v .<< 8) .| b = v * 256 + b.
Proof.
  intros Hv Hb. rewrite Z.lor_comm, lor_low; [|lia|done|done].
  change (2 ^ 8) with 256. lia.
Qed.

Definition flat_ok (m : FlatMemory) : Prop := Forall is_u8 (fm_bytes m).

Lemma offset_Some a n m p :
  0 <= n -> offset a n m = Some p ->
  fm_base m <= a /\ (p + Z.to_nat n <= length (fm_bytes m))%nat /\ Z.of_nat p = a - fm_base m.
Proof.
  intros Hn. unfold offset. destruct (Z.ltb_spec a (fm_base m)); [done|].
  destruct (Z.ltb_spec (fm_base m + Z.of_nat (length (fm_bytes m))) (a + n)); [done|]. cbn.
  intros [= <-]. lia.
Qed.

Lemma span_length p n m : (p + n <= length (fm_bytes m))%nat -> length (span p n m) = n.
Proof. intros Hp. unfold span. rewrite length_take, length_drop. lia. Qed.

Lemma span_byte p n m i :
  (p + n <= length (fm_bytes m))%nat -> (i < n)%nat -> fm_bytes m !!! (p + i)%nat = span p n m !!! i.
Proof.
  intros Hp Hi. unfold span. rewrite !list_lookup_total_alt, lookup_take_lt, lookup_drop by done. done.
Qed.

Lemma span_u8 p n m : flat_ok m -> Forall is_u8 (span p n m).
Proof. intros Hm. by apply Forall_take, Forall_drop. Qed.

Lemma be_value_bound l : Forall is_u8 l -> 0 <= be_value l < 2 ^ (8 * Z.of_nat (length l)).
Proof.
  intros Hl. induction l as [|b l IH] using rev_ind; [done|].
  apply Forall_app in Hl as [Hl [Hb _]%Forall_cons]. specialize (IH Hl). unfold is_u8 in Hb.
  rewrite be_value_snoc, length_app. cbn [length].
  replace (8 * Z.of_nat (length l + 1)) with (8 * Z.of_nat (length l) + 8) by lia.
  rewrite Z.pow_add_r by lia. change (2 ^ 8) with 256. lia.
Qed.

(** The width in bytes. *)
Definition width_bytes (w : Z) : nat := if w =? 16 then 2 else if w =? 32 then 4 else 8.
Definition order {A} (little : bool) (l : list A) : list A := if little then reverse l else l.




Lemma le_step k v b w : 0 <= k -> 0 <= v < 2 ^ k -> is_u8 b -> b * 2 ^ k < w -> v .| ((b .<< k) mod w) = v + b * 2 ^ k.
Proof.
  intros Hk Hv Hb Hw. unfold is_u8 in Hb. assert (0 < 2 ^ k) by (apply Z.pow_pos_nonneg; lia).
  rewrite Z.mod_small; [apply lor_low; lia|]. rewrite Z.shiftl_mul_pow2 by done. nia.
Qed.

Lemma le_fold (w : Z) (l : list Z) :
  Forall is_u8 l -> 2 ^ (8 * Z.of_nat (length l)) <= w ->
  foldl (λ v i, v .| (((l !!! i) .<< (8 * Z.of_nat i)) mod w)) 0 (seq 0 (length l)) = be_value (reverse l).
Proof.
  intros Hl. induction l as [|b l IH] using rev_ind; [done|]. intros Hw.
  apply Forall_app in Hl as [Hl [Hb _]%Forall_cons]. rewrite reverse_snoc.
  rewrite length_app in *. cbn [length] in *. rewrite seq_app, foldl_app. cbn [seq foldl]. rewrite Nat.add_0_l.
  rewrite lookup_total_app_r, Nat.sub_diag by lia. change ([b] !!! 0%nat) with b.
  assert (Hpow : 2 ^ (8 * Z.of_nat (length l + 1)) = 2 ^ (8 * Z.of_nat (length l)) * 256).
  { replace (8 * Z.of_nat (length l + 1)) with (8 * Z.of_nat (length l) + 8) by lia.
    by rewrite Z.pow_add_r by lia. }
  assert (0 < 2 ^ (8 * Z.of_nat (length l))) by (apply Z.pow_pos_nonneg; lia).
  assert (Hfold : foldl (λ v i, v .| ((((l ++ [b]) !!! i) .<< (8 * Z.of_nat i)) mod w)) 0 (seq 0 (length l)) =
                  be_value (reverse l)).
  { rewrite <- IH; [|done|lia]. apply foldl_ext_in. intros v i Hi%elem_of_seq.
    rewrite lookup_total_app_l by lia. done. }
  rewrite Hfold. pose proof (be_value_bound (reverse l) ltac:(by apply Forall_reverse)) as Hb2.
  rewrite length_reverse in Hb2. rewrite le_step; [|lia|done|done|unfold is_u8 in Hb; nia].
  (* prepending the most significant byte *)
  assert (Hcons : forall b l, be_value (b :: l) = b * 2 ^ (8 * Z.of_nat (length l)) + be_value l).
  { clear. intros b l. induction l as [|c l IH] using rev_ind; [cbn; lia|].
    rewrite app_comm_cons, !be_value_snoc, IH, length_app. cbn [length].
    replace (8 * Z.of_nat (length l + 1)) with (8 * Z.of_nat (length l) + 8) by lia.
    rewrite Z.pow_add_r by lia. change (2 ^ 8) with 256. lia. }
  rewrite Hcons, length_reverse. lia.
Qed.


Definition is_width (w : Z) : Prop := w = 16 \/ w = 32 \/ w = 64.

Lemma be_step w v b : 0 <= v -> is_u8 b -> v * 256 < w -> ((v .<< 8) mod w) .| b = v * 256 + b.
Proof.
  intros Hv Hb Hw. rewrite Z.mod_small.
  - by apply lor_high.
  - rewrite Z.shiftl_mul_pow2 by lia. change (2 ^ 8) with 256. lia.
Qed.

Lemma be_fold (l : list Z) (n : nat) :
  (n <= length l)%nat -> Forall is_u8 l -> (n <= 8)%nat ->
  foldl (λ v i, u64 (v .<< 8) .| (l !!! i)) 0 (seq 0 n) = be_value (take n l).
Proof.
  induction n as [|n IH]; intros Hn Hl H8; [done|].
  rewrite seq_S, foldl_app, IH by (done || lia). cbn [foldl]. rewrite Nat.add_0_l.
  destruct (lookup_lt_is_Some_2 l n) as [b Hb]; [lia|].
  rewrite (take_S_r l n b Hb), be_value_snoc, (list_lookup_total_correct _ _ _ Hb).
  pose proof (be_value_bound (take n l) ltac:(by apply Forall_take)) as Hv.
  rewrite length_take, Nat.min_l in Hv by lia.
  assert (2 ^ (8 * Z.of_nat n) * 256 <= 2 ^ 64).
  { change 256 with (2 ^ 8). rewrite <- Z.pow_add_r by lia. apply Z.pow_le_mono_r; lia. }
  change (2 ^ 64) with 0x10000000000000000 in *.
  apply be_step; [lia|by eapply (Forall_lookup_1 is_u8)|lia].
Qed.

Ltac pow_lia :=
  unfold is_u8 in *; change (2 ^ 8) with 0x100; change (2 ^ 16) with 0x10000;
  change (2 ^ 24) with 0x1000000; lia.

(** The bytes of an access inside the memory. *)
Lemma span_facts n p m :
  flat_ok m -> (p + n <= length (fm_bytes m))%nat ->
  length (span p n m) = n /\ Forall is_u8 (span p n m) /\
  forall i, (i < n)%nat -> fm_bytes m !!! (p + i)%nat = span p n m !!! i.
Proof.
  intros Hm Hp. split_and!; [by apply span_length|by apply span_u8|]. intros i Hi. by apply span_byte.
Qed.

Lemma at_offset_ext {A} a n m (f g : nat -> A) :
  0 <= n -> (forall p, (p + Z.to_nat n <= length (fm_bytes m))%nat -> f p = g p) ->
  at_offset a n f m = at_offset a n g m.
Proof.
  intros Hn Hfg. unfold at_offset. destruct (offset a n m) as [p|] eqn:Ep; [|done].
  cbn. by rewrite Hfg by (by eapply offset_Some).
Qed.

Lemma read16_be_spec a m :
  flat_ok m -> read16_be a m = at_offset a 2 (λ p, be_value (span p 2 m)) m.
Proof.
  intros Hm. apply at_offset_ext; [lia|]. intros p Hp. change (Z.to_nat 2) with 2%nat in Hp. cbv beta.
  destruct (span_facts 2 p m Hm Hp) as (Hl & Hu & Hb).
  rewrite <- (Nat.add_0_r p) at 1. rewrite !Hb by lia. destruct (span p 2 m) as [|b0 [|b1 [|]]]; try discriminate Hl.
  apply Forall_cons in Hu as [Hb0 [Hb1 _]%Forall_cons]. unfold be_value. cbn [foldl].
  change ([b0; b1] !!! 0%nat) with b0. change ([b0; b1] !!! 1%nat) with b1. unfold is_u8, u16 in *.
  rewrite be_step by (done || lia). rewrite Z.mod_small by lia. lia.
Qed.

Lemma read32_be_spec a m :
  flat_ok m -> read32_be a m = at_offset a 4 (λ p, be_value (span p 4 m)) m.
Proof.
  intros Hm. apply at_offset_ext; [lia|]. intros p Hp. change (Z.to_nat 4) with 4%nat in Hp. cbv beta.
  destruct (span_facts 4 p m Hm Hp) as (Hl & Hu & Hb).
  rewrite <- (Nat.add_0_r p) at 1. rewrite !Hb by lia.
  destruct (span p 4 m) as [|b0 [|b1 [|b2 [|b3 [|]]]]]; try discriminate Hl.
  apply Forall_cons in Hu as [Hb0 [Hb1 [Hb2 [Hb3 _]%Forall_cons]%Forall_cons]%Forall_cons].
  unfold be_value. cbn [foldl].
  change ([b0; b1; b2; b3] !!! 0%nat) with b0. change ([b0; b1; b2; b3] !!! 1%nat) with b1.
  change ([b0; b1; b2; b3] !!! 2%nat) with b2. change ([b0; b1; b2; b3] !!! 3%nat) with b3.
  rewrite (Z.lor_comm (_ .| _) b3), (Z.lor_comm (u32 (b0 .<< 24) .| _)), (Z.lor_comm (u32 (b0 .<< 24))).
  unfold is_u8, u32 in *. rewrite !Z.lor_assoc.
  rewrite (le_step 8) by pow_lia. rewrite (le_step 16) by pow_lia. rewrite (le_step 24) by pow_lia. pow_lia.
Qed.

Lemma read64_be_spec a m :
  flat_ok m -> read64_be a m = at_offset a 8 (λ p, be_value (span p 8 m)) m.
Proof.
  intros Hm. apply at_offset_ext; [lia|]. intros p Hp. change (Z.to_nat 8) with 8%nat in Hp. cbv beta.
  destruct (span_facts 8 p m Hm Hp) as (Hl & Hu & Hb).
  etrans; [|etrans; [apply (be_fold (span p 8 m) 8); [lia|done|lia]|]].
  - apply foldl_ext_in. intros v i Hi%elem_of_seq. by rewrite Hb by lia.
  - by rewrite take_ge by lia.
Qed.

Lemma read16_le_spec a m :
  flat_ok m -> read16_le a m = at_offset a 2 (λ p, be_value (reverse (span p 2 m))) m.
Proof.
  intros Hm. apply at_offset_ext; [lia|]. intros p Hp. change (Z.to_nat 2) with 2%nat in Hp. cbv beta.
  destruct (span_facts 2 p m Hm Hp) as (Hl & Hu & Hb).
  rewrite <- (Nat.add_0_r p) at 1. rewrite !Hb by lia.
  pose proof (le_fold 0x10000 _ Hu) as Hf. rewrite Hl in Hf. rewrite <- Hf by done.
  destruct (span p 2 m) as [|b0 [|b1 [|]]]; try discriminate Hl.
  apply Forall_cons in Hu as [Hb0 [Hb1 _]%Forall_cons]. cbn [foldl seq].
  change ([b0; b1] !!! 0%nat) with b0. change ([b0; b1] !!! 1%nat) with b1.
  change (8 * Z.of_nat 0) with 0. change (8 * Z.of_nat 1) with 8. unfold u16.
  rewrite Z.lor_0_l, Z.shiftl_0_r. unfold is_u8 in *. rewrite (Z.mod_small b0) by lia.
  rewrite (le_step 8) by pow_lia. change (2 ^ 8) with 256. apply Z.mod_small. lia.
Qed.

Lemma read_le_fold_spec (n : nat) (w : Z) a m :
  flat_ok m -> 2 ^ (8 * Z.of_nat n) = w ->
  at_offset a (Z.of_nat n) (λ p, foldl (λ v i, v .| (((fm_bytes m !!! (p + i)%nat) .<< (8 * Z.of_nat i)) mod w))
                        0 (seq 0 n)) m =
  at_offset a (Z.of_nat n) (λ p, be_value (reverse (span p n m))) m.
Proof.
  intros Hm Hw. apply at_offset_ext; [lia|]. intros p Hp. rewrite Nat2Z.id in Hp. cbv beta.
  destruct (span_facts n p m Hm Hp) as (Hl & Hu & Hb).
  rewrite <- (le_fold w _ Hu) by (rewrite Hl; lia). rewrite Hl.
  apply foldl_ext_in. intros v i Hi%elem_of_seq. by rewrite Hb by lia.
Qed.

Lemma flat_read_spec w le a m :
  is_width w -> flat_ok m ->
  flat_read w le a m =
    at_offset a (w / 8) (λ p, be_value (order le (span p (width_bytes w) m))) m.
Proof.
  intros Hw Hm. destruct Hw as [->|[->| ->]]; destruct le.
  - by apply read16_le_spec.
  - by apply read16_be_spec.
  - by apply (read_le_fold_spec 4).
  - by apply read32_be_spec.
  - by apply (read_le_fold_spec 8).
  - by apply read64_be_spec.
Qed.

(** ** Writes *)

Lemma flat_write_spec w le a v :
  is_width w -> flat_write w le a v = write_at a (order le (be_bytes (width_bytes w) v)).
Proof. intros [->|[->| ->]]; destruct le; reflexivity. Qed.

Lemma write_at_Some a l m m' :
  write_at a l m = (Some tt, m') ->
  exists p, offset a (Z.of_nat (length l)) m = Some p /\
    fm_bytes m' = list_inserts p l (fm_bytes m) /\ fm_base m' = fm_base m /\
    length (fm_bytes m') = length (fm_bytes m).
Proof.
  unfold write_at. destruct (offset _ _ _) as [p|] eqn:Ep; [|done]. intros [= <-].
  exists p. cbn. by rewrite length_inserts.
Qed.

Lemma write_at_None a l m m' :
  write_at a l m = (None, m') -> offset a (Z.of_nat (length l)) m = None /\ m' = m.
Proof. unfold write_at. destruct (offset _ _ _); [done|]. by intros [= <-]. Qed.

Lemma offset_same a n m m' :
  fm_base m' = fm_base m -> length (fm_bytes m') = length (fm_bytes m) -> offset a n m' = offset a n m.
Proof. intros Hb Hl. unfold offset. by rewrite Hb, Hl. Qed.

Lemma span_inserts p l bytes m :
  fm_bytes m = list_inserts p l bytes -> (p + length l <= length bytes)%nat -> span p (length l) m = l.
Proof.
  intros Hm Hp. unfold span. rewrite Hm. apply list_eq. intros i.
  destruct (decide (i < length l)%nat) as [Hi|Hi].
  - rewrite lookup_take_lt, lookup_drop by done. rewrite list_lookup_inserts by lia.
    f_equal. lia.
  - rewrite !lookup_ge_None_2; [done|lia|]. rewrite length_take. lia.
Qed.

Lemma span_inserts_disjoint p l q n bytes m m0 :
  fm_bytes m0 = bytes -> fm_bytes m = list_inserts p l bytes ->
  (q + n <= p \/ p + length l <= q)%nat -> span q n m = span q n m0.
Proof.
  intros H0 Hm Hd. unfold span. rewrite Hm, H0. apply list_eq. intros i.
  destruct (decide (i < n)%nat) as [Hi|Hi].
  - rewrite !lookup_take_lt, !lookup_drop by done. destruct Hd.
    + by rewrite list_lookup_inserts_lt by lia.
    + by rewrite list_lookup_inserts_ge by lia.
  - rewrite !lookup_take_ge by lia. done.
Qed.

Lemma write_at_ok a l m r m' :
  Forall is_u8 l -> flat_ok m -> write_at a l m = (r, m') -> flat_ok m'.
Proof.
  intros Hl Hm. unfold write_at. destruct (offset _ _ _) as [p|]; intros [= _ <-]; [|done].
  unfold flat_ok in *. cbn.
  clear -Hl Hm. revert p. induction Hl; intros q; cbn; [done|]. by apply Forall_insert.
Qed.

Lemma order_length {A} le (l : list A) : length (order le l) = length l.
Proof. destruct le; [apply length_reverse|done]. Qed.

Lemma order_order {A} le (l : list A) : order le (order le l) = l.
Proof. destruct le; [apply reverse_involutive|done]. Qed.

Lemma order_u8 le l : Forall is_u8 l -> Forall is_u8 (order le l).
Proof. destruct le; [apply Forall_reverse|done]. Qed.

Lemma width_bytes_div w : is_width w -> Z.of_nat (width_bytes w) = w / 8.
Proof. by intros [->|[->| ->]]. Qed.

(** What a successful write leaves to be read. *)
Lemma read_after_write w le a v m m' :
  is_width w -> flat_ok m -> 0 <= v -> flat_write w le a v m = (Some tt, m') ->
  flat_ok m' /\ flat_read w le a m' = (Some (v mod 2 ^ w), m').
Proof.
  intros Hw Hm Hv E. rewrite flat_write_spec in E by done.
  assert (Hm' : flat_ok m') by (eapply write_at_ok; [apply order_u8, be_bytes_u8|exact Hm|exact E]).
  split; [done|]. apply write_at_Some in E as (p & Hp & Hb & Hbase & Hlen).
  rewrite order_length, be_bytes_length, width_bytes_div in Hp by done.
  rewrite flat_read_spec by done. unfold at_offset. rewrite (offset_same a _ m m') by done.
  rewrite Hp. cbn. repeat f_equal. apply offset_Some in Hp as (_ & Hp & _); [|destruct Hw as [->|[->| ->]]; done].
  pose proof (span_inserts p _ _ m' Hb) as Hs. rewrite order_length, be_bytes_length in Hs.
  rewrite Hs, order_order, be_round_trip by (done || (rewrite <- width_bytes_div in Hp by done; lia)).
  rewrite width_bytes_div by done. by destruct Hw as [->|[->| ->]].
Qed.

(** A write leaves accesses to other addresses alone. *)
Lemma read_other w le a v w2 le2 b m r m' :
  is_width w -> is_width w2 -> flat_ok m ->
  b + w2 / 8 <= a \/ a + w / 8 <= b ->
  flat_write w le a v m = (r, m') ->
  (flat_read w2 le2 b m').1 = (flat_read w2 le2 b m).1.
Proof.
  intros Hw Hw2 Hm Hd E. rewrite flat_write_spec in E by done.
  assert (Hm' : flat_ok m') by (eapply write_at_ok; [apply order_u8, be_bytes_u8|exact Hm|exact E]).
  destruct r as [[]|]; [|by apply write_at_None in E as [_ ->]].
  apply write_at_Some in E as (p & Hp & Hb & Hbase & Hlen).
  rewrite order_length, be_bytes_length, width_bytes_div in Hp by done.
  rewrite !flat_read_spec by done. unfold at_offset. cbn [fst]. rewrite (offset_same b _ m m') by done.
  destruct (offset b (w2 / 8) m) as [q|] eqn:Hq; [|done]. cbn. do 3 f_equal.
  assert (0 <= w / 8 /\ 0 <= w2 / 8) as [Hw0 Hw20].
  { destruct Hw as [->|[->| ->]], Hw2 as [->|[->| ->]]; done. }
  apply offset_Some in Hp as (? & ? & Hpz); [|done]. apply offset_Some in Hq as (? & ? & Hqz); [|done].
  eapply span_inserts_disjoint; [done|exact Hb|].
  rewrite order_length, be_bytes_length. pose proof (width_bytes_div w Hw). pose proof (width_bytes_div w2 Hw2). lia.
Qed.

(** ** The contract *)

(** C28: a value written with any width and byte order is read back, reduced to the
    width, by an access of the same width and byte order. *)
Theorem flat_memory_round_trip w le a v m m' :
  is_width w -> flat_ok m -> 0 <= v -> mp_write w le a v m = (Some tt, m') ->
  (mp_read w le a m').1 = Some (v mod 2 ^ w).
Proof.
  intros Hw Hm Hv E. destruct (read_after_write w le a v m m' Hw Hm Hv E) as [_ Hr].
  change (mp_read w le a m') with (flat_read w le a m'). by rewrite Hr.
Qed.

Lemma flat_memory_round_trip_witness :
  (mp_read 32 true 4 (mp_write 32 true 4 0x112345678 (flat_init 16 0)).2).1 = Some 0x12345678.
Proof.
  apply (flat_memory_round_trip 32 true 4 0x112345678 (flat_init 16 0)).
  - by right; left.
  - repeat constructor; done.
  - done.
  - reflexivity.
Defined.

(** C29: a write, successful or not, changes no access to other addresses, whatever
    the widths and byte orders. *)
Theorem flat_memory_frame w le a v w2 le2 b m :
  is_width w -> is_width w2 -> flat_ok m -> b + w2 / 8 <= a \/ a + w / 8 <= b ->
  (mp_read w2 le2 b (mp_write w le a v m).2).1 = (mp_read w2 le2 b m).1.
Proof.
  intros Hw Hw2 Hm Hd. destruct (mp_write w le a v m) as [r m'] eqn:E.
  exact (read_other w le a v w2 le2 b m r m' Hw Hw2 Hm Hd E).
Qed.

Lemma flat_memory_frame_witness :
  (mp_read 16 false 8 (mp_write 32 true 4 7 (flat_init 16 0)).2).1 = (mp_read 16 false 8 (flat_init 16 0)).1.
Proof.
  apply (flat_memory_frame 32 true 4 7 16 false 8 (flat_init 16 0)).
  - by right; left.
  - by left.
  - repeat constructor; done.
  - right. vm_compute. discriminate.
Defined.

Lemma offset_None a n m :
  offset a n m = None <-> a < fm_base m \/ fm_base m + Z.of_nat (length (fm_bytes m)) < a + n.
Proof.
  unfold offset. destruct (Z.ltb_spec a (fm_base m)); [split; auto|].
  destruct (Z.ltb_spec (fm_base m + Z.of_nat (length (fm_bytes m))) (a + n)); cbn; split; auto;
    [done|lia].
Qed.

Lemma flat_read_at w le a m :
  is_width w -> exists f, flat_read w le a m = at_offset a (w / 8) f m.
Proof. intros [->|[->| ->]]; destruct le; by eexists. Qed.

(** C30: an access throws exactly when part of it lies outside the backing range, and
    neither a read nor an access that throws changes anything. *)
Theorem flat_memory_bounds w le a v m :
  is_width w ->
  let outside := a < fm_base m \/ fm_base m + Z.of_nat (length (fm_bytes m)) < a + w / 8 in
  ((mp_read w le a m).1 = None <-> outside) /\ ((mp_write w le a v m).1 = None <-> outside) /\
  (mp_read w le a m).2 = m /\ (outside -> (mp_write w le a v m).2 = m).
Proof.
  intros Hw outside. change (mp_read w le a m) with (flat_read w le a m).
  change (mp_write w le a v m) with (flat_write w le a v m).
  destruct (flat_read_at w le a m Hw) as [f Hf]. rewrite Hf, flat_write_spec by done.
  unfold write_at, at_offset. rewrite order_length, be_bytes_length, width_bytes_div by done.
  pose proof (offset_None a (w / 8) m) as Hn. fold outside in Hn. cbn [fst snd].
  destruct (offset a (w / 8) m) as [p|]; cbn [fst snd fmap option_fmap option_map].
  - split_and!; [..|done|]; (split; [done|] || idtac); intros Ho; by apply Hn in Ho.
  - split_and!; [..|done|done]; split; try done; intros _; by apply Hn.
Qed.

Lemma flat_memory_bounds_witness :
  (mp_read 32 false 13 (flat_init 16 0)).1 = None /\ (mp_write 64 true 4 1 (flat_init 16 0)).1 <> None.
Proof.
  destruct (flat_memory_bounds 32 false 13 0 (flat_init 16 0) ltac:(right; by left)) as [[_ H] _].
  split; [apply H; right; vm_compute; reflexivity|discriminate].
Defined.
