(* ===== verification/FlatMonitor.v ===== *)
(** * The reservation monitor of [FlatMemory] over sequences of operations *)

From S2P Require Import Prelude.
From S2P Require Import Words.
From S2P Require Import Services.
From S2P Require Import FlatMemory.
From S2P Require Import FlatMemorySpec.

(** The operations another agent may interleave. *)
Inductive MemOp : Type :=
  | ORead (w : Z) (le : bool) (a : GuestAddress)
  | OWrite (a : GuestAddress) (l : list Z)
  | OZeroBlock (a : GuestAddress) (n : Z)
  | OReserve (w : Z) (a : GuestAddress)
  | OStoreConditional (w : Z) (a : GuestAddress) (token v : Z)
  | OCancel (token : Z).

(** The memory after the operation, and whether it stored to memory. *)
Definition op_step (op : MemOp) (m : FlatMemory) : bool * FlatMemory :=
  match op with
  | ORead w le a => (false, (mp_read w le a m).2)
  | OWrite a l => let '(r, m) := write_at a l m in (bool_decide (is_Some r), m)
  | OZeroBlock a n => let '(r, m) := mp_zero_cache_block a n m in (bool_decide (is_Some r), m)
  | OReserve w a => (false, (mp_reserve w a m).2)
  | OStoreConditional w a t v =>
      let '(r, m) := mp_store_conditional w a t v m in (bool_decide (r = Some true), m)
  | OCancel t => (false, mp_cancel_reservation t m)
  end.

Fixpoint run_ops (ops : list MemOp) (m : FlatMemory) : bool * FlatMemory :=
  match ops with
  | [] => (false, m)
  | op :: ops =>
      let '(stored, m) := op_step op m in
      let '(stored', m) := run_ops ops m in (stored || stored', m)
  end.

(** Tokens are handed out in increasing order: [t] is either the token held, or
    never held again. *)
Definition monitor_inv (t : Z) (lost : bool) (m : FlatMemory) : Prop :=
  t < fm_next_token m /\
  (if lost then fm_token m = 0 \/ t < fm_token m else True).

Lemma write_at_monitor a l m r m' :
  write_at a l m = (r, m') ->
  fm_next_token m' = fm_next_token m /\
  (if bool_decide (is_Some r) then fm_token m' = 0 else m' = m).
Proof.
  unfold write_at. destruct (offset _ _ _); intros [= <- <-]; [|done].
  by rewrite bool_decide_true by (by eexists).
Qed.

Lemma take_token_spec next :
  0 < next -> next + 1 < 2 ^ 64 -> take_token next = (next, next + 1).
Proof.
  intros H0 H1. unfold take_token. destruct (Z.eqb_spec next 0); [lia|].
  unfold u64. by rewrite Z.mod_small by (change (2 ^ 64) with 0x10000000000000000 in H1; lia).
Qed.

Lemma sc_write_next (write : GuestAddress -> Z -> FlatMemory -> MemResult FlatMemory unit) bytes a t v m r m' :
  (forall m, exists l, write a v m = write_at a l m) ->
  store_conditional write bytes a t v m = (r, m') ->
  fm_next_token m' = fm_next_token m /\ fm_token m' = 0.
Proof.
  intros Hw. unfold store_conditional. destruct (Hw (clear_monitor m)) as [l Hl]. rewrite Hl.
  destruct (_ && _); [|by intros [= <- <-]].
  destruct (write_at a l (clear_monitor m)) as [r1 m1] eqn:E. intros [= <- <-].
  apply write_at_monitor in E as [Hn Ht]. split; [done|].
  case_bool_decide; [done|]. by rewrite Ht.
Qed.

Lemma sc_monitor w a t v m r m' :
  mp_store_conditional w a t v m = (r, m') ->
  fm_next_token m' = fm_next_token m /\ fm_token m' = 0.
Proof.
  cbn. destruct (w =? 32); intros E; (eapply sc_write_next; [|exact E]); intros m0; by eexists.
Qed.

Lemma mp_reserve_unfold w a m :
  mp_reserve w a m = if w =? 32 then reserve32 a m else reserve64 a m.
Proof. cbn. by destruct (w =? 32). Qed.

Lemma reserve_monitor w a m r m' :
  mp_reserve w a m = (r, m') -> 0 < fm_next_token m -> fm_next_token m + 1 < 2 ^ 64 ->
  match r with
  | Some (t, v) =>
      t = fm_next_token m /\ fm_next_token m' = t + 1 /\ fm_token m' = t /\ fm_address m' = a /\
      fm_width m' = (if w =? 32 then 4 else 8) /\ fm_bytes m' = fm_bytes m /\ fm_base m' = fm_base m
  | None => m' = m
  end.
Proof.
  intros E H0 H1. rewrite mp_reserve_unfold in E.
  destruct (w =? 32); unfold reserve32, reserve64, reserve, read32_be, read64_be, at_offset in E;
    (destruct (offset _ _ _); [|by simplify_eq/=]); cbn [fmap option_fmap option_map] in E;
    rewrite take_token_spec in E by done; by simplify_eq/=.
Qed.

Lemma op_step_inv t op m lost :
  0 < t -> monitor_inv t lost m -> fm_next_token m + 1 < 2 ^ 64 ->
  monitor_inv t (lost || (op_step op m).1) (op_step op m).2 /\
  fm_next_token m <= fm_next_token (op_step op m).2 <= fm_next_token m + 1.
Proof.
  intros Ht [Hn Hl] Hb. destruct op as [w le a|a l|a n|w a|w a t' v|t']; cbn [op_step].
  - assert ((mp_read w le a m).2 = m) as ->.
    { cbn. unfold flat_read. by destruct (w =? 16), (w =? 32), le. }
    cbn. rewrite orb_false_r. split; [by split|lia].
  - destruct (write_at a l m) as [r m'] eqn:E. apply write_at_monitor in E as [Hn' Hw]. cbn.
    unfold monitor_inv. rewrite Hn'. case_bool_decide.
    + rewrite orb_true_r. split; [by auto|lia].
    + subst m'. rewrite orb_false_r. split; [by split|lia].
  - destruct (mp_zero_cache_block a n m) as [r m'] eqn:E. apply write_at_monitor in E as [Hn' Hw]. cbn.
    unfold monitor_inv. rewrite Hn'. case_bool_decide.
    + rewrite orb_true_r. split; [by auto|lia].
    + subst m'. rewrite orb_false_r. split; [by split|lia].
  - destruct (mp_reserve w a m) as [r m'] eqn:E. cbn. rewrite orb_false_r.
    apply reserve_monitor in E; [|lia|lia]. destruct r as [[t' v]|]; [|subst m'; split; [by split|lia]].
    destruct E as (-> & Hn' & Ht' & _). unfold monitor_inv. rewrite Hn', Ht'.
    split; [split; [lia|destruct lost; [right; lia|done]]|lia].
  - destruct (mp_store_conditional w a t' v m) as [r m'] eqn:E. apply sc_monitor in E as [Hn' Ht']. cbn [fst snd].
    unfold monitor_inv. rewrite Hn', Ht'. split; [split; [done|destruct (_ || _); auto]|lia].
  - cbn. unfold cancel_reservation. rewrite orb_false_r. destruct (_ && _); [|split; [by split|lia]].
    unfold monitor_inv, clear_monitor. cbn. split; [split; [done|destruct lost; auto]|lia].
Qed.

Lemma run_ops_inv t ops m lost :
  0 < t -> monitor_inv t lost m -> fm_next_token m + Z.of_nat (length ops) < 2 ^ 64 ->
  monitor_inv t (lost || (run_ops ops m).1) (run_ops ops m).2.
Proof.
  intros Ht. revert m lost. induction ops as [|op ops IH]; intros m lost Hi Hb.
  { cbn. by rewrite orb_false_r. }
  cbn [run_ops length] in *.
  destruct (op_step_inv t op m lost Ht Hi) as [Hi' Hn]; [lia|].
  destruct (op_step op m) as [stored m']. cbn [fst snd] in *.
  specialize (IH m' (lost || stored) Hi' ltac:(lia)). destruct (run_ops ops m') as [stored' m2].
  cbn [fst snd] in *. by rewrite orb_assoc.
Qed.

Lemma sc_success_token w a t v m m' :
  mp_store_conditional w a t v m = (Some true, m') -> t <> 0 /\ fm_token m = t.
Proof.
  cbn. intros E.
  assert (Hgen : forall write bytes, store_conditional write bytes a t v m = (Some true, m') -> t <> 0 /\ fm_token m = t).
  { intros write bytes. unfold store_conditional. destruct (Z.eqb_spec t 0); [by intros [=]|]. cbn [negb andb].
    destruct (Z.eqb_spec t (fm_token m)); [done|by intros [=]]. }
  destruct (w =? 32); by eapply Hgen.
Qed.

(** C14: a store-conditional succeeds only if nothing was stored to the memory since
    its reservation, whatever reads, writes, cache operations, reservations and
    conditional stores were interleaved. *)
Theorem store_conditional_exclusive w a m t x m1 ops m2 w' a' v m3 :
  0 < fm_next_token m -> fm_next_token m + 1 + Z.of_nat (length ops) < 2 ^ 64 ->
  mp_reserve w a m = (Some (t, x), m1) ->
  (run_ops ops m1).2 = m2 -> mp_store_conditional w' a' t v m2 = (Some true, m3) ->
  (run_ops ops m1).1 = false.
Proof.
  intros H0 Hb Er <- Es. apply reserve_monitor in Er as (-> & Hn & Ht & _); [|lia|lia].
  apply sc_success_token in Es as [_ Htok].
  pose proof (run_ops_inv (fm_next_token m) ops m1 false H0) as Hinv.
  destruct Hinv as [_ Hl]; [split; [lia|done]|lia|]. cbn [orb] in Hl.
  destruct (run_ops ops m1).1; [|done]. lia.
Qed.

Lemma store_conditional_exclusive_witness : (run_ops [ORead 32 false 4; OCancel 9] (mp_reserve 32 8 (flat_init 16 0)).2).1 = false.
Proof.
  eapply (store_conditional_exclusive 32 8 (flat_init 16 0) 1 0 _ [ORead 32 false 4; OCancel 9] _ 32 8 7 _).
  - reflexivity.
  - vm_compute. reflexivity.
  - reflexivity.
  - reflexivity.
  - vm_compute. reflexivity.
Defined.

Lemma offset_bytes a n m m' :
  fm_base m' = fm_base m -> fm_bytes m' = fm_bytes m -> offset a n m' = offset a n m.
Proof. intros Hb Hl. apply offset_same; congruence. Qed.

(** Without interference the conditional store succeeds once: it stores the
    value, the reservation read what was there before, and its token is spent. *)
Theorem reserve_then_store w a m t x m1 v :
  w = 32 \/ w = 64 -> flat_ok m -> 0 <= v < 2 ^ w ->
  0 < fm_next_token m -> fm_next_token m + 1 < 2 ^ 64 ->
  mp_reserve w a m = (Some (t, x), m1) ->
  (mp_read w false a m).1 = Some x /\
  exists m2, mp_store_conditional w a t v m1 = (Some true, m2) /\
    (mp_read w false a m2).1 = Some v /\
    forall v', (mp_store_conditional w a t v' m2).1 = Some false.
Proof.
  intros Hw Hm Hv H0 H1 Er. pose proof (reserve_monitor w a m _ m1 Er H0 H1) as
    (Ht & _ & Htok & Haddr & Hwidth & Hbytes & Hbase).
  set (write := if w =? 32 then write32_be else write64_be).
  set (bytes := if w =? 32 then 4 else 8) in *.
  assert (Hread : (mp_read w false a m).1 = Some x /\ is_Some (offset a bytes m)).
  { rewrite mp_reserve_unfold in Er. unfold bytes. destruct Hw as [->| ->]; cbn [Z.eqb Pos.eqb] in *;
      unfold reserve32, reserve64, reserve in Er.
    - change (mp_read 32 false a m) with (read32_be a m). unfold read32_be, at_offset in *.
      destruct (offset a 4 m); [|done]. cbn [fmap option_fmap option_map fst] in *.
      destruct (take_token _). split; [congruence|by eexists].
    - change (mp_read 64 false a m) with (read64_be a m). unfold read64_be, at_offset in *.
      destruct (offset a 8 m); [|done]. cbn [fmap option_fmap option_map fst] in *.
      destruct (take_token _). split; [congruence|by eexists]. }
  destruct Hread as [Hread [p Hp]]. split; [done|].
  assert (Hsc : forall m v, mp_store_conditional w a t v m = store_conditional write bytes a t v m).
  { intros m0 v0. unfold write, bytes. cbn. by destruct (w =? 32). }
  assert (Hwr : write a v = flat_write w false a v).
  { unfold write. by destruct Hw as [->| ->]. }
  assert (Hww : is_width w) by (unfold is_width; intuition).
  assert (Hdiv : w / 8 = bytes) by (unfold bytes; by destruct Hw as [->| ->]).
  assert (Hok1 : flat_ok (clear_monitor m1)) by (unfold flat_ok; cbn; by rewrite Hbytes).
  assert (exists m2, flat_write w false a v (clear_monitor m1) = (Some tt, m2)) as [m2 E2].
  { rewrite flat_write_spec by done. unfold write_at.
    rewrite order_length, be_bytes_length, width_bytes_div, Hdiv by done.
    rewrite (offset_bytes a bytes m) by done. rewrite Hp. by eexists. }
  exists m2. rewrite Hsc. unfold store_conditional at 1. rewrite Htok, Hwidth, Haddr, !Z.eqb_refl.
  destruct (Z.eqb_spec t 0); [lia|]. cbn [negb andb]. rewrite Hwr, E2. split; [done|].
  destruct (read_after_write w false a v _ m2 Hww Hok1 ltac:(lia) E2) as [_ Hr].
  change (mp_read w false a m2) with (flat_read w false a m2). rewrite Hr. cbn [fst].
  rewrite Z.mod_small by done. split; [done|]. intros v'. rewrite Hsc. unfold store_conditional.
  rewrite flat_write_spec in E2 by done. apply write_at_monitor in E2 as [_ Ht2]. cbn in Ht2. rewrite Ht2.
  destruct (Z.eqb_spec t 0); [lia|]. done.
Qed.

Lemma reserve_then_store_witness :
  exists m2, mp_store_conditional 32 8 1 7 (mp_reserve 32 8 (flat_init 16 0)).2 = (Some true, m2) /\
    (mp_read 32 false 8 m2).1 = Some 7.
Proof.
  destruct (reserve_then_store 32 8 (flat_init 16 0) 1 0 (mp_reserve 32 8 (flat_init 16 0)).2 7) as (_ & m2 & E & R & _).
  - by left.
  - repeat constructor; done.
  - lia.
  - done.
  - vm_compute. reflexivity.
  - reflexivity.
  - by exists m2.
Defined.
