(* ===== verification/NullRuntime.v ===== *)
(** * [NullRuntimeServices] over [FlatMemory] (include/xenon/cpu/runtime.hpp)

    The runtime the repository's CPU tests use: calls come back as branches, no
    code is registered, special registers read as zero. It obeys the laws state
    promotion needs, so the optimiser's theorems apply to it. The host's
    floating-point and vector helpers, which the header of this development lists
    as parameters, are instantiated with constant functions. *)

From S2P Require Import Prelude.
From S2P Require Import Words.
From S2P Require Import CpuState.
From S2P Require Import Ir.
From S2P Require Import IrValue.
From S2P Require Import Services.
From S2P Require Import IrSem.
From S2P Require Import PromoteSlots.
From S2P Require Import FlatMemory.

Definition null_call {W} (target : GuestAddress) : Service W :=
  λ s w, (Some (mkResult RBranch target 0), s, w).
Definition null_syscall {W} (level : Z) : Service W :=
  λ s w, (Some (mkResult RSyscall (u32 (cia s + 4)) level), s, w).
Definition null_trap {W} (code : Z) : Service W :=
  λ s w, (Some (mkResult RTrap (cia s) code), s, w).

(** The runtime over any memory; in a context without a registry or a fallback. *)
Definition null_services (W : Type) : RuntimeServices W := {|
  rt_call := null_call;
  rt_syscall := null_syscall;
  rt_trap := null_trap;
  rt_read_spr := λ _ _ w, (0, w);
  rt_write_spr := λ _ _ s w, (s, w);
  rt_read_time_base := λ s w, (time_base s, w);
  rt_poll_safepoint := λ s w, (true, s, w);
  rt_is_recognized_import_thunk := λ _ _, false;
  ctx_compiled_lookup := λ _ _ s w, (None, s, w);
  ctx_lookup_miss := λ _ _ s w, (s, w);
  ctx_dynamic_fallback := λ _ _ s w, (None, s, w)
|}.

#[export] Instance null_runtime : RuntimeServices FlatMemory := null_services FlatMemory.

#[export] Instance null_helpers : HostHelpers FlatMemory := {
  hh_fp := λ _ fpscr w, (0, fpscr, w);
  hh_vector := λ _ _ _ vscr w, (vec_zero, vscr, w);
  hh_float := {| hf_promote := λ x, x; hf_truncate := λ x, x |}
}.

#[export] Instance null_promotion_laws : PromotionLaws FlatMemory.
Proof. by split. Qed.

(** A machine at rest: all registers zero, sixty-four bytes of memory. *)
Definition rest : Machine FlatMemory := mkMachine CpuState_init (flat_init 64 0) None.
