(* ===== verification/Lifter.v ===== *)
(** * The integer lifter (src/cpu/ppc/lifter/integer.cpp, src/cpu/ppc/lifter/lifter.cpp)

    [lift_integer] translates one decoded integer instruction into IR through the
    [Builder], instruction by instruction as the source emits it. It answers
    whether the mnemonic is one of its own. *)

From S2P Require Import Prelude.
From S2P Require Import Words.
From S2P Require Import Instr.
From S2P Require Import Ir.

Open Scope builder_scope.

(** [m == "a" || m == "b" || ...]. *)
Definition one_of (m : string) (names : list string) : bool := existsb (String.eqb m) names.

(** [m.find(s) != npos]. *)
Definition contains (s m : string) : bool :=
  match String.index 0 s m with Some _ => true | None => false end.

Definition emit_void (op : Op.t) (args : list ValueId) (imm0 : Z) : B unit :=
  do! emit op Void args imm0 0 None in bret tt.

Definition emit_binary (op : Op.t) (a c : ValueId) : B ValueId := emit0 op I64 [a; c].

(** [if (c) action]. *)
Definition when (c : bool) (action : B unit) : B unit := if c then action else bret tt.

Definition emit_cr0 (v : ValueId) : B unit :=
  let! zero := constant_i64 0 in
  let! lt := emit0 Op.CompareSlt I1 [v; zero] in
  let! gt := emit0 Op.CompareSgt I1 [v; zero] in
  let! eq := emit0 Op.CompareEq I1 [v; zero] in
  let! so := emit0 Op.ReadXerSO I1 [] in
  emit_void Op.WriteCRCompare [lt; gt; eq; so] 0.

(** OV reflects the operation, SO is sticky. *)
Definition lift_set_xer_overflow (overflow : ValueId) : B unit :=
  let! old_so := emit0 Op.ReadXerSO I1 [] in
  let! new_so := emit0 Op.Or I1 [old_so; overflow] in
  do! emit_void Op.SetXerOV [overflow] 0 in
  emit_void Op.SetXerSO [new_so] 0.

Definition emit_ca_from_add (a sum : ValueId) : B unit :=
  let! carry := emit0 Op.CompareUlt I1 [sum; a] in
  emit_void Op.SetXerCA [carry] 0.

(** The sign bit of [x & y] as the overflow flag. *)
Definition emit_overflow_sign (x y : ValueId) : B unit :=
  let! both := emit_binary Op.And x y in
  let! sign := constant_i64 0x8000000000000000 in
  let! masked := emit_binary Op.And both sign in
  let! zero := constant_i64 0 in
  let! ov := emit0 Op.CompareNe I1 [masked; zero] in
  lift_set_xer_overflow ov.

Definition emit_overflow_add (a c sum : ValueId) : B unit :=
  let! axr := emit_binary Op.Xor a sum in
  let! bxr := emit_binary Op.Xor c sum in
  emit_overflow_sign axr bxr.

Definition emit_overflow_sub (a c result : ValueId) : B unit :=
  let! axc := emit_binary Op.Xor a c in
  let! axr := emit_binary Op.Xor a result in
  emit_overflow_sign axc axr.

Definition read_xer_ca : B ValueId := emit0 Op.ReadXerCA I1 [].

Definition set_ca3 (a c carry : ValueId) : B unit :=
  let! out := emit Op.CarryOut I1 [a; c; carry] 64 0 None in
  emit_void Op.SetXerCA [out] 0.

Definition set_ov3 (a c carry : ValueId) (variant : Z) : B unit :=
  let! out := emit Op.SignedOverflow I1 [a; c; carry] 64 variant None in
  lift_set_xer_overflow out.

(** ** Rotate masks, by architectural bit (bit 0 is the most significant) *)

Definition arch_bits (width : Z) (bits : list Z) : Z :=
  foldl (λ mask p, mask .| (1 .<< (width - 1 - p))) 0 bits.

Definition rotate_mask (width mb me : Z) : Z :=
  if mb <=? me then arch_bits width (seqZ mb (me - mb + 1))
  else arch_bits width (seqZ mb (width - mb) ++ seqZ 0 (me + 1)).

Definition mask64 (mb me : Z) : Z := rotate_mask 64 (mb .& 63) (me .& 63).
Definition mask32 (mb me : Z) : Z := rotate_mask 32 (mb .& 31) (me .& 31).

(** ** The instruction families *)

Section Families.
Context (i : DecodedInstruction).
Abbreviation m := (mnemonic i).

Definition read_ra : B ValueId := read_gpr (ra i).
Definition read_rb : B ValueId := read_gpr (rb i).
Definition write_rt (v : ValueId) : B unit := write_gpr (rt i) v.
Definition simm_u64 : Z := u64 (simm16 i).

(** [if (i.rc()) emit_cr0(b, r)]. *)
Definition record_cr0 (r : ValueId) : B unit := when (rc i) (emit_cr0 r).

Definition lift_addi : B bool :=
  let! a := if negb (ra i =? 0) then read_ra else constant_i64 0 in
  let imm := simm16 i in
  let imm := if String.eqb m "addis" then imm .<< 16 else imm in
  let! c := constant_i64 (u64 imm) in
  let! r := emit_binary Op.Add a c in
  do! write_rt r in bret true.

Definition lift_add : B bool :=
  let! a := read_ra in let! c := read_rb in
  let! r := emit_binary Op.Add a c in
  do! write_rt r in
  do! when (String.eqb m "addcx") (emit_ca_from_add a r) in
  do! when (oe i) (emit_overflow_add a c r) in
  do! record_cr0 r in bret true.

Definition lift_addic : B bool :=
  let! a := read_ra in
  let! c := constant_i64 simm_u64 in
  let! r := emit_binary Op.Add a c in
  do! write_rt r in
  do! emit_ca_from_add a r in
  do! when (String.eqb m "addicx") (emit_cr0 r) in bret true.

(** The middle operand of the carry-extended forms. *)
Definition extended_operand (reg minus_one : string) : B ValueId :=
  if String.eqb m reg then read_rb
  else if String.eqb m minus_one then constant_i64 0xFFFFFFFFFFFFFFFF
  else constant_i64 0.

Definition lift_adde : B bool :=
  let! a := read_ra in let! ca := read_xer_ca in
  let! c := extended_operand "addex" "addmex" in
  let! r := emit Op.AddCarry I64 [a; c; ca] 0 0 (Some i) in
  do! write_rt r in
  do! set_ca3 a c ca in
  do! when (oe i) (set_ov3 a c ca 0) in
  do! record_cr0 r in bret true.

Definition lift_subfe : B bool :=
  let! a := read_ra in
  let! nra := emit0 Op.Not I64 [a] in
  let! ca := read_xer_ca in
  let! lhs := extended_operand "subfex" "subfmex" in
  let! r := emit Op.AddCarry I64 [lhs; nra; ca] 0 0 (Some i) in
  do! write_rt r in
  do! set_ca3 lhs nra ca in
  do! when (oe i) (set_ov3 lhs nra ca 1) in
  do! record_cr0 r in bret true.

(** No borrow iff [a >= c]. *)
Definition emit_ca_from_sub (a c : ValueId) : B unit :=
  let! gt := emit0 Op.CompareUgt I1 [a; c] in
  let! eq := emit0 Op.CompareEq I1 [a; c] in
  let! ca := emit0 Op.Or I1 [gt; eq] in
  emit_void Op.SetXerCA [ca] 0.

Definition lift_subf : B bool :=
  let! a := read_rb in let! c := read_ra in
  let! r := emit_binary Op.Sub a c in
  do! write_rt r in
  do! when (String.eqb m "subfcx") (emit_ca_from_sub a c) in
  do! when (oe i) (emit_overflow_sub a c r) in
  do! record_cr0 r in bret true.

Definition lift_subfic : B bool :=
  let! a := constant_i64 simm_u64 in
  let! c := read_ra in
  let! r := emit_binary Op.Sub a c in
  do! write_rt r in
  do! emit_ca_from_sub a c in bret true.

Definition lift_mulli : B bool :=
  let! a := read_ra in
  let! c := constant_i64 simm_u64 in
  let! r := emit_binary Op.Mul a c in
  do! write_rt r in bret true.

(** [if (word) v = Truncate(v)] and [if (word) r = extend(r)]. *)
Definition narrow (word : bool) (v : ValueId) : B ValueId :=
  if word then emit0 Op.Truncate I32 [v] else bret v.
Definition widen (word : bool) (op : Op.t) (v : ValueId) : B ValueId :=
  if word then emit0 op I64 [v] else bret v.
Definition word_type (word : bool) : IrType := if word then I32 else I64.
Definition word_bits (word : bool) : Z := if word then 32 else 64.

Definition lift_mul : B bool :=
  let word := String.eqb m "mullwx" in
  let! a := read_ra in let! c := read_rb in
  let! a := narrow word a in let! c := narrow word c in
  let! r := emit Op.Mul (word_type word) [a; c] 0 0 (Some i) in
  let! r := widen word Op.SignExtend r in
  do! write_rt r in
  do! when (oe i)
    (let! ov := emit Op.MulOverflowSigned I1 [a; c] (word_bits word) 0 (Some i) in
     lift_set_xer_overflow ov) in
  do! record_cr0 r in bret true.

Definition lift_mulh : B bool :=
  let word := contains "hw" m in
  let uns := contains "hdu" m || contains "hwu" m in
  let! a := read_ra in let! c := read_rb in
  let! a := narrow word a in let! c := narrow word c in
  let! r := emit (if uns then Op.MulHighUnsigned else Op.MulHighSigned) (word_type word) [a; c]
              0 0 (Some i) in
  let! r := widen word (if uns then Op.ZeroExtend else Op.SignExtend) r in
  do! write_rt r in
  do! record_cr0 r in bret true.

Definition lift_div : B bool :=
  let word := contains "w" m in
  let uns := contains "du" m || contains "wu" m in
  let! a := read_ra in let! c := read_rb in
  let! a := narrow word a in let! c := narrow word c in
  let! r := emit (if uns then Op.DivUnsigned else Op.DivSigned) (word_type word) [a; c]
              (word_bits word) (Z.b2z (oe i)) (Some i) in
  let! r := widen word (if uns then Op.ZeroExtend else Op.SignExtend) r in
  do! write_rt r in
  do! when (oe i)
    (let! ov := emit Op.DivOverflow I1 [a; c] (word_bits word) (Z.b2z uns) (Some i) in
     lift_set_xer_overflow ov) in
  do! record_cr0 r in bret true.

Definition lift_neg : B bool :=
  let! a := read_ra in
  let! r := emit0 Op.Neg I64 [a] in
  do! write_rt r in
  do! when (oe i)
    (let! minv := constant_i64 0x8000000000000000 in
     let! ov := emit0 Op.CompareEq I1 [a; minv] in
     lift_set_xer_overflow ov) in
  do! record_cr0 r in bret true.

Definition lift_logical : B bool :=
  let! a := read_gpr (rs i) in let! c := read_rb in
  let complement v := emit0 Op.Not I64 [v] in
  let! r :=
    if String.eqb m "andx" then emit_binary Op.And a c
    else if String.eqb m "andcx" then let! nc := complement c in emit_binary Op.And a nc
    else if String.eqb m "orx" then emit_binary Op.Or a c
    else if String.eqb m "orcx" then let! nc := complement c in emit_binary Op.Or a nc
    else if String.eqb m "xorx" then emit_binary Op.Xor a c
    else if String.eqb m "eqvx" then let! x := emit_binary Op.Xor a c in complement x
    else if String.eqb m "nandx" then let! x := emit_binary Op.And a c in complement x
    else let! x := emit_binary Op.Or a c in complement x in
  do! write_gpr (ra i) r in
  do! record_cr0 r in bret true.

Definition lift_logical_immediate : B bool :=
  let! a := read_gpr (rs i) in
  let imm := uimm16 i in
  let imm := if one_of m ["oris"; "xoris"; "andisx"] then imm .<< 16 else imm in
  let! c := constant_i64 imm in
  let op := if one_of m ["ori"; "oris"] then Op.Or
            else if one_of m ["xori"; "xoris"] then Op.Xor else Op.And in
  let! r := emit_binary op a c in
  do! write_gpr (ra i) r in
  do! when (one_of m ["andix"; "andisx"]) (emit_cr0 r) in bret true.

Definition lift_extend : B bool :=
  let! a := read_gpr (rs i) in
  let! narrowed := emit0 Op.Truncate
    (if String.eqb m "extsbx" then I8 else if String.eqb m "extshx" then I16 else I32) [a] in
  let! r := emit0 Op.SignExtend I64 [narrowed] in
  do! write_gpr (ra i) r in
  do! record_cr0 r in bret true.

Definition lift_count_zeros : B bool :=
  let! src := read_gpr (rs i) in
  let word := String.eqb m "cntlzwx" in
  let! src := narrow word src in
  let! r := emit Op.CountLeadingZeros (word_type word) [src] 0 0 (Some i) in
  let! r := widen word Op.ZeroExtend r in
  do! write_gpr (ra i) r in
  do! record_cr0 r in bret true.

Definition lift_compare : B bool :=
  let logical := one_of m ["cmpl"; "cmpli"] in
  let is_imm := one_of m ["cmpi"; "cmpli"] in
  let word := (di_word i .>> 21) .& 1 =? 0 in
  let! a := read_ra in
  let! c := if is_imm then constant_i64 (if logical then uimm16 i else simm_u64) else read_rb in
  let! a := narrow word a in let! c := narrow word c in
  let! lt := emit0 (if logical then Op.CompareUlt else Op.CompareSlt) I1 [a; c] in
  let! gt := emit0 (if logical then Op.CompareUgt else Op.CompareSgt) I1 [a; c] in
  let! eq := emit0 Op.CompareEq I1 [a; c] in
  let! so := emit0 Op.ReadXerSO I1 [] in
  do! emit_void Op.WriteCRCompare [lt; gt; eq; so] (crfd i) in bret true.

Definition lift_rlw : B bool :=
  let! src64 := read_gpr (rs i) in
  let! src := emit0 Op.Truncate I32 [src64] in
  let! shift :=
    if String.eqb m "rlwnmx" then let! rb := read_rb in emit0 Op.Truncate I32 [rb]
    else constant_i64 (sh32 i) in
  let! rot := emit0 Op.Rotl I32 [src; shift] in
  let! mask := constant_i64 (mask32 (mb32 i) (me32 i)) in
  let! selected := emit0 Op.And I32 [rot; mask] in
  let! result :=
    if String.eqb m "rlwimix" then
      let! old64 := read_gpr (ra i) in
      let! old := emit0 Op.Truncate I32 [old64] in
      let! invmask := constant_i64 (not64 (mask32 (mb32 i) (me32 i)) .& 0xFFFFFFFF) in
      let! kept := emit0 Op.And I32 [old; invmask] in
      emit0 Op.Or I32 [kept; selected]
    else bret selected in
  let! wide := emit0 Op.ZeroExtend I64 [result] in
  do! write_gpr (ra i) wide in
  do! record_cr0 wide in bret true.

Definition lift_rldc : B bool :=
  let! src := read_gpr (rs i) in let! rb := read_rb in
  let! sixty3 := constant_i64 63 in
  let! sh := emit0 Op.And I64 [rb; sixty3] in
  let! rot := emit0 Op.Rotl I64 [src; sh] in
  let field := mb64_md i in
  let! mask := constant_i64 (if String.eqb m "rldclx" then mask64 field 63 else mask64 0 field) in
  let! r := emit0 Op.And I64 [rot; mask] in
  do! write_gpr (ra i) r in
  do! record_cr0 r in bret true.

Definition rld_range : Z * Z :=
  let field := mb64_md i in
  if String.eqb m "rldicrx" then (0, field)
  else if one_of m ["rldicx"; "rldimix"] then (field, u32 (63 - sh64_md i))
  else (field, 63).

Definition lift_rld : B bool :=
  let! src := read_gpr (rs i) in
  let! sh := constant_i64 (sh64_md i) in
  let! rot := emit0 Op.Rotl I64 [src; sh] in
  let '(mb, me) := rld_range in
  let! mask := constant_i64 (mask64 mb me) in
  let! selected := emit0 Op.And I64 [rot; mask] in
  let! result :=
    if String.eqb m "rldimix" then
      let! old := read_gpr (ra i) in
      let! inv := constant_i64 (not64 (mask64 mb me)) in
      let! kept := emit0 Op.And I64 [old; inv] in
      emit0 Op.Or I64 [kept; selected]
    else bret selected in
  do! write_gpr (ra i) result in
  do! record_cr0 result in bret true.

Definition lift_sync : B bool :=
  let l := (di_word i .>> 21) .& 3 in
  let kind := if String.eqb m "sync" then (if l =? 1 then 2 else 1)
              else if String.eqb m "eieio" then 3 else 4 in
  do! emit Op.Barrier Void [] kind l (Some i) in bret true.

(** [i.info->pattern]; an instruction that reaches the lifter has an [info]. *)
Definition info_pattern : Z := match di_info i with Some info => oi_pattern info | None => 0 end.

Definition lift_shift : B bool :=
  let! src := read_gpr (rs i) in
  let! sh :=
    if String.eqb m "srawix" then constant_i64 (rb i)
    else if String.eqb m "sradix" then constant_i64 (sh64_md i)
    else read_rb in
  let! r := emit Op.PpcShift I64 [src; sh] info_pattern (di_word i) (Some i) in
  do! write_gpr (ra i) r in
  do! when (String.prefix "sra" m)
    (let! ca := emit Op.PpcShiftCarry I1 [src; sh] info_pattern (di_word i) (Some i) in
     emit_void Op.SetXerCA [ca] 0) in
  do! record_cr0 r in bret true.

Definition lift_integer : B bool :=
  if one_of m ["addi"; "addis"] then lift_addi
  else if one_of m ["addx"; "addcx"] then lift_add
  else if one_of m ["addic"; "addicx"] then lift_addic
  else if one_of m ["addex"; "addmex"; "addzex"] then lift_adde
  else if one_of m ["subfex"; "subfmex"; "subfzex"] then lift_subfe
  else if one_of m ["subfx"; "subfcx"] then lift_subf
  else if one_of m ["subficx"] then lift_subfic
  else if one_of m ["mulli"] then lift_mulli
  else if one_of m ["mulldx"; "mullwx"] then lift_mul
  else if one_of m ["mulhdx"; "mulhdux"; "mulhwx"; "mulhwux"] then lift_mulh
  else if one_of m ["divdx"; "divdux"; "divwx"; "divwux"] then lift_div
  else if one_of m ["negx"] then lift_neg
  else if one_of m ["andx"; "andcx"; "orx"; "orcx"; "xorx"; "eqvx"; "nandx"; "norx"]
  then lift_logical
  else if one_of m ["ori"; "oris"; "xori"; "xoris"; "andix"; "andisx"]
  then lift_logical_immediate
  else if one_of m ["extsbx"; "extshx"; "extswx"] then lift_extend
  else if one_of m ["cntlzdx"; "cntlzwx"] then lift_count_zeros
  else if one_of m ["cmp"; "cmpl"; "cmpi"; "cmpli"] then lift_compare
  else if one_of m ["rlwinmx"; "rlwimix"; "rlwnmx"] then lift_rlw
  else if one_of m ["rldclx"; "rldcrx"] then lift_rldc
  else if one_of m ["rldiclx"; "rldicrx"; "rldicx"; "rldimix"] then lift_rld
  else if one_of m ["sync"; "eieio"; "isync"] then lift_sync
  else if one_of m ["slwx"; "srwx"; "srawx"; "srawix"; "sldx"; "srdx"; "sradx"; "sradix"]
  then lift_shift
  else bret false.
End Families.

(** ** Mnemonic lists *)

Lemma one_of_elem m l : one_of m l = true -> m ∈ l.
Proof.
  unfold one_of. rewrite existsb_exists. intros (x & Hx & ->%String.eqb_eq). by apply list_elem_of_In.
Qed.
