(* ===== verification/Fallback.v ===== *)
(** * The dynamic fallback interpreter: integer instructions
    (src/cpu/codegen/fallback/interpreter/integer.cpp,
    src/cpu/codegen/fallback/fallback_interpreter.hpp)

    [execute_integer] executes one decoded instruction directly on the CPU state.
    It answers whether the mnemonic is one of its own. *)

From S2P Require Import Prelude.
From S2P Require Import Words.
From S2P Require Import Instr.
From S2P Require Import CpuState.
From S2P Require Import AotScalar.
From S2P Require Import Lifter.

(** fallback_interpreter.hpp *)
Definition write_compare (field lhs rhs : Z) (logical word : bool) (s : CpuState) : CpuState :=
  let '(lt, gt) :=
    if word then
      if logical then (u32 lhs <? u32 rhs, u32 rhs <? u32 lhs)
      else (s32 lhs <? s32 rhs, s32 rhs <? s32 lhs)
    else if logical then (lhs <? rhs, rhs <? lhs)
    else (s64 lhs <? s64 rhs, s64 rhs <? s64 lhs) in
  let nibble := (if lt : bool then 0x8 else if gt : bool then 0x4 else 0x2)
                .| (if xer_so s then 0x1 else 0) in
  set_cr_field field nibble s.

Section Interpreter.
Context (i : DecodedInstruction).
Abbreviation m := (mnemonic i).

(** [if (i.rc()) state.update_cr0_signed(value)]. *)
Definition record (value : Z) (s : CpuState) : CpuState :=
  if rc i then update_cr0_signed value s else s.
Definition overflow (ov : bool) (s : CpuState) : CpuState :=
  if oe i then set_xer_overflow ov s else s.

Definition execute_addi (s : CpuState) : CpuState :=
  let base := if negb (ra i =? 0) then get_gpr s (ra i) else 0 in
  let imm := simm16 i in
  let imm := if String.eqb m "addis" then imm .<< 16 else imm in
  set_gpr (rt i) (u64 (base + u64 imm)) s.

Definition execute_addic (s : CpuState) : CpuState :=
  let a := get_gpr s (ra i) in
  let c := u64 (simm16 i) in
  let value := u64 (a + c) in
  let s := set_gpr (rt i) value s in
  let s := set_xer_ca (value <? a) s in
  if String.eqb m "addicx" then update_cr0_signed value s else s.

Definition execute_logical_immediate (s : CpuState) : CpuState :=
  let imm := uimm16 i in
  let imm := if one_of m ["oris"; "xoris"; "andisx"] then imm .<< 16 else imm in
  let src := get_gpr s (rs i) in
  let value := if one_of m ["ori"; "oris"] then src .| imm
               else if one_of m ["xori"; "xoris"] then src .^ imm else src .& imm in
  let s := set_gpr (ra i) value s in
  if one_of m ["andix"; "andisx"] then update_cr0_signed value s else s.

Definition execute_add_subf (s : CpuState) : CpuState :=
  let a := get_gpr s (ra i) in
  let b := get_gpr s (rb i) in
  let value := if String.eqb m "addx" then u64 (a + b) else u64 (b - a) in
  let s := set_gpr (rt i) value s in
  let s := overflow (if String.eqb m "addx" then signed_add_overflow a b false
                     else signed_add_overflow b (not64 a) true) s in
  record value s.

Definition execute_add_carry (s : CpuState) : CpuState :=
  let a := get_gpr s (ra i) in
  let extended := negb (String.eqb m "addcx") in
  let carry_in := extended && xer_ca s in
  let b := if one_of m ["addcx"; "addex"] then get_gpr s (rb i)
           else if String.eqb m "addmex" then 0xFFFFFFFFFFFFFFFF else 0 in
  let value := add_carry a b carry_in in
  let s := set_gpr (rt i) value s in
  let s := set_xer_ca (carry_out a b carry_in) s in
  let s := overflow (signed_add_overflow a b carry_in) s in
  record value s.

Definition execute_subfc (s : CpuState) : CpuState :=
  let ra_v := get_gpr s (ra i) in
  let rb_v := get_gpr s (rb i) in
  let value := u64 (rb_v - ra_v) in
  let s := set_gpr (rt i) value s in
  let s := set_xer_ca (ra_v <=? rb_v) s in
  let s := overflow (signed_add_overflow rb_v (not64 ra_v) true) s in
  record value s.

Definition execute_subfe (s : CpuState) : CpuState :=
  let not_ra := not64 (get_gpr s (ra i)) in
  let carry_in := xer_ca s in
  let lhs := if String.eqb m "subfex" then get_gpr s (rb i)
             else if String.eqb m "subfmex" then 0xFFFFFFFFFFFFFFFF else 0 in
  let value := add_carry lhs not_ra carry_in in
  let s := set_gpr (rt i) value s in
  let s := set_xer_ca (carry_out lhs not_ra carry_in) s in
  let s := overflow (signed_add_overflow lhs not_ra carry_in) s in
  record value s.

Definition execute_subfic (s : CpuState) : CpuState :=
  let imm := u64 (simm16 i) in
  let ra_v := get_gpr s (ra i) in
  set_xer_ca (ra_v <=? imm) (set_gpr (rt i) (u64 (imm - ra_v)) s).

Definition execute_logical (s : CpuState) : CpuState :=
  let a := get_gpr s (rs i) in
  let b := get_gpr s (rb i) in
  let value :=
    if String.eqb m "andx" then a .& b
    else if String.eqb m "andcx" then a .& not64 b
    else if String.eqb m "orx" then a .| b
    else if String.eqb m "orcx" then a .| not64 b
    else if String.eqb m "xorx" then a .^ b
    else if String.eqb m "eqvx" then not64 (a .^ b)
    else if String.eqb m "nandx" then not64 (a .& b)
    else not64 (a .| b) in
  record value (set_gpr (ra i) value s).

Definition execute_neg (s : CpuState) : CpuState :=
  let value := u64 (0 - get_gpr s (ra i)) in
  record value (set_gpr (rt i) value s).

Definition execute_mulli (s : CpuState) : CpuState :=
  set_gpr (rt i) (u64 (get_gpr s (ra i) * u64 (simm16 i))) s.

(** [static_cast<std::uint64_t>(static_cast<std::int64_t>(static_cast<std::int32_t>(v)))]. *)
Definition sign_extend_word (v : Z) : Z := u64 (s32 v).

Definition execute_mul (s : CpuState) : CpuState :=
  let word := String.eqb m "mullwx" in
  let cut v := if word then u32 v else v in
  let value := u64 (cut (get_gpr s (ra i)) * cut (get_gpr s (rb i))) in
  let value := if word then sign_extend_word value else value in
  record value (set_gpr (rt i) value s).

(** The word results of the multiply-high and divide families. *)
Definition word_result (word uns : bool) (value : Z) : Z :=
  if word then if uns then u32 value else sign_extend_word value else value.

Definition execute_mulh (s : CpuState) : CpuState :=
  let word := one_of m ["mulhwx"; "mulhwux"] in
  let uns := one_of m ["mulhdux"; "mulhwux"] in
  let a := get_gpr s (ra i) in
  let c := get_gpr s (rb i) in
  let width := if word then 32 else 64 in
  let value := if uns then mul_hi_unsigned_width a c width else mul_hi_signed_width a c width in
  let value := word_result word uns value in
  record value (set_gpr (rt i) value s).

Definition execute_div (s : CpuState) : CpuState :=
  let word := one_of m ["divwx"; "divwux"] in
  let uns := one_of m ["divdux"; "divwux"] in
  let a := get_gpr s (ra i) in
  let c := get_gpr s (rb i) in
  let width := if word then 32 else 64 in
  let value := if uns then div_unsigned a c width else div_signed a c width in
  let value := word_result word uns value in
  record value (set_gpr (rt i) value s).

Definition execute_extend (s : CpuState) : CpuState :=
  let src := get_gpr s (rs i) in
  let value := if String.eqb m "extsbx" then u64 (s8 src)
               else if String.eqb m "extshx" then u64 (s16 src) else u64 (s32 src) in
  record value (set_gpr (ra i) value s).

Definition execute_compare (s : CpuState) : CpuState :=
  let logical := one_of m ["cmpl"; "cmpli"] in
  let immediate := one_of m ["cmpi"; "cmpli"] in
  let word := (di_word i .>> 21) .& 1 =? 0 in
  let rhs := if immediate then if logical then uimm16 i else u64 (simm16 i)
             else get_gpr s (rb i) in
  write_compare (crfd i) (get_gpr s (ra i)) rhs logical word s.

Definition execute_rlw (s : CpuState) : CpuState :=
  let src := u32 (get_gpr s (rs i)) in
  let shift := if String.eqb m "rlwnmx" then get_gpr s (rb i) .& 31 else sh32 i in
  let rotated := rotl 32 src shift in
  let mask := mask32 (mb32 i) (me32 i) in
  let result := rotated .& mask in
  let result := if String.eqb m "rlwimix"
                then (u32 (get_gpr s (ra i)) .& not32 mask) .| result else result in
  record result (set_gpr (ra i) result s).

Definition execute_rld (s : CpuState) : CpuState :=
  let by_register := one_of m ["rldclx"; "rldcrx"] in
  let shift := if by_register then get_gpr s (rb i) .& 63 else sh64_md i in
  let rotated := rotl 64 (get_gpr s (rs i)) shift in
  let field := mb64_md i in
  let '(mb, me) :=
    if one_of m ["rldicrx"; "rldcrx"] then (0, field)
    else if one_of m ["rldicx"; "rldimix"] then (field, u32 (63 - shift))
    else (field, 63) in
  let mask := mask64 mb me in
  let result := rotated .& mask in
  let result := if String.eqb m "rldimix"
                then (get_gpr s (ra i) .& not64 mask) .| result else result in
  record result (set_gpr (ra i) result s).

(** The carry is computed after the result is stored, from the registers. *)
Definition execute_shift (s : CpuState) : CpuState :=
  let value := ppc_shift m (get_gpr s (rs i)) (get_gpr s (rb i)) in
  let s := set_gpr (ra i) value s in
  let s := if one_of m ["srawx"; "sradx"]
           then set_xer_ca (ppc_shift_carry m (get_gpr s (rs i)) (get_gpr s (rb i))) s else s in
  record value s.

Definition execute_shift_immediate (s : CpuState) : CpuState :=
  let shift := if String.eqb m "srawix" then sh32 i else sh64_md i in
  let value := ppc_shift m (get_gpr s (rs i)) shift in
  let s := set_gpr (ra i) value s in
  let s := set_xer_ca (ppc_shift_carry m (get_gpr s (rs i)) shift) s in
  record value s.

Definition execute_count_zeros (s : CpuState) : CpuState :=
  let src := get_gpr s (rs i) in
  let value := if String.eqb m "cntlzwx" then countl_zero 32 (u32 src) else countl_zero 64 src in
  record value (set_gpr (ra i) value s).

Definition execute_integer (s : CpuState) : bool * CpuState :=
  if one_of m ["addi"; "addis"] then (true, execute_addi s)
  else if one_of m ["addic"; "addicx"] then (true, execute_addic s)
  else if one_of m ["ori"; "oris"; "xori"; "xoris"; "andix"; "andisx"]
  then (true, execute_logical_immediate s)
  else if one_of m ["addx"; "subfx"] then (true, execute_add_subf s)
  else if one_of m ["addcx"; "addex"; "addmex"; "addzex"] then (true, execute_add_carry s)
  else if one_of m ["subfcx"] then (true, execute_subfc s)
  else if one_of m ["subfex"; "subfmex"; "subfzex"] then (true, execute_subfe s)
  else if one_of m ["subficx"] then (true, execute_subfic s)
  else if one_of m ["andx"; "andcx"; "orx"; "orcx"; "xorx"; "eqvx"; "nandx"; "norx"]
  then (true, execute_logical s)
  else if one_of m ["negx"] then (true, execute_neg s)
  else if one_of m ["mulli"] then (true, execute_mulli s)
  else if one_of m ["mulldx"; "mullwx"] then (true, execute_mul s)
  else if one_of m ["mulhdx"; "mulhdux"; "mulhwx"; "mulhwux"] then (true, execute_mulh s)
  else if one_of m ["divdx"; "divdux"; "divwx"; "divwux"] then (true, execute_div s)
  else if one_of m ["extsbx"; "extshx"; "extswx"] then (true, execute_extend s)
  else if one_of m ["cmp"; "cmpl"; "cmpi"; "cmpli"] then (true, execute_compare s)
  else if one_of m ["rlwinmx"; "rlwimix"; "rlwnmx"] then (true, execute_rlw s)
  else if one_of m ["rldiclx"; "rldicrx"; "rldicx"; "rldimix"; "rldclx"; "rldcrx"]
  then (true, execute_rld s)
  else if one_of m ["slwx"; "srwx"; "srawx"; "sldx"; "srdx"; "sradx"] then (true, execute_shift s)
  else if one_of m ["srawix"; "sradix"] then (true, execute_shift_immediate s)
  else if one_of m ["cntlzwx"; "cntlzdx"] then (true, execute_count_zeros s)
  else (false, s).
End Interpreter.
