(* ===== verification/LiftWp.v ===== *)
(** * Reasoning about builder programs by what the emitted code does

    [wp c Q st e s]: the builder program [c], started in [st], appends code that,
    run in [Lifted] mode on the variables [e] and the CPU state [s], falls through
    into a state that satisfies [Q]; and the appended code keeps the block
    well formed. The rules mirror the builder monad: one for [bret], one for
    [bbind] and one per kind of emitted instruction. *)

From S2P Require Import Prelude.
From S2P Require Import Words.
From S2P Require Import Instr.
From S2P Require Import CpuState.
From S2P Require Import Ir.
From S2P Require Import IrValue.
From S2P Require Import Services.
From S2P Require Import IrSem.
From S2P Require Import IrRefine.
From S2P Require Import PassSim.
From S2P Require Import AotScalar.
From S2P Require Import Lifter.

(** The bound of [next_id] after a list of instructions. *)
Definition last_id (n : Z) (l : list Instruction) : Z := foldl next_id n l.

Lemma ssa_app n l1 l2 : ssa n (l1 ++ l2) = ssa n l1 && ssa (last_id n l1) l2.
Proof.
  revert n. induction l1 as [|i l1 IH]; intros n; [done|]. cbn. by rewrite IH, andb_assoc.
Qed.

Section Wp.
Context {W : Type} `{MemoryPort W, RuntimeServices W, HostHelpers W}.
Context (fuel : nat) (w : W) (g : option GuestAddress).

Abbreviation machine s := (mkMachine s w g).

(** The code [l] appended between the value counters [n] and [n']. *)
Record appended (n n' : Z) (l : list Instruction) (e e' : Env) (s s' : CpuState) : Prop := {
  ap_exec : exec_list fuel Lifted l e (machine s) = Some (Continue e' (machine s'));
  ap_ssa : ssa n l = true;
  ap_last : last_id n l <= n';
  ap_wf : Forall (λ i, inst_wf i = true) l;
  ap_quiet : Forall (λ i, pc_boundary (i_op i) = false) l;
  ap_grow : e ⊆ e'
}.

Definition wp {A} (c : B A) (Q : A -> Builder -> Env -> CpuState -> Prop)
    (st : Builder) (e : Env) (s : CpuState) : Prop :=
  exists a st' l e' s',
    c st = Some (a, st') /\ bl_instructions st' = bl_instructions st ++ l /\
    bl_current_guest st' = bl_current_guest st /\
    appended (bl_next_value st) (bl_next_value st') l e e' s s' /\ Q a st' e' s'.

(** What every rule keeps: variables below the counter, room for more values. *)
Record ready (k : Z) (st : Builder) (e : Env) : Prop := {
  rd_env : env_ok (bl_next_value st) e;
  rd_low : 0 <= bl_next_value st;
  rd_room : bl_next_value st + k <= kNoValue
}.

Lemma ready_weaken k k' st e : k' <= k -> ready k st e -> ready k' st e.
Proof. intros Hk [He Hl Hr]. split; [done|done|lia]. Qed.

(** [st'], [e'] come after [st], [e] with at most [d] new values. *)
Definition after (d : Z) (st : Builder) (e : Env) (st' : Builder) (e' : Env) : Prop :=
  (forall k, ready (k + d) st e -> ready k st' e') /\ e ⊆ e'.

Lemma after_refl st e : after 0 st e st e.
Proof. split; [|done]. intros k. by rewrite Z.add_0_r. Qed.

Lemma after_trans d1 d2 st1 e1 st2 e2 st3 e3 :
  after d1 st1 e1 st2 e2 -> after d2 st2 e2 st3 e3 -> after (d1 + d2) st1 e1 st3 e3.
Proof.
  intros [R1 S1] [R2 S2]. split; [|by etrans]. intros k Hk. apply R2, R1.
  by replace (k + d2 + d1) with (k + (d1 + d2)) by lia.
Qed.

Lemma after_weaken d d' st e st' e' : d <= d' -> after d st e st' e' -> after d' st e st' e'.
Proof.
  intros Hd [Hr Hs]. split; [|done]. intros k Hk. apply Hr. eapply ready_weaken; [|exact Hk]. lia.
Qed.

Lemma after_ready k d st e st' e' : after d st e st' e' -> ready (k + d) st e -> ready k st' e'.
Proof. intros [Hr _]. apply Hr. Qed.

Lemma after_lookup d st e st' e' x v :
  after d st e st' e' -> e !! x = Some v -> e' !! x = Some v.
Proof. intros [_ Hs] Hx. by eapply lookup_weaken. Qed.

Lemma ready_fresh k st e : ready k st e -> e !! bl_next_value st = None.
Proof.
  intros [He _ _]. destruct (e !! bl_next_value st) eqn:E; [|done]. destruct (He _ _ E). lia.
Qed.

Lemma appended_nil n e s : appended n n [] e e s s.
Proof. by split. Qed.

Lemma appended_app n1 n2 n3 l1 l2 e1 e2 e3 s1 s2 s3 :
  appended n1 n2 l1 e1 e2 s1 s2 -> appended n2 n3 l2 e2 e3 s2 s3 ->
  appended n1 n3 (l1 ++ l2) e1 e3 s1 s3.
Proof.
  intros [E1 S1 L1 W1 P1 G1] [E2 S2 L2 W2 P2 G2].
  assert (Hmono : forall l a b, a <= b -> last_id a l <= last_id b l).
  { induction l as [|i l IH]; intros a b Hab; [done|]. apply IH. by apply next_id_mono. }
  split.
  - rewrite exec_list_app, E1. done.
  - rewrite ssa_app, S1. cbn. by eapply ssa_mono.
  - unfold last_id. rewrite foldl_app. etrans; [by apply Hmono|done].
  - by apply Forall_app.
  - by apply Forall_app.
  - by etrans.
Qed.

Lemma wp_bret {A} (a : A) Q st e s : Q a st e s -> wp (bret a) Q st e s.
Proof.
  intros HQ. exists a, st, [], e, s. rewrite app_nil_r. by split_and!.
Qed.

Lemma wp_bind {A C} (c : B A) (k : A -> B C) Q st e s :
  wp c (λ a st' e' s', wp (k a) Q st' e' s') st e s -> wp (bbind c k) Q st e s.
Proof.
  intros (a & st1 & l1 & e1 & s1 & E1 & I1 & G1 & A1 & b & st2 & l2 & e2 & s2 & E2 & I2 & G2 & A2 & HQ).
  exists b, st2, (l1 ++ l2), e2, s2. split_and!.
  - unfold bbind. by rewrite E1.
  - by rewrite I2, I1, app_assoc.
  - congruence.
  - by eapply appended_app.
  - done.
Qed.

Lemma wp_mono {A} (c : B A) (P Q : A -> Builder -> Env -> CpuState -> Prop) st e s :
  (forall a st' e' s', P a st' e' s' -> Q a st' e' s') -> wp c P st e s -> wp c Q st e s.
Proof. intros Himp (a & st' & l & e' & s' & ?). exists a, st', l, e', s'. naive_solver. Qed.

(** ** Emitted instructions *)

(** The guest origin an emitted instruction is tagged with. *)
Definition origin (guest : option DecodedInstruction) (st : Builder) : GuestAddress * Z * OpcodeId :=
  match (match guest with Some x => Some x | None => bl_current_guest st end) with
  | Some x => (di_address x, di_word x, opcode_id x)
  | None => (0, 0, kInvalidOpcodeId)
  end.

Definition tagged (guest : option DecodedInstruction) (st : Builder) (op : Op.t) (type : IrType)
    (result : Z) (args : list Z) (imm0 imm1 : Z) : Instruction :=
  mkInstr op type result args imm0 imm1 (origin guest st).1.1 (origin guest st).1.2 (origin guest st).2.

Lemma emit_tagged op type args imm0 imm1 guest st :
  (length args <= 4)%nat ->
  emit op type args imm0 imm1 guest st =
    let void := bool_decide (type = Void) in
    let result := if void then kNoValue else bl_next_value st in
    Some (result, mkBuilder (bl_instructions st ++ [tagged guest st op type result args imm0 imm1])
      (if void then bl_next_value st else u32 (bl_next_value st + 1)) (bl_current_guest st)).
Proof.
  intros Hl. unfold emit, operands_assign, kCapacity.
  destruct (Nat.ltb_spec 4 (length args)); [lia|].
  unfold tagged, origin. destruct guest as [x|], (bl_current_guest st) as [y|];
    destruct type; reflexivity.
Qed.

Lemma lookups_below n (e : Env) args vs :
  env_ok n e -> mapM (e !!.) args = Some vs -> Forall (λ a, 0 <= a < n) args.
Proof.
  intros He Hm. apply mapM_Some in Hm. induction Hm as [|a v args vs Ha _ IH]; constructor; [|done].
  by destruct (He _ _ Ha).
Qed.

(** One instruction that stays quiet about CIA and runs without the world. *)
Lemma exec_quiet i e s vs v s' e' :
  pc_boundary (i_op i) = false -> mapM (e !!.) (i_args i) = Some vs ->
  exec_inst fuel Lifted i vs s w = Some (Next v s' w) -> bind_result i v e = Some e' ->
  exec_one fuel Lifted i e (machine s) = Some (Continue e' (machine s')).
Proof.
  intros Hp Ha Hx Hb. unfold exec_one, emit_guest_pc. rewrite Ha, Hp, andb_false_r. cbn [mbind option_bind andb m_cpu m_world m_materialized].
  rewrite Hx. cbn. by rewrite Hb.
Qed.

Lemma appended_one n n' i e s vs v s' e' :
  0 <= n -> env_ok n e ->
  pc_boundary (i_op i) = false -> mapM (e !!.) (i_args i) = Some vs ->
  exec_inst fuel Lifted i vs s w = Some (Next v s' w) -> bind_result i v e = Some e' ->
  inst_ok n i = true -> next_id n i <= n' -> inst_wf i = true -> e ⊆ e' ->
  appended n n' [i] e e' s s'.
Proof.
  intros Hn He Hp Ha Hx Hb Hi Hid Hw Hg. split; [|cbn; by rewrite Hi|done|by constructor|by constructor|done].
  rewrite exec_list_one. by eapply exec_quiet.
Qed.

(** An instruction with a result. *)
Lemma wp_value op type args imm0 imm1 guest vs v Q st e s :
  ready 1 st e -> (length args <= 4)%nat -> type <> Void ->
  mapM (e !!.) args = Some vs -> pc_boundary op = false ->
  let i := tagged guest st op type (bl_next_value st) args imm0 imm1 in
  exec_inst fuel Lifted i vs s w = Some (Next (Some v) s w) -> inst_wf i = true ->
  (forall r st' e', after 1 st e st' e' -> e' !! r = Some v -> has_type type v -> Q r st' e' s) ->
  wp (emit op type args imm0 imm1 guest) Q st e s.
Proof.
  intros Hrd Hl Ht Ha Hp i Hx Hwf HQ. pose proof (ready_fresh _ _ _ Hrd) as Hfresh.
  destruct Hrd as [He Hlow Hroom]. set (n := bl_next_value st) in *.
  pose proof (lookups_below _ _ _ _ He Ha) as Hargs.
  assert (Hty : has_type type v).
  { pose proof (exec_inst_type fuel Lifted i vs s s w w v (mapM_lookup_wf _ _ _ _ He Ha) Hx). done. }
  assert (Hne : n <> kNoValue) by lia.
  assert (Hu : u32 (n + 1) = n + 1) by (unfold kNoValue in *; apply u32_small; unfold is_u32; lia).
  assert (Hi : inst_ok n i = true).
  { apply andb_true_iff. split.
    - by apply args_ok_spec.
    - unfold result_ok. cbn. apply orb_true_iff. right. apply andb_true_iff.
      rewrite Z.leb_le, Z.ltb_lt. lia. }
  assert (Hb : bind_result i (Some v) e = Some (<[n := v]> e)).
  { unfold bind_result. cbn. destruct (Z.eqb_spec n kNoValue); [done|done]. }
  assert (Hsub : e ⊆ <[n := v]> e) by by apply insert_subseteq.
  eexists n, (mkBuilder _ (n + 1) _), [i], (<[n := v]> e), s.
  split_and!.
  - rewrite emit_tagged by done. cbn. rewrite bool_decide_eq_false_2 by done. fold n. rewrite Hu. done.
  - done.
  - done.
  - eapply appended_one; try done. rewrite next_id_result by done. done.
  - apply HQ; [split; [|done]|by rewrite lookup_insert_eq|done].
    intros k [_ _ Hk]. split; cbn; [|lia|fold n in Hk; lia].
    apply (env_ok_insert n); [done|lia|by exists type].
Qed.

(** An instruction without a result. *)
Lemma wp_void op args imm0 imm1 guest vs Q st e s s' :
  ready 0 st e -> (length args <= 4)%nat ->
  mapM (e !!.) args = Some vs -> pc_boundary op = false ->
  let i := tagged guest st op Void kNoValue args imm0 imm1 in
  exec_inst fuel Lifted i vs s w = Some (Next None s' w) -> inst_wf i = true ->
  (forall a st', after 0 st e st' e -> Q a st' e s') ->
  wp (emit op Void args imm0 imm1 guest) Q st e s.
Proof.
  intros Hrd Hl Ha Hp i Hx Hwf HQ. destruct Hrd as [He Hlow Hroom]. set (n := bl_next_value st) in *.
  pose proof (lookups_below _ _ _ _ He Ha) as Hargs.
  assert (Hid : next_id n i = n).
  { unfold next_id. cbn. apply Z.le_antisymm; [|apply foldr_max_ge]. apply foldr_max_le; [lia|].
    eapply Forall_impl; [exact Hargs|]. cbn. lia. }
  eexists kNoValue, (mkBuilder _ n _), [i], e, s'. split_and!.
  - rewrite emit_tagged by done. done.
  - done.
  - done.
  - eapply appended_one; try done.
    + apply andb_true_iff. split; [|done]. apply args_ok_spec. cbn.
      eapply Forall_impl; [exact Hargs|]. cbn. unfold kNoValue in *. lia.
    + fold n. by rewrite Hid.
  - apply HQ. split; [|done]. intros k Hk. rewrite Z.add_0_r in Hk.
    destruct Hk as [Henv Hl' Hr']. by split.
Qed.

(** Pure operations and architectural-state operations. *)
Lemma wp_pure op type args imm0 imm1 guest vs v Q st e s :
  ready 1 st e -> (length args <= 4)%nat -> type <> Void ->
  mapM (e !!.) args = Some vs -> is_pure op = true ->
  let i := tagged guest st op type (bl_next_value st) args imm0 imm1 in
  eval_pure Lifted i vs = Some v -> inst_wf i = true ->
  (forall r st' e', after 1 st e st' e' -> e' !! r = Some v -> has_type type v -> Q r st' e' s) ->
  wp (emit op type args imm0 imm1 guest) Q st e s.
Proof.
  intros Hrd Hl Ht Ha Hp i Hx Hwf HQ. eapply wp_value; try done.
  - unfold is_pure in Hp. apply Z.eqb_eq in Hp. unfold pc_boundary. by rewrite Hp.
  - fold i. assert (Hpi : is_pure (i_op i) = true) by exact Hp. unfold exec_inst. by rewrite Hpi, Hx.
Qed.

(** Operations whose statement only touches [CpuState]. *)
Definition state_op (op : Op.t) : bool :=
  negb (is_pure op) && negb (is_vector_compute op) && negb (is_fp_helper op)
  && negb (is_memory_op op) && negb (is_control_op op) && negb (pc_boundary op).

Lemma exec_state_op i vs s :
  state_op (i_op i) = true -> exec_inst fuel Lifted i vs s w = lift_state w (exec_state Lifted i vs s).
Proof.
  unfold state_op. rewrite !andb_true_iff, !negb_true_iff. intros (((((Hp & Hv) & Hf) & Hm) & Hc) & _).
  unfold exec_inst. rewrite Hp, Hv, Hf, Hm, Hc. by destruct (bool_decide _).
Qed.

Lemma state_op_quiet op : state_op op = true -> pc_boundary op = false.
Proof. unfold state_op. rewrite !andb_true_iff, !negb_true_iff. by intros [_ ?]. Qed.

Lemma wp_get op type args imm0 imm1 guest vs v Q st e s :
  ready 1 st e -> (length args <= 4)%nat -> type <> Void ->
  mapM (e !!.) args = Some vs -> state_op op = true ->
  let i := tagged guest st op type (bl_next_value st) args imm0 imm1 in
  exec_state Lifted i vs s = Some (Some v, s) -> inst_wf i = true ->
  (forall r st' e', after 1 st e st' e' -> e' !! r = Some v -> Q r st' e' s) ->
  wp (emit op type args imm0 imm1 guest) Q st e s.
Proof.
  intros Hrd Hl Ht Ha Hop i Hx Hwf HQ. eapply wp_value; try done.
  - by apply state_op_quiet.
  - fold i. rewrite exec_state_op by done. by rewrite Hx.
  - intros r st' e' Hst Hr _. by apply HQ.
Qed.

Lemma wp_set op args imm0 imm1 guest vs Q st e s s' :
  ready 0 st e -> (length args <= 4)%nat ->
  mapM (e !!.) args = Some vs -> state_op op = true ->
  let i := tagged guest st op Void kNoValue args imm0 imm1 in
  exec_state Lifted i vs s = Some (None, s') -> inst_wf i = true ->
  (forall a st', after 0 st e st' e -> Q a st' e s') ->
  wp (emit op Void args imm0 imm1 guest) Q st e s.
Proof.
  intros Hrd Hl Ha Hop i Hx Hwf HQ. eapply wp_void; try done.
  - by apply state_op_quiet.
  - fold i. rewrite exec_state_op by done. by rewrite Hx.
Qed.
End Wp.

(** ** Tactics *)

(** [ready k st e] for a smaller [k]. *)
Ltac solve_ready :=
  match goal with
  | H : ready _ ?st ?e |- ready _ ?st ?e => eapply ready_weaken; [|exact H]; lia
  end.

Lemma lookups_cons (e : Env) a l v vs :
  e !! a = Some v -> mapM (e !!.) l = Some vs -> mapM (e !!.) (a :: l) = Some (v :: vs).
Proof. intros Ha Hl. cbn. rewrite Ha. cbn. by rewrite Hl. Qed.

(** Evaluate [mapM] over operands whose values are known. *)
Ltac lookup_args := repeat (apply lookups_cons; [eassumption|]); reflexivity.

(** Choose the row of a table of operations by the operation. *)
Ltac pick_op :=
  lazymatch goal with
  | |- (?a = ?a /\ _) \/ _ => left; split_and!; reflexivity
  | |- _ \/ _ => right; pick_op
  | |- _ => split_and!; reflexivity
  end.

(** Move what is known about the variables past newly appended code. *)
Ltac advance H :=
  match type of H with
  | after ?d ?st ?e ?st' ?e' =>
      repeat match goal with
      | Hx : e !! ?x = Some ?v |- _ => apply (after_lookup _ _ _ _ _ _ _ H) in Hx
      end;
      repeat match goal with
      | Ha : after ?d0 ?st0 ?e0 st e |- _ =>
          let d' := eval vm_compute in (d0 + d) in
          pose proof (after_trans _ _ _ _ _ _ _ _ Ha H : after d' st0 e0 st' e'); clear Ha
      end;
      match goal with
      | Hr : ready ?k st e |- _ =>
          let k' := eval vm_compute in (k - d) in
          pose proof (after_ready k' _ _ _ _ _ H Hr); clear Hr
      end; clear H
  end.

Lemma wrap64 z : wrap I64 z = u64 z.
Proof. reflexivity. Qed.
Lemma wrap32 z : wrap I32 z = u32 z.
Proof. reflexivity. Qed.

Section Rules.
Context {W : Type} `{MemoryPort W, RuntimeServices W, HostHelpers W}.
Context (fuel : nat) (w : W) (g : option GuestAddress).

Abbreviation wp := (wp fuel w g).

(** ** Constants and register accesses *)

Lemma wp_constant_i64 z Q st e s :
  ready 1 st e -> is_u64 z ->
  (forall r st' e', after 1 st e st' e' -> e' !! r = Some (TInt I64 z) -> Q r st' e' s) ->
  wp (constant_i64 z) Q st e s.
Proof.
  intros Hr Hz HQ. eapply wp_pure; try done; [cbn; lia|].
  intros r st' e' Ha Hx _. apply HQ; [done|]. rewrite Hx. f_equal. f_equal.
  rewrite wrap64. by apply u64_small.
Qed.

Lemma wf_get_gpr s r : wf_state s -> is_u64 (get_gpr s r).
Proof.
  intros Hs. unfold get_gpr. destruct (gpr s !! r) as [v|] eqn:E; cbn; [|unfold is_u64; lia].
  by destruct (wf_gpr s Hs r v E).
Qed.

Lemma land31_small r : 0 <= r < 32 -> r .& 31 = r.
Proof. intros Hr. change 31 with (Z.ones 5). rewrite Z.land_ones by lia. by apply Z.mod_small. Qed.

Lemma wp_read_gpr r Q st e s :
  ready 1 st e -> 0 <= r < 32 -> wf_state s ->
  (forall x st' e', after 1 st e st' e' -> e' !! x = Some (TInt I64 (get_gpr s r)) -> Q x st' e' s) ->
  wp (read_gpr r) Q st e s.
Proof.
  intros Hrd Hr Hs HQ. pose proof Hrd as [_ Hl Hroom].
  eapply (wp_get _ _ _ _ _ _ _ _ _ [] (TInt I64 (get_gpr s r))); try done; [cbn; lia|..].
  - unfold exec_state, tagged. cbn -[Z.land u64 get_gpr]. rewrite land31_small by done.
    by rewrite u64_small by by apply wf_get_gpr.
  - unfold inst_wf, promotable, const_imm_ok, index_below, has_result. cbn.
    destruct (Z.leb_spec 0 r), (Z.ltb_spec r 32), (Z.eqb_spec (bl_next_value st) kNoValue); cbn; lia || done.
Qed.

Lemma wp_write_gpr r a v x Q st e s :
  ready 0 st e -> 0 <= r < 32 -> e !! a = Some v -> viewed I64 v = Some x ->
  (forall st', after 0 st e st' e -> Q tt st' e (set_gpr r x s)) ->
  wp (write_gpr r a) Q st e s.
Proof.
  intros Hrd Hr Ha Hv HQ. apply wp_bind.
  eapply (wp_set _ _ _ _ _ _ _ _ [v]); try done; [cbn; lia|by lookup_args| | |].
  - unfold exec_state, tagged. cbn -[Z.land viewed]. rewrite Hv. cbn -[Z.land]. by rewrite land31_small.
  - unfold inst_wf, promotable, const_imm_ok, index_below. cbn.
    destruct (Z.leb_spec 0 r), (Z.ltb_spec r 32); cbn; lia || done.
  - intros _ st' Hst. apply wp_bret. by apply HQ.
Qed.

(** ** Arithmetic and logic on 64-bit values *)

Lemma wp_arith64 op (f : Z -> Z -> Z) a c x y Q st e s :
  (op = Op.Add /\ f = Z.add) \/ (op = Op.Sub /\ f = Z.sub) \/ (op = Op.Mul /\ f = Z.mul) ->
  ready 1 st e -> e !! a = Some (TInt I64 x) -> e !! c = Some (TInt I64 y) ->
  (forall r st' e', after 1 st e st' e' -> e' !! r = Some (TInt I64 (u64 (f x y))) -> Q r st' e' s) ->
  wp (emit_binary op a c) Q st e s.
Proof.
  intros Hop Hr Ha Hc HQ.
  destruct Hop as [[-> ->]|[[-> ->]|[-> ->]]];
    (eapply wp_pure; [done|cbn; lia|done|by lookup_args|done..|]; intros r st' e' Hst Hx _; by apply HQ).
Qed.

Lemma wp_bitwise64 op (f : Z -> Z -> Z) a c x y Q st e s :
  (op = Op.And /\ f = Z.land) \/ (op = Op.Or /\ f = Z.lor) \/ (op = Op.Xor /\ f = Z.lxor) ->
  ready 1 st e -> e !! a = Some (TInt I64 x) -> e !! c = Some (TInt I64 y) -> is_u64 x -> is_u64 y ->
  (forall r st' e', after 1 st e st' e' -> e' !! r = Some (TInt I64 (f x y)) -> is_u64 (f x y) ->
     Q r st' e' s) ->
  wp (emit_binary op a c) Q st e s.
Proof.
  intros Hop Hr Ha Hc Hx Hy HQ.
  assert (Hf : is_u64 (f x y)).
  { destruct Hop as [[_ ->]|[[_ ->]|[_ ->]]]; [by apply land_u64|by apply lor_u64|by apply lxor_u64]. }
  destruct Hop as [[-> ->]|[[-> ->]|[-> ->]]];
    (eapply (wp_pure _ _ _ _ _ _ _ _ _ [TInt I64 x; TInt I64 y] (TInt I64 (u64 _)));
     [done|cbn; lia|done|by lookup_args|done..|]; intros r st' e' Hst Hv _; rewrite u64_small in Hv by done;
     by apply HQ).
Qed.

Lemma wp_not64 a x Q st e s :
  ready 1 st e -> e !! a = Some (TInt I64 x) ->
  (forall r st' e', after 1 st e st' e' -> e' !! r = Some (TInt I64 (not64 x)) -> Q r st' e' s) ->
  wp (emit0 Op.Not I64 [a]) Q st e s.
Proof.
  intros Hr Ha HQ. eapply wp_pure; [done|cbn; lia|done|by lookup_args|done..|].
  intros r st' e' Hst Hv _. by apply HQ.
Qed.

(** ** Comparisons *)

Lemma wp_compare op (wide : bool) (f : IrType -> Z -> Z -> bool) a c va vc t x y Q st e s :
  (op = Op.CompareEq /\ wide = false /\ f = (λ _ x y, x =? y)) \/
  (op = Op.CompareNe /\ wide = false /\ f = (λ _ x y, negb (x =? y))) \/
  (op = Op.CompareUlt /\ wide = false /\ f = (λ _ x y, x <? y)) \/
  (op = Op.CompareUgt /\ wide = false /\ f = (λ _ x y, y <? x)) \/
  (op = Op.CompareSlt /\ wide = true /\ f = (λ t x y, signed_view t x <? signed_view t y)) \/
  (op = Op.CompareSgt /\ wide = true /\ f = (λ t x y, signed_view t y <? signed_view t x)) ->
  ready 1 st e -> e !! a = Some va -> e !! c = Some vc ->
  int_view va = Some (t, x) -> viewed t vc = Some y -> is_wide_int_type t = true ->
  (forall r st' e', after 1 st e st' e' -> e' !! r = Some (tbool (f t x y)) -> Q r st' e' s) ->
  wp (emit0 op I1 [a; c]) Q st e s.
Proof.
  intros Hop Hr Ha Hc Hva Hvc Ht HQ.
  assert (Hint : is_int_type t = true) by (destruct t; done).
  eapply (wp_pure _ _ _ _ _ _ _ _ _ [va; vc] (tbool (f t x y)));
    [done|cbn; lia|done|by lookup_args| | | |].
  - by destruct Hop as [[-> _]|[[-> _]|[[-> _]|[[-> _]|[[-> _]|[-> _]]]]]].
  - destruct Hop as [(-> & -> & ->)|[(-> & -> & ->)|[(-> & -> & ->)|[(-> & -> & ->)|[(-> & -> & ->)|(-> & -> & ->)]]]]];
      unfold eval_pure, compare_op, tagged; cbn [i_op]; rewrite Hva; cbn [mbind option_bind];
      rewrite ?Hint, ?Ht, Hvc; reflexivity.
  - by destruct Hop as [[-> _]|[[-> _]|[[-> _]|[[-> _]|[[-> _]|[-> _]]]]]].
  - intros r st' e' Hst Hv _. by apply HQ.
Qed.

(** ** XER flags *)

Lemma wp_read_flag op (f : CpuState -> bool) Q st e s :
  (op = Op.ReadXerCA /\ f = xer_ca) \/ (op = Op.ReadXerOV /\ f = xer_ov) \/
  (op = Op.ReadXerSO /\ f = xer_so) ->
  ready 1 st e ->
  (forall r st' e', after 1 st e st' e' -> e' !! r = Some (tbool (f s)) -> Q r st' e' s) ->
  wp (emit0 op I1 []) Q st e s.
Proof.
  intros Hop Hr HQ. pose proof Hr as [_ Hl Hroom].
  assert (Hne : negb (bl_next_value st =? kNoValue) = true).
  { destruct (Z.eqb_spec (bl_next_value st) kNoValue); [lia|done]. }
  destruct Hop as [[-> ->]|[[-> ->]|[-> ->]]];
    (eapply wp_get; [done|cbn; lia|done|done|done|reflexivity|exact Hne|exact HQ]).
Qed.

Lemma bool_of_tbool b : bool_of (tbool b) = Some b.
Proof. by destruct b. Qed.

Lemma wp_set_flag op (f : bool -> CpuState -> CpuState) a b Q st e s :
  (op = Op.SetXerCA /\ f = set_xer_ca) \/ (op = Op.SetXerOV /\ f = set_xer_ov) \/
  (op = Op.SetXerSO /\ f = set_xer_so) ->
  ready 0 st e -> e !! a = Some (tbool b) ->
  (forall st', after 0 st e st' e -> Q tt st' e (f b s)) ->
  wp (emit_void op [a] 0) Q st e s.
Proof.
  intros Hop Hr Ha HQ. apply wp_bind.
  eapply (wp_set _ _ _ _ _ _ _ _ [tbool b] _ _ _ _ (f b s)); [done|cbn; lia|by lookup_args|..].
  - by destruct Hop as [[-> _]|[[-> _]|[-> _]]].
  - destruct Hop as [[-> ->]|[[-> ->]|[-> ->]]]; unfold exec_state, tagged; cbn -[bool_of];
      by rewrite bool_of_tbool.
  - by destruct Hop as [[-> _]|[[-> _]|[-> _]]].
  - intros _ st' Hst. apply wp_bret. by apply HQ.
Qed.

Lemma wp_or_bool a c x y Q st e s :
  ready 1 st e -> e !! a = Some (tbool x) -> e !! c = Some (tbool y) ->
  (forall r st' e', after 1 st e st' e' -> e' !! r = Some (tbool (x || y)) -> Q r st' e' s) ->
  wp (emit0 Op.Or I1 [a; c]) Q st e s.
Proof.
  intros Hr Ha Hc HQ. eapply (wp_pure _ _ _ _ _ _ _ _ _ [tbool x; tbool y] (tbool (x || y)));
    [done|cbn; lia|done|by lookup_args|done|by destruct x, y|done|].
  intros r st' e' Hst Hv _. by apply HQ.
Qed.

(** ** The condition register *)

Lemma wp_write_cr_compare a b c d lt gt eq so field Q st e s :
  ready 0 st e -> e !! a = Some (tbool lt) -> e !! b = Some (tbool gt) ->
  e !! c = Some (tbool eq) -> e !! d = Some (tbool so) -> exclusive lt gt eq = true ->
  (forall st', after 0 st e st' e ->
     Q tt st' e (set_cr_field field (cr_compare_field lt gt eq so) s)) ->
  wp (emit_void Op.WriteCRCompare [a; b; c; d] field) Q st e s.
Proof.
  intros Hr Ha Hb Hc Hd Hx HQ. apply wp_bind.
  eapply (wp_set _ _ _ _ _ _ _ _ [tbool lt; tbool gt; tbool eq; tbool so]);
    [done|cbn; lia|by lookup_args|done| |done|].
  - unfold exec_state, tagged. cbn -[bool_of exclusive set_cr_field]. rewrite !bool_of_tbool.
    cbn -[exclusive set_cr_field]. by rewrite Hx.
  - intros _ st' Hst. apply wp_bret. by apply HQ.
Qed.

Lemma s64_trichotomy x : is_u64 x -> (s64 x = 0 <-> x = 0).
Proof. word_lia. Qed.

Lemma cr0_field x so : is_u64 x ->
  cr_compare_field (s64 x <? 0) (0 <? s64 x) (x =? 0) so =
  (if s64 x <? 0 then 0x8 else if 0 <? s64 x then 0x4 else 0x2) .| (if so then 0x1 else 0).
Proof.
  intros Hx. unfold cr_compare_field.
  destruct (Z.ltb_spec (s64 x) 0), (Z.ltb_spec 0 (s64 x)), (Z.eqb_spec x 0); try by destruct so.
  all: pose proof (s64_trichotomy x Hx); lia.
Qed.

Lemma cr0_exclusive x : is_u64 x -> exclusive (s64 x <? 0) (0 <? s64 x) (x =? 0) = true.
Proof.
  intros Hx. unfold exclusive.
  destruct (Z.ltb_spec (s64 x) 0), (Z.ltb_spec 0 (s64 x)), (Z.eqb_spec x 0); try done;
    pose proof (s64_trichotomy x Hx); lia.
Qed.

Ltac rule lem := eapply lem; [first [solve_ready | done]|..].

(** CR0 from a result, however wide its C++ variable was declared. *)
Lemma wp_emit_cr0 v val x Q st e s :
  ready 5 st e -> e !! v = Some val -> int_view val = Some (I64, x) -> is_u64 x ->
  (forall st' e', after 5 st e st' e' -> Q tt st' e' (update_cr0_signed x s)) ->
  wp (emit_cr0 v) Q st e s.
Proof.
  intros Hr Hv Hval Hx HQ. pose proof (after_refl st e) as Hst.
  unfold emit_cr0. apply wp_bind. rule wp_constant_i64; [unfold is_u64; lia|]. intros zero st1 e1 Ha1 Hz. advance Ha1.
  apply wp_bind.
  eapply (wp_compare Op.CompareSlt true (λ t x y, signed_view t x <? signed_view t y));
    [pick_op|solve_ready|eassumption..|exact Hval|done|done|].
  intros lt st2 e2 Ha2 Hlt. advance Ha2. apply wp_bind.
  eapply (wp_compare Op.CompareSgt true (λ t x y, signed_view t y <? signed_view t x));
    [pick_op|solve_ready|eassumption..|exact Hval|done|done|].
  intros gt st3 e3 Ha3 Hgt. advance Ha3. apply wp_bind.
  eapply (wp_compare Op.CompareEq false (λ _ x y, x =? y));
    [pick_op|solve_ready|eassumption..|exact Hval|done|done|].
  intros eq st4 e4 Ha4 Heq. advance Ha4. apply wp_bind.
  eapply (wp_read_flag Op.ReadXerSO xer_so); [pick_op|solve_ready|].
  intros so st5 e5 Ha5 Hso. advance Ha5.
  eapply wp_write_cr_compare; [solve_ready|eassumption..|by apply cr0_exclusive|].
  intros st6 Ha6. advance Ha6.
  change (signed_view I64 0) with 0. change (signed_view I64 x) with (s64 x).
  rewrite cr0_field by done. by apply HQ.
Qed.
End Rules.
