(* ===== verification/IntegerParity.v ===== *)
(** * Compiled integer code against the fallback interpreter: arithmetic

    For each family of arithmetic instructions, the IR the lifter emits
    (ppc/lifter/integer.cpp) does to the CPU state what the interpreter
    (codegen/fallback/interpreter/integer.cpp) does; the lemma of a family that the
    interpreter executes without recording overflow asks for OE to be clear. *)

From S2P Require Import Prelude.
From S2P Require Import Words.
From S2P Require Import Instr.
From S2P Require Import CpuState.
From S2P Require Import AotScalar.
From S2P Require Import Ir.
From S2P Require Import IrValue.
From S2P Require Import Services.
From S2P Require Import IrSem.
From S2P Require Import IrRefine.
From S2P Require Import PassSim.
From S2P Require Import Lifter.
From S2P Require Import Fallback.
From S2P Require Import LiftWp.

(** ** Carry and overflow code *)

(** ** Flags of sums and differences *)

Lemma flag_update_same x k : 0 <= k ->
  flag_update x (1 .<< k) (flag_set x (1 .<< k)) = x.
Proof.
  intros Hk. unfold flag_update, flag_set, bits_clear. rewrite land_bit_zero, negb_involutive by done.
  rewrite Z.shiftl_1_l. apply Z.bits_inj'. intros j Hj.
  destruct (Z.testbit x k) eqn:E; rewrite ?Z.lor_spec, ?Z.ldiff_spec, Z.pow2_bits_eqb by done;
    destruct (Z.eqb_spec k j) as [<-|]; rewrite ?E; cbn; by rewrite ?orb_false_r, ?andb_true_r.
Qed.

Lemma xer_so_ov b s : xer_so (set_xer_ov b s) = xer_so s.
Proof.
  unfold xer_so, set_xer_ov, flag_set, flag_update, bits_clear. cbn [xer set_xer].
  change xer_bits.SO with (1 .<< 31). rewrite !land_bit_zero by lia. do 2 f_equal.
  destruct b; rewrite ?Z.lor_spec, ?Z.ldiff_spec; change (Z.testbit xer_bits.OV 31) with false; cbn;
    by rewrite ?orb_false_r, ?andb_true_r.
Qed.

(** Setting SO to "SO or overflow" is the sticky update. *)
Lemma sticky_overflow ov s : set_xer_so (xer_so s || ov) (set_xer_ov ov s) = set_xer_overflow ov s.
Proof.
  unfold set_xer_overflow. destruct ov; [by rewrite orb_true_r|]. rewrite orb_false_r, <- (xer_so_ov false).
  unfold set_xer_so, xer_so. change xer_bits.SO with (1 .<< 31). rewrite flag_update_same by lia.
  by destruct s.
Qed.

Lemma sub_overflow a c :
  is_u64 a -> is_u64 c ->
  signed_add_overflow a (not64 c) true =
  negb (((a .^ c) .& (a .^ u64 (a - c))) .& 0x8000000000000000 =? 0).
Proof.
  intros Ha Hc. unfold signed_add_overflow.
  assert (Hr : add_carry a (not64 c) true = u64 (a - c)) by (unfold add_carry; revert Ha Hc; cbn; word_lia).
  rewrite Hr. change 0x8000000000000000 with (1 .<< 63). rewrite !land_bit_zero by lia.
  rewrite !Z.land_spec, !Z.lxor_spec.
  assert (Hn : Z.testbit (not64 c) 63 = negb (Z.testbit c 63)).
  { unfold not64. rewrite testbit_u64, Z.lnot_spec by lia. done. }
  rewrite Hn. by destruct (Z.testbit a 63), (Z.testbit c 63), (Z.testbit (u64 (a - c)) 63).
Qed.

Lemma add_carry_false a b : add_carry a b false = u64 (a + b).
Proof. unfold add_carry. cbn. word_lia. Qed.

Lemma carry_of_add a b : is_u64 a -> is_u64 b -> carry_out a b false = (u64 (a + b) <? a).
Proof.
  intros Ha Hb. unfold carry_out. cbn. rewrite Z.add_0_r.
  assert (u64 (u64 (a + b)) = u64 (a + b)) as -> by (apply u64_small, u64_range).
  rewrite Z.ltb_irrefl. apply orb_false_r.
Qed.

Lemma no_borrow a c : ((c <? a) || (a =? c)) = (c <=? a).
Proof. destruct (Z.ltb_spec c a), (Z.eqb_spec a c), (Z.leb_spec c a); done || lia. Qed.

(** ** The code that sets the flags *)

Section Rules.
Context {W : Type} `{MemoryPort W, RuntimeServices W, HostHelpers W}.
Context (fuel : nat) (w : W) (g : option GuestAddress).

Abbreviation wp := (wp fuel w g).

Lemma wp_set_xer_overflow a ov Q st e s :
  ready 2 st e -> e !! a = Some (tbool ov) ->
  (forall st' e', after 2 st e st' e' -> Q tt st' e' (set_xer_overflow ov s)) ->
  wp (lift_set_xer_overflow a) Q st e s.
Proof.
  intros Hr Ha HQ. pose proof (after_refl st e) as Hst.
  unfold lift_set_xer_overflow. apply wp_bind. eapply (wp_read_flag _ _ _ Op.ReadXerSO xer_so); [pick_op|solve_ready|].
  intros so st1 e1 Ha1 Hso. advance Ha1.
  apply wp_bind. eapply wp_or_bool; [solve_ready|eassumption..|]. intros nso st2 e2 Ha2 Hnso. advance Ha2.
  apply wp_bind. eapply (wp_set_flag _ _ _ Op.SetXerOV set_xer_ov); [pick_op|solve_ready|eassumption|].
  intros st3 Ha3. advance Ha3.
  eapply (wp_set_flag _ _ _ Op.SetXerSO set_xer_so); [pick_op|solve_ready|eassumption|].
  intros st4 Ha4. advance Ha4. rewrite sticky_overflow. by apply HQ.
Qed.

Lemma wp_emit_ca_from_add a c x y Q st e s :
  ready 1 st e -> e !! a = Some (TInt I64 x) -> e !! c = Some (TInt I64 y) ->
  (forall st' e', after 1 st e st' e' -> Q tt st' e' (set_xer_ca (y <? x) s)) ->
  wp (emit_ca_from_add a c) Q st e s.
Proof.
  intros Hr Ha Hc HQ. pose proof (after_refl st e) as Hst. unfold emit_ca_from_add. apply wp_bind.
  eapply (wp_compare _ _ _ Op.CompareUlt false (λ _ x y, x <? y));
    [pick_op|solve_ready|eassumption..|done|done|done|].
  intros ca st1 e1 Ha1 Hca. advance Ha1.
  eapply (wp_set_flag _ _ _ Op.SetXerCA set_xer_ca); [pick_op|solve_ready|eassumption|].
  intros st2 Ha2. advance Ha2. by apply HQ.
Qed.

Lemma wp_emit_ca_from_sub a c x y Q st e s :
  ready 3 st e -> e !! a = Some (TInt I64 x) -> e !! c = Some (TInt I64 y) ->
  (forall st' e', after 3 st e st' e' -> Q tt st' e' (set_xer_ca (y <=? x) s)) ->
  wp (emit_ca_from_sub a c) Q st e s.
Proof.
  intros Hr Ha Hc HQ. pose proof (after_refl st e) as Hst. unfold emit_ca_from_sub. apply wp_bind.
  eapply (wp_compare _ _ _ Op.CompareUgt false (λ _ x y, y <? x));
    [pick_op|solve_ready|eassumption..|done|done|done|].
  intros gt st1 e1 Ha1 Hgt. advance Ha1. apply wp_bind.
  eapply (wp_compare _ _ _ Op.CompareEq false (λ _ x y, x =? y));
    [pick_op|solve_ready|eassumption..|done|done|done|].
  intros eq st2 e2 Ha2 Heq. advance Ha2.
  apply wp_bind. eapply wp_or_bool; [solve_ready|eassumption..|]. intros ca st3 e3 Ha3 Hca. advance Ha3.
  rewrite no_borrow in Hca.
  eapply (wp_set_flag _ _ _ Op.SetXerCA set_xer_ca); [pick_op|solve_ready|eassumption|].
  intros st4 Ha4. advance Ha4. by apply HQ.
Qed.

Lemma wp_emit_overflow_sign a c x y Q st e s :
  ready 7 st e -> e !! a = Some (TInt I64 x) -> e !! c = Some (TInt I64 y) -> is_u64 x -> is_u64 y ->
  (forall st' e', after 7 st e st' e' ->
     Q tt st' e' (set_xer_overflow (negb ((x .& y) .& 0x8000000000000000 =? 0)) s)) ->
  wp (emit_overflow_sign a c) Q st e s.
Proof.
  intros Hr Ha Hc Hx Hy HQ. pose proof (after_refl st e) as Hst.
  unfold emit_overflow_sign. apply wp_bind.
  eapply (wp_bitwise64 _ _ _ Op.And Z.land); [pick_op|solve_ready|eassumption..|].
  intros both st1 e1 Ha1 Hb Hu1. advance Ha1. apply wp_bind.
  eapply wp_constant_i64; [solve_ready|unfold is_u64; lia|]. intros sign st2 e2 Ha2 Hs. advance Ha2.
  apply wp_bind.
  eapply (wp_bitwise64 _ _ _ Op.And Z.land); [pick_op|solve_ready|eassumption..|unfold is_u64; lia|].
  intros masked st3 e3 Ha3 Hm Hu3. advance Ha3. apply wp_bind.
  eapply wp_constant_i64; [solve_ready|unfold is_u64; lia|]. intros zero st4 e4 Ha4 Hz. advance Ha4.
  apply wp_bind.
  eapply (wp_compare _ _ _ Op.CompareNe false (λ _ x y, negb (x =? y)));
    [pick_op|solve_ready|eassumption..|done|done|done|].
  intros ov st5 e5 Ha5 Hov. advance Ha5.
  eapply wp_set_xer_overflow; [solve_ready|eassumption|]. intros st6 e6 Ha6. advance Ha6. by apply HQ.
Qed.

Lemma wp_emit_overflow_add a c sum x y Q st e s :
  ready 9 st e -> e !! a = Some (TInt I64 x) -> e !! c = Some (TInt I64 y) ->
  e !! sum = Some (TInt I64 (u64 (x + y))) -> is_u64 x -> is_u64 y ->
  (forall st' e', after 9 st e st' e' ->
     Q tt st' e' (set_xer_overflow (signed_add_overflow x y false) s)) ->
  wp (emit_overflow_add a c sum) Q st e s.
Proof.
  intros Hr Ha Hc Hsum Hx Hy HQ. pose proof (after_refl st e) as Hst. unfold emit_overflow_add. apply wp_bind.
  eapply (wp_bitwise64 _ _ _ Op.Xor Z.lxor); [pick_op|solve_ready|eassumption..|apply u64_range|].
  intros axr st1 e1 Ha1 Haxr Hu1. advance Ha1. apply wp_bind.
  eapply (wp_bitwise64 _ _ _ Op.Xor Z.lxor); [pick_op|solve_ready|eassumption..|apply u64_range|].
  intros bxr st2 e2 Ha2 Hbxr Hu2. advance Ha2.
  eapply wp_emit_overflow_sign; [solve_ready|eassumption..|].
  intros st3 e3 Ha3. advance Ha3. unfold signed_add_overflow in HQ. rewrite add_carry_false in HQ. by apply HQ.
Qed.

Lemma wp_emit_overflow_sub a c r x y Q st e s :
  ready 9 st e -> e !! a = Some (TInt I64 x) -> e !! c = Some (TInt I64 y) ->
  e !! r = Some (TInt I64 (u64 (x - y))) -> is_u64 x -> is_u64 y ->
  (forall st' e', after 9 st e st' e' ->
     Q tt st' e' (set_xer_overflow (signed_add_overflow x (not64 y) true) s)) ->
  wp (emit_overflow_sub a c r) Q st e s.
Proof.
  intros Hr Ha Hc Hsum Hx Hy HQ. pose proof (after_refl st e) as Hst. unfold emit_overflow_sub. apply wp_bind.
  eapply (wp_bitwise64 _ _ _ Op.Xor Z.lxor); [pick_op|solve_ready|eassumption..|].
  intros axc st1 e1 Ha1 Haxc Hu1. advance Ha1. apply wp_bind.
  eapply (wp_bitwise64 _ _ _ Op.Xor Z.lxor); [pick_op|solve_ready|eassumption..|apply u64_range|].
  intros axr st2 e2 Ha2 Haxr Hu2. advance Ha2.
  eapply wp_emit_overflow_sign; [solve_ready|eassumption..|].
  intros st3 e3 Ha3. advance Ha3. rewrite sub_overflow in HQ by done. by apply HQ.
Qed.

(** [AddCarry], [CarryOut] and [SignedOverflow] take two words and a carry. *)
Lemma wp_three op type imm1 a c ca x y b (v : TVal) imm0 guest Q st e s :
  (op = Op.AddCarry /\ type = I64 /\ v = TInt I64 (add_carry x y b)) \/
  (op = Op.CarryOut /\ type = I1 /\ v = tbool (carry_out x y b)) \/
  (op = Op.SignedOverflow /\ type = I1 /\ v = tbool (signed_add_overflow x y b)) ->
  ready 1 st e -> e !! a = Some (TInt I64 x) -> e !! c = Some (TInt I64 y) -> e !! ca = Some (tbool b) ->
  (forall r st' e', after 1 st e st' e' -> e' !! r = Some v -> Q r st' e' s) ->
  wp (emit op type [a; c; ca] imm0 imm1 guest) Q st e s.
Proof.
  intros Hop Hr Ha Hc Hca HQ.
  eapply (wp_pure _ _ _ _ _ _ _ _ _ [TInt I64 x; TInt I64 y; tbool b] v);
    [done|cbn; lia| |by lookup_args| | | |intros r st' e' Hst Hv _; by apply HQ];
    destruct Hop as [(-> & -> & ->)|[(-> & -> & ->)|(-> & -> & ->)]]; try done; by destruct b.
Qed.

Lemma wp_set_ca3 a c ca x y b Q st e s :
  ready 1 st e -> e !! a = Some (TInt I64 x) -> e !! c = Some (TInt I64 y) -> e !! ca = Some (tbool b) ->
  (forall st' e', after 1 st e st' e' -> Q tt st' e' (set_xer_ca (carry_out x y b) s)) ->
  wp (set_ca3 a c ca) Q st e s.
Proof.
  intros Hr Ha Hc Hca HQ. pose proof (after_refl st e) as Hst. unfold set_ca3. apply wp_bind.
  eapply (wp_three Op.CarryOut); [pick_op|solve_ready|eassumption..|].
  intros out st1 e1 Ha1 Hout. advance Ha1.
  eapply (wp_set_flag _ _ _ Op.SetXerCA set_xer_ca); [pick_op|solve_ready|eassumption|].
  intros st2 Ha2. advance Ha2. by apply HQ.
Qed.

Lemma wp_set_ov3 a c ca variant x y b Q st e s :
  ready 3 st e -> e !! a = Some (TInt I64 x) -> e !! c = Some (TInt I64 y) -> e !! ca = Some (tbool b) ->
  (forall st' e', after 3 st e st' e' -> Q tt st' e' (set_xer_overflow (signed_add_overflow x y b) s)) ->
  wp (set_ov3 a c ca variant) Q st e s.
Proof.
  intros Hr Ha Hc Hca HQ. pose proof (after_refl st e) as Hst. unfold set_ov3. apply wp_bind.
  eapply (wp_three Op.SignedOverflow); [pick_op|solve_ready|eassumption..|].
  intros out st1 e1 Ha1 Hout. advance Ha1.
  eapply wp_set_xer_overflow; [solve_ready|eassumption|]. intros st2 e2 Ha2. advance Ha2. by apply HQ.
Qed.
End Rules.

Section Parity.
Context {W : Type} `{MemoryPort W, RuntimeServices W, HostHelpers W}.
Context (fuel : nat) (w : W) (g : option GuestAddress) (i : DecodedInstruction).

Abbreviation wp := (wp fuel w g).

(** Values an instruction may define. *)
Definition budget : Z := 64.

(** [c] lifts an instruction that the interpreter executes as [f]. *)
Definition lifts (c : B bool) (f : CpuState -> CpuState) : Prop :=
  forall st e s, ready budget st e -> wf_state s ->
    wp c (λ ok st' e' s', ok = true /\ s' = f s /\ after budget st e st' e') st e s.

Lemma wp_when (c : bool) a Q st e s :
  (c = true -> wp a Q st e s) -> (c = false -> Q tt st e s) -> wp (when c a) Q st e s.
Proof. intros Ht Hf. destruct c; [by apply Ht|]. apply wp_bret. by apply Hf. Qed.

Lemma wp_when_true (c : bool) a Q st e s : c = true -> wp a Q st e s -> wp (when c a) Q st e s.
Proof. by intros ->. Qed.

Lemma wp_record_cr0 v val x Q st e s :
  ready 5 st e -> e !! v = Some val -> int_view val = Some (I64, x) -> is_u64 x ->
  (forall st' e', after 5 st e st' e' -> Q tt st' e' (record i x s)) ->
  wp (record_cr0 i v) Q st e s.
Proof.
  intros Hr Hv Hval Hx HQ. unfold record_cr0, record in *. apply wp_when; intros Hrc; rewrite Hrc in HQ.
  - by eapply wp_emit_cr0.
  - apply HQ. eapply after_weaken; [|apply after_refl]. lia.
Qed.

Lemma simm_range : is_u64 (u64 (simm16 i)).
Proof. apply u64_range. Qed.
End Parity.

(** ** Steps of a parity proof

    [start] opens the proof; the steps follow the program; [finish] compares the
    final states. *)

Ltac start :=
  intros st e s Hready Hwf; pose proof (after_refl st e) as Hafter; unfold budget in Hready;
  pose proof (wf_get_gpr s) as Hgpr.

Ltac next_value :=
  let r := fresh "r" in let st' := fresh "st" in let e' := fresh "e" in
  let Ha := fresh "Ha" in let Hv := fresh "Hv" in
  intros r st' e' Ha Hv; advance Ha.
Ltac next_state :=
  let st' := fresh "st" in let Ha := fresh "Ha" in intros st' Ha; advance Ha.
Ltac next_both :=
  let st' := fresh "st" in let e' := fresh "e" in let Ha := fresh "Ha" in intros st' e' Ha; advance Ha.

#[export] Hint Resolve rt_range ra_range rb_range u64_range simm_range wf_get_gpr : lift.
#[export] Hint Extern 1 (0 <= rs _ < 32) => apply rt_range : lift.
#[export] Hint Extern 1 (is_u64 (simm_u64 _)) => apply u64_range : lift.
#[export] Hint Extern 1 (is_u64 (add_carry _ _ _)) => apply u64_range : lift.
#[export] Hint Extern 1 (is_u64 0) => unfold is_u64; lia : lift.
Ltac side := first [solve_ready | eassumption | solve [eauto with lift] | done].

Ltac finish :=
  apply wp_bret; split_and!; [done| |eapply after_weaken; [|eassumption]; unfold budget; lia].

Ltac do_constant := apply wp_bind; eapply wp_constant_i64; [solve_ready|side|next_value].
Ltac do_read := apply wp_bind; eapply wp_read_gpr; [solve_ready|side|side|next_value].
Ltac do_write :=
  apply wp_bind; eapply wp_write_gpr; [solve_ready|side|eassumption|reflexivity|next_state].
Ltac do_arith f := apply wp_bind; eapply (wp_arith64 _ _ _ _ f); [pick_op|solve_ready|eassumption..|next_value].
Ltac do_record :=
  apply wp_bind; eapply wp_record_cr0; [solve_ready|eassumption|reflexivity|side|next_both].

(** One case per name of [one_of]. *)
Ltac mnemonic_cases Hm :=
  apply one_of_elem in Hm;
  repeat (apply elem_of_cons in Hm; destruct Hm as [Hm|Hm]); try (by apply elem_of_nil in Hm).

(** Decide the tests on the mnemonic. *)
Ltac mnemonic Hm := rewrite ?Hm; cbn [one_of existsb String.eqb Ascii.eqb Bool.eqb orb andb negb].

(** [if (i.oe())] on both sides. *)
Ltac do_when := apply wp_bind; apply wp_when; intros Hoe; rewrite ?Hoe.

Section Arithmetic.
Context {W : Type} `{MemoryPort W, RuntimeServices W, HostHelpers W}.
Context (fuel : nat) (w : W) (g : option GuestAddress) (i : DecodedInstruction).

Abbreviation lifts := (lifts fuel w g).

Lemma lift_addi_lifts : lifts (lift_addi i) (execute_addi i).
Proof.
  start. unfold lift_addi. destruct (negb (ra i =? 0)) eqn:Era; unfold read_ra, write_rt.
  all: first [do_read | do_constant].
  all: do_constant.
  all: do_arith Z.add. all: do_write. all: finish; unfold execute_addi; by rewrite Era.
Qed.

Lemma lift_mulli_lifts : lifts (lift_mulli i) (execute_mulli i).
Proof.
  start. unfold lift_mulli, read_ra, write_rt. do_read. do_constant. do_arith Z.mul. do_write. finish. done.
Qed.

Lemma lift_addx_lifts : mnemonic i = "addx" -> lifts (lift_add i) (execute_add_subf i).
Proof.
  intros Hm. start. unfold lift_add, read_ra, read_rb, write_rt. mnemonic Hm.
  do_read. do_read. do_arith Z.add. do_write. unfold when at 1. apply wp_bind, wp_bret.
  unfold execute_add_subf, overflow. mnemonic Hm. do_when.
  - eapply wp_emit_overflow_add; [side..|]. next_both. do_record. finish. done.
  - do_record. finish. done.
Qed.

Lemma lift_addcx_lifts : mnemonic i = "addcx" -> lifts (lift_add i) (execute_add_carry i).
Proof.
  intros Hm. start. unfold lift_add, read_ra, read_rb, write_rt. mnemonic Hm.
  do_read. do_read. do_arith Z.add. do_write. unfold when at 1. apply wp_bind.
  eapply wp_emit_ca_from_add; [side..|]. next_both.
  unfold execute_add_carry, overflow. mnemonic Hm.
  rewrite carry_of_add, add_carry_false by side. do_when.
  - eapply wp_emit_overflow_add; [side..|]. next_both. do_record. finish. done.
  - do_record. finish. done.
Qed.

Lemma lift_addic_lifts : lifts (lift_addic i) (execute_addic i).
Proof.
  start. unfold lift_addic, read_ra, write_rt. do_read. do_constant. do_arith Z.add. do_write.
  apply wp_bind. eapply wp_emit_ca_from_add; [side..|]. next_both. unfold execute_addic.
  apply wp_bind. apply wp_when; intros Hx; rewrite Hx.
  - eapply wp_emit_cr0; [side|eassumption|reflexivity|side|]. next_both. finish. done.
  - finish. done.
Qed.

(** The carry-extended forms, whatever their middle operand. *)
Lemma wp_extended reg minus_one Q st e s :
  ready 1 st e -> wf_state s ->
  (forall r st' e' y, after 1 st e st' e' -> e' !! r = Some (TInt I64 y) -> is_u64 y ->
     y = (if String.eqb (mnemonic i) reg then get_gpr s (rb i)
          else if String.eqb (mnemonic i) minus_one then 0xFFFFFFFFFFFFFFFF else 0) ->
     Q r st' e' s) ->
  wp fuel w g (extended_operand i reg minus_one) Q st e s.
Proof.
  intros Hr Hs HQ. unfold extended_operand, read_rb. destruct (String.eqb (mnemonic i) reg).
  - eapply wp_read_gpr; [side..|]. intros r st' e' Ha Hv. eapply HQ; [done|done|side|done].
  - destruct (String.eqb (mnemonic i) minus_one);
      (eapply wp_constant_i64; [side|unfold is_u64; lia|]);
      intros r st' e' Ha Hv; (eapply HQ; [done|done|unfold is_u64; lia|done]).
Qed.

Lemma lift_adde_lifts :
  one_of (mnemonic i) ["addex"; "addmex"; "addzex"] = true -> lifts (lift_adde i) (execute_add_carry i).
Proof.
  intros Hm. start. unfold lift_adde, read_xer_ca, read_ra, write_rt. do_read.
  apply wp_bind. eapply (wp_read_flag _ _ _ Op.ReadXerCA xer_ca); [pick_op|side|]. next_value.
  apply wp_bind. eapply wp_extended; [side..|]. intros c st3 e3 y Ha3 Hv3 Hy Hyeq. advance Ha3.
  apply wp_bind. eapply (wp_three _ _ _ Op.AddCarry); [pick_op|side..|]. next_value.
  do_write. apply wp_bind. eapply wp_set_ca3; [side..|]. next_both.
  assert (Hmn : String.eqb (mnemonic i) "addcx" = false /\
                one_of (mnemonic i) ["addcx"; "addex"] = String.eqb (mnemonic i) "addex").
  { mnemonic_cases Hm; by rewrite Hm. }
  unfold execute_add_carry, overflow. destruct Hmn as [-> ->]. cbn [negb andb].
  rewrite <- Hyeq. do_when.
  - eapply wp_set_ov3; [side..|]. next_both. do_record. finish. done.
  - do_record. finish. done.
Qed.

Lemma lift_subfe_lifts :
  one_of (mnemonic i) ["subfex"; "subfmex"; "subfzex"] = true -> lifts (lift_subfe i) (execute_subfe i).
Proof.
  intros Hm. start. unfold lift_subfe, read_xer_ca, read_ra, write_rt. do_read.
  apply wp_bind. eapply wp_not64; [side..|]. next_value.
  apply wp_bind. eapply (wp_read_flag _ _ _ Op.ReadXerCA xer_ca); [pick_op|side|]. next_value.
  apply wp_bind. eapply wp_extended; [side..|]. intros c st3 e3 y Ha3 Hv3 Hy Hyeq. advance Ha3.
  apply wp_bind. eapply (wp_three _ _ _ Op.AddCarry); [pick_op|side..|]. next_value.
  do_write. apply wp_bind. eapply wp_set_ca3; [side..|]. next_both.
  unfold execute_subfe, overflow. rewrite <- Hyeq. do_when.
  - eapply wp_set_ov3; [side..|]. next_both. do_record. finish. done.
  - do_record. finish. done.
Qed.

Lemma lift_subfx_lifts : mnemonic i = "subfx" -> lifts (lift_subf i) (execute_add_subf i).
Proof.
  intros Hm. start. unfold lift_subf, read_ra, read_rb, write_rt. mnemonic Hm.
  do_read. do_read. do_arith Z.sub. do_write. unfold when at 1. apply wp_bind, wp_bret.
  unfold execute_add_subf, overflow. mnemonic Hm. do_when.
  - eapply wp_emit_overflow_sub; [side..|]. next_both. do_record. finish. done.
  - do_record. finish. done.
Qed.

Lemma lift_subfcx_lifts : mnemonic i = "subfcx" -> lifts (lift_subf i) (execute_subfc i).
Proof.
  intros Hm. start. unfold lift_subf, read_ra, read_rb, write_rt. mnemonic Hm.
  do_read. do_read. do_arith Z.sub. do_write. unfold when at 1. apply wp_bind.
  eapply wp_emit_ca_from_sub; [side..|]. next_both. unfold execute_subfc, overflow. do_when.
  - eapply wp_emit_overflow_sub; [side..|]. next_both. do_record. finish. done.
  - do_record. finish. done.
Qed.

Lemma lift_subfic_lifts : lifts (lift_subfic i) (execute_subfic i).
Proof.
  start. unfold lift_subfic, read_ra, write_rt. do_constant. do_read. do_arith Z.sub. do_write.
  apply wp_bind. eapply wp_emit_ca_from_sub; [side..|]. next_both. finish. done.
Qed.

Lemma lift_neg_lifts : oe i = false -> lifts (lift_neg i) (execute_neg i).
Proof.
  intros Hoe0. start. unfold lift_neg, read_ra, write_rt. do_read. apply wp_bind.
  eapply (wp_pure _ _ _ _ _ _ _ _ _ [_] (TInt I64 (u64 (0 - get_gpr s (ra i)))));
    [side|cbn; lia|done|lookup_args|done..|]. intros nr st2 e2 Ha2 Hv2 _. advance Ha2.
  do_write. rewrite Hoe0. apply wp_bind, wp_bret. do_record. finish. done.
Qed.
End Arithmetic.
