(* ===== verification/IntegerAgree.v ===== *)
(** * Compiled integer code against the fallback interpreter: all families

    Logic, rotates and shifts, and the instructions that narrow their operands to a
    word; then [comparable i], the set of integer instructions on which the two paths
    agree: every one the interpreter executes, with the overflow-enabled forms of
    the multiply, divide and negate families (the interpreter leaves OV and SO
    alone) and the algebraic right shifts onto one of their own sources (the
    interpreter derives the carry from the shifted register) left out. *)

From S2P Require Import Prelude.
From S2P Require Import Words.
From S2P Require Import Instr.
From S2P Require Import Decoder.
From S2P Require Import CpuState.
From S2P Require Import AotScalar.
From S2P Require Import Ir.
From S2P Require Import IrValue.
From S2P Require Import Services.
From S2P Require Import IrSem.
From S2P Require Import IrRefine.
From S2P Require Import PassSim.
From S2P Require Import Lifter.
From S2P Require Import LiftWp.
From S2P Require Import Fallback.
From S2P Require Import IntegerParity.

Ltac do_bitwise f :=
  apply wp_bind; eapply (wp_bitwise64 _ _ _ _ f); [pick_op|solve_ready|eassumption..|side|side|];
  let r := fresh "r" in let st' := fresh "st" in let e' := fresh "e" in
  let Ha := fresh "Ha" in let Hv := fresh "Hv" in let Hu := fresh "Hu" in
  intros r st' e' Ha Hv Hu; advance Ha.
Ltac do_not := apply wp_bind; eapply wp_not64; [side|eassumption|next_value].

#[export] Hint Resolve not64_range : lift.
#[export] Hint Extern 2 (is_u64 _) => unfold is_u64; lia : lift.
#[export] Hint Extern 1 (is_u64 (if _ then _ else _)) => case_match : lift.

(** ** Rotate masks *)

Lemma arch_bits_range width l acc :
  0 <= acc < 2 ^ width -> Forall (λ p, 0 <= p < width) l ->
  0 <= foldl (λ mask p, mask .| (1 .<< (width - 1 - p))) acc l < 2 ^ width.
Proof.
  intros Hacc Hl. revert acc Hacc. induction Hl as [|p l Hp _ IH]; intros acc Hacc; [done|].
  cbn. apply IH. apply lor_bound; [lia|done|]. rewrite Z.shiftl_1_l.
  split; [apply Z.pow_nonneg; lia|]. apply Z.pow_lt_mono_r; lia.
Qed.

Lemma rotate_mask_range width mb me :
  0 <= mb < width -> 0 <= me < width -> 0 <= rotate_mask width mb me < 2 ^ width.
Proof.
  intros Hb He. unfold rotate_mask, arch_bits.
  assert (0 <= 0 < 2 ^ width) by (split; [lia|apply Z.pow_pos_nonneg; lia]).
  destruct (Z.leb_spec mb me); apply arch_bits_range; [done| |done|].
  - apply Forall_forall. intros p Hp. apply elem_of_seqZ in Hp. lia.
  - apply Forall_forall. intros p Hp. apply elem_of_app in Hp as [Hp|Hp]; apply elem_of_seqZ in Hp; lia.
Qed.

Lemma land_63_range x : 0 <= x .& 63 < 64.
Proof. change 63 with (Z.ones 6). rewrite Z.land_ones by lia. apply Z.mod_pos_bound. lia. Qed.

Lemma mask64_range mb me : is_u64 (mask64 mb me).
Proof. apply (rotate_mask_range 64); apply land_63_range. Qed.
Lemma mask32_range mb me : is_u32 (mask32 mb me).
Proof. apply (rotate_mask_range 32); apply land31_range. Qed.
#[export] Hint Resolve mask64_range : lift.

Lemma sh64_range i : 0 <= sh64_md i < 64.
Proof.
  unfold sh64_md. apply (lor_bound 6); [lia| |].
  - pose proof (land31_range (di_word i .>> 11)). lia.
  - pose proof (land_bound_l 2 2 (di_word i) ltac:(lia) ltac:(lia)) as Hb. rewrite Z.land_comm in Hb.
    rewrite Z.shiftl_mul_pow2 by lia. lia.
Qed.
Lemma mb64_range i : 0 <= mb64_md i < 64.
Proof.
  unfold mb64_md. apply (lor_bound 6); [lia| |].
  - pose proof (land31_range (di_word i .>> 6)). lia.
  - rewrite Z.land_comm. by apply land_bound_l.
Qed.

Lemma land63_small r : 0 <= r < 64 -> u32 r .& 63 = r.
Proof.
  intros Hr. rewrite u32_small by (unfold is_u32; lia).
  change 63 with (Z.ones 6). rewrite Z.land_ones by lia. by apply Z.mod_small.
Qed.

Lemma int_range v z : has_type I64 v -> v = TInt I64 z -> is_u64 z.
Proof. intros Ht ->. destruct Ht as (_ & _ & Hz). exact Hz. Qed.

(** ** The algebraic right shifts, from their operands *)

Definition shift_amount (i : DecodedInstruction) (s : CpuState) : Z :=
  if one_of (mnemonic i) ["srawx"; "sradx"] then get_gpr s (rb i)
  else if String.eqb (mnemonic i) "srawix" then sh32 i else sh64_md i.

Definition algebraic_shift (i : DecodedInstruction) (s : CpuState) : CpuState :=
  let m := mnemonic i in
  let value := ppc_shift m (get_gpr s (rs i)) (shift_amount i s) in
  record i value
    (set_xer_ca (ppc_shift_carry m (get_gpr s (rs i)) (shift_amount i s)) (set_gpr (ra i) value s)).

Section Logic.
Context {W : Type} `{MemoryPort W, RuntimeServices W, HostHelpers W}.
Context (fuel : nat) (w : W) (g : option GuestAddress) (i : DecodedInstruction).

Abbreviation lifts := (lifts fuel w g).

Lemma wp_choose {A C} (c1 c2 : B A) (b : bool) (k : A -> B C) Q st e s :
  (b = true -> wp fuel w g (bbind c1 k) Q st e s) -> (b = false -> wp fuel w g (bbind c2 k) Q st e s) ->
  wp fuel w g (bbind (if b then c1 else c2) k) Q st e s.
Proof. destruct b; intros H1' H2'; [by apply H1'|by apply H2']. Qed.

Lemma bind_assoc {A C D} (c : B A) (k1 : A -> B C) (k2 : C -> B D) st e s Q :
  wp fuel w g (bbind c (λ a, bbind (k1 a) k2)) Q st e s -> wp fuel w g (bbind (bbind c k1) k2) Q st e s.
Proof.
  intros Hw. unfold wp, bbind in *. destruct Hw as (a & st' & l & e' & s' & E & rest).
  exists a, st', l, e', s'. split; [|exact rest]. destruct (c st) as [[x st1]|]; [exact E|done].
Qed.

Lemma lift_logical_lifts : lifts (lift_logical i) (execute_logical i).
Proof.
  start. unfold lift_logical, read_rb. do_read. do_read. unfold execute_logical.
  repeat (apply wp_choose; intros Hc; rewrite Hc; clear Hc).
  all: try (apply bind_assoc).
  all: first [do_not | do_bitwise Z.land | do_bitwise Z.lor | do_bitwise Z.lxor].
  all: try first [do_not | do_bitwise Z.land | do_bitwise Z.lor].
  all: do_write; do_record; finish; reflexivity.
Qed.

Lemma uimm_shifted : is_u64 (uimm16 i .<< 16).
Proof.
  pose proof (uimm16_range i) as Hu. rewrite Z.shiftl_mul_pow2 by lia. change (2 ^ 16) with 0x10000.
  unfold is_u16 in Hu. unfold is_u64. lia.
Qed.

Lemma lift_logical_immediate_lifts : lifts (lift_logical_immediate i) (execute_logical_immediate i).
Proof.
  start. unfold lift_logical_immediate. do_read. unfold execute_logical_immediate.
  assert (Himm : is_u64 (if one_of (mnemonic i) ["oris"; "xoris"; "andisx"]
                         then uimm16 i .<< 16 else uimm16 i)).
  { destruct (one_of _ _); [apply uimm_shifted|apply is_u16_u64, uimm16_range]. }
  cbv zeta. set (imm := if one_of _ _ then _ else _) in *. do_constant.
  destruct (one_of (mnemonic i) ["ori"; "oris"]); [|destruct (one_of (mnemonic i) ["xori"; "xoris"])].
  all: first [do_bitwise Z.lor | do_bitwise Z.lxor | do_bitwise Z.land]; do_write;
    apply wp_bind; apply wp_when; intros Hx; rewrite Hx;
    [eapply wp_emit_cr0; [side|eassumption|reflexivity|side|]; next_both; finish; reflexivity
    |finish; reflexivity].
Qed.

Lemma wp_rotl64 a c x n Q st e s :
  ready 1 st e -> e !! a = Some (TInt I64 x) -> e !! c = Some (TInt I64 n) -> 0 <= n < 64 ->
  (forall r st' e', after 1 st e st' e' -> e' !! r = Some (TInt I64 (rotl 64 x n)) ->
     is_u64 (rotl 64 x n) -> Q r st' e' s) ->
  wp fuel w g (emit0 Op.Rotl I64 [a; c]) Q st e s.
Proof.
  intros Hr Ha Hc Hn HQ.
  eapply (wp_pure _ _ _ _ _ _ _ _ _ [_; _] (TInt I64 (rotate_left64 x (u32 n))));
    [done|cbn; lia|done|lookup_args|done..|].
  intros r st' e' Hst Hv Ht. pose proof (int_range _ _ Ht eq_refl) as Hrange.
  unfold rotate_left64 in *. rewrite land63_small in * by done. by apply HQ.
Qed.

Ltac do_rotl64 :=
  apply wp_bind; eapply wp_rotl64; [side|eassumption|eassumption|side|];
  let r := fresh "r" in let st' := fresh "st" in let e' := fresh "e" in
  let Ha := fresh "Ha" in let Hv := fresh "Hv" in let Hu := fresh "Hu" in
  intros r st' e' Ha Hv Hu; advance Ha.

Lemma lift_rldc_lifts :
  one_of (mnemonic i) ["rldclx"; "rldcrx"] = true -> lifts (lift_rldc i) (execute_rld i).
Proof.
  intros Hm. start. unfold lift_rldc, read_rb. do_read. do_read.
  apply wp_bind. eapply wp_constant_i64; [side|unfold is_u64; lia|next_value].
  do_bitwise Z.land. pose proof (land_63_range (get_gpr s (rb i))).
  do_rotl64. cbv zeta. apply wp_bind. eapply wp_constant_i64; [side|side|next_value].
  do_bitwise Z.land.
  do_write. do_record. finish. unfold execute_rld. rewrite Hm.
  mnemonic_cases Hm; by rewrite Hm.
Qed.

Lemma lift_rld_lifts :
  one_of (mnemonic i) ["rldiclx"; "rldicrx"; "rldicx"; "rldimix"] = true ->
  lifts (lift_rld i) (execute_rld i).
Proof.
  intros Hm. start. unfold lift_rld. pose proof (sh64_range i) as Hsh.
  assert (Hrange : (if one_of (mnemonic i) ["rldicrx"; "rldcrx"] then (0, mb64_md i)
    else if one_of (mnemonic i) ["rldicx"; "rldimix"] then (mb64_md i, u32 (63 - sh64_md i))
    else (mb64_md i, 63)) = rld_range i /\ one_of (mnemonic i) ["rldclx"; "rldcrx"] = false).
  { unfold rld_range. mnemonic_cases Hm; by rewrite Hm. }
  unfold execute_rld. destruct Hrange as [Hrange Hreg]. cbv zeta. rewrite Hreg, Hrange.
  do_read. apply wp_bind. eapply wp_constant_i64; [side|unfold is_u64; lia|next_value]. do_rotl64.
  destruct (rld_range i) as [mb me]. do_constant. do_bitwise Z.land.
  apply wp_choose; intros Hx; rewrite Hx.
  - apply bind_assoc. do_read. apply bind_assoc. do_constant. apply bind_assoc.
    do_bitwise Z.land. do_bitwise Z.lor. do_write. do_record. finish. reflexivity.
  - apply wp_bind, wp_bret. do_write. do_record. finish. reflexivity.
Qed.

Lemma wp_ppc_shift type op a c x n (v : TVal) Q st e s :
  mnemonic i <> "" -> (exists info, di_info i = Some info /\ opcode_info (oi_id info) = Some info) ->
  (op = Op.PpcShift /\ type = I64 /\ v = TInt I64 (u64 (ppc_shift (mnemonic i) x n))) \/
  (op = Op.PpcShiftCarry /\ type = I1 /\ v = tbool (ppc_shift_carry (mnemonic i) x n)) ->
  ready 1 st e -> e !! a = Some (TInt I64 x) -> e !! c = Some (TInt I64 n) ->
  (forall r st' e', after 1 st e st' e' -> e' !! r = Some v -> Q r st' e' s) ->
  wp fuel w g (emit op type [a; c] (info_pattern i) (di_word i) (Some i)) Q st e s.
Proof.
  intros Hne (info & Hi & Hinfo) Hop Hr Ha Hc HQ.
  assert (Hmeta : forall r args, shift_metadata_ok (tagged (Some i) st op type r args (info_pattern i) (di_word i)) = true
    /\ guest_mnemonic (tagged (Some i) st op type r args (info_pattern i) (di_word i)) = mnemonic i).
  { intros r args. unfold shift_metadata_ok, guest_mnemonic, tagged, origin, opcode_id, info_pattern, mnemonic.
    rewrite Hi. cbn -[opcode_info]. rewrite Hinfo. by rewrite Z.eqb_refl. }
  eapply (wp_pure _ _ _ _ _ _ _ _ _ [TInt I64 x; TInt I64 n] v);
    [done|cbn; lia| |lookup_args| | | |intros r st' e' Hst Hv _; by apply HQ];
    destruct Hop as [(-> & -> & ->)|(-> & -> & ->)]; try done;
    unfold eval_pure; cbn [tagged i_op]; fold (tagged (Some i)); destruct (Hmeta (bl_next_value st) [a; c]) as [Hm1 Hm2];
    unfold tagged in *; rewrite Hm1, Hm2; reflexivity.
Qed.

Lemma ppc_shift_range m x n : is_u64 x -> is_u64 (ppc_shift m x n).
Proof.
  intros Hx. unfold ppc_shift. pose proof (land_0x3F_range n). pose proof (land_0x7F_range n).
  assert (Hz : is_u64 0) by (unfold is_u64; lia).
  assert (Hs : forall v k, is_u64 v -> 0 <= k -> is_u64 (v .>> k)).
  { intros v k Hv Hk. unfold is_u64 in *. rewrite Z.shiftr_div_pow2 by done.
    split; [by apply Z_div_nonneg_nonneg; [lia|apply Z.pow_nonneg]|].
    apply Z.div_lt_upper_bound; [lia|]. assert (0 < 2 ^ k) by lia. nia. }
  repeat case_match; try apply u64_range; try done; try (apply is_u32_u64, u32_range); apply Hs; try lia;
    try done; apply is_u32_u64, u32_range.
Qed.

Lemma get_gpr_set_ne r r' v s : r <> r' -> get_gpr (set_gpr r v s) r' = get_gpr s r'.
Proof. intros Hne. unfold get_gpr, set_gpr. cbn. by rewrite lookup_insert_ne. Qed.

(** An instruction the decoder produced: its row is the catalogue's for its identity. *)
Definition catalogued : Prop := exists info, di_info i = Some info /\ opcode_info (oi_id info) = Some info.

Lemma lift_shift_plain_lifts :
  catalogued -> one_of (mnemonic i) ["slwx"; "srwx"; "sldx"; "srdx"] = true ->
  lifts (lift_shift i) (execute_shift i).
Proof.
  intros Hcat Hm. start. pose proof (ppc_shift_range (mnemonic i) (get_gpr s (rs i)) (get_gpr s (rb i)) ltac:(side)).
  unfold lift_shift, execute_shift, read_rb. do_read.
  mnemonic_cases Hm; rewrite Hm in *; mnemonic Hm; do_read; apply wp_bind;
    (eapply (wp_ppc_shift I64 Op.PpcShift); [by rewrite Hm|exact Hcat|rewrite Hm; pick_op|side..|]);
    next_value; rewrite u64_small in * by done; do_write; apply wp_bind, wp_bret; do_record; finish;
    reflexivity.
Qed.

Lemma lifts_ext c f f' : (forall s, f s = f' s) -> lifts c f -> lifts c f'.
Proof using Type.
  intros Hf Hc st e s Hr Hs. eapply wp_mono; [|by apply Hc]. cbn. intros ok st' e' s' (? & -> & ?).
  by rewrite Hf.
Qed.

(** What the lifter makes of an algebraic right shift: result and carry from the operands. *)
Lemma lift_algebraic_lifts :
  catalogued -> one_of (mnemonic i) ["srawx"; "sradx"; "srawix"; "sradix"] = true ->
  lifts (lift_shift i) (algebraic_shift i).
Proof.
  intros Hcat Hm. start.
  unfold lift_shift, algebraic_shift, shift_amount, read_rb. cbv zeta. do_read.
  assert (Hsh : is_u64 (if String.eqb (mnemonic i) "srawix" then sh32 i else sh64_md i)).
  { pose proof (sh64_range i). pose proof (land31_range (di_word i .>> 11)).
    unfold sh32, is_u64. destruct (String.eqb _ _); lia. }
  pose proof (ppc_shift_range (mnemonic i) (get_gpr s (rs i)) (get_gpr s (rb i)) ltac:(side)) as Hrb.
  pose proof (ppc_shift_range (mnemonic i) (get_gpr s (rs i))
    (if String.eqb (mnemonic i) "srawix" then sh32 i else sh64_md i) ltac:(side)) as Hr.
  mnemonic_cases Hm; rewrite Hm in *; mnemonic Hm; cbn [String.eqb Ascii.eqb Bool.eqb] in Hsh, Hr;
    try change (rb i) with (sh32 i); first [do_constant|do_read]; apply wp_bind;
    (eapply (wp_ppc_shift I64 Op.PpcShift); [by rewrite Hm|exact Hcat|rewrite Hm; pick_op|side..|]);
    next_value; rewrite u64_small in * by done; do_write; (apply wp_bind, wp_when_true; [reflexivity|]); apply wp_bind;
    (eapply (wp_ppc_shift I1 Op.PpcShiftCarry); [by rewrite Hm|exact Hcat|rewrite Hm; pick_op|side..|]);
    next_value; (eapply (wp_set_flag _ _ _ Op.SetXerCA set_xer_ca); [pick_op|side..|]); next_state;
    do_record; finish; reflexivity.
Qed.

Lemma lift_shift_carry_lifts :
  catalogued -> one_of (mnemonic i) ["srawx"; "sradx"] = true -> ra i <> rs i -> ra i <> rb i ->
  lifts (lift_shift i) (execute_shift i).
Proof.
  intros Hcat Hm Hrs Hrb. eapply lifts_ext; [|apply lift_algebraic_lifts; [done|]].
  - intros s. unfold execute_shift, algebraic_shift, shift_amount. cbv zeta. rewrite !get_gpr_set_ne by done.
    mnemonic_cases Hm; by mnemonic Hm.
  - mnemonic_cases Hm; by mnemonic Hm.
Qed.

Lemma lift_shift_immediate_lifts :
  catalogued -> one_of (mnemonic i) ["srawix"; "sradix"] = true -> ra i <> rs i ->
  lifts (lift_shift i) (execute_shift_immediate i).
Proof.
  intros Hcat Hm Hrs. eapply lifts_ext; [|apply lift_algebraic_lifts; [done|]].
  - intros s. unfold execute_shift_immediate, algebraic_shift, shift_amount. cbv zeta.
    rewrite !get_gpr_set_ne by done. mnemonic_cases Hm; by mnemonic Hm.
  - mnemonic_cases Hm; by mnemonic Hm.
Qed.
End Logic.

(** ** Narrow operands of the runtime helpers *)

Lemma u32_u32 x : u32 (u32 x) = u32 x. Proof. word_lia. Qed.
Lemma s32_u32 x : s32 (u32 x) = s32 x. Proof. unfold s32. by rewrite u32_u32. Qed.
Lemma s32_u64 x : s32 (u64 x) = s32 x. Proof. unfold s32. by rewrite u32_u64. Qed.
Lemma s8_u8 x : s8 (u8 x) = s8 x. Proof. word_lia. Qed.
Lemma s16_u16 x : s16 (u16 x) = s16 x. Proof. word_lia. Qed.

(** The operand a word operation reads. *)
Definition cut (word : bool) (x : Z) : Z := if word then u32 x else x.

Lemma mul_hi_signed_cut word a b :
  mul_hi_signed_width (cut word a) (cut word b) (word_bits word) = mul_hi_signed_width a b (word_bits word).
Proof. destruct word; [|done]. unfold mul_hi_signed_width, word_bits, cut. by rewrite !s32_u32. Qed.
Lemma mul_hi_unsigned_cut word a b :
  mul_hi_unsigned_width (cut word a) (cut word b) (word_bits word) = mul_hi_unsigned_width a b (word_bits word).
Proof. destruct word; [|done]. unfold mul_hi_unsigned_width, word_bits, cut. by rewrite !u32_u32. Qed.
Lemma div_signed_cut word a b :
  div_signed (cut word a) (cut word b) (word_bits word) = div_signed a b (word_bits word).
Proof. destruct word; [|done]. unfold div_signed, word_bits, cut. by rewrite !s32_u32. Qed.
Lemma div_unsigned_cut word a b :
  div_unsigned (cut word a) (cut word b) (word_bits word) = div_unsigned a b (word_bits word).
Proof. destruct word; [|done]. unfold div_unsigned, word_bits, cut. by rewrite !u32_u32. Qed.

Lemma mul_hi_signed_u64 a b w : is_u64 (mul_hi_signed_width a b w).
Proof.
  unfold mul_hi_signed_width, mul_hi_signed, mul_hi_unsigned. repeat case_match;
    first [apply u64_range | apply is_u32_u64, u32_range].
Qed.
Lemma mul_hi_unsigned_u64 a b w : is_u64 (mul_hi_unsigned_width a b w).
Proof.
  unfold mul_hi_unsigned_width, mul_hi_unsigned. case_match; [apply is_u32_u64, u32_range|apply u64_range].
Qed.
Lemma div_signed_u64 a b w : is_u64 (div_signed a b w).
Proof.
  unfold div_signed. repeat case_match; first [apply u64_range | apply is_u32_u64, u32_range|unfold is_u64; lia].
Qed.
Lemma div_unsigned_u64 a b w : is_u64 a -> is_u64 b -> is_u64 (div_unsigned a b w).
Proof.
  intros Ha Hb. unfold div_unsigned. repeat case_match;
    first [apply is_u32_u64, u32_range|unfold is_u64; lia|idtac].
  unfold is_u64 in *. destruct (Z.eqb_spec b 0); [done|].
  split; [apply Z.quot_pos; lia|]. apply Z.quot_lt_upper_bound; nia.
Qed.

Lemma countl_zero_range w v : 0 < w -> 0 <= v < 2 ^ w -> 0 <= countl_zero w v <= w.
Proof.
  intros Hw Hv. unfold countl_zero. destruct (Z.eqb_spec v 0); [lia|].
  pose proof (Z.log2_nonneg v). assert (Z.log2 v < w) by (apply Z.log2_lt_pow2; lia). lia.
Qed.

Lemma not32_mask m : not64 m .& 0xFFFFFFFF = not32 m.
Proof.
  unfold not64, not32. change 0xFFFFFFFF with (Z.ones 32). rewrite Z.land_ones by lia.
  change (?x mod 2 ^ 32) with (u32 x). apply u32_u64.
Qed.
Lemma land31_u32 x : u32 x .& 31 = x .& 31.
Proof.
  change 31 with (Z.ones 5). rewrite !Z.land_ones by lia. unfold u32. change 0x100000000 with (2 ^ 5 * 2 ^ 27).
  rewrite Z.rem_mul_r by lia. rewrite Z.mul_comm, Z_mod_plus_full. by rewrite Zmod_mod.
Qed.

(** ** Rules *)

Section Rules.
Context {W : Type} `{MemoryPort W, RuntimeServices W, HostHelpers W}.
Context (fuel : nat) (w : W) (g : option GuestAddress).

Abbreviation wp := (wp fuel w g).

Lemma wp_narrow word a x Q st e s :
  ready 1 st e -> e !! a = Some (TInt I64 x) ->
  (forall r st' e', after 1 st e st' e' -> e' !! r = Some (TInt (word_type word) (cut word x)) ->
     Q r st' e' s) ->
  wp (narrow word a) Q st e s.
Proof.
  intros Hr Ha HQ. destruct word; cbn [narrow word_type cut] in *.
  - eapply (wp_pure _ _ _ _ _ _ _ _ _ [_] (TInt I32 (u32 x))); [done|cbn; lia|done|lookup_args|done..|].
    intros r st' e' Hst Hv _. by apply HQ.
  - apply wp_bret. apply HQ; [|done]. eapply after_weaken; [|apply after_refl]. lia.
Qed.

Lemma wp_word2 op (f : Z -> Z -> Z) word imm0 imm1 guest a c x y Q st e s :
  (op = Op.Mul /\ f = Z.mul) \/
  (op = Op.MulHighSigned /\ f = (λ x y, mul_hi_signed_width x y (word_bits word))) \/
  (op = Op.MulHighUnsigned /\ f = (λ x y, mul_hi_unsigned_width x y (word_bits word))) \/
  (op = Op.DivSigned /\ f = (λ x y, div_signed x y imm0)) \/
  (op = Op.DivUnsigned /\ f = (λ x y, div_unsigned x y imm0)) ->
  ready 1 st e -> e !! a = Some (TInt (word_type word) x) -> e !! c = Some (TInt (word_type word) y) ->
  (forall r st' e', after 1 st e st' e' ->
     e' !! r = Some (TInt (word_type word) (cut word (u64 (f x y)))) -> Q r st' e' s) ->
  wp (emit op (word_type word) [a; c] imm0 imm1 guest) Q st e s.
Proof.
  intros Hop Hr Ha Hc HQ.
  assert (Hcut : wrap (word_type word) (f x y) = cut word (u64 (f x y))).
  { destruct word; [|done]. cbn [cut]. by rewrite u32_u64. }
  eapply (wp_pure _ _ _ _ _ _ _ _ _ [_; _] (TInt (word_type word) (wrap (word_type word) (f x y))));
    [done|cbn; lia|by destruct word|lookup_args|..|intros r st' e' Hst Hv _; apply HQ; [done|by rewrite <- Hcut]];
    destruct Hop as [[-> ->]|[[-> ->]|[[-> ->]|[[-> ->]|[-> ->]]]]]; by destruct word.
Qed.

Lemma wp_widen word (uns : bool) a x Q st e s :
  ready 1 st e -> e !! a = Some (TInt (word_type word) (cut word x)) -> is_u64 x ->
  (forall r st' e', after 1 st e st' e' ->
     e' !! r = Some (TInt I64 (word_result word uns x)) -> is_u64 (word_result word uns x) -> Q r st' e' s) ->
  wp (widen word (if uns then Op.ZeroExtend else Op.SignExtend) a) Q st e s.
Proof.
  intros Hr Ha Hx HQ. destruct word; cbn [widen word_type cut word_result] in *.
  - assert (is_u64 (if uns then u32 x else sign_extend_word x)).
    { destruct uns; [apply is_u32_u64, u32_range|apply u64_range]. }
    eapply (wp_pure _ _ _ _ _ _ _ _ _ [_] (TInt I64 (if uns then u32 x else sign_extend_word x)));
      [done|cbn; lia|done|lookup_args|by destruct uns| |by destruct uns|intros r st' e' Hst Hv _; by apply HQ].
    destruct uns; unfold eval_pure, tagged, sign_extend_word; cbn -[u64 u32 s32].
    + by rewrite wrap64, u64_u32.
    + by rewrite wrap64, s32_u32.
  - apply wp_bret. apply HQ; [|done|done]. eapply after_weaken; [|apply after_refl]. lia.
Qed.
End Rules.

Section Wide.
Context {W : Type} `{MemoryPort W, RuntimeServices W, HostHelpers W}.
Context (fuel : nat) (w : W) (g : option GuestAddress) (i : DecodedInstruction).

Abbreviation lifts := (lifts fuel w g).

Ltac do_narrow := apply wp_bind; eapply wp_narrow; [side|eassumption|next_value].
Ltac do_word2 f :=
  apply wp_bind; eapply (wp_word2 _ _ _ _ f); [pick_op|side|eassumption..|next_value].
(** The last four steps of a word operation with a 64-bit result. *)
Ltac do_widen :=
  apply wp_bind; eapply wp_widen; [side|eassumption|side|];
  let r := fresh "r" in let st' := fresh "st" in let e' := fresh "e" in
  let Ha := fresh "Ha" in let Hv := fresh "Hv" in let Hu := fresh "Hu" in
  intros r st' e' Ha Hv Hu; advance Ha.

Lemma cut_mul word a c :
  word_result word false (u64 (cut word a * cut word c)) =
  (if word then sign_extend_word (u64 (cut word a * cut word c)) else u64 (cut word a * cut word c)).
Proof. by destruct word. Qed.

Lemma lift_mul_lifts : oe i = false -> lifts (lift_mul i) (execute_mul i).
Proof.
  intros Hoe. start. unfold lift_mul, read_ra, read_rb, write_rt. cbv zeta.
  set (word := String.eqb (mnemonic i) "mullwx").
  do_read. do_read. do_narrow. do_narrow. do_word2 Z.mul.
  apply wp_bind. eapply (wp_widen _ _ _ word false); [side|eassumption|apply u64_range|].
  intros rx stx ex Hax Hvx Hux. advance Hax. do_write. rewrite Hoe. apply wp_bind, wp_bret. do_record. finish.
  unfold execute_mul. fold word. by rewrite cut_mul.
Qed.

Lemma lift_mulh_lifts :
  one_of (mnemonic i) ["mulhdx"; "mulhdux"; "mulhwx"; "mulhwux"] = true ->
  lifts (lift_mulh i) (execute_mulh i).
Proof.
  intros Hm. start. unfold lift_mulh, read_ra, read_rb, write_rt. cbv zeta.
  assert (Hword : contains "hw" (mnemonic i) = one_of (mnemonic i) ["mulhwx"; "mulhwux"] /\
    contains "hdu" (mnemonic i) || contains "hwu" (mnemonic i) = one_of (mnemonic i) ["mulhdux"; "mulhwux"]).
  { clear -Hm. mnemonic_cases Hm; by rewrite Hm. }
  destruct Hword as [-> ->].
  set (word := one_of _ ["mulhwx"; "mulhwux"]). set (uns := one_of _ ["mulhdux"; "mulhwux"]).
  do_read. do_read. do_narrow. do_narrow.
  apply wp_bind. eapply (wp_word2 _ _ _ _ (λ x y, if uns then mul_hi_unsigned_width x y (word_bits word)
                                                   else mul_hi_signed_width x y (word_bits word)));
    [destruct uns; pick_op|side|eassumption..|]. next_value.
  do_widen. do_write. do_record. finish.
  unfold execute_mulh. fold word uns. change (if word then 32 else 64) with (word_bits word).
  rewrite mul_hi_signed_cut, mul_hi_unsigned_cut.
  rewrite u64_small; [reflexivity|]. destruct uns; [apply mul_hi_unsigned_u64|apply mul_hi_signed_u64].
Qed.

Lemma lift_div_lifts :
  one_of (mnemonic i) ["divdx"; "divdux"; "divwx"; "divwux"] = true -> oe i = false ->
  lifts (lift_div i) (execute_div i).
Proof.
  intros Hm Hoe. start. unfold lift_div, read_ra, read_rb, write_rt. cbv zeta.
  assert (Hword : contains "w" (mnemonic i) = one_of (mnemonic i) ["divwx"; "divwux"] /\
    contains "du" (mnemonic i) || contains "wu" (mnemonic i) = one_of (mnemonic i) ["divdux"; "divwux"]).
  { clear -Hm. mnemonic_cases Hm; by rewrite Hm. }
  destruct Hword as [-> ->].
  set (word := one_of _ ["divwx"; "divwux"]). set (uns := one_of _ ["divdux"; "divwux"]).
  do_read. do_read. do_narrow. do_narrow.
  apply wp_bind. eapply (wp_word2 _ _ _ _ (λ x y, if uns then div_unsigned x y (word_bits word)
                                                   else div_signed x y (word_bits word)));
    [destruct uns; pick_op|side|eassumption..|]. next_value.
  do_widen. do_write. rewrite Hoe. apply wp_bind, wp_bret. do_record. finish.
  unfold execute_div. fold word uns. change (if word then 32 else 64) with (word_bits word).
  rewrite div_signed_cut, div_unsigned_cut.
  rewrite u64_small; [reflexivity|]. destruct uns; [apply div_unsigned_u64; by apply Hgpr|apply div_signed_u64].
Qed.

Lemma lift_extend_lifts :
  one_of (mnemonic i) ["extsbx"; "extshx"; "extswx"] = true -> lifts (lift_extend i) (execute_extend i).
Proof.
  intros Hm. start. unfold lift_extend. do_read. unfold execute_extend.
  mnemonic_cases Hm; mnemonic Hm; apply wp_bind;
    (eapply (wp_pure _ _ _ _ _ _ _ _ _ [_]); [side|cbn; lia|done|lookup_args|done..|]);
    intros r1 st1 e1 Ha1 Hv1 _; advance Ha1; apply wp_bind;
    (eapply (wp_pure _ _ _ _ _ _ _ _ _ [_]); [side|cbn; lia|done|lookup_args|done..|]);
    intros r2 st2 e2 Ha2 Hv2 Ht2; advance Ha2; pose proof (int_range _ _ Ht2 eq_refl); do_write; do_record; finish;
    [change (signed_view I8 ?x) with (s8 x); change (wrap I8 ?x) with (u8 x); by rewrite s8_u8
    |change (signed_view I16 ?x) with (s16 x); change (wrap I16 ?x) with (u16 x); by rewrite s16_u16
    |change (signed_view I32 ?x) with (s32 x); change (wrap I32 ?x) with (u32 x); by rewrite s32_u32].
Qed.

Lemma lift_count_zeros_lifts : lifts (lift_count_zeros i) (execute_count_zeros i).
Proof.
  start. unfold lift_count_zeros, execute_count_zeros. cbv zeta. do_read.
  set (word := String.eqb (mnemonic i) "cntlzwx"). do_narrow.
  assert (Hx : 0 <= cut word (get_gpr s (rs i)) < 2 ^ word_bits word).
  { destruct word; [apply u32_range|by apply Hgpr]. }
  pose proof (countl_zero_range (word_bits word) _ ltac:(by destruct word) Hx) as Hz.
  assert (Hval : is_u64 (countl_zero (word_bits word) (cut word (get_gpr s (rs i))))).
  { unfold is_u64. destruct word; cbn [word_bits] in Hz |- *; lia. }
  apply wp_bind.
  eapply (wp_pure _ _ _ _ _ _ _ _ _ [_] (TInt (word_type word) (cut word (countl_zero (word_bits word)
    (cut word (get_gpr s (rs i))))))); [side|cbn; lia|by destruct word|lookup_args|done| |by destruct word|].
  { destruct word; [done|]. cbn [word_bits cut] in Hval |- *. rewrite <- (u64_small _ Hval). reflexivity. }
  intros r2 st2 e2 Ha2 Hv2 _. advance Ha2.
  apply wp_bind. eapply (wp_widen _ _ _ word true); [side|eassumption|done|].
  intros r3 st3 e3 Ha3 Hv3 Hu3. advance Ha3. do_write. do_record. finish.
  assert (word_result word true (countl_zero (word_bits word) (cut word (get_gpr s (rs i)))) =
    if word then countl_zero 32 (u32 (get_gpr s (rs i))) else countl_zero 64 (get_gpr s (rs i))) as ->; [|done].
  destruct word; [|done]. cbn [word_result]. apply u32_small. unfold is_u32. cbn [word_bits cut] in *. lia.
Qed.

Lemma compare_relation (x y a b : Z) : (a = b <-> x = y) ->
  exclusive (a <? b) (b <? a) (x =? y) = true /\ forall so, cr_compare_field (a <? b) (b <? a) (x =? y) so =
    (if a <? b then 0x8 else if b <? a then 0x4 else 0x2) .| (if so : bool then 0x1 else 0).
Proof.
  intros Hab. unfold exclusive, cr_compare_field.
  destruct (Z.ltb_spec a b), (Z.ltb_spec b a), (Z.eqb_spec x y); try lia;
    (split; [done|]); intros []; done.
Qed.

Lemma s32_inj a b : is_u32 a -> is_u32 b -> (s32 a = s32 b <-> a = b).
Proof. word_lia. Qed.
Lemma s64_inj a b : is_u64 a -> is_u64 b -> (s64 a = s64 b <-> a = b).
Proof. word_lia. Qed.

Lemma wp_compare_pair (logical : bool) word a c x y Q st e s :
  ready 4 st e -> e !! a = Some (TInt (word_type word) (cut word x)) ->
  e !! c = Some (TInt (word_type word) (cut word y)) -> is_u64 x -> is_u64 y ->
  (forall st' e', after 4 st e st' e' -> Q true st' e' (write_compare (crfd i) x y logical word s)) ->
  wp fuel w g (let! lt := emit0 (if logical then Op.CompareUlt else Op.CompareSlt) I1 [a; c] in
      let! gt := emit0 (if logical then Op.CompareUgt else Op.CompareSgt) I1 [a; c] in
      let! eq := emit0 Op.CompareEq I1 [a; c] in
      let! so := emit0 Op.ReadXerSO I1 [] in
      do! emit_void Op.WriteCRCompare [lt; gt; eq; so] (crfd i) in bret true) Q st e s.
Proof.
  intros Hready Ha Hc Hx Hy HQ. pose proof (after_refl st e) as Hafter.
  set (t := word_type word) in *. set (X := cut word x) in *. set (Y := cut word y) in *.
  set (view := λ z, if logical then z else signed_view t z).
  assert (Ht : is_wide_int_type t = true) by by destruct word.
  assert (Hself : forall z, viewed t (TInt t z) = Some z) by by destruct word.
  apply wp_bind. eapply (wp_compare _ _ _ _ (negb logical) (λ t x y, (if logical then x else signed_view t x) <?
     (if logical then y else signed_view t y)));
    [destruct logical; pick_op|side|eassumption..|reflexivity|apply Hself|done|]. next_value.
  apply wp_bind. eapply (wp_compare _ _ _ _ (negb logical) (λ t x y, (if logical then y else signed_view t y) <?
     (if logical then x else signed_view t x)));
    [destruct logical; pick_op|side|eassumption..|reflexivity|apply Hself|done|]. next_value.
  apply wp_bind. eapply (wp_compare _ _ _ Op.CompareEq false (λ _ x y, x =? y));
    [pick_op|side|eassumption..|reflexivity|apply Hself|done|]. next_value.
  apply wp_bind. eapply (wp_read_flag _ _ _ Op.ReadXerSO xer_so); [pick_op|side|]. next_value.
  fold (view X) (view Y) in *.
  assert (Hinj : view X = view Y <-> X = Y).
  { unfold view, t, X, Y. destruct logical; [done|].
    destruct word; [apply s32_inj; apply u32_range|by apply s64_inj]. }
  destruct (compare_relation X Y _ _ Hinj) as [Hexcl Hfield].
  apply wp_bind. eapply wp_write_cr_compare; [side|eassumption..|exact Hexcl|]. next_state.
  apply wp_bret. rewrite Hfield.
  replace (set_cr_field _ _ s) with (write_compare (crfd i) x y logical word s); [by apply HQ|].
  unfold write_compare, view, X, Y, t, cut. destruct word, logical; cbn [word_type signed_view];
    rewrite ?s32_u32; reflexivity.
Qed.

Lemma lift_compare_lifts : lifts (lift_compare i) (execute_compare i).
Proof.
  start. unfold lift_compare, execute_compare, read_ra, read_rb. cbv zeta.
  set (logical := one_of _ ["cmpl"; "cmpli"]). set (word := _ =? 0). clearbody logical word.
  do_read.
  set (rhs := if one_of _ _ then _ else get_gpr s (rb i)).
  assert (Hrhs : is_u64 rhs).
  { unfold rhs. destruct (one_of _ _); [|by apply Hgpr]. destruct logical; [|apply u64_range].
    apply is_u16_u64, uimm16_range. }
  apply wp_bind. apply (wp_mono _ _ _ _ (λ r st' e' s', after 1 st0 e0 st' e' /\ s' = s /\ e' !! r = Some (TInt I64 rhs))).
  2: { unfold rhs in *. destruct (one_of _ _).
       - eapply wp_constant_i64; [side|done|]. by intros r1 st1 e1 Ha1 Hv1.
       - eapply wp_read_gpr; [side..|]. by intros r1 st1 e1 Ha1 Hv1. }
  intros r1 st1 e1 s1 (Ha1 & -> & Hv1). advance Ha1.
  do_narrow. do_narrow.
  eapply wp_compare_pair; [side|eassumption|eassumption|side|done|]. next_both.
  split_and!; [done|done|eapply after_weaken; [|eassumption]; unfold budget; lia].
Qed.

(** ** The 32-bit rotates

    Their masks are 64-bit constants: the selected bits are a mixed-width value,
    which only the zero extension consumes. *)

Lemma wp_rotl32 a c x v n Q st e s :
  ready 1 st e -> e !! a = Some (TInt I32 x) -> e !! c = Some v -> any_int v = Some n ->
  (forall r st' e', after 1 st e st' e' -> e' !! r = Some (TInt I32 (rotl 32 x (n .& 31))) ->
     is_u32 (rotl 32 x (n .& 31)) -> Q r st' e' s) ->
  wp fuel w g (emit0 Op.Rotl I32 [a; c]) Q st e s.
Proof.
  intros Hr Ha Hc Hn HQ.
  eapply (wp_pure _ _ _ _ _ _ _ _ _ [_; v] (TInt I32 (rotate_left32 x (u32 n))));
    [done|cbn; lia|done|lookup_args|done| |done|].
  { unfold eval_pure, tagged. cbn -[rotate_left32 u32 any_int]. by rewrite Hn. }
  intros r st' e' Hst Hv Ht. destruct Ht as (_ & _ & Hrange).
  unfold rotate_left32 in *. rewrite land31_u32 in *. by apply HQ.
Qed.

Definition bits_of (v : TVal) (x : Z) : Prop :=
  bit_operand I32 v = Some (x, false) \/ bit_operand I32 v = Some (x, true).

Lemma mask_loose x : is_u32 x -> bit_operand I32 (TInt I64 x) = Some (x, true).
Proof.
  intros Hx. cbn -[decide]. rewrite decide_False by done. rewrite decide_True by done.
  destruct (Z.ltb_spec x 0x100000000); [done|]. unfold is_u32 in Hx. lia.
Qed.

(** [vb] is one of the mixed-width operands. *)
Lemma wp_bitwise32 op (f : Z -> Z -> Z) a c va vb x y Q st e s :
  (op = Op.And /\ f = Z.land) \/ (op = Op.Or /\ f = Z.lor) ->
  ready 1 st e -> e !! a = Some va -> e !! c = Some vb ->
  bits_of va x -> bit_operand I32 vb = Some (y, true) -> is_u32 x -> is_u32 y ->
  (forall r st' e', after 1 st e st' e' -> e' !! r = Some (TLoose (f x y)) -> is_u32 (f x y) -> Q r st' e' s) ->
  wp fuel w g (emit0 op I32 [a; c]) Q st e s.
Proof.
  intros Hop Hr Ha Hc Hx Hy Hux Huy HQ.
  assert (Hf : is_u32 (f x y)).
  { destruct Hop as [[_ ->]|[_ ->]]; [by apply land_u32|by apply lor_u32]. }
  assert (He : bitwise Lifted f I32 va vb = Some (TLoose (f x y))).
  { unfold bitwise. cbn -[bit_operand wrap bool_decide]. rewrite Hy.
    destruct Hx as [->| ->]; cbn -[wrap]; rewrite wrap32, u32_small by done; done. }
  eapply (wp_pure _ _ _ _ _ _ _ _ _ [va; vb] (TLoose (f x y)));
    [done|cbn; lia|done|lookup_args|..|intros r st' e' Hst Hv _; by apply HQ];
    destruct Hop as [[-> ->]|[-> ->]]; done.
Qed.

Lemma wp_extend_loose a x Q st e s :
  ready 1 st e -> e !! a = Some (TLoose x) ->
  (forall r st' e', after 1 st e st' e' -> e' !! r = Some (TLooseExt x) -> Q r st' e' s) ->
  wp fuel w g (emit0 Op.ZeroExtend I64 [a]) Q st e s.
Proof.
  intros Hr Ha HQ.
  eapply (wp_pure _ _ _ _ _ _ _ _ _ [_] (TLooseExt x)); [done|cbn; lia|done|lookup_args|done..|].
  intros r st' e' Hst Hv _. by apply HQ.
Qed.

Ltac do_bitwise32 f :=
  apply wp_bind; eapply (wp_bitwise32 _ f);
    [pick_op|side|eassumption|eassumption|first [by left|by right]
    |first [reflexivity|apply mask_loose; side]|side|side|];
  let r := fresh "r" in let st' := fresh "st" in let e' := fresh "e" in
  let Ha := fresh "Ha" in let Hv := fresh "Hv" in let Hu := fresh "Hu" in
  intros r st' e' Ha Hv Hu; advance Ha.

Lemma sh32_range : is_u64 (sh32 i).
Proof. unfold sh32. pose proof (land31_range (di_word i .>> 11)). unfold is_u64. lia. Qed.

Lemma wp_shift_amount Q st e s :
  ready 2 st e -> wf_state s ->
  (forall r st' e' v n, after 2 st e st' e' -> e' !! r = Some v -> any_int v = Some n ->
     n .& 31 = (if String.eqb (mnemonic i) "rlwnmx" then get_gpr s (rb i) .& 31 else sh32 i) -> Q r st' e' s) ->
  wp fuel w g (if String.eqb (mnemonic i) "rlwnmx" then let! rb := read_rb i in emit0 Op.Truncate I32 [rb]
      else constant_i64 (sh32 i)) Q st e s.
Proof.
  intros Hready Hwf HQ. pose proof (wf_get_gpr s) as Hgpr. pose proof (after_refl st e) as Hafter.
  destruct (String.eqb _ _).
  - unfold read_rb. do_read. eapply (wp_narrow _ _ _ true); [side|eassumption|]. next_value.
    eapply HQ; [eassumption..|reflexivity|]. apply land31_u32.
  - eapply wp_constant_i64; [side|apply sh32_range|]. next_value.
    eapply HQ; [eapply after_weaken; [|eassumption]; lia|eassumption|reflexivity|].
    unfold sh32. apply land31_small, land31_range.
Qed.

#[local] Hint Resolve u32_range mask32_range not32_range sh32_range : lift.
#[local] Hint Extern 1 (is_u64 (mask32 _ _)) => apply is_u32_u64, mask32_range : lift.
#[local] Hint Extern 1 (is_u64 (not32 _)) => apply is_u32_u64, not32_range : lift.
#[local] Hint Extern 2 (is_u64 _) => apply is_u32_u64; assumption : lift.

Lemma lift_rlw_lifts : lifts (lift_rlw i) (execute_rlw i).
Proof.
  start. unfold lift_rlw, execute_rlw. cbv zeta. rewrite not32_mask. do_read.
  apply wp_bind. eapply (wp_narrow _ _ _ true); [side|eassumption|]. next_value.
  apply wp_bind. eapply wp_shift_amount; [side|done|]. intros r2 st2 e2 v n Ha2 Hv2 Hn <-. advance Ha2.
  apply wp_bind. eapply wp_rotl32; [side|eassumption..|]. intros r3 st3 e3 Ha3 Hv3 Hu3. advance Ha3.
  do_constant. do_bitwise32 Z.land.
  apply wp_choose; intros Hx; rewrite Hx.
  - apply bind_assoc. do_read. apply bind_assoc.
    apply wp_bind. eapply (wp_narrow _ _ _ true); [side|eassumption|]. next_value.
    apply bind_assoc. do_constant. apply bind_assoc. do_bitwise32 Z.land. do_bitwise32 Z.lor.
    apply wp_bind. eapply wp_extend_loose; [side|eassumption|]. next_value.
    do_write. do_record. finish. reflexivity.
  - apply wp_bind, wp_bret. apply wp_bind. eapply wp_extend_loose; [side|eassumption|]. next_value.
    do_write. do_record. finish. reflexivity.
Qed.
End Wide.

Definition interpreted_integer : list string :=
  ["addi"; "addis"; "addx"; "addcx"; "addic"; "addicx"; "addex"; "addmex"; "addzex";
   "subfex"; "subfmex"; "subfzex"; "subfx"; "subfcx"; "subficx"; "mulli"; "mulldx"; "mullwx";
   "mulhdx"; "mulhdux"; "mulhwx"; "mulhwux"; "divdx"; "divdux"; "divwx"; "divwux"; "negx";
   "andx"; "andcx"; "orx"; "orcx"; "xorx"; "eqvx"; "nandx"; "norx";
   "ori"; "oris"; "xori"; "xoris"; "andix"; "andisx"; "extsbx"; "extshx"; "extswx";
   "cntlzdx"; "cntlzwx"; "cmp"; "cmpl"; "cmpi"; "cmpli"; "rlwinmx"; "rlwimix"; "rlwnmx";
   "rldclx"; "rldcrx"; "rldiclx"; "rldicrx"; "rldicx"; "rldimix";
   "slwx"; "srwx"; "srawx"; "srawix"; "sldx"; "srdx"; "sradx"; "sradix"].

(** The integer instructions on which both paths agree on every state. *)
Definition comparable (i : DecodedInstruction) : bool :=
  let m := mnemonic i in
  one_of m interpreted_integer &&
  negb (one_of m ["negx"; "mulldx"; "mullwx"; "divdx"; "divdux"; "divwx"; "divwux"] && oe i) &&
  negb (one_of m ["srawx"; "sradx"; "srawix"; "sradix"] && (ra i =? rs i)) &&
  negb (one_of m ["srawx"; "sradx"] && (ra i =? rb i)).

Definition interpreted (i : DecodedInstruction) (s : CpuState) : CpuState := (execute_integer i s).2.

Section Agreement.
Context {W : Type} `{MemoryPort W, RuntimeServices W, HostHelpers W}.
Context (fuel : nat) (w : W) (g : option GuestAddress) (i : DecodedInstruction).

Abbreviation lifts := (lifts fuel w g).

(** The parity lemma of a family. *)
Ltac family Hm Hcat :=
  lazymatch goal with
  | |- IntegerParity.lifts _ _ _ (lift_addi _) _ => apply lift_addi_lifts
  | |- IntegerParity.lifts _ _ _ (lift_mulli _) _ => apply lift_mulli_lifts
  | |- IntegerParity.lifts _ _ _ (lift_add _) _ =>
      first [apply (lift_addx_lifts _ _ _ _ Hm) | apply (lift_addcx_lifts _ _ _ _ Hm)]
  | |- IntegerParity.lifts _ _ _ (lift_addic _) _ => apply lift_addic_lifts
  | |- IntegerParity.lifts _ _ _ (lift_adde _) _ => apply lift_adde_lifts; rewrite Hm; reflexivity
  | |- IntegerParity.lifts _ _ _ (lift_subfe _) _ => apply lift_subfe_lifts; rewrite Hm; reflexivity
  | |- IntegerParity.lifts _ _ _ (lift_subf _) _ =>
      first [apply (lift_subfx_lifts _ _ _ _ Hm) | apply (lift_subfcx_lifts _ _ _ _ Hm)]
  | |- IntegerParity.lifts _ _ _ (lift_subfic _) _ => apply lift_subfic_lifts
  | |- IntegerParity.lifts _ _ _ (lift_neg _) _ => apply lift_neg_lifts; assumption
  | |- IntegerParity.lifts _ _ _ (lift_logical _) _ => apply lift_logical_lifts
  | |- IntegerParity.lifts _ _ _ (lift_logical_immediate _) _ => apply lift_logical_immediate_lifts
  | |- IntegerParity.lifts _ _ _ (lift_rldc _) _ => apply lift_rldc_lifts; rewrite Hm; reflexivity
  | |- IntegerParity.lifts _ _ _ (lift_rld _) _ => apply lift_rld_lifts; rewrite Hm; reflexivity
  | |- IntegerParity.lifts _ _ _ (lift_mul _) _ => apply lift_mul_lifts; assumption
  | |- IntegerParity.lifts _ _ _ (lift_mulh _) _ => apply lift_mulh_lifts; rewrite Hm; reflexivity
  | |- IntegerParity.lifts _ _ _ (lift_div _) _ =>
      apply lift_div_lifts; [rewrite Hm; reflexivity|assumption]
  | |- IntegerParity.lifts _ _ _ (lift_extend _) _ => apply lift_extend_lifts; rewrite Hm; reflexivity
  | |- IntegerParity.lifts _ _ _ (lift_count_zeros _) _ => apply lift_count_zeros_lifts
  | |- IntegerParity.lifts _ _ _ (lift_compare _) _ => apply lift_compare_lifts
  | |- IntegerParity.lifts _ _ _ (lift_rlw _) _ => apply lift_rlw_lifts
  | |- IntegerParity.lifts _ _ _ (lift_shift _) _ =>
      first [ apply lift_shift_plain_lifts; [exact Hcat|rewrite Hm; reflexivity]
            | apply lift_shift_carry_lifts; [exact Hcat|rewrite Hm; reflexivity|assumption|assumption]
            | apply lift_shift_immediate_lifts; [exact Hcat|rewrite Hm; reflexivity|assumption] ]
  end.

Lemma integer_lifts :
  catalogued i -> comparable i = true ->
  lifts (lift_integer i) (interpreted i) /\ forall s, (execute_integer i s).1 = true.
Proof.
  intros Hcat Hc. unfold comparable in Hc. rewrite !andb_true_iff, !negb_true_iff in Hc.
  destruct Hc as (((Hm & Hoe) & Hrs) & Hrb).
  assert (Hin : forall l, one_of (mnemonic i) l = true -> forall b, one_of (mnemonic i) l && b = false -> b = false)
    by (by intros ? -> []).
  unfold interpreted_integer in Hm.
  mnemonic_cases Hm; (split; [|intros s; unfold execute_integer; by mnemonic Hm]).
  all: rewrite ?Hm in Hoe, Hrs, Hrb; cbn [one_of existsb String.eqb Ascii.eqb Bool.eqb orb andb] in Hoe, Hrs, Hrb.
  all: rewrite ?Z.eqb_neq in Hrs; rewrite ?Z.eqb_neq in Hrb.
  all: unfold lift_integer; mnemonic Hm; eapply lifts_ext; [|family Hm Hcat].
  all: intros s; unfold interpreted, execute_integer; mnemonic Hm; reflexivity.
Qed.
End Agreement.
