(* ===== verification/StateWf.v ===== *)
(** * What the integer interpreter keeps of the CPU state

    Every register stays within its width, and the interpreter leaves the rest of
    the state alone. *)

From S2P Require Import Prelude.
From S2P Require Import Words.
From S2P Require Import Instr.
From S2P Require Import CpuState.
From S2P Require Import AotScalar.
From S2P Require Import Ir.
From S2P Require Import IrValue.
From S2P Require Import Services.
From S2P Require Import IrSem.
From S2P Require Import IrRefine.
From S2P Require Import Lifter.
From S2P Require Import LiftWp.
From S2P Require Import Fallback.
From S2P Require Import IntegerParity.
From S2P Require Import IntegerAgree.

Lemma ldiff_u32 x y : is_u32 x -> is_u32 (Z.ldiff x y).
Proof.
  intros Hx. rewrite Z.ldiff_land. apply land_u32_l. exact Hx.
Qed.

Lemma wf_set_gpr r v s : wf_state s -> 0 <= r < 32 -> is_u64 v -> wf_state (set_gpr r v s).
Proof.
  intros [] Hr Hv. constructor; try done. cbn. by apply map_Forall_insert_2.
Qed.

Lemma wf_set_cr v s : wf_state s -> is_u32 v -> wf_state (set_cr v s).
Proof. intros [] Hv. by constructor. Qed.
Lemma wf_set_xer v s : wf_state s -> is_u32 v -> wf_state (set_xer v s).
Proof. intros [] Hv. by constructor. Qed.

Lemma wf_set_cr_field f v s : wf_state s -> wf_state (set_cr_field f v s).
Proof.
  intros Hs. apply wf_set_cr; [done|]. apply lor_u32; [|apply u32_range]. apply ldiff_u32, wf_cr, Hs.
Qed.

Lemma wf_update_cr0 v s : wf_state s -> wf_state (update_cr0_signed v s).
Proof. apply wf_set_cr_field. Qed.

Lemma flag_update_u32 x f b : is_u32 x -> is_u32 f -> is_u32 (flag_update x f b).
Proof. intros Hx Hf. destruct b; [by apply lor_u32|by apply ldiff_u32]. Qed.

Lemma wf_set_xer_ca b s : wf_state s -> wf_state (set_xer_ca b s).
Proof. intros Hs. apply wf_set_xer; [done|]. apply flag_update_u32; [by apply wf_xer|done]. Qed.
Lemma wf_set_xer_overflow b s : wf_state s -> wf_state (set_xer_overflow b s).
Proof.
  intros Hs. assert (wf_state (set_xer_ov b s)).
  { apply wf_set_xer; [done|]. apply flag_update_u32; [by apply wf_xer|done]. }
  destruct b; cbn; [|done]. apply wf_set_xer; [done|]. apply flag_update_u32; [by apply wf_xer|done].
Qed.

#[export] Hint Resolve wf_set_gpr wf_set_cr_field wf_update_cr0 wf_set_xer_ca wf_set_xer_overflow : wf.
#[export] Hint Resolve rt_range ra_range u64_range wf_get_gpr : wf.
#[export] Hint Extern 1 (0 <= rs _ < 32) => apply rt_range : wf.

Section Interpreter.
Context (i : DecodedInstruction).

Lemma wf_record v s : wf_state s -> wf_state (record i v s).
Proof. unfold record. destruct (rc i); auto with wf. Qed.
Lemma wf_overflow b s : wf_state s -> wf_state (overflow i b s).
Proof. unfold overflow. destruct (oe i); auto with wf. Qed.

(** Instructions that end by storing a result and recording it. *)
Lemma wf_result r v s : wf_state s -> 0 <= r < 32 -> is_u64 v -> wf_state (record i v (set_gpr r v s)).
Proof. intros. apply wf_record. auto with wf. Qed.

Lemma word_result_u64 word uns v : is_u64 v -> is_u64 (word_result word uns v).
Proof. intros Hv. destruct word, uns; cbn; [apply is_u32_u64, u32_range|apply u64_range|done|done]. Qed.

Lemma rotl_range32 v r : is_u32 v -> 0 <= r < 32 -> is_u32 (rotl 32 v r).
Proof. intros Hv Hr. apply (rotl_range 32); [done|lia|done]. Qed.
Lemma rotl_range64 v r : is_u64 v -> 0 <= r < 64 -> is_u64 (rotl 64 v r).
Proof. intros Hv Hr. apply (rotl_range 64); [done|lia|done]. Qed.

Context (s : CpuState) (Hs : wf_state s).

#[local] Hint Resolve wf_result wf_record wf_overflow Hs : wf.
#[local] Hint Extern 2 (is_u64 _) => first [apply u64_range | apply not64_range | by apply wf_get_gpr] : wf.

Lemma gpr_u64 r : is_u64 (get_gpr s r).
Proof. by apply wf_get_gpr. Qed.
#[local] Hint Resolve gpr_u64 land_u64 lor_u64 lxor_u64 not64_range : wf.

Lemma wf_logical_immediate : wf_state (execute_logical_immediate i s).
Proof.
  unfold execute_logical_immediate. cbv zeta.
  assert (Himm : is_u64 (if one_of (mnemonic i) ["oris"; "xoris"; "andisx"]
                         then uimm16 i .<< 16 else uimm16 i)).
  { destruct (one_of _ _); [apply uimm_shifted|apply is_u16_u64, uimm16_range]. }
  set (imm := if one_of _ _ then _ else _) in *. clearbody imm.
  destruct (one_of (mnemonic i) ["ori"; "oris"]), (one_of (mnemonic i) ["xori"; "xoris"]),
    (one_of (mnemonic i) ["andix"; "andisx"]);
    auto 6 with wf.
Qed.

Lemma wf_logical : wf_state (execute_logical i s).
Proof.
  unfold execute_logical. cbv zeta. apply wf_result; [done|apply ra_range|].
  repeat (case_match; auto 4 with wf).
Qed.

Lemma wf_mul : wf_state (execute_mul i s).
Proof. unfold execute_mul. apply wf_result; [done|apply rt_range|]. case_match; apply u64_range. Qed.

Lemma wf_mulh : wf_state (execute_mulh i s).
Proof.
  unfold execute_mulh. apply wf_result; [done|apply rt_range|]. apply word_result_u64.
  destruct (one_of _ ["mulhdux"; "mulhwux"]); [apply mul_hi_unsigned_u64|apply mul_hi_signed_u64].
Qed.

Lemma wf_div : wf_state (execute_div i s).
Proof.
  unfold execute_div. apply wf_result; [done|apply rt_range|]. apply word_result_u64.
  destruct (one_of _ ["divdux"; "divwux"]); [by apply div_unsigned_u64; apply gpr_u64|apply div_signed_u64].
Qed.

Lemma wf_extend : wf_state (execute_extend i s).
Proof.
  unfold execute_extend. apply wf_result; [done|apply ra_range|]. repeat case_match; apply u64_range.
Qed.

Lemma wf_count_zeros : wf_state (execute_count_zeros i s).
Proof.
  unfold execute_count_zeros. apply wf_result; [done|apply ra_range|].
  pose proof (countl_zero_range 32 (u32 (get_gpr s (rs i))) ltac:(lia) (u32_range _)).
  pose proof (countl_zero_range 64 (get_gpr s (rs i)) ltac:(lia) (gpr_u64 _)).
  unfold is_u64. case_match; lia.
Qed.

Lemma wf_rlw : wf_state (execute_rlw i s).
Proof.
  unfold execute_rlw. apply wf_result; [done|apply ra_range|]. apply is_u32_u64.
  assert (Hrot : forall sh, 0 <= sh < 32 ->
    is_u32 (rotl 32 (u32 (get_gpr s (rs i))) sh .& mask32 (mb32 i) (me32 i))).
  { intros sh Hsh. apply land_u32; [|apply mask32_range]. apply rotl_range32; [apply u32_range|done]. }
  assert (Hsh : 0 <= (if String.eqb (mnemonic i) "rlwnmx" then get_gpr s (rb i) .& 31 else sh32 i) < 32).
  { case_match; apply land31_range. }
  specialize (Hrot _ Hsh). destruct (String.eqb (mnemonic i) "rlwimix"); [|done]. apply lor_u32; [|done]. apply land_u32_l, u32_range.
Qed.

Lemma wf_rld : wf_state (execute_rld i s).
Proof.
  unfold execute_rld. cbv zeta.
  set (sh := if one_of _ ["rldclx"; "rldcrx"] then _ else _).
  assert (Hsh : 0 <= sh < 64).
  { unfold sh. case_match; [apply land_63_range|apply sh64_range]. }
  destruct (if one_of _ ["rldicrx"; "rldcrx"] then _ else _) as [mb me].
  assert (is_u64 (rotl 64 (get_gpr s (rs i)) sh .& mask64 mb me)).
  { apply land_u64; [|apply mask64_range]. apply rotl_range64; [apply gpr_u64|done]. }
  apply wf_result; [done|apply ra_range|]. case_match; [|done]. apply lor_u64; [|done]. apply land_u64_l, gpr_u64.
Qed.

Lemma wf_shift : wf_state (execute_shift i s).
Proof.
  unfold execute_shift. cbv zeta. apply wf_record. pose proof (ppc_shift_range (mnemonic i) _ (get_gpr s (rb i)) (gpr_u64 (rs i))).
  case_match; auto with wf.
Qed.

Lemma wf_shift_immediate : wf_state (execute_shift_immediate i s).
Proof.
  unfold execute_shift_immediate. cbv zeta. apply wf_record. apply wf_set_xer_ca, wf_set_gpr; [done|apply ra_range|].
  apply ppc_shift_range, gpr_u64.
Qed.

Lemma wf_compare : wf_state (execute_compare i s).
Proof. unfold execute_compare, write_compare. case_match. by apply wf_set_cr_field. Qed.

(** Registers stay within their widths. *)
Lemma execute_integer_wf : wf_state (execute_integer i s).2.
Proof.
  unfold execute_integer.
  repeat (case_match; [cbn [snd]|]); try exact Hs.
  all: first [apply wf_logical_immediate | apply wf_logical | apply wf_mul | apply wf_mulh | apply wf_div
    | apply wf_extend | apply wf_count_zeros | apply wf_rlw | apply wf_rld | apply wf_shift
    | apply wf_shift_immediate | apply wf_compare | idtac].
  - unfold execute_addi. auto with wf.
  - unfold execute_addic. case_match; auto 6 with wf.
  - unfold execute_add_subf. cbv zeta. apply wf_record, wf_overflow, wf_set_gpr; [done|apply rt_range|].
    case_match; apply u64_range.
  - unfold execute_add_carry. cbv zeta. apply wf_record, wf_overflow, wf_set_xer_ca, wf_set_gpr; auto with wf.
  - unfold execute_subfc. cbv zeta. apply wf_record, wf_overflow, wf_set_xer_ca, wf_set_gpr; auto with wf.
  - unfold execute_subfe. cbv zeta. apply wf_record, wf_overflow, wf_set_xer_ca, wf_set_gpr; auto with wf.
  - unfold execute_subfic. cbv zeta. apply wf_set_xer_ca, wf_set_gpr; auto with wf.
  - unfold execute_neg. auto with wf.
  - unfold execute_mulli. auto with wf.
Qed.
End Interpreter.

(** ** The rest of the state *)

(** The link register and the program counters, which integer instructions neither
    read nor write. *)
Definition aside (l c n : Z) (s : CpuState) : CpuState :=
  mkCpu (gpr s) (fpr_bits s) (vr s) l (ctr s) (cr s) (xer s) (fpscr s) (vscr s)
    (msr s) (vrsave s) (pvr s) (time_base s) c n (reservation s).

Lemma aside_self s : aside (lr s) (cia s) (nia s) s = s.
Proof. by destruct s. Qed.
Lemma aside_twice l c n l' c' n' s : aside l c n (aside l' c' n' s) = aside l c n s.
Proof. done. Qed.

Section Aside.
Context (l c n : Z) (i : DecodedInstruction).
Abbreviation f := (aside l c n).

Lemma get_gpr_aside s r : get_gpr (f s) r = get_gpr s r.
Proof. done. Qed.
Lemma xer_ca_aside s : xer_ca (f s) = xer_ca s.
Proof. done. Qed.
Lemma set_gpr_aside r v s : set_gpr r v (f s) = f (set_gpr r v s).
Proof. done. Qed.
Lemma set_xer_ca_aside b s : set_xer_ca b (f s) = f (set_xer_ca b s).
Proof. done. Qed.
Lemma update_cr0_aside v s : update_cr0_signed v (f s) = f (update_cr0_signed v s).
Proof. done. Qed.
Lemma record_aside v s : record i v (f s) = f (record i v s).
Proof. unfold record. by destruct (rc i). Qed.
Lemma overflow_aside b s : overflow i b (f s) = f (overflow i b s).
Proof. unfold overflow. by destruct (oe i), b. Qed.
Lemma write_compare_aside k a b logical word s : write_compare k a b logical word (f s) = f (write_compare k a b logical word s).
Proof. unfold write_compare. by destruct logical, word. Qed.

Lemma if_aside (t : bool) s s' : (if t then f s else f s') = f (if t then s else s').
Proof. by destruct t. Qed.
End Aside.

Create HintDb aside.
#[export] Hint Rewrite get_gpr_aside xer_ca_aside set_gpr_aside set_xer_ca_aside update_cr0_aside record_aside
  overflow_aside write_compare_aside if_aside : aside.

Lemma execute_integer_aside l c n i s :
  execute_integer i (aside l c n s) = ((execute_integer i s).1, aside l c n (execute_integer i s).2).
Proof.
  unfold execute_integer, execute_addi, execute_addic, execute_logical_immediate, execute_add_subf,
    execute_add_carry, execute_subfc, execute_subfe, execute_subfic, execute_logical, execute_neg, execute_mulli,
    execute_mul, execute_mulh, execute_div, execute_extend, execute_compare, execute_rlw, execute_rld,
    execute_shift, execute_shift_immediate, execute_count_zeros.
  cbv zeta. autorewrite with aside.
  repeat (match goal with |- (if ?t then _ else _) = _ => destruct t end;
    [first [reflexivity
           | match goal with |- context [let '(_, _) := ?x in _] => destruct x end; autorewrite with aside; reflexivity]|]).
  reflexivity.
Qed.

Lemma execute_integer_lr i s : lr (execute_integer i s).2 = lr s.
Proof.
  pose proof (execute_integer_aside (lr s) (cia s) (nia s) i s) as E. rewrite aside_self in E.
  by rewrite E.
Qed.

(** The state at rest. *)
Lemma wf_init : wf_state CpuState_init.
Proof. split; try done; try apply map_Forall_empty. Qed.
