(* ===== verification/LifterControl.v ===== *)
(** * The control lifter (src/cpu/ppc/lifter/control_flow.cpp)

    Branches, condition-register logic, special-purpose registers, traps and the
    FPSCR transfers. A branch writes the link register whether or not it is
    taken, and reads its target register before that write. *)

From S2P Require Import Prelude.
From S2P Require Import Words.
From S2P Require Import Instr.
From S2P Require Import Ir.
From S2P Require Import Lifter.

Open Scope builder_scope.

Definition binary (op : Op.t) (a c : ValueId) : B ValueId := emit0 op I1 [a; c].
Definition logical_not (v : ValueId) : B ValueId := emit0 Op.Not I1 [v].

Section Control.
Context (i : DecodedInstruction).
Abbreviation m := (mnemonic i).

(** [(bo & mask) != 0]. *)
Definition bo_set (mask : Z) : bool := negb (bo i .& mask =? 0).

(** BO[2] clear: CTR is decremented and compared with zero. *)
Definition ctr_condition : B ValueId :=
  let! ctr := read_ctr in
  let! one := constant_i64 1 in
  let! ctr := emit0 Op.Sub I64 [ctr; one] in
  do! write_ctr ctr in
  let! zero := constant_i64 0 in
  emit0 (if bo_set 2 then Op.CompareEq else Op.CompareNe) I1 [ctr; zero].

(** BO[0] clear: a condition-register bit is tested. *)
Definition cr_condition : B ValueId :=
  let! cr := emit Op.ReadCRBit I1 [] (bi i) 0 None in
  if bo_set 8 then bret cr else logical_not cr.

Definition branch_condition (use_ctr : bool) : B ValueId :=
  let! ctr_ok := if use_ctr && negb (bo_set 4) then ctr_condition else bret kNoValue in
  let! cond_ok := if negb (bo_set 16) then cr_condition else bret kNoValue in
  if negb (ctr_ok =? kNoValue) && negb (cond_ok =? kNoValue) then binary Op.And ctr_ok cond_ok
  else if negb (ctr_ok =? kNoValue) then bret ctr_ok
  else if negb (cond_ok =? kNoValue) then bret cond_ok
  else constant_i1 true.

(** [if (i.lk()) b.write_lr(b.constant_i64(i.address + 4))]. *)
Definition link : B unit :=
  if lk i then let! next := constant_i64 (u32 (di_address i + 4)) in write_lr next else bret tt.

Definition lift_bx : B bool :=
  let! target := constant_i64 (direct_branch_target i) in
  do! link in
  do! emit (if lk i then Op.Call else Op.Branch) Void [target] 0 0 (Some i) in bret true.

Definition lift_bcx : B bool :=
  let! cond := branch_condition true in
  let! target := constant_i64 (direct_branch_target i) in
  do! link in
  do! emit Op.BranchIf Void [cond; target] (if lk i then 1 else 0) 0 (Some i) in bret true.

Definition lift_bclrx : B bool :=
  let! target := read_lr in
  let! cond := branch_condition true in
  do! link in
  do! emit Op.BranchIndirect Void [cond; target] (if lk i then 1 else 0) 1 (Some i) in bret true.

Definition lift_bcctrx : B bool :=
  let! target := read_ctr in
  let! cond := branch_condition false in
  do! link in
  do! emit Op.BranchIndirect Void [cond; target] (if lk i then 1 else 0) 2 (Some i) in bret true.

Definition lift_cr_logical : B bool :=
  let bt := (di_word i .>> 21) .& 31 in
  let ba := (di_word i .>> 16) .& 31 in
  let bb := (di_word i .>> 11) .& 31 in
  let! va := emit Op.ReadCRBit I1 [] ba 0 None in
  let! vb := emit Op.ReadCRBit I1 [] bb 0 None in
  let! r :=
    if String.eqb m "crand" then binary Op.And va vb
    else if String.eqb m "crandc" then let! n := logical_not vb in binary Op.And va n
    else if String.eqb m "creqv" then let! x := binary Op.Xor va vb in logical_not x
    else if String.eqb m "crnand" then let! x := binary Op.And va vb in logical_not x
    else if String.eqb m "crnor" then let! x := binary Op.Or va vb in logical_not x
    else if String.eqb m "cror" then binary Op.Or va vb
    else if String.eqb m "crorc" then let! n := logical_not vb in binary Op.Or va n
    else binary Op.Xor va vb in
  do! emit Op.WriteCRBit Void [r] bt 0 None in bret true.

Definition lift_mcrf : B bool :=
  let bf := (di_word i .>> 23) .& 7 in
  let bfa := (di_word i .>> 18) .& 7 in
  let! v := emit Op.ReadCRField I8 [] bfa 0 None in
  do! emit Op.WriteCRField Void [v] bf 0 None in bret true.

Definition lift_mfcr : B bool :=
  let! v := emit0 Op.ReadCR I32 [] in
  let! wide := emit0 Op.ZeroExtend I64 [v] in
  do! write_gpr (rt i) wide in bret true.

Definition lift_mtcrf : B bool :=
  let! src := read_gpr (rs i) in
  do! emit Op.MoveCRFields Void [src] ((di_word i .>> 12) .& 0xFF) 0 (Some i) in bret true.

Definition lift_mcrxr : B bool :=
  do! emit Op.MoveXERToCR Void [] (crfd i) 0 (Some i) in bret true.

(** The upper half of the time base. *)
Definition upper_half (tb : ValueId) : B ValueId :=
  let! sh := constant_i64 32 in emit0 Op.ShrLogical I64 [tb; sh].

Definition lift_mfspr : B bool :=
  let spr := spr i in
  let! v :=
    if spr =? 1 then emit0 Op.ReadXER I32 []
    else if spr =? 8 then emit0 Op.ReadLR I64 []
    else if spr =? 9 then emit0 Op.ReadCTR I64 []
    else if spr =? 256 then emit0 Op.ReadVRSAVE I32 []
    else if spr =? 268 then emit0 Op.ReadTimeBase I64 []
    else if spr =? 269 then let! tb := emit0 Op.ReadTimeBase I64 [] in upper_half tb
    else if spr =? 287 then emit0 Op.ReadPVR I32 []
    else emit Op.ReadSPR I64 [] spr 0 (Some i) in
  let i32 := (spr =? 1) || (spr =? 256) || (spr =? 287) in
  let! v := if i32 then emit0 Op.ZeroExtend I64 [v] else bret v in
  do! write_gpr (rt i) v in bret true.

Definition lift_mtspr : B bool :=
  let spr := spr i in
  let! v := read_gpr (rs i) in
  if spr =? 1 then
    let! n := emit0 Op.Truncate I32 [v] in do! emit0 Op.WriteXER Void [n] in bret true
  else if spr =? 8 then do! emit0 Op.WriteLR Void [v] in bret true
  else if spr =? 9 then do! emit0 Op.WriteCTR Void [v] in bret true
  else if spr =? 256 then
    let! n := emit0 Op.Truncate I32 [v] in do! emit0 Op.WriteVRSAVE Void [n] in bret true
  else do! emit Op.WriteSPR Void [v] spr 0 (Some i) in bret true.

Definition lift_mftb : B bool :=
  let! tb := emit0 Op.ReadTimeBase I64 [] in
  let! tb := if spr i =? 269 then upper_half tb else bret tb in
  do! write_gpr (rt i) tb in bret true.

Definition lift_mfmsr : B bool :=
  let! v := emit0 Op.ReadMSR I64 [] in do! write_gpr (rt i) v in bret true.

Definition lift_mtmsr : B bool :=
  let! v := read_gpr (rs i) in
  do! emit Op.WriteMSR Void [v] ((di_word i .>> 16) .& 1)
        (if String.eqb m "mtmsrd" then 1 else 0) (Some i) in bret true.

Definition lift_sc : B bool :=
  do! emit Op.Syscall Void [] ((di_word i .>> 5) .& 0x7F) 0 (Some i) in bret true.

Definition lift_trap : B bool :=
  do! emit Op.Trap Void [] ((di_word i .>> 21) .& 31) (di_word i) (Some i) in bret true.

(** [if (i.rc()) b.emit(Op::UpdateCR1FromFPSCR, ...)]. *)
Definition record_cr1 : B unit :=
  when (rc i) (do! emit Op.UpdateCR1FromFPSCR Void [] 0 0 (Some i) in bret tt).

Definition lift_mffs : B bool :=
  let! fps := emit0 Op.ReadFPSCR I32 [] in
  let! raw := emit0 Op.ZeroExtend I64 [fps] in
  let! out := emit Op.MoveFPSCRToFPRBits I64 [raw] 0 0 (Some i) in
  do! write_fpr_bits (frt i) out in
  do! record_cr1 in bret true.

Definition lift_mcrfs : B bool :=
  do! emit Op.MoveFPSCRFieldToCR Void [] (crfd i) (crfs i) (Some i) in bret true.

Definition lift_mtfsb : B bool :=
  do! emit Op.SetFPSCRBit Void [] (rt i) (if String.eqb m "mtfsb1x" then 1 else 0) (Some i) in
  do! record_cr1 in bret true.

Definition lift_mtfsfi : B bool :=
  do! emit Op.WriteFPSCRFieldImmediate Void [] (crfd i) ((di_word i .>> 12) .& 0xF) (Some i) in
  do! record_cr1 in bret true.

Definition lift_mtfsf : B bool :=
  let! src := read_fpr_bits (rb i) in
  do! emit Op.WriteFPSCRFields Void [src] ((di_word i .>> 17) .& 0xFF) 0 (Some i) in
  do! record_cr1 in bret true.

Definition lift_mfvscr : B bool :=
  let! v := emit Op.MoveVSCRToVector V128 [] 0 0 (Some i) in
  do! write_vector (vd5 i) v in bret true.

Definition lift_mtvscr : B bool :=
  let! v := read_vector (vb5 i) in
  do! emit Op.MoveVectorToVSCR Void [v] 0 0 (Some i) in bret true.

Definition lift_control : B bool :=
  if one_of m ["bx"] then lift_bx
  else if one_of m ["bcx"] then lift_bcx
  else if one_of m ["bclrx"] then lift_bclrx
  else if one_of m ["bcctrx"] then lift_bcctrx
  else if one_of m ["crand"; "crandc"; "creqv"; "crnand"; "crnor"; "cror"; "crorc"; "crxor"]
  then lift_cr_logical
  else if one_of m ["mcrf"] then lift_mcrf
  else if one_of m ["mfcr"] then lift_mfcr
  else if one_of m ["mtcrf"] then lift_mtcrf
  else if one_of m ["mcrxr"] then lift_mcrxr
  else if one_of m ["mfspr"] then lift_mfspr
  else if one_of m ["mtspr"] then lift_mtspr
  else if one_of m ["mftb"] then lift_mftb
  else if one_of m ["mfmsr"] then lift_mfmsr
  else if one_of m ["mtmsr"; "mtmsrd"] then lift_mtmsr
  else if one_of m ["sc"] then lift_sc
  else if one_of m ["td"; "tdi"; "tw"; "twi"] then lift_trap
  else if one_of m ["mffsx"] then lift_mffs
  else if one_of m ["mcrfs"] then lift_mcrfs
  else if one_of m ["mtfsb0x"; "mtfsb1x"] then lift_mtfsb
  else if one_of m ["mtfsfix"] then lift_mtfsfi
  else if one_of m ["mtfsfx"] then lift_mtfsf
  else if one_of m ["mfvscr"] then lift_mfvscr
  else if one_of m ["mtvscr"] then lift_mtvscr
  else bret false.
End Control.
