(* ===== verification/LifterMemory.v ===== *)
(** * The memory lifter (src/cpu/ppc/lifter/memory.cpp)

    Scalar, multiple, string, floating-point, reservation, vector and cache
    accesses. The effective address stays a 64-bit value: update forms store it
    whole, and the access itself narrows it to a guest address. *)

From S2P Require Import Prelude.
From S2P Require Import Words.
From S2P Require Import Instr.
From S2P Require Import Ir.
From S2P Require Import Lifter.

Open Scope builder_scope.

(** [m.starts_with(p)] and [m.ends_with(s)]. *)
Definition starts_with (p m : string) : bool := String.prefix p m.
Definition ends_with (s m : string) : bool :=
  let n := String.length m in
  let k := String.length s in
  (k <=? n)%nat && String.eqb (String.substring (n - k) k m) s.

(** ** Descriptors of the scalar accesses *)

Record AccessDesc : Type := mkAccess {
  ad_name : string;
  ad_bytes : Z;
  ad_sign : bool;
  ad_update : bool;
  ad_indexed : bool;
  ad_endian : Endian
}.

(** Rows of the macros [L] and [S]. *)
Definition load_row (name : string) (bytes : Z) (sign update indexed : bool) : AccessDesc :=
  mkAccess name bytes sign update indexed Big.
Definition store_row (name : string) (bytes : Z) (update indexed : bool) : AccessDesc :=
  mkAccess name bytes false update indexed Big.
Definition reversed (name : string) (bytes : Z) : AccessDesc :=
  mkAccess name bytes false false true Little.

Definition scalar_loads : list AccessDesc :=
  [load_row "lbz" 1 false false false; load_row "lbzu" 1 false true false;
   load_row "lbzx" 1 false false true; load_row "lbzux" 1 false true true;
   load_row "lha" 2 true false false; load_row "lhau" 2 true true false;
   load_row "lhax" 2 true false true; load_row "lhaux" 2 true true true;
   load_row "lhz" 2 false false false; load_row "lhzu" 2 false true false;
   load_row "lhzx" 2 false false true; load_row "lhzux" 2 false true true;
   load_row "lwa" 4 true false false; load_row "lwax" 4 true false true; load_row "lwaux" 4 true true true;
   load_row "lwz" 4 false false false; load_row "lwzu" 4 false true false;
   load_row "lwzx" 4 false false true; load_row "lwzux" 4 false true true;
   load_row "ld" 8 false false false; load_row "ldu" 8 false true false;
   load_row "ldx" 8 false false true; load_row "ldux" 8 false true true;
   reversed "lhbrx" 2; reversed "lwbrx" 4; reversed "ldbrx" 8].

Definition scalar_stores : list AccessDesc :=
  [store_row "stb" 1 false false; store_row "stbu" 1 true false; store_row "stbx" 1 false true; store_row "stbux" 1 true true;
   store_row "sth" 2 false false; store_row "sthu" 2 true false; store_row "sthx" 2 false true; store_row "sthux" 2 true true;
   store_row "stw" 4 false false; store_row "stwu" 4 true false; store_row "stwx" 4 false true; store_row "stwux" 4 true true;
   store_row "std" 8 false false; store_row "stdu" 8 true false; store_row "stdx" 8 false true; store_row "stdux" 8 true true;
   reversed "sthbrx" 2; reversed "stwbrx" 4; reversed "stdbrx" 8].

Definition find_desc (m : string) (table : list AccessDesc) : option AccessDesc :=
  find (λ d, String.eqb m (ad_name d)) table.
Definition scalar_load_desc (m : string) : option AccessDesc := find_desc m scalar_loads.
Definition scalar_store_desc (m : string) : option AccessDesc := find_desc m scalar_stores.

Definition width_type (bytes : Z) : IrType :=
  if bytes =? 1 then I8 else if bytes =? 2 then I16 else if bytes =? 4 then I32 else I64.

(** ** Effective addresses *)

Definition mem_add (a c : ValueId) : B ValueId := emit0 Op.Add I64 [a; c].

Definition add_immediate (base : ValueId) (displacement : Z) : B ValueId :=
  if displacement =? 0 then bret base
  else emit Op.AddImmediate I64 [base] (u64 displacement) 0 None.

Section Memory.
Context (i : DecodedInstruction).
Abbreviation m := (mnemonic i).

(** [ea_d] and [ea_ds], by their displacement. *)
Definition ea_displaced (displacement : Z) (update : bool) : B ValueId :=
  if negb update && (ra i =? 0) then constant_i64 (u64 displacement)
  else let! base := read_gpr (ra i) in add_immediate base displacement.
Definition ea_d (update : bool) : B ValueId := ea_displaced (simm16 i) update.
Definition ea_ds (update : bool) : B ValueId := ea_displaced (ds_displacement i) update.

(** The two register reads are arguments of one call: C++ leaves their order
    open, and they are read left to right here. *)
Definition ea_x (update : bool) : B ValueId :=
  if negb update && (ra i =? 0) then read_gpr (rb i)
  else let! a := read_gpr (ra i) in let! c := read_gpr (rb i) in mem_add a c.

(** [i.ra() ? b.read_gpr(i.ra()) : b.constant_i64(0)]. *)
Definition base_or_zero : B ValueId :=
  if negb (ra i =? 0) then read_gpr (ra i) else constant_i64 0.

Definition format_is (f : InstructionFormat) : bool :=
  match di_info i with Some info => bool_decide (oi_format info = f) | None => false end.

Definition ea_for (indexed update : bool) : B ValueId :=
  if format_is FDS then ea_ds update else if indexed then ea_x update else ea_d update.

(** ** Accesses *)

Definition load_raw (ea : ValueId) (type : IrType) (endian : Endian) : B ValueId :=
  emit Op.Load type [ea] (endian_code endian) 0 (Some i).
Definition store_raw (ea v : ValueId) (type : IrType) (endian : Endian) : B unit :=
  do! emit Op.Store Void [ea; v] (endian_code endian) (type_code type) (Some i) in bret tt.

Definition extend (v : ValueId) (src : IrType) (sign : bool) : B ValueId :=
  if bool_decide (src = I64) then bret v
  else emit0 (if sign then Op.SignExtend else Op.ZeroExtend) I64 [v].

(** [if (update) b.write_gpr(i.ra(), ea)]. *)
Definition write_back (update : bool) (ea : ValueId) : B unit := when update (write_gpr (ra i) ea).

Definition lift_scalar_load (d : AccessDesc) : B bool :=
  let type := width_type (ad_bytes d) in
  let! ea := ea_for (ad_indexed d) (ad_update d) in
  let! raw := load_raw ea type (ad_endian d) in
  let! value := extend raw type (ad_sign d) in
  do! write_gpr (rt i) value in
  do! write_back (ad_update d) ea in bret true.

Definition lift_scalar_store (d : AccessDesc) : B bool :=
  let type := width_type (ad_bytes d) in
  let! ea := ea_for (ad_indexed d) (ad_update d) in
  let! value := read_gpr (rs i) in
  let! value := if negb (ad_bytes d =? 8) then emit0 Op.Truncate type [value] else bret value in
  do! store_raw ea value type (ad_endian d) in
  do! write_back (ad_update d) ea in bret true.

(** One register of [lmw] or [stmw]. *)
Definition lift_multiple_one (base : ValueId) (r : Z) : B unit :=
  let! ea := add_immediate base (simm16 i + (r - rt i) * 4) in
  if String.eqb m "lmw" then
    let! raw := load_raw ea I32 Big in
    let! value := extend raw I32 false in write_gpr r value
  else
    let! v := read_gpr r in
    let! v := emit0 Op.Truncate I32 [v] in store_raw ea v I32 Big.

Fixpoint lift_multiple_loop (base : ValueId) (registers : list Z) : B unit :=
  match registers with
  | [] => bret tt
  | r :: registers => do! lift_multiple_one base r in lift_multiple_loop base registers
  end.

Definition lift_multiple : B bool :=
  let! base := base_or_zero in
  do! lift_multiple_loop base (seqZ (rt i) (32 - rt i)) in bret true.

Definition lift_string : B bool :=
  let indexed_string := one_of m ["lswx"; "stswx"] in
  let! ea := if indexed_string then ea_x false else base_or_zero in
  let! count :=
    if indexed_string then
      let! xer := emit0 Op.ReadXER I32 [] in
      let! mask := constant_i32 0x7F in emit0 Op.And I32 [xer; mask]
    else constant_i32 (if rb i =? 0 then 32 else rb i) in
  do! emit (if one_of m ["lswi"; "lswx"] then Op.StringLoad else Op.StringStore) Void [ea; count]
        (rt i) (if indexed_string then 1 else 0) (Some i) in bret true.

Definition lift_fp_load : B bool :=
  let single := starts_with "lfs" m in
  let update := one_of m ["lfdu"; "lfdux"; "lfsu"; "lfsux"] in
  let indexed := ends_with "x" m in
  let! ea := if indexed then ea_x update else ea_d update in
  let! bits :=
    if single then
      let! raw := load_raw ea I32 Big in
      let! f32 := emit0 Op.Bitcast F32 [raw] in
      let! f64 := emit0 Op.FPromote F64 [f32] in
      emit0 Op.Bitcast I64 [f64]
    else load_raw ea I64 Big in
  do! write_fpr_bits (frt i) bits in
  do! write_back update ea in bret true.

Definition lift_fp_store : B bool :=
  let single := starts_with "stfs" m in
  let update := one_of m ["stfdu"; "stfdux"; "stfsu"; "stfsux"] in
  let indexed := ends_with "x" m in
  let! ea := if indexed then ea_x update else ea_d update in
  let! bits := read_fpr_bits (frs i) in
  do! if single then
        let! f64 := emit0 Op.Bitcast F64 [bits] in
        let! f32 := emit0 Op.FTruncate F32 [f64] in
        let! raw := emit0 Op.Bitcast I32 [f32] in store_raw ea raw I32 Big
      else store_raw ea bits I64 Big in
  do! write_back update ea in bret true.

Definition lift_stfiwx : B bool :=
  let! ea := ea_x false in
  let! bits := read_fpr_bits (frs i) in
  let! low := emit0 Op.Truncate I32 [bits] in
  do! store_raw ea low I32 Big in bret true.

Definition lift_reserve : B bool :=
  let! ea := ea_x false in
  let t := if String.eqb m "lwarx" then I32 else I64 in
  let! raw := emit Op.ReserveLoad t [ea] (endian_code Big) 0 (Some i) in
  let! value := extend raw t false in
  do! write_gpr (rt i) value in bret true.

Definition lift_store_conditional : B bool :=
  let! ea := ea_x false in
  let! value := read_gpr (rs i) in
  let t := if String.eqb m "stwcx" then I32 else I64 in
  let! value := if bool_decide (t = I32) then emit0 Op.Truncate I32 [value] else bret value in
  let! ok := emit Op.StoreConditional I1 [ea; value] (endian_code Big) (type_code t) (Some i) in
  let! no := constant_i1 false in
  let! so := emit0 Op.ReadXerSO I1 [] in
  do! emit Op.WriteCRCompare Void [no; no; ok; so] 0 0 (Some i) in bret true.

Definition vector_reg : Z := if format_is FVX128_1 then vx128_vd i else vd5 i.

(** The effective address rounded down to a quadword. *)
Definition ea_aligned : B ValueId :=
  let! ea := ea_x false in
  let! align_mask := constant_i64 (not64 0xF) in emit0 Op.And I64 [ea; align_mask].

Definition lift_vector_load : B bool :=
  let! ea := ea_aligned in
  let! v := emit Op.Load V128 [ea] (endian_code Raw) 16 (Some i) in
  do! write_vector vector_reg v in bret true.

Definition lift_vector_store : B bool :=
  let! ea := ea_aligned in
  let! v := read_vector vector_reg in
  do! emit Op.Store Void [ea; v] (endian_code Raw) (type_code V128) (Some i) in bret true.

Definition lift_element_load : B bool :=
  let! ea := ea_x false in
  let! old := read_vector vector_reg in
  let width := if String.eqb m "lvebx" then 1 else if String.eqb m "lvehx" then 2 else 4 in
  let! v := emit Op.VLoadElement V128 [old; ea] width 0 (Some i) in
  do! write_vector vector_reg v in bret true.

Definition lift_element_store : B bool :=
  let! ea := ea_x false in
  let! v := read_vector vector_reg in
  let w := if String.eqb m "stvebx" then 1 else if String.eqb m "stvehx" then 2 else 4 in
  do! emit Op.VStoreElement Void [v; ea] w 0 (Some i) in bret true.

(** [lvlx], [lvrx] and their [l] forms. *)
Definition lift_partial_load (op : Op.t) : B bool :=
  let! ea := ea_x false in
  let! old := read_vector vector_reg in
  let! v := emit op V128 [old; ea] (if ends_with "l" m then 1 else 0) 0 (Some i) in
  do! write_vector vector_reg v in bret true.

Definition lift_partial_store (op : Op.t) : B bool :=
  let! ea := ea_x false in
  let! v := read_vector vector_reg in
  do! emit op Void [v; ea] (if ends_with "l" m then 1 else 0) 0 (Some i) in bret true.

(** [dcbz], [icbi] and the hints: one operation on an indexed address. *)
Definition lift_cache (op : Op.t) (imm0 : Z) : B bool :=
  let! ea := ea_x false in
  do! emit op Void [ea] imm0 0 (Some i) in bret true.

Definition lift_memory : B bool :=
  match scalar_load_desc m with
  | Some d => lift_scalar_load d
  | None =>
    match scalar_store_desc m with
    | Some d => lift_scalar_store d
    | None =>
      if one_of m ["lmw"; "stmw"] then lift_multiple
      else if one_of m ["lswi"; "lswx"; "stswi"; "stswx"] then lift_string
      else if one_of m ["lfd"; "lfdu"; "lfdx"; "lfdux"; "lfs"; "lfsu"; "lfsx"; "lfsux"]
      then lift_fp_load
      else if one_of m ["stfd"; "stfdu"; "stfdx"; "stfdux"; "stfs"; "stfsu"; "stfsx"; "stfsux"]
      then lift_fp_store
      else if one_of m ["stfiwx"] then lift_stfiwx
      else if one_of m ["lwarx"; "ldarx"] then lift_reserve
      else if one_of m ["stwcx"; "stdcx"] then lift_store_conditional
      else if one_of m ["lvx"; "lvxl"; "lvx128"; "lvxl128"] then lift_vector_load
      else if one_of m ["stvx"; "stvxl"; "stvx128"; "stvxl128"] then lift_vector_store
      else if one_of m ["lvebx"; "lvehx"; "lvewx"; "lvewx128"] then lift_element_load
      else if one_of m ["stvebx"; "stvehx"; "stvewx"; "stvewx128"] then lift_element_store
      else if starts_with "lvlx" m then lift_partial_load Op.VLoadLeft
      else if starts_with "lvrx" m then lift_partial_load Op.VLoadRight
      else if starts_with "stvlx" m then lift_partial_store Op.VStoreLeft
      else if starts_with "stvrx" m then lift_partial_store Op.VStoreRight
      else if one_of m ["dcbz"; "dcbz128"]
      then lift_cache Op.CacheZero (if String.eqb m "dcbz128" then 128 else 32)
      else if one_of m ["icbi"] then lift_cache Op.ICacheInvalidate 0
      else if one_of m ["dcbf"; "dcbi"; "dcbst"; "dcbt"; "dcbtst"]
      then lift_cache Op.CacheHint (info_pattern i)
      else bret false
    end
  end.
End Memory.
