(* ===== verification/LifterFloat.v ===== *)
(** * The floating-point lifter (src/cpu/ppc/lifter/floating_point.cpp)

    A register is read as bits and cast; single-precision forms round their
    result through [FRoundSingle]; every arithmetic form updates FPSCR. *)

From S2P Require Import Prelude.
From S2P Require Import Words.
From S2P Require Import Instr.
From S2P Require Import Ir.
From S2P Require Import Lifter.
From S2P Require Import LifterControl.
From S2P Require Import LifterMemory.

Open Scope builder_scope.

Definition f64 (reg : Z) : B ValueId :=
  let! bits := read_fpr_bits reg in emit0 Op.Bitcast F64 [bits].

Definition store_f64 (reg : Z) (v : ValueId) : B unit :=
  let! bits := emit0 Op.Bitcast I64 [v] in write_fpr_bits reg bits.

Definition maybe_single (v : ValueId) (single : bool) : B ValueId :=
  if negb single then bret v else emit0 Op.FRoundSingle F64 [v].

Section Float.
Context (i : DecodedInstruction).
Abbreviation m := (mnemonic i).

Definition update_status (result : ValueId) : B unit :=
  do! emit Op.FUpdateStatus Void [result] 0 (if rc i then 1 else 0) (Some i) in
  record_cr1 i.

(** [store_f64], [update_status] and success. *)
Definition finish_fpu (r : ValueId) : B bool :=
  do! store_f64 (frt i) r in
  do! update_status r in bret true.

Definition single : bool := ends_with "sx" m.

Definition lift_fp_binary : B bool :=
  let! a := f64 (ra i) in
  let! c := f64 (rb i) in
  let op := if starts_with "fadd" m then Op.FAdd else if starts_with "fsub" m then Op.FSub else Op.FDiv in
  let! r := emit op F64 [a; c] (if single then 1 else 0) 0 (Some i) in
  let! r := maybe_single r single in finish_fpu r.

Definition lift_fmul : B bool :=
  let! a := f64 (ra i) in
  let! c := f64 (frc i) in
  let! r := emit Op.FMul F64 [a; c] (if single then 1 else 0) 0 (Some i) in
  let! r := maybe_single r single in finish_fpu r.

(** Bit 0 subtracts the addend, bit 1 negates the result, bit 2 is single precision. *)
Definition fma_flags : Z :=
  let flags := if starts_with "fmsub" m || starts_with "fnmsub" m then 1 else 0 in
  let flags := if starts_with "fnm" m then flags .| 2 else flags in
  if single then flags .| 4 else flags.

Definition lift_fma : B bool :=
  let! a := f64 (ra i) in
  let! c := f64 (frc i) in
  let! addend := f64 (rb i) in
  let! r := emit Op.FFma F64 [a; c; addend] fma_flags 0 (Some i) in
  let! r := maybe_single r single in finish_fpu r.

Definition lift_fsqrt : B bool :=
  let! a := f64 (rb i) in
  let! r := emit Op.FSqrt F64 [a] (if single then 1 else 0) 0 (Some i) in
  let! r := maybe_single r single in finish_fpu r.

Definition lift_estimate : B bool :=
  let! a := f64 (rb i) in
  let! r := emit (if String.eqb m "fresx" then Op.FReciprocalEstimate
                  else Op.FReciprocalSqrtEstimate) F64 [a] 0 0 (Some i) in
  finish_fpu r.

Definition lift_fsel : B bool :=
  let! a := f64 (ra i) in
  let! yes := f64 (frc i) in
  let! no := f64 (rb i) in
  let! r := emit Op.FSelect F64 [a; yes; no] 0 0 (Some i) in
  do! store_f64 (frt i) r in
  do! record_cr1 i in bret true.

Definition lift_fp_move : B bool :=
  let! r := f64 (rb i) in
  let! r := if one_of m ["fabsx"; "fnabsx"] then emit Op.FAbs F64 [r] 0 0 (Some i) else bret r in
  let! r := if one_of m ["fnegx"; "fnabsx"] then emit Op.FNeg F64 [r] 0 0 (Some i) else bret r in
  do! store_f64 (frt i) r in
  do! record_cr1 i in bret true.

Definition lift_frsp : B bool :=
  let! a := f64 (rb i) in
  let! r := emit Op.FRoundSingle F64 [a] 0 0 (Some i) in finish_fpu r.

Definition lift_fcfid : B bool :=
  let! raw := read_fpr_bits (rb i) in
  let! r := emit Op.FConvertFromI64 F64 [raw] 1 64 (Some i) in finish_fpu r.

Definition lift_fcti : B bool :=
  let! a := f64 (rb i) in
  let to_zero := one_of m ["fctidzx"; "fctiwzx"] in
  let width := if one_of m ["fctiwx"; "fctiwzx"] then 32 else 64 in
  let! raw := emit Op.FConvertToI64 I64 [a] (if to_zero then 1 else 0) width (Some i) in
  do! write_fpr_bits (frt i) raw in
  do! emit Op.FUpdateStatus Void [a] (0x100 .| width) (if to_zero then 1 else 0) (Some i) in
  do! record_cr1 i in bret true.

Definition lift_fcmp : B bool :=
  let! a := f64 (ra i) in
  let! c := f64 (rb i) in
  let ordered := String.eqb m "fcmpo" in
  let! field := emit Op.FCompare I8 [a; c] (if ordered then 1 else 0) 0 (Some i) in
  do! emit Op.WriteCRField Void [field] (crfd i) 0 (Some i) in
  do! emit Op.FUpdateStatus Void [a; c] (if ordered then 0x201 else 0x200) 0 (Some i) in bret true.

Definition lift_fpu_mffs : B bool :=
  let! fps := emit0 Op.ReadFPSCR I32 [] in
  let! raw := emit0 Op.ZeroExtend I64 [fps] in
  do! write_fpr_bits (frt i) raw in
  do! record_cr1 i in bret true.

Definition lift_fpu : B bool :=
  if one_of m ["faddx"; "faddsx"; "fsubx"; "fsubsx"; "fdivx"; "fdivsx"] then lift_fp_binary
  else if one_of m ["fmulx"; "fmulsx"] then lift_fmul
  else if one_of m ["fmaddx"; "fmaddsx"; "fmsubx"; "fmsubsx"; "fnmaddx"; "fnmaddsx"; "fnmsubx"; "fnmsubsx"]
  then lift_fma
  else if one_of m ["fsqrtx"; "fsqrtsx"] then lift_fsqrt
  else if one_of m ["fresx"; "frsqrtex"] then lift_estimate
  else if one_of m ["fselx"] then lift_fsel
  else if one_of m ["fabsx"; "fnegx"; "fnabsx"; "fmrx"] then lift_fp_move
  else if one_of m ["frspx"] then lift_frsp
  else if one_of m ["fcfidx"] then lift_fcfid
  else if one_of m ["fctidx"; "fctidzx"; "fctiwx"; "fctiwzx"] then lift_fcti
  else if one_of m ["fcmpu"; "fcmpo"] then lift_fcmp
  else if one_of m ["mffsx"] then lift_fpu_mffs
  else bret false.
End Float.
