(* ===== verification/Lift.v ===== *)
(** * The vector lifter and the dispatch of the lifter
    (src/cpu/ppc/lifter/vector.cpp, src/cpu/ppc/lifter/lifter.cpp)

    Vector operands come from the 5-bit fields of the classic forms or the 7-bit
    fields of the VMX128 forms; the mnemonic's prefix chooses the IR operation. The
    mnemonic itself travels with the instruction, and its hash is the tag. [lift]
    dispatches on the group of the opcode and tags what it emits with the guest
    instruction. *)

From S2P Require Import Prelude.
From S2P Require Import Words.
From S2P Require Import Instr.
From S2P Require Import Ir.
From S2P Require Import Lifter.
From S2P Require Import LifterControl.
From S2P Require Import LifterMemory.
From S2P Require Import LifterFloat.

(** ** The vector lifter (src/cpu/ppc/lifter/vector.cpp) *)

Open Scope builder_scope.

Definition extended (f : InstructionFormat) : bool :=
  match f with
  | FVX128 | FVX128_1 | FVX128_2 | FVX128_3 | FVX128_4 | FVX128_5 | FVX128_R | FVX128_P => true
  | _ => false
  end.

(** FNV-1a over the mnemonic. *)
Fixpoint vector_hash (h : Z) (m : string) : Z :=
  match m with
  | EmptyString => h
  | String c m => vector_hash (u64 ((h .^ Z.of_N (Ascii.N_of_ascii c)) * 1099511628211)) m
  end.
Definition vector_tag (m : string) : Z := vector_hash 1469598103934665603 m.

Section Vector.
Context (i : DecodedInstruction).
Abbreviation m := (mnemonic i).

(** [i.info->format]; an instruction that reaches the lifter has an [info]. *)
Definition format : InstructionFormat :=
  match di_info i with Some info => oi_format info | None => FSC end.

Definition vd : Z := if extended format then vx128_vd i else vd5 i.
Definition va : Z :=
  match format with
  | FVX128 | FVX128_2 | FVX128_5 | FVX128_R => vx128_va i
  | _ => va5 i
  end.
Definition vb : Z :=
  match format with
  | FVX128 | FVX128_2 | FVX128_3 | FVX128_4 | FVX128_5 | FVX128_R | FVX128_P => vx128_vb i
  | _ => vb5 i
  end.
Definition vc : Z :=
  match format with FVX128_2 => (di_word i .>> 8) .& 7 | _ => vc5 i end.

Definition is_va : bool := bool_decide (format = FVA).

Definition vector_unary (op : Op.t) (src : Z) : B ValueId :=
  let! a := read_vector src in emit op V128 [a] (vector_tag m) 0 (Some i).
Definition vector_binary (op : Op.t) (a_reg b_reg : Z) : B ValueId :=
  let! a := read_vector a_reg in
  let! c := read_vector b_reg in emit op V128 [a; c] (vector_tag m) 0 (Some i).
Definition vector_ternary (op : Op.t) (a_reg b_reg c_reg : Z) : B ValueId :=
  let! a := read_vector a_reg in
  let! c := read_vector b_reg in
  let! d := read_vector c_reg in emit op V128 [a; c; d] (vector_tag m) 0 (Some i).
(** The destination is also the first source. *)
Definition vector_old (op : Op.t) : B ValueId := vector_ternary op vd va vb.

(** [vwrite(b, d, r); return true]. *)
Definition vwrite (r : B ValueId) : B bool :=
  let! v := r in do! write_vector vd v in bret true.

Definition lift_load_shift : B bool :=
  let! base := base_or_zero i in
  let! idx := read_gpr (rb i) in
  vwrite (emit (if starts_with "lvsl" m then Op.VMakeLoadShiftLeft else Op.VMakeLoadShiftRight)
            V128 [base; idx] (vector_tag m) 0 (Some i)).

Definition lift_vcmp : B bool :=
  let! r := vector_binary Op.VCompare va vb in
  do! write_vector vd r in
  do! when (rc i) (do! emit Op.VUpdateCR6 Void [r] (vector_tag m) 0 (Some i) in bret tt) in bret true.

(** [vrlimi] and [vsldoi]: the immediates stay in the guest word. *)
Definition with_word (op : Op.t) (a_reg b_reg : Z) : B ValueId :=
  let! a := read_vector a_reg in
  let! c := read_vector b_reg in emit op V128 [a; c] (vector_tag m) (di_word i) (Some i).

(** The mnemonic begins with one of the prefixes. *)
Definition starts (prefixes : list string) : bool := existsb (λ p, starts_with p m) prefixes.

Definition lift_vector : B bool :=
  if one_of m ["lvsl"; "lvsl128"; "lvsr"; "lvsr128"] then lift_load_shift
  else if starts ["vaddfp"; "vsubfp"; "vmulfp128"] then
    vwrite (vector_binary (if starts ["vadd"] then Op.VAdd else if starts ["vsub"] then Op.VSub
                           else Op.VMul) va vb)
  else if starts ["vmaddfp"; "vmaddcfp"; "vnmsubfp"] then
    vwrite (if is_va then vector_ternary Op.VMadd va vb vc else vector_old Op.VMadd)
  else if starts ["vmax"; "vmin"] then
    vwrite (vector_binary (if starts ["vmax"] then Op.VMax else Op.VMin) va vb)
  else if starts ["vrefp"; "vrsqrtefp"; "vexptefp"; "vlogefp"] then vwrite (vector_unary Op.VEstimate vb)
  else if starts ["vrfi"] then vwrite (vector_unary Op.VConvert vb)
  else if starts ["vmsum3fp"; "vmsum4fp"] then vwrite (vector_old Op.VDot)
  else if starts ["vandc"] then vwrite (vector_binary Op.VAndNot va vb)
  else if starts ["vand"] then vwrite (vector_binary Op.VAnd va vb)
  else if starts ["vor"] then vwrite (vector_binary Op.VOr va vb)
  else if starts ["vxor"] then vwrite (vector_binary Op.VXor va vb)
  else if starts ["vnor"] then vwrite (vector_binary Op.VNot va vb)
  else if starts ["vsel"] then
    vwrite (if is_va then vector_ternary Op.VSelect va vb vc else vector_old Op.VSelect)
  else if starts ["vcmp"] then lift_vcmp
  else if starts ["vadd"; "vsub"] then
    vwrite (vector_binary (if starts ["vadd"] then Op.VAdd else Op.VSub) va vb)
  else if starts ["vavg"] then vwrite (vector_binary Op.VAvg va vb)
  else if starts ["vmhadd"; "vmhradd"; "vmladd"] then vwrite (vector_ternary Op.VMadd va vb vc)
  else if starts ["vmule"; "vmulo"] then vwrite (vector_binary Op.VMultiplyEvenOdd va vb)
  else if starts ["vmul"] then vwrite (vector_binary Op.VMul va vb)
  else if starts ["vsum"; "vmsum"] then
    vwrite (if is_va then vector_ternary Op.VSum va vb vc else vector_binary Op.VSum va vb)
  else if starts ["vcfs"; "vcfu"; "vcts"; "vctu"; "vcfps"; "vcfpu"; "vcsx"; "vcux"]
  then vwrite (vector_unary Op.VConvert vb)
  else if starts ["vmrgh"; "vmrgl"] then vwrite (vector_binary Op.VMerge va vb)
  else if starts ["vpermwi"] then vwrite (vector_unary Op.VPermute vb)
  else if starts ["vperm"] then
    vwrite (if is_va || bool_decide (format = FVX128_2) then vector_ternary Op.VPermute va vb vc
            else vector_unary Op.VPermute vb)
  else if starts ["vpk"] then vwrite (vector_binary Op.VPack va vb)
  else if starts ["vupk"] then vwrite (vector_unary Op.VUnpack vb)
  else if starts ["vsplt"] then vwrite (vector_unary Op.VSplat vb)
  else if starts ["vrlimi"] then vwrite (with_word Op.VRotateInsert vd vb)
  else if starts ["vrl"] then vwrite (vector_binary Op.VRotate va vb)
  else if starts ["vsl"; "vsr"] then
    if starts ["vsldoi"] then vwrite (with_word Op.VShiftDouble va vb)
    else vwrite (vector_binary Op.VShift va vb)
  else bret false.
End Vector.

Open Scope builder_scope.

Definition lift_group (group : InstructionGroup) (insn : DecodedInstruction) : B bool :=
  match group with
  | GInteger => lift_integer insn
  | GControl | GBranch => lift_control insn
  | GMemory => lift_memory insn
  | GFloatingPoint => lift_fpu insn
  | GVector => lift_vector insn
  end.

Definition lift (insn : DecodedInstruction) : B bool :=
  match di_info insn with
  | None => bret false
  | Some info =>
      do! set_guest (Some insn) in
      let! lowered := lift_group (oi_group info) insn in
      do! set_guest None in bret lowered
  end.
