(* ===== verification/ControlFlow.v ===== *)
(** * Branches on constant conditions, and predecessor lists
    (src/cpu/optimizer/passes/control_flow_simplification.cpp)

    A conditional branch whose condition is a constant of its block becomes an
    unconditional one or disappears, with the successor edges it no longer
    takes. Predecessor lists are then rebuilt from the surviving edges, the way
    the function compiler first built them. *)

From S2P Require Import Prelude.
From S2P Require Import Words.
From S2P Require Import Instr.
From S2P Require Import Ir.
From S2P Require Import Verifier.

(** ** Predecessors *)

Definition set_predecessors (p : list GuestAddress) (b : Block) : Block :=
  mkBlock (b_guest_address b) (b_instructions b) (b_end_address b) (b_successors b) p
    (b_has_external_exit b) (b_has_indirect_exit b) (b_has_indirect_call b).
Definition set_successors (l : list ControlFlowEdge) (b : Block) : Block :=
  mkBlock (b_guest_address b) (b_instructions b) (b_end_address b) l (b_predecessors b)
    (b_has_external_exit b) (b_has_indirect_exit b) (b_has_indirect_call b).

(** The first block at an address: [emplace] keeps the first entry. *)
Definition block_index (blocks : list Block) (address : GuestAddress) : option nat :=
  fst <$> list_find (λ b, b_guest_address b = address) blocks.

Definition push_predecessor (source : GuestAddress) (b : Block) : Block :=
  if bool_decide (source ∈ b_predecessors b) then b
  else set_predecessors (b_predecessors b ++ [source]) b.

(** One edge of the loop over the CFG. *)
Definition link_edge (source : GuestAddress) (blocks : list Block) (e : ControlFlowEdge) : list Block :=
  if negb (e_local e) || bool_decide (e_kind e = Call) then blocks
  else match block_index blocks (e_target e) with
       | None => blocks
       | Some n => alter (push_predecessor source) n blocks
       end.

Definition link_block (blocks : list Block) (source : Block) : list Block :=
  foldl (link_edge (b_guest_address source)) blocks (b_successors source).

Definition link_predecessors (blocks : list Block) : list Block := foldl link_block blocks blocks.

(** ** Constant conditions *)

Definition block_constants (l : list Instruction) : gmap Z Z :=
  foldl (λ c i, note_constant i c) ∅ l.

(** [instruction.op = ...; instruction.args = {target_value}; imm0 = imm1 = 0]. *)
Definition make_taken (i : Instruction) (target : ValueId) : Instruction :=
  mkInstr (if i_imm0 i =? 0 then Op.Branch else Op.Call) (i_type i) (i_result i) [target] 0 0
    (i_guest_address i) (i_guest_word i) (i_guest_opcode i).

Definition branch_kind (i : Instruction) : EdgeKind := if i_imm0 i =? 0 then Branch else Call.

(** Successors that survive a branch known to be taken. *)
Definition keep_taken (target : option Z) (e : ControlFlowEdge) : bool :=
  match e_kind e with
  | Fallthrough => false
  | Branch => match target with Some t => e_target e =? u32 t | None => true end
  | Call => true
  end.

Definition taken_successors (i : Instruction) (target : option Z) (l : list ControlFlowEdge)
    : list ControlFlowEdge :=
  if bool_decide (branch_kind i = Branch) then List.filter (keep_taken target) l else l.

(** Successors that survive a branch known not to be taken. *)
Definition untaken_successors (i : Instruction) (target : option Z) (l : list ControlFlowEdge)
    : list ControlFlowEdge :=
  match target with
  | Some t =>
      List.filter (λ e, negb (bool_decide (e_kind e = branch_kind i) && (e_target e =? u32 t))) l
  | None => l
  end.

(** The condition and the target of a conditional branch on a constant. *)
Definition constant_branch (constants : gmap Z Z) (i : Instruction) : option (bool * ValueId) :=
  match i_op i, i_args i with
  | Op.BranchIf, [c; t] => (λ v, (negb (v =? 0), t)) <$> constants !! c
  | _, _ => None
  end.

Fixpoint simplify_branches (constants : gmap Z Z) (l : list Instruction) (edges : list ControlFlowEdge)
    : list Instruction * list ControlFlowEdge :=
  match l with
  | [] => ([], edges)
  | i :: l =>
      match constant_branch constants i with
      | None => let '(l, edges) := simplify_branches constants l edges in (i :: l, edges)
      | Some (taken, t) =>
          let target := constants !! t in
          if taken : bool then
            let '(l, edges) := simplify_branches constants l (taken_successors i target edges) in
            (make_taken i t :: l, edges)
          else simplify_branches constants l (untaken_successors i target edges)
      end
  end.

Definition simplify_block_branches (b : Block) : Block :=
  let '(l, edges) :=
    simplify_branches (block_constants (b_instructions b)) (b_instructions b) (b_successors b) in
  set_successors edges (set_instructions l b).

Definition simplify_constant_control_flow (f : Function) : Function :=
  mkFunction (f_guest_address f)
    (link_predecessors (set_predecessors [] <$> (simplify_block_branches <$> f_blocks f))).
