(* ===== verification/FunctionCompiler.v ===== *)
(** * The static function compiler (src/cpu/codegen/function_compiler.cpp)

    [compile_ranges] decodes the declared ranges into an address map, marks the
    leaders, lifts each run of instructions between leaders into a block, gives
    the blocks their edges, and verifies the function before and after the
    optimiser. *)

From S2P Require Import Prelude.
From S2P Require Import Words.
From S2P Require Import Instr.
From S2P Require Import Decoder.
From S2P Require Import Ir.
From S2P Require Import Verifier.
From S2P Require Import Lifter.
From S2P Require Import LifterMemory.
From S2P Require Import Lift.
From S2P Require Import Optimizer.
From S2P Require Import ControlFlow.

(** ** Classification of guest instructions *)

Definition in_group (i : DecodedInstruction) (g : InstructionGroup) : bool :=
  match di_info i with Some info => bool_decide (oi_group info = g) | None => false end.

Definition is_direct_branch (i : DecodedInstruction) : bool :=
  in_group i GBranch && (format_is i FI || format_is i FB).
Definition is_indirect_branch (i : DecodedInstruction) : bool := in_group i GBranch && format_is i FXL.
Definition is_syscall (i : DecodedInstruction) : bool := format_is i FSC.
Definition is_trap (i : DecodedInstruction) : bool :=
  in_group i GBranch && negb (is_direct_branch i || is_indirect_branch i || is_syscall i) &&
  (format_is i FD || format_is i FX).
Definition is_instruction_sync (i : DecodedInstruction) : bool :=
  in_group i GInteger && format_is i FXL && String.eqb (mnemonic i) "isync".

Definition branch_condition_is_unconditional (i : DecodedInstruction) : bool :=
  if format_is i FI then true
  else if format_is i FXL && String.eqb (mnemonic i) "bcctrx" then negb (bo i .& 16 =? 0)
  else if format_is i FB || format_is i FXL then bo i .& 20 =? 20
  else false.

Definition ends_basic_block (i : DecodedInstruction) : bool :=
  (in_group i GBranch && lk i) ||
  ((is_direct_branch i || is_indirect_branch i) && negb (lk i)) ||
  is_syscall i || is_trap i || is_instruction_sync i.

(** ** Errors *)

Inductive CompileError : Type :=
  | EmptyFunctionRanges | EmptyRange | UnalignedRange | UnknownInstruction | OverlappingRanges
  | EntryOutsideRanges | TargetInsideRange | NoLowering
  | RejectedBefore (e : VerifyError) | RejectedAfter (e : VerifyError)
  (** An exception leaves the compiler ([OperandList::assign], [map::at]). *)
  | Thrown.

(** [error], [error_address] and [error_word]. *)
Record CompileFailure : Type := mkFailure {
  cf_error : CompileError;
  cf_address : GuestAddress;
  cf_word : Z
}.

Abbreviation Compiled A := (CompileFailure + A)%type.
Definition fail {A} (e : CompileError) (address word : Z) : Compiled A := inl (mkFailure e address word).

(** ** The address map: ordered, without duplicates *)

Definition Decoded : Type := list (GuestAddress * DecodedInstruction).

Fixpoint decoded_find (d : Decoded) (a : GuestAddress) : option DecodedInstruction :=
  match d with
  | [] => None
  | (k, v) :: d => if k =? a then Some v else decoded_find d a
  end.
Definition decoded_contains (d : Decoded) (a : GuestAddress) : bool :=
  match decoded_find d a with Some _ => true | None => false end.

(** [emplace]: [None] when the address is already there. *)
Fixpoint decoded_emplace (a : GuestAddress) (i : DecodedInstruction) (d : Decoded) : option Decoded :=
  match d with
  | [] => Some [(a, i)]
  | (k, v) :: d' =>
      if k =? a then None
      else if a <? k then Some ((a, i) :: d)
      else cons (k, v) <$> decoded_emplace a i d'
  end.

Record FunctionCodeRange : Type := mkRange {
  fr_base : GuestAddress;
  fr_words : list Z
}.

Fixpoint decode_words (base : GuestAddress) (n : Z) (words : list Z) (d : Decoded) : Compiled Decoded :=
  match words with
  | [] => inr d
  | word :: words =>
      let address := u32 (base + n * 4) in
      let instruction := decode address word in
      if negb (valid instruction) then fail UnknownInstruction address word
      else match decoded_emplace address instruction d with
           | None => fail OverlappingRanges address word
           | Some d => decode_words base (n + 1) words d
           end
  end.

Fixpoint decode_ranges (ranges : list FunctionCodeRange) (d : Decoded) : Compiled Decoded :=
  match ranges with
  | [] => inr d
  | range :: ranges =>
      match fr_words range with
      | [] => fail EmptyRange (fr_base range) 0
      | words =>
          if negb (fr_base range .& 3 =? 0) then fail UnalignedRange (fr_base range) 0
          else match decode_words (fr_base range) 0 words d with
               | inl e => inl e
               | inr d => decode_ranges ranges d
               end
      end
  end.

Definition in_declared_range (ranges : list FunctionCodeRange) (address : GuestAddress) : bool :=
  existsb (λ r, (fr_base r <=? address) &&
                (address <? u64 (fr_base r + u64 (Z.of_nat (length (fr_words r)) * 4)))) ranges.

(** The first direct branch into a declared range but between its instructions. *)
Definition stray_target (ranges : list FunctionCodeRange) (d : Decoded) (i : DecodedInstruction) : bool :=
  is_direct_branch i && negb (lk i) &&
  in_declared_range ranges (direct_branch_target i) &&
  negb (decoded_contains d (direct_branch_target i)).

(** ** Leaders *)

Definition leaders_of (d : Decoded) (entry : GuestAddress * DecodedInstruction) : list GuestAddress :=
  let '(address, i) := entry in
  (if is_direct_branch i && decoded_contains d (direct_branch_target i)
   then [direct_branch_target i] else []) ++
  (if ends_basic_block i && decoded_contains d (u32 (address + 4)) then [u32 (address + 4)] else []).

Definition leaders (entry : GuestAddress) (ranges : list FunctionCodeRange) (d : Decoded) : gset Z :=
  {[ entry ]} ∪ list_to_set (fr_base <$> ranges) ∪ list_to_set (d ≫= leaders_of d).

(** ** Blocks *)

Definition new_builder : Builder := mkBuilder [] 0 None.

(** The inner loop: lift up to the next leader or discontinuity. *)
Fixpoint lift_run (leader : gset Z) (d : Decoded) (st : Builder) : Compiled (Builder * Decoded) :=
  match d with
  | [] => inr (st, [])
  | (address, i) :: d =>
      match lift i st with
      | None => fail Thrown address (di_word i)
      | Some (lowered, st') =>
          if negb lowered || (length (bl_instructions st') =? length (bl_instructions st))%nat
          then fail NoLowering address (di_word i)
          else
            match d with
            | [] => inr (st', [])
            | (next, _) :: _ =>
                let contiguous := next =? u32 (address + 4) in
                if negb contiguous || bool_decide (next ∈ leader) then inr (st', d)
                else lift_run leader d st'
            end
      end
  end.

(** [block.end_address]. *)
Definition end_of (start : GuestAddress) (l : list Instruction) : GuestAddress :=
  u32 (match last l with Some i => i_guest_address i | None => start end + 4).

Fixpoint partition (fuel : nat) (leader : gset Z) (d : Decoded) : Compiled (list Block) :=
  match fuel, d with
  | _, [] => inr []
  | O, _ => fail Thrown 0 0
  | S fuel, (start, _) :: _ =>
      match lift_run leader d new_builder with
      | inl e => inl e
      | inr (st, rest) =>
          let l := bl_instructions st in
          let block := mkBlock start l (end_of start l) [] [] false false false in
          match partition fuel leader rest with
          | inl e => inl e
          | inr blocks => inr (block :: blocks)
          end
      end
  end.

(** ** Edges *)

Definition add_edge (target : GuestAddress) (kind : EdgeKind) (local : bool) (b : Block) : Block :=
  let e := mkEdge target kind local in
  if bool_decide (e ∈ b_successors b) then b else set_successors (b_successors b ++ [e]) b.

Definition set_external_exit (v : bool) (b : Block) : Block :=
  mkBlock (b_guest_address b) (b_instructions b) (b_end_address b) (b_successors b) (b_predecessors b)
    v (b_has_indirect_exit b) (b_has_indirect_call b).
Definition set_indirect_exit (b : Block) : Block :=
  mkBlock (b_guest_address b) (b_instructions b) (b_end_address b) (b_successors b) (b_predecessors b)
    (b_has_external_exit b) true (b_has_indirect_call b).
Definition set_indirect_call (b : Block) : Block :=
  mkBlock (b_guest_address b) (b_instructions b) (b_end_address b) (b_successors b) (b_predecessors b)
    (b_has_external_exit b) (b_has_indirect_exit b) true.

Section Edges.
Context (d : Decoded) (blocks : list Block).

Definition is_block (address : GuestAddress) : bool :=
  match block_index blocks address with Some _ => true | None => false end.

(** The loop over the instructions of a block: linked branches. *)
Fixpoint call_edges (addresses : list GuestAddress) (b : Block) : Block :=
  match addresses with
  | [] => b
  | address :: addresses =>
      match decoded_find d address with
      | None => b
      | Some i =>
          call_edges addresses
            (if is_direct_branch i && lk i
             then add_edge (direct_branch_target i) Call (is_block (direct_branch_target i)) b
             else if is_indirect_branch i && lk i then set_indirect_call b else b)
      end
  end.

(** [for (address = start; address < end; address += 4)]. *)
Definition block_addresses (b : Block) : list GuestAddress :=
  (λ k, u32 (b_guest_address b + 4 * k)) <$> seqZ 0 ((b_end_address b - b_guest_address b + 3) / 4).

(** The fall-through edge, or an exit from the function. *)
Definition continue_to (next : GuestAddress) (b : Block) : Block :=
  if is_block next then add_edge next Fallthrough true b else set_external_exit true b.

Definition exit_edges (last : DecodedInstruction) (next : GuestAddress) (b : Block) : Block :=
  if (is_direct_branch last || is_indirect_branch last) && lk last then continue_to next b
  else if is_direct_branch last && negb (lk last) then
    let target := direct_branch_target last in
    let local := is_block target in
    let b := add_edge target Branch local b in
    let b := set_external_exit (b_has_external_exit b || negb local) b in
    if negb (branch_condition_is_unconditional last) then continue_to next b else b
  else if is_indirect_branch last && negb (lk last) then
    let b := set_indirect_exit b in
    if negb (branch_condition_is_unconditional last) then continue_to next b else b
  else if is_syscall last then set_external_exit true b
  else if is_instruction_sync last then add_edge next Branch false (set_external_exit true b)
  else if is_trap last then
    let b := set_external_exit true b in
    if is_block next then add_edge next Fallthrough true b else b
  else continue_to next b.

Definition block_edges (b : Block) : Compiled Block :=
  let b := call_edges (block_addresses b) b in
  let last_address := u32 (b_end_address b - 4) in
  match decoded_find d last_address with
  | None => fail Thrown last_address 0
  | Some last => inr (exit_edges last (u32 (last_address + 4)) b)
  end.
End Edges.

Fixpoint connect (d : Decoded) (blocks : list Block) (l : list Block) : Compiled (list Block) :=
  match l with
  | [] => inr []
  | b :: l =>
      match block_edges d blocks b with
      | inl e => inl e
      | inr b =>
          match connect d blocks l with
          | inl e => inl e
          | inr l => inr (b :: l)
          end
      end
  end.

(** ** The whole function *)

(** [Optimizer::run(Function&)]. *)
Definition optimize_function (f : Function) : Function :=
  simplify_constant_control_flow (mkFunction (f_guest_address f) (Optimizer_run <$> f_blocks f)).

Definition lift_function (entry : GuestAddress) (ranges : list FunctionCodeRange) : Compiled Function :=
  match ranges with
  | [] => fail EmptyFunctionRanges entry 0
  | _ =>
    match decode_ranges ranges [] with
    | inl e => inl e
    | inr d =>
      if negb (decoded_contains d entry) then fail EntryOutsideRanges entry 0
      else
        match find (λ '(_, i), stray_target ranges d i) d with
        | Some (address, i) => fail TargetInsideRange address (di_word i)
        | None =>
          match partition (length d) (leaders entry ranges d) d with
          | inl e => inl e
          | inr blocks =>
            match connect d blocks blocks with
            | inl e => inl e
            | inr blocks => inr (mkFunction entry (link_predecessors blocks))
            end
          end
        end
    end
  end.

Definition compile_ranges (entry : GuestAddress) (ranges : list FunctionCodeRange) : Compiled Function :=
  match lift_function entry ranges with
  | inl e => inl e
  | inr f =>
      let before := verify_function f in
      if negb (vr_ok before) then fail (RejectedBefore (vr_error before)) (vr_block before) 0
      else
        let f := optimize_function f in
        let after := verify_function f in
        if negb (vr_ok after) then fail (RejectedAfter (vr_error after)) (vr_block after) 0
        else inr f
  end.

Definition compile (base : GuestAddress) (words : list Z) : Compiled Function :=
  compile_ranges base [mkRange base words].
