(* ===== verification/LiftStatic.v ===== *)
(** * What lifting a guest instruction appends, whatever the state

    [builds i k c Q]: run for the guest instruction [i] from the cursor [k], the
    builder program [c] succeeds; the code it appends numbers its values above
    the cursor, is well formed for the optimiser, is tagged with [i], and passes
    the verifier's check of each instruction as long as the cursor's [c_verified]
    says so; [Q] holds of the answer and of the new cursor. The rules mirror the
    builder monad, like those of the execution rules, but need no values. *)

From S2P Require Import Prelude.
From S2P Require Import Words.
From S2P Require Import Instr.
From S2P Require Import Ir.
From S2P Require Import Verifier.
From S2P Require Import VerifierSpec.
From S2P Require Import IrValue.
From S2P Require Import PassSim.
From S2P Require Import Lifter.
From S2P Require Import LiftWp.

Record Cursor : Type := mkCursor {
  c_next : Z;
  c_types : Values;
  c_closed : bool;
  c_some : bool;
  c_verified : bool
}.

Definition nonempty {A} (l : list A) : bool := match l with [] => false | _ => true end.

Definition from_guest (i : DecodedInstruction) (x : Instruction) : Prop :=
  i_guest_address x = di_address i /\ i_guest_word x = di_word i /\ i_guest_opcode x = opcode_id i.

(** The two flag writes the verifier takes for values. *)
Definition plain_op (op : Op.t) : bool := match op with Op.SetXerOV | Op.SetXerSO => false | _ => true end.

(** [l] takes the cursor from [k] to [k'], its instructions satisfying [P]. *)
Record fragment (P : Instruction -> Prop) (k k' : Cursor) (l : list Instruction) : Prop := mkFragment {
  fr_ssa : ssa (c_next k) l = true;
  fr_last : last_id (c_next k) l <= c_next k';
  fr_wf : Forall (λ x, inst_wf x = true) l;
  fr_flags : Forall (λ x, plain_op (i_op x) = false -> i_type x = Void) l;
  fr_origin : Forall P l;
  fr_types : types_after l (c_types k) = c_types k';
  fr_some : c_some k' = c_some k || nonempty l;
  fr_stop : c_closed k = true -> l = [];
  fr_closed : c_closed k' = c_closed k || existsb is_block_terminator l;
  fr_verified : c_verified k' = c_verified k && forallb (λ x, plain_op (i_op x)) l;
  fr_accepted : c_verified k' = true -> forall b, insts_accepted b false (c_types k) l
}.

Lemma insts_accepted_app b req v l1 l2 :
  insts_accepted b req v l1 -> insts_accepted b req (types_after l1 v) l2 ->
  (existsb is_block_terminator l1 = true -> l2 = []) -> insts_accepted b req v (l1 ++ l2).
Proof.
  revert v. induction l1 as [|x l1 IH]; intros v Ha1 Ha2 Ht; [done|].
  apply insts_accepted_cons in Ha1 as (Hx & Hend & Ha1). cbn in Ht. apply insts_accepted_cons.
  split_and!; [done| |].
  - intros Hx'. rewrite Hx' in Ht. by rewrite (Hend Hx'), Ht.
  - apply IH; [done|done|]. intros Hl1. apply Ht. rewrite Hl1. apply orb_true_r.
Qed.

Lemma fragment_nil P k : fragment P k k [].
Proof.
  split; try done; [by rewrite orb_false_r|by rewrite orb_false_r|by rewrite andb_true_r|].
  intros _ b. apply insts_accepted_nil.
Qed.

Lemma fragment_impl (P Q : Instruction -> Prop) k k' l :
  (forall x, P x -> Q x) -> fragment P k k' l -> fragment Q k k' l.
Proof. intros Hpq []. split; try done. by eapply Forall_impl. Qed.

Lemma last_id_mono l a b : a <= b -> last_id a l <= last_id b l.
Proof. revert a b. induction l as [|i l IH]; intros a b Hab; [done|]. apply IH. by apply next_id_mono. Qed.

Lemma nonempty_app {A} (l1 l2 : list A) : nonempty (l1 ++ l2) = nonempty l1 || nonempty l2.
Proof. by destruct l1, l2. Qed.

Lemma fragment_app P k1 k2 k3 l1 l2 :
  fragment P k1 k2 l1 -> fragment P k2 k3 l2 -> fragment P k1 k3 (l1 ++ l2).
Proof.
  intros F1 F2. split.
  - rewrite ssa_app, (fr_ssa _ _ _ _ F1). cbn. eapply ssa_mono; [apply F1|apply F2].
  - unfold last_id. rewrite foldl_app. etrans; [apply last_id_mono, F1|apply F2].
  - apply Forall_app. split; [apply F1|apply F2].
  - apply Forall_app. split; [apply F1|apply F2].
  - apply Forall_app. split; [apply F1|apply F2].
  - by rewrite types_after_app, (fr_types _ _ _ _ F1), (fr_types _ _ _ _ F2).
  - by rewrite (fr_some _ _ _ _ F2), (fr_some _ _ _ _ F1), nonempty_app, orb_assoc.
  - intros Hc. rewrite (fr_stop _ _ _ _ F1 Hc). apply (fr_stop _ _ _ _ F2).
    by rewrite (fr_closed _ _ _ _ F1), Hc.
  - by rewrite (fr_closed _ _ _ _ F2), (fr_closed _ _ _ _ F1), existsb_app, orb_assoc.
  - by rewrite (fr_verified _ _ _ _ F2), (fr_verified _ _ _ _ F1), forallb_app, andb_assoc.
  - intros Hv b. pose proof (fr_accepted _ _ _ _ F2 Hv b) as Ha2.
    rewrite (fr_verified _ _ _ _ F2) in Hv. apply andb_true_iff in Hv as [Hv _].
    pose proof (fr_accepted _ _ _ _ F1 Hv b) as Ha1.
    apply insts_accepted_app; [done|by rewrite (fr_types _ _ _ _ F1)|].
    intros Ht. apply (fr_stop _ _ _ _ F2). rewrite (fr_closed _ _ _ _ F1), Ht. apply orb_true_r.
Qed.

Section Builds.
Context (i : DecodedInstruction).

Definition builds {A} (k : Cursor) (c : B A) (Q : A -> Cursor -> Prop) : Prop :=
  forall st, bl_next_value st = c_next k -> bl_current_guest st = Some i ->
  exists a st' l k',
    c st = Some (a, st') /\ bl_instructions st' = bl_instructions st ++ l /\
    bl_next_value st' = c_next k' /\ bl_current_guest st' = Some i /\ fragment (from_guest i) k k' l /\ Q a k'.

Lemma builds_ret {A} k (a : A) (Q : A -> Cursor -> Prop) : Q a k -> builds k (bret a) Q.
Proof.
  intros HQ st Hn Hg. exists a, st, [], k. rewrite app_nil_r. split_and!; try done. apply fragment_nil.
Qed.

Lemma builds_bind {A C} k (c : B A) (f : A -> B C) Q :
  builds k c (λ a k', builds k' (f a) Q) -> builds k (bbind c f) Q.
Proof.
  intros Hc st Hn Hg. destruct (Hc st Hn Hg) as (a & st1 & l1 & k1 & E1 & I1 & N1 & G1 & F1 & Hf).
  destruct (Hf st1 N1 G1) as (a2 & st2 & l2 & k2 & E2 & I2 & N2 & G2 & F2 & HQ).
  exists a2, st2, (l1 ++ l2), k2. split_and!; try done.
  - unfold bbind. by rewrite E1.
  - by rewrite I2, I1, app_assoc.
  - by eapply fragment_app.
Qed.

Lemma builds_mono {A} k (c : B A) (P Q : A -> Cursor -> Prop) :
  (forall a k', P a k' -> Q a k') -> builds k c P -> builds k c Q.
Proof.
  intros Himp Hc st Hn Hg. destruct (Hc st Hn Hg) as (a & st1 & l & k1 & E & I & N & G & F & HP).
  exists a, st1, l, k1. split_and!; auto.
Qed.

Lemma builds_if {A} k (b : bool) (c1 c2 : B A) Q :
  (b = true -> builds k c1 Q) -> (b = false -> builds k c2 Q) -> builds k (if b then c1 else c2) Q.
Proof. destruct b; intros Ht Hf; [by apply Ht|by apply Hf]. Qed.
End Builds.

(** ** The verifier's view of one emitted instruction *)

(** An instruction over the values [0 .. n-1] of types [ts]. *)
Definition sig_inst (op : Op.t) (type : IrType) (imm0 imm1 : Z) (ts : list IrType) : Instruction :=
  mkInstr op type kNoValue (seqZ 0 (Z.of_nat (length ts))) imm0 imm1 0 0 0.
Definition sig_values (ts : list IrType) : Values := list_to_map (zip (seqZ 0 (Z.of_nat (length ts))) ts).

Definition accepts (op : Op.t) (type : IrType) (imm0 imm1 : Z) (ts : list IrType) : bool :=
  let x := sig_inst op type imm0 imm1 ts in
  ((arity op).1 <=? length ts)%nat && (length ts <=? (arity op).2)%nat &&
  eqb (expects_void op) (bool_decide (type = Void)) && (expects_void op || fixed_result_type_ok x) &&
  operands_ok (sig_values ts) x && memory_ok (sig_values ts) x.

Lemma sig_values_lookup ts n t : ts !! n = Some t -> sig_values ts !! Z.of_nat n = Some t.
Proof.
  intros Hn. apply elem_of_list_to_map_1.
  - rewrite fst_zip by (rewrite length_seqZ; lia). apply NoDup_seqZ.
  - apply list_elem_of_lookup. exists n. apply lookup_zip_Some. split; [|done].
    apply lookup_seqZ. apply lookup_lt_Some in Hn. lia.
Qed.

(** The types of the operands, by position. *)
Lemma type_of_sig op type imm0 imm1 ts n : type_of (sig_values ts) (sig_inst op type imm0 imm1 ts) n = ts !! n.
Proof.
  unfold type_of, sig_inst. cbn. destruct (ts !! n) as [t|] eqn:E.
  - pose proof (lookup_lt_Some _ _ _ E). rewrite (proj2 (lookup_seqZ _ _ n (Z.of_nat n))) by lia. cbn.
    by apply sig_values_lookup.
  - apply lookup_ge_None in E. by rewrite (lookup_seqZ_ge _ _ n) by lia.
Qed.

Lemma type_of_args values x ts n :
  Forall2 (λ a t, values !! a = Some t) (i_args x) ts -> type_of values x n = ts !! n.
Proof.
  intros Hts. unfold type_of. destruct (i_args x !! n) as [a|] eqn:Ea.
  - destruct (Forall2_lookup_l _ _ _ _ _ Hts Ea) as (t & Hn & Hv). exact (eq_trans Hv (eq_sym Hn)).
  - apply lookup_ge_None in Ea. pose proof (Forall2_length _ _ _ Hts) as Hl. symmetry. apply lookup_ge_None.
    etrans; [|exact Ea]. by apply Nat.eq_le_incl.
Qed.

Lemma operands_ok_sig v x v' x' :
  i_op x = i_op x' -> i_type x = i_type x' -> (forall n, type_of v x n = type_of v' x' n) ->
  operands_ok v x = operands_ok v' x'.
Proof.
  intros Ho Ht Hty. unfold operands_ok, has, type_test. rewrite Ho, Ht.
  destruct (i_op x'); rewrite ?Hty; done.
Qed.

Lemma memory_ok_sig v x v' x' :
  i_op x = i_op x' -> i_type x = i_type x' -> i_imm0 x = i_imm0 x' -> i_imm1 x = i_imm1 x' ->
  (forall n, type_of v x n = type_of v' x' n) -> memory_ok v x = memory_ok v' x'.
Proof.
  intros Ho Ht H0 H1 Hty. unfold memory_ok, stored_type, has. rewrite Ho, Ht, H0, H1.
  destruct (i_op x'); try done; (destruct (type_of_code _); [|done]); by rewrite Hty.
Qed.

(** ** Emitting one instruction *)

(** The cursor within the lifting of one instruction: how many values are left
    below [limit], and the flags. *)
Record at_ (limit room : Z) (closed some verified : bool) (k : Cursor) : Prop := mkAt {
  at_low : 0 <= c_next k;
  at_room : 0 <= room /\ c_next k + room <= limit <= kNoValue;
  at_keys : forall a t, c_types k !! a = Some t -> a < c_next k \/ a = kNoValue;
  at_closed : c_closed k = closed;
  at_some : c_some k = some;
  at_verified : c_verified k = verified
}.

(** [v] is a value of type [t]. *)
Definition has_t (k : Cursor) (v : ValueId) (t : IrType) : Prop :=
  0 <= v < c_next k /\ c_types k !! v = Some t.

Definition extends (k k' : Cursor) : Prop := forall v t, has_t k v t -> has_t k' v t.

Definition op_wf (op : Op.t) (type : IrType) (result imm0 : Z) : bool :=
  inst_wf (mkInstr op type result [] imm0 0 0 0 0).
Definition terminates (op : Op.t) (imm0 : Z) : bool :=
  is_block_terminator (mkInstr op Void 0 [] imm0 0 0 0 0).

Lemma inst_wf_ext x y :
  i_op x = i_op y -> i_type x = i_type y -> i_imm0 x = i_imm0 y ->
  has_result x = has_result y -> inst_wf x = inst_wf y.
Proof.
  intros Ho Ht H0 Hr. unfold inst_wf, const_imm_ok, promotable, index_below. by rewrite Ho, Ht, H0, Hr.
Qed.

Lemma args_ok_typed k args ts :
  Forall2 (has_t k) args ts -> Forall (λ a, 0 <= a < c_next k) args.
Proof. induction 1 as [|a t args ts [Ha _] _ IH]; by constructor. Qed.

Lemma guest_cases i guest st :
  guest = None \/ guest = Some i -> bl_current_guest st = Some i ->
  origin guest st = (di_address i, di_word i, opcode_id i).
Proof. intros [->| ->] Hg; unfold origin; [by rewrite Hg|done]. Qed.

Section Emit.
Context (i : DecodedInstruction) (limit : Z).

Lemma has_t_args k args ts :
  Forall2 (has_t k) args ts -> Forall2 (λ a t, c_types k !! a = Some t) args ts.
Proof. intros H2. eapply Forall2_impl; [exact H2|]. by intros a t [_ ?]. Qed.

(** The verifier accepts the instruction. *)
Lemma emitted_accepted k room cl so ve op type result args ts imm0 imm1 x b :
  at_ limit room cl so ve k -> Forall2 (has_t k) args ts -> accepts op type imm0 imm1 ts = true ->
  x = mkInstr op type result args imm0 imm1 (di_address i) (di_word i) (opcode_id i) ->
  (result = kNoValue /\ type = Void \/ result = c_next k /\ type <> Void /\ c_next k <> kNoValue) ->
  inst_accepted b false (c_types k) x.
Proof.
  intros Hat Hts Hacc -> Hres. unfold accepts in Hacc. rewrite !andb_true_iff in Hacc.
  destruct Hacc as (((((Ha1 & Ha2) & Hv) & Hf) & Ho) & Hm).
  apply Nat.leb_le in Ha1, Ha2. apply eqb_prop in Hv.
  pose proof (Forall2_length _ _ _ Hts) as Hlen.
  assert (Hty : forall v, (v = c_types k \/ v = <[result := type]> (c_types k) /\ result = c_next k) -> forall n,
    type_of v (mkInstr op type result args imm0 imm1 (di_address i) (di_word i) (opcode_id i)) n =
    type_of (sig_values ts) (sig_inst op type imm0 imm1 ts) n).
  { intros v Hv' n. rewrite type_of_sig. apply type_of_args. eapply Forall2_impl; [exact Hts|].
    intros a t [Ha Hk]. destruct Hv' as [->|[-> ->]]; [done|]. rewrite lookup_insert_ne; [done|lia]. }
  set (x := mkInstr _ _ _ _ _ _ _ _ _) in *.
  assert (Hdef : define x (c_types k) = c_types k \/
                 define x (c_types k) = <[result := type]> (c_types k) /\ result = c_next k).
  { unfold define. cbn. rewrite Hv. destruct Hres as [[-> ->]|[-> [Hne _]]].
    - by left.
    - right. by rewrite bool_decide_eq_false_2. }
  split.
  - done.
  - cbn. lia.
  - cbn. eapply Forall2_Forall_l; [exact Hts|]. apply Forall_true. by intros t a [_ ->].
  - cbn. rewrite Hv. intros Ht%bool_decide_eq_true. by destruct Hres as [[-> _]|[_ [? _]]].
  - cbn. intros Hnv. rewrite Hv in Hnv. apply bool_decide_eq_false in Hnv.
    destruct Hres as [[_ ?]|[-> [Hne Hnk]]]; [done|]. split_and!; [done|done| |].
    + rewrite Hv, (bool_decide_eq_false_2 _ Hne) in Hf. exact Hf.
    + destruct (c_types k !! c_next k) eqn:E; [|done]. destruct (at_keys _ _ _ _ _ _ Hat _ _ E); lia.
  - erewrite operands_ok_sig; [exact Ho|done|done|]. by apply Hty.
  - erewrite memory_ok_sig; [exact Hm|done|done|done|done|]. by apply Hty.
Qed.

Lemma builds_value k room so ve op type args ts imm0 imm1 guest (Q : ValueId -> Cursor -> Prop) :
  at_ limit room false so ve k -> 1 <= room -> guest = None \/ guest = Some i ->
  (length args <= 4)%nat -> Forall2 (has_t k) args ts ->
  accepts op type imm0 imm1 ts = true -> bool_decide (type = Void) = false ->
  op_wf op type 0 imm0 = true -> terminates op imm0 = false -> plain_op op = true ->
  (forall r k', at_ limit (room - 1) false true ve k' -> extends k k' -> has_t k' r type -> Q r k') ->
  builds i k (emit op type args imm0 imm1 guest) Q.
Proof.
  intros Hat Hroom Hguest Hlen Hts Hacc Hne%bool_decide_eq_false Hwf Hterm Hplain HQ st Hn Hg.
  pose proof Hat as [Hlow [_ Hlim] Hkeys Hclosed Hsome Hver].
  set (n := c_next k) in *.
  set (x := mkInstr op type n args imm0 imm1 (di_address i) (di_word i) (opcode_id i)).
  assert (Hu : u32 (n + 1) = n + 1) by (unfold kNoValue in *; apply u32_small; unfold is_u32; lia).
  assert (Hnk : n <> kNoValue) by lia.
  assert (Hev : expects_void op = false).
  { unfold accepts in Hacc. rewrite !andb_true_iff in Hacc. destruct Hacc as (((((_ & _) & Hv) & _) & _) & _).
    apply eqb_prop in Hv. by rewrite Hv, bool_decide_eq_false_2. }
  set (k' := mkCursor (n + 1) (<[n := type]> (c_types k)) false true ve).
  assert (Hext : extends k k').
  { intros v t [Hv Ht]. split; cbn; [unfold n; lia|]. rewrite lookup_insert_ne; [done|unfold n; lia]. }
  exists n, (mkBuilder (bl_instructions st ++ [x]) (n + 1) (bl_current_guest st)), [x], k'.
  split_and!.
  - rewrite emit_tagged by done. cbn. rewrite bool_decide_eq_false_2 by done. rewrite Hn, Hu.
    unfold tagged. by rewrite (guest_cases i).
  - done.
  - done.
  - done.
  - split; cbn.
    + rewrite andb_true_r. unfold inst_ok. apply andb_true_iff. split.
      * apply args_ok_spec. by eapply args_ok_typed.
      * unfold result_ok. cbn. apply orb_true_iff. right. apply andb_true_iff. rewrite Z.leb_le, Z.ltb_lt. fold n. lia.
    + unfold next_id. cbn. destruct (Z.eqb_spec n kNoValue); lia.
    + constructor; [|done]. rewrite <- Hwf. apply inst_wf_ext; try done. unfold has_result. cbn.
      destruct (Z.eqb_spec n kNoValue); [done|done].
    + constructor; [|done]. cbn. by rewrite Hplain.
    + by constructor.
    + unfold define. cbn. by rewrite Hev.
    + by rewrite orb_true_r.
    + intros Hc. rewrite Hclosed in Hc. discriminate Hc.
    + rewrite Hclosed, orb_false_r. cbn. symmetry. exact Hterm.
    + by rewrite Hver, Hplain, andb_true_r.
    + intros _ b. apply insts_accepted_cons. split_and!; [|done|apply insts_accepted_nil].
      eapply emitted_accepted; [exact Hat|done|done|reflexivity|by right].
  - apply HQ; [|exact Hext|].
    + split; cbn; try done; try lia. intros a t Ha. apply lookup_insert_Some in Ha as [[<- _]|[_ Ha]]; [lia|].
      destruct (Hkeys _ _ Ha); [left; lia|by right].
    + split; cbn; [lia|]. by rewrite lookup_insert_eq.
Qed.

(** Instructions without a result; the verifier rejects the two flag writes. *)
Lemma builds_void k room so ve op args ts imm0 imm1 guest (Q : ValueId -> Cursor -> Prop) :
  at_ limit room false so ve k -> guest = None \/ guest = Some i ->
  (length args <= 4)%nat -> Forall2 (has_t k) args ts ->
  (plain_op op = true -> accepts op Void imm0 imm1 ts = true) ->
  op_wf op Void kNoValue imm0 = true ->
  (forall r k', at_ limit room (terminates op imm0) true (ve && plain_op op) k' -> extends k k' -> Q r k') ->
  builds i k (emit op Void args imm0 imm1 guest) Q.
Proof.
  intros Hat Hguest Hlen Hts Hacc Hwf HQ st Hn Hg.
  pose proof Hat as [Hlow [Hrm Hlim] Hkeys Hclosed Hsome Hver].
  set (n := c_next k) in *.
  set (x := mkInstr op Void kNoValue args imm0 imm1 (di_address i) (di_word i) (opcode_id i)).
  set (k' := mkCursor n (define x (c_types k)) (terminates op imm0) true (ve && plain_op op)).
  pose proof (args_ok_typed _ _ _ Hts) as Hargs.
  assert (Hid : next_id n x = n).
  { unfold next_id. cbn. apply Z.le_antisymm; [|apply foldr_max_ge]. apply foldr_max_le; [lia|].
    eapply Forall_impl; [exact Hargs|]. cbn. fold n. lia. }
  assert (Hdef : forall v t, v <> kNoValue -> define x (c_types k) !! v = Some t <-> c_types k !! v = Some t).
  { intros v t Hv. unfold define. destruct (expects_void _); [done|]. cbn. by rewrite lookup_insert_ne. }
  assert (Hext : extends k k').
  { intros v t [Hv Ht]. split; [exact Hv|]. cbn. apply Hdef; [|exact Ht]. fold n in Hv. lia. }
  exists kNoValue, (mkBuilder (bl_instructions st ++ [x]) n (bl_current_guest st)), [x], k'.
  split_and!.
  - rewrite emit_tagged by done. cbn. rewrite Hn. unfold tagged. by rewrite (guest_cases i).
  - done.
  - done.
  - done.
  - split.
    + cbn. rewrite andb_true_r. unfold inst_ok. apply andb_true_iff. split; [|done].
      apply args_ok_spec. cbn. eapply Forall_impl; [exact Hargs|]. cbn. fold n. lia.
    + change (next_id n x <= n). by rewrite Hid.
    + constructor; [|done]. by rewrite <- Hwf; apply inst_wf_ext.
    + by constructor.
    + by constructor.
    + done.
    + cbn. by rewrite orb_true_r.
    + intros Hc. rewrite Hclosed in Hc. discriminate Hc.
    + cbn. by rewrite Hclosed, orb_false_r.
    + cbn. by rewrite Hver, andb_true_r.
    + cbn. intros [_ Ha]%andb_true_iff b.
      apply insts_accepted_cons. split_and!; [|done|apply insts_accepted_nil].
      eapply emitted_accepted; [exact Hat|done|by apply Hacc|reflexivity|by left].
  - apply HQ; [|exact Hext]. split; cbn; try done.
    intros a t Ha. destruct (decide (a = kNoValue)) as [->|Hne]; [by right|]. apply Hdef in Ha; [|done].
    by apply Hkeys in Ha.
Qed.
End Emit.

(** ** Lowering a guest instruction *)

Definition kBudget : Z := 256.

(** [c] lowers [i]: it answers true and appends at least one instruction, which the
    verifier accepts if [accepted]; only if [stops] is the last one a terminator. *)
Definition lowers (i : DecodedInstruction) (accepted stops : bool) (c : B bool) : Prop :=
  forall limit k so ve, at_ limit kBudget false so ve k ->
  builds i k c (λ ok k', ok = true /\ exists room closed,
    at_ limit room closed true (ve && accepted) k' /\ (closed = true -> stops = true)).

Lemma index_ok n r : 0 <= r < n -> (0 <=? r) && (r <? n) = true.
Proof. intros Hr. rewrite andb_true_iff, Z.leb_le, Z.ltb_lt. lia. Qed.

(** Register fields. *)
Lemma land_const_range n c x : 0 <= n -> 0 <= c < 2 ^ n -> 0 <= x .& c < 2 ^ n.
Proof. intros Hn Hc. rewrite Z.land_comm. by apply land_bound_l. Qed.

Lemma vx128_vd_range i : 0 <= vx128_vd i < 128.
Proof.
  unfold vx128_vd, vd5. pose proof (rt_range i).
  pose proof (land_const_range 4 0xC (di_word i) ltac:(lia) ltac:(lia)).
  apply (lor_bound 7); [lia|lia|]. rewrite Z.shiftl_mul_pow2 by lia. lia.
Qed.
Lemma vx128_va_range i : 0 <= vx128_va i < 128.
Proof.
  unfold vx128_va, va5. pose proof (ra_range i).
  pose proof (land_const_range 6 0x20 (di_word i) ltac:(lia) ltac:(lia)).
  pose proof (land_const_range 11 0x400 (di_word i) ltac:(lia) ltac:(lia)).
  apply (lor_bound 7); [lia|apply (lor_bound 7); lia|].
  rewrite Z.shiftr_div_pow2 by lia. split; [apply Z.div_pos; lia|apply Z.div_lt_upper_bound; lia].
Qed.
Lemma vx128_vb_range i : 0 <= vx128_vb i < 128.
Proof.
  unfold vx128_vb, vb5. pose proof (rb_range i).
  pose proof (land_const_range 2 3 (di_word i) ltac:(lia) ltac:(lia)).
  apply (lor_bound 7); [lia|lia|]. rewrite Z.shiftl_mul_pow2 by lia. lia.
Qed.
Lemma frc_range i : 0 <= frc i < 32. Proof. apply land31_range. Qed.

Create HintDb fields.
#[export] Hint Resolve rt_range ra_range rb_range frc_range vx128_vd_range vx128_va_range
  vx128_vb_range land31_range : fields.
#[export] Hint Extern 1 (0 <= rs _ < 32) => apply rt_range : fields.
#[export] Hint Extern 1 (0 <= frt _ < 32) => apply rt_range : fields.
#[export] Hint Extern 1 (0 <= frs _ < 32) => apply rt_range : fields.

Lemma below_128 r : 0 <= r < 32 -> 0 <= r < 128.
Proof. lia. Qed.

(** *** Tactics *)

Ltac head t := lazymatch t with ?f _ => head f | _ => t end.

Ltac args_typed := repeat (apply Forall2_cons; split; [eassumption|]); apply Forall2_nil; exact I.

(** The well-formedness side condition: an index in range, or a computation. *)
Ltac side_wf :=
  first
  [ reflexivity
  | unfold op_wf, inst_wf, const_imm_ok, promotable, index_below; cbn [i_op i_imm0 i_type i_result];
    repeat match goal with Hb : (_ =? _) = false |- _ => rewrite Hb end;
    rewrite ?index_ok by (first [solve [auto with fields] | apply below_128; solve [auto with fields] | lia]);
    reflexivity ].

Lemma accepts_string op reg imm1 :
  op = Op.StringLoad \/ op = Op.StringStore -> 0 <= reg < 32 -> imm1 = 0 \/ imm1 = 1 ->
  accepts op Void reg imm1 [I64; I32] = true.
Proof.
  intros Hop Hr Hi. assert ((reg <? 32) = true) as Hlt by (apply Z.ltb_lt; lia).
  destruct Hop as [-> | ->], Hi as [-> | ->]; unfold accepts, memory_ok, sig_inst; cbn [i_op i_imm0 i_imm1];
    rewrite Hlt; reflexivity.
Qed.

Ltac side_accept :=
  first [ reflexivity
        | vm_compute; reflexivity
        | apply accepts_string; [first [by left|by right]|auto with fields|first [by left|by right]] ].
Ltac side_guest := first [left; reflexivity | right; reflexivity].

(** Typed values move to the new cursor. *)
Ltac advance_typed Hext :=
  repeat match type of Hext with
  | extends ?k _ => match goal with Hv : has_t k _ _ |- _ => apply Hext in Hv end
  end; clear Hext.

Ltac tidy_at Hat :=
  cbn [plain_op] in Hat; rewrite ?andb_true_r, ?andb_false_r in Hat; cbn [andb] in Hat;
  lazymatch type of Hat with
  | at_ _ ?room ?cl _ _ _ =>
      let r := eval vm_compute in room in
      lazymatch r with Zpos _ => change room with r in Hat | Z0 => change room with r in Hat | _ => idtac end;
      try change cl with false in Hat
  end.

Ltac emit_step :=
  lazymatch goal with
  | Hat : at_ ?L ?room ?cl ?so ?ve ?k |- builds ?i ?k (emit ?op Void ?args ?imm0 ?imm1 ?g) ?Q =>
      eapply (builds_void i L k room so ve op args _ imm0 imm1 g);
        [exact Hat|side_guest|cbn; lia|args_typed|first [discriminate|intros _; side_accept]|side_wf|];
      clear Hat;
      let r := fresh "r" in let k' := fresh "k" in let Hat := fresh "Hat" in let Hext := fresh "Hext" in
      intros r k' Hat Hext; advance_typed Hext; tidy_at Hat
  | Hat : at_ ?L ?room ?cl ?so ?ve ?k |- builds ?i ?k (emit ?op ?type ?args ?imm0 ?imm1 ?g) ?Q =>
      eapply (builds_value i L k room so ve op type args _ imm0 imm1 g);
        [exact Hat|lia|side_guest|cbn; lia|args_typed|side_accept|reflexivity|side_wf|reflexivity|reflexivity|];
      clear Hat;
      let r := fresh "r" in let k' := fresh "k" in let Hat := fresh "Hat" in let Hext := fresh "Hext" in
      let Ht := fresh "Ht" in
      intros r k' Hat Hext Ht; advance_typed Hext; tidy_at Hat
  end.

(** A value is never the sentinel. *)
Lemma value_is_some limit room cl so ve k v t :
  at_ limit room cl so ve k -> has_t k v t -> (v =? kNoValue) = false.
Proof. intros [] [Hv _]. apply Z.eqb_neq. lia. Qed.

Ltac sentinel_step :=
  match goal with
  | Hat : at_ _ _ _ _ _ ?k, Ht : has_t ?k ?v _ |- context [?v =? kNoValue] =>
      rewrite (value_is_some _ _ _ _ _ _ _ _ Hat Ht)
  | |- context [kNoValue =? kNoValue] => rewrite (Z.eqb_refl kNoValue)
  end; cbn [negb andb].

(** Close the branches that contradict earlier tests of the SPR number. *)
Ltac contradict_step Hb :=
  try discriminate Hb;
  lazymatch type of Hb with
  | context [spr _] => cbn [orb] in Hb; try discriminate Hb; try (exfalso; lia)
  | _ => idtac
  end.

(** One step of a builder program. *)
Ltac build_step :=
  lazymatch goal with
  | |- builds _ _ (bbind _ _) _ => apply builds_bind
  | |- builds _ _ (bret _) _ => apply builds_ret
  | |- builds _ _ (if true then _ else _) _ => cbv iota
  | |- builds _ _ (if false then _ else _) _ => cbv iota
  | |- builds _ _ (if bool_decide (?a = ?b) then _ else _) _ =>
      first [ rewrite (bool_decide_eq_true_2 (a = b)) by reflexivity
            | rewrite (bool_decide_eq_false_2 (a = b)) by discriminate
            | apply builds_if; let Hb := fresh "Hb" in intros Hb; rewrite ?Hb ]
  | |- builds _ _ (if ?b then _ else _) _ =>
      first [sentinel_step | apply builds_if; let Hb := fresh "Hb" in intros Hb; rewrite ?Hb; contradict_step Hb]
  | |- builds _ _ (let '(_, _) := ?p in _) _ => destruct p
  | |- builds _ _ (emit (if ?b then _ else _) _ _ _ _ _) _ =>
      let Hb := fresh "Hb" in destruct b eqn:Hb; rewrite ?Hb
  | |- builds _ _ (emit _ (if ?b then _ else _) _ _ _ _) _ =>
      let Hb := fresh "Hb" in destruct b eqn:Hb; rewrite ?Hb
  | |- builds _ _ (emit ?op _ _ _ _ _) _ => emit_step
  | |- builds _ _ ?c _ => let f := head c in unfold f; cbv beta zeta
  end.

Ltac build_done :=
  split; [reflexivity|]; do 2 eexists; split;
    [cbn [negb]; rewrite ?andb_true_r, ?andb_false_r; eassumption|done].
Ltac build := intros limit k so ve Hat; unfold kBudget in Hat; repeat build_step; build_done.
