(* ===== verification/LiftStaticForms.v ===== *)
(** * Lowering of each group of instructions, statically

    For every lifting function of the integer, control, memory, floating-point and
    vector lifters: it succeeds on the instructions it is called for, and what it
    appends is well formed ([LiftStatic.builds]). *)

From S2P Require Import Prelude.
From S2P Require Import Words.
From S2P Require Import Instr.
From S2P Require Import Ir.
From S2P Require Import Verifier.
From S2P Require Import Lifter.
From S2P Require Import LiftStatic.
From S2P Require Import LifterControl.
From S2P Require Import LifterMemory.
From S2P Require Import LifterFloat.
From S2P Require Import Lift.

Section Integer.
Context (i : DecodedInstruction).

Lemma lift_addi_lowers : lowers i true false (lift_addi i).
Proof. build. Qed.
Lemma lift_add_lowers : lowers i (negb (oe i)) false (lift_add i).
Proof. build. Qed.
Lemma lift_addic_lowers : lowers i true false (lift_addic i).
Proof. build. Qed.
Lemma lift_adde_lowers : lowers i (negb (oe i)) false (lift_adde i).
Proof. build. Qed.
Lemma lift_subfe_lowers : lowers i (negb (oe i)) false (lift_subfe i).
Proof. build. Qed.
Lemma lift_subf_lowers : lowers i (negb (oe i)) false (lift_subf i).
Proof. build. Qed.
Lemma lift_subfic_lowers : lowers i true false (lift_subfic i).
Proof. build. Qed.
Lemma lift_mulli_lowers : lowers i true false (lift_mulli i).
Proof. build. Qed.
Lemma lift_mul_lowers : lowers i (negb (oe i)) false (lift_mul i).
Proof. build. Qed.
Lemma lift_mulh_lowers : lowers i true false (lift_mulh i).
Proof. build. Qed.
Lemma lift_div_lowers : lowers i (negb (oe i)) false (lift_div i).
Proof. build. Qed.
Lemma lift_neg_lowers : lowers i (negb (oe i)) false (lift_neg i).
Proof. build. Qed.
Lemma lift_logical_lowers : lowers i true false (lift_logical i).
Proof. build. Qed.
Lemma lift_logical_immediate_lowers : lowers i true false (lift_logical_immediate i).
Proof. build. Qed.
Lemma lift_extend_lowers : lowers i true false (lift_extend i).
Proof. build. Qed.
Lemma lift_count_zeros_lowers : lowers i true false (lift_count_zeros i).
Proof. build. Qed.
Lemma lift_compare_lowers : lowers i true false (lift_compare i).
Proof. build. Qed.
Lemma lift_rlw_lowers : lowers i true false (lift_rlw i).
Proof. build. Qed.
Lemma lift_rldc_lowers : lowers i true false (lift_rldc i).
Proof. build. Qed.
Lemma lift_rld_lowers : lowers i true false (lift_rld i).
Proof. build. Qed.
Lemma lift_sync_lowers :
  one_of (mnemonic i) ["sync"; "eieio"; "isync"] = true ->
  lowers i true (String.eqb (mnemonic i) "isync") (lift_sync i).
Proof.
  intros Hm. unfold lift_sync, lowers. apply one_of_elem in Hm.
  repeat (apply elem_of_cons in Hm; destruct Hm as [Hm|Hm]); try (by apply elem_of_nil in Hm);
    rewrite Hm; cbn [String.eqb Ascii.eqb Bool.eqb]; [destruct (_ =? 1)| |]; build.
Qed.
Lemma lift_shift_lowers : lowers i true false (lift_shift i).
Proof. build. Qed.
End Integer.

Section Control.
Context (i : DecodedInstruction).

Lemma lift_bx_lowers : lowers i true true (lift_bx i).
Proof. build. Qed.
Lemma lift_bcx_lowers : lowers i true true (lift_bcx i).
Proof. build. Qed.
Lemma lift_bclrx_lowers : lowers i true true (lift_bclrx i).
Proof. build. Qed.
Lemma lift_bcctrx_lowers : lowers i true true (lift_bcctrx i).
Proof. build. Qed.
Lemma lift_cr_logical_lowers : lowers i true false (lift_cr_logical i).
Proof. build. Qed.
Lemma lift_mcrf_lowers : lowers i true false (lift_mcrf i).
Proof. build. Qed.
Lemma lift_mfcr_lowers : lowers i true false (lift_mfcr i).
Proof. build. Qed.
Lemma lift_mtcrf_lowers : lowers i true false (lift_mtcrf i).
Proof. build. Qed.
Lemma lift_mcrxr_lowers : lowers i true false (lift_mcrxr i).
Proof. build. Qed.
Lemma lift_mfspr_lowers : lowers i true false (lift_mfspr i).
Proof. build. Qed.
Lemma lift_mtspr_lowers : lowers i true false (lift_mtspr i).
Proof. build. Qed.
Lemma lift_mftb_lowers : lowers i true false (lift_mftb i).
Proof. build. Qed.
Lemma lift_mfmsr_lowers : lowers i true false (lift_mfmsr i).
Proof. build. Qed.
Lemma lift_mtmsr_lowers : lowers i true false (lift_mtmsr i).
Proof. build. Qed.
Lemma lift_sc_lowers : lowers i true true (lift_sc i).
Proof. build. Qed.
Lemma lift_trap_lowers : lowers i true true (lift_trap i).
Proof. build. Qed.
Lemma lift_mffs_lowers : lowers i true false (lift_mffs i).
Proof. build. Qed.
Lemma lift_mcrfs_lowers : lowers i true false (lift_mcrfs i).
Proof. build. Qed.
Lemma lift_mtfsb_lowers : lowers i true false (lift_mtfsb i).
Proof. build. Qed.
Lemma lift_mtfsfi_lowers : lowers i true false (lift_mtfsfi i).
Proof. build. Qed.
Lemma lift_mtfsf_lowers : lowers i true false (lift_mtfsf i).
Proof. build. Qed.
Lemma lift_mfvscr_lowers : lowers i true false (lift_mfvscr i).
Proof. build. Qed.
Lemma lift_mtvscr_lowers : lowers i true false (lift_mtvscr i).
Proof. build. Qed.
End Control.

(** The access widths of the descriptor tables. *)
Definition scalar_width (d : AccessDesc) : bool := existsb (Z.eqb (ad_bytes d)) [1; 2; 4; 8].

Lemma scalar_width_cases d :
  scalar_width d = true -> ad_bytes d = 1 \/ ad_bytes d = 2 \/ ad_bytes d = 4 \/ ad_bytes d = 8.
Proof. unfold scalar_width. cbn. rewrite !orb_true_iff, !Z.eqb_eq. intuition discriminate. Qed.

Lemma find_desc_width m table d :
  forallb scalar_width table = true -> find_desc m table = Some d -> scalar_width d = true.
Proof. intros Ht Hf. apply find_some in Hf as [Hin _]. rewrite forallb_forall in Ht. by apply Ht. Qed.

Lemma scalar_loads_width : forallb scalar_width scalar_loads = true.
Proof. reflexivity. Qed.
Lemma scalar_stores_width : forallb scalar_width scalar_stores = true.
Proof. reflexivity. Qed.

Section Memory.
Context (i : DecodedInstruction).

Lemma lift_scalar_load_lowers d : scalar_width d = true -> lowers i true false (lift_scalar_load i d).
Proof.
  intros Hw%scalar_width_cases. destruct d as [name bytes sign update indexed endian]. cbn in Hw.
  destruct Hw as [->|[->|[->| ->]]]; destruct endian; build.
Qed.

Lemma lift_scalar_store_lowers d : scalar_width d = true -> lowers i true false (lift_scalar_store i d).
Proof.
  intros Hw%scalar_width_cases. destruct d as [name bytes sign update indexed endian]. cbn in Hw.
  destruct Hw as [->|[->|[->| ->]]]; destruct endian; build.
Qed.

Lemma lift_multiple_one_builds limit room so ve k base r :
  at_ limit room false so ve k -> 3 <= room -> 0 <= r < 32 -> has_t k base I64 ->
  builds i k (lift_multiple_one i base r) (λ _ k', has_t k' base I64 /\ exists room',
    at_ limit room' false true ve k' /\ room - 3 <= room').
Proof.
  intros Hat Hroom Hr Hbase. unfold lift_multiple_one, add_immediate.
  repeat build_step; (split; [assumption|]; eexists; split; [eassumption|lia]).
Qed.

Lemma lift_multiple_loop_builds limit base rs : forall room so ve k,
  at_ limit room false so ve k -> 3 * Z.of_nat (length rs) <= room -> Forall (λ r, 0 <= r < 32) rs ->
  has_t k base I64 ->
  builds i k (lift_multiple_loop i base rs) (λ _ k', exists room',
    at_ limit room' false (so || nonempty rs) ve k').
Proof.
  induction rs as [|r rs IH]; intros room so ve k Hat Hroom Hrs Hbase; cbn [lift_multiple_loop].
  - apply builds_ret. rewrite orb_false_r. eauto.
  - apply Forall_cons in Hrs as [Hr Hrs]. cbn [length] in Hroom. apply builds_bind.
    eapply builds_mono; [|eapply lift_multiple_one_builds; [exact Hat|lia|done|done]].
    intros _ k1 (Hb1 & room1 & Hat1 & Hroom1). eapply builds_mono; [|eapply IH; [exact Hat1|lia|done|done]].
    intros _ k2 (room2 & Hat2). exists room2. by rewrite orb_true_r.
Qed.

Lemma lift_multiple_lowers : lowers i true false (lift_multiple i).
Proof.
  intros limit k so ve Hat. unfold kBudget in Hat. unfold lift_multiple, base_or_zero. pose proof (rt_range i).
  repeat lazymatch goal with
  | |- builds _ _ (bbind (lift_multiple_loop _ _ _) _) _ => fail
  | |- _ => build_step
  end;
    (apply builds_bind; eapply builds_mono; [|eapply lift_multiple_loop_builds;
       [eassumption|rewrite length_seqZ; lia| |eassumption]]);
    [|apply Forall_forall; intros x Hx; apply elem_of_seqZ in Hx; lia
     | |apply Forall_forall; intros x Hx; apply elem_of_seqZ in Hx; lia];
    (intros _ k' (room' & Hat'); apply builds_ret; split; [done|]; exists room', false;
     rewrite andb_true_r; split; [exact Hat'|done]).
Qed.

Lemma vector_reg_range : 0 <= vector_reg i < 128.
Proof. unfold vector_reg. destruct (format_is _ _); [apply vx128_vd_range|apply below_128, rt_range]. Qed.
#[local] Hint Resolve vector_reg_range : fields.

Lemma lift_string_lowers : lowers i true false (lift_string i).
Proof. build. Qed.
Lemma lift_fp_load_lowers : lowers i true false (lift_fp_load i).
Proof. build. Qed.
Lemma lift_fp_store_lowers : lowers i true false (lift_fp_store i).
Proof. build. Qed.
Lemma lift_stfiwx_lowers : lowers i true false (lift_stfiwx i).
Proof. build. Qed.
Lemma lift_reserve_lowers : lowers i true false (lift_reserve i).
Proof. build. Qed.
Lemma lift_store_conditional_lowers : lowers i true false (lift_store_conditional i).
Proof. unfold lowers, lift_store_conditional. destruct (String.eqb (mnemonic i) "stwcx"); build. Qed.
Lemma lift_vector_load_lowers : lowers i true false (lift_vector_load i).
Proof. build. Qed.
Lemma lift_vector_store_lowers : lowers i true false (lift_vector_store i).
Proof. build. Qed.
Lemma lift_element_load_lowers : lowers i true false (lift_element_load i).
Proof.
  unfold lowers, lift_element_load.
  destruct (String.eqb (mnemonic i) "lvebx"), (String.eqb (mnemonic i) "lvehx"); build.
Qed.
Lemma lift_element_store_lowers : lowers i true false (lift_element_store i).
Proof.
  unfold lowers, lift_element_store.
  destruct (String.eqb (mnemonic i) "stvebx"), (String.eqb (mnemonic i) "stvehx"); build.
Qed.

Lemma lift_partial_load_lowers op :
  op = Op.VLoadLeft \/ op = Op.VLoadRight -> lowers i true false (lift_partial_load i op).
Proof.
  unfold lowers, lift_partial_load. destruct (ends_with "l" (mnemonic i)); intros [-> | ->]; build.
Qed.
Lemma lift_partial_store_lowers op :
  op = Op.VStoreLeft \/ op = Op.VStoreRight -> lowers i true false (lift_partial_store i op).
Proof.
  unfold lowers, lift_partial_store. destruct (ends_with "l" (mnemonic i)); intros [-> | ->]; build.
Qed.
Lemma lift_cache_lowers op imm0 :
  (op = Op.CacheZero /\ (imm0 = 32 \/ imm0 = 128)) \/ op = Op.ICacheInvalidate \/ op = Op.CacheHint ->
  lowers i true false (lift_cache i op imm0).
Proof. intros [[-> [-> | ->]]|[-> | ->]]; build. Qed.
End Memory.

Section Float.
Context (i : DecodedInstruction).

Lemma lift_fp_binary_lowers : lowers i true false (lift_fp_binary i).
Proof. build. Qed.
Lemma lift_fmul_lowers : lowers i true false (lift_fmul i).
Proof. build. Qed.
Lemma lift_fma_lowers : lowers i true false (lift_fma i).
Proof. build. Qed.
Lemma lift_fsqrt_lowers : lowers i true false (lift_fsqrt i).
Proof. build. Qed.
Lemma lift_estimate_lowers : lowers i true false (lift_estimate i).
Proof. build. Qed.
Lemma lift_fsel_lowers : lowers i true false (lift_fsel i).
Proof. build. Qed.
Lemma lift_fp_move_lowers : lowers i true false (lift_fp_move i).
Proof. build. Qed.
Lemma lift_frsp_lowers : lowers i true false (lift_frsp i).
Proof. build. Qed.
Lemma lift_fcfid_lowers : lowers i true false (lift_fcfid i).
Proof. build. Qed.
Lemma lift_fcti_lowers : lowers i true false (lift_fcti i).
Proof. build. Qed.
Lemma lift_fcmp_lowers : lowers i true false (lift_fcmp i).
Proof. build. Qed.
Lemma lift_fpu_mffs_lowers : lowers i true false (lift_fpu_mffs i).
Proof. build. Qed.
End Float.

(** ** Vector instructions *)

Lemma vd_range i : 0 <= vd i < 128.
Proof. unfold vd. destruct (extended _); [apply vx128_vd_range|apply below_128, rt_range]. Qed.
Ltac vector_field :=
  lazymatch goal with
  | |- 0 <= vx128_va _ < _ => apply vx128_va_range
  | |- 0 <= vx128_vb _ < _ => apply vx128_vb_range
  | |- 0 <= va5 _ < _ => apply below_128, ra_range
  | |- 0 <= vb5 _ < _ => apply below_128, rb_range
  | |- 0 <= vc5 _ < _ => apply below_128, frc_range
  end.
Lemma va_range i : 0 <= va i < 128.
Proof. unfold va. destruct (format i); vector_field. Qed.
Lemma vb_range i : 0 <= vb i < 128.
Proof. unfold vb. destruct (format i); vector_field. Qed.
Lemma vc_range i : 0 <= vc i < 128.
Proof.
  unfold vc. pose proof (land7_range (di_word i .>> 8)). destruct (format i); first [lia|vector_field].
Qed.

(** The mnemonics [lift_vector] has a case for. *)
Definition vector_handled (i : DecodedInstruction) : bool :=
  one_of (mnemonic i) ["lvsl"; "lvsl128"; "lvsr"; "lvsr128"] ||
  starts i ["vaddfp"; "vsubfp"; "vmulfp128"] ||
  starts i ["vmaddfp"; "vmaddcfp"; "vnmsubfp"] ||
  starts i ["vmax"; "vmin"] ||
  starts i ["vrefp"; "vrsqrtefp"; "vexptefp"; "vlogefp"] ||
  starts i ["vrfi"] ||
  starts i ["vmsum3fp"; "vmsum4fp"] ||
  starts i ["vandc"] ||
  starts i ["vand"] ||
  starts i ["vor"] ||
  starts i ["vxor"] ||
  starts i ["vnor"] ||
  starts i ["vsel"] ||
  starts i ["vcmp"] ||
  starts i ["vadd"; "vsub"] ||
  starts i ["vavg"] ||
  starts i ["vmhadd"; "vmhradd"; "vmladd"] ||
  starts i ["vmule"; "vmulo"] ||
  starts i ["vmul"] ||
  starts i ["vsum"; "vmsum"] ||
  starts i ["vcfs"; "vcfu"; "vcts"; "vctu"; "vcfps"; "vcfpu"; "vcsx"; "vcux"] ||
  starts i ["vmrgh"; "vmrgl"] ||
  starts i ["vpermwi"] ||
  starts i ["vperm"] ||
  starts i ["vpk"] ||
  starts i ["vupk"] ||
  starts i ["vsplt"] ||
  starts i ["vrlimi"] ||
  starts i ["vrl"] ||
  starts i ["vsl"; "vsr"].

Section Vector.
Context (i : DecodedInstruction).

#[local] Hint Resolve vd_range va_range vb_range vc_range : fields.

Lemma lift_vector_lowers : vector_handled i = true -> lowers i true false (lift_vector i).
Proof.
  intros Hm limit k so ve Hat. unfold kBudget in Hat. unfold lift_vector.
  repeat lazymatch goal with
  | |- builds _ _ (if ?b then _ else bret false) _ => fail
  | |- builds _ _ (if ?b then _ else _) _ => (apply builds_if; let Hb := fresh "Hb" in intros Hb); [repeat build_step; build_done|cbv beta]
  end.
  apply builds_if; intros Hlast; [repeat build_step; build_done|]. exfalso. unfold vector_handled in Hm.
  repeat match goal with Hf : _ = false |- _ => rewrite Hf in Hm; clear Hf end. discriminate Hm.
Qed.
End Vector.
