(* ===== verification/LiftTotal.v ===== *)
(** * Every catalogued instruction lowers

    For each row of the opcode catalogue, the lifter's group dispatch has a case,
    the case emits well-formed code, and only an instruction that ends a basic
    block ends in a terminator. *)

From S2P Require Import Prelude.
From S2P Require Import Words.
From S2P Require Import Instr.
From S2P Require Import Decoder.
From S2P Require Import Ir.
From S2P Require Import Verifier.
From S2P Require Import Lifter.
From S2P Require Import LifterControl.
From S2P Require Import LifterMemory.
From S2P Require Import LifterFloat.
From S2P Require Import Lift.
From S2P Require Import FunctionCompiler.
From S2P Require Import LiftStatic.
From S2P Require Import LiftStaticForms.

(** The forms that set OV and SO: with OE set, they emit [SetXerOV] and
    [SetXerSO]. *)
Definition overflow_mnemonics : list string :=
  ["addx"; "addcx"; "addex"; "addmex"; "addzex"; "subfx"; "subfcx"; "subfex"; "subfmex"; "subfzex";
   "mulldx"; "mullwx"; "divdx"; "divdux"; "divwx"; "divwux"; "negx"].
Definition overflow_form (i : DecodedInstruction) : bool := one_of (mnemonic i) overflow_mnemonics && oe i.

Lemma lowers_ext i a s a' s' c : a = a' -> (s = true -> s' = true) -> lowers i a s c -> lowers i a' s' c.
Proof.
  intros -> Hs Hc limit k so ve Hat. eapply builds_mono; [|by apply (Hc limit k so ve)].
  intros ok k' [-> (room & cl & Hat' & Hcl)]. split; [done|]. exists room, cl. auto.
Qed.

(** The value of [one_of m l] for a name known to be in another list. *)
Lemma one_of_weaken m l l' : one_of m l = true -> forallb (λ x, one_of x l') l = true -> one_of m l' = true.
Proof.
  intros Hm%one_of_elem Hl. rewrite forallb_forall in Hl. apply Hl. by apply list_elem_of_In.
Qed.
Lemma one_of_disjoint m l l' :
  one_of m l = true -> forallb (λ x, negb (one_of x l')) l = true -> one_of m l' = false.
Proof.
  intros Hm%one_of_elem Hl. rewrite forallb_forall in Hl. apply negb_true_iff, Hl. by apply list_elem_of_In.
Qed.

Definition integer_handled (m : string) : bool :=
  one_of m ["addi"; "addis"; "addx"; "addcx"; "addic"; "addicx"; "addex"; "addmex"; "addzex"; "subfex";
    "subfmex"; "subfzex"; "subfx"; "subfcx"; "subficx"; "mulli"; "mulldx"; "mullwx"; "mulhdx"; "mulhdux";
    "mulhwx"; "mulhwux"; "divdx"; "divdux"; "divwx"; "divwux"; "negx"; "andx"; "andcx"; "orx"; "orcx";
    "xorx"; "eqvx"; "nandx"; "norx"; "ori"; "oris"; "xori"; "xoris"; "andix"; "andisx"; "extsbx"; "extshx";
    "extswx"; "cntlzdx"; "cntlzwx"; "cmp"; "cmpl"; "cmpi"; "cmpli"; "rlwinmx"; "rlwimix"; "rlwnmx";
    "rldclx"; "rldcrx"; "rldiclx"; "rldicrx"; "rldicx"; "rldimix"; "sync"; "eieio"; "isync"; "slwx"; "srwx";
    "srawx"; "srawix"; "sldx"; "srdx"; "sradx"; "sradix"].

(** One case of the dispatch: [Hb] is its test on the mnemonic. *)
Ltac plain lem Hb :=
  eapply lowers_ext; [| |apply lem; try exact Hb]; [|discriminate]; unfold overflow_form;
  rewrite (one_of_disjoint _ _ overflow_mnemonics Hb eq_refl); reflexivity.
Ltac overflowing lem Hb :=
  eapply lowers_ext; [| |apply lem]; [|discriminate]; unfold overflow_form;
  rewrite (one_of_weaken _ _ overflow_mnemonics Hb eq_refl); reflexivity.
Ltac case_test Hb :=
  lazymatch goal with |- lowers _ _ _ (if ?b then _ else _) => destruct b eqn:Hb end.

(** No test of the dispatch accepts a handled name: impossible. *)
Ltac no_case Hm :=
  apply one_of_elem in Hm;
  repeat (apply elem_of_cons in Hm; destruct Hm as [Hm|Hm]); try (by apply elem_of_nil in Hm);
  match goal with
  | Hf : one_of (mnemonic _) _ = false |- _ => rewrite Hm in Hf; cbn in Hf; discriminate Hf
  end.

Section Integer.
Context (i : DecodedInstruction).

Lemma lift_integer_lowers :
  integer_handled (mnemonic i) = true ->
  lowers i (negb (overflow_form i)) (String.eqb (mnemonic i) "isync") (lift_integer i).
Proof.
  intros Hm. unfold lift_integer.
  case_test Hb1; [plain lift_addi_lowers Hb1|].
  case_test Hb2; [overflowing lift_add_lowers Hb2|].
  case_test Hb3; [plain lift_addic_lowers Hb3|].
  case_test Hb4; [overflowing lift_adde_lowers Hb4|].
  case_test Hb5; [overflowing lift_subfe_lowers Hb5|].
  case_test Hb6; [overflowing lift_subf_lowers Hb6|].
  case_test Hb7; [plain lift_subfic_lowers Hb7|].
  case_test Hb8; [plain lift_mulli_lowers Hb8|].
  case_test Hb9; [overflowing lift_mul_lowers Hb9|].
  case_test Hb10; [plain lift_mulh_lowers Hb10|].
  case_test Hb11; [overflowing lift_div_lowers Hb11|].
  case_test Hb12; [overflowing lift_neg_lowers Hb12|].
  case_test Hb13; [plain lift_logical_lowers Hb13|].
  case_test Hb14; [plain lift_logical_immediate_lowers Hb14|].
  case_test Hb15; [plain lift_extend_lowers Hb15|].
  case_test Hb16; [plain lift_count_zeros_lowers Hb16|].
  case_test Hb17; [plain lift_compare_lowers Hb17|].
  case_test Hb18; [plain lift_rlw_lowers Hb18|].
  case_test Hb19; [plain lift_rldc_lowers Hb19|].
  case_test Hb20; [plain lift_rld_lowers Hb20|].
  case_test Hb.
  { eapply lowers_ext; [| |by apply lift_sync_lowers]; [|done]. unfold overflow_form.
    by rewrite (one_of_disjoint _ _ overflow_mnemonics Hb eq_refl). }
  case_test Hb'; [plain lift_shift_lowers Hb'|].
  exfalso. by no_case Hm.
Qed.
End Integer.

(** ** The other groups *)

Definition control_stops : list string := ["bx"; "bcx"; "bclrx"; "bcctrx"; "sc"; "td"; "tdi"; "tw"; "twi"].

Definition control_handled (m : string) : bool :=
  one_of m ["bx"; "bcx"; "bclrx"; "bcctrx"; "crand"; "crandc"; "creqv"; "crnand"; "crnor"; "cror";
    "crorc"; "crxor"; "mcrf"; "mfcr"; "mtcrf"; "mcrxr"; "mfspr"; "mtspr"; "mftb"; "mfmsr";
    "mtmsr"; "mtmsrd"; "sc"; "td"; "tdi"; "tw"; "twi"; "mffsx"; "mcrfs"; "mtfsb0x";
    "mtfsb1x"; "mtfsfix"; "mtfsfx"; "mfvscr"; "mtvscr"].
Definition fpu_handled (m : string) : bool :=
  one_of m ["faddx"; "faddsx"; "fsubx"; "fsubsx"; "fdivx"; "fdivsx"; "fmulx"; "fmulsx"; "fmaddx";
    "fmaddsx"; "fmsubx"; "fmsubsx"; "fnmaddx"; "fnmaddsx"; "fnmsubx"; "fnmsubsx";
    "fsqrtx"; "fsqrtsx"; "fresx"; "frsqrtex"; "fselx"; "fabsx"; "fnegx"; "fnabsx"; "fmrx";
    "frspx"; "fcfidx"; "fctidx"; "fctidzx"; "fctiwx"; "fctiwzx"; "fcmpu"; "fcmpo";
    "mffsx"].
Definition memory_names : list string :=
  ["lmw"; "stmw"; "lswi"; "lswx"; "stswi"; "stswx"; "lfd"; "lfdu"; "lfdx"; "lfdux";
    "lfs"; "lfsu"; "lfsx"; "lfsux"; "stfd"; "stfdu"; "stfdx"; "stfdux"; "stfs"; "stfsu";
    "stfsx"; "stfsux"; "stfiwx"; "lwarx"; "ldarx"; "stwcx"; "stdcx"; "lvx"; "lvxl";
    "lvx128"; "lvxl128"; "stvx"; "stvxl"; "stvx128"; "stvxl128"; "lvebx"; "lvehx";
    "lvewx"; "lvewx128"; "stvebx"; "stvehx"; "stvewx"; "stvewx128"].
Definition partial_prefixes : list string := ["lvlx"; "lvrx"; "stvlx"; "stvrx"].
Definition cache_names : list string :=
  ["dcbz"; "dcbz128"; "icbi"; "dcbf"; "dcbi"; "dcbst"; "dcbt"; "dcbtst"].
Definition is_some_desc (o : option AccessDesc) : bool := match o with Some _ => true | None => false end.
Definition memory_handled (m : string) : bool :=
  is_some_desc (scalar_load_desc m) || is_some_desc (scalar_store_desc m) || one_of m memory_names ||
  existsb (λ p, starts_with p m) partial_prefixes || one_of m cache_names.

Section Others.
Context (i : DecodedInstruction).

Ltac branching lem Hb :=
  eapply lowers_ext; [| |apply lem]; [done|]; intros _; exact (one_of_weaken _ _ control_stops Hb eq_refl).
Ltac quiet lem := eapply lowers_ext; [| |apply lem]; [done|discriminate].

Lemma lift_control_lowers :
  control_handled (mnemonic i) = true ->
  lowers i true (one_of (mnemonic i) control_stops) (lift_control i).
Proof.
  intros Hm. unfold lift_control.
  case_test Hb0; [branching lift_bx_lowers Hb0|].
  case_test Hb1; [branching lift_bcx_lowers Hb1|].
  case_test Hb2; [branching lift_bclrx_lowers Hb2|].
  case_test Hb3; [branching lift_bcctrx_lowers Hb3|].
  case_test Hb4; [quiet lift_cr_logical_lowers|].
  case_test Hb5; [quiet lift_mcrf_lowers|].
  case_test Hb6; [quiet lift_mfcr_lowers|].
  case_test Hb7; [quiet lift_mtcrf_lowers|].
  case_test Hb8; [quiet lift_mcrxr_lowers|].
  case_test Hb9; [quiet lift_mfspr_lowers|].
  case_test Hb10; [quiet lift_mtspr_lowers|].
  case_test Hb11; [quiet lift_mftb_lowers|].
  case_test Hb12; [quiet lift_mfmsr_lowers|].
  case_test Hb13; [quiet lift_mtmsr_lowers|].
  case_test Hb14; [branching lift_sc_lowers Hb14|].
  case_test Hb15; [branching lift_trap_lowers Hb15|].
  case_test Hb16; [quiet lift_mffs_lowers|].
  case_test Hb17; [quiet lift_mcrfs_lowers|].
  case_test Hb18; [quiet lift_mtfsb_lowers|].
  case_test Hb19; [quiet lift_mtfsfi_lowers|].
  case_test Hb20; [quiet lift_mtfsf_lowers|].
  case_test Hb21; [quiet lift_mfvscr_lowers|].
  case_test Hb22; [quiet lift_mtvscr_lowers|].
  exfalso. by no_case Hm.
Qed.

Lemma lift_fpu_lowers : fpu_handled (mnemonic i) = true -> lowers i true false (lift_fpu i).
Proof.
  intros Hm. unfold lift_fpu.
  case_test Hb0; [apply lift_fp_binary_lowers|].
  case_test Hb1; [apply lift_fmul_lowers|].
  case_test Hb2; [apply lift_fma_lowers|].
  case_test Hb3; [apply lift_fsqrt_lowers|].
  case_test Hb4; [apply lift_estimate_lowers|].
  case_test Hb5; [apply lift_fsel_lowers|].
  case_test Hb6; [apply lift_fp_move_lowers|].
  case_test Hb7; [apply lift_frsp_lowers|].
  case_test Hb8; [apply lift_fcfid_lowers|].
  case_test Hb9; [apply lift_fcti_lowers|].
  case_test Hb10; [apply lift_fcmp_lowers|].
  case_test Hb11; [apply lift_fpu_mffs_lowers|].
  exfalso. by no_case Hm.
Qed.

Lemma lift_memory_lowers : memory_handled (mnemonic i) = true -> lowers i true false (lift_memory i).
Proof.
  intros Hm. unfold lift_memory. unfold memory_handled in Hm.
  destruct (scalar_load_desc (mnemonic i)) as [d|] eqn:El.
  { apply lift_scalar_load_lowers. exact (find_desc_width _ _ _ scalar_loads_width El). }
  destruct (scalar_store_desc (mnemonic i)) as [d|] eqn:Es.
  { apply lift_scalar_store_lowers. exact (find_desc_width _ _ _ scalar_stores_width Es). }
  cbn [is_some_desc orb] in Hm.
  case_test Hb0; [apply lift_multiple_lowers|].
  case_test Hb1; [apply lift_string_lowers|].
  case_test Hb2; [apply lift_fp_load_lowers|].
  case_test Hb3; [apply lift_fp_store_lowers|].
  case_test Hb4; [apply lift_stfiwx_lowers|].
  case_test Hb5; [apply lift_reserve_lowers|].
  case_test Hb6; [apply lift_store_conditional_lowers|].
  case_test Hb7; [apply lift_vector_load_lowers|].
  case_test Hb8; [apply lift_vector_store_lowers|].
  case_test Hb9; [apply lift_element_load_lowers|].
  case_test Hb10; [apply lift_element_store_lowers|].
  case_test Hp1; [apply lift_partial_load_lowers; by left|].
  case_test Hp2; [apply lift_partial_load_lowers; by right|].
  case_test Hp3; [apply lift_partial_store_lowers; by left|].
  case_test Hp4; [apply lift_partial_store_lowers; by right|].
  case_test Hc1; [apply lift_cache_lowers; left; split; [done|destruct (String.eqb _ _); auto]|].
  case_test Hc2; [apply lift_cache_lowers; auto|].
  case_test Hc3; [apply lift_cache_lowers; auto|].
  exfalso. unfold partial_prefixes in Hm. cbn [existsb] in Hm. rewrite Hp1, Hp2, Hp3, Hp4 in Hm.
  cbn [orb] in Hm. rewrite orb_false_r in Hm. apply orb_true_iff in Hm as [Hm|Hm]; by no_case Hm.
Qed.
End Others.

(** ** The catalogue *)

Lemma decode_catalogued address word info :
  is_u32 word -> di_info (decode address word) = Some info -> info ∈ kCatalog.
Proof.
  intros Hw Hd. assert (Hp : 0 <= word .>> 26 < 64).
  { rewrite Z.shiftr_div_pow2 by lia. change (2 ^ 26) with 0x4000000. unfold is_u32 in Hw.
    Z.to_euclidean_division_equations; lia. }
  pose proof (bucket_ok_primary _ Hp) as Hok. unfold bucket_ok in Hok. rewrite !andb_true_iff in Hok.
  destruct Hok as [[_ Hin] _]. rewrite forallb_forall in Hin. apply find_some in Hd as [Hd _].
  eapply bool_decide_eq_true, Hin. exact Hd.
Qed.

Definition of_row (info : OpcodeInfo) : DecodedInstruction := mkDecoded 0 0 (Some info).

Definition row_handled (info : OpcodeInfo) : bool :=
  let m := oi_mnemonic info in
  match oi_group info with
  | GInteger => integer_handled m
  | GControl | GBranch => control_handled m
  | GMemory => memory_handled m
  | GFloatingPoint => fpu_handled m
  | GVector => vector_handled (of_row info)
  end && (bool_decide (oi_group info = GInteger) || negb (one_of m overflow_mnemonics)).

(** The rows whose instructions may end in a terminator. *)
Definition row_stops (info : OpcodeInfo) : bool :=
  match oi_group info with
  | GInteger => String.eqb (oi_mnemonic info) "isync"
  | GControl | GBranch => one_of (oi_mnemonic info) control_stops
  | _ => false
  end.

Definition row_ends (info : OpcodeInfo) : bool :=
  let i := of_row info in
  is_direct_branch i || is_indirect_branch i || is_syscall i || is_trap i || is_instruction_sync i.

Definition row_checked (info : OpcodeInfo) : bool :=
  row_handled info && (negb (row_stops info) || row_ends info) &&
  bool_decide (opcode_info (oi_id info) = Some info) && opcode_valid (oi_id info).

Lemma rows_lowered : forallb row_checked kCatalog = true.
Proof. vm_compute. reflexivity. Qed.

Lemma row_ends_block i info :
  di_info i = Some info -> row_ends info = true -> ends_basic_block i = true.
Proof.
  intros Hi Hr. unfold row_ends, ends_basic_block in *.
  unfold is_instruction_sync, is_trap, is_syscall, is_indirect_branch, is_direct_branch, in_group, format_is,
    mnemonic in *. rewrite Hi in *. cbn [of_row di_info] in Hr.
  destruct (bool_decide (oi_group info = GBranch)) eqn:Eg, (lk i); cbn [andb orb negb] in *; try done.
  all: rewrite ?andb_true_r, ?andb_false_r, ?orb_false_r, ?orb_true_r in *; cbn [andb orb negb] in *; auto.
Qed.

Section Lowering.
Context (i : DecodedInstruction) (info : OpcodeInfo).
Hypothesis Hinfo : di_info i = Some info.
Hypothesis Hrow : info ∈ kCatalog.

Lemma row_facts :
  row_handled info = true /\ (row_stops info = true -> ends_basic_block i = true) /\
  opcode_info (oi_id info) = Some info /\ opcode_valid (oi_id info) = true.
Proof.
  pose proof rows_lowered as Hc. rewrite forallb_forall in Hc.
  specialize (Hc info (proj1 (list_elem_of_In _ _) Hrow)). unfold row_checked in Hc.
  rewrite !andb_true_iff in Hc. destruct Hc as (((Hh & Hs) & Hid) & Hv).
  apply bool_decide_eq_true in Hid. split_and!; [done| |done|done].
  intros Hst. rewrite Hst in Hs. cbn in Hs. by eapply row_ends_block.
Qed.

Lemma vector_handled_row : vector_handled (of_row info) = vector_handled i.
Proof. unfold vector_handled, starts, mnemonic. by rewrite Hinfo. Qed.

Lemma lift_group_lowers :
  lowers i (negb (overflow_form i)) (ends_basic_block i) (lift_group (oi_group info) i).
Proof.
  destruct row_facts as (Hh & Hs & _). unfold row_handled in Hh. apply andb_true_iff in Hh as [Hh Hov].
  assert (Hm : mnemonic i = oi_mnemonic info) by (unfold mnemonic; by rewrite Hinfo).
  assert (Hplain : oi_group info <> GInteger -> true = negb (overflow_form i)).
  { intros Hg. rewrite bool_decide_eq_false_2 in Hov by done. cbn [orb] in Hov. apply negb_true_iff in Hov.
    unfold overflow_form. by rewrite Hm, Hov. }
  unfold row_stops in Hs. rewrite vector_handled_row in Hh. rewrite <- Hm in *.
  destruct (oi_group info) eqn:Hg; cbn [lift_group].
  - eapply lowers_ext; [by apply Hplain|exact Hs|by apply lift_control_lowers].
  - eapply lowers_ext; [by apply Hplain|exact Hs|by apply lift_control_lowers].
  - eapply lowers_ext; [by apply Hplain| |by apply lift_memory_lowers]. done.
  - eapply lowers_ext; [reflexivity|exact Hs|by apply lift_integer_lowers].
  - eapply lowers_ext; [by apply Hplain| |by apply lift_fpu_lowers]. done.
  - eapply lowers_ext; [by apply Hplain| |by apply lift_vector_lowers]. done.
Qed.

(** [lift] answers true and appends a fragment that is not empty. *)
Lemma lift_appends st limit so ve k :
  bl_next_value st = c_next k -> at_ limit kBudget false so ve k ->
  exists st' l k' room closed,
    lift i st = Some (true, st') /\ bl_instructions st' = bl_instructions st ++ l /\ l <> [] /\
    bl_next_value st' = c_next k' /\ bl_current_guest st' = None /\ fragment (from_guest i) k k' l /\
    at_ limit room closed true (ve && negb (overflow_form i)) k' /\
    (closed = true -> ends_basic_block i = true).
Proof.
  intros Hn Hat. unfold lift. rewrite Hinfo.
  set (st0 := mkBuilder (bl_instructions st) (bl_next_value st) (Some i)).
  set (k0 := mkCursor (c_next k) (c_types k) (c_closed k) false (c_verified k)).
  assert (Hat0 : at_ limit kBudget false false ve k0) by (destruct Hat; by constructor).
  destruct (lift_group_lowers _ _ _ _ Hat0 st0 Hn eq_refl)
    as (ok & st' & l & k' & E & I & N & G & F & -> & room & closed & Hat' & Hcl).
  exists (mkBuilder (bl_instructions st') (bl_next_value st') None), l,
    (mkCursor (c_next k') (c_types k') (c_closed k') (c_some k || nonempty l) (c_verified k')), room, closed.
  assert (Hne : nonempty l = true).
  { pose proof (fr_some _ _ _ _ F) as Hs. rewrite (at_some _ _ _ _ _ _ Hat') in Hs. by destruct (nonempty l). }
  split_and!.
  - unfold bbind, set_guest. fold st0. by rewrite E.
  - exact I.
  - by destruct l.
  - exact N.
  - done.
  - by destruct F.
  - destruct Hat'. constructor; try done. cbn. rewrite Hne. apply orb_true_r.
  - exact Hcl.
Qed.
End Lowering.
