(* ===== verification/FunctionCompilerSpec.v ===== *)
(** * How the function compiler cuts a function into blocks

    Lifting never gets stuck on decoded instructions; the runs it lifts partition
    the address map in order, each run is contiguous, a terminator ends its run,
    and the blocks are well formed for the optimiser and the verifier. *)

From Stdlib Require Import Sorted.
From S2P Require Import Prelude.
From S2P Require Import Words.
From S2P Require Import Instr.
From S2P Require Import Decoder.
From S2P Require Import Ir.
From S2P Require Import Verifier.
From S2P Require Import VerifierSpec.
From S2P Require Import IrValue.
From S2P Require Import PassSim.
From S2P Require Import Lifter.
From S2P Require Import LiftWp.
From S2P Require Import Lift.
From S2P Require Import LiftStatic.
From S2P Require Import LiftTotal.
From S2P Require Import ControlFlow.
From S2P Require Import FunctionCompiler.

(** An entry of the address map: a decoded, aligned instruction. *)
Definition entry_ok (x : GuestAddress * DecodedInstruction) : Prop :=
  is_u32 x.1 /\ x.1 .& 3 = 0 /\ di_address x.2 = x.1 /\ exists info, di_info x.2 = Some info /\ info ∈ kCatalog.

(** The instruction comes from an entry of the run. *)
Definition from_run (run : Decoded) (x : Instruction) : Prop :=
  exists e, e ∈ run /\ from_guest e.2 x.

(** Consecutive addresses. *)
Fixpoint contiguous (d : Decoded) : Prop :=
  match d with
  | (a, _) :: ((b, _) :: _) as d' => b = u32 (a + 4) /\ contiguous d'
  | _ => True
  end.

(** Every block-ending instruction is followed by a leader. *)
Fixpoint led (leader : gset Z) (d : Decoded) : Prop :=
  match d with
  | (a, i) :: ((b, _) :: _) as d' =>
      (ends_basic_block i = true -> b = u32 (a + 4) -> b ∈ leader) /\ led leader d'
  | _ => True
  end.

(** Where a run stops: at the end of the map, a gap, or a leader. *)
Definition stops_at (leader : gset Z) (a : GuestAddress) (rest : Decoded) : Prop :=
  match rest with
  | [] => True
  | (b, _) :: _ => b <> u32 (a + 4) \/ b ∈ leader
  end.

(** No leader starts inside the run. *)
Fixpoint unled (leader : gset Z) (d : Decoded) : Prop :=
  match d with
  | _ :: ((b, _) :: _) as d' => b ∉ leader /\ unled leader d'
  | _ => True
  end.

Definition all_plain (run : Decoded) : bool := forallb (λ e, negb (overflow_form e.2)) run.

(** What a run leaves behind. *)
Record run_lifted (leader : gset Z) (k : Cursor) (st : Builder) (run rest : Decoded) (st' : Builder)
    (k' : Cursor) (l : list Instruction) : Prop := mkRunLifted {
  rl_nonempty : run <> [];
  rl_contiguous : contiguous run;
  rl_unled : unled leader run;
  rl_stop : exists a i, last run = Some (a, i) /\ stops_at leader a rest;
  rl_instructions : bl_instructions st' = bl_instructions st ++ l;
  rl_some : l <> [];
  rl_last : exists x a i, last l = Some x /\ last run = Some (a, i) /\ i_guest_address x = a;
  rl_fragment : fragment (from_run run) k k' l;
  rl_next : bl_next_value st' = c_next k';
  rl_guest : bl_current_guest st' = None;
  rl_bound : c_next k' <= c_next k + kBudget * Z.of_nat (length run);
  rl_verified : c_verified k' = c_verified k && all_plain run
}.

(** The cursor between two instructions. *)
Record cursor_ok (room : Z) (k : Cursor) : Prop := mkCursorOk {
  co_low : 0 <= c_next k;
  co_room : c_next k + room <= kNoValue;
  co_keys : forall a t, c_types k !! a = Some t -> a < c_next k \/ a = kNoValue;
  co_open : c_closed k = false
}.

Lemma cursor_at room k :
  kBudget <= room -> cursor_ok room k -> at_ (c_next k + kBudget) kBudget false (c_some k) (c_verified k) k.
Proof. intros Hr []. unfold kBudget in *. constructor; try done; lia. Qed.

Lemma last_app_nonempty {A} (l1 l2 : list A) : l2 <> [] -> last (l1 ++ l2) = last l2.
Proof. intros Hl. destruct l2 as [|x l2] using rev_ind; [done|]. by rewrite app_assoc, !last_snoc. Qed.

Lemma from_guest_address i l x :
  Forall (from_guest i) l -> last l = Some x -> i_guest_address x = di_address i.
Proof.
  intros Hl Hx. rewrite Forall_forall in Hl. by destruct (Hl x (last_Some_elem_of _ _ Hx)).
Qed.

Lemma lift_run_spec leader d : forall st k,
  d <> [] -> Forall entry_ok d -> led leader d -> bl_next_value st = c_next k ->
  cursor_ok (kBudget * Z.of_nat (length d)) k ->
  exists run rest st' k' l,
    lift_run leader d st = inr (st', rest) /\ d = run ++ rest /\ run_lifted leader k st run rest st' k' l.
Proof.
  induction d as [|[a i] d IH]; intros st k Hne Hd Hled Hn Hk; [done|].
  apply Forall_cons in Hd as [(Ha & _ & Hadr & info & Hi & Hrow) Hd]. cbn [fst snd] in *.
  assert (Hroom : kBudget <= kBudget * Z.of_nat (length ((a, i) :: d))) by (cbn [length]; unfold kBudget; lia).
  destruct (lift_appends i info Hi Hrow st _ _ _ k Hn (cursor_at _ _ Hroom Hk))
    as (st1 & l1 & k1 & room1 & cl1 & E1 & I1 & Ne1 & N1 & G1 & F1 & At1 & Hcl).
  assert (Horigin : fragment (from_run [(a, i)]) k k1 l1).
  { eapply fragment_impl; [|exact F1]. intros x Hx. exists (a, i). split; [by left|done]. }
  assert (Hlen : (length (bl_instructions st1) =? length (bl_instructions st))%nat = false).
  { apply Nat.eqb_neq. rewrite I1, length_app. destruct l1; [done|cbn; lia]. }
  assert (Hbound : c_next k1 <= c_next k + kBudget) by (destruct At1 as [_ [? ?] _ _ _ _]; lia).
  assert (Hlast : exists x b j, last l1 = Some x /\ last [(a, i)] = Some (b, j) /\ i_guest_address x = b).
  { destruct (last l1) as [x|] eqn:El; [|exfalso; apply Ne1; by apply last_None]. exists x, a, i. split_and!; try done.
    rewrite <- Hadr. eapply from_guest_address; [apply F1|done]. }
  assert (Hver : c_verified k1 = c_verified k && all_plain [(a, i)]).
  { rewrite (at_verified _ _ _ _ _ _ At1). cbn. by rewrite andb_true_r. }
  assert (Hone : forall rest, stops_at leader a rest ->
    run_lifted leader k st [(a, i)] rest st1 k1 l1).
  { intros rest Hrest. constructor; try done; first [by exists a, i | cbn; lia]. }
  cbn [lift_run]. rewrite E1. cbn [negb orb]. rewrite Hlen.
  destruct d as [|[b j] d].
  { exists [(a, i)], [], st1, k1, l1. split_and!; try done. by apply Hone. }
  destruct (negb (b =? u32 (a + 4)) || bool_decide (b ∈ leader)) eqn:Estop.
  { exists [(a, i)], ((b, j) :: d), st1, k1, l1. split_and!; try done. apply Hone. cbn.
    apply orb_true_iff in Estop as [E|E]; [left|right; by apply bool_decide_eq_true in E].
    by apply negb_true_iff, Z.eqb_neq in E. }
  apply orb_false_iff in Estop as [Econt Elead]. apply negb_false_iff, Z.eqb_eq in Econt.
  apply bool_decide_eq_false in Elead. destruct Hled as [Hends Hled].
  assert (Hopen : cl1 = false).
  { destruct cl1; [|done]. exfalso. apply Elead, Hends; [by apply Hcl|done]. }
  assert (Hk1 : cursor_ok (kBudget * Z.of_nat (length ((b, j) :: d))) k1).
  { destruct Hk as [_ Hr _ _], At1 as [? ? Hkeys Hc _ _]. cbn [length] in *. constructor; try done; [lia|congruence]. }
  destruct (IH st1 k1 ltac:(done) Hd Hled N1 Hk1) as (run & rest & st2 & k2 & l2 & E2 & D2 & R2).
  exists ((a, i) :: run), rest, st2, k2, (l1 ++ l2). split_and!; [exact E2|by rewrite D2|].
  destruct R2 as [Rne Rcont Rled Rstop RI Rsome Rlast RF Rn Rg Rb Rv].
  destruct run as [|[b' j'] run]; [done|]. cbn [app] in D2. injection D2 as <- <- D2.
  constructor; [done|split; [exact Econt|exact Rcont]|split; [exact Elead|exact Rled]|exact Rstop|..].
  - by rewrite RI, I1, app_assoc.
  - by destruct l1.
  - destruct Rlast as (x & c & jj & Hl & Hr & Hx). exists x, c, jj.
    rewrite last_app_nonempty by done. by split_and!.
  - eapply fragment_app.
    + eapply fragment_impl; [|exact F1]. intros x Hx. exists (a, i). split; [by left|done].
    + eapply fragment_impl; [|exact RF]. intros x (e & He & Hx). exists e. split; [by right|done].
  - exact Rn.
  - exact Rg.
  - cbn [length] in *. unfold kBudget in *. lia.
  - rewrite Rv, Hver. cbn [all_plain forallb]. rewrite andb_true_r, <- andb_assoc. done.
Qed.

(** ** Partition *)

(** A block made from a run of the address map. *)
Record block_lifted (leader : gset Z) (run : Decoded) (b : Block) : Prop := mkBlockLifted {
  bk_start : fst <$> head run = Some (b_guest_address b);
  bk_end : exists a i, last run = Some (a, i) /\ b_end_address b = u32 (a + 4);
  bk_contiguous : contiguous run;
  bk_unled : unled leader run;
  bk_body : body_ok (b_instructions b) = true;
  bk_flags : Forall (λ x, plain_op (i_op x) = false -> i_type x = Void) (b_instructions b);
  bk_origin : Forall (from_run run) (b_instructions b);
  bk_plain : forallb (λ x, plain_op (i_op x)) (b_instructions b) = all_plain run;
  bk_accepted : all_plain run = true -> forall c, insts_accepted c false ∅ (b_instructions b);
  bk_made : exists rest st, lift_run leader (run ++ rest) new_builder = inr (st, rest) /\ b_instructions b = bl_instructions st
}.

Lemma led_app leader d1 d2 : led leader (d1 ++ d2) -> led leader d2.
Proof.
  induction d1 as [|[a i] d1 IH]; [done|]. intros Hl. apply IH. cbn in Hl.
  destruct (d1 ++ d2) as [|[b j] d]; [done|]. by destruct Hl.
Qed.

Definition start_cursor : Cursor := mkCursor 0 ∅ false false true.

Lemma start_cursor_ok room : room <= kNoValue -> cursor_ok room start_cursor.
Proof. intros Hr. constructor; cbn; try done. Qed.

(** The block made from a lifted run. *)
Lemma run_lifted_block leader run rest st' k' l start :
  lift_run leader (run ++ rest) new_builder = inr (st', rest) ->
  run_lifted leader start_cursor new_builder run rest st' k' l -> fst <$> head run = Some start ->
  block_lifted leader run
    (mkBlock start (bl_instructions st') (end_of start (bl_instructions st')) [] [] false false false).
Proof.
  intros Hmade [Rne Rcont Rled Rstop RI Rsome Rlast RF Rn Rg Rb Rv] Hstart. cbn in RI.
  assert (Hmade' : exists rest st, lift_run leader (run ++ rest) new_builder = inr (st, rest) /\ l = bl_instructions st) by eauto.
  assert (Hv : c_verified k' = all_plain run) by (rewrite Rv; done).
  destruct Rlast as (x & a & i & Hx & Hrun & Ha).
  constructor; cbn [b_guest_address b_instructions b_end_address]; rewrite ?RI; cbn [app]; try done.
  - exists a, i. split; [done|]. unfold end_of. by rewrite Hx, Ha.
  - apply body_ok_spec. split; [apply (fr_ssa _ _ _ _ RF)|apply (fr_wf _ _ _ _ RF)].
  - apply RF.
  - apply RF.
  - rewrite <- Hv. symmetry. exact (fr_verified _ _ _ _ RF).
  - intros Hp c. apply (fr_accepted _ _ _ _ RF). by rewrite Hv.
Qed.

Lemma partition_spec leader fuel : forall d,
  (length d <= fuel)%nat -> Forall entry_ok d -> led leader d -> kBudget * Z.of_nat (length d) <= kNoValue ->
  exists runs blocks,
    partition fuel leader d = inr blocks /\ d = concat runs /\ Forall2 (block_lifted leader) runs blocks /\
    Forall (λ run, run <> []) runs.
Proof.
  induction fuel as [|fuel IH]; intros d Hf Hd Hled Hroom.
  { destruct d; [|cbn in Hf; lia]. by exists [], []. }
  destruct d as [|[a i] d0]; [by exists [], []|]. set (d := (a, i) :: d0) in *.
  destruct (lift_run_spec leader d new_builder start_cursor ltac:(done) Hd Hled eq_refl
    (start_cursor_ok _ Hroom)) as (run & rest & st' & k' & l & E & D & R).
  assert (Hrun : run <> []) by apply R.
  assert (Hhead : fst <$> head run = Some a).
  { destruct run as [|[b j] run]; [done|]. unfold d in D. cbn in D. injection D as -> -> D. done. }
  assert (Hlen : (length rest < length d)%nat) by (rewrite D, length_app; destruct run; [done|cbn; lia]).
  destruct (IH rest ltac:(lia)) as (runs & blocks & Ep & Dr & Hb & Hne).
  - rewrite D in Hd. by apply Forall_app in Hd as [_ ?].
  - rewrite D in Hled. by apply led_app in Hled.
  - unfold kBudget in *. lia.
  - exists (run :: runs). eexists. split_and!.
    + cbn [partition]. unfold d. cbv iota beta. fold d. rewrite E, Ep. reflexivity.
    + cbn. by rewrite D, Dr.
    + constructor; [|exact Hb]. eapply run_lifted_block; [|exact R|exact Hhead]. rewrite <- D. exact E.
    + by constructor.
Qed.

(** ** The address map *)

(** Ascending addresses: what [std::map] keeps. *)
Definition ordered (d : Decoded) : Prop := StronglySorted Z.lt (fst <$> d).

Lemma emplace_elem a i d d' x :
  decoded_emplace a i d = Some d' -> x ∈ d' <-> x = (a, i) \/ x ∈ d.
Proof.
  revert d'. induction d as [|[k v] d IH]; intros d' E; cbn in E.
  - injection E as <-. by rewrite elem_of_cons.
  - destruct (k =? a); [done|]. destruct (a <? k).
    + injection E as <-. by rewrite elem_of_cons.
    + destruct (decoded_emplace a i d) as [d1|] eqn:E1; [|done]. cbn in E. injection E as <-.
      rewrite !elem_of_cons, IH by done. tauto.
Qed.

Lemma emplace_ordered a i d d' : decoded_emplace a i d = Some d' -> ordered d -> ordered d'.
Proof.
  unfold ordered. revert d'. induction d as [|[k v] d IH]; intros d' E Hd; cbn in E.
  { injection E as <-. cbn. repeat constructor. }
  cbn in Hd. apply StronglySorted_inv in Hd as [Hd Hk]. destruct (Z.eqb_spec k a); [done|].
  destruct (Z.ltb_spec a k) as [Hlt|Hge].
  - injection E as <-. cbn. constructor; [by constructor|]. constructor; [done|].
    eapply Forall_impl; [exact Hk|]. cbn. lia.
  - destruct (decoded_emplace a i d) as [d1|] eqn:E1; [|done]. cbn in E. injection E as <-. cbn.
    constructor; [by apply IH|]. apply Forall_forall. intros z (x & -> & Hx)%list_elem_of_fmap.
    rewrite emplace_elem in Hx by done. destruct Hx as [->|Hx]; [cbn; lia|].
    rewrite Forall_forall in Hk. apply Hk. by apply list_elem_of_fmap_2.
Qed.

Lemma ordered_find d a i : ordered d -> (a, i) ∈ d -> decoded_find d a = Some i.
Proof.
  unfold ordered. induction d as [|[k v] d IH]; intros Hd Hin; [by apply elem_of_nil in Hin|].
  cbn in Hd. apply StronglySorted_inv in Hd as [Hd Hk]. cbn.
  apply elem_of_cons in Hin as [[= -> ->]|Hin]; [by rewrite Z.eqb_refl|].
  rewrite Forall_forall in Hk. specialize (Hk a (list_elem_of_fmap_2 fst _ _ Hin)).
  destruct (Z.eqb_spec k a); [lia|]. by apply IH.
Qed.

Definition words_ok (words : list Z) : Prop := Forall is_u32 words.
Definition range_wf (r : FunctionCodeRange) : Prop := is_u32 (fr_base r) /\ words_ok (fr_words r).

Definition map_ok (d : Decoded) : Prop := ordered d /\ Forall entry_ok d.

Lemma land3_add a n : (u32 (a + n * 4)) .& 3 = a .& 3.
Proof.
  change 3 with (Z.ones 2). rewrite !Z.land_ones by lia. unfold u32. change 0x100000000 with (2 ^ 2 * 2 ^ 30).
  rewrite Z.rem_mul_r by lia. rewrite (Z.mul_comm (2 ^ 2)), Z_mod_plus_full, Zmod_mod.
  change (n * 4) with (n * 2 ^ 2). by rewrite Z_mod_plus_full.
Qed.

Lemma decode_words_ok base words : forall n d d',
  base .& 3 = 0 -> words_ok words -> map_ok d -> decode_words base n words d = inr d' -> map_ok d'.
Proof.
  induction words as [|word words IH]; intros n d d' Hb Hw Hd E; cbn in E; [by injection E as <-|].
  apply Forall_cons in Hw as [Hword Hw].
  destruct (valid (decode (u32 (base + n * 4)) word)) eqn:Ev; cbn [negb] in E; [|done].
  destruct (decoded_emplace _ _ d) as [d1|] eqn:Ed; [|done].
  eapply IH; [done|done| |exact E]. destruct Hd as [Ho Hd]. split; [by eapply emplace_ordered|].
  apply Forall_forall. intros x Hx. rewrite emplace_elem in Hx by done. destruct Hx as [->|Hx].
  - unfold valid in Ev. destruct (di_info _) as [info|] eqn:Ei; [|done].
    split_and!; cbn [fst snd]; [apply u32_range|by rewrite land3_add|done|].
    exists info. split; [done|]. by eapply decode_catalogued.
  - rewrite Forall_forall in Hd. by apply Hd.
Qed.

Lemma decode_ranges_ok ranges : forall d d',
  Forall range_wf ranges -> map_ok d -> decode_ranges ranges d = inr d' -> map_ok d'.
Proof.
  induction ranges as [|r ranges IH]; intros d d' Hr Hd E; cbn in E; [by injection E as <-|].
  apply Forall_cons in Hr as [[Hbase Hwords] Hr]. destruct (fr_words r) as [|word words] eqn:Ew; [done|].
  destruct (fr_base r .& 3 =? 0) eqn:Ea; cbn [negb] in E; [|done]. apply Z.eqb_eq in Ea.
  change (match decode_words (fr_base r) 0 (word :: words) d with
          | inl e => inl e | inr d => decode_ranges ranges d end = inr d') in E.
  destruct (decode_words (fr_base r) 0 (word :: words) d) as [e|d1] eqn:Ed; [done|].
  eapply IH; [done| |exact E]. eapply decode_words_ok; [exact Ea|exact Hwords|exact Hd|exact Ed].
Qed.

(** ** Leaders *)

Lemma leaders_ends entry ranges d a i :
  (a, i) ∈ d -> ends_basic_block i = true -> is_Some (decoded_find d (u32 (a + 4))) ->
  u32 (a + 4) ∈ leaders entry ranges d.
Proof.
  intros Hin Hends [j Hj]. unfold leaders. apply elem_of_union_r, elem_of_list_to_set, list_elem_of_bind.
  exists (a, i). split; [|done]. unfold leaders_of, decoded_contains. rewrite Hends, Hj. cbn [andb].
  apply elem_of_app. right. by left.
Qed.

Lemma leaders_led entry ranges d : map_ok d -> led (leaders entry ranges d) d.
Proof.
  intros [Ho _]. set (leader := leaders entry ranges d).
  assert (Hall : forall d1 d2, d = d1 ++ d2 -> led leader d2); [|by apply (Hall [])].
  intros d1 d2. revert d1. induction d2 as [|[a i] d2 IH]; intros d1 Hd; [done|].
  destruct d2 as [|[b j] d2]; [done|]. split.
  - intros Hends Hb. subst b. apply (leaders_ends _ _ _ a i); [|done|].
    + rewrite Hd. apply elem_of_app. right. by left.
    + exists j. apply ordered_find; [done|]. rewrite Hd. apply elem_of_app. right. right. by left.
  - apply (IH (d1 ++ [(a, i)])). by rewrite <- app_assoc.
Qed.

(** ** Edges keep the code *)

(** Two blocks with the same code and address range. *)
Definition same_code (b b' : Block) : Prop :=
  b_guest_address b = b_guest_address b' /\ b_instructions b = b_instructions b' /\
  b_end_address b = b_end_address b'.

#[export] Instance same_code_equivalence : Equivalence same_code.
Proof.
  split; [done| |].
  - intros b b' (? & ? & ?). by split_and!.
  - intros b1 b2 b3 (? & ? & ?) (? & ? & ?). split_and!; congruence.
Qed.

#[export] Instance block_lifted_proper leader run : Proper (same_code ==> iff) (block_lifted leader run).
Proof.
  intros b b' (Ha & Hi & He). split; intros []; constructor; rewrite ?Ha, ?Hi, ?He in *; done.
Qed.

Lemma add_edge_code t k l b : same_code (add_edge t k l b) b.
Proof. unfold add_edge. by case_match. Qed.

Lemma call_edges_code d blocks addresses b : same_code (call_edges d blocks addresses b) b.
Proof.
  revert b. induction addresses as [|a addresses IH]; intros b; [done|]. cbn.
  destruct (decoded_find d a); [|done]. rewrite IH. repeat case_match; by rewrite ?add_edge_code.
Qed.

Lemma continue_to_code blocks next b : same_code (continue_to blocks next b) b.
Proof. unfold continue_to. case_match; by rewrite ?add_edge_code. Qed.

Lemma exit_edges_code blocks last next b : same_code (exit_edges blocks last next b) b.
Proof.
  unfold exit_edges. repeat case_match; rewrite ?continue_to_code, ?add_edge_code; try done.
  all: by (etrans; [apply add_edge_code|]).
Qed.

Lemma block_edges_code d blocks b b' : block_edges d blocks b = inr b' -> same_code b' b.
Proof.
  unfold block_edges. destruct (decoded_find d _); [|done]. intros [= <-].
  by rewrite exit_edges_code, call_edges_code.
Qed.

Lemma connect_code d blocks l l' : connect d blocks l = inr l' -> Forall2 same_code l' l.
Proof.
  revert l'. induction l as [|b l IH]; intros l' E; cbn in E; [injection E as <-; constructor|].
  destruct (block_edges d blocks b) as [e|b1] eqn:Eb; [done|].
  destruct (connect d blocks l) as [e|l1] eqn:El; [done|]. injection E as <-.
  constructor; [by eapply block_edges_code|by apply IH].
Qed.

Lemma connect_total d blocks l :
  Forall (λ b, is_Some (decoded_find d (u32 (b_end_address b - 4)))) l -> exists l', connect d blocks l = inr l'.
Proof.
  induction 1 as [|b l [i Hi] _ [l' IH]]; [by eexists|]. cbn. unfold block_edges.
  destruct (call_edges_code d blocks (block_addresses b) b) as (_ & _ & ->). rewrite Hi, IH. by eexists.
Qed.

(** Two blocks that differ in their predecessors at most. *)
Definition linked (b b' : Block) : Prop := set_predecessors [] b = set_predecessors [] b'.

#[export] Instance linked_equivalence : Equivalence linked.
Proof. unfold linked. split; [done|by intros b b' ->|by intros b1 b2 b3 -> ->]. Qed.

Lemma linked_fields b b' :
  linked b b' -> b_guest_address b = b_guest_address b' /\ b_instructions b = b_instructions b' /\
    b_end_address b = b_end_address b' /\ b_successors b = b_successors b'.
Proof. unfold linked. destruct b, b'. cbn. intros [=]. by subst. Qed.

Lemma linked_code b b' : linked b b' -> same_code b b'.
Proof. intros (? & ? & ? & _)%linked_fields. by split_and!. Qed.

Lemma link_edge_linked source blocks e : Forall2 linked (link_edge source blocks e) blocks.
Proof.
  unfold link_edge. case_match; [done|]. case_match; [|done].
  apply Forall2_same_length_lookup_2; [apply length_alter|]. intros k b b' Hb Hb'.
  destruct (decide (k = n)) as [->|Hne].
  - rewrite list_lookup_alter_eq, Hb' in Hb. cbn in Hb. injection Hb as <-.
    unfold push_predecessor. by case_match.
  - rewrite list_lookup_alter_ne in Hb by done. rewrite Hb in Hb'. by injection Hb' as ->.
Qed.

Lemma link_block_linked blocks source : Forall2 linked (link_block blocks source) blocks.
Proof.
  unfold link_block. generalize (b_successors source). intros l. revert blocks.
  induction l as [|e l IH]; intros blocks; [done|]. cbn. etrans; [apply IH|apply link_edge_linked].
Qed.

Lemma link_predecessors_linked blocks : Forall2 linked (link_predecessors blocks) blocks.
Proof.
  unfold link_predecessors. generalize blocks at 2 as l. intros l. revert blocks.
  induction l as [|b l IH]; intros blocks; [done|]. cbn. etrans; [apply IH|apply link_block_linked].
Qed.

Lemma link_predecessors_code blocks : Forall2 same_code (link_predecessors blocks) blocks.
Proof. eapply Forall2_impl; [apply link_predecessors_linked|apply linked_code]. Qed.

Lemma block_lifted_codes leader runs blocks blocks' :
  Forall2 (block_lifted leader) runs blocks -> Forall2 same_code blocks' blocks ->
  Forall2 (block_lifted leader) runs blocks'.
Proof.
  intros Hb. revert blocks'. induction Hb as [|run b runs blocks Hb _ IH]; intros blocks' Hc.
  - inversion Hc. constructor.
  - inversion Hc as [|b' ? blocks1 ? Hc1 Hc2]; subst. constructor; [by rewrite Hc1|by apply IH].
Qed.

(** ** The lifted function *)

Definition decoded_input (entry : GuestAddress) (ranges : list FunctionCodeRange) (d : Decoded) : Prop :=
  ranges <> [] /\ decode_ranges ranges [] = inr d /\ decoded_contains d entry = true /\
  List.find (λ '(_, i), stray_target ranges d i) d = None.

Record lifted (entry : GuestAddress) (ranges : list FunctionCodeRange) (d : Decoded) (runs : list Decoded)
    (f : Function) : Prop := mkLifted {
  lf_entry : f_guest_address f = entry;
  lf_runs : d = concat runs;
  lf_nonempty : Forall (λ run, run <> []) runs;
  lf_blocks : Forall2 (block_lifted (leaders entry ranges d)) runs (f_blocks f)
}.

Lemma map_ok_nil : map_ok [].
Proof. split; [constructor|done]. Qed.

Lemma lifted_last_found d leader run b runs :
  map_ok d -> d = concat runs -> run ∈ runs -> block_lifted leader run b ->
  is_Some (decoded_find d (u32 (b_end_address b - 4))).
Proof.
  intros [Ho Hd] -> Hrun Hb. destruct (bk_end _ _ _ Hb) as (a & i & Hl & ->).
  assert (Hin : (a, i) ∈ concat runs).
  { apply last_Some_elem_of in Hl. apply list_elem_of_In, in_concat. exists run. by rewrite <- !list_elem_of_In. }
  exists i. assert (is_u32 a) by (rewrite Forall_forall in Hd; by apply Hd in Hin as [? _]).
  replace (u32 (u32 (a + 4) - 4)) with a by word_lia. by apply ordered_find.
Qed.

(** Lifting a decoded function succeeds, and gives one block per run. *)
Lemma lift_function_total entry ranges d :
  Forall range_wf ranges -> decoded_input entry ranges d -> kBudget * Z.of_nat (length d) <= kNoValue ->
  exists f runs, lift_function entry ranges = inr f /\ lifted entry ranges d runs f.
Proof.
  intros Hr (Hne & Hd & Hentry & Hstray) Hsize.
  assert (Hok : map_ok d) by (eapply decode_ranges_ok; [done|apply map_ok_nil|done]).
  destruct (partition_spec (leaders entry ranges d) (length d) d (le_n _) (proj2 Hok)
    (leaders_led _ _ _ Hok) Hsize) as (runs & blocks & Ep & Dr & Hb & Hruns).
  destruct (connect_total d blocks blocks) as [blocks' Ec].
  { apply Forall_lookup. intros n b Hn. destruct (Forall2_lookup_r _ _ _ _ _ Hb Hn) as (run & Hrun & Hb1).
    eapply lifted_last_found; [done|exact Dr| |done]. by eapply list_elem_of_lookup_2. }
  exists (mkFunction entry (link_predecessors blocks')), runs. split.
  - unfold lift_function. destruct ranges as [|r ranges]; [done|].
    rewrite Hd, Hentry. cbn [negb]. rewrite Hstray, Ep, Ec. reflexivity.
  - constructor; try done. cbn. eapply block_lifted_codes; [exact Hb|].
    etrans; [apply link_predecessors_code|by eapply connect_code].
Qed.

(** What a lifted function says of its input. *)
Lemma lift_function_input entry ranges f :
  lift_function entry ranges = inr f -> exists d, decoded_input entry ranges d.
Proof.
  unfold lift_function, decoded_input. destruct ranges as [|r ranges]; [done|].
  destruct (decode_ranges (r :: ranges) []) as [e|d]; [done|].
  destruct (decoded_contains d entry) eqn:Ec; cbn [negb]; [|done].
  destruct (List.find _ d) as [[a i]|] eqn:Ef; [done|]. intros _. by exists d.
Qed.

Lemma lift_function_lifted entry ranges f d :
  Forall range_wf ranges -> lift_function entry ranges = inr f -> decode_ranges ranges [] = inr d ->
  kBudget * Z.of_nat (length d) <= kNoValue -> exists runs, lifted entry ranges d runs f.
Proof.
  intros Hr E Hd Hsize. destruct (lift_function_input _ _ _ E) as [d' Hin].
  assert (d' = d) as -> by (destruct Hin as (_ & E' & _); congruence).
  destruct (lift_function_total entry ranges d Hr Hin Hsize) as (f' & runs & E' & Hl).
  exists runs. by replace f with f' by congruence.
Qed.

(** ** The verifier on lifted blocks *)

Lemma ordered_app d1 d2 : ordered (d1 ++ d2) -> ordered d1 /\ ordered d2.
Proof.
  unfold ordered. rewrite fmap_app. induction d1 as [|x d1 IH]; cbn; intros Hs; [by split; [constructor|]|].
  apply StronglySorted_inv in Hs as [Hs Hx]. apply Forall_app in Hx as [Hx _].
  destruct (IH Hs). split; [by constructor|done].
Qed.

Lemma ordered_concat runs run : ordered (concat runs) -> run ∈ runs -> ordered run.
Proof.
  induction runs as [|r runs IH]; intros Ho Hin; [by apply elem_of_nil in Hin|].
  cbn in Ho. apply ordered_app in Ho as [Hr Hrs]. apply elem_of_cons in Hin as [->|Hin]; auto.
Qed.

Lemma ordered_head (x : GuestAddress * DecodedInstruction) run e : ordered (x :: run) -> e ∈ x :: run -> x.1 <= e.1.
Proof.
  intros Ho. apply StronglySorted_inv in Ho as [_ Hx]. rewrite elem_of_cons. intros [->|He]; [apply Z.le_refl|].
  rewrite Forall_forall in Hx. apply Z.lt_le_incl, Hx. by apply list_elem_of_fmap_2.
Qed.

Lemma ordered_last run a i (e : GuestAddress * DecodedInstruction) : ordered run -> last run = Some (a, i) -> e ∈ run -> e.1 <= a.
Proof.
  induction run as [|x run IH]; intros Ho Hl He; [done|]. destruct run as [|y run].
  - cbn in Hl. injection Hl as ->. apply list_elem_of_singleton in He as ->. apply Z.le_refl.
  - rewrite last_cons_cons in Hl. pose proof Ho as Ho'. apply StronglySorted_inv in Ho as [Ho _].
    apply elem_of_cons in He as [->|He]; [|by apply IH].
    pose proof (ordered_head _ _ (a, i) Ho' ltac:(right; by apply last_Some_elem_of)). done.
Qed.

Section BlockVerify.
Context (leader : gset Z) (run : Decoded) (b : Block).
Hypothesis Hordered : ordered run.
Hypothesis Hentries : Forall entry_ok run.
Hypothesis Hblock : block_lifted leader run b.

Lemma block_bounds (e : GuestAddress * DecodedInstruction) : e ∈ run ->
  b_guest_address b <= e.1 /\ (b_end_address b = 0 \/ e.1 < b_end_address b) /\ e.1 .& 3 = 0 /\
  b_guest_address b .& 3 = 0 /\ b_end_address b .& 3 = 0 /\ is_u32 (b_guest_address b) /\ is_u32 (b_end_address b).
Proof.
  intros He. pose proof (bk_start _ _ _ Hblock) as Hs. destruct (bk_end _ _ _ Hblock) as (a & i & Hl & Hend).
  destruct run as [|x run'] eqn:Erun; [by apply elem_of_nil in He|]. cbn in Hs. injection Hs as Hs.
  pose proof (ordered_head _ _ _ Hordered He) as Hh. pose proof (ordered_last _ _ _ _ Hordered Hl He) as Ht.
  rewrite Forall_forall in Hentries.
  destruct (Hentries x ltac:(by left)) as (Hx & Hxa & _). destruct (Hentries e He) as (_ & Hea & _).
  destruct (Hentries (a, i) (last_Some_elem_of _ _ Hl)) as (Ha & Haa & _). cbn [fst] in *.
  rewrite <- Hs, Hend. split_and!; try done.
  - unfold is_u32 in *. unfold u32. destruct (decide (a + 4 = 0x100000000)) as [->|Hne]; [by left|].
    right. assert (a .& 3 = 0) by done. rewrite land3_mod in *.
    assert (a + 4 < 0x100000000) by (Z.to_euclidean_division_equations; lia). rewrite Z.mod_small; lia.
  - pose proof (land3_add a 1) as H4. rewrite Z.mul_1_l in H4. by rewrite H4.
  - apply u32_range.
Qed.

Lemma block_sources x : x ∈ b_instructions b -> guest_source_ok b x = true.
Proof.
  intros Hx. pose proof (bk_origin _ _ _ Hblock) as Ho. rewrite Forall_forall in Ho.
  destruct (Ho x Hx) as (e & He & Hga & Hgw & Hgo).
  destruct (block_bounds e He) as (H1 & H2 & H3 & _).
  rewrite Forall_forall in Hentries. destruct (Hentries e He) as (_ & _ & Hadr & info & Hi & Hrow).
  destruct (row_facts e.2 info Hi Hrow) as (_ & _ & Hid & Hv).
  unfold guest_source_ok. rewrite Hgo, Hga, Hadr. unfold opcode_id. rewrite Hi, Hid, Hv, H3. cbn [andb Z.eqb].
  rewrite (proj2 (Z.leb_le _ _) H1). cbn [andb].
  destruct H2 as [->|H2]; [done|]. rewrite (proj2 (Z.leb_gt _ _) H2). by rewrite andb_false_r.
Qed.

Lemma block_range : range_ok b = true.
Proof.
  destruct (bk_end _ _ _ Hblock) as (a & i & Hl & _).
  destruct (block_bounds (a, i) (last_Some_elem_of _ _ Hl)) as (H1 & H2 & _ & H4 & H5 & H6 & H7).
  unfold range_ok. apply negb_true_iff, andb_false_iff. destruct H2 as [->|H2]; [by left|]. right.
  apply orb_false_iff. split; [apply Z.leb_gt; lia|]. apply negb_false_iff, Z.eqb_eq.
  rewrite land3_mod in *. word_lia.
Qed.

(** A lifted block verifies unless it sets OV and SO. *)
Lemma block_verifies : vr_ok (verify_block_impl b true) = all_plain run.
Proof.
  apply eq_true_iff_eq. rewrite verify_block_accepted. split.
  - intros [_ Hacc]. rewrite <- (bk_plain _ _ _ Hblock). apply forallb_forall. intros x Hx%list_elem_of_In.
    destruct (plain_op (i_op x)) eqn:Ep; [done|]. exfalso.
    pose proof (bk_flags _ _ _ Hblock) as Hf. rewrite Forall_forall in Hf. specialize (Hf x Hx Ep).
    apply list_elem_of_split in Hx as (pre & post & Hx). destruct (Hacc pre x post Hx) as [[_ _ _ _ Hval _ _] _].
    assert (Hv : expects_void (i_op x) = false) by (by destruct (i_op x)).
    by destruct (Hval Hv).
  - intros Hp. split; [apply block_range|]. pose proof (bk_accepted _ _ _ Hblock Hp b) as Hacc.
    intros pre x post Hx. destruct (Hacc pre x post Hx) as [[_ H2 H3 H4 H5 H6 H7] Ht].
    split; [|exact Ht]. constructor; try done. intros _. apply block_sources. rewrite Hx.
    apply elem_of_app. right. by left.
Qed.
End BlockVerify.

(** ** The size of the address map *)

Definition code_words (ranges : list FunctionCodeRange) : nat := length (ranges ≫= fr_words).

(** At most 2^24 instructions: their values fit the identifiers of a block. *)
Definition fits (ranges : list FunctionCodeRange) : Prop := kBudget * Z.of_nat (code_words ranges) <= kNoValue.

Lemma emplace_length a i d d' : decoded_emplace a i d = Some d' -> length d' = S (length d).
Proof.
  revert d'. induction d as [|[k v] d IH]; intros d' E; cbn in E; [by injection E as <-|].
  destruct (k =? a); [done|]. destruct (a <? k); [by injection E as <-|].
  destruct (decoded_emplace a i d) as [d1|]; [|done]. injection E as <-. cbn. by rewrite (IH d1).
Qed.

Lemma decode_words_length base words : forall n d d',
  decode_words base n words d = inr d' -> length d' = (length d + length words)%nat.
Proof.
  induction words as [|word words IH]; intros n d d' E; cbn in E; [injection E as <-; cbn; lia|].
  destruct (negb _); [done|]. destruct (decoded_emplace _ _ d) as [d1|] eqn:Ed; [|done].
  rewrite (IH _ _ _ E), (emplace_length _ _ _ _ Ed). cbn. lia.
Qed.

Lemma decode_ranges_length ranges : forall d d',
  decode_ranges ranges d = inr d' -> length d' = (length d + code_words ranges)%nat.
Proof.
  unfold code_words. induction ranges as [|r ranges IH]; intros d d' E; cbn in E; [injection E as <-; cbn; lia|].
  destruct (fr_words r) as [|word words] eqn:Ew; [done|].
  destruct (negb _); [done|].
  change (match decode_words (fr_base r) 0 (word :: words) d with
          | inl e => inl e | inr d => decode_ranges ranges d end = inr d') in E.
  destruct (decode_words _ _ _ _) as [e|d1] eqn:Ed; [done|].
  rewrite (IH _ _ E), (decode_words_length _ _ _ _ _ Ed). cbn. rewrite Ew, length_app. cbn [length]. lia.
Qed.

Lemma fits_decoded ranges d :
  fits ranges -> decode_ranges ranges [] = inr d -> kBudget * Z.of_nat (length d) <= kNoValue.
Proof. intros Hf Hd. rewrite (decode_ranges_length _ _ _ Hd). exact Hf. Qed.

(** ** The function as its runs *)

Section Function.
Context (entry : GuestAddress) (ranges : list FunctionCodeRange).
Hypothesis Hranges : Forall range_wf ranges.
Hypothesis Hfits : fits ranges.

Lemma lift_function_runs f :
  lift_function entry ranges = inr f ->
  exists d runs, decode_ranges ranges [] = inr d /\ decoded_contains d entry = true /\ map_ok d /\
    lifted entry ranges d runs f.
Proof using Hranges Hfits.
  intros E. destruct (lift_function_input _ _ _ E) as (d & Hin). destruct Hin as (Hne & Hd & He & _).
  destruct (lift_function_lifted entry ranges f d Hranges E Hd (fits_decoded _ _ Hfits Hd)) as [runs Hl].
  exists d, runs. split_and!; try done. by eapply decode_ranges_ok; [|apply map_ok_nil|].
Qed.
End Function.

Lemma contains_elem d a : decoded_contains d a = true <-> a ∈ fst <$> d.
Proof.
  unfold decoded_contains. induction d as [|[k v] d IH]; cbn.
  - split; [done|]. by intros ?%elem_of_nil.
  - rewrite elem_of_cons. destruct (Z.eqb_spec k a) as [->|Hne]; [by split; [left|]|].
    rewrite IH. split; [by right|]. by intros [->|?].
Qed.

(** Inside a run without leaders, only the first address can be one. *)
Lemma unled_head leader run a :
  unled leader run -> a ∈ leader -> a ∈ fst <$> run -> fst <$> head run = Some a.
Proof.
  intros Hu Ha. destruct run as [|[b i] run]; [by intros ?%elem_of_nil|].
  cbn. rewrite elem_of_cons. intros [->|Hin]; [done|]. exfalso.
  revert b i Hu Hin. induction run as [|[c j] run IH]; intros b i Hu Hin; [by apply elem_of_nil in Hin|].
  destruct Hu as [Hc Hu]. cbn in Hin. apply elem_of_cons in Hin as [->|Hin]; [done|]. by eapply IH.
Qed.

Lemma lifted_starts entry ranges d runs f :
  lifted entry ranges d runs f ->
  Forall2 (λ run b, fst <$> head run = Some (b_guest_address b)) runs (f_blocks f).
Proof. intros Hl. eapply Forall2_impl; [apply (lf_blocks _ _ _ _ _ Hl)|]. by intros run b []. Qed.

Lemma starts_in runs blocks :
  Forall2 (λ (run : Decoded) b, fst <$> head run = Some (b_guest_address b)) runs blocks ->
  Forall (λ b, b_guest_address b ∈ fst <$> concat runs) blocks.
Proof.
  induction 1 as [|run b runs blocks Hh _ IH]; constructor.
  - destruct run as [|x run]; [done|]. injection Hh as <-. cbn. by left.
  - eapply Forall_impl; [exact IH|]. intros c Hc. cbn. rewrite fmap_app. apply elem_of_app. by right.
Qed.

Lemma starts_sorted runs blocks :
  ordered (concat runs) ->
  Forall2 (λ (run : Decoded) b, fst <$> head run = Some (b_guest_address b)) runs blocks ->
  StronglySorted Z.lt (b_guest_address <$> blocks).
Proof.
  intros Ho Hb. revert Ho. induction Hb as [|run b runs blocks Hh Hb IH]; intros Ho; [constructor|].
  destruct run as [|x run]; [done|]. injection Hh as Hh.
  cbn [concat] in Ho. pose proof (ordered_app (x :: run) _ Ho) as [_ Hrest].
  unfold ordered in Ho. rewrite fmap_app, fmap_cons, <- app_comm_cons, <- fmap_app in Ho.
  apply StronglySorted_inv in Ho as [_ Hx]. cbn. constructor.
  - by apply IH.
  - apply starts_in in Hb. rewrite Forall_fmap. eapply Forall_impl; [exact Hb|]. intros c Hc. cbn.
    rewrite Forall_forall in Hx. rewrite <- Hh. apply Hx. rewrite fmap_app. apply elem_of_app. by right.
Qed.

Lemma leader_starts leader runs blocks a :
  Forall2 (block_lifted leader) runs blocks -> a ∈ leader -> a ∈ fst <$> concat runs ->
  a ∈ b_guest_address <$> blocks.
Proof.
  intros Hb Ha. induction Hb as [|run b runs blocks Hb _ IH]; cbn; [done|].
  rewrite fmap_app, elem_of_app, elem_of_cons. intros [Hin|Hin]; [left|right; by apply IH].
  pose proof (unled_head _ _ _ (bk_unled _ _ _ Hb) Ha Hin) as Hh. rewrite (bk_start _ _ _ Hb) in Hh.
  by injection Hh.
Qed.
