(* ===== verification/IntegerBlocks.v ===== *)
(** * Compiled integer blocks against the fallback interpreter

    The parity of single instructions, carried through [Lifter::lift], the run of
    instructions the function compiler puts in one block, and the optimiser. *)

From S2P Require Import Prelude.
From S2P Require Import Words.
From S2P Require Import Instr.
From S2P Require Import Decoder.
From S2P Require Import CpuState.
From S2P Require Import Ir.
From S2P Require Import IrValue.
From S2P Require Import Services.
From S2P Require Import IrSem.
From S2P Require Import IrRefine.
From S2P Require Import PassSim.
From S2P Require Import Lifter.
From S2P Require Import Lift.
From S2P Require Import LiftWp.
From S2P Require Import Fallback.
From S2P Require Import IntegerParity.
From S2P Require Import IntegerAgree.
From S2P Require Import StateWf.
From S2P Require Import LiftStatic.
From S2P Require Import LiftTotal.
From S2P Require Import FunctionCompiler.
From S2P Require Import FunctionCompilerSpec.

(** The integer mnemonics belong to the integer group. *)
Lemma interpreted_group info :
  info ∈ kCatalog -> one_of (oi_mnemonic info) interpreted_integer = true -> oi_group info = GInteger.
Proof.
  assert (Hc : forallb (λ info, negb (one_of (oi_mnemonic info) interpreted_integer)
    || bool_decide (oi_group info = GInteger)) kCatalog = true) by (vm_compute; reflexivity).
  rewrite forallb_forall in Hc. intros Hin Hm. apply list_elem_of_In, Hc in Hin. rewrite Hm in Hin.
  by apply bool_decide_eq_true in Hin.
Qed.

(** An instruction of the catalogue on which both paths agree. *)
Definition agrees (i : DecodedInstruction) : Prop :=
  comparable i = true /\ exists info, di_info i = Some info /\ info ∈ kCatalog.

Lemma interpreted_wf i s : wf_state s -> wf_state (interpreted i s).
Proof. apply execute_integer_wf. Qed.

Section Blocks.
Context {W : Type} `{MemoryPort W, RuntimeServices W, HostHelpers W}.
Context (fuel : nat) (w : W) (g : option GuestAddress).

(** An integer instruction, through the dispatch of [lift]. *)
Lemma lift_lifts i f st e s :
  one_of (mnemonic i) interpreted_integer = true ->
  (exists info, di_info i = Some info /\ info ∈ kCatalog) ->
  lifts fuel w g (lift_integer i) f -> bl_current_guest st = None -> ready budget st e -> wf_state s ->
  exists st' l e',
    lift i st = Some (true, st') /\ bl_instructions st' = bl_instructions st ++ l /\
    bl_current_guest st' = None /\
    appended fuel w g (bl_next_value st) (bl_next_value st') l e e' s (f s) /\
    after budget st e st' e'.
Proof.
  intros Hm (info & Hi & Hrow) Hl Hg Hr Hs.
  assert (Hgroup : oi_group info = GInteger).
  { apply interpreted_group; [done|]. unfold mnemonic in Hm. by rewrite Hi in Hm. }
  set (st0 := mkBuilder (bl_instructions st) (bl_next_value st) (Some i)).
  assert (Hr0 : ready budget st0 e) by (destruct Hr; by constructor).
  destruct (Hl st0 e s Hr0 Hs) as (ok & st1 & l & e' & s' & E & I & G & A & -> & -> & [Hready Hsub]).
  exists (mkBuilder (bl_instructions st1) (bl_next_value st1) None), l, e'. split_and!; try done.
  - unfold lift. rewrite Hi, Hgroup. unfold bbind, set_guest. cbn [lift_group]. fold st0. by rewrite E.
  - split; [|done]. intros k Hk. destruct (Hready k) as [He Hlow Hroom]; [by destruct Hk|]. by constructor.
Qed.

Lemma lift_agrees i st e s :
  agrees i -> bl_current_guest st = None -> ready budget st e -> wf_state s ->
  exists st' l e',
    lift i st = Some (true, st') /\ bl_instructions st' = bl_instructions st ++ l /\
    bl_current_guest st' = None /\
    appended fuel w g (bl_next_value st) (bl_next_value st') l e e' s (interpreted i s) /\
    after budget st e st' e'.
Proof.
  intros (Hc & info & Hi & Hrow). destruct (row_facts i info Hi Hrow) as (_ & _ & Hid & _).
  apply lift_lifts; [|by exists info|].
  - unfold comparable in Hc. rewrite !andb_true_iff in Hc. by destruct Hc as (((Hm & _) & _) & _).
  - apply integer_lifts; [by exists info|done].
Qed.

Lemma lift_run_suffix leader d : forall st st' rest,
  lift_run leader d st = inr (st', rest) -> d <> [] -> exists run, d = run ++ rest /\ run <> [].
Proof.
  induction d as [|[a i] d IH]; intros st st' rest E Hne; [done|]. cbn [lift_run] in E.
  destruct (lift i st) as [[ok st1]|]; [|done].
  destruct (negb ok || _); [done|]. destruct d as [|[b j] d].
  - injection E as <- <-. by exists [(a, i)].
  - destruct (_ || _).
    + injection E as <- <-. by exists [(a, i)].
    + destruct (IH _ _ _ E ltac:(done)) as (run & -> & _). by exists ((a, i) :: run).
Qed.

(** The first instruction of a run is lifted, and then the rest of the run. *)
Lemma lift_run_inv leader a i run rest st st' :
  lift_run leader ((a, i) :: run ++ rest) st = inr (st', rest) ->
  exists st1, lift i st = Some (true, st1) /\
    ((run = [] /\ st1 = st') \/ (run <> [] /\ lift_run leader (run ++ rest) st1 = inr (st', rest))).
Proof.
  intros E. cbn [lift_run] in E. destruct (lift i st) as [[[] st1]|]; [|done..]. cbn [negb orb] in E.
  destruct (_ =? _)%nat; [done|]. exists st1. split; [done|]. destruct (run ++ rest) as [|[b j] d] eqn:Ed.
  { apply app_eq_nil in Ed as [-> ->]. injection E as ->. by left. }
  destruct (negb (b =? u32 (a + 4)) || _).
  - injection E as -> Erest. left. split; [|done]. apply (f_equal length) in Ed.
    rewrite <- Erest, length_app in Ed. cbn in Ed. destruct run; [done|cbn in Ed; lia].
  - right. split; [|done]. intros ->. destruct (lift_run_suffix _ _ _ _ _ E) as (run & Hd & Hn); [done|].
    cbn [app] in Ed. rewrite <- Ed in Hd. apply (f_equal length) in Hd. rewrite length_app in Hd.
    destruct run; [done|cbn in Hd; lia].
Qed.

Definition interpret_all (run : Decoded) (s : CpuState) : CpuState :=
  foldl (λ s x, interpreted x.2 s) s run.

Lemma interpret_all_wf run s : wf_state s -> wf_state (interpret_all run s).
Proof.
  revert s. induction run as [|x run IH]; intros s Hs; [done|]. apply IH. by apply interpreted_wf.
Qed.

Lemma lift_run_exec leader rest st' : forall run st e s,
  lift_run leader (run ++ rest) st = inr (st', rest) -> run <> [] -> Forall (λ x, agrees x.2) run ->
  bl_current_guest st = None -> ready (budget * Z.of_nat (length run)) st e -> wf_state s ->
  exists l e',
    bl_instructions st' = bl_instructions st ++ l /\
    appended fuel w g (bl_next_value st) (bl_next_value st') l e e' s (interpret_all run s).
Proof.
  induction run as [|[a i] run IH]; intros st e s E Hne Hrun Hg Hr Hs; [done|].
  apply Forall_cons in Hrun as [Hi Hrun]. cbn [length] in Hr. unfold budget in Hr.
  assert (Hr1 : ready budget st e) by (eapply ready_weaken; [|exact Hr]; unfold budget; lia).
  destruct (lift_run_inv _ _ _ _ _ _ _ E) as (st1 & E1 & Hrest).
  destruct (lift_agrees i st e s Hi Hg Hr1 Hs) as (st2 & l1 & e1 & E2 & I1 & G1 & A1 & Haft).
  assert (st2 = st1) as -> by congruence.
  destruct Hrest as [[-> ->]|[Hrne Erest]]; [by exists l1, e1|].
  assert (Hr2 : ready (budget * Z.of_nat (length run)) st1 e1).
  { eapply after_ready; [exact Haft|]. eapply ready_weaken; [|exact Hr]. unfold budget. lia. }
  destruct (IH st1 e1 (interpreted i s) Erest Hrne Hrun G1 Hr2 (interpreted_wf i s Hs)) as (l2 & e2 & I2 & A2).
  exists (l1 ++ l2), e2. split; [by rewrite I2, I1, app_assoc|]. by eapply appended_app.
Qed.
End Blocks.

(** ** The blocks of a lifted function *)

(** The block is what [lift_run] made of [run]. *)
Definition made_from (leader : gset Z) (run : Decoded) (b : Block) : Prop :=
  run <> [] /\ fst <$> head run = Some (b_guest_address b) /\
  exists rest st, lift_run leader (run ++ rest) new_builder = inr (st, rest) /\
    b_instructions b = bl_instructions st.

Lemma partition_made leader fuel d blocks :
  partition fuel leader d = inr blocks ->
  exists runs, d = concat runs /\ Forall2 (made_from leader) runs blocks.
Proof.
  revert d blocks. induction fuel as [|fuel IH]; intros [|[start i] d] blocks E;
    try (injection E as <-; by exists []); [done|].
  cbn [partition] in E. destruct (lift_run _ _ _) as [e|[st rest]] eqn:El; [done|].
  destruct (partition fuel leader rest) as [e|blocks'] eqn:Ep; [done|]. injection E as <-.
  destruct (IH _ _ Ep) as (runs & -> & Hruns).
  destruct (lift_run_suffix _ _ _ _ _ El ltac:(done)) as (run & Hd & Hne).
  exists (run :: runs). split; [exact Hd|]. constructor; [|done]. split_and!; [done| |].
  - destruct run as [|x run]; [done|]. injection Hd as <- _. done.
  - exists (concat runs), st. by rewrite <- Hd.
Qed.

Lemma made_from_code leader runs blocks blocks' :
  Forall2 (made_from leader) runs blocks -> Forall2 same_code blocks' blocks ->
  Forall2 (made_from leader) runs blocks'.
Proof.
  intros Hb. revert blocks'. induction Hb as [|run b runs blocks Hb _ IH]; intros blocks' Hc.
  - inversion Hc. constructor.
  - inversion Hc as [|b' ? blocks1 ? (Ha & Hi & _) Hc2]; subst. constructor; [|by apply IH].
    destruct Hb as (Hne & Hh & rest & st & E & Hl). split_and!; [done|by rewrite Ha|].
    exists rest, st. by rewrite Hi.
Qed.

Lemma lift_function_made entry ranges f d :
  lift_function entry ranges = inr f -> decode_ranges ranges [] = inr d ->
  exists runs, d = concat runs /\ Forall2 (made_from (leaders entry ranges d)) runs (f_blocks f).
Proof.
  unfold lift_function. intros E Hd. destruct ranges as [|r ranges]; [done|]. rewrite Hd in E.
  destruct (negb _); [done|]. destruct (find _ _) as [[a i]|]; [done|].
  destruct (partition _ _ _) as [e|blocks] eqn:Ep; [done|].
  destruct (connect d blocks blocks) as [e|blocks'] eqn:Ec; [done|]. injection E as <-. cbn [f_blocks].
  destruct (partition_made _ _ _ _ Ep) as (runs & -> & Hruns). exists runs. split; [done|].
  eapply made_from_code; [|apply link_predecessors_code]. eapply made_from_code; [done|].
  by eapply connect_code.
Qed.

Lemma decoded_catalogued entry ranges f d x :
  Forall range_wf ranges -> lift_function entry ranges = inr f -> decode_ranges ranges [] = inr d ->
  x ∈ d -> exists info, di_info x.2 = Some info /\ info ∈ kCatalog.
Proof.
  intros Hr _ Hd Hx. destruct (decode_ranges_ok _ _ _ Hr map_ok_nil Hd) as [_ Hall].
  rewrite Forall_forall in Hall. by destruct (Hall x Hx) as (_ & _ & _ & ?).
Qed.
