(* ===== verification/OptimizerProps.v ===== *)
(** * The optimiser's contract

    One theorem per pass and one for the pipeline: what a lifted body does, the
    optimised body does, and the optimised body is again well formed. The
    witnesses run every pass on one concrete block. *)

From S2P Require Import Prelude.
From S2P Require Import Words.
From S2P Require Import Instr.
From S2P Require Import CpuState.
From S2P Require Import Ir.
From S2P Require Import IrValue.
From S2P Require Import Services.
From S2P Require Import IrSem.
From S2P Require Import IrRefine.
From S2P Require Import PassSim.
From S2P Require Import Fold.
From S2P Require Import Dce.
From S2P Require Import Cse.
From S2P Require Import Simplify.
From S2P Require Import SimplifySim.
From S2P Require Import Promote.
From S2P Require Import PromoteSlots.
From S2P Require Import PromoteCorrect.
From S2P Require Import CrForward.
From S2P Require Import CrForwardCorrect.
From S2P Require Import Optimizer.
From S2P Require Import FlatMemory.
From S2P Require Import NullRuntime.

Section Contract.
Context {W : Type} `{MemoryPort W, RuntimeServices W, HostHelpers W}.

(** C1: the optimised block is well formed and does what the lifted block does: it
    leaves or falls through alike, with the same registers, memory and result,
    whatever the runtime and the memory do. *)
Theorem optimizer_preserves `{!PromotionLaws W} fuel b (m : Machine W) o :
  body_ok (b_instructions b) = true ->
  run_body fuel Lifted (b_instructions b) m = Some o ->
  run_body fuel Emitted (b_instructions (Optimizer_run b)) m = Some o /\
  body_ok (b_instructions (Optimizer_run b)) = true.
Proof.
  intros Hb E. pose proof (optimizer_correct (W := W)) as [Hok Hrun].
  split; [by apply Hrun|by apply Hok].
Qed.

(** C11: promoting registers to block-local values, with their write-backs deferred
    to the operations that need the architectural state, preserves the block. *)
Theorem promotion_preserves `{!PromotionLaws W} fuel b (m : Machine W) o :
  body_ok (b_instructions b) = true ->
  run_body fuel Lifted (b_instructions b) m = Some o ->
  run_body fuel Promoted (b_instructions (promote_architectural_state b)) m = Some o /\
  body_ok (b_instructions (promote_architectural_state b)) = true.
Proof.
  intros Hb E. pose proof (promote_correct (W := W)) as [Hok Hrun].
  split; [by apply Hrun|by apply Hok].
Qed.

(** C12: holding compares back and forwarding their operands into later reads of the
    condition bits preserves the block. *)
Theorem compare_forwarding_preserves `{!PromotionLaws W} fuel b (m : Machine W) o :
  body_ok (b_instructions b) = true ->
  run_body fuel Promoted (b_instructions b) m = Some o ->
  run_body fuel Promoted (b_instructions (forward_cr_compare_state b)) m = Some o /\
  body_ok (b_instructions (forward_cr_compare_state b)) = true.
Proof.
  intros Hb E. pose proof (forward_correct (W := W)) as [Hok Hrun].
  split; [by apply Hrun|by apply Hok].
Qed.

(** C24: algebraic simplification and copy propagation preserve the block, whether
    its result is read as lifted IR or as emitted code. *)
Theorem simplification_preserves fuel ms mt b (m : Machine W) o :
  simplify_modes ms mt -> body_ok (b_instructions b) = true ->
  run_body fuel ms (b_instructions b) m = Some o ->
  run_body fuel mt (b_instructions (simplify_values b)) m = Some o /\
  body_ok (b_instructions (simplify_values b)) = true.
Proof.
  intros Hm Hb E. pose proof (simplify_correct (W := W) ms mt Hm) as [Hok Hrun].
  split; [by apply Hrun|by apply Hok].
Qed.

(** C25: replacing a repeated pure expression by its first occurrence preserves the
    block. *)
Theorem subexpression_elimination_preserves fuel mode b (m : Machine W) o :
  body_ok (b_instructions b) = true ->
  run_body fuel mode (b_instructions b) m = Some o ->
  run_body fuel mode (b_instructions (eliminate_common_subexpressions b)) m = Some o /\
  body_ok (b_instructions (eliminate_common_subexpressions b)) = true.
Proof.
  intros Hb E. pose proof (cse_correct (W := W) mode) as [Hok Hrun].
  split; [by apply Hrun|by apply Hok].
Qed.

(** C26: removing pure instructions whose results are not used preserves the block. *)
Theorem dead_code_elimination_preserves fuel mode b (m : Machine W) o :
  body_ok (b_instructions b) = true ->
  run_body fuel mode (b_instructions b) m = Some o ->
  run_body fuel mode (b_instructions (eliminate_dead_code b)) m = Some o /\
  body_ok (b_instructions (eliminate_dead_code b)) = true.
Proof.
  intros Hb E. pose proof (dce_correct (W := W) mode) as [Hok Hrun].
  split; [by apply Hrun|by apply Hok].
Qed.

(** C27: constant folding computes at compile time what the block computes at run
    time. *)
Theorem constant_folding_preserves fuel mode b (m : Machine W) o :
  body_ok (b_instructions b) = true ->
  run_body fuel mode (b_instructions b) m = Some o ->
  run_body fuel mode (b_instructions (fold_constants b)) m = Some o /\
  body_ok (b_instructions (fold_constants b)) = true.
Proof.
  intros Hb E. pose proof (fold_correct (W := W) mode) as [Hok Hrun].
  split; [by apply Hrun|by apply Hok].
Qed.
End Contract.

(** ** A concrete block

    [r4 = r3 + 12; r5 = 12 + r3; cmpd cr0, r4, r5; beq 0x100], with a dead product. *)

Definition pure_inst (op : Op.t) (t : IrType) (result : ValueId) (args : list ValueId) (imm0 : Z)
    : Instruction := mkInstr op t result args imm0 0 0 0 kInvalidOpcodeId.
Definition void_inst (op : Op.t) (args : list ValueId) (imm0 : Z) : Instruction :=
  pure_inst op Void kNoValue args imm0.

Definition sample : Block := mkBlock 0 [
  pure_inst Op.ReadGpr I64 0 [] 3;
  pure_inst Op.Constant I64 1 [] 5;
  pure_inst Op.Constant I64 2 [] 7;
  pure_inst Op.Add I64 3 [1; 2] 0;
  pure_inst Op.Add I64 4 [0; 3] 0;
  void_inst Op.WriteGpr [4] 4;
  pure_inst Op.ReadGpr I64 5 [] 3;
  pure_inst Op.Add I64 6 [3; 5] 0;
  pure_inst Op.Mul I64 7 [6; 4] 0;
  void_inst Op.WriteGpr [6] 5;
  pure_inst Op.ReadGpr I64 8 [] 4;
  pure_inst Op.CompareSlt I1 9 [8; 6] 0;
  pure_inst Op.CompareSgt I1 10 [8; 6] 0;
  pure_inst Op.CompareEq I1 11 [8; 6] 0;
  pure_inst Op.ReadXerSO I1 12 [] 0;
  void_inst Op.WriteCRCompare [9; 10; 11; 12] 0;
  pure_inst Op.ReadCRBit I1 13 [] 2;
  pure_inst Op.Constant I64 14 [] 0x100;
  void_inst Op.BranchIf [13; 14] 0] 0 [] [] false false false.

Abbreviation sample_outcome mode b := (run_body (W := FlatMemory) 10 mode (b_instructions b) rest).

Lemma sample_ok : body_ok (b_instructions sample) = true.
Proof. vm_compute. reflexivity. Qed.

Definition is_some {A} (x : option A) : bool := match x with Some _ => true | None => false end.

Lemma sample_runs mode : exists o, sample_outcome mode sample = Some o.
Proof.
  assert (is_some (sample_outcome mode sample) = true) as Hs by (destruct mode; vm_compute; reflexivity).
  destruct (sample_outcome mode sample) as [o|]; [by exists o|discriminate Hs].
Qed.

(** The pipeline on the block: nineteen operations become twelve. *)
Lemma optimizer_preserves_witness :
  length (b_instructions (Optimizer_run sample)) = 12%nat /\
  exists o, sample_outcome Lifted sample = Some o /\ sample_outcome Emitted (Optimizer_run sample) = Some o.
Proof.
  split; [vm_compute; reflexivity|]. destruct (sample_runs Lifted) as [o E]. exists o.
  split; [exact E|]. exact (proj1 (optimizer_preserves 10 sample rest o sample_ok E)).
Defined.

Lemma promotion_preserves_witness :
  length (b_instructions (promote_architectural_state sample)) = 17%nat /\
  exists o, sample_outcome Lifted sample = Some o /\
    sample_outcome Promoted (promote_architectural_state sample) = Some o.
Proof.
  split; [vm_compute; reflexivity|]. destruct (sample_runs Lifted) as [o E]. exists o.
  split; [exact E|]. exact (proj1 (promotion_preserves 10 sample rest o sample_ok E)).
Defined.

Lemma compare_forwarding_preserves_witness :
  length (b_instructions (forward_cr_compare_state sample)) = 18%nat /\
  exists o, sample_outcome Promoted sample = Some o /\
    sample_outcome Promoted (forward_cr_compare_state sample) = Some o.
Proof.
  split; [vm_compute; reflexivity|]. destruct (sample_runs Promoted) as [o E]. exists o.
  split; [exact E|]. exact (proj1 (compare_forwarding_preserves 10 sample rest o sample_ok E)).
Defined.

Lemma simplification_preserves_witness :
  exists o, sample_outcome Lifted sample = Some o /\
    sample_outcome Emitted (simplify_values sample) = Some o.
Proof.
  destruct (sample_runs Lifted) as [o E]. exists o. split; [exact E|].
  assert (Hm : simplify_modes Lifted Emitted) by (split; [discriminate|left; reflexivity]).
  exact (proj1 (simplification_preserves 10 Lifted Emitted sample rest o Hm sample_ok E)).
Defined.

Lemma subexpression_elimination_preserves_witness :
  exists o, sample_outcome Lifted sample = Some o /\
    sample_outcome Lifted (eliminate_common_subexpressions sample) = Some o.
Proof.
  destruct (sample_runs Lifted) as [o E]. exists o. split; [exact E|].
  exact (proj1 (subexpression_elimination_preserves 10 Lifted sample rest o sample_ok E)).
Defined.

Lemma dead_code_elimination_preserves_witness :
  length (b_instructions (eliminate_dead_code sample)) = 18%nat /\
  exists o, sample_outcome Lifted sample = Some o /\
    sample_outcome Lifted (eliminate_dead_code sample) = Some o.
Proof.
  split; [vm_compute; reflexivity|]. destruct (sample_runs Lifted) as [o E]. exists o.
  split; [exact E|]. exact (proj1 (dead_code_elimination_preserves 10 Lifted sample rest o sample_ok E)).
Defined.

Lemma constant_folding_preserves_witness :
  nth_error (b_instructions (fold_constants sample)) 3 = Some (pure_inst Op.Constant I64 3 [] 12) /\
  exists o, sample_outcome Lifted sample = Some o /\
    sample_outcome Lifted (fold_constants sample) = Some o.
Proof.
  split; [vm_compute; reflexivity|]. destruct (sample_runs Lifted) as [o E]. exists o.
  split; [exact E|]. exact (proj1 (constant_folding_preserves 10 Lifted sample rest o sample_ok E)).
Defined.
