(* ===== verification/VerifierProps.v ===== *)
(** * The verifier's contract *)

From S2P Require Import Prelude.
From S2P Require Import Words.
From S2P Require Import Instr.
From S2P Require Import Ir.
From S2P Require Import Verifier.
From S2P Require Import VerifierSpec.

(** C22: the verifier accepts a block exactly when it follows the rules of the IR:
    it has no end or ends a whole number of words after its start; each instruction's operands
    are defined by earlier ones, with types that, together with the immediates and the
    result type, fit the typing rule of its operation ([well_typed]); a result is new
    and an instruction without one carries no value; where asked for, each instruction
    has a catalogued guest source inside the block; nothing follows a terminator. *)
Theorem verify_block_exact b require_guest_source :
  vr_ok (verify_block_impl b require_guest_source) = true <->
  block_accepted b require_guest_source.
Proof. apply verify_block_rules. Qed.

(** C13: in an accepted block every operand is the result of an earlier instruction
    and no two instructions define the same value. *)
Theorem verified_single_definition b require_guest_source :
  vr_ok (verify_block_impl b require_guest_source) = true ->
  (forall j i a, b_instructions b !! j = Some i -> a ∈ i_args i ->
     a <> kNoValue /\
     exists k i', (k < j)%nat /\ b_instructions b !! k = Some i' /\ i_result i' = a) /\
  (forall j k i i', b_instructions b !! j = Some i -> b_instructions b !! k = Some i' ->
     i_result i = i_result i' -> i_result i <> kNoValue -> j = k).
Proof.
  intros [_ Hacc]%verify_block_accepted. split.
  - intros j i a Hj Ha. destruct (accepted_defined _ _ _ _ _ _ Hacc Hj Ha) as (Hne & k & i' & Hk & Hi & Hr & _).
    split; [done|]. by exists k, i'.
  - intros j k i i'. by apply (accepted_unique _ _ _ _ _ _ _ Hacc).
Qed.

Definition inst (op : Op.t) (t : IrType) (result : ValueId) (args : list ValueId) (imm0 : Z) : Instruction :=
  mkInstr op t result args imm0 0 0x1000 0 kInvalidOpcodeId.

(** [b 0x2000], the target a constant of the block. *)
Definition branch_block : Block := mkBlock 0x1000
  [inst Op.Constant I64 0 [] 0x2000; inst Op.Branch Void kNoValue [0] 0]
  0x1004 [] [] true false false.

Lemma verified_single_definition_witness :
  exists k i', (k < 1)%nat /\ b_instructions branch_block !! k = Some i' /\ i_result i' = 0.
Proof.
  assert (Hok : vr_ok (verify_block_impl branch_block false) = true) by (vm_compute; reflexivity).
  destruct (verified_single_definition branch_block false Hok) as [Hdef _].
  destruct (Hdef 1%nat (inst Op.Branch Void kNoValue [0] 0) 0 eq_refl) as [_ Hk]; [by left|exact Hk].
Defined.

(** C23: the verifier accepts a function exactly when its blocks have distinct
    addresses, include the entry and follow the rules of blocks, every direct control
    transfer to a constant has its edge in the control-flow graph, and local edges and
    predecessor lists agree. *)
Theorem verify_function_exact f : vr_ok (verify_function f) = true <-> function_accepted f.
Proof. apply verify_function_accepted. Qed.

(** The index and the error the loop reports. *)
Lemma verify_from_location b req n saw values l r :
  verify_from b req n saw values l = r -> vr_ok r = false ->
  exists k, vr_index r = (n + k)%nat /\ (k < length l)%nat /\
    (saw = true -> k = 0%nat) /\
    vr_ok (verify_from b req n saw values (take k l)) = true /\
    vr_ok (verify_from b req n saw values (take (S k) l)) = false.
Proof.
  revert n saw values. induction l as [|i l IH]; intros n saw values E Hr; [by subst r|].
  cbn in E. destruct saw.
  { subst r. exists 0%nat. cbn. split_and!; [lia|lia|done|done|done]. }
  destruct (check_inst b req values i) as [e|values'] eqn:Ec.
  { subst r. exists 0%nat. cbn. rewrite Ec. split_and!; [lia|lia|done|done|done]. }
  destruct (IH _ _ _ E Hr) as (k & Hi & Hk & Hs & Hpre & Hbad). exists (S k). cbn. rewrite Ec.
  split_and!; [lia|lia|done|done|done].
Qed.

(** The loop looks at the block's addresses only. *)
Lemma verify_from_same b l0 req n saw values l :
  verify_from (set_instructions l0 b) req n saw values l = verify_from b req n saw values l.
Proof.
  revert n saw values. induction l as [|i l IH]; intros n saw values; [done|]. cbn. destruct saw; [done|].
  assert (check_inst (set_instructions l0 b) req values i = check_inst b req values i) as -> by done.
  destruct (check_inst _ _ _ _); [done|]. apply IH.
Qed.

(** C32: the reported index is the first offending instruction: the block cut before it
    verifies, the block cut after it does not. *)
Theorem verify_error_location b require_guest_source r :
  range_ok b = true -> verify_block_impl b require_guest_source = r -> vr_ok r = false ->
  let upto n := verify_block_impl (set_instructions (take n (b_instructions b)) b) require_guest_source in
  (vr_index r < length (b_instructions b))%nat /\ vr_block r = b_guest_address b /\
  vr_ok (upto (vr_index r)) = true /\ vr_ok (upto (S (vr_index r))) = false.
Proof.
  intros Hrange E Hr upto. unfold verify_block_impl in E. rewrite Hrange in E. cbn [negb] in E.
  destruct (verify_from_location _ _ _ _ _ _ _ E Hr) as (k & Hi & Hk & _ & Hpre & Hbad).
  assert (Hupto : forall n, upto n = verify_from b require_guest_source 0 false ∅ (take n (b_instructions b))).
  { intros n. unfold upto, verify_block_impl.
    change (range_ok (set_instructions (take n (b_instructions b)) b)) with (range_ok b). rewrite Hrange.
    apply verify_from_same. }
  rewrite !Hupto. rewrite Hi. split_and!; [done| |done|done].
  clear -E Hr. revert E. generalize 0%nat, false, (∅ : Values), (b_instructions b).
  intros n saw values l. revert n saw values. induction l as [|i l IH]; intros n saw values E; [by subst r|].
  cbn in E. destruct saw; [by subst r|]. destruct (check_inst _ _ _ _); [by subst r|]. by eapply IH.
Qed.

(** An operand that is defined only afterwards. *)
Definition bad_block : Block := mkBlock 0x1000
  [inst Op.Constant I64 0 [] 1; inst Op.WriteGpr Void kNoValue [1] 3; inst Op.Constant I64 1 [] 2]
  0 [] [] false false false.

Lemma verify_error_location_witness :
  verify_block bad_block = failed UseBeforeDefinition 0x1000 1 /\
  vr_ok (verify_block (set_instructions (take 1 (b_instructions bad_block)) bad_block)) = true.
Proof.
  split; [vm_compute; reflexivity|].
  destruct (verify_error_location bad_block false (failed UseBeforeDefinition 0x1000 1)) as (_ & _ & Hok & _).
  - reflexivity.
  - vm_compute. reflexivity.
  - reflexivity.
  - exact Hok.
Defined.

(** C34: the verifier rejects every block that sets the XER overflow flags the way the
    lifter does, with [SetXerOV] and [SetXerSO] operations that have no result: the
    table of void operations lists only the third XER write, [SetXerCA]. *)
Theorem overflow_flag_writes_rejected b require_guest_source pre i post :
  b_instructions b = pre ++ i :: post ->
  i_op i = Op.SetXerOV \/ i_op i = Op.SetXerSO -> i_type i = Void ->
  vr_ok (verify_block_impl b require_guest_source) = false.
Proof.
  intros Hl Hop Ht. destruct (vr_ok _) eqn:Ev; [|done].
  apply verify_block_accepted in Ev as [_ Hacc]. destruct (Hacc pre i post Hl) as [Hi _].
  destruct (ia_value _ _ _ _ Hi) as (Hv & _); [by destruct Hop as [-> | ->]|done].
Qed.

Lemma overflow_flag_writes_rejected_witness :
  vr_ok (verify_block (mkBlock 0 [inst Op.Constant I1 0 [] 1; inst Op.SetXerOV Void kNoValue [0] 0]
    0 [] [] false false false)) = false.
Proof.
  apply (overflow_flag_writes_rejected
    (mkBlock 0 [inst Op.Constant I1 0 [] 1; inst Op.SetXerOV Void kNoValue [0] 0] 0 [] [] false false false)
    false [inst Op.Constant I1 0 [] 1] (inst Op.SetXerOV Void kNoValue [0] 0) []).
  - reflexivity.
  - left. reflexivity.
  - reflexivity.
Defined.
