(* ===== verification/IntegerProps.v ===== *)
(** * What the integer path of the recompiler computes

    The properties of the integer lowering and of the fallback interpreter: a
    compiled block of [comparable] integer instructions leaves the state the
    interpreter leaves, the interpreter keeps the register file well formed, the
    rotate masks are what the architecture says, and what the two paths do on the
    instructions [comparable] leaves out. *)

From S2P Require Import Prelude.
From S2P Require Import Words.
From S2P Require Import Instr.
From S2P Require Import Decoder.
From S2P Require Import CpuState.
From S2P Require Import AotScalar.
From S2P Require Import Ir.
From S2P Require Import IrValue.
From S2P Require Import Services.
From S2P Require Import IrSem.
From S2P Require Import IrRefine.
From S2P Require Import PassSim.
From S2P Require Import PromoteSlots.
From S2P Require Import Optimizer.
From S2P Require Import Lifter.
From S2P Require Import Lift.
From S2P Require Import LiftWp.
From S2P Require Import Fallback.
From S2P Require Import IntegerParity.
From S2P Require Import IntegerAgree.
From S2P Require Import StateWf.
From S2P Require Import LiftTotal.
From S2P Require Import ControlFlow.
From S2P Require Import FunctionCompiler.
From S2P Require Import FunctionCompilerSpec.
From S2P Require Import IntegerBlocks.
From S2P Require Import FlatMemory.
From S2P Require Import NullRuntime.

Section Parity.
Context {W : Type} `{MemoryPort W, RuntimeServices W, HostHelpers W}.

(** A run of agreeing instructions, lifted into a fresh block and optimised. *)
Lemma optimised_run_interprets `{!PromotionLaws W} fuel leader run rest st b (m : Machine W) :
  lift_run leader (run ++ rest) new_builder = inr (st, rest) -> run <> [] ->
  Forall (λ x, agrees x.2) run -> 64 * Z.of_nat (length run) <= kNoValue -> wf_state (m_cpu m) ->
  b_instructions b = bl_instructions st ->
  run_body fuel Emitted (b_instructions (Optimizer_run b)) m =
    Some (FellThrough (mkMachine (interpret_all run (m_cpu m)) (m_world m) (m_materialized m))).
Proof.
  intros E Hne Hrun Hsize Hs Hb. destruct m as [s w g]. cbn [m_cpu m_world m_materialized] in *.
  assert (Hready : ready (budget * Z.of_nat (length run)) new_builder ∅).
  { split; [apply env_ok_empty|done|]. unfold budget. cbn. lia. }
  destruct (lift_run_exec fuel w g leader rest st run new_builder ∅ s E Hne Hrun eq_refl Hready Hs)
    as (l & e' & Hl & Happ).
  cbn [bl_instructions new_builder app bl_next_value] in *. rewrite Hl in Hb.
  pose proof (optimizer_correct (W := W)) as [_ Hcorrect]. apply Hcorrect; rewrite Hb.
  - apply body_ok_spec. split; [by apply (ap_ssa _ _ _ _ _ _ _ _ _ _ Happ)|by apply (ap_wf _ _ _ _ _ _ _ _ _ _ Happ)].
  - unfold run_body. rewrite (ap_exec _ _ _ _ _ _ _ _ _ _ Happ). done.
Qed.

(** C3: in a function the compiler lifts, every block whose instructions are all
    [comparable] does, once optimised and emitted, exactly what the fallback interpreter
    does with these instructions in turn: the same registers, no memory access, no
    runtime call, and it falls through. Comparable are the integer instructions other
    than the [o] forms of neg, mulld, mullw, divd, divdu, divw and divwu, and the
    algebraic right shifts onto one of their own source registers. *)
Theorem compiled_blocks_interpret `{!PromotionLaws W} entry ranges f d fuel :
  Forall range_wf ranges -> lift_function entry ranges = inr f -> decode_ranges ranges [] = inr d ->
  64 * Z.of_nat (length d) <= kNoValue ->
  exists runs, d = concat runs /\ Forall2 (λ run b,
    run <> [] /\ fst <$> head run = Some (b_guest_address b) /\
    (Forall (λ x, comparable x.2 = true) run -> forall m : Machine W, wf_state (m_cpu m) ->
      run_body fuel Emitted (b_instructions (Optimizer_run b)) m =
        Some (FellThrough (mkMachine (interpret_all run (m_cpu m)) (m_world m) (m_materialized m)))))
    runs (f_blocks f).
Proof.
  intros Hr E Hd Hsize. destruct (lift_function_made _ _ _ _ E Hd) as (runs & Hruns & Hmade).
  exists runs. split; [done|].
  assert (Hsub : forall run x, run ∈ runs -> x ∈ run -> x ∈ d).
  { intros run x Hin Hx. rewrite Hruns, list_elem_of_In, in_concat. exists run. by rewrite <- !list_elem_of_In. }
  assert (Hlen : forall run, run ∈ runs -> (length run <= length d)%nat).
  { intros run (r1 & r2 & ->)%list_elem_of_split. rewrite Hruns, concat_app. cbn. rewrite !length_app. lia. }
  clear Hruns. induction Hmade as [|run b runs blocks (Hne & Hh & rest & st & El & Hb) _ IH]; constructor.
  - split_and!; [done|done|]. intros Hc m Hs.
    eapply (optimised_run_interprets fuel _ run rest st); [exact El|done| | |done|exact Hb].
    + rewrite Forall_forall in *. intros x Hx. split; [by apply Hc|].
      eapply decoded_catalogued; [exact Hr|exact E|exact Hd|]. eapply Hsub; [left|done].
    + specialize (Hlen run ltac:(left)). lia.
  - apply IH; intros; [eapply Hsub; [right|]|apply Hlen; right]; done.
Qed.

(** C5: for one decoded [comparable] integer instruction, the fallback interpreter
    executes it, and the IR the lifter appends to any block computes the state the
    interpreter computes. Left out are the [o] forms of neg, mulld, mullw, divd, divdu,
    divw and divwu, which only the compiled path records ([interpreter_ignores_overflow]),
    and algebraic right shifts onto one of their own source registers, where CA may
    differ ([algebraic_shift_carry]). *)
Theorem integer_instruction_parity fuel address word st e (m : Machine W) :
  let i := decode address word in
  is_u32 word -> comparable i = true -> bl_current_guest st = None -> ready 64 st e ->
  wf_state (m_cpu m) ->
  exists st' l e' s',
    execute_integer i (m_cpu m) = (true, s') /\
    lift i st = Some (true, st') /\ bl_instructions st' = bl_instructions st ++ l /\ e ⊆ e' /\
    exec_list fuel Lifted l e m = Some (Continue e' (mkMachine s' (m_world m) (m_materialized m))).
Proof.
  intros i Hw Hc Hg Hr Hs. destruct m as [s w g]. cbn [m_cpu m_world m_materialized] in *.
  assert (Hrow : exists info, di_info i = Some info /\ info ∈ kCatalog).
  { unfold comparable in Hc. rewrite !andb_true_iff in Hc. destruct Hc as (((Hm & _) & _) & _).
    unfold mnemonic in Hm. destruct (di_info i) as [info|] eqn:Ei; [|done].
    exists info. split; [done|]. by eapply decode_catalogued. }
  destruct Hrow as (info & Hi & Hin).
  destruct (lift_agrees fuel w g i st e s) as (st' & l & e' & El & Hl & _ & Happ & _); try done.
  { split; [done|]. by exists info. }
  exists st', l, e', (interpreted i s).
  assert (Hcat : catalogued i).
  { destruct (row_facts i info Hi Hin) as (_ & _ & Hid & _). by exists info. }
  destruct (integer_lifts fuel w g i Hcat Hc) as [_ Hdone].
  split_and!; [|done|done|by apply (ap_grow _ _ _ _ _ _ _ _ _ _ Happ)|by apply (ap_exec _ _ _ _ _ _ _ _ _ _ Happ)].
  unfold interpreted. rewrite (surjective_pairing (execute_integer i s)). by rewrite Hdone.
Qed.
End Parity.

(** ** The interpreter and the register file *)

(** C36: the interpreter keeps every register within its width and number range, and an
    integer instruction leaves the link register and the program counters alone. *)
Theorem interpreter_keeps_registers i s :
  wf_state s ->
  let s' := (execute_integer i s).2 in wf_state s' /\ lr s' = lr s /\ cia s' = cia s /\ nia s' = nia s.
Proof.
  intros Hs s'. split; [by apply execute_integer_wf|].
  pose proof (execute_integer_aside (lr s) (cia s) (nia s) i s) as E. rewrite aside_self in E. unfold s'. by rewrite E.
Qed.

(** ** The rotate masks *)

Lemma arch_bits_testbit width bits acc n :
  Forall (λ p, 0 <= p < width) bits -> 0 <= n ->
  Z.testbit (foldl (λ mask p, mask .| (1 .<< (width - 1 - p))) acc bits) n =
    Z.testbit acc n || bool_decide (width - 1 - n ∈ bits).
Proof.
  intros Hbits Hn. revert acc. induction Hbits as [|p bits Hp _ IH]; intros acc; cbn [foldl].
  - rewrite bool_decide_eq_false_2 by apply not_elem_of_nil. by rewrite orb_false_r.
  - rewrite IH, Z.lor_spec, Z.shiftl_1_l, Z.pow2_bits_eqb by lia. rewrite <- orb_assoc. f_equal.
    rewrite (bool_decide_ext (width - 1 - n ∈ p :: bits) (width - 1 - n = p \/ width - 1 - n ∈ bits))
      by apply elem_of_cons.
    rewrite bool_decide_or. f_equal. apply eq_true_iff_eq. rewrite Z.eqb_eq, bool_decide_eq_true. lia.
Qed.

Lemma rotate_mask_testbit width mb me p :
  0 <= mb < width -> 0 <= me < width -> 0 <= p < width ->
  Z.testbit (rotate_mask width mb me) (width - 1 - p) =
    if mb <=? me then (mb <=? p) && (p <=? me) else (mb <=? p) || (p <=? me).
Proof.
  intros Hb He Hp. unfold rotate_mask, arch_bits. destruct (Z.leb_spec mb me).
  - rewrite arch_bits_testbit, Z.testbit_0_l by (try apply Forall_forall; intros; rewrite ?elem_of_seqZ in *; lia).
    apply eq_true_iff_eq. cbn [orb]. rewrite bool_decide_eq_true, elem_of_seqZ, andb_true_iff, !Z.leb_le. lia.
  - rewrite arch_bits_testbit, Z.testbit_0_l
      by (try apply Forall_forall; intros; rewrite ?elem_of_app, ?elem_of_seqZ in *; lia).
    apply eq_true_iff_eq. cbn [orb].
    rewrite bool_decide_eq_true, elem_of_app, !elem_of_seqZ, orb_true_iff, !Z.leb_le. lia.
Qed.

(** The rotate masks of the word and doubleword rotates: architectural bit [p]
    (bit 0 is the most significant) is set exactly when it lies in the range from
    [mb] to [me], which wraps around when [mb > me]; the masks fit their width. *)
Theorem rotate_masks_spec mb me p :
  let inside lo hi := if lo <=? hi then (lo <=? p) && (p <=? hi) else (lo <=? p) || (p <=? hi) in
  (0 <= p < 64 -> Z.testbit (mask64 mb me) (63 - p) = inside (mb mod 64) (me mod 64)) /\
  (0 <= p < 32 -> Z.testbit (mask32 mb me) (31 - p) = inside (mb mod 32) (me mod 32)) /\
  is_u64 (mask64 mb me) /\ is_u32 (mask32 mb me).
Proof.
  cbv zeta. split_and!; [intros Hp|intros Hp|apply mask64_range|apply mask32_range].
  - unfold mask64. change 63 with (Z.ones 6) at 1 2. rewrite !Z.land_ones by lia.
    apply (rotate_mask_testbit 64); [apply Z.mod_pos_bound; lia|apply Z.mod_pos_bound; lia|done].
  - unfold mask32. change 31 with (Z.ones 5) at 1 2. rewrite !Z.land_ones by lia.
    apply (rotate_mask_testbit 32); [apply Z.mod_pos_bound; lia|apply Z.mod_pos_bound; lia|done].
Qed.

(** ** Where the two paths part *)

(** [nego], [mulldo], [mullwo] and the [o] forms of the divisions are executed by
    the interpreter without touching XER, whatever the overflow of the operation. *)
Theorem interpreter_ignores_overflow i s :
  one_of (mnemonic i) ["negx"; "mulldx"; "mullwx"; "divdx"; "divdux"; "divwx"; "divwux"] = true ->
  (execute_integer i s).1 = true /\ xer (execute_integer i s).2 = xer s.
Proof.
  intros Hm. unfold execute_integer.
  mnemonic_cases Hm; mnemonic Hm; (split; [done|]); cbn [snd].
  all: unfold execute_neg, execute_mul, execute_div, record; by case_match.
Qed.

(** Setting the carry flag again, after an instruction recorded its result in CR0. *)
Lemma set_xer_ca_record i x b c s :
  set_xer_ca b (record i x (set_xer_ca c s)) = record i x (set_xer_ca b s).
Proof.
  unfold record, update_cr0_signed, set_xer_ca, xer_so. destruct (rc i); cbn; rewrite ?flag_update_twice; [|done].
  by rewrite !flag_set_other.
Qed.

Lemma xer_ca_record i x b s : xer_ca (record i x (set_xer_ca b s)) = b.
Proof. unfold record, update_cr0_signed, set_xer_ca, xer_ca. destruct (rc i); cbn; by rewrite flag_set_update. Qed.

(** The registers after [i] has stored the shifted value. *)
Definition shifted (i : DecodedInstruction) (s : CpuState) : CpuState :=
  set_gpr (ra i) (ppc_shift (mnemonic i) (get_gpr s (rs i)) (shift_amount i s)) s.

Definition algebraic_carry (i : DecodedInstruction) (s : CpuState) : bool :=
  ppc_shift_carry (mnemonic i) (get_gpr s (rs i)) (shift_amount i s).

(** The interpreter computes the carry from the registers it has just written. *)
Lemma interpreted_algebraic i s :
  one_of (mnemonic i) ["srawx"; "sradx"; "srawix"; "sradix"] = true ->
  (execute_integer i s).1 = true /\
  interpreted i s =
    record i (ppc_shift (mnemonic i) (get_gpr s (rs i)) (shift_amount i s))
      (set_xer_ca (algebraic_carry i (shifted i s)) (shifted i s)).
Proof.
  intros Hm. unfold interpreted, execute_integer, algebraic_carry, shifted, shift_amount.
  mnemonic_cases Hm; mnemonic Hm; (split; [done|]); cbn [snd]; unfold execute_shift, execute_shift_immediate;
    cbv zeta; by mnemonic Hm.
Qed.

Section AlgebraicShift.
Context {W : Type} `{MemoryPort W, RuntimeServices W, HostHelpers W}.

(** C37: on every algebraic right shift ([sraw], [srad] and their immediate forms, in
    place or not) the lifted IR and the interpreter agree on everything but CA. The IR
    sets CA to the carry of the operands; the interpreter sets it to the carry of the
    registers in which the result has already replaced the destination. So the two
    states are equal exactly when these carries are, as they are when the destination
    is none of the registers read. *)
Theorem algebraic_shift_carry fuel address word st e (m : Machine W) :
  let i := decode address word in let s := m_cpu m in
  is_u32 word -> one_of (mnemonic i) ["srawx"; "sradx"; "srawix"; "sradix"] = true ->
  bl_current_guest st = None -> ready 64 st e -> wf_state s ->
  exists st' l e' s',
    execute_integer i s = (true, s') /\ xer_ca s' = algebraic_carry i (shifted i s) /\
    lift i st = Some (true, st') /\ bl_instructions st' = bl_instructions st ++ l /\ e ⊆ e' /\
    exec_list fuel Lifted l e m =
      Some (Continue e' (mkMachine (set_xer_ca (algebraic_carry i s) s') (m_world m) (m_materialized m))) /\
    (set_xer_ca (algebraic_carry i s) s' = s' <-> algebraic_carry i s = algebraic_carry i (shifted i s)) /\
    (ra i <> rs i -> (one_of (mnemonic i) ["srawx"; "sradx"] = true -> ra i <> rb i) ->
     algebraic_carry i s = algebraic_carry i (shifted i s)).
Proof.
  intros i s Hw Hm Hg Hr Hs. subst s. destruct m as [s w g]. cbn [m_cpu m_world m_materialized] in *.
  destruct (interpreted_algebraic i s Hm) as [Hdone Hint].
  assert (Hrow : exists info, di_info i = Some info /\ info ∈ kCatalog).
  { unfold mnemonic in Hm. destruct (di_info i) as [info|] eqn:Ei; [|done].
    exists info. split; [done|]. by eapply decode_catalogued. }
  assert (Hl : lifts fuel w g (lift_integer i) (algebraic_shift i)).
  { destruct Hrow as (info & Hi & Hin). destruct (row_facts i info Hi Hin) as (_ & _ & Hid & _).
    pose proof (lift_algebraic_lifts fuel w g i ltac:(by exists info) Hm) as Hl.
    unfold lift_integer. mnemonic_cases Hm; by mnemonic Hm. }
  destruct (lift_lifts fuel w g i (algebraic_shift i) st e s) as (st' & l & e' & El & Happ & _ & Ha & _);
    [mnemonic_cases Hm; by mnemonic Hm|done..|].
  assert (Halg : algebraic_shift i s = set_xer_ca (algebraic_carry i s) (interpreted i s)).
  { rewrite Hint, set_xer_ca_record. done. }
  exists st', l, e', (interpreted i s). split_and!; try done.
  - unfold interpreted. rewrite (surjective_pairing (execute_integer i s)). by rewrite Hdone.
  - rewrite Hint. apply xer_ca_record.
  - by apply (ap_grow _ _ _ _ _ _ _ _ _ _ Ha).
  - rewrite <- Halg. by apply (ap_exec _ _ _ _ _ _ _ _ _ _ Ha).
  - rewrite Hint, set_xer_ca_record. split; [|by intros <-].
    intros E. apply (f_equal xer_ca) in E. by rewrite !xer_ca_record in E.
  - intros Hrs Hrb. unfold algebraic_carry, shift_amount, shifted. rewrite get_gpr_set_ne by done.
    destruct (one_of (mnemonic i) ["srawx"; "sradx"]); [|done]. by rewrite get_gpr_set_ne by auto.
Qed.
End AlgebraicShift.

(** [srawi r3, r3, 1] on [r3 = 0xFFFFFFFFFFFFFFFD]: the operand carries, the result does not. *)
Definition odd_negative : Machine FlatMemory :=
  mkMachine (set_gpr 3 0xFFFFFFFFFFFFFFFD CpuState_init) (flat_init 64 0) None.

(** ** Witnesses *)

(** [addi r3, 0, 5; addc r4, r3, r3; and. r5, r4, r3] *)
Definition sample_words : list Z := [0x38600005; 0x7C831814; 0x7C851839].
Definition sample_range : FunctionCodeRange := mkRange 0x82001000 sample_words.
Definition sample_decoded : Decoded :=
  match decode_ranges [sample_range] [] with inr d => d | inl _ => [] end.
Definition sample_function : Function :=
  match lift_function 0x82001000 [sample_range] with inr f => f | inl _ => mkFunction 0 [] end.

Lemma sample_range_wf : Forall range_wf [sample_range].
Proof. repeat constructor; unfold is_u32; cbn; lia. Qed.

Lemma sample_room : 64 * Z.of_nat (length sample_decoded) <= kNoValue.
Proof. apply Z.leb_le. vm_compute. reflexivity. Qed.

Lemma compiled_blocks_interpret_witness :
  lift_function 0x82001000 [sample_range] = inr sample_function /\
  forallb (λ x, comparable x.2) sample_decoded = true /\
  exists runs, sample_decoded = concat runs /\ Forall2 (λ run b,
    run <> [] /\ fst <$> head run = Some (b_guest_address b) /\
    (Forall (λ x, comparable x.2 = true) run -> forall m : Machine FlatMemory, wf_state (m_cpu m) ->
      run_body 10 Emitted (b_instructions (Optimizer_run b)) m =
        Some (FellThrough (mkMachine (interpret_all run (m_cpu m)) (m_world m) (m_materialized m)))))
    runs (f_blocks sample_function).
Proof.
  assert (E : lift_function 0x82001000 [sample_range] = inr sample_function) by (vm_compute; reflexivity).
  assert (D : decode_ranges [sample_range] [] = inr sample_decoded) by (vm_compute; reflexivity).
  split_and!; [exact E|vm_compute; reflexivity|].
  exact (compiled_blocks_interpret (W := FlatMemory) 0x82001000 [sample_range] sample_function sample_decoded 10
    sample_range_wf E D sample_room).
Defined.

Lemma integer_instruction_parity_witness :
  let i := decode 0x82001004 0x7C831814 in
  comparable i = true /\
  exists st' l e' s',
    execute_integer i CpuState_init = (true, s') /\
    lift i new_builder = Some (true, st') /\ bl_instructions st' = [] ++ l /\ ∅ ⊆ e' /\
    exec_list 10 Lifted l ∅ rest = Some (Continue e' (mkMachine s' (flat_init 64 0) None)).
Proof.
  intros i. assert (Hc : comparable i = true) by (vm_compute; reflexivity). split; [exact Hc|].
  refine (integer_instruction_parity (W := FlatMemory) 10 0x82001004 0x7C831814 new_builder ∅ rest
    _ Hc eq_refl _ wf_init); [|split; [apply env_ok_empty| |]]; cbn; unfold is_u32, kNoValue; lia.
Defined.

Lemma interpreter_keeps_registers_witness :
  let s' := (execute_integer (decode 0x82001000 0x38600005) CpuState_init).2 in
  wf_state s' /\ lr s' = 0 /\ cia s' = 0 /\ nia s' = 0.
Proof. exact (interpreter_keeps_registers (decode 0x82001000 0x38600005) CpuState_init wf_init). Defined.

Lemma interpreter_ignores_overflow_witness :
  let i := decode 0x82001000 0x7C8304D0 in
  let s := set_gpr 3 0x8000000000000000 CpuState_init in
  overflow_form i = true /\ get_gpr (execute_integer i s).2 4 = 0x8000000000000000 /\
  xer (execute_integer i s).2 = xer s.
Proof.
  intros i s. assert (Ho : overflow_form i = true) by (vm_compute; reflexivity).
  split_and!; [exact Ho|vm_compute; reflexivity|].
  refine (proj2 (interpreter_ignores_overflow i s _)). vm_compute. reflexivity.
Defined.

Lemma odd_negative_wf : wf_state (m_cpu odd_negative).
Proof. apply wf_set_gpr; [apply wf_init|lia|unfold is_u64; lia]. Qed.

Lemma algebraic_shift_carry_witness :
  let i := decode 0x82000000 0x7C630E70 in let s := m_cpu odd_negative in
  algebraic_carry i s = true /\ algebraic_carry i (shifted i s) = false /\
  exists st' l e' s',
    execute_integer i s = (true, s') /\ xer_ca s' = algebraic_carry i (shifted i s) /\
    lift i new_builder = Some (true, st') /\ bl_instructions st' = [] ++ l /\ ∅ ⊆ e' /\
    exec_list 10 Lifted l ∅ odd_negative =
      Some (Continue e' (mkMachine (set_xer_ca (algebraic_carry i s) s') (flat_init 64 0) None)) /\
    (set_xer_ca (algebraic_carry i s) s' = s' <-> algebraic_carry i s = algebraic_carry i (shifted i s)) /\
    (ra i <> rs i -> (one_of (mnemonic i) ["srawx"; "sradx"] = true -> ra i <> rb i) ->
     algebraic_carry i s = algebraic_carry i (shifted i s)).
Proof.
  intros i s. split_and!; [vm_compute; reflexivity|vm_compute; reflexivity|].
  refine (algebraic_shift_carry (W := FlatMemory) 10 0x82000000 0x7C630E70 new_builder ∅ odd_negative
    _ _ eq_refl _ odd_negative_wf); [|vm_compute; reflexivity|split; [apply env_ok_empty| |]];
    cbn; unfold is_u32, kNoValue; lia.
Defined.
