(* ===== verification/CompilerProps.v ===== *)
(** * What the function compiler promises

    Decoded ranges always lift; the blocks partition the instructions, start at the
    leaders and are well formed for the optimiser; the verifier accepts every block
    but those that set OV and SO, and functions with such a block do not compile. *)

From Stdlib Require Import Sorted.
From S2P Require Import Prelude.
From S2P Require Import Words.
From S2P Require Import Instr.
From S2P Require Import Decoder.
From S2P Require Import Ir.
From S2P Require Import Verifier.
From S2P Require Import VerifierSpec.
From S2P Require Import IrValue.
From S2P Require Import PassSim.
From S2P Require Import Lift.
From S2P Require Import LiftStatic.
From S2P Require Import LiftTotal.
From S2P Require Import ControlFlow.
From S2P Require Import FunctionCompiler.
From S2P Require Import FunctionCompilerSpec.

Section Function.
Context (entry : GuestAddress) (ranges : list FunctionCodeRange).
Hypothesis Hranges : Forall range_wf ranges.
Hypothesis Hfits : fits ranges.

(** C35: lifting succeeds exactly on the inputs whose ranges decode, cover the entry and
    have no direct branch between their instructions: no decoded instruction lacks a
    lowering and no container operation throws. *)
Theorem lift_function_succeeds :
  (exists f, lift_function entry ranges = inr f) <-> (exists d, decoded_input entry ranges d).
Proof using Hranges Hfits.
  split.
  - intros [f E]. by eapply lift_function_input.
  - intros [d Hin]. pose proof Hin as (_ & Hd & _).
    destruct (lift_function_total entry ranges d Hranges Hin (fits_decoded _ _ Hfits Hd)) as (f & _ & E & _).
    by exists f.
Qed.
End Function.

(** C4: the blocks of a lifted function cut its decoded instructions into consecutive
    runs of adjacent addresses, in address order; a block starts at the first address
    of its run and ends after the last; and the entry, the start of each range, every
    decoded direct-branch target and every decoded successor of an instruction that
    ends a block start a block of their own. *)
Theorem lifted_blocks_partition entry ranges f :
  Forall range_wf ranges -> fits ranges -> lift_function entry ranges = inr f ->
  exists d runs, decode_ranges ranges [] = inr d /\ d = concat runs /\
    Forall2 (λ run b, fst <$> head run = Some (b_guest_address b) /\ contiguous run /\
      exists a i, last run = Some (a, i) /\ b_end_address b = u32 (a + 4)) runs (f_blocks f) /\
    StronglySorted Z.lt (b_guest_address <$> f_blocks f) /\
    entry ∈ b_guest_address <$> f_blocks f /\
    forall a, a ∈ leaders entry ranges d -> decoded_contains d a = true ->
      a ∈ b_guest_address <$> f_blocks f.
Proof.
  intros Hr Hf E. destruct (lift_function_runs entry ranges Hr Hf f E) as (d & runs & Hd & He & [Ho _] & Hl).
  assert (Hlead : forall a, a ∈ leaders entry ranges d -> decoded_contains d a = true ->
    a ∈ b_guest_address <$> f_blocks f).
  { intros a Ha Hc%contains_elem. rewrite (lf_runs _ _ _ _ _ Hl) in Hc.
    by eapply leader_starts; [apply (lf_blocks _ _ _ _ _ Hl)| |]. }
  exists d, runs. split_and!; [done|apply (lf_runs _ _ _ _ _ Hl)| | | |done].
  - eapply Forall2_impl; [apply (lf_blocks _ _ _ _ _ Hl)|]. by intros run b [].
  - eapply starts_sorted; [|by eapply lifted_starts]. by rewrite <- (lf_runs _ _ _ _ _ Hl).
  - apply Hlead; [|done]. unfold leaders. set_solver.
Qed.

(** ** Blocks, the optimiser and the verifier *)

Lemma lifted_block_ordered d runs run : map_ok d -> d = concat runs -> run ∈ runs ->
  ordered run /\ Forall entry_ok run.
Proof.
  intros [Ho Hd] -> Hin. split; [by eapply ordered_concat|].
  rewrite Forall_forall in *. intros x Hx. apply Hd. apply list_elem_of_In, in_concat. exists run.
  by rewrite <- !list_elem_of_In.
Qed.

(** C6: every block of a lifted function is single-definition, well-formed IR, so that
    the optimiser's contract applies to it; and the verifier accepts it exactly when
    none of its instructions is an [o] form, which records the overflow. *)
Theorem lifted_blocks_well_formed entry ranges f :
  Forall range_wf ranges -> fits ranges -> lift_function entry ranges = inr f ->
  exists d runs, decode_ranges ranges [] = inr d /\ d = concat runs /\
    Forall2 (λ run b, body_ok (b_instructions b) = true /\
      vr_ok (verify_block_impl b true) = forallb (λ x, negb (overflow_form x.2)) run) runs (f_blocks f).
Proof.
  intros Hr Hf E. destruct (lift_function_runs entry ranges Hr Hf f E) as (d & runs & Hd & _ & Hok & Hl).
  exists d, runs. split_and!; [done|apply (lf_runs _ _ _ _ _ Hl)|].
  pose proof (lf_blocks _ _ _ _ _ Hl) as Hb. apply Forall2_same_length_lookup. split; [by eapply Forall2_length|].
  intros k run b Hrun Hblock. pose proof (Forall2_lookup_lr _ _ _ _ _ _ Hb Hrun Hblock) as Hk.
  destruct (lifted_block_ordered d runs run Hok (lf_runs _ _ _ _ _ Hl)) as [Hor Hen].
  { by eapply list_elem_of_lookup_2. }
  split; [apply (bk_body _ _ _ Hk)|]. by eapply block_verifies.
Qed.

(** A function with an [o] form anywhere in its ranges never compiles: the
    verifier rejects it before optimisation. *)
Theorem overflow_forms_never_compile entry ranges f d a i :
  Forall range_wf ranges -> fits ranges -> lift_function entry ranges = inr f ->
  decode_ranges ranges [] = inr d -> (a, i) ∈ d -> overflow_form i = true ->
  exists e address, compile_ranges entry ranges = inl (mkFailure (RejectedBefore e) address 0).
Proof.
  intros Hr Hf E Hd Hin Hov. destruct (lift_function_runs entry ranges Hr Hf f E) as (d' & runs & Hd' & _ & Hok & Hl).
  assert (d' = d) as -> by congruence. unfold compile_ranges. rewrite E.
  assert (Hbad : vr_ok (verify_function f) = false); [|by rewrite Hbad; eexists _, _].
  apply not_true_is_false. rewrite verify_function_accepted. intros [_ _ Hblocks _ _ _].
  rewrite (lf_runs _ _ _ _ _ Hl) in Hin. apply list_elem_of_In, in_concat in Hin as (run & Hrun & Hin).
  apply list_elem_of_In in Hrun, Hin. destruct (list_elem_of_lookup_1 _ _ Hrun) as [k Hk].
  destruct (Forall2_lookup_l _ _ _ _ _ (lf_blocks _ _ _ _ _ Hl) Hk) as (b & Hb & Hlift).
  destruct (lifted_block_ordered d runs run Hok (lf_runs _ _ _ _ _ Hl) Hrun) as [Hor Hen].
  pose proof (block_verifies _ run b Hor Hen Hlift) as Hv.
  assert (Hacc : vr_ok (verify_block_impl b true) = true).
  { apply verify_block_rules, Hblocks. by eapply list_elem_of_lookup_2. }
  rewrite Hacc in Hv. symmetry in Hv. unfold all_plain in Hv. rewrite forallb_forall in Hv.
  specialize (Hv (a, i) (proj1 (list_elem_of_In _ _) Hin)). cbn in Hv. by rewrite Hov in Hv.
Qed.

(** Every word the decoder knows has a lowering: the lifter answers true and appends
    at least one instruction, each tagged with the guest instruction. *)
Theorem decoded_words_lower address word :
  is_u32 word -> valid (decode address word) = true ->
  exists st l, lift (decode address word) new_builder = Some (true, st) /\
    bl_instructions st = l /\ l <> [] /\ Forall (from_guest (decode address word)) l /\ body_ok l = true.
Proof.
  intros Hw Hv. set (i := decode address word) in *.
  unfold valid in Hv. destruct (di_info i) as [info|] eqn:Hi; [|done].
  pose proof (decode_catalogued address word info Hw Hi) as Hrow.
  destruct (lift_appends i info Hi Hrow new_builder kBudget false true start_cursor eq_refl)
    as (st & l & k' & room & closed & E & Hl & Hne & _ & _ & HF & _).
  { refine (cursor_at kBudget start_cursor (Z.le_refl _) _). by apply start_cursor_ok. }
  exists st, l. split_and!; [done|done|done|apply (fr_origin _ _ _ _ HF)|].
  apply body_ok_spec. split; [apply (fr_ssa _ _ _ _ HF)|apply (fr_wf _ _ _ _ HF)].
Qed.

(** ** Witnesses *)

(** [li r3, 0; cmpwi r3, 0; beq +8; addi r4, r4, 1; blr] *)
Definition demo_entry : GuestAddress := 0x82001000.
Definition demo_range : FunctionCodeRange :=
  mkRange demo_entry [0x38600000; 0x2C030000; 0x41820008; 0x38840001; 0x4E800020].
Definition demo_function : Function :=
  match lift_function demo_entry [demo_range] with inr f => f | inl _ => mkFunction 0 [] end.

(** [addo r3, r4, r5; blr] *)
Definition overflow_range : FunctionCodeRange := mkRange demo_entry [0x7C642E14; 0x4E800020].
Definition overflow_function : Function :=
  match lift_function demo_entry [overflow_range] with inr f => f | inl _ => mkFunction 0 [] end.
Definition overflow_decoded : Decoded :=
  match decode_ranges [overflow_range] [] with inr d => d | inl _ => [] end.

Lemma range_list_wf (r : FunctionCodeRange) :
  (0 <=? fr_base r) && (fr_base r <? 0x100000000) &&
    forallb (λ w, (0 <=? w) && (w <? 0x100000000)) (fr_words r) = true -> Forall range_wf [r].
Proof.
  rewrite !andb_true_iff, forallb_forall. intros [[H1 H2] H3]. constructor; [|constructor].
  split; [by split; [apply Z.leb_le|apply Z.ltb_lt]|]. apply Forall_forall. intros w Hw%list_elem_of_In.
  specialize (H3 w Hw). apply andb_true_iff in H3 as [? ?]. by split; [apply Z.leb_le|apply Z.ltb_lt].
Qed.

Lemma demo_wf : Forall range_wf [demo_range] /\ fits [demo_range] /\
  lift_function demo_entry [demo_range] = inr demo_function.
Proof.
  split_and!; [by apply range_list_wf|apply Z.leb_le; vm_compute; reflexivity|vm_compute; reflexivity].
Qed.

Lemma overflow_wf : Forall range_wf [overflow_range] /\ fits [overflow_range] /\
  lift_function demo_entry [overflow_range] = inr overflow_function /\
  decode_ranges [overflow_range] [] = inr overflow_decoded.
Proof.
  split_and!; [by apply range_list_wf|apply Z.leb_le; vm_compute; reflexivity|vm_compute; reflexivity|
    vm_compute; reflexivity].
Qed.

Lemma lift_function_succeeds_witness : exists d, decoded_input demo_entry [demo_range] d.
Proof.
  destruct demo_wf as (Hr & Hf & E).
  exact (proj1 (lift_function_succeeds demo_entry [demo_range] Hr Hf) (ex_intro _ demo_function E)).
Defined.

Lemma lifted_blocks_partition_witness :
  b_guest_address <$> f_blocks demo_function = [0x82001000; 0x8200100C; 0x82001010] /\
  StronglySorted Z.lt (b_guest_address <$> f_blocks demo_function).
Proof.
  split; [vm_compute; reflexivity|]. destruct demo_wf as (Hr & Hf & E).
  destruct (lifted_blocks_partition demo_entry [demo_range] demo_function Hr Hf E)
    as (d & runs & _ & _ & _ & Hs & _). exact Hs.
Defined.

Lemma lifted_blocks_well_formed_witness :
  exists d runs, decode_ranges [demo_range] [] = inr d /\ d = concat runs /\
    Forall2 (λ run b, body_ok (b_instructions b) = true /\
      vr_ok (verify_block_impl b true) = forallb (λ x, negb (overflow_form x.2)) run) runs (f_blocks demo_function).
Proof.
  destruct demo_wf as (Hr & Hf & E).
  exact (lifted_blocks_well_formed demo_entry [demo_range] demo_function Hr Hf E).
Defined.

Lemma overflow_forms_never_compile_witness :
  exists e address, compile_ranges demo_entry [overflow_range] = inl (mkFailure (RejectedBefore e) address 0).
Proof.
  destruct overflow_wf as (Hr & Hf & E & Hd).
  refine (overflow_forms_never_compile demo_entry [overflow_range] overflow_function overflow_decoded
    demo_entry (decode demo_entry 0x7C642E14) Hr Hf E Hd _ _).
  - apply (list_elem_of_lookup_2 _ 0). vm_compute. reflexivity.
  - vm_compute. reflexivity.
Defined.

Lemma decoded_words_lower_witness :
  exists st l, lift (decode 0 0x7C642E14) new_builder = Some (true, st) /\
    bl_instructions st = l /\ l <> [] /\ Forall (from_guest (decode 0 0x7C642E14)) l /\ body_ok l = true.
Proof.
  refine (decoded_words_lower 0 0x7C642E14 _ _); [unfold is_u32; lia|vm_compute; reflexivity].
Defined.
