(* ===== verification/Dispatcher.v ===== *)
(** * The dispatcher: waitable objects and wait blocks
    (src/kernel/synchronization/wait.cpp, event.cpp, semaphore.cpp, mutant.cpp,
    timer.cpp and their headers under include/xenon/kernel/)

    Every operation below runs under the dispatcher lock in the code and is one
    function on the dispatcher's state here. Objects and wait blocks are named by
    numbers, which stand for their addresses. Times are left to the caller: a wait
    is told whether it is infinite or has a zero timeout. *)

From stdpp Require Import sorting.
From S2P Require Import Prelude.
From S2P Require Import Words.

Abbreviation ObjectId := Z.
Abbreviation BlockId := Z.
Abbreviation ThreadId := Z.

(** ** Objects *)

(** The state each kind keeps under the dispatcher lock; for a thread, the flags a
    wait reads. *)
Inductive ObjectState : Type :=
  | EventState (manual_reset signaled : bool)
  | SemaphoreState (count maximum_count : Z)
  | MutantState (owner_thread_id owner_host_thread recursion_count : Z) (abandoned : bool)
  | TimerState (synchronization signaled active periodic : bool)
  | ThreadState (terminated alerted user_apc_pending : bool).

(** [ob_mirror] is the guest-memory copy of the state, when one is attached;
    [ob_waiters] is the [MultiWaitList], oldest registration first. *)
Record KernelObject : Type := mkObject {
  ob_state : ObjectState;
  ob_mirror : option Z;
  ob_waiters : list BlockId
}.

Definition set_state (x : ObjectState) (o : KernelObject) : KernelObject :=
  mkObject x (ob_mirror o) (ob_waiters o).
Definition set_waiters (l : list BlockId) (o : KernelObject) : KernelObject :=
  mkObject (ob_state o) (ob_mirror o) l.

(** [if (mirror_) mirror_->store(value)]. *)
Definition mirror_store (value : Z) (o : KernelObject) : KernelObject :=
  mkObject (ob_state o) (const value <$> ob_mirror o) (ob_waiters o).

(** [store_state_locked] of an event, [mirror_->store(count_)] of a semaphore. *)
Definition store_state (o : KernelObject) : KernelObject :=
  match ob_state o with
  | EventState _ signaled => mirror_store (Z.b2z signaled) o
  | SemaphoreState count _ => mirror_store count o
  | _ => o
  end.

(** ** Wait blocks *)

Record MultiWaitBlock : Type := mkWaitBlock {
  wb_objects : list ObjectId;
  wb_distinct : list ObjectId;
  wb_wait_all : bool;
  wb_thread_id : ThreadId;
  wb_host_thread : Z;
  wb_granted : bool;
  wb_index : Z;
  wb_abandoned : bool;
  wb_wakeups : Z
}.

Definition wake (b : MultiWaitBlock) : MultiWaitBlock :=
  mkWaitBlock (wb_objects b) (wb_distinct b) (wb_wait_all b) (wb_thread_id b) (wb_host_thread b)
    (wb_granted b) (wb_index b) (wb_abandoned b) (wb_wakeups b + 1).

(** [grant]. *)
Definition grant (index : Z) (abandoned : bool) (b : MultiWaitBlock) : MultiWaitBlock :=
  mkWaitBlock (wb_objects b) (wb_distinct b) (wb_wait_all b) (wb_thread_id b) (wb_host_thread b)
    true index abandoned (wb_wakeups b + 1).

Record Dispatcher : Type := mkDispatcher {
  objects : gmap ObjectId KernelObject;
  blocks : gmap BlockId MultiWaitBlock
}.

Definition set_objects (m : gmap ObjectId KernelObject) (d : Dispatcher) : Dispatcher :=
  mkDispatcher m (blocks d).
Definition update_object (f : KernelObject -> KernelObject) (o : ObjectId) (d : Dispatcher) : Dispatcher :=
  set_objects (alter f o (objects d)) d.

(** ** Satisfying waits *)

(** [WaitAccess::can_satisfy] and the objects' [can_satisfy_locked]. *)
Definition can_satisfy_state (x : ObjectState) (thread : ThreadId) : bool :=
  match x with
  | EventState _ signaled => signaled
  | SemaphoreState count _ => 0 <? count
  | MutantState owner _ recursion _ => (recursion =? 0) || (owner =? thread)
  | TimerState _ signaled _ _ => signaled
  | ThreadState terminated _ _ => terminated
  end.

Definition can_satisfy (m : gmap ObjectId KernelObject) (thread : ThreadId) (o : ObjectId) : bool :=
  match m !! o with Some x => can_satisfy_state (ob_state x) thread | None => false end.

(** [++recursion_count_] and [--recursion_count_] of an [std::int32_t]. C++ leaves an
    overflow undefined; here it wraps around, as the processor's addition does. *)
Definition increment (n : Z) : Z := if n =? 0x7FFFFFFF then -0x80000000 else n + 1.
Definition decrement (n : Z) : Z := if n =? -0x80000000 then 0x7FFFFFFF else n - 1.

(** [WaitAccess::satisfy] and [satisfy_locked]: the object after the wait took it, and
    whether the wait took over an abandoned mutant. *)
Definition satisfy_object (thread : ThreadId) (host : Z) (o : KernelObject) : KernelObject * bool :=
  match ob_state o with
  | EventState true _ => (o, false)
  | EventState false _ => (mirror_store 0 (set_state (EventState false false) o), false)
  | SemaphoreState count maximum =>
      (mirror_store (count - 1) (set_state (SemaphoreState (count - 1) maximum) o), false)
  | MutantState owner owner_host recursion abandoned =>
      if 0 <? recursion then (set_state (MutantState owner owner_host (increment recursion) abandoned) o, false)
      else (set_state (MutantState thread host 1 false) o, abandoned)
  | TimerState true _ active periodic => (set_state (TimerState true false active periodic) o, false)
  | TimerState false _ _ _ | ThreadState _ _ _ => (o, false)
  end.

Definition satisfy (thread : ThreadId) (host : Z) (o : ObjectId) (m : gmap ObjectId KernelObject)
    : gmap ObjectId KernelObject * bool :=
  match m !! o with
  | Some x => let '(x, abandoned) := satisfy_object thread host x in (<[o := x]> m, abandoned)
  | None => (m, false)
  end.

(** [for (auto* object : distinct) if (satisfy(...)) abandoned = true]. *)
Fixpoint satisfy_all (thread : ThreadId) (host : Z) (l : list ObjectId) (m : gmap ObjectId KernelObject)
    (abandoned : bool) : gmap ObjectId KernelObject * bool :=
  match l with
  | [] => (m, abandoned)
  | o :: l => let '(m, taken) := satisfy thread host o m in
              satisfy_all thread host l m (if taken : bool then true else abandoned)
  end.

(** [try_satisfy_wait]: the objects, the index and whether a mutant was abandoned. *)
Definition try_satisfy_wait (b : MultiWaitBlock) (m : gmap ObjectId KernelObject)
    : option (gmap ObjectId KernelObject * Z * bool) :=
  let thread := wb_thread_id b in
  let host := wb_host_thread b in
  if wb_wait_all b then
    if forallb (can_satisfy m thread) (wb_distinct b) then
      let '(m, abandoned) := satisfy_all thread host (wb_distinct b) m false in Some (m, 0, abandoned)
    else None
  else
    match list_find (λ o, can_satisfy m thread o = true) (wb_objects b) with
    | Some (i, o) =>
        let '(m, abandoned) := satisfy thread host o m in Some (m, Z.of_nat i, abandoned)
    | None => None
    end.

(** One iteration of [satisfy_waiters_locked]. *)
Definition satisfy_waiter (d : Dispatcher) (b : BlockId) : Dispatcher :=
  match blocks d !! b with
  | None => d
  | Some wb =>
      if wb_granted wb || match wb_objects wb with [] => true | _ => false end then d
      else match try_satisfy_wait wb (objects d) with
           | None => d
           | Some (m, index, abandoned) => mkDispatcher m (<[b := grant index abandoned wb]> (blocks d))
           end
  end.

Definition waiters (o : ObjectId) (d : Dispatcher) : list BlockId :=
  match objects d !! o with Some x => ob_waiters x | None => [] end.

Definition satisfy_waiters (o : ObjectId) (d : Dispatcher) : Dispatcher :=
  foldl satisfy_waiter d (waiters o d).

(** [notify_always]. *)
Definition notify_always (o : ObjectId) (d : Dispatcher) : Dispatcher :=
  mkDispatcher (objects d) (foldl (λ m b, alter wake b m) (blocks d) (waiters o d)).

(** ** Events *)

Definition event_signaled (v : bool) (o : KernelObject) : KernelObject :=
  match ob_state o with EventState manual _ => set_state (EventState manual v) o | _ => o end.

Definition event_set (o : ObjectId) (d : Dispatcher) : Dispatcher :=
  update_object store_state o (satisfy_waiters o (update_object (event_signaled true) o d)).

Definition event_pulse (o : ObjectId) (d : Dispatcher) : Dispatcher :=
  update_object (store_state ∘ event_signaled false) o
    (satisfy_waiters o (update_object (event_signaled true) o d)).

Definition event_reset (o : ObjectId) (d : Dispatcher) : Dispatcher :=
  update_object (store_state ∘ event_signaled false) o d.

Definition signaled (o : ObjectId) (d : Dispatcher) : bool :=
  match ob_state <$> objects d !! o with
  | Some (EventState _ v) | Some (TimerState _ v _ _) => v
  | _ => false
  end.

(** [attach_signal_state_mirror] of an event or a semaphore; the word held [value]. *)
Definition attach (value : Z) (x : KernelObject) : KernelObject :=
  match ob_state x with
  | EventState _ _ | SemaphoreState _ _ => store_state (mkObject (ob_state x) (Some value) (ob_waiters x))
  | _ => x
  end.
Definition attach_mirror (value : Z) (o : ObjectId) (d : Dispatcher) : Dispatcher :=
  update_object (attach value) o d.

Inductive GuestStateSync : Type := Unchanged | Adopted | Rejected.

(** [KernelEvent::reconcile_with_guest_state]. *)
Definition event_reconcile (o : ObjectId) (d : Dispatcher) : Dispatcher * GuestStateSync :=
  match objects d !! o with
  | Some (mkObject (EventState _ v) (Some value) _) =>
      let guest := negb (value =? 0) in
      if Bool.eqb guest v then (d, Unchanged)
      else
        let d := update_object (event_signaled guest) o d in
        (if guest then
           let d := satisfy_waiters o d in
           if negb (signaled o d) then update_object store_state o d else d
         else d, Adopted)
  | _ => (d, Unchanged)
  end.

(** ** Semaphores *)

Definition semaphore_count (v : Z) (o : KernelObject) : KernelObject :=
  match ob_state o with SemaphoreState _ maximum => set_state (SemaphoreState v maximum) o | _ => o end.

(** [release_locked]; the answer is whether it released, and the previous count when
    the release count is positive. *)
Definition semaphore_release (release_count : Z) (o : ObjectId) (d : Dispatcher)
    : Dispatcher * bool * option Z :=
  match ob_state <$> objects d !! o with
  | Some (SemaphoreState count maximum) =>
      if release_count <=? 0 then (d, false, None)
      else if maximum - count <? release_count then (d, false, Some count)
      else (update_object store_state o
              (satisfy_waiters o (update_object (semaphore_count (count + release_count)) o d)),
            true, Some count)
  | _ => (d, false, None)
  end.

Definition count_of (o : ObjectId) (d : Dispatcher) : Z :=
  match ob_state <$> objects d !! o with Some (SemaphoreState count _) => count | _ => 0 end.

(** [KernelSemaphore::reconcile_with_guest_state]. *)
Definition semaphore_reconcile (o : ObjectId) (d : Dispatcher) : Dispatcher * GuestStateSync :=
  match objects d !! o with
  | Some (mkObject (SemaphoreState count maximum) (Some value) _) =>
      if value =? count then (d, Unchanged)
      else if (value <? 0) || (maximum <? value) then (d, Rejected)
      else
        let d := satisfy_waiters o (update_object (semaphore_count value) o d) in
        (if negb (count_of o d =? value) then update_object store_state o d else d, Adopted)
  | _ => (d, Unchanged)
  end.

(** ** Mutants *)

Definition mutant_state (f : Z -> Z -> Z -> bool -> ObjectState) (o : KernelObject) : KernelObject :=
  match ob_state o with MutantState owner host recursion ab => set_state (f owner host recursion ab) o | _ => o end.
Definition mutant_free (abandoned : bool -> bool) : KernelObject -> KernelObject :=
  mutant_state (λ _ _ _ ab, MutantState 0 0 0 (abandoned ab)).
Definition mutant_unwind : KernelObject -> KernelObject :=
  mutant_state (λ owner host recursion ab, MutantState owner host (decrement recursion) ab).

(** [release_locked]: by the owner only; the last release passes the mutant on. *)
Definition mutant_release (thread : ThreadId) (o : ObjectId) (d : Dispatcher) : Dispatcher * bool :=
  match ob_state <$> objects d !! o with
  | Some (MutantState owner _ recursion _) =>
      if negb (owner =? thread) || (recursion =? 0) then (d, false)
      else if decrement recursion =? 0 then
        (satisfy_waiters o (update_object (mutant_free id) o d), true)
      else (update_object mutant_unwind o d, true)
  | _ => (d, false)
  end.

(** [abandon_locked]. *)
Definition mutant_abandon (o : ObjectId) (d : Dispatcher) : Dispatcher :=
  match ob_state <$> objects d !! o with
  | Some (MutantState _ _ _ _) =>
      satisfy_waiters o (update_object (mutant_free (const true)) o d)
  | _ => d
  end.

(** One iteration of [abandon_mutants_owned_by_this_thread]. *)
Definition abandon_if_owned (host : Z) (o : ObjectId) (d : Dispatcher) : Dispatcher :=
  match ob_state <$> objects d !! o with
  | Some (MutantState _ owner_host recursion _) =>
      if (0 <? recursion) && (owner_host =? host) then mutant_abandon o d else d
  | _ => d
  end.

(** ** Timers *)

Definition timer_flags (signaled active : bool) (o : KernelObject) : KernelObject :=
  match ob_state o with
  | TimerState sync _ _ periodic => set_state (TimerState sync signaled active periodic) o
  | _ => o
  end.
Definition timer_period (periodic : bool) (o : KernelObject) : KernelObject :=
  match ob_state o with
  | TimerState sync signaled active _ => set_state (TimerState sync signaled active periodic) o
  | _ => o
  end.

(** [set]: with a due time of zero it fires at once. *)
Definition timer_set (due_now periodic : bool) (o : ObjectId) (d : Dispatcher) : Dispatcher :=
  let d := update_object (timer_flags false true ∘ timer_period periodic) o d in
  if due_now then satisfy_waiters o (update_object (timer_flags true true) o d) else d.

Definition timer_cancel (o : ObjectId) (d : Dispatcher) : Dispatcher * bool :=
  match ob_state <$> objects d !! o with
  | Some (TimerState _ _ true _) => (update_object (timer_flags false false) o d, true)
  | _ => (d, false)
  end.

(** [fire]: answers whether the timer stays armed. *)
Definition timer_deactivate (o : KernelObject) : KernelObject :=
  match ob_state o with
  | TimerState sync signaled _ periodic => set_state (TimerState sync signaled false periodic) o
  | _ => o
  end.
Definition timer_fire (o : ObjectId) (d : Dispatcher) : Dispatcher * bool :=
  match ob_state <$> objects d !! o with
  | Some (TimerState _ _ true periodic) =>
      let d := satisfy_waiters o (update_object (timer_flags true true) o d) in
      (if periodic : bool then d else update_object timer_deactivate o d, periodic)
  | _ => (d, false)
  end.

(** ** Threads: the flags a wait reads *)

Definition thread_flags (f : bool -> bool -> bool -> ObjectState) (o : KernelObject) : KernelObject :=
  match ob_state o with ThreadState t a p => set_state (f t a p) o | _ => o end.

(** [terminated_.store(true)]. *)
Definition thread_terminate (o : ObjectId) : Dispatcher -> Dispatcher :=
  update_object (thread_flags (λ _ a p, ThreadState true a p)) o.
(** [alerted_.exchange(true)]. *)
Definition thread_alert (o : ObjectId) : Dispatcher -> Dispatcher :=
  update_object (thread_flags (λ t _ p, ThreadState t true p)) o.
(** [user_apc_pending_.store(v)]. *)
Definition thread_apc_pending (v : bool) (o : ObjectId) : Dispatcher -> Dispatcher :=
  update_object (thread_flags (λ t a _, ThreadState t a v)) o.

Definition is_terminated (o : option ObjectId) (d : Dispatcher) : bool :=
  match o with
  | Some o => match ob_state <$> objects d !! o with Some (ThreadState t _ _) => t | _ => false end
  | None => false
  end.

(** ** Waits *)

Inductive WaitResult : Type := Success | Timeout | Abandoned | Terminating | UserApc | Alerted | Failed.

(** What a wait is called with: [wr_self] is [KernelThread::current()], [wr_timeout]
    is in milliseconds. *)
Record WaitRequest : Type := mkRequest {
  wr_objects : list ObjectId;
  wr_wait_all : bool;
  wr_timeout : Z;
  wr_thread_id : ThreadId;
  wr_host_thread : Z;
  wr_self : option ObjectId;
  wr_alertable : bool
}.

Definition kMaxWaitObjects : nat := 64.

Definition infinite (r : WaitRequest) : bool := (wr_timeout r <? 0) || (0xFFFFFFFF <=? wr_timeout r).

(** The objects in address order, each once. *)
Fixpoint unique (l : list ObjectId) : list ObjectId :=
  match l with
  | x :: (y :: _) as l' => if x =? y then unique l' else x :: unique l'
  | l => l
  end.
Definition distinct (l : list ObjectId) : list ObjectId := unique (merge_sort Z.le l).

(** Every object of the model is of a waitable type; a null one is not in the map. *)
Definition valid_request (r : WaitRequest) (d : Dispatcher) : bool :=
  negb (length (wr_objects r) =? 0)%nat && (length (wr_objects r) <=? kMaxWaitObjects)%nat &&
  forallb (λ o, bool_decide (is_Some (objects d !! o))) (wr_objects r).

(** [alert_or_apc]: an alert is taken before a pending APC. *)
Definition alert_or_apc (r : WaitRequest) (d : Dispatcher) : option WaitResult * Dispatcher :=
  if wr_alertable r then
    match wr_self r with
    | Some self =>
        match ob_state <$> objects d !! self with
        | Some (ThreadState _ true _) =>
            (Some Alerted, update_object (thread_flags (λ t _ p, ThreadState t false p)) self d)
        | Some (ThreadState _ false true) => (Some UserApc, d)
        | _ => (None, d)
        end
    | None => (None, d)
    end
  else (None, d).

Definition new_block (r : WaitRequest) : MultiWaitBlock :=
  mkWaitBlock (wr_objects r) (distinct (wr_objects r)) (wr_wait_all r) (wr_thread_id r)
    (wr_host_thread r) false 0 false 0.

(** The lists a wait registers on: its objects', and its own thread's. *)
Definition registered_on (r : WaitRequest) : list ObjectId :=
  distinct (wr_objects r) ++
  match wr_self r with
  | Some self => if bool_decide (self ∈ distinct (wr_objects r)) then [] else [self]
  | None => []
  end.

(** [MultiWaitList::add] and [MultiWaitList::remove] of one block on several lists. *)
Definition add_waiter (b : BlockId) (o : KernelObject) : KernelObject := set_waiters (ob_waiters o ++ [b]) o.
Fixpoint remove_first (b : BlockId) (l : list BlockId) : list BlockId :=
  match l with
  | [] => []
  | x :: l => if x =? b then l else x :: remove_first b l
  end.
Definition remove_waiter (b : BlockId) (o : KernelObject) : KernelObject :=
  set_waiters (remove_first b (ob_waiters o)) o.
Definition on_lists (f : KernelObject -> KernelObject) (l : list ObjectId) (d : Dispatcher) : Dispatcher :=
  foldl (λ d o, update_object f o d) d l.

Definition succeeded (abandoned : bool) : WaitResult := if abandoned then Abandoned else Success.

(** The first critical section of [wait_for_objects_after], without the signal: the
    wait is satisfied at once, or ends, or registers. *)
Inductive Begun : Type :=
  | Ended (result : WaitResult) (index : option Z)
  | Registered.

Definition begin_wait (r : WaitRequest) (b : BlockId) (d : Dispatcher) : Dispatcher * Begun :=
  match try_satisfy_wait (new_block r) (objects d) with
  | Some (m, index, abandoned) =>
      (set_objects m d,
       Ended (succeeded abandoned) (if negb (wr_wait_all r) || abandoned then Some index else None))
  | None =>
      match alert_or_apc r d with
      | (Some result, d) => (d, Ended result None)
      | (None, d) =>
          if negb (infinite r) && (wr_timeout r =? 0) then (d, Ended Timeout None)
          else (on_lists (add_waiter b) (registered_on r)
                  (mkDispatcher (objects d) (<[b := new_block r]> (blocks d))), Registered)
      end
  end.

(** [signal_and_wait_for_object]: the signal runs in the same critical section. *)
Definition signal_and_begin_wait (signal : Dispatcher -> Dispatcher * bool) (r : WaitRequest) (b : BlockId)
    (d : Dispatcher) : Dispatcher * Begun :=
  let '(d, signalled) := signal d in
  if signalled : bool then begin_wait r b d else (d, Ended Failed None).

(** The waiter's own look at its objects, in its loop. *)
Definition recheck (b : BlockId) (d : Dispatcher) : Dispatcher * bool :=
  match blocks d !! b with
  | None => (d, false)
  | Some wb =>
      if wb_granted wb then (d, false)
      else match try_satisfy_wait wb (objects d) with
           | None => (d, false)
           | Some (m, index, abandoned) =>
               (mkDispatcher m (<[b := grant index abandoned wb]> (blocks d)), true)
           end
  end.

(** The last critical section: unregister, and report a grant even if the wait was
    ending for another reason. The wait of an ungranted block returns [*outcome]. *)
Definition finish_wait (r : WaitRequest) (outcome : option WaitResult) (b : BlockId) (d : Dispatcher)
    : Dispatcher * option WaitResult :=
  match blocks d !! b with
  | None => (d, outcome)
  | Some wb =>
      let d' := on_lists (remove_waiter b) (registered_on r) d in
      (mkDispatcher (objects d') (delete b (blocks d')),
       if wb_granted wb then Some (succeeded (wb_abandoned wb)) else outcome)
  end.
