(* ===== verification/DispatcherInv.v ===== *)
(** * What signalling does to registered waits

    Satisfying a wait never makes another wait satisfiable, and a change of one object
    followed by [satisfy_waiters] leaves no wait registered on it satisfiable. *)

From stdpp Require Import sorting.
From S2P Require Import Prelude.
From S2P Require Import Words.
From S2P Require Import Dispatcher.

(** ** Distinct objects *)

Lemma unique_elem l x : x ∈ unique l <-> x ∈ l.
Proof.
  induction l as [|y l IH]; [done|]. destruct l as [|z l]; [done|]. cbn [unique].
  destruct (Z.eqb_spec y z) as [->|]; rewrite ?elem_of_cons, IH, ?elem_of_cons; naive_solver.
Qed.

Lemma unique_NoDup l : StronglySorted Z.le l -> NoDup (unique l).
Proof.
  induction l as [|y l IH]; [constructor|]. intros [Hl Hy]%StronglySorted_inv.
  destruct l as [|z l]; [apply NoDup_singleton|]. cbn [unique].
  destruct (Z.eqb_spec y z) as [->|Hne]; [by apply IH|]. apply NoDup_cons. split; [|by apply IH].
  rewrite (unique_elem (z :: l)), elem_of_cons. intros [?|Hin]; [done|].
  apply Forall_cons in Hy as [Hyz _]. apply StronglySorted_inv in Hl as [_ Hz].
  rewrite Forall_forall in Hz. specialize (Hz y Hin). lia.
Qed.

Lemma distinct_elem l x : x ∈ distinct l <-> x ∈ l.
Proof. unfold distinct. rewrite unique_elem. by rewrite merge_sort_Permutation. Qed.

Lemma distinct_NoDup l : NoDup (distinct l).
Proof.
  apply unique_NoDup. apply StronglySorted_merge_sort; [|apply _]. intros x y. lia.
Qed.

(** ** Satisfiability *)

Definition sat (m : gmap ObjectId KernelObject) (b : MultiWaitBlock) : bool :=
  match try_satisfy_wait b m with Some _ => true | None => false end.

Lemma sat_spec m b :
  sat m b = true <->
  if wb_wait_all b then forall o, o ∈ wb_distinct b -> can_satisfy m (wb_thread_id b) o = true
  else exists o, o ∈ wb_objects b /\ can_satisfy m (wb_thread_id b) o = true.
Proof.
  unfold sat, try_satisfy_wait. destruct (wb_wait_all b).
  - destruct (forallb _ _) eqn:E.
    + rewrite forallb_forall in E. destruct (satisfy_all _ _ _ _ _). split; [|done].
      intros _ o Ho. apply E. by apply list_elem_of_In.
    + split; [done|]. intros Hall. exfalso. apply not_true_iff_false in E. apply E, forallb_forall.
      intros o Ho. apply Hall. by apply list_elem_of_In.
  - destruct (list_find _ _) as [[i o]|] eqn:E.
    + destruct (satisfy _ _ _ _). split; [|done]. intros _. apply list_find_Some in E as (Ho & Hc & _).
      exists o. split; [by eapply list_elem_of_lookup_2|done].
    + split; [done|]. intros (o & Ho & Hc). apply list_find_None in E. rewrite Forall_forall in E.
      by destruct (E o Ho).
Qed.

(** [m'] satisfies no more than [m]. *)
Definition weaker (m m' : gmap ObjectId KernelObject) : Prop :=
  forall thread o, can_satisfy m' thread o = true -> can_satisfy m thread o = true.

#[export] Instance weaker_preorder : PreOrder weaker.
Proof. split; [by intros m thread o|]. intros m1 m2 m3 H1 H2 thread o Ho. by apply H1, H2. Qed.

Lemma sat_weaker m m' b : weaker m m' -> sat m' b = true -> sat m b = true.
Proof. intros Hw. rewrite !sat_spec. destruct (wb_wait_all b); naive_solver. Qed.

Lemma can_satisfy_insert m thread o p x :
  can_satisfy (<[o := x]> m) thread p =
    if decide (o = p) then can_satisfy_state (ob_state x) thread else can_satisfy m thread p.
Proof.
  unfold can_satisfy. destruct (decide (o = p)) as [->|Hne]; [by rewrite lookup_insert_eq|].
  by rewrite lookup_insert_ne.
Qed.

(** Taking an object leaves it to nobody it was not free for. *)
Lemma satisfy_object_weaker x thread host thread' :
  can_satisfy_state (ob_state x) thread = true ->
  can_satisfy_state (ob_state (satisfy_object thread host x).1) thread' = true ->
  can_satisfy_state (ob_state x) thread' = true.
Proof.
  destruct x as [[[] s|count maximum|owner oh recursion ab|[] s a p|t a p] mirror l];
    cbn [ob_state can_satisfy_state satisfy_object fst mirror_store set_state]; try done.
  unfold increment. destruct (Z.ltb_spec 0 recursion); cbn [fst ob_state set_state can_satisfy_state];
    [destruct (Z.eqb_spec recursion 0x7FFFFFFF)|]; rewrite ?orb_true_iff, ?Z.eqb_eq; intuition lia.
Qed.

Lemma satisfy_weaker thread host o m :
  can_satisfy m thread o = true -> weaker m (satisfy thread host o m).1.
Proof.
  unfold satisfy. destruct (m !! o) as [x|] eqn:E; [|done]. intros Ho thread' p.
  pose proof (satisfy_object_weaker x thread host thread') as Hx. unfold can_satisfy in Ho. rewrite E in Ho.
  destruct (satisfy_object thread host x) as [x' ab]. cbn [fst] in *. rewrite can_satisfy_insert.
  destruct (decide (o = p)) as [<-|]; [|done]. intros Hc. unfold can_satisfy. rewrite E. by apply Hx.
Qed.

Lemma satisfy_other thread host o m p thread' :
  o <> p -> can_satisfy (satisfy thread host o m).1 thread' p = can_satisfy m thread' p.
Proof.
  intros Hne. unfold satisfy. destruct (m !! o) as [x|]; [|done].
  destruct (satisfy_object thread host x) as [x' ab]. cbn [fst]. rewrite can_satisfy_insert.
  by rewrite decide_False.
Qed.

Lemma satisfy_all_weaker thread host l m ab :
  NoDup l -> (forall o, o ∈ l -> can_satisfy m thread o = true) ->
  weaker m (satisfy_all thread host l m ab).1.
Proof.
  revert m ab. induction l as [|o l IH]; intros m ab Hl Hc; [reflexivity|].
  apply NoDup_cons in Hl as [Ho Hl]. cbn [satisfy_all].
  pose proof (satisfy_weaker thread host o m (Hc o ltac:(left))) as Hw.
  pose proof (λ p, satisfy_other thread host o m p thread) as Hother.
  destruct (satisfy thread host o m) as [m1 taken]. cbn [fst] in *.
  etrans; [exact Hw|]. apply IH; [done|]. intros p Hp. rewrite Hother by set_solver. apply Hc. by right.
Qed.

(** ** What a signal leaves alone *)

Definition same_frame (m m' : gmap ObjectId KernelObject) : Prop :=
  forall o, ob_waiters <$> m' !! o = ob_waiters <$> m !! o /\
    forall t a p, ob_state <$> m' !! o = Some (ThreadState t a p) <->
                  ob_state <$> m !! o = Some (ThreadState t a p).

#[export] Instance same_frame_preorder : PreOrder same_frame.
Proof.
  split; [done|]. intros m1 m2 m3 H1 H2 o. destruct (H1 o) as [W1 T1], (H2 o) as [W2 T2].
  split; [congruence|]. intros t a p. by rewrite T2, T1.
Qed.

Definition thread_state (x : ObjectState) : bool := match x with ThreadState _ _ _ => true | _ => false end.

(** An update that keeps the list and does not touch threads. *)
Definition framed (f : KernelObject -> KernelObject) : Prop :=
  forall x, ob_waiters (f x) = ob_waiters x /\
    (thread_state (ob_state x) = true -> ob_state (f x) = ob_state x) /\
    thread_state (ob_state (f x)) = thread_state (ob_state x).

Lemma framed_frame f o m : framed f -> same_frame m (alter f o m).
Proof.
  intros Hf p. destruct (decide (o = p)) as [<-|Hne]; [|by rewrite lookup_alter_ne].
  rewrite lookup_alter_eq. destruct (m !! o) as [x|]; [|done]. cbn. destruct (Hf x) as (-> & Ht & Hs).
  split; [done|]. intros t a q. destruct (thread_state (ob_state x)) eqn:E; [by rewrite Ht|].
  split; intros [= Hx]; [rewrite Hx in Hs|rewrite Hx in E]; done.
Qed.

Lemma framed_satisfy thread host : framed (λ x, (satisfy_object thread host x).1).
Proof.
  intros [[[] s|count maximum|owner oh recursion ab|[] s a p|t a p] mirror l]; cbn; try done.
  by destruct (0 <? recursion).
Qed.

Lemma satisfy_frame thread host o m : same_frame m (satisfy thread host o m).1.
Proof.
  pose proof (framed_frame _ o m (framed_satisfy thread host)) as Hf. unfold satisfy.
  destruct (m !! o) as [x|] eqn:E; [|done].
  replace (alter _ o m) with (<[o := (satisfy_object thread host x).1]> m) in Hf.
  - by destruct (satisfy_object thread host x).
  - apply map_eq. intros p. destruct (decide (o = p)) as [<-|Hne].
    + by rewrite lookup_insert_eq, lookup_alter_eq, E.
    + by rewrite lookup_insert_ne, lookup_alter_ne.
Qed.

Lemma satisfy_all_frame thread host l m ab : same_frame m (satisfy_all thread host l m ab).1.
Proof.
  revert m ab. induction l as [|o l IH]; intros m ab; [done|]. cbn [satisfy_all].
  pose proof (satisfy_frame thread host o m) as Hf. destruct (satisfy thread host o m) as [m1 taken].
  etrans; [exact Hf|apply IH].
Qed.

(** A block as [begin_wait] makes it. *)
Definition proper (b : MultiWaitBlock) : Prop :=
  wb_distinct b = distinct (wb_objects b) /\ wb_objects b <> [].

Lemma try_satisfy_spec b m m' index ab :
  wb_distinct b = distinct (wb_objects b) -> try_satisfy_wait b m = Some (m', index, ab) ->
  weaker m m' /\ same_frame m m'.
Proof.
  intros Hd. unfold try_satisfy_wait. destruct (wb_wait_all b).
  - destruct (forallb _ _) eqn:E; [|done]. rewrite forallb_forall in E.
    pose proof (satisfy_all_weaker (wb_thread_id b) (wb_host_thread b) (wb_distinct b) m false) as Hw.
    pose proof (satisfy_all_frame (wb_thread_id b) (wb_host_thread b) (wb_distinct b) m false) as Hf.
    destruct (satisfy_all _ _ _ _ _) as [m1 ab1]. intros [= <- _ _]. split; [|done].
    apply Hw; [rewrite Hd; apply distinct_NoDup|]. intros o Ho. apply E. by apply list_elem_of_In.
  - destruct (list_find _ _) as [[i o]|] eqn:E; [|done]. apply list_find_Some in E as (_ & Hc & _).
    pose proof (satisfy_weaker (wb_thread_id b) (wb_host_thread b) o m Hc) as Hw.
    pose proof (satisfy_frame (wb_thread_id b) (wb_host_thread b) o m) as Hf.
    destruct (satisfy _ _ _ _) as [m1 ab1]. by intros [= <- _ _].
Qed.

(** ** Registered waits *)

(** A block is what it was, or it was granted. *)
Definition kept_or_granted (b b' : option MultiWaitBlock) : Prop :=
  b' = b \/ exists wb index ab, b = Some wb /\ wb_granted wb = false /\ b' = Some (grant index ab wb).

Definition registered (b : BlockId) (wb : MultiWaitBlock) (d : Dispatcher) : Prop :=
  forall o, o ∈ wb_distinct wb -> b ∈ waiters o d.

(** [d'] comes from [d] by operations that satisfy the waits they make satisfiable. *)
Record calm (d d' : Dispatcher) : Prop := mkCalm {
  ca_frame : same_frame (objects d) (objects d');
  ca_blocks : forall b, kept_or_granted (blocks d !! b) (blocks d' !! b);
  ca_waits : (forall b wb, blocks d !! b = Some wb -> proper wb) ->
    forall b wb, blocks d' !! b = Some wb -> wb_granted wb = false -> registered b wb d ->
    sat (objects d') wb = true -> sat (objects d) wb = true
}.

Lemma frame_waiters d d' o : same_frame (objects d) (objects d') -> waiters o d' = waiters o d.
Proof.
  intros Hf. unfold waiters. destruct (Hf o) as [Hw _].
  destruct (objects d' !! o), (objects d !! o); cbn in Hw; congruence.
Qed.

Lemma kept_trans b1 b2 b3 : kept_or_granted b1 b2 -> kept_or_granted b2 b3 -> kept_or_granted b1 b3.
Proof.
  intros [->|(wb & i & a & -> & Hg & ->)] [->|(wb' & i' & a' & Hb & Hg' & ->)]; [by left|right; naive_solver|
    right; naive_solver|]. by injection Hb as <-.
Qed.

Lemma kept_proper b b' wb' :
  kept_or_granted b b' -> b' = Some wb' -> (forall wb, b = Some wb -> proper wb) -> proper wb'.
Proof. intros [->|(wb & i & a & -> & _ & ->)] [= Hb] Hp; [by apply Hp|]. subst wb'. by apply (Hp wb). Qed.

Lemma kept_ungranted b b' wb' :
  kept_or_granted b b' -> b' = Some wb' -> wb_granted wb' = false -> b = Some wb'.
Proof. intros [->|(wb & i & a & -> & _ & ->)] [= Hb] Hg; [done|]. by subst wb'. Qed.

#[export] Instance calm_preorder : PreOrder calm.
Proof.
  split; [intros d; split; [done|by left|by auto]|].
  intros d1 d2 d3 [F1 B1 W1] [F2 B2 W2]. split; [by etrans|intros b; by eapply kept_trans|].
  intros Hp b wb Hb Hg Hr Hs. apply (W1 Hp b wb); [by eapply kept_ungranted| |done|].
  - done.
  - apply (W2 (λ b wb Hb, kept_proper _ _ _ (B1 b) Hb (Hp b)) b wb); [done|done| |done].
    intros o Ho. rewrite (frame_waiters d1 d2) by done. by apply Hr.
Qed.

(** Taking objects for a granted block. *)
Lemma satisfy_waiter_calm d b :
  (forall wb, blocks d !! b = Some wb -> proper wb) -> calm d (satisfy_waiter d b) /\ weaker (objects d) (objects (satisfy_waiter d b)).
Proof.
  intros Hp. unfold satisfy_waiter. destruct (blocks d !! b) as [wb|] eqn:Eb; [|done].
  destruct (wb_granted wb) eqn:Eg; cbn [orb]; [done|]. destruct (wb_objects wb) as [|o l] eqn:Eo; [done|].
  destruct (try_satisfy_wait wb (objects d)) as [[[m index] ab]|] eqn:Et; [|done].
  destruct (try_satisfy_spec _ _ _ _ _ (proj1 (Hp wb eq_refl)) Et) as [Hw Hf]. split; [|done].
  split; cbn; [done| |].
  - intros b'. destruct (decide (b = b')) as [<-|Hne]; [|left; by apply lookup_insert_ne].
    right. rewrite lookup_insert_eq. by exists wb, index, ab.
  - intros _ b' wb' _ _ _. by apply sat_weaker.
Qed.

Definition blocks_proper (d : Dispatcher) : Prop := forall b wb, blocks d !! b = Some wb -> proper wb.

Lemma calm_proper d d' : calm d d' -> blocks_proper d -> blocks_proper d'.
Proof. intros Hc Hp b wb Hb. eapply kept_proper; [apply (ca_blocks _ _ Hc b)|done|apply Hp]. Qed.

(** After its turn, a block is granted or not satisfiable. *)
Lemma satisfy_waiter_done d b wb :
  blocks_proper d -> blocks (satisfy_waiter d b) !! b = Some wb -> wb_granted wb = false ->
  sat (objects (satisfy_waiter d b)) wb = false.
Proof.
  intros Hp. unfold satisfy_waiter, sat. destruct (blocks d !! b) as [wb0|] eqn:Eb; [|congruence].
  destruct (wb_granted wb0) eqn:Eg; cbn [orb]; [congruence|].
  destruct (Hp _ _ Eb) as [_ Hne]. destruct (wb_objects wb0) as [|o l] eqn:Eo; [done|].
  destruct (try_satisfy_wait wb0 (objects d)) as [[[m index] ab]|] eqn:Et; cbn [blocks objects].
  - rewrite lookup_insert_eq. by intros [= <-].
  - rewrite Eb. intros [= <-] _. by rewrite Et.
Qed.

Lemma satisfy_list_calm l d :
  blocks_proper d ->
  calm d (foldl satisfy_waiter d l) /\ weaker (objects d) (objects (foldl satisfy_waiter d l)) /\
  forall b wb, b ∈ l -> blocks (foldl satisfy_waiter d l) !! b = Some wb -> wb_granted wb = false ->
    sat (objects (foldl satisfy_waiter d l)) wb = false.
Proof.
  revert d. induction l as [|b l IH]; intros d Hp.
  { split_and!; [done|done|]. by intros b wb ?%elem_of_nil. }
  cbn [foldl]. destruct (satisfy_waiter_calm d b (Hp b)) as [Hc Hw].
  pose proof (calm_proper _ _ Hc Hp) as Hp1. destruct (IH _ Hp1) as (Hc2 & Hw2 & Hdone).
  split_and!; [by etrans|by etrans|]. intros b' wb Hin Hb Hg.
  destruct (decide (b' ∈ l)) as [Hl|Hl]; [by apply (Hdone b')|].
  apply elem_of_cons in Hin as [->|Hin]; [|done].
  pose proof (kept_ungranted _ _ _ (ca_blocks _ _ Hc2 b) Hb Hg) as Hb1.
  apply not_true_is_false. intros Hs. pose proof (satisfy_waiter_done d b wb Hp Hb1 Hg) as Hn.
  by rewrite (sat_weaker _ _ _ Hw2 Hs) in Hn.
Qed.

(** ** Changes of one object *)

Lemma can_satisfy_alter_ne f o m thread p : o <> p -> can_satisfy (alter f o m) thread p = can_satisfy m thread p.
Proof. intros Hne. unfold can_satisfy. by rewrite lookup_alter_ne. Qed.

(** A change and then a pass over the object's waiters. *)
Lemma signal_calm f o d :
  framed f -> blocks_proper d -> calm d (satisfy_waiters o (update_object f o d)).
Proof.
  intros Hf Hp. set (d1 := update_object f o d). pose proof (framed_frame f o (objects d) Hf) as Hfr.
  destruct (satisfy_list_calm (waiters o d1) d1) as (Hc & Hw & Hdone); [done|]. fold (satisfy_waiters o d1) in *.
  split; [etrans; [exact Hfr|apply (ca_frame _ _ Hc)]|apply (ca_blocks _ _ Hc)|].
  intros _ b wb Hb Hg Hr Hs. pose proof (kept_ungranted _ _ _ (ca_blocks _ _ Hc b) Hb Hg) as Hb1.
  destruct (Hp _ _ Hb1) as [Hd _]. destruct (decide (o ∈ wb_distinct wb)) as [Ho|Ho].
  - specialize (Hr o Ho). rewrite <- (frame_waiters d d1) in Hr by done.
    by rewrite (Hdone b wb Hr Hb Hg) in Hs.
  - apply (sat_weaker _ _ _ Hw) in Hs. revert Hs. rewrite !sat_spec. cbn [objects update_object set_objects d1].
    destruct (wb_wait_all wb).
    + intros Hall p Hin. specialize (Hall p Hin). by rewrite can_satisfy_alter_ne in Hall by set_solver.
    + intros (p & Hin & Hc'). exists p. split; [done|]. rewrite can_satisfy_alter_ne in Hc'; [done|].
      intros ->. apply Ho. by rewrite Hd, distinct_elem.
Qed.

(** A change after which the object satisfies no more. *)
Definition weakens (f : KernelObject -> KernelObject) : Prop :=
  framed f /\ forall x thread,
    can_satisfy_state (ob_state (f x)) thread = true -> can_satisfy_state (ob_state x) thread = true.

Lemma weakens_at_calm f o d :
  framed f -> (forall x thread, objects d !! o = Some x ->
    can_satisfy_state (ob_state (f x)) thread = true -> can_satisfy_state (ob_state x) thread = true) ->
  calm d (update_object f o d).
Proof.
  intros Hf Hw. split; [by apply framed_frame|by left|]. intros _ b wb _ _ _. apply sat_weaker.
  intros thread p. unfold can_satisfy. cbn [objects update_object set_objects].
  destruct (decide (o = p)) as [<-|Hne]; [|by rewrite lookup_alter_ne].
  rewrite lookup_alter_eq. destruct (objects d !! o); [by apply Hw|done].
Qed.

Lemma weakens_calm f o d : weakens f -> calm d (update_object f o d).
Proof. intros [Hf Hw]. apply weakens_at_calm; auto. Qed.

Lemma weakens_compose f g : weakens f -> weakens g -> weakens (f ∘ g).
Proof.
  intros [Hf Wf] [Hg Wg]. split; [|by auto]. intros x. cbn. destruct (Hg x) as (Gw & Gt & Gs).
  destruct (Hf (g x)) as (Fw & Ft & Fs). split_and!; [congruence| |congruence].
  intros Ht. rewrite Ft; [by apply Gt|by rewrite Gs].
Qed.

Ltac by_state := intros [[| | | |] ? ?]; cbn; try done.

Lemma weakens_store : weakens store_state.
Proof. split; by_state. Qed.
Lemma weakens_reset : weakens (event_signaled false).
Proof. split; by_state. Qed.
Lemma framed_signaled v : framed (event_signaled v).
Proof. by_state. Qed.
Lemma framed_count v : framed (semaphore_count v).
Proof. by_state. Qed.
Lemma framed_timer v w : framed (timer_flags v w).
Proof. by_state. Qed.
Lemma weakens_timer v : weakens (timer_flags false v).
Proof. split; by_state. Qed.
Lemma weakens_period v : weakens (timer_period v).
Proof. split; by_state. Qed.
Lemma weakens_deactivate : weakens timer_deactivate.
Proof. split; by_state. Qed.
Lemma framed_free v : framed (mutant_free v).
Proof. by_state. Qed.
Lemma framed_unwind : framed mutant_unwind.
Proof. by_state. Qed.

Create HintDb calm.
#[export] Hint Resolve framed_signaled framed_count framed_timer framed_free framed_unwind weakens_store
  weakens_reset weakens_timer weakens_period weakens_deactivate weakens_compose weakens_calm signal_calm : calm.

(** ** The operations *)

Section Operations.
Context (d : Dispatcher) (o : ObjectId).
Hypothesis Hp : blocks_proper d.

Lemma signal_then_calm f g :
  framed f -> weakens g -> calm d (update_object g o (satisfy_waiters o (update_object f o d))).
Proof using Hp. intros Hf Hg. etrans; [by apply signal_calm|by apply weakens_calm]. Qed.
Hint Resolve signal_then_calm : calm.

Lemma event_set_calm : calm d (event_set o d).
Proof using Hp. unfold event_set. auto with calm. Qed.

Lemma event_pulse_calm : calm d (event_pulse o d).
Proof using Hp. unfold event_pulse. auto with calm. Qed.

Lemma event_reset_calm : calm d (event_reset o d).
Proof using Type. unfold event_reset. auto with calm. Qed.

Lemma event_reconcile_calm : calm d (event_reconcile o d).1.
Proof using Hp.
  unfold event_reconcile. destruct (objects d !! o) as [[[manual v| | | |] [value|] l]|]; try done.
  generalize (negb (value =? 0)). intros guest. destruct (Bool.eqb guest v); [done|].
  destruct guest; cbn [fst]; [|auto with calm]. case_match; auto with calm.
Qed.

Lemma semaphore_release_calm n : calm d (semaphore_release n o d).1.1.
Proof using Hp. unfold semaphore_release. repeat case_match; cbn [fst]; try done; auto with calm. Qed.

Lemma semaphore_reconcile_calm : calm d (semaphore_reconcile o d).1.
Proof using Hp. unfold semaphore_reconcile. repeat case_match; cbn [fst]; try done; auto with calm. Qed.

Lemma mutant_release_calm thread : calm d (mutant_release thread o d).1.
Proof using Hp.
  unfold mutant_release. destruct (objects d !! o) as [x|] eqn:E; [|done]. cbn.
  destruct (ob_state x) as [| |owner host recursion ab| |] eqn:Ex; try done.
  destruct (_ || _); [done|]. destruct (Z.eqb_spec (decrement recursion) 0); cbn [fst]; [auto with calm|].
  apply weakens_at_calm; [auto with calm|]. intros y t. rewrite E. intros [= <-].
  unfold mutant_unwind, mutant_state. rewrite Ex. cbn. rewrite !orb_true_iff, !Z.eqb_eq. lia.
Qed.

Lemma mutant_abandon_calm : calm d (mutant_abandon o d).
Proof using Hp. unfold mutant_abandon. repeat case_match; try done; auto with calm. Qed.

Lemma abandon_if_owned_calm host : calm d (abandon_if_owned host o d).
Proof using Hp.
  pose proof mutant_abandon_calm. unfold abandon_if_owned. by repeat case_match.
Qed.

Lemma timer_set_calm due periodic : calm d (timer_set due periodic o d).
Proof using Hp.
  unfold timer_set. assert (Hc : calm d (update_object (timer_flags false true ∘ timer_period periodic) o d))
    by auto with calm. destruct due; [|done]. etrans; [exact Hc|].
  apply signal_calm; [auto with calm|by eapply calm_proper].
Qed.

Lemma timer_cancel_calm : calm d (timer_cancel o d).1.
Proof using Type. unfold timer_cancel. repeat case_match; cbn [fst]; try done; auto with calm. Qed.

Lemma timer_fire_calm : calm d (timer_fire o d).1.
Proof using Hp. unfold timer_fire. repeat case_match; cbn [fst]; try done; auto with calm. Qed.
End Operations.
