(* ===== verification/DispatcherSystem.v ===== *)
(** * Waiting threads and signallers interleaved

    The waiter's loop of [wait_for_objects_after] as a program counter, and every
    dispatcher operation, as one step relation: a step is one critical section, or one
    atomic access made without the dispatcher lock. A thread operation stores its flag
    in one step and notifies in a later one. The 64-bit wake-up counter is unbounded. *)

From S2P Require Import Prelude.
From S2P Require Import Words.
From S2P Require Import Dispatcher.

(** Where a registered waiter is in its loop; the number is [observed]. *)
Inductive WaiterPc : Type :=
  | Loop
  | Observed (n : Z)      (* wakeups read, not granted *)
  | Alive (n : Z)         (* its thread was not terminated *)
  | Checked (n : Z)       (* its objects were not satisfiable *)
  | Calm (n : Z)          (* no alert and no APC *)
  | Asleep (n : Z)        (* in condition.wait *)
  | Ending (outcome : option WaitResult).

Record System : Type := mkSystem {
  sy_state : Dispatcher;
  sy_waits : gmap BlockId (WaitRequest * WaiterPc);
  sy_notifying : gset ObjectId  (* threads whose flag is stored and whose notification is to come *)
}.

Definition start : System := mkSystem (mkDispatcher ∅ ∅) ∅ ∅.

Definition with_state (d : Dispatcher) (s : System) : System := mkSystem d (sy_waits s) (sy_notifying s).
Definition with_pc (b : BlockId) (r : WaitRequest) (pc : WaiterPc) (s : System) : System :=
  mkSystem (sy_state s) (<[b := (r, pc)]> (sy_waits s)) (sy_notifying s).

(** The state of a new object, as the exports create them. *)
Definition created (x : ObjectState) : Prop :=
  match x with
  | SemaphoreState count maximum => 0 <= count <= maximum
  | MutantState _ _ recursion ab => 0 <= recursion <= 1 /\ ab = false
  | _ => True
  end.

(** One signaller's critical section. *)
Inductive signal (d : Dispatcher) : Dispatcher -> Prop :=
  | by_event_set o : signal d (event_set o d)
  | by_event_pulse o : signal d (event_pulse o d)
  | by_event_reset o : signal d (event_reset o d)
  | by_event_reconcile o : signal d (event_reconcile o d).1
  | by_semaphore_release n o : signal d (semaphore_release n o d).1.1
  | by_semaphore_reconcile o : signal d (semaphore_reconcile o d).1
  | by_mutant_release thread o : signal d (mutant_release thread o d).1
  | by_mutant_abandon o : signal d (mutant_abandon o d)
  | by_exiting_thread host o : signal d (abandon_if_owned host o d)
  | by_timer_set due periodic o : signal d (timer_set due periodic o d)
  | by_timer_cancel o : signal d (timer_cancel o d).1
  | by_timer_fire o : signal d (timer_fire o d).1.

(** A flag of a thread is raised. *)
Inductive raise_flag (o : ObjectId) (d : Dispatcher) : Dispatcher -> Prop :=
  | by_terminate : raise_flag o d (thread_terminate o d)
  | by_alert : raise_flag o d (thread_alert o d)
  | by_queue_apc : raise_flag o d (thread_apc_pending true o d).

(** A guest store to the word a mirror stands for. *)
Definition guest_store (v : Z) (o : ObjectId) : Dispatcher -> Dispatcher := update_object (mirror_store v) o.

Definition is_thread (o : ObjectId) (d : Dispatcher) : Prop :=
  exists t a p, ob_state <$> objects d !! o = Some (ThreadState t a p).

(** A call that may register: its objects exist and its thread is a thread. *)
Definition may_begin (r : WaitRequest) (b : BlockId) (s : System) (d : Dispatcher) : Prop :=
  valid_request r d = true /\ sy_waits s !! b = None /\ blocks d !! b = None /\
  (forall self, wr_self r = Some self -> is_thread self d).

(** [signal_and_wait_for_object] signals first, in the same critical section. *)
Inductive signal_before (d : Dispatcher) : Dispatcher -> Prop :=
  | no_signal : signal_before d d
  | with_signal d' : signal d d' -> signal_before d d'.

Inductive step (s : System) : System -> Prop :=
  | step_create o x :
      objects (sy_state s) !! o = None -> ob_waiters x = [] -> created (ob_state x) ->
      step s (with_state (set_objects (<[o := x]> (objects (sy_state s))) (sy_state s)) s)
  | step_signal d : signal (sy_state s) d -> step s (with_state d s)
  | step_attach v o : step s (with_state (attach_mirror v o (sy_state s)) s)
  | step_guest_store v o : step s (with_state (guest_store v o (sy_state s)) s)
  | step_raise o d :
      raise_flag o (sy_state s) d -> step s (mkSystem d (sy_waits s) ({[o]} ∪ sy_notifying s))
  | step_clear_apc o : step s (with_state (thread_apc_pending false o (sy_state s)) s)
  | step_notify o :
      step s (mkSystem (notify_always o (sy_state s)) (sy_waits s) (sy_notifying s ∖ {[o]}))
  | step_register r b d d' :
      signal_before (sy_state s) d -> may_begin r b s d -> begin_wait r b d = (d', Registered) ->
      step s (mkSystem d' (<[b := (r, Loop)]> (sy_waits s)) (sy_notifying s))
  | step_not_registered r b d d' result index :
      signal_before (sy_state s) d -> may_begin r b s d -> begin_wait r b d = (d', Ended result index) ->
      step s (with_state d' s)
  | step_observe b r wb :
      sy_waits s !! b = Some (r, Loop) -> blocks (sy_state s) !! b = Some wb ->
      step s (with_pc b r (if wb_granted wb then Ending None else Observed (wb_wakeups wb)) s)
  | step_terminating b r n :
      sy_waits s !! b = Some (r, Observed n) ->
      step s (with_pc b r (if is_terminated (wr_self r) (sy_state s) then Ending (Some Terminating) else Alive n) s)
  | step_recheck b r n d got :
      sy_waits s !! b = Some (r, Alive n) -> recheck b (sy_state s) = (d, got) ->
      step s (with_pc b r (if got then Ending None else Checked n) (with_state d s))
  | step_alert b r n d ended :
      sy_waits s !! b = Some (r, Checked n) -> alert_or_apc r (sy_state s) = (ended, d) ->
      step s (with_pc b r (match ended with Some _ => Ending ended | None => Calm n end) (with_state d s))
  | step_deadline b r n :
      sy_waits s !! b = Some (r, Calm n) -> infinite r = false -> step s (with_pc b r (Ending (Some Timeout)) s)
  | step_sleep b r n : sy_waits s !! b = Some (r, Calm n) -> step s (with_pc b r (Asleep n) s)
  | step_wake b r n wb :
      sy_waits s !! b = Some (r, Asleep n) -> blocks (sy_state s) !! b = Some wb -> wb_wakeups wb <> n ->
      step s (with_pc b r Loop s)
  | step_timeout b r n :
      sy_waits s !! b = Some (r, Asleep n) -> infinite r = false -> step s (with_pc b r Loop s)
  | step_finish b r outcome d result :
      sy_waits s !! b = Some (r, Ending outcome) -> finish_wait r outcome b (sy_state s) = (d, result) ->
      step s (mkSystem d (delete b (sy_waits s)) (sy_notifying s)).

Inductive reachable : System -> Prop :=
  | reachable_start : reachable start
  | reachable_step s s' : reachable s -> step s s' -> reachable s'.

(** The step is the first critical section of a wait. *)
Definition begins (s s' : System) : Prop :=
  exists r b d, signal_before (sy_state s) d /\ may_begin r b s d /\ sy_state s' = (begin_wait r b d).1.

(** Reached by a run in which at most [n] waits began. *)
Inductive reachable_after : nat -> System -> Prop :=
  | after_start : reachable_after 0 start
  | after_begin n s s' : reachable_after n s -> step s s' -> reachable_after (S n) s'
  | after_other n s s' : reachable_after n s -> step s s' -> ~ begins s s' -> reachable_after n s'.

Lemma reachable_after_some s : reachable s <-> exists n, reachable_after n s.
Proof.
  split.
  - induction 1 as [|s s' _ [n IH] Hs]; [exists 0%nat; constructor|]. exists (S n). by eapply after_begin.
  - intros [n Hn]. induction Hn; [constructor|by eapply reachable_step..].
Qed.
