(* ===== verification/DispatcherReach.v ===== *)
(** * Invariants of reachable dispatcher states *)

From S2P Require Import Prelude.
From S2P Require Import Words.
From S2P Require Import Dispatcher.
From S2P Require Import DispatcherInv.
From S2P Require Import DispatcherSystem.

(** ** What holds of one registered wait *)

Record made_for (r : WaitRequest) (wb : MultiWaitBlock) : Prop := mkMadeFor {
  mf_objects : wb_objects wb = wr_objects r;
  mf_distinct : wb_distinct wb = distinct (wr_objects r);
  mf_nonempty : wr_objects r <> []
}.

Definition alert_pending (r : WaitRequest) (d : Dispatcher) : bool :=
  match (alert_or_apc r d).1 with Some _ => true | None => false end.

(** Some object of the wait is a thread being terminated, its notification to come. *)
Definition notify_coming (N : gset ObjectId) (wb : MultiWaitBlock) : Prop := exists o, o ∈ wb_distinct wb /\ o ∈ N.

Definition seen (n : Z) (wb : MultiWaitBlock) : Prop :=
  n <= wb_wakeups wb /\ (wb_granted wb = true -> n < wb_wakeups wb).
Definition terminated_told (N : gset ObjectId) (r : WaitRequest) (d : Dispatcher) : Prop :=
  is_terminated (wr_self r) d = true -> exists self, wr_self r = Some self /\ self ∈ N.
Definition alert_told (N : gset ObjectId) (r : WaitRequest) (d : Dispatcher) : Prop :=
  alert_pending r d = true -> exists self, wr_self r = Some self /\ self ∈ N.
Definition objects_told (N : gset ObjectId) (wb : MultiWaitBlock) (d : Dispatcher) : Prop :=
  sat (objects d) wb = true -> notify_coming N wb.

(** A waiter that has looked and was not woken since has missed nothing that will not
    wake it. *)
Definition pc_ok (N : gset ObjectId) (r : WaitRequest) (wb : MultiWaitBlock) (d : Dispatcher) (pc : WaiterPc) : Prop :=
  match pc with
  | Loop => True
  | Observed n => seen n wb
  | Alive n => seen n wb /\ (wb_wakeups wb = n -> terminated_told N r d)
  | Checked n => seen n wb /\ (wb_wakeups wb = n -> terminated_told N r d /\ objects_told N wb d)
  | Calm n | Asleep n =>
      seen n wb /\ (wb_wakeups wb = n -> terminated_told N r d /\ objects_told N wb d /\ alert_told N r d)
  | Ending None => wb_granted wb = true
  | Ending (Some _) => True
  end.

(** A wait that could be satisfied and was not waits on a terminated thread. *)
Definition entitled_ok (wb : MultiWaitBlock) (d : Dispatcher) : Prop :=
  wb_granted wb = false -> sat (objects d) wb = true ->
  exists o, o ∈ wb_distinct wb /\ is_terminated (Some o) d = true.

Record wait_ok (N : gset ObjectId) (d : Dispatcher) (b : BlockId) (r : WaitRequest) (pc : WaiterPc) : Prop := mkWaitOk {
  wo_lists : forall o, o ∈ registered_on r -> b ∈ waiters o d;
  wo_block : exists wb, blocks d !! b = Some wb /\ made_for r wb /\ pc_ok N r wb d pc /\ entitled_ok wb d
}.

Record invariant (s : System) : Prop := mkInvariant {
  in_waits : forall b r pc, sy_waits s !! b = Some (r, pc) -> wait_ok (sy_notifying s) (sy_state s) b r pc;
  in_blocks : blocks_proper (sy_state s)
}.

Lemma made_for_proper r wb : made_for r wb -> proper wb.
Proof. intros [Ho Hd Hn]. split; [by rewrite Ho|by rewrite Ho]. Qed.

Lemma made_for_registered r wb b d :
  made_for r wb -> (forall o, o ∈ registered_on r -> b ∈ waiters o d) -> registered b wb d.
Proof. intros [_ Hd _] Hl o Ho. apply Hl. unfold registered_on. rewrite Hd in Ho. set_solver. Qed.

Lemma self_registered r self : wr_self r = Some self -> self ∈ registered_on r.
Proof. intros Hs. unfold registered_on. rewrite Hs. case_bool_decide; set_solver. Qed.

(** ** Steps that keep a wait *)

(** The flags of a thread object. *)
Definition flags_of (o : ObjectId) (d : Dispatcher) : option (bool * bool * bool) :=
  match ob_state <$> objects d !! o with Some (ThreadState t a p) => Some (t, a, p) | _ => None end.

Definition terminated_flag (x : option (bool * bool * bool)) : bool :=
  match x with Some (t, _, _) => t | None => false end.
Definition alert_flag (x : option (bool * bool * bool)) : bool :=
  match x with Some (_, a, p) => a || p | None => false end.

Lemma terminated_flags o d : is_terminated (Some o) d = terminated_flag (flags_of o d).
Proof. cbn. unfold flags_of. by destruct (ob_state <$> objects d !! o) as [[]|]. Qed.

Lemma alert_flags r d :
  alert_pending r d =
    wr_alertable r && match wr_self r with Some self => alert_flag (flags_of self d) | None => false end.
Proof.
  unfold alert_pending, alert_or_apc, flags_of. destruct (wr_alertable r), (wr_self r) as [self|]; try done.
  by destruct (ob_state <$> objects d !! self) as [[| | | |t [] []]|].
Qed.

Lemma frame_flags d d' o : same_frame (objects d) (objects d') -> flags_of o d' = flags_of o d.
Proof.
  intros Hf. destruct (Hf o) as [_ Ht]. unfold flags_of.
  destruct (ob_state <$> objects d' !! o) as [[| | | |t a p]|] eqn:E';
    destruct (ob_state <$> objects d !! o) as [[| | | |t' a' p']|] eqn:E; try done.
  all: try (pose proof (proj2 (Ht _ _ _) eq_refl); congruence).
  all: pose proof (proj1 (Ht _ _ _) eq_refl); congruence.
Qed.

Lemma frame_terminated d d' o : same_frame (objects d) (objects d') -> is_terminated o d' = is_terminated o d.
Proof. intros Hf. destruct o as [o|]; [|done]. by rewrite !terminated_flags, (frame_flags d d'). Qed.

Lemma frame_alert r d d' : same_frame (objects d) (objects d') -> alert_pending r d' = alert_pending r d.
Proof.
  intros Hf. rewrite !alert_flags. f_equal. destruct (wr_self r); [|done]. by rewrite (frame_flags d d').
Qed.

Section Calm.
Context (N : gset ObjectId) (d d' : Dispatcher).
Hypothesis Hcalm : calm d d'.
Hypothesis Hproper : blocks_proper d.

Lemma calm_wait b r pc : wait_ok N d b r pc -> wait_ok N d' b r pc.
Proof using Hcalm Hproper.
  destruct Hcalm as [Hf Hb Hw]. intros [Hl (wb & E & Hm & Hpc & Hen)].
  assert (Hl' : forall o, o ∈ registered_on r -> b ∈ waiters o d').
  { intros o Ho. rewrite (frame_waiters d d') by done. by apply Hl. }
  split; [done|]. pose proof (Hb b) as Hkept. rewrite E in Hkept.
  assert (Hsat : forall wb', blocks d' !! b = Some wb' -> wb_granted wb' = false ->
    sat (objects d') wb' = true -> sat (objects d) wb' = true).
  { intros wb' E' Hg. apply (Hw Hproper b wb' E' Hg). pose proof (kept_ungranted _ _ _ Hkept E' Hg) as [= <-].
    by eapply made_for_registered. }
  destruct Hkept as [E'|(wb0 & i & a & [= <-] & Hg & E')].
  - exists wb. split_and!; [done|done| |].
    + assert (HT : terminated_told N r d -> terminated_told N r d')
        by (unfold terminated_told; by rewrite (frame_terminated d d')).
      assert (HA : alert_told N r d -> alert_told N r d') by (unfold alert_told; by rewrite (frame_alert r d d')).
      assert (HO : wb_granted wb = false -> objects_told N wb d -> objects_told N wb d')
        by (intros Hg Ho Hs; by apply Ho, Hsat).
      destruct pc as [|n|n|n|n|n|[x|]]; cbn in *; try done.
      all: destruct Hpc as [[Hle Hlt] Hpc]; split; [done|]; intros Hn; specialize (Hpc Hn).
      all: destruct (wb_granted wb); [specialize (Hlt eq_refl); lia|]; naive_solver.
    + intros Hg Hs. destruct (Hen Hg (Hsat wb E' Hg Hs)) as (o & Ho & Ht). exists o.
      by rewrite (frame_terminated d d').
  - exists (grant i a wb). split_and!; [done|by destruct Hm| |done].
    destruct pc as [|n|n|n|n|n|[x|]]; cbn in *; try done; unfold seen in *; cbn; try lia.
    all: destruct Hpc as [[Hle _] _]; split; [lia|]; intros; lia.
Qed.
End Calm.

(** ** Thread flags *)

Section Flags.
Context (N N' : gset ObjectId) (d : Dispatcher) (o : ObjectId) (g : bool -> bool -> bool -> ObjectState).
Hypothesis Hsub : N ⊆ N'.
(** Termination is never undone; what is raised will be notified. *)
Hypothesis Hg : forall t a p, exists t' a' p', g t a p = ThreadState t' a' p' /\ (t = true -> t' = true) /\
  (o ∈ N' \/ t' = t /\ (a' || p' = true -> a || p = true)).

Abbreviation d' := (update_object (thread_flags g) o d).

Lemma flags_waiters p : waiters p d' = waiters p d.
Proof using Type.
  unfold waiters. cbn. destruct (decide (o = p)) as [<-|Hne]; [|by rewrite lookup_alter_ne].
  rewrite lookup_alter_eq. by destruct (objects d !! o) as [[[] ? ?]|].
Qed.

Lemma flags_other p : p <> o -> flags_of p d' = flags_of p d.
Proof using Type. intros Hne. unfold flags_of. cbn. by rewrite lookup_alter_ne. Qed.

Lemma flags_self :
  flags_of o d' = None /\ flags_of o d = None \/
  exists t a p t' a' p', flags_of o d = Some (t, a, p) /\ flags_of o d' = Some (t', a', p') /\
    (t = true -> t' = true) /\ (o ∈ N' \/ t' = t /\ (a' || p' = true -> a || p = true)).
Proof using Hg.
  unfold flags_of. cbn. rewrite lookup_alter_eq.
  destruct (objects d !! o) as [[[| | | |t a p] mirror l]|]; cbn; try by left.
  right. destruct (Hg t a p) as (t' & a' & p' & Hgt & H1 & H2). exists t, a, p, t', a', p'.
  unfold thread_flags. cbn. by rewrite Hgt.
Qed.

Lemma flags_can_satisfy thread p :
  can_satisfy (objects d') thread p = can_satisfy (objects d) thread p \/
  p = o /\ is_terminated (Some o) d' = true /\ o ∈ N'.
Proof using Hg.
  unfold can_satisfy. cbn. destruct (decide (p = o)) as [->|Hne]; [|left; by rewrite lookup_alter_ne].
  rewrite lookup_alter_eq. destruct (objects d !! o) as [[[| | | |t a q] mirror l]|]; cbn; try by left.
  unfold thread_flags. cbn. destruct (Hg t a q) as (t' & a' & q' & -> & H1 & H2). cbn.
  destruct t, t'; try by left.
  - by specialize (H1 eq_refl).
  - right. split_and!; [done|done|]. naive_solver.
Qed.

Lemma flags_terminated x : is_terminated x d = true -> is_terminated x d' = true.
Proof using Hg.
  destruct x as [p|]; [|done]. rewrite !terminated_flags. destruct (decide (p = o)) as [->|Hne].
  - destruct flags_self as [[-> ->]|(t & a & q & t' & a' & q' & -> & -> & Ht & _)]; cbn; auto.
  - by rewrite flags_other.
Qed.

Lemma flags_sat wb :
  proper wb -> sat (objects d') wb = true ->
  sat (objects d) wb = true \/ o ∈ wb_distinct wb /\ is_terminated (Some o) d' = true /\ o ∈ N'.
Proof using Hg.
  intros [Hd _] Hs. destruct (decide (o ∈ wb_distinct wb /\ o ∈ N')) as [[Ho Hn]|Hnot].
  - destruct (is_terminated (Some o) d') eqn:Et; [by right|]. left. revert Hs. rewrite !sat_spec.
    assert (Heq : forall p, can_satisfy (objects d') (wb_thread_id wb) p = can_satisfy (objects d) (wb_thread_id wb) p).
    { intros p. destruct (flags_can_satisfy (wb_thread_id wb) p) as [?|(_ & Ht & _)]; [done|congruence]. }
    destruct (wb_wait_all wb); [intros Hall p Hp|intros (p & Hp & Hc)]; [rewrite <- Heq; auto|].
    exists p. by rewrite <- Heq.
  - left. revert Hs. rewrite !sat_spec.
    assert (Heq : forall p, p ∈ wb_distinct wb ->
      can_satisfy (objects d') (wb_thread_id wb) p = can_satisfy (objects d) (wb_thread_id wb) p).
    { intros p Hp. destruct (flags_can_satisfy (wb_thread_id wb) p) as [?|(-> & _ & Hn)]; [done|]. by destruct Hnot. }
    destruct (wb_wait_all wb); [intros Hall p Hp|intros (p & Hp & Hc)]; [rewrite <- Heq; auto|].
    exists p. rewrite <- Heq; [done|]. by rewrite Hd, distinct_elem.
Qed.

Lemma flags_wait b r pc : wait_ok N d b r pc -> wait_ok N' d' b r pc.
Proof using Hg Hsub.
  intros [Hl (wb & E & Hm & Hpc & Hen)]. split; [intros p Hp; rewrite flags_waiters; auto|].
  exists wb. split_and!; [done|done| |].
  - assert (HT : terminated_told N r d -> terminated_told N' r d').
    { intros Ht Hd. destruct (wr_self r) as [self|] eqn:Er; [|done]. exists self. split; [done|].
      rewrite terminated_flags in Hd. destruct (decide (self = o)) as [->|Hne].
      - destruct flags_self as [[F' F]|(t & a & q & t' & a' & q' & F & F' & _ & [Hn|[Ht' _]])];
          rewrite F' in Hd; [done|done|]. cbn in Hd. rewrite Ht' in Hd.
        unfold terminated_told in Ht. rewrite Er, terminated_flags, F in Ht. destruct (Ht Hd) as (? & [= <-] & ?). set_solver.
      - rewrite flags_other in Hd by done. unfold terminated_told in Ht. rewrite Er, terminated_flags in Ht.
        destruct (Ht Hd) as (? & [= <-] & ?). set_solver. }
    assert (HA : alert_told N r d -> alert_told N' r d').
    { intros Ht Hd. unfold alert_told in Ht. rewrite alert_flags in Hd, Ht. destruct (wr_self r) as [self|] eqn:Er;
        [|by rewrite andb_false_r in Hd]. exists self. split; [done|]. apply andb_true_iff in Hd as [Hal Hd].
      rewrite Hal in Ht. cbn [andb] in Ht. destruct (decide (self = o)) as [->|Hne].
      - destruct flags_self as [[F' F]|(t & a & q & t' & a' & q' & F & F' & _ & [Hn|[_ Ht']])];
          rewrite F' in Hd; [done|done|]. rewrite F in Ht. destruct (Ht (Ht' Hd)) as (? & [= <-] & ?). set_solver.
      - rewrite flags_other in Hd by done. destruct (Ht Hd) as (? & [= <-] & ?). set_solver. }
    assert (HO : objects_told N wb d -> objects_told N' wb d').
    { intros Ho Hs. destruct (flags_sat wb (made_for_proper _ _ Hm) Hs) as [Hs'|(Ho' & _ & Hn)]; [|by exists o].
      destruct (Ho Hs') as (p & ? & ?). exists p. set_solver. }
    destruct pc as [|n|n|n|n|n|[x|]]; cbn in *; try done; naive_solver.
  - intros Hgr Hs. destruct (flags_sat wb (made_for_proper _ _ Hm) Hs) as [Hs'|(Ho' & Ht & _)]; [|by exists o].
    destruct (Hen Hgr Hs') as (p & ? & ?). exists p. split; [done|by apply flags_terminated].
Qed.
End Flags.

(** ** Notifications *)

Definition woken (k : Z) (wb : MultiWaitBlock) : MultiWaitBlock :=
  mkWaitBlock (wb_objects wb) (wb_distinct wb) (wb_wait_all wb) (wb_thread_id wb) (wb_host_thread wb)
    (wb_granted wb) (wb_index wb) (wb_abandoned wb) (wb_wakeups wb + k).

Lemma woken_zero wb : woken 0 wb = wb.
Proof. destruct wb. unfold woken. cbn. by rewrite Z.add_0_r. Qed.

Lemma notify_list l (m : gmap BlockId MultiWaitBlock) b :
  exists k, 0 <= k /\ (b ∈ l -> 0 < k) /\ (b ∉ l -> k = 0) /\
    foldl (λ m b, alter wake b m) m l !! b = woken k <$> m !! b.
Proof.
  revert m. induction l as [|c l IH]; intros m; cbn [foldl].
  { exists 0. split_and!; [done|by intros ?%elem_of_nil|done|]. destruct (m !! b); cbn; [by rewrite woken_zero|done]. }
  destruct (IH (alter wake c m)) as (k & Hk & Hin & Hout & E).
  destruct (decide (c = b)) as [->|Hne].
  - exists (k + 1). split_and!; [lia|lia|set_solver|]. rewrite E, lookup_alter_eq.
    destruct (m !! b) as [wb|]; [|done]. unfold woken, wake. cbn. do 2 f_equal. lia.
  - exists k. split_and!; [done|set_solver|set_solver|]. by rewrite E, lookup_alter_ne.
Qed.

Lemma notify_wait N d o b r pc : wait_ok N d b r pc -> wait_ok (N ∖ {[o]}) (notify_always o d) b r pc.
Proof.
  intros [Hl (wb & E & Hm & Hpc & Hen)]. split; [done|].
  destruct (notify_list (waiters o d) (blocks d) b) as (k & Hk & Hin & Hout & E'). rewrite E in E'. cbn in E'.
  exists (woken k wb). split_and!; [done|by destruct Hm| |done].
  destruct (decide (b ∈ waiters o d)) as [Hb|Hb].
  - specialize (Hin Hb). destruct pc as [|n|n|n|n|n|[x|]]; cbn in *; try done; unfold seen in *; cbn in *.
    1: split; [lia|intros Hg; destruct Hpc as [_ Hpc]; specialize (Hpc Hg); lia].
    all: destruct Hpc as [[Hle Hlt] _]; split; [split; [lia|intros Hg; specialize (Hlt Hg); lia]|intros; lia].
  - rewrite (Hout Hb), woken_zero.
    assert (Hself : forall self, wr_self r = Some self -> self ∈ N -> self ∈ N ∖ {[o]}).
    { intros self Hs Hn. assert (b ∈ waiters self d) by (by apply Hl, self_registered).
      apply elem_of_difference. split; [done|]. intros ->%elem_of_singleton. done. }
    assert (Hcoming : notify_coming N wb -> notify_coming (N ∖ {[o]}) wb).
    { intros (p & Hp & Hn). exists p. split; [done|].
      pose proof (made_for_registered r wb b d Hm Hl p Hp). apply elem_of_difference. split; [done|].
      intros ->%elem_of_singleton. done. }
    assert (HT : terminated_told N r d -> terminated_told (N ∖ {[o]}) r (notify_always o d)).
    { intros Ht Hd. destruct (Ht Hd) as (self & ? & ?). exists self. auto. }
    assert (HA : alert_told N r d -> alert_told (N ∖ {[o]}) r (notify_always o d)).
    { intros Ht Hd. rewrite alert_flags in Hd. unfold flags_of in Hd. cbn in Hd. unfold alert_told in Ht.
      rewrite alert_flags in Ht. destruct (Ht Hd) as (self & ? & ?). exists self. auto. }
    assert (HO : objects_told N wb d -> objects_told (N ∖ {[o]}) wb (notify_always o d)) by (intros Ho Hs; auto).
    destruct pc as [|n|n|n|n|n|[x|]]; cbn in *; try done; naive_solver.
Qed.

Lemma notify_proper d o : blocks_proper d -> blocks_proper (notify_always o d).
Proof.
  intros Hp b wb. cbn. destruct (notify_list (waiters o d) (blocks d) b) as (k & _ & _ & _ & ->).
  destruct (blocks d !! b) as [wb0|] eqn:E; [|done]. intros [= <-]. by apply (Hp b wb0).
Qed.

(** ** Changes away from a wait *)

Lemma wait_ok_ext N d d' b r pc :
  blocks d' !! b = blocks d !! b ->
  (forall o, o ∈ registered_on r -> b ∈ waiters o d ->
     b ∈ waiters o d' /\ ob_state <$> objects d' !! o = ob_state <$> objects d !! o) ->
  wait_ok N d b r pc -> wait_ok N d' b r pc.
Proof.
  intros Eb Ho [Hl (wb & E & Hm & Hpc & Hen)].
  assert (Hst : forall o, o ∈ registered_on r -> ob_state <$> objects d' !! o = ob_state <$> objects d !! o)
    by (intros o Hr; by apply Ho, Hl).
  split; [intros o Hr; by apply Ho, Hl|]. exists wb. rewrite Eb.
  assert (HT : is_terminated (wr_self r) d' = is_terminated (wr_self r) d).
  { destruct (wr_self r) as [self|] eqn:Es; [|done]. cbn. by rewrite Hst by (by apply self_registered). }
  assert (HA : alert_pending r d' = alert_pending r d).
  { rewrite !alert_flags. f_equal. destruct (wr_self r) as [self|] eqn:Es; [|done]. unfold flags_of.
    by rewrite Hst by (by apply self_registered). }
  assert (HS : sat (objects d') wb = sat (objects d) wb).
  { assert (Hc : forall o, o ∈ wr_objects r ->
      can_satisfy (objects d') (wb_thread_id wb) o = can_satisfy (objects d) (wb_thread_id wb) o).
    { intros o Hin. assert (Hr : o ∈ registered_on r).
      { unfold registered_on. apply elem_of_app. left. by apply distinct_elem. }
      specialize (Hst o Hr). unfold can_satisfy. destruct (objects d' !! o), (objects d !! o); cbn in Hst; congruence. }
    apply eq_true_iff_eq. rewrite !sat_spec. destruct Hm as [-> -> _]. destruct (wb_wait_all wb).
    - setoid_rewrite distinct_elem. split; intros Hall o Hin; [rewrite <- Hc|rewrite Hc]; auto.
    - split; intros (o & Hin & Hs); exists o; [rewrite <- Hc|rewrite Hc]; auto. }
  split_and!; [done|done| |].
  - destruct pc as [|n|n|n|n|n|[x|]]; cbn in *; try done;
      unfold terminated_told, objects_told, alert_told in *; by rewrite ?HT, ?HA, ?HS.
  - intros Hg. rewrite HS. intros Hs. destruct (Hen Hg Hs) as (o & Hin & Ht). exists o. split; [done|].
    cbn in *. rewrite Hst; [done|]. unfold registered_on. rewrite (mf_distinct _ _ Hm) in Hin. set_solver.
Qed.

Lemma wait_ok_pc N d b r pc pc' :
  (forall wb, blocks d !! b = Some wb -> pc_ok N r wb d pc -> pc_ok N r wb d pc') ->
  wait_ok N d b r pc -> wait_ok N d b r pc'.
Proof. intros Hpc [Hl (wb & E & Hm & Hok & Hen)]. split; [done|]. exists wb. auto. Qed.

(** ** Registering and unregistering *)

Lemma on_lists_lookup f l d o :
  NoDup l ->
  objects (on_lists f l d) !! o = if decide (o ∈ l) then f <$> objects d !! o else objects d !! o.
Proof.
  unfold on_lists. revert d. induction l as [|p l IH]; intros d Hl; [done|]. cbn [foldl].
  apply NoDup_cons in Hl as [Hp Hl]. rewrite IH by done. cbn. destruct (decide (p = o)) as [->|Hne].
  - rewrite lookup_alter_eq. by rewrite decide_False, decide_True by set_solver.
  - rewrite lookup_alter_ne by done. destruct (decide (o ∈ l)); [rewrite decide_True by set_solver|rewrite decide_False by set_solver]; done.
Qed.

Lemma on_lists_blocks f l d : blocks (on_lists f l d) = blocks d.
Proof. unfold on_lists. revert d. induction l as [|p l IH]; intros d; [done|]. cbn [foldl]. by rewrite IH. Qed.

Lemma registered_on_NoDup r : NoDup (registered_on r).
Proof.
  unfold registered_on. apply NoDup_app. split_and!; [apply distinct_NoDup| |].
  - intros x Hx. destruct (wr_self r); [|set_solver]. case_bool_decide; set_solver.
  - destruct (wr_self r); [|constructor]. case_bool_decide; [constructor|apply NoDup_singleton].
Qed.

Lemma remove_first_other b c l : b <> c -> b ∈ l -> b ∈ remove_first c l.
Proof.
  intros Hne. induction l as [|x l IH]; [done|]. cbn. intros Hin. destruct (Z.eqb_spec x c); set_solver.
Qed.

(** The other waits, when one registers or unregisters. *)
Lemma on_lists_wait N d b r pc f l :
  NoDup l -> (forall x, ob_state (f x) = ob_state x) ->
  (forall x, b ∈ ob_waiters x -> b ∈ ob_waiters (f x)) ->
  wait_ok N d b r pc -> wait_ok N (on_lists f l d) b r pc.
Proof.
  intros Hl Hs Hb. apply wait_ok_ext; [by rewrite on_lists_blocks|]. intros o _ Hin. unfold waiters in *.
  rewrite on_lists_lookup by done. destruct (decide (o ∈ l)); [|done].
  destruct (objects d !! o) as [x|]; [|done]. cbn. rewrite Hs. auto.
Qed.

(** Other blocks may change. *)
Lemma wait_ok_block N m bs bs' b r pc :
  bs' !! b = bs !! b -> wait_ok N (mkDispatcher m bs) b r pc -> wait_ok N (mkDispatcher m bs') b r pc.
Proof. intros E. apply wait_ok_ext; [done|]. by intros o _ Hb. Qed.

Lemma alert_or_apc_none r d d' : alert_or_apc r d = (None, d') -> d' = d /\ alert_pending r d = false.
Proof.
  intros E. unfold alert_pending. rewrite E. split; [|done]. unfold alert_or_apc in E. repeat case_match; congruence.
Qed.

Lemma alert_or_apc_some r d x d' :
  alert_or_apc r d = (Some x, d') ->
  d' = d \/ exists o, d' = update_object (thread_flags (λ t _ p, ThreadState t false p)) o d.
Proof.
  intros E. unfold alert_or_apc in E. repeat case_match; simplify_eq; try by left. right. by eexists.
Qed.

Lemma lower_alert_wait N d o b r pc :
  wait_ok N d b r pc -> wait_ok N (update_object (thread_flags (λ t _ p, ThreadState t false p)) o d) b r pc.
Proof.
  apply flags_wait; [done|]. intros t a p. exists t, false, p. split_and!; [done|done|]. right. split; [done|].
  cbn. intros ->. by rewrite orb_true_r.
Qed.

Lemma alert_or_apc_wait N r' d x d' b r pc :
  alert_or_apc r' d = (x, d') -> wait_ok N d b r pc -> wait_ok N d' b r pc.
Proof.
  intros E Hw. destruct x as [x|].
  - destruct (alert_or_apc_some _ _ _ _ E) as [->|(o & ->)]; [done|by apply lower_alert_wait].
  - by destruct (alert_or_apc_none _ _ _ E) as [-> _].
Qed.

Lemma alert_or_apc_blocks r d x d' : alert_or_apc r d = (x, d') -> blocks d' = blocks d.
Proof. intros E. unfold alert_or_apc in E. by repeat case_match; simplify_eq. Qed.

Lemma valid_request_spec r d o : valid_request r d = true -> o ∈ wr_objects r -> is_Some (objects d !! o).
Proof.
  unfold valid_request. rewrite !andb_true_iff, forallb_forall. intros [_ Hall] Ho.
  apply list_elem_of_In in Ho. specialize (Hall o Ho). by apply bool_decide_eq_true in Hall.
Qed.

Lemma valid_request_nonempty r d : valid_request r d = true -> wr_objects r <> [].
Proof. unfold valid_request. destruct (wr_objects r); [done|by intros]. Qed.

Lemma begin_wait_ok N r b d d' :
  valid_request r d = true -> (forall self, wr_self r = Some self -> is_thread self d) ->
  begin_wait r b d = (d', Registered) -> wait_ok N d' b r Loop.
Proof.
  intros Hv Hself. unfold begin_wait. destruct (try_satisfy_wait (new_block r) (objects d)) as [[[? ?] ?]|] eqn:Et; [done|].
  destruct (alert_or_apc r d) as [[x|] d1] eqn:Ea; [done|]. destruct (_ && _); [done|]. intros [= <-].
  destruct (alert_or_apc_none _ _ _ Ea) as [-> _].
  assert (Hex : forall o, o ∈ registered_on r -> is_Some (objects d !! o)).
  { unfold registered_on. intros o [Ho|Ho]%elem_of_app; [eapply valid_request_spec; [done|by apply distinct_elem]|].
    destruct (wr_self r) as [self|] eqn:Es; [|set_solver].
    assert (o = self) as -> by (case_bool_decide; set_solver).
    destruct (Hself self eq_refl) as (t & a & p & E). destruct (objects d !! self); [done|done]. }
  set (d1 := mkDispatcher (objects d) (<[b := new_block r]> (blocks d))).
  assert (E : forall o, objects (on_lists (add_waiter b) (registered_on r) d1) !! o =
    if decide (o ∈ registered_on r) then add_waiter b <$> objects d !! o else objects d !! o)
    by (intros o; by rewrite on_lists_lookup by apply registered_on_NoDup).
  split.
  - intros o Ho. unfold waiters. rewrite E, decide_True by done. destruct (Hex o Ho) as [x ->]. cbn. set_solver.
  - exists (new_block r). split_and!; [|by split; [..|eapply valid_request_nonempty]|done|].
    + rewrite on_lists_blocks. by apply lookup_insert_eq.
    + intros _ Hs. exfalso. assert (Hs' : sat (objects d) (new_block r) = true); [|unfold sat in Hs'; by rewrite Et in Hs'].
      revert Hs. apply sat_weaker. intros thread o. unfold can_satisfy. rewrite E.
      destruct (decide _), (objects d !! o); done.
Qed.

(** ** Every step keeps the invariant *)

Lemma signal_is_calm d d' : blocks_proper d -> signal d d' -> calm d d'.
Proof.
  intros Hp [].
  - by apply event_set_calm.
  - by apply event_pulse_calm.
  - by apply event_reset_calm.
  - by apply event_reconcile_calm.
  - by apply semaphore_release_calm.
  - by apply semaphore_reconcile_calm.
  - by apply mutant_release_calm.
  - by apply mutant_abandon_calm.
  - by apply abandon_if_owned_calm.
  - by apply timer_set_calm.
  - by apply timer_cancel_calm.
  - by apply timer_fire_calm.
Qed.

Lemma signal_before_calm d d' : blocks_proper d -> signal_before d d' -> calm d d'.
Proof. intros Hp [|d1 Hs]; [done|by apply signal_is_calm]. Qed.

Lemma attach_calm v o d : calm d (attach_mirror v o d).
Proof. apply weakens_calm. split; by_state. Qed.

Lemma guest_store_calm v o d : calm d (guest_store v o d).
Proof. apply weakens_calm. split; by_state. Qed.

Lemma recheck_satisfies b d : blocks_proper d -> (recheck b d).1 = satisfy_waiter d b.
Proof.
  intros Hp. unfold recheck, satisfy_waiter. destruct (blocks d !! b) as [wb|] eqn:E; [|done].
  destruct (Hp _ _ E) as [_ Hne]. destruct (wb_granted wb); [done|]. destruct (wb_objects wb); [done|].
  by destruct (try_satisfy_wait wb (objects d)) as [[[? ?] ?]|].
Qed.

Lemma recheck_calm b d d' got : blocks_proper d -> recheck b d = (d', got) -> calm d d'.
Proof.
  intros Hp E. pose proof (recheck_satisfies b d Hp) as Hr. rewrite E in Hr. cbn in Hr. subst d'.
  apply satisfy_waiter_calm, Hp.
Qed.

Lemma begin_wait_ended_ok N r d d' b0 result index b' r' pc :
  blocks_proper d -> begin_wait r b0 d = (d', Ended result index) -> wait_ok N d b' r' pc -> wait_ok N d' b' r' pc.
Proof.
  intros Hp. unfold begin_wait. destruct (try_satisfy_wait (new_block r) (objects d)) as [[[m i] ab]|] eqn:Et.
  - intros [= <- _ _]. destruct (try_satisfy_spec (new_block r) _ _ _ _ eq_refl Et) as [Hw Hf]. apply calm_wait; [|done].
    split; [done|by left|]. intros _ b wb _ _ _. by apply sat_weaker.
  - destruct (alert_or_apc r d) as [[x|] d1] eqn:Ea; [intros [= <- _ _]; by eapply alert_or_apc_wait|].
    destruct (_ && _); [|done]. intros [= <- _ _]. by eapply alert_or_apc_wait.
Qed.

Lemma begin_wait_blocks r b d d' o :
  begin_wait r b d = (d', o) -> forall b' wb, blocks d' !! b' = Some wb -> blocks d !! b' = Some wb \/ wb = new_block r.
Proof.
  unfold begin_wait. destruct (try_satisfy_wait _ _) as [[[m i] ab]|]; [intros [= <- _]; by left|].
  destruct (alert_or_apc r d) as [[x|] d1] eqn:Ea; pose proof (alert_or_apc_blocks _ _ _ _ Ea) as Hb.
  - intros [= <- _]. rewrite Hb. by left.
  - destruct (_ && _); intros [= <- _] b' wb; [rewrite Hb; by left|]. rewrite on_lists_blocks. cbn. rewrite Hb.
    destruct (decide (b = b')) as [<-|Hne]; [rewrite lookup_insert_eq; intros [= <-]; by right|].
    rewrite lookup_insert_ne by done. by left.
Qed.

Lemma new_block_proper r d : valid_request r d = true -> proper (new_block r).
Proof. intros Hv. split; [done|]. by eapply valid_request_nonempty. Qed.

Lemma begin_wait_other N r d d' b b' r' pc :
  b <> b' -> begin_wait r b d = (d', Registered) -> wait_ok N d b' r' pc -> wait_ok N d' b' r' pc.
Proof.
  intros Hne. unfold begin_wait. destruct (try_satisfy_wait _ _) as [[[m i] ab]|]; [done|].
  destruct (alert_or_apc r d) as [[x|] d1] eqn:Ea; [done|]. destruct (_ && _); [done|]. intros [= <-] Hw.
  destruct (alert_or_apc_none _ _ _ Ea) as [-> _]. apply on_lists_wait; [apply registered_on_NoDup|done| |].
  - intros x. cbn. set_solver.
  - destruct d as [m bs]. eapply wait_ok_block; [|exact Hw]. by apply lookup_insert_ne.
Qed.

Lemma finish_other N r d d' outcome result b b' r' pc :
  b <> b' -> finish_wait r outcome b d = (d', result) -> wait_ok N d b' r' pc -> wait_ok N d' b' r' pc.
Proof.
  intros Hne. unfold finish_wait. destruct (blocks d !! b) as [wb|]; intros [= <- _] Hw; [|done].
  assert (Hw' : wait_ok N (on_lists (remove_waiter b) (registered_on r) d) b' r' pc).
  { apply on_lists_wait; [apply registered_on_NoDup|done| |done]. intros x. cbn. by apply remove_first_other. }
  revert Hw'. generalize (on_lists (remove_waiter b) (registered_on r) d). intros [m bs]. apply wait_ok_block.
  by apply lookup_delete_ne.
Qed.

Lemma finish_blocks r d d' outcome result b :
  finish_wait r outcome b d = (d', result) -> blocks_proper d -> blocks_proper d'.
Proof.
  unfold finish_wait. destruct (blocks d !! b) as [wb|]; intros [= <- _] Hp; [|done].
  intros b' wb'. cbn. rewrite on_lists_blocks, lookup_delete_Some. intros [_ E]. by apply (Hp b').
Qed.

Lemma create_wait N d o x b r pc :
  objects d !! o = None -> wait_ok N d b r pc -> wait_ok N (set_objects (<[o := x]> (objects d)) d) b r pc.
Proof.
  intros Ho. apply wait_ok_ext; [done|]. intros p _ Hb. unfold waiters in *. cbn.
  destruct (decide (o = p)) as [<-|Hne]; [|by rewrite lookup_insert_ne].
  rewrite Ho in Hb. by apply elem_of_nil in Hb.
Qed.

Lemma raise_flag_wait N o d d' b r pc :
  raise_flag o d d' -> wait_ok N d b r pc -> wait_ok ({[o]} ∪ N) d' b r pc.
Proof.
  intros []; apply flags_wait; try set_solver; intros t a p; do 3 eexists; (split; [reflexivity|]); set_solver.
Qed.

Lemma clear_apc_wait N o d b r pc :
  wait_ok N d b r pc -> wait_ok N (thread_apc_pending false o d) b r pc.
Proof.
  apply flags_wait; [done|]. intros t a p. do 3 eexists. split; [reflexivity|]. split; [done|]. right. split; [done|].
  by destruct a.
Qed.

Lemma raise_flag_blocks o d d' : raise_flag o d d' -> blocks d' = blocks d.
Proof. by intros []. Qed.

(** A waiter's own step that leaves the dispatcher alone. *)
Lemma invariant_pc s b r pc pc' :
  invariant s -> sy_waits s !! b = Some (r, pc) ->
  (forall wb, blocks (sy_state s) !! b = Some wb ->
     pc_ok (sy_notifying s) r wb (sy_state s) pc -> pc_ok (sy_notifying s) r wb (sy_state s) pc') ->
  invariant (with_pc b r pc' s).
Proof.
  intros [Hw Hp] E Hok. split; [|done]. intros b' r' pc0. cbn. destruct (decide (b = b')) as [<-|Hne].
  - rewrite lookup_insert_eq. intros [= <- <-]. eapply wait_ok_pc; [exact Hok|by apply Hw].
  - rewrite lookup_insert_ne by done. apply Hw.
Qed.

(** A step of the dispatcher that keeps every wait. *)
Lemma invariant_state s d :
  invariant s -> blocks_proper d ->
  (forall b r pc, wait_ok (sy_notifying s) (sy_state s) b r pc -> wait_ok (sy_notifying s) d b r pc) ->
  invariant (with_state d s).
Proof. intros [Hw Hp] Hp' Hk. split; [|done]. intros b r pc E. by apply Hk, Hw. Qed.

Lemma invariant_calm s d : invariant s -> calm (sy_state s) d -> invariant (with_state d s).
Proof.
  intros Hi Hc. pose proof (in_blocks s Hi) as Hp. apply invariant_state; [done|by eapply calm_proper|].
  intros b r pc. by apply calm_wait.
Qed.

Lemma invariant_register s r b d d' :
  invariant s -> signal_before (sy_state s) d -> may_begin r b s d -> begin_wait r b d = (d', Registered) ->
  invariant (mkSystem d' (<[b := (r, Loop)]> (sy_waits s)) (sy_notifying s)).
Proof.
  intros Hi Hs (Hv & Hn & _ & Hself) Hb. pose proof (signal_before_calm _ _ (in_blocks s Hi) Hs) as Hc.
  destruct (invariant_calm s d Hi Hc) as [Hw Hp]. cbn in Hw, Hp. split; cbn.
  - intros b' r' pc. destruct (decide (b = b')) as [<-|Hne].
    + rewrite lookup_insert_eq. intros [= <- <-]. by eapply begin_wait_ok.
    + rewrite lookup_insert_ne by done. intros E. eapply begin_wait_other; [done|done|by apply Hw].
  - intros b' wb E. destruct (begin_wait_blocks _ _ _ _ _ Hb _ _ E) as [E'| ->]; [by apply (Hp b')|by eapply new_block_proper].
Qed.

Lemma invariant_not_registered s r b d d' result index :
  invariant s -> signal_before (sy_state s) d -> may_begin r b s d -> begin_wait r b d = (d', Ended result index) ->
  invariant (with_state d' s).
Proof.
  intros Hi Hs (Hv & _) Hb. pose proof (signal_before_calm _ _ (in_blocks s Hi) Hs) as Hc.
  destruct (invariant_calm s d Hi Hc) as [Hw Hp]. cbn in Hw, Hp. split; cbn.
  - intros b' r' pc E. eapply begin_wait_ended_ok; [done|done|by apply Hw].
  - intros b' wb E. destruct (begin_wait_blocks _ _ _ _ _ Hb _ _ E) as [E'| ->]; [by apply (Hp b')|by eapply new_block_proper].
Qed.

Lemma recheck_pc_ok N r b d d' n got wb :
  recheck b d = (d', got) -> blocks d' !! b = Some wb -> seen n wb -> (wb_wakeups wb = n -> terminated_told N r d') ->
  pc_ok N r wb d' (if got then Ending None else Checked n).
Proof.
  unfold recheck. destruct (blocks d !! b) as [wb0|] eqn:E; [|intros [= <- <-]; congruence].
  destruct (wb_granted wb0) eqn:Eg.
  - intros [= <- <-]. rewrite E. intros [= ->] Hs Ht. split; [done|]. intros Hn. destruct Hs as [_ Hlt].
    specialize (Hlt Eg). lia.
  - destruct (try_satisfy_wait wb0 (objects d)) as [[[m i] ab]|] eqn:Et; intros [= <- <-]; cbn [blocks].
    + rewrite lookup_insert_eq. by intros [= <-].
    + rewrite E. intros [= ->] Hs Ht. split; [done|]. intros Hn. split; [auto|]. unfold objects_told, sat. by rewrite Et.
Qed.

Lemma invariant_recheck s b r n d got :
  invariant s -> sy_waits s !! b = Some (r, Alive n) -> recheck b (sy_state s) = (d, got) ->
  invariant (with_pc b r (if got then Ending None else Checked n) (with_state d s)).
Proof.
  intros Hi E Hr. pose proof (invariant_calm s d Hi (recheck_calm _ _ _ _ (in_blocks s Hi) Hr)) as Hi'.
  eapply invariant_pc; [exact Hi'|exact E|]. intros wb Hb [Hs Ht]. by eapply recheck_pc_ok.
Qed.

Lemma invariant_alert s b r n d ended :
  invariant s -> sy_waits s !! b = Some (r, Checked n) -> alert_or_apc r (sy_state s) = (ended, d) ->
  invariant (with_pc b r (match ended with Some _ => Ending ended | None => Calm n end) (with_state d s)).
Proof.
  intros Hi E Ha. assert (Hi' : invariant (with_state d s)).
  { apply invariant_state; [done| |intros b' r' pc; by eapply alert_or_apc_wait].
    intros b' wb. rewrite (alert_or_apc_blocks _ _ _ _ Ha). apply (in_blocks s Hi). }
  eapply invariant_pc; [exact Hi'|exact E|]. intros wb Hb [Hs Ht]. destruct ended as [x|]; [done|].
  destruct (alert_or_apc_none _ _ _ Ha) as [-> Hn]. cbn in Ht |- *. split; [done|]. intros Hw. destruct (Ht Hw).
  split_and!; [done|done|]. unfold alert_told. by rewrite Hn.
Qed.

Lemma invariant_step s s' : invariant s -> step s s' -> invariant s'.
Proof.
  intros Hi [o x Ho _ _|d Hs|v o|v o|o d Hr|o|o|r b d d' Hs Hm Hb|r b d d' result index Hs Hm Hb|b r wb E Eb|b r n E|
    b r n d got E Hr|b r n d ended E Ha|b r n E _|b r n E|b r n wb E Eb Hw|b r n E _|b r outcome d result E Hf].
  - apply invariant_state; [done|apply (in_blocks s Hi)|]. intros b r pc. by apply create_wait.
  - apply invariant_calm; [done|]. apply signal_is_calm; [apply (in_blocks s Hi)|done].
  - apply invariant_calm; [done|apply attach_calm].
  - apply invariant_calm; [done|apply guest_store_calm].
  - destruct Hi as [Hw Hp]. split; cbn; [|intros b wb; rewrite (raise_flag_blocks _ _ _ Hr); apply Hp].
    intros b r pc E. eapply raise_flag_wait; [done|by apply Hw].
  - apply invariant_state; [done|apply (in_blocks s Hi)|]. intros b r pc. apply clear_apc_wait.
  - destruct Hi as [Hw Hp]. split; cbn; [|by apply notify_proper]. intros b r pc E. by apply notify_wait, Hw.
  - by eapply invariant_register.
  - by eapply invariant_not_registered.
  - eapply invariant_pc; [done|done|]. intros wb' Eb' _. rewrite Eb in Eb'. injection Eb' as <-.
    destruct (wb_granted wb) eqn:Eg; cbn; [done|]. split; [lia|congruence].
  - eapply invariant_pc; [done|done|]. intros wb Eb Hs. destruct (is_terminated _ _) eqn:Et; [done|].
    split; [done|]. intros _. unfold terminated_told. by rewrite Et.
  - by apply invariant_recheck.
  - by apply invariant_alert.
  - by eapply invariant_pc.
  - by eapply invariant_pc.
  - by eapply invariant_pc.
  - by eapply invariant_pc.
  - destruct Hi as [Hw Hp]. split; cbn; [|by eapply finish_blocks]. intros b' r' pc'.
    rewrite lookup_delete_Some. intros [Hne E']. by eapply finish_other; [| |apply Hw].
Qed.

Lemma invariant_reachable s : reachable s -> invariant s.
Proof.
  induction 1 as [|s s' _ IH Hs]; [|by eapply invariant_step]. split; cbn.
  - intros b r pc. by rewrite lookup_empty.
  - intros b wb. cbn. by rewrite lookup_empty.
Qed.

(** ** The lists hold registered waits, each once *)

Record listed (s : System) : Prop := mkListed {
  li_nodup : forall o, NoDup (waiters o (sy_state s));
  li_waits : forall o b, b ∈ waiters o (sy_state s) -> exists r pc, sy_waits s !! b = Some (r, pc) /\ o ∈ registered_on r
}.

Lemma listed_frame s d waits N :
  listed s -> (forall o, waiters o d = waiters o (sy_state s)) ->
  (forall b r pc, sy_waits s !! b = Some (r, pc) -> exists pc', waits !! b = Some (r, pc')) ->
  listed (mkSystem d waits N).
Proof.
  intros [Hn Hw] Hd Hs. split; cbn; intros o; rewrite Hd; [done|]. intros b Hb.
  destruct (Hw o b Hb) as (r & pc & E & Ho). destruct (Hs _ _ _ E) as (pc' & E'). by exists r, pc'.
Qed.

Lemma listed_state s d : listed s -> (forall o, waiters o d = waiters o (sy_state s)) -> listed (with_state d s).
Proof. intros Hl Hd. apply (listed_frame s); [done|done|]. intros b r pc E. by exists pc. Qed.

Lemma listed_pc s b r pc pc' : listed s -> sy_waits s !! b = Some (r, pc) -> listed (with_pc b r pc' s).
Proof.
  intros Hl E. apply (listed_frame s); [done|done|]. intros b' r' pc0 E'. destruct (decide (b = b')) as [<-|Hne].
  - rewrite lookup_insert_eq. rewrite E in E'. injection E' as <- <-. by exists pc'.
  - rewrite lookup_insert_ne by done. by exists pc0.
Qed.

Lemma listed_calm s d : listed s -> calm (sy_state s) d -> listed (with_state d s).
Proof. intros Hl [Hf _ _]. apply listed_state; [done|]. intros o. by apply frame_waiters. Qed.

Lemma alert_or_apc_waiters r d x d' o : alert_or_apc r d = (x, d') -> waiters o d' = waiters o d.
Proof.
  intros E. destruct x as [x|]; [|by destruct (alert_or_apc_none _ _ _ E) as [-> _]].
  destruct (alert_or_apc_some _ _ _ _ E) as [->|(p & ->)]; [done|apply flags_waiters].
Qed.

Lemma begin_ended_waiters r b d d' result index o :
  begin_wait r b d = (d', Ended result index) -> waiters o d' = waiters o d.
Proof.
  unfold begin_wait. destruct (try_satisfy_wait (new_block r) (objects d)) as [[[m i] ab]|] eqn:Et.
  - intros [= <- _ _]. apply frame_waiters. by apply (try_satisfy_spec (new_block r) _ _ _ _ eq_refl Et).
  - destruct (alert_or_apc r d) as [[x|] d1] eqn:Ea; [intros [= <- _ _]; by eapply alert_or_apc_waiters|].
    destruct (_ && _); [|done]. intros [= <- _ _]. by eapply alert_or_apc_waiters.
Qed.

Lemma on_lists_waiters f l d o :
  NoDup l ->
  waiters o (on_lists f l d) = match objects d !! o with
    | Some x => if decide (o ∈ l) then ob_waiters (f x) else ob_waiters x | None => [] end.
Proof. intros Hl. unfold waiters. rewrite on_lists_lookup by done. by destruct (decide _), (objects d !! o). Qed.

Lemma begin_wait_waiters r b d d' o :
  begin_wait r b d = (d', Registered) ->
  waiters o d' = waiters o d \/ o ∈ registered_on r /\ waiters o d' = waiters o d ++ [b].
Proof.
  unfold begin_wait. destruct (try_satisfy_wait _ _) as [[[m i] ab]|]; [done|].
  destruct (alert_or_apc r d) as [[x|] d1] eqn:Ea; [done|]. destruct (_ && _); [done|]. intros [= <-].
  rewrite on_lists_waiters by apply registered_on_NoDup. rewrite <- (alert_or_apc_waiters _ _ _ _ o Ea). unfold waiters. cbn.
  destruct (objects d1 !! o) as [x|]; [|by left]. destruct (decide (o ∈ registered_on r)); [by right|by left].
Qed.

Lemma remove_first_spec b l : NoDup l -> NoDup (remove_first b l) /\ forall c, c ∈ remove_first b l -> c ∈ l /\ c <> b.
Proof.
  induction l as [|x l IH]; [set_solver|]. intros [Hx Hl]%NoDup_cons. destruct (IH Hl) as [H1 H2]. cbn.
  destruct (Z.eqb_spec x b) as [->|Hne]; [set_solver|]. split; [|set_solver]. apply NoDup_cons. set_solver.
Qed.

Lemma listed_register s r b d d' :
  listed s -> calm (sy_state s) d -> may_begin r b s d -> begin_wait r b d = (d', Registered) ->
  listed (mkSystem d' (<[b := (r, Loop)]> (sy_waits s)) (sy_notifying s)).
Proof.
  intros Hl Hc (_ & Hfree & _) Hb. destruct (listed_calm s d Hl Hc) as [Hn Hw]. cbn in Hn, Hw.
  assert (Hout : forall o, b ∉ waiters o d).
  { intros o Ho. destruct (Hw o b Ho) as (? & ? & E & _). congruence. }
  assert (Hother : forall o c, c ∈ waiters o d ->
    exists r' pc, <[b := (r, Loop)]> (sy_waits s) !! c = Some (r', pc) /\ o ∈ registered_on r').
  { intros o c Ho. assert (b <> c) by (intros ->; by eapply Hout). rewrite lookup_insert_ne by done. by apply Hw. }
  split; cbn; intros o; destruct (begin_wait_waiters _ _ _ _ o Hb) as [->|[Ho ->]]; [done| |auto|].
  - apply NoDup_app. split_and!; [done| |apply NoDup_singleton]. intros x Hx ->%list_elem_of_singleton. by eapply Hout.
  - intros c [Hin| ->%list_elem_of_singleton]%elem_of_app; [auto|]. rewrite lookup_insert_eq. by exists r, Loop.
Qed.

Lemma listed_finish s b r pc outcome d result :
  listed s -> sy_waits s !! b = Some (r, pc) -> is_Some (blocks (sy_state s) !! b) ->
  finish_wait r outcome b (sy_state s) = (d, result) -> listed (mkSystem d (delete b (sy_waits s)) (sy_notifying s)).
Proof.
  intros [Hn Hw] E [wb Eb]. unfold finish_wait. rewrite Eb. intros [= <- _].
  assert (Hin : forall o, NoDup (waiters o (on_lists (remove_waiter b) (registered_on r) (sy_state s))) /\
    forall c, c ∈ waiters o (on_lists (remove_waiter b) (registered_on r) (sy_state s)) ->
      c ∈ waiters o (sy_state s) /\ c <> b).
  { intros o. rewrite on_lists_waiters by apply registered_on_NoDup. specialize (Hn o).
    assert (Hb : b ∈ waiters o (sy_state s) -> o ∈ registered_on r).
    { intros Hin. destruct (Hw o b Hin) as (r' & pc' & E' & ?). congruence. }
    unfold waiters in *. destruct (objects (sy_state s) !! o) as [x|]; [|split; [done|by intros c ?%elem_of_nil]].
    destruct (decide (o ∈ registered_on r)); [by apply remove_first_spec|]. split; [done|]. intros c Hc.
    split; [done|]. naive_solver. }
  split; cbn; intros o; [apply Hin|]. intros c Hc. destruct (Hin o) as [_ Ho]. destruct (Ho c Hc) as [Hc' Hne].
  destruct (Hw o c Hc') as (r' & pc' & E' & ?). exists r', pc'. by rewrite lookup_delete_ne.
Qed.

Lemma listed_step s s' : invariant s -> listed s -> step s s' -> listed s'.
Proof.
  intros Hi Hl Hs. pose proof (in_blocks s Hi) as Hp.
  destruct Hs as [o x Ho Hx _|d Hs|v o|v o|o d Hr|o|o|r b d d' Hs Hm Hb|r b d d' result index Hs Hm Hb|b r wb E Eb|b r n E|
    b r n d got E Hr|b r n d ended E Ha|b r n E _|b r n E|b r n wb E Eb Hw|b r n E _|b r outcome d result E Hf].
  - apply listed_state; [done|]. intros p. unfold waiters. cbn. destruct (decide (o = p)) as [<-|Hne].
    + by rewrite lookup_insert_eq, Ho.
    + by rewrite lookup_insert_ne.
  - apply listed_calm; [done|by apply signal_is_calm].
  - apply listed_calm; [done|apply attach_calm].
  - apply listed_calm; [done|apply guest_store_calm].
  - apply (listed_frame s); [done| |by eauto]. intros p. destruct Hr; apply flags_waiters.
  - apply listed_state; [done|]. intros p. apply flags_waiters.
  - apply (listed_frame s); [done|done|by eauto].
  - eapply listed_register; [done|by eapply signal_before_calm|done|done].
  - pose proof (signal_before_calm _ _ Hp Hs) as Hc. apply listed_state; [done|]. intros p.
    rewrite (begin_ended_waiters _ _ _ _ _ _ p Hb). by apply frame_waiters, Hc.
  - by eapply listed_pc.
  - by eapply listed_pc.
  - eapply listed_pc; [|exact E]. eapply listed_calm; [done|by eapply recheck_calm].
  - eapply listed_pc; [|exact E]. apply listed_state; [done|]. intros p. by eapply alert_or_apc_waiters.
  - by eapply listed_pc.
  - by eapply listed_pc.
  - by eapply listed_pc.
  - by eapply listed_pc.
  - eapply listed_finish; [done|done| |done]. destruct (in_waits s Hi _ _ _ E) as [_ (wb & -> & _)]. done.
Qed.

Lemma listed_reachable s : reachable s -> listed s.
Proof.
  induction 1 as [|s s' Hr IH Hs]; [|eapply listed_step; [by apply invariant_reachable|done|done]].
  split; cbn; intros o; [constructor|]. by intros b ?%elem_of_nil.
Qed.
