(* ===== verification/DispatcherBounds.v ===== *)
(** * Counts stay in range

    A semaphore's count stays between zero and its maximum, only a free mutant is
    abandoned, and a mutant's recursion count stays within an [int32_t]; it is not
    negative as long as fewer than 2^31 - 1 waits have begun. The last is a count of
    credits: each begun wait brings one, which a pending wait keeps and a satisfied
    one hands to the mutants it takes. *)

From S2P Require Import Prelude.
From S2P Require Import Words.
From S2P Require Import Dispatcher.
From S2P Require Import DispatcherInv.
From S2P Require Import DispatcherSystem.
From S2P Require Import DispatcherReach.

(** At most [c] acquisitions have been handed out. *)
Definition state_ok (c : Z) (x : ObjectState) : Prop :=
  match x with
  | SemaphoreState count maximum => 0 <= count <= maximum
  | MutantState _ _ recursion abandoned =>
      - 2 ^ 31 <= recursion < 2 ^ 31 /\ (abandoned = true -> recursion = 0) /\
      (c < 2 ^ 31 -> 0 <= recursion <= c)
  | _ => True
  end.

Definition map_ok (c : Z) (m : gmap ObjectId KernelObject) : Prop := map_Forall (λ _ x, state_ok c (ob_state x)) m.

(** The registered waits that are not granted. *)
Definition pending_blocks (bs : gmap BlockId MultiWaitBlock) : gmap BlockId MultiWaitBlock :=
  filter (λ kb, wb_granted kb.2 = false) bs.
Definition pending (bs : gmap BlockId MultiWaitBlock) : Z := Z.of_nat (size (pending_blocks bs)).

(** [k] credits, one of them kept by each pending wait and one for an initial owner. *)
Definition objects_ok (k : Z) (d : Dispatcher) : Prop :=
  pending (blocks d) + 1 <= k /\ map_ok (k - pending (blocks d)) (objects d).

Lemma state_ok_mono c c' x : c <= c' -> state_ok c x -> state_ok c' x.
Proof.
  intros Hc. destruct x; cbn; try done. intros (? & ? & Hr). split_and!; [lia|lia|done|]. intros Hlt.
  assert (c < 2 ^ 31) as Hlt' by lia. specialize (Hr Hlt'). lia.
Qed.

Lemma map_ok_mono c c' m : c <= c' -> map_ok c m -> map_ok c' m.
Proof. intros Hc Hm o x E. eapply state_ok_mono; [exact Hc|by apply (Hm o)]. Qed.

Lemma objects_ok_mono k k' d : k <= k' -> objects_ok k d -> objects_ok k' d.
Proof. intros Hk [Hp Hm]. split; [lia|]. eapply map_ok_mono; [|exact Hm]. lia. Qed.

(** *** Pending waits *)

Lemma pending_insert b wb bs : wb_granted wb = false -> bs !! b = None -> pending (<[b := wb]> bs) = pending bs + 1.
Proof.
  intros Hg Hb. unfold pending, pending_blocks. rewrite map_filter_insert_True by done.
  rewrite map_size_insert_None; [lia|]. apply map_lookup_filter_None. by left.
Qed.

Lemma pending_grant b index ab wb bs :
  bs !! b = Some wb -> wb_granted wb = false -> pending (<[b := grant index ab wb]> bs) = pending bs - 1.
Proof.
  intros Hb Hg. unfold pending, pending_blocks. rewrite map_filter_insert_False, map_filter_delete by done.
  assert (Hin : is_Some (filter (λ kb : BlockId * MultiWaitBlock, wb_granted kb.2 = false) bs !! b))
    by (exists wb; by apply map_lookup_filter_Some).
  rewrite map_size_delete_Some by done.
  assert (size (filter (λ kb : BlockId * MultiWaitBlock, wb_granted kb.2 = false) bs) <> 0%nat); [|lia].
  intros Hz. apply map_size_empty_inv in Hz. rewrite Hz, lookup_empty in Hin. by destruct Hin.
Qed.

Lemma pending_delete b bs : pending (delete b bs) <= pending bs.
Proof.
  unfold pending, pending_blocks. rewrite map_filter_delete, map_size_delete. case_match; cbn; lia.
Qed.

Lemma pending_wake b bs : pending (alter wake b bs) = pending bs.
Proof.
  destruct (bs !! b) as [wb|] eqn:E.
  - assert (alter wake b bs = <[b := wake wb]> bs) as ->.
    { apply map_eq. intros c. destruct (decide (b = c)) as [<-|Hne].
      - by rewrite lookup_alter_eq, lookup_insert_eq, E.
      - by rewrite lookup_alter_ne, lookup_insert_ne. }
    unfold pending, pending_blocks. rewrite map_filter_insert. cbn [wb_granted wake snd].
    case_decide as Hg.
    + rewrite map_size_insert_Some; [done|]. exists wb. by apply map_lookup_filter_Some.
    + rewrite map_filter_delete_not; [done|]. intros y Hy. rewrite E in Hy. by injection Hy as <-.
  - f_equal. apply map_eq. intros c. destruct (decide (b = c)) as [<-|Hne].
    + by rewrite lookup_alter_eq, E.
    + by rewrite lookup_alter_ne.
Qed.

Lemma pending_wakes l bs : pending (foldl (λ m b, alter wake b m) bs l) = pending bs.
Proof. revert bs. induction l as [|b l IH]; intros bs; [done|]. cbn. by rewrite IH, pending_wake. Qed.

(** *** Changes of one object *)

Lemma ok_update_at k f o d :
  (forall x c, objects d !! o = Some x -> state_ok c (ob_state x) -> state_ok c (ob_state (f x))) ->
  objects_ok k d -> objects_ok k (update_object f o d).
Proof.
  intros Hf [Hp Hd]. split; [done|]. intros p x. cbn. destruct (decide (o = p)) as [<-|Hne].
  - rewrite lookup_alter_eq. destruct (objects d !! o) as [y|] eqn:E; [|done]. intros [= <-].
    apply Hf; [done|]. by apply (Hd o).
  - rewrite lookup_alter_ne by done. apply Hd.
Qed.

Definition keeps_ok (f : KernelObject -> KernelObject) : Prop :=
  forall x c, state_ok c (ob_state x) -> state_ok c (ob_state (f x)).

Lemma ok_update k f o d : keeps_ok f -> objects_ok k d -> objects_ok k (update_object f o d).
Proof. intros Hf. apply ok_update_at. intros x c _. apply Hf. Qed.

Lemma keeps_compose f g : keeps_ok f -> keeps_ok g -> keeps_ok (f ∘ g).
Proof. intros Hf Hg x c Hx. by apply Hf, Hg. Qed.

Lemma keeps_store : keeps_ok store_state.
Proof. by_state. Qed.
Lemma keeps_signaled v : keeps_ok (event_signaled v).
Proof. by_state. Qed.
Lemma keeps_timer v w : keeps_ok (timer_flags v w).
Proof. by_state. Qed.
Lemma keeps_period v : keeps_ok (timer_period v).
Proof. by_state. Qed.
Lemma keeps_deactivate : keeps_ok timer_deactivate.
Proof. by_state. Qed.
Lemma keeps_free v : keeps_ok (mutant_free v).
Proof.
  intros [[| |owner host recursion ab| |] ? ?] c; cbn; try done. intros (_ & _ & Hr).
  split_and!; [done|done|done|]. intros Hc. specialize (Hr Hc). lia.
Qed.
Lemma keeps_mirror v : keeps_ok (mirror_store v).
Proof. by_state. Qed.
Lemma keeps_attach v : keeps_ok (attach v).
Proof. by_state. Qed.

Create HintDb counts.
#[export] Hint Resolve ok_update keeps_compose keeps_store keeps_signaled keeps_timer keeps_period keeps_deactivate
  keeps_free keeps_mirror keeps_attach : counts.

(** ** Satisfying a wait *)

Lemma satisfy_object_ok c thread host x :
  can_satisfy_state (ob_state x) thread = true -> state_ok c (ob_state x) ->
  state_ok (c + 1) (ob_state (satisfy_object thread host x).1).
Proof.
  destruct x as [[[] s|count maximum|owner oh recursion ab|[] s a p|t a p] mirror l]; cbn; try done.
  - rewrite Z.ltb_lt. lia.
  - intros _ (Hb & Ha & Hr). unfold increment. destruct (Z.ltb_spec 0 recursion); cbn.
    + split_and!.
      * destruct (Z.eqb_spec recursion 0x7FFFFFFF); lia.
      * destruct (Z.eqb_spec recursion 0x7FFFFFFF); lia.
      * intros E. specialize (Ha E). lia.
      * intros Hc. assert (Hc' : c < 2 ^ 31) by lia. specialize (Hr Hc').
        destruct (Z.eqb_spec recursion 0x7FFFFFFF); lia.
    + split_and!; [lia|lia|done|]. intros Hc. assert (Hc' : c < 2 ^ 31) by lia. specialize (Hr Hc'). lia.
Qed.

Lemma satisfy_ok c c' thread host o m :
  can_satisfy m thread o = true -> map_ok c' m -> c + 1 <= c' -> (forall x, m !! o = Some x -> state_ok c (ob_state x)) ->
  map_ok c' (satisfy thread host o m).1.
Proof.
  unfold satisfy, can_satisfy. destruct (m !! o) as [x|] eqn:E; [|done]. intros Hc Hm Hcc Hx.
  pose proof (satisfy_object_ok c thread host x Hc (Hx x eq_refl)) as Hs.
  destruct (satisfy_object thread host x) as [x' ab]. cbn in Hs |- *. apply map_Forall_insert_2; [|done].
  by eapply state_ok_mono.
Qed.

Lemma satisfy_lookup_ne thread host o m p : o <> p -> (satisfy thread host o m).1 !! p = m !! p.
Proof.
  intros Hne. unfold satisfy. destruct (m !! o) as [x|]; [|done].
  destruct (satisfy_object thread host x). by apply lookup_insert_ne.
Qed.

Lemma satisfy_all_ok c thread host l m ab :
  NoDup l -> (forall o, o ∈ l -> can_satisfy m thread o = true) -> map_ok (c + 1) m ->
  (forall o x, o ∈ l -> m !! o = Some x -> state_ok c (ob_state x)) ->
  map_ok (c + 1) (satisfy_all thread host l m ab).1.
Proof.
  revert m ab. induction l as [|o l IH]; intros m ab Hl Hc Hm Hx; [done|]. apply NoDup_cons in Hl as [Ho Hl].
  cbn [satisfy_all].
  pose proof (satisfy_ok c (c + 1) thread host o m (Hc o ltac:(left)) Hm ltac:(lia) (λ x, Hx o x ltac:(left))) as H1.
  pose proof (λ p, satisfy_other thread host o m p thread) as Hother.
  pose proof (satisfy_lookup_ne thread host o m) as Hlook.
  destruct (satisfy thread host o m) as [m1 taken]. cbn [fst] in *. apply IH; [done| |done|].
  - intros p Hp. rewrite Hother by set_solver. apply Hc. by right.
  - intros p x Hp. rewrite Hlook by set_solver. apply Hx. by right.
Qed.

(** A satisfied wait hands out one more acquisition of each of its objects. *)
Lemma try_satisfy_ok c b m m' index ab :
  wb_distinct b = distinct (wb_objects b) -> try_satisfy_wait b m = Some (m', index, ab) ->
  map_ok c m -> map_ok (c + 1) m'.
Proof.
  intros Hd. unfold try_satisfy_wait.
  assert (Hmono : map_ok c m -> map_ok (c + 1) m) by (apply map_ok_mono; lia). destruct (wb_wait_all b).
  - destruct (forallb _ _) eqn:E; [|done]. rewrite forallb_forall in E. intros Hs Hm.
    pose proof (satisfy_all_ok c (wb_thread_id b) (wb_host_thread b) (wb_distinct b) m false) as Hok.
    destruct (satisfy_all _ _ _ _ _) as [m1 ab1]. injection Hs as <- _ _.
    apply Hok; [rewrite Hd; apply distinct_NoDup| |by apply Hmono|by intros o x _; apply (Hm o x)].
    intros o Ho. apply E. by apply list_elem_of_In.
  - destruct (list_find _ _) as [[i o]|] eqn:E; [|done]. apply list_find_Some in E as (_ & Hc & _). intros Hs Hm.
    pose proof (satisfy_ok c (c + 1) (wb_thread_id b) (wb_host_thread b) o m Hc (Hmono Hm) ltac:(lia) (Hm o)) as Hok.
    destruct (satisfy _ _ _ _) as [m1 ab1]. by injection Hs as <- _ _.
Qed.

Section Credits.
Context (k : Z).

(** [objects_ok] of the state, with the blocks [begin_wait] makes. *)
Definition counts_ok (d : Dispatcher) : Prop := blocks_proper d /\ objects_ok k d.

Lemma satisfy_waiter_ok d b : counts_ok d -> objects_ok k (satisfy_waiter d b).
Proof using Type.
  intros [Hp [Hk Hd]]. unfold satisfy_waiter. destruct (blocks d !! b) as [wb|] eqn:E; [|done].
  destruct (wb_granted wb) eqn:Eg; [done|]. destruct (false || _); [done|].
  destruct (try_satisfy_wait wb (objects d)) as [[[m i] ab]|] eqn:Et; [|done].
  split; cbn [objects blocks]; rewrite (pending_grant b i ab wb _ E Eg); [lia|].
  eapply map_ok_mono; [|eapply (try_satisfy_ok _ wb (objects d)); [by apply (Hp b)|done|exact Hd]]. lia.
Qed.

Lemma satisfy_waiters_ok o d : counts_ok d -> objects_ok k (satisfy_waiters o d).
Proof.
  unfold satisfy_waiters. generalize (waiters o d). intros l. revert d.
  induction l as [|b l IH]; intros d Hd; [by destruct Hd|]. cbn. apply IH. split; [|by apply satisfy_waiter_ok].
  destruct Hd as [Hp _]. eapply calm_proper; [apply satisfy_waiter_calm, Hp|done].
Qed.

Lemma signal_ok f o d : blocks_proper d -> objects_ok k (update_object f o d) ->
  objects_ok k (satisfy_waiters o (update_object f o d)).
Proof. intros Hp Ho. by apply satisfy_waiters_ok. Qed.
End Credits.
#[export] Hint Resolve signal_ok : counts.

(** ** The operations *)

Section Operations.
Context (k : Z).
Abbreviation counts_ok := (counts_ok k).

Lemma semaphore_count_ok v o d :
  (forall count maximum, ob_state <$> objects d !! o = Some (SemaphoreState count maximum) -> 0 <= v <= maximum) ->
  objects_ok k d -> objects_ok k (update_object (semaphore_count v) o d).
Proof.
  intros Hv. apply ok_update_at. intros x c E Hx. unfold semaphore_count. rewrite E in Hv. cbn in Hv.
  destruct (ob_state x) eqn:Ex; rewrite ?Ex; try done. cbn. by eapply Hv.
Qed.

Lemma semaphore_release_ok n o d : counts_ok d -> objects_ok k (semaphore_release n o d).1.1.
Proof.
  intros [Hp Hd]. unfold semaphore_release. destruct (objects d !! o) as [x|] eqn:E; [|done]. cbn.
  destruct (ob_state x) as [|count maximum| | |] eqn:Ex; try done. pose proof (proj2 Hd o x E) as Hx. cbn in Hx.
  rewrite Ex in Hx. cbn in Hx. destruct (Z.leb_spec n 0); [done|]. destruct (Z.ltb_spec (maximum - count) n); [done|].
  cbn [fst]. assert (objects_ok k (update_object (semaphore_count (count + n)) o d)); [|by auto with counts].
  apply semaphore_count_ok; [|done]. intros c m. rewrite E. cbn. rewrite Ex. intros [= <- <-]. lia.
Qed.

Lemma semaphore_reconcile_ok o d : counts_ok d -> objects_ok k (semaphore_reconcile o d).1.
Proof.
  intros [Hp Hd]. unfold semaphore_reconcile.
  destruct (objects d !! o) as [[[|count maximum| | |] [value|] l]|] eqn:E; try done.
  destruct (_ =? _); [done|]. destruct (Z.ltb_spec value 0); [done|]. destruct (Z.ltb_spec maximum value); [done|].
  cbn [orb fst]. assert (objects_ok k (update_object (semaphore_count value) o d)).
  { apply semaphore_count_ok; [|done]. intros c m. rewrite E. intros [= <- <-]. lia. }
  case_match; auto with counts.
Qed.

Lemma mutant_release_ok thread o d : counts_ok d -> objects_ok k (mutant_release thread o d).1.
Proof using Type.
  intros [Hp Hd]. unfold mutant_release. destruct (objects d !! o) as [x|] eqn:E; [|done]. cbn.
  destruct (ob_state x) as [| |owner host recursion ab| |] eqn:Ex; try done.
  destruct (Z.eqb_spec recursion 0) as [|Hne]; [by rewrite orb_true_r|].
  destruct (_ || _); [done|]. destruct (Z.eqb_spec (decrement recursion) 0); cbn [fst]; [auto with counts|].
  apply ok_update_at; [|done]. intros y c. rewrite E. intros [= <-]. unfold mutant_unwind, mutant_state. rewrite Ex. cbn.
  intros (Hb & Ha & Hr). split_and!.
  - unfold decrement. destruct (Z.eqb_spec recursion (-0x80000000)); lia.
  - unfold decrement. destruct (Z.eqb_spec recursion (-0x80000000)); lia.
  - intros Hab. specialize (Ha Hab). lia.
  - intros Hc. specialize (Hr Hc). unfold decrement. destruct (Z.eqb_spec recursion (-0x80000000)); lia.
Qed.

Lemma mutant_abandon_ok o d : counts_ok d -> objects_ok k (mutant_abandon o d).
Proof. intros [Hp Hd]. unfold mutant_abandon. repeat case_match; try done; auto with counts. Qed.

Lemma operation_ok d d' : counts_ok d -> signal d d' -> objects_ok k d'.
Proof.
  intros Hok Hs. pose proof Hok as [Hp Hd]. destruct Hs.
  - unfold event_set. auto with counts.
  - unfold event_pulse. auto with counts.
  - unfold event_reset. auto with counts.
  - unfold event_reconcile. repeat case_match; cbn [fst]; auto with counts.
  - by apply semaphore_release_ok.
  - by apply semaphore_reconcile_ok.
  - by apply mutant_release_ok.
  - by apply mutant_abandon_ok.
  - unfold abandon_if_owned. repeat case_match; try done. by apply mutant_abandon_ok.
  - unfold timer_set. assert (objects_ok k (update_object (timer_flags false true ∘ timer_period periodic) o d))
      by auto with counts. destruct due; auto with counts.
  - unfold timer_cancel. repeat case_match; cbn [fst]; auto with counts.
  - unfold timer_fire. repeat case_match; cbn [fst]; auto with counts.
Qed.

Lemma thread_flags_keep f : (forall c t a p, state_ok c (f t a p)) -> keeps_ok (thread_flags f).
Proof using Type.
  intros Hf x c Hx. unfold thread_flags. destruct (ob_state x) eqn:E; rewrite ?E in *; try done. cbn. apply Hf.
Qed.

Lemma alert_or_apc_ok r d x d' : alert_or_apc r d = (x, d') -> objects_ok k d -> objects_ok k d'.
Proof.
  intros E Hd. destruct x as [x|]; [|by destruct (alert_or_apc_none _ _ _ E) as [-> _]].
  destruct (alert_or_apc_some _ _ _ _ E) as [->|(o & ->)]; [done|]. apply ok_update; [by apply thread_flags_keep|done].
Qed.

Lemma on_lists_ok f l d : keeps_ok f -> objects_ok k d -> objects_ok k (on_lists f l d).
Proof.
  intros Hf. unfold on_lists. revert d. induction l as [|o l IH]; intros d Hd; [done|]. cbn. apply IH. by apply ok_update.
Qed.

Lemma on_lists_pending f l d : pending (blocks (on_lists f l d)) = pending (blocks d).
Proof using Type. by rewrite on_lists_blocks. Qed.

Lemma finish_wait_ok r outcome b d d' result :
  objects_ok k d -> finish_wait r outcome b d = (d', result) -> objects_ok k d'.
Proof using Type.
  intros Hd. unfold finish_wait. destruct (blocks d !! b); intros [= <- _]; [|done].
  destruct (on_lists_ok (remove_waiter b) (registered_on r) d) as [Hp Hm]; [by intros x|done|].
  pose proof (pending_delete b (blocks (on_lists (remove_waiter b) (registered_on r) d))) as Hle.
  split; cbn [objects blocks]; [lia|]. eapply map_ok_mono; [|exact Hm]. lia.
Qed.
End Operations.

(** A wait that begins brings a credit: it spends it at once or registers with it. *)
Lemma begin_wait_counts k r b d d' o :
  counts_ok k d -> blocks d !! b = None -> begin_wait r b d = (d', o) -> objects_ok (k + 1) d'.
Proof.
  intros [Hp Hd] Hb. unfold begin_wait.
  destruct (try_satisfy_wait (new_block r) (objects d)) as [[[m i] ab]|] eqn:Et.
  - intros [= <- _]. destruct Hd as [Hk Hm]. split; cbn [objects blocks set_objects]; [lia|].
    eapply map_ok_mono; [|eapply (try_satisfy_ok _ (new_block r) (objects d)); [done|done|exact Hm]]. lia.
  - destruct (alert_or_apc r d) as [[x|] d1] eqn:Ea; pose proof (alert_or_apc_ok k _ _ _ _ Ea Hd) as H1;
      [intros [= <- _]; eapply objects_ok_mono; [|exact H1]; lia|].
    pose proof (alert_or_apc_blocks _ _ _ _ Ea) as Hblocks.
    destruct (_ && _); intros [= <- _]; [eapply objects_ok_mono; [|exact H1]; lia|].
    apply on_lists_ok; [by intros x|]. destruct H1 as [Hk Hm].
    split; cbn [objects blocks]; rewrite pending_insert by (done || by rewrite Hblocks); [lia|].
    eapply map_ok_mono; [|exact Hm]. lia.
Qed.

Lemma counts_step k s s' :
  invariant s -> objects_ok k (sy_state s) -> step s s' ->
  objects_ok k (sy_state s') \/ begins s s' /\ objects_ok (k + 1) (sy_state s').
Proof.
  intros Hi Hd Hs. pose proof (in_blocks s Hi) as Hp. assert (Hok : counts_ok k (sy_state s)) by done.
  assert (Hsig : forall d, signal_before (sy_state s) d -> counts_ok k d).
  { intros d Hs'. split; [eapply calm_proper; [by apply signal_before_calm|done]|].
    destruct Hs'; [done|by eapply operation_ok]. }
  assert (Hbegin : forall r b d d' x, signal_before (sy_state s) d -> may_begin r b s d -> begin_wait r b d = (d', x) ->
    objects_ok (k + 1) d').
  { intros r b d d' x H Hm. apply begin_wait_counts; [by apply Hsig|by destruct Hm as (_ & _ & ? & _)]. }
  destruct Hs as [o x Ho _ Hx|d H|v o|v o|o d Hr|o|o|r b d d' H Hm Hb|r b d d' result index H Hm Hb|b r wb E Eb|b r n E|
    b r n d got E Hr|b r n d ended E Ha|b r n E _|b r n E|b r n wb E Eb Hw|b r n E _|b r outcome d result E Hf];
    cbn [sy_state with_pc with_state];
    [left|left|left|left|left|left|left|right|right|left|left|left|left|left|left|left|left|left]; try done.
  - destruct Hd as [Hk Hd]. split; [done|]. apply map_Forall_insert_2; [|done]. cbn [blocks set_objects].
    destruct (ob_state x); cbn in *; try done. destruct Hx as [? ->]. split_and!; [lia|lia|done|lia].
  - by eapply operation_ok.
  - by apply ok_update; [apply keeps_attach|].
  - by apply ok_update; [apply keeps_mirror|].
  - destruct Hr; apply ok_update; try done; by apply thread_flags_keep.
  - apply ok_update; [by apply thread_flags_keep|done].
  - destruct Hd as [Hk Hd]. split; cbn; by rewrite pending_wakes.
  - split; [|by eapply Hbegin]. exists r, b, d. by rewrite Hb.
  - split; [|by eapply Hbegin]. exists r, b, d. by rewrite Hb.
  - pose proof (recheck_satisfies b (sy_state s) Hp) as Hq. rewrite Hr in Hq. cbn in Hq. subst d. by apply satisfy_waiter_ok.
  - by eapply alert_or_apc_ok.
  - by eapply finish_wait_ok.
Qed.

Lemma counts_reachable n s : reachable_after n s -> objects_ok (Z.of_nat n + 1) (sy_state s).
Proof.
  assert (Hinv : forall n s, reachable_after n s -> invariant s)
    by (intros m t Ht; apply invariant_reachable, reachable_after_some; by exists m).
  induction 1 as [|n s s' Hr IH Hs|n s s' Hr IH Hs Hb].
  - split; [done|apply map_Forall_empty].
  - destruct (counts_step _ _ _ (Hinv _ _ Hr) IH Hs) as [Ho|[_ Ho]]; (eapply objects_ok_mono; [|exact Ho]); lia.
  - by destruct (counts_step _ _ _ (Hinv _ _ Hr) IH Hs) as [Ho|[? _]].
Qed.
