(* ===== verification/DispatcherProps.v ===== *)
(** * Properties of the dispatcher

    The claims about waits, wake-ups, results and counts, and the order in which a
    semaphore's waiters are served. *)

From S2P Require Import Prelude.
From S2P Require Import Words.
From S2P Require Import Dispatcher.
From S2P Require Import DispatcherInv.
From S2P Require Import DispatcherSystem.
From S2P Require Import DispatcherReach.
From S2P Require Import DispatcherBounds.

(** ** A wait that could end is woken *)

(** Something the wait ends on has happened. *)
Definition due (b : BlockId) (r : WaitRequest) (d : Dispatcher) : Prop :=
  exists wb, blocks d !! b = Some wb /\
    (wb_granted wb = true \/ is_terminated (wr_self r) d = true \/ alert_pending r d = true \/ sat (objects d) wb = true).

(** A step of the waiter of block [b], nobody else moving. *)
Definition waiter_step (b : BlockId) (s s' : System) : Prop :=
  step s s' /\ exists r pc pc' d, sy_waits s !! b = Some (r, pc) /\ s' = with_pc b r pc' (with_state d s).

Lemma wakeups_move s b r n wb :
  invariant s -> sy_notifying s = ∅ -> sy_waits s !! b = Some (r, Asleep n) -> blocks (sy_state s) !! b = Some wb ->
  due b r (sy_state s) -> wb_wakeups wb <> n.
Proof.
  intros Hi HN E Eb (wb' & Eb' & Hdue) Hn. rewrite Eb in Eb'. injection Eb' as <-.
  destruct (in_waits s Hi _ _ _ E) as [_ (wb' & Eb' & Hm & [Hs Hok] & _)].
  rewrite Eb in Eb'. injection Eb' as <-. destruct (Hok Hn) as (Ht & Ho & Ha). rewrite HN in *.
  destruct Hdue as [Hg|[Hd|[Hd|Hd]]].
  - destruct Hs as [_ Hlt]. specialize (Hlt Hg). lia.
  - destruct (Ht Hd) as (? & _ & ?). set_solver.
  - destruct (Ha Hd) as (? & _ & ?). set_solver.
  - destruct (Ho Hd) as (? & _ & ?). set_solver.
Qed.

Lemma with_state_self s : with_state (sy_state s) s = s.
Proof. by destruct s. Qed.

Lemma own_step b r pc pc' d s :
  sy_waits s !! b = Some (r, pc) -> step s (with_pc b r pc' (with_state d s)) ->
  waiter_step b s (with_pc b r pc' (with_state d s)).
Proof. intros E Hs. split; [done|]. by exists r, pc, pc', d. Qed.

Lemma own_pc b r pc pc' s :
  sy_waits s !! b = Some (r, pc) -> step s (with_pc b r pc' s) -> waiter_step b s (with_pc b r pc' s).
Proof. intros E Hs. split; [done|]. exists r, pc, pc', (sy_state s). by rewrite with_state_self. Qed.

Lemma with_pc_lookup b r pc s : sy_waits (with_pc b r pc s) !! b = Some (r, pc).
Proof. apply lookup_insert_eq. Qed.

(** Once around its loop, the waiter of a due wait ends. *)
Lemma loop_ends s b r :
  sy_waits s !! b = Some (r, Loop) -> due b r (sy_state s) ->
  exists s' outcome, rtc (waiter_step b) s s' /\ sy_waits s' !! b = Some (r, Ending outcome) /\ outcome <> Some Timeout.
Proof.
  intros E (wb & Eb & Hdue).
  assert (Hend : forall s1 s2 outcome, rtc (waiter_step b) s s1 -> waiter_step b s1 s2 ->
    sy_waits s2 !! b = Some (r, Ending outcome) -> outcome <> Some Timeout ->
    exists s' outcome, rtc (waiter_step b) s s' /\ sy_waits s' !! b = Some (r, Ending outcome) /\ outcome <> Some Timeout).
  { intros s1 s2 outcome H1 H2 H3 H4. exists s2, outcome. split; [by eapply rtc_r|done]. }
  pose proof (step_observe s b r wb E Eb) as H1. destruct (wb_granted wb) eqn:Eg.
  { eapply (Hend s); [done|by eapply own_pc|apply with_pc_lookup|done]. }
  destruct Hdue as [?|Hdue]; [done|]. set (s1 := with_pc b r (Observed (wb_wakeups wb)) s) in *.
  assert (R1 : rtc (waiter_step b) s s1) by (eapply rtc_r; [done|by eapply own_pc]).
  pose proof (step_terminating s1 b r _ (with_pc_lookup _ _ _ _)) as H2.
  destruct (is_terminated (wr_self r) (sy_state s1)) eqn:Et.
  { eapply (Hend s1); [done|by eapply own_pc, H2; apply with_pc_lookup|apply with_pc_lookup|done]. }
  destruct Hdue as [Hd|Hdue]; [cbn in Et; congruence|]. set (s2 := with_pc b r (Alive _) s1) in *.
  assert (R2 : rtc (waiter_step b) s s2) by (eapply rtc_r; [done|eapply own_pc, H2; apply with_pc_lookup]).
  destruct (recheck b (sy_state s2)) as [d got] eqn:Er.
  pose proof (step_recheck s2 b r _ d got (with_pc_lookup _ _ _ _) Er) as H3. destruct got.
  { eapply (Hend s2); [done|eapply own_step, H3; apply with_pc_lookup|apply with_pc_lookup|done]. }
  assert (d = sy_state s /\ sat (objects (sy_state s)) wb = false) as [-> Hn].
  { unfold recheck, sat in *. cbn in Er. rewrite Eb, Eg in Er. destruct (try_satisfy_wait _ _) as [[[? ?] ?]|]; by simplify_eq. }
  destruct Hdue as [Hd|Hd]; [|congruence]. set (s3 := with_pc b r (Checked _) _) in *.
  assert (R3 : rtc (waiter_step b) s s3) by (eapply rtc_r; [done|eapply own_step, H3; apply with_pc_lookup]).
  unfold alert_pending in Hd. destruct (alert_or_apc r (sy_state s)) as [ended d] eqn:Ea.
  pose proof (step_alert s3 b r _ d ended (with_pc_lookup _ _ _ _) Ea) as H4.
  destruct ended as [x|]; [|done]. eapply (Hend s3); [done|eapply own_step, H4; apply with_pc_lookup|apply with_pc_lookup|].
  unfold alert_or_apc in Ea. intros [= ->]. repeat case_match; congruence.
Qed.

(** C7: no wake-up is lost. In any reachable interleaving with no notification still to
    come, a sleeping waiter whose wait was granted, whose objects can be taken, whose
    thread was terminated or which has an alert or an APC can leave its condition wait,
    and its own steps then end the wait, not by its timeout. *)
Theorem entitled_waiter_returns s b r n :
  reachable s -> sy_notifying s = ∅ -> sy_waits s !! b = Some (r, Asleep n) -> due b r (sy_state s) ->
  exists s' outcome, rtc (waiter_step b) s s' /\ sy_waits s' !! b = Some (r, Ending outcome) /\ outcome <> Some Timeout.
Proof.
  intros Hr HN E Hd. pose proof (invariant_reachable s Hr) as Hi. pose proof Hd as (wb & Eb & _).
  pose proof (wakeups_move s b r n wb Hi HN E Eb Hd) as Hw.
  destruct (loop_ends (with_pc b r Loop s) b r (with_pc_lookup _ _ _ _) Hd) as (s' & outcome & Hs & H1 & H2).
  exists s', outcome. split_and!; [|done|done]. eapply rtc_l; [|exact Hs].
  eapply own_pc; [done|]. by eapply step_wake.
Qed.

(** C8: a signalled object never has a registered waiter it could satisfy: a wait that
    is registered and not granted cannot be satisfied as its objects stand, unless it
    waits on a thread that has been terminated (whose waiters wake and look). *)
Theorem no_satisfiable_waiter s b r pc wb :
  reachable s -> sy_waits s !! b = Some (r, pc) -> blocks (sy_state s) !! b = Some wb -> wb_granted wb = false ->
  (forall o, o ∈ wr_objects r -> is_terminated (Some o) (sy_state s) = false) ->
  try_satisfy_wait wb (objects (sy_state s)) = None.
Proof.
  intros Hr E Eb Hg Hn. destruct (in_waits s (invariant_reachable s Hr) _ _ _ E) as [_ (wb' & Eb' & Hm & _ & Hen)].
  rewrite Eb in Eb'. injection Eb' as <-. destruct (try_satisfy_wait wb _) as [x|] eqn:Et; [|done]. exfalso.
  destruct (Hen Hg) as (o & Ho & Ht); [unfold sat; by rewrite Et|].
  rewrite (mf_distinct _ _ Hm), distinct_elem in Ho. by rewrite Hn in Ht.
Qed.

(** C38: a wait that ends has a result and leaves nothing behind: when its loop left no
    outcome its block was granted, so [*outcome] is never read empty, and after
    [finish_wait] the block is in no object's list. *)
Theorem ended_wait_has_result s b r outcome d result :
  reachable s -> sy_waits s !! b = Some (r, Ending outcome) -> finish_wait r outcome b (sy_state s) = (d, result) ->
  is_Some result /\ blocks d !! b = None /\ forall o, b ∉ waiters o d.
Proof.
  intros Hr E Hf. destruct (in_waits s (invariant_reachable s Hr) _ _ _ E) as [_ (wb & Eb & Hm & Hpc & _)].
  assert (Hs : reachable (mkSystem d (delete b (sy_waits s)) (sy_notifying s)))
    by (eapply reachable_step; [done|by eapply step_finish]).
  unfold finish_wait in Hf. rewrite Eb in Hf. injection Hf as <- <-.
  split_and!; [|cbn; by rewrite lookup_delete_eq|].
  - destruct (wb_granted wb) eqn:Eg; [done|]. destruct outcome as [x|]; [done|]. cbn in Hpc. congruence.
  - intros o Ho. destruct (li_waits _ (listed_reachable _ Hs) o b Ho) as (r' & pc & E' & _). cbn in E'.
    by rewrite lookup_delete_eq in E'.
Qed.

(** C40: in every reachable state a semaphore's count lies between zero and its maximum,
    a mutant's recursion count is an [int32_t] and a mutant marked abandoned has the
    count zero; and after [n] waits have begun, with [n + 1 < 2^31], the recursion count
    has not overflowed: it lies between 0 and [n + 1]. *)
Theorem dispatcher_counts_in_range n s o x :
  reachable_after n s -> objects (sy_state s) !! o = Some x ->
  match ob_state x with
  | SemaphoreState count maximum => 0 <= count <= maximum
  | MutantState _ _ recursion abandoned =>
      - 2 ^ 31 <= recursion < 2 ^ 31 /\ (recursion <> 0 -> abandoned = false) /\
      (Z.of_nat n + 1 < 2 ^ 31 -> 0 <= recursion <= Z.of_nat n + 1)
  | _ => True
  end.
Proof.
  intros Hr E. destruct (counts_reachable n s Hr) as [Hp Hm]. specialize (Hm o x E). cbn in Hm.
  destruct (ob_state x) as [| |owner host recursion ab| |]; try done. destruct Hm as (Hb & Ha & Hc).
  assert (0 <= pending (blocks (sy_state s))) by (unfold pending; lia). split_and!; [lia|lia| |].
  - intros Hne. destruct ab; [|done]. by destruct Hne; apply Ha.
  - intros Hn. assert (Hlt : Z.of_nat n + 1 - pending (blocks (sy_state s)) < 2 ^ 31) by lia.
    specialize (Hc Hlt). lia.
Qed.

(** One more acquisition of a mutant held 2^31 - 1 times: the count overflows. With a
    count that is not positive the thread's exit does not abandon the mutant, and no
    other thread can ever take it. *)
Lemma recursive_acquisition_overflows thread host mirror l d o :
  let x := (satisfy_object thread host (mkObject (MutantState thread host (2 ^ 31 - 1) false) mirror l)).1 in
  ob_state x = MutantState thread host (- 2 ^ 31) false /\
  (objects d !! o = Some x -> abandon_if_owned host o d = d) /\
  (forall other, other <> thread -> can_satisfy_state (ob_state x) other = false).
Proof.
  cbn. split_and!; [done| |].
  - intros E. unfold abandon_if_owned. by rewrite E.
  - intros other Hne. apply Z.eqb_neq. by intros <-.
Qed.

(** ** A run: a thread waits on an event and is woken *)

Definition demo_request : WaitRequest := mkRequest [1] false (-1) 7 7 (Some 2) true.
Definition with_object (o : ObjectId) (x : ObjectState) (s : System) : System :=
  with_state (set_objects (<[o := mkObject x None []]> (objects (sy_state s))) (sy_state s)) s.
Definition demo_created : System :=
  with_object 2 (ThreadState false false false) (with_object 1 (EventState false false) start).
Definition demo_registered : System :=
  mkSystem (begin_wait demo_request 10 (sy_state demo_created)).1 (<[10 := (demo_request, Loop)]> ∅) ∅.
Definition demo_at (pc : WaiterPc) : System := with_pc 10 demo_request pc demo_registered.
Definition demo_asleep : System := demo_at (Asleep 0).
Definition demo_woken : System := with_state (event_set 1 (sy_state demo_asleep)) demo_asleep.
Definition demo_ending : System :=
  with_pc 10 demo_request (Ending None) (with_pc 10 demo_request Loop demo_woken).

Ltac next H := eapply reachable_step; [exact H|].
Ltac evaluate := vm_compute; reflexivity.

Lemma with_object_reachable o x s :
  objects (sy_state s) !! o = None -> created x -> reachable s -> reachable (with_object o x s).
Proof. intros Ho Hx Hr. next Hr. by apply (step_create s o (mkObject x None [])). Qed.

Lemma demo_created_reachable : reachable demo_created.
Proof. do 2 (apply with_object_reachable; [evaluate|done|]). apply reachable_start. Qed.

Lemma demo_registered_reachable : reachable demo_registered.
Proof.
  next demo_created_reachable. apply (step_register demo_created demo_request 10 (sy_state demo_created)).
  - constructor.
  - split_and!; [evaluate|done|done|]. intros self [= <-]. by exists false, false, false.
  - evaluate.
Qed.

Lemma with_pc_again b r pc pc' s : with_pc b r pc' (with_pc b r pc s) = with_pc b r pc' s.
Proof. unfold with_pc. cbn. by rewrite insert_insert_eq. Qed.

Lemma demo_next pc pc' :
  reachable (demo_at pc) -> step (demo_at pc) (with_pc 10 demo_request pc' (demo_at pc)) -> reachable (demo_at pc').
Proof. intros Hr Hs. next Hr. unfold demo_at at 2. by rewrite <- (with_pc_again 10 demo_request pc). Qed.

Lemma demo_asleep_reachable : reachable demo_asleep.
Proof.
  apply (demo_next (Calm 0)); [|by apply step_sleep].
  apply (demo_next (Checked 0)); [|apply (step_alert (demo_at (Checked 0)) 10 demo_request 0 (sy_state demo_registered) None);
    [done|evaluate]].
  apply (demo_next (Alive 0)); [|apply (step_recheck (demo_at (Alive 0)) 10 demo_request 0 (sy_state demo_registered) false);
    [done|evaluate]].
  apply (demo_next (Observed 0)); [|by apply (step_terminating (demo_at (Observed 0)) 10 demo_request 0)].
  next demo_registered_reachable. by apply (step_observe demo_registered 10 demo_request (new_block demo_request)).
Qed.

Lemma demo_woken_reachable : reachable demo_woken.
Proof. next demo_asleep_reachable. apply step_signal. apply by_event_set. Qed.

Lemma demo_ending_reachable : reachable demo_ending.
Proof.
  assert (H1 : reachable (with_pc 10 demo_request Loop demo_woken)).
  { next demo_woken_reachable. eapply (step_wake _ 10 demo_request 0); [done|evaluate|done]. }
  next H1. by eapply (step_observe _ 10 demo_request (grant 0 false (new_block demo_request))).
Qed.

Lemma demo_due : due 10 demo_request (sy_state demo_woken).
Proof. exists (grant 0 false (new_block demo_request)). split; [evaluate|by left]. Qed.

Lemma entitled_waiter_returns_witness :
  exists s' outcome, rtc (waiter_step 10) demo_woken s' /\ sy_waits s' !! 10 = Some (demo_request, Ending outcome) /\ outcome <> Some Timeout.
Proof. exact (entitled_waiter_returns demo_woken 10 demo_request 0 demo_woken_reachable eq_refl eq_refl demo_due). Defined.

Lemma demo_alive o : o ∈ wr_objects demo_request -> is_terminated (Some o) (sy_state demo_asleep) = false.
Proof. cbn [wr_objects demo_request]. by intros ->%list_elem_of_singleton. Qed.

Lemma no_satisfiable_waiter_witness :
  try_satisfy_wait (new_block demo_request) (objects (sy_state demo_asleep)) = None.
Proof.
  exact (no_satisfiable_waiter demo_asleep 10 demo_request (Asleep 0) (new_block demo_request) demo_asleep_reachable
    eq_refl eq_refl eq_refl demo_alive).
Defined.

Lemma ended_wait_has_result_witness :
  is_Some (finish_wait demo_request None 10 (sy_state demo_ending)).2 /\
  blocks (finish_wait demo_request None 10 (sy_state demo_ending)).1 !! 10 = None /\
  forall o, 10 ∉ waiters o (finish_wait demo_request None 10 (sy_state demo_ending)).1.
Proof.
  refine (ended_wait_has_result demo_ending 10 demo_request None _ _ demo_ending_reachable eq_refl _).
  vm_compute. reflexivity.
Defined.

(** A mutant is created owned by its thread, 7, which then waits for it again. *)
Definition demo_mutant_request : WaitRequest := mkRequest [3] false (-1) 7 7 None false.
Definition demo_held : System := with_object 3 (MutantState 7 7 1 false) start.
Definition demo_deepened : System := with_state (begin_wait demo_mutant_request 11 (sy_state demo_held)).1 demo_held.

Lemma nothing_begins s' : ~ begins start s'.
Proof.
  intros (r & b & d & Hd & (Hv & _) & _).
  destruct (wr_objects r) as [|o l] eqn:El; [by apply valid_request_nonempty in Hv|].
  destruct (valid_request_spec r d o Hv) as [y Hy]; [rewrite El; left|].
  destruct (ca_frame _ _ (signal_before_calm (sy_state start) d ltac:(done) Hd) o) as [Hw _]. by rewrite Hy in Hw.
Qed.

Lemma demo_deepened_after : reachable_after 1 demo_deepened.
Proof.
  eapply after_begin; [apply (after_other 0 start demo_held); [constructor| |apply nothing_begins]|].
  - by apply (step_create start 3 (mkObject (MutantState 7 7 1 false) None [])).
  - apply (step_not_registered demo_held demo_mutant_request 11 (sy_state demo_held) _ Success (Some 0)); [constructor| |evaluate].
    by split_and!; [evaluate|..].
Qed.

Lemma dispatcher_counts_in_range_witness :
  objects (sy_state demo_deepened) !! 3 = Some (mkObject (MutantState 7 7 2 false) None []) /\
  - 2 ^ 31 <= 2 < 2 ^ 31 /\ (2 <> 0 -> false = false) /\ (Z.of_nat 1 + 1 < 2 ^ 31 -> 0 <= 2 <= Z.of_nat 1 + 1).
Proof.
  assert (E : objects (sy_state demo_deepened) !! 3 = Some (mkObject (MutantState 7 7 2 false) None []))
    by (vm_compute; reflexivity).
  split; [exact E|].
  exact (dispatcher_counts_in_range 1 demo_deepened 3 (mkObject (MutantState 7 7 2 false) None []) demo_deepened_after E).
Defined.

(** A pending wait on [o] alone, of either kind. *)
Definition waits_on (o : ObjectId) (d : Dispatcher) (b : BlockId) : Prop :=
  exists wb, blocks d !! b = Some wb /\ wb_objects wb = [o] /\ wb_distinct wb = [o] /\ wb_granted wb = false.

Definition grant_all (l : list BlockId) (m : gmap BlockId MultiWaitBlock) : gmap BlockId MultiWaitBlock :=
  foldl (λ m b, alter (grant 0 false) b m) m l.

Definition semaphore_at (count maximum : Z) (mirror : option Z) (l : list BlockId) : KernelObject :=
  mkObject (SemaphoreState count maximum) mirror l.

Section Semaphore.
Context (o : ObjectId) (maximum : Z) (w : list BlockId).

Lemma wait_taken wb m count mirror :
  wb_objects wb = [o] -> wb_distinct wb = [o] -> m !! o = Some (semaphore_at count maximum mirror w) ->
  try_satisfy_wait wb m =
    if 0 <? count then Some (<[o := semaphore_at (count - 1) maximum (const (count - 1) <$> mirror) w]> m, 0, false)
    else None.
Proof using Type.
  intros Ho Hd E. assert (Hc : can_satisfy m (wb_thread_id wb) o = (0 <? count)) by (unfold can_satisfy; by rewrite E).
  assert (Hs : satisfy (wb_thread_id wb) (wb_host_thread wb) o m =
    (<[o := semaphore_at (count - 1) maximum (const (count - 1) <$> mirror) w]> m, false)) by (unfold satisfy; by rewrite E).
  unfold try_satisfy_wait. rewrite Ho, Hd. destruct (wb_wait_all wb).
  - cbn [forallb satisfy_all]. rewrite Hc, Hs. by destruct (0 <? count).
  - cbn [list_find]. rewrite Hc. destruct (0 <? count); [rewrite decide_True by done|by rewrite decide_False by done].
    by rewrite Hs.
Qed.

Lemma waiter_granted d b count mirror :
  waits_on o d b -> objects d !! o = Some (semaphore_at count maximum mirror w) ->
  satisfy_waiter d b =
    if 0 <? count then
      mkDispatcher (<[o := semaphore_at (count - 1) maximum (const (count - 1) <$> mirror) w]> (objects d))
        (alter (grant 0 false) b (blocks d))
    else d.
Proof using Type.
  intros (wb & Eb & Ho & Hd & Hg) E. unfold satisfy_waiter. rewrite Eb, Hg, (wait_taken wb _ _ _ Ho Hd E), Ho. cbn [orb].
  destruct (0 <? count); [|done]. f_equal. apply map_eq. intros c. destruct (decide (b = c)) as [<-|Hne].
  - by rewrite lookup_insert_eq, lookup_alter_eq, Eb.
  - by rewrite lookup_insert_ne, lookup_alter_ne.
Qed.

Lemma no_count_left l d mirror :
  (forall b, b ∈ l -> waits_on o d b) -> objects d !! o = Some (semaphore_at 0 maximum mirror w) ->
  foldl satisfy_waiter d l = d.
Proof using Type.
  intros Hl E. induction l as [|b l IH]; [done|]. cbn [foldl]. rewrite (waiter_granted d b 0 mirror) by (done || set_solver).
  apply IH. set_solver.
Qed.

(** The first [count] waiters are granted; the count drops by as many. *)
Lemma oldest_first l d count mirror :
  NoDup l -> (forall b, b ∈ l -> waits_on o d b) -> 0 <= count ->
  objects d !! o = Some (semaphore_at count maximum mirror w) ->
  let k := Nat.min (Z.to_nat count) (length l) in
  exists mirror',
    foldl satisfy_waiter d l =
      mkDispatcher (<[o := semaphore_at (count - Z.of_nat k) maximum mirror' w]> (objects d))
        (grant_all (take k l) (blocks d)) /\ forall v : Z, const v <$> mirror' = const v <$> mirror.
Proof using Type.
  revert d count mirror. induction l as [|b l IH]; intros d count mirror Hn Hl Hc E k.
  { exists mirror. subst k. rewrite Nat.min_0_r. rewrite Z.sub_0_r. cbn. split; [|done]. destruct d as [m bs].
    cbn in *. by rewrite insert_id. }
  apply NoDup_cons in Hn as [Hb Hn]. destruct (decide (count = 0)) as [->|Hpos].
  { exists mirror. subst k. rewrite (no_count_left (b :: l) d mirror) by done. cbn. split; [|done].
    destruct d as [m bs]. cbn in *. by rewrite insert_id. }
  cbn [foldl]. rewrite (waiter_granted d b count mirror) by (done || set_solver).
  destruct (Z.ltb_spec 0 count); [|lia].
  edestruct (IH (mkDispatcher (<[o := semaphore_at (count - 1) maximum (const (count - 1) <$> mirror) w]> (objects d))
    (alter (grant 0 false) b (blocks d))) (count - 1)) as (mirror' & -> & Hm); [done| |lia|by apply lookup_insert_eq|].
  { intros c Hin. destruct (Hl c ltac:(by right)) as (wb & ? & ?). exists wb. cbn. rewrite lookup_alter_ne by set_solver. done. }
  assert (k = S (Nat.min (Z.to_nat (count - 1)) (length l))) as -> by (subst k; cbn [length]; lia).
  exists mirror'. cbn [objects blocks]. rewrite insert_insert_eq. split.
  - f_equal. do 2 f_equal. lia.
  - intros v. rewrite Hm. by destruct mirror.
Qed.
End Semaphore.

(** C39: releasing a semaphore whose waiters each wait on it alone grants the oldest of
    them, as many as the new count allows, with index 0; the count drops by that many,
    its guest copy follows, and every other block and object is left as it was. *)
Theorem semaphore_release_order o n d count maximum mirror w :
  objects d !! o = Some (semaphore_at count maximum mirror w) -> 0 <= count -> 0 < n <= maximum - count ->
  NoDup w -> (forall b, b ∈ w -> waits_on o d b) ->
  let k := Nat.min (Z.to_nat (count + n)) (length w) in
  let left := count + n - Z.of_nat k in
  semaphore_release n o d =
    (mkDispatcher (<[o := semaphore_at left maximum (const left <$> mirror) w]> (objects d))
       (grant_all (take k w) (blocks d)), true, Some count).
Proof.
  intros E Hc Hn Hw Hl k left. unfold semaphore_release. rewrite E. cbn [fmap option_fmap option_map ob_state semaphore_at].
  destruct (Z.leb_spec n 0); [lia|]. destruct (Z.ltb_spec (maximum - count) n); [lia|].
  set (d1 := update_object (semaphore_count (count + n)) o d).
  assert (E1 : objects d1 = <[o := semaphore_at (count + n) maximum mirror w]> (objects d)).
  { apply map_eq. intros p. cbn. destruct (decide (o = p)) as [<-|Hne];
      [by rewrite lookup_alter_eq, lookup_insert_eq, E|by rewrite lookup_alter_ne, lookup_insert_ne]. }
  assert (Hws : waiters o d1 = w) by (unfold waiters; by rewrite E1, lookup_insert_eq).
  destruct (oldest_first o maximum w w d1 (count + n) mirror) as (mirror' & Hf & Hm);
    [done|done|lia|by rewrite E1, lookup_insert_eq|].
  unfold satisfy_waiters. rewrite Hws, Hf, E1, insert_insert_eq. fold k. fold left. do 2 f_equal. unfold update_object, set_objects.
  cbn [objects blocks]. f_equal. apply map_eq. intros p. destruct (decide (o = p)) as [<-|Hne];
    [rewrite lookup_alter_eq, !lookup_insert_eq|by rewrite lookup_alter_ne, !lookup_insert_ne].
  cbn. unfold semaphore_at, store_state, mirror_store. cbn. by rewrite Hm.
Qed.

(** Two of three waiters pass a semaphore released twice. *)
Definition demo_waiters : gmap BlockId MultiWaitBlock :=
  list_to_map ((λ b, (b, mkWaitBlock [5] [5] false b b false 0 false 0)) <$> [1; 2; 3]).
Definition demo_queue : Dispatcher := mkDispatcher {[5 := semaphore_at 0 4 (Some 0) [1; 2; 3]]} demo_waiters.

Lemma demo_queue_waits b : b ∈ [1; 2; 3] -> waits_on 5 demo_queue b.
Proof.
  rewrite !elem_of_cons, elem_of_nil. intros [->|[->|[->|[]]]]; eexists; (split; [vm_compute; reflexivity|done]).
Qed.

Lemma semaphore_release_order_witness :
  semaphore_release 2 5 demo_queue =
    (mkDispatcher (<[5 := semaphore_at 0 4 (Some 0) [1; 2; 3]]> (objects demo_queue))
       (grant_all [1; 2] (blocks demo_queue)), true, Some 0).
Proof.
  refine (semaphore_release_order 5 2 demo_queue 0 4 (Some 0) [1; 2; 3] eq_refl _ _ _ demo_queue_waits).
  - reflexivity || lia.
  - lia.
  - apply (bool_decide_unpack _). vm_compute. exact I.
Defined.
