(* ===== verification/FallbackMemory.v ===== *)
(** * The dynamic fallback interpreter: scalar memory instructions
    (src/cpu/codegen/fallback/interpreter/scalar_memory.cpp,
    src/cpu/codegen/fallback/fallback_interpreter.hpp)

    Instructions that reach memory or the runtime run in a monad of the CPU state
    and the world; a call that throws ends the computation and keeps both. *)

From S2P Require Import Prelude.
From S2P Require Import Words.
From S2P Require Import Instr.
From S2P Require Import CpuState.
From S2P Require Import Services.
From S2P Require Import Lifter.
From S2P Require Import LifterMemory.

(** ** The monad *)

(** No value when an exception leaves the computation. *)
Definition Interp (W A : Type) : Type := CpuState -> W -> option A * CpuState * W.

Definition iret {W A} (x : A) : Interp W A := λ s w, (Some x, s, w).
Definition ibind {W A B} (c : Interp W A) (k : A -> Interp W B) : Interp W B := λ s w,
  match c s w with
  | (Some x, s, w) => k x s w
  | (None, s, w) => (None, s, w)
  end.
Definition gets {W A} (f : CpuState -> A) : Interp W A := λ s w, (Some (f s), s, w).
Definition modify {W} (f : CpuState -> CpuState) : Interp W unit := λ s w, (Some tt, f s, w).
(** A [MemoryPort] access. *)
Definition access {W A} (f : W -> MemResult W A) : Interp W A := λ s w,
  let '(x, w) := f w in (x, s, w).
(** A call that only changes the world. *)
Definition host {W} (f : W -> W) : Interp W unit := λ s w, (Some tt, s, f w).

Declare Scope interp_scope.
Delimit Scope interp_scope with interp.
Notation "'let%' x := c 'in' k" := (ibind c (λ x, k))
  (at level 200, x binder, c at level 100, k at level 200, right associativity) : interp_scope.
Notation "'do%' c 'in' k" := (ibind c (λ _, k))
  (at level 200, c at level 100, k at level 200, right associativity) : interp_scope.
Open Scope interp_scope.

Definition iwhen {W} (b : bool) (c : Interp W unit) : Interp W unit := if b then c else iret tt.
(** The instruction is one of this class. *)
Definition executed {W} (c : Interp W unit) : Interp W bool := do% c in iret true.

(** ** Access descriptors *)

Record ScalarAccess : Type := mkAccess {
  sa_bytes : Z;
  sa_sign : bool;
  sa_update : bool;
  sa_indexed : bool;
  sa_little_endian : bool
}.

Definition load_accesses : list (string * ScalarAccess) := [
  ("lbz", mkAccess 1 false false false false); ("lbzu", mkAccess 1 false true false false);
  ("lbzx", mkAccess 1 false false true false); ("lbzux", mkAccess 1 false true true false);
  ("lha", mkAccess 2 true false false false); ("lhau", mkAccess 2 true true false false);
  ("lhax", mkAccess 2 true false true false); ("lhaux", mkAccess 2 true true true false);
  ("lhz", mkAccess 2 false false false false); ("lhzu", mkAccess 2 false true false false);
  ("lhzx", mkAccess 2 false false true false); ("lhzux", mkAccess 2 false true true false);
  ("lwa", mkAccess 4 true false false false); ("lwax", mkAccess 4 true false true false);
  ("lwaux", mkAccess 4 true true true false); ("lwz", mkAccess 4 false false false false);
  ("lwzu", mkAccess 4 false true false false); ("lwzx", mkAccess 4 false false true false);
  ("lwzux", mkAccess 4 false true true false); ("ld", mkAccess 8 false false false false);
  ("ldu", mkAccess 8 false true false false); ("ldx", mkAccess 8 false false true false);
  ("ldux", mkAccess 8 false true true false);
  ("lhbrx", mkAccess 2 false false true true); ("lwbrx", mkAccess 4 false false true true);
  ("ldbrx", mkAccess 8 false false true true) ].

Definition store_accesses : list (string * ScalarAccess) := [
  ("stb", mkAccess 1 false false false false); ("stbu", mkAccess 1 false true false false);
  ("stbx", mkAccess 1 false false true false); ("stbux", mkAccess 1 false true true false);
  ("sth", mkAccess 2 false false false false); ("sthu", mkAccess 2 false true false false);
  ("sthx", mkAccess 2 false false true false); ("sthux", mkAccess 2 false true true false);
  ("stw", mkAccess 4 false false false false); ("stwu", mkAccess 4 false true false false);
  ("stwx", mkAccess 4 false false true false); ("stwux", mkAccess 4 false true true false);
  ("std", mkAccess 8 false false false false); ("stdu", mkAccess 8 false true false false);
  ("stdx", mkAccess 8 false false true false); ("stdux", mkAccess 8 false true true false);
  ("sthbrx", mkAccess 2 false false true true); ("stwbrx", mkAccess 4 false false true true);
  ("stdbrx", mkAccess 8 false false true true) ].

Definition find_access (m : string) (table : list (string * ScalarAccess)) : option ScalarAccess :=
  snd <$> List.find (λ row, String.eqb (fst row) m) table.
Definition load_access (m : string) : option ScalarAccess := find_access m load_accesses.
Definition store_access (m : string) : option ScalarAccess := find_access m store_accesses.

Section Interpreter.
Context {W : Type} `{MemoryPort W}.
Context (i : DecodedInstruction).
Abbreviation m := (mnemonic i).

(** [i.ra() != 0u ? state.gpr[i.ra()] : 0u]. *)
Definition ra_or_zero (s : CpuState) : Z := if negb (ra i =? 0) then get_gpr s (ra i) else 0.

Definition effective_address (a : ScalarAccess) (s : CpuState) : GuestAddress :=
  let base := if sa_update a || negb (ra i =? 0) then get_gpr s (ra i) else 0 in
  if sa_indexed a then u32 (u64 (base + get_gpr s (rb i)))
  else
    let displacement := if format_is i FDS then ds_displacement i else simm16 i in
    u32 (u64 (base + u64 displacement)).

(** The address of the indexed forms without update. *)
Definition indexed_address (s : CpuState) : GuestAddress := u32 (u64 (ra_or_zero s + get_gpr s (rb i))).

Definition load_scalar (address : GuestAddress) (a : ScalarAccess) : Interp W Z :=
  let% value := if sa_bytes a =? 1 then access (mp_read8 address)
                else access (mp_read (8 * sa_bytes a) (sa_little_endian a) address) in
  iret (if negb (sa_sign a) then value
        else if sa_bytes a =? 2 then u64 (s16 value)
        else if sa_bytes a =? 4 then u64 (s32 value) else value).

Definition store_scalar (address : GuestAddress) (a : ScalarAccess) (value : Z) : Interp W unit :=
  if sa_bytes a =? 1 then access (mp_write8 address (u8 value))
  else access (mp_write (8 * sa_bytes a) (sa_little_endian a) address (value mod 2 ^ (8 * sa_bytes a))).

(** [if (access->update) state.gpr[i.ra()] = ea]. *)
Definition update_base (a : ScalarAccess) (ea : GuestAddress) : Interp W unit :=
  iwhen (sa_update a) (modify (set_gpr (ra i) ea)).

Definition execute_load (a : ScalarAccess) : Interp W unit :=
  let% ea := gets (effective_address a) in
  let% value := load_scalar ea a in
  do% modify (set_gpr (rt i) value) in update_base a ea.

Definition execute_store (a : ScalarAccess) : Interp W unit :=
  let% ea := gets (effective_address a) in
  let% value := gets (λ s, get_gpr s (rs i)) in
  do% store_scalar ea a value in update_base a ea.

Definition execute_reserve : Interp W unit :=
  let bits := if String.eqb m "lwarx" then 32 else 64 in
  let% ea := gets indexed_address in
  let% r := gets reservation in
  do% iwhen (res_valid r) (host (mp_cancel_reservation (res_token r))) in
  let% x := access (mp_reserve bits ea) in
  let '(token, observed) := x in
  do% modify (set_reservation (mkReservation (negb (token =? 0)) (bits / 8) ea observed token)) in
  modify (set_gpr (rt i) observed).

Definition execute_store_conditional : Interp W unit :=
  let bits := if String.eqb m "stwcx" then 32 else 64 in
  let% ea := gets indexed_address in
  let% r := gets reservation in
  let% value := gets (λ s, get_gpr s (rs i)) in
  let% stored :=
    if res_valid r then
      if res_width r =? bits / 8 then access (mp_store_conditional bits ea (res_token r) (value mod 2 ^ bits))
      else do% host (mp_cancel_reservation (res_token r)) in iret false
    else iret false in
  do% modify (set_reservation reservation_clear) in
  modify (λ s, set_cr_field 0 ((if stored : bool then 0x2 else 0) .| (if xer_so s then 0x1 else 0)) s).

(** One register of [lmw] or [stmw]. *)
Definition execute_multiple_one (base r : Z) : Interp W unit :=
  let ea := u32 (u64 (u64 (base + u64 (simm16 i)) + (r - rt i) * 4)) in
  if String.eqb m "lmw" then let% v := access (mp_read 32 false ea) in modify (set_gpr r v)
  else let% v := gets (λ s, get_gpr s r) in access (mp_write 32 false ea (u32 v)).

Fixpoint execute_multiple_loop (base : Z) (registers : list Z) : Interp W unit :=
  match registers with
  | [] => iret tt
  | r :: registers => do% execute_multiple_one base r in execute_multiple_loop base registers
  end.

Definition execute_multiple : Interp W unit :=
  let% base := gets ra_or_zero in execute_multiple_loop base (seqZ (rt i) (32 - rt i)).

Definition execute_string : Interp W unit :=
  let indexed := one_of m ["lswx"; "stswx"] in
  let% ea := gets (λ s, if indexed then indexed_address s else u32 (ra_or_zero s)) in
  let% count := gets (λ s, if indexed then xer s .& 0x7F else if rb i =? 0 then 32 else rb i) in
  if one_of m ["lswi"; "lswx"] then
    λ s w, let '(ok, s, w) := string_load ea count (rt i) s w in (if ok : bool then Some tt else None, s, w)
  else λ s w, let '(ok, w) := string_store ea count (rt i) s w in (if ok : bool then Some tt else None, s, w).

Definition execute_scalar_memory : Interp W bool :=
  match load_access m with
  | Some a => executed (execute_load a)
  | None =>
  match store_access m with
  | Some a => executed (execute_store a)
  | None =>
      if one_of m ["lwarx"; "ldarx"] then executed execute_reserve
      else if one_of m ["stwcx"; "stdcx"] then executed execute_store_conditional
      else if one_of m ["lmw"; "stmw"] then executed execute_multiple
      else if one_of m ["lswi"; "lswx"; "stswi"; "stswx"] then executed execute_string
      else iret false
  end
  end.
End Interpreter.
