(* ===== verification/FallbackSystem.v ===== *)
(** * The dynamic fallback interpreter: system instructions and branch conditions
    (src/cpu/codegen/fallback/interpreter/system.cpp,
    src/cpu/codegen/fallback/fallback_interpreter.hpp) *)

From S2P Require Import Prelude.
From S2P Require Import Words.
From S2P Require Import Instr.
From S2P Require Import CpuState.
From S2P Require Import AotScalar.
From S2P Require Import Services.
From S2P Require Import Lifter.
From S2P Require Import LifterControl.
From S2P Require Import FallbackMemory.

(** [branch_condition]: counts CTR down before it tests it. *)
Definition test_branch (i : DecodedInstruction) (use_ctr : bool) (s : CpuState) : bool * CpuState :=
  let '(ctr_ok, s) :=
    if use_ctr && negb (bo_set i 4) then
      let s := set_ctr (u64 (ctr s - 1)) s in
      (if bo_set i 2 then ctr s =? 0 else negb (ctr s =? 0), s)
    else (true, s) in
  let cond_ok := if negb (bo_set i 16) then Bool.eqb (cr_bit s (bi i)) (bo_set i 8) else true in
  (ctr_ok && cond_ok, s).

Section Interpreter.
Context {W : Type} `{MemoryPort W, RuntimeServices W}.
Context (i : DecodedInstruction).
Abbreviation m := (mnemonic i).

Definition execute_cr_logical (s : CpuState) : CpuState :=
  let bt := (di_word i .>> 21) .& 31 in
  let ba := (di_word i .>> 16) .& 31 in
  let bb := (di_word i .>> 11) .& 31 in
  let a := cr_bit s ba in
  let b := cr_bit s bb in
  let result :=
    if String.eqb m "crand" then a && b
    else if String.eqb m "crandc" then a && negb b
    else if String.eqb m "creqv" then Bool.eqb a b
    else if String.eqb m "crnand" then negb (a && b)
    else if String.eqb m "crnor" then negb (a || b)
    else if String.eqb m "cror" then a || b
    else if String.eqb m "crorc" then a || negb b
    else negb (Bool.eqb a b) in
  set_cr_bit bt result s.

Definition execute_mcrf (s : CpuState) : CpuState :=
  let bf := (di_word i .>> 23) .& 7 in
  let bfa := (di_word i .>> 18) .& 7 in
  set_cr_field bf (cr_field s bfa) s.

Definition execute_mcrxr (s : CpuState) : CpuState :=
  let field := (if xer_so s then 8 else 0) .| (if xer_ov s then 4 else 0) .| (if xer_ca s then 2 else 0) in
  let s := set_cr_field (crfd i) field s in
  set_xer (bits_clear (xer s) (xer_bits.SO .| xer_bits.OV .| xer_bits.CA)) s.

Definition execute_mtcrf (s : CpuState) : CpuState :=
  let fxm := (di_word i .>> 12) .& 0xFF in
  let source := u32 (get_gpr s (rs i)) in
  foldl (λ s field,
    if fxm .& (0x80 .>> field) =? 0 then s
    else
      let shift := (7 - field) * 4 in
      set_cr (bits_clear (cr s) (0xF .<< shift) .| (source .& (0xF .<< shift))) s) s (seqZ 0 8).

(** A call that reads the state and changes the world. *)
Definition consult {A} (f : CpuState -> W -> A * W) : Interp W A := λ s w,
  let '(x, w) := f s w in (Some x, s, w).

Definition execute_mfspr : Interp W unit :=
  let spr := spr i in
  let% value :=
    if spr =? 1 then gets xer
    else if spr =? 8 then gets lr
    else if spr =? 9 then gets ctr
    else if spr =? 256 then gets vrsave
    else if spr =? 268 then consult rt_read_time_base
    else if spr =? 269 then let% tb := consult rt_read_time_base in iret (tb .>> 32)
    else if spr =? 287 then gets pvr
    else consult (rt_read_spr spr) in
  modify (set_gpr (rt i) value).

Definition execute_mtspr : Interp W unit :=
  let spr := spr i in
  let% value := gets (λ s, get_gpr s (rs i)) in
  if spr =? 1 then modify (set_xer (u32 value))
  else if spr =? 8 then modify (set_lr value)
  else if spr =? 9 then modify (set_ctr value)
  else if spr =? 256 then modify (set_vrsave (u32 value))
  else λ s w, let '(s, w) := rt_write_spr spr value s w in (Some tt, s, w).

(** The [BarrierKind]s, numbered as in the IR. *)
Definition kSync : Z := 1.
Definition kEieio : Z := 3.
Definition kInstructionSync : Z := 4.

Definition execute_dcbz : Interp W unit :=
  let% ea := gets (indexed_address i) in
  access (mp_zero_cache_block ea (if String.eqb m "dcbz128" then 128 else 32)).

Definition execute_system : Interp W bool :=
  if one_of m ["mfmsr"] then executed (modify (λ s, set_gpr (rt i) (msr s) s))
  else if one_of m ["mtmsr"; "mtmsrd"] then
    executed (modify (λ s, write_msr (get_gpr s (rs i)) (negb ((di_word i .>> 16) .& 1 =? 0))
                             (String.eqb m "mtmsrd") s))
  else if one_of m ["crand"; "crandc"; "creqv"; "crnand"; "crnor"; "cror"; "crorc"; "crxor"]
  then executed (modify execute_cr_logical)
  else if one_of m ["mcrf"] then executed (modify execute_mcrf)
  else if one_of m ["mcrxr"] then executed (modify execute_mcrxr)
  else if one_of m ["mfcr"] then executed (modify (λ s, set_gpr (rt i) (cr s) s))
  else if one_of m ["mtcrf"] then executed (modify execute_mtcrf)
  else if one_of m ["mfspr"; "mftb"] then executed execute_mfspr
  else if one_of m ["mtspr"] then executed execute_mtspr
  else if one_of m ["sync"] then executed (host (mp_barrier kSync))
  else if one_of m ["eieio"] then executed (host (mp_barrier kEieio))
  else if one_of m ["isync"] then executed (host (mp_barrier kInstructionSync))
  else if one_of m ["dcbz"; "dcbz128"] then executed execute_dcbz
  else if one_of m ["icbi"] then
    executed (let% ea := gets (indexed_address i) in access (mp_instruction_cache_invalidate ea))
  else if one_of m ["dcbf"; "dcbi"; "dcbst"; "dcbt"; "dcbtst"] then iret true
  else iret false.
End Interpreter.
