(* ===== verification/FallbackVector.v ===== *)
(** * The dynamic fallback interpreter: floating point and vectors
    (src/cpu/codegen/fallback/interpreter/floating_point.cpp,
    src/cpu/codegen/fallback/interpreter/vector.cpp,
    src/cpu/codegen/fallback/fallback_interpreter.hpp)

    Loads, stores and moves of the status registers are done here; the arithmetic is
    the host helpers' ([HostHelpers]), as in compiled code. *)

From S2P Require Import Prelude.
From S2P Require Import Words.
From S2P Require Import Instr.
From S2P Require Import CpuState.
From S2P Require Import AotScalar.
From S2P Require Import IrValue.
From S2P Require Import Services.
From S2P Require Import IrSem.
From S2P Require Import Lifter.
From S2P Require Import LifterMemory.
From S2P Require Import Lift.
From S2P Require Import FallbackMemory.

(** ** Floating point *)

Section Interpreter.
Context {W : Type} `{MemoryPort W, RuntimeServices W, HostHelpers W}.
Context (i : DecodedInstruction).
Abbreviation m := (mnemonic i).

(** [aot::fp_*(state, ...)]: the helper updates FPSCR. *)
Definition call_fp (c : FpCall) : Interp W Z := λ s w,
  let '(bits, fpscr', w) := hh_fp c (fpscr s) w in (Some bits, set_fpscr (u32 fpscr') s, w).
Definition call_fp64 (c : FpCall) : Interp W Z := let% bits := call_fp c in iret (u64 bits).

Definition f64_at (r : Z) : Interp W Z := gets (λ s, get_fpr s r).
Definition store_f64 (r v : Z) : Interp W unit := modify (set_fpr r v).
Definition update_cr1_if_rc : Interp W unit := iwhen (rc i) (modify update_cr1_from_fpscr).

(** [store_f64; update_fpscr; update_cr1_if_rc], the end of every arithmetic case. *)
Definition fp_finish (r : Z) : Interp W unit :=
  do% store_f64 (frt i) r in
  do% call_fp (FpUpdateStatus r) in update_cr1_if_rc.
Definition round_if (single : bool) (r : Z) : Interp W Z :=
  if single then call_fp64 (FpRoundSingle r) else iret r.

Definition fp_access (load : bool) : ScalarAccess :=
  let single := starts_with (if load then "lfs" else "stfs") m in
  mkAccess (if single then 4 else 8) false
    (one_of m (if load then ["lfdu"; "lfdux"; "lfsu"; "lfsux"] else ["stfdu"; "stfdux"; "stfsu"; "stfsux"]))
    (ends_with "x" m) false.

Definition execute_fp_load : Interp W unit :=
  let a := fp_access true in
  let% ea := gets (effective_address i a) in
  let% raw := load_scalar ea a in
  do% store_f64 (frt i) (if sa_bytes a =? 4 then hf_promote (u32 raw) else raw) in
  update_base i a ea.

Definition execute_fp_store : Interp W unit :=
  let a := fp_access false in
  let% ea := gets (effective_address i a) in
  let% bits := f64_at (frs i) in
  do% store_scalar ea a (if sa_bytes a =? 4 then hf_truncate bits else bits) in
  update_base i a ea.

Definition execute_fp_move : Interp W unit :=
  let% v := f64_at (rb i) in
  let v := if one_of m ["fabsx"; "fnabsx"] then fp_abs_bits v else v in
  let v := if one_of m ["fnegx"; "fnabsx"] then fp_neg_bits v else v in
  do% store_f64 (frt i) v in update_cr1_if_rc.

Definition execute_fp_add : Interp W unit :=
  let% a := f64_at (ra i) in
  let% c := f64_at (rb i) in
  let% r := call_fp64 (if starts_with "fadd" m then FpAdd a c
                       else if starts_with "fsub" m then FpSub a c else FpDiv a c) in
  let% r := round_if (ends_with "sx" m) r in fp_finish r.

Definition execute_fp_mul : Interp W unit :=
  let% a := f64_at (ra i) in
  let% c := f64_at (frc i) in
  let% r := call_fp64 (FpMul a c) in
  let% r := round_if (String.eqb m "fmulsx") r in fp_finish r.

Definition execute_fp_fma : Interp W unit :=
  let subtract := starts_with "fmsub" m || starts_with "fnmsub" m in
  let negate := starts_with "fnm" m in
  let% a := f64_at (ra i) in
  let% c := f64_at (frc i) in
  let% addend := f64_at (rb i) in
  let% r := call_fp64 (FpFma a c (if subtract then fp_neg_bits addend else addend)) in
  let r := if negate then fp_neg_bits r else r in
  let% r := round_if (ends_with "sx" m) r in fp_finish r.

Definition execute_fp_sqrt : Interp W unit :=
  let% a := f64_at (rb i) in
  let% r := call_fp64 (FpSqrt a) in
  let% r := round_if (String.eqb m "fsqrtsx") r in fp_finish r.

Definition execute_fp_estimate : Interp W unit :=
  let% a := f64_at (rb i) in
  let% r := call_fp64 (if String.eqb m "fresx" then FpReciprocal a else FpRsqrt a) in fp_finish r.

Definition execute_fp_select : Interp W unit :=
  let% r := gets (λ s, fp_select (get_fpr s (ra i)) (get_fpr s (frc i)) (get_fpr s (rb i))) in
  do% store_f64 (frt i) r in update_cr1_if_rc.

Definition execute_fp_round : Interp W unit :=
  let% a := f64_at (rb i) in
  let% r := call_fp64 (FpRoundSingle a) in fp_finish r.

Definition execute_fp_from_integer : Interp W unit :=
  let% a := f64_at (rb i) in
  let% r := call_fp64 (FpFromI64 a) in fp_finish r.

Definition execute_fp_to_integer : Interp W unit :=
  let to_zero := one_of m ["fctidzx"; "fctiwzx"] in
  let width := if one_of m ["fctiwx"; "fctiwzx"] then 32 else 64 in
  let% a := f64_at (rb i) in
  let% r := call_fp64 (FpToIntegerBits a width to_zero) in
  do% store_f64 (frt i) r in
  do% call_fp FpUpdateConversionStatus in update_cr1_if_rc.

Definition execute_fp_compare : Interp W unit :=
  let% a := f64_at (ra i) in
  let% c := f64_at (rb i) in
  let% field := call_fp (FpCompareField a c) in
  do% modify (set_cr_field (crfd i) (u8 field)) in
  do% call_fp (FpUpdateCompareStatus a c (String.eqb m "fcmpo")) in iret tt.

Definition execute_stfiwx : Interp W unit :=
  let% ea := gets (effective_address i (mkAccess 4 false false true false)) in
  let% bits := f64_at (frs i) in access (mp_write 32 false ea (u32 bits)).

Definition execute_floating_point : Interp W bool :=
  if one_of m ["lfd"; "lfdu"; "lfdx"; "lfdux"; "lfs"; "lfsu"; "lfsx"; "lfsux"] then executed execute_fp_load
  else if one_of m ["stfd"; "stfdu"; "stfdx"; "stfdux"; "stfs"; "stfsu"; "stfsx"; "stfsux"]
  then executed execute_fp_store
  else if one_of m ["fmrx"; "fnegx"; "fabsx"; "fnabsx"] then executed execute_fp_move
  else if one_of m ["faddx"; "faddsx"; "fsubx"; "fsubsx"; "fdivx"; "fdivsx"] then executed execute_fp_add
  else if one_of m ["fmulx"; "fmulsx"] then executed execute_fp_mul
  else if one_of m ["fmaddx"; "fmaddsx"; "fmsubx"; "fmsubsx"; "fnmaddx"; "fnmaddsx"; "fnmsubx"; "fnmsubsx"]
  then executed execute_fp_fma
  else if one_of m ["fsqrtx"; "fsqrtsx"] then executed execute_fp_sqrt
  else if one_of m ["fresx"; "frsqrtex"] then executed execute_fp_estimate
  else if one_of m ["fselx"] then executed execute_fp_select
  else if one_of m ["frspx"] then executed execute_fp_round
  else if one_of m ["fcfidx"] then executed execute_fp_from_integer
  else if one_of m ["fctidx"; "fctidzx"; "fctiwx"; "fctiwzx"] then executed execute_fp_to_integer
  else if one_of m ["fcmpu"; "fcmpo"] then executed execute_fp_compare
  else if one_of m ["mffsx"] then
    executed (do% modify (λ s, set_fpr (frt i) (fpscr s) s) in update_cr1_if_rc)
  else if one_of m ["mcrfs"] then executed (modify (move_fpscr_field_to_cr (crfd i) (crfs i)))
  else if one_of m ["mtfsb0x"; "mtfsb1x"] then
    executed (do% modify (set_fpscr_bit (rt i) (String.eqb m "mtfsb1x")) in update_cr1_if_rc)
  else if one_of m ["mtfsfix"] then
    executed (do% modify (write_fpscr_field (crfd i) ((di_word i .>> 12) .& 0xF)) in update_cr1_if_rc)
  else if one_of m ["mtfsfx"] then
    executed (do% modify (λ s, write_fpscr_fields ((di_word i .>> 17) .& 0xFF) (u32 (get_fpr s (rb i))) s)
              in update_cr1_if_rc)
  else if one_of m ["stfiwx"] then executed execute_stfiwx
  else iret false.
End Interpreter.

(** The mnemonics of [vector_semantic_for]. *)
Definition vector_semantics : list string := [
  "vaddcuw"; "vaddfp"; "vaddfp128"; "vaddsbs"; "vaddshs"; "vaddsws"; "vaddubm"; "vaddubs"; "vadduhm";
  "vadduhs"; "vadduwm"; "vadduws"; "vand"; "vand128"; "vandc"; "vandc128"; "vavgsb"; "vavgsh"; "vavgsw";
  "vavgub"; "vavguh"; "vavguw"; "vcfpsxws128"; "vcfpuxws128"; "vcfsx"; "vcfux"; "vcmpbfp"; "vcmpbfp128";
  "vcmpeqfp"; "vcmpeqfp128"; "vcmpequb"; "vcmpequh"; "vcmpequw"; "vcmpequw128"; "vcmpgefp"; "vcmpgefp128";
  "vcmpgtfp"; "vcmpgtfp128"; "vcmpgtsb"; "vcmpgtsh"; "vcmpgtsw"; "vcmpgtub"; "vcmpgtuh"; "vcmpgtuw";
  "vcsxwfp128"; "vctsxs"; "vctuxs"; "vcuxwfp128"; "vexptefp"; "vexptefp128"; "vlogefp"; "vlogefp128";
  "vmaddcfp128"; "vmaddfp"; "vmaddfp128"; "vmaxfp"; "vmaxfp128"; "vmaxsb"; "vmaxsh"; "vmaxsw"; "vmaxub";
  "vmaxuh"; "vmaxuw"; "vmhaddshs"; "vmhraddshs"; "vminfp"; "vminfp128"; "vminsb"; "vminsh"; "vminsw"; "vminub";
  "vminuh"; "vminuw"; "vmladduhm"; "vmrghb"; "vmrghh"; "vmrghw"; "vmrghw128"; "vmrglb"; "vmrglh"; "vmrglw";
  "vmrglw128"; "vmsum3fp128"; "vmsum4fp128"; "vmsummbm"; "vmsumshm"; "vmsumshs"; "vmsumubm"; "vmsumuhm";
  "vmsumuhs"; "vmulesb"; "vmulesh"; "vmuleub"; "vmuleuh"; "vmulfp128"; "vmulosb"; "vmulosh"; "vmuloub";
  "vmulouh"; "vnmsubfp"; "vnmsubfp128"; "vnor"; "vnor128"; "vor"; "vor128"; "vperm"; "vperm128"; "vpermwi128";
  "vpkd3d128"; "vpkpx"; "vpkshss"; "vpkshss128"; "vpkshus"; "vpkshus128"; "vpkswss"; "vpkswss128"; "vpkswus";
  "vpkswus128"; "vpkuhum"; "vpkuhum128"; "vpkuhus"; "vpkuhus128"; "vpkuwum"; "vpkuwum128"; "vpkuwus";
  "vpkuwus128"; "vrefp"; "vrefp128"; "vrfim"; "vrfim128"; "vrfin"; "vrfin128"; "vrfip"; "vrfip128"; "vrfiz";
  "vrfiz128"; "vrlb"; "vrlh"; "vrlimi128"; "vrlw"; "vrlw128"; "vrsqrtefp"; "vrsqrtefp128"; "vsel"; "vsel128";
  "vsl"; "vslb"; "vsldoi"; "vsldoi128"; "vslh"; "vslo"; "vslo128"; "vslw"; "vslw128"; "vspltb"; "vsplth";
  "vspltisb"; "vspltish"; "vspltisw"; "vspltisw128"; "vspltw"; "vspltw128"; "vsr"; "vsrab"; "vsrah"; "vsraw";
  "vsraw128"; "vsrb"; "vsrh"; "vsro"; "vsro128"; "vsrw"; "vsrw128"; "vsubcuw"; "vsubfp"; "vsubfp128";
  "vsubsbs"; "vsubshs"; "vsubsws"; "vsububm"; "vsububs"; "vsubuhm"; "vsubuhs"; "vsubuwm"; "vsubuws";
  "vsum2sws"; "vsum4sbs"; "vsum4shs"; "vsum4ubs"; "vsumsws"; "vupkd3d128"; "vupkhpx"; "vupkhsb"; "vupkhsb128";
  "vupkhsh"; "vupklpx"; "vupklsb"; "vupklsb128"; "vupklsh"; "vxor"; "vxor128"].

Section Interpreter.
Context {W : Type} `{MemoryPort W, RuntimeServices W, HostHelpers W}.
Context (i : DecodedInstruction).
Abbreviation m := (mnemonic i).
Abbreviation vd := (vd i).
Abbreviation va := (va i).
Abbreviation vb := (vb i).
Abbreviation vc := (vc i).

Definition vr_at (r : Z) : Interp W Vector128 := gets (λ s, get_vr s r).

(** [static_cast<GuestAddress>((base + state.gpr[i.rb()]) & ~0xFull)]. *)
Definition aligned_address (s : CpuState) : GuestAddress := indexed_address i s .& not32 15.

(** [aot::execute_vector] of the semantic and the guest word: it may change VSCR. *)
Definition call_vector (args : list Vector128) : Interp W Vector128 := λ s w,
  let '(r, vscr', w) := hh_vector m (di_word i) (pad4 args) (vscr s) w in
  (Some r, set_vscr (u32 vscr') s, w).

Definition execute_vector_load : Interp W unit :=
  let% ea := gets aligned_address in
  let% v := access (mp_read128 ea) in modify (set_vr vd v).

Definition execute_vector_store : Interp W unit :=
  let% ea := gets aligned_address in
  let% v := vr_at vd in access (mp_write128 ea v).

(** The width of an element access. *)
Definition element_width : Z :=
  if one_of m ["lvebx"; "stvebx"] then 1 else if one_of m ["lvehx"; "stvehx"] then 2 else 4.

Definition execute_element_load : Interp W unit :=
  let% ea := gets (indexed_address i) in
  let% old := vr_at vd in
  let% v := access (vector_load_element old ea element_width) in modify (set_vr vd v).

Definition execute_element_store : Interp W unit :=
  let% ea := gets (indexed_address i) in
  let% v := vr_at vd in access (vector_store_element v ea element_width).

Definition execute_partial_load (f : Z -> W -> MemResult W Vector128) : Interp W unit :=
  let% ea := gets (indexed_address i) in
  let% v := access (f ea) in modify (set_vr vd v).

Definition execute_partial_store (f : Vector128 -> Z -> W -> MemResult W unit) : Interp W unit :=
  let% ea := gets (indexed_address i) in
  let% v := vr_at vd in access (f v ea).

Definition execute_load_shift (s : CpuState) : CpuState :=
  let ea := u64 (ra_or_zero i s + get_gpr s (rb i)) in
  set_vr vd (if starts_with "lvsl" m then vector_load_shift_left ea else vector_load_shift_right ea) s.

(** The operands of the VA form, or the old destination first. *)
Definition ternary_args (s : CpuState) : list Vector128 :=
  if is_va i then [get_vr s va; get_vr s vb; get_vr s vc] else [get_vr s vd; get_vr s va; get_vr s vb].

(** [if (!semantic) return false; ...; state.vr[reg] = execute_vector(...)]. *)
Definition vector_result (args : CpuState -> list Vector128) : Interp W bool :=
  if one_of m vector_semantics then
    executed (let% l := gets args in let% r := call_vector l in modify (set_vr vd r))
  else iret false.

Definition vector_unary_prefixes : list string :=
  ["vsplt"; "vupk"; "vcfs"; "vcfu"; "vcts"; "vctu"; "vcfps"; "vcfpu"; "vcsx"; "vcux"; "vrfi"; "vrefp";
   "vrsqrtefp"; "vexptefp"; "vlogefp"].

Definition execute_vector_general : Interp W bool :=
  if one_of m vector_semantics then
    executed (
      let% l := gets (λ s, [get_vr s va; get_vr s vb; get_vr s vc]) in
      let% r := call_vector l in
      do% modify (set_vr vd r) in
      iwhen (starts_with "vcmp" m && rc i) (modify (update_cr6_from_vector_compare r)))
  else iret false.

Definition execute_vector : Interp W bool :=
  if one_of m ["lvx"; "lvxl"; "lvx128"; "lvxl128"] then executed execute_vector_load
  else if one_of m ["stvx"; "stvxl"; "stvx128"; "stvxl128"] then executed execute_vector_store
  else if one_of m ["lvebx"; "lvehx"; "lvewx"; "lvewx128"] then executed execute_element_load
  else if one_of m ["stvebx"; "stvehx"; "stvewx"; "stvewx128"] then executed execute_element_store
  else if starts_with "lvlx" m then executed (execute_partial_load vector_load_left)
  else if starts_with "lvrx" m then executed (execute_partial_load vector_load_right)
  else if starts_with "stvlx" m then executed (execute_partial_store vector_store_left)
  else if starts_with "stvrx" m then executed (execute_partial_store vector_store_right)
  else if one_of m ["lvsl"; "lvsl128"; "lvsr"; "lvsr128"] then executed (modify execute_load_shift)
  else if one_of m ["mfvscr"] then
    executed (modify (λ s, set_vr (vd5 i) (vec_set_u32_be vec_zero 3 (vscr s)) s))
  else if one_of m ["mtvscr"] then executed (modify (λ s, set_vscr (vec_u32_be (get_vr s (vb5 i)) 3) s))
  else if starts i ["vmaddfp"; "vmaddcfp"; "vnmsubfp"] then vector_result ternary_args
  else if starts i ["vsel"] then vector_result ternary_args
  else if starts i ["vmsum3fp"; "vmsum4fp"] then
    vector_result (λ s, [get_vr s vd; get_vr s va; get_vr s vb])
  else if starts i ["vsum"; "vmsum"] then
    vector_result (λ s, [get_vr s va; get_vr s vb; if is_va i then get_vr s vc else vec_zero])
  else if starts i ["vpermwi"] then vector_result (λ s, [get_vr s vb])
  else if starts i ["vperm"] then
    vector_result (λ s, if is_va i || bool_decide (format i = FVX128_2)
                        then [get_vr s va; get_vr s vb; get_vr s vc] else [get_vr s vb])
  else if starts i ["vrlimi"] then vector_result (λ s, [get_vr s vd; get_vr s vb])
  else if starts i vector_unary_prefixes then vector_result (λ s, [get_vr s vb])
  else execute_vector_general.
End Interpreter.
