(* ===== verification/FallbackRun.v ===== *)
(** * The dynamic fallback executor
    (src/cpu/codegen/fallback/dynamic_fallback.cpp, include/xenon/cpu/dynamic_fallback.hpp)

    [run] interprets guest code from a target address until it returns, leaves for
    compiled code or the runtime, traps, or has used its budget. The counters, the
    observer and the per-address statistics of [try_execute] are left out. *)

From S2P Require Import Prelude.
From S2P Require Import Words.
From S2P Require Import Instr.
From S2P Require Import Decoder.
From S2P Require Import CpuState.
From S2P Require Import AotScalar.
From S2P Require Import Services.
From S2P Require Import IrSem.
From S2P Require Import Lifter.
From S2P Require Import Fallback.
From S2P Require Import FallbackMemory.
From S2P Require Import FallbackSystem.
From S2P Require Import FallbackVector.

(** ** Executable pages *)

(** memory_port.hpp *)
Record ExecutablePageStamp : Type := mkStamp {
  ps_physical_page : Z;
  ps_generation : Z
}.

#[export] Instance ExecutablePageStamp_eq_dec : EqDecision ExecutablePageStamp.
Proof. solve_decision. Defined.

Definition kInvalidPhysicalPage : Z := 0xFFFFFFFF.
Definition executable (p : ExecutablePageStamp) : bool :=
  negb (ps_physical_page p =? kInvalidPhysicalPage) && negb (ps_generation p =? 0).

(** The part of [MemoryPort] that serves instruction fetches. *)
Class ExecutableMemory (W : Type) := {
  em_page_stamp : GuestAddress -> W -> ExecutablePageStamp;
  em_fetch32_be : GuestAddress -> W -> MemResult W Z
}.

(** ** Results *)

Inductive StopReason : Type :=
  | Returned | CompiledHandoff | UnsupportedInstruction | InvalidTarget | SourceChanged
  | InstructionLimit | CallDepthLimit | Trapped | Syscalled.

(** [rr_result] is [public_result]; [None] when it is not handled. *)
Record RunResult : Type := mkRunResult {
  rr_result : option ExecutionResult;
  rr_reason : StopReason;
  rr_exit : GuestAddress;
  rr_instructions : Z;
  rr_fingerprint : Z
}.

Record DynamicFallbackConfig : Type := mkConfig {
  fc_max_instructions_per_dispatch : nat;
  fc_max_nested_calls : nat
}.

(** The constructor's [std::max(1u, ...)]. *)
Definition checked_config (c : DynamicFallbackConfig) : DynamicFallbackConfig :=
  mkConfig (Nat.max 1 (fc_max_instructions_per_dispatch c)) (Nat.max 1 (fc_max_nested_calls c)).

Definition kGuestPageMask : Z := 0xFFFFF000.
Definition kFallbackUnsupportedDetail : Z := 0x58470001.
Definition kFallbackInvalidTargetDetail : Z := 0x58470002.
Definition kFallbackSourceChangedDetail : Z := 0x58470003.
Definition kFallbackCallDepthDetail : Z := 0x58470005.
Definition kFnvOffset : Z := 1469598103934665603.
Definition kFnvPrime : Z := 1099511628211.
Definition fingerprint_step (hash word : Z) : Z := u64 ((hash .^ word) * kFnvPrime).

(** ** One instruction *)

(** [None] outside when [follow_tail_branches] runs out of fuel, inside when an
    exception leaves the interpreter. *)
Definition Run (W A : Type) : Type := CpuState -> W -> option (option A * CpuState * W).

Definition run_ret {W A} (x : A) : Run W A := λ s w, Some (Some x, s, w).
Definition run_bind {W A B} (c : Run W A) (k : A -> Run W B) : Run W B := λ s w,
  match c s w with
  | Some (Some x, s, w) => k x s w
  | Some (None, s, w) => Some (None, s, w)
  | None => None
  end.
Definition run_interp {W A} (c : Interp W A) : Run W A := λ s w, Some (c s w).
Definition run_service {W} (c : Service W) : Run W ExecutionResult := λ s w, Some (c s w).

Declare Scope run_scope.
Delimit Scope run_scope with run.
Notation "'let$' x := c 'in' k" := (run_bind c (λ x, k))
  (at level 200, x binder, c at level 100, k at level 200, right associativity) : run_scope.
Notation "'do$' c 'in' k" := (run_bind c (λ _, k))
  (at level 200, c at level 100, k at level 200, right associativity) : run_scope.
Open Scope run_scope.

Section Executor.
Context {W : Type} `{MemoryPort W, RuntimeServices W, HostHelpers W, ExecutableMemory W}.

(** [execute_simple]: the classes in turn, until one knows the mnemonic. *)
Definition or_else (a b : Interp W bool) : Interp W bool := ibind a (λ ok, if ok : bool then iret true else b).

Definition execute_simple (i : DecodedInstruction) : Interp W bool :=
  or_else (execute_scalar_memory i)
    (or_else (λ s w, let '(ok, s) := execute_integer i s in (Some ok, s, w))
      (or_else (execute_system i)
        (or_else (execute_floating_point i) (execute_vector i)))).

(** A call to the context that answers whether there is compiled code. *)
Definition compiled_entry (target : GuestAddress) (kind : CompiledLookupKind) : Run W (option (Service W)) :=
  λ s w, let '(native, s, w) := lookup_compiled target kind s w in Some (Some native, s, w).
Definition page_executable (address : GuestAddress) : Run W bool :=
  λ s w, Some (Some (executable (em_page_stamp address w)), s, w).
Definition import_thunk (address : GuestAddress) : Run W bool :=
  λ s w, Some (Some (rt_is_recognized_import_thunk address w), s, w).

(** The variables of [run] across instructions. *)
Record Local : Type := mkLocal {
  lo_stamps : gmap Z ExecutablePageStamp;
  lo_instructions : Z;
  lo_fingerprint : Z
}.

Definition stop (l : Local) (reason : StopReason) (exit : GuestAddress) (r : ExecutionResult) : RunResult :=
  mkRunResult (Some r) reason exit (lo_instructions l) (lo_fingerprint l).

(** [validate_page]. *)
Definition validate_page (address : GuestAddress) (l : Local) (w : W) : StopReason + Local :=
  let page := address .& kGuestPageMask in
  let current := em_page_stamp address w in
  if negb (executable current) then inl InvalidTarget
  else match lo_stamps l !! page with
       | Some stamp => if bool_decide (stamp = current) then inr l else inl SourceChanged
       | None => inr (mkLocal (<[page := current]> (lo_stamps l)) (lo_instructions l) (lo_fingerprint l))
       end.

Definition page_detail (r : StopReason) : Z :=
  match r with SourceChanged => kFallbackSourceChangedDetail | _ => kFallbackInvalidTargetDetail end.

(** [finish_call]: a result that leaves the caller, or [None] to go on after the call. *)
Definition finish_call (result : ExecutionResult) (expected_return : GuestAddress) : option ExecutionResult :=
  if reason_is RReturn result then
    if er_next_address result =? expected_return then None else Some result
  else if reason_is RFallthrough result then None else Some result.

Definition tail_branches (tail_fuel : nat) (r : ExecutionResult) : Run W ExecutionResult :=
  follow_tail_branches tail_fuel r.

(** The counts of a nested run are added to the caller's. *)
Definition add_nested (l : Local) (nested : RunResult) : Local :=
  let f := lo_fingerprint l in
  mkLocal (lo_stamps l) (u32 (lo_instructions l + rr_instructions nested))
    (f .^ u64 (u64 (u64 (rr_fingerprint nested + 0x9E3779B97F4A7C15) + u64 (f .<< 6)) + (f .>> 2))).

(** What one instruction does: the next address, or the end of the run. *)
Inductive Progress : Type :=
  | Continue_at (l : Local) (next : GuestAddress)
  | Finished (r : RunResult).

Section Loop.
Context (tail_fuel : nat) (nested : GuestAddress -> Run W RunResult).
Context (kind : CompiledLookupKind) (entry_return : GuestAddress).

(** [execute_call]. *)
Definition execute_call (l : Local) (target expected_return : GuestAddress)
    : Run W (Local * option ExecutionResult) :=
  let call_runtime (l : Local) :=
    let$ result := run_service (rt_call target) in
    let$ result := tail_branches tail_fuel result in
    run_ret (l, finish_call result expected_return) in
  let$ native := compiled_entry target LookupCall in
  match native with
  | Some native =>
      let$ result := run_service native in
      let$ result := tail_branches tail_fuel result in
      run_ret (l, finish_call result expected_return)
  | None =>
      let$ here := page_executable target in
      if here : bool then
        let$ r := nested target in
        let l := add_nested l r in
        match rr_result r with
        | Some result =>
            let$ result := tail_branches tail_fuel result in
            run_ret (l, finish_call result expected_return)
        | None => call_runtime l
        end
      else call_runtime l
  end.

(** A linked branch: the call, and what it makes of the caller. *)
Definition linked_branch (l : Local) (target pc : GuestAddress) : Run W Progress :=
  let$ x := execute_call l target (u32 (pc + 4)) in
  let '(l, escaped) := x in
  match escaped with
  | Some r =>
      run_ret (Finished (stop l (if reason_is RTrap r then Trapped else CompiledHandoff)
                           (er_next_address r) r))
  | None => run_ret (Continue_at l (u32 (pc + 4)))
  end.

(** [execute_tail_branch], else on to the target. *)
Definition tail_branch (l : Local) (target : GuestAddress) : Run W Progress :=
  let$ native := compiled_entry target LookupBranch in
  match native with
  | Some native =>
      let$ r := run_service native in run_ret (Finished (stop l CompiledHandoff target r))
  | None =>
      let$ thunk := import_thunk target in
      if thunk : bool then
        let$ r := run_service (call_import_from_branch target) in
        run_ret (Finished (stop l CompiledHandoff target r))
      else run_ret (Continue_at l target)
  end.

Definition write_link (i : DecodedInstruction) (pc : GuestAddress) : Run W unit :=
  run_interp (iwhen (lk i) (modify (set_lr (u32 (pc + 4))))).
Definition run_test_branch (i : DecodedInstruction) (use_ctr : bool) : Run W bool :=
  run_interp (λ s w, let '(taken, s) := test_branch i use_ctr s in (Some taken, s, w)).

(** [direct_branch_target() & ~3u]. *)
Definition branch_target (i : DecodedInstruction) : GuestAddress := direct_branch_target i .& not32 3.

(** A return ends the run: NIA is the target. *)
Definition returned (l : Local) (target : GuestAddress) : Run W Progress :=
  do$ run_interp (modify (set_nia target)) in
  run_ret (Finished (stop l Returned target (mkResult RReturn target 0))).

(** The target of a return that is no guest code at all. *)
Definition host_owned (target : GuestAddress) : Run W bool :=
  let$ here := page_executable target in
  if here : bool then run_ret false
  else
    let$ native := compiled_entry target LookupBranch in
    match native with
    | Some _ => run_ret false
    | None => let$ thunk := import_thunk target in run_ret (negb thunk)
    end.

Definition execute_bx (l : Local) (i : DecodedInstruction) (pc : GuestAddress) : Run W Progress :=
  do$ write_link i pc in
  if lk i then linked_branch l (branch_target i) pc else tail_branch l (branch_target i).

Definition execute_bcx (l : Local) (i : DecodedInstruction) (pc : GuestAddress) : Run W Progress :=
  let$ taken := run_test_branch i true in
  do$ write_link i pc in
  if negb taken then run_ret (Continue_at l (u32 (pc + 4)))
  else if lk i then linked_branch l (branch_target i) pc else tail_branch l (branch_target i).

Definition execute_indirect (l : Local) (i : DecodedInstruction) (pc : GuestAddress) : Run W Progress :=
  let use_ctr := String.eqb (mnemonic i) "bclrx" in
  let$ raw_target := run_interp (gets (if use_ctr then lr else ctr)) in
  let target := u32 (raw_target .& not64 3) in
  let$ taken := run_test_branch i use_ctr in
  do$ write_link i pc in
  if negb taken then run_ret (Continue_at l (u32 (pc + 4)))
  else if lk i then linked_branch l target pc
  else if use_ctr && match kind with LookupCall => true | _ => false end && (target =? entry_return)
  then returned l target
  else
    let$ outside := if use_ctr then host_owned target else run_ret false in
    if outside : bool then returned l target else tail_branch l target.

Definition execute_trap (l : Local) (i : DecodedInstruction) (pc : GuestAddress) : Run W Progress :=
  let word := di_word i in
  let to := (word .>> 21) .& 31 in
  let word_form := one_of (mnemonic i) ["tw"; "twi"] in
  let$ lhs := run_interp (gets (λ s, get_gpr s ((word .>> 16) .& 31))) in
  let$ rhs := run_interp (gets (λ s, if one_of (mnemonic i) ["tdi"; "twi"] then u64 (s16 (word .& 0xFFFF))
                                     else get_gpr s ((word .>> 11) .& 31))) in
  if trap_condition to lhs rhs word_form then
    let$ r := run_service (rt_trap to) in
    run_ret (Finished (stop l Trapped (er_next_address r) r))
  else run_ret (Continue_at l (u32 (pc + 4))).

Definition unsupported (l : Local) (pc : GuestAddress) : RunResult :=
  stop l UnsupportedInstruction pc (mkResult RTrap pc kFallbackUnsupportedDetail).

Definition execute_instruction (l : Local) (i : DecodedInstruction) (pc : GuestAddress) : Run W Progress :=
  let m := mnemonic i in
  if String.eqb m "bx" then execute_bx l i pc
  else if String.eqb m "bcx" then execute_bcx l i pc
  else if one_of m ["bclrx"; "bcctrx"] then execute_indirect l i pc
  else if String.eqb m "sc" then
    let$ r := run_service (rt_syscall ((di_word i .>> 5) .& 0x7F)) in
    run_ret (Finished (stop l Syscalled (er_next_address r) r))
  else if one_of m ["td"; "tdi"; "tw"; "twi"] then execute_trap l i pc
  else
    let$ ok := run_interp (execute_simple i) in
    if ok : bool then run_ret (Continue_at l (u32 (pc + 4))) else run_ret (Finished (unsupported l pc)).

Definition page_trap (l : Local) (pc : GuestAddress) (r : StopReason) : RunResult :=
  stop l r pc (mkResult RTrap pc (page_detail r)).

Definition count_instruction (word : Z) (l : Local) : Local :=
  mkLocal (lo_stamps l) (u32 (lo_instructions l + 1)) (fingerprint_step (lo_fingerprint l) word).

(** The body of the loop. *)
Definition run_one (l : Local) (pc : GuestAddress) : Run W Progress := λ s w,
  match validate_page pc l w with
  | inl r => run_ret (Finished (page_trap l pc r)) s w
  | inr l =>
      let s := set_nia (u32 (pc + 4)) (set_cia pc s) in
      match em_fetch32_be pc w with
      | (None, w) => Some (None, s, w)
      | (Some word, w) =>
          match validate_page pc l w with
          | inl r => run_ret (Finished (page_trap l pc r)) s w
          | inr l =>
              let l := count_instruction word l in
              let i := decode pc word in
              if negb (valid i) then run_ret (Finished (unsupported l pc)) s w
              else execute_instruction l i pc s w
          end
      end
  end.

(** The budget is used up: yield at the next instruction. *)
Definition yield_at (l : Local) (pc : GuestAddress) : Run W RunResult :=
  do$ run_interp (modify (λ s, set_nia pc (set_cia pc s))) in
  run_ret (stop l InstructionLimit pc (mkResult RBranch pc 0)).

Fixpoint run_loop (budget : nat) (l : Local) (pc : GuestAddress) : Run W RunResult :=
  match budget with
  | O => yield_at l pc
  | S budget =>
      let$ p := run_one l pc in
      match p with
      | Continue_at l next => run_loop budget l next
      | Finished r => run_ret r
      end
  end.
End Loop.

(** ** The run *)

Definition not_handled (reason : StopReason) (target : GuestAddress) : RunResult :=
  mkRunResult None reason target 0 kFnvOffset.
Definition at_entry : Local := mkLocal ∅ 0 kFnvOffset.

(** [depth_left] counts the nested runs that are still allowed, and one more that
    reports the limit. *)
Fixpoint run (config : DynamicFallbackConfig) (tail_fuel depth_left : nat) (target : GuestAddress)
    (kind : CompiledLookupKind) : Run W RunResult := λ s w,
  if negb (target .& 3 =? 0) then run_ret (not_handled InvalidTarget target) s w
  else if negb (executable (em_page_stamp target w)) then run_ret (not_handled InvalidTarget target) s w
  else if rt_is_recognized_import_thunk target w then
    (let$ r := run_service (match kind with
                            | LookupBranch => call_import_from_branch target
                            | LookupCall => rt_call target
                            end) in
     run_ret (stop at_entry InvalidTarget target r)) s w
  else
    match depth_left with
    | O => run_ret (stop at_entry CallDepthLimit target (mkResult RTrap target kFallbackCallDepthDetail)) s w
    | S depth_left =>
        run_loop tail_fuel (λ target, run config tail_fuel depth_left target LookupCall) kind
          (u32 (lr s .& not64 3)) (fc_max_instructions_per_dispatch config) at_entry target s w
    end.

(** [try_execute]: depths 0 to [max_nested_calls] run. *)
Definition try_execute (config : DynamicFallbackConfig) (tail_fuel : nat) (target : GuestAddress)
    (kind : CompiledLookupKind) : Run W RunResult :=
  run (checked_config config) tail_fuel (S (fc_max_nested_calls (checked_config config))) target kind.
End Executor.

Arguments Progress : clear implicits.
