(* ===== verification/EmitFunction.v ===== *)
(** * The generated code of a whole function
    ([CppAotBackend::emit_function] of a function, backend_cpp_aot.cpp)

    Blocks become labels of one C++ function: direct branches to local blocks are
    [goto]s, local calls re-enter the dispatch function, and every other transfer
    leaves it. What the C++ text does is one function here, with fuel for the
    blocks entered. *)

From S2P Require Import Prelude.
From S2P Require Import Words.
From S2P Require Import Instr.
From S2P Require Import CpuState.
From S2P Require Import Ir.
From S2P Require Import IrValue.
From S2P Require Import Services.
From S2P Require Import IrSem.
From S2P Require Import ControlFlow.

(** ** Static facts about a block *)

(** The first [Constant] of the block with this result. *)
Definition constant_value (b : Block) (id : ValueId) : option Z :=
  i_imm0 <$> List.find (λ i, (i_result i =? id) && bool_decide (i_op i = Op.Constant)) (b_instructions b).

Definition local_fallthrough (b : Block) : option GuestAddress :=
  e_target <$> List.find (λ e, e_local e && bool_decide (e_kind e = Fallthrough)) (b_successors b).

Definition is_guaranteed_terminal (b : Block) : bool :=
  existsb (λ i,
    match i_op i with
    | Op.Branch | Op.Return | Op.Syscall => true
    | Op.Barrier => i_imm0 i =? 4
    | Op.BranchIf | Op.BranchIndirect =>
        (i_imm0 i =? 0) &&
        match i_args i with
        | c :: _ => match constant_value b c with Some v => negb (v =? 0) | None => false end
        | [] => false
        end
    | _ => false
    end) (b_instructions b).

Definition local_targets (f : Function) : list GuestAddress := b_guest_address <$> f_blocks f.
Definition is_local (f : Function) (target : GuestAddress) : bool := bool_decide (target ∈ local_targets f).

(** A local control-flow edge without a block is a [std::logic_error]. *)
Definition edge_materialized (f : Function) (e : ControlFlowEdge) : bool :=
  negb (bool_decide (e_kind e = Branch \/ e_kind e = Fallthrough) && e_local e) || is_local f (e_target e).
Definition emits (f : Function) : bool :=
  negb (length (f_blocks f) =? 0)%nat &&
  forallb (λ b, forallb (edge_materialized f) (b_successors b)) (f_blocks f).

Definition is_back_edge (i : Instruction) (b : Block) (target : GuestAddress) : bool :=
  target <=? Z.max (i_guest_address i) (b_guest_address b).

(** The address after the block, for its closing [return]. *)
Definition block_next (b : Block) : GuestAddress :=
  if b_end_address b =? 0 then
    match last_guest (b_instructions b) with
    | Some g => u32 (g + 4)
    | None => u32 (b_guest_address b + 4)
    end
  else b_end_address b.

Section Emission.
Context {W : Type} `{MemoryPort W, RuntimeServices W, HostHelpers W}.
(** Fuel for [follow_tail_branches]. *)
Context (tail_fuel : nat).
Context (f : Function) (direct_calls : list (GuestAddress * Service W)).

(** ** One instruction of a function *)

(** [FGoto]: on to a local block. *)
Inductive FunctionStep : Type :=
  | FNext (v : option TVal) (s : CpuState) (w : W)
  | FExit (r : option ExecutionResult) (s : CpuState) (w : W)
  | FGoto (target : GuestAddress) (s : CpuState) (w : W).

Definition of_step (r : Step W) : FunctionStep :=
  match r with Next v s w => FNext v s w | Exit r s w => FExit r s w end.

(** [context.poll_safepoint(); goto]: the poll may throw. *)
Definition poll_goto (target : GuestAddress) (s : CpuState) (w : W) : FunctionStep :=
  let '(alive, s, w) := rt_poll_safepoint s w in
  if alive : bool then FGoto target s w else FExit None s w.

(** A direct branch that is taken: NIA, then a label or a return. *)
Definition take_branch (i : Instruction) (b : Block) (target : GuestAddress) (s : CpuState) (w : W) : FunctionStep :=
  let s := set_nia target s in
  if is_local f target then
    if is_back_edge i b target then poll_goto target s w else FGoto target s w
  else FExit (Some (mkResult RBranch target 0)) s w.

(** The shared long-jump block. *)
Definition long_jump (r : ExecutionResult) (s : CpuState) (w : W) : FunctionStep :=
  let target := er_next_address r in
  if is_local f target then FGoto target (set_nia (u32 (target + 4)) (set_cia target s)) w
  else FExit (Some r) s w.

(** [emit_call_result_check]. *)
Definition call_result (expected_return : GuestAddress) (r : option ExecutionResult) (s : CpuState) (w : W)
    : option FunctionStep :=
  match r with
  | None => Some (FExit None s w)
  | Some r =>
      '(r, s, w) ← follow_tail_branches tail_fuel r s w;
      Some match r with
      | None => FExit None s w
      | Some r =>
          if reason_is RLongJump r then long_jump r s w
          else if reason_is RReturn r then
            if er_next_address r =? expected_return then FNext None s w else FExit (Some r) s w
          else if reason_is RFallthrough r then FNext None s w else FExit (Some r) s w
      end
  end.

(** [lookup_compiled], else the dynamic fallback, else [runtime.call(raw_target)]. *)
Definition foreign_call (target raw_target : GuestAddress) : Service W := λ s w,
  let '(_, r, s, w) := dispatch_call target raw_target s w in (r, s, w).

Definition find_direct_call (target : GuestAddress) : option (Service W) :=
  snd <$> List.find (λ c, fst c =? target) direct_calls.

Section Step.
(** The dispatch function, for local calls. *)
Context (dispatch : GuestAddress -> CpuState -> W -> option (option ExecutionResult * CpuState * W)).

Definition direct_call (i : Instruction) (target : GuestAddress) (s : CpuState) (w : W) : option FunctionStep :=
  '(r, s, w) ←
    (if is_local f target then dispatch target s w
     else match find_direct_call target with
          | Some native => Some (native s w)
          | None => Some (foreign_call target target s w)
          end);
  call_result (u32 (i_guest_address i + 4)) r s w.

Definition indirect_call (i : Instruction) (raw_target : GuestAddress) (s : CpuState) (w : W)
    : option FunctionStep :=
  let target := raw_target .& not32 3 in
  '(r, s, w) ← (if is_local f target then dispatch target s w else Some (foreign_call target raw_target s w));
  call_result (u32 (i_guest_address i + 4)) r s w.

(** An indirect branch that is not a return: a local block, or as in a block function. *)
Definition take_indirect (raw_target : Z) (s : CpuState) (w : W) : FunctionStep :=
  let target := u32 (raw_target .& not64 3) in
  if is_local f target then
    let '(alive, s, w) := rt_poll_safepoint s w in
    if alive : bool then FGoto target (set_nia target s) w else FExit None s w
  else of_step (indirect_branch target s w).

(** The target argument of a direct transfer, when the block makes it a constant. *)
Definition direct_target (b : Block) (i : Instruction) : option GuestAddress :=
  u32 <$>
  match i_op i, i_args i with
  | (Op.Branch | Op.Call), a :: _ => constant_value b a
  | Op.BranchIf, _ :: a :: _ => if (i_imm0 i =? 0) || (i_imm0 i =? 1) then constant_value b a else None
  | _, _ => None
  end.

(** [emit_one_in_function]. *)
Definition exec_in_function (mode : Mode) (b : Block) (i : Instruction) (args : list TVal) (s : CpuState) (w : W)
    : option FunctionStep :=
  let generic := of_step <$> exec_inst tail_fuel mode i args s w in
  match i_op i, direct_target b i, args with
  | Op.Branch, Some target, _ => Some (take_branch i b target s w)
  | Op.Call, Some target, _ => direct_call i target s w
  | Op.BranchIf, Some target, c :: _ =>
      taken ← bool_of c;
      if taken : bool then
        if i_imm0 i =? 1 then direct_call i target s w else Some (take_branch i b target s w)
      else Some (FNext None s w)
  | Op.CallIndirect, _, [a] => raw ← address_of a; indirect_call i raw s w
  | Op.BranchIndirect, _, [c; a] =>
      if negb (i_imm0 i =? 0) then
        taken ← bool_of c; raw ← any_int a;
        if taken : bool then indirect_call i (u32 raw) s w else Some (FNext None s w)
      else if negb (i_imm1 i =? 1) then
        taken ← bool_of c; raw ← any_int a;
        if taken : bool then Some (take_indirect raw s w) else Some (FNext None s w)
      else generic
  | _, _, _ => generic
  end.

(** ** One block *)

Inductive BlockExit : Type :=
  | Ran (e : Env) (m : Machine W)
  | Left_function (r : option ExecutionResult) (s : CpuState) (w : W)
  | Jumped (target : GuestAddress) (s : CpuState) (w : W).

Definition exec_one_in (mode : Mode) (b : Block) (i : Instruction) (e : Env) (m : Machine W) : option BlockExit :=
  args ← mapM (e !!.) (i_args i);
  let m := emit_guest_pc i m in
  r ← exec_in_function mode b i args (m_cpu m) (m_world m);
  match r with
  | FNext v s w => e ← bind_result i v e; Some (Ran e (mkMachine s w (m_materialized m)))
  | FExit r s w => Some (Left_function r s w)
  | FGoto target s w => Some (Jumped target s w)
  end.

Fixpoint exec_body_in (mode : Mode) (b : Block) (l : list Instruction) (e : Env) (m : Machine W) : option BlockExit :=
  match l with
  | [] => Some (Ran e m)
  | i :: l =>
      r ← exec_one_in mode b i e m;
      match r with
      | Ran e m => exec_body_in mode b l e m
      | r => Some r
      end
  end.

(** The end of a block that did not leave: the next label or a return. *)
Definition close_block (b : Block) (m : Machine W) : BlockExit :=
  if is_guaranteed_terminal b then
    Left_function (Some (mkResult RFallthrough (block_next b) 0)) (m_cpu m) (m_world m)
  else
    let m := final_cia b (emit_exit_pc (last_guest (b_instructions b)) m) in
    match local_fallthrough b with
    | Some target => Jumped target (set_nia target (m_cpu m)) (m_world m)
    | None =>
        Left_function (Some (mkResult RFallthrough (block_next b) 0)) (set_nia (block_next b) (m_cpu m)) (m_world m)
    end.

Definition run_block_in (mode : Mode) (b : Block) (s : CpuState) (w : W) : option BlockExit :=
  let l := b_instructions b in
  let prologue := match l with [] => true | i :: _ => negb (has_guest_source i) end in
  let s := if prologue
           then set_nia (u32 (b_guest_address b + 4)) (set_cia (b_guest_address b) s) else s in
  r ← exec_body_in mode b l ∅ (mkMachine s w None);
  Some match r with Ran _ m => close_block b m | r => r end.
End Step.

(** ** The dispatch function *)

Definition block_at (target : GuestAddress) : option Block :=
  List.find (λ b, b_guest_address b =? target) (f_blocks f).

(** [<name>_dispatch_v2(context, entry)]; each block entered takes one unit of fuel. *)
Fixpoint run_from (mode : Mode) (fuel : nat) (entry : GuestAddress) (s : CpuState) (w : W)
    : option (option ExecutionResult * CpuState * W) :=
  match fuel with
  | O => None
  | S fuel =>
      match block_at entry with
      | None => Some (Some (mkResult RTrap entry 0x80000003), s, w)
      | Some b =>
          r ← run_block_in (run_from mode fuel) mode b s w;
          match r with
          | Ran _ m => Some (None, m_cpu m, m_world m)
          | Left_function r s w => Some (r, s, w)
          | Jumped target s w => run_from mode fuel target s w
          end
      end
  end.

(** [<name>_v2(context)]. *)
Definition run_function (mode : Mode) (fuel : nat) (s : CpuState) (w : W)
    : option (option ExecutionResult * CpuState * W) :=
  run_from mode fuel (f_guest_address f) s w.
End Emission.

Arguments FunctionStep : clear implicits.
Arguments BlockExit : clear implicits.
