(* ===== verification/FallbackProps.v ===== *)
(** * What the fallback interpreter can execute
    ([dynamic_fallback_supports], dynamic_fallback.cpp)

    The analyzer asks whether the interpreter has a case for an instruction by a dry
    run on a scratch state. The lemmas show that the answer is a fact about the
    mnemonic, and the claims that it is the interpreter's answer in every state, over
    every memory and runtime. *)

From S2P Require Import Prelude.
From S2P Require Import Words.
From S2P Require Import Instr.
From S2P Require Import Decoder.
From S2P Require Import CpuState.
From S2P Require Import AotScalar.
From S2P Require Import Services.
From S2P Require Import IrSem.
From S2P Require Import FlatMemory.
From S2P Require Import NullRuntime.
From S2P Require Import Lifter.
From S2P Require Import Fallback.
From S2P Require Import LifterMemory.
From S2P Require Import Lift.
From S2P Require Import LiftTotal.
From S2P Require Import FallbackMemory.
From S2P Require Import FallbackSystem.
From S2P Require Import FallbackVector.
From S2P Require Import FallbackRun.

(** ** What the interpreter has a case for *)

(** The mnemonics the block loop handles itself. *)
Definition inline_mnemonics : list string := ["bx"; "bcx"; "bclrx"; "bcctrx"; "sc"; "td"; "tdi"; "tw"; "twi"].

(** A zeroed state at the instruction, no runtime services. *)
Definition probe_state (i : DecodedInstruction) : CpuState :=
  set_nia (u32 (di_address i + 4)) (set_cia (di_address i) CpuState_init).

Definition dynamic_fallback_supports {W} `{MemoryPort W, HostHelpers W} (i : DecodedInstruction)
    (scratch_memory : W) : bool :=
  valid i &&
  (one_of (mnemonic i) inline_mnemonics ||
   match @execute_simple W _ (null_services W) _ i (probe_state i) scratch_memory with
   | (Some executed, _, _) => executed
   | (None, _, _) => true
   end).

(** ** The answer of a class *)

(** Whatever the state, [c] answers [b]: it throws only if it has the case, and it
    changes nothing if it has not. *)
Definition decides {W} (c : Interp W bool) (b : bool) : Prop :=
  ∀ s w, match c s w with
         | (Some x, s', w') => x = b /\ (b = false -> s' = s /\ w' = w)
         | (None, _, _) => b = true
         end.

Section Decides.
Context {W : Type}.

Lemma decides_ret b : decides (@iret W bool b) b.
Proof. done. Qed.
Lemma decides_executed (c : Interp W unit) : decides (executed c) true.
Proof. intros s w. unfold executed, ibind. by destruct (c s w) as [[[?|] ?] ?]. Qed.
Lemma decides_or (a b : Interp W bool) x y : decides a x -> decides b y -> decides (or_else a b) (x || y).
Proof.
  intros Ha Hb s w. unfold or_else, ibind. specialize (Ha s w).
  destruct (a s w) as [[[x'|] s'] w']; cbn in *; [|by rewrite Ha]. destruct Ha as [-> Hs], x; [done|].
  destruct (Hs eq_refl) as [-> ->]. apply Hb.
Qed.
Lemma decides_if (t : bool) (a b : Interp W bool) x y :
  decides a x -> decides b y -> decides (if t then a else b) (if t then x else y).
Proof. by destruct t. Qed.
End Decides.

Create HintDb support.
#[export] Hint Resolve decides_ret decides_executed decides_or decides_if : support.

(** ** The cases of each class *)

Definition has_memory_case (m : string) : bool :=
  bool_decide (is_Some (load_access m)) || (bool_decide (is_Some (store_access m)) ||
  one_of m ["lwarx"; "ldarx"; "stwcx"; "stdcx"; "lmw"; "stmw"; "lswi"; "lswx"; "stswi"; "stswx"]).

Definition integer_cases : list string :=
  ["addi"; "addis"; "addic"; "addicx"; "ori"; "oris"; "xori"; "xoris"; "andix"; "andisx"; "addx"; "subfx";
   "addcx"; "addex"; "addmex"; "addzex"; "subfcx"; "subfex"; "subfmex"; "subfzex"; "subficx"; "andx"; "andcx";
   "orx"; "orcx"; "xorx"; "eqvx"; "nandx"; "norx"; "negx"; "mulli"; "mulldx"; "mullwx"; "mulhdx"; "mulhdux";
   "mulhwx"; "mulhwux"; "divdx"; "divdux"; "divwx"; "divwux"; "extsbx"; "extshx"; "extswx"; "cmp"; "cmpl";
   "cmpi"; "cmpli"; "rlwinmx"; "rlwimix"; "rlwnmx"; "rldiclx"; "rldicrx"; "rldicx"; "rldimix"; "rldclx";
   "rldcrx"; "slwx"; "srwx"; "srawx"; "sldx"; "srdx"; "sradx"; "srawix"; "sradix"; "cntlzwx"; "cntlzdx"].

Definition system_cases : list string :=
  ["mfmsr"; "mtmsr"; "mtmsrd"; "crand"; "crandc"; "creqv"; "crnand"; "crnor"; "cror"; "crorc"; "crxor"; "mcrf";
   "mcrxr"; "mfcr"; "mtcrf"; "mfspr"; "mftb"; "mtspr"; "sync"; "eieio"; "isync"; "dcbz"; "dcbz128"; "icbi";
   "dcbf"; "dcbi"; "dcbst"; "dcbt"; "dcbtst"].

Definition floating_point_cases : list string :=
  ["lfd"; "lfdu"; "lfdx"; "lfdux"; "lfs"; "lfsu"; "lfsx"; "lfsux"; "stfd"; "stfdu"; "stfdx"; "stfdux"; "stfs";
   "stfsu"; "stfsx"; "stfsux"; "fmrx"; "fnegx"; "fabsx"; "fnabsx"; "faddx"; "faddsx"; "fsubx"; "fsubsx";
   "fdivx"; "fdivsx"; "fmulx"; "fmulsx"; "fmaddx"; "fmaddsx"; "fmsubx"; "fmsubsx"; "fnmaddx"; "fnmaddsx";
   "fnmsubx"; "fnmsubsx"; "fsqrtx"; "fsqrtsx"; "fresx"; "frsqrtex"; "fselx"; "frspx"; "fcfidx"; "fctidx";
   "fctidzx"; "fctiwx"; "fctiwzx"; "fcmpu"; "fcmpo"; "mffsx"; "mcrfs"; "mtfsb0x"; "mtfsb1x"; "mtfsfix";
   "mtfsfx"; "stfiwx"].

Definition vector_element_cases : list string :=
  ["lvx"; "lvxl"; "lvx128"; "lvxl128"; "stvx"; "stvxl"; "stvx128"; "stvxl128"; "lvebx"; "lvehx"; "lvewx";
   "lvewx128"; "stvebx"; "stvehx"; "stvewx"; "stvewx128"].
Definition vector_partial_prefixes : list string := ["lvlx"; "lvrx"; "stvlx"; "stvrx"].
Definition vector_register_cases : list string := ["lvsl"; "lvsl128"; "lvsr"; "lvsr128"; "mfvscr"; "mtvscr"].
Definition has_vector_case (m : string) : bool :=
  one_of m vector_element_cases || (existsb (λ p, starts_with p m) vector_partial_prefixes ||
  (one_of m vector_register_cases || one_of m vector_semantics)).

(** The mnemonics [execute_simple] has a case for. *)
Definition has_case (m : string) : bool :=
  has_memory_case m || (one_of m integer_cases || (one_of m system_cases ||
  (one_of m floating_point_cases || has_vector_case m))).

Lemma decides_ext {W} (c : Interp W bool) x y : decides c x -> x = y -> decides c y.
Proof. by intros ? <-. Qed.

Lemma one_of_app m l l' : (if one_of m l then true else one_of m l') = one_of m (l ++ l').
Proof. unfold one_of. rewrite existsb_app. by destruct (existsb _ l). Qed.
Lemma fst_if {A B} (t : bool) (x : A) (y : B) (r : A * B) :
  fst (if t then (x, y) else r) = if t then x else fst r.
Proof. by destruct t. Qed.

Lemma one_of_if m l : (if one_of m l then true else false) = one_of m l.
Proof. by destruct (one_of m l). Qed.

(** A chain of tests on the mnemonic is one test. *)
Ltac chain := rewrite one_of_if; repeat rewrite one_of_app; reflexivity.

Section Classes.
Context {W : Type} `{MemoryPort W, RuntimeServices W, HostHelpers W}.
Context (i : DecodedInstruction).

Lemma scalar_memory_decides : decides (execute_scalar_memory i) (has_memory_case (mnemonic i)).
Proof.
  unfold execute_scalar_memory, has_memory_case.
  destruct (load_access _); cbn [orb bool_decide]; [by rewrite bool_decide_eq_true_2; auto with support|].
  rewrite (bool_decide_eq_false_2 (is_Some None)) by (by intros [? ?]). cbn [orb].
  destruct (store_access _); cbn [orb]; [by rewrite bool_decide_eq_true_2; auto with support|].
  rewrite (bool_decide_eq_false_2 (is_Some None)) by (by intros [? ?]). cbn [orb].
  eapply decides_ext; [eauto 20 with support|]. chain.
Qed.

Lemma integer_unknown s : fst (execute_integer i s) = false -> snd (execute_integer i s) = s.
Proof.
  unfold execute_integer.
  repeat match goal with |- fst (if ?b then _ else _) = _ -> _ => destruct b; [discriminate|] end. done.
Qed.
Lemma integer_decides :
  decides (W := W) (λ s w, let '(ok, s) := execute_integer i s in (Some ok, s, w))
    (one_of (mnemonic i) integer_cases).
Proof.
  assert (Hc : ∀ s, fst (execute_integer i s) = one_of (mnemonic i) integer_cases).
  { intros s. unfold execute_integer. rewrite !fst_if. cbn [fst]. chain. }
  intros s w. destruct (execute_integer i s) as [ok s'] eqn:E. specialize (Hc s). rewrite E in Hc. cbn in Hc.
  subst ok. split; [done|]. intros Hn. split; [|done].
  pose proof (integer_unknown s) as Hu. rewrite E in Hu. by apply Hu.
Qed.

Lemma system_decides : decides (execute_system i) (one_of (mnemonic i) system_cases).
Proof. unfold execute_system. eapply decides_ext; [eauto 40 with support|]. chain. Qed.

Lemma floating_point_decides :
  decides (execute_floating_point i) (one_of (mnemonic i) floating_point_cases).
Proof. unfold execute_floating_point. eapply decides_ext; [eauto 60 with support|]. chain. Qed.

Lemma vector_result_decides args : decides (vector_result i args) (one_of (mnemonic i) vector_semantics).
Proof. unfold vector_result. destruct (one_of _ _); auto with support. Qed.
Lemma vector_general_decides : decides (execute_vector_general i) (one_of (mnemonic i) vector_semantics).
Proof. unfold execute_vector_general. destruct (one_of _ _); auto with support. Qed.
Hint Resolve vector_result_decides vector_general_decides : support.

Lemma decides_same {A} (t : bool) (a b : Interp A bool) x : decides a x -> decides b x -> decides (if t then a else b) x.
Proof. by destruct t. Qed.

(** Every case of the arithmetic ends in the table of semantics. *)
Lemma vector_decides : decides (execute_vector i) (has_vector_case (mnemonic i)).
Proof.
  unfold execute_vector. eapply decides_ext.
  - do 11 (apply decides_if; [apply decides_executed|]).
    repeat (apply decides_same; [apply vector_result_decides|]). apply vector_general_decides.
  - unfold has_vector_case. cbn [existsb vector_partial_prefixes].
    change vector_element_cases with
      (["lvx"; "lvxl"; "lvx128"; "lvxl128"] ++ ["stvx"; "stvxl"; "stvx128"; "stvxl128"] ++
       ["lvebx"; "lvehx"; "lvewx"; "lvewx128"] ++ ["stvebx"; "stvehx"; "stvewx"; "stvewx128"]).
    change vector_register_cases with (["lvsl"; "lvsl128"; "lvsr"; "lvsr128"] ++ ["mfvscr"] ++ ["mtvscr"]).
    rewrite <- !one_of_app. repeat case_match; reflexivity.
Qed.

(** Whether the interpreter has a case depends on the mnemonic alone. *)
Lemma simple_decides : decides (execute_simple i) (has_case (mnemonic i)).
Proof.
  unfold execute_simple, has_case.
  eauto using scalar_memory_decides, integer_decides, system_decides, floating_point_decides, vector_decides
    with support.
Qed.
End Classes.

(** ** The dry run *)

Lemma supports_case {W} `{MemoryPort W, HostHelpers W} (i : DecodedInstruction) (scratch : W) :
  dynamic_fallback_supports i scratch =
  valid i && (one_of (mnemonic i) inline_mnemonics || has_case (mnemonic i)).
Proof.
  unfold dynamic_fallback_supports. f_equal. f_equal.
  pose proof (@simple_decides W _ (null_services W) _ i (probe_state i) scratch) as Hd.
  destruct (execute_simple _ _ _) as [[[x|] s] w]; [by destruct Hd|done].
Qed.

(** ** The interpreter's own answer *)

Section Executor.
Context {W : Type} `{MemoryPort W, RuntimeServices W, HostHelpers W, ExecutableMemory W}.

(** [c] never ends a run for want of a case. *)
Definition never_unsupported (c : Run W Progress) : Prop :=
  ∀ s w r s' w', c s w = Some (Some (Finished r), s', w') -> rr_reason r <> UnsupportedInstruction.

Lemma never_bind {A} (c : Run W A) k : (∀ x, never_unsupported (k x)) -> never_unsupported (run_bind c k).
Proof. intros Hk s w r s' w'. unfold run_bind. destruct (c s w) as [[[[x|] ?] ?]|]; [apply Hk|done|done]. Qed.
Lemma never_continue l pc : never_unsupported (run_ret (Continue_at l pc)).
Proof. done. Qed.
Lemma never_stop l reason exit r :
  reason <> UnsupportedInstruction -> never_unsupported (run_ret (Finished (stop l reason exit r))).
Proof. intros Hr s w ? ? ? [= <- _ _]. done. Qed.
End Executor.

Ltac never :=
  repeat first
    [ apply never_continue
    | apply never_stop; first [done | by case_match]
    | apply never_bind; intros ?
    | match goal with |- never_unsupported (match ?x with _ => _ end) => destruct x end ].

Section Instructions.
Context {W : Type} `{MemoryPort W, RuntimeServices W, HostHelpers W, ExecutableMemory W}.
Context (tail_fuel : nat) (nested : GuestAddress -> Run W RunResult).
Context (kind : CompiledLookupKind) (entry_return : GuestAddress).
Context (l : Local) (i : DecodedInstruction) (pc : GuestAddress).

Lemma inline_split :
  one_of (mnemonic i) inline_mnemonics =
  String.eqb (mnemonic i) "bx" || (String.eqb (mnemonic i) "bcx" || (one_of (mnemonic i) ["bclrx"; "bcctrx"] ||
  (String.eqb (mnemonic i) "sc" || one_of (mnemonic i) ["td"; "tdi"; "tw"; "twi"]))).
Proof. unfold inline_mnemonics. cbn [one_of existsb]. by rewrite !orb_false_r, <- !orb_assoc. Qed.

Lemma instruction_never :
  one_of (mnemonic i) inline_mnemonics || has_case (mnemonic i) = true ->
  never_unsupported (execute_instruction tail_fuel nested kind entry_return l i pc).
Proof.
  rewrite inline_split. unfold execute_instruction. intros Hs.
  destruct (String.eqb _ "bx"). { unfold execute_bx. never. }
  destruct (String.eqb _ "bcx"). { unfold execute_bcx. never. }
  destruct (one_of _ ["bclrx"; "bcctrx"]).
  { unfold execute_indirect. never. }
  destruct (String.eqb _ "sc"). { never. }
  destruct (one_of _ ["td"; "tdi"; "tw"; "twi"]). { unfold execute_trap. never. }
  cbn [orb] in Hs. intros s w r s' w'. pose proof (simple_decides (W := W) i s w) as Hd.
  unfold run_bind, run_interp. destruct (execute_simple i s w) as [[[x|] s1] w1]; [|done].
  destruct Hd as [-> _]. by rewrite Hs.
Qed.

(** Without a case, the instruction traps and changes nothing. *)
Lemma instruction_unsupported s w :
  one_of (mnemonic i) inline_mnemonics || has_case (mnemonic i) = false ->
  execute_instruction tail_fuel nested kind entry_return l i pc s w =
    Some (Some (Finished (unsupported l pc)), s, w).
Proof.
  rewrite inline_split, !orb_false_iff. intros ((E1 & E2 & E3 & E4 & E5) & Hc). unfold execute_instruction.
  rewrite E1, E2, E3, E4, E5. pose proof (simple_decides (W := W) i s w) as Hd.
  unfold run_bind, run_interp. destruct (execute_simple i s w) as [[[x|] s1] w1]; [|congruence].
  destruct Hd as [-> Hs]. rewrite Hc. by destruct (Hs Hc) as [-> ->].
Qed.
End Instructions.

(** ** A whole run *)

Section Runs.
Context {W : Type} `{MemoryPort W, RuntimeServices W, HostHelpers W, ExecutableMemory W}.
Context {V : Type} `{MemoryPort V, HostHelpers V} (scratch : V).

(** A run that ended for want of a case ended at a fetched word the dry run rejects. *)
Definition predicted (r : RunResult) : Prop :=
  rr_reason r = UnsupportedInstruction ->
  ∃ word w w', em_fetch32_be (rr_exit r) w = (Some word, w') /\
    dynamic_fallback_supports (decode (rr_exit r) word) scratch = false.

Section Loop.
Context (tail_fuel : nat) (nested : GuestAddress -> Run W RunResult).
Context (kind : CompiledLookupKind) (entry_return : GuestAddress).

Lemma page_trap_predicted l pc reason l' w :
  validate_page (W := W) pc l' w = inl reason -> predicted (page_trap l pc reason).
Proof. unfold validate_page. repeat case_match; by intros [= <-]. Qed.

Lemma run_one_predicted l pc s w r s' w' :
  run_one tail_fuel nested kind entry_return l pc s w = Some (Some (Finished r), s', w') -> predicted r.
Proof.
  unfold run_one. destruct (validate_page pc l w) as [?|l1] eqn:E1.
  { intros [= <- _ _]. by eapply page_trap_predicted. }
  destruct (em_fetch32_be pc w) as [[word|] w1] eqn:Ef; [|done].
  destruct (validate_page pc l1 w1) as [?|l2] eqn:E2.
  { intros [= <- _ _]. by eapply page_trap_predicted. }
  destruct (valid (decode pc word)) eqn:Ev; cbn [negb].
  - intros Hr Hu.
    destruct (one_of (mnemonic (decode pc word)) inline_mnemonics || has_case (mnemonic (decode pc word)))
      eqn:Ec; [by eapply instruction_never in Hr|].
    rewrite instruction_unsupported in Hr by done. injection Hr as <- _ _.
    exists word, w, w1. split; [done|]. cbn [rr_exit unsupported stop]. by rewrite supports_case, Ec, andb_false_r.
  - intros [= <- _ _] _. exists word, w, w1. split; [done|]. cbn [rr_exit unsupported stop].
    by rewrite supports_case, Ev.
Qed.

Lemma run_loop_predicted budget : ∀ l pc s w r s' w',
  run_loop tail_fuel nested kind entry_return budget l pc s w = Some (Some r, s', w') -> predicted r.
Proof.
  induction budget as [|budget IH]; cbn [run_loop]; intros l pc s w r s' w'.
  - by intros [= <- _ _].
  - unfold run_bind. destruct (run_one _ _ _ _ _ _ _ _) as [[[[[l1 next|r1]|] s1] w1]|] eqn:E; try done.
    + apply IH.
    + intros [= <- _ _]. by eapply run_one_predicted.
Qed.
End Loop.

Lemma try_execute_predicted config tail_fuel target kind s w r s' w' :
  try_execute config tail_fuel target kind s w = Some (Some r, s', w') -> predicted r.
Proof.
  unfold try_execute. cbn [run].
  destruct (negb (target .& 3 =? 0)); [by intros [= <- _ _]|].
  destruct (negb (executable _)); [by intros [= <- _ _]|].
  destruct (rt_is_recognized_import_thunk target w); [|apply run_loop_predicted].
  unfold run_bind, run_service. destruct kind.
  all: match goal with |- (let (_, _) := ?x in _) = _ -> _ => destruct x as [[[?|] ?] ?] end.
  all: first [by intros [= <- _ _] | done].
Qed.
End Runs.

(** Flat memory with executable pages, as the tests' fixtures have them; fetches are
    reads, the default of [MemoryPort]. *)
#[export] Instance flat_executable : ExecutableMemory FlatMemory := {
  em_page_stamp := λ _ _, mkStamp 0 1;
  em_fetch32_be := λ address w, let '(word, w) := read32_be address w in (u32 <$> word, w)
}.

(** ** The interpreter knows the catalogue *)

Definition row_interpreted (info : OpcodeInfo) : bool :=
  one_of (oi_mnemonic info) inline_mnemonics || has_case (oi_mnemonic info).

Lemma rows_interpreted : forallb row_interpreted kCatalog = true.
Proof. vm_compute. reflexivity. Qed.

Lemma supports_decoded {V} `{MemoryPort V, HostHelpers V} (scratch : V) address word :
  is_u32 word ->
  dynamic_fallback_supports (decode address word) scratch = valid (decode address word).
Proof.
  intros Hw. rewrite supports_case. destruct (valid _) eqn:Hv; [|done]. cbn [andb].
  unfold valid in Hv. destruct (di_info (decode address word)) as [info|] eqn:Hi; [|done].
  pose proof rows_interpreted as Hr. rewrite forallb_forall in Hr.
  unfold mnemonic. rewrite Hi. apply Hr, list_elem_of_In. by eapply decode_catalogued.
Qed.

Section Claims.
Context {W : Type} `{MemoryPort W, RuntimeServices W, HostHelpers W, ExecutableMemory W}.

(** C9: the analyzer's dry run answers for every execution: it accepts a valid
    instruction exactly when the executor, in any state over any memory and runtime,
    does not stop for want of a case; and an instruction it rejects traps at once
    with the state and the world as they were. *)
Theorem dry_run_decides {V} `{MemoryPort V, HostHelpers V} (scratch : V) tail_fuel nested kind entry_return
    (l : Local) (i : DecodedInstruction) (pc : GuestAddress) (s : CpuState) (w : W) :
  valid i = true ->
  let outcome := execute_instruction tail_fuel nested kind entry_return l i pc s w in
  (dynamic_fallback_supports i scratch = true <->
    ∀ r s' w', outcome = Some (Some (Finished r), s', w') -> rr_reason r <> UnsupportedInstruction) /\
  (dynamic_fallback_supports i scratch = false -> outcome = Some (Some (Finished (unsupported l pc)), s, w)).
Proof.
  intros Hv. cbn zeta. rewrite supports_case, Hv. cbn [andb]. split; [split|].
  - intros Hc. by apply instruction_never.
  - intros Hn. apply not_false_iff_true. intros Hc. eapply Hn; [by apply instruction_unsupported|done].
  - apply instruction_unsupported.
Qed.

(** C10: the fallback interpreter has a case for every word the decoder knows: a run
    that stops for an unsupported instruction stopped at a fetched word that is no
    instruction at all. *)
Theorem unsupported_stop_undecodable config tail_fuel target kind s w r s' w' :
  (∀ address w word w', em_fetch32_be address w = (Some word, w') -> is_u32 word) ->
  try_execute config tail_fuel target kind s w = Some (Some r, s', w') ->
  rr_reason r = UnsupportedInstruction ->
  ∃ word w0 w1, em_fetch32_be (rr_exit r) w0 = (Some word, w1) /\ valid (decode (rr_exit r) word) = false.
Proof.
  intros Hf Hr Hu. apply (try_execute_predicted (flat_init 0 0)) in Hr.
  destruct (Hr Hu) as (word & w0 & w1 & Hw & Hs). exists word, w0, w1. split; [done|].
  by rewrite supports_decoded in Hs by eauto.
Qed.
End Claims.

(** [addi r3,r3,1] at 0, then a word that is no instruction. *)
Definition small_program : FlatMemory := snd (write32_be 0 0x38630001 (flat_init 64 0)).

Lemma fetch_word address (w : FlatMemory) word w' :
  em_fetch32_be address w = (Some word, w') -> is_u32 word.
Proof.
  unfold em_fetch32_be, flat_executable. destruct (read32_be address w) as [[x|] w1]; cbn; [|done].
  intros [= <- _]. apply u32_range.
Qed.

Lemma unsupported_stop_undecodable_witness : ∃ word w0 w1,
  em_fetch32_be 4 w0 = (Some word, w1) /\ valid (decode 4 word) = false.
Proof.
  refine (unsupported_stop_undecodable (W := FlatMemory) (mkConfig 10 1) 0 0 LookupCall CpuState_init small_program
            (mkRunResult (Some (mkResult RTrap 4 kFallbackUnsupportedDetail)) UnsupportedInstruction 4 2 _)
            _ _ fetch_word _ eq_refl).
  vm_compute. reflexivity.
Defined.

(** The two halves of the claim at [addi r3,r3,1] and at no mnemonic the executor has. *)
Lemma dry_run_decides_witness : 
  valid (decode 0 0x38630001) = true /\
  ∀ r s' w', execute_instruction (W := FlatMemory) 0 (λ _, run_ret (not_handled InvalidTarget 0)) LookupCall 0
    at_entry (decode 0 0x38630001) 0 CpuState_init small_program = Some (Some (Finished r), s', w') ->
    rr_reason r <> UnsupportedInstruction.
Proof.
  split; [reflexivity|].
  refine (proj1 (proj1 (dry_run_decides (W := FlatMemory) (flat_init 0 0) 0 (λ _, run_ret (not_handled InvalidTarget 0))
    LookupCall 0 at_entry (decode 0 0x38630001) 0 CpuState_init small_program eq_refl)) _).
  reflexivity.
Defined.
