(* ===== verification/LeafShape.v ===== *)
(** * The shape of a leaf block, and that the optimiser keeps it

    A leaf block is straight-line code that ends in at most one branch, to a constant
    target or to the link register. Each pass keeps that shape: no pass adds or moves
    a branch, and the target of a branch stays a constant of the block, so that the
    emitter finds it. *)

From S2P Require Import Prelude.
From S2P Require Import Words.
From S2P Require Import Instr.
From S2P Require Import Ir.
From S2P Require Import IrValue.
From S2P Require Import IrSem.
From S2P Require Import PassSim.
From S2P Require Import Aliases.
From S2P Require Import AliasPass.
From S2P Require Import ConstEval.
From S2P Require Import Fold.
From S2P Require Import Dce.
From S2P Require Import Cse.
From S2P Require Import Simplify.
From S2P Require Import SimplifySim.
From S2P Require Import Promote.
From S2P Require Import PromoteRun.
From S2P Require Import PromoteCorrect.
From S2P Require Import CrForward.
From S2P Require Import CrForwardCorrect.
From S2P Require Import Optimizer.

(** ** Leaf code *)

(** Straight-line: nothing that may leave the block or call. *)
Definition straight (i : Instruction) : Prop := pc_boundary (i_op i) = false.

(** The values that a 64-bit [Constant] defines. *)
Definition const_result (i : Instruction) : list Z :=
  if bool_decide (i_op i = Op.Constant /\ i_type i = I64 /\ i_result i <> kNoValue) then [i_result i] else [].
Definition consts (l : list Instruction) : list Z := l ≫= const_result.

(** A branch a leaf block may end in; its constant target is among [K]. *)
Definition leaf_branch (K : list Z) (i : Instruction) : Prop :=
  i_result i = kNoValue /\
  match i_op i, i_args i with
  | Op.Branch, [a] => a ∈ K
  | Op.BranchIf, [_; a] => i_imm0 i = 0 /\ a ∈ K
  | Op.BranchIndirect, [_; _] => i_imm0 i = 0 /\ i_imm1 i = 1
  | _, _ => False
  end.

Fixpoint leaf (K : list Z) (l : list Instruction) : Prop :=
  match l with
  | [] => True
  | i :: l => (straight i /\ leaf (const_result i ++ K) l) \/ (leaf_branch K i /\ l = [])
  end.

Lemma leaf_branch_mono K K' i : K ⊆ K' -> leaf_branch K i -> leaf_branch K' i.
Proof.
  intros HK [Hr Hb]. split; [done|]. destruct (i_op i); try done; destruct (i_args i) as [|a [|b [|]]]; try done.
  - by apply HK.
  - destruct Hb. split; [done|]. by apply HK.
Qed.

Lemma leaf_mono K K' l : K ⊆ K' -> leaf K l -> leaf K' l.
Proof.
  revert K K'. induction l as [|i l IH]; intros K K' HK; [done|].
  intros [[Hs Hl]|[Hb ->]]; [left|right].
  - split; [done|]. eapply IH; [|exact Hl]. intros x. rewrite !elem_of_app. intros [|]; [by left|right; by apply HK].
  - split; [|done]. by eapply leaf_branch_mono.
Qed.

Lemma consts_app l1 l2 : consts (l1 ++ l2) = consts l1 ++ consts l2.
Proof. apply bind_app. Qed.
Lemma elem_of_consts r l : r ∈ consts l <-> exists i, i ∈ l /\ r ∈ const_result i.
Proof. unfold consts. rewrite list_elem_of_bind. naive_solver. Qed.
Lemma elem_of_const_result r i :
  r ∈ const_result i <-> i_op i = Op.Constant /\ i_type i = I64 /\ i_result i <> kNoValue /\ r = i_result i.
Proof.
  unfold const_result. case_bool_decide as Hb; [rewrite list_elem_of_singleton|rewrite elem_of_nil]; naive_solver.
Qed.

(** After straight-line code. *)
Lemma leaf_app K l1 l2 : Forall straight l1 -> leaf (consts l1 ++ K) l2 -> leaf K (l1 ++ l2).
Proof.
  intros Hs. revert K. induction Hs as [|i l1 Hi _ IH]; intros K Hl; [done|]. left. split; [done|].
  apply IH. eapply leaf_mono; [|exact Hl]. intros x. cbn. rewrite !elem_of_app. tauto.
Qed.

Lemma leaf_straight K l : Forall straight l -> leaf K l.
Proof. intros Hs. rewrite <- (app_nil_r l). by apply leaf_app. Qed.

(** Leaf code is straight-line code and perhaps a branch. *)
Lemma leaf_split K l :
  leaf K l -> Forall straight l \/ exists l1 i, l = l1 ++ [i] /\ Forall straight l1 /\ leaf_branch (consts l1 ++ K) i.
Proof.
  revert K. induction l as [|i l IH]; intros K; [by left|]. intros [[Hs Hl]|[Hb ->]].
  - destruct (IH _ Hl) as [Hl'|(l1 & j & -> & Hl1 & Hj)]; [left; by constructor|right].
    exists (i :: l1), j. split_and!; [done|by constructor|]. eapply leaf_branch_mono; [|exact Hj].
    intros x. cbn. rewrite !elem_of_app. tauto.
  - right. by exists [], i.
Qed.

(** ** Renaming *)

Lemma leaf_rename F K l :
  (forall r, r ∈ consts l ++ K -> F r = r) -> leaf K l -> leaf K (rename F l).
Proof.
  revert K. induction l as [|i l IH]; intros K HF; [done|].
  change (rename F (i :: l)) with (set_args (F <$> i_args i) i :: rename F l). intros [[Hs Hl]|[[Hr Hb] ->]].
  - left. split; [done|]. apply IH; [|exact Hl]. intros r. rewrite elem_of_app, elem_of_app. intros Hin. apply HF. cbn.
    rewrite !elem_of_app. tauto.
  - right. split; [|done]. split; [done|]. cbn [i_op set_args i_args i_imm0 i_imm1].
    assert (HK : forall r, r ∈ K -> F r = r) by (intros r Hin; apply HF, elem_of_app; by right).
    destruct (i_op i); try done; destruct (i_args i) as [|a [|b [|]]]; try done; cbn.
    + by rewrite HK.
    + destruct Hb. by rewrite HK.
Qed.

(** ** Passes that rename through aliases *)

Section Pass.
Context {St : Type} (step : St -> Instruction -> St * list Instruction).
Context (aliases : St -> Aliases).
Context (ok : Instruction -> Prop) (P : Z -> St -> Prop).
(** What the pass knows of the constants it kept, and that it holds nothing back. *)
Context (Q : list Z -> St -> Prop) (clean : St -> Prop).

Record leaf_step (n : Z) (st : St) (i : Instruction) (K : list Z) : Prop := mkLeafStep {
  ls_static : P (next_id n i) (step st i).1;
  ls_stable : forall v, 0 <= v < n -> find (aliases (step st i).1) v = find (aliases st) v;
  ls_straight : straight i -> Forall straight (step st i).2 /\ Q (consts (step st i).2 ++ K) (step st i).1 /\
    (forall r, r ∈ const_result i -> find (aliases (step st i).1) r ∈ consts (step st i).2 ++ K) /\
    (forall r, r ∈ consts (step st i).2 -> r = i_result i /\ find (aliases (step st i).1) r = r);
  ls_branch : requires_materialization (i_op i) = true -> i_result i = kNoValue -> i_op i <> Op.Constant ->
    (i_op i = Op.BranchIf \/ i_op i = Op.BranchIndirect -> i_imm0 i = 0) ->
    exists pre, (step st i).2 = pre ++ [set_args (find (aliases st) <$> i_args i) i] /\
      Forall straight pre /\ consts pre = [] /\ clean (step st i).1
}.

Hypothesis Hstep : forall n st i K,
  P n st -> Q K st -> (forall r, r ∈ K -> 0 <= r < n /\ find (aliases st) r = r) -> inst_ok n i = true -> ok i ->
  leaf_step n st i K.

(** The constants of the source resolve to constants kept, which are roots. *)
Record leaf_inv (n : Z) (st : St) (K K' : list Z) : Prop := mkLeafInv {
  li_static : P n st;
  li_know : Q K' st;
  li_source : forall r, r ∈ K -> 0 <= r < n /\ find (aliases st) r ∈ K';
  li_kept : forall r, r ∈ K' -> 0 <= r < n /\ find (aliases st) r = r
}.

Lemma leaf_branch_resolved st K K' i :
  (forall r, r ∈ K -> find (aliases st) r ∈ K') -> leaf_branch K i ->
  leaf_branch K' (set_args (find (aliases st) <$> i_args i) i).
Proof using Type.
  intros HK [Hr Hb]. split; [done|]. cbn [i_op set_args i_args i_imm0 i_imm1].
  destruct (i_op i); try done; destruct (i_args i) as [|a [|b [|]]]; try done; cbn.
  - by apply HK.
  - destruct Hb. split; [done|]. by apply HK.
Qed.

Lemma leaf_branch_kind K i :
  leaf_branch K i -> requires_materialization (i_op i) = true /\ i_result i = kNoValue /\ i_op i <> Op.Constant /\
    (i_op i = Op.BranchIf \/ i_op i = Op.BranchIndirect -> i_imm0 i = 0).
Proof using Type.
  intros [Hr Hb]. destruct (i_op i); try done; destruct (i_args i) as [|a [|b [|]]]; try done;
    split_and!; try done; intros [|]; try done; by destruct Hb.
Qed.

(** A pass keeps leaf code; its output's constants stay roots; and after a branch it is clean. *)
Lemma leaf_pass l : forall n st K K',
  0 <= n -> leaf_inv n st K K' -> ssa n l = true -> Forall ok l -> leaf K l ->
  leaf K' (run_pass step st l).2 /\
  (forall r, r ∈ consts (run_pass step st l).2 ++ K' -> find (aliases (run_pass step st l).1) r = r) /\
  (Forall straight (run_pass step st l).2 \/ clean (run_pass step st l).1).
Proof using Hstep.
  induction l as [|i l IH]; intros n st K K' Hn [HP HQ HK HK'] Hs Hok Hl.
  { cbn. split_and!; [done|intros r Hr; by apply HK'|by left]. }
  apply ssa_cons in Hs as [Hi Hs]. apply Forall_cons in Hok as [Hoki Hok].
  pose proof (next_id_ge n i Hi) as Hge.
  destruct (Hstep n st i K' HP HQ HK' Hi Hoki) as [Hst Hstable Hstr Hbr].
  rewrite run_pass_cons. cbn [fst snd]. destruct Hl as [[Hsi Hl]|[Hbi ->]].
  - destruct (Hstr Hsi) as (Hout & HQ' & Hc & Hr).
    assert (Hinv : leaf_inv (next_id n i) (step st i).1 (const_result i ++ K) (consts (step st i).2 ++ K')).
    { constructor; [done|done| |].
      - intros r. rewrite elem_of_app. intros [Hin|Hin].
        + split; [|by apply Hc]. apply elem_of_const_result in Hin as (_ & _ & Hne & ->).
          pose proof (inst_ok_result n i Hi Hne). rewrite next_id_result by done. lia.
        + destruct (HK r Hin) as [Hlt Hf]. split; [lia|]. rewrite Hstable by done. apply elem_of_app. by right.
      - intros r. rewrite elem_of_app. intros [Hin|Hin].
        + destruct (Hr r Hin) as [-> Hf]. split; [|done].
          apply elem_of_consts in Hin as (j & _ & Hj). apply elem_of_const_result in Hj as (_ & _ & Hne & Hj).
          rewrite Hj in *. destruct (decide (i_result i = kNoValue)) as [He|Hne']; [congruence|].
          pose proof (inst_ok_result n i Hi Hne'). rewrite next_id_result by done. lia.
        + destruct (HK' r Hin) as [Hlt Hf]. split; [lia|]. by rewrite Hstable. }
    destruct (IH _ _ _ _ (Z.le_trans _ _ _ Hn Hge) Hinv Hs Hok Hl) as (IHl & IHr & IHc). split_and!.
    + by apply leaf_app.
    + intros r Hin. apply IHr. rewrite consts_app in Hin. rewrite !elem_of_app in *. tauto.
    + destruct IHc as [Hrest|Hclean]; [left; by apply Forall_app|by right].
  - destruct (leaf_branch_kind K i Hbi) as (Hm & Hv & Hc & H0).
    destruct (Hbr Hm Hv Hc H0) as (pre & Ho & Hpre & Hcs & Hclean). cbn [run_pass fst snd]. rewrite app_nil_r, Ho.
    split_and!; [| |by right].
    + apply leaf_app; [done|]. right. split; [|done]. rewrite Hcs. apply (leaf_branch_resolved st K); [|done].
      intros r Hr. by apply HK.
    + intros r. rewrite consts_app, Hcs. cbn. unfold const_result. rewrite bool_decide_eq_false_2 by (by intros [? _]).
      cbn. intros Hr. destruct (HK' r Hr) as [Hlt Hf]. by rewrite Hstable.
Qed.
End Pass.

(** ** The passes *)

Lemma straight_constant i : i_op i = Op.Constant -> straight i.
Proof. unfold straight. by intros ->. Qed.

Lemma const_of_result i j : i_result j = i_result i -> forall r, r ∈ consts [j] -> r = i_result i.
Proof. intros Hj r. cbn. rewrite app_nil_r. intros (_ & _ & _ & ->)%elem_of_const_result. done. Qed.

Lemma consts_one j r : r ∈ const_result j -> r ∈ consts [j].
Proof. cbn. by rewrite app_nil_r. Qed.

Lemma fold_leaf_step n c i K :
  0 <= n -> inst_ok n i = true ->
  leaf_step fold_step (λ _, []) (λ n _, 0 <= n) (λ _ _, True) (λ _, True) n c i K.
Proof.
  intros Hn Hi. destruct (fold_step_shape c i) as (i' & Ho & Hr & Hi'). constructor.
  - pose proof (next_id_ge n i Hi). lia.
  - intros v Hv. done.
  - intros Hs. rewrite Ho. split_and!; [|done| |].
    + constructor; [|done]. destruct Hi' as [->|[z ->]]; [done|by apply straight_constant].
    + intros r Hin. pose proof Hin as (Hop & _ & Hne & ->)%elem_of_const_result.
      assert (i' = i) as ->.
      { unfold fold_step in Ho. destruct (Z.eqb_spec (i_result i) kNoValue); [done|].
        rewrite bool_decide_eq_true_2 in Ho by done. by injection Ho. }
      pose proof (inst_ok_result n i Hi Hne). rewrite find_nil by lia. apply elem_of_app. left. by apply consts_one.
    + intros r Hin. pose proof (const_of_result i i' Hr r Hin) as ->. split; [done|]. apply find_nil.
      cbn in Hin. rewrite app_nil_r in Hin. apply elem_of_const_result in Hin as (_ & _ & Hne & _). rewrite Hr in Hne.
      pose proof (inst_ok_result n i Hi Hne). lia.
  - intros _ Hv _ _. exists []. split_and!; [|done|done|done]. cbn [app].
    rewrite (find_nil_args kNoValue) by (by eapply inst_ok_args). rewrite set_args_self.
    unfold fold_step. rewrite Hv. done.
Qed.

Lemma leaf_fold l : body_ok l = true -> leaf [] l -> leaf [] (run_pass fold_step ∅ l).2.
Proof.
  intros [Hssa _]%body_ok_spec Hl.
  refine (proj1 (leaf_pass fold_step (λ _, []) (λ _, True) (λ n _, 0 <= n) (λ _ _, True) (λ _, True) _
    l 0 ∅ [] [] (Z.le_refl 0) _ Hssa _ Hl)); [| |by apply Forall_true].
  - intros n c i K Hn _ _ Hi _. by apply fold_leaf_step.
  - split; [apply Z.le_refl|done|..]; by intros r ?%elem_of_nil.
Qed.

Lemma rewrite_keeps st i j : rewrite_of st i = Keep j -> j = i \/ j = make_compare_constant i.
Proof.
  unfold rewrite_of, simplify_binary. repeat case_match; intros; simplify_eq; auto.
Qed.

Section SimplifyLeaf.
Context (size : Z).

Lemma simplify_leaf_step n st i K :
  simplify_static size n st -> inst_ok n i = true -> index_ok size i ->
  leaf_step simplify_step sv_aliases (simplify_static size) (λ _ _, True) (λ _, True) n st i K.
Proof using Type.
  intros Hst Hi Hok. destruct (simplify_step_static size n st i Hst Hi Hok) as (HP & Hstable & Hout).
  destruct (simplify_step_spec size n st i Hst Hi) as (st1 & Hsame & E).
  assert (Hkeep : is_pure (i_op i) = false \/ i_op i = Op.Constant ->
    (simplify_step st i).2 = [set_args (find (sv_aliases st) <$> i_args i) i]).
  { intros Hp. rewrite E. unfold rewrite_of. cbn [i_args set_args i_result i_op].
    assert (Hb : forall a b ca cb, simplify_binary (set_args (find (sv_aliases st) <$> i_args i) i) a b ca cb =
      Keep (set_args (find (sv_aliases st) <$> i_args i) i)).
    { intros. unfold simplify_binary. cbn [i_op set_args]. by destruct (i_op i); destruct Hp. }
    destruct (find _ <$> i_args i) as [|a [|b [|c [|]]]]; [done| |destruct (_ =? _); [done|by rewrite Hb]| |done].
    - destruct (_ =? _); [done|]. rewrite !(bool_decide_eq_false_2 (i_op i = _)) by (intros Ho; rewrite Ho in Hp; by destruct Hp).
      cbn [andb]. assert (is_conversion (i_op i) = false) as -> by (destruct (i_op i); try done; by destruct Hp). done.
    - rewrite (bool_decide_eq_false_2 (i_op i = _)) by (intros Ho; rewrite Ho in Hp; by destruct Hp). done. }
  constructor; [exact HP|exact Hstable| |].
  - intros Hs. split_and!; [|done| |].
    + rewrite E. destruct (rewrite_of st1 _) as [j|v] eqn:Er; [|by destruct (resolve _ _)].
      constructor; [|done]. destruct (rewrite_keeps _ _ _ Er) as [->| ->]; [done|by apply straight_constant].
    + intros r Hin. pose proof Hin as (Hop & _ & Hne & ->)%elem_of_const_result.
      pose proof (Hkeep (or_intror Hop)) as Ho. destruct Hout as [Hn|(i' & Ho' & _ & _ & Hroot)]; [by rewrite Ho in Hn|].
      rewrite (Hroot Hne). apply elem_of_app. left. rewrite Ho. by apply consts_one.
    + intros r Hin. destruct Hout as [Hn|(i' & Ho & Hr & _ & Hroot)]; [rewrite Hn in Hin; by apply elem_of_nil in Hin|]. rewrite Ho in Hin.
      pose proof (const_of_result i i' Hr r Hin) as ->. split; [done|]. apply Hroot.
      cbn in Hin. rewrite app_nil_r in Hin. apply elem_of_const_result in Hin as (_ & _ & Hne & _). by rewrite Hr in Hne.
  - intros Hm _ _ _. exists []. split_and!; [|done|done|done]. apply Hkeep. left. by destruct (i_op i).
Qed.
End SimplifyLeaf.

Lemma leaf_simplify l : body_ok l = true -> leaf [] l -> leaf [] (simplify l).
Proof.
  intros Hbody Hl. pose proof (simplify_pass l Hbody) as Hpass. apply body_ok_spec in Hbody as [Hssa Hwf].
  destruct (leaf_pass simplify_step sv_aliases (index_ok (simplify_size l)) (simplify_static (simplify_size l))
    (λ _ _, True) (λ _, True) (λ n st i K HP _ _ Hi Hok, simplify_leaf_step _ n st i K HP Hi Hok)
    l 0 (simplify_init l) [] [] (Z.le_refl 0)) as (Hout & Hroots & _); try done; [|by apply simplify_index|].
  { split; [apply simplify_static_init|done|..]; by intros r ?%elem_of_nil. }
  destruct l as [|i0 l0]; [done|]. unfold simplify. set (l := i0 :: l0) in *.
  destruct (run_pass simplify_step (simplify_init l) l) as [st out]. cbn [fst snd] in *.
  destruct Hpass as (n & _ & _ & -> & _). by apply leaf_rename.
Qed.

(** The table of expressions maps a 64-bit constant to one that was kept. *)
Definition known_constants (K : list Z) (st : CseState) : Prop :=
  forall i v, cs_expressions st !! expression_key i = Some v -> i_op i = Op.Constant -> i_type i = I64 -> v ∈ K.

Lemma constant_key i j :
  expression_key i = expression_key j -> i_op i = Op.Constant -> i_type i = I64 ->
  i_op j = Op.Constant /\ i_type j = I64.
Proof.
  intros Hk Ho Ht. injection Hk as Hop Hty _ _ _. rewrite Ho in Hop. rewrite Ht in Hty. split.
  - destruct (i_op j); try done; discriminate Hop.
  - by apply type_code_inj.
Qed.

Section CseLeaf.
Context (size : Z).

Lemma cse_leaf_step n st i K :
  cse_static size n st -> known_constants K st ->
  (forall r, r ∈ K -> 0 <= r < n /\ find (cs_aliases st) r = r) -> inst_ok n i = true -> cse_index_ok size i ->
  leaf_step cse_step cs_aliases (cse_static size) known_constants (λ _, True) n st i K.
Proof using Type.
  intros Hst HQ HK Hi Hidx. destruct (cse_step_static size n st i Hst Hi Hidx) as (HP & Hstable & Hout).
  pose proof Hst as [Hn Hsz Hok Hex].
  assert (Hnew : forall j, (cse_step st i).2 = [j] -> i_result j = i_result i ->
    forall r, r ∈ consts [j] -> r = i_result i /\ find (cs_aliases (cse_step st i).1) r = r).
  { intros j Ho Hr r Hin. pose proof (const_of_result i j Hr r Hin) as ->. split; [done|].
    destruct Hout as [Hn'|(i' & Ho' & _ & _ & Hroot)]; [by rewrite Hn' in Ho|]. apply Hroot.
    cbn in Hin. rewrite app_nil_r in Hin. apply elem_of_const_result in Hin as (_ & _ & Hne & _). by rewrite Hr in Hne. }
  constructor; [exact HP|exact Hstable| |].
  - intros Hs. assert (Hmono : forall l, known_constants (l ++ K) st).
    { intros l j v Hk Ho Ht. apply elem_of_app. right. by eapply HQ. }
    set (i' := set_args (resolve_plain (cs_aliases st) <$> i_args i) i).
    assert (Hplain : (cse_step st i) = (st, [i']) -> i_result i = kNoValue \/ (effects (i_op i) =? Effect.None) = false ->
      Forall straight (cse_step st i).2 /\ known_constants (consts (cse_step st i).2 ++ K) (cse_step st i).1 /\
      (forall r, r ∈ const_result i -> find (cs_aliases (cse_step st i).1) r ∈ consts (cse_step st i).2 ++ K) /\
      (forall r, r ∈ consts (cse_step st i).2 -> r = i_result i /\ find (cs_aliases (cse_step st i).1) r = r)).
    { intros E Hc. rewrite E in *. cbn [fst snd] in *. split_and!; [by constructor|apply Hmono| |by apply Hnew].
      intros r (Hop & _ & Hne & _)%elem_of_const_result. rewrite Hop in Hc. by destruct Hc. }
    unfold cse_step in *. fold i' in Hplain, HP, Hstable, Hout, Hnew |- *.
    change (i_result i') with (i_result i) in *. change (i_op i') with (i_op i) in *.
    destruct (Z.eqb_spec (i_result i) kNoValue) as [Hv|Hne]; cbn [negb andb] in *; [by apply Hplain; [|left]|].
    destruct (effects (i_op i) =? Effect.None) eqn:He; [|by apply Hplain; [|right]]. clear Hplain.
    pose proof (inst_ok_result n i Hi Hne) as Hr. specialize (Hidx Hne).
    destruct (cs_expressions st !! expression_key i') as [v|] eqn:Ev; cbn [fst snd cs_aliases cs_expressions] in *.
    + split_and!; [constructor|apply Hmono| |by intros r ?%elem_of_nil]. cbn [app consts].
      intros r (Hop & Hty & _ & ->)%elem_of_const_result. pose proof (HQ i' v Ev Hop Hty) as Hin.
      destruct (HK v Hin) as [Hlt Hf]. rewrite (resolve_plain_spec n), Hf by (done || lia).
      rewrite cse_alias_eq by (done || lia).
      destruct (assign_alias_spec n (cs_aliases st) (i_result i) v) as (_ & _ & -> & _); try done; lia.
    + split_and!; [by constructor| | |by apply Hnew].
      * intros j v Hk Ho Ht. cbn [cs_expressions] in Hk. apply elem_of_app. apply lookup_insert_Some in Hk as [[Hk <-]|[_ Hk]]; [left|right; by eapply HQ].
        symmetry in Hk. destruct (constant_key _ _ Hk Ho Ht) as [Ho' Ht']. apply consts_one.
        by apply elem_of_const_result.
      * intros r (Hop & Hty & _ & ->)%elem_of_const_result. rewrite (find_above n) by (done || lia).
        apply elem_of_app. left. apply consts_one. by apply elem_of_const_result.
  - intros Hm Hv _ _. exists []. split_and!; [|done|done|done]. unfold cse_step. cbn [i_result set_args]. rewrite Hv.
    cbn. by rewrite (resolve_plain_args n).
Qed.
End CseLeaf.

Lemma leaf_cse l : body_ok l = true -> leaf [] l -> leaf [] (cse l).
Proof.
  intros [Hssa _]%body_ok_spec Hl. destruct l as [|i0 l0]; [done|]. unfold cse. set (l := i0 :: l0) in *.
  set (N := Z.of_nat (length (init_aliases (max_value_id l)))).
  set (st0 := mkCse (init_aliases (max_value_id l)) ∅).
  pose proof (init_aliases_covers l) as Hidx. pose proof (cse_static_init l) as Hst0.
  destruct (leaf_pass cse_step cs_aliases (cse_index_ok N) (cse_static N) known_constants (λ _, True)
    (cse_leaf_step N) l 0 st0 [] [] (Z.le_refl 0)) as (Hout & Hroots & _); try done.
  { split; [done| |..]; try by intros r ?%elem_of_nil. intros j v Hk. cbn [st0 cs_expressions] in Hk. by rewrite lookup_empty in Hk. }
  destruct (run_pass_inv cse_step (cse_index_ok N) (cse_static N)
    (λ n st i h1 h2 h3, proj1 (cse_step_static N n st i h1 h2 h3)) l 0 st0 Hst0 Hssa Hidx)
    as (n' & Hn' & Hst').
  pose proof (alias_pass_args _ _ _ _ (cse_step_static N) l 0 st0 Hst0 Hssa Hidx) as Hargs.
  destruct (run_pass cse_step st0 l) as [st out]. cbn [fst snd] in *.
  rewrite (rename_plain_spec n') by (done || apply Hst'). by apply leaf_rename.
Qed.

(** ** Dead-code elimination *)

(** What a kept instruction uses is kept. *)
Lemma dce_loop_keeps v k i l1 l2 u :
  v <> kNoValue -> 0 <= v < Z.of_nat (length u) -> i_result i = v ->
  Forall (λ i, Forall (λ a, 0 <= a) (i_args i)) (l1 ++ i :: l2) ->
  u !!! Z.to_nat v = (k + uses_of v (l1 ++ i :: l2))%nat ->
  uses_of v (dce_loop l2 u).1 <> 0%nat -> i ∈ (dce_loop (l1 ++ i :: l2) u).1.
Proof.
  intros Hne Hv Hr. revert k. induction l1 as [|j l1 IH]; intros k Hl Hu Huse.
  - apply Forall_cons in Hl as [Hi Hl]. cbn [app] in *. rewrite uses_of_cons in Hu. cbn [dce_loop].
    destruct (dce_loop_counts v (proj1 Hv) Hne l2 u (k + occ v (i_args i))%nat Hl (proj2 Hv)) as [Hlen Hc]; [lia|].
    destruct (dce_loop l2 u) as [kept u']. cbn [fst snd] in *.
    assert (removable u' i = false) as ->; [|by left].
    unfold removable. rewrite Hr, Hc. destruct (_ || _); [done|].
    destruct (Nat.eqb_spec (k + occ v (i_args i) + uses_of v kept)%nat 0); [lia|done].
  - apply Forall_cons in Hl as [Hj Hl]. cbn [app] in *. rewrite uses_of_cons in Hu.
    assert (Hin : i ∈ (dce_loop (l1 ++ i :: l2) u).1) by (apply (IH (k + occ v (i_args j))%nat); [done|lia|done]).
    cbn [dce_loop]. destruct (dce_loop (l1 ++ i :: l2) u) as [kept u']. cbn [fst] in *.
    destruct (removable u' j); [done|by right].
Qed.

Lemma dce_loop_app l1 l2 u :
  exists l1', (dce_loop (l1 ++ l2) u).1 = l1' ++ (dce_loop l2 u).1 /\ l1' `sublist_of` l1.
Proof.
  induction l1 as [|i l1 (l1' & Heq & Hs)]; [by exists []|]. cbn [app dce_loop].
  destruct (dce_loop (l1 ++ l2) u) as [kept u']. cbn [fst] in *. subst kept.
  destruct (removable u' i); [exists l1'|exists (i :: l1')]; split; try done; by constructor.
Qed.

Lemma leaf_branch_args K K' i :
  (forall a, a ∈ K -> a ∈ i_args i -> a ∈ K') -> leaf_branch K i -> leaf_branch K' i.
Proof.
  intros HK [Hr Hb]. split; [done|]. destruct (i_op i); try done;
    destruct (i_args i) as [|a [|b [|]]]; try done.
  - apply HK; [done|by left].
  - destruct Hb. split; [done|]. apply HK; [done|by right; left].
Qed.

Lemma uses_of_last v l i : v ∈ i_args i -> uses_of v (l ++ [i]) <> 0%nat.
Proof.
  intros Hin. induction l as [|j l IH]; cbn [app]; rewrite uses_of_cons; [|lia].
  intros Hz. apply (occ_zero v (i_args i)); [lia|done].
Qed.

Lemma leaf_dce l : body_ok l = true -> leaf [] l -> leaf [] (dce l).
Proof.
  intros [Hssa _]%body_ok_spec Hl. destruct (leaf_split _ _ Hl) as [Hs|(l1 & br & -> & Hs & Hb)].
  { apply leaf_straight. rewrite Forall_forall in *. intros i Hi. apply Hs.
    eapply elem_of_submseteq; [exact Hi|]. apply sublist_submseteq, dce_sublist. }
  destruct (ssa_nonneg 0 _ (Z.le_refl 0) Hssa) as [Hargs Hres].
  set (l := l1 ++ [br]) in *. assert (Hdce : dce l = (dce_loop l (count_uses (replicate (Z.to_nat (max_value_id l + 1)) 0%nat) l)).1)
    by (unfold l; by destruct l1). rewrite Hdce. clear Hdce.
  set (u := count_uses _ l). destruct (leaf_branch_kind _ _ Hb) as (_ & Hv & _).
  assert (Hlast : (dce_loop [br] u).1 = [br]).
  { cbn. unfold removable. by rewrite Hv. }
  destruct (dce_loop_app l1 [br] u) as (l1' & Heq & Hsub). fold l in Heq. rewrite Hlast in Heq. rewrite Heq.
  apply leaf_app.
  { rewrite Forall_forall in *. intros i Hi. apply Hs. eapply elem_of_submseteq; [exact Hi|]. by apply sublist_submseteq. }
  right. split; [|done]. eapply leaf_branch_args; [|exact Hb]. intros a Ha Hin.
  apply elem_of_app in Ha as [Ha|Ha%elem_of_nil]; [|done]. apply elem_of_app. left.
  apply elem_of_consts in Ha as (i & Hi & Hc). pose proof Hc as (Hop & Hty & Hne & ->)%elem_of_const_result.
  apply elem_of_consts. exists i. split; [|done].
  apply list_elem_of_split in Hi as (p & q & ->).
  assert (Hkept : i ∈ (dce_loop l u).1).
  { pose proof (proj1 (Forall_forall _ _) Hres) as Hres'.
    assert (Hin' : i ∈ l) by (unfold l; set_solver). pose proof (max_value_id_ge l i Hin' Hne) as Hmax.
    destruct (Hres' i Hin') as [|Hpos]; [done|].
    assert (Hlen : 0 <= i_result i < Z.of_nat (length u)).
    { unfold u. rewrite length_count_uses, length_replicate. lia. }
    assert (Hu : u !!! Z.to_nat (i_result i) = uses_of (i_result i) l).
    { unfold u. rewrite count_uses_lookup by (done || (rewrite length_replicate; lia)).
      rewrite lookup_total_replicate_2 by lia. lia. }
    clearbody u. unfold l in *. rewrite <- app_assoc in *. cbn [app] in *.
    apply (dce_loop_keeps (i_result i) 0 i); try done.
    destruct (dce_loop_app q [br] u) as (q' & -> & _). rewrite Hlast. by apply uses_of_last. }
  rewrite Heq in Hkept. apply elem_of_app in Hkept as [|Hbr%list_elem_of_singleton]; [done|].
  subst i. by rewrite Hv in Hne.
Qed.

(** ** State promotion *)

(** What the passes insert: writes of registers, which define nothing. *)
Definition plain_write (i : Instruction) : Prop := straight i /\ i_result i = kNoValue.

Lemma plain_write_consts l : Forall plain_write l -> consts l = [].
Proof.
  induction 1 as [|i l [_ Hr] _ IH]; [done|]. change (consts (i :: l)) with (const_result i ++ consts l).
  rewrite IH, app_nil_r. unfold const_result. by rewrite bool_decide_eq_false_2 by (intros (_ & _ & []); done).
Qed.
Lemma plain_write_straight l : Forall plain_write l -> Forall straight l.
Proof. intros Hl. eapply Forall_impl; [exact Hl|]. by intros i [Hi _]. Qed.

Definition no_dirty (ps : PromotedState) : Prop := forall sl, tv_dirty (get_slot ps sl) = false.

Lemma flush_slots_plain slots ps src : Forall plain_write (flush_slots slots ps src).2.
Proof.
  revert ps. induction slots as [|sl slots IH]; intros ps; [done|]. cbn.
  destruct (tv_dirty _); [|apply IH]. destruct (slot_write sl) as [op index] eqn:Ew.
  destruct (flush_slots slots _ src) as [ps' out] eqn:E. cbn [snd]. constructor.
  - split; [|done]. by destruct sl; injection Ew as <- <-.
  - change out with (ps', out).2. rewrite <- E. apply IH.
Qed.

Lemma flush_slots_dirty slots ps src sl :
  tv_dirty (get_slot (flush_slots slots ps src).1 sl) = true -> tv_dirty (get_slot ps sl) = true /\ sl ∉ slots.
Proof.
  revert ps. induction slots as [|s0 slots IH]; intros ps; [cbn; split; [done|by intros ?%elem_of_nil]|]. cbn.
  rewrite not_elem_of_cons. destruct (tv_dirty (get_slot ps s0)) eqn:Ed.
  - destruct (slot_write s0) as [op index]. specialize (IH (set_slot s0 (mkTracked (tv_valid (get_slot ps s0)) false (tv_value (get_slot ps s0))) ps)).
    destruct (flush_slots slots _ src) as [ps' out]. cbn [fst] in *. intros [Hd Hn]%IH.
    rewrite get_set_slot in Hd. case_decide; [done|]. by split_and!.
  - intros [Hd Hn]%IH. split_and!; [done| |done]. intros ->. by rewrite Ed in Hd.
Qed.

#[local] Opaque all_slots.

Lemma flush_clean n ps src : tracked_ok n ps -> no_dirty (flush ps src).1.
Proof.
  intros Hok sl. unfold flush. apply not_true_is_false. intros Hd.
  destruct (flush_slots_dirty all_slots ps src sl Hd) as [Hd' Hn]. apply Hn, all_slots_complete.
  exact (proj1 (Hok sl (or_intror Hd'))).
Qed.

Lemma flush_nothing ps src : no_dirty ps -> (flush ps src).2 = [].
Proof.
  intros Hc. unfold flush. generalize all_slots. intros slots. induction slots as [|sl slots IH]; [done|]. cbn.
  by rewrite Hc.
Qed.

Lemma no_dirty_none : no_dirty promoted_none.
Proof. intros sl. by rewrite get_slot_none. Qed.

Lemma no_dirty_xer ps : no_dirty ps -> no_dirty (invalidate_xer_flags ps).
Proof. intros Hc sl. unfold invalidate_xer_flags. cbn. rewrite !get_set_slot. repeat case_decide; try done; apply Hc. Qed.

Lemma promote_other_shape n al ps i :
  tracked_ok n ps ->
  exists pre, (promote_other al ps i).2 = pre ++ [i] /\ Forall plain_write pre /\ pm_aliases (promote_other al ps i).1 = al /\
    (requires_materialization (i_op i) = true -> no_dirty (pm_state (promote_other al ps i).1)) /\
    (i_op i = Op.Constant -> pre = []).
Proof.
  intros Hok. unfold promote_other, flush_xer_flags, flush.
  pose proof (flush_slots_plain xer_slots ps i) as Hp1. destruct (flush_slots_static n xer_slots ps i Hok) as [Hok1 _].
  destruct (flush_slots xer_slots ps i) as [ps1 out1]. cbn [fst snd] in *.
  case_bool_decide as Hx.
  - pose proof (flush_slots_plain all_slots ps1 i) as Hp2. pose proof (flush_clean n ps1 i Hok1) as Hc. unfold flush in Hc.
    destruct (flush_slots all_slots ps1 i) as [ps2 out2]. cbn [fst snd] in *.
    destruct (requires_materialization (i_op i)) eqn:Hm; cbn [fst snd pm_aliases pm_state app];
      eexists; (split; [first [reflexivity|by rewrite app_assoc]|]); split_and!; try done; try (by apply Forall_app); try (by intros Ho; rewrite Ho in Hx; destruct Hx).
    + intros _. destruct (invalidates_after i); [apply no_dirty_none|]. case_bool_decide; [by apply no_dirty_xer|done].
  - pose proof (flush_slots_plain all_slots ps i) as Hp2. pose proof (flush_clean n ps i Hok) as Hc. unfold flush in Hc.
    destruct (flush_slots all_slots ps i) as [ps2 out2]. cbn [fst snd] in *.
    destruct (requires_materialization (i_op i)) eqn:Hm; cbn [fst snd pm_aliases pm_state app].
    + exists out2. split_and!; try done.
      * intros _. destruct (invalidates_after i); [apply no_dirty_none|]. case_bool_decide; [by apply no_dirty_xer|done].
      * by intros Ho; rewrite Ho in Hm.
    + by exists [].
Qed.

Section PromoteLeaf.
Context (size : Z).

(** What a step does to leaf code, by the kind of operation. *)
Lemma promote_step_leaf n st i :
  promote_static size n st -> inst_ok n i = true -> promote_index_ok size i ->
  (forall v, 0 <= v < n -> find (pm_aliases (promote_step st i).1) v = find (pm_aliases st) v) /\
  let i' := set_args (find (pm_aliases st) <$> i_args i) i in
  ((promoted_read (i_op i) = true \/ promoted_write (i_op i) = true) /\
   ((promote_step st i).2 = [] \/ (promote_step st i).2 = [i']) \/
   exists al, alias_ok n al /\ promote_step st i = promote_other al (pm_state st) i').
Proof using Type.
  intros [Hn Hsz Hok Htr] Hi [Hidx Hwf]. unfold promote_step.
  destruct (resolve_args_spec n _ _ Hok (inst_ok_args n i Hi)) as [Hr He].
  pose proof (resolved_args_shrink n _ i Hok Hi) as Hargs.
  destruct (resolve_args (pm_aliases st) (i_args i)) as [args al]. cbn [fst snd] in *. subst args.
  set (i' := set_args (find (pm_aliases st) <$> i_args i) i) in *. destruct He as (Hlen & Hok1 & Hf1).
  change (i_op i') with (i_op i). change (slot_for i') with (slot_for i). change (i_result i') with (i_result i).
  assert (Hother : (forall v, 0 <= v < n -> find (pm_aliases (promote_other al (pm_state st) i').1) v = find (pm_aliases st) v)).
  { intros v Hv. destruct (promote_other_shape n al (pm_state st) i' Htr) as (_ & _ & _ & -> & _). apply Hf1; lia. }
  destruct (promoted_read (i_op i)) eqn:Hread.
  - pose proof (read_result i Hwf Hread) as Hne. pose proof (inst_ok_result n i Hi Hne) as Hres. specialize (Hidx Hne).
    destruct (slot_for i) as [sl|] eqn:Esl; [|by split; [intros v Hv; apply Hf1; lia|left; auto]].
    destruct (tv_valid (get_slot (pm_state st) sl)) eqn:Ev; [|by split; [intros v Hv; apply Hf1; lia|left; auto]].
    split; [|left; split; [by auto|left; by destruct (resolve al _)]]. cbn [fst snd pm_aliases].
    destruct (Htr sl (or_introl Ev)) as [_ Hval].
    destruct (resolve_spec n al (tv_value (get_slot (pm_state st) sl)) Hok1) as [Hrt He2]; [lia|].
    destruct (resolve al _) as [t al2]. cbn [fst snd pm_aliases] in *. destruct He2 as (Hlen2 & Hok2 & Hf2).
    pose proof (find_range n al Hok1 (tv_value (get_slot (pm_state st) sl)) ltac:(lia)) as Hfr.
    destruct (assign_alias_spec n al2 (i_result i) t) as (_ & _ & _ & Hother'); [done|lia..| |].
    { rewrite Hrt, Hf2 by lia. apply (find_idem n); [done|lia]. }
    intros v Hv. rewrite Hother', Hf2, Hf1 by lia. done.
  - destruct (promoted_write (i_op i)) eqn:Hw; [|by split; [|right; eauto]].
    destruct (slot_for i) as [sl|] eqn:Esl; [|by split; [|right; eauto]].
    destruct (i_args i') as [|a rest] eqn:Ea; [by split; [|right; eauto]|].
    split; [|left; split; [by auto|left; by destruct (resolve al a)]].
    pose proof Hargs as Hargs'. change (find (pm_aliases st) <$> i_args i) with (i_args i') in Hargs'. rewrite Ea in Hargs'. apply Forall_cons in Hargs' as [[Ha0 (a0 & Hin & Hle0)] _].
    pose proof (inst_ok_args n i Hi) as Hrange. rewrite Forall_forall in Hrange. specialize (Hrange a0 Hin). cbn in Hrange.
    destruct (resolve_spec n al a Hok1) as [Hrt He2]; [lia|].
    destruct (resolve al a) as [t al2]. cbn [fst snd pm_aliases] in *. destruct He2 as (Hlen2 & Hok2 & Hf2).
    intros v Hv. rewrite Hf2, Hf1 by lia. done.
Qed.

Lemma promoted_straight i : promoted_read (i_op i) = true \/ promoted_write (i_op i) = true -> straight i /\ const_result i = [].
Proof using Type.
  intros Hp. unfold straight, const_result. rewrite bool_decide_eq_false_2; [|intros [Ho _]; rewrite Ho in Hp; by destruct Hp].
  split; [|done]. destruct (i_op i); try done; by destruct Hp.
Qed.

Lemma promote_leaf_step n st i K :
  promote_static size n st -> inst_ok n i = true -> promote_index_ok size i ->
  leaf_step promote_step pm_aliases (promote_static size) (λ _ _, True) (λ st, no_dirty (pm_state st)) n st i K.
Proof using Type.
  intros Hst Hi Hidx. destruct (promote_step_static size n st i Hst Hi Hidx) as (HP & _).
  destruct (promote_step_leaf n st i Hst Hi Hidx) as [Hstable Hshape]. cbn zeta in Hshape.
  set (i' := set_args (find (pm_aliases st) <$> i_args i) i) in *.
  constructor; [exact HP|exact Hstable| |].
  - intros Hs. destruct Hshape as [[Hp Hout]|(al & Hal0 & E)].
    + destruct (promoted_straight i Hp) as [_ Hc].
      assert (Hcs : consts (promote_step st i).2 = []).
      { destruct Hout as [-> | ->]; [done|]. change (const_result i ++ [] = []). by rewrite Hc. }
      rewrite Hcs, Hc. split_and!; [destruct Hout as [-> | ->]; by constructor|done|by intros r ?%elem_of_nil..].
    + destruct (promote_other_shape n al (pm_state st) i' (pst_tracked _ _ _ Hst)) as (pre & Ho & Hpre & Hal & _ & Hconst).
      rewrite E in *. rewrite Ho, consts_app, (plain_write_consts pre Hpre). cbn [app].
      assert (Hroot : forall r, r ∈ const_result i -> find (pm_aliases (promote_other al (pm_state st) i').1) r = r).
      { intros r (_ & _ & Hne & ->)%elem_of_const_result. pose proof (inst_ok_result n i Hi Hne). rewrite Hal. pose proof (pst_bound _ _ _ Hst). apply (find_above n); [done|lia|lia]. }
      split_and!; [|done| |].
      * apply Forall_app. split; [by apply plain_write_straight|by constructor].
      * intros r Hin. rewrite Hroot by done. apply elem_of_app. left. by apply consts_one.
      * intros r Hin. cbn in Hin. rewrite app_nil_r in Hin. change (const_result i') with (const_result i) in Hin.
        split; [by apply elem_of_const_result in Hin as (_ & _ & _ & ->)|by apply Hroot].
  - intros Hm Hv Hc _. destruct Hshape as [[Hp _]|(al & Hal0 & E)].
    { exfalso. destruct (i_op i); try done; by destruct Hp. }
    destruct (promote_other_shape n al (pm_state st) i' (pst_tracked _ _ _ Hst)) as (pre & Ho & Hpre & _ & Hclean & _).
    rewrite E. exists pre. split_and!; [done|by apply plain_write_straight|by apply plain_write_consts|by apply Hclean].
Qed.
End PromoteLeaf.

Lemma leaf_promote l : body_ok l = true -> leaf [] l -> leaf [] (promote l).
Proof.
  intros [Hssa Hwf]%body_ok_spec Hl. unfold promote. destruct (last l) as [src|] eqn:Hlast; [|done].
  destruct (leaf_pass promote_step pm_aliases (promote_index_ok (promote_size l)) (promote_static (promote_size l))
    (λ _ _, True) (λ st, no_dirty (pm_state st)) (λ n st i K HP _ _ Hi Hok, promote_leaf_step _ n st i K HP Hi Hok)
    l 0 (promote_init l) [] [] (Z.le_refl 0)) as (Hout & _ & Hclean); try done; [|by apply promote_index|].
  { split; [apply promote_static_init|done|..]; by intros r ?%elem_of_nil. }
  unfold promote_init in *. destruct (run_pass promote_step _ l) as [st out]. cbn [fst snd] in *.
  destruct Hclean as [Hs|Hc]; [|by rewrite flush_nothing, app_nil_r].
  apply leaf_straight, Forall_app. split; [done|]. apply plain_write_straight, flush_slots_plain.
Qed.

(** ** Compare forwarding *)

Lemma late_compare_plain n w : i_op w = Op.WriteCRCompare -> late_write n w -> plain_write w.
Proof. intros Ho (Hr & _). split; [unfold straight; by rewrite Ho|done]. Qed.

Lemma flush_field_spec n f p :
  pending_ok n p ->
  Forall plain_write (flush_field f p).2 /\ forall g w, (flush_field f p).1 !! g = Some w -> p !! g = Some w /\ f .& 7 <> g.
Proof.
  intros Hp. unfold flush_field. destruct (p !! (f .& 7)) as [w0|] eqn:E; cbn.
  - split.
    + constructor; [|done]. destruct (Hp _ _ E) as (_ & Ho & _ & Hl). by eapply late_compare_plain.
    + intros g w [Hne Hg]%lookup_delete_Some. done.
  - split; [done|]. intros g w Hg. split; [done|]. intros <-. by rewrite E in Hg.
Qed.

Lemma flush_fields_spec n l p :
  pending_ok n p ->
  Forall plain_write (flush_fields l p).2 /\
  forall g w, (flush_fields l p).1 !! g = Some w -> p !! g = Some w /\ forall f, f ∈ l -> f .& 7 <> g.
Proof.
  revert p. induction l as [|f l IH]; intros p Hp; [split; [done|intros g w Hg; split; [done|by intros f ?%elem_of_nil]]|]. cbn.
  destruct (flush_field_spec n f p Hp) as [Ho Hf]. destruct (flush_field_static n f p Hp) as [Hs _].
  destruct (flush_field f p) as [p1 out]. cbn [fst snd] in *. destruct (IH p1 (pending_ok_sub n _ _ Hs Hp)) as [IHo IHf].
  destruct (flush_fields l p1) as [p2 rest]. cbn [fst snd] in *. split; [by apply Forall_app|].
  intros g w [Hg Hl]%IHf. apply Hf in Hg as [Hg Hne]. split; [done|]. intros f' [-> |Hin]%elem_of_cons; [done|by apply Hl].
Qed.

Lemma flush_all_clean n p : pending_ok n p -> (flush_all p).1 = ∅.
Proof.
  intros Hp. destruct (flush_fields_spec n fields p Hp) as [_ Hf]. apply map_eq. intros g. rewrite lookup_empty.
  unfold flush_all. destruct ((flush_fields fields p).1 !! g) as [w|] eqn:E; [|done]. destruct (Hf g w E) as [Hg Hn].
  destruct (Hp g w Hg) as [Hr _]. exfalso. apply (Hn g); [unfold fields; apply elem_of_seqZ; lia|].
  change 7 with (Z.ones 3). rewrite Z.land_ones by lia. by apply Z.mod_small.
Qed.

Lemma forward_other_shape n al p i :
  pending_ok n p ->
  exists pre, (forward_other al p i).2 = pre ++ [i] /\ Forall plain_write pre /\ crs_aliases (forward_other al p i).1 = al /\
    (requires_materialization (i_op i) = true -> crs_pending (forward_other al p i).1 = ∅).
Proof.
  intros Hp. unfold forward_other.
  assert (H1 : Forall plain_write (flush_for_read i p).2).
  { unfold flush_for_read. destruct (i_op i); try done; by eapply flush_field_spec || by eapply flush_fields_spec. }
  destruct (flush_for_read_static n i p Hp) as [S1 _]. destruct (flush_for_read i p) as [p1 out1]. cbn [fst snd] in *.
  pose proof (pending_ok_sub n _ _ S1 Hp) as Hp1.
  assert (H2 : Forall plain_write (apply_cr_write i p1).2).
  { unfold apply_cr_write. destruct (i_op i); try done. by eapply flush_field_spec. }
  destruct (apply_cr_write_static n i p1 Hp1) as [S2 _]. destruct (apply_cr_write i p1) as [p2 out2]. cbn [fst snd] in *.
  pose proof (pending_ok_sub n _ _ S2 Hp1) as Hp2.
  destruct (requires_materialization (i_op i)).
  - destruct (flush_fields_spec n fields p2 Hp2) as [H3 _]. pose proof (flush_all_clean n p2 Hp2) as Hc. unfold flush_all in *.
    destruct (flush_fields fields p2) as [p3 out3]. cbn [fst snd] in *. exists (out1 ++ out2 ++ out3).
    split_and!; [by rewrite <- !app_assoc|by rewrite !Forall_app|done|done].
  - exists (out1 ++ out2). cbn [fst snd]. split_and!; [by rewrite <- app_assoc|by apply Forall_app|done|done].
Qed.

Section ForwardLeaf.
Context (size : Z).

Lemma forward_step_leaf n st i :
  forward_static size n st -> inst_ok n i = true -> forward_index_ok size i ->
  (forall v, 0 <= v < n -> find (crs_aliases (forward_step st i).1) v = find (crs_aliases st) v) /\
  let i' := set_args (find (crs_aliases st) <$> i_args i) i in
  ((i_op i = Op.WriteCRCompare \/ i_op i = Op.ReadCRBit) /\ (forward_step st i).2 = [] \/
   exists al, alias_ok n al /\ forward_step st i = forward_other al (crs_pending st) i').
Proof using Type.
  intros [Hn Hsz Hok Hp] Hi [Hidx Hwf]. unfold forward_step.
  destruct (resolve_args_spec n _ _ Hok (inst_ok_args n i Hi)) as [Hr He].
  destruct (resolve_args (crs_aliases st) (i_args i)) as [args al]. cbn [fst snd] in *. subst args.
  set (i' := set_args (find (crs_aliases st) <$> i_args i) i) in *. destruct He as (Hlen & Hok1 & Hf1).
  change (i_op i') with (i_op i). change (i_imm0 i') with (i_imm0 i). change (i_result i') with (i_result i).
  assert (Hother : (forall v, 0 <= v < n -> find (crs_aliases (forward_other al (crs_pending st) i').1) v = find (crs_aliases st) v)).
  { intros v Hv. destruct (forward_other_shape n al (crs_pending st) i' Hp) as (_ & _ & _ & -> & _). apply Hf1; lia. }
  case_bool_decide as Hcmp; [split; [intros v Hv; apply Hf1; lia|left; auto]|].
  case_bool_decide as Hrd; [|by split; [|right; eauto]].
  destruct (crs_pending st !! _) as [w|] eqn:Ew; [|by split; [|right; eauto]].
  destruct (Nat.eqb_spec (length (i_args w)) 4) as [Hl4|]; [|by split; [|right; eauto]].
  split; [|left; split; [by auto|by destruct (resolve al _)]].
  assert (Hk : (Z.to_nat ((i_imm0 i .& 31) mod 4) < length (i_args w))%nat).
  { rewrite Hl4. pose proof (Z.mod_pos_bound (i_imm0 i .& 31) 4 ltac:(lia)). lia. }
  pose proof (pending_arg_range n _ _ _ _ Hp Ew Hk) as Hrange.
  set (a := i_args w !!! _) in *.
  destruct (resolve_spec n al a Hok1) as [Hrt He2]; [lia|].
  destruct (resolve al a) as [t al2]. cbn [fst snd crs_aliases] in *. destruct He2 as (Hlen2 & Hok2 & Hf2).
  pose proof (find_range n al Hok1 a ltac:(lia)) as Hfr. intros v Hv.
  destruct (Z.eq_dec (i_result i) kNoValue) as [Hvd|Hne].
  - unfold assign_alias. rewrite Hvd, Z.eqb_refl. cbn. rewrite Hf2, Hf1 by lia. done.
  - pose proof (inst_ok_result n i Hi Hne) as Hres. specialize (Hidx Hne).
    destruct (assign_alias_spec n al2 (i_result i) t) as (_ & _ & _ & Hother'); [done|lia..| |].
    { rewrite Hrt, Hf2 by lia. apply (find_idem n); [done|lia]. }
    rewrite Hother', Hf2, Hf1 by lia. done.
Qed.

Lemma forward_leaf_step n st i K :
  forward_static size n st -> inst_ok n i = true -> forward_index_ok size i ->
  leaf_step forward_step crs_aliases (forward_static size) (λ _ _, True) (λ st, crs_pending st = ∅) n st i K.
Proof using Type.
  intros Hst Hi Hidx. destruct (forward_step_static size n st i Hst Hi Hidx) as (HP & _).
  destruct (forward_step_leaf n st i Hst Hi Hidx) as [Hstable Hshape]. cbn zeta in Hshape.
  set (i' := set_args (find (crs_aliases st) <$> i_args i) i) in *.
  constructor; [exact HP|exact Hstable| |].
  - intros Hs. destruct Hshape as [[Hp Hout]|(al & Hal0 & E)].
    + assert (Hc : const_result i = []).
      { unfold const_result. rewrite bool_decide_eq_false_2; [done|]. intros [Ho _]. rewrite Ho in Hp. by destruct Hp. }
      rewrite Hout, Hc. split_and!; [done|done|by intros r ?%elem_of_nil..].
    + destruct (forward_other_shape n al (crs_pending st) i' (fst_pending _ _ _ Hst)) as (pre & Ho & Hpre & Hal & _).
      rewrite E in *. rewrite Ho, consts_app, (plain_write_consts pre Hpre). cbn [app].
      assert (Hroot : forall r, r ∈ const_result i -> find (crs_aliases (forward_other al (crs_pending st) i').1) r = r).
      { intros r (_ & _ & Hne & ->)%elem_of_const_result. pose proof (inst_ok_result n i Hi Hne). rewrite Hal.
        pose proof (fst_bound _ _ _ Hst). apply (find_above n); [done|lia|lia]. }
      split_and!; [|done| |].
      * apply Forall_app. split; [by apply plain_write_straight|by constructor].
      * intros r Hin. rewrite Hroot by done. apply elem_of_app. left. by apply consts_one.
      * intros r Hin. cbn in Hin. rewrite app_nil_r in Hin. change (const_result i') with (const_result i) in Hin.
        split; [by apply elem_of_const_result in Hin as (_ & _ & _ & ->)|by apply Hroot].
  - intros Hm Hv Hc _. destruct Hshape as [[Hp _]|(al & Hal0 & E)].
    { exfalso. destruct Hp as [Hp|Hp]; by rewrite Hp in Hm. }
    destruct (forward_other_shape n al (crs_pending st) i' (fst_pending _ _ _ Hst)) as (pre & Ho & Hpre & _ & Hclean).
    rewrite E. exists pre. split_and!; [done|by apply plain_write_straight|by apply plain_write_consts|by apply Hclean].
Qed.
End ForwardLeaf.

Lemma leaf_forward l : body_ok l = true -> leaf [] l -> leaf [] (forward_cr l).
Proof.
  intros Hbody Hl. pose proof Hbody as [Hssa Hwf]%body_ok_spec. unfold forward_cr. destruct l as [|i0 l0]; [done|].
  set (l := i0 :: l0) in *.
  destruct (leaf_pass forward_step crs_aliases (forward_index_ok (forward_size l)) (forward_static (forward_size l))
    (λ _ _, True) (λ st, crs_pending st = ∅) (λ n st i K HP _ _ Hi Hok, forward_leaf_step _ n st i K HP Hi Hok)
    l 0 (forward_init l) [] [] (Z.le_refl 0)) as (Hout & _ & Hclean); try done; [|by apply forward_index|].
  { split; [apply forward_static_init|done|..]; by intros r ?%elem_of_nil. }
  destruct (forward_pass_ok (forward_size l) l 0 (forward_init l) (forward_static_init l) Hssa (forward_index l Hwf))
    as (k & [_ _ _ Hp] & _).
  unfold forward_init in *. destruct (run_pass forward_step _ l) as [st out]. cbn [fst snd] in *.
  destruct Hclean as [Hs| ->]; [|by rewrite app_nil_r].
  apply leaf_straight, Forall_app. split; [done|]. apply plain_write_straight. by eapply flush_fields_spec.
Qed.

(** ** The pipeline *)

Lemma leaf_optimizer b :
  body_ok (b_instructions b) = true -> leaf [] (b_instructions b) -> leaf [] (b_instructions (Optimizer_run b)).
Proof.
  assert (Hclean : forall b, body_ok (b_instructions b) = true -> leaf [] (b_instructions b) ->
    body_ok (b_instructions (cleanup b)) = true /\ leaf [] (b_instructions (cleanup b))).
  { intros c Hb Hl. unfold cleanup. cbn.
    pose proof (fold_ok _ Hb) as H1. pose proof (leaf_fold _ Hb Hl) as L1.
    pose proof (simplify_ok _ H1) as H2. pose proof (leaf_simplify _ H1 L1) as L2.
    pose proof (cse_ok _ H2) as H3. pose proof (leaf_cse _ H2 L2) as L3.
    split; [by apply dce_ok|by apply leaf_dce]. }
  intros Hb Hl. destruct (Hclean b Hb Hl) as [H1 L1].
  pose proof (promote_ok _ H1) as H2. pose proof (leaf_promote _ H1 L1) as L2.
  pose proof (forward_ok _ H2) as H3. pose proof (leaf_forward _ H2 L2) as L3.
  exact (proj2 (Hclean (forward_cr_compare_state (promote_architectural_state (cleanup b))) H3 L3)).
Qed.
