(* ===== verification/LeafLift.v ===== *)
(** * Leaf code: what is lifted for a run of integer instructions and a branch

    A run of a leaf function is [comparable] integer instructions, perhaps ended by an
    unlinked [b], [bc] or [bclr]. What is lifted for it is straight-line code ended by one
    branch, and does what the guest instructions do. *)

From S2P Require Import Prelude.
From S2P Require Import Words.
From S2P Require Import Instr.
From S2P Require Import Decoder.
From S2P Require Import CpuState.
From S2P Require Import Ir.
From S2P Require Import IrValue.
From S2P Require Import Services.
From S2P Require Import IrSem.
From S2P Require Import IrRefine.
From S2P Require Import PassSim.
From S2P Require Import Lifter.
From S2P Require Import LifterControl.
From S2P Require Import Lift.
From S2P Require Import LiftWp.
From S2P Require Import IntegerParity.
From S2P Require Import IntegerAgree.
From S2P Require Import StateWf.
From S2P Require Import IntegerBlocks.
From S2P Require Import LiftStatic.
From S2P Require Import LiftTotal.
From S2P Require Import FunctionCompiler.
From S2P Require Import FunctionCompilerSpec.
From S2P Require Import FallbackSystem.
From S2P Require Import LeafShape.

Open Scope builder_scope.

(** ** Guest instructions of leaf code *)

(** An unlinked branch to a constant or to the link register. *)
Definition leaf_transfer (i : DecodedInstruction) : bool :=
  one_of (mnemonic i) ["bx"; "bcx"; "bclrx"] && negb (lk i).

(** Where control goes after an instruction. *)
Inductive Flow : Type :=
  | Falls
  | Jumps (target : GuestAddress)
  | Returns (target : GuestAddress).

(** What an unlinked branch decides, and what it leaves in CTR. *)
Definition transfer (i : DecodedInstruction) (s : CpuState) : Flow * CpuState :=
  let m := mnemonic i in
  if String.eqb m "bx" then (Jumps (direct_branch_target i), s)
  else
    let '(taken, s') := test_branch i true s in
    (if taken : bool then
       if String.eqb m "bcx" then Jumps (direct_branch_target i) else Returns (u32 (lr s .& not64 3))
     else Falls, s').

(** ** Branch conditions *)

Section Condition.
Context {W : Type} `{MemoryPort W, RuntimeServices W, HostHelpers W}.
Context (fuel : nat) (w : W) (g : option GuestAddress) (i : DecodedInstruction).

Abbreviation wp := (wp fuel w g).

Lemma ready_value st e : ready 1 st e -> negb (bl_next_value st =? kNoValue) = true.
Proof using Type. intros [_ Hl Hroom]. destruct (Z.eqb_spec (bl_next_value st) kNoValue); [lia|done]. Qed.

Lemma wp_read_ctr Q st e s :
  ready 1 st e -> wf_state s ->
  (forall r st' e', after 1 st e st' e' -> e' !! r = Some (TInt I64 (ctr s)) -> Q r st' e' s) ->
  wp read_ctr Q st e s.
Proof.
  intros Hr Hs HQ. pose proof (ready_value st e Hr) as Hne.
  eapply wp_get; [done|cbn; lia|done|done|done| |exact Hne|exact HQ].
  unfold exec_state, tagged. cbn -[u64]. by rewrite u64_small by apply Hs.
Qed.

Lemma wp_read_lr Q st e s :
  ready 1 st e -> wf_state s ->
  (forall r st' e', after 1 st e st' e' -> e' !! r = Some (TInt I64 (lr s)) -> Q r st' e' s) ->
  wp read_lr Q st e s.
Proof.
  intros Hr Hs HQ. pose proof (ready_value st e Hr) as Hne.
  eapply wp_get; [done|cbn; lia|done|done|done| |exact Hne|exact HQ].
  unfold exec_state, tagged. cbn -[u64]. by rewrite u64_small by apply Hs.
Qed.

Lemma wp_write_ctr a x Q st e s :
  ready 0 st e -> e !! a = Some (TInt I64 x) ->
  (forall st', after 0 st e st' e -> Q tt st' e (set_ctr x s)) -> wp (write_ctr a) Q st e s.
Proof.
  intros Hr Ha HQ. apply wp_bind.
  eapply (wp_set _ _ _ _ _ _ _ _ [TInt I64 x]); try done; [cbn; lia|by lookup_args|].
  intros _ st' Hst. apply wp_bret. by apply HQ.
Qed.

Lemma wp_cr_condition Q st e s :
  ready 2 st e ->
  (forall r st' e', after 2 st e st' e' -> e' !! r = Some (tbool (Bool.eqb (cr_bit s (bi i)) (bo_set i 8))) -> Q r st' e' s) ->
  wp (cr_condition i) Q st e s.
Proof.
  intros Hr HQ. unfold cr_condition. apply wp_bind.
  assert (Hr1 : ready 1 st e) by solve_ready. pose proof (ready_value st e Hr1) as Hne.
  eapply wp_get; [exact Hr1|cbn; lia|done|done|done|reflexivity| |].
  { unfold inst_wf, const_imm_ok. by rewrite bool_decide_eq_false_2 by by intros []. }
  clear Hr1. intros r st' e' Ha Hv. pose proof (after_refl st e) as Hafter.
  destruct (bo_set i 8) eqn:Hb.
  - apply wp_bret. apply HQ; [eapply after_weaken; [|exact Ha]; lia|]. rewrite Hv. by destruct (cr_bit _ _).
  - advance Ha. eapply (wp_pure _ _ _ _ _ _ _ _ _ [tbool (cr_bit s (bi i))] (tbool (negb (cr_bit s (bi i)))));
      [done|cbn; lia|done|by lookup_args|done|by destruct (cr_bit _ _)|done|].
    intros r2 st2 e2 Ha2 Hv2 _. advance Ha2. apply HQ; [done|]. rewrite Hv2. by destruct (cr_bit _ _).
Qed.
Lemma wp_ctr_condition Q st e s :
  ready 5 st e -> wf_state s ->
  (let c := u64 (ctr s - 1) in
   forall r st' e', after 5 st e st' e' ->
     e' !! r = Some (tbool (if bo_set i 2 then c =? 0 else negb (c =? 0))) -> Q r st' e' (set_ctr c s)) ->
  wp (ctr_condition i) Q st e s.
Proof.
  intros Hr Hs HQ. pose proof (after_refl st e) as Hafter. unfold ctr_condition.
  apply wp_bind. apply wp_read_ctr; [solve_ready|done|next_value].
  apply wp_bind. eapply wp_constant_i64; [solve_ready|unfold is_u64; lia|next_value].
  apply wp_bind. eapply (wp_arith64 _ _ _ _ Z.sub); [pick_op|solve_ready|eassumption..|next_value].
  apply wp_bind. eapply wp_write_ctr; [solve_ready|eassumption|next_state].
  apply wp_bind. eapply wp_constant_i64; [solve_ready|unfold is_u64; lia|next_value].
  destruct (bo_set i 2) eqn:Hb.
  - eapply (wp_compare _ _ _ Op.CompareEq false); [pick_op|solve_ready|eassumption..|reflexivity|reflexivity|done|].
    intros r' st' e' Ha Hv'. advance Ha. apply HQ; [done|]. exact Hv'.
  - eapply (wp_compare _ _ _ Op.CompareNe false); [pick_op|solve_ready|eassumption..|reflexivity|reflexivity|done|].
    intros r' st' e' Ha Hv'. advance Ha. apply HQ; [done|]. exact Hv'.
Qed.

Lemma wp_and_bool a c x y Q st e s :
  ready 1 st e -> e !! a = Some (tbool x) -> e !! c = Some (tbool y) ->
  (forall r st' e', after 1 st e st' e' -> e' !! r = Some (tbool (x && y)) -> Q r st' e' s) ->
  wp (binary Op.And a c) Q st e s.
Proof.
  intros Hr Ha Hc HQ. eapply (wp_pure _ _ _ _ _ _ _ _ _ [tbool x; tbool y] (tbool (x && y)));
    [done|cbn; lia|done|by lookup_args|done|by destruct x, y|done|].
  intros r st' e' Hst Hv _. by apply HQ.
Qed.

Lemma wp_true Q st e s :
  ready 1 st e -> (forall r st' e', after 1 st e st' e' -> e' !! r = Some (tbool true) -> Q r st' e' s) ->
  wp (constant_i1 true) Q st e s.
Proof.
  intros Hr HQ. eapply (wp_pure _ _ _ _ _ _ _ _ _ [] (tbool true)); try done; [cbn; lia|].
  intros r st' e' Hst Hv _. by apply HQ.
Qed.

Lemma ready_lookup k st e r v : ready k st e -> 0 <= k -> e !! r = Some v -> (r =? kNoValue) = false.
Proof using Type. intros [He Hl Hroom] Hk Hr. destruct (He r v Hr). apply Z.eqb_neq. lia. Qed.

(** A variable is not [kNoValue]. *)
Ltac defined :=
  repeat match goal with Hr : ready _ _ ?e, Hv : ?e !! ?r = Some _ |- context [?r =? kNoValue] =>
    rewrite (ready_lookup _ _ _ r _ Hr ltac:(lia) Hv) end.

Lemma wp_branch_condition Q st e s :
  ready 8 st e -> wf_state s ->
  (forall r st' e', after 8 st e st' e' -> e' !! r = Some (tbool (test_branch i true s).1) ->
     Q r st' e' (test_branch i true s).2) ->
  wp (branch_condition i true) Q st e s.
Proof.
  intros Hr Hs HQ. pose proof (after_refl st e) as Hafter. unfold branch_condition, test_branch in *. cbn [andb] in *.
  destruct (negb (bo_set i 4)) eqn:Hctr; apply wp_bind.
  - apply wp_ctr_condition; [solve_ready|done|]. cbn zeta. next_value. apply wp_bind.
    destruct (negb (bo_set i 16)) eqn:Hcr.
    + apply wp_cr_condition; [solve_ready|]. next_value.
      defined. cbn [negb andb].
      eapply wp_and_bool; [solve_ready|eassumption..|]. intros r' st' e' Ha Hv'. advance Ha. by apply HQ.
    + apply wp_bret. defined. cbn [negb andb].
      apply wp_bret. apply HQ; [eapply after_weaken; [|eassumption]; lia|]. cbn [fst]. by rewrite andb_true_r.
  - apply wp_bret. apply wp_bind. destruct (negb (bo_set i 16)) eqn:Hcr.
    + apply wp_cr_condition; [solve_ready|]. next_value. defined. cbn [negb andb Z.eqb].
      apply wp_bret. apply HQ; [eapply after_weaken; [|eassumption]; lia|]. done.
    + apply wp_bret. cbn [negb andb Z.eqb]. apply wp_true; [solve_ready|]. next_value.
      apply HQ; [eapply after_weaken; [|eassumption]; lia|]. done.
Qed.

(** ** Programs that end in a branch *)

(** Like [wp], for a program whose last instruction is a branch. *)
Definition ends_in (K : list Z) (c : B bool) (Q : Instruction -> Env -> CpuState -> Prop)
    (st : Builder) (e : Env) (s : CpuState) : Prop :=
  exists st' l br e' s',
    c st = Some (true, st') /\ bl_instructions st' = bl_instructions st ++ l ++ [br] /\
    appended fuel w g (bl_next_value st) (bl_next_value st') l e e' s s' /\
    leaf_branch (consts l ++ K) br /\ Q br e' s'.

Lemma ends_bind {A} K (c : B A) k Q st e s :
  wp c (λ a st' e' s', ends_in K (k a) Q st' e' s') st e s -> ends_in K (bbind c k) Q st e s.
Proof.
  intros (a & st1 & l1 & e1 & s1 & E1 & I1 & G1 & A1 & st2 & l2 & br & e2 & s2 & E2 & I2 & A2 & Hb & HQ).
  exists st2, (l1 ++ l2), br, e2, s2. split_and!.
  - unfold bbind. by rewrite E1.
  - by rewrite I2, I1, <- !app_assoc.
  - by eapply appended_app.
  - eapply leaf_branch_mono; [|exact Hb]. rewrite consts_app. set_solver.
  - done.
Qed.

Lemma ends_constant K z k Q st e s :
  ready 1 st e -> is_u64 z ->
  (forall r st' e', after 1 st e st' e' -> e' !! r = Some (TInt I64 z) -> ends_in (r :: K) (k r) Q st' e' s) ->
  ends_in K (bbind (constant_i64 z) k) Q st e s.
Proof.
  intros Hr Hz HQ.
  assert (Hwp : wp (constant_i64 z) (λ r st' e' s', s' = s /\ after 1 st e st' e' /\ e' !! r = Some (TInt I64 z)) st e s)
    by (apply wp_constant_i64; by eauto).
  destruct Hwp as (r & st1 & l1 & e1 & s1 & E1 & I1 & G1 & A1 & -> & Ha & Hv).
  destruct (HQ r st1 e1 Ha Hv) as (st2 & l2 & br & e2 & s2 & E2 & I2 & A2 & Hb & HQ').
  exists st2, (l1 ++ l2), br, e2, s2. split_and!; [unfold bbind; by rewrite E1|by rewrite I2, I1, <- !app_assoc|by eapply appended_app| |done].
  assert (Hc : consts l1 = [r]).
  { unfold constant_i64 in E1. rewrite emit_tagged in E1 by (cbn; lia). cbn in E1. injection E1 as <- <-.
    cbn [bl_instructions] in I1. apply app_inv_head in I1 as <-. pose proof (ready_value st e Hr) as Hne.
    apply negb_true_iff, Z.eqb_neq in Hne. cbn. unfold const_result. by rewrite bool_decide_eq_true_2. }
  eapply leaf_branch_mono; [|exact Hb]. rewrite consts_app, Hc. set_solver.
Qed.

Lemma ends_emit K op args imm1 Q st e s :
  (length args <= 4)%nat ->
  let br := tagged (Some i) st op Void kNoValue args 0 imm1 in
  leaf_branch K br -> Q br e s ->
  ends_in K (do! emit op Void args 0 imm1 (Some i) in bret true) Q st e s.
Proof.
  intros Hl br Hb HQ. exists (mkBuilder (bl_instructions st ++ [br]) (bl_next_value st) (bl_current_guest st)), [], br, e, s.
  split_and!; [|reflexivity|apply appended_nil|exact Hb|exact HQ]. unfold bbind. by rewrite emit_tagged.
Qed.

(** ** The unlinked branches *)

(** What a branch does with what it decided. *)
Definition flow_step (f : Flow) (s : CpuState) : Step W :=
  match f with
  | Falls => Next None s w
  | Jumps target => branch_exit RBranch target s w
  | Returns target => branch_exit RReturn target s w
  end.

(** [br] ends a block as [transfer] decides. *)
Definition decides_flow (f : Flow) (br : Instruction) (e : Env) : Prop :=
  i_guest_address br = di_address i /\ i_guest_opcode br = opcode_id i /\
  exists vs, mapM (e !!.) (i_args br) = Some vs /\ forall s, exec_inst fuel Lifted br vs s w = Some (flow_step f s).

Lemma exec_branch mode br vs s :
  i_op br = Op.Branch \/ i_op br = Op.BranchIf \/ i_op br = Op.BranchIndirect ->
  exec_inst fuel mode br vs s w = exec_control fuel br vs s w.
Proof using Type. intros [Hop|[Hop|Hop]]; unfold exec_inst; by rewrite Hop. Qed.

Lemma target_u32 : is_u32 (direct_branch_target i).
Proof. unfold direct_branch_target. repeat case_match; (apply u32_range || done). Qed.

Lemma target_u64 : is_u64 (direct_branch_target i).
Proof. pose proof target_u32. unfold is_u32, is_u64 in *. lia. Qed.

Lemma transfer_ends st e s :
  leaf_transfer i = true -> ready 16 st e -> wf_state s ->
  ends_in [] (lift_control i) (λ br e' s', s' = (transfer i s).2 /\ decides_flow (transfer i s).1 br e') st e s.
Proof.
  intros Hl Hr Hs. apply andb_true_iff in Hl as [Hm Hlk]. apply negb_true_iff in Hlk.
  pose proof (after_refl st e) as Hafter. pose proof target_u64 as Ht. pose proof target_u32 as Ht32.
  unfold lift_control, transfer. mnemonic_cases Hm; rewrite Hm; cbn [one_of existsb String.eqb Ascii.eqb Bool.eqb orb andb].
  - unfold lift_bx, link. rewrite Hlk. apply ends_constant; [solve_ready|done|next_value].
    apply ends_bind, wp_bret. apply ends_emit; [cbn; lia|split; [done|by left]|].
    split; [done|]. split_and!; [done|done|]. eexists. split; [by lookup_args|]. intros s'.
    rewrite exec_branch by by left. unfold exec_control. cbn -[u32]. by rewrite u32_small.
  - unfold lift_bcx, link. rewrite Hlk. apply ends_bind. apply wp_branch_condition; [solve_ready|done|next_value].
    apply ends_constant; [solve_ready|done|next_value].
    apply ends_bind, wp_bret. apply ends_emit; [cbn; lia|split; [done|split; [done|by left]]|].
    destruct (test_branch i true s) as [taken s'] eqn:Et. cbn [fst snd] in *.
    split; [done|]. split_and!; [done|done|]. eexists. split; [by lookup_args|]. intros s2.
    rewrite exec_branch by by right; left. unfold exec_control. cbn -[bool_of u32]. rewrite bool_of_tbool. cbn -[u32].
    rewrite u32_small by done. by destruct taken.
  - unfold lift_bclrx, link. rewrite Hlk. apply ends_bind. apply wp_read_lr; [solve_ready|done|next_value].
    apply ends_bind. apply wp_branch_condition; [solve_ready|done|next_value].
    apply ends_bind, wp_bret. apply ends_emit; [cbn; lia|by split|].
    destruct (test_branch i true s) as [taken s'] eqn:Et. cbn [fst snd] in *.
    split; [done|]. split_and!; [done|done|]. eexists. split; [by lookup_args|]. intros s2.
    rewrite exec_branch by by right; right. unfold exec_control. cbn -[bool_of u32]. rewrite bool_of_tbool. cbn -[u32].
    by destruct taken.
Qed.
End Condition.

(** ** Runs of guest instructions *)

(** An unlinked branch of the catalogue. *)
Definition transfers (i : DecodedInstruction) : Prop :=
  leaf_transfer i = true /\ exists info, di_info i = Some info /\ info ∈ kCatalog.

(** Integer instructions, and perhaps a branch at the end. *)
Fixpoint leaf_run (run : Decoded) : Prop :=
  match run with
  | [] => True
  | x :: run => (agrees x.2 /\ leaf_run run) \/ (transfers x.2 /\ run = [])
  end.

Definition guest_step (i : DecodedInstruction) (s : CpuState) : Flow * CpuState :=
  if leaf_transfer i then transfer i s else (Falls, interpreted i s).

(** The instructions in turn, up to a branch that is taken. *)
Fixpoint guest_run (run : Decoded) (s : CpuState) : Flow * CpuState :=
  match run with
  | [] => (Falls, s)
  | x :: run =>
      let '(f, s) := guest_step x.2 s in
      match f with Falls => guest_run run s | _ => (f, s) end
  end.

Lemma transfers_branch i : transfers i -> exists info, di_info i = Some info /\ oi_group info = GBranch.
Proof.
  assert (Hc : forallb (λ info, negb (one_of (oi_mnemonic info) ["bx"; "bcx"; "bclrx"])
    || bool_decide (oi_group info = GBranch)) kCatalog = true) by (vm_compute; reflexivity).
  rewrite forallb_forall in Hc. intros (Hl & info & Hi & Hin). exists info. split; [done|].
  apply andb_true_iff in Hl as [Hm _]. unfold mnemonic in Hm. rewrite Hi in Hm.
  apply list_elem_of_In, Hc in Hin. rewrite Hm in Hin. by apply bool_decide_eq_true in Hin.
Qed.

Lemma agrees_no_transfer i : agrees i -> leaf_transfer i = false.
Proof.
  intros (Hc & info & Hi & Hin). destruct (leaf_transfer i) eqn:Ht; [|done].
  destruct (transfers_branch i) as (info' & Hi' & Hg'); [split; eauto|]. assert (info' = info) as -> by congruence.
  assert (Hg : oi_group info = GInteger); [|congruence]. apply interpreted_group; [done|].
  unfold comparable in Hc. rewrite !andb_true_iff in Hc. destruct Hc as (((Hm & _) & _) & _). unfold mnemonic in Hm. by rewrite Hi in Hm.
Qed.

Section Runs.
Context {W : Type} `{MemoryPort W, RuntimeServices W, HostHelpers W}.
Context (fuel : nat) (w : W) (g : option GuestAddress).

Lemma lift_transfers i st e s :
  transfers i -> bl_current_guest st = None -> ready budget st e -> wf_state s ->
  exists st' l br e',
    lift i st = Some (true, st') /\ bl_instructions st' = bl_instructions st ++ l ++ [br] /\
    appended fuel w g (bl_next_value st) (bl_next_value st') l e e' s (transfer i s).2 /\
    leaf_branch (consts l) br /\ decides_flow fuel w i (transfer i s).1 br e'.
Proof.
  intros Ht Hg Hr Hs. destruct (transfers_branch i Ht) as (info & Hi & Hgroup). destruct Ht as [Hl _].
  set (st0 := mkBuilder (bl_instructions st) (bl_next_value st) (Some i)).
  assert (Hr0 : ready 16 st0 e) by (destruct Hr; constructor; cbn; unfold budget in *; (done || lia)).
  destruct (transfer_ends fuel w g i st0 e s Hl Hr0 Hs) as (st1 & l & br & e' & s' & E & I & A & Hb & -> & Hd).
  exists (mkBuilder (bl_instructions st1) (bl_next_value st1) None), l, br, e'. rewrite app_nil_r in Hb.
  split_and!; try done. unfold lift. rewrite Hi, Hgroup. unfold bbind, set_guest. cbn [lift_group]. fold st0. by rewrite E.
Qed.

(** What a run becomes. *)
Definition run_becomes (run : Decoded) (n n' : Z) (l : list Instruction) (e : Env) (s : CpuState) : Prop :=
  ((guest_run run s).1 = Falls /\ (exists a i, last run = Some (a, i) /\ leaf_transfer i = false) /\
    exists e', appended fuel w g n n' l e e' s (guest_run run s).2) \/
  exists l0 br e' a i, l = l0 ++ [br] /\ last run = Some (a, i) /\ transfers i /\
    appended fuel w g n n' l0 e e' s (guest_run run s).2 /\ leaf_branch (consts l0) br /\
    decides_flow fuel w i (guest_run run s).1 br e'.

Lemma guest_step_agrees i s : agrees i -> guest_step i s = (Falls, interpreted i s).
Proof using Type. intros Hi. unfold guest_step. by rewrite agrees_no_transfer. Qed.

Lemma run_becomes_cons a i run n1 n2 n3 l1 l2 e e1 s :
  agrees i -> run <> [] -> appended fuel w g n1 n2 l1 e e1 s (interpreted i s) ->
  run_becomes run n2 n3 l2 e1 (interpreted i s) -> run_becomes ((a, i) :: run) n1 n3 (l1 ++ l2) e s.
Proof using Type.
  intros Hi Hne A1 Hr. unfold run_becomes. cbn [guest_run snd]. rewrite guest_step_agrees by done.
  destruct Hr as [(Hf & Hlast & e2 & A2)|(l0 & br & e2 & b & j & -> & Hlast & Ht & A2 & Hb & Hd)].
  - left. split_and!; [done|by destruct run|]. exists e2. by eapply appended_app.
  - right. exists (l1 ++ l0), br, e2, b, j. split_and!; try done.
    + by rewrite <- app_assoc.
    + by destruct run.
    + by eapply appended_app.
    + eapply leaf_branch_mono; [|exact Hb]. rewrite consts_app. set_solver.
Qed.

Lemma lift_run_leaf leader rest st' : forall run st e s,
  lift_run leader (run ++ rest) st = inr (st', rest) -> run <> [] -> leaf_run run ->
  bl_current_guest st = None -> ready (budget * Z.of_nat (length run)) st e -> wf_state s ->
  exists l, bl_instructions st' = bl_instructions st ++ l /\
    run_becomes run (bl_next_value st) (bl_next_value st') l e s.
Proof.
  induction run as [|[a i] run IH]; intros st e s E Hne Hrun Hg Hr Hs; [done|].
  cbn [length] in Hr. unfold budget in Hr.
  assert (Hr1 : ready budget st e) by (eapply ready_weaken; [|exact Hr]; unfold budget; lia).
  destruct (lift_run_inv _ _ _ _ _ _ _ E) as (st1 & E1 & Hrest). destruct Hrun as [[Hi Hrun]|[Ht ->]].
  - destruct (lift_agrees fuel w g i st e s Hi Hg Hr1 Hs) as (st2 & l1 & e1 & E2 & I1 & G1 & A1 & Haft).
    assert (st2 = st1) as -> by congruence.
    destruct Hrest as [[-> ->]|[Hrne Erest]].
    { exists l1. split; [done|]. left. cbn [guest_run snd]. rewrite guest_step_agrees by done.
      split_and!; [done| |by eauto]. exists a, i. split; [done|by apply agrees_no_transfer]. }
    assert (Hr2 : ready (budget * Z.of_nat (length run)) st1 e1).
    { eapply after_ready; [exact Haft|]. eapply ready_weaken; [|exact Hr]. unfold budget. lia. }
    destruct (IH st1 e1 (interpreted i s) Erest Hrne Hrun G1 Hr2 (interpreted_wf i s Hs)) as (l2 & I2 & Hb).
    exists (l1 ++ l2). split; [by rewrite I2, I1, app_assoc|]. by eapply run_becomes_cons.
  - destruct Hrest as [[_ ->]|[]]; [|done].
    destruct (lift_transfers i st e s Ht Hg Hr1 Hs) as (st2 & l & br & e' & E2 & I & A & Hb & Hd).
    assert (st2 = st') as -> by congruence.
    exists (l ++ [br]). split; [done|]. right. exists l, br, e', a, i. cbn [guest_run snd]. unfold guest_step.
    cbn [snd] in Ht. rewrite (proj1 Ht). destruct (transfer i s) as [f s'] eqn:Ef. by split_and!; try done; destruct f.
Qed.

(** ** What a lifted leaf block does *)

Definition at_branch (a : GuestAddress) (s : CpuState) : CpuState := set_nia (u32 (a + 4)) (set_cia a s).

(** A body either is integer code that falls through, or ends in a branch at [a]. *)
Definition leaf_outcome (run : Decoded) (s : CpuState) : Outcome W :=
  let '(f, s') := guest_run run s in
  match last run with
  | Some (a, i) =>
      if leaf_transfer i then
        match f with
        | Falls => FellThrough (mkMachine (at_branch a s') w (Some a))
        | Jumps t => Left_ (Some (mkResult RBranch t 0)) (set_nia t (at_branch a s')) w
        | Returns t => Left_ (Some (mkResult RReturn t 0)) (set_nia t (at_branch a s')) w
        end
      else FellThrough (mkMachine s' w None)
  | None => FellThrough (mkMachine s' w None)
  end.

Lemma leaf_run_last run a i : leaf_run run -> last run = Some (a, i) -> agrees i \/ transfers i.
Proof using Type.
  induction run as [|x run IH]; [done|]. intros [[Hx Hr]|[Hx ->]] Hl; [|cbn in Hl; injection Hl as ->; by right].
  destruct run as [|y run]; [cbn in Hl; injection Hl as ->; by left|]. by apply IH.
Qed.

Lemma branch_boundary K br : leaf_branch K br -> pc_boundary (i_op br) = true.
Proof using Type. intros [_ Hb]. by destruct (i_op br). Qed.

Lemma transfers_source i : transfers i -> kInvalid (opcode_id i) = false.
Proof using Type.
  intros (_ & info & Hi & Hrow). destruct (row_facts i info Hi Hrow) as (_ & _ & _ & Hv).
  unfold opcode_id, kInvalid. rewrite Hi. unfold opcode_valid in Hv. by apply negb_true_iff in Hv.
Qed.
End Runs.

Section Lifted.
Context {W : Type} `{MemoryPort W, RuntimeServices W, HostHelpers W}.
Context (fuel : nat) (w : W).

Lemma becomes_leaf run n n' l s : run_becomes fuel w None run n n' l ∅ s -> leaf [] l.
Proof using Type.
  unfold run_becomes. intros [(_ & _ & e' & A)|(l0 & br & e' & a & i & -> & _ & _ & A & Hb & _)].
  - apply leaf_straight, (ap_quiet _ _ _ _ _ _ _ _ _ _ A).
  - apply leaf_app; [apply (ap_quiet _ _ _ _ _ _ _ _ _ _ A)|]. right. by rewrite app_nil_r.
Qed.

Lemma becomes_outcome run n n' l s :
  leaf_run run -> Forall (λ x, di_address x.2 = x.1) run ->
  run_becomes fuel w None run n n' l ∅ s -> run_body fuel Lifted l (mkMachine s w None) = Some (leaf_outcome w run s).
Proof using Type.
  intros Hrun Hadr Hb. unfold run_body, leaf_outcome.
  destruct Hb as [(Hf & (a & i & -> & ->) & e' & A)|(l0 & br & e' & a & i & -> & Hlast & Ht & A & Hb & (Hga & Hgo & vs & Hvs & Hx))].
  - rewrite (ap_exec _ _ _ _ _ _ _ _ _ _ A). destruct (guest_run run s) as [f s'] eqn:E. cbn [fst snd] in *. by subst f.
  - rewrite Hlast, (proj1 Ht), exec_list_app, (ap_exec _ _ _ _ _ _ _ _ _ _ A). cbn [mbind option_bind].
    rewrite exec_list_one. destruct (guest_run run s) as [f s'] eqn:E. cbn [fst snd] in *.
    assert (Ha : di_address i = a).
    { rewrite Forall_forall in Hadr. by apply (Hadr (a, i)), last_Some_elem_of. }
    unfold exec_one. rewrite Hvs. cbn [mbind option_bind].
    assert (Hpc : emit_guest_pc br (mkMachine s' w None) = mkMachine (at_branch a s') w (Some a)).
    { unfold emit_guest_pc, has_guest_source. rewrite (branch_boundary _ _ Hb), Hgo, (transfers_source i Ht), Hga, Ha.
      reflexivity. }
    rewrite Hpc. cbn [m_cpu m_world m_materialized]. rewrite Hx. destruct Hb as [Hr _].
    destruct f; cbn; unfold bind_result; by rewrite ?Hr.
Qed.
End Lifted.

(** ** States up to the program counters

    Compiled code stores CIA and NIA at fewer places than the interpreter, and no
    instruction of a leaf function reads them. *)

Definition pc_eq (s s' : CpuState) : Prop := s' = aside (lr s) (cia s') (nia s') s.

#[export] Instance pc_eq_equivalence : Equivalence pc_eq.
Proof.
  unfold pc_eq. split.
  - intros s. symmetry. apply aside_self.
  - intros s s' E. rewrite E. cbn. rewrite aside_twice. symmetry. apply aside_self.
  - intros s1 s2 s3 E1 E2. rewrite E2 at 1. rewrite E1. cbn. by rewrite aside_twice.
Qed.

Lemma pc_eq_lr s s' : pc_eq s s' -> lr s' = lr s.
Proof. by intros ->. Qed.
Lemma pc_eq_moved c n s : pc_eq s (set_nia n (set_cia c s)).
Proof. done. Qed.
Lemma pc_eq_nia n s : pc_eq s (set_nia n s).
Proof. done. Qed.
Lemma pc_eq_cia c s : pc_eq s (set_cia c s).
Proof. done. Qed.
Lemma pc_eq_set c n s s' : pc_eq s s' -> set_nia n (set_cia c s') = set_nia n (set_cia c s).
Proof. by intros ->. Qed.

Lemma pc_eq_wf s s' : pc_eq s s' -> wf_state s -> wf_state s'.
Proof. intros -> []. by constructor. Qed.

Lemma test_branch_aside l c n i use_ctr s :
  test_branch i use_ctr (aside l c n s) = ((test_branch i use_ctr s).1, aside l c n (test_branch i use_ctr s).2).
Proof. unfold test_branch. by destruct (use_ctr && negb (bo_set i 4)). Qed.

Lemma transfer_aside c n i s :
  transfer i (aside (lr s) c n s) = ((transfer i s).1, aside (lr s) c n (transfer i s).2).
Proof.
  unfold transfer. destruct (String.eqb (mnemonic i) "bx"); [done|]. rewrite test_branch_aside.
  by destruct (test_branch i true s) as [[] s1].
Qed.

Lemma transfer_wf i s : wf_state s -> wf_state (transfer i s).2.
Proof.
  intros Hs. unfold transfer, test_branch. destruct (String.eqb (mnemonic i) "bx"); [done|].
  destruct (true && negb (bo_set i 4)); cbn; [|done]. destruct Hs. constructor; try done. apply u64_range.
Qed.

Lemma transfer_lr i s : lr (transfer i s).2 = lr s.
Proof.
  unfold transfer, test_branch. destruct (String.eqb (mnemonic i) "bx"); [done|].
  by destruct (true && negb (bo_set i 4)).
Qed.

Lemma guest_step_pc i s s' :
  pc_eq s s' -> (guest_step i s').1 = (guest_step i s).1 /\ pc_eq (guest_step i s).2 (guest_step i s').2.
Proof.
  intros E. unfold guest_step, interpreted. destruct (leaf_transfer i); cbn [fst snd]; rewrite E.
  - rewrite transfer_aside. cbn [fst snd]. split; [done|]. rewrite <- (transfer_lr i s). done.
  - rewrite execute_integer_aside. cbn [fst snd]. split; [done|]. rewrite <- (execute_integer_lr i s). done.
Qed.

Lemma guest_run_pc run : forall s s',
  pc_eq s s' -> (guest_run run s').1 = (guest_run run s).1 /\ pc_eq (guest_run run s).2 (guest_run run s').2.
Proof.
  induction run as [|x run IH]; intros s s' E; [done|]. cbn. destruct (guest_step_pc x.2 s s' E) as [Hf Hs].
  destruct (guest_step x.2 s) as [f s1], (guest_step x.2 s') as [f' s1']. cbn [fst snd] in *. subst f'.
  destruct f; [by apply IH|done..].
Qed.

Lemma guest_step_keeps i s : wf_state s -> wf_state (guest_step i s).2 /\ lr (guest_step i s).2 = lr s.
Proof.
  intros Hs. unfold guest_step. destruct (leaf_transfer i); cbn [snd].
  - split; [by apply transfer_wf|apply transfer_lr].
  - split; [by apply interpreted_wf|apply execute_integer_lr].
Qed.

Lemma guest_run_keeps run s : wf_state s -> wf_state (guest_run run s).2 /\ lr (guest_run run s).2 = lr s.
Proof.
  revert s. induction run as [|x run IH]; intros s Hs; [done|]. cbn.
  destruct (guest_step_keeps x.2 s Hs) as [H1 H2]. destruct (guest_step x.2 s) as [f s1]. cbn [snd] in *.
  destruct f; [|done..]. destruct (IH s1 H1) as [H3 H4]. split; [done|congruence].
Qed.
