(* ===== verification/LeafBlock.v ===== *)
(** * Leaf blocks in the generated function

    How a leaf block runs inside the generated function ([EmitFunction]) compared
    with the body alone ([IrSem.run_body]): a branch to a local block is a jump. *)

From S2P Require Import Prelude.
From S2P Require Import Words.
From S2P Require Import Instr.
From S2P Require Import CpuState.
From S2P Require Import Ir.
From S2P Require Import IrValue.
From S2P Require Import Services.
From S2P Require Import IrSem.
From S2P Require Import IrRefine.
From S2P Require Import PassSim.
From S2P Require Import Promote.
From S2P Require Import PromoteSlots.
From S2P Require Import LiftWp.
From S2P Require Import Verifier.
From S2P Require Import ControlFlow.
From S2P Require Import EmitFunction.
From S2P Require Import LeafShape.
From S2P Require Import LeafLift.

Section Exec.
Context {W : Type} `{MemoryPort W, RuntimeServices W, HostHelpers W}.
Context (fuel : nat) (mode : Mode).

(** ** Constants and their variables *)

Lemma exec_one_fresh n i e (m : Machine W) e1 m1 :
  inst_ok n i = true -> exec_one fuel mode i e m = Some (Continue e1 m1) ->
  (forall r, r < n -> e1 !! r = e !! r) /\
  (i_op i = Op.Constant -> i_result i <> kNoValue /\ e1 !! i_result i = IrValue.constant_value (i_type i) (i_imm0 i)).
Proof.
  intros Hi E. unfold exec_one in E. destruct (mapM _ _) as [vs|]; [|done]. cbn [mbind option_bind] in E.
  set (m0 := emit_guest_pc i m) in *.
  destruct (exec_inst fuel mode i vs (m_cpu m0) (m_world m0)) as [[v s w|]|] eqn:Ex; [|done..]. cbn [mbind option_bind] in E.
  unfold bind_result in E. destruct (Z.eqb_spec (i_result i) kNoValue) as [Hv|Hne].
  - destruct v as [v|]; [done|]. cbn in E. injection E as <- _. split; [done|]. intros Hop.
    unfold exec_inst in Ex. rewrite Hop in Ex. cbn in Ex. unfold eval_pure in Ex. rewrite Hop in Ex.
    destruct vs; [|done]. by destruct (IrValue.constant_value _ _).
  - destruct v as [v|]; [|done]. cbn in E. injection E as <- _. pose proof (inst_ok_result n i Hi Hne). split.
    + intros r Hr. rewrite lookup_insert_ne by lia. done.
    + intros Hop. split; [done|]. rewrite lookup_insert_eq.
      unfold exec_inst in Ex. rewrite Hop in Ex. cbn in Ex. unfold eval_pure in Ex. rewrite Hop in Ex.
      destruct vs; [|done]. destruct (IrValue.constant_value _ _); [|done]. by injection Ex as ->.
Qed.

(** After straight code every constant holds its value. *)
Lemma exec_constants l : forall n e (m : Machine W) e1 m1,
  ssa n l = true -> exec_list fuel mode l e m = Some (Continue e1 m1) ->
  (forall r, r < n -> e1 !! r = e !! r) /\
  forall i, i ∈ l -> i_op i = Op.Constant -> i_result i <> kNoValue /\ e1 !! i_result i = IrValue.constant_value (i_type i) (i_imm0 i).
Proof.
  induction l as [|i l IH]; intros n e m e1 m1 Hs E.
  { cbn in E. injection E as <- _. split; [done|]. by intros i ?%elem_of_nil. }
  apply ssa_cons in Hs as [Hi Hs]. cbn [exec_list] in E.
  destruct (exec_one fuel mode i e m) as [[e2 m2|]|] eqn:E1; [|done..]. cbn [mbind option_bind] in E.
  destruct (exec_one_fresh n i e m e2 m2 Hi E1) as [Hf Hc]. destruct (IH _ _ _ _ _ Hs E) as [IHf IHc].
  pose proof (next_id_ge n i Hi) as Hge. split.
  - intros r Hr. rewrite IHf by lia. by apply Hf.
  - intros j [->|Hj]%elem_of_cons Hop; [|by apply IHc]. destruct (Hc Hop) as [Hne Hv]. split; [done|].
    rewrite IHf; [done|]. rewrite next_id_result by done. lia.
Qed.

(** Straight code does not leave the block. *)
Lemma straight_inst i vs s (w : W) x s' w' : straight i -> exec_inst fuel mode i vs s w <> Some (Exit x s' w').
Proof using Type.
  unfold straight. intros Hs. destruct (requires_materialization (i_op i)) eqn:Hm; [|by apply calm_next].
  assert (Hop : i_op i = Op.WriteSPR) by (by destruct (i_op i)).
  unfold exec_inst. rewrite Hop. cbn -[exec_control]. unfold exec_control. rewrite Hop.
  destruct vs as [|v [|]]; [done| |done]. destruct (exact I64 v); [|done]. cbn.
  by destruct (rt_write_spr _ _ _ _).
Qed.

Lemma straight_list l : forall e (m : Machine W) x s w,
  Forall straight l -> exec_list fuel mode l e m <> Some (Leave x s w).
Proof using Type.
  induction l as [|i l IH]; intros e m x s w Hs; [done|]. apply Forall_cons in Hs as [Hi Hs]. cbn [exec_list].
  unfold exec_one. destruct (mapM _ _) as [vs|]; [|done]. cbn [mbind option_bind].
  set (m0 := emit_guest_pc i m).
  destruct (exec_inst fuel mode i vs (m_cpu m0) (m_world m0)) as [[v s' w'|x' s' w']|] eqn:Ex; [| |done].
  - cbn [mbind option_bind]. destruct (bind_result i v e); [|done]. cbn [mbind option_bind]. by apply IH.
  - exfalso. by apply (straight_inst i vs (m_cpu m0) (m_world m0) x' s' w').
Qed.

(** Once constants are executed, looking one up in the block finds its value. *)
Definition knows (l : list Instruction) (e : Env) : Prop :=
  forall i, i ∈ l -> i_op i = Op.Constant -> e !! i_result i = IrValue.constant_value (i_type i) (i_imm0 i).

Lemma constant_found b a imm :
  constant_value b a = Some imm ->
  exists i, i ∈ b_instructions b /\ i_op i = Op.Constant /\ i_result i = a /\ i_imm0 i = imm.
Proof using Type.
  unfold constant_value. destruct (List.find _ _) as [i|] eqn:Ef; [|done]. cbn. intros [= <-].
  apply find_some in Ef as [Hin Hc]. apply andb_true_iff in Hc as [Hr%Z.eqb_eq Hop%bool_decide_eq_true].
  exists i. by rewrite list_elem_of_In.
Qed.

Lemma constant_finds b i :
  i ∈ b_instructions b -> i_op i = Op.Constant -> exists imm, constant_value b (i_result i) = Some imm.
Proof using Type.
  intros Hin Hop. unfold constant_value. destruct (List.find _ _) as [j|] eqn:Ef; [by eexists|].
  apply list_elem_of_In in Hin. pose proof (find_none _ _ Ef i Hin) as Hn. cbn in Hn.
  rewrite Z.eqb_refl, bool_decide_eq_true_2 in Hn by done. done.
Qed.

(** A 64-bit constant of straight code that ran is what the emitter takes for it. *)
Lemma target_known b l br e a v :
  b_instructions b = l ++ [br] -> i_op br <> Op.Constant -> knows l e -> a ∈ consts l ->
  e !! a = Some v -> u32 <$> constant_value b a = address_of v.
Proof using Type.
  intros Hb Hbr Hk Ha Hv. apply elem_of_consts in Ha as (i & Hi & Hc).
  apply elem_of_const_result in Hc as (Hop & Hty & Hne & ->).
  destruct (constant_finds b i) as [imm Him]; [rewrite Hb; set_solver|done|]. rewrite Him. cbn.
  apply constant_found in Him as (j & Hj & Hjop & Hjr & <-). rewrite Hb in Hj.
  apply elem_of_app in Hj as [Hj| ->%list_elem_of_singleton]; [|done].
  pose proof (Hk i Hi Hop) as Hvi. pose proof (Hk j Hj Hjop) as Hvj. rewrite Hjr, Hv in Hvj. rewrite Hv in Hvi.
  rewrite Hty in Hvi. cbn in Hvi. injection Hvi as ->. cbn.
  destruct (i_type j); cbn in Hvj; try done; injection Hvj as Hvj; f_equal.
  rewrite Hvj. change (wrap I64 (i_imm0 j)) with (u64 (i_imm0 j)). word_lia.
Qed.

End Exec.

(** ** In the generated function *)

Section InFunction.
Context {W : Type} `{MemoryPort W, RuntimeServices W, HostHelpers W}.
Context (fuel : nat) (f : Function) (direct_calls : list (GuestAddress * Service W)).
Context (dispatch : GuestAddress -> CpuState -> W -> option (option ExecutionResult * CpuState * W)).
(** Polling at a loop's back edge finds nothing to do. *)
Hypothesis Hpoll : forall s w, rt_poll_safepoint (W := W) s w = (true, s, w).

Abbreviation exec_body_in := (exec_body_in fuel f direct_calls dispatch).
Abbreviation exec_one_in := (exec_one_in fuel f direct_calls dispatch).

Lemma exec_body_in_app mode b l1 l2 e m :
  exec_body_in mode b (l1 ++ l2) e m =
    (r ← exec_body_in mode b l1 e m; match r with Ran e m => exec_body_in mode b l2 e m | r => Some r end).
Proof using Type.
  revert e m. induction l1 as [|i l1 IH]; intros e m; [done|]. cbn. destruct (exec_one_in mode b i e m) as [[]|]; cbn; auto.
Qed.

Lemma straight_in mode b l : forall e m e' m',
  Forall straight l -> exec_list fuel mode l e m = Some (Continue e' m') -> exec_body_in mode b l e m = Some (Ran e' m').
Proof using Type.
  induction l as [|i l IH]; intros e m e' m' Hs E; [by injection E as <- <-|]. apply Forall_cons in Hs as [Hi Hs].
  cbn [exec_list] in E. destruct (exec_one fuel mode i e m) as [[e1 m1|]|] eqn:E1; [|done..]. cbn [mbind option_bind] in E.
  cbn [exec_body_in]. assert (exec_one_in mode b i e m = Some (Ran e1 m1)) as ->; [|by apply IH].
  unfold exec_one in E1. unfold EmitFunction.exec_one_in. destruct (mapM _ _) as [vs|]; [|done]. cbn [mbind option_bind] in *.
  set (m0 := emit_guest_pc i m) in *.
  assert (exec_in_function fuel f direct_calls dispatch mode b i vs (m_cpu m0) (m_world m0) =
    of_step <$> exec_inst fuel mode i vs (m_cpu m0) (m_world m0)) as ->.
  { unfold exec_in_function, direct_target. unfold straight in Hi. by destruct (i_op i). }
  destruct (exec_inst fuel mode i vs (m_cpu m0) (m_world m0)) as [[v s w|x s w]|]; [|done..]. cbn in *.
  destruct (bind_result i v e); [|done]. cbn in *. by injection E1 as <- <-.
Qed.

Lemma take_local i b target s w :
  is_local f target = true -> take_branch f i b target s w = FGoto target (set_nia target s) w.
Proof using Hpoll.
  intros Hl. unfold take_branch. rewrite Hl. destruct (is_back_edge i b target); [|done]. unfold poll_goto. by rewrite Hpoll.
Qed.

(** What a leaf block's branch does in the function: a jump, when the target is local. *)
Definition step_in (r : Step W) : FunctionStep W :=
  match r with
  | Exit (Some r) s w => if reason_is RBranch r then FGoto (er_next_address r) s w else FExit (Some r) s w
  | r => of_step r
  end.

Definition stays_local (r : Step W) : Prop :=
  forall t s w, r = Exit (Some (mkResult RBranch t 0)) s w -> is_local f t = true.

Lemma branch_in mode b l br e vs s w r :
  b_instructions b = l ++ [br] -> leaf_branch (consts l) br -> knows l e ->
  mapM (e !!.) (i_args br) = Some vs -> exec_inst fuel mode br vs s w = Some r -> stays_local r ->
  exec_in_function fuel f direct_calls dispatch mode b br vs s w = Some (step_in r).
Proof using Hpoll.
  intros Hb Hbr Hk Hvs Hx Hloc. destruct Hbr as [Hr Hbr].
  assert (Hne : i_op br <> Op.Constant) by (intros Ho; by rewrite Ho in Hbr).
  assert (Hc : exec_inst fuel mode br vs s w = exec_control fuel br vs s w).
  { unfold exec_inst. by destruct (i_op br). }
  assert (Htarget : forall a v, a ∈ consts l -> e !! a = Some v -> u32 <$> constant_value b a = address_of v).
  { intros a v. by eapply target_known. }
  rewrite Hc in Hx. unfold exec_in_function, direct_target. unfold exec_control in Hx.
  destruct (i_op br) eqn:Hop; try done; destruct (i_args br) as [|a [|a2 [|]]]; try done; cbn in Hvs.
  - destruct (e !! a) as [v|] eqn:Hv; [|done]. cbn in Hvs. injection Hvs as <-. rewrite (Htarget a v Hbr Hv).
    destruct (address_of v) as [t|]; [|done]. cbn in Hx. injection Hx as <-.
    rewrite take_local by by eapply Hloc. done.
  - destruct (e !! a) as [c|] eqn:Hcv; [|done]. destruct (e !! a2) as [v|] eqn:Hv; [|done]. cbn in Hvs. injection Hvs as <-.
    destruct Hbr as [H0' Ha]. rewrite H0' in *. cbn [Z.eqb orb]. rewrite (Htarget a2 v Ha Hv). cbn [mbind option_bind] in Hx.
    destruct (bool_of c) as [taken|]; [|done]. destruct (address_of v) as [t|]; [|done]. cbn in Hx |- *.
    destruct taken; injection Hx as <-; [|done]. by rewrite take_local by by eapply Hloc.
  - destruct (e !! a) as [c|] eqn:Hcv; [|done]. destruct (e !! a2) as [v|] eqn:Hv; [|done]. cbn in Hvs. injection Hvs as <-.
    destruct Hbr as [H0' H1']. rewrite H0', H1'. cbn [Z.eqb negb]. rewrite Hc. unfold exec_control. rewrite Hop, H0', H1'.
    cbn [mbind option_bind] in *. rewrite H0', H1' in Hx.
    destruct (bool_of c) as [taken|]; [|done]. destruct (any_int v) as [t|]; [|done]. cbn in Hx |- *.
    destruct taken; injection Hx as <-; done.
Qed.

Lemma executed_knows mode l (m : Machine W) e' m' :
  ssa 0 l = true -> exec_list fuel mode l ∅ m = Some (Continue e' m') -> knows l e'.
Proof using Type.
  intros Hs E. destruct (exec_constants fuel mode l 0 ∅ m e' m' Hs E) as [_ Hc]. intros i Hi Hop. by apply Hc.
Qed.

(** A block that falls through has no exit it is sure to take. *)
Definition is_exit (b : Block) (i : Instruction) : bool :=
  match i_op i with
  | Op.Branch | Op.Return | Op.Syscall => true
  | Op.Barrier => i_imm0 i =? 4
  | Op.BranchIf | Op.BranchIndirect =>
      (i_imm0 i =? 0) &&
      match i_args i with
      | c :: _ => match constant_value b c with Some v => negb (v =? 0) | None => false end
      | [] => false
      end
  | _ => false
  end.

Lemma straight_not_terminal (b : Block) i : straight i -> is_exit b i = false.
Proof using Type. unfold straight, is_exit. by destruct (i_op i). Qed.

(** A condition the emitter takes for a constant is that constant. *)
Lemma condition_constant i (e : Env) c v taken :
  i_op i = Op.Constant -> e !! i_result i = IrValue.constant_value (i_type i) (i_imm0 i) -> i_result i = c ->
  e !! c = Some v -> bool_of v = Some taken -> negb (i_imm0 i =? 0) = taken.
Proof using Type.
  intros Hop Hv <- Hc Hb. rewrite Hc in Hv. destruct (i_type i); cbn in Hv; try done; injection Hv as ->; try done.
  by destruct (i_imm0 i =? 0), taken.
Qed.

Lemma condition_known b l br e c v :
  b_instructions b = l ++ [br] -> i_op br <> Op.Constant -> knows l e -> e !! c = Some v -> bool_of v = Some false ->
  match constant_value b c with Some v => negb (v =? 0) | None => false end = false.
Proof using Type.
  intros Hb Hbr Hk Hc Hf. destruct (constant_value b c) as [imm|] eqn:Hi; [|done].
  apply constant_found in Hi as (i & Hi & Hop & Hr & <-). rewrite Hb in Hi.
  apply elem_of_app in Hi as [Hi| ->%list_elem_of_singleton]; [|done].
  by eapply condition_constant; [done|by apply Hk|done..].
Qed.

Lemma straight_exits b l : Forall straight l -> existsb (is_exit b) l = false.
Proof using Type.
  induction 1 as [|i l Hi _ IH]; [done|]. cbn [existsb]. by rewrite straight_not_terminal, IH.
Qed.

Lemma branch_not_taken mode b l br e vs s w v s' w' :
  b_instructions b = l ++ [br] -> Forall straight l -> leaf_branch (consts l) br -> knows l e ->
  mapM (e !!.) (i_args br) = Some vs -> exec_inst fuel mode br vs s w = Some (Next v s' w') ->
  is_guaranteed_terminal b = false.
Proof using Type.
  intros Hb Hl [Hr Hbr] Hk Hvs Hx.
  assert (Hne : i_op br <> Op.Constant) by (intros Ho; by rewrite Ho in Hbr).
  assert (Hc : exec_inst fuel mode br vs s w = exec_control fuel br vs s w).
  { unfold exec_inst. by destruct (i_op br). }
  rewrite Hc in Hx. unfold is_guaranteed_terminal. change (existsb (is_exit b) (b_instructions b) = false).
  rewrite Hb, existsb_app, straight_exits by done. cbn [existsb orb]. rewrite orb_false_r. unfold is_exit, exec_control in *.
  assert (Hcond : forall c v, e !! c = Some v -> bool_of v = Some false ->
    match constant_value b c with Some v => negb (v =? 0) | None => false end = false).
  { intros c x. by eapply condition_known. }
  destruct (i_op br) eqn:Hop; try done; destruct (i_args br) as [|a [|a2 [|]]]; try done; cbn in Hvs.
  - destruct (e !! a) as [x|]; [|done]. cbn in Hvs. injection Hvs as <-. by destruct (address_of x).
  - destruct (e !! a) as [c|] eqn:Hcv; [|done]. destruct (e !! a2) as [x|]; [|done]. cbn in Hvs. injection Hvs as <-.
    destruct (bool_of c) as [taken|] eqn:Ht; [|done]. destruct (address_of x) as [t|]; [|done]. cbn in Hx.
    destruct taken; [destruct Hbr as [H0' _]; rewrite H0' in Hx; done|]. rewrite (Hcond a c Hcv Ht). by rewrite andb_false_r.
  - destruct (e !! a) as [c|] eqn:Hcv; [|done]. destruct (e !! a2) as [x|]; [|done]. cbn in Hvs. injection Hvs as <-.
    destruct (bool_of c) as [taken|] eqn:Ht; [|done]. destruct (any_int x) as [t|]; [|done]. cbn in Hx.
    destruct taken; [destruct Hbr as [H0' H1']; rewrite H0', H1' in Hx; done|]. rewrite (Hcond a c Hcv Ht). by rewrite andb_false_r.
Qed.

(** A leaf block in the function does what its body does. *)
Definition body_exit (b : Block) (o : Outcome W) (r : option (BlockExit W)) : Prop :=
  match o with
  | FellThrough m => (exists e, r = Some (Ran e m)) /\ is_guaranteed_terminal b = false
  | Left_ (Some x) s w => r = Some (if reason_is RBranch x then Jumped (er_next_address x) s w else Left_function (Some x) s w)
  | Left_ None s w => r = Some (Left_function None s w)
  end.

Lemma leaf_in mode b (m : Machine W) o :
  leaf [] (b_instructions b) -> ssa 0 (b_instructions b) = true ->
  run_body fuel mode (b_instructions b) m = Some o ->
  (forall t s w, o = Left_ (Some (mkResult RBranch t 0)) s w -> is_local f t = true) ->
  body_exit b o (exec_body_in mode b (b_instructions b) ∅ m).
Proof using Hpoll.
  intros Hl Hs E Hloc. unfold run_body in E.
  destruct (leaf_split _ _ Hl) as [Hstr|(l & br & Hb & Hstr & Hbr)].
  - destruct (exec_list fuel mode (b_instructions b) ∅ m) as [[e m'|x s w]|] eqn:Ex; [| |done].
    + injection E as <-. split; [exists e; by apply straight_in|]. change (existsb (is_exit b) (b_instructions b) = false).
      by apply straight_exits.
    + exfalso. by eapply straight_list.
  - rewrite app_nil_r in Hbr. rewrite Hb in E, Hs |- *. rewrite exec_list_app in E. rewrite exec_body_in_app.
    rewrite ssa_app in Hs. apply andb_true_iff in Hs as [Hs _].
    destruct (exec_list fuel mode l ∅ m) as [[e m1|x s w]|] eqn:Ex; [| |done].
    2:{ exfalso. by eapply straight_list. }
    rewrite (straight_in mode b l ∅ m e m1 Hstr Ex). cbn [mbind option_bind] in *. rewrite exec_list_one in E.
    pose proof (executed_knows mode l m e m1 Hs Ex) as Hk. cbn [exec_body_in].
    unfold exec_one in E. unfold EmitFunction.exec_one_in. destruct (mapM _ _) as [vs|] eqn:Hvs; [|done]. cbn [mbind option_bind] in *.
    set (m0 := emit_guest_pc br m1) in *.
    destruct (exec_inst fuel mode br vs (m_cpu m0) (m_world m0)) as [r|] eqn:Hx; [|done]. cbn [mbind option_bind] in E.
    rewrite (branch_in mode b l br e vs _ _ r Hb Hbr Hk Hvs Hx).
    2:{ intros t s w ->. cbn in E. injection E as <-. by eapply Hloc. }
    cbn [mbind option_bind]. destruct r as [v s w|[x|] s w]; cbn in *.
    + destruct (bind_result br v e) as [e2|]; [|done]. cbn in E. injection E as <-. cbn. split; [by eexists|].
      by eapply branch_not_taken.
    + injection E as <-. cbn. by destruct (reason_is RBranch x).
    + injection E as <-. done.
Qed.
End InFunction.

(** ** Branches on constants *)

Lemma block_constants_spec l c v :
  block_constants l !! c = Some v -> exists i, i ∈ l /\ i_op i = Op.Constant /\ i_result i = c /\ i_imm0 i = v.
Proof.
  unfold block_constants. revert c v. induction l as [|i l IH] using rev_ind; intros c v; [cbn; by rewrite lookup_empty|].
  rewrite foldl_app. cbn. unfold note_constant at 1. case_bool_decide as Hop; cbn [andb].
  - destruct (negb _).
    + intros [[<- <-]|[_ Hv]]%lookup_insert_Some; [exists i; set_solver|]. destruct (IH c v Hv) as (j & ? & ?). exists j. set_solver.
    + intros Hv. destruct (IH c v Hv) as (j & ? & ?). exists j. set_solver.
  - intros Hv. destruct (IH c v Hv) as (j & ? & ?). exists j. set_solver.
Qed.

Lemma simplify_straight constants l1 l2 edges :
  Forall straight l1 ->
  simplify_branches constants (l1 ++ l2) edges =
    let '(l, edges) := simplify_branches constants l2 edges in (l1 ++ l, edges).
Proof.
  intros Hs. induction Hs as [|i l1 Hi _ IH]; cbn [app simplify_branches].
  - by destruct (simplify_branches constants l2 edges).
  - assert (constant_branch constants i = None) as ->.
    { unfold constant_branch. unfold straight in Hi. by destruct (i_op i). }
    rewrite IH. by destruct (simplify_branches constants l2 edges).
Qed.

Definition is_fallthrough (e : ControlFlowEdge) : bool := e_local e && bool_decide (e_kind e = Fallthrough).

Lemma untaken_fallthrough i target edges :
  i_imm0 i = 0 -> List.find is_fallthrough (untaken_successors i target edges) = List.find is_fallthrough edges.
Proof.
  intros Hi. unfold untaken_successors, branch_kind. rewrite Hi. cbn [Z.eqb]. destruct target as [t|]; [|done].
  induction edges as [|e edges IH]; [done|]. cbn [List.filter List.find].
  destruct (negb _) eqn:Hn; cbn [List.find]; [by rewrite IH|].
  assert (is_fallthrough e = false) as ->; [|done].
  apply negb_false_iff, andb_true_iff in Hn as [Hk%bool_decide_eq_true _]. unfold is_fallthrough.
  rewrite bool_decide_eq_false_2 by by rewrite Hk. by rewrite andb_false_r.
Qed.

Section Simplified.
Context {W : Type} `{MemoryPort W, RuntimeServices W, HostHelpers W}.
Context (fuel : nat) (mode : Mode).

(** The same outcome, the program counters of a block that falls through apart. *)
Definition outcome_eq (o o' : Outcome W) : Prop :=
  match o with
  | FellThrough m => exists m', o' = FellThrough m' /\ pc_eq (m_cpu m) (m_cpu m') /\ m_world m' = m_world m
  | _ => o' = o
  end.

Lemma outcome_eq_refl o : outcome_eq o o.
Proof using Type. destruct o as [m|]; [|done]. by exists m. Qed.

Lemma emit_guest_pc_eq i (m : Machine W) : pc_eq (m_cpu (emit_guest_pc i m)) (m_cpu m) /\ m_world (emit_guest_pc i m) = m_world m.
Proof using Type. unfold emit_guest_pc. destruct (_ && _); (split; [|done]); [symmetry; apply pc_eq_moved|done]. Qed.

Lemma simplified_leaf b (m : Machine W) o :
  leaf [] (b_instructions b) -> ssa 0 (b_instructions b) = true -> run_body fuel mode (b_instructions b) m = Some o ->
  let b' := simplify_block_branches b in
  leaf [] (b_instructions b') /\ ssa 0 (b_instructions b') = true /\
  (exists o', run_body fuel mode (b_instructions b') m = Some o' /\ outcome_eq o o') /\
  ((exists m', o = FellThrough m') -> local_fallthrough b' = local_fallthrough b).
Proof using Type.
  intros Hl Hs E b'.
  assert (Hb' : forall l1 l2, b_instructions b = l1 ++ l2 -> Forall straight l1 ->
    let '(l, edges) := simplify_branches (block_constants (b_instructions b)) l2 (b_successors b) in
    b_instructions b' = l1 ++ l /\ b_successors b' = edges).
  { intros l1 l2 Hb Hl1. unfold b', simplify_block_branches.
    set (cs := block_constants _). rewrite Hb, simplify_straight by done.
    by destruct (simplify_branches _ l2 (b_successors b)). }
  assert (Hsame : b_instructions b' = b_instructions b -> b_successors b' = b_successors b ->
    leaf [] (b_instructions b') /\ ssa 0 (b_instructions b') = true /\
    (exists o', run_body fuel mode (b_instructions b') m = Some o' /\ outcome_eq o o') /\
    ((exists m', o = FellThrough m') -> local_fallthrough b' = local_fallthrough b)).
  { intros -> Hsucc. split_and!; [done|done|exists o; split; [done|apply outcome_eq_refl]|].
    intros _. unfold local_fallthrough. by rewrite Hsucc. }
  destruct (leaf_split _ _ Hl) as [Hstr|(l & br & Hb & Hstr & Hbr)].
  { destruct (Hb' (b_instructions b) [] ltac:(by rewrite app_nil_r) Hstr) as [Hi He]. apply Hsame; [|done].
    rewrite Hi. by rewrite app_nil_r. }
  rewrite app_nil_r in Hbr. pose proof (Hb' l [br] Hb Hstr) as Hsimp. cbn [simplify_branches] in Hsimp.
  destruct (constant_branch (block_constants (b_instructions b)) br) as [[taken t]|] eqn:Hcb.
  2:{ destruct Hsimp as [Hi He]. apply Hsame; [by rewrite Hi|done]. }
  (* the condition and the target, as constants and as variables *)
  destruct Hbr as [Hr Hbr]. unfold constant_branch in Hcb. destruct (i_op br) eqn:Hop; try done.
  destruct (i_args br) as [|c [|t' [|]]] eqn:Hargs; try done. destruct Hbr as [H0' Ht].
  destruct (block_constants (b_instructions b) !! c) as [v|] eqn:Hcv; [|done]. cbn in Hcb. injection Hcb as <- <-.
  apply block_constants_spec in Hcv as (j & Hj & Hjop & Hjr & Hjv). rewrite Hb in Hj.
  apply elem_of_app in Hj as [Hj| ->%list_elem_of_singleton]; [|by rewrite Hjop in Hop].
  unfold run_body in E. rewrite Hb, exec_list_app in E. rewrite Hb, ssa_app in Hs. apply andb_true_iff in Hs as [Hs Hsb].
  destruct (exec_list fuel mode l ∅ m) as [[e m1|x s w]|] eqn:Ex; [| |done].
  2:{ exfalso. by eapply straight_list. }
  cbn [mbind option_bind] in E. rewrite exec_list_one in E. pose proof (executed_knows fuel mode l m e m1 Hs Ex) as Hk.
  unfold exec_one in E. rewrite Hargs in E. cbn in E.
  destruct (e !! c) as [cv|] eqn:Hce; [|done]. destruct (e !! t') as [tv|] eqn:Hte; [|done]. cbn in E.
  set (m0 := emit_guest_pc br m1) in *.
  assert (Hx : exec_inst fuel mode br [cv; tv] (m_cpu m0) (m_world m0) = exec_control fuel br [cv; tv] (m_cpu m0) (m_world m0)).
  { unfold exec_inst. by rewrite Hop. }
  rewrite Hx in E. unfold exec_control in E. rewrite Hop, H0' in E. cbn [mbind option_bind] in E.
  destruct (bool_of cv) as [taken|] eqn:Htk; [|done]. destruct (address_of tv) as [target|] eqn:Htv; [|done]. cbn in E.
  assert (Hcond : negb (v =? 0) = taken) by (subst v; eapply condition_constant; [done|by apply Hk|done..]).
  rewrite Hcond in Hsimp. destruct taken; destruct Hsimp as [Hi He]; rewrite Hi.
  - injection E as <-. split_and!.
    + apply leaf_app; [done|]. right. split; [|done]. unfold make_taken. rewrite H0', app_nil_r. by split.
    + rewrite ssa_app, Hs. cbn [ssa andb] in Hsb |- *. rewrite andb_true_r in Hsb |- *. unfold inst_ok in *.
      apply andb_true_iff in Hsb as [Ha Hres]. unfold args_ok in Ha. rewrite Hargs in Ha. cbn [forallb] in Ha. apply andb_true_iff in Ha as [_ Ha].
      apply andb_true_iff. split; [exact Ha|]. exact Hres.
    + eexists. split; [|apply outcome_eq_refl]. unfold run_body. rewrite exec_list_app, Ex. cbn [mbind option_bind].
      rewrite exec_list_one. unfold exec_one.
      assert (Hm : emit_guest_pc (make_taken br t') m1 = m0).
      { unfold m0, emit_guest_pc, has_guest_source, make_taken. cbn [i_op i_guest_address i_guest_opcode]. by rewrite H0', Hop. }
      rewrite Hm. cbn [make_taken i_args mapM]. rewrite Hte. cbn [mbind option_bind mret option_ret].
      unfold exec_inst, make_taken, exec_control. rewrite H0'. cbn -[address_of]. by rewrite Htv.
    + intros [m' ?]. done.
  - unfold bind_result in E. rewrite Hr in E. cbn in E. injection E as <-. rewrite app_nil_r. split_and!.
    + by apply leaf_straight.
    + done.
    + eexists. split; [unfold run_body; by rewrite Ex|]. destruct (emit_guest_pc_eq br m1) as [Hp Hw].
      eexists. split; [done|]. by split.
    + intros _. unfold local_fallthrough. rewrite He. f_equal. by apply untaken_fallthrough.
Qed.
End Simplified.
