(* ===== verification/LeafStructure.v ===== *)
(** * The compiled function of a leaf

    A leaf function is its address map: [comparable] integer instructions, and unlinked
    branches into the map or to the link register. The generated code of a block does what
    its guest instructions do; every run of the map is a leaf run, every block of
    the compiled function comes from one run, and every address control goes on to
    starts a block. *)

From Stdlib Require Import Sorted.
From S2P Require Import Prelude.
From S2P Require Import Words.
From S2P Require Import Instr.
From S2P Require Import Decoder.
From S2P Require Import CpuState.
From S2P Require Import Ir.
From S2P Require Import IrValue.
From S2P Require Import Services.
From S2P Require Import IrSem.
From S2P Require Import IrRefine.
From S2P Require Import PassSim.
From S2P Require Import PromoteSlots.
From S2P Require Import Optimizer.
From S2P Require Import Lifter.
From S2P Require Import LiftWp.
From S2P Require Import IntegerParity.
From S2P Require Import IntegerAgree.
From S2P Require Import LifterControl.
From S2P Require Import LifterMemory.
From S2P Require Import ControlFlow.
From S2P Require Import FunctionCompiler.
From S2P Require Import LiftStatic.
From S2P Require Import FunctionCompilerSpec.
From S2P Require Import IntegerBlocks.
From S2P Require Import FallbackSystem.
From S2P Require Import EmitFunction.
From S2P Require Import LeafShape.
From S2P Require Import LeafLift.
From S2P Require Import LeafBlock.

(** ** One compiled block *)

Section Compiled.
Context {W : Type} `{MemoryPort W, RuntimeServices W, HostHelpers W, !PromotionLaws W}.
Context (fuel : nat) (f : Function) (direct_calls : list (GuestAddress * Service W)).
Context (dispatch : GuestAddress -> CpuState -> W -> option (option ExecutionResult * CpuState * W)).
Hypothesis Hpoll : forall s w, rt_poll_safepoint (W := W) s w = (true, s, w).

(** ** One block *)

(** The block [bc] of the function is [b], lifted from [run], after the passes. *)
Record compiled_from (leader : gset Z) (run : Decoded) (b bc : Block) : Prop := mkCompiledFrom {
  cf_nonempty : run <> [];
  cf_lifted : exists rest st, lift_run leader (run ++ rest) new_builder = inr (st, rest) /\ b_instructions b = bl_instructions st;
  cf_ok : body_ok (b_instructions b) = true;
  cf_instructions : b_instructions bc = b_instructions (simplify_block_branches (Optimizer_run b));
  cf_successors : b_successors bc = b_successors (simplify_block_branches (Optimizer_run b))
}.

Definition falls_through (o : Outcome W) : Prop := exists m, o = FellThrough m.

Lemma fallthrough_successors b b' : b_successors b = b_successors b' -> local_fallthrough b = local_fallthrough b'.
Proof using Type. unfold local_fallthrough. by intros ->. Qed.

Lemma optimised_successors b : b_successors (Optimizer_run b) = b_successors b.
Proof using Type. unfold Optimizer_run. cbv zeta. destruct b. reflexivity. Qed.

Lemma body_runs leader run b bc s w :
  compiled_from leader run b bc -> leaf_run run -> Forall (λ x, di_address x.2 = x.1) run ->
  budget * Z.of_nat (length run) <= kNoValue -> wf_state s ->
  leaf [] (b_instructions bc) /\ ssa 0 (b_instructions bc) = true /\
  (falls_through (leaf_outcome w run s) -> local_fallthrough bc = local_fallthrough b) /\
  exists o, run_body fuel Emitted (b_instructions bc) (mkMachine s w None) = Some o /\ outcome_eq (leaf_outcome w run s) o.
Proof.
  intros [Hne (rest & st & El & Hb) Hok Hi He] Hrun Hadr Hsize Hs.
  assert (Hready : ready (budget * Z.of_nat (length run)) new_builder ∅).
  { split; [apply env_ok_empty|cbn; lia|cbn; lia]. }
  destruct (lift_run_leaf fuel w None leader rest st run new_builder ∅ s El Hne Hrun eq_refl Hready Hs) as (l & Hl & Hbec).
  cbn [bl_instructions new_builder app bl_next_value] in *. rewrite Hl in Hb.
  pose proof (becomes_outcome fuel w run _ _ l s Hrun Hadr Hbec) as Hout.
  pose proof (becomes_leaf fuel w run _ _ l s Hbec) as Hleaf.
  pose proof (optimizer_correct (W := W)) as [Hook Hcorrect].
  rewrite <- Hb in Hout, Hleaf. specialize (Hcorrect fuel b _ _ Hok Hout).
  specialize (Hook b Hok). apply body_ok_spec in Hook as [Hssa _].
  pose proof (leaf_optimizer b Hok Hleaf) as Hleaf'.
  destruct (simplified_leaf fuel Emitted (Optimizer_run b) _ _ Hleaf' Hssa Hcorrect) as (Hl' & Hs' & Ho & Hft).
  rewrite Hi. split_and!; [done|done| |done]. intros Hfell.
  rewrite (fallthrough_successors _ _ He), (Hft Hfell). apply fallthrough_successors, optimised_successors.
Qed.

(** What the block does in the function, up to the program counters. *)
Definition block_goes (a : GuestAddress) (fl : Flow) (s' : CpuState) (w : W) (r : option (BlockExit W)) : Prop :=
  match fl with
  | Returns t => r = Some (Left_function (Some (mkResult RReturn t 0)) (set_nia t (at_branch a s')) w)
  | Jumps t => exists s'', r = Some (Jumped t s'' w) /\ pc_eq s' s''
  | Falls => exists s'', r = Some (Jumped (u32 (a + 4)) s'' w) /\ pc_eq s' s''
  end.

(** The addresses the run goes on to are blocks of the function. *)
Definition targets_local (a : GuestAddress) (b : Block) (fl : Flow) : Prop :=
  match fl with
  | Returns _ => True
  | Jumps t => is_local f t = true
  | Falls => local_fallthrough b = Some (u32 (a + 4))
  end.

Lemma integer_falls run a i : forall s,
  leaf_run run -> last run = Some (a, i) -> leaf_transfer i = false -> (guest_run run s).1 = Falls.
Proof using Type.
  induction run as [|x run IH]; intros s Hrun Hl Hi; [done|]. destruct Hrun as [[Hx Hrun]|[[Hx _] ->]].
  - cbn [guest_run]. rewrite guest_step_agrees by done. destruct run as [|y run]; [done|]. by apply IH.
  - cbn in Hl. injection Hl as ->. cbn in Hx. by rewrite Hi in Hx.
Qed.

Lemma close_jumps bc target (m : Machine W) :
  is_guaranteed_terminal bc = false -> local_fallthrough bc = Some target ->
  exists s'', close_block bc m = Jumped target s'' (m_world m) /\ pc_eq (m_cpu m) s''.
Proof using Type.
  intros Ht Hf. unfold close_block. rewrite Ht, Hf.
  assert (Hexit : forall g (m : Machine W), pc_eq (m_cpu m) (m_cpu (emit_exit_pc g m)) /\ m_world (emit_exit_pc g m) = m_world m).
  { intros g m0. unfold emit_exit_pc. destruct g as [g|]; [|done]. case_bool_decide; [done|]. split; [apply pc_eq_cia|done]. }
  set (m1 := emit_exit_pc (last_guest (b_instructions bc)) m). destruct (Hexit (last_guest (b_instructions bc)) m) as [E1 W1]. fold m1 in E1, W1.
  assert (E2 : pc_eq (m_cpu m1) (m_cpu (final_cia bc m1)) /\ m_world (final_cia bc m1) = m_world m1).
  { unfold final_cia. destruct (_ && _); [apply Hexit|done]. }
  eexists. destruct E2 as [E2 W2]. rewrite W2, W1. split; [done|]. rewrite E1, E2. apply pc_eq_nia.
Qed.

Lemma block_runs leader run b bc a i s w :
  compiled_from leader run b bc -> leaf_run run -> Forall (λ x, di_address x.2 = x.1) run ->
  budget * Z.of_nat (length run) <= kNoValue -> wf_state s -> last run = Some (a, i) ->
  targets_local a b (guest_run run s).1 ->
  block_goes a (guest_run run s).1 (guest_run run s).2 w
    (run_block_in fuel f direct_calls dispatch Emitted bc s w).
Proof.
  intros Hc Hrun Hadr Hsize Hs Hlast Hloc. unfold run_block_in.
  set (s0 := if match b_instructions bc with [] => true | i :: _ => negb (has_guest_source i) end then _ else s).
  assert (E0 : pc_eq s s0) by (unfold s0; destruct (match _ with [] => _ | _ => _ end); [apply pc_eq_moved|done]). clearbody s0.
  destruct (guest_run_pc run s s0 E0) as [Ef Es].
  destruct (body_runs leader run b bc s0 w Hc Hrun Hadr Hsize (pc_eq_wf _ _ E0 Hs)) as (Hl & Hssa & Hft & o & Ho & Heq).
  assert (Hin : (forall t s w, o = Left_ (Some (mkResult RBranch t 0)) s w -> is_local f t = true) ->
    body_exit bc o (exec_body_in fuel f direct_calls dispatch Emitted bc (b_instructions bc) ∅ (mkMachine s0 w None)))
    by (by apply leaf_in).
  pose proof (integer_falls run a i s Hrun Hlast) as Hint. unfold leaf_outcome in Heq, Hft. rewrite Hlast in Heq, Hft.
  destruct (guest_run run s) as [fl s'], (guest_run run s0) as [fl0 s0']. cbn [fst snd] in *. subst fl0.
  assert (Hfalls : forall m, fl = Falls -> o = FellThrough m -> local_fallthrough bc = Some (u32 (a + 4)) ->
    pc_eq s' (m_cpu m) -> m_world m = w -> block_goes a fl s' w
    (exec_body_in fuel f direct_calls dispatch Emitted bc (b_instructions bc) ∅ (mkMachine s0 w None)
     ≫= λ r, Some match r with Ran _ m => close_block bc m | r => r end)).
  { intros m -> -> Hbf Hm Hw. destruct Hin as [[e ->] Hterm]; [done|]. cbn.
    destruct (close_jumps bc (u32 (a + 4)) m Hterm Hbf) as (s'' & -> & Hs''). exists s''. rewrite Hw. split; [done|]. by rewrite Hm. }
  destruct (leaf_transfer i); [destruct fl as [|t|t]|].
  - destruct Heq as (m' & -> & Hm & Hw). cbn [m_cpu m_world] in *. eapply Hfalls; try done.
    + rewrite Hft by by eexists. done.
    + rewrite Es. rewrite <- Hm. apply pc_eq_moved.
  - cbn in Heq. subst o. cbn in Hin. rewrite Hin by (by intros ? ? ? [= <- _ _]). eexists. split; [done|].
    rewrite Es. apply pc_eq_moved.
  - cbn in Heq. subst o. cbn in Hin. rewrite Hin by done. cbn. do 3 f_equal.
    by apply pc_eq_set.
  - destruct Heq as (m' & -> & Hm & Hw). cbn [m_cpu m_world] in *. rewrite (Hint eq_refl) in *. eapply Hfalls; try done.
    + rewrite Hft by by eexists. done.
    + by rewrite Es, <- Hm.
Qed.
End Compiled.

(** ** Leaf functions *)

(** An unlinked branch or a [comparable] integer instruction; where it can go on to is
    in the map, unless it returns. *)
Definition leaf_entry (d : Decoded) (x : GuestAddress * DecodedInstruction) : bool :=
  let '(a, i) := x in
  if leaf_transfer i then
    (String.eqb (mnemonic i) "bclrx" || decoded_contains d (direct_branch_target i)) &&
    (branch_condition_is_unconditional i || decoded_contains d (u32 (a + 4)))
  else comparable i && decoded_contains d (u32 (a + 4)).

Definition leaf_function (d : Decoded) : bool := forallb (leaf_entry d) d.

(** ** The classes of leaf instructions *)

Definition row_classes (info : OpcodeInfo) : bool :=
  let m := oi_mnemonic info in
  let format f := bool_decide (oi_format info = f) in
  let branch := bool_decide (oi_group info = GBranch) in
  (negb (one_of m interpreted_integer) || (negb branch && negb (format FSC) && negb (String.eqb m "isync"))) &&
  (negb (String.eqb m "bx") || (branch && format FI)) &&
  (negb (String.eqb m "bcx") || (branch && format FB)) &&
  (negb (String.eqb m "bclrx") || (branch && format FXL)).

Lemma rows_classes : forallb row_classes kCatalog = true.
Proof. vm_compute. reflexivity. Qed.

Lemma row_class i info : di_info i = Some info -> info ∈ kCatalog -> row_classes info = true.
Proof.
  intros Hi Hrow%list_elem_of_In. pose proof rows_classes as H. rewrite forallb_forall in H. by apply H.
Qed.

Lemma integer_class i : agrees i ->
  is_direct_branch i = false /\ is_indirect_branch i = false /\ is_syscall i = false /\
  is_instruction_sync i = false /\ is_trap i = false.
Proof.
  intros (Hc & info & Hi & Hrow). pose proof (row_class i info Hi Hrow) as H. unfold row_classes in H.
  rewrite !andb_true_iff in H. destruct H as [[[H _] _] _].
  unfold comparable in Hc. rewrite !andb_true_iff in Hc. destruct Hc as (((Hm & _) & _) & _).
  unfold mnemonic in Hm. rewrite Hi in Hm. rewrite Hm in H. cbn in H. rewrite !andb_true_iff in H.
  destruct H as [[H1 H2] H3]. rewrite negb_true_iff in H1, H2, H3.
  unfold is_direct_branch, is_indirect_branch, is_syscall, is_instruction_sync, is_trap, in_group, format_is, mnemonic.
  rewrite Hi, H1, H2, H3. by rewrite !andb_false_r.
Qed.

(** The three branches and what the compiler sees in them. *)
Lemma transfer_class i : transfers i -> lk i = false /\
  ((mnemonic i = "bclrx" /\ is_direct_branch i = false /\ is_indirect_branch i = true /\
     branch_condition_is_unconditional i = (bo i .& 20 =? 20)) \/
   (mnemonic i = "bcx" /\ is_direct_branch i = true /\
     branch_condition_is_unconditional i = (bo i .& 20 =? 20)) \/
   (mnemonic i = "bx" /\ is_direct_branch i = true /\ branch_condition_is_unconditional i = true)).
Proof.
  intros (Hl & info & Hi & Hrow). pose proof (row_class i info Hi Hrow) as H. unfold row_classes in H.
  rewrite !andb_true_iff in H. destruct H as [[[_ H1] H2] H3].
  apply andb_true_iff in Hl as [Hm Hlk]. apply negb_true_iff in Hlk. split; [done|].
  assert (Hmi : mnemonic i = oi_mnemonic info) by (unfold mnemonic; by rewrite Hi).
  unfold is_direct_branch, is_indirect_branch, branch_condition_is_unconditional, in_group, format_is.
  rewrite Hi. rewrite <- Hmi in H1, H2, H3. mnemonic_cases Hm; rewrite Hm in *.
  - apply andb_true_iff in H1 as [->%bool_decide_eq_true ->%bool_decide_eq_true]. by do 2 right.
  - apply andb_true_iff in H2 as [->%bool_decide_eq_true ->%bool_decide_eq_true]. by right; left.
  - apply andb_true_iff in H3 as [->%bool_decide_eq_true ->%bool_decide_eq_true]. by left.
Qed.

Lemma transfer_ends_block i : transfers i -> ends_basic_block i = true.
Proof.
  intros Ht. destruct (transfer_class i Ht) as [Hlk Hc]. unfold ends_basic_block. rewrite Hlk. cbn [negb].
  rewrite !andb_true_r. by destruct Hc as [(_ & -> & -> & _)|[(_ & -> & _)|(_ & -> & _)]]; rewrite ?orb_true_r.
Qed.

(** ** Runs of an address map *)

Lemma concat_elem {A} (runs : list (list A)) run x : run ∈ runs -> x ∈ run -> x ∈ concat runs.
Proof. rewrite !list_elem_of_In. intros Hr Hx. apply in_concat. by exists run. Qed.

Lemma concat_inv {A} (runs : list (list A)) x : x ∈ concat runs -> exists run, run ∈ runs /\ x ∈ run.
Proof. rewrite list_elem_of_In, in_concat. intros (run & Hr & Hx). exists run. by rewrite !list_elem_of_In. Qed.

Lemma concat_unique {A} (runs : list (list A)) r1 r2 x :
  NoDup (concat runs) -> r1 ∈ runs -> r2 ∈ runs -> x ∈ r1 -> x ∈ r2 -> r1 = r2.
Proof.
  induction runs as [|r runs IH]; intros Hd H1 H2 Hx1 Hx2; [by apply elem_of_nil in H1|].
  cbn in Hd. apply NoDup_app in Hd as (_ & Hsep & Hd).
  apply elem_of_cons in H1 as [->|H1]; apply elem_of_cons in H2 as [->|H2]; [done| | |by apply IH].
  - destruct (Hsep x Hx1). by eapply concat_elem.
  - destruct (Hsep x Hx2). by eapply concat_elem.
Qed.

Lemma ordered_NoDup d : ordered d -> NoDup d.
Proof.
  unfold ordered. induction d as [|x d IH]; intros Ho; [constructor|]. apply StronglySorted_inv in Ho as [Ho Hx].
  constructor; [|by apply IH]. intros Hin. rewrite Forall_forall in Hx.
  pose proof (Hx x.1 (list_elem_of_fmap_2 fst _ _ Hin)). lia.
Qed.

Lemma ordered_unique d a i j : ordered d -> (a, i) ∈ d -> (a, j) ∈ d -> i = j.
Proof. intros Ho Hi%ordered_find Hj%ordered_find; [congruence|done..]. Qed.

(** An address inside a run follows one of the run. *)
Lemma contiguous_previous run b :
  contiguous run -> b ∈ fst <$> run ->
  fst <$> head run = Some b \/ exists l1 a i j l2, run = l1 ++ (a, i) :: (b, j) :: l2 /\ b = u32 (a + 4).
Proof.
  induction run as [|[a i] run IH]; intros Hc Hin; [by apply elem_of_nil in Hin|].
  apply elem_of_cons in Hin as [->|Hin]; [by left|]. right.
  destruct run as [|[c k] run]; [by apply elem_of_nil in Hin|]. destruct Hc as [Ha Hc].
  destruct (IH Hc Hin) as [Hh|(l1 & a' & i' & j & l2 & E & Hb)].
  - cbn in Hh. injection Hh as ->. by exists [], a, i, k, run.
  - exists ((a, i) :: l1), a', i', j, l2. by rewrite E.
Qed.

(** The address after a run, when it is in the map, starts a run. *)
Lemma after_run d runs run a i :
  map_ok d -> d = concat runs -> Forall contiguous runs -> run ∈ runs -> last run = Some (a, i) ->
  u32 (a + 4) ∈ fst <$> d -> exists next, next ∈ runs /\ fst <$> head next = Some (u32 (a + 4)).
Proof.
  intros [Ho Hd] -> Hc Hrun Hl Hin. apply list_elem_of_fmap in Hin as ([b j] & Hb & Hin). cbn in Hb. subst b.
  apply concat_inv in Hin as (next & Hnext & Hin). exists next. split; [done|].
  rewrite Forall_forall in Hc.
  destruct (contiguous_previous next (u32 (a + 4)) (Hc _ Hnext) (list_elem_of_fmap_2 fst _ _ Hin))
    as [?|(l1 & a' & i' & j' & l2 & E & Ha)]; [done|exfalso].
  assert (Ha' : (a', i') ∈ next) by (rewrite E; apply elem_of_app; right; by left).
  pose proof (last_Some_elem_of _ _ Hl) as Hain. rewrite Forall_forall in Hd.
  destruct (Hd _ (concat_elem _ _ _ Hnext Ha')) as [Hr' _], (Hd _ (concat_elem _ _ _ Hrun Hain)) as [Hr _]. cbn in Hr, Hr'.
  assert (a' = a) as -> by (unfold is_u32 in *; word_lia).
  pose proof (ordered_unique _ _ _ _ Ho (concat_elem _ _ _ Hnext Ha') (concat_elem _ _ _ Hrun Hain)) as ->.
  assert (next = run) as -> by (eapply concat_unique; [by apply ordered_NoDup|done..]).
  pose proof (ordered_concat _ _ Ho Hrun) as Hor.
  assert (Hnext' : (u32 (a + 4), j') ∈ run) by (rewrite E; apply elem_of_app; right; right; by left).
  pose proof (ordered_last _ _ _ _ Hor Hl Hnext') as Hle. rewrite E in Hor. apply ordered_app in Hor as [_ Hor].
  apply StronglySorted_inv in Hor as [_ Hlt]. apply Forall_cons in Hlt as [Hlt _]. cbn in *. lia.
Qed.

(** ** The runs of a leaf function *)

Section Runs.
Context (entry : GuestAddress) (ranges : list FunctionCodeRange) (d : Decoded) (runs : list Decoded) (f : Function).
Hypothesis Hok : map_ok d.
Hypothesis Hleaf : leaf_function d = true.
Hypothesis Hlifted : lifted entry ranges d runs f.

Lemma entry_leaf x : x ∈ d -> leaf_entry d x = true.
Proof. unfold leaf_function in Hleaf. rewrite forallb_forall in Hleaf. intros Hx%list_elem_of_In. by apply Hleaf. Qed.

Lemma entry_kind a i : (a, i) ∈ d -> (agrees i /\ leaf_transfer i = false) \/ transfers i.
Proof.
  intros Hx. pose proof (entry_leaf _ Hx) as Hl. destruct Hok as [_ Hall]. rewrite Forall_forall in Hall.
  destruct (Hall _ Hx) as (_ & _ & _ & Hrow). cbn in Hl, Hrow. destruct (leaf_transfer i) eqn:Ht; [by right|left].
  apply andb_true_iff in Hl as [Hc _]. by split; [split|].
Qed.

Lemma run_leaf run : (forall x, x ∈ run -> x ∈ d) -> contiguous run -> unled (leaders entry ranges d) run -> leaf_run run.
Proof.
  induction run as [|[a i] run IH]; intros Hin Hc Hu; [done|].
  assert (Hx : (a, i) ∈ d) by (apply Hin; by left).
  destruct (entry_kind a i Hx) as [[Hi _]|Ht].
  - left. split; [done|]. apply IH; [intros x ?; apply Hin; by right|..]; by destruct run as [|[b j] run]; [|destruct Hc, Hu].
  - right. split; [done|]. destruct run as [|[b j] run]; [done|]. exfalso.
    destruct Hc as [-> _], Hu as [Hu _]. apply Hu. eapply leaders_ends; [exact Hx|by apply transfer_ends_block|].
    exists j. apply ordered_find; [apply Hok|]. apply Hin. right. by left.
Qed.
End Runs.

(** ** Edges *)

(** No edge falls through. *)
Definition never_falls (b : Block) : Prop := Forall (λ e, e_kind e <> Fallthrough) (b_successors b).

Lemma add_edge_never target kind local b :
  kind <> Fallthrough -> never_falls b -> never_falls (add_edge target kind local b).
Proof. unfold never_falls, add_edge. intros Hk Hb. case_match; [done|]. cbn. apply Forall_app. by split; [|constructor]. Qed.

Lemma call_edges_never d blocks addresses b : never_falls b -> never_falls (call_edges d blocks addresses b).
Proof.
  revert b. induction addresses as [|a addresses IH]; intros b Hb; [done|]. cbn. destruct (decoded_find d a); [|done].
  apply IH. case_match; [by apply add_edge_never|]. by case_match.
Qed.

Lemma find_never l : Forall (λ e, e_kind e <> Fallthrough) l -> forall rest,
  List.find (λ e, e_local e && bool_decide (e_kind e = Fallthrough)) (l ++ rest) =
  List.find (λ e, e_local e && bool_decide (e_kind e = Fallthrough)) rest.
Proof.
  induction 1 as [|e l He _ IH]; intros rest; [done|]. cbn. rewrite bool_decide_eq_false_2 by done.
  rewrite andb_false_r. apply IH.
Qed.

Lemma continue_falls blocks next b :
  never_falls b -> is_block blocks next = true -> local_fallthrough (continue_to blocks next b) = Some next.
Proof.
  unfold never_falls, continue_to, add_edge, local_fallthrough. intros Hb ->. rewrite bool_decide_eq_false_2.
  - cbn. by rewrite find_never.
  - intros Hin. rewrite Forall_forall in Hb. by apply (Hb _ Hin).
Qed.

Lemma exit_falls blocks i next b :
  (agrees i \/ transfers i /\ branch_condition_is_unconditional i = false) ->
  never_falls b -> is_block blocks next = true -> local_fallthrough (exit_edges blocks i next b) = Some next.
Proof.
  intros Hi Hb Hn. unfold exit_edges. destruct Hi as [Hi|[Ht Hu]].
  - destruct (integer_class i Hi) as (-> & -> & -> & -> & ->). cbn. by apply continue_falls.
  - destruct (transfer_class i Ht) as [-> Hc]. rewrite Hu. cbn [negb].
    destruct Hc as [(_ & -> & -> & _)|[(_ & -> & _)|(_ & -> & _)]]; cbn [orb andb]; apply continue_falls; try done.
    all: by apply (add_edge_never _ Branch).
Qed.

Lemma is_block_spec blocks a : is_block blocks a = true <-> a ∈ b_guest_address <$> blocks.
Proof.
  unfold is_block, block_index. rewrite list_elem_of_fmap. destruct (list_find _ blocks) as [[n b]|] eqn:E; cbn.
  - apply list_find_Some in E as (Hb & Ha & _). split; [|done]. intros _. exists b. split; [done|]. by eapply list_elem_of_lookup_2.
  - apply list_find_None in E. rewrite Forall_forall in E. split; [done|]. intros (b & -> & Hb). by destruct (E b Hb).
Qed.

Lemma partition_bare leader fuel : forall d blocks,
  partition fuel leader d = inr blocks -> Forall (λ b, b_successors b = []) blocks.
Proof.
  induction fuel as [|fuel IH]; intros [|[start i] d] blocks E; try (injection E as <-; constructor); [done|].
  cbn [partition] in E. destruct (lift_run _ _ _) as [e|[st rest]]; [done|].
  destruct (partition fuel leader rest) as [e|l] eqn:Ep; [done|]. injection E as <-. constructor; [done|by eapply IH].
Qed.

Lemma connect_edges d blocks l l' :
  connect d blocks l = inr l' -> Forall (λ b, b_successors b = []) l ->
  Forall2 (λ b' b, b_successors b = [] /\ block_edges d blocks b = inr b') l' l.
Proof.
  intros E Hl. revert l' E. induction Hl as [|b l Hb Hl IH]; intros l' E; cbn in E; [injection E as <-; constructor|].
  destruct (block_edges d blocks b) as [e|b1] eqn:Eb; [done|].
  destruct (connect d blocks l) as [e|l1] eqn:El; [done|]. injection E as <-. constructor; [done|by apply IH].
Qed.

(** The blocks of a lifted function before and after their edges. *)
Lemma lift_function_edges entry ranges f d :
  lift_function entry ranges = inr f -> decode_ranges ranges [] = inr d ->
  exists blocks, b_guest_address <$> f_blocks f = b_guest_address <$> blocks /\
    Forall2 (λ b' b, b_successors b = [] /\ exists b1, block_edges d blocks b = inr b1 /\ linked b' b1) (f_blocks f) blocks.
Proof.
  unfold lift_function. intros E Hd. destruct ranges as [|r ranges]; [done|]. rewrite Hd in E.
  destruct (negb _); [done|]. destruct (List.find _ _) as [[a i]|]; [done|].
  destruct (partition _ _ _) as [e|blocks] eqn:Ep; [done|].
  destruct (connect d blocks blocks) as [e|blocks'] eqn:Ec; [done|]. injection E as <-. exists blocks. cbn [f_blocks].
  assert (Hf : Forall2 (λ b' b, b_successors b = [] /\ exists b1, block_edges d blocks b = inr b1 /\ linked b' b1)
    (link_predecessors blocks') blocks).
  { eapply Forall2_trans; [|apply link_predecessors_linked|eapply connect_edges; [exact Ec|by eapply partition_bare]].
    intros b' b1 b Hl [Hb E]. by eauto. }
  split; [|exact Hf]. apply list_eq_Forall2, Forall2_fmap. eapply Forall2_impl; [exact Hf|].
  intros b' b (_ & b1 & E & Hl). cbn. apply linked_code in Hl as [-> _]. by apply block_edges_code in E as [-> _].
Qed.

(** The block of a run falls through to the block after it. *)
Lemma block_falls d blocks b b' a i :
  map_ok d -> (a, i) ∈ d -> b_successors b = [] -> b_end_address b = u32 (a + 4) -> block_edges d blocks b = inr b' ->
  (agrees i \/ transfers i /\ branch_condition_is_unconditional i = false) -> u32 (a + 4) ∈ b_guest_address <$> blocks ->
  local_fallthrough b' = Some (u32 (a + 4)).
Proof.
  intros [Ho Hd] Hin Hb Hend E Hi Hn. unfold block_edges in E.
  destruct (call_edges_code d blocks (block_addresses b) b) as (_ & _ & Hend').
  rewrite Hend', Hend in E. rewrite Forall_forall in Hd. destruct (Hd _ Hin) as [Ha _]. cbn in Ha.
  replace (u32 (u32 (a + 4) - 4)) with a in E by (unfold is_u32 in *; word_lia).
  rewrite (ordered_find d a i Ho Hin) in E. injection E as <-. apply exit_falls; [done| |by apply is_block_spec].
  apply call_edges_never. unfold never_falls. by rewrite Hb.
Qed.

(** ** Where a run goes on to *)

Lemma flow_last run a i : forall s,
  leaf_run run -> last run = Some (a, i) ->
  (agrees i /\ (guest_run run s).1 = Falls) \/ (transfers i /\ exists s', (guest_run run s).1 = (transfer i s').1).
Proof.
  induction run as [|x run IH]; intros s Hrun Hl; [done|]. destruct Hrun as [[Hx Hrun]|[[Hx Hc] ->]].
  - cbn [guest_run]. rewrite guest_step_agrees by done. destruct run as [|y run]; [|by apply IH].
    cbn in Hl. injection Hl as ->. by left.
  - cbn in Hl. injection Hl as ->. cbn in Hx. right. split; [done|]. exists s. cbn. unfold guest_step. rewrite Hx.
    by destruct (transfer i s) as [[] s'].
Qed.

Lemma unconditional_taken i use_ctr s : bo i .& 20 =? 20 = true -> (test_branch i use_ctr s).1 = true.
Proof.
  intros Hb%Z.eqb_eq. assert (H : forall n, Z.land 20 n <> 0 -> Z.land n 20 = n -> bo_set i n = true).
  { intros n Hn Hm. unfold bo_set. apply negb_true_iff, Z.eqb_neq. intros H0. apply Hn.
    rewrite <- Hb, <- Z.land_assoc, (Z.land_comm 20), Hm. exact H0. }
  unfold test_branch. rewrite (H 4), (H 16) by done. by rewrite andb_false_r.
Qed.

Lemma transfer_falls i s : transfers i -> (transfer i s).1 = Falls -> branch_condition_is_unconditional i = false.
Proof.
  intros Ht. destruct (branch_condition_is_unconditional i) eqn:Hu; [|done]. unfold transfer.
  destruct (transfer_class i Ht) as [_ [(Hm & _ & _ & E)|[(Hm & _ & E)|(Hm & _)]]]; rewrite Hm; cbn; [| |done].
  all: rewrite E in Hu; pose proof (unconditional_taken i true s Hu) as Htest.
  all: destruct (test_branch i true s) as [taken s']; cbn in Htest; by subst taken.
Qed.

Lemma transfer_jumps i s t : transfers i -> (transfer i s).1 = Jumps t -> is_direct_branch i = true /\ t = direct_branch_target i.
Proof.
  intros Ht. unfold transfer.
  destruct (transfer_class i Ht) as [_ [(Hm & _)|[(Hm & Hd & _)|(Hm & Hd & _)]]]; rewrite Hm; cbn.
  - by destruct (test_branch i true s) as [[] s'].
  - destruct (test_branch i true s) as [[] s']; [|done]. cbn. by intros [= <-].
  - by intros [= <-].
Qed.

(** A taken direct branch stays in the map. *)
Lemma jump_lands d a i s t :
  map_ok d -> leaf_function d = true -> (a, i) ∈ d -> transfers i -> (transfer i s).1 = Jumps t ->
  is_direct_branch i = true /\ t = direct_branch_target i /\ decoded_contains d t = true /\
  t .& 3 = 0 /\ exists j, (t, j) ∈ d.
Proof.
  intros [_ Hall] Hleaf Hx Ht E. pose proof (entry_leaf _ Hleaf _ Hx) as He. unfold leaf_entry in He.
  rewrite (proj1 Ht) in He. apply andb_true_iff in He as [Hj _].
  destruct (transfer_jumps i s t Ht E) as [Hd ->]. destruct (transfer_class i Ht) as [_ Hc].
  assert (Hm : String.eqb (mnemonic i) "bclrx" = false).
  { destruct Hc as [(_ & Hd' & _)|[(-> & _)|(-> & _)]]; [congruence|done..]. }
  rewrite Hm in Hj. cbn in Hj. split_and!; [done..| |].
  - apply contains_elem, list_elem_of_fmap in Hj as (x & -> & Hx').
    rewrite Forall_forall in Hall. by destruct (Hall x Hx') as (_ & Hal & _).
  - apply contains_elem, list_elem_of_fmap in Hj as ([b j] & -> & Hx'). by exists j.
Qed.

(** ** The compiled function *)

Section Function.
Context (entry : GuestAddress) (ranges : list FunctionCodeRange) (d : Decoded) (runs : list Decoded) (f0 : Function).
Hypothesis Hranges : Forall range_wf ranges.
Hypothesis Hfits : fits ranges.
Hypothesis Hlift : lift_function entry ranges = inr f0.
Hypothesis Hdecode : decode_ranges ranges [] = inr d.
Hypothesis Hleaf : leaf_function d = true.
Hypothesis Hlifted : lifted entry ranges d runs f0.

(** The run that starts at an address. *)
Definition run_at (a : GuestAddress) (run : Decoded) : Prop := run ∈ runs /\ fst <$> head run = Some a.

Lemma map_is_ok : map_ok d.
Proof using Hranges Hdecode. by eapply decode_ranges_ok; [|apply map_ok_nil|]. Qed.

Lemma run_in_map run x : run ∈ runs -> x ∈ run -> x ∈ d.
Proof using Hlifted. intros Hr Hx. rewrite (lf_runs _ _ _ _ _ Hlifted). by eapply concat_elem. Qed.

Lemma run_of run : run ∈ runs -> exists b, b ∈ f_blocks f0 /\ block_lifted (leaders entry ranges d) run b.
Proof using Hlifted.
  intros Hr. apply list_elem_of_lookup in Hr as [n Hn].
  destruct (Forall2_lookup_l _ _ _ _ _ (lf_blocks _ _ _ _ _ Hlifted) Hn) as (b & Hb & Hl).
  exists b. split; [by eapply list_elem_of_lookup_2|done].
Qed.

Lemma runs_contiguous : Forall contiguous runs.
Proof using Hlifted. apply Forall_forall. intros run Hr. by destruct (run_of run Hr) as (b & _ & []). Qed.

Lemma runs_leaf run : run ∈ runs -> leaf_run run.
Proof using Hranges Hdecode Hleaf Hlifted.
  intros Hr. destruct (run_of run Hr) as (b & _ & Hb).
  eapply run_leaf; [apply map_is_ok|done|intros x; by apply run_in_map|apply Hb|apply Hb].
Qed.

Lemma leader_run a : a ∈ leaders entry ranges d -> a ∈ fst <$> d -> exists run, run_at a run.
Proof using Hlifted.
  intros Hl Ha. rewrite (lf_runs _ _ _ _ _ Hlifted) in Ha.
  apply list_elem_of_fmap in Ha as ([a' i] & E & Hin). cbn in E. subst a'.
  apply concat_inv in Hin as (run & Hr & Hin). exists run. split; [done|].
  destruct (run_of run Hr) as (b & _ & []). by eapply unled_head, (list_elem_of_fmap_2 fst _ _ Hin).
Qed.

Lemma entry_run : exists run, run_at entry run.
Proof using Hlift Hdecode Hlifted.
  apply leader_run; [by apply elem_of_union_l, elem_of_union_l, elem_of_singleton|]. destruct (lift_function_input _ _ _ Hlift) as (d' & _ & E & He & _).
  rewrite Hdecode in E. injection E as <-. by apply contains_elem.
Qed.

(** Control goes on from the end of a run to the start of another. *)
Lemma run_goes_on run a i s :
  run ∈ runs -> last run = Some (a, i) ->
  match (guest_run run s).1 with
  | Falls => (exists next, run_at (u32 (a + 4)) next) /\
             (agrees i \/ transfers i /\ branch_condition_is_unconditional i = false)
  | Jumps t => t .& 3 = 0 /\ exists next, run_at t next
  | Returns _ => True
  end.
Proof using Hranges Hdecode Hleaf Hlifted.
  intros Hr Hl. assert (Hx : (a, i) ∈ d) by (apply (run_in_map run); [done|by apply last_Some_elem_of]).
  pose proof (entry_leaf _ Hleaf _ Hx) as He. unfold leaf_entry in He.
  assert (Hafter : decoded_contains d (u32 (a + 4)) = true -> exists next, run_at (u32 (a + 4)) next).
  { rewrite contains_elem. intros Hn. apply (after_run d runs run a i); [apply map_is_ok|apply Hlifted|apply runs_contiguous|done..]. }
  destruct (flow_last run a i s (runs_leaf run Hr) Hl) as [[Hi ->]|[Ht (s' & E)]].
  - rewrite (agrees_no_transfer i Hi) in He. apply andb_true_iff in He as [_ He]. auto.
  - rewrite (proj1 Ht) in He. apply andb_true_iff in He as [Hj Hn]. rewrite E.
    destruct (transfer i s').1 as [|t|t] eqn:Ef; [| |done].
    + pose proof (transfer_falls i s' Ht Ef) as Hu. rewrite Hu in Hn. auto.
    + destruct (jump_lands d a i s' t map_is_ok Hleaf Hx Ht Ef) as (Hd & -> & Hc & Hal & _). split; [done|].
      apply leader_run; [|by apply contains_elem]. unfold leaders. apply elem_of_union_r, elem_of_list_to_set, list_elem_of_bind.
      exists (a, i). split; [|done]. unfold leaders_of. rewrite Hd, Hc. cbn. by left.
Qed.

(** Where the block of a run goes when it falls through. *)
Lemma run_falls run b b' a i :
  run ∈ runs -> block_lifted (leaders entry ranges d) run b -> last run = Some (a, i) -> (exists next, run_at (u32 (a + 4)) next) ->
  (agrees i \/ transfers i /\ branch_condition_is_unconditional i = false) ->
  (exists blocks, b_guest_address <$> blocks = b_guest_address <$> f_blocks f0 /\ b_successors b = [] /\ block_edges d blocks b = inr b') ->
  local_fallthrough b' = Some (u32 (a + 4)).
Proof using Hranges Hdecode Hlifted.
  intros Hr Hb Hl (next & Hn & Hhead) Hi (blocks & Haddr & Hbare & E). destruct (bk_end _ _ _ Hb) as (a' & i' & Hl' & Hend).
  rewrite Hl in Hl'. injection Hl' as <- <-.
  eapply block_falls; [apply map_is_ok| |exact Hbare|exact Hend|exact E|exact Hi|].
  - apply (run_in_map run); [done|by apply last_Some_elem_of].
  - rewrite Haddr. destruct (run_of next Hn) as (c & Hc & [Hs _ _ _ _ _ _ _ _ _]). rewrite Hhead in Hs. injection Hs as ->.
    by apply list_elem_of_fmap_2.
Qed.

(** The optimised block of a lifted block. *)
Definition optimised (bc b : Block) : Prop := linked bc (simplify_block_branches (Optimizer_run b)).

Lemma linked_bare b : linked (set_predecessors [] b) b.
Proof using Type. by destruct b. Qed.

Lemma optimize_blocks f : Forall2 optimised (f_blocks (optimize_function f)) (f_blocks f).
Proof.
  unfold optimize_function, simplify_constant_control_flow. cbn [f_blocks].
  set (l := set_predecessors [] <$> _). eapply Forall2_trans; [|apply link_predecessors_linked|].
  - intros bc b' b H1 H2. unfold optimised. rewrite H1. exact H2.
  - unfold l. rewrite !Forall2_fmap_l. apply Forall_Forall2_diag, Forall_true. intros b.
    apply linked_bare.
Qed.
Lemma optimised_address bc b : optimised bc b -> b_guest_address bc = b_guest_address b.
Proof using Type.
  intros (-> & _)%linked_fields. unfold simplify_block_branches. destruct (simplify_branches _ _ _).
  unfold Optimizer_run. cbv zeta. by destruct b.
Qed.

Lemma optimize_addresses : b_guest_address <$> f_blocks (optimize_function f0) = b_guest_address <$> f_blocks f0.
Proof using Type.
  apply list_eq_Forall2, Forall2_fmap. eapply Forall2_impl; [apply optimize_blocks|apply optimised_address].
Qed.

Lemma run_local a run : run_at a run -> is_local (optimize_function f0) a = true.
Proof using Hlifted.
  intros [Hr Hh]. apply bool_decide_eq_true. unfold local_targets. rewrite optimize_addresses.
  destruct (run_of run Hr) as (b & Hb & [Hs _ _ _ _ _ _ _ _ _]). rewrite Hh in Hs. injection Hs as ->.
  by apply list_elem_of_fmap_2.
Qed.

Lemma block_at_unique n bc :
  f_blocks (optimize_function f0) !! n = Some bc -> block_at (optimize_function f0) (b_guest_address bc) = Some bc.
Proof using Hranges Hdecode Hlifted.
  assert (Hs : StronglySorted Z.lt (b_guest_address <$> f_blocks (optimize_function f0))).
  { rewrite optimize_addresses. eapply starts_sorted; [|eapply lifted_starts; exact Hlifted].
    rewrite <- (lf_runs _ _ _ _ _ Hlifted). apply map_is_ok. }
  unfold block_at. revert n Hs. induction (f_blocks (optimize_function f0)) as [|b l IH]; intros n Hs Hn; [done|].
  cbn. cbn in Hs. apply StronglySorted_inv in Hs as [Hs Hb]. destruct n as [|n]; cbn in Hn.
  - injection Hn as ->. by rewrite Z.eqb_refl.
  - destruct (Z.eqb_spec (b_guest_address b) (b_guest_address bc)) as [E|_]; [|by eapply IH].
    rewrite Forall_forall in Hb. specialize (Hb (b_guest_address bc)). rewrite E in Hb.
    destruct (Z.lt_irrefl (b_guest_address bc)). apply Hb, list_elem_of_fmap_2. by eapply list_elem_of_lookup_2.
Qed.

(** The block of the compiled function that a run became. *)
Lemma run_compiled a run : run_at a run -> exists b bc,
  block_at (optimize_function f0) a = Some bc /\ compiled_from (leaders entry ranges d) run b bc /\
  forall a' i s, last run = Some (a', i) -> targets_local (optimize_function f0) a' b (guest_run run s).1.
Proof using Hranges Hlift Hdecode Hleaf Hlifted.
  intros [Hr Hh]. destruct (lift_function_edges _ _ _ _ Hlift Hdecode) as (blocks & Haddr & Hedges).
  apply list_elem_of_lookup in Hr as [n Hn].
  destruct (Forall2_lookup_l _ _ _ _ _ (lf_blocks _ _ _ _ _ Hlifted) Hn) as (b & Hb & Hl).
  destruct (Forall2_lookup_r _ _ _ _ _ (optimize_blocks f0) Hb) as (bc & Hbc & Ho).
  destruct (Forall2_lookup_l _ _ _ _ _ Hedges Hb) as (b0 & _ & Hbare & b1 & E & Hlink).
  pose proof (list_elem_of_lookup_2 _ _ _ Hn) as Hr. exists b, bc. split_and!.
  - pose proof (bk_start _ _ _ Hl) as Hs. rewrite Hh in Hs. injection Hs as ->.
    rewrite <- (optimised_address _ _ Ho). by eapply block_at_unique.
  - destruct (linked_fields _ _ Ho) as (_ & Hi & _ & Hsucc). constructor; [|by apply Hl..|done|done].
    by destruct run.
  - intros a' i s Hlast. pose proof (run_goes_on run a' i s Hr Hlast) as Hgo. unfold targets_local.
    destruct (guest_run run s).1 as [|t|t]; [|destruct Hgo as (_ & next & Hnext); by eapply run_local|done].
    destruct Hgo as [Hnext Hi]. destruct (linked_fields _ _ Hlink) as (_ & _ & _ & Hsucc).
    rewrite (fallthrough_successors _ _ Hsucc). apply (run_falls run b0 b1 a' i); [exact Hr| |exact Hlast|exact Hnext|exact Hi|].
    + assert (Hcode : same_code b0 b); [|by rewrite Hcode].
      etrans; [symmetry; by eapply block_edges_code|symmetry; by apply linked_code].
    + exists blocks. by rewrite Haddr.
Qed.

Lemma run_addresses run : run ∈ runs -> Forall (λ x, di_address x.2 = x.1 /\ x ∈ d) run.
Proof using Hranges Hdecode Hlifted.
  intros Hr. apply Forall_forall. intros x Hx. pose proof (run_in_map run x Hr Hx) as Hin. split; [|done].
  destruct map_is_ok as [_ Hall]. rewrite Forall_forall in Hall. by destruct (Hall x Hin) as (_ & _ & ? & _).
Qed.

Lemma run_size run : run ∈ runs -> budget * Z.of_nat (length run) <= kNoValue.
Proof using Hfits Hdecode Hlifted.
  intros Hr. pose proof (fits_decoded _ _ Hfits Hdecode) as Hs. rewrite (lf_runs _ _ _ _ _ Hlifted) in Hs.
  apply list_elem_of_split in Hr as (l1 & l2 & E). rewrite E, concat_app in Hs. cbn in Hs. rewrite !length_app in Hs.
  unfold budget, kBudget in *. lia.
Qed.
End Function.
