(* ===== verification/LeafProps.v ===== *)
(** * A compiled leaf function does what the interpreter does

    The dynamic fallback interpreter over the guest words of a leaf function
    ([leaf_function]: [comparable] integer instructions and unlinked branches), and
    the generated code of the function, agree: on the state they leave, on the
    memory, and on the result. *)

From S2P Require Import Prelude.
From S2P Require Import Words.
From S2P Require Import Instr.
From S2P Require Import Decoder.
From S2P Require Import CpuState.
From S2P Require Import Ir.
From S2P Require Import IrValue.
From S2P Require Import Services.
From S2P Require Import IrSem.
From S2P Require Import Verifier.
From S2P Require Import PassSim.
From S2P Require Import PromoteSlots.
From S2P Require Import FlatMemory.
From S2P Require Import NullRuntime.
From S2P Require Import Lifter.
From S2P Require Import LiftWp.
From S2P Require Import Fallback.
From S2P Require Import IntegerParity.
From S2P Require Import IntegerAgree.
From S2P Require Import StateWf.
From S2P Require Import IntegerBlocks.
From S2P Require Import LiftStatic.
From S2P Require Import FallbackMemory.
From S2P Require Import FallbackSystem.
From S2P Require Import FallbackRun.
From S2P Require Import FallbackProps.
From S2P Require Import FunctionCompiler.
From S2P Require Import FunctionCompilerSpec.
From S2P Require Import EmitFunction.
From S2P Require Import LeafLift.
From S2P Require Import LeafStructure.

(** ** The decoded words *)

Lemma decode_words_decoded base words : forall n d d',
  Forall (λ x, x.2 = decode x.1 (di_word x.2)) d -> decode_words base n words d = inr d' ->
  Forall (λ x, x.2 = decode x.1 (di_word x.2)) d'.
Proof.
  induction words as [|word words IH]; intros n d d' Hd E; cbn in E; [by injection E as <-|].
  destruct (negb _); [done|]. destruct (decoded_emplace _ _ d) as [d1|] eqn:Ed; [|done].
  eapply IH; [|exact E]. apply Forall_forall. intros x Hx. rewrite emplace_elem in Hx by done.
  destruct Hx as [->|Hx]; [done|]. rewrite Forall_forall in Hd. by apply Hd.
Qed.

Lemma decode_ranges_decoded ranges : forall d d',
  Forall (λ x, x.2 = decode x.1 (di_word x.2)) d -> decode_ranges ranges d = inr d' ->
  Forall (λ x, x.2 = decode x.1 (di_word x.2)) d'.
Proof.
  induction ranges as [|r ranges IH]; intros d d' Hd E; cbn in E; [by injection E as <-|].
  destruct (fr_words r) as [|word words]; [done|]. destruct (negb _); [done|].
  change (match decode_words (fr_base r) 0 (word :: words) d with
          | inl e => inl e | inr d => decode_ranges ranges d end = inr d') in E.
  destruct (decode_words _ _ _ _) as [e|d1] eqn:Ed; [done|].
  eapply IH; [|exact E]. by eapply decode_words_decoded.
Qed.

(** ** The interpreter on integer instructions *)

Lemma integer_mnemonics :
  forallb (λ m, negb (one_of m inline_mnemonics) && negb (has_memory_case m) && one_of m integer_cases)
    interpreted_integer = true.
Proof. vm_compute. reflexivity. Qed.

Lemma agrees_mnemonic i : agrees i -> one_of (mnemonic i) inline_mnemonics = false /\ has_memory_case (mnemonic i) = false /\
  one_of (mnemonic i) integer_cases = true.
Proof.
  intros (Hc & _). unfold comparable in Hc. rewrite !andb_true_iff in Hc. destruct Hc as (((Hm & _) & _) & _).
  pose proof integer_mnemonics as H. rewrite forallb_forall in H. unfold one_of in Hm. apply existsb_exists in Hm as (m & Hin & Em%String.eqb_eq).
  specialize (H m Hin). rewrite <- Em in H. apply andb_true_iff in H as [[H1 H2]%andb_true_iff H3].
  by rewrite !negb_true_iff in H1, H2.
Qed.

Section Interpreter.
Context {W : Type} `{MemoryPort W, RuntimeServices W, HostHelpers W, ExecutableMemory W}.
Context (tail_fuel : nat) (nested : GuestAddress -> Run W RunResult).
Context (entry_return : GuestAddress) (d : Decoded) (w : W).

(** The words of the map are in memory, on executable pages, and are the only code
    there is at their addresses. *)
Record installed : Prop := mkInstalled {
  in_fetch : forall a i, (a, i) ∈ d -> em_fetch32_be a w = (Some (di_word i), w);
  in_page : forall a, em_page_stamp a w = em_page_stamp (a .& kGuestPageMask) w;
  in_executable : forall a i, (a, i) ∈ d -> executable (em_page_stamp a w) = true;
  in_thunk : forall a i, (a, i) ∈ d -> rt_is_recognized_import_thunk a w = false;
  in_compiled : forall a i s, (a, i) ∈ d -> lookup_compiled a LookupBranch s w = (None, s, w)
}.
Hypothesis Hinstalled : installed.
Hypothesis Hdecoded : Forall (λ x, x.2 = decode x.1 (di_word x.2)) d.
Hypothesis Hok : map_ok d.
Hypothesis Hleaf : leaf_function d = true.

(** The stamps the run has kept are those of the world. *)
Definition stamps_current (l : Local) : Prop := map_Forall (λ page stamp, stamp = em_page_stamp page w) (lo_stamps l).

Lemma page_current a i l :
  (a, i) ∈ d -> stamps_current l -> exists l', validate_page a l w = inr l' /\ stamps_current l'.
Proof using Hinstalled.
  intros Hin Hl. unfold validate_page. rewrite (in_executable Hinstalled a i Hin). cbn [negb].
  destruct (lo_stamps l !! _) as [stamp|] eqn:E.
  - rewrite bool_decide_eq_true_2; [by exists l|]. rewrite (Hl _ _ E). symmetry. apply (in_page Hinstalled).
  - eexists. split; [done|]. apply map_Forall_insert_2; [apply (in_page Hinstalled)|exact Hl].
Qed.

Lemma simple_integer i s : agrees i -> execute_simple (W := W) i s w = (Some true, interpreted i s, w).
Proof using Type.
  intros Hi. destruct (agrees_mnemonic i Hi) as (_ & Hm & Hc). unfold execute_simple, or_else, ibind.
  pose proof (scalar_memory_decides (W := W) i s w) as Hd. rewrite Hm in Hd.
  destruct (execute_scalar_memory i s w) as [[[x|] s'] w']; [|done]. destruct Hd as [-> Hs].
  destruct (Hs eq_refl) as [-> ->]. unfold interpreted.
  pose proof (integer_decides (W := W) i s w) as Hd. rewrite Hc in Hd. cbv beta in Hd.
  destruct (execute_integer i s) as [ok s2]. by destruct Hd as [-> _].
Qed.

(** What the interpreter does where control goes. *)
Definition progress (l : Local) (a : GuestAddress) (flow : Flow) (s : CpuState)
    : option (option (Progress) * CpuState * W) :=
  match flow with
  | Falls => Some (Some (Continue_at l (u32 (a + 4))), s, w)
  | Jumps t => Some (Some (Continue_at l t), s, w)
  | Returns t => Some (Some (Finished (stop l Returned t (mkResult RReturn t 0))), set_nia t s, w)
  end.

Lemma execute_agrees l a i s :
  agrees i -> execute_instruction tail_fuel nested LookupCall entry_return l i a s w = progress l a Falls (interpreted i s).
Proof using Type.
  intros Hi. destruct (agrees_mnemonic i Hi) as [Hm _]. unfold execute_instruction.
  unfold one_of, inline_mnemonics in *. cbn [existsb] in *. rewrite !orb_false_iff in Hm.
  destruct Hm as (-> & -> & -> & -> & -> & -> & -> & -> & -> & _). cbn [orb].
  unfold run_bind, run_interp. by rewrite (simple_integer i s Hi).
Qed.

Lemma tail_branch_on l t j s :
  (t, j) ∈ d -> tail_branch l t s w = Some (Some (Continue_at l t), s, w).
Proof using Hinstalled.
  intros Hin. unfold tail_branch, run_bind, compiled_entry, import_thunk.
  rewrite (in_compiled Hinstalled t j s Hin), (in_thunk Hinstalled t j Hin). done.
Qed.

Lemma aligned_target t : is_u32 t -> t .& 3 = 0 -> t .& not32 3 = t.
Proof using Type.
  intros Ht H3. change (not32 3) with (Z.ones 32 .& Z.lnot 3).
  rewrite Z.land_assoc, Z.land_ones, Z.mod_small, <- Z.ldiff_land by (done || lia).
  pose proof (Z.lor_ldiff_and t 3) as E. rewrite H3, Z.lor_0_r in E. exact E.
Qed.

Lemma taken_on l i s :
  (direct_branch_target i .& 3 = 0 /\ exists j, (direct_branch_target i, j) ∈ d) ->
  tail_branch l (branch_target i) s w = Some (Some (Continue_at l (direct_branch_target i)), s, w).
Proof using Hinstalled.
  intros [Ha [j Hin]]. unfold branch_target. rewrite aligned_target by (done || apply target_u32).
  by eapply tail_branch_on.
Qed.

Lemma execute_transfers l a i s :
  transfers i -> (forall t, (transfer i s).1 = Jumps t -> t .& 3 = 0 /\ exists j, (t, j) ∈ d) ->
  u32 (lr s .& not64 3) = entry_return ->
  execute_instruction tail_fuel nested LookupCall entry_return l i a s w = progress l a (transfer i s).1 (transfer i s).2.
Proof using Hinstalled.
  intros Ht Hj Hlr. destruct (transfer_class i Ht) as [Hlk Hc]. unfold execute_instruction, transfer in *.
  destruct Hc as [(Hm & _)|[(Hm & _)|(Hm & _)]]; rewrite Hm in *; cbn [String.eqb Ascii.eqb Bool.eqb one_of existsb orb] in *.
  - unfold execute_indirect. rewrite Hm. cbn [String.eqb Ascii.eqb Bool.eqb].
    unfold run_bind, run_interp, gets, run_test_branch, write_link. rewrite Hlk. cbn.
    destruct (test_branch i true s) as [[] s']; cbn; [|done]. by rewrite Hlr, Z.eqb_refl.
  - unfold execute_bcx, run_bind, run_interp, run_test_branch, write_link. rewrite Hlk. cbn.
    destruct (test_branch i true s) as [[] s']; cbn; [|done]. apply taken_on. by apply Hj.
  - unfold execute_bx, run_bind, run_interp, write_link. rewrite Hlk. apply taken_on. by apply Hj.
Qed.

(** One instruction, up to the program counters. *)
Definition steps_to (l : Local) (a : GuestAddress) (flow : Flow) (s' : CpuState) (r : option (option Progress * CpuState * W)) : Prop :=
  match flow with
  | Returns t => r = progress l a flow (at_branch a s')
  | _ => exists s'', pc_eq s' s'' /\ r = progress l a flow s''
  end.

Lemma interpret_step l a i s :
  (a, i) ∈ d -> agrees i \/ transfers i -> stamps_current l ->
  u32 (lr s .& not64 3) = entry_return ->
  exists l', stamps_current l' /\
    steps_to l' a (guest_step i s).1 (guest_step i s).2 (run_one tail_fuel nested LookupCall entry_return l a s w).
Proof using Hinstalled Hdecoded Hok Hleaf.
  intros Hin Hi Hl Hlr. unfold run_one. destruct (page_current a i l Hin Hl) as (l1 & -> & Hl1).
  rewrite (in_fetch Hinstalled a i Hin). destruct (page_current a i l1 Hin Hl1) as (l2 & -> & Hl2).
  rewrite Forall_forall in Hdecoded. pose proof (Hdecoded _ Hin) as Hdec. cbn in Hdec. rewrite <- Hdec.
  assert (Hv : valid i = true) by (unfold valid; destruct Hi as [(_ & info & -> & _)|(_ & info & -> & _)]; done).
  rewrite Hv. cbn [negb]. exists (count_instruction (di_word i) l2). split; [exact Hl2|].
  set (s0 := set_nia (u32 (a + 4)) (set_cia a s)).
  destruct (guest_step_pc i s s0 (pc_eq_moved a (u32 (a + 4)) s)) as [Hf Hs]. destruct Hi as [Hi|Ht].
  - rewrite !guest_step_agrees in * by done. rewrite execute_agrees by done. cbn [fst snd] in *. eexists. by split; [exact Hs|].
  - unfold guest_step in *. rewrite (proj1 Ht) in *. rewrite execute_transfers; [|done| |done].
    2: { intros t Et. by destruct (jump_lands d a i s0 t Hok Hleaf Hin Ht Et) as (_ & _ & _ & ?). }
   
    rewrite Hf. destruct (transfer i s).1; [eexists; by split; [exact Hs|]..|]. cbn. do 2 f_equal.
    unfold s0. change (set_nia _ _) with (aside (lr s) a (u32 (a + 4)) s) at 2. rewrite transfer_aside.
    unfold at_branch. cbn. by rewrite <- (transfer_lr i s).
Qed.

(** ** Runs of instructions *)

Abbreviation loop := (run_loop tail_fuel nested LookupCall entry_return).

Definition interrupted (o : option (option RunResult * CpuState * W)) : Prop :=
  exists r s1, o = Some (Some r, s1, w) /\ rr_reason r = InstructionLimit.

(** The run goes on at [t] in the state [s], with less of its budget. *)
Definition lands (n : nat) (t : GuestAddress) (s : CpuState) (o : option (option RunResult * CpuState * W)) : Prop :=
  exists n' l' s', (n' < n)%nat /\ stamps_current l' /\ pc_eq s s' /\ o = loop n' l' t s' w.

Definition arrives (n : nat) (a : GuestAddress) (flow : Flow) (s : CpuState) (o : option (option RunResult * CpuState * W)) : Prop :=
  match flow with
  | Falls => lands n (u32 (a + 4)) s o
  | Jumps t => lands n t s o
  | Returns t => exists l', o = Some (Some (stop l' Returned t (mkResult RReturn t 0)), set_nia t (at_branch a s), w)
  end.

Lemma lands_mono n t s s' o : pc_eq s s' -> lands n t s' o -> lands (S n) t s o.
Proof using Type.
  intros E (n' & l' & s'' & Hn & Hl & Hs & Ho). exists n', l', s''. split_and!; [lia|done|by rewrite E|done].
Qed.

Lemma arrives_mono n a flow s s' o : pc_eq s s' -> arrives n a flow s' o -> arrives (S n) a flow s o.
Proof using Type.
  intros E. destruct flow; [by apply lands_mono..|]. intros (l' & ->). exists l'. unfold at_branch.
  by rewrite (pc_eq_set a (u32 (a + 4)) _ _ E).
Qed.

Lemma lands_weaken n n' t s o : (n <= n')%nat -> lands n t s o -> lands n' t s o.
Proof using Type. intros Hle (k & l' & s'' & Hk & Hr). exists k, l', s''. split; [lia|exact Hr]. Qed.

Lemma arrives_weaken n n' a flow s o : (n <= n')%nat -> arrives n a flow s o -> arrives n' a flow s o.
Proof using Type. intros Hle. destruct flow; [by apply lands_weaken..|done]. Qed.

Lemma loop_step n l a i s :
  (a, i) ∈ d -> agrees i \/ transfers i -> stamps_current l -> u32 (lr s .& not64 3) = entry_return ->
  arrives (S n) a (guest_step i s).1 (guest_step i s).2 (loop (S n) l a s w).
Proof using Hinstalled Hdecoded Hok Hleaf.
  intros Hin Hi Hl Hlr. destruct (interpret_step l a i s Hin Hi Hl Hlr) as (l' & Hl' & Hstep).
  cbn [run_loop]. unfold run_bind. destruct (guest_step i s).1 as [|t|t]; cbn in Hstep |- *.
  - destruct Hstep as (s'' & Hs & ->). exists n, l', s''. split_and!; [lia|done..].
  - destruct Hstep as (s'' & Hs & ->). exists n, l', s''. split_and!; [lia|done..].
  - rewrite Hstep. by exists l'.
Qed.

Lemma loop_exhausted l a s : interrupted (loop 0 l a s w).
Proof using Type. eexists _, _. by split. Qed.

Lemma guest_run_agrees x run s : agrees x.2 -> guest_run (x :: run) s = guest_run run (interpreted x.2 s).
Proof using Type. intros Hx. cbn. by rewrite guest_step_agrees. Qed.

(** The interpreter over a run: to its end, unless the budget ends first. *)
Lemma loop_run a' i' run : forall n l a s,
  leaf_run run -> contiguous run -> Forall (λ x, x ∈ d) run -> fst <$> head run = Some a -> last run = Some (a', i') ->
  stamps_current l -> wf_state s -> u32 (lr s .& not64 3) = entry_return ->
  interrupted (loop n l a s w) \/ arrives n a' (guest_run run s).1 (guest_run run s).2 (loop n l a s w).
Proof using Hinstalled Hdecoded Hok Hleaf.
  induction run as [|[b i] run IH]; intros n l a s Hrun Hc Hd Hh Hlast Hl Hs Hlr; [done|].
  cbn in Hh. injection Hh as ->. apply Forall_cons in Hd as [Hin Hd].
  destruct n as [|n]; [left; apply loop_exhausted|].
  assert (Hi : agrees i \/ transfers i) by (destruct Hrun as [[? _]|[? _]]; auto).
  pose proof (loop_step n l a i s Hin Hi Hl Hlr) as Hstep. destruct (guest_step_keeps i s Hs) as [Hs1 Hlr1].
  assert (Hone : run = [] -> a' = a /\ guest_run ((a, i) :: run) s = guest_step i s).
  { intros ->. cbn in Hlast. injection Hlast as <- <-. split; [done|]. cbn. by destruct (guest_step i s) as [[] s1]. }
  destruct run as [|[c j] run]; [destruct (Hone eq_refl) as [-> ->]; by right|].
  destruct Hrun as [[Ha Hrun]|[_ ?]]; [|done]. rewrite guest_step_agrees in * by done. cbn [fst snd] in *.
  destruct Hstep as (n' & l' & s'' & Hn & Hl' & Hpc & ->). destruct Hc as [-> Hc].
  rewrite guest_run_agrees by done. cbn [snd]. pose proof (λ run, guest_run_pc run _ _ Hpc) as Hrel.
  destruct (IH n' l' (u32 (a + 4)) s'' Hrun Hc Hd eq_refl Hlast Hl') as [Hint|Harr].
  - by eapply pc_eq_wf.
  - by rewrite (pc_eq_lr _ _ Hpc), Hlr1.
  - by left.
  - right. rewrite (proj1 (Hrel _)) in Harr. eapply arrives_weaken; [|eapply arrives_mono; [apply Hrel|exact Harr]]. lia.
Qed.
End Interpreter.

(** ** The function *)

Section Function.
Context {W : Type} `{MemoryPort W, RuntimeServices W, HostHelpers W, !PromotionLaws W, ExecutableMemory W}.
Context (tail_fuel : nat) (direct_calls : list (GuestAddress * Service W)).
Hypothesis Hpoll : forall s w, rt_poll_safepoint (W := W) s w = (true, s, w).

Section Loop.
Context (nested : GuestAddress -> Run W RunResult) (entry_return : GuestAddress) (w : W).
Context (entry : GuestAddress) (ranges : list FunctionCodeRange) (d : Decoded) (runs : list Decoded) (f0 : Function).
Hypothesis Hranges : Forall range_wf ranges.
Hypothesis Hfits : fits ranges.
Hypothesis Hlift : lift_function entry ranges = inr f0.
Hypothesis Hdecode : decode_ranges ranges [] = inr d.
Hypothesis Hleaf : leaf_function d = true.
Hypothesis Hlifted : lifted entry ranges d runs f0.
Hypothesis Hinstalled : installed d w.

Abbreviation loop := (run_loop tail_fuel nested LookupCall entry_return).
Abbreviation compiled := (run_from tail_fuel (optimize_function f0) direct_calls Emitted).

(** The interpreter returns, and the compiled function returns the same. *)
Definition both_return (interpreter : option (option RunResult * CpuState * W))
    (function : option (option ExecutionResult * CpuState * W)) : Prop :=
  exists l t s1, interpreter = Some (Some (stop l Returned t (mkResult RReturn t 0)), s1, w) /\
    function = Some (Some (mkResult RReturn t 0), s1, w).

Lemma block_and_run a run l s sc n fuel :
  run_at runs a run -> stamps_current w l -> wf_state s -> u32 (lr s .& not64 3) = entry_return -> pc_eq s sc ->
  interrupted w (loop n l a s w) \/ both_return (loop n l a s w) (compiled (S fuel) a sc w) \/
  exists n' t next l' s' sc', (n' < n)%nat /\ run_at runs t next /\ stamps_current w l' /\ wf_state s' /\
    lr s' = lr s /\ pc_eq s' sc' /\ loop n l a s w = loop n' l' t s' w /\
    compiled (S fuel) a sc w = compiled fuel t sc' w.
Proof.
  intros Hrun Hl Hs Hlr Hpc. pose proof Hrun as [Hr Hh].
  pose proof (map_is_ok ranges d Hranges Hdecode) as Hok.
  pose proof (runs_leaf entry ranges d runs f0 Hranges Hdecode Hleaf Hlifted run Hr) as Hleafrun.
  pose proof (run_addresses entry ranges d runs f0 Hranges Hdecode Hlifted run Hr) as Hadr.
  pose proof (run_size entry ranges d runs f0 Hfits Hdecode Hlifted run Hr) as Hsize.
  pose proof (runs_contiguous entry ranges d runs f0 Hlifted) as Hcont. rewrite Forall_forall in Hcont.
  pose proof (decode_ranges_decoded ranges [] d (List.Forall_nil _) Hdecode) as Hdecoded.
  destruct (run_compiled entry ranges d runs f0 Hranges Hlift Hdecode Hleaf Hlifted a run Hrun)
    as (b & bc & Hat & Hfrom & Hlocal).
  destruct (last run) as [[a' i]|] eqn:Hlast; [|by apply last_None in Hlast as ->].
  destruct (loop_run tail_fuel nested entry_return d w Hinstalled Hdecoded Hok Hleaf a' i run n l a s Hleafrun
    (Hcont _ Hr)) as [Hint|Harr]; try done; [by eapply Forall_impl; [exact Hadr|intros x []]|by left|right].
  pose proof (block_runs tail_fuel (optimize_function f0) direct_calls (compiled fuel) Hpoll _ run b bc a' i sc w
    Hfrom Hleafrun ltac:(eapply Forall_impl; [exact Hadr|by intros x []]) Hsize (pc_eq_wf _ _ Hpc Hs) Hlast
    (Hlocal _ _ _ eq_refl)) as Hblock.
  pose proof (run_goes_on entry ranges d runs f0 Hranges Hdecode Hleaf Hlifted run a' i s Hr Hlast) as Hgo.
  destruct (guest_run_pc run s sc Hpc) as [Hflow Hrun2]. destruct (guest_run_keeps run s Hs) as [Hs' Hlr'].
  rewrite Hflow in Hblock. cbn [run_from]. rewrite Hat.
  destruct (guest_run run s).1 as [|t|t].
  - destruct Harr as (n' & l' & s' & Hn & Hl' & E & ->), Hblock as (sc' & -> & Ec), Hgo as [[next Hnext] _]. right.
    exists n', (u32 (a' + 4)), next, l', s', sc'. split_and!; try done; [by eapply pc_eq_wf|by rewrite (pc_eq_lr _ _ E)|].
    by rewrite <- E, Hrun2.
  - destruct Harr as (n' & l' & s' & Hn & Hl' & E & ->), Hblock as (sc' & -> & Ec), Hgo as [_ [next Hnext]]. right.
    exists n', t, next, l', s', sc'. split_and!; try done; [by eapply pc_eq_wf|by rewrite (pc_eq_lr _ _ E)|].
    by rewrite <- E, Hrun2.
  - destruct Harr as (l' & ->). left. exists l', t. eexists. split; [done|]. cbn in Hblock. rewrite Hblock. cbn.
    unfold at_branch. by rewrite (pc_eq_set a' (u32 (a' + 4)) _ _ Hrun2).
Qed.

Lemma function_loop n : forall fuel a run l s sc,
  run_at runs a run -> (n <= fuel)%nat -> stamps_current w l -> wf_state s -> u32 (lr s .& not64 3) = entry_return -> pc_eq s sc ->
  interrupted w (loop n l a s w) \/ both_return (loop n l a s w) (compiled fuel a sc w).
Proof.
  induction (lt_wf n) as [n _ IH]. intros fuel a run l s sc Hrun Hfuel Hl Hs Hlr Hpc.
  destruct n as [|n]; [left; apply loop_exhausted|]. destruct fuel as [|fuel]; [lia|].
  destruct (block_and_run a run l s sc (S n) fuel Hrun Hl Hs Hlr Hpc)
    as [Hint|[Hret|(n' & t & next & l' & s' & sc' & Hn & Hnext & Hl' & Hs' & Hlr' & Hpc' & -> & ->)]]; [by left|by right|].
  apply (IH n' Hn fuel t next); try done; [lia|by rewrite Hlr'].
Qed.
End Loop.

(** C2: a compiled leaf function does what the interpreter does. A leaf function has
    unlinked branches into itself or to LR, and integer instructions other than the [o]
    forms of neg, mulld, mullw, divd, divdu, divw and divwu and the algebraic right
    shifts onto one of their own source registers. Over the words it was compiled from, with any register contents, the fallback interpreter either uses up
    its instruction budget or returns; and when it returns, the generated code of the
    optimised function, run block after block, returns with the same result, the same
    registers and the same memory. *)
Theorem compiled_function_interprets entry ranges d f config (s : CpuState) (w : W) :
  Forall range_wf ranges -> fits ranges ->
  decode_ranges ranges [] = inr d -> leaf_function d = true -> compile_ranges entry ranges = inr f ->
  installed d w -> wf_state s ->
  exists r s1, try_execute config tail_fuel entry LookupCall s w = Some (Some r, s1, w) /\
    (rr_reason r = InstructionLimit \/
     rr_reason r = Returned /\ exists result, rr_result r = Some result /\
       forall fuel, (fc_max_instructions_per_dispatch (checked_config config) <= fuel)%nat ->
         run_function tail_fuel f direct_calls Emitted fuel s w = Some (Some result, s1, w)).
Proof.
  intros Hranges Hfits Hdecode Hleaf Hf Hin Hs. unfold compile_ranges in Hf.
  destruct (lift_function entry ranges) as [e|f0] eqn:Hlift; [done|].
  destruct (vr_ok (verify_function f0)); [|done]. cbn [negb] in Hf.
  destruct (vr_ok (verify_function (optimize_function f0))); [|done]. injection Hf as <-.
  destruct (lift_function_lifted entry ranges f0 d Hranges Hlift Hdecode (fits_decoded _ _ Hfits Hdecode)) as [runs Hl].
  destruct (entry_run entry ranges d runs f0 Hlift Hdecode Hl) as [run Hrun].
  assert (Hentry : exists i, (entry, i) ∈ d).
  { destruct Hrun as [Hr Hh]. destruct run as [|[a i] run]; [done|]. injection Hh as ->. exists i.
    apply (run_in_map entry ranges d runs f0 Hl ((entry, i) :: run)); [done|by left]. }
  destruct Hentry as [i Hi]. destruct (map_is_ok ranges d Hranges Hdecode) as [_ Hall].
  rewrite Forall_forall in Hall. destruct (Hall _ Hi) as (_ & Hal & _). cbn in Hal.
  unfold try_execute. cbn [FallbackRun.run]. rewrite Hal. cbn [Z.eqb negb].
  rewrite (in_executable d w Hin entry i Hi), (in_thunk d w Hin entry i Hi). cbn [negb].
  set (limit := fc_max_instructions_per_dispatch _).
  set (nested := λ target, FallbackRun.run (checked_config config) tail_fuel _ target LookupCall).
  pose proof (λ fuel Hfuel, function_loop nested (u32 (lr s .& not64 3)) w entry ranges d runs f0 Hranges Hfits Hlift Hdecode
    Hleaf Hl Hin limit fuel entry run at_entry s s Hrun Hfuel (map_Forall_empty _) Hs eq_refl (reflexivity s)) as Hloop.
  destruct (Hloop _ (le_n _)) as [(r & s1 & E & Hr)|(l & t & s1 & E & _)]; [by eauto 10|].
  eexists _, s1. split; [exact E|]. right. split; [done|]. eexists. split; [done|]. intros fuel Hfuel.
  destruct (Hloop fuel Hfuel) as [(r' & s2 & E' & Hr')|(l' & t' & s2 & E' & Hc)]; rewrite E in E'.
  - injection E' as <- <-. done.
  - injection E' as _ <- _ _ <-. unfold run_function. cbn. by rewrite (lf_entry _ _ _ _ _ Hl).
Qed.
End Function.

(** ** Witness *)

(** [li r3,0; li r4,3; add r3,r3,r4; addic. r4,r4,-1; bne -8; blr] *)
Definition sum_base : GuestAddress := 0x82000000.
Definition sum_words : list Z := [0x38600000; 0x38800003; 0x7C632214; 0x3484FFFF; 0x4082FFF8; 0x4E800020].
Definition sum_range : FunctionCodeRange := mkRange sum_base sum_words.
Definition sum_decoded : Decoded := match decode_ranges [sum_range] [] with inr d => d | inl _ => [] end.
Definition sum_function : Function :=
  match compile_ranges sum_base [sum_range] with inr f => f | inl _ => mkFunction 0 [] end.
Definition sum_memory : FlatMemory :=
  foldl (λ m '(a, i), snd (write32_be a (di_word i) m)) (flat_init 24 sum_base) sum_decoded.
Definition sum_config : DynamicFallbackConfig := mkConfig 50 1.

Lemma sum_installed : installed sum_decoded sum_memory.
Proof.
  assert (H : map (λ x, em_fetch32_be x.1 sum_memory) sum_decoded = map (λ x, (Some (di_word x.2), sum_memory)) sum_decoded)
    by (vm_compute; reflexivity).
  split; [|by intros; cbn..]. intros a i Hin%list_elem_of_In. rewrite List.map_ext_in_iff in H. exact (H (a, i) Hin).
Qed.

Lemma sum_range_wf : Forall range_wf [sum_range].
Proof. by repeat constructor. Qed.

Lemma null_polls s (w : FlatMemory) : rt_poll_safepoint s w = (true, s, w).
Proof. reflexivity. Qed.

(** The loop adds three, two and one, interpreted and compiled. *)
Lemma compiled_function_interprets_witness :
  leaf_function sum_decoded = true /\ length (f_blocks sum_function) = 3%nat /\
  exists s1, get_gpr s1 3 = 6 /\
    run_function 0 sum_function [] Emitted 50 CpuState_init sum_memory =
      Some (Some (mkResult RReturn 0 0), s1, sum_memory).
Proof.
  split; [vm_compute; reflexivity|split; [vm_compute; reflexivity|]].
  destruct (compiled_function_interprets (W := FlatMemory) 0 [] null_polls sum_base [sum_range] sum_decoded
    sum_function sum_config CpuState_init sum_memory) as (r & s1 & E & Hr).
  - exact sum_range_wf.
  - apply Z.leb_le. vm_compute. reflexivity.
  - vm_compute. reflexivity.
  - vm_compute. reflexivity.
  - vm_compute. reflexivity.
  - exact sum_installed.
  - apply wf_init.
  - exists s1. assert (Hsum : option_map (λ '(o, s, _), (rr_reason <$> o, rr_result <$> o, get_gpr s 3))
      (try_execute sum_config 0 sum_base LookupCall CpuState_init sum_memory) =
      Some (Some Returned, Some (Some (mkResult RReturn 0 0)), 6)) by (vm_compute; reflexivity).
    rewrite E in Hsum. cbn in Hsum. injection Hsum as Hreason Hresult Hg. split; [exact Hg|].
    destruct Hr as [Hr|(_ & result & Hres & Hrun)]; [congruence|].
    replace (mkResult RReturn 0 0) with result by congruence. apply Hrun. cbn. lia.
Defined.
