(* ===== verification/PhysicalRanges.v ===== *)
(** * Physical page ranges
    (src/memory/guest/physical/physical_page_tracking.hpp)

    [PhysicalRangeAllocator] keeps the free physical pages, and the retired ones that
    wait for the readers of old translations, as ordered maps from a first page to a
    count. It refines a set of pages: what it hands out was in the set, is aligned and
    in bounds, and it fails only when there is no such run. *)

From Stdlib Require Import Sorted.
From S2P Require Import Prelude.
From S2P Require Import Words.

(** address_space.hpp, types.hpp *)
Definition kPhysicalMemorySize : Z := 0x20000000.
Definition kBasePageSize : Z := 0x1000.
Definition kPhysicalPageCount : Z := kPhysicalMemorySize / kBasePageSize.

(** [std::has_single_bit]. *)
Definition has_single_bit (x : Z) : bool := negb (x =? 0) && (x .& (x - 1) =? 0).

(** ** The ordered map of ranges *)

(** First page and count, ascending. *)
Definition RangeMap : Type := list (Z * Z).

(** [emplace]: nothing happens when the key is there. *)
Fixpoint range_emplace (first count : Z) (ranges : RangeMap) : RangeMap :=
  match ranges with
  | [] => [(first, count)]
  | (f, c) :: rest =>
      if f =? first then ranges
      else if first <? f then (first, count) :: ranges
      else (f, c) :: range_emplace first count rest
  end.

Definition range_erase (first : Z) (ranges : RangeMap) : RangeMap :=
  List.filter (λ r, negb (fst r =? first)) ranges.

(** [*lower_bound(page)]: the first range that starts at [page] or later. *)
Definition lower_bound (page : Z) (ranges : RangeMap) : option (Z * Z) :=
  List.find (λ r, page <=? fst r) ranges.

(** The range before [upper_bound(page)], and the one before [lower_bound(page)]. *)
Definition last_at_most (page : Z) (ranges : RangeMap) : option (Z * Z) :=
  last (List.filter (λ r, fst r <=? page) ranges).
Definition last_before (page : Z) (ranges : RangeMap) : option (Z * Z) :=
  last (List.filter (λ r, fst r <? page) ranges).

(** ** The allocator *)

Record PhysicalRangeAllocator : Type := mkRangeAllocator {
  free_ranges : RangeMap;
  retired_ranges : RangeMap
}.

Definition align_page_up (value alignment : Z) : Z := u32 (u32 (value + alignment) - 1) .& not32 (u32 (alignment - 1)).
Definition align_page_down (value alignment : Z) : Z := value .& not32 (u32 (alignment - 1)).

Definition contains (ranges : RangeMap) (first count : Z) : bool :=
  if count =? 0 then false
  else match last_at_most first ranges with
       | None => false
       | Some (f, c) => (f <=? first) && (first + count <=? f + c)
       end.

(** [consume]: the range [r] without the pages from [first] on. *)
Definition consume (r : Z * Z) (first count : Z) (ranges : RangeMap) : RangeMap :=
  let '(f, c) := r in
  let range_end := u32 (f + c) in
  let allocation_end := u32 (first + count) in
  let ranges := range_erase f ranges in
  let ranges := if f <? first then range_emplace f (u32 (first - f)) ranges else ranges in
  if allocation_end <? range_end
  then range_emplace allocation_end (u32 (range_end - allocation_end)) ranges else ranges.

(** The neighbours of a range that touch it become part of it. *)
Definition absorb_previous (first count : Z) (ranges : RangeMap) : Z * Z * RangeMap :=
  match last_before first ranges with
  | Some (f, c) => if f + c =? first then (f, u32 (count + c), range_erase f ranges) else (first, count, ranges)
  | None => (first, count, ranges)
  end.
Definition absorb_next (first count : Z) (ranges : RangeMap) : Z * RangeMap :=
  match lower_bound first ranges with
  | Some (f, c) => if first + count =? f then (u32 (count + c), range_erase f ranges) else (count, ranges)
  | None => (count, ranges)
  end.

Definition insert_coalesced (first count : Z) (ranges : RangeMap) : bool * RangeMap :=
  if count =? 0 then (false, ranges)
  else
    let end_page := first + count in
    if kPhysicalPageCount <? end_page then (false, ranges)
    else if match lower_bound first ranges with Some (f, _) => f <? end_page | None => false end
    then (false, ranges)
    else
      if match last_before first ranges with Some (f, c) => first <? f + c | None => false end then (false, ranges)
      else
        let '(merged_first, merged_count, ranges) := absorb_previous first count ranges in
        let '(merged_count, ranges) := absorb_next merged_first merged_count ranges in
        (true, range_emplace merged_first merged_count ranges).

(** Where a request fits in one range, from its low or from its high end. *)
Definition fit_low (count alignment minimum maximum : Z) (r : Z * Z) : option Z :=
  let range_first := Z.max (fst r) minimum in
  let range_end := Z.min (fst r + snd r) maximum in
  if range_end <=? range_first then None
  else
    let candidate := align_page_up range_first alignment in
    if range_end <? candidate + count then None else Some candidate.

Definition fit_high (count alignment minimum maximum : Z) (r : Z * Z) : option Z :=
  let range_first := Z.max (fst r) minimum in
  let range_end := Z.min (fst r + snd r) maximum in
  if (range_end <=? range_first) || (range_end - range_first <? count) then None
  else
    let candidate := align_page_down (u32 (range_end - count)) alignment in
    if candidate <? range_first then None else Some candidate.

(** The first range, in the order given, that the request fits. *)
Fixpoint first_fit (fit : Z * Z -> option Z) (l : RangeMap) : option (Z * Z * Z) :=
  match l with
  | [] => None
  | r :: l => match fit r with Some candidate => Some (r, candidate) | None => first_fit fit l end
  end.

Definition well_formed_request (count alignment minimum maximum : Z) : bool :=
  negb ((count =? 0) || (alignment =? 0) || negb (has_single_bit alignment) ||
        (maximum <=? minimum) || (kPhysicalPageCount <? maximum)).

Definition allocate_quietly (count alignment : Z) (top_down : bool) (minimum maximum : Z) (ranges : RangeMap)
    : option (Z * RangeMap) :=
  if negb (well_formed_request count alignment minimum maximum) then None
  else
    '(r, candidate) ← (if top_down then first_fit (fit_high count alignment minimum maximum) (rev ranges)
                       else first_fit (fit_low count alignment minimum maximum) ranges);
    Some (candidate, consume r candidate count ranges).

Definition set_free (l : RangeMap) (a : PhysicalRangeAllocator) : PhysicalRangeAllocator :=
  mkRangeAllocator l (retired_ranges a).
Definition set_retired (l : RangeMap) (a : PhysicalRangeAllocator) : PhysicalRangeAllocator :=
  mkRangeAllocator (free_ranges a) l.

Definition range_reset (first count : Z) : PhysicalRangeAllocator :=
  mkRangeAllocator (if count =? 0 then [] else [(first, count)]) [].

(** [allocate]; the exhaustion probe is a log. *)
Definition range_allocate (count alignment : Z) (top_down : bool) (minimum maximum : Z) (a : PhysicalRangeAllocator)
    : option (Z * PhysicalRangeAllocator) :=
  '(page, free) ← allocate_quietly count alignment top_down minimum maximum (free_ranges a);
  Some (page, set_free free a).

Definition contains_free (first count : Z) (a : PhysicalRangeAllocator) : bool := contains (free_ranges a) first count.
Definition contains_retired (first count : Z) (a : PhysicalRangeAllocator) : bool :=
  contains (retired_ranges a) first count.

Definition range_claim (first count : Z) (a : PhysicalRangeAllocator) : bool * PhysicalRangeAllocator :=
  if negb (contains_free first count a) then (false, a)
  else match last_at_most first (free_ranges a) with
       | Some r => (true, set_free (consume r first count (free_ranges a)) a)
       | None => (false, a)
       end.

Definition range_release (first count : Z) (a : PhysicalRangeAllocator) : bool * PhysicalRangeAllocator :=
  let '(ok, l) := insert_coalesced first count (free_ranges a) in (ok, set_free l a).
Definition range_retire (first count : Z) (a : PhysicalRangeAllocator) : bool * PhysicalRangeAllocator :=
  let '(ok, l) := insert_coalesced first count (retired_ranges a) in (ok, set_retired l a).

Definition has_retired_ranges (a : PhysicalRangeAllocator) : bool :=
  match retired_ranges a with [] => false | _ => true end.
Definition take_retired_ranges (a : PhysicalRangeAllocator) : RangeMap * PhysicalRangeAllocator :=
  (retired_ranges a, set_retired [] a).

(** ** Ordered maps *)

Lemma emplace_between first count l1 l2 :
  Forall (λ r, fst r < first) l1 -> Forall (λ r, first < fst r) l2 ->
  range_emplace first count (l1 ++ l2) = l1 ++ (first, count) :: l2.
Proof.
  intros H1 H2. induction H1 as [|[f c] l1 Hf _ IH]; cbn in *.
  - destruct H2 as [|[f c] l2 Hf _]; cbn in *; [done|].
    destruct (Z.eqb_spec f first); [lia|]. by destruct (Z.ltb_spec first f); [|lia].
  - destruct (Z.eqb_spec f first); [lia|]. destruct (Z.ltb_spec first f); [lia|]. by rewrite IH.
Qed.

Lemma filter_all {A} (p : A -> bool) l : Forall (λ x, p x = true) l -> List.filter p l = l.
Proof. induction 1 as [|x l Hx _ IH]; cbn; [done|]. by rewrite Hx, IH. Qed.
Lemma filter_none {A} (p : A -> bool) l : Forall (λ x, p x = false) l -> List.filter p l = [].
Proof. induction 1 as [|x l Hx _ IH]; cbn; [done|]. by rewrite Hx. Qed.

Lemma erase_between first count l1 l2 :
  Forall (λ r, fst r < first) l1 -> Forall (λ r, first < fst r) l2 ->
  range_erase first (l1 ++ (first, count) :: l2) = l1 ++ l2.
Proof.
  intros H1 H2. unfold range_erase. rewrite List.filter_app. cbn. rewrite Z.eqb_refl. cbn.
  rewrite !filter_all; [done|eapply Forall_impl; [exact H2|]|eapply Forall_impl; [exact H1|]];
    cbn; intros r Hr; apply negb_true_iff, Z.eqb_neq; lia.
Qed.

Lemma lower_bound_between page l1 l2 :
  Forall (λ r, fst r < page) l1 -> Forall (λ r, page <= fst r) l2 -> lower_bound page (l1 ++ l2) = head l2.
Proof.
  intros H1 H2. unfold lower_bound. induction H1 as [|r l1 Hr _ IH]; cbn.
  - destruct H2 as [|r l2 Hr _]; [done|]. cbn. by rewrite (proj2 (Z.leb_le _ _)).
  - by destruct (Z.leb_spec page (fst r)); [lia|].
Qed.

Lemma last_before_between page l1 l2 :
  Forall (λ r, fst r < page) l1 -> Forall (λ r, page <= fst r) l2 -> last_before page (l1 ++ l2) = last l1.
Proof.
  intros H1 H2. unfold last_before. rewrite List.filter_app, (filter_all _ l1), (filter_none _ l2), app_nil_r; [done|..].
  - eapply Forall_impl; [exact H2|]. cbn. intros r Hr. by apply Z.ltb_ge.
  - eapply Forall_impl; [exact H1|]. cbn. intros r Hr. by apply Z.ltb_lt.
Qed.

Lemma last_at_most_before page l : last_at_most page l = last_before (page + 1) l.
Proof.
  unfold last_at_most, last_before. f_equal. apply List.filter_ext. intros r.
  destruct (Z.leb_spec (fst r) page), (Z.ltb_spec (fst r) (page + 1)); (done || lia).
Qed.

(** ** Well-formed ranges and the pages they cover *)

(** There is a gap between the ranges. *)
Definition before (r r' : Z * Z) : Prop := fst r + snd r < fst r'.
Definition extent_ok (r : Z * Z) : Prop := 0 <= fst r /\ 0 < snd r /\ fst r + snd r <= kPhysicalPageCount.
Definition ranges_ok (l : RangeMap) : Prop := StronglySorted before l /\ Forall extent_ok l.

Definition in_range (r : Z * Z) (page : Z) : Prop := fst r <= page < fst r + snd r.
Definition covers (l : RangeMap) (page : Z) : Prop := Exists (λ r, in_range r page) l.

Lemma covers_app l1 l2 page : covers (l1 ++ l2) page <-> covers l1 page \/ covers l2 page.
Proof. apply Exists_app. Qed.
Lemma covers_cons r l page : covers (r :: l) page <-> in_range r page \/ covers l page.
Proof. apply Exists_cons. Qed.
Lemma covers_nil page : covers [] page <-> False.
Proof. apply Exists_nil. Qed.

Lemma ranges_ok_app l1 l2 :
  ranges_ok (l1 ++ l2) <-> ranges_ok l1 /\ ranges_ok l2 /\ Forall (λ r, Forall (before r) l2) l1.
Proof.
  unfold ranges_ok. rewrite Forall_app. induction l1 as [|r l1 IH]; cbn.
  - split; [intros [? [_ ?]]; by split_and!; [constructor|..]|]. tauto.
  - split.
    + intros [Hs [Hr H2]]. apply StronglySorted_inv in Hs as [Hs Hb]. apply Forall_app in Hb as [Hb1 Hb2].
      apply Forall_cons in Hr as [Hr H1]. destruct (proj1 IH (conj Hs (conj H1 H2))) as ([? ?] & [? ?] & ?).
      split_and!; (done || by constructor).
    + intros ([Hs Hr] & [Hs2 H2] & Hb). apply StronglySorted_inv in Hs as [Hs Hb1].
      apply Forall_cons in Hr as [Hr H1]. apply Forall_cons in Hb as [Hbr Hb].
      destruct (proj2 IH) as [? [? ?]]; [done|]. split; [constructor; [done|by apply Forall_app]|].
      split; [by constructor|done].
Qed.

Lemma ranges_ok_cons r l : ranges_ok (r :: l) <-> extent_ok r /\ Forall (before r) l /\ ranges_ok l.
Proof.
  unfold ranges_ok. rewrite Forall_cons. split.
  - intros [Hs ?]. apply StronglySorted_inv in Hs. tauto.
  - intros (? & ? & ? & ?). split; [by constructor|done].
Qed.

(** The ranges around one of them. *)
Lemma ranges_around l1 f c l2 :
  ranges_ok (l1 ++ (f, c) :: l2) ->
  Forall (λ r, fst r + snd r < f /\ extent_ok r) l1 /\ Forall (λ r, f + c < fst r /\ extent_ok r) l2 /\ extent_ok (f, c) /\
  ranges_ok l1 /\ ranges_ok l2.
Proof.
  intros (H1 & H2 & Hb)%ranges_ok_app. apply ranges_ok_cons in H2 as (Hr & Hr2 & H2). split_and!; try done.
  - apply Forall_and. split; [|apply H1]. eapply Forall_impl; [exact Hb|]. cbn. by intros r [? _]%Forall_cons.
  - apply Forall_and. split; [exact Hr2|apply H2].
Qed.

Lemma split_at page l :
  ranges_ok l -> exists l1 l2, l = l1 ++ l2 /\ Forall (λ r, fst r < page) l1 /\ Forall (λ r, page <= fst r) l2.
Proof.
  induction l as [|r l IH]; [by exists [], []|]. intros (Hr & Hb & Hl)%ranges_ok_cons.
  destruct (IH Hl) as (l1 & l2 & -> & H1 & H2). destruct (Z.lt_ge_cases (fst r) page) as [Hlt|Hge].
  - exists (r :: l1), l2. split_and!; [done|by constructor|done].
  - exists [], (r :: l1 ++ l2). split_and!; [done|done|]. constructor; [done|].
    eapply Forall_impl; [exact Hb|]. cbn. unfold before, extent_ok in *. intros r' Hr'. lia.
Qed.

Lemma covers_bounds l page : ranges_ok l -> covers l page -> 0 <= page < kPhysicalPageCount.
Proof.
  intros [_ Hl] Hc. unfold covers in Hc. apply Exists_exists in Hc as (r & Hr & Hin).
  rewrite Forall_forall in Hl. pose proof (Hl r Hr) as H. unfold extent_ok, in_range in *. lia.
Qed.

Lemma small_u32 x : 0 <= x <= kPhysicalPageCount -> u32 x = x.
Proof. change kPhysicalPageCount with 0x20000. intros Hx. apply u32_small. unfold is_u32. lia. Qed.

(** ** Insertion *)

(** Pages [first] to [first + count] are not covered. *)
Definition uncovered (l : RangeMap) (first count : Z) : Prop :=
  forall page, first <= page < first + count -> ~ covers l page.

Lemma uncovered_split l1 l2 first count :
  ranges_ok (l1 ++ l2) -> Forall (λ r, fst r < first) l1 -> Forall (λ r, first <= fst r) l2 -> 0 < count ->
  uncovered (l1 ++ l2) first count <->
  match head l2 with Some r => first + count <= fst r | None => True end /\
  match last l1 with Some r => fst r + snd r <= first | None => True end.
Proof.
  intros Hok H1 H2 Hc. split.
  - intros Hu. split.
    + destruct l2 as [|[f c] l2]; [done|]. cbn. apply Forall_cons in H2 as [Hf _]. cbn in Hf.
      destruct (Z.le_gt_cases (first + count) f) as [|Hlt]; [done|]. exfalso. apply (Hu f); [lia|].
      apply ranges_around in Hok as (_ & _ & (_ & Hc' & _) & _). cbn in Hc'.
      rewrite covers_app, covers_cons. right; left. unfold in_range. cbn. lia.
    + destruct l1 as [|[f c] l1] using rev_ind; [done|]. rewrite last_snoc. cbn.
      apply Forall_app in H1 as [_ H1]. apply Forall_cons in H1 as [Hf _]. cbn in Hf.
      destruct (Z.le_gt_cases (f + c) first) as [|Hlt]; [done|]. exfalso. apply (Hu first); [lia|].
      rewrite !covers_app, covers_cons. left; right; left. unfold in_range. cbn. lia.
  - intros [Hh Hl] page Hp. rewrite covers_app. apply ranges_ok_app in Hok as (Hok1 & Hok2 & Hb). intros [Hcov|Hcov].
    + destruct l1 as [|[f c] l1] using rev_ind; [by apply covers_nil in Hcov|]. rewrite last_snoc in Hl. cbn in Hl.
      apply ranges_around in Hok1 as (Hb1 & _ & _ & _). rewrite covers_app, covers_cons, covers_nil in Hcov.
      destruct Hcov as [Hcov|[Hcov|[]]]; [|unfold in_range in Hcov; cbn in Hcov; lia].
      apply Exists_exists in Hcov as (r & Hr & Hin). rewrite Forall_forall in Hb1. pose proof (Hb1 r Hr) as [? _].
      apply Forall_app in H1 as [_ H1]. apply Forall_cons in H1 as [Hf _]. unfold in_range in Hin. cbn in Hf. lia.
    + apply Exists_exists in Hcov as (r & Hr & Hin). destruct l2 as [|[f c] l2]; [by apply elem_of_nil in Hr|].
      cbn in Hh. apply ranges_ok_cons in Hok2 as (Hr0 & Hb2 & _). unfold extent_ok, in_range in *. cbn in *.
      apply elem_of_cons in Hr as [->|Hr]; [cbn in *; lia|]. rewrite Forall_forall in Hb2.
      pose proof (Hb2 r Hr) as Hbr. unfold before in Hbr. cbn in Hbr. lia.
Qed.

(** The range and its neighbours as one, or apart from them. *)
Definition joined (l1 : RangeMap) (first count : Z) (l2 : RangeMap) (l : RangeMap) : Prop :=
  ranges_ok l /\ forall page, covers l page <-> covers (l1 ++ l2) page \/ first <= page < first + count.

Lemma absorb_next_joined l1 first count l2 :
  ranges_ok (l1 ++ l2) -> Forall (λ r, fst r + snd r < first) l1 -> Forall (λ r, first <= fst r) l2 -> 0 <= first -> 0 < count ->
  match head l2 with Some r => first + count <= fst r | None => first + count <= kPhysicalPageCount end ->
  let '(count', l') := absorb_next first count (l1 ++ l2) in joined l1 first count l2 (range_emplace first count' l').
Proof.
  intros Hok H1 H2 Hf Hc Hh. pose proof Hok as (Hok1 & Hok2 & Hb)%ranges_ok_app.
  assert (Hlt : Forall (λ r, fst r < first) l1).
  { destruct Hok1 as [_ Hr]. rewrite Forall_forall in Hr, H1. apply Forall_forall. intros r Hin.
    destruct (Hr r Hin) as (_ & ? & _). specialize (H1 r Hin). cbn in H1. lia. }
  unfold absorb_next. rewrite lower_bound_between by done. unfold joined. destruct l2 as [|[f c] l2]; cbn [head] in *.
  - rewrite app_nil_r. pose proof (emplace_between first count l1 [] Hlt (List.Forall_nil _)) as E. rewrite app_nil_r in E.
    rewrite E. split.
    + apply ranges_ok_app. split_and!; [done|by repeat constructor|]. eapply Forall_impl; [exact H1|].
      intros r Hr. by repeat constructor.
    + intros page. rewrite covers_app, covers_cons, covers_nil. unfold in_range. cbn. tauto.
  - cbn in Hh. apply ranges_around in Hok as (Hb1 & Hb2 & (Hf' & Hc' & Hend) & _ & Hok2'). cbn in *.
    assert (Hgt : Forall (λ r, f < fst r) l2) by (eapply Forall_impl; [exact Hb2|]; cbn; intros r [? _]; lia).
    destruct (Z.eqb_spec (first + count) f) as [E|E].
    + rewrite small_u32 by lia. rewrite erase_between, emplace_between; try done.
      * split.
        -- apply ranges_ok_app. split_and!; [done| |].
           ++ apply ranges_ok_cons. split_and!; [by repeat split; cbn; lia| |done].
              eapply Forall_impl; [exact Hb2|]. unfold before. cbn. intros r [? _]. lia.
           ++ apply Forall_forall. intros r Hin. rewrite Forall_forall in H1, Hb. constructor; [by apply H1|].
              specialize (Hb r Hin). by apply Forall_cons in Hb as [_ ?].
        -- intros page. rewrite !covers_app, !covers_cons. unfold in_range. cbn. intuition lia.
      * eapply Forall_impl; [exact Hb2|]. cbn. intros r [? _]. lia.
      * eapply Forall_impl; [exact Hb1|]. cbn. intros r [? [? [? ?]]]. lia.
    + rewrite emplace_between; [|done|].
      * split.
        -- apply ranges_ok_app. split_and!; [done| |].
           ++ apply ranges_ok_cons. split_and!; [by repeat split; cbn; lia| |done].
              constructor; [unfold before; cbn; lia|]. eapply Forall_impl; [exact Hb2|]. unfold before. cbn. intros r [? _]. lia.
           ++ apply Forall_forall. intros r Hin. rewrite Forall_forall in H1, Hb. constructor; [by apply H1|by apply Hb].
        -- intros page. rewrite !covers_app, !covers_cons. unfold in_range. cbn. intuition lia.
      * constructor; [cbn; lia|]. eapply Forall_impl; [exact Hgt|]. cbn. lia.
Qed.

Lemma insert_coalesced_spec first count l :
  ranges_ok l -> 0 <= first -> 0 <= count ->
  match insert_coalesced first count l with
  | (true, l') => ranges_ok l' /\ uncovered l first count /\ 0 < count /\ first + count <= kPhysicalPageCount /\
      forall page, covers l' page <-> covers l page \/ first <= page < first + count
  | (false, l') => l' = l /\ (0 < count -> first + count <= kPhysicalPageCount -> ~ uncovered l first count)
  end.
Proof.
  intros Hok Hf Hc. destruct (split_at first l Hok) as (l1 & l2 & -> & H1 & H2). unfold insert_coalesced.
  rewrite lower_bound_between, last_before_between by done.
  destruct (Z.eqb_spec count 0); [split; [done|lia]|]. assert (Hc' : 0 < count) by lia.
  destruct (Z.ltb_spec kPhysicalPageCount (first + count)); [split; [done|lia]|].
  pose proof (uncovered_split l1 l2 first count Hok H1 H2 Hc') as Hu.
  destruct (match head l2 with Some (f, _) => f <? first + count | None => false end) eqn:En.
  { split; [done|]. intros _ _ [Hh _]%Hu. destruct (head l2) as [[f c]|]; [|done]. apply Z.ltb_lt in En. cbn in Hh. lia. }
  destruct (match last l1 with Some (f, c) => first <? f + c | None => false end) eqn:Ep.
  { split; [done|]. intros _ _ [_ Hh]%Hu. destruct (last l1) as [[f c]|]; [|done]. apply Z.ltb_lt in Ep. cbn in Hh. lia. }
  assert (Hn : match head l2 with Some r => first + count <= fst r | None => first + count <= kPhysicalPageCount end).
  { destruct (head l2) as [[f c]|]; [|done]. by apply Z.ltb_ge in En. }
  assert (Hunc : uncovered (l1 ++ l2) first count).
  { apply Hu. split; [by destruct (head l2)|]. destruct (last l1) as [[f c]|]; [|done]. by apply Z.ltb_ge in Ep. }
  assert (Happly : forall l1' f c, ranges_ok (l1' ++ l2) -> Forall (λ r, fst r + snd r < f) l1' -> 0 <= f <= first -> 0 < c ->
    f + c = first + count ->
    (forall page, covers (l1' ++ l2) page \/ f <= page < f + c <-> covers (l1 ++ l2) page \/ first <= page < first + count) ->
    let '(c', l') := absorb_next f c (l1' ++ l2) in
    ranges_ok (range_emplace f c' l') /\
    forall page, covers (range_emplace f c' l') page <-> covers (l1 ++ l2) page \/ first <= page < first + count).
  { intros l1' f c Hok' Hb Hf' Hcc Hend Hcov.
    pose proof (absorb_next_joined l1' f c l2 Hok' Hb) as Hj. destruct (absorb_next f c (l1' ++ l2)) as [c' l'].
    destruct Hj as [Hj1 Hj2]; [eapply Forall_impl; [exact H2|cbn; lia]|lia|lia|by rewrite Hend|].
    split; [done|]. intros page. by rewrite Hj2. }
  unfold absorb_previous. rewrite last_before_between by done.
  destruct (last l1) as [[f c]|] eqn:El.
  - apply last_Some in El as [l1' ->]. rewrite <- app_assoc in *. cbn [app] in *. apply Z.ltb_ge in Ep.
    pose proof (ranges_around _ _ _ _ Hok) as (Hb1 & Hb2 & (Hf' & Hc'' & _) & Hok1 & Hok2). cbn in *.
    apply Forall_app in H1 as [H1 H1f]. apply Forall_cons in H1f as [Hlt _]. cbn in Hlt.
    destruct (Z.eqb_spec (f + c) first) as [Ef|Ef].
    + assert (Hgt : Forall (λ r, f < fst r) l2) by (eapply Forall_impl; [exact H2|]; cbn; lia).
      assert (Hlt1 : Forall (λ r, fst r < f) l1').
      { eapply Forall_impl; [exact Hb1|]. cbn. intros r [? (_ & ? & _)]. lia. }
      rewrite erase_between by done. rewrite small_u32 by lia.
      pose proof (Happly l1' f (count + c)) as Hj. destruct (absorb_next f (count + c) (l1' ++ l2)) as [c' l'].
      destruct Hj as [? ?]; [..|by split_and!].
      * apply ranges_ok_app in Hok as (_ & _ & Hb). apply ranges_ok_app. split_and!; [done..|].
        eapply Forall_impl; [exact Hb|]. cbn. by intros r [_ ?]%Forall_cons.
      * eapply Forall_impl; [exact Hb1|]. by intros r [? _].
      * lia.
      * lia.
      * lia.
      * intros page. rewrite !covers_app, covers_cons. unfold in_range. cbn. intuition lia.
    + assert (Hb : Forall (λ r, fst r + snd r < first) (l1' ++ [(f, c)])).
      { apply Forall_app. split; [|repeat constructor; cbn; lia]. eapply Forall_impl; [exact Hb1|]. cbn. intros r [? _]. lia. }
      replace (l1' ++ (f, c) :: l2) with ((l1' ++ [(f, c)]) ++ l2) in * by (by rewrite <- app_assoc).
      pose proof (Happly (l1' ++ [(f, c)]) first count) as Hj. destruct (absorb_next first count _) as [c' l'].
      destruct Hj as [? ?]; [(done || lia)..|by split_and!].
  - apply last_None in El as ->. cbn [app] in *.
    pose proof (Happly [] first count) as Hj. cbn [app] in Hj. destruct (absorb_next first count l2) as [c' l'].
    destruct Hj as [? ?]; [(done || lia)..|by split_and!].
Qed.

(** ** Taking pages out of a range *)

Lemma consume_spec l1 f c l2 first count :
  ranges_ok (l1 ++ (f, c) :: l2) -> f <= first -> 0 < count -> first + count <= f + c ->
  let l' := consume (f, c) first count (l1 ++ (f, c) :: l2) in
  ranges_ok l' /\ forall page, covers l' page <-> covers (l1 ++ (f, c) :: l2) page /\ ~ first <= page < first + count.
Proof.
  intros Hok Hf Hc Hend. pose proof (ranges_around _ _ _ _ Hok) as (H1 & H2 & (Hf0 & Hc0 & Hend0) & Hok1 & Hok2).
  cbn in Hf0, Hc0, Hend0. pose proof Hok as (_ & _ & Hb)%ranges_ok_app. unfold consume.
  assert (Hout : forall page, f <= page < f + c -> ~ covers l1 page /\ ~ covers l2 page).
  { intros page Hp. split; intros Hcov; apply Exists_exists in Hcov as (r & Hr & Hin); unfold in_range in Hin.
    - rewrite Forall_forall in H1. pose proof (H1 r Hr) as [? _]. lia.
    - rewrite Forall_forall in H2. pose proof (H2 r Hr) as [? _]. lia. }
  assert (Hlt : Forall (λ r, fst r < f) l1).
  { eapply Forall_impl; [exact H1|]. cbn. intros r [? (_ & ? & _)]. lia. }
  assert (Hgt : forall n, n <= f + c -> Forall (λ r, n < fst r) l2).
  { intros n Hn. eapply Forall_impl; [exact H2|]. cbn. intros r [? _]. lia. }
  rewrite erase_between by (done || apply Hgt; lia). rewrite !small_u32 by lia.
  assert (Hleft : exists m, (if f <? first then range_emplace f (first - f) (l1 ++ l2) else l1 ++ l2) = l1 ++ m ++ l2 /\
    ranges_ok m /\ Forall (λ r, f <= fst r /\ fst r + snd r <= first) m /\ (forall page, covers m page <-> f <= page < first)).
  { destruct (Z.ltb_spec f first).
    - exists [(f, first - f)]. rewrite emplace_between by (done || apply Hgt; lia). split_and!; [done| |..].
      + by repeat constructor; cbn; lia.
      + repeat constructor; cbn; lia.
      + intros page. rewrite covers_cons, covers_nil. unfold in_range. cbn. intuition lia.
    - exists []. split_and!; [done|by repeat constructor|done|]. intros page. rewrite covers_nil. lia. }
  destruct Hleft as (m & -> & Hm & Hmb & Hmc).
  assert (Hright : exists m', (if first + count <? f + c then range_emplace (first + count) (f + c - (first + count)) (l1 ++ m ++ l2)
      else l1 ++ m ++ l2) = l1 ++ (m ++ m') ++ l2 /\
    ranges_ok m' /\ Forall (λ r, first + count <= fst r /\ fst r + snd r <= f + c) m' /\
    (forall page, covers m' page <-> first + count <= page < f + c)).
  { destruct (Z.ltb_spec (first + count) (f + c)).
    - exists [(first + count, f + c - (first + count))]. rewrite app_assoc, emplace_between; [|..].
      + split_and!; [by rewrite <- !app_assoc| |..].
        * by repeat constructor; cbn; lia.
        * repeat constructor; cbn; lia.
        * intros page. rewrite covers_cons, covers_nil. unfold in_range. cbn. intuition lia.
      + apply Forall_app. split; [eapply Forall_impl; [exact Hlt|cbn; lia]|].
        rewrite Forall_forall in Hmb. apply Forall_forall. intros r Hr. destruct Hm as [_ Hm]. rewrite Forall_forall in Hm.
        destruct (Hm r Hr) as (_ & ? & _), (Hmb r Hr). lia.
      + apply Hgt. lia.
    - exists []. split_and!; [by rewrite app_nil_r|by repeat constructor|done|]. intros page. rewrite covers_nil. lia. }
  destruct Hright as (m' & -> & Hm' & Hmb' & Hmc'). split.
  - assert (Hmid : ranges_ok (m ++ m')).
    { apply ranges_ok_app. split_and!; [done..|]. eapply Forall_impl; [exact Hmb|]. cbn. intros r [_ ?].
      eapply Forall_impl; [exact Hmb'|]. unfold before. cbn. lia. }
    assert (Hin : Forall (λ r, f <= fst r /\ fst r + snd r <= f + c) (m ++ m')).
    { apply Forall_app. split; [eapply Forall_impl; [exact Hmb|cbn; lia]|eapply Forall_impl; [exact Hmb'|cbn; lia]]. }
    apply ranges_ok_app. split_and!; [done| |].
    + apply ranges_ok_app. split_and!; [done..|]. eapply Forall_impl; [exact Hin|]. cbn. intros r [_ ?].
      eapply Forall_impl; [exact H2|]. unfold before. cbn. intros r' [? _]. lia.
    + apply Forall_forall. intros r Hr. rewrite Forall_forall in H1, Hb. destruct (H1 r Hr) as [? _].
      apply Forall_app. split; [eapply Forall_impl; [exact Hin|]; unfold before; cbn; lia|].
      specialize (Hb r Hr). by apply Forall_cons in Hb as [_ ?].
  - intros page. rewrite !covers_app, covers_cons, Hmc, Hmc'. unfold in_range. cbn.
    destruct (decide (f <= page < f + c)) as [Hp|Hp]; [destruct (Hout page Hp); intuition lia|intuition lia].
Qed.

(** ** Alignment *)

Lemma has_single_bit_spec x : 0 <= x -> has_single_bit x = true <-> exists k, 0 <= k /\ x = 2 ^ k.
Proof.
  intros Hx. unfold has_single_bit. rewrite andb_true_iff, negb_true_iff, Z.eqb_neq, Z.eqb_eq. split.
  - intros [Hne Hand]. exists (Z.log2 x). split; [apply Z.log2_nonneg|].
    destruct (Z.log2_spec x) as [Hlo Hhi]; [lia|]. destruct (Z.eq_dec x (2 ^ Z.log2 x)) as [|Hneq]; [done|exfalso].
    assert (Hbit : forall y, 2 ^ Z.log2 x <= y < 2 ^ Z.succ (Z.log2 x) -> Z.testbit y (Z.log2 x) = true).
    { intros y Hy. assert (Hpos : 0 < 2 ^ Z.log2 x) by (apply Z.pow_pos_nonneg; [lia|apply Z.log2_nonneg]).
      replace (Z.log2 x) with (Z.log2 y) by (apply Z.log2_unique; [apply Z.log2_nonneg|lia]).
      apply Z.bit_log2. lia. }
    pose proof (Z.land_spec x (x - 1) (Z.log2 x)) as Hl. rewrite Hand, Z.testbit_0_l, !Hbit in Hl by lia. done.
  - intros (k & Hk & ->). split; [pose proof (Z.pow_pos_nonneg 2 k); lia|].
    replace (2 ^ k - 1) with (Z.ones k) by (rewrite Z.ones_equiv; lia).
    rewrite Z.land_ones by done. by apply Z_mod_same_full.
Qed.

Section Alignment.
Context (k : Z).
Hypothesis Hk : 0 <= k < 32.

Lemma align_range : 0 < 2 ^ k <= 2 ^ 31.
Proof using Hk. split; [apply Z.pow_pos_nonneg; lia|apply Z.pow_le_mono_r; lia]. Qed.

Lemma align_down_floor x : is_u32 x -> align_page_down x (2 ^ k) = x / 2 ^ k * 2 ^ k.
Proof using Hk.
  intros Hx. pose proof align_range. unfold align_page_down. rewrite (u32_small (2 ^ k - 1)) by (unfold is_u32; lia).
  replace (2 ^ k - 1) with (Z.ones k) by (rewrite Z.ones_equiv; lia).
  unfold not32. change (u32 (Z.lnot (Z.ones k))) with (Z.lnot (Z.ones k) mod 2 ^ 32). rewrite <- Z.land_ones by lia.
  rewrite (Z.land_comm (Z.lnot _)), Z.land_assoc, (Z.land_ones x), Z.mod_small, <- Z.ldiff_land by (done || lia).
  rewrite Z.ldiff_ones_r, Z.shiftl_mul_pow2, Z.shiftr_div_pow2 by lia. done.
Qed.

Lemma align_down_spec x : is_u32 x ->
  let a := align_page_down x (2 ^ k) in (2 ^ k | a) /\ 0 <= a <= x /\ forall y, (2 ^ k | y) -> y <= x -> y <= a.
Proof using Hk.
  intros Hx. pose proof align_range. cbv zeta. rewrite align_down_floor by done.
  pose proof (Z.mul_div_le x (2 ^ k)). split_and!; [apply Z.divide_factor_r| |lia|].
  - apply Z.mul_nonneg_nonneg; [apply Z.div_pos; [apply Hx|]|]; lia.
  - intros y [z ->] Hy. apply Z.mul_le_mono_nonneg_r; [lia|]. apply Z.div_le_lower_bound; lia.
Qed.

Lemma align_up_spec x : 0 <= x <= kPhysicalPageCount ->
  let a := align_page_up x (2 ^ k) in (2 ^ k | a) /\ x <= a /\ forall y, (2 ^ k | y) -> x <= y -> a <= y.
Proof using Hk.
  change kPhysicalPageCount with 0x20000. intros Hx. pose proof align_range as Hr. change (2 ^ 31) with 0x80000000 in Hr. cbv zeta.
  assert (Hu : u32 (u32 (x + 2 ^ k) - 1) = x + 2 ^ k - 1) by (rewrite (u32_small (x + 2 ^ k)), u32_small; unfold is_u32; lia).
  unfold align_page_up. rewrite Hu. fold (align_page_down (x + 2 ^ k - 1) (2 ^ k)).
  destruct (align_down_spec (x + 2 ^ k - 1)) as (Hd & Hle & Hmax); [unfold is_u32; lia|].
  pose proof (align_down_floor (x + 2 ^ k - 1)) as Ea. split_and!; [done| |].
  - rewrite Ea by (unfold is_u32; lia).
    pose proof (Z.mod_pos_bound (x + 2 ^ k - 1) (2 ^ k)). pose proof (Z.div_mod (x + 2 ^ k - 1) (2 ^ k)). lia.
  - intros y [z ->] Hy. destruct Hd as [q Ha]. rewrite Ha in *. apply Z.mul_le_mono_nonneg_r; [lia|]. nia.
Qed.
End Alignment.

(** ** Allocation *)

(** The request fits at [x] in the range. *)
Definition fits_at (count alignment minimum maximum : Z) (r : Z * Z) (x : Z) : Prop :=
  (alignment | x) /\ minimum <= x /\ x + count <= maximum /\ fst r <= x /\ x + count <= fst r + snd r.

(** The request can be served at [x]: free pages, aligned, in bounds. *)
Definition available (l : RangeMap) (count alignment minimum maximum x : Z) : Prop :=
  (alignment | x) /\ minimum <= x /\ x + count <= maximum /\ forall page, x <= page < x + count -> covers l page.

Lemma covered_run l x count :
  ranges_ok l -> 0 < count -> (forall page, x <= page < x + count -> covers l page) ->
  exists r, r ∈ l /\ fst r <= x /\ x + count <= fst r + snd r.
Proof.
  intros Hok Hc Hcov. destruct (proj1 (Exists_exists _ _) (Hcov x ltac:(lia))) as ([f c] & Hr & Hin).
  exists (f, c). unfold in_range in Hin. cbn in *. split_and!; [done|lia|].
  destruct (Z.le_gt_cases (x + count) (f + c)) as [|Hgt]; [done|exfalso].
  apply list_elem_of_split in Hr as (l1 & l2 & ->). apply ranges_around in Hok as (H1 & H2 & (_ & Hc' & _) & _). cbn in Hc'.
  specialize (Hcov (f + c) ltac:(lia)). rewrite covers_app, covers_cons in Hcov. unfold in_range in Hcov. cbn in Hcov.
  destruct Hcov as [Hcov|[Hcov|Hcov]]; [|lia|]; apply Exists_exists in Hcov as (r & Hr & Hin'); unfold in_range in Hin'.
  - rewrite Forall_forall in H1. destruct (H1 r Hr) as [? _]. lia.
  - rewrite Forall_forall in H2. destruct (H2 r Hr) as [? _]. lia.
Qed.

Lemma available_fits l count alignment minimum maximum x :
  ranges_ok l -> 0 < count ->
  available l count alignment minimum maximum x <-> exists r, r ∈ l /\ fits_at count alignment minimum maximum r x.
Proof.
  intros Hok Hc. unfold available, fits_at. split.
  - intros (? & ? & ? & Hcov). destruct (covered_run l x count Hok Hc Hcov) as (r & ? & ? & ?). exists r. by split_and!.
  - intros (r & Hr & ? & ? & ? & ? & ?). split_and!; [done..|]. intros page Hp. apply Exists_exists. exists r.
    split; [done|]. unfold in_range. lia.
Qed.

Section Fit.
Context (count k minimum maximum : Z).
Hypothesis Hk : 0 <= k < 32.
Hypothesis Hcount : 0 < count.
Hypothesis Hbounds : 0 <= minimum /\ minimum < maximum /\ maximum <= kPhysicalPageCount.

Abbreviation fits := (fits_at count (2 ^ k) minimum maximum).

Lemma fit_low_spec r :
  extent_ok r ->
  match fit_low count (2 ^ k) minimum maximum r with
  | Some x => fits r x /\ forall y, fits r y -> x <= y
  | None => forall y, ~ fits r y
  end.
Proof using Hk Hcount Hbounds.
  intros (Hf & Hc & Hend). unfold fit_low, fits_at.
  destruct (Z.leb_spec (Z.min (fst r + snd r) maximum) (Z.max (fst r) minimum)); [intros y (_ & ? & ? & ? & ?); lia|].
  destruct (align_up_spec k Hk (Z.max (fst r) minimum)) as (Hd & Hle & Hmin); [lia|].
  set (a := align_page_up _ _) in *.
  destruct (Z.ltb_spec (Z.min (fst r + snd r) maximum) (a + count)).
  - intros y (Hy & ? & ? & ? & ?). specialize (Hmin y Hy). lia.
  - split; [split_and!; (done || lia)|]. intros y (Hy & ? & ? & ? & ?). apply Hmin; [done|lia].
Qed.

Lemma fit_high_spec r :
  extent_ok r ->
  match fit_high count (2 ^ k) minimum maximum r with
  | Some x => fits r x /\ forall y, fits r y -> y <= x
  | None => forall y, ~ fits r y
  end.
Proof using Hk Hcount Hbounds.
  intros (Hf & Hc & Hend). unfold fit_high, fits_at.
  destruct (Z.leb_spec (Z.min (fst r + snd r) maximum) (Z.max (fst r) minimum)); cbn [orb]; [intros y (_ & ? & ? & ? & ?); lia|].
  destruct (Z.ltb_spec (Z.min (fst r + snd r) maximum - Z.max (fst r) minimum) count); [intros y (_ & ? & ? & ? & ?); lia|].
  rewrite small_u32 by lia.
  assert (Hu : is_u32 (Z.min (fst r + snd r) maximum - count)).
  { unfold is_u32. change kPhysicalPageCount with 0x20000 in *. lia. }
  destruct (align_down_spec k Hk _ Hu) as (Hd & Hle & Hmax). set (a := align_page_down _ _) in *.
  destruct (Z.ltb_spec a (Z.max (fst r) minimum)).
  - intros y (Hy & ? & ? & ? & ?). specialize (Hmax y Hy). lia.
  - split; [split_and!; (done || lia)|]. intros y (Hy & ? & ? & ? & ?). apply Hmax; [done|lia].
Qed.
End Fit.

Lemma first_fit_spec fit l :
  match first_fit fit l with
  | Some (r, x) => exists l1 l2, l = l1 ++ r :: l2 /\ fit r = Some x /\ Forall (λ r', fit r' = None) l1
  | None => Forall (λ r', fit r' = None) l
  end.
Proof.
  induction l as [|r l IH]; cbn; [done|]. destruct (fit r) as [x|] eqn:E; [by exists [], l|].
  destruct (first_fit fit l) as [[r' x]|]; [|by constructor].
  destruct IH as (l1 & l2 & -> & Hx & Hl). exists (r :: l1), l2. split_and!; [done..|by constructor].
Qed.

(** The first fit in some order of the ranges is the best one in that order. *)
Lemma first_fit_best fit (better : Z -> Z -> Prop) l l' count alignment minimum maximum :
  let fits := fits_at count alignment minimum maximum in
  ranges_ok l -> 0 < count -> (forall r, r ∈ l' <-> r ∈ l) ->
  (forall r, extent_ok r -> match fit r with
                           | Some x => fits r x /\ forall y, fits r y -> better x y
                           | None => forall y, ~ fits r y end) ->
  (forall l1 r l2 r' x y, l' = l1 ++ r :: l2 -> r' ∈ l2 -> fits r x -> fits r' y -> better x y) ->
  match first_fit fit l' with
  | Some (r, x) => r ∈ l /\ fits r x /\ forall y, available l count alignment minimum maximum y -> better x y
  | None => forall y, ~ available l count alignment minimum maximum y
  end.
Proof.
  intros fits Hok Hc Hl Hfit Hbetter. pose proof Hok as [_ Hr]. rewrite Forall_forall in Hr.
  assert (Hno : forall r y, r ∈ l' -> fit r = None -> ~ fits r y).
  { intros r y Hin E. specialize (Hfit r (Hr r (proj1 (Hl r) Hin))). rewrite E in Hfit. apply Hfit. }
  pose proof (first_fit_spec fit l') as Hff. destruct (first_fit fit l') as [[r x]|].
  - destruct Hff as (l1 & l2 & E & Hx & Hl1). assert (Hin : r ∈ l) by (apply Hl; rewrite E; apply elem_of_app; right; by left).
    specialize (Hfit r (Hr r Hin)). rewrite Hx in Hfit. destruct Hfit as [Hrx Hbest]. split_and!; [done..|].
    intros y (r' & Hin' & Hy)%available_fits; [|done..]. apply Hl in Hin'. pose proof Hin' as Hin2. rewrite E in Hin'.
    apply elem_of_app in Hin' as [Hin'|Hin'].
    + rewrite Forall_forall in Hl1. destruct (Hno r' y Hin2 (Hl1 r' Hin') Hy).
    + apply elem_of_cons in Hin' as [->|Hin']; [by apply Hbest|]. by eapply Hbetter.
  - intros y (r & Hin & Hy)%available_fits; [|done..]. apply Hl in Hin. rewrite Forall_forall in Hff.
    by destruct (Hno r y Hin (Hff r Hin)).
Qed.

(** Later ranges are higher, and in the reversed order lower. *)
Lemma fits_order count alignment minimum maximum l1 r l2 r' x y :
  ranges_ok (l1 ++ r :: l2) -> 0 < count -> r' ∈ l2 ->
  fits_at count alignment minimum maximum r x -> fits_at count alignment minimum maximum r' y -> x <= y.
Proof.
  destruct r as [f c]. intros (_ & H2 & _)%ranges_around Hc Hin (_ & _ & _ & _ & Hx) (_ & _ & _ & Hy & _).
  rewrite Forall_forall in H2. destruct (H2 r' Hin) as [? _]. cbn in *. lia.
Qed.

Lemma take_spec r x count alignment minimum maximum l :
  ranges_ok l -> 0 < count -> r ∈ l -> fits_at count alignment minimum maximum r x ->
  available l count alignment minimum maximum x /\ ranges_ok (consume r x count l) /\
  forall page, covers (consume r x count l) page <-> covers l page /\ ~ x <= page < x + count.
Proof.
  intros Hok Hc Hin Hx. split; [apply available_fits; by eauto|]. destruct r as [f c].
  apply list_elem_of_split in Hin as (l1 & l2 & ->). destruct Hx as (_ & _ & _ & ? & ?). by apply consume_spec.
Qed.

(** What an allocation returns, and what is left. *)
Lemma allocate_spec count alignment (top_down : bool) minimum maximum l :
  ranges_ok l -> 0 <= count -> is_u32 alignment -> 0 <= minimum -> well_formed_request count alignment minimum maximum = true ->
  match allocate_quietly count alignment top_down minimum maximum l with
  | Some (x, l') =>
      available l count alignment minimum maximum x /\
      (forall y, available l count alignment minimum maximum y -> if top_down then y <= x else x <= y) /\
      ranges_ok l' /\ forall page, covers l' page <-> covers l page /\ ~ x <= page < x + count
  | None => forall y, ~ available l count alignment minimum maximum y
  end.
Proof.
  intros Hok Hc0 Hal Hmin Hvalid. unfold allocate_quietly. rewrite Hvalid. cbn [negb].
  unfold well_formed_request in Hvalid. rewrite negb_true_iff, !orb_false_iff, negb_false_iff, !Z.eqb_neq, Z.leb_gt, Z.ltb_ge in Hvalid.
  destruct Hvalid as ((((Hc & Ha) & Hbit) & Hlt) & Hmax). apply has_single_bit_spec in Hbit as (k & Hk0 & ->); [|by apply Hal].
  assert (Hk : 0 <= k < 32) by (split; [done|]; apply (Z.pow_lt_mono_r_iff 2); [lia..|]; apply Hal).
  assert (Hcount : 0 < count) by lia. assert (Hb : 0 <= minimum /\ minimum < maximum /\ maximum <= kPhysicalPageCount) by lia.
  assert (Hrev : forall l1 r l2 r' x y, rev l = l1 ++ r :: l2 -> r' ∈ l2 -> fits_at count (2 ^ k) minimum maximum r x ->
    fits_at count (2 ^ k) minimum maximum r' y -> y <= x).
  { intros l1 r l2 r' x y E Hr' Hx Hy. apply list_elem_of_split in Hr' as (l3 & l4 & ->).
    assert (E' : l = rev l4 ++ r' :: (rev l3 ++ r :: rev l1)).
    { rewrite <- (rev_involutive l), E, !rev_app_distr. cbn. rewrite rev_app_distr. cbn. by rewrite <- !app_assoc. }
    rewrite E' in Hok. eapply (fits_order _ _ _ _ (rev l4) r'); [exact Hok|done| |exact Hy|exact Hx].
    apply elem_of_app. right. by left. }
  destruct top_down.
  - pose proof (first_fit_best (fit_high count (2 ^ k) minimum maximum) (λ x y, y <= x) l (rev l) count (2 ^ k) minimum maximum
      Hok Hcount) as Hbest. destruct (first_fit _ (rev l)) as [[r x]|]; cbn.
    + destruct Hbest as (Hin & Hx & Hy); [intros r'; rewrite !list_elem_of_In; symmetry; apply in_rev|by apply fit_high_spec|exact Hrev|].
      destruct (take_spec r x count (2 ^ k) minimum maximum l) as (? & ? & ?); [done..|by split_and!].
    + apply Hbest; [intros r'; rewrite !list_elem_of_In; symmetry; apply in_rev|by apply fit_high_spec|exact Hrev].
  - pose proof (first_fit_best (fit_low count (2 ^ k) minimum maximum) Z.le l l count (2 ^ k) minimum maximum
      Hok Hcount) as Hbest.
    assert (Hord : forall l1 r l2 r' x y, l = l1 ++ r :: l2 -> r' ∈ l2 -> fits_at count (2 ^ k) minimum maximum r x ->
      fits_at count (2 ^ k) minimum maximum r' y -> x <= y).
    { intros l1 r l2 r' x y E Hr' Hx Hy. rewrite E in Hok. eapply fits_order; [exact Hok|done|exact Hr'|exact Hx|exact Hy]. }
    destruct (first_fit _ l) as [[r x]|]; cbn.
    + destruct Hbest as (Hin & Hx & Hy); [done|by apply fit_low_spec|exact Hord|].
      destruct (take_spec r x count (2 ^ k) minimum maximum l) as (? & ? & ?); [done..|by split_and!].
    + by apply Hbest; [|apply fit_low_spec|].
Qed.

(** ** Claims *)

Lemma contains_spec first count l :
  ranges_ok l -> 0 <= count ->
  contains l first count = true <-> 0 < count /\ forall page, first <= page < first + count -> covers l page.
Proof.
  intros Hok Hc0. destruct (split_at (first + 1) l Hok) as (l1 & l2 & -> & H1 & H2).
  unfold contains. rewrite last_at_most_before, last_before_between by done.
  destruct (Z.eqb_spec count 0); [split; [done|lia]|]. split.
  - destruct (last l1) as [[f c]|] eqn:El; [|done]. intros (Hf & Hend)%andb_true_iff. apply Z.leb_le in Hf, Hend.
    split; [lia|]. intros page Hp. apply last_Some in El as [l1' ->]. rewrite !covers_app, covers_cons.
    left; right; left. unfold in_range. cbn. lia.
  - intros [Hc Hcov]. destruct (covered_run _ first count Hok Hc Hcov) as ([f c] & Hin & Hf & Hend). cbn in *.
    assert (Hin1 : (f, c) ∈ l1).
    { apply elem_of_app in Hin as [?|Hin]; [done|]. rewrite Forall_forall in H2. specialize (H2 _ Hin). cbn in H2. lia. }
    destruct l1 as [|[f' c'] l1 _] using rev_ind; [by apply elem_of_nil in Hin1|]. rewrite last_snoc.
    apply elem_of_app in Hin1 as [Hin1|Hin1].
    + rewrite <- app_assoc in Hok. apply ranges_around in Hok as (Hb & _). rewrite Forall_forall in Hb.
      destruct (Hb _ Hin1) as [Hlt _]. apply Forall_app in H1 as [_ H1]. apply Forall_cons in H1 as [H1 _]. cbn in *. lia.
    + apply list_elem_of_singleton in Hin1 as [= -> ->]. apply andb_true_iff. split; apply Z.leb_le; lia.
Qed.

Lemma claim_consumes first count a r :
  ranges_ok (free_ranges a) -> 0 <= count -> contains_free first count a = true -> last_at_most first (free_ranges a) = Some r ->
  let l' := consume r first count (free_ranges a) in
  ranges_ok l' /\ forall page, covers l' page <-> covers (free_ranges a) page /\ ~ first <= page < first + count.
Proof.
  intros Hok Hc0 Hcont Hlast. unfold contains_free, contains in Hcont. rewrite Hlast in Hcont. destruct r as [f c].
  destruct (Z.eqb_spec count 0); [done|]. apply andb_true_iff in Hcont as [Hf Hend]. apply Z.leb_le in Hf, Hend.
  assert (Hin : (f, c) ∈ free_ranges a).
  { unfold last_at_most in Hlast. apply last_Some in Hlast as [l' E]. apply list_elem_of_In.
    apply (filter_In (λ r, fst r <=? first)). rewrite E. apply in_or_app. right. by left. }
  apply list_elem_of_split in Hin as (l1 & l2 & E). rewrite E in *. apply consume_spec; (done || lia).
Qed.

(** ** The allocator as a set of pages *)

Inductive request : Type :=
| AllocatePages (count alignment : Z) (top_down : bool) (minimum maximum : Z)
| ClaimPages (first count : Z)
| ReleasePages (first count : Z)
| RetirePages (first count : Z)
| TakeRetired.

Inductive reply : Type :=
| PageIs (page : option Z)
| Accepted (ok : bool)
| RangesAre (ranges : RangeMap).

Definition range_step (q : request) (a : PhysicalRangeAllocator) : reply * PhysicalRangeAllocator :=
  match q with
  | AllocatePages count alignment top_down minimum maximum =>
      match range_allocate count alignment top_down minimum maximum a with
      | Some (page, a') => (PageIs (Some page), a')
      | None => (PageIs None, a)
      end
  | ClaimPages first count => let '(ok, a') := range_claim first count a in (Accepted ok, a')
  | ReleasePages first count => let '(ok, a') := range_release first count a in (Accepted ok, a')
  | RetirePages first count => let '(ok, a') := range_retire first count a in (Accepted ok, a')
  | TakeRetired => let '(l, a') := take_retired_ranges a in (RangesAre l, a')
  end.

Fixpoint range_run (qs : list request) (a : PhysicalRangeAllocator) : list reply * PhysicalRangeAllocator :=
  match qs with
  | [] => ([], a)
  | q :: qs => let '(r, a) := range_step q a in let '(rs, a) := range_run qs a in (r :: rs, a)
  end.

(** The arguments are 32-bit words. *)
Definition request_ok (q : request) : Prop :=
  match q with
  | AllocatePages count alignment _ minimum maximum => is_u32 count /\ is_u32 alignment /\ is_u32 minimum /\ is_u32 maximum
  | ClaimPages first count | ReleasePages first count | RetirePages first count => is_u32 first /\ is_u32 count
  | TakeRetired => True
  end.

Abbreviation page_set := (Z -> Prop).
Definition run_of (first count : Z) : page_set := λ page, first <= page < first + count.
Definition same_pages (F F' : page_set) : Prop := forall page, F page <-> F' page.
Definition without (F G : page_set) : page_set := λ page, F page /\ ~ G page.
Definition both (F G : page_set) : page_set := λ page, F page \/ G page.
Definition inside (F G : page_set) : Prop := forall page, F page -> G page.
Definition apart (F G : page_set) : Prop := forall page, F page -> ~ G page.

(** [x] starts an aligned run of free pages within the bounds. *)
Definition serves (F : page_set) (count alignment minimum maximum x : Z) : Prop :=
  (alignment | x) /\ minimum <= x /\ x + count <= maximum /\ inside (run_of x count) F.

(** What the calls promise about the set [F] of free and the set [R] of retired pages. *)
Definition page_step (q : request) (r : reply) (F R F' R' : page_set) : Prop :=
  match q, r with
  | AllocatePages count alignment top_down minimum maximum, PageIs (Some x) =>
      well_formed_request count alignment minimum maximum = true /\ serves F count alignment minimum maximum x /\
      (forall y, serves F count alignment minimum maximum y -> if top_down then y <= x else x <= y) /\
      same_pages F' (without F (run_of x count)) /\ same_pages R' R
  | AllocatePages count alignment _ minimum maximum, PageIs None =>
      (well_formed_request count alignment minimum maximum = true -> forall y, ~ serves F count alignment minimum maximum y) /\
      same_pages F' F /\ same_pages R' R
  | ClaimPages first count, Accepted ok =>
      (ok = true <-> 0 < count /\ inside (run_of first count) F) /\
      same_pages F' (if ok then without F (run_of first count) else F) /\ same_pages R' R
  | ReleasePages first count, Accepted ok =>
      (ok = true <-> 0 < count /\ first + count <= kPhysicalPageCount /\ apart (run_of first count) F) /\
      same_pages F' (if ok then both F (run_of first count) else F) /\ same_pages R' R
  | RetirePages first count, Accepted ok =>
      (ok = true <-> 0 < count /\ first + count <= kPhysicalPageCount /\ apart (run_of first count) R) /\
      same_pages R' (if ok then both R (run_of first count) else R) /\ same_pages F' F
  | TakeRetired, RangesAre l =>
      ranges_ok l /\ same_pages R (covers l) /\ same_pages R' (λ _, False) /\ same_pages F' F
  | _, _ => False
  end.

Inductive page_run : list request -> list reply -> page_set -> page_set -> page_set -> page_set -> Prop :=
| page_run_nil F R : page_run [] [] F R F R
| page_run_cons q r qs rs F R F1 R1 F2 R2 :
    page_step q r F R F1 R1 -> page_run qs rs F1 R1 F2 R2 -> page_run (q :: qs) (r :: rs) F R F2 R2.

Definition allocator_ok (a : PhysicalRangeAllocator) : Prop := ranges_ok (free_ranges a) /\ ranges_ok (retired_ranges a).

Lemma inserted_pages first count l :
  ranges_ok l -> is_u32 first -> is_u32 count ->
  let '(ok, l') := insert_coalesced first count l in
  ranges_ok l' /\ (ok = true <-> 0 < count /\ first + count <= kPhysicalPageCount /\ apart (run_of first count) (covers l)) /\
  same_pages (covers l') (if ok then both (covers l) (run_of first count) else covers l).
Proof.
  intros Hok [Hf _] [Hc _]. pose proof (insert_coalesced_spec first count l Hok Hf Hc) as H.
  destruct (insert_coalesced first count l) as [[] l'].
  - destruct H as (? & ? & ? & ? & Hcov). split_and!; [done| |exact Hcov]. done.
  - destruct H as [-> H]. split_and!; [done| |done]. split; [done|]. intros (? & ? & Hap). by destruct (H ltac:(done) ltac:(done)).
Qed.

Lemma range_step_refines q a :
  allocator_ok a -> request_ok q ->
  let '(r, a') := range_step q a in
  allocator_ok a' /\
  page_step q r (covers (free_ranges a)) (covers (retired_ranges a)) (covers (free_ranges a')) (covers (retired_ranges a')).
Proof.
  intros [Hfree Hret] Hq. destruct q as [count alignment top_down minimum maximum|first count|first count|first count|]; cbn in Hq; cbn.
  - destruct Hq as ([Hc _] & Hal & [Hmin _] & _). unfold range_allocate.
    pose proof (allocate_spec count alignment top_down minimum maximum (free_ranges a) Hfree Hc Hal Hmin) as H.
    destruct (well_formed_request count alignment minimum maximum) eqn:Ev.
    + specialize (H eq_refl). destruct (allocate_quietly _ _ _ _ _ _) as [[x l']|]; cbn; [|done].
      by destruct H as (? & ? & ? & ?).
    + unfold allocate_quietly. rewrite Ev. cbn. done.
  - destruct Hq as [_ [Hc _]]. unfold range_claim. pose proof (contains_spec first count (free_ranges a) Hfree Hc) as Hcont.
    destruct (contains_free first count a) eqn:Ec; cbn; [|by unfold contains_free in Ec; rewrite Ec in Hcont].
    destruct (last_at_most first (free_ranges a)) as [r|] eqn:El.
    + destruct (claim_consumes first count a r Hfree Hc Ec El) as [? ?]. unfold contains_free in Ec. by rewrite Ec in Hcont.
    + exfalso. unfold contains_free, contains in Ec. rewrite El in Ec. by destruct (count =? 0).
  - destruct Hq as [Hf Hc]. unfold range_release. pose proof (inserted_pages first count (free_ranges a) Hfree Hf Hc) as H.
    destruct (insert_coalesced first count (free_ranges a)) as [ok l']. by destruct H as (? & ? & ?).
  - destruct Hq as [Hf Hc]. unfold range_retire. pose proof (inserted_pages first count (retired_ranges a) Hret Hf Hc) as H.
    destruct (insert_coalesced first count (retired_ranges a)) as [ok l']. by destruct H as (? & ? & ?).
  - split; [split; [done|by repeat constructor]|]. split_and!; try done. intros page. by rewrite covers_nil.
Qed.

Lemma range_run_refines qs a :
  allocator_ok a -> Forall request_ok qs ->
  let '(rs, a') := range_run qs a in
  allocator_ok a' /\
  page_run qs rs (covers (free_ranges a)) (covers (retired_ranges a)) (covers (free_ranges a')) (covers (retired_ranges a')).
Proof.
  intros Ha Hqs. revert a Ha. induction Hqs as [|q qs Hq _ IH]; intros a Ha; cbn; [split; [done|constructor]|].
  pose proof (range_step_refines q a Ha Hq) as H1. destruct (range_step q a) as [r a1]. destruct H1 as [Ha1 H1].
  specialize (IH a1 Ha1). destruct (range_run qs a1) as [rs a2]. destruct IH as [Ha2 H2].
  split; [done|by econstructor].
Qed.

Lemma reset_pages first count :
  0 <= first -> 0 <= count -> first + count <= kPhysicalPageCount ->
  allocator_ok (range_reset first count) /\ same_pages (covers (free_ranges (range_reset first count))) (run_of first count).
Proof.
  intros Hf Hc Hend. unfold range_reset, run_of, allocator_ok. destruct (Z.eqb_spec count 0); cbn.
  - split; [by repeat constructor|]. intros page. rewrite covers_nil. lia.
  - split; [by repeat constructor; cbn; lia|]. intros page. rewrite covers_cons, covers_nil. unfold in_range. cbn. tauto.
Qed.

(** C17: PhysicalRangeAllocator refines a set of free and a set of retired pages. After
    [reset] on any pages of the physical address space, every sequence of allocations,
    claims, releases, retirements and reclaims with 32-bit arguments gives the replies
    the sets determine: an allocation returns the lowest (or, top down, the highest)
    aligned run of free pages within its bounds, and fails only when its arguments are
    invalid or there is none; a claim succeeds exactly on free pages; pages are released
    or retired exactly once; and the ranges stay sorted, disjoint and coalesced. *)
Theorem physical_ranges_refine_pages first count qs :
  0 <= first -> 0 <= count -> first + count <= kPhysicalPageCount -> Forall request_ok qs ->
  let a0 := range_reset first count in
  let '(rs, a) := range_run qs a0 in
  same_pages (covers (free_ranges a0)) (run_of first count) /\ retired_ranges a0 = [] /\ allocator_ok a /\
  page_run qs rs (covers (free_ranges a0)) (covers (retired_ranges a0)) (covers (free_ranges a)) (covers (retired_ranges a)).
Proof.
  intros Hf Hc Hend Hqs. cbv zeta. destruct (reset_pages first count Hf Hc Hend) as (Hok & Hpages).
  pose proof (range_run_refines qs (range_reset first count) Hok Hqs) as H.
  destruct (range_run qs _) as [rs a]. by destruct H.
Qed.

(** Two allocations from the low end, one from the top, a release that joins its
    neighbours, a rejected double release, a retirement and its reclaim. *)
Lemma physical_ranges_refine_pages_witness :
  let qs := [AllocatePages 4 4 false 0 0x20000; AllocatePages 2 1 false 0 0x20000; AllocatePages 16 16 true 0 0x20000;
             ReleasePages 20 4; ReleasePages 20 4; ClaimPages 17 2; RetirePages 17 2; TakeRetired; ReleasePages 17 2] in
  range_run qs (range_reset 17 0x1000) =
    ([PageIs (Some 20); PageIs (Some 17); PageIs (Some 4096); Accepted true; Accepted false; Accepted false; Accepted true;
      RangesAre [(17, 2)]; Accepted true], mkRangeAllocator [(17, 4079); (4112, 1)] []) /\
  page_run qs (fst (range_run qs (range_reset 17 0x1000))) (covers [(17, 0x1000)]) (covers []) (covers [(17, 4079); (4112, 1)]) (covers []).
Proof.
  cbv zeta. split; [vm_compute; reflexivity|].
  pose proof (physical_ranges_refine_pages 17 0x1000
    [AllocatePages 4 4 false 0 0x20000; AllocatePages 2 1 false 0 0x20000; AllocatePages 16 16 true 0 0x20000;
     ReleasePages 20 4; ReleasePages 20 4; ClaimPages 17 2; RetirePages 17 2; TakeRetired; ReleasePages 17 2]) as H.
  destruct H as (_ & _ & _ & H); [lia..|by vm_compute|by repeat constructor|exact H].
Defined.

(** ** Reverse mappings *)

(** Physical page to the guest pages that map it. *)
Abbreviation mapping := (gmap Z (list Z)).

Definition mapped_guests (physical_page : Z) (m : mapping) : list Z := default [] (m !! physical_page).
Definition mapping_add (physical_page guest_page : Z) (m : mapping) : bool * mapping :=
  let l := mapped_guests physical_page m in
  if bool_decide (guest_page ∈ l) then (false, <[physical_page := l]> m)
  else (true, <[physical_page := l ++ [guest_page]]> m).

(** The last guest takes the place of the removed one. *)
Definition remove_guest (guest_page : Z) (l : list Z) : option (list Z) :=
  '(i, _) ← list_find (guest_page =.) l;
  Some (removelast (<[i := List.last l guest_page]> l)).

Definition mapping_remove (physical_page guest_page : Z) (m : mapping) : bool * mapping :=
  match m !! physical_page with
  | None => (false, m)
  | Some l =>
      match remove_guest guest_page l with
      | None => (false, m)
      | Some [] => (true, delete physical_page m)
      | Some l => (true, <[physical_page := l]> m)
      end
  end.

Definition mapping_count (physical_page : Z) (m : mapping) : nat := length (mapped_guests physical_page m).
Definition mapping_contains (physical_page guest_page : Z) (m : mapping) : bool := bool_decide (guest_page ∈ mapped_guests physical_page m).

(** No page has an empty list, and no guest is listed twice. *)
Definition mapping_ok (m : mapping) : Prop := map_Forall (λ _ l, l ≠ [] /\ NoDup l) m.

Lemma remove_guest_spec x l :
  match remove_guest x l with
  | Some l' => x ∈ l /\ l ≡ₚ x :: l'
  | None => x ∉ l
  end.
Proof.
  unfold remove_guest. destruct (list_find (x =.) l) as [[i y]|] eqn:E; cbn.
  - apply list_find_Some in E as (Hi & <- & _). split; [by eapply list_elem_of_lookup_2|].
    pose proof (take_drop_middle l i x Hi) as El. assert (Hlen : length (take i l) = i).
    { apply length_take_le. apply lookup_lt_Some in Hi. lia. }
    revert El Hlen. generalize (take i l) (drop (S i) l). intros l1 l2 <- Hlen. clear Hi.
    rewrite insert_app_r_alt, Hlen, Nat.sub_diag by lia. cbn. destruct l2 as [|y l2 _] using rev_ind.
    + by rewrite !removelast_last, Permutation_app_comm.
    + rewrite app_comm_cons, app_assoc, List.last_last, app_comm_cons, app_assoc, removelast_last. solve_Permutation.
  - apply list_find_None in E. rewrite Forall_forall in E. intros Hx. by apply (E x Hx).
Qed.

Lemma mapped_guests_insert p l m p' : mapped_guests p' (<[p := l]> m) = if decide (p = p') then l else mapped_guests p' m.
Proof. unfold mapped_guests. destruct (decide (p = p')) as [<-|]; [by rewrite lookup_insert_eq|by rewrite lookup_insert_ne]. Qed.

Lemma mapped_guests_nodup p m : mapping_ok m -> NoDup (mapped_guests p m).
Proof.
  intros Hm. unfold mapped_guests. destruct (m !! p) as [l|] eqn:E; cbn; [by apply (Hm p l)|constructor].
Qed.

Lemma add_spec p g m :
  mapping_ok m ->
  mapping_ok (snd (mapping_add p g m)) /\ fst (mapping_add p g m) = negb (mapping_contains p g m) /\
  forall p' g', mapping_contains p' g' (snd (mapping_add p g m)) = mapping_contains p' g' m || bool_decide (p' = p /\ g' = g).
Proof.
  intros Hm. unfold mapping_add, mapping_contains. pose proof (mapped_guests_nodup p m Hm) as Hn. destruct (bool_decide_reflect (g ∈ mapped_guests p m)) as [Hin|Hin]; cbn.
  - assert (Em : <[p := mapped_guests p m]> m = m).
    { apply insert_id. unfold mapped_guests in *. destruct (m !! p) as [l|] eqn:E; [done|]. by apply elem_of_nil in Hin. }
    rewrite Em. split_and!; [done..|]. intros p' g'. destruct (bool_decide_reflect (p' = p /\ g' = g)) as [[-> ->]|]; [|by rewrite orb_false_r].
    by rewrite bool_decide_true.
  - split_and!; [|done|].
    + apply map_Forall_insert_2; [|done]. split; [by destruct (mapped_guests p m)|]. apply NoDup_app. split_and!; [done| |apply NoDup_singleton].
      intros y Hy [-> |[]%elem_of_nil]%elem_of_cons. done.
    + intros p' g'. rewrite mapped_guests_insert. destruct (decide (p = p')) as [<-|Hp].
      * rewrite <- bool_decide_or. apply bool_decide_ext.
        rewrite elem_of_app, list_elem_of_singleton. naive_solver.
      * rewrite (bool_decide_false (_ /\ _)), orb_false_r by naive_solver. done.
Qed.

Lemma remove_spec p g m :
  mapping_ok m ->
  mapping_ok (snd (mapping_remove p g m)) /\ fst (mapping_remove p g m) = mapping_contains p g m /\
  forall p' g', mapping_contains p' g' (snd (mapping_remove p g m)) = mapping_contains p' g' m && negb (bool_decide (p' = p /\ g' = g)).
Proof.
  intros Hm. unfold mapping_remove, mapping_contains. assert (Hg : forall l, m !! p = Some l -> mapped_guests p m = l) by (unfold mapped_guests; by intros l ->).
  destruct (m !! p) as [l|] eqn:El.
  - specialize (Hg l eq_refl). rewrite Hg. pose proof (remove_guest_spec g l) as Hr. pose proof (mapped_guests_nodup p m Hm) as Hn. rewrite Hg in Hn.
    destruct (remove_guest g l) as [l'|].
    + destruct Hr as [Hin Hp]. assert (Hn' : NoDup (g :: l')) by (by rewrite <- Hp). apply NoDup_cons in Hn' as [Hng Hn'].
      assert (Hcase : forall m', m' !! p = (if l' is [] then None else Some l') -> (forall p', p' <> p -> m' !! p' = m !! p') ->
        mapping_ok m' /\ forall p' g', bool_decide (g' ∈ mapped_guests p' m') = bool_decide (g' ∈ mapped_guests p' m) && negb (bool_decide (p' = p /\ g' = g))).
      { intros m' Hp' Hne. split.
        - intros p' l'' Hl. destruct (decide (p' = p)) as [->|Hd]; [|apply (Hm p'); by rewrite <- Hne].
          rewrite Hp' in Hl. destruct l'; [done|]. by injection Hl as <-.
        - intros p' g'. destruct (decide (p' = p)) as [->|Hd].
          + rewrite Hg. assert (Hl' : mapped_guests p m' = l') by (unfold mapped_guests; rewrite Hp'; by destruct l'). rewrite Hl'.
            apply eq_bool_prop_intro. rewrite andb_True, negb_True, !bool_decide_spec, Hp, elem_of_cons. naive_solver.
          + assert (E' : mapped_guests p' m' = mapped_guests p' m) by (unfold mapped_guests; by rewrite Hne). rewrite E'. rewrite (bool_decide_false (_ /\ _)) by naive_solver. by rewrite andb_true_r. }
      rewrite (bool_decide_true _ Hin). destruct l' as [|x l'].
      * destruct (Hcase (delete p m)); [by rewrite lookup_delete_eq|intros; by apply lookup_delete_ne|]. done.
      * destruct (Hcase (<[p := x :: l']> m)); [by rewrite lookup_insert_eq|intros; by apply lookup_insert_ne|]. done.
    + rewrite (bool_decide_false _ Hr). split_and!; [done..|]. intros p' g'.
      destruct (bool_decide_reflect (p' = p /\ g' = g)) as [[-> ->]|]; [|by rewrite andb_true_r]. cbn. rewrite Hg, andb_false_r. by apply bool_decide_false.
  - assert (Hnil : mapped_guests p m = []) by (unfold mapped_guests; by rewrite El). rewrite Hnil. split_and!; [done|by rewrite bool_decide_false by apply not_elem_of_nil|].
    intros p' g'. destruct (bool_decide_reflect (p' = p /\ g' = g)) as [[-> ->]|]; [|by rewrite andb_true_r].
    cbn. rewrite Hnil, andb_false_r. apply bool_decide_false, not_elem_of_nil.
Qed.

Lemma add_count p g m p' :
  mapping_contains p g m = false ->
  mapping_count p' (snd (mapping_add p g m)) = (mapping_count p' m + if decide (p = p') then 1 else 0)%nat.
Proof.
  unfold mapping_contains, mapping_add, mapping_count. intros Hc. apply bool_decide_eq_false in Hc.
  rewrite bool_decide_false by done. cbn. rewrite mapped_guests_insert. destruct (decide (p = p')) as [<-|]; [|lia].
  rewrite length_app. cbn. lia.
Qed.

Lemma mapped_guests_delete p m p' : mapped_guests p' (delete p m) = if decide (p = p') then [] else mapped_guests p' m.
Proof. unfold mapped_guests. destruct (decide (p = p')) as [<-|]; [by rewrite lookup_delete_eq|by rewrite lookup_delete_ne]. Qed.

Lemma remove_count p g m p' :
  mapping_contains p g m = true ->
  mapping_count p' m = (mapping_count p' (snd (mapping_remove p g m)) + if decide (p = p') then 1 else 0)%nat.
Proof.
  unfold mapping_contains, mapping_remove, mapping_count. intros Hc. apply bool_decide_eq_true in Hc.
  pose proof (remove_guest_spec g (mapped_guests p m)) as Hr. unfold mapped_guests in Hc, Hr.
  destruct (m !! p) as [l|] eqn:El; cbn [default from_option id] in *; [|by apply elem_of_nil in Hc].
  destruct (remove_guest g l) as [l'|]; [|by destruct (Hr Hc)]. destruct Hr as [_ Hp]. apply Permutation_length in Hp. cbn in Hp.
  assert (Hg : mapped_guests p m = l) by (unfold mapped_guests; by rewrite El).
  destruct l' as [|x l']; cbn [snd]; rewrite ?mapped_guests_delete, ?mapped_guests_insert;
    destruct (decide (p = p')) as [<-|]; rewrite ?Hg; cbn [length] in *; lia.
Qed.
