(* ===== verification/HandleTable.v ===== *)
(** * Kernel handles
    (src/kernel/handles/handle_table.cpp, include/xenon/kernel/handle_table.hpp,
    io_types.hpp; the handle counts of handles/object.cpp)

    The handle table of a process: allocation of handle values, insertion, lookup,
    duplication, closing. The objects are shared pointers, here identities; their
    atomic handle counts are a store of their own, and the log lists the objects
    whose [on_last_handle_closed] ran. It refines a finite map from handles to
    entries. *)

From S2P Require Import Prelude.
From S2P Require Import Words.

(** ** io_types.hpp *)

Abbreviation Handle := Z (only parsing).
Abbreviation ObjectId := Z (only parsing).
Definition kInvalidHandle : Handle := 0.

Inductive KernelIoCode : Type :=
| Success | Pending | Cancelled | Timeout | InvalidHandle | InvalidObjectType | InvalidParameter | AccessDenied
| ProtectedHandle | NotFound | AlreadyExists | NotDirectory | IsDirectory | DirectoryNotEmpty | SharingViolation
| Unsupported | CrossDevice | NoMoreFiles | DeletePending | FilesystemError.

Definition kNone : Z := 0.
Definition kInherit : Z := 1.
Definition kProtectFromClose : Z := 2.
Definition has_flag (value flag : Z) : bool := negb (value .& flag =? kNone).

Record DuplicateHandleOptions : Type := mkDuplicate {
  same_access : bool;
  desired_access : Z;
  duplicate_flags : Z
}.

(** ** The table and the objects *)

Record Entry : Type := mkEntry {
  entry_object : ObjectId;
  granted_access : Z;
  entry_flags : Z
}.

Record HandleTable : Type := mkHandleTable {
  entries_ : gmap Handle Entry;
  next_handle_ : Handle
}.

(** [handle_count_] of each object, and the objects told that their last handle closed. *)
Record ObjectStore : Type := mkObjects {
  handle_count_ : gmap ObjectId Z;
  last_closed : list ObjectId
}.

Definition handle_count (o : ObjectId) (s : ObjectStore) : Z := default 0 (handle_count_ s !! o).

Definition retain_handle (o : ObjectId) (s : ObjectStore) : ObjectStore :=
  mkObjects (<[o := u32 (handle_count o s + 1)]> (handle_count_ s)) (last_closed s).

Definition release_handle (o : ObjectId) (s : ObjectStore) : ObjectStore :=
  let previous := handle_count o s in
  mkObjects (<[o := u32 (previous - 1)]> (handle_count_ s))
    (if previous =? 1 then last_closed s ++ [o] else last_closed s).

(** ** Handle values *)

Definition kFirstHandle : Handle := 4.
Definition kLastHandle : Handle := 0x7FFFFFFC.

Definition following (handle : Handle) : Handle :=
  if kLastHandle <=? handle then kFirstHandle else u32 (handle + 4).

(** The loop: [None] when the fuel is out, else the candidate, or [kInvalidHandle]
    when the search came back to where it started; and the new [next_handle_]. *)
Fixpoint allocate_from (fuel : nat) (start : Handle) (entries : gmap Handle Entry) (next : Handle)
    : option (Handle * Handle) :=
  match fuel with
  | O => None
  | S fuel =>
      let candidate := next in
      let next := following next in
      if negb (bool_decide (is_Some (entries !! candidate))) then Some (candidate, next)
      else if next =? start then Some (kInvalidHandle, next)
      else allocate_from fuel start entries next
  end.

(** One more iteration than there are entries is enough. *)
Definition allocate_handle_locked (t : HandleTable) : option (Handle * Handle) :=
  allocate_from (S (size (entries_ t))) (next_handle_ t) (entries_ t) (next_handle_ t).

(** ** Operations *)

(** A handle to [object]; shared by [insert] and [duplicate]. [None] is fuel. *)
Definition new_entry (object : ObjectId) (access flags : Z) (t : HandleTable) (s : ObjectStore)
    : option (KernelIoCode * Handle * HandleTable * ObjectStore) :=
  '(handle, next) ← allocate_handle_locked t;
  if handle =? kInvalidHandle then Some (AccessDenied, kInvalidHandle, mkHandleTable (entries_ t) next, s)
  else Some (Success, handle, mkHandleTable (<[handle := mkEntry object access flags]> (entries_ t)) next, retain_handle object s).

(** [object] is a shared pointer that may be null. *)
Definition insert_object (object : option ObjectId) (access flags : Z) (t : HandleTable) (s : ObjectStore)
    : option (KernelIoCode * Handle * HandleTable * ObjectStore) :=
  match object with
  | None => Some (InvalidParameter, kInvalidHandle, t, s)
  | Some object => new_entry object access flags t s
  end.

Definition lookup_handle (handle : Handle) (t : HandleTable) : KernelIoCode * option Entry :=
  if handle =? kInvalidHandle then (InvalidHandle, None)
  else match entries_ t !! handle with
       | None => (InvalidHandle, None)
       | Some e => (Success, Some e)
       end.

Definition wanted_access (options : DuplicateHandleOptions) (source : Entry) : Z :=
  if same_access options then granted_access source else desired_access options.

Definition duplicate_handle (source : Handle) (options : DuplicateHandleOptions) (t : HandleTable) (s : ObjectStore)
    : option (KernelIoCode * Handle * HandleTable * ObjectStore) :=
  if source =? kInvalidHandle then Some (InvalidHandle, kInvalidHandle, t, s)
  else match entries_ t !! source with
       | None => Some (InvalidHandle, kInvalidHandle, t, s)
       | Some e =>
           if negb (wanted_access options e .& not32 (granted_access e) =? 0) then Some (AccessDenied, kInvalidHandle, t, s)
           else new_entry (entry_object e) (wanted_access options e) (duplicate_flags options) t s
       end.

Definition close_handle (handle : Handle) (force : bool) (t : HandleTable) (s : ObjectStore)
    : KernelIoCode * HandleTable * ObjectStore :=
  match entries_ t !! handle with
  | None => (InvalidHandle, t, s)
  | Some e =>
      if negb force && has_flag (entry_flags e) kProtectFromClose then (ProtectedHandle, t, s)
      else (Success, mkHandleTable (delete handle (entries_ t)) (next_handle_ t), release_handle (entry_object e) s)
  end.

Definition set_handle_flags (handle : Handle) (flags : Z) (t : HandleTable) : KernelIoCode * HandleTable :=
  match entries_ t !! handle with
  | None => (InvalidHandle, t)
  | Some e =>
      (Success, mkHandleTable (<[handle := mkEntry (entry_object e) (granted_access e) flags]> (entries_ t)) (next_handle_ t))
  end.

Definition table_size (t : HandleTable) : nat := size (entries_ t).

(** The objects are released in the order of the hash table. *)
Definition clear_table (t : HandleTable) (s : ObjectStore) : HandleTable * ObjectStore :=
  (mkHandleTable ∅ (next_handle_ t),
   foldl (λ s e, release_handle (entry_object e) s) s (map_to_list (entries_ t)).*2).

(** ** Calls *)

Inductive call : Type :=
| Insert (object : option ObjectId) (access flags : Z)
| Lookup (handle : Handle)
| Duplicate (source : Handle) (options : DuplicateHandleOptions)
| Close (handle : Handle) (force : bool)
| SetFlags (handle : Handle) (flags : Z)
| Clear.

Inductive answer : Type :=
| Answer (code : KernelIoCode) (handle : Handle) (view : option Entry).

Definition handle_call (c : call) (t : HandleTable) (s : ObjectStore) : option (answer * HandleTable * ObjectStore) :=
  match c with
  | Insert object access flags =>
      '(code, h, t, s) ← insert_object object access flags t s; Some (Answer code h None, t, s)
  | Lookup handle => let '(code, view) := lookup_handle handle t in Some (Answer code kInvalidHandle view, t, s)
  | Duplicate source options =>
      '(code, h, t, s) ← duplicate_handle source options t s; Some (Answer code h None, t, s)
  | Close handle force => let '(code, t, s) := close_handle handle force t s in Some (Answer code kInvalidHandle None, t, s)
  | SetFlags handle flags => let '(code, t) := set_handle_flags handle flags t in Some (Answer code kInvalidHandle None, t, s)
  | Clear => let '(t, s) := clear_table t s in Some (Answer Success kInvalidHandle None, t, s)
  end.

Fixpoint handle_calls (cs : list call) (t : HandleTable) (s : ObjectStore) : option (list answer * HandleTable * ObjectStore) :=
  match cs with
  | [] => Some ([], t, s)
  | c :: cs =>
      '(a, t, s) ← handle_call c t s;
      '(l, t, s) ← handle_calls cs t s;
      Some (a :: l, t, s)
  end.

(** ** The search for a free handle *)

(** How many handle values there are. *)
Definition kHandles : Z := 0x1FFFFFFF.
Definition handle_ok (h : Handle) : Prop := 0 < h <= kLastHandle /\ (4 | h).

(** The [k]th handle from [start], round the cycle. *)
Definition cyc (start : Handle) (k : Z) : Handle := 4 + 4 * ((start / 4 - 1 + k) mod kHandles).

Lemma handle_ok_index h : handle_ok h -> exists i, 0 <= i < kHandles /\ h = 4 + 4 * i.
Proof. unfold handle_ok, kLastHandle, kHandles. intros [Hh [q ->]]. exists (q - 1). lia. Qed.

Lemma cyc_ok start k : handle_ok (cyc start k).
Proof.
  unfold cyc, handle_ok, kLastHandle. pose proof (Z.mod_pos_bound (start / 4 - 1 + k) kHandles eq_refl) as H.
  set (x := _ mod _) in *. clearbody x. unfold kHandles in H. split; [lia|]. exists (1 + x). lia.
Qed.

Lemma cyc_start start : handle_ok start -> cyc start 0 = start.
Proof.
  intros (i & Hi & ->)%handle_ok_index. unfold cyc. rewrite Z.add_0_r.
  replace ((4 + 4 * i) / 4 - 1) with i by (replace (4 + 4 * i) with ((1 + i) * 4) by lia; rewrite Z.div_mul; lia).
  rewrite Z.mod_small; lia.
Qed.

Lemma following_cyc start k : following (cyc start k) = cyc start (k + 1).
Proof.
  unfold following, cyc. pose proof (Z.mod_pos_bound (start / 4 - 1 + k) kHandles eq_refl) as H.
  rewrite Z.add_assoc, <- (Z.add_mod_idemp_l _ 1) by done.
  set (x := (start / 4 - 1 + k) mod kHandles) in *. unfold kLastHandle, kFirstHandle.
  destruct (Z.leb_spec 0x7FFFFFFC (4 + 4 * x)).
  - replace (x + 1) with kHandles by (unfold kHandles in *; lia). rewrite Z_mod_same_full. done.
  - rewrite Z.mod_small by (unfold kHandles in *; lia). rewrite u32_small by (unfold is_u32, kHandles in *; lia). lia.
Qed.

Lemma cyc_inj start j k : 0 <= j < kHandles -> 0 <= k < kHandles -> cyc start j = cyc start k -> j = k.
Proof.
  unfold cyc. intros Hj Hk E. set (i := start / 4 - 1) in *.
  assert (Em : (i + j) mod kHandles = (i + k) mod kHandles) by lia.
  pose proof (Z.div_mod (i + j) kHandles). pose proof (Z.div_mod (i + k) kHandles).
  assert (Hd : (i + j) / kHandles = (i + k) / kHandles); [|unfold kHandles in *; lia].
  unfold kHandles in *. lia.
Qed.

Lemma cyc_all start h : handle_ok h -> exists k, 0 <= k < kHandles /\ cyc start k = h.
Proof.
  intros (i & Hi & ->)%handle_ok_index. exists ((i - (start / 4 - 1)) mod kHandles).
  split; [by apply Z.mod_pos_bound|]. unfold cyc. rewrite Z.add_mod_idemp_r by done.
  replace (start / 4 - 1 + (i - (start / 4 - 1))) with i by lia. rewrite Z.mod_small; lia.
Qed.

(** Distinct handles in use bound the number of entries from below. *)
Lemma visited_size start k (entries : gmap Handle Entry) :
  0 <= k <= kHandles -> (forall j, 0 <= j < k -> is_Some (entries !! cyc start j)) -> k <= Z.of_nat (size entries).
Proof.
  intros Hk Hin. set (l := cyc start <$> seqZ 0 k). assert (Hn : NoDup l).
  { apply NoDup_fmap_2_strong; [|apply NoDup_seqZ]. intros a b Ha%elem_of_seqZ Hb%elem_of_seqZ. apply cyc_inj; lia. }
  assert (Hsub : list_to_set l ⊆@{gset Z} dom entries).
  { intros h Hh%elem_of_list_to_set. apply list_elem_of_fmap in Hh as (j & -> & Hj%elem_of_seqZ).
    apply elem_of_dom, Hin. lia. }
  apply subseteq_size in Hsub. rewrite size_list_to_set, size_dom in Hsub by done.
  unfold l in Hsub. rewrite length_fmap, length_seqZ in Hsub. lia.
Qed.

Lemma allocate_from_spec fuel start entries k :
  handle_ok start -> 0 <= k < kHandles -> (forall j, 0 <= j < k -> is_Some (entries !! cyc start j)) ->
  match allocate_from fuel start entries (cyc start k) with
  | None => k + Z.of_nat fuel <= Z.of_nat (size entries)
  | Some (h, next) =>
      handle_ok next /\ ((handle_ok h /\ entries !! h = None) \/
        (h = kInvalidHandle /\ forall h', handle_ok h' -> is_Some (entries !! h')))
  end.
Proof.
  intros Hs. revert k. induction fuel as [|fuel IH]; intros k Hk Hin.
  - cbn. rewrite Z.add_0_r. by apply (visited_size start); [lia|].
  - cbn [allocate_from]. rewrite following_cyc. destruct (bool_decide_reflect (is_Some (entries !! cyc start k))) as [Hsome|Hnone]; cbn [negb].
    + assert (Hin' : forall j, 0 <= j < k + 1 -> is_Some (entries !! cyc start j)).
      { intros j Hj. destruct (Z.eq_dec j k) as [->|]; [done|]. apply Hin. lia. }
      destruct (Z.eqb_spec (cyc start (k + 1)) start) as [E|E].
      * split; [apply cyc_ok|]. right. split; [done|]. intros h' (j & Hj & <-)%(cyc_all start). apply Hin'.
        destruct (Z.eq_dec (k + 1) kHandles); [lia|]. rewrite <- (cyc_start start Hs) in E at 2.
        apply cyc_inj in E; lia.
      * assert (k + 1 <> kHandles).
        { intros Ek. apply E. rewrite <- (cyc_start start Hs) at 2. unfold cyc. rewrite Ek, Z.add_0_r.
          f_equal. f_equal. rewrite <- (Z.mul_1_l kHandles) at 1. by apply Z_mod_plus_full. }
        specialize (IH (k + 1) ltac:(lia) Hin'). destruct (allocate_from _ _ _ _) as [[h next]|]; [done|lia].
    + split; [apply cyc_ok|]. left. split; [apply cyc_ok|]. by apply eq_None_not_Some.
Qed.

(** The search always ends, with a free handle unless all are taken. *)
Lemma allocate_handle_spec t :
  handle_ok (next_handle_ t) ->
  exists h next, allocate_handle_locked t = Some (h, next) /\ handle_ok next /\
    ((handle_ok h /\ entries_ t !! h = None) \/ (h = kInvalidHandle /\ forall h', handle_ok h' -> is_Some (entries_ t !! h'))).
Proof.
  intros Hs. unfold allocate_handle_locked.
  pose proof (allocate_from_spec (S (size (entries_ t))) (next_handle_ t) (entries_ t) 0 Hs) as H.
  rewrite (cyc_start _ Hs) in H. destruct (allocate_from _ _ _ _) as [[h next]|].
  - exists h, next. split; [done|]. apply H; [done|lia].
  - exfalso. specialize (H ltac:(done) ltac:(lia)). lia.
Qed.

(** ** Handle counts *)

(** The handles of an object. *)
Definition refs (o : ObjectId) (entries : gmap Handle Entry) : gmap Handle Entry :=
  filter (λ p, entry_object p.2 = o) entries.
Definition ref_count (o : ObjectId) (entries : gmap Handle Entry) : Z := Z.of_nat (size (refs o entries)).

Definition has_handle (o : ObjectId) (entries : gmap Handle Entry) : Prop :=
  exists h e, entries !! h = Some e /\ entry_object e = o.

(** Every handle is a handle value, and each object counts its handles. *)
Record table_ok (t : HandleTable) (s : ObjectStore) : Prop := mkTableOk {
  ok_next : handle_ok (next_handle_ t);
  ok_handles : forall h, is_Some (entries_ t !! h) -> handle_ok h;
  ok_counts : forall o, handle_count o s = ref_count o (entries_ t)
}.

Lemma handles_bound (entries : gmap Handle Entry) :
  (forall h, is_Some (entries !! h) -> handle_ok h) -> Z.of_nat (size entries) <= kHandles.
Proof.
  intros Hok. assert (Hsub : dom entries ⊆ list_to_set (C := gset Z) ((λ i, 4 + 4 * i) <$> seqZ 0 kHandles)).
  { intros h Hh%elem_of_dom. apply Hok in Hh. apply handle_ok_index in Hh as (i & Hi & ->).
    apply elem_of_list_to_set, list_elem_of_fmap. exists i. split; [done|]. by apply elem_of_seqZ. }
  apply subseteq_size in Hsub. rewrite size_dom, size_list_to_set in Hsub.
  - rewrite length_fmap, length_seqZ in Hsub. unfold kHandles in *. lia.
  - apply NoDup_fmap_2; [intros a b; lia|apply NoDup_seqZ].
Qed.

Lemma ref_count_bound o entries :
  (forall h, is_Some (entries !! h) -> handle_ok h) -> 0 <= ref_count o entries <= kHandles.
Proof.
  intros Hok. pose proof (handles_bound entries Hok). unfold ref_count.
  assert (Hle : (size (refs o entries) <= size entries)%nat) by apply map_subseteq_size, map_filter_subseteq. lia.
Qed.

Lemma ref_count_insert o h e entries :
  entries !! h = None -> ref_count o (<[h := e]> entries) = ref_count o entries + (if decide (entry_object e = o) then 1 else 0).
Proof.
  intros Hh. unfold ref_count, refs. destruct (decide (entry_object e = o)).
  - rewrite map_filter_insert_True, map_size_insert_None by (done || by apply map_lookup_filter_None; left). lia.
  - rewrite map_filter_insert_False, delete_id by done. lia.
Qed.

Lemma ref_count_delete o h e entries :
  entries !! h = Some e -> ref_count o (delete h entries) = ref_count o entries - (if decide (entry_object e = o) then 1 else 0).
Proof.
  intros Hh. rewrite <- (insert_delete_id entries h e Hh) at 2. rewrite ref_count_insert by apply lookup_delete_eq. lia.
Qed.

Lemma ref_count_flags o h e fl entries :
  entries !! h = Some e ->
  ref_count o (<[h := mkEntry (entry_object e) (granted_access e) fl]> entries) = ref_count o entries.
Proof.
  intros Hh. rewrite <- insert_delete_eq, ref_count_insert, (ref_count_delete o h e) by (done || apply lookup_delete_eq).
  cbn. lia.
Qed.

Lemma ref_count_pos o entries : 0 < ref_count o entries <-> has_handle o entries.
Proof.
  unfold ref_count. split.
  - intros Hp. destruct (map_choose (refs o entries)) as (h & e & Hh).
    { intros E. rewrite E, map_size_empty in Hp. done. }
    apply map_lookup_filter_Some in Hh as [? ?]. by exists h, e.
  - intros (h & e & Hh & Ho). assert (Hr : refs o entries !! h = Some e) by (by apply map_lookup_filter_Some).
    assert (size (refs o entries) <> 0%nat); [|lia]. intros E%map_size_empty_iff. by rewrite E in Hr.
Qed.

Lemma count_retain o o' s : handle_count o (retain_handle o' s) = if decide (o' = o) then u32 (handle_count o s + 1) else handle_count o s.
Proof.
  unfold retain_handle, handle_count. cbn. destruct (decide (o' = o)) as [->|]; [by rewrite lookup_insert_eq|by rewrite lookup_insert_ne].
Qed.
Lemma count_release o o' s : handle_count o (release_handle o' s) = if decide (o' = o) then u32 (handle_count o s - 1) else handle_count o s.
Proof.
  unfold release_handle, handle_count. cbn. destruct (decide (o' = o)) as [->|]; [by rewrite lookup_insert_eq|by rewrite lookup_insert_ne].
Qed.
Lemma closed_release o s : last_closed (release_handle o s) = last_closed s ++ (if handle_count o s =? 1 then [o] else []).
Proof. unfold release_handle. cbn. destruct (handle_count o s =? 1); [done|by rewrite app_nil_r]. Qed.

(** ** The abstract table *)

Abbreviation Table := (gmap Handle Entry).

(** A new handle to [o]: a free value, or none is left. *)
Definition granted (o : ObjectId) (access flags : Z) (E : Table) (code : KernelIoCode) (h : Handle) (E' : Table) : Prop :=
  (code = Success /\ handle_ok h /\ E !! h = None /\ E' = <[h := mkEntry o access flags]> E) \/
  (code = AccessDenied /\ h = kInvalidHandle /\ E' = E /\ forall h', handle_ok h' -> is_Some (E !! h')).

(** What a call does to the map from handles to entries, and the objects that lose
    their last handle. *)
Definition table_step (c : call) (E : Table) (a : answer) (E' : Table) (closed : list ObjectId) : Prop :=
  match c, a with
  | Insert None _ _, Answer code h None => code = InvalidParameter /\ h = kInvalidHandle /\ E' = E /\ closed = []
  | Insert (Some o) access flags, Answer code h None => granted o access flags E code h E' /\ closed = []
  | Lookup handle, Answer code _ view =>
      view = E !! handle /\ code = (if view then Success else InvalidHandle) /\ E' = E /\ closed = []
  | Duplicate source options, Answer code h None =>
      closed = [] /\
      match E !! source with
      | None => code = InvalidHandle /\ h = kInvalidHandle /\ E' = E
      | Some e =>
          if wanted_access options e .& not32 (granted_access e) =? 0
          then granted (entry_object e) (wanted_access options e) (duplicate_flags options) E code h E'
          else code = AccessDenied /\ h = kInvalidHandle /\ E' = E
      end
  | Close handle force, Answer code _ None =>
      match E !! handle with
      | None => code = InvalidHandle /\ E' = E /\ closed = []
      | Some e =>
          if negb force && has_flag (entry_flags e) kProtectFromClose then code = ProtectedHandle /\ E' = E /\ closed = []
          else code = Success /\ E' = delete handle E /\
               ((closed = [] /\ has_handle (entry_object e) E') \/ (closed = [entry_object e] /\ ~ has_handle (entry_object e) E'))
      end
  | SetFlags handle flags, Answer code _ None =>
      closed = [] /\
      match E !! handle with
      | None => code = InvalidHandle /\ E' = E
      | Some e => code = Success /\ E' = <[handle := mkEntry (entry_object e) (granted_access e) flags]> E
      end
  | Clear, Answer _ _ _ =>
      E' = ∅ /\ NoDup closed /\ forall o, o ∈ closed <-> has_handle o E
  | _, _ => False
  end.

Inductive table_run : list call -> list answer -> Table -> Table -> list ObjectId -> Prop :=
| table_run_nil E : table_run [] [] E E []
| table_run_cons c a cs l E E1 E2 closed1 closed2 :
    table_step c E a E1 closed1 -> table_run cs l E1 E2 closed2 ->
    table_run (c :: cs) (a :: l) E E2 (closed1 ++ closed2).

Lemma kHandles_word x : 0 <= x <= kHandles -> u32 x = x.
Proof. unfold kHandles. intros Hx. apply u32_small. unfold is_u32. lia. Qed.

Lemma new_entry_ok o access flags t s :
  table_ok t s ->
  exists code h t' s', new_entry o access flags t s = Some (code, h, t', s') /\ table_ok t' s' /\ granted o access flags (entries_ t) code h (entries_ t') /\ last_closed s' = last_closed s.
Proof.
  intros [Hn Hh Hc]. destruct (allocate_handle_spec t Hn) as (h & next & E & Hnext & Hcase). unfold new_entry. rewrite E. cbn.
  destruct Hcase as [[Hok Hfree]|[-> Hall]].
  - destruct (Z.eqb_spec h kInvalidHandle) as [->|_]; [destruct Hok as [[? _] _]; unfold kInvalidHandle in *; lia|].
    eexists _, _, _, _. split; [done|].
    assert (Hh' : forall h', is_Some (<[h := mkEntry o access flags]> (entries_ t) !! h') -> handle_ok h').
    { intros h'. destruct (decide (h = h')) as [<-|]; [done|]. rewrite lookup_insert_ne by done. apply Hh. }
    split_and!; [|by left|done]. split; [done|exact Hh'|]. intros o'. cbn. rewrite count_retain, Hc.
    pose proof (ref_count_bound o' _ Hh') as Hb. rewrite ref_count_insert in * by done. cbn in *.
    destruct (decide (o = o')); [apply kHandles_word; lia|lia].
  - eexists _, _, _, _. split; [done|]. split_and!; [by split|by right|done].
Qed.

Lemma close_ok handle force t s :
  table_ok t s ->
  let '(code, t', s') := close_handle handle force t s in
  table_ok t' s' /\ exists closed, last_closed s' = last_closed s ++ closed /\
    table_step (Close handle force) (entries_ t) (Answer code kInvalidHandle None) (entries_ t') closed.
Proof.
  intros Ht. pose proof Ht as [Hn Hh Hc]. unfold close_handle. cbn. destruct (entries_ t !! handle) as [e|] eqn:E; [|split; [done|exists []; by rewrite app_nil_r]].
  destruct (negb force && has_flag (entry_flags e) kProtectFromClose); [split; [done|exists []; by rewrite app_nil_r]|].
  assert (Hh' : forall h, is_Some (delete handle (entries_ t) !! h) -> handle_ok h).
  { intros h [e' He]. apply lookup_delete_Some in He as [_ He]. by apply Hh. }
  pose proof (ref_count_bound (entry_object e) _ Hh') as Hb. pose proof (ref_count_delete (entry_object e) handle e _ E) as Hd.
  rewrite decide_True in Hd by done. split.
  - split; [done|exact Hh'|]. intros o. cbn. rewrite count_release, Hc, (ref_count_delete o handle e) by done.
    destruct (decide (entry_object e = o)) as [<-|]; [rewrite kHandles_word; lia|lia].
  - rewrite closed_release, Hc. eexists. split; [done|]. cbn. split_and!; [done..|].
    pose proof (ref_count_pos (entry_object e) (delete handle (entries_ t))) as Hp.
    destruct (Z.eqb_spec (ref_count (entry_object e) (entries_ t)) 1); [right|left]; (split; [done|]); [rewrite <- Hp|apply Hp]; lia.
Qed.

(** Releasing the objects of some entries one by one. *)
Lemma release_list l s :
  (forall o, handle_count o s = Z.of_nat (length (filter (λ e, entry_object e = o) l))) -> Z.of_nat (length l) <= kHandles ->
  let s' := foldl (λ s e, release_handle (entry_object e) s) s l in
  (forall o, handle_count o s' = 0) /\
  exists closed, last_closed s' = last_closed s ++ closed /\ NoDup closed /\
    forall o, o ∈ closed <-> exists e, e ∈ l /\ entry_object e = o.
Proof.
  revert s. induction l as [|e l IH]; intros s Hc Hl; cbn [foldl].
  - split; [exact Hc|]. exists []. rewrite app_nil_r. split_and!; [done|constructor|]. intros o. split; [by intros []%elem_of_nil|]. by intros (e & []%elem_of_nil & _).
  - cbn in Hl. assert (Hlen : forall o, (length (filter (λ e, entry_object e = o) l) <= length l)%nat) by (intros; apply length_filter).
    destruct (IH (release_handle (entry_object e) s)) as (H0 & closed & Hcl & Hnd & Hin); [|lia|].
    + intros o. rewrite count_release, Hc, filter_cons. specialize (Hlen o). destruct (decide (entry_object e = o)); [|done].
      cbn [length]. rewrite kHandles_word; lia.
    + split; [exact H0|]. rewrite Hcl, closed_release, Hc, filter_cons, decide_True by done. cbn [length].
      assert (Hmem : entry_object e ∈ closed <-> filter (λ e', entry_object e' = entry_object e) l <> []).
      { rewrite Hin. split.
        - intros (e' & He & Ho) En. apply (elem_of_nil e'). rewrite <- En. by apply list_elem_of_filter.
        - destruct (filter _ l) as [|e' l'] eqn:Ef; [done|]. intros _. assert (Hx : e' ∈ filter (λ e', entry_object e' = entry_object e) l) by (rewrite Ef; by left).
          apply list_elem_of_filter in Hx as [? ?]. by exists e'. }
      eexists. rewrite <- app_assoc. split; [done|].
      destruct (filter (λ e', entry_object e' = entry_object e) l) as [|e' l'] eqn:Ef.
      * cbn [length]. change (Z.of_nat 1 =? 1) with true. cbn. split.
        -- constructor; [|done]. rewrite Hmem. naive_solver.
        -- intros o. cbn. rewrite elem_of_cons, Hin. setoid_rewrite elem_of_cons. naive_solver.
      * destruct (Z.eqb_spec (Z.of_nat (S (length (e' :: l')))) 1) as [E|_]; [cbn in E; lia|]. cbn. split; [done|].
        intros o. rewrite Hin. setoid_rewrite elem_of_cons. assert (entry_object e ∈ closed) as (e2 & He2 & Ho2)%Hin by (by apply Hmem). naive_solver.
Qed.

Lemma ref_count_list o (entries : Table) :
  ref_count o entries = Z.of_nat (length (filter (λ e, entry_object e = o) (map_to_list entries).*2)).
Proof.
  induction entries as [|h e m Hh IH] using map_ind; [by rewrite map_to_list_empty|].
  rewrite ref_count_insert, IH by done. assert (Hp : (map_to_list (<[h := e]> m)).*2 ≡ₚ e :: (map_to_list m).*2).
  { by rewrite map_to_list_insert. }
  rewrite Hp, filter_cons. destruct (decide (entry_object e = o)); cbn; lia.
Qed.

Lemma clear_ok t s :
  table_ok t s ->
  let '(t', s') := clear_table t s in
  table_ok t' s' /\ exists closed, last_closed s' = last_closed s ++ closed /\
    table_step Clear (entries_ t) (Answer Success kInvalidHandle None) (entries_ t') closed.
Proof.
  intros [Hn Hh Hc]. unfold clear_table.
  destruct (release_list (map_to_list (entries_ t)).*2 s) as (H0 & closed & Hcl & Hnd & Hin).
  - intros o. by rewrite Hc, ref_count_list.
  - pose proof (handles_bound _ Hh). rewrite length_fmap, length_map_to_list. lia.
  - split.
    + split; [done|cbn; by intros h [? ?]|]. intros o. by rewrite H0.
    + exists closed. split; [done|]. cbn. split_and!; [done..|]. intros o. rewrite Hin. unfold has_handle. split.
      * intros (e & ([h e'] & -> & Hm)%list_elem_of_fmap & Ho). exists h, e'. split; [|done]. by apply elem_of_map_to_list in Hm.
      * intros (h & e & Hm & Ho). exists e. split; [|done]. apply list_elem_of_fmap. exists (h, e). split; [done|]. by apply elem_of_map_to_list.
Qed.

Lemma handle_call_ok c t s :
  table_ok t s ->
  exists a t' s' closed, handle_call c t s = Some (a, t', s') /\ table_ok t' s' /\
    last_closed s' = last_closed s ++ closed /\ table_step c (entries_ t) a (entries_ t') closed.
Proof.
  intros Ht. pose proof Ht as [Hn Hh Hc].
  assert (Hzero : entries_ t !! kInvalidHandle = None).
  { apply eq_None_not_Some. intros [[? _] _]%Hh. unfold kInvalidHandle in *. lia. }
  destruct c as [[o|] access flags|handle|source options|handle force|handle flags|]; cbn [handle_call insert_object].
  - destruct (new_entry_ok o access flags t s Ht) as (code & h & t' & s' & E & Ht' & Hg & Hl). rewrite E. cbn.
    eexists _, _, _, []. split; [done|]. rewrite app_nil_r. by split_and!.
  - eexists _, _, _, []. split; [done|]. rewrite app_nil_r. by split_and!.
  - unfold lookup_handle. exists (Answer (if entries_ t !! handle then Success else InvalidHandle) kInvalidHandle (entries_ t !! handle)), t, s, [].
    rewrite app_nil_r. split_and!; try done. destruct (Z.eqb_spec handle kInvalidHandle) as [->|_]; [by rewrite Hzero|].
    by destruct (entries_ t !! handle).
  - unfold duplicate_handle. destruct (Z.eqb_spec source kInvalidHandle) as [->|_].
    { eexists _, _, _, []. split; [done|]. rewrite app_nil_r. cbn. rewrite Hzero. by split_and!. }
    destruct (entries_ t !! source) as [e|] eqn:E.
    + destruct (wanted_access options e .& not32 (granted_access e) =? 0) eqn:Ea; cbn [negb].
      * destruct (new_entry_ok (entry_object e) (wanted_access options e) (duplicate_flags options) t s Ht) as (code & h & t' & s' & En & Ht' & Hg & Hl).
        rewrite En. cbn. eexists _, _, _, []. split; [done|]. rewrite app_nil_r. cbn. rewrite E, Ea. by split_and!.
      * eexists _, _, _, []. split; [done|]. rewrite app_nil_r. cbn. rewrite E, Ea. by split_and!.
    + eexists _, _, _, []. split; [done|]. rewrite app_nil_r. cbn. rewrite E. by split_and!.
  - pose proof (close_ok handle force t s Ht) as H. destruct (close_handle handle force t s) as [[code t'] s'].
    destruct H as (Ht' & closed & Hl & Hs). by exists (Answer code kInvalidHandle None), t', s', closed.
  - unfold set_handle_flags. destruct (entries_ t !! handle) as [e|] eqn:E.
    + eexists _, _, _, []. split; [done|]. rewrite app_nil_r. cbn. rewrite E. split_and!; try done. split; cbn.
      * done.
      * intros h. destruct (decide (handle = h)) as [<-|]; [intros _; apply Hh; by rewrite E|]. rewrite lookup_insert_ne by done. apply Hh.
      * intros o. by rewrite (ref_count_flags o handle e).
    + eexists _, _, _, []. split; [done|]. rewrite app_nil_r. cbn. rewrite E. by split_and!.
  - pose proof (clear_ok t s Ht) as H. destruct (clear_table t s) as [t' s'].
    destruct H as (Ht' & closed & Hl & Hs). by exists (Answer Success kInvalidHandle None), t', s', closed.
Qed.

Lemma handle_calls_ok cs t s :
  table_ok t s ->
  exists l t' s' closed, handle_calls cs t s = Some (l, t', s') /\ table_ok t' s' /\
    last_closed s' = last_closed s ++ closed /\ table_run cs l (entries_ t) (entries_ t') closed.
Proof.
  revert t s. induction cs as [|c cs IH]; intros t s Ht; cbn [handle_calls].
  - exists [], t, s, []. rewrite app_nil_r. split_and!; [done..|constructor].
  - destruct (handle_call_ok c t s Ht) as (a & t1 & s1 & closed1 & -> & Ht1 & Hl1 & Hs1). cbn.
    destruct (IH t1 s1 Ht1) as (l & t2 & s2 & closed2 & -> & Ht2 & Hl2 & Hs2). cbn.
    eexists _, t2, s2, (closed1 ++ closed2). split; [done|]. split_and!; [done| |by econstructor].
    by rewrite Hl2, Hl1, app_assoc.
Qed.

(** ** Access *)

(** The object was inserted with at least these rights. *)
Definition access_from (cs : list call) (e : Entry) : Prop :=
  exists access flags, Insert (Some (entry_object e)) access flags ∈ cs /\
    forall n, Z.testbit (granted_access e) n = true -> Z.testbit access n = true.

Definition call_words (c : call) : Prop :=
  match c with
  | Insert _ access _ => is_u32 access
  | Duplicate _ options => is_u32 (desired_access options)
  | _ => True
  end.

Lemma subset_bits x y n : is_u32 x -> x .& not32 y =? 0 = true -> Z.testbit x n = true -> Z.testbit y n = true.
Proof.
  intros Hx E%Z.eqb_eq Hn. destruct (Z.testbit y n) eqn:Ey; [done|exfalso].
  pose proof (Z.land_spec x (not32 y) n) as Hl. rewrite E, Z.testbit_0_l, Hn in Hl.
  assert (0 <= n < 32) as Hb.
  { destruct (Z.lt_ge_cases n 0) as [Hneg|Hneg]; [by rewrite Z.testbit_neg_r in Hn|]. split; [done|].
    apply Z.nle_gt. intros Hge. rewrite <- (u32_small x Hx), testbit_u32 in Hn by lia. by destruct (Z.ltb_spec n 32); [lia|]. }
  unfold not32 in Hl. rewrite testbit_u32, Z.lnot_spec, Ey in Hl by lia. by rewrite (proj2 (Z.ltb_lt n 32)) in Hl by lia.
Qed.

Lemma access_from_more cs c e : access_from cs e -> access_from (cs ++ [c]) e.
Proof. intros (access & flags & Hin & Hb). exists access, flags. split; [|done]. apply elem_of_app. by left. Qed.

(** The rights a table hands out come from the insertions so far. *)
Definition rights_ok (cs : list call) (E : Table) : Prop :=
  map_Forall (λ _ e, is_u32 (granted_access e) /\ access_from cs e) E.

Lemma granted_rights cs c o access flags E code h E' :
  rights_ok (cs ++ [c]) E -> is_u32 access /\ access_from (cs ++ [c]) (mkEntry o access flags) ->
  granted o access flags E code h E' -> rights_ok (cs ++ [c]) E'.
Proof. intros HE Ha [(_ & _ & _ & ->)|(_ & _ & -> & _)]; [by apply map_Forall_insert_2|done]. Qed.

Lemma table_step_rights cs c E a E' closed :
  call_words c -> rights_ok cs E -> table_step c E a E' closed -> rights_ok (cs ++ [c]) E'.
Proof.
  intros Hc HE Hs. assert (HE' : rights_ok (cs ++ [c]) E).
  { eapply map_Forall_impl; [exact HE|]. intros h e [? ?]. split; [done|by apply access_from_more]. }
  destruct a as [code h view]. destruct c as [[o|] access flags|handle|source options|handle force|handle flags|]; cbn in Hs.
  - destruct view; [done|]. destruct Hs as [Hg _]. eapply granted_rights; [done| |done]. split; [done|].
    exists access, flags. split; [|done]. apply elem_of_app. right. by left.
  - destruct view; [done|]. by destruct Hs as (_ & _ & -> & _).
  - by destruct Hs as (_ & _ & -> & _).
  - destruct view; [done|]. destruct Hs as [_ Hs]. destruct (E !! source) as [e|] eqn:Ee; [|by destruct Hs as (_ & _ & ->)].
    destruct (wanted_access options e .& not32 (granted_access e) =? 0) eqn:Ew; [|by destruct Hs as (_ & _ & ->)].
    destruct (HE' source e Ee) as [Hu (access & flags & Hin & Hb)].
    assert (Hw : is_u32 (wanted_access options e)) by (unfold wanted_access; by destruct (same_access options)).
    eapply granted_rights; [done| |done]. split; [done|]. exists access, flags. split; [done|]. cbn. intros n Hn.
    apply Hb. by eapply subset_bits.
  - destruct view; [done|]. destruct (E !! handle) as [e|]; [|by destruct Hs as (_ & -> & _)].
    destruct (negb force && _); [by destruct Hs as (_ & -> & _)|]. destruct Hs as (_ & -> & _). by apply map_Forall_delete.
  - destruct view; [done|]. destruct Hs as [_ Hs]. destruct (E !! handle) as [e|] eqn:Ee; [|by destruct Hs as (_ & ->)].
    destruct Hs as (_ & ->). apply map_Forall_insert_2; [|done]. exact (HE' handle e Ee).
  - destruct Hs as (-> & _). apply map_Forall_empty.
Qed.

Lemma table_run_rights cs0 cs l E E' closed :
  Forall call_words cs -> rights_ok cs0 E -> table_run cs l E E' closed -> rights_ok (cs0 ++ cs) E'.
Proof.
  intros Hcs HE Hr. revert cs0 Hcs HE. induction Hr as [E|c a cs l E E1 E2 closed1 closed2 Hs _ IH]; intros cs0 Hcs HE.
  - by rewrite app_nil_r.
  - apply Forall_cons in Hcs as [Hc Hcs]. rewrite cons_middle, app_assoc. apply IH; [done|]. by eapply table_step_rights.
Qed.

(** ** The table as it starts *)

Definition empty_table : HandleTable := mkHandleTable ∅ 4.
Definition new_objects : ObjectStore := mkObjects ∅ [].

Lemma empty_table_ok : table_ok empty_table new_objects.
Proof. split; [split; [done|by exists 1]|cbn; by intros h [? ?]|done]. Qed.

(** C18: HandleTable refines a finite map. From an empty table every sequence of calls
    returns, and answers as the map determines: an insertion or duplication takes a
    handle value not in use, and is refused only when all 2^29 - 1 are; lookup, flags and
    close act on the one entry; a protected handle closes only by force; every handle
    value is positive and a multiple of four. Each object's count is the number of its
    handles, and its [on_last_handle_closed] runs exactly when the last one goes. *)
Theorem handle_table_refines_map cs :
  exists l t s, handle_calls cs empty_table new_objects = Some (l, t, s) /\ table_ok t s /\
    table_run cs l ∅ (entries_ t) (last_closed s).
Proof.
  destruct (handle_calls_ok cs empty_table new_objects empty_table_ok) as (l & t & s & closed & E & Hok & Hl & Hr).
  exists l, t, s. split_and!; [done..|]. by rewrite Hl.
Qed.

(** C31: No handle has rights its object was not inserted with: whatever duplications,
    closings and flag changes were made, each right of a live handle was in the rights of
    some insertion of the same object. *)
Theorem handles_gain_no_access cs l t s h e :
  Forall call_words cs -> handle_calls cs empty_table new_objects = Some (l, t, s) -> entries_ t !! h = Some e ->
  access_from cs e.
Proof.
  intros Hcs E Hh. destruct (handle_calls_ok cs empty_table new_objects empty_table_ok) as (l' & t' & s' & closed & E' & _ & _ & Hr).
  rewrite E in E'. injection E' as <- <- <-.
  pose proof (table_run_rights [] cs l _ _ closed Hcs (map_Forall_empty _) Hr h e Hh) as [_ ?]. done.
Qed.

Lemma handles_gain_no_access_witness :
  let cs := [Insert (Some 7) 0x1F 0; Duplicate 4 (mkDuplicate false 0x3 kProtectFromClose); Duplicate 8 (mkDuplicate false 0x4 0);
             Duplicate 8 (mkDuplicate true 0 0); Close 8 false; Close 4 false; Close 8 true; Lookup 12] in
  exists t s,
    handle_calls cs empty_table new_objects =
      Some ([Answer Success 4 None; Answer Success 8 None; Answer AccessDenied 0 None; Answer Success 12 None;
             Answer ProtectedHandle 0 None; Answer Success 0 None; Answer Success 0 None; Answer Success 0 (Some (mkEntry 7 3 0))], t, s) /\
    last_closed s = [] /\ handle_count 7 s = 1 /\ access_from cs (mkEntry 7 3 0).
Proof.
  cbv zeta. eexists _, _. split; [vm_compute; reflexivity|]. split_and!; [done..|].
  eapply (handles_gain_no_access
    [Insert (Some 7) 0x1F 0; Duplicate 4 (mkDuplicate false 0x3 kProtectFromClose); Duplicate 8 (mkDuplicate false 0x4 0);
     Duplicate 8 (mkDuplicate true 0 0); Close 8 false; Close 4 false; Close 8 true; Lookup 12] _ _ _ 12);
    [by repeat constructor|vm_compute; reflexivity|done].
Defined.
