(* ===== verification/AddressSpace.v ===== *)
(** * The production address space
    (include/xenon/memory/types.hpp, address_space.hpp; src/memory/guest: address_space.cpp,
    virtual/*.cpp, physical/physical_allocation.cpp, physical/physical_aliases.cpp,
    page_table/hot_page_table.cpp, diagnostics/invariants.cpp, access/guest_access.cpp,
    access/mmio_registration.cpp, coherency/memory_ordering.cpp; include/xenon/cpu:
    the fast path of memory_port.hpp and the domains of memory_ordering.hpp)

    Guest pages, the physical pages behind them, and the compact translation table that
    generated code reads. [Physical] is the ownership of physical memory, [AddressSpace]
    adds the guest page table and the hot entries. [None] is a thrown
    [std::logic_error]. Left out: the bytes themselves (the ranges cleared are logged),
    reservations and write epochs, and the optional host aperture, taken as inactive. *)

From S2P Require Import Prelude.
From S2P Require Import Words.
From S2P Require Import PhysicalRanges.

(** ** types.hpp *)

Definition kLargePageSize : Z := 0x10000.
Definition kHugePageSize : Z := 0x01000000.
Definition kPhysicalSystemReserveSize : Z := kHugePageSize.
Definition kPhysicalTopReservedSize : Z := kLargePageSize.
Definition kPhysicalAllocatableEndExclusive : Z := kPhysicalMemorySize - kPhysicalTopReservedSize.

Definition kVirtual4KBase : Z := 0x00000000.
Definition kVirtual4KEnd : Z := 0x3FFFFFFF.
Definition kVirtual64KBase : Z := 0x40000000.
Definition kVirtual64KEnd : Z := 0x7EFFFFFF.
Definition kGpuWritebackBase : Z := 0x7F000000.
Definition kGpuWritebackEnd : Z := 0x7FFFFFFF.
Definition kXex64KBase : Z := 0x80000000.
Definition kXex64KEnd : Z := 0x8FFFFFFF.
Definition kXex4KBase : Z := 0x90000000.
Definition kXex4KEnd : Z := 0x9FFFFFFF.
Definition kPhysical64KBase : Z := 0xA0000000.
Definition kPhysical64KEnd : Z := 0xBFFFFFFF.
Definition kPhysical16MBase : Z := 0xC0000000.
Definition kPhysical16MEnd : Z := 0xDFFFFFFF.
Definition kPhysical4KBase : Z := 0xE0000000.
Definition kPhysical4KHeapEnd : Z := 0xFFCFFFFF.
Definition kMmioBase : Z := 0xFFD00000.
Definition kMmioEnd : Z := 0xFFFFFFFF.
Definition kPhysical4KViewOffset : Z := 0x1000.
Definition kPhysical4KAddressableEndInclusive : Z := kPhysical4KViewOffset + (kPhysical4KHeapEnd - kPhysical4KBase).

Inductive RegionKind : Type := Virtual | Xex | PhysicalAlias | GpuWriteback | Mmio.
Inductive AccessKind : Type := Read | Write | Execute.
Inductive FaultReason : Type := Unmapped | Uncommitted | Protection | OutOfRange | MmioWidth.
Inductive PageState : Type := Free | Reserved | Committed.
Inductive PhysicalPageClass : Type := Page4K | Page64K | Page16M.

#[export] Instance RegionKind_eq_dec : EqDecision RegionKind. Proof. solve_decision. Defined.
#[export] Instance PageState_eq_dec : EqDecision PageState. Proof. solve_decision. Defined.

(** A set of rights is a bit mask. *)
Abbreviation Protect := Z (only parsing).
Definition kNoAccess : Protect := 0.
Definition kRead : Protect := 1.
Definition kWrite : Protect := 2.
Definition kExecute : Protect := 4.
Definition kNoCache : Protect := 8.
Definition kWriteCombine : Protect := 16.
Definition kReadWrite : Protect := kRead .| kWrite.
Definition has (value bit : Protect) : bool := negb (value .& bit =? 0).

Definition valid_memory_type_protection (protect : Protect) : bool :=
  negb (has protect kNoCache && has protect kWriteCombine).

Record VirtualAllocationOptions : Type := mkVirtualOptions {
  commit : bool;
  zero_initialize : bool
}.

Record PhysicalAllocationOptions : Type := mkPhysicalOptions {
  page_class : PhysicalPageClass;
  po_alignment : Z;
  minimum_address : Z;
  maximum_address : Z;
  po_protect : Protect;
  po_top_down : bool;
  po_zero_initialize : bool
}.

Record RegionDescriptor : Type := mkRegion {
  rg_base : Z;
  rg_end : Z;
  rg_page_size : Z;
  rg_kind : RegionKind
}.

Definition kRegions : list RegionDescriptor :=
  [mkRegion kVirtual4KBase kVirtual4KEnd kBasePageSize Virtual;
   mkRegion kVirtual64KBase kVirtual64KEnd kLargePageSize Virtual;
   mkRegion kGpuWritebackBase kGpuWritebackEnd kLargePageSize GpuWriteback;
   mkRegion kXex64KBase kXex64KEnd kLargePageSize Xex;
   mkRegion kXex4KBase kXex4KEnd kBasePageSize Xex;
   mkRegion kPhysical64KBase kPhysical64KEnd kLargePageSize PhysicalAlias;
   mkRegion kPhysical16MBase kPhysical16MEnd kHugePageSize PhysicalAlias;
   mkRegion kPhysical4KBase kPhysical4KHeapEnd kBasePageSize PhysicalAlias;
   mkRegion kMmioBase kMmioEnd kBasePageSize Mmio].

Definition in_region (address : Z) (r : RegionDescriptor) : bool := (rg_base r <=? address) && (address <=? rg_end r).
Definition region_for (address : Z) : option RegionDescriptor := List.find (in_region address) kRegions.

Definition align_down (value alignment : Z) : Z := value .& not32 (u32 (alignment - 1)).
Definition align_up (value alignment : Z) : Z := u32 (u64 (value + alignment - 1) .& not64 (u64 (alignment - 1))).
Definition page_count_for (size : Z) : Z := u32 (size + kBasePageSize - 1) / kBasePageSize.

Definition physical_page_class_size (page_class : PhysicalPageClass) : Z :=
  match page_class with Page4K => kBasePageSize | Page64K => kLargePageSize | Page16M => kHugePageSize end.
Definition physical_page_class_from_size (page_size : Z) : PhysicalPageClass :=
  if page_size =? kHugePageSize then Page16M else if page_size =? kLargePageSize then Page64K else Page4K.

(** ** Physical memory *)

Definition kPageShift : Z := 12.
Definition kPageCount : Z := Z.shiftl 1 (32 - kPageShift).
Definition kInvalidPhysicalPage : Z := 0xFFFFFFFF.

(** The values of [physical_page_used_]. *)
Inductive Ownership : Type :=
| kPhysicalFree | kPhysicalSystem | kPhysicalAnonymous | kPhysicalExplicit | kPhysicalAnonymousPendingFree | kPhysicalRetired.
#[export] Instance Ownership_eq_dec : EqDecision Ownership. Proof. solve_decision. Defined.

Record PhysicalPageMetadata : Type := mkMetadata {
  pm_base_page : Z;
  pm_page_count : Z;
  pm_page_size : Z;
  pm_allocation_protect : Protect;
  pm_current_protect : Protect;
  explicit_allocation : bool
}.
Definition new_metadata : PhysicalPageMetadata := mkMetadata kInvalidPhysicalPage 0 kBasePageSize kReadWrite kReadWrite false.

(** [reader_drains_]: whether the fast readers are seen to drain, the next times reclaim
    waits for them. [cleared_]: the physical ranges set to zero. *)
Record Physical : Type := mkPhysical {
  physical_page_used_ : gmap Z Ownership;
  physical_mapping_refs_ : gmap Z Z;
  physical_page_metadata_ : gmap Z PhysicalPageMetadata;
  physical_allocator_ : PhysicalRangeAllocator;
  physical_reverse_mappings_ : gmap Z (list Z);
  executable_page_generations_ : gmap Z Z;
  reader_drains_ : list bool;
  cleared_ : list (Z * Z)
}.

Definition used (page : Z) (s : Physical) : Ownership := default kPhysicalFree (physical_page_used_ s !! page).
Definition refs (page : Z) (s : Physical) : Z := default 0 (physical_mapping_refs_ s !! page).
Definition metadata (page : Z) (s : Physical) : PhysicalPageMetadata := default new_metadata (physical_page_metadata_ s !! page).
Definition generation (page : Z) (s : Physical) : Z := default 0 (executable_page_generations_ s !! page).

Definition set_used (m : gmap Z Ownership) (s : Physical) : Physical :=
  mkPhysical m (physical_mapping_refs_ s) (physical_page_metadata_ s) (physical_allocator_ s) (physical_reverse_mappings_ s)
    (executable_page_generations_ s) (reader_drains_ s) (cleared_ s).
Definition set_mappings (refs : gmap Z Z) (reverse : gmap Z (list Z)) (s : Physical) : Physical :=
  mkPhysical (physical_page_used_ s) refs (physical_page_metadata_ s) (physical_allocator_ s) reverse
    (executable_page_generations_ s) (reader_drains_ s) (cleared_ s).
Definition set_metadata (m : gmap Z PhysicalPageMetadata) (s : Physical) : Physical :=
  mkPhysical (physical_page_used_ s) (physical_mapping_refs_ s) m (physical_allocator_ s) (physical_reverse_mappings_ s)
    (executable_page_generations_ s) (reader_drains_ s) (cleared_ s).
Definition set_allocator (a : PhysicalRangeAllocator) (s : Physical) : Physical :=
  mkPhysical (physical_page_used_ s) (physical_mapping_refs_ s) (physical_page_metadata_ s) a (physical_reverse_mappings_ s)
    (executable_page_generations_ s) (reader_drains_ s) (cleared_ s).
Definition set_generations (m : gmap Z Z) (s : Physical) : Physical :=
  mkPhysical (physical_page_used_ s) (physical_mapping_refs_ s) (physical_page_metadata_ s) (physical_allocator_ s)
    (physical_reverse_mappings_ s) m (reader_drains_ s) (cleared_ s).
Definition set_drains (l : list bool) (s : Physical) : Physical :=
  mkPhysical (physical_page_used_ s) (physical_mapping_refs_ s) (physical_page_metadata_ s) (physical_allocator_ s)
    (physical_reverse_mappings_ s) (executable_page_generations_ s) l (cleared_ s).
Definition clear_physical (address size : Z) (s : Physical) : Physical :=
  mkPhysical (physical_page_used_ s) (physical_mapping_refs_ s) (physical_page_metadata_ s) (physical_allocator_ s)
    (physical_reverse_mappings_ s) (executable_page_generations_ s) (reader_drains_ s) (cleared_ s ++ [(address, size)]).

(** [std::fill_n]. *)
Definition fill_n {A} (first count : Z) (v : A) (m : gmap Z A) : gmap Z A := foldl (λ m i, <[i := v]> m) m (seqZ first count).

(** A loop over [f] that may throw. *)
Fixpoint each {A S} (f : A -> S -> option S) (l : list A) (s : S) : option S :=
  match l with
  | [] => Some s
  | i :: l => s ← f i s; each f l s
  end.

Definition next_generation (g : Z) : Z := if g =? 0 then 1 else if g =? 0xFFFFFFFF then 1 else g + 1.
Definition advance_executable_generation (page : Z) (s : Physical) : Physical :=
  if page <? kPhysicalPageCount
  then set_generations (<[page := next_generation (generation page s)]> (executable_page_generations_ s)) s else s.

Definition free_physical_page (page : Z) (s : Physical) : option Physical :=
  if kPhysicalPageCount <=? page then Some s
  else if page <? kHugePageSize / kBasePageSize then Some s
  else match used page s with
       | kPhysicalAnonymous | kPhysicalAnonymousPendingFree =>
           if negb (refs page s =? 0) then Some (set_used (<[page := kPhysicalAnonymousPendingFree]> (physical_page_used_ s)) s)
           else
             let s := set_used (<[page := kPhysicalRetired]> (physical_page_used_ s)) s in
             let '(ok, a) := range_retire page 1 (physical_allocator_ s) in
             if ok then Some (set_allocator a s) else None
       | _ => Some s
       end.

Definition reclaim_range (r : Z * Z) (s : Physical) : option Physical :=
  let '(first, count) := r in
  if negb (forallb (λ i, bool_decide (used i s = kPhysicalRetired) && (refs i s =? 0)) (seqZ first count)) then None
  else
    let s := set_used (fill_n first count kPhysicalFree (physical_page_used_ s)) s in
    let s := set_metadata (fill_n first count new_metadata (physical_page_metadata_ s)) s in
    let '(ok, a) := range_release first count (physical_allocator_ s) in
    if ok then Some (set_allocator a s) else None.

Definition reclaim_retired_physical_pages (s : Physical) : option Physical :=
  if negb (has_retired_ranges (physical_allocator_ s)) then Some s
  else
    let '(drained, rest) := match reader_drains_ s with [] => (true, []) | b :: rest => (b, rest) end in
    let s := set_drains rest s in
    if negb drained then Some s
    else
      let '(retired, a) := take_retired_ranges (physical_allocator_ s) in
      each reclaim_range retired (set_allocator a s).

Definition kFirstPageOutside4KView : Z := (kPhysical4KAddressableEndInclusive + 1) / kBasePageSize.
Definition kAllocatableEndPage : Z := kPhysicalAllocatableEndExclusive / kBasePageSize.

(** A page for a commit, or [None] when there is none. *)
Definition allocate_physical_page (top_down : bool) (s : Physical) : option (option Z * Physical) :=
  s ← reclaim_retired_physical_pages s;
  match range_allocate 1 1 top_down kFirstPageOutside4KView kAllocatableEndPage (physical_allocator_ s) with
  | Some (page, a) => Some (Some page, set_allocator a (set_used (<[page := kPhysicalAnonymous]> (physical_page_used_ s)) s))
  | None =>
      match range_allocate 1 1 top_down 0 kPhysicalPageCount (physical_allocator_ s) with
      | Some (page, a) => Some (Some page, set_allocator a (set_used (<[page := kPhysicalAnonymous]> (physical_page_used_ s)) s))
      | None => Some (None, s)
      end
  end.

Definition add_physical_mapping_ref (physical_page guest_page : Z) (s : Physical) : option Physical :=
  if (kPhysicalPageCount <=? physical_page) || (kPageCount <=? guest_page) then None
  else
    let '(ok, reverse) := mapping_add physical_page guest_page (physical_reverse_mappings_ s) in
    if negb ok then None
    else Some (set_mappings (<[physical_page := u32 (refs physical_page s + 1)]> (physical_mapping_refs_ s)) reverse s).

Definition remove_physical_mapping_ref (physical_page guest_page : Z) (s : Physical) : option Physical :=
  if (kPhysicalPageCount <=? physical_page) || (kPageCount <=? guest_page) || (refs physical_page s =? 0) then None
  else
    let '(ok, reverse) := mapping_remove physical_page guest_page (physical_reverse_mappings_ s) in
    if negb ok then None
    else
      let s := set_mappings (<[physical_page := u32 (refs physical_page s - 1)]> (physical_mapping_refs_ s)) reverse s in
      if (refs physical_page s =? 0) && bool_decide (used physical_page s = kPhysicalAnonymousPendingFree)
      then free_physical_page physical_page s else Some s.

Definition reserve_physical_run (count alignment : Z) (top_down : bool) (minimum maximum : Z) (s : Physical)
    : option (option Z * Physical) :=
  if (count =? 0) || (kPhysicalPageCount <? count) || (alignment =? 0) || negb (has_single_bit alignment) || (maximum <=? minimum)
  then Some (None, s)
  else
    s ← reclaim_retired_physical_pages s;
    match range_allocate count alignment top_down minimum maximum (physical_allocator_ s) with
    | None => Some (None, s)
    | Some (first, a) => Some (Some first, set_allocator a (set_used (fill_n first count kPhysicalExplicit (physical_page_used_ s)) s))
    end.

(** ** Guest pages *)

Record Page : Type := mkPage {
  physical_page : Z;
  allocation_base_page : Z;
  allocation_page_count : Z;
  allocation_protect : Protect;
  current_protect : Protect;
  state : PageState;
  kind : RegionKind;
  explicit_physical_mapping : bool;
  permanent_guard : bool
}.
Definition new_page : Page := mkPage kInvalidPhysicalPage 0 0 kNoAccess kNoAccess Free Virtual false false.

Definition set_state (v : PageState) (p : Page) : Page :=
  mkPage (physical_page p) (allocation_base_page p) (allocation_page_count p) (allocation_protect p) (current_protect p) v
    (kind p) (explicit_physical_mapping p) (permanent_guard p).
Definition set_protect (v : Protect) (p : Page) : Page :=
  mkPage (physical_page p) (allocation_base_page p) (allocation_page_count p) (allocation_protect p) v (state p)
    (kind p) (explicit_physical_mapping p) (permanent_guard p).
Definition set_physical (v : Z) (p : Page) : Page :=
  mkPage v (allocation_base_page p) (allocation_page_count p) (allocation_protect p) (current_protect p) (state p)
    (kind p) (explicit_physical_mapping p) (permanent_guard p).
Definition set_base_page (v : Z) (p : Page) : Page :=
  mkPage (physical_page p) v (allocation_page_count p) (allocation_protect p) (current_protect p) (state p)
    (kind p) (explicit_physical_mapping p) (permanent_guard p).
Definition set_explicit (v : bool) (p : Page) : Page :=
  mkPage (physical_page p) (allocation_base_page p) (allocation_page_count p) (allocation_protect p) (current_protect p) (state p)
    (kind p) v (permanent_guard p).

(** Base and size of the device ranges, sorted. *)
Record AddressSpace : Type := mkSpace {
  physical : Physical;
  pages_ : gmap Z Page;
  hot_pages_ : gmap Z Z;
  mmio_ranges_ : list (Z * Z)
}.

Definition page_at (i : Z) (s : AddressSpace) : Page := default new_page (pages_ s !! i).
Definition set_page (i : Z) (p : Page) (s : AddressSpace) : AddressSpace :=
  mkSpace (physical s) (<[i := p]> (pages_ s)) (hot_pages_ s) (mmio_ranges_ s).
Definition on_page (i : Z) (f : Page -> Page) (s : AddressSpace) : AddressSpace := set_page i (f (page_at i s)) s.
Definition with_physical (p : Physical) (s : AddressSpace) : AddressSpace := mkSpace p (pages_ s) (hot_pages_ s) (mmio_ranges_ s).
Definition set_hot (m : gmap Z Z) (s : AddressSpace) : AddressSpace := mkSpace (physical s) (pages_ s) m (mmio_ranges_ s).
Definition set_mmio (l : list (Z * Z)) (s : AddressSpace) : AddressSpace := mkSpace (physical s) (pages_ s) (hot_pages_ s) l.

(** A step of the physical layer. *)
Definition lift_physical (f : Physical -> option Physical) (s : AddressSpace) : option AddressSpace :=
  p ← f (physical s); Some (with_physical p s).

(** ** The translation table *)

Definition kPhysicalPageMask : Z := Z.ones 17.
Definition kMapped : Z := Z.shiftl 1 17.
Definition kHotRead : Z := Z.shiftl 1 18.
Definition kHotWrite : Z := Z.shiftl 1 19.
Definition kHotExecute : Z := Z.shiftl 1 20.
Definition kSlow : Z := Z.shiftl 1 21.
Definition kHotNoCache : Z := Z.shiftl 1 22.
Definition kHotWriteCombine : Z := Z.shiftl 1 23.

Definition flag (b : bool) (bit : Z) : Z := if b then bit else 0.
Definition encode_page (physical_page : Z) (read write execute slow no_cache write_combine : bool) : Z :=
  physical_page .& kPhysicalPageMask .| kMapped .| flag read kHotRead .| flag write kHotWrite .| flag execute kHotExecute
  .| flag slow kSlow .| flag no_cache kHotNoCache .| flag write_combine kHotWriteCombine.
Definition encode_protect (physical_page : Z) (protect : Protect) (slow : bool) : Z :=
  encode_page physical_page (has protect kRead) (has protect kWrite) (has protect kExecute) slow
    (has protect kNoCache) (has protect kWriteCombine).

Definition physical_alias_address (address : Z) : Z :=
  if (kGpuWritebackBase <=? address) && (address <=? kGpuWritebackEnd) then address - kGpuWritebackBase
  else if (kPhysical64KBase <=? address) && (address <=? kPhysical16MEnd) then address .& 0x1FFFFFFF
  else if (kPhysical4KBase <=? address) && (address <=? kPhysical4KHeapEnd) then (address - kPhysical4KBase) + kPhysical4KViewOffset
  else 0xFFFFFFFF.

Definition physical_protect (address : Z) (s : Physical) : Protect :=
  if kPhysicalMemorySize <=? address then kNoAccess else pm_current_protect (metadata (Z.shiftr address kPageShift) s).

(** Whether the last range that starts before the page ends reaches into it. *)
Definition page_has_mmio (page : Z) (s : AddressSpace) : bool :=
  let page_base := u32 (Z.shiftl page kPageShift) in
  match last (List.filter (λ r, fst r <? page_base + kBasePageSize) (mmio_ranges_ s)) with
  | None => false
  | Some (base, size) => page_base <? base + size
  end.

Definition make_hot_entry (page : Z) (s : AddressSpace) : Z :=
  if kPageCount <=? page then 0
  else
    let address := u32 (Z.shiftl page kPageShift) in
    let slow := page_has_mmio page s in
    let direct := physical_alias_address address in
    if negb (direct =? 0xFFFFFFFF) && (direct <? kPhysicalMemorySize)
    then encode_protect (Z.shiftr direct kPageShift) (physical_protect direct (physical s)) slow
    else match region_for address with
         | None => flag slow kSlow
         | Some r =>
             match rg_kind r with
             | Mmio => kSlow
             | PhysicalAlias | GpuWriteback => flag slow kSlow
             | Virtual | Xex =>
                 let p := page_at page s in
                 if negb (bool_decide (state p = Committed)) || (physical_page p =? kInvalidPhysicalPage) then flag slow kSlow
                 else encode_protect (physical_page p) (current_protect p) slow
             end
         end.

(** The first executable entry of a physical page starts its generation. *)
Definition publish_hot_entry (page entry : Z) (s : AddressSpace) : AddressSpace :=
  if kPageCount <=? page then s
  else
    let ph := physical s in
    let frame := entry .& kPhysicalPageMask in
    let ph := if (entry .& (kMapped .| kHotExecute) =? kMapped .| kHotExecute) && (frame <? kPhysicalPageCount) && (generation frame ph =? 0)
              then set_generations (<[frame := 1]> (executable_page_generations_ ph)) ph else ph in
    mkSpace ph (pages_ s) (<[page := entry]> (hot_pages_ s)) (mmio_ranges_ s).

Definition publish_hot_page (page : Z) (s : AddressSpace) : AddressSpace :=
  if kPageCount <=? page then s else publish_hot_entry page (make_hot_entry page s) s.

Definition publish_pages (l : list Z) (s : AddressSpace) : AddressSpace := foldl (λ s page, publish_hot_page page s) s l.

Definition publish_hot_range (base size : Z) (s : AddressSpace) : AddressSpace :=
  if size =? 0 then s
  else
    let first := Z.shiftr base kPageShift in
    let last := Z.min (Z.shiftr (u64 (base + size - 1)) kPageShift) (kPageCount - 1) in
    publish_pages (seqZ first (last - first + 1)) s.

Definition rebuild_hot_pages (s : AddressSpace) : AddressSpace := publish_pages (seqZ 0 kPageCount) s.

(** The direct views of the physical pages of a range. *)
Definition alias_pages (page : Z) : list Z :=
  let physical := u32 (page * kBasePageSize) in
  (if physical <? kGpuWritebackEnd - kGpuWritebackBase + 1 then [Z.shiftr (u32 (kGpuWritebackBase + physical)) kPageShift] else []) ++
  (if physical <=? kPhysical64KEnd - kPhysical64KBase then [Z.shiftr (u32 (kPhysical64KBase + physical)) kPageShift] else []) ++
  (if physical <=? kPhysical16MEnd - kPhysical16MBase then [Z.shiftr (u32 (kPhysical16MBase + physical)) kPageShift] else []) ++
  (if kPhysical4KViewOffset <=? physical
   then let guest := kPhysical4KBase + physical - kPhysical4KViewOffset in
        if guest <=? kPhysical4KHeapEnd then [Z.shiftr (u32 guest) kPageShift] else []
   else []).
Definition publish_physical_alias_range (address size : Z) (s : AddressSpace) : AddressSpace :=
  if (size =? 0) || (kPhysicalMemorySize <=? address) then s
  else
    let last := Z.shiftr (Z.min (address + size) kPhysicalMemorySize - 1) kPageShift in
    let first := Z.shiftr address kPageShift in
    publish_pages (seqZ first (last - first + 1) ≫= alias_pages) s.

(** ** XEX views *)

Definition xex_alias (address : Z) : Z :=
  if address <? kXex4KBase then u32 (address + 0x10000000) else u32 (address - 0x10000000).
(** The page of the other view. *)
Definition alias_page (i : Z) : Z := Z.shiftr (xex_alias (u32 (Z.shiftl i kPageShift))) kPageShift.
Definition is_xex (r : RegionDescriptor) : bool := bool_decide (rg_kind r = Xex).
Definition is_heap (r : RegionDescriptor) : bool := bool_decide (rg_kind r = Virtual) || is_xex r.

Definition publish_both (r : RegionDescriptor) (base size : Z) (s : AddressSpace) : AddressSpace :=
  let s := publish_hot_range base size s in
  if is_xex r then publish_hot_range (xex_alias base) size s else s.

(** ** Reservation and commitment *)

Definition range_is_allocatable (base size page_size : Z) : bool :=
  if (size =? 0) || negb (has_single_bit page_size) then false
  else match region_for base with
       | None => false
       | Some r =>
           is_heap r && (page_size =? rg_page_size r) && (base .& (page_size - 1) =? 0) && (size .& (page_size - 1) =? 0) &&
           (base + size - 1 <=? rg_end r)
       end.

Definition pages_free (first count : Z) (s : AddressSpace) : bool :=
  forallb (λ i, bool_decide (state (page_at i s) = Free)) (seqZ first count).

Definition reserve_page (r : RegionDescriptor) (base count : Z) (protect : Protect) (i : Z) (s : AddressSpace) : AddressSpace :=
  let first := Z.shiftr base kPageShift in
  let p := page_at i s in
  let p := mkPage (physical_page p) first count protect protect Reserved (rg_kind r) (explicit_physical_mapping p) (permanent_guard p) in
  let s := set_page i p s in
  if is_xex r then set_page (alias_page i) (set_base_page (Z.shiftr (xex_alias base) kPageShift) p) s else s.

(** Newly attached frame [frame] at page [i]. *)
Definition attach_page (r : RegionDescriptor) (protect : Protect) (zero : bool) (frame i : Z) (s : AddressSpace) : option AddressSpace :=
  let s := on_page i (set_protect protect ∘ set_state Committed ∘ set_physical frame) s in
  s ← lift_physical (add_physical_mapping_ref frame i) s;
  let s := if zero then with_physical (clear_physical (frame * kBasePageSize) kBasePageSize (physical s)) s else s in
  if is_xex r
  then
    let s := on_page (alias_page i) (set_protect protect ∘ set_state Committed ∘ set_physical frame) s in
    lift_physical (add_physical_mapping_ref frame (alias_page i)) s
  else Some s.

(** Undo the commitment of a page that this call attached. *)
Definition rollback_page (r : RegionDescriptor) (attached : list Z) (i : Z) (s : AddressSpace) : option AddressSpace :=
  let frame := physical_page (page_at i s) in
  if (frame =? kInvalidPhysicalPage) || negb (bool_decide (frame ∈ attached)) then Some s
  else
    s ← lift_physical (remove_physical_mapping_ref frame i) s;
    s ← (if is_xex r
         then
           s ← lift_physical (remove_physical_mapping_ref frame (alias_page i)) s;
           Some (on_page (alias_page i) (set_state Reserved ∘ set_physical kInvalidPhysicalPage) s)
         else Some s);
    lift_physical (free_physical_page frame) (on_page i (set_state Reserved ∘ set_physical kInvalidPhysicalPage) s).

(** The pages from [first + i] on; [attached] are the frames taken so far. *)
Fixpoint commit_loop (r : RegionDescriptor) (protect : Protect) (zero : bool) (first i : Z) (n : nat) (attached : list Z)
    (s : AddressSpace) : option (bool * AddressSpace) :=
  match n with
  | O => Some (true, s)
  | S n =>
      let p := page_at (first + i) s in
      if bool_decide (state p = Committed) then
        let s := on_page (first + i) (set_protect protect) s in
        let s := if is_xex r then on_page (alias_page (first + i)) (set_protect protect) s else s in
        commit_loop r protect zero first (i + 1) n attached s
      else
        '(frame, ph) ← allocate_physical_page false (physical s);
        let s := with_physical ph s in
        match frame with
        | None => s ← each (rollback_page r attached) (seqZ first i) s; Some (false, s)
        | Some frame =>
            s ← attach_page r protect zero frame (first + i) s;
            commit_loop r protect zero first (i + 1) n (frame :: attached) s
        end
  end.

Definition commit_pages (base size : Z) (protect : Protect) (zero : bool) (s : AddressSpace) : option (bool * AddressSpace) :=
  if negb (valid_memory_type_protection protect) then Some (false, s)
  else match region_for base with
       | None => Some (false, s)
       | Some r =>
           let first := Z.shiftr base kPageShift in
           let count := Z.shiftr size kPageShift in
           if existsb (λ i, bool_decide (state (page_at i s) = Free) || permanent_guard (page_at i s)) (seqZ first count)
           then Some (false, s)
           else
             '(ok, s) ← commit_loop r protect zero first 0 (Z.to_nat count) [] s;
             Some (ok, if ok : bool then publish_both r base size s else s)
       end.

Definition reserve_pages (base size : Z) (protect : Protect) (commit_now : bool) (s : AddressSpace) : option (bool * AddressSpace) :=
  if negb (valid_memory_type_protection protect) then Some (false, s)
  else match region_for base with
       | None => Some (false, s)
       | Some r =>
           let first := Z.shiftr base kPageShift in
           let count := Z.shiftr size kPageShift in
           if negb (forallb (λ i, bool_decide (state (page_at i s) = Free) &&
                                  (negb (is_xex r) || bool_decide (state (page_at (alias_page i) s) = Free))) (seqZ first count))
           then Some (false, s)
           else
             let s := foldl (λ s i, reserve_page r base count protect i s) s (seqZ first count) in
             let s := publish_both r base size s in
             if commit_now then commit_pages base size protect true s else Some (true, s)
       end.

Definition reserve_fixed (base size : Z) (protect : Protect) (s : AddressSpace) : option (bool * AddressSpace) :=
  match region_for base with
  | Some r => if range_is_allocatable base size (rg_page_size r) then reserve_pages base size protect false s else Some (false, s)
  | None => Some (false, s)
  end.

Definition commit_fixed (base size : Z) (protect : Protect) (zero : bool) (s : AddressSpace) : option (bool * AddressSpace) :=
  match region_for base with
  | Some r =>
      if range_is_allocatable base size (rg_page_size r) then
        '(ok, s) ← (if pages_free (Z.shiftr base kPageShift) (Z.shiftr size kPageShift) s
                    then reserve_pages base size protect false s else Some (true, s));
        if ok : bool then commit_pages base size protect zero s else Some (false, s)
      else Some (false, s)
  | None => Some (false, s)
  end.

(** ** Placement *)

Definition page_index_in_bounds (first count : Z) : bool := (count =? 0) || (first + (count - 1) <? kPageCount).

(** The lowest candidate whose pages are free; [inr tt] is the end of the region or an
    index out of bounds. *)
Fixpoint search_up (fuel : nat) (size alignment last : Z) (candidate : Z) (s : AddressSpace) : option Z :=
  match fuel with
  | O => None
  | S fuel =>
      if negb (u64 (candidate + size - 1) <=? last) then None
      else
        let first := Z.shiftr (u32 candidate) kPageShift in
        let count := Z.shiftr size kPageShift in
        if negb (page_index_in_bounds first count) then None
        else if pages_free first count s then Some (u32 candidate)
        else search_up fuel size alignment last (u64 (candidate + alignment)) s
  end.

Fixpoint search_down (fuel : nat) (size alignment base : Z) (candidate : Z) (s : AddressSpace) : option Z :=
  match fuel with
  | O => None
  | S fuel =>
      if candidate <? base then None
      else
        let first := Z.shiftr (u32 candidate) kPageShift in
        let count := Z.shiftr size kPageShift in
        if negb (page_index_in_bounds first count) then None
        else if pages_free first count s then Some (u32 candidate)
        else if candidate <? u32 (base + alignment) then None
        else search_down fuel size alignment base (u64 (candidate - alignment)) s
  end.

(** One candidate for each multiple of the alignment below 2^32. *)
Definition candidates (alignment : Z) : nat := Z.to_nat (2 ^ 32 / alignment + 1).

Definition heap_region (page_size : Z) : option RegionDescriptor :=
  List.find (λ r, bool_decide (rg_kind r = Virtual) && (rg_page_size r =? page_size)) kRegions.

Definition place (r : RegionDescriptor) (size alignment : Z) (top_down : bool) (s : AddressSpace) : option Z :=
  if top_down
  then search_down (candidates alignment) size alignment (rg_base r) (align_down (u32 (u64 (rg_end r + 1 - size))) alignment) s
  else search_up (candidates alignment) size alignment (rg_end r) (align_up (rg_base r) alignment) s.

(** [requested_page_size] is optional. The address, when it succeeds. *)
Definition space_allocate (size alignment : Z) (protect : Protect) (top_down : bool) (requested_page_size : option Z)
    (options : VirtualAllocationOptions) (s : AddressSpace) : option (option Z * AddressSpace) :=
  if size =? 0 then Some (None, s)
  else
    let page_size := default kBasePageSize requested_page_size in
    match heap_region page_size with
    | None => Some (None, s)
    | Some r =>
        let alignment := Z.max (if alignment =? 0 then page_size else alignment) page_size in
        if negb (has_single_bit alignment) then Some (None, s)
        else
          let size := align_up size page_size in
          match place r size alignment top_down s with
          | None => Some (None, s)
          | Some address =>
              '(ok, s) ← reserve_pages address size protect false s;
              if negb ok then Some (None, s)
              else if negb (commit options) then Some (Some address, s)
              else
                '(ok, s) ← commit_pages address size protect (zero_initialize options) s;
                Some (if ok : bool then Some address else None, s)
          end
    end.

(** ** Decommitment, release and protection *)

(** First and last page of a request, widened to the pages of its heap. *)
Definition heap_pages (r : RegionDescriptor) (base size : Z) : Z * Z :=
  let normalized_base := align_down base (rg_page_size r) in
  let normalized_end := Z.min (rg_end r) (base + size - 1 .| (rg_page_size r - 1)) in
  (Z.shiftr normalized_base kPageShift, u32 (Z.shiftr normalized_end kPageShift)).

(** The rest of a page's loop step once its own reference is gone. *)
Definition drop_alias (r : RegionDescriptor) (frame i : Z) (f : Page -> Page) (s : AddressSpace) : option AddressSpace :=
  if is_xex r then
    s ← lift_physical (remove_physical_mapping_ref frame (alias_page i)) s;
    Some (on_page (alias_page i) f s)
  else Some s.

Definition stop_executing (i : Z) (s : AddressSpace) : AddressSpace :=
  let p := page_at i s in
  if has (current_protect p) kExecute then with_physical (advance_executable_generation (physical_page p) (physical s)) s else s.

Definition is_backed (p : Page) : bool := bool_decide (state p = Committed) && negb (physical_page p =? kInvalidPhysicalPage).

Definition decommit_page (r : RegionDescriptor) (i : Z) (s : AddressSpace) : option AddressSpace :=
  let p := page_at i s in
  if is_backed p then
    let frame := physical_page p in
    let s := stop_executing i s in
    s ← lift_physical (remove_physical_mapping_ref frame i) s;
    s ← drop_alias r frame i (set_state Reserved ∘ set_physical kInvalidPhysicalPage) s;
    s ← (if explicit_physical_mapping p then Some s else lift_physical (free_physical_page frame) s);
    Some (on_page i (set_state Reserved ∘ set_explicit false ∘ set_physical kInvalidPhysicalPage) s)
  else Some (on_page i (set_state Reserved) s).

Definition space_decommit (base size : Z) (s : AddressSpace) : option (bool * AddressSpace) :=
  if size =? 0 then Some (false, s)
  else match region_for base with
       | None => Some (false, s)
       | Some r =>
           if negb (is_heap r) || (rg_end r <? base + size - 1) then Some (false, s)
           else
             let '(first, last) := heap_pages r base size in
             let count := last - first + 1 in
             if existsb (λ i, bool_decide (state (page_at i s) = Free) || permanent_guard (page_at i s)) (seqZ first count)
             then Some (false, s)
             else
               s ← each (decommit_page r) (seqZ first count) s;
               Some (true, publish_both r (align_down base (rg_page_size r)) (count * kBasePageSize) s)
       end.

Definition release_page (r : RegionDescriptor) (i : Z) (s : AddressSpace) : option AddressSpace :=
  let p := page_at i s in
  s ← (if is_backed p then
         let frame := physical_page p in
         let s := stop_executing i s in
         s ← lift_physical (remove_physical_mapping_ref frame i) s;
         s ← drop_alias r frame i (λ _, new_page) s;
         if explicit_physical_mapping p then Some s else lift_physical (free_physical_page frame) s
       else if is_xex r then Some (set_page (alias_page i) new_page s) else Some s);
  Some (set_page i new_page s).

Definition space_release (allocation_base : Z) (s : AddressSpace) : option (bool * AddressSpace) :=
  let first := Z.shiftr allocation_base kPageShift in
  let p := page_at first s in
  if bool_decide (state p = Free) || permanent_guard p || negb (allocation_base_page p =? first) || (allocation_page_count p =? 0)
  then Some (false, s)
  else match region_for allocation_base with
       | None => Some (false, s)
       | Some r =>
           if negb (is_heap r) then Some (false, s)
           else
             s ← each (release_page r) (seqZ first (allocation_page_count p)) s;
             Some (true, publish_both r allocation_base (u32 (allocation_page_count p * kBasePageSize)) s)
       end.

Definition protect_page (protect : Protect) (i : Z) (s : AddressSpace) : AddressSpace :=
  let p := page_at i s in
  let s := if negb (Bool.eqb (has (current_protect p) kExecute) (has protect kExecute)) && negb (physical_page p =? kInvalidPhysicalPage)
           then with_physical (advance_executable_generation (physical_page p) (physical s)) s else s in
  let s := on_page i (set_protect protect) s in
  let xex := bool_decide (kind p = Xex) in
  let s := if xex then on_page (alias_page i) (set_protect protect) s else s in
  let s := publish_hot_page i s in
  if xex then publish_hot_page (alias_page i) s else s.

(** The old rights of the first page, when it succeeds. *)
Definition space_protect (base size : Z) (protect : Protect) (s : AddressSpace) : option Protect * AddressSpace :=
  if (size =? 0) || negb (valid_memory_type_protection protect) then (None, s)
  else match region_for base with
       | None => (None, s)
       | Some r =>
           if negb (is_heap r) || (rg_end r <? base + size - 1) then (None, s)
           else
             let '(first, last) := heap_pages r base size in
             if kPageCount <=? last then (None, s)
             else
               let base_page := allocation_base_page (page_at first s) in
               if existsb (λ i, negb (bool_decide (state (page_at i s) = Committed)) || permanent_guard (page_at i s) ||
                                negb (allocation_base_page (page_at i s) =? base_page)) (seqZ first (last - first + 1))
               then (None, s)
               else (Some (current_protect (page_at first s)),
                     foldl (λ s i, protect_page protect i s) s (seqZ first (last - first + 1)))
       end.

(** ** Queries *)

Record MappingInfo : Type := mkMapping {
  mi_guest_address : Z;
  mi_physical_address : Z;
  mi_allocation_base : Z;
  mi_allocation_size : Z;
  mi_region_size : Z;
  mi_page_size : Z;
  mi_state : PageState;
  mi_allocation_protect : Protect;
  mi_current_protect : Protect;
  mi_kind : RegionKind
}.

(** How many of the pages satisfy [f], up to the first that does not. *)
Fixpoint run_length (f : Z -> bool) (l : list Z) : Z :=
  match l with
  | [] => 0
  | i :: l => if f i then 1 + run_length f l else 0
  end.

Definition direct_allocation_base (r : RegionDescriptor) (address base : Z) : Z :=
  if bool_decide (rg_kind r = GpuWriteback) then u32 (kGpuWritebackBase + base)
  else if (kPhysical64KBase <=? address) && (address <=? kPhysical64KEnd) then u32 (kPhysical64KBase + base)
  else if (kPhysical16MBase <=? address) && (address <=? kPhysical16MEnd) then u32 (kPhysical16MBase + base)
  else if kPhysical4KViewOffset <=? base then u32 (kPhysical4KBase + (base - kPhysical4KViewOffset))
  else rg_base r.

Definition query_direct (r : RegionDescriptor) (address : Z) (s : Physical) : option MappingInfo :=
  let physical := physical_alias_address address in
  if (physical =? 0xFFFFFFFF) || (kPhysicalMemorySize <=? physical) then None
  else
    let page := Z.shiftr physical kPageShift in
    let m := metadata page s in
    let whole := mkMapping address physical (rg_base r) (rg_end r - rg_base r + 1) (rg_end r - address + 1) (rg_page_size r)
                   Committed (pm_allocation_protect m) (pm_current_protect m) (rg_kind r) in
    if explicit_allocation m then
      let base := u32 (pm_base_page m * kBasePageSize) in
      let size := u32 (pm_page_count m * kBasePageSize) in
      let run := run_length (λ i, pm_current_protect (metadata i s) =? pm_current_protect m)
                   (seqZ (page + 1) (pm_base_page m + pm_page_count m - (page + 1))) in
      let run_end := (page + run + 1) * kBasePageSize in
      Some (mkMapping address physical (direct_allocation_base r address base) size
              (u32 (Z.min (run_end - physical) (Z.min (u64 (u32 (base + size) - physical)) (rg_end r - address + 1))))
              (pm_page_size m) Committed (pm_allocation_protect m) (pm_current_protect m) (rg_kind r))
    else Some whole.

Definition same_run (p q : Page) : bool :=
  bool_decide (state q = state p) && (current_protect q =? current_protect p) && bool_decide (kind q = kind p) &&
  (allocation_base_page q =? allocation_base_page p).

Definition query_heap (r : RegionDescriptor) (address : Z) (s : AddressSpace) : MappingInfo :=
  let start := Z.shiftr address kPageShift in
  let p := page_at start s in
  let rest := seqZ start (Z.shiftr (rg_end r) kPageShift - start + 1) in
  let region_size :=
    if bool_decide (state p = Free) then
      let run := run_length (λ i, bool_decide (state (page_at i s) = Free)) rest in
      if run =? 0 then 0 else u32 (Z.min (rg_end r + 1) ((start + run) * kBasePageSize) - address)
    else u32 (run_length (λ i, same_run p (page_at i s)) rest * kBasePageSize) in
  mkMapping address
    (if is_backed p then u32 (physical_page p * kBasePageSize + address .& (kBasePageSize - 1)) else 0xFFFFFFFF)
    (u32 (Z.shiftl (allocation_base_page p) kPageShift)) (u32 (allocation_page_count p * kBasePageSize)) region_size
    (rg_page_size r) (state p) (allocation_protect p) (current_protect p) (rg_kind r).

Definition space_query (address : Z) (s : AddressSpace) : option MappingInfo :=
  match region_for address with
  | None => None
  | Some r =>
      match rg_kind r with
      | PhysicalAlias | GpuWriteback => query_direct r address (physical s)
      | Mmio =>
          Some (mkMapping address 0xFFFFFFFF (rg_base r) (rg_end r - rg_base r + 1) (rg_end r - address + 1) (rg_page_size r)
                  Committed kReadWrite kReadWrite (rg_kind r))
      | Virtual | Xex => Some (query_heap r address s)
      end
  end.

(** ** Physical allocations *)

Definition set_allocation (first count page_size : Z) (protect : Protect) (s : Physical) : Physical :=
  set_metadata (fill_n first count (mkMetadata first count page_size protect protect true) (physical_page_metadata_ s)) s.

Definition allocate_physical (size : Z) (options : PhysicalAllocationOptions) (s : AddressSpace)
    : option (option Z * AddressSpace) :=
  if (size =? 0) || negb (valid_memory_type_protection (po_protect options)) || negb (has (po_protect options) kRead) then Some (None, s)
  else
    let page_size := physical_page_class_size (page_class options) in
    let alignment := Z.max (if po_alignment options =? 0 then page_size else po_alignment options) page_size in
    if negb (has_single_bit alignment) then Some (None, s)
    else
      let count := align_up size page_size / kBasePageSize in
      let minimum := Z.max (minimum_address options) kPhysicalSystemReserveSize in
      let maximum := Z.min (maximum_address options) (kPhysicalAllocatableEndExclusive - 1) in
      let maximum := match page_class options with Page4K => Z.min maximum kPhysical4KAddressableEndInclusive | _ => maximum end in
      if maximum <? minimum then Some (None, s)
      else
        let minimum_page := align_up minimum kBasePageSize / kBasePageSize in
        let maximum_page := u32 ((maximum + 1) / kBasePageSize) in
        if (maximum_page <=? minimum_page) || (maximum_page - minimum_page <? count) then Some (None, s)
        else
          '(first, ph) ← reserve_physical_run count (alignment / kBasePageSize) (po_top_down options) minimum_page maximum_page (physical s);
          match first with
          | None => Some (None, with_physical ph s)
          | Some first =>
              let address := u32 (first * kBasePageSize) in
              let physical_size := u32 (count * kBasePageSize) in
              let ph := set_allocation first count page_size (po_protect options) ph in
              let ph := if po_zero_initialize options then clear_physical address physical_size ph else ph in
              Some (Some address, publish_physical_alias_range address physical_size (with_physical ph s))
          end.

Definition same_allocation (first count : Z) (m : PhysicalPageMetadata) : bool :=
  explicit_allocation m && (pm_base_page m =? first) && (pm_page_count m =? count).

Definition retire_page (i : Z) (s : Physical) : Physical :=
  let s := if has (pm_current_protect (metadata i s)) kExecute then advance_executable_generation i s else s in
  set_metadata (<[i := new_metadata]> (physical_page_metadata_ s)) (set_used (<[i := kPhysicalRetired]> (physical_page_used_ s)) s).

Definition free_physical (base size : Z) (s : AddressSpace) : option (bool * AddressSpace) :=
  if (size =? 0) || negb (base .& (kBasePageSize - 1) =? 0) || (kPhysicalMemorySize <? base + size) then Some (false, s)
  else
    let ph := physical s in
    let first := base / kBasePageSize in
    let m := metadata first ph in
    let requested := if explicit_allocation m then align_up size (pm_page_size m) / kBasePageSize else page_count_for size in
    let count := if explicit_allocation m then pm_page_count m else requested in
    if (kPhysicalPageCount <? u32 (first + count)) || negb (requested =? count) then Some (false, s)
    else if negb (same_allocation first count m) then Some (false, s)
    else if negb (forallb (λ i, bool_decide (used i ph = kPhysicalExplicit) && (refs i ph =? 0) &&
                               same_allocation first count (metadata i ph)) (seqZ first count))
    then Some (false, s)
    else
      let ph := foldl (λ ph i, retire_page i ph) ph (seqZ first count) in
      let '(ok, a) := range_retire first count (physical_allocator_ ph) in
      if negb ok then None
      else Some (true, publish_physical_alias_range base (u32 (count * kBasePageSize)) (with_physical (set_allocator a ph) s)).

Definition protect_physical_page (protect : Protect) (i : Z) (s : Physical) : Physical :=
  let m := metadata i s in
  let s := if negb (Bool.eqb (has (pm_current_protect m) kExecute) (has protect kExecute)) then advance_executable_generation i s else s in
  set_metadata (<[i := mkMetadata (pm_base_page m) (pm_page_count m) (pm_page_size m) (pm_allocation_protect m) protect (explicit_allocation m)]>
                  (physical_page_metadata_ s)) s.

(** The old rights of the first page, when it succeeds. *)
Definition protect_physical (base size : Z) (protect : Protect) (s : AddressSpace) : option Protect * AddressSpace :=
  let ph := physical s in
  if (size =? 0) || negb (valid_memory_type_protection protect) || (kPhysicalMemorySize <? base + size) then (None, s)
  else
    let m := metadata (base / kBasePageSize) ph in
    if negb (explicit_allocation m) || (pm_base_page m =? kInvalidPhysicalPage) || (pm_page_count m =? 0) then (None, s)
    else
      let allocation_base := u32 (pm_base_page m * kBasePageSize) in
      let allocation_end := allocation_base + pm_page_count m * kBasePageSize in
      if (base <? allocation_base) || (allocation_end <? base + size) then (None, s)
      else
        let first := align_down base (pm_page_size m) / kBasePageSize in
        let last_end := Z.min allocation_end ((base + size + pm_page_size m - 1) .& not64 (pm_page_size m - 1)) in
        let last := u32 (last_end / kBasePageSize - 1) in
        if negb (forallb (λ i, same_allocation (pm_base_page m) (pm_page_count m) (metadata i ph) &&
                               (pm_page_size (metadata i ph) =? pm_page_size m)) (seqZ first (last - first + 1)))
        then (None, s)
        else
          let ph' := foldl (λ ph i, protect_physical_page protect i ph) ph (seqZ first (last - first + 1)) in
          (Some (pm_current_protect (metadata first ph)),
           publish_physical_alias_range (u32 (first * kBasePageSize)) (u32 ((last - first + 1) * kBasePageSize)) (with_physical ph' s)).

Record PhysicalAllocationInfo : Type := mkPhysicalInfo {
  pi_physical_address : Z;
  pi_allocation_base : Z;
  pi_allocation_size : Z;
  pi_page_size : Z;
  pi_page_class : PhysicalPageClass;
  pi_allocation_protect : Protect;
  pi_current_protect : Protect
}.

Definition query_physical_allocation (address : Z) (s : Physical) : option PhysicalAllocationInfo :=
  if kPhysicalMemorySize <=? address then None
  else
    let m := metadata (address / kBasePageSize) s in
    if negb (explicit_allocation m) || (pm_base_page m =? kInvalidPhysicalPage) || (pm_page_count m =? 0) then None
    else Some (mkPhysicalInfo address (u32 (pm_base_page m * kBasePageSize)) (u32 (pm_page_count m * kBasePageSize)) (pm_page_size m)
                 (physical_page_class_from_size (pm_page_size m)) (pm_allocation_protect m) (pm_current_protect m)).

(** ** Explicit mappings and physical views *)

Definition physical_guest_alias (address : Z) (page_class : PhysicalPageClass) : option Z :=
  if kPhysicalMemorySize <=? address then None
  else match page_class with
       | Page64K => Some (u32 (kPhysical64KBase + address))
       | Page16M => Some (u32 (kPhysical16MBase + address))
       | Page4K =>
           if address <? kPhysical4KViewOffset then None
           else
             let guest := kPhysical4KBase + address - kPhysical4KViewOffset in
             if kPhysical4KHeapEnd <? guest then None else Some (u32 guest)
       end.

(** The runs of pages with [f], as first page and count, in order. *)
Fixpoint runs (f : Z -> bool) (current : option (Z * Z)) (l : list Z) : list (Z * Z) :=
  match l with
  | [] => match current with Some r => [r] | None => [] end
  | i :: l =>
      if f i
      then runs f (Some match current with Some (first, count) => (first, count + 1) | None => (i, 1) end) l
      else match current with Some r => r :: runs f None l | None => runs f None l end
  end.

(** The list up to the first element with [f]. *)
Fixpoint until {A} (f : A -> bool) (l : list A) : list A :=
  match l with
  | [] => []
  | x :: l => if f x then [] else x :: until f l
  end.

(** Free pages that a mapping names become explicit allocations. *)
Definition claim_run (protect : Protect) (r : Z * Z) (s : Physical) : option Physical :=
  let '(first, count) := r in
  let '(ok, a) := range_claim first count (physical_allocator_ s) in
  if negb ok then None
  else
    let s := set_allocator a (set_used (fill_n first count kPhysicalExplicit (physical_page_used_ s)) s) in
    Some (set_allocation first count kBasePageSize protect s).

Definition map_page (first physical_first count : Z) (protect : Protect) (i : Z) (s : AddressSpace) : option AddressSpace :=
  let p := page_at (first + i) s in
  let s := set_page (first + i) (mkPage (physical_first + i) first count protect protect Committed Virtual true (permanent_guard p)) s in
  lift_physical (add_physical_mapping_ref (physical_first + i) (first + i)) s.

Definition map_virtual_to_physical (virtual_base physical_base size : Z) (protect : Protect) (s : AddressSpace)
    : option (bool * AddressSpace) :=
  if negb (valid_memory_type_protection protect) || (size =? 0) || negb (virtual_base .& (kBasePageSize - 1) =? 0) ||
     negb (physical_base .& (kBasePageSize - 1) =? 0) || negb (size .& (kBasePageSize - 1) =? 0) then Some (false, s)
  else if kPhysicalMemorySize <? physical_base + size then Some (false, s)
  else if (physical_base <? kPhysicalMemorySize) && (kPhysicalAllocatableEndExclusive <? physical_base + size) then Some (false, s)
  else match region_for virtual_base with
       | None => Some (false, s)
       | Some r =>
           if negb (bool_decide (rg_kind r = Virtual)) || (rg_end r <? virtual_base + size - 1) then Some (false, s)
           else
             let first := Z.shiftr virtual_base kPageShift in
             let count := Z.shiftr size kPageShift in
             if negb (pages_free first count s) then Some (false, s)
             else
               ph ← reclaim_retired_physical_pages (physical s);
               let physical_first := physical_base / kBasePageSize in
               let frames := seqZ physical_first count in
               let is_retired := λ i, bool_decide (used i ph = kPhysicalRetired) in
               let free_runs := runs (λ i, bool_decide (used i ph = kPhysicalFree)) None in
               if negb (forallb (λ r, contains_free (fst r) (snd r) (physical_allocator_ ph)) (free_runs (until is_retired frames)))
               then None
               else if existsb is_retired frames then Some (false, with_physical ph s)
               else
                   ph ← each (claim_run protect) (free_runs frames) ph;
                   s ← each (map_page first physical_first count protect) (seqZ 0 count) (with_physical ph s);
                   Some (true, publish_physical_alias_range physical_base size (publish_hot_range virtual_base size s))
       end.

Definition get_physical_address (address : Z) (s : AddressSpace) : Z :=
  let direct := physical_alias_address address in
  if negb (direct =? 0xFFFFFFFF) && (direct <? kPhysicalMemorySize) then direct
  else match region_for address with
       | None => 0xFFFFFFFF
       | Some r =>
           let p := page_at (Z.shiftr address kPageShift) s in
           if negb (is_heap r) || negb (is_backed p) then 0xFFFFFFFF
           else u32 (physical_page p * kBasePageSize + address .& (kBasePageSize - 1))
       end.

(** ** Access *)

Definition right_for (access : AccessKind) : Protect :=
  match access with Read => kRead | Write => kWrite | Execute => kExecute end.

(** The physical address of one byte, or the fault. *)
Definition resolve_byte (address : Z) (access : AccessKind) (s : AddressSpace) : FaultReason + Z :=
  let direct := physical_alias_address address in
  if negb (direct =? 0xFFFFFFFF) then
    if kPhysicalMemorySize <=? direct then inl OutOfRange
    else if negb (has (physical_protect direct (physical s)) (right_for access)) then inl Protection
    else inr direct
  else match region_for address with
       | None => inl Unmapped
       | Some r =>
           if bool_decide (rg_kind r = Mmio) then inl Unmapped
           else
             let p := page_at (Z.shiftr address kPageShift) s in
             match state p with
             | Free => inl Unmapped
             | Reserved => inl Uncommitted
             | Committed =>
                 if negb (has (current_protect p) (right_for access)) then inl Protection
                 else if physical_page p =? kInvalidPhysicalPage then inl Uncommitted
                 else inr (u32 (physical_page p * kBasePageSize + address .& (kBasePageSize - 1)))
             end
       end.

(** The physical address of [width] bytes in one stretch, or the fault; [None] when they are
    not in one stretch. *)
Definition resolve_contiguous (address width : Z) (access : AccessKind) (s : AddressSpace) : option (FaultReason + Z) :=
  if width =? 0 then None
  else if 0xFFFFFFFF <? address + width - 1 then None
  else
    let last := address + width - 1 in
    let direct := physical_alias_address address in
    if negb (direct =? 0xFFFFFFFF) then
      let direct_last := physical_alias_address last in
      if (direct_last =? direct + width - 1) && (direct_last <? kPhysicalMemorySize) then
        let first_page := Z.shiftr direct kPageShift in
        if forallb (λ page, has (pm_current_protect (metadata page (physical s))) (right_for access))
             (seqZ first_page (Z.shiftr direct_last kPageShift - first_page + 1))
        then Some (inr direct) else Some (inl Protection)
      else None
    else if negb (Z.shiftr address kPageShift =? Z.shiftr last kPageShift) then None
    else match region_for address with
         | None => None
         | Some r =>
             if negb (is_heap r) then None
             else
               let p := page_at (Z.shiftr address kPageShift) s in
               match state p with
               | Free => Some (inl Unmapped)
               | Reserved => Some (inl Uncommitted)
               | Committed =>
                   if negb (has (current_protect p) (right_for access)) then Some (inl Protection)
                   else if physical_page p =? kInvalidPhysicalPage then Some (inl Uncommitted)
                   else Some (inr (u32 (physical_page p * kBasePageSize + address .& (kBasePageSize - 1))))
               end
         end.

(** *** Generated code (include/xenon/cpu/memory_port.hpp) *)

Inductive MemoryOrderingDomain : Type := Normal | Device | WriteCombined | CacheInhibited.

(** The access of generated code through the table: the physical address and the ordering
    domain, or [None] to take the slow path. [host] is the host address of physical memory;
    no reclaim is pending. *)
Definition resolve_fast (host address width : Z) (write : bool) (alignment : Z) (s : AddressSpace) : option (Z * MemoryOrderingDomain) :=
  if width =? 0 then None
  else if 0xFFFFFFFF <? address + width - 1 then None
  else
    let first_page := Z.shiftr address kPageShift in
    if (kPageCount <=? first_page) || negb (first_page =? Z.shiftr (address + width - 1) kPageShift) then None
    else
      let entry := default 0 (hot_pages_ s !! first_page) in
      let permission := if write then kHotWrite else kHotRead in
      if negb (entry .& (kMapped .| permission) =? kMapped .| permission) || negb (entry .& kSlow =? 0) then None
      else
        let page_size := Z.shiftl 1 kPageShift in
        let physical := entry .& kPhysicalPageMask * page_size + address .& (page_size - 1) in
        if kPhysicalMemorySize <? physical + width then None
        else if (1 <? alignment) && negb ((host + physical) .& (alignment - 1) =? 0) then None
        else Some (physical,
          if negb (entry .& kHotNoCache =? 0) then CacheInhibited
          else if negb (entry .& kHotWriteCombine =? 0) then WriteCombined else Normal).

Definition kNoStamp : Z * Z := (kInvalidPhysicalPage, 0).

(** The frame and generation of an executable page. *)
Definition executable_page_stamp (address : Z) (s : AddressSpace) : Z * Z :=
  let entry := default 0 (hot_pages_ s !! Z.shiftr address kPageShift) in
  if negb (entry .& (kMapped .| kHotExecute) =? kMapped .| kHotExecute) then kNoStamp
  else
    let frame := entry .& kPhysicalPageMask in
    if kPhysicalPageCount <=? frame then kNoStamp
    else if generation frame (physical s) =? 0 then kNoStamp
    else (frame, generation frame (physical s)).

(** ** Devices *)

Definition overlaps (a_base a_size b_base b_size : Z) : bool := (a_base <? b_base + b_size) && (b_base <? a_base + a_size).

Definition add_mmio_range (base size : Z) (s : AddressSpace) : bool * AddressSpace :=
  if (size =? 0) || (2 ^ 32 <? base + size) then (false, s)
  else
    let below := List.filter (λ r, fst r <? base) (mmio_ranges_ s) in
    let above := List.filter (λ r, negb (fst r <? base)) (mmio_ranges_ s) in
    if match head above with Some r => overlaps base size (fst r) (snd r) | None => false end then (false, s)
    else if match last below with Some r => overlaps base size (fst r) (snd r) | None => false end then (false, s)
    else (true, publish_hot_range base size (set_mmio (below ++ (base, size) :: above) s)).

Definition clear_mmio_ranges (s : AddressSpace) : AddressSpace := rebuild_hot_pages (set_mmio [] s).

(** The device range that holds the whole access. *)
Definition find_mmio (address width : Z) (s : AddressSpace) : option (Z * Z) :=
  if (width =? 0) || (2 ^ 32 <? address + width) then None
  else match last (List.filter (λ r, fst r <=? address) (mmio_ranges_ s)) with
       | None => None
       | Some (base, size) => if (address <? base) || (base + size <? address + width) then None else Some (base, size)
       end.

Definition range_has_mmio (address width : Z) (s : AddressSpace) : bool :=
  if (width =? 0) || (2 ^ 32 <? address + width) then false
  else
    match last (List.filter (λ r, fst r <=? address) (mmio_ranges_ s)) with
    | Some (base, size) => address <? base + size
    | None => false
    end
    || match head (List.filter (λ r, negb (fst r <=? address)) (mmio_ranges_ s)) with
       | Some (base, _) => base <? address + width
       | None => false
       end.

(** ** Statistics *)

Record MemoryStatistics : Type := mkStatistics {
  total_physical_pages : Z;
  available_physical_pages : Z;
  system_physical_pages : Z;
  anonymous_physical_pages : Z;
  explicit_physical_pages : Z;
  retired_physical_pages : Z;
  reserved_virtual_pages : Z;
  committed_virtual_pages : Z;
  image_pages : Z
}.

Definition count_if (f : Z -> bool) (l : list Z) : Z := Z.of_nat (length (List.filter f l)).

Definition memory_statistics (s : AddressSpace) : MemoryStatistics :=
  let frames := seqZ 0 kPhysicalPageCount in
  let pages := seqZ 0 kPageCount in
  let owned := λ l, count_if (λ i, bool_decide (used i (physical s) ∈ l)) frames in
  let heap := λ i, match kind (page_at i s) with Virtual | GpuWriteback => true | _ => false end in
  mkStatistics kPhysicalPageCount (owned [kPhysicalFree; kPhysicalRetired]) (owned [kPhysicalSystem])
    (owned [kPhysicalAnonymous; kPhysicalAnonymousPendingFree]) (owned [kPhysicalExplicit]) (owned [kPhysicalRetired])
    (count_if (λ i, negb (bool_decide (state (page_at i s) = Free)) && heap i) pages)
    (count_if (λ i, bool_decide (state (page_at i s) = Committed) && heap i) pages)
    (count_if (λ i, bool_decide (state (page_at i s) = Committed) && bool_decide (kind (page_at i s) = Xex)) pages).

(** ** Initial state *)

Definition kGuardPages : Z := 0x10000 / kBasePageSize.
Definition guard_page : Page := mkPage kInvalidPhysicalPage 0 kGuardPages kNoAccess kNoAccess Committed Virtual false true.

(** Generations outlive a reset. *)
Definition reset_physical (s : Physical) : Physical :=
  let system_page_count := kPhysicalSystemReserveSize / kBasePageSize in
  let top_reserved := kPhysicalTopReservedSize / kBasePageSize in
  let used := fill_n kAllocatableEndPage top_reserved kPhysicalSystem (fill_n 0 system_page_count kPhysicalSystem ∅) in
  let metadata := fill_n kAllocatableEndPage top_reserved (mkMetadata kInvalidPhysicalPage 0 kBasePageSize kNoAccess kNoAccess false) ∅ in
  mkPhysical used ∅ metadata (range_reset system_page_count (kAllocatableEndPage - system_page_count)) ∅
    ((λ g, if g =? 0 then 0 else next_generation g) <$> executable_page_generations_ s) (reader_drains_ s) [(0, kPhysicalMemorySize)].

Definition space_reset (s : AddressSpace) : AddressSpace :=
  rebuild_hot_pages (mkSpace (reset_physical (physical s)) (fill_n 0 kGuardPages guard_page ∅) ∅ (mmio_ranges_ s)).

Definition new_space (drains : list bool) : AddressSpace :=
  mkSpace (mkPhysical ∅ ∅ ∅ (mkRangeAllocator [] []) ∅ ∅ drains []) ∅ ∅ [].
(** [initialize] on a new object. *)
Definition initialize (drains : list bool) : AddressSpace := space_reset (new_space drains).

(** ** The repository's invariant check (diagnostics/invariants.cpp) *)

Definition valid_ownership (i : Z) (s : Physical) : bool :=
  let free := contains_free i 1 (physical_allocator_ s) in
  let retired := contains_retired i 1 (physical_allocator_ s) in
  (refs i s =? Z.of_nat (mapping_count i (physical_reverse_mappings_ s))) &&
  (if bool_decide (used i s = kPhysicalFree) then (refs i s =? 0) && free && negb retired
   else negb free && Bool.eqb (bool_decide (used i s = kPhysicalRetired)) retired) &&
  negb (bool_decide (used i s = kPhysicalRetired) && negb (refs i s =? 0)) &&
  negb (bool_decide (used i s = kPhysicalAnonymousPendingFree) && (refs i s =? 0)) &&
  negb (bool_decide (used i s = kPhysicalAnonymous) && (refs i s =? 0)).

Definition valid_metadata (i : Z) (s : Physical) : bool :=
  let m := metadata i s in
  let b := metadata (pm_base_page m) s in
  if explicit_allocation m then
    bool_decide (used i s = kPhysicalExplicit) && negb (pm_base_page m =? kInvalidPhysicalPage) && negb (pm_page_count m =? 0) &&
    (pm_base_page m <? kPhysicalPageCount) && (pm_base_page m + pm_page_count m <=? kPhysicalPageCount) &&
    has_single_bit (pm_page_size m) && (kBasePageSize <=? pm_page_size m) &&
    valid_memory_type_protection (pm_current_protect m) && valid_memory_type_protection (pm_allocation_protect m) &&
    (explicit_allocation b && (pm_base_page b =? pm_base_page m) && (pm_page_count b =? pm_page_count m) &&
     (pm_page_size b =? pm_page_size m) && (pm_allocation_protect b =? pm_allocation_protect m))
  else negb (bool_decide (used i s = kPhysicalExplicit)).

Definition valid_reverse (frame : Z) (guests : list Z) (s : AddressSpace) : bool :=
  (frame <? kPhysicalPageCount) &&
  forallb (λ g, (g <? kPageCount) && bool_decide (state (page_at g s) = Committed) && (physical_page (page_at g s) =? frame)) guests &&
  bool_decide (NoDup guests).

Definition valid_page (i : Z) (s : AddressSpace) : bool :=
  let p := page_at i s in
  let committed := bool_decide (state p = Committed) in
  if committed && permanent_guard p then (physical_page p =? kInvalidPhysicalPage) && (current_protect p =? kNoAccess)
  else
    (if committed
     then negb (physical_page p =? kInvalidPhysicalPage) && (physical_page p <? kPhysicalPageCount) &&
          (negb (is_heap (mkRegion 0 0 0 (kind p))) || mapping_contains (physical_page p) i (physical_reverse_mappings_ (physical s)))
     else physical_page p =? kInvalidPhysicalPage) &&
    negb (explicit_physical_mapping p && negb committed) && negb (permanent_guard p && negb committed) &&
    (if bool_decide (kind p = Xex) && negb (bool_decide (state p = Free)) then
       let q := page_at (alias_page i) s in
       (alias_page i <? kPageCount) && bool_decide (kind q = Xex) && bool_decide (state q = state p) &&
       (allocation_page_count q =? allocation_page_count p) && (allocation_protect q =? allocation_protect p) &&
       (current_protect q =? current_protect p) && (physical_page q =? physical_page p)
     else true).

Definition validate_invariants (s : AddressSpace) : bool :=
  forallb (λ i, valid_ownership i (physical s) && valid_metadata i (physical s)) (seqZ 0 kPhysicalPageCount) &&
  forallb (λ e, valid_reverse (fst e) (snd e) s) (map_to_list (physical_reverse_mappings_ (physical s))) &&
  forallb (λ i, valid_page i s) (seqZ 0 kPageCount).
