(* ===== verification/AddressSpaceInv.v ===== *)
(** * Consistency of the address space

    The ownership of physical pages ([phys_ok]) and the guest page table over it
    ([guest_ok], [extents_ok]) are kept by every operation of [AddressSpace], none of
    which throws; together they imply the repository's own check. *)

From S2P Require Import Prelude.
From S2P Require Import Words.
From S2P Require Import PhysicalRanges.
From S2P Require Import AddressSpace.

(** ** Loops *)

Lemma each_inv {A S} (f : A -> S -> option S) (P : S -> Prop) (l : list A) s :
  (forall x s, x ∈ l -> P s -> exists s', f x s = Some s' /\ P s') -> P s -> exists s', each f l s = Some s' /\ P s'.
Proof.
  intros Hf. revert s. induction l as [|x l IH]; intros s Hs; cbn; [by exists s|].
  destruct (Hf x s) as (s1 & -> & H1); [by left|done|]. cbn. apply IH; [|done]. intros y s' Hy. apply Hf. by right.
Qed.

Lemma foldl_inv {A S} (f : S -> A -> S) (P : S -> Prop) (l : list A) s :
  (forall x s, x ∈ l -> P s -> P (f s x)) -> P s -> P (foldl f s l).
Proof.
  intros Hf. revert s. induction l as [|x l IH]; intros s Hs; cbn; [done|].
  apply IH; [|apply Hf; [by left|done]]. intros y s' Hy. apply Hf. by right.
Qed.

Lemma fill_n_lookup {A} first count (v : A) m i :
  fill_n first count v m !! i = if bool_decide (first <= i < first + count) then Some v else m !! i.
Proof.
  unfold fill_n. set (P := λ (m' : gmap Z A) (l : list Z), m' !! i = if bool_decide (i ∈ l) then Some v else m !! i).
  assert (H : forall l l' m', P m' l' -> P (foldl (λ m i, <[i := v]> m) m' l) (l' ++ l)).
  { unfold P. induction l as [|x l IH]; intros l' m' Hm'; cbn; [by rewrite app_nil_r|].
    rewrite cons_middle, app_assoc. apply IH. destruct (decide (x = i)) as [->|Hx].
    - rewrite lookup_insert_eq, bool_decide_true; [done|]. apply elem_of_app. right. by left.
    - rewrite lookup_insert_ne, Hm' by done. erewrite bool_decide_ext; [done|].
      rewrite elem_of_app, list_elem_of_singleton. naive_solver. }
  specialize (H (seqZ first count) [] m). unfold P in H. cbn in H. rewrite H.
  - erewrite bool_decide_ext; [done|]. rewrite elem_of_seqZ. lia.
  - rewrite bool_decide_false; [done|]. apply not_elem_of_nil.
Qed.

Lemma forallb_seqZ f first count : forallb f (seqZ first count) = true <-> forall i, first <= i < first + count -> f i = true.
Proof.
  rewrite forallb_forall. split; intros H i Hi; apply H; [apply list_elem_of_In, elem_of_seqZ; lia|].
  apply list_elem_of_In, elem_of_seqZ in Hi. lia.
Qed.
Lemma existsb_seqZ f first count : existsb f (seqZ first count) = false <-> forall i, first <= i < first + count -> f i = false.
Proof.
  rewrite <- not_true_iff_false, existsb_exists. split.
  - intros H i Hi. apply not_true_is_false. intros E. apply H. exists i. split; [|done]. apply list_elem_of_In, elem_of_seqZ. lia.
  - intros H (i & Hi & E). apply list_elem_of_In, elem_of_seqZ in Hi. rewrite H in E by lia. done.
Qed.

(** ** What the fields of the physical state say *)

Definition fill_at {A} (first count : Z) (v : A) (f : Z -> A) (i : Z) : A :=
  if bool_decide (first <= i < first + count) then v else f i.

Lemma used_fill first count o m s i :
  used i (set_used (fill_n first count o m) s) = fill_at first count o (λ i, used i (set_used m s)) i.
Proof. unfold used, fill_at. cbn. rewrite fill_n_lookup. by destruct (bool_decide _). Qed.

Lemma metadata_fill first count v m s i :
  metadata i (set_metadata (fill_n first count v m) s) = fill_at first count v (λ i, metadata i (set_metadata m s)) i.
Proof. unfold metadata, fill_at. cbn. rewrite fill_n_lookup. by destruct (bool_decide _). Qed.

Lemma used_insert p o m s i : used i (set_used (<[p := o]> m) s) = if decide (p = i) then o else used i (set_used m s).
Proof. unfold used. cbn. destruct (decide (p = i)) as [<-|]; [by rewrite lookup_insert_eq|by rewrite lookup_insert_ne]. Qed.

Lemma refs_insert p v m r s i :
  refs i (set_mappings (<[p := v]> m) r s) = if decide (p = i) then v else refs i (set_mappings m r s).
Proof. unfold refs. cbn. destruct (decide (p = i)) as [<-|]; [by rewrite lookup_insert_eq|by rewrite lookup_insert_ne]. Qed.

Lemma metadata_insert p v m s i :
  metadata i (set_metadata (<[p := v]> m) s) = if decide (p = i) then v else metadata i (set_metadata m s).
Proof. unfold metadata. cbn. destruct (decide (p = i)) as [<-|]; [by rewrite lookup_insert_eq|by rewrite lookup_insert_ne]. Qed.

(** ** Ownership of physical pages *)

Abbreviation maps s := (λ p g, mapping_contains p g (physical_reverse_mappings_ s)).
Definition frame_ok (p : Z) : Prop := 0 <= p < kPhysicalPageCount.
Definition kFirstFrame : Z := kHugePageSize / kBasePageSize.

(** The pages of one explicit allocation agree about it. *)
Definition explicit_ok (meta : Z -> PhysicalPageMetadata) (p : Z) : Prop :=
  let m := meta p in
  0 <= pm_base_page m <= p /\ p < pm_base_page m + pm_page_count m <= kPhysicalPageCount /\
  has_single_bit (pm_page_size m) = true /\ kBasePageSize <= pm_page_size m /\
  valid_memory_type_protection (pm_current_protect m) = true /\ valid_memory_type_protection (pm_allocation_protect m) = true /\
  forall q, pm_base_page m <= q < pm_base_page m + pm_page_count m ->
    explicit_allocation (meta q) = true /\ pm_base_page (meta q) = pm_base_page m /\ pm_page_count (meta q) = pm_page_count m /\
    pm_page_size (meta q) = pm_page_size m /\ pm_allocation_protect (meta q) = pm_allocation_protect m.

Record phys_ok (s : Physical) : Prop := mkPhysOk {
  po_ranges : allocator_ok (physical_allocator_ s);
  po_mapping : mapping_ok (physical_reverse_mappings_ s);
  po_free : forall p, covers (free_ranges (physical_allocator_ s)) p <-> frame_ok p /\ used p s = kPhysicalFree;
  po_retired : forall p, covers (retired_ranges (physical_allocator_ s)) p <-> frame_ok p /\ used p s = kPhysicalRetired;
  po_low : forall p, 0 <= p < kFirstFrame -> used p s = kPhysicalSystem;
  po_refs : forall p, refs p s = Z.of_nat (mapping_count p (physical_reverse_mappings_ s));
  po_bounds : forall p g, maps s p g = true -> frame_ok p /\ 0 <= g < kPageCount;
  po_unmapped : forall p, frame_ok p -> used p s = kPhysicalFree \/ used p s = kPhysicalRetired -> refs p s = 0;
  po_pending : forall p, used p s = kPhysicalAnonymousPendingFree -> refs p s <> 0;
  po_explicit : forall p, frame_ok p -> explicit_allocation (metadata p s) = true <-> used p s = kPhysicalExplicit;
  po_allocation : forall p, explicit_allocation (metadata p s) = true -> frame_ok p /\ explicit_ok (λ q, metadata q s) p;
  po_default : forall p, frame_ok p -> explicit_allocation (metadata p s) = false -> used p s <> kPhysicalSystem ->
    metadata p s = new_metadata
}.

Lemma refs_bound s p : phys_ok s -> 0 <= refs p s <= kPageCount.
Proof.
  intros Hs. rewrite (po_refs _ Hs). unfold mapping_count. split; [lia|].
  assert (Hsub : list_to_set (C := gset Z) (mapped_guests p (physical_reverse_mappings_ s)) ⊆ list_to_set (seqZ 0 kPageCount)).
  { intros g Hg%elem_of_list_to_set. apply elem_of_list_to_set, elem_of_seqZ.
    apply (po_bounds _ Hs p g). unfold mapping_contains. by apply bool_decide_true. }
  apply subseteq_size in Hsub. rewrite !size_list_to_set in Hsub; [|apply NoDup_seqZ|apply mapped_guests_nodup, Hs].
  rewrite length_seqZ in Hsub. assert (0 < kPageCount) by done. lia.
Qed.

Lemma refs_zero s p : phys_ok s -> refs p s = 0 <-> forall g, maps s p g = false.
Proof.
  intros Hs. rewrite (po_refs _ Hs). unfold mapping_count, mapping_contains.
  destruct (mapped_guests p (physical_reverse_mappings_ s)) as [|g l]; cbn.
  - split; [intros _ g; by rewrite bool_decide_false by apply not_elem_of_nil|done].
  - split; [lia|]. intros H. specialize (H g). by rewrite bool_decide_true in H by (by left).
Qed.

(** Parts of the state that a step leaves alone. *)
Definition same_metadata (s s' : Physical) : Prop := forall p, metadata p s' = metadata p s.
Definition same_used (s s' : Physical) : Prop := forall p, used p s' = used p s.
Definition same_maps (s s' : Physical) : Prop := physical_reverse_mappings_ s' = physical_reverse_mappings_ s.

(** ** Steps of the physical layer *)

Lemma frame_word p : frame_ok p -> is_u32 p.
Proof. unfold frame_ok, is_u32. change kPhysicalPageCount with 0x20000. lia. Qed.

Lemma retire_spec first count a :
  allocator_ok a -> is_u32 first -> is_u32 count -> 0 < count -> first + count <= kPhysicalPageCount ->
  (forall p, first <= p < first + count -> ~ covers (retired_ranges a) p) ->
  exists a', range_retire first count a = (true, a') /\ allocator_ok a' /\
    free_ranges a' = free_ranges a /\
    (forall p, covers (retired_ranges a') p <-> covers (retired_ranges a) p \/ first <= p < first + count).
Proof.
  intros Ha Hf Hc Hpos Hend Hap. pose proof (range_step_refines (RetirePages first count) a Ha (conj Hf Hc)) as H. cbn in H.
  destruct (range_retire first count a) as [ok a'] eqn:E. destruct H as (Ha' & Hok & HR & _). rewrite (proj2 Hok) in * by done.
  exists a'. split_and!; try done. unfold range_retire in E. destruct (insert_coalesced _ _ _) as [? l]. by injection E as _ <-.
Qed.

Lemma release_spec first count a :
  allocator_ok a -> is_u32 first -> is_u32 count -> 0 < count -> first + count <= kPhysicalPageCount ->
  (forall p, first <= p < first + count -> ~ covers (free_ranges a) p) ->
  exists a', range_release first count a = (true, a') /\ allocator_ok a' /\
    retired_ranges a' = retired_ranges a /\
    (forall p, covers (free_ranges a') p <-> covers (free_ranges a) p \/ first <= p < first + count).
Proof.
  intros Ha Hf Hc Hpos Hend Hap. pose proof (range_step_refines (ReleasePages first count) a Ha (conj Hf Hc)) as H. cbn in H.
  destruct (range_release first count a) as [ok a'] eqn:E. destruct H as (Ha' & Hok & HF & _). rewrite (proj2 Hok) in * by done.
  exists a'. split_and!; try done. unfold range_release in E. destruct (insert_coalesced _ _ _) as [? l]. by injection E as _ <-.
Qed.

Lemma claim_spec first count a :
  allocator_ok a -> is_u32 first -> is_u32 count -> 0 < count ->
  (forall p, first <= p < first + count -> covers (free_ranges a) p) ->
  exists a', range_claim first count a = (true, a') /\ allocator_ok a' /\
    retired_ranges a' = retired_ranges a /\
    (forall p, covers (free_ranges a') p <-> covers (free_ranges a) p /\ ~ first <= p < first + count).
Proof.
  intros Ha Hf Hc Hpos Hin. pose proof (range_step_refines (ClaimPages first count) a Ha (conj Hf Hc)) as H. cbn in H.
  destruct (range_claim first count a) as [ok a'] eqn:E. destruct H as (Ha' & Hok & HF & _). rewrite (proj2 Hok) in * by done.
  exists a'. split_and!; try done. unfold range_claim in E. destruct (negb _); [done|].
  destruct (last_at_most _ _); [|done]. by injection E as <-.
Qed.

Lemma range_allocate_spec count alignment top_down minimum maximum a :
  allocator_ok a -> is_u32 count -> is_u32 alignment -> is_u32 minimum -> is_u32 maximum ->
  match range_allocate count alignment top_down minimum maximum a with
  | Some (x, a') => well_formed_request count alignment minimum maximum = true /\ allocator_ok a' /\
      serves (covers (free_ranges a)) count alignment minimum maximum x /\
      retired_ranges a' = retired_ranges a /\
      (forall p, covers (free_ranges a') p <-> covers (free_ranges a) p /\ ~ x <= p < x + count)
  | None => well_formed_request count alignment minimum maximum = true ->
      forall y, ~ serves (covers (free_ranges a)) count alignment minimum maximum y
  end.
Proof.
  intros Ha H1 H2 H3 H4.
  pose proof (range_step_refines (AllocatePages count alignment top_down minimum maximum) a Ha (conj H1 (conj H2 (conj H3 H4)))) as H.
  cbn in H. destruct (range_allocate count alignment top_down minimum maximum a) as [[x a']|] eqn:E.
  - destruct H as (Ha' & Hv & Hs & _ & HF & _). split_and!; try done. unfold range_allocate in E.
    destruct (allocate_quietly _ _ _ _ _ _) as [[? l]|]; [|done]. by injection E as _ <-.
  - by destruct H as (_ & H & _).
Qed.

Lemma set_generations_ok m s : phys_ok s -> phys_ok (set_generations m s).
Proof. intros []. by constructor. Qed.
Lemma set_drains_ok l s : phys_ok s -> phys_ok (set_drains l s).
Proof. intros []. by constructor. Qed.
Lemma clear_physical_ok a n s : phys_ok s -> phys_ok (clear_physical a n s).
Proof. intros []. by constructor. Qed.
Lemma advance_ok p s : phys_ok s -> phys_ok (advance_executable_generation p s).
Proof. unfold advance_executable_generation. destruct (_ <? _); [apply set_generations_ok|done]. Qed.

Lemma first_frame_bound p : kFirstFrame <= p -> 0 <= p.
Proof. change kFirstFrame with 0x1000. lia. Qed.

Lemma frame_high s p : phys_ok s -> frame_ok p -> used p s <> kPhysicalSystem -> kFirstFrame <= p.
Proof. intros Hs [Hp _] Hu. destruct (Z.le_gt_cases kFirstFrame p); [done|]. by rewrite (po_low _ Hs) in Hu. Qed.

(** Ownership after the owner gives a page up. *)
Definition freed (o : Ownership) (unmapped : bool) : Ownership :=
  match o with
  | kPhysicalAnonymous | kPhysicalAnonymousPendingFree => if unmapped then kPhysicalRetired else kPhysicalAnonymousPendingFree
  | _ => o
  end.

(** A page may change hands when it is neither explicit nor the system's. *)
Definition may_own (s : Physical) (p : Z) (o : Ownership) : Prop :=
  kFirstFrame <= p /\ used p s <> kPhysicalExplicit /\ used p s <> kPhysicalSystem /\ o <> kPhysicalExplicit /\ o <> kPhysicalSystem /\
  (o = kPhysicalFree \/ o = kPhysicalRetired -> refs p s = 0) /\ (o = kPhysicalAnonymousPendingFree -> refs p s <> 0).

Lemma owners_change s s' :
  phys_ok s -> same_maps s s' -> (forall p, refs p s' = refs p s) -> same_metadata s s' -> allocator_ok (physical_allocator_ s') ->
  (forall p, frame_ok p -> covers (free_ranges (physical_allocator_ s')) p <-> used p s' = kPhysicalFree) ->
  (forall p, frame_ok p -> covers (retired_ranges (physical_allocator_ s')) p <-> used p s' = kPhysicalRetired) ->
  (forall p, used p s' = used p s \/ may_own s p (used p s')) -> phys_ok s'.
Proof.
  intros Hs Hm Hr Hmeta Ha HF HR Hu.
  assert (Hb : forall l p, ranges_ok l -> covers l p -> frame_ok p) by (intros; by eapply covers_bounds).
  split; unfold same_maps in Hm; rewrite ?Hm; try apply Hs; try done.
  - intros p. split; [intros Hc; pose proof (Hb _ _ (proj1 Ha) Hc); split; [done|by apply HF]|]. intros [? ?]. by apply HF.
  - intros p. split; [intros Hc; pose proof (Hb _ _ (proj2 Ha) Hc); split; [done|by apply HR]|]. intros [? ?]. by apply HR.
  - intros p Hp. destruct (Hu p) as [->|(? & ?)]; [by apply (po_low _ Hs)|lia].
  - intros p. rewrite Hr. apply (po_refs _ Hs).
  - intros p Hp Ho. rewrite Hr. destruct (Hu p) as [E|(_ & _ & _ & _ & _ & H & _)]; [|by apply H].
    rewrite E in Ho. by apply (po_unmapped _ Hs).
  - intros p Ho. rewrite Hr. destruct (Hu p) as [E|(_ & _ & _ & _ & _ & _ & H)]; [|by apply H].
    rewrite E in Ho. by apply (po_pending _ Hs).
  - intros p Hp. rewrite Hmeta, (po_explicit _ Hs) by done. destruct (Hu p) as [->|(_ & ? & _ & ? & _)]; naive_solver.
  - intros p. rewrite Hmeta. intros He. destruct (po_allocation _ Hs p He) as [? H]. split; [done|].
    unfold explicit_ok in *. rewrite Hmeta. destruct H as (? & ? & ? & ? & ? & ? & H). split_and!; [tauto..|]. intros q Hq. rewrite Hmeta. by apply H.
  - intros p Hp. rewrite Hmeta. intros He Hus. apply (po_default _ Hs); [done..|].
    destruct (Hu p) as [E|(_ & _ & ? & _)]; [by rewrite <- E|done].
Qed.

Lemma free_physical_page_spec p s :
  phys_ok s -> frame_ok p ->
  exists s', free_physical_page p s = Some s' /\ phys_ok s' /\ same_maps s s' /\ same_metadata s s' /\
    forall q, used q s' = if decide (p = q) then freed (used p s) (refs p s =? 0) else used q s.
Proof.
  intros Hs Hp. unfold free_physical_page. assert (Hp' := Hp). unfold frame_ok in Hp'. rewrite (proj2 (Z.leb_gt _ _)) by lia.
  assert (Hsame : freed (used p s) (refs p s =? 0) = used p s -> forall q, used q s = if decide (p = q) then freed (used p s) (refs p s =? 0) else used q s).
  { intros E q. rewrite E. by destruct (decide (p = q)) as [<-|]. }
  change (kHugePageSize / kBasePageSize) with kFirstFrame. destruct (Z.ltb_spec p kFirstFrame) as [Hlow|Hlow].
  { exists s. split_and!; try done. apply Hsame. by rewrite (po_low _ Hs) by lia. }
  destruct (decide (used p s = kPhysicalAnonymous \/ used p s = kPhysicalAnonymousPendingFree)) as [Hanon|Hother].
  2: { assert (Hn : freed (used p s) (refs p s =? 0) = used p s) by (destruct (used p s); naive_solver).
       exists s. split; [destruct (used p s); naive_solver|]. split_and!; try done. by apply Hsame. }
  assert (Hown : forall o, o = (if refs p s =? 0 then kPhysicalRetired else kPhysicalAnonymousPendingFree) -> may_own s p o).
  { intros o ->. unfold may_own. destruct (Z.eqb_spec (refs p s) 0); split_and!; try done; try (by destruct Hanon as [->| ->]); naive_solver. }
  assert (Hfr : freed (used p s) (refs p s =? 0) = if refs p s =? 0 then kPhysicalRetired else kPhysicalAnonymousPendingFree).
  { by destruct Hanon as [->| ->]. }
  assert (Hone : forall A (x y : A), match used p s with kPhysicalAnonymous | kPhysicalAnonymousPendingFree => x | _ => y end = x).
  { intros. by destruct Hanon as [->| ->]. }
  rewrite Hone, Hfr. clear Hone Hfr Hsame. destruct (Z.eqb_spec (refs p s) 0) as [Hr|Hr]; cbn [negb].
  - destruct (retire_spec p 1 (physical_allocator_ s)) as (a' & E & Ha' & HF & HR); [apply Hs|by apply frame_word|done|done|lia| |].
    { intros q Hq. rewrite (po_retired _ Hs). replace q with p by lia. destruct Hanon as [->| ->]; naive_solver. }
    cbn [physical_allocator_ set_used]. rewrite E. eexists. split; [done|].
    assert (Hu : forall q, used q (set_allocator a' (set_used (<[p:=kPhysicalRetired]> (physical_page_used_ s)) s)) =
      if decide (p = q) then kPhysicalRetired else used q s) by (intros q; apply used_insert).
    split_and!; try done. apply (owners_change s); try done.
    + intros q Hq. cbn. rewrite HF, (po_free _ Hs), Hu. destruct (decide (p = q)) as [<-|]; [|tauto].
      destruct Hanon as [->| ->]; (split; [by intros [_ ?]|done]).
    + intros q Hq. cbn. rewrite HR, (po_retired _ Hs), Hu. destruct (decide (p = q)) as [<-|]; [split; [done|right; lia]|].
      split; [intros [?|?]; [naive_solver|lia]|naive_solver].
    + intros q. rewrite Hu. destruct (decide (p = q)) as [<-|]; [right; by apply Hown|by left].
  - eexists. split; [done|].
    assert (Hu : forall q, used q (set_used (<[p:=kPhysicalAnonymousPendingFree]> (physical_page_used_ s)) s) =
      if decide (p = q) then kPhysicalAnonymousPendingFree else used q s) by (intros q; apply used_insert).
    split_and!; try done. apply (owners_change s); try done; try apply Hs.
    + intros q Hq. cbn. rewrite (po_free _ Hs), Hu. destruct (decide (p = q)) as [<-|]; [|naive_solver]. destruct Hanon as [->| ->]; naive_solver.
    + intros q Hq. cbn. rewrite (po_retired _ Hs), Hu. destruct (decide (p = q)) as [<-|]; [|naive_solver]. destruct Hanon as [->| ->]; naive_solver.
    + intros q. rewrite Hu. destruct (decide (p = q)) as [<-|]; [right; by apply Hown|by left].
Qed.

Lemma mappings_change s refs' reverse' :
  let s' := set_mappings refs' reverse' s in
  phys_ok s -> mapping_ok reverse' -> (forall p, refs p s' = Z.of_nat (mapping_count p reverse')) ->
  (forall p g, mapping_contains p g reverse' = true -> frame_ok p /\ 0 <= g < kPageCount) ->
  (forall p, frame_ok p -> used p s = kPhysicalFree \/ used p s = kPhysicalRetired -> refs p s' = 0) ->
  (forall p, used p s = kPhysicalAnonymousPendingFree -> refs p s' <> 0) -> phys_ok s'.
Proof. intros s' Hs Hm Hr Hb Hu Hp. by split; try apply Hs. Qed.

Lemma refs_word s p : phys_ok s -> u32 (refs p s + 1) = refs p s + 1.
Proof. intros Hs. pose proof (refs_bound s p Hs). apply u32_small. unfold is_u32. change kPageCount with 0x100000 in *. lia. Qed.

Lemma add_ref_spec p g s :
  phys_ok s -> frame_ok p -> 0 <= g < kPageCount -> maps s p g = false -> used p s <> kPhysicalFree -> used p s <> kPhysicalRetired ->
  exists s', add_physical_mapping_ref p g s = Some s' /\ phys_ok s' /\ same_used s s' /\ same_metadata s s' /\
    forall p' g', maps s' p' g' = maps s p' g' || bool_decide (p' = p /\ g' = g).
Proof.
  intros Hs Hp Hg Hno Hf Hr. unfold add_physical_mapping_ref. pose proof (refs_word s p Hs) as Hw.
  destruct Hp as [Hp0 Hp1]. rewrite (proj2 (Z.leb_gt _ _)), (proj2 (Z.leb_gt _ _)) by lia. cbn [orb].
  destruct (add_spec p g (physical_reverse_mappings_ s) (po_mapping _ Hs)) as (Hok & Hfst & Hc).
  pose proof (add_count p g (physical_reverse_mappings_ s)) as Hcount.
  destruct (mapping_add p g (physical_reverse_mappings_ s)) as [ok reverse]. cbn [fst snd] in *. rewrite Hno in Hfst. rewrite Hfst. cbn [negb].
  eexists. split; [done|]. split_and!; try done.
  assert (Hrefs : forall q, refs q (set_mappings (<[p:=u32 (refs p s + 1)]> (physical_mapping_refs_ s)) reverse s) =
    refs q s + (if decide (p = q) then 1 else 0)).
  { intros q. rewrite refs_insert, Hw. change (refs q (set_mappings (physical_mapping_refs_ s) reverse s)) with (refs q s).
    destruct (decide (p = q)) as [<-|]; lia. }
  apply mappings_change; [done..| | | |].
  - intros q. rewrite Hrefs, Hcount, (po_refs _ Hs) by done. destruct (decide (p = q)); lia.
  - intros p' g'. rewrite Hc, orb_true_iff, bool_decide_eq_true. intros [?|[-> ->]]; [by apply (po_bounds _ Hs)|done].
  - intros q Hq Ho. rewrite Hrefs. pose proof (po_unmapped _ Hs q Hq Ho). destruct (decide (p = q)) as [<-|]; [naive_solver|lia].
  - intros q Ho. rewrite Hrefs. pose proof (po_pending _ Hs q Ho). pose proof (refs_bound s q Hs). destruct (decide (p = q)); lia.
Qed.

(** A page that nobody maps is retired the same way from either owned state. *)
Lemma free_unmapped p s :
  kFirstFrame <= p < kPhysicalPageCount -> used p s = kPhysicalAnonymousPendingFree -> refs p s = 0 ->
  free_physical_page p s = free_physical_page p (set_used (<[p := kPhysicalAnonymous]> (physical_page_used_ s)) s).
Proof.
  intros Hp Hu Hr. unfold free_physical_page. rewrite (proj2 (Z.leb_gt _ _)) by lia.
  change (refs p (set_used _ s)) with (refs p s). change (kHugePageSize / kBasePageSize) with kFirstFrame. rewrite (proj2 (Z.ltb_ge _ _)) by lia.
  rewrite Hu, used_insert, decide_True, Hr by done. change (0 =? 0) with true. cbn [negb].
  cbn [physical_allocator_ set_used physical_page_used_]. by rewrite insert_insert_eq.
Qed.

Lemma remove_ref_spec p g s :
  phys_ok s -> maps s p g = true ->
  exists s', remove_physical_mapping_ref p g s = Some s' /\ phys_ok s' /\ same_metadata s s' /\
    (forall p' g', maps s' p' g' = maps s p' g' && negb (bool_decide (p' = p /\ g' = g))) /\
    forall q, used q s' = used q s \/ (q = p /\ used q s = kPhysicalAnonymousPendingFree /\ used q s' = kPhysicalRetired).
Proof.
  intros Hs Hin. destruct (po_bounds _ Hs p g Hin) as [Hp Hg]. assert (Hp' := Hp). destruct Hp' as [Hp0 Hp1].
  assert (Hr0 : 0 < refs p s <= kPageCount).
  { pose proof (refs_bound s p Hs). assert (refs p s <> 0); [|lia]. intros E. apply (proj1 (refs_zero s p Hs)) with g in E. cbn in E. congruence. }
  unfold remove_physical_mapping_ref. rewrite (proj2 (Z.leb_gt _ _)), (proj2 (Z.leb_gt _ _)), (proj2 (Z.eqb_neq _ _)) by lia. cbn [orb].
  destruct (remove_spec p g (physical_reverse_mappings_ s) (po_mapping _ Hs)) as (Hok & Hfst & Hc).
  pose proof (λ q, remove_count p g (physical_reverse_mappings_ s) q Hin) as Hcount.
  destruct (mapping_remove p g (physical_reverse_mappings_ s)) as [ok reverse]. cbn [fst snd] in *. rewrite Hin in Hfst. rewrite Hfst. cbn [negb].
  set (s1 := set_mappings _ reverse s).
  assert (Hrefs : forall q, refs q s1 = refs q s - (if decide (p = q) then 1 else 0)).
  { intros q. unfold s1. rewrite refs_insert. change (refs q (set_mappings (physical_mapping_refs_ s) reverse s)) with (refs q s).
    destruct (decide (p = q)) as [<-|]; [|lia]. apply u32_small. unfold is_u32. change kPageCount with 0x100000 in *. lia. }
  assert (Hcnt : forall q, refs q s1 = Z.of_nat (mapping_count q reverse)).
  { intros q. rewrite Hrefs, (po_refs _ Hs), Hcount. destruct (decide (p = q)); lia. }
  assert (Hbnd : forall p' g', mapping_contains p' g' reverse = true -> frame_ok p' /\ 0 <= g' < kPageCount).
  { intros p' g'. rewrite Hc, andb_true_iff. intros [? _]. by apply (po_bounds _ Hs). }
  assert (Hun : forall q, frame_ok q -> used q s = kPhysicalFree \/ used q s = kPhysicalRetired -> refs q s1 = 0).
  { intros q Hq Ho. rewrite Hrefs. pose proof (po_unmapped _ Hs q Hq Ho). destruct (decide (p = q)) as [<-|]; lia. }
  change (used p s1) with (used p s).
  destruct ((refs p s1 =? 0) && bool_decide (used p s = kPhysicalAnonymousPendingFree)) eqn:E.
  - apply andb_true_iff in E as [Ez%Z.eqb_eq Ep%bool_decide_eq_true].
    assert (Hhigh : kFirstFrame <= p) by (apply (frame_high s); [done..|by rewrite Ep]).
    set (s2 := set_used (<[p := kPhysicalAnonymous]> (physical_page_used_ s1)) s1).
    assert (Hu2 : forall q, used q s2 = if decide (p = q) then kPhysicalAnonymous else used q s) by (intros q; apply used_insert).
    assert (Hs2 : phys_ok s2).
    { set (s3 := set_used (<[p := kPhysicalAnonymous]> (physical_page_used_ s)) s).
      assert (Hu3 : forall q, used q s3 = if decide (p = q) then kPhysicalAnonymous else used q s) by (intros q; apply used_insert).
      assert (Hs3 : phys_ok s3).
      { apply (owners_change s); try done; try apply Hs.
        - intros q Hq. rewrite Hu3. change (physical_allocator_ s3) with (physical_allocator_ s). rewrite (po_free _ Hs).
          destruct (decide (p = q)) as [<-|]; [split; [intros [_ ?]; congruence|done]|tauto].
        - intros q Hq. rewrite Hu3. change (physical_allocator_ s3) with (physical_allocator_ s). rewrite (po_retired _ Hs).
          destruct (decide (p = q)) as [<-|]; [split; [intros [_ ?]; congruence|done]|tauto].
        - intros q. rewrite Hu3. destruct (decide (p = q)) as [<-|]; [right|by left]. unfold may_own. rewrite Ep. split_and!; try done. by intros [?|?]. }
      change s2 with (set_mappings (<[p := u32 (refs p s - 1)]> (physical_mapping_refs_ s)) reverse s3).
      apply mappings_change; [exact Hs3|exact Hok|exact Hcnt|exact Hbnd| |].
      - intros q Hq. rewrite Hu3. destruct (decide (p = q)) as [<-|]; [intros [?|?]; done|]. by apply Hun.
      - intros q. rewrite Hu3. destruct (decide (p = q)) as [<-|]; [done|]. intros Ho. change (refs q s1 <> 0). rewrite Hrefs, decide_False by done.
        pose proof (po_pending _ Hs q Ho). lia. }
    rewrite free_unmapped by (done || lia). fold s2.
    destruct (free_physical_page_spec p s2 Hs2 Hp) as (s' & -> & Hs' & Hm' & Hmeta' & Hu').
    exists s'. split_and!; try done.
    + intros p' g'. rewrite Hm'. apply Hc.
    + intros q. rewrite Hu', !Hu2. destruct (decide (p = q)) as [<-|]; [right|by left].
      rewrite decide_True by done. change (refs p s2) with (refs p s1). by rewrite Ez.
  - exists s1. split_and!; try done; [|by left]. apply mappings_change; [done..|].
    intros q Ho. change (refs q s1 <> 0). rewrite Hrefs. pose proof (po_pending _ Hs q Ho).
    destruct (decide (p = q)) as [<-|]; [|lia]. rewrite bool_decide_true, andb_true_r in E by done. apply Z.eqb_neq in E.
    rewrite Hrefs, decide_True in E by done. done.
Qed.

Lemma same_maps_refs s s' : phys_ok s -> phys_ok s' -> same_maps s s' -> forall p, refs p s' = refs p s.
Proof. intros Hs Hs' Hm p. rewrite (po_refs _ Hs), (po_refs _ Hs'). by rewrite Hm. Qed.

(** *** Reclaiming *)

(** Retired pages may have become free. *)
Definition reclaimed (s s' : Physical) : Prop :=
  same_maps s s' /\ same_metadata s s' /\
  forall p, used p s' = used p s \/ (used p s = kPhysicalRetired /\ used p s' = kPhysicalFree).

Lemma reclaimed_refl s : reclaimed s s.
Proof. split_and!; [done..|]. by left. Qed.
Lemma reclaimed_trans s1 s2 s3 : reclaimed s1 s2 -> reclaimed s2 s3 -> reclaimed s1 s3.
Proof.
  intros (Hm & Hd & Hu) (Hm' & Hd' & Hu'). split_and!; [unfold same_maps in *; congruence|intros p; by rewrite Hd', Hd|].
  intros p. destruct (Hu' p) as [->|[E ->]]; [by apply Hu|]. destruct (Hu p) as [Eu|[Eu1 Eu2]]; [right; by rewrite <- Eu|congruence].
Qed.

(** The ranges [l] are taken out of the retired ones and not yet released. *)
Definition reclaiming (l : RangeMap) (s : Physical) : Prop :=
  retired_ranges (physical_allocator_ s) = [] /\
  phys_ok (set_allocator (mkRangeAllocator (free_ranges (physical_allocator_ s)) l) s).

Lemma covers_word l first count : ranges_ok ((first, count) :: l) -> is_u32 first /\ is_u32 count /\ 0 < count /\ first + count <= kPhysicalPageCount.
Proof.
  intros [_ Hr]. apply Forall_cons in Hr as [(? & ? & ?) _]. cbn in *. change kPhysicalPageCount with 0x20000 in *. unfold is_u32. lia.
Qed.

Lemma reclaim_range_spec first count l s :
  reclaiming ((first, count) :: l) s -> exists s', reclaim_range (first, count) s = Some s' /\ reclaiming l s' /\ reclaimed s s'.
Proof.
  intros [Hret Hs]. set (s0 := set_allocator _ s) in Hs. assert (Hr := proj2 (po_ranges _ Hs)). cbn [physical_allocator_ s0 set_allocator retired_ranges] in Hr.
  destruct (covers_word _ _ _ Hr) as (Hf & Hc & Hpos & Hend). assert (Hf0 : 0 <= first) by apply Hf.
  assert (Hused : forall p, first <= p < first + count -> used p s = kPhysicalRetired).
  { intros p Hp. apply (po_retired _ Hs p). apply covers_cons. by left. }
  assert (Hfr : forall p, first <= p < first + count -> frame_ok p) by (intros p Hp; unfold frame_ok; lia).
  unfold reclaim_range. replace (forallb _ (seqZ first count)) with true; cbn [negb].
  2: { symmetry. apply forallb_seqZ. intros p Hp. rewrite Hused by lia. rewrite bool_decide_true by done. cbn.
       apply Z.eqb_eq. apply (po_unmapped _ Hs); [apply Hfr; lia|right; by apply Hused]. }
  assert (Ha : allocator_ok (physical_allocator_ s)).
  { split; [apply (po_ranges _ Hs)|rewrite Hret; repeat constructor]. }
  destruct (release_spec first count (physical_allocator_ s) Ha Hf Hc Hpos Hend) as (a' & E & Ha' & HR & HF).
  { intros p Hp Hcov. apply (po_free _ Hs p) in Hcov as [_ Hu]. change (used p s0) with (used p s) in Hu. rewrite Hused in Hu by done. done. }
  cbn [physical_allocator_ set_used set_metadata]. rewrite E. eexists. split; [done|]. set (s' := set_allocator a' _).
  assert (Hu' : forall p, used p s' = fill_at first count kPhysicalFree (λ p, used p s) p) by (intros p; apply (used_fill first count _ _ s)).
  assert (Hmeta : same_metadata s s').
  { intros p. transitivity (fill_at first count new_metadata (λ p, metadata p s) p); [apply (metadata_fill first count _ _ s)|]. unfold fill_at. destruct (bool_decide_reflect (first <= p < first + count)) as [Hp|]; [|done]. symmetry.
    apply (po_default _ Hs); [by apply Hfr| |]; change (used p s0) with (used p s); rewrite ?Hused by done; [|done].
    apply not_true_is_false. intros He. apply (po_explicit _ Hs) in He; [|by apply Hfr]. change (used p s0) with (used p s) in He. by rewrite Hused in He. }
  split.
  - split; [by rewrite <- Hret, <- HR|].
    apply ranges_ok_cons in Hr as (_ & Hbefore & Hl). change (physical_allocator_ s') with a'.
    apply (owners_change s0); try done.
    + split; [apply Ha'|done].
    + intros p Hp. cbn. change (used p (set_allocator _ s')) with (used p s'). rewrite HF, Hu'. unfold fill_at.
      pose proof (po_free _ Hs p) as H. change (used p s0) with (used p s) in H. cbn in H.
      destruct (bool_decide_reflect (first <= p < first + count)); [split; [done|by right]|]. rewrite H. tauto.
    + intros p Hp. cbn. change (used p (set_allocator _ s')) with (used p s'). rewrite Hu'. unfold fill_at.
      pose proof (po_retired _ Hs p) as H. change (used p s0) with (used p s) in H. cbn in H. rewrite covers_cons in H.
      destruct (bool_decide_reflect (first <= p < first + count)) as [Hin|Hin].
      * split; [|done]. intros Hcov. exfalso. apply Exists_exists in Hcov as (r & Hr & Hpr). rewrite Forall_forall in Hbefore.
        specialize (Hbefore r Hr). unfold before, in_range in *. cbn in *. lia.
      * unfold in_range in H. cbn in H. tauto.
    + intros p. change (used p (set_allocator _ s')) with (used p s'). change (used p s0) with (used p s). rewrite Hu'. unfold fill_at.
      destruct (bool_decide_reflect (first <= p < first + count)) as [Hin|Hin]; [right|by left]. unfold may_own.
      change (used p s0) with (used p s). rewrite Hused by done. split_and!; try done.
      * apply (frame_high s0); [done|by apply Hfr|]. change (used p s0) with (used p s). by rewrite Hused.
      * intros _. apply (po_unmapped _ Hs); [by apply Hfr|right; by apply Hused].
  - split_and!; [done..|]. intros p. rewrite Hu'. unfold fill_at. destruct (bool_decide_reflect (first <= p < first + count)); [right|by left].
    split; [by apply Hused|done].
Qed.

Lemma reclaim_ranges_spec l s :
  reclaiming l s -> exists s', each reclaim_range l s = Some s' /\ reclaiming [] s' /\ reclaimed s s'.
Proof.
  revert s. induction l as [|[first count] l IH]; intros s Hs; cbn [each]; [exists s; split_and!; [done..|apply reclaimed_refl]|].
  destruct (reclaim_range_spec first count l s Hs) as (s1 & -> & H1 & R1). cbn.
  destruct (IH s1 H1) as (s2 & -> & H2 & R2). exists s2. split_and!; [done..|]. by eapply reclaimed_trans.
Qed.

Lemma allocator_eta a : mkRangeAllocator (free_ranges a) (retired_ranges a) = a.
Proof. by destruct a. Qed.
Lemma set_allocator_id s : set_allocator (physical_allocator_ s) s = s.
Proof. by destruct s. Qed.

Lemma reclaim_spec s :
  phys_ok s -> exists s', reclaim_retired_physical_pages s = Some s' /\ phys_ok s' /\ reclaimed s s'.
Proof.
  intros Hs. unfold reclaim_retired_physical_pages. destruct (has_retired_ranges (physical_allocator_ s)); cbn [negb].
  2: { exists s. split_and!; [done..|apply reclaimed_refl]. }
  destruct (match reader_drains_ s with [] => (true, []) | b :: rest => (b, rest) end) as [drained rest].
  assert (Hd : phys_ok (set_drains rest s)) by (by apply set_drains_ok).
  destruct drained; cbn [negb]; [|exists (set_drains rest s); split_and!; [done..|]; split_and!; [done..|by left]].
  cbn [take_retired_ranges physical_allocator_ set_drains].
  destruct (reclaim_ranges_spec (retired_ranges (physical_allocator_ s))
    (set_allocator (set_retired [] (physical_allocator_ s)) (set_drains rest s))) as (s' & -> & [Hnil Hs'] & Hr).
  { split; [done|]. cbn. rewrite allocator_eta. by rewrite <- (set_allocator_id (set_drains rest s)) in Hd. }
  exists s'. split_and!; [done| |done]. rewrite <- Hnil, allocator_eta, set_allocator_id in Hs'. done.
Qed.

(** *** Anonymous pages *)

Lemma serves_frame a count alignment minimum maximum x :
  allocator_ok a -> 0 < count -> serves (covers (free_ranges a)) count alignment minimum maximum x ->
  0 <= x /\ x + count <= kPhysicalPageCount.
Proof.
  intros [Ha _] Hc (_ & _ & _ & Hin). pose proof (covers_bounds _ _ Ha (Hin x ltac:(unfold run_of; lia))).
  pose proof (covers_bounds _ _ Ha (Hin (x + count - 1) ltac:(unfold run_of; lia))). lia.
Qed.

Lemma take_page_ok s x a' :
  phys_ok s -> frame_ok x -> used x s = kPhysicalFree -> allocator_ok a' ->
  retired_ranges a' = retired_ranges (physical_allocator_ s) ->
  (forall p, covers (free_ranges a') p <-> covers (free_ranges (physical_allocator_ s)) p /\ ~ x <= p < x + 1) ->
  phys_ok (set_allocator a' (set_used (<[x := kPhysicalAnonymous]> (physical_page_used_ s)) s)).
Proof.
  intros Hs Hx Hfree Ha' HR HF. set (s' := set_allocator _ _).
  assert (Hu : forall q, used q s' = if decide (x = q) then kPhysicalAnonymous else used q s) by (intros q; apply used_insert).
  apply (owners_change s); try done.
  - intros q Hq. cbn. rewrite HF, (po_free _ Hs), Hu. destruct (decide (x = q)) as [<-|]; [split; [intros [_ ?]; lia|done]|].
    split; [tauto|]. intros ?. split; [done|lia].
  - intros q Hq. cbn. rewrite HR, (po_retired _ Hs), Hu. destruct (decide (x = q)) as [<-|]; [split; [intros [_ ?]; congruence|done]|tauto].
  - intros q. rewrite Hu. destruct (decide (x = q)) as [<-|]; [right|by left]. unfold may_own. rewrite Hfree. split_and!; try done.
    + apply (frame_high s); [done..|by rewrite Hfree].
    + by intros [?|?].
Qed.

(** No physical page is free. *)
Definition exhausted (s : Physical) : Prop := forall p, frame_ok p -> used p s <> kPhysicalFree.

Lemma no_page_left top_down s : phys_ok s -> range_allocate 1 1 top_down 0 kPhysicalPageCount (physical_allocator_ s) = None -> exhausted s.
Proof.
  intros Hs E p Hp Hfree. pose proof (range_allocate_spec 1 1 top_down 0 kPhysicalPageCount _ (po_ranges _ Hs)) as H. rewrite E in H.
  apply (H ltac:(by vm_compute) ltac:(by vm_compute) ltac:(by vm_compute) ltac:(by vm_compute) eq_refl p).
  split; [apply Z.divide_1_l|]. unfold frame_ok in Hp. split; [lia|]. split; [lia|].
  intros q Hq. unfold run_of in Hq. replace q with p by lia. by apply (po_free _ Hs).
Qed.

(** Returning a page makes none free: it is retired first. *)
Lemma free_physical_page_frees f s s' p : free_physical_page f s = Some s' -> used p s' = kPhysicalFree -> used p s = kPhysicalFree.
Proof.
  unfold free_physical_page. destruct (_ <=? _); [by intros [= <-]|]. destruct (_ <? _); [by intros [= <-]|].
  assert (Hin : forall o m, o <> kPhysicalFree -> used p (set_used (<[f := o]> m) s) = kPhysicalFree -> used p (set_used m s) = kPhysicalFree).
  { intros o m Ho. rewrite used_insert. by destruct (decide (f = p)). }
  assert (Hid : used p (set_used (physical_page_used_ s) s) = used p s) by done. rewrite <- Hid.
  destruct (used f s); try (by intros [= <-]).
  all: destruct (negb _); [intros [= <-]; by apply Hin|]; destruct (range_retire f 1 _) as [[|] a]; [|done]; intros [= <-]; by apply (Hin kPhysicalRetired).
Qed.
Lemma remove_mapping_frees f g s s' p : remove_physical_mapping_ref f g s = Some s' -> used p s' = kPhysicalFree -> used p s = kPhysicalFree.
Proof.
  unfold remove_physical_mapping_ref. destruct (_ || _); [done|]. destruct (mapping_remove _ _ _) as [[|] reverse]; cbn [negb]; [|done].
  cbv zeta. destruct (_ && _); [|by intros [= <-]]. intros E Hu. by apply (free_physical_page_frees _ _ _ p E) in Hu.
Qed.

Lemma allocate_physical_page_spec top_down s :
  phys_ok s ->
  exists f s', allocate_physical_page top_down s = Some (f, s') /\ phys_ok s' /\ same_maps s s' /\ same_metadata s s' /\
    match f with
    | None => reclaimed s s' /\ exhausted s'
    | Some x => frame_ok x /\ (used x s = kPhysicalFree \/ used x s = kPhysicalRetired) /\ used x s' = kPhysicalAnonymous /\
        refs x s = 0 /\
        forall p, p <> x -> used p s' = used p s \/ (used p s = kPhysicalRetired /\ used p s' = kPhysicalFree)
    end.
Proof.
  intros Hs. unfold allocate_physical_page. destruct (reclaim_spec s Hs) as (s1 & -> & Hs1 & Hr). cbn [mbind option_bind]. pose proof Hr as (Hm & Hd & Hu).
  assert (Htake : forall minimum maximum, is_u32 minimum -> is_u32 maximum ->
    match range_allocate 1 1 top_down minimum maximum (physical_allocator_ s1) with
    | Some (x, a') => let s' := set_allocator a' (set_used (<[x := kPhysicalAnonymous]> (physical_page_used_ s1)) s1) in
        phys_ok s' /\ same_maps s s' /\ same_metadata s s' /\
        frame_ok x /\ (used x s = kPhysicalFree \/ used x s = kPhysicalRetired) /\ used x s' = kPhysicalAnonymous /\ refs x s = 0 /\
        forall p, p <> x -> used p s' = used p s \/ (used p s = kPhysicalRetired /\ used p s' = kPhysicalFree)
    | None => True
    end).
  { intros minimum maximum Hmin Hmax.
    pose proof (range_allocate_spec 1 1 top_down minimum maximum (physical_allocator_ s1) (po_ranges _ Hs1)) as H.
    destruct (range_allocate 1 1 top_down minimum maximum (physical_allocator_ s1)) as [[x a']|]; [|done]. cbv zeta.
    destruct H as (_ & Ha' & Hserve & HR & HF); [done..|].
    destruct (serves_frame _ _ _ _ _ _ (po_ranges _ Hs1) (eq_refl : 0 < 1) Hserve) as [Hx0 Hx1]. assert (Hx : frame_ok x) by (unfold frame_ok; lia).
    assert (Hfree : used x s1 = kPhysicalFree).
    { apply (po_free _ Hs1 x). destruct Hserve as (_ & _ & _ & Hin). apply Hin. unfold run_of. lia. }
    assert (Hold : used x s = kPhysicalFree \/ used x s = kPhysicalRetired).
    { destruct (Hu x) as [E|[E _]]; [left; congruence|by right]. }
    split_and!; try done.
    - by apply take_page_ok.
    - change (used x (set_allocator a' ?y)) with (used x y). by rewrite used_insert, decide_True.
    - by apply (po_unmapped _ Hs).
    - intros p Hp. change (used p (set_allocator a' ?y)) with (used p y). rewrite used_insert, decide_False by done. apply Hu. }
  assert (H1 := Htake kFirstPageOutside4KView kAllocatableEndPage). assert (H2 := Htake 0 kPhysicalPageCount). clear Htake.
  destruct (range_allocate 1 1 top_down kFirstPageOutside4KView kAllocatableEndPage (physical_allocator_ s1)) as [[x a']|].
  - destruct H1 as (? & ? & ? & ?); [by vm_compute|by vm_compute|]. by eexists (Some x), _.
  - destruct (range_allocate 1 1 top_down 0 kPhysicalPageCount (physical_allocator_ s1)) as [[x a']|] eqn:E.
    + destruct H2 as (? & ? & ? & ?); [by vm_compute|by vm_compute|]. by eexists (Some x), _.
    + exists None, s1. split_and!; try done. by apply (no_page_left top_down).
Qed.

(** *** Explicit allocations *)

Lemma explicit_change s s' first count size protect :
  phys_ok s -> same_maps s s' -> (forall p, refs p s' = refs p s) -> allocator_ok (physical_allocator_ s') ->
  retired_ranges (physical_allocator_ s') = retired_ranges (physical_allocator_ s) ->
  (forall p, covers (free_ranges (physical_allocator_ s')) p <->
     covers (free_ranges (physical_allocator_ s)) p /\ ~ first <= p < first + count) ->
  (forall p, used p s' = fill_at first count kPhysicalExplicit (λ p, used p s) p) ->
  (forall p, metadata p s' = fill_at first count (mkMetadata first count size protect protect true) (λ p, metadata p s) p) ->
  0 <= first -> first + count <= kPhysicalPageCount -> (forall p, first <= p < first + count -> used p s = kPhysicalFree) ->
  has_single_bit size = true -> kBasePageSize <= size -> valid_memory_type_protection protect = true -> phys_ok s'.
Proof.
  intros Hs Hm Hr Ha HR HF Hu Hd Hf Hend Hfree Hbit Hsize Hprot. unfold fill_at in Hu, Hd.
  assert (Hframe : forall p, first <= p < first + count -> frame_ok p) by (intros p Hp; unfold frame_ok; lia).
  assert (Hin : forall p, first <= p < first + count -> used p s' = kPhysicalExplicit) by (intros p Hp; by rewrite Hu, bool_decide_true).
  assert (Hout : forall p, ~ first <= p < first + count -> used p s' = used p s) by (intros p Hp; by rewrite Hu, bool_decide_false).
  assert (Hmin : forall p, first <= p < first + count -> metadata p s' = mkMetadata first count size protect protect true)
    by (intros p Hp; by rewrite Hd, bool_decide_true).
  assert (Hmout : forall p, ~ first <= p < first + count -> metadata p s' = metadata p s) by (intros p Hp; by rewrite Hd, bool_decide_false).
  split; unfold same_maps in Hm; rewrite ?Hm; try apply Hs; try done.
  - intros p. rewrite HF, (po_free _ Hs). destruct (decide (first <= p < first + count)) as [Hp|Hp]; [rewrite Hin by done|rewrite Hout by done; tauto].
    split; [tauto|]. by intros [_ ?].
  - intros p. rewrite HR, (po_retired _ Hs). destruct (decide (first <= p < first + count)) as [Hp|Hp]; [|by rewrite Hout].
    rewrite Hin, Hfree by done. split; by intros [_ ?].
  - intros p Hp. destruct (decide (first <= p < first + count)) as [Hq|Hq]; [|rewrite Hout by done; by apply (po_low _ Hs)].
    pose proof (po_low _ Hs p Hp) as E. by rewrite Hfree in E.
  - intros p. rewrite Hr. apply (po_refs _ Hs).
  - intros p Hp. rewrite Hr. destruct (decide (first <= p < first + count)) as [Hq|Hq]; [rewrite Hin by done; by intros [?|?]|].
    rewrite Hout by done. by apply (po_unmapped _ Hs).
  - intros p. rewrite Hr. destruct (decide (first <= p < first + count)) as [Hq|Hq]; [by rewrite Hin|].
    rewrite Hout by done. by apply (po_pending _ Hs).
  - intros p Hp. destruct (decide (first <= p < first + count)) as [Hq|Hq]; [by rewrite Hin, Hmin|].
    rewrite Hout, Hmout by done. by apply (po_explicit _ Hs).
  - intros p He. destruct (decide (first <= p < first + count)) as [Hq|Hq].
    + split; [by apply Hframe|]. unfold explicit_ok. rewrite Hmin by done. cbn. split_and!; try done; try lia.
      intros q Hq'. by rewrite Hmin.
    + rewrite Hmout in He by done. destruct (po_allocation _ Hs p He) as [Hp (H1 & H2 & H3 & H4 & H5 & H6 & H7)]. split; [done|].
      unfold explicit_ok. rewrite Hmout by done. split_and!; try tauto. intros q Hq'.
      assert (Hnq : ~ first <= q < first + count); [|rewrite Hmout by done; by apply H7].
      intros Hin'. destruct (H7 q Hq') as [Hqe _]. apply (po_explicit _ Hs) in Hqe; [|by apply Hframe]. by rewrite Hfree in Hqe.
  - intros p Hp. destruct (decide (first <= p < first + count)) as [Hq|Hq]; [by rewrite Hmin|].
    rewrite Hmout, Hout by done. by apply (po_default _ Hs).
Qed.

(** A whole explicit allocation that nobody maps is retired. *)
Lemma retire_change s s' first count :
  phys_ok s -> same_maps s s' -> (forall p, refs p s' = refs p s) -> allocator_ok (physical_allocator_ s') ->
  free_ranges (physical_allocator_ s') = free_ranges (physical_allocator_ s) ->
  (forall p, covers (retired_ranges (physical_allocator_ s')) p <->
     covers (retired_ranges (physical_allocator_ s)) p \/ first <= p < first + count) ->
  (forall p, used p s' = fill_at first count kPhysicalRetired (λ p, used p s) p) ->
  (forall p, metadata p s' = fill_at first count new_metadata (λ p, metadata p s) p) ->
  (forall p, first <= p < first + count -> frame_ok p /\ used p s = kPhysicalExplicit /\ refs p s = 0 /\
     same_allocation first count (metadata p s) = true) -> phys_ok s'.
Proof.
  intros Hs Hm Hr Ha HF HR Hu Hd Hrun. unfold fill_at in Hu, Hd.
  assert (Hin : forall p, first <= p < first + count -> used p s' = kPhysicalRetired) by (intros p Hp; by rewrite Hu, bool_decide_true).
  assert (Hout : forall p, ~ first <= p < first + count -> used p s' = used p s) by (intros p Hp; by rewrite Hu, bool_decide_false).
  assert (Hmin : forall p, first <= p < first + count -> metadata p s' = new_metadata) by (intros p Hp; by rewrite Hd, bool_decide_true).
  assert (Hmout : forall p, ~ first <= p < first + count -> metadata p s' = metadata p s) by (intros p Hp; by rewrite Hd, bool_decide_false).
  split; unfold same_maps in Hm; rewrite ?Hm; try apply Hs; try done.
  - intros p. rewrite HF, (po_free _ Hs). destruct (decide (first <= p < first + count)) as [Hp|Hp]; [|by rewrite Hout].
    destruct (Hrun p Hp) as (_ & E & _). rewrite Hin, E by done. split; by intros [_ ?].
  - intros p. rewrite HR, (po_retired _ Hs). destruct (decide (first <= p < first + count)) as [Hp|Hp]; [|rewrite Hout by done; tauto].
    rewrite Hin by done. split; [|by right]. intros _. split; [by apply Hrun|done].
  - intros p Hp. destruct (decide (first <= p < first + count)) as [Hq|Hq]; [|rewrite Hout by done; by apply (po_low _ Hs)].
    destruct (Hrun p Hq) as (_ & E & _). by rewrite (po_low _ Hs p Hp) in E.
  - intros p. rewrite Hr. apply (po_refs _ Hs).
  - intros p Hp. rewrite Hr. destruct (decide (first <= p < first + count)) as [Hq|Hq]; [intros _; by apply Hrun|].
    rewrite Hout by done. by apply (po_unmapped _ Hs).
  - intros p. rewrite Hr. destruct (decide (first <= p < first + count)) as [Hq|Hq]; [by rewrite Hin|].
    rewrite Hout by done. by apply (po_pending _ Hs).
  - intros p Hp. destruct (decide (first <= p < first + count)) as [Hq|Hq]; [by rewrite Hin, Hmin|].
    rewrite Hout, Hmout by done. by apply (po_explicit _ Hs).
  - intros p He. destruct (decide (first <= p < first + count)) as [Hq|Hq]; [by rewrite Hmin in He|].
    rewrite Hmout in He by done. destruct (po_allocation _ Hs p He) as [Hp (H1 & H2 & H3 & H4 & H5 & H6 & H7)]. split; [done|].
    unfold explicit_ok. rewrite Hmout by done. split_and!; try tauto. intros q Hq'.
    assert (Hnq : ~ first <= q < first + count); [|rewrite Hmout by done; by apply H7].
    intros Hin'. destruct (Hrun q Hin') as (_ & _ & _ & E). destruct (H7 q Hq') as (_ & Eb & Ec & _).
    unfold same_allocation in E. rewrite !andb_true_iff, !Z.eqb_eq in E. destruct E as [[_ E1] E2]. apply Hq. lia.
  - intros p Hp. destruct (decide (first <= p < first + count)) as [Hq|Hq]; [by rewrite Hmin|].
    rewrite Hmout, Hout by done. by apply (po_default _ Hs).
Qed.

(** Current rights of explicit pages may change. *)
Definition with_protect (v : Protect) (m : PhysicalPageMetadata) : PhysicalPageMetadata :=
  mkMetadata (pm_base_page m) (pm_page_count m) (pm_page_size m) (pm_allocation_protect m) v (explicit_allocation m).

Lemma protect_change s s' protect :
  phys_ok s -> same_maps s s' -> (forall p, refs p s' = refs p s) -> physical_allocator_ s' = physical_allocator_ s ->
  (forall p, used p s' = used p s) -> valid_memory_type_protection protect = true ->
  (forall p, metadata p s' = metadata p s \/ (explicit_allocation (metadata p s) = true /\ metadata p s' = with_protect protect (metadata p s))) ->
  phys_ok s'.
Proof.
  intros Hs Hm Hr Ha Hu Hv Hd.
  assert (Hfield : forall p, explicit_allocation (metadata p s') = explicit_allocation (metadata p s) /\
    pm_base_page (metadata p s') = pm_base_page (metadata p s) /\ pm_page_count (metadata p s') = pm_page_count (metadata p s) /\
    pm_page_size (metadata p s') = pm_page_size (metadata p s) /\ pm_allocation_protect (metadata p s') = pm_allocation_protect (metadata p s)).
  { intros p. by destruct (Hd p) as [->|[_ ->]]. }
  split; unfold same_maps in Hm; rewrite ?Hm, ?Ha; try apply Hs.
  - intros p. rewrite Hu. apply (po_free _ Hs).
  - intros p. rewrite Hu. apply (po_retired _ Hs).
  - intros p. rewrite Hu. apply (po_low _ Hs).
  - intros p. rewrite Hr. apply (po_refs _ Hs).
  - intros p. rewrite Hu, Hr. apply (po_unmapped _ Hs).
  - intros p. rewrite Hu, Hr. apply (po_pending _ Hs).
  - intros p. rewrite Hu, (proj1 (Hfield p)). apply (po_explicit _ Hs).
  - intros p. destruct (Hfield p) as (Ee & Eb & Ec & Es & Ep). rewrite Ee. intros He.
    destruct (po_allocation _ Hs p He) as [Hp (H1 & H2 & H3 & H4 & H5 & H6 & H7)]. split; [done|]. unfold explicit_ok.
    rewrite Eb, Ec, Es, Ep. split_and!; try tauto.
    + destruct (Hd p) as [->|[_ ->]]; done.
    + intros q Hq. destruct (Hfield q) as (-> & -> & -> & -> & ->). by apply H7.
  - intros p Hp. rewrite Hu. destruct (Hd p) as [->|[E ->]]; [by apply (po_default _ Hs)|]. cbn. by rewrite E.
Qed.

(** ** Regions by page *)

Definition region_of (g : Z) : option RegionDescriptor := region_for (Z.shiftl g kPageShift).
Definition page_ok_index (g : Z) : Prop := 0 <= g < kPageCount.
Definition heap_page (r : RegionDescriptor) (g : Z) : Prop := page_ok_index g /\ region_of g = Some r /\ is_heap r = true.

Lemma regions_aligned : Forall (λ r, rg_base r mod 4096 = 0 /\ rg_end r mod 4096 = 4095) kRegions.
Proof. repeat constructor. Qed.

Lemma shiftr_page a : Z.shiftr a kPageShift = a / 4096.
Proof. unfold kPageShift. by rewrite Z.shiftr_div_pow2. Qed.
Lemma shiftl_page g : Z.shiftl g kPageShift = g * 4096.
Proof. unfold kPageShift. by rewrite Z.shiftl_mul_pow2. Qed.

Lemma find_ext {A} (f h : A -> bool) l : Forall (λ x, f x = h x) l -> List.find f l = List.find h l.
Proof. induction 1 as [|x l E _ IH]; cbn; [done|]. rewrite E. by rewrite IH. Qed.

Lemma region_for_page a : region_for a = region_of (Z.shiftr a kPageShift).
Proof.
  unfold region_of, region_for. rewrite shiftl_page, shiftr_page. apply find_ext.
  eapply Forall_impl; [apply regions_aligned|]. intros r [Hb He]. cbv beta in Hb, He. unfold in_region. f_equal; apply eq_true_iff_eq; rewrite !Z.leb_le; Z.to_euclidean_division_equations; lia.
Qed.

Lemma region_of_in g r : region_of g = Some r -> r ∈ kRegions /\ rg_base r <= g * 4096 <= rg_end r.
Proof.
  unfold region_of, region_for. rewrite shiftl_page. intros H%find_some. destruct H as [Hin Hb]. split; [by apply list_elem_of_In|].
  unfold in_region in Hb. rewrite andb_true_iff, !Z.leb_le in Hb. lia.
Qed.

#[local] Ltac choose_case := first [solve [split; [done|lia]]|left; choose_case|right; choose_case].

Lemma region_cases g r : region_of g = Some r -> is_heap r = true ->
  (r = mkRegion kVirtual4KBase kVirtual4KEnd kBasePageSize Virtual /\ 0 <= g < 0x40000) \/
  (r = mkRegion kVirtual64KBase kVirtual64KEnd kLargePageSize Virtual /\ 0x40000 <= g < 0x7F000) \/
  (r = mkRegion kXex64KBase kXex64KEnd kLargePageSize Xex /\ 0x80000 <= g < 0x90000) \/
  (r = mkRegion kXex4KBase kXex4KEnd kBasePageSize Xex /\ 0x90000 <= g < 0xA0000).
Proof.
  intros H Hh. destruct (region_of_in g r H) as [Hin Hb]. unfold kRegions in Hin.
  unfold kVirtual4KBase, kVirtual4KEnd, kVirtual64KBase, kVirtual64KEnd, kXex64KBase, kXex64KEnd, kXex4KBase, kXex4KEnd in *.
  repeat (apply elem_of_cons in Hin as [->|Hin];
    [first [discriminate Hh|cbn [rg_base rg_end] in Hb; choose_case]|]).
  by apply elem_of_nil in Hin.
Qed.

(** The regions do not overlap. *)
Lemma regions_apart a : ForallPairs (λ r r', ~ (rg_base r <= a <= rg_end r /\ rg_base r' <= a <= rg_end r') \/ r = r') kRegions.
Proof.
  intros r r' Hr%list_elem_of_In Hr'%list_elem_of_In. unfold kRegions in *.
  repeat (apply elem_of_cons in Hr as [->|Hr];
    [repeat (apply elem_of_cons in Hr' as [->|Hr']; [first [by right|left; cbn [rg_base rg_end];
       unfold kVirtual4KBase, kVirtual4KEnd, kVirtual64KBase, kVirtual64KEnd, kGpuWritebackBase, kGpuWritebackEnd, kXex64KBase, kXex64KEnd,
         kXex4KBase, kXex4KEnd, kPhysical64KBase, kPhysical64KEnd, kPhysical16MBase, kPhysical16MEnd, kPhysical4KBase, kPhysical4KHeapEnd,
         kMmioBase, kMmioEnd; lia]|]); by apply elem_of_nil in Hr'|]).
  by apply elem_of_nil in Hr.
Qed.

Lemma region_unique g r : r ∈ kRegions -> rg_base r <= g * 4096 <= rg_end r -> region_of g = Some r.
Proof.
  intros Hin Hb. destruct (region_of g) as [r'|] eqn:E.
  - destruct (region_of_in g r' E) as [Hin' Hb']. destruct (regions_apart (g * 4096) r r') as [H| ->]; [by apply list_elem_of_In..|tauto|done].
  - exfalso. unfold region_of, region_for in E. rewrite shiftl_page in E. apply find_none with (x := r) in E; [|by apply list_elem_of_In].
    unfold in_region in E. rewrite !(proj2 (Z.leb_le _ _)) in E by lia. done.
Qed.

Lemma region_xex64 g : 0x80000 <= g < 0x90000 -> region_of g = Some (mkRegion kXex64KBase kXex64KEnd kLargePageSize Xex).
Proof. intros Hg. apply region_unique; [unfold kRegions; set_solver|cbn [rg_base rg_end]; unfold kXex64KBase, kXex64KEnd; lia]. Qed.
Lemma region_xex4 g : 0x90000 <= g < 0xA0000 -> region_of g = Some (mkRegion kXex4KBase kXex4KEnd kBasePageSize Xex).
Proof. intros Hg. apply region_unique; [unfold kRegions; set_solver|cbn [rg_base rg_end]; unfold kXex4KBase, kXex4KEnd; lia]. Qed.

Lemma xex_range r g : heap_page r g -> is_xex r = true -> 0x80000 <= g < 0xA0000.
Proof.
  intros (_ & Hr & Hh) Hx. destruct (region_cases g r Hr Hh) as [[-> ?]|[[-> ?]|[[-> ?]|[-> ?]]]]; first [lia|by vm_compute in Hx].
Qed.

Lemma alias_page_spec g : 0x80000 <= g < 0xA0000 -> alias_page g = if g <? 0x90000 then g + 0x10000 else g - 0x10000.
Proof.
  intros Hg. unfold alias_page, xex_alias. rewrite shiftl_page, shiftr_page. rewrite (u32_small (g * 4096)) by (unfold is_u32; lia).
  unfold kXex4KBase. destruct (Z.ltb_spec g 0x90000).
  - rewrite (proj2 (Z.ltb_lt _ _)) by lia. rewrite u32_small by (unfold is_u32; lia). Z.to_euclidean_division_equations; lia.
  - rewrite (proj2 (Z.ltb_ge _ _)) by lia. rewrite u32_small by (unfold is_u32; lia). Z.to_euclidean_division_equations; lia.
Qed.

Lemma alias_page_xex r g : heap_page r g -> is_xex r = true ->
  exists r', heap_page r' (alias_page g) /\ is_xex r' = true /\ alias_page (alias_page g) = g /\ alias_page g <> g.
Proof.
  intros Hp Hx. pose proof (xex_range r g Hp Hx) as Hg. rewrite (alias_page_spec g Hg). destruct (Z.ltb_spec g 0x90000).
  - exists (mkRegion kXex4KBase kXex4KEnd kBasePageSize Xex). split_and!.
    + split_and!; [unfold page_ok_index; change kPageCount with 0x100000; lia|apply region_xex4; lia|done].
    + done.
    + rewrite alias_page_spec by lia. rewrite (proj2 (Z.ltb_ge _ _)) by lia. lia.
    + lia.
  - exists (mkRegion kXex64KBase kXex64KEnd kLargePageSize Xex). split_and!.
    + split_and!; [unfold page_ok_index; change kPageCount with 0x100000; lia|apply region_xex64; lia|done].
    + done.
    + rewrite alias_page_spec by lia. rewrite (proj2 (Z.ltb_lt _ _)) by lia. lia.
    + lia.
Qed.

Lemma heap_kind r : is_heap r = true -> is_xex r = false -> rg_kind r = Virtual.
Proof. unfold is_heap, is_xex. destruct (rg_kind r); done. Qed.
Lemma xex_kind r : is_xex r = true -> rg_kind r = Xex.
Proof. unfold is_xex. by intros H%bool_decide_eq_true. Qed.

(** ** Guest pages *)

(** A page in use lies in a heap; in a XEX view, with its allocation. *)
Definition page_place (g : Z) (p : Page) : Prop :=
  exists r, heap_page r g /\ kind p = rg_kind r /\ (is_xex r = true -> 0x80000 <= allocation_base_page p < 0xA0000).

Definition page_shape (g : Z) (p : Page) : Prop :=
  match state p with
  | Free => p = new_page
  | Reserved => page_place g p /\ physical_page p = kInvalidPhysicalPage /\ explicit_physical_mapping p = false /\ permanent_guard p = false
  | Committed => page_place g p /\ (permanent_guard p = true -> p = guard_page) /\ (kind p = Xex -> explicit_physical_mapping p = false)
  end.

Definition backed_by (f : Z) (p : Page) : Prop := state p = Committed /\ permanent_guard p = false /\ physical_page p = f.

(** The page of the other view of a XEX page. *)
Definition mirror (p : Page) : Page :=
  if bool_decide (state p = Free) then p else set_base_page (alias_page (allocation_base_page p)) p.

Record guest_ok (s : AddressSpace) : Prop := mkGuestOk {
  go_shape : forall g, page_shape g (page_at g s);
  go_backed : forall f g, maps (physical s) f g = true <-> backed_by f (page_at g s);
  go_mirror : forall r g, heap_page r g -> is_xex r = true -> page_at (alias_page g) s = mirror (page_at g s);
  go_owner : forall f, used f (physical s) = kPhysicalAnonymous ->
    exists g, backed_by f (page_at g s) /\ explicit_physical_mapping (page_at g s) = false;
  go_unshared : forall f g g', backed_by f (page_at g s) -> backed_by f (page_at g' s) ->
    explicit_physical_mapping (page_at g s) = false -> explicit_physical_mapping (page_at g' s) = false ->
    g' = g \/ (0x80000 <= g < 0xA0000 /\ g' = alias_page g)
}.

Record space_ok (s : AddressSpace) : Prop := mkSpaceOk {
  so_physical : phys_ok (physical s);
  so_guest : guest_ok s
}.

Lemma page_at_set i p s j : page_at j (set_page i p s) = if decide (j = i) then p else page_at j s.
Proof.
  unfold page_at. cbn. destruct (decide (j = i)) as [->|]; [by rewrite lookup_insert_eq|by rewrite lookup_insert_ne].
Qed.
Lemma page_at_on i f s j : page_at j (on_page i f s) = if decide (j = i) then f (page_at i s) else page_at j s.
Proof. apply page_at_set. Qed.

(** The pages an operation on page [i] of the region changes. *)
Definition touches (r : RegionDescriptor) (i g : Z) : Prop := g = i \/ (is_xex r = true /\ g = alias_page i).
#[export] Instance touched_dec r i g : Decision (touches r i g).
Proof. unfold touches. apply _. Defined.

Lemma alias_xex g : 0x80000 <= g < 0xA0000 -> alias_page (alias_page g) = g /\ 0x80000 <= alias_page g < 0xA0000.
Proof.
  intros Hg. rewrite (alias_page_spec g Hg). destruct (Z.ltb_spec g 0x90000).
  - rewrite alias_page_spec by lia. rewrite (proj2 (Z.ltb_ge _ _)) by lia. lia.
  - rewrite alias_page_spec by lia. rewrite (proj2 (Z.ltb_lt _ _)) by lia. lia.
Qed.

Lemma heap_page_fun r r' g : heap_page r g -> heap_page r' g -> r = r'.
Proof. intros (_ & E & _) (_ & E' & _). congruence. Qed.

Lemma mirror_state p : state (mirror p) = state p.
Proof. unfold mirror. by destruct (bool_decide _). Qed.

Lemma backed_mirror f p : backed_by f (mirror p) <-> backed_by f p.
Proof. unfold backed_by, mirror. by destruct (bool_decide _). Qed.

Lemma page_place_kind r g p : heap_page r g -> page_place g p -> kind p = rg_kind r /\ (is_xex r = true -> 0x80000 <= allocation_base_page p < 0xA0000).
Proof. intros Hr (r' & Hr' & Hk & Hb). by rewrite (heap_page_fun r r' g). Qed.

Lemma mirror_free p : state p = Free -> mirror p = p.
Proof. intros E. unfold mirror. by rewrite bool_decide_true. Qed.
Lemma mirror_used p : state p <> Free -> mirror p = set_base_page (alias_page (allocation_base_page p)) p.
Proof. intros E. unfold mirror. by rewrite bool_decide_false. Qed.

Lemma shape_place g p : page_shape g p -> state p <> Free -> page_place g p.
Proof. unfold page_shape. destruct (state p); tauto. Qed.

Lemma mirror_mirror r g p : heap_page r g -> is_xex r = true -> page_shape g p -> mirror (mirror p) = p.
Proof.
  intros Hr Hx Hs. destruct (decide (state p = Free)) as [E|E]; [by rewrite !(mirror_free p E)|].
  assert (Hpl : page_place g p) by (by apply shape_place).
  destruct (page_place_kind r g p Hr Hpl) as [_ Hb]. rewrite (mirror_used (mirror p)) by (by rewrite mirror_state).
  rewrite (mirror_used p) by done. destruct p. cbn in *. destruct (alias_xex _ (Hb Hx)) as [-> _]. done.
Qed.

Lemma mirror_place r r' g p :
  heap_page r g -> is_xex r = true -> heap_page r' (alias_page g) -> is_xex r' = true -> state p <> Free ->
  page_place g p -> page_place (alias_page g) (mirror p).
Proof.
  intros Hr Hx Hr' Hx' Hs Hp. destruct (page_place_kind r g p Hr Hp) as [Hk Hb]. exists r'. split; [done|].
  rewrite mirror_used by done. cbn. rewrite Hk, (xex_kind r Hx), (xex_kind r' Hx'). split; [done|]. intros _.
  by destruct (alias_xex _ (Hb Hx)).
Qed.

Lemma mirror_shape r g p : heap_page r g -> is_xex r = true -> page_shape g p -> page_shape (alias_page g) (mirror p).
Proof.
  intros Hr Hx Hs. destruct (alias_page_xex r g Hr Hx) as (r' & Hr' & Hx' & _).
  unfold page_shape in *. rewrite mirror_state. destruct (state p) eqn:E.
  - by rewrite mirror_free.
  - destruct Hs as (Hp & H1 & H2 & H3). split; [apply (mirror_place r r'); by rewrite ?E|]. rewrite mirror_used by (by rewrite E). by cbn.
  - destruct Hs as (Hp & H1 & H2). split; [apply (mirror_place r r'); by rewrite ?E|]. destruct (page_place_kind r g p Hr Hp) as [Hk _].
    rewrite mirror_used by (by rewrite E). cbn. split; [|done]. intros Hg. specialize (H1 Hg). rewrite H1 in Hk. cbn in Hk. by rewrite (xex_kind r Hx) in Hk.
Qed.

(** A change of one page, and of its other view. *)
Lemma guest_update s s' r i p :
  guest_ok s -> heap_page r i -> page_shape i p ->
  (forall j, page_at j s' = if decide (j = i) then p else if decide (touches r i j) then mirror p else page_at j s) ->
  (forall f g, maps (physical s') f g = true <-> if decide (touches r i g) then backed_by f p else maps (physical s) f g = true) ->
  (forall f, used f (physical s') = kPhysicalAnonymous ->
     (backed_by f p /\ explicit_physical_mapping p = false) \/
     (used f (physical s) = kPhysicalAnonymous /\ ~ (backed_by f (page_at i s) /\ explicit_physical_mapping (page_at i s) = false))) ->
  (forall f g, backed_by f p -> explicit_physical_mapping p = false -> ~ touches r i g -> backed_by f (page_at g s) ->
     explicit_physical_mapping (page_at g s) = true) ->
  guest_ok s'.
Proof.
  intros Hs Hr Hp Hpage Hmaps Hown Hshare.
  assert (Hx : is_xex r = true -> exists r', heap_page r' (alias_page i) /\ is_xex r' = true /\ alias_page (alias_page i) = i /\ alias_page i <> i)
    by apply alias_page_xex, Hr.
  split.
  - intros g. rewrite Hpage. destruct (decide (g = i)) as [->|Hg]; [done|]. destruct (decide (touches r i g)) as [[?|[Hxe ->]]|_]; [done|by apply (mirror_shape r)|apply Hs].
  - intros f g. rewrite Hmaps, Hpage. destruct (decide (touches r i g)) as [Ht|Ht].
    + destruct (decide (g = i)); [done|]. by rewrite backed_mirror.
    + rewrite decide_False by (intros ->; apply Ht; by left). apply Hs.
  - intros r2 g Hg Hxg. destruct (alias_page_xex r2 g Hg Hxg) as (r3 & Hr3 & Hx3 & Hinv & Hne). rewrite !Hpage.
    destruct (decide (g = i)) as [->|Hgi].
    + rewrite (heap_page_fun r2 r i) in Hxg by done. rewrite decide_False by done. by rewrite decide_True by (right; done).
    + destruct (decide (touches r i g)) as [[?|[Hxr ->]]|Ht]; [done| |].
      * destruct (Hx Hxr) as (r' & Hr' & Hx' & Hinv' & _). rewrite Hinv'. rewrite decide_True by done. symmetry. by apply (mirror_mirror r i).
      * rewrite (decide_False (P := alias_page g = i)), (decide_False (P := touches r i (alias_page g))).
        -- by apply (go_mirror s Hs r2).
        -- intros [E|[Hxr E]]; [apply Ht; right|apply Ht; left].
           ++ rewrite <- E in Hr. rewrite <- Hinv, E. split; [|done]. by rewrite (heap_page_fun r r3 (alias_page g)).
           ++ rewrite <- Hinv, E. by destruct (Hx Hxr) as (? & _ & _ & ? & _).
        -- intros E. apply Ht. right. rewrite <- E in Hr. split; [by rewrite (heap_page_fun r r3 (alias_page g))|by rewrite <- E, Hinv].
  - intros f Hf. destruct (Hown f Hf) as [[Hb He]|[Hold Hnot]].
    + exists i. rewrite Hpage, decide_True by done. done.
    + destruct (go_owner s Hs f Hold) as (g & Hb & He). destruct (decide (touches r i g)) as [Ht|Ht].
      * exfalso. destruct Ht as [->|[Hxr ->]]; [by apply Hnot|]. rewrite (go_mirror s Hs r i Hr Hxr) in Hb, He. apply (proj1 (backed_mirror f _)) in Hb.
        apply Hnot. split; [done|]. unfold mirror in He. by destruct (bool_decide _).
      * exists g. rewrite Hpage, decide_False by (intros ->; apply Ht; by left). by rewrite decide_False.
  - intros f g g' B1 B2 E1 E2.
    assert (Hat : forall h, touches r i h -> backed_by f (page_at h s') -> explicit_physical_mapping (page_at h s') = false ->
      backed_by f p /\ explicit_physical_mapping p = false).
    { intros h Ht. rewrite Hpage. intros Hb He. destruct (decide (h = i)); [done|]. rewrite decide_True in Hb, He by done. apply (proj1 (backed_mirror f p)) in Hb.
      split; [done|]. rewrite mirror_used in He; [done|]. destruct Hb as [-> _]. done. }
    assert (Hun : forall h, ~ touches r i h -> page_at h s' = page_at h s).
    { intros h Ht. rewrite Hpage. rewrite decide_False by (intros ->; apply Ht; by left). by rewrite decide_False. }
    destruct (decide (touches r i g)) as [Tg|Tg], (decide (touches r i g')) as [Tg'|Tg'].
    + destruct Tg as [->|[Hx1 ->]], Tg' as [->|[Hx2 ->]]; [by left| |right|by left].
      * right. split; [|done]. by apply (xex_range r i).
      * pose proof (xex_range r i Hr Hx1) as Hi. destruct (alias_xex i Hi) as [A1 A2]. by rewrite A1.
    + destruct (Hat g Tg B1 E1) as [Q1 Q2]. rewrite Hun in B2, E2 by done. by rewrite (Hshare f g' Q1 Q2 Tg' B2) in E2.
    + destruct (Hat g' Tg' B2 E2) as [Q1 Q2]. rewrite Hun in B1, E1 by done. by rewrite (Hshare f g Q1 Q2 Tg B1) in E1.
    + rewrite !Hun in B1, B2, E1, E2 by done. by apply (go_unshared s Hs f).
Qed.

Lemma xex_of_range r i : heap_page r i -> 0x80000 <= i < 0xA0000 -> is_xex r = true.
Proof.
  intros (_ & Hr & Hh) Hi. destruct (region_cases i r Hr Hh) as [[-> ?]|[[-> ?]|[[-> ?]|[-> ?]]]]; first [lia|done].
Qed.

Lemma unshared_other s r i f g : guest_ok s -> heap_page r i -> backed_by f (page_at i s) -> explicit_physical_mapping (page_at i s) = false ->
  ~ touches r i g -> backed_by f (page_at g s) -> explicit_physical_mapping (page_at g s) = true.
Proof.
  intros Hs Hr Hb He Hn Hbg. destruct (explicit_physical_mapping (page_at g s)) eqn:E; [done|]. exfalso. apply Hn.
  destruct (go_unshared s Hs f i g Hb Hbg He E) as [->|[Hi ->]]; [by left|right]. split; [by apply (xex_of_range r i)|done].
Qed.

(** Only the frames change hands. *)
Lemma guest_frame s s' :
  guest_ok s -> (forall j, page_at j s' = page_at j s) -> (forall f g, maps (physical s') f g = maps (physical s) f g) ->
  (forall f, used f (physical s') = kPhysicalAnonymous -> used f (physical s) = kPhysicalAnonymous) -> guest_ok s'.
Proof.
  intros Hs Hp Hm Hu. split.
  - intros g. rewrite Hp. apply Hs.
  - intros f g. rewrite Hm, Hp. apply Hs.
  - intros r g. rewrite !Hp. apply Hs.
  - intros f Hf. destruct (go_owner s Hs f (Hu f Hf)) as (g & ?). exists g. by rewrite Hp.
  - intros f g g'. rewrite !Hp. apply Hs.
Qed.

(** ** Attaching and detaching frames *)

Lemma lift_some f s ph : f (physical s) = Some ph -> lift_physical f s = Some (with_physical ph s).
Proof. unfold lift_physical. by intros ->. Qed.
Lemma page_at_physical j ph s : page_at j (with_physical ph s) = page_at j s.
Proof. done. Qed.

Lemma bool_decide_touched r i g : bool_decide (touches r i g) = bool_decide (g = i) || (is_xex r && bool_decide (g = alias_page i)).
Proof. apply eq_bool_prop_intro. unfold touches. rewrite orb_True, andb_True, !bool_decide_spec. destruct (is_xex r); naive_solver. Qed.

Lemma mapped_owned s f g : phys_ok s -> maps s f g = true -> frame_ok f /\ used f s <> kPhysicalFree /\ used f s <> kPhysicalRetired.
Proof.
  intros Hs Hm. pose proof (po_bounds _ Hs f g Hm) as [Hf _]. split; [done|].
  assert (Hr : refs f s <> 0). { intros E. apply (proj1 (refs_zero s f Hs)) with g in E. cbn in E. congruence. }
  split; intros E; apply Hr, (po_unmapped _ Hs); auto.
Qed.

(** The references to a fresh frame from a page, which may be cleared, and its other view. *)
Definition clear_frame (zero : bool) (f : Z) (ph : Physical) : Physical :=
  if zero then clear_physical (f * kBasePageSize) kBasePageSize ph else ph.
Definition attach_refs (r : RegionDescriptor) (zero : bool) (f i : Z) (ph : Physical) : option Physical :=
  ph ← add_physical_mapping_ref f i ph;
  let ph := clear_frame zero f ph in
  if is_xex r then add_physical_mapping_ref f (alias_page i) ph else Some ph.

Definition detach_refs (r : RegionDescriptor) (f i : Z) (ph : Physical) : option Physical :=
  ph ← remove_physical_mapping_ref f i ph;
  if is_xex r then remove_physical_mapping_ref f (alias_page i) ph else Some ph.

Lemma attach_refs_spec r zero f i ph :
  phys_ok ph -> heap_page r i -> frame_ok f -> used f ph <> kPhysicalFree -> used f ph <> kPhysicalRetired ->
  (forall g, touches r i g -> maps ph f g = false) ->
  exists ph', attach_refs r zero f i ph = Some ph' /\ phys_ok ph' /\ same_used ph ph' /\ same_metadata ph ph' /\
    forall f' g, maps ph' f' g = maps ph f' g || bool_decide (f' = f /\ touches r i g).
Proof.
  intros Hp Hr Hf Hu1 Hu2 Hno. unfold attach_refs.
  destruct (add_ref_spec f i ph Hp Hf (proj1 Hr) (Hno i (or_introl eq_refl)) Hu1 Hu2) as (ph0 & -> & Hp0 & Hs0 & Hm0 & Hmap0). cbn [mbind option_bind].
  cbv zeta. set (ph1 := clear_frame zero f ph0).
  assert (Hp1 : phys_ok ph1) by (unfold ph1, clear_frame; destruct zero; [by apply clear_physical_ok|done]).
  assert (Hs1 : same_used ph ph1) by (intros p; rewrite <- Hs0; unfold ph1; by destruct zero).
  assert (Hm1 : same_metadata ph ph1) by (intros p; rewrite <- Hm0; unfold ph1; by destruct zero).
  assert (Hmap1 : forall f' g, maps ph1 f' g = maps ph f' g || bool_decide (f' = f /\ g = i)) by (intros f' g; rewrite <- Hmap0; unfold ph1; by destruct zero).
  clearbody ph1.
  destruct (is_xex r) eqn:Hx.
  - destruct (alias_page_xex r i Hr Hx) as (r' & Hr' & _ & _ & Hne).
    destruct (add_ref_spec f (alias_page i) ph1 Hp1 Hf (proj1 Hr')) as (ph2 & -> & Hp2 & Hs2 & Hm2 & Hmap2).
    { rewrite Hmap1, Hno by (by right). cbn. apply bool_decide_false. naive_solver. }
    { by rewrite Hs1. } { by rewrite Hs1. }
    exists ph2. split_and!; try done.
    + intros p. by rewrite Hs2, Hs1.
    + intros p. by rewrite Hm2, Hm1.
    + intros f' g. rewrite Hmap2, Hmap1, <- orb_assoc. f_equal. rewrite <- bool_decide_or. apply bool_decide_ext. unfold touches. rewrite Hx. naive_solver.
  - exists ph1. split_and!; try done. intros f' g. rewrite Hmap1. f_equal. apply bool_decide_ext. unfold touches. rewrite Hx. naive_solver.
Qed.

(** Ownership may have gone from pending to retired. *)
Definition settled (f : Z) (ph ph' : Physical) : Prop :=
  forall p, used p ph' = used p ph \/ (p = f /\ used p ph = kPhysicalAnonymousPendingFree /\ used p ph' = kPhysicalRetired).

Lemma detach_refs_spec r f i ph :
  phys_ok ph -> heap_page r i -> (forall g, touches r i g -> maps ph f g = true) ->
  exists ph', detach_refs r f i ph = Some ph' /\ phys_ok ph' /\ same_metadata ph ph' /\ settled f ph ph' /\
    forall f' g, maps ph' f' g = maps ph f' g && negb (bool_decide (f' = f /\ touches r i g)).
Proof.
  intros Hp Hr Hin. unfold detach_refs.
  destruct (remove_ref_spec f i ph Hp (Hin i (or_introl eq_refl))) as (ph1 & -> & Hp1 & Hm1 & Hmap1 & Hs1). cbn [mbind option_bind].
  destruct (is_xex r) eqn:Hx.
  - destruct (alias_page_xex r i Hr Hx) as (r' & Hr' & _ & _ & Hne).
    destruct (remove_ref_spec f (alias_page i) ph1 Hp1) as (ph2 & -> & Hp2 & Hm2 & Hmap2 & Hs2).
    { rewrite Hmap1, Hin by (by right). cbn. rewrite bool_decide_false; [done|naive_solver]. }
    exists ph2. split_and!; try done.
    + intros p. by rewrite Hm2, Hm1.
    + intros p. destruct (Hs2 p) as [E2|(E1 & E2 & E3)], (Hs1 p) as [E4|(E4 & E5 & E6)]; [left; congruence|right; split_and!; congruence..].
    + intros f' g. rewrite Hmap2, Hmap1, <- andb_assoc. f_equal. rewrite <- negb_orb, <- bool_decide_or. f_equal. apply bool_decide_ext. unfold touches. rewrite Hx. naive_solver.
  - exists ph1. split_and!; try done. intros f' g. rewrite Hmap1. do 2 f_equal. apply bool_decide_ext. unfold touches. rewrite Hx. naive_solver.
Qed.

(** A detached frame, given up by its owner unless the mapping was explicit. *)
Definition detach (r : RegionDescriptor) (f i : Z) (explicit : bool) (ph : Physical) : option Physical :=
  ph ← detach_refs r f i ph;
  if explicit then Some ph else free_physical_page f ph.

Lemma detach_spec r f i explicit ph :
  phys_ok ph -> heap_page r i -> (forall g, touches r i g -> maps ph f g = true) ->
  exists ph', detach r f i explicit ph = Some ph' /\ phys_ok ph' /\ same_metadata ph ph' /\
    (forall f' g, maps ph' f' g = maps ph f' g && negb (bool_decide (f' = f /\ touches r i g))) /\
    (forall p, used p ph' = kPhysicalAnonymous -> used p ph = kPhysicalAnonymous /\ (p = f -> explicit = true)).
Proof.
  intros Hp Hr Hin. unfold detach. destruct (detach_refs_spec r f i ph Hp Hr Hin) as (ph1 & -> & Hp1 & Hm1 & Hs1 & Hmap1). cbn [mbind option_bind].
  destruct explicit.
  - exists ph1. split_and!; try done. intros p Hu. destruct (Hs1 p) as [E|(_ & _ & E)]; [by rewrite E in Hu|congruence].
  - destruct (po_bounds _ Hp f i (Hin i (or_introl eq_refl))) as [Hf _].
    destruct (free_physical_page_spec f ph1 Hp1 Hf) as (ph2 & -> & Hp2 & Hm2 & Hd2 & Hu2). exists ph2. split_and!; try done.
    + intros p. by rewrite Hd2, Hm1.
    + intros f' g. rewrite Hm2. apply Hmap1.
    + intros p. rewrite Hu2. destruct (decide (f = p)) as [<-|Hne].
      * unfold freed. destruct (used f ph1); try done; by destruct (refs f ph1 =? 0).
      * intros Hu. destruct (Hs1 p) as [E|(_ & _ & E)]; [rewrite E in Hu; done|congruence].
Qed.

(** A backed page is mapped from each of its views. *)
Lemma backed_views s r i f : guest_ok s -> heap_page r i -> backed_by f (page_at i s) -> forall g, touches r i g -> maps (physical s) f g = true.
Proof.
  intros Hs Hr Hb g [->|[Hx ->]]; apply (go_backed s Hs); [done|]. rewrite (go_mirror s Hs r i Hr Hx). by apply backed_mirror.
Qed.

Lemma backed_of_physical s g : guest_ok s -> physical_page (page_at g s) <> kInvalidPhysicalPage -> backed_by (physical_page (page_at g s)) (page_at g s).
Proof.
  intros Hs Hne. pose proof (go_shape s Hs g) as H. unfold page_shape in H. destruct (state (page_at g s)) eqn:E.
  - by rewrite H in Hne.
  - tauto.
  - split_and!; [done| |done]. destruct (permanent_guard (page_at g s)) eqn:Eg; [|done]. destruct H as (_ & H & _). rewrite (H eq_refl) in Hne. done.
Qed.

Lemma backed_frame s f g : space_ok s -> backed_by f (page_at g s) -> frame_ok f /\ f <> kInvalidPhysicalPage.
Proof.
  intros [Hp Hg] Hb. apply (go_backed s Hg) in Hb. destruct (po_bounds _ Hp f g Hb) as [Hf _]. split; [done|].
  intros ->. destruct Hf as [_ Hf]. vm_compute in Hf. discriminate Hf.
Qed.

Lemma is_backed_spec s g : space_ok s -> is_backed (page_at g s) = true <-> backed_by (physical_page (page_at g s)) (page_at g s).
Proof.
  intros Hs. unfold is_backed. rewrite andb_true_iff, bool_decide_eq_true, negb_true_iff, Z.eqb_neq. split.
  - intros [_ ?]. by apply backed_of_physical; [apply Hs|].
  - intros Hb. split; [apply Hb|]. by eapply backed_frame.
Qed.

(** ** Steps on one page *)

(** Page [i] and its other view changed, nothing else. *)
Definition paired (r : RegionDescriptor) (i : Z) (p : Page) (s s' : AddressSpace) : Prop :=
  forall j, page_at j s' = if decide (j = i) then p else if decide (touches r i j) then mirror p else page_at j s.

(** [f] does not look at the base page. *)
Definition mirrors (f : Page -> Page) (p : Page) : Prop := f (mirror p) = mirror (f p).

Lemma paired_on r i f s s' :
  guest_ok s -> heap_page r i -> mirrors f (page_at i s) ->
  (forall j, page_at j s' = page_at j (if is_xex r then on_page (alias_page i) f (on_page i f s) else on_page i f s)) ->
  paired r i (f (page_at i s)) s s'.
Proof.
  intros Hs Hr Hf Hp j. rewrite Hp. destruct (is_xex r) eqn:Hx.
  - destruct (alias_page_xex r i Hr Hx) as (_ & _ & _ & _ & Hne). rewrite !page_at_on. destruct (decide (j = alias_page i)) as [->|Hj].
    + rewrite !decide_False by done. rewrite decide_True by (by right). by rewrite (go_mirror s Hs r i Hr Hx).
    + destruct (decide (j = i)); [done|]. rewrite decide_False; [done|]. intros [?|[_ ?]]; done.
  - rewrite page_at_on. destruct (decide (j = i)); [done|]. rewrite decide_False; [done|]. intros [?|[? _]]; [done|congruence].
Qed.

(** Whether a page is in use, and its allocation. *)
Definition skeleton (p : Page) : bool * bool * Z * Z * RegionKind :=
  (bool_decide (state p = Free), permanent_guard p, allocation_base_page p, allocation_page_count p, kind p).

Lemma skeleton_mirror p q : skeleton p = skeleton q -> skeleton (mirror p) = skeleton (mirror q).
Proof.
  unfold skeleton, mirror. intros [= E1 E2 E3 E4 E5]. rewrite E1. destruct (bool_decide (state q = Free)) eqn:E; cbn; rewrite ?E1, ?E; congruence.
Qed.

Lemma paired_skeleton r i p s s' :
  guest_ok s -> heap_page r i -> paired r i p s s' -> skeleton p = skeleton (page_at i s) ->
  forall j, skeleton (page_at j s') = skeleton (page_at j s).
Proof.
  intros Hs Hr Hp Hk j. rewrite Hp. destruct (decide (j = i)) as [->|]; [done|].
  destruct (decide (touches r i j)) as [[?|[Hx ->]]|]; [done| |done]. rewrite (go_mirror s Hs r i Hr Hx). by apply skeleton_mirror.
Qed.

(** What a step on the pages of a range leaves alone. *)
Record stepped (r : RegionDescriptor) (first count : Z) (s s' : AddressSpace) : Prop := mkStepped {
  st_skeleton : forall j, skeleton (page_at j s') = skeleton (page_at j s);
  st_pages : forall j, (forall k, first <= k < first + count -> ~ touches r k j) -> page_at j s' = page_at j s;
  st_metadata : same_metadata (physical s) (physical s');
  st_hot : hot_pages_ s' = hot_pages_ s;
  st_mmio : mmio_ranges_ s' = mmio_ranges_ s
}.

Lemma stepped_refl r first count s : stepped r first count s s.
Proof. by split. Qed.
Lemma stepped_trans r first count s1 s2 s3 : stepped r first count s1 s2 -> stepped r first count s2 s3 -> stepped r first count s1 s3.
Proof.
  intros [A1 A2 A3 A4 A5] [B1 B2 B3 B4 B5]. split; [..|congruence|congruence].
  - intros j. by rewrite B1, A1.
  - intros j Hj. by rewrite B2, A2.
  - intros p. by rewrite B3, A3.
Qed.
Lemma stepped_widen r first count first' count' s s' :
  first' <= first -> first + count <= first' + count' -> stepped r first count s s' -> stepped r first' count' s s'.
Proof. intros H1 H2 [A1 A2 A3 A4 A5]. split; try done. intros j Hj. apply A2. intros k Hk. apply Hj. lia. Qed.

Lemma paired_stepped r i p s s' first count :
  guest_ok s -> heap_page r i -> paired r i p s s' -> skeleton p = skeleton (page_at i s) -> first <= i < first + count ->
  same_metadata (physical s) (physical s') -> hot_pages_ s' = hot_pages_ s -> mmio_ranges_ s' = mmio_ranges_ s ->
  stepped r first count s s'.
Proof.
  intros Hs Hr Hp Hk Hi Hm Hh Hq. split; try done.
  - by apply (paired_skeleton r i p).
  - intros j Hj. rewrite Hp. specialize (Hj i Hi). rewrite !decide_False; [done..|]. intros ->. apply Hj. by left.
Qed.

(** *** New rights for a committed page *)

Definition protect_pair (r : RegionDescriptor) (protect : Protect) (i : Z) (s : AddressSpace) : AddressSpace :=
  let s := on_page i (set_protect protect) s in
  if is_xex r then on_page (alias_page i) (set_protect protect) s else s.

Lemma mirrors_protect v p : mirrors (set_protect v) p.
Proof. unfold mirrors, mirror. cbn. by destruct (bool_decide _). Qed.

Lemma protect_pair_spec r protect i s first count :
  space_ok s -> heap_page r i -> state (page_at i s) = Committed -> permanent_guard (page_at i s) = false ->
  first <= i < first + count ->
  let s' := protect_pair r protect i s in
  space_ok s' /\ stepped r first count s s' /\ paired r i (set_protect protect (page_at i s)) s s' /\ physical s' = physical s.
Proof.
  intros [Hp Hg] Hr Hc Hguard Hi s'. assert (Hph : physical s' = physical s) by (unfold s', protect_pair; by destruct (is_xex r)).
  assert (Hpair : paired r i (set_protect protect (page_at i s)) s s').
  { apply paired_on; [done..|apply mirrors_protect|]. intros j. unfold s', protect_pair. by destruct (is_xex r). }
  split_and!; try done.
  - split; [by rewrite Hph|]. apply (guest_update s s' r i (set_protect protect (page_at i s))); try done.
    + pose proof (go_shape s Hg i) as Hsh. unfold page_shape in *. cbn. rewrite Hc in *. destruct Hsh as (Hpl & Hgd & Hex).
      split; [done|]. split; [|done]. cbn. congruence.
    + intros f g. rewrite Hph. destruct (decide (touches r i g)) as [[->|[Hx ->]]|]; [apply (go_backed s Hg)| |done].
      rewrite (go_backed s Hg), (go_mirror s Hg r i Hr Hx). by rewrite backed_mirror.
    + intros f. rewrite Hph. intros Hu. destruct (go_owner s Hg f Hu) as (g & Hb & He).
      destruct (decide (backed_by f (page_at i s) /\ explicit_physical_mapping (page_at i s) = false)) as [Hd|Hd]; [left|by right].
      exact Hd.
    + intros f g Hb He. by apply (unshared_other s r i f g Hg Hr).
  - apply (paired_stepped r i (set_protect protect (page_at i s))); try done; [by rewrite Hph|..]; unfold s', protect_pair; by destruct (is_xex r).
Qed.

(** *** Detaching *)

(** The page [p] that replaces a backed page has no frame. *)
Lemma detach_page_ok r i p explicit s s' ph :
  space_ok s -> heap_page r i -> backed_by (physical_page (page_at i s)) (page_at i s) ->
  explicit_physical_mapping (page_at i s) = explicit -> page_shape i p -> state p <> Committed ->
  detach r (physical_page (page_at i s)) i explicit (physical s) = Some ph ->
  physical s' = ph -> paired r i p s s' -> space_ok s'.
Proof.
  intros [Hp Hg] Hr Hb He Hsh Hnc Hd Hph Hpair. set (f := physical_page (page_at i s)) in *.
  destruct (detach_spec r f i explicit (physical s) Hp Hr (backed_views s r i f Hg Hr Hb)) as (ph' & E & Hp' & Hm' & Hmap & Hown).
  rewrite Hd in E. injection E as <-. split; [by rewrite Hph|].
  apply (guest_update s s' r i p); try done.
  - intros f' g. rewrite Hph, Hmap, andb_true_iff, negb_true_iff, bool_decide_eq_false.
    destruct (decide (touches r i g)) as [Ht|Ht].
    + split; [|by intros [? _]]. intros [Hm Hne]. exfalso. apply Hne. split; [|done].
      apply (go_backed s Hg) in Hm. destruct Ht as [->|[Hx ->]]; [by destruct Hm as (_ & _ & <-)|].
      rewrite (go_mirror s Hg r i Hr Hx), backed_mirror in Hm. by destruct Hm as (_ & _ & <-).
    + split; [by intros [? _]|]. intros ?. split; [done|]. by intros [_ ?].
  - intros f' Hu. rewrite Hph in Hu. destruct (Hown f' Hu) as [Hu' Hex]. right. split; [done|]. intros [(_ & _ & Ef) Hfalse].
    rewrite Hex in He by (by rewrite <- Ef). congruence.
  - intros f' g [Hc _]. done.
Qed.

Lemma stop_executing_frame i s :
  pages_ (stop_executing i s) = pages_ s /\ hot_pages_ (stop_executing i s) = hot_pages_ s /\ mmio_ranges_ (stop_executing i s) = mmio_ranges_ s /\
  (forall p, used p (physical (stop_executing i s)) = used p (physical s)) /\
  physical_reverse_mappings_ (physical (stop_executing i s)) = physical_reverse_mappings_ (physical s) /\
  (forall p, metadata p (physical (stop_executing i s)) = metadata p (physical s)).
Proof.
  unfold stop_executing, advance_executable_generation. destruct (has _ _); [|done]. by destruct (_ <? _).
Qed.

Lemma stop_executing_ok i s : space_ok s -> space_ok (stop_executing i s).
Proof.
  intros [Hp Hg]. destruct (stop_executing_frame i s) as (E1 & E2 & E3 & E4 & E5 & E6). split.
  - unfold stop_executing. destruct (has _ _); [by apply advance_ok|done].
  - apply (guest_frame s); [done|intros j; unfold page_at; by rewrite E1|intros f g; by rewrite E5|intros f; by rewrite E4].
Qed.

Lemma page_at_stop j i s : page_at j (stop_executing i s) = page_at j s.
Proof. unfold page_at. by destruct (stop_executing_frame i s) as (-> & _). Qed.

(** The references, and then the page of the other view. *)
Lemma detach_steps {B} r f i g s ph (rest : AddressSpace -> option B) :
  detach_refs r f i (physical s) = Some ph ->
  (s ← lift_physical (remove_physical_mapping_ref f i) s; s ← drop_alias r f i g s; rest s) =
  rest (with_physical ph (if is_xex r then on_page (alias_page i) g s else s)).
Proof.
  unfold detach_refs, lift_physical, drop_alias, lift_physical. destruct (remove_physical_mapping_ref f i (physical s)) as [ph1|]; [|done].
  cbn [mbind option_bind]. destruct (is_xex r).
  - cbn [physical with_physical]. intros E. rewrite E. done.
  - by intros [= ->].
Qed.

Lemma give_up_steps {B} f (explicit : bool) s ph (rest : AddressSpace -> option B) :
  (if explicit then Some (physical s) else free_physical_page f (physical s)) = Some ph ->
  (s ← (if explicit then Some s else lift_physical (free_physical_page f) s); rest s) = rest (with_physical ph s).
Proof.
  destruct explicit; [intros [= <-]; by destruct s|]. intros E. by rewrite (lift_some _ _ _ E).
Qed.

Lemma detach_split r f i explicit ph ph' :
  detach r f i explicit ph = Some ph' ->
  exists ph1, detach_refs r f i ph = Some ph1 /\ (if explicit then Some ph1 else free_physical_page f ph1) = Some ph'.
Proof. unfold detach. destruct (detach_refs r f i ph) as [ph1|]; [|done]. cbn. intros E. by exists ph1. Qed.

(** A page in use is reserved, or it is backed. *)
Lemma used_cases s i : space_ok s -> state (page_at i s) <> Free -> permanent_guard (page_at i s) = false ->
  (is_backed (page_at i s) = false /\ state (page_at i s) = Reserved) \/
  (is_backed (page_at i s) = true /\ backed_by (physical_page (page_at i s)) (page_at i s)).
Proof.
  intros Hs Hf Hg. destruct (is_backed (page_at i s)) eqn:Eb; [right; split; [done|by apply is_backed_spec]|left]. split; [done|].
  destruct (state (page_at i s)) eqn:Est; try done. exfalso. apply not_true_iff_false in Eb. apply Eb, is_backed_spec; done.
Qed.

Lemma place_of s i : space_ok s -> state (page_at i s) <> Free -> page_place i (page_at i s).
Proof. intros [_ Hg]. apply shape_place, (go_shape s Hg). Qed.

Lemma xex_not_explicit s r i : space_ok s -> heap_page r i -> is_xex r = true -> explicit_physical_mapping (page_at i s) = false.
Proof.
  intros Hs Hr Hx. pose proof (go_shape s (so_guest s Hs) i) as Hsh. destruct (decide (state (page_at i s) = Free)) as [E|E].
  - unfold page_shape in Hsh. rewrite E in Hsh. by rewrite Hsh.
  - destruct (page_place_kind r i _ Hr (place_of s i Hs E)) as [Hk _]. unfold page_shape in Hsh.
    destruct (state (page_at i s)); [done|tauto|]. apply Hsh. by rewrite Hk, xex_kind.
Qed.

(** A page after its frame went. *)
Lemma reserved_shape s i (f : Page -> Page) :
  space_ok s -> state (page_at i s) <> Free -> permanent_guard (page_at i s) = false -> 
  state (f (page_at i s)) = Reserved -> physical_page (f (page_at i s)) = kInvalidPhysicalPage ->
  explicit_physical_mapping (f (page_at i s)) = false -> permanent_guard (f (page_at i s)) = false ->
  kind (f (page_at i s)) = kind (page_at i s) -> allocation_base_page (f (page_at i s)) = allocation_base_page (page_at i s) ->
  page_shape i (f (page_at i s)).
Proof.
  intros Hs Hf Hg E1 E2 E3 E4 E5 E6. unfold page_shape. rewrite E1. split; [|done].
  destruct (place_of s i Hs Hf) as (r & Hr & Hk & Hb). exists r. by rewrite E5, E6.
Qed.

Lemma decommit_page_spec r i s first count :
  space_ok s -> heap_page r i -> state (page_at i s) <> Free -> permanent_guard (page_at i s) = false -> first <= i < first + count ->
  exists s', decommit_page r i s = Some s' /\ space_ok s' /\ stepped r first count s s' /\ state (page_at i s') = Reserved.
Proof.
  intros Hs Hr Hf Hguard Hi. unfold decommit_page. destruct (used_cases s i Hs Hf Hguard) as [[-> Hst]|[-> Hb]].
  - eexists. split; [done|].
    assert (Hpg : forall j, page_at j (on_page i (set_state Reserved) s) = page_at j s).
    { intros j. rewrite page_at_on. destruct (decide (j = i)) as [->|]; [|done]. rewrite <- Hst at 1. by destruct (page_at i s). }
    split_and!; [split; [apply Hs|by apply (guest_frame s); [apply Hs|..]]| |by rewrite Hpg].
    split; try done; intros j; intros; by rewrite Hpg.
  - set (q := page_at i s) in *. set (f := physical_page q) in *.
    pose proof (stop_executing_ok i s Hs) as Hs1. set (s1 := stop_executing i s) in *.
    destruct (stop_executing_frame i s) as (Ep & Eh & Em & _ & _ & Ed). fold s1 in Ep, Eh, Em, Ed.
    assert (Hq : page_at i s1 = q) by apply page_at_stop.
    destruct (detach_spec r f i (explicit_physical_mapping q) (physical s1) (so_physical s1 Hs1) Hr) as (ph & E & _ & Hd & _).
    { apply backed_views; [apply Hs1|done|by rewrite Hq]. }
    destruct (detach_split _ _ _ _ _ _ E) as (ph1 & E1 & E2).
    rewrite (detach_steps _ _ _ _ _ _ _ E1). rewrite (give_up_steps f _ _ ph) by exact E2.
    eexists. split; [done|]. set (s' := on_page i _ _).
    assert (Hpair : paired r i ((set_state Reserved ∘ set_explicit false ∘ set_physical kInvalidPhysicalPage) q) s1 s').
    { intros j. unfold s'. rewrite page_at_on. destruct (is_xex r) eqn:Hx.
      - destruct (alias_page_xex r i Hr Hx) as (_ & _ & _ & _ & Hne).
        rewrite !page_at_physical, !page_at_on, (decide_False (P := i = alias_page i)) by done. rewrite Hq.
        destruct (decide (j = i)) as [->|Hj]; [done|]. destruct (decide (j = alias_page i)) as [->|Hja].
        + rewrite decide_True by (by right). rewrite (go_mirror s1 (so_guest s1 Hs1) r i Hr Hx), Hq.
          rewrite !mirror_used by done. pose proof (xex_not_explicit s r i Hs Hr Hx) as Hex. fold q in Hex. destruct q. cbn in *. by rewrite Hex.
        + rewrite decide_False; [done|]. intros [?|[_ ?]]; done.
      - rewrite !page_at_physical, Hq. destruct (decide (j = i)) as [->|Hj]; [done|]. rewrite decide_False; [done|]. intros [?|[? _]]; [done|congruence]. }
    assert (Hskel : skeleton ((set_state Reserved ∘ set_explicit false ∘ set_physical kInvalidPhysicalPage) q) = skeleton (page_at i s1)).
    { rewrite Hq. unfold skeleton. cbn. by rewrite (bool_decide_false (state q = Free)). }
    assert (Hph : physical s' = ph) by (unfold s'; by destruct (is_xex r)).
    split_and!.
    + apply (detach_page_ok r i ((set_state Reserved ∘ set_explicit false ∘ set_physical kInvalidPhysicalPage) q)
        (explicit_physical_mapping q) s1 s' ph); rewrite ?Hq; try done.
      apply (reserved_shape s i (set_state Reserved ∘ set_explicit false ∘ set_physical kInvalidPhysicalPage)); done.
    + assert (Hst : stepped r first count s1 s').
      { eapply paired_stepped; [apply Hs1|done|exact Hpair|done|done|by rewrite Hph|..]; unfold s'; by destruct (is_xex r). }
      eapply stepped_trans; [|exact Hst]. split; try done; unfold s1; intros j; intros; by rewrite page_at_stop.
    + rewrite Hpair, decide_True by done. done.
Qed.

(** The other views of a region are in another region. *)
Lemma alias_other r i k : heap_page r i -> heap_page r k -> is_xex r = true -> k <> alias_page i.
Proof.
  intros Hi Hk Hx ->. pose proof (xex_range r i Hi Hx) as Hr. pose proof (alias_page_spec i Hr) as Ha.
  destruct Hi as (_ & Ei & _), Hk as (_ & Ek & _). destruct (Z.ltb_spec i 0x90000).
  - rewrite region_xex64 in Ei by lia. rewrite region_xex4 in Ek by lia. rewrite <- Ek in Ei. vm_compute in Ei. discriminate Ei.
  - rewrite region_xex4 in Ei by lia. rewrite region_xex64 in Ek by lia. rewrite <- Ek in Ei. vm_compute in Ei. discriminate Ei.
Qed.

Lemma not_touched r i k : heap_page r i -> heap_page r k -> k <> i -> ~ touches r i k.
Proof. intros Hi Hk Hne [?|[Hx E]]; [done|]. by apply (alias_other r i k) in E. Qed.

Lemma new_page_shape i : page_shape i new_page.
Proof. done. Qed.

Lemma release_page_spec r i s :
  space_ok s -> heap_page r i -> state (page_at i s) <> Free -> permanent_guard (page_at i s) = false ->
  exists s', release_page r i s = Some s' /\ space_ok s' /\ paired r i new_page s s' /\ same_metadata (physical s) (physical s') /\
    hot_pages_ s' = hot_pages_ s /\ mmio_ranges_ s' = mmio_ranges_ s.
Proof.
  intros Hs Hr Hf Hguard. unfold release_page.
  assert (Hpr : forall s', (forall j, page_at j s' = page_at j (if is_xex r then set_page i new_page (set_page (alias_page i) new_page s) else set_page i new_page s)) ->
    paired r i new_page s s').
  { intros s' Hs' j. rewrite Hs'. destruct (is_xex r) eqn:Hx.
    - rewrite !page_at_set. destruct (decide (j = i)); [done|]. destruct (decide (j = alias_page i)) as [->|Hja].
      + by rewrite decide_True by (by right).
      + rewrite decide_False; [done|]. intros [?|[_ ?]]; done.
    - rewrite page_at_set. destruct (decide (j = i)); [done|]. rewrite decide_False; [done|]. intros [?|[? _]]; [done|congruence]. }
  destruct (used_cases s i Hs Hf Hguard) as [[-> Hst]|[-> Hb]].
  - replace (if is_xex r then Some (set_page (alias_page i) new_page s) else Some s) with
      (Some (if is_xex r then set_page (alias_page i) new_page s else s)) by (by destruct (is_xex r)).
    cbn [mbind option_bind]. eexists. split; [done|]. set (s' := set_page i new_page _).
    assert (Hpair : paired r i new_page s s') by (apply Hpr; intros j; unfold s'; by destruct (is_xex r)).
    assert (Hph : physical s' = physical s) by (unfold s'; by destruct (is_xex r)).
    split_and!; try done; try (by rewrite Hph); try (unfold s'; by destruct (is_xex r)).
    destruct Hs as [Hp Hg]. split; [by rewrite Hph|]. apply (guest_update s s' r i new_page); try done.
    + intros f g. rewrite Hph. destruct (decide (touches r i g)) as [Ht|]; [|done]. rewrite (go_backed s Hg).
      split; [|by intros [? _]]. intros [Hc _]. exfalso. destruct Ht as [->|[Hx ->]]; [by rewrite Hst in Hc|].
      rewrite (go_mirror s Hg r i Hr Hx), mirror_state, Hst in Hc. done.
    + intros f. rewrite Hph. intros Hu. right. split; [done|]. intros [[Hc _] _]. by rewrite Hst in Hc.
    + intros f g [Hc _]. done.
  - set (q := page_at i s) in *. set (f := physical_page q) in *.
    pose proof (stop_executing_ok i s Hs) as Hs1. set (s1 := stop_executing i s) in *.
    destruct (stop_executing_frame i s) as (Ep & Eh & Em & _ & _ & Ed). fold s1 in Ep, Eh, Em, Ed.
    assert (Hq : page_at i s1 = q) by apply page_at_stop.
    destruct (detach_spec r f i (explicit_physical_mapping q) (physical s1) (so_physical s1 Hs1) Hr) as (ph & E & _ & Hd & _).
    { apply backed_views; [apply Hs1|done|by rewrite Hq]. }
    destruct (detach_split _ _ _ _ _ _ E) as (ph1 & E1 & E2).
    rewrite (detach_steps r f i (λ _, new_page) s1 ph1 (λ s, if explicit_physical_mapping q then Some s else lift_physical (free_physical_page f) s) E1).
    pose proof (give_up_steps f (explicit_physical_mapping q)
      (with_physical ph1 (if is_xex r then on_page (alias_page i) (λ _, new_page) s1 else s1)) ph Some E2) as Eg.
    assert (Hbind : forall A (o : option A), (x ← o; Some x) = o) by (intros A [?|]; done). rewrite Hbind in Eg. rewrite Eg. cbn [mbind option_bind].
    eexists. split; [done|]. set (s' := set_page i new_page _).
    assert (Hph : physical s' = ph) by done.
    assert (Hpair1 : paired r i new_page s s').
    { apply Hpr. intros j. unfold s'. rewrite page_at_set. destruct (is_xex r); rewrite ?page_at_physical, ?page_at_set, ?page_at_on.
      - destruct (decide (j = i)); [done|]. destruct (decide (j = alias_page i)); [done|]. apply page_at_stop.
      - destruct (decide (j = i)); [done|]. apply page_at_stop. }
    assert (Hpair : paired r i new_page s1 s').
    { intros j. rewrite Hpair1. destruct (decide (j = i)); [done|]. destruct (decide (touches r i j)); [done|]. symmetry. apply page_at_stop. }
    split_and!; try done.
    + apply (detach_page_ok r i new_page (explicit_physical_mapping q) s1 s' ph); rewrite ?Hq; done.
    + rewrite Hph. intros p. by rewrite Hd, Ed.
    + unfold s'. rewrite <- Eh. by destruct (is_xex r).
    + unfold s'. rewrite <- Em. by destruct (is_xex r).
Qed.

(** *** Rolling back *)

(** The frames in [attached] are not mapped explicitly. *)
Definition attached_ok (attached : list Z) (s : AddressSpace) : Prop :=
  forall g f, f ∈ attached -> backed_by f (page_at g s) -> explicit_physical_mapping (page_at g s) = false.

Lemma rollback_page_spec r attached i s first count :
  space_ok s -> heap_page r i -> attached_ok attached s -> first <= i < first + count ->
  exists s', rollback_page r attached i s = Some s' /\ space_ok s' /\ attached_ok attached s' /\ stepped r first count s s'.
Proof.
  intros Hs Hr Hatt Hi. unfold rollback_page. set (q := page_at i s). set (f := physical_page q).
  destruct (Z.eqb_spec f kInvalidPhysicalPage) as [E|E]; cbn [orb]; [exists s; split_and!; [done..|apply stepped_refl]|].
  destruct (bool_decide_reflect (f ∈ attached)) as [Hin|]; cbn [negb]; [|exists s; split_and!; [done..|apply stepped_refl]].
  assert (Hb : backed_by f q) by (apply backed_of_physical; [apply Hs|done]).
  assert (Hex : explicit_physical_mapping q = false) by (by apply (Hatt i f)).
  destruct (detach_spec r f i false (physical s) (so_physical s Hs) Hr) as (ph & Ed & _ & Hd & _).
  { apply backed_views; [apply Hs|done|done]. }
  destruct (detach_split _ _ _ _ _ _ Ed) as (ph1 & E1 & E2). cbv iota in E2.
  set (back := set_state Reserved ∘ set_physical kInvalidPhysicalPage).
  pose proof (detach_steps r f i back s ph1 (λ s, lift_physical (free_physical_page f) (on_page i back s)) E1) as H. cbv beta in H.
  set (s2 := if is_xex r then _ else _) in H. rewrite (lift_some _ (on_page i back (with_physical ph1 s2)) ph E2) in H.
  set (s' := with_physical ph _) in H. exists s'. split; [exact H|].
  assert (Hpair : paired r i (back q) s s').
  { apply paired_on; [apply Hs|done| |].
    - unfold mirrors, mirror, back. cbn. destruct Hb as (Hc & _). fold q. by rewrite Hc.
    - intros j. unfold s'. rewrite page_at_physical, page_at_on. unfold s2. destruct (is_xex r) eqn:Hx.
      + destruct (alias_page_xex r i Hr Hx) as (_ & _ & _ & _ & Hne). rewrite !page_at_physical, !page_at_on.
        rewrite (decide_False (P := i = alias_page i)), (decide_False (P := alias_page i = i)) by done.
        destruct (decide (j = i)) as [->|]; [by rewrite decide_False|]. by destruct (decide (j = alias_page i)).
      + rewrite page_at_on. by destruct (decide (j = i)). }
  assert (Hsk : skeleton (back q) = skeleton (page_at i s)).
  { fold q. unfold skeleton, back. cbn. destruct Hb as (Hc & _). by rewrite Hc. }
  assert (Hphys : physical s' = ph) by done. destruct Hb as (Hc & Hg & Hf).
  split_and!.
  - apply (detach_page_ok r i (back q) false s s' ph); try done.
    apply (reserved_shape s i back); try done; fold q; by rewrite ?Hc.
  - intros g f' Hin' Hbk. rewrite Hpair in Hbk |- *. destruct (decide (g = i)) as [->|]; [by destruct Hbk|].
    destruct (decide (touches r i g)); [|by apply (Hatt g f')]. apply (proj1 (backed_mirror _ _)) in Hbk. by destruct Hbk.
  - eapply paired_stepped; [apply Hs|done|exact Hpair|done|done|by rewrite Hphys|..]; unfold s', s2; by destruct (is_xex r).
Qed.

(** *** Attaching *)

Definition committed_page (protect : Protect) (f : Z) : Page -> Page := set_protect protect ∘ set_state Committed ∘ set_physical f.

Lemma attach_page_steps r protect zero f i s ph :
  attach_refs r zero f i (physical s) = Some ph ->
  exists s', attach_page r protect zero f i s = Some s' /\ physical s' = ph /\ hot_pages_ s' = hot_pages_ s /\ mmio_ranges_ s' = mmio_ranges_ s /\
    forall j, page_at j s' = page_at j (if is_xex r then on_page (alias_page i) (committed_page protect f) (on_page i (committed_page protect f) s)
                                        else on_page i (committed_page protect f) s).
Proof.
  unfold attach_refs, attach_page. intros E. fold (committed_page protect f).
  destruct (add_physical_mapping_ref f i (physical s)) as [ph1|] eqn:E1; [|done]. cbn [mbind option_bind] in E.
  rewrite (lift_some _ (on_page i (committed_page protect f) s) ph1) by exact E1. cbn [mbind option_bind].
  unfold clear_frame in E. destruct (is_xex r).
  - cbv zeta in E |- *. rewrite (lift_some _ _ ph) by (by destruct zero). eexists. split; [done|]. by destruct zero.
  - injection E as <-. eexists. split; [done|]. by destruct zero.
Qed.

Lemma mirrors_committed protect f p : state p = Reserved -> mirrors (committed_page protect f) p.
Proof. intros E. unfold mirrors, mirror. cbn. by rewrite E. Qed.

Lemma commit_new_page r protect zero attached i s first count :
  space_ok s -> heap_page r i -> state (page_at i s) = Reserved -> attached_ok attached s -> first <= i < first + count ->
  exists f ph, allocate_physical_page false (physical s) = Some (f, ph) /\
    match f with
    | None => space_ok (with_physical ph s) /\ attached_ok attached (with_physical ph s) /\ stepped r first count s (with_physical ph s) /\ exhausted ph
    | Some f => exists s', attach_page r protect zero f i (with_physical ph s) = Some s' /\ space_ok s' /\
        attached_ok (f :: attached) s' /\ stepped r first count s s' /\
        paired r i (committed_page protect f (page_at i s)) s s'
    end.
Proof.
  intros [Hp Hg] Hr Hst Hatt Hi. destruct (allocate_physical_page_spec false (physical s) Hp) as (f & ph & E & Hph & Hm & Hd & Hf).
  exists f, ph. split; [done|]. destruct f as [f|].
  - destruct Hf as (Hfr & Hold & Hanon & Hrefs & Hother).
    assert (Hnone : forall g, maps (physical s) f g = false) by (by apply refs_zero).
    destruct (attach_refs_spec r zero f i ph Hph Hr Hfr) as (ph2 & E2 & Hp2 & Hu2 & Hd2 & Hmap2); [by rewrite Hanon..|intros g _; by rewrite Hm|].
    destruct (attach_page_steps r protect zero f i (with_physical ph s) ph2 E2) as (s' & Es & Hphys & Hhot & Hmmio & Hpages).
    exists s'. split; [done|].
    assert (Hpair : paired r i (committed_page protect f (page_at i s)) s s').
    { apply paired_on; [done|done|by apply mirrors_committed|]. intros j. rewrite Hpages. by destruct (is_xex r). }
    assert (Hspace : space_ok s').
    { split; [by rewrite Hphys|]. apply (guest_update s s' r i (committed_page protect f (page_at i s))); try done.
      - pose proof (go_shape s Hg i) as Hsh. unfold page_shape in *. rewrite Hst in Hsh. destruct Hsh as (Hpl & _ & He & Hgd).
        cbn. split; [done|]. split; [by rewrite Hgd|]. by rewrite He.
      - intros f' g. rewrite Hphys, Hmap2, Hm, orb_true_iff, bool_decide_eq_true.
        pose proof (go_shape s Hg i) as Hsh. unfold page_shape in Hsh. rewrite Hst in Hsh. destruct Hsh as (_ & _ & _ & Hgd).
        destruct (decide (touches r i g)) as [Ht|Ht]; [|tauto]. unfold backed_by. cbn. rewrite Hgd. split.
        + intros [Hmg|[-> _]]; [|done]. exfalso. apply (go_backed s Hg) in Hmg. destruct Ht as [->|[Hx ->]].
          * destruct Hmg as [Hc _]. by rewrite Hst in Hc.
          * rewrite (go_mirror s Hg r i Hr Hx) in Hmg. destruct Hmg as [Hc _]. by rewrite mirror_state, Hst in Hc.
        + intros (_ & _ & ->). by right.
      - intros f' Hu. rewrite Hphys, Hu2 in Hu. destruct (decide (f' = f)) as [->|Hne].
        + left. pose proof (go_shape s Hg i) as Hsh. unfold page_shape in Hsh. rewrite Hst in Hsh. destruct Hsh as (_ & _ & He & Hgd). done.
        + right. destruct (Hother f' Hne) as [Eu|[_ Eu]]; [|congruence]. rewrite Eu in Hu. split; [done|]. intros [[Hc _] _]. by rewrite Hst in Hc.
      - intros f' g (_ & _ & <-) _ _ Hbg. apply (go_backed s Hg) in Hbg. cbn in Hbg. by rewrite Hnone in Hbg. }
    split_and!; try done.
    + intros g f' Hin Hb. assert (Hb' := Hb). rewrite Hpair in Hb' |- *.
      pose proof (go_shape s Hg i) as Hsh. unfold page_shape in Hsh. rewrite Hst in Hsh. destruct Hsh as (_ & _ & He & _).
      destruct (decide (g = i)) as [->|]; [done|]. destruct (decide (touches r i g)) as [Ht|Ht].
      * rewrite mirror_used by done. done.
      * apply elem_of_cons in Hin as [->|Hin]; [|by apply (Hatt g f')].
        exfalso. apply (go_backed s Hg) in Hb'. by rewrite Hnone in Hb'.
    + eapply paired_stepped; [done|done|exact Hpair| |done| |done|done].
      * unfold skeleton. cbn. by rewrite Hst.
      * intros p. by rewrite Hphys, Hd2, Hd.
  - destruct Hf as ((_ & _ & Hu) & Hx). split_and!.
    + split; [done|]. apply (guest_frame s); try done; [intros f g; cbn; by rewrite Hm|].
      intros f Hf. cbn in Hf. destruct (Hu f) as [E'|[_ E']]; [by rewrite E' in Hf|congruence].
    + done.
    + by split.
    + done.
Qed.

(** ** Publication *)

(** Only hot entries and generations change. *)
Definition published (s s' : AddressSpace) : Prop :=
  pages_ s' = pages_ s /\ mmio_ranges_ s' = mmio_ranges_ s /\ exists m, physical s' = set_generations m (physical s).

Lemma set_generations_id ph : set_generations (executable_page_generations_ ph) ph = ph.
Proof. by destruct ph. Qed.
Lemma published_refl s : published s s.
Proof. split_and!; [done..|]. exists (executable_page_generations_ (physical s)). by rewrite set_generations_id. Qed.
Lemma published_trans s1 s2 s3 : published s1 s2 -> published s2 s3 -> published s1 s3.
Proof.
  intros (E1 & E2 & m & E3) (E4 & E5 & m' & E6). split_and!; [congruence..|]. exists m'. by rewrite E6, E3.
Qed.

Lemma publish_hot_entry_published page entry s : published s (publish_hot_entry page entry s).
Proof.
  unfold publish_hot_entry. destruct (_ <=? _); [apply published_refl|]. split_and!; [done..|]. cbn.
  destruct (_ && _ && _); [by eexists|]. exists (executable_page_generations_ (physical s)). by rewrite set_generations_id.
Qed.
Lemma publish_hot_page_published page s : published s (publish_hot_page page s).
Proof. unfold publish_hot_page. destruct (_ <=? _); [apply published_refl|apply publish_hot_entry_published]. Qed.
Lemma publish_pages_published l s : published s (publish_pages l s).
Proof.
  unfold publish_pages. apply (foldl_inv _ (published s)); [|apply published_refl].
  intros page s' _ H. eapply published_trans; [exact H|apply publish_hot_page_published].
Qed.
Lemma publish_hot_range_published base size s : published s (publish_hot_range base size s).
Proof. unfold publish_hot_range. destruct (size =? 0); [apply published_refl|apply publish_pages_published]. Qed.
Lemma publish_both_published r base size s : published s (publish_both r base size s).
Proof.
  unfold publish_both. destruct (is_xex r); [|apply publish_hot_range_published].
  eapply published_trans; apply publish_hot_range_published.
Qed.
Lemma publish_alias_published address size s : published s (publish_physical_alias_range address size s).
Proof. unfold publish_physical_alias_range. destruct (_ || _); [apply published_refl|apply publish_pages_published]. Qed.

Lemma published_page s s' j : published s s' -> page_at j s' = page_at j s.
Proof. intros (E & _). unfold page_at. by rewrite E. Qed.

Lemma published_ok s s' : published s s' -> space_ok s -> space_ok s'.
Proof.
  intros Hp [Hs Hg]. pose proof (λ j, published_page s s' j Hp) as Hpg. destruct Hp as (_ & _ & m & E).
  split; [rewrite E; by apply set_generations_ok|]. apply (guest_frame s); [done|done|intros f g; by rewrite E|intros f; by rewrite E].
Qed.

(** ** Committing *)

Lemma rollback_page_frees r attached i s s' p :
  rollback_page r attached i s = Some s' -> used p (physical s') = kPhysicalFree -> used p (physical s) = kPhysicalFree.
Proof.
  unfold rollback_page. destruct (_ || _); [by intros [= <-]|].
  assert (Hlift : forall f s1 s2, (forall ph ph', f ph = Some ph' -> used p ph' = kPhysicalFree -> used p ph = kPhysicalFree) ->
    lift_physical f s1 = Some s2 -> used p (physical s2) = kPhysicalFree -> used p (physical s1) = kPhysicalFree).
  { intros f s1 s2 Hf. unfold lift_physical. destruct (f (physical s1)) as [ph|] eqn:E; cbn [mbind option_bind]; [|done]. intros [= <-]. by apply Hf. }
  set (f := physical_page (page_at i s)).
  pose proof (λ g s1 s2, Hlift _ s1 s2 (λ ph ph', remove_mapping_frees f g ph ph' p)) as Hremove.
  pose proof (λ s1 s2, Hlift _ s1 s2 (λ ph ph', free_physical_page_frees f ph ph' p)) as Hfree. clearbody f. clear Hlift.
  destruct (lift_physical (remove_physical_mapping_ref f i) s) as [s1|] eqn:E1; cbn [mbind option_bind]; [|done]. destruct (is_xex r); cbn [mbind option_bind].
  - destruct (lift_physical (remove_physical_mapping_ref f (alias_page i)) s1) as [s2|] eqn:E2; cbn [mbind option_bind]; [|done].
    intros E3 Hu. by apply (Hremove _ _ _ E1), (Hremove _ _ _ E2), (Hfree _ _ E3).
  - intros E3 Hu. by apply (Hremove _ _ _ E1), (Hfree _ _ E3).
Qed.
Lemma rollback_exhausted r attached l s s' : each (rollback_page r attached) l s = Some s' -> exhausted (physical s) -> exhausted (physical s').
Proof.
  revert s. induction l as [|i l IH]; intros s; cbn; [by intros [= <-]|].
  destruct (rollback_page r attached i s) as [s1|] eqn:E1; cbn; [|done]. intros E2 Hx. apply (IH s1 E2). intros p Hp Hu. by apply (Hx p Hp), (rollback_page_frees _ _ _ _ _ p E1).
Qed.

Lemma rollback_spec r attached s first n :
  (forall j, first <= j < first + Z.of_nat n -> heap_page r j) -> space_ok s -> attached_ok attached s ->
  exists s', each (rollback_page r attached) (seqZ first (Z.of_nat n)) s = Some s' /\ space_ok s' /\ stepped r first (Z.of_nat n) s s'.
Proof.
  intros Hr Hs Hatt.
  destruct (each_inv (rollback_page r attached) (λ s', space_ok s' /\ attached_ok attached s' /\ stepped r first (Z.of_nat n) s s')
    (seqZ first (Z.of_nat n)) s) as (s' & E & H1 & _ & H2).
  - intros i s1 Hi%elem_of_seqZ (H1 & H2 & H3). destruct (rollback_page_spec r attached i s1 first (Z.of_nat n)) as (s2 & E & ? & ? & ?); [done|apply Hr; lia|done|lia|].
    exists s2. split_and!; [done..|]. by eapply stepped_trans.
  - split_and!; [done..|apply stepped_refl].
  - by exists s'.
Qed.

Lemma skeleton_used s s' j : skeleton (page_at j s') = skeleton (page_at j s) -> state (page_at j s) <> Free -> state (page_at j s') <> Free.
Proof. unfold skeleton. intros [= E _ _ _ _] Hf. rewrite (bool_decide_false _ Hf) in E. by apply bool_decide_eq_false in E. Qed.
Lemma skeleton_guard s s' j : skeleton (page_at j s') = skeleton (page_at j s) -> permanent_guard (page_at j s') = permanent_guard (page_at j s).
Proof. unfold skeleton. by intros [=]. Qed.

(** The pages are in use and may be changed. *)
Definition owned_pages (first count : Z) (s : AddressSpace) : Prop :=
  forall j, first <= j < first + count -> state (page_at j s) <> Free /\ permanent_guard (page_at j s) = false.

Lemma owned_stepped r first count first' count' s s' : stepped r first' count' s s' -> owned_pages first count s -> owned_pages first count s'.
Proof.
  intros H Ho j Hj. destruct (Ho j Hj) as [H1 H2]. pose proof (st_skeleton _ _ _ _ _ H j) as E.
  split; [by apply (skeleton_used s)|by rewrite (skeleton_guard s s' j E)].
Qed.

Lemma commit_loop_spec r protect zero first n i attached s :
  0 <= i -> (forall j, first <= j < first + i + Z.of_nat n -> heap_page r j) -> space_ok s -> attached_ok attached s ->
  owned_pages (first + i) (Z.of_nat n) s ->
  exists ok s', commit_loop r protect zero first i n attached s = Some (ok, s') /\ space_ok s' /\ stepped r first (i + Z.of_nat n) s s' /\
    (ok = true -> stepped r (first + i) (Z.of_nat n) s s' /\
       forall j, first + i <= j < first + i + Z.of_nat n -> state (page_at j s') = Committed /\ current_protect (page_at j s') = protect) /\
    (ok = false -> exhausted (physical s')).
Proof.
  revert i attached s. induction n as [|n IH]; intros i attached s Hi Hr Hs Hatt Ho; cbn [commit_loop].
  { exists true, s. split_and!; [done|done|apply stepped_refl| |done]. intros _. split; [apply stepped_refl|]. intros j Hj. lia. }
  assert (Hri : heap_page r (first + i)) by (apply Hr; lia).
  destruct (Ho (first + i)) as [Hf Hg]; [lia|].
  assert (Hstep : forall s1 attached1, space_ok s1 -> attached_ok attached1 s1 -> stepped r (first + i) 1 s s1 ->
    state (page_at (first + i) s1) = Committed -> current_protect (page_at (first + i) s1) = protect ->
    exists ok s', commit_loop r protect zero first (i + 1) n attached1 s1 = Some (ok, s') /\ space_ok s' /\ stepped r first (i + Z.of_nat (S n)) s s' /\
    (ok = true -> stepped r (first + i) (Z.of_nat (S n)) s s' /\
       forall j, first + i <= j < first + i + Z.of_nat (S n) -> state (page_at j s') = Committed /\ current_protect (page_at j s') = protect) /\ (ok = false -> exhausted (physical s'))).
  { intros s1 attached1 Hs1 Hatt1 Hst Hc Hp. destruct (IH (i + 1) attached1 s1) as (ok & s' & -> & Hs' & Hst' & Hok & Hno); [lia|intros j Hj; apply Hr; lia|done|done| |].
    { intros j Hj. eapply owned_stepped; [exact Hst|exact Ho|lia]. }
    exists ok, s'. split_and!; [done|done| | |exact Hno].
    - eapply stepped_trans; [eapply stepped_widen; [| |exact Hst]; lia|eapply stepped_widen; [| |exact Hst']; lia].
    - intros ->. destruct (Hok eq_refl) as [Hst2 Hall]. split.
      + eapply stepped_trans; [eapply stepped_widen; [| |exact Hst]; lia|eapply stepped_widen; [| |exact Hst2]; lia].
      + intros j Hj. destruct (Z.eq_dec j (first + i)) as [->|Hne]; [|apply Hall; lia].
        rewrite (st_pages _ _ _ _ _ Hst2); [done|]. intros k Hk. apply not_touched; [apply Hr; lia|done|lia]. }
  destruct (bool_decide_reflect (state (page_at (first + i) s) = Committed)) as [Hc|Hc].
  - fold (protect_pair r protect (first + i) s).
    destruct (protect_pair_spec r protect (first + i) s (first + i) 1) as (H1 & H2 & H3 & H4); [done..|lia|].
    apply Hstep; try done; [|by rewrite H3, decide_True..].
    intros g f Hin Hb. rewrite H3 in Hb |- *. destruct (decide (g = first + i)) as [->|]; [by apply (Hatt (first + i) f)|].
    destruct (decide (touches r (first + i) g)); [|by apply (Hatt g f)]. apply (proj1 (backed_mirror _ _)) in Hb.
    rewrite mirror_used by (by destruct Hb as [-> _]). by apply (Hatt (first + i) f).
  - assert (Hres : state (page_at (first + i) s) = Reserved) by (by destruct (state (page_at (first + i) s))).
    destruct (commit_new_page r protect zero attached (first + i) s (first + i) 1) as (f & ph & -> & Hf'); [done..|lia|]. cbn [mbind option_bind].
    destruct f as [f|].
    + destruct Hf' as (s1 & -> & H1 & H2 & H3 & H4). cbn [mbind option_bind]. apply Hstep; try done; by rewrite H4, decide_True.
    + destruct Hf' as (H1 & H2 & H3 & Hx). replace (seqZ first i) with (seqZ first (Z.of_nat (Z.to_nat i))) by (by rewrite Z2Nat.id).
      destruct (rollback_spec r attached (with_physical ph s) first (Z.to_nat i)) as (s' & E & Hs' & Hst); [intros j Hj; apply Hr; lia|done|done|].
      rewrite E. cbn. exists false, s'. split_and!; [done|done| |done|intros _; by apply (rollback_exhausted _ _ _ _ _ E)].
      eapply stepped_trans; [eapply stepped_widen; [| |exact H3]; lia|eapply stepped_widen; [| |exact Hst]; lia].
Qed.

(** ** Ranges of pages *)

(** The pages [l] and their other views became [p]. *)
Definition paired_all (r : RegionDescriptor) (l : list Z) (p : Page) (s s' : AddressSpace) : Prop :=
  forall j, page_at j s' = if decide (j ∈ l) then p else if decide (Exists (λ k, touches r k j) l) then mirror p else page_at j s.

Lemma paired_all_cons r i l p s s1 s2 :
  heap_page r i -> (forall k, k ∈ l -> heap_page r k) -> paired r i p s s1 -> paired_all r l p s1 s2 -> paired_all r (i :: l) p s s2.
Proof.
  intros Hi Hl H1 H2 j. rewrite H2, H1. destruct (decide (j ∈ l)) as [Hj|Hj]; [by rewrite decide_True by (by right)|].
  destruct (decide (j = i)) as [->|Hne].
  - rewrite (decide_True (P := i ∈ i :: l)) by (by left). rewrite decide_False; [done|].
    intros (k & Hk & Ht)%Exists_exists. destruct Ht as [->|[Hx E]]; [done|]. by apply (alias_other r k i (Hl k Hk) Hi Hx) in E.
  - rewrite (decide_False (P := j ∈ i :: l)) by (by intros [?|?]%elem_of_cons). destruct (decide (Exists (λ k, touches r k j) l)) as [He|He].
    + by rewrite decide_True by (by right).
    + destruct (decide (touches r i j)) as [Ht|Ht]; [by rewrite decide_True by (by left)|].
      rewrite decide_False; [done|]. by intros [?|?]%Exists_cons.
Qed.

Lemma paired_all_nil r p s : paired_all r [] p s s.
Proof. intros j. rewrite decide_False by apply not_elem_of_nil. rewrite decide_False; [done|]. by intros ?%Exists_nil. Qed.

(** *** Reserving *)

Definition reserved_page (r : RegionDescriptor) (base count : Z) (protect : Protect) : Page :=
  mkPage kInvalidPhysicalPage (Z.shiftr base kPageShift) count protect protect Reserved (rg_kind r) false false.

Lemma alias_base base : is_u32 base -> 0x80000 <= Z.shiftr base kPageShift < 0xA0000 -> Z.shiftr (xex_alias base) kPageShift = alias_page (Z.shiftr base kPageShift).
Proof.
  intros Hb Hr. rewrite (alias_page_spec _ Hr). unfold xex_alias, kXex4KBase. rewrite !shiftr_page in *. unfold is_u32 in Hb.
  destruct (Z.ltb_spec (base / 4096) 0x90000); destruct (Z.ltb_spec base 0x90000000); try (Z.to_euclidean_division_equations; lia);
    rewrite u32_small by (unfold is_u32; Z.to_euclidean_division_equations; lia); Z.to_euclidean_division_equations; lia.
Qed.

Lemma reserve_page_spec r base count protect i s :
  space_ok s -> is_u32 base -> heap_page r i -> heap_page r (Z.shiftr base kPageShift) -> state (page_at i s) = Free ->
  let s' := reserve_page r base count protect i s in
  space_ok s' /\ paired r i (reserved_page r base count protect) s s' /\ physical s' = physical s /\
  hot_pages_ s' = hot_pages_ s /\ mmio_ranges_ s' = mmio_ranges_ s.
Proof.
  intros [Hp Hg] Hb Hr Hrb Hf s'. set (p := reserved_page r base count protect).
  assert (Hnew : page_at i s = new_page). { pose proof (go_shape s Hg i) as H. unfold page_shape in H. by rewrite Hf in H. }
  assert (Hph : physical s' = physical s) by (unfold s', reserve_page; by destruct (is_xex r)).
  assert (Hpair : paired r i p s s').
  { intros j. unfold s', reserve_page. rewrite Hnew. cbn [physical_page explicit_physical_mapping permanent_guard new_page]. fold (reserved_page r base count protect). fold p.
    destruct (is_xex r) eqn:Hx.
    - destruct (alias_page_xex r i Hr Hx) as (_ & _ & _ & _ & Hne). rewrite !page_at_set. destruct (decide (j = alias_page i)) as [->|Hj].
      + rewrite decide_False by done. rewrite decide_True by (by right). rewrite mirror_used by done. rewrite alias_base; [done..|by apply (xex_range r)].
      + destruct (decide (j = i)); [done|]. rewrite decide_False; [done|]. intros [?|[_ ?]]; done.
    - rewrite page_at_set. destruct (decide (j = i)); [done|]. rewrite decide_False; [done|]. intros [?|[? _]]; [done|congruence]. }
  split_and!; try done; try (unfold s', reserve_page; by destruct (is_xex r)).
  split; [by rewrite Hph|]. apply (guest_update s s' r i p); try done.
  - split; [|done]. exists r. split_and!; [done..|]. intros Hx. by apply (xex_range r).
  - intros f g. rewrite Hph. destruct (decide (touches r i g)) as [Ht|]; [|done]. rewrite (go_backed s Hg).
    split; [|by intros [? _]]. intros [Hc _]. exfalso. destruct Ht as [->|[Hx ->]]; [by rewrite Hf in Hc|].
    rewrite (go_mirror s Hg r i Hr Hx), mirror_state, Hf in Hc. done.
  - intros f. rewrite Hph. intros Hu. right. split; [done|]. intros [[Hc _] _]. by rewrite Hf in Hc.
  - intros f g [Hc _]. done.
Qed.

Lemma reserve_loop_spec r base count protect l s :
  is_u32 base -> heap_page r (Z.shiftr base kPageShift) -> (forall k, k ∈ l -> heap_page r k) -> NoDup l ->
  space_ok s -> (forall k, k ∈ l -> state (page_at k s) = Free) ->
  let s' := foldl (λ s i, reserve_page r base count protect i s) s l in
  space_ok s' /\ paired_all r l (reserved_page r base count protect) s s' /\ physical s' = physical s /\
  hot_pages_ s' = hot_pages_ s /\ mmio_ranges_ s' = mmio_ranges_ s.
Proof.
  intros Hb Hrb. revert s. induction l as [|i l IH]; intros s Hl Hn Hs Hf; cbn [foldl]; [split_and!; [done|apply paired_all_nil|done..]|].
  apply NoDup_cons in Hn as [Hni Hn].
  destruct (reserve_page_spec r base count protect i s Hs Hb) as (H1 & H2 & H3 & H4 & H5); [apply Hl; by left|done|apply Hf; by left|].
  destruct (IH (reserve_page r base count protect i s)) as (I1 & I2 & I3 & I4 & I5); [intros k Hk; apply Hl; by right|done|done| |].
  - intros k Hk. rewrite H2. rewrite decide_False by (intros ->; done). rewrite decide_False; [apply Hf; by right|].
    apply not_touched; [apply Hl; by left|apply Hl; by right|intros ->; done].
  - split_and!; [done| |congruence..]. eapply paired_all_cons; [apply Hl; by left|intros k Hk; apply Hl; by right|exact H2|done].
Qed.

(** ** Allocations *)

(** The allocation a page in use belongs to: all of its pages are in use, in one region. *)
Definition extents_ok (s : AddressSpace) : Prop :=
  forall g, state (page_at g s) <> Free -> permanent_guard (page_at g s) = false ->
    let b := allocation_base_page (page_at g s) in
    let c := allocation_page_count (page_at g s) in
    b <= g < b + c /\
    forall h, b <= h < b + c -> state (page_at h s) <> Free /\ permanent_guard (page_at h s) = false /\
      allocation_base_page (page_at h s) = b /\ allocation_page_count (page_at h s) = c /\ forall r, heap_page r g -> heap_page r h.

Lemma extents_skeleton s s' : (forall j, skeleton (page_at j s') = skeleton (page_at j s)) -> extents_ok s -> extents_ok s'.
Proof.
  intros Hk Hs g Hf Hg. pose proof (Hk g) as Eg.
  assert (Hf' : state (page_at g s) <> Free) by (by apply (skeleton_used s')).
  rewrite (skeleton_guard s s' g Eg) in Hg. destruct (Hs g Hf' Hg) as [H1 H2].
  assert (Hbc : allocation_base_page (page_at g s') = allocation_base_page (page_at g s) /\ allocation_page_count (page_at g s') = allocation_page_count (page_at g s))
    by (unfold skeleton in Eg; by injection Eg).
  destruct Hbc as [-> ->]. split; [done|]. intros h Hh. destruct (H2 h Hh) as (A1 & A2 & A3 & A4 & A5). pose proof (Hk h) as Eh.
  split_and!; [by apply (skeleton_used s)|by rewrite (skeleton_guard s s' h Eh)|unfold skeleton in Eh; injection Eh; congruence..|done].
Qed.

(** The other views of the pages of one region are as far apart as the pages. *)
Lemma alias_shift r k k' : heap_page r k -> heap_page r k' -> is_xex r = true ->
  alias_page k' = alias_page k + (k' - k) /\ forall r', heap_page r' (alias_page k) -> heap_page r' (alias_page k').
Proof.
  intros Hk Hk' Hx. pose proof (xex_range r k Hk Hx) as Rk. pose proof (xex_range r k' Hk' Hx) as Rk'.
  destruct Hk as (_ & Ek & _), Hk' as (_ & Ek' & _). unfold heap_page, page_ok_index. rewrite !alias_page_spec by done.
  change kPageCount with 0x100000.
  destruct (Z.ltb_spec k 0x90000), (Z.ltb_spec k' 0x90000).
  - split; [lia|]. intros r' (_ & E & Hh). rewrite region_xex4 in E |- * by lia. split_and!; [lia..|done|done].
  - exfalso. rewrite region_xex64 in Ek by lia. rewrite region_xex4 in Ek' by lia. rewrite <- Ek' in Ek. vm_compute in Ek. discriminate Ek.
  - exfalso. rewrite region_xex4 in Ek by lia. rewrite region_xex64 in Ek' by lia. rewrite <- Ek' in Ek. vm_compute in Ek. discriminate Ek.
  - split; [lia|]. intros r' (_ & E & Hh). rewrite region_xex64 in E |- * by lia. split_and!; [lia..|done|done].
Qed.

Abbreviation all_pages r first count := (forall k, first <= k < first + count -> heap_page r k).
Definition touched_by (r : RegionDescriptor) (first count j : Z) : Prop := exists k, first <= k < first + count /\ touches r k j.

Lemma paired_all_at r first count p s s' :
  (forall k, first <= k < first + count -> heap_page r k) -> paired_all r (seqZ first count) p s s' ->
  (forall j, first <= j < first + count -> page_at j s' = p) /\
  (forall k, first <= k < first + count -> is_xex r = true -> page_at (alias_page k) s' = mirror p) /\
  (forall j, ~ touched_by r first count j -> page_at j s' = page_at j s).
Proof.
  intros Hr Hpair. split_and!.
  - intros j Hj. rewrite Hpair, decide_True; [done|]. apply elem_of_seqZ. lia.
  - intros k Hk Hx. rewrite Hpair, decide_False.
    + rewrite decide_True; [done|]. apply Exists_exists. exists k. split; [apply elem_of_seqZ; lia|by right].
    + intros Hin'%elem_of_seqZ. exact (alias_other r k (alias_page k) (Hr k Hk) (Hr (alias_page k) ltac:(lia)) Hx eq_refl).
  - intros j Hj. rewrite Hpair, decide_False.
    + rewrite decide_False; [done|]. intros (k & Hk%elem_of_seqZ & Ht)%Exists_exists. apply Hj. exists k. split; [lia|done].
    + intros Hin%elem_of_seqZ. apply Hj. exists j. split; [lia|by left].
Qed.

(** Changing a whole range at once keeps the allocations outside of it, when none of them
    reaches into it. *)
Lemma extents_outside r first count p s s' g :
  (forall k, first <= k < first + count -> heap_page r k) -> extents_ok s -> paired_all r (seqZ first count) p s s' ->
  (forall h, touched_by r first count h -> state (page_at h s) <> Free -> permanent_guard (page_at h s) = false ->
     forall k, allocation_base_page (page_at h s) <= k < allocation_base_page (page_at h s) + allocation_page_count (page_at h s) ->
     touched_by r first count k) ->
  ~ touched_by r first count g -> state (page_at g s') <> Free -> permanent_guard (page_at g s') = false ->
    let b := allocation_base_page (page_at g s') in
    let c := allocation_page_count (page_at g s') in
    b <= g < b + c /\
    forall h, b <= h < b + c -> state (page_at h s') <> Free /\ permanent_guard (page_at h s') = false /\
      allocation_base_page (page_at h s') = b /\ allocation_page_count (page_at h s') = c /\ forall r, heap_page r g -> heap_page r h.
Proof.
  intros Hr He Hpair Hreach Hg. destruct (paired_all_at r first count p s s' Hr Hpair) as (_ & _ & Hout).
  rewrite (Hout g Hg). intros Hf Hp b c. destruct (He g Hf Hp) as [H1 H2]. split; [done|].
  intros h Hh. destruct (H2 h Hh) as (A1 & A2 & A3 & A4 & A5). rewrite Hout; [done|].
  intros Ht. apply Hg, (Hreach h Ht A1 A2). rewrite A3, A4. exact H1.
Qed.

(** A whole range of free pages becomes one allocation. *)
Lemma extents_reserve r first count p s s' :
  (forall k, first <= k < first + count -> heap_page r k) -> space_ok s -> extents_ok s ->
  (forall k, first <= k < first + count -> state (page_at k s) = Free) ->
  state p <> Free -> permanent_guard p = false -> allocation_base_page p = first -> allocation_page_count p = count ->
  paired_all r (seqZ first count) p s s' -> extents_ok s'.
Proof.
  intros Hr Hs He Hfree Hp1 Hp2 Hp3 Hp4 Hpair g Hg1 Hg2.
  destruct (paired_all_at r first count p s s' Hr Hpair) as (Hin & Hal & _).
  destruct (decide (first <= g < first + count)) as [Hgin|Hgout].
  { rewrite Hin in * by done. rewrite Hp3, Hp4. cbv zeta. split; [done|]. intros h Hh. rewrite Hin by done. split_and!; try done. intros r' Hr'.
    rewrite (heap_page_fun r' r g Hr' (Hr g Hgin)). by apply Hr. }
  destruct (decide (is_xex r = true /\ 0 < count /\ alias_page first <= g < alias_page first + count)) as [(Hx & Hc & Hga)|Hno].
  { assert (Hf0 : heap_page r first) by (apply Hr; lia).
    assert (Hsh : forall h, alias_page first <= h < alias_page first + count -> h = alias_page (first + (h - alias_page first))).
    { intros h Hh. destruct (alias_shift r first (first + (h - alias_page first))) as [E _]; [done|apply Hr; lia|done|lia]. }
    assert (Hat : forall h, alias_page first <= h < alias_page first + count -> page_at h s' = mirror p) by (intros h Hh; rewrite (Hsh h Hh); apply Hal; [lia|done]).
    rewrite (Hat g Hga). rewrite mirror_used by done. cbn. rewrite Hp3, Hp4. split; [done|]. intros h Hh. rewrite (Hat h Hh), mirror_used by done. cbn.
    rewrite Hp3, Hp4. split_and!; try done. intros r'. rewrite (Hsh h Hh), (Hsh g Hga) at 1.
    destruct (alias_shift r (first + (g - alias_page first)) (first + (h - alias_page first))) as [_ Hrr]; [apply Hr; lia..|done|]. apply Hrr. }
  apply (extents_outside r first count p s s' g); try done.
  - intros h (k & Hk & Ht) Hf. exfalso. apply Hf. destruct Ht as [->|[Hx ->]]; [by apply Hfree|].
    rewrite (go_mirror s (so_guest s Hs) r k (Hr k Hk) Hx), mirror_state. by apply Hfree.
  - intros (k & Hk & [->|[Hx ->]]); [done|]. apply Hno. destruct (alias_shift r first k) as [E _]; [apply Hr; lia..|done|]. split_and!; [done|lia..].
Qed.

(** A whole allocation goes. *)
Lemma extents_release r first count s s' :
  (forall k, first <= k < first + count -> heap_page r k) -> space_ok s -> extents_ok s ->
  (forall k, first <= k < first + count -> allocation_base_page (page_at k s) = first /\ allocation_page_count (page_at k s) = count) ->
  paired_all r (seqZ first count) new_page s s' -> extents_ok s'.
Proof.
  intros Hr Hs He Hex Hpair g Hg1 Hg2.
  destruct (paired_all_at r first count new_page s s' Hr Hpair) as (Hin & Hal & _).
  assert (Hno : ~ touched_by r first count g).
  { intros (k & Hk & [->|[Hx ->]]); [rewrite Hin in Hg1 by done|rewrite Hal in Hg1 by done]; done. }
  apply (extents_outside r first count new_page s s' g); try done.
  intros h (k & Hk & Ht) Hf Hguard k' Hk'. destruct (Hex k Hk) as [E1 E2]. destruct Ht as [->|[Hx ->]].
  - rewrite E1, E2 in Hk'. exists k'. split; [done|by left].
  - rewrite (go_mirror s (so_guest s Hs) r k (Hr k Hk) Hx) in Hf, Hk'. rewrite mirror_state in Hf. rewrite mirror_used in Hk' by done. cbn in Hk'. rewrite E1, E2 in Hk'.
    exists (first + (k' - alias_page first)). split; [lia|]. right. split; [done|].
    destruct (alias_shift r first (first + (k' - alias_page first))) as [E _]; [apply Hr; lia..|done|lia].
Qed.

(** ** The translation table *)

Definition entry_at (g : Z) (s : AddressSpace) : Z := default 0 (hot_pages_ s !! g).
(** Every entry is the one its page calls for. *)
Definition coherent (s : AddressSpace) : Prop := forall g, page_ok_index g -> entry_at g s = make_hot_entry g s.

(** The frame that a page of a direct view shows. *)
Definition alias_frame (g : Z) : Z := Z.shiftr (physical_alias_address (u32 (Z.shiftl g kPageShift))) kPageShift.

Lemma alias_address_nonneg a : is_u32 a -> 0 <= physical_alias_address a.
Proof.
  unfold physical_alias_address, kGpuWritebackBase, kPhysical64KBase, kPhysical4KBase, kPhysical4KViewOffset. intros [Ha _].
  assert (Hl : 0 <= a .& 0x1FFFFFFF) by (apply Z.land_nonneg; by left).
  destruct (Z.leb_spec 0x7F000000 a), (a <=? kGpuWritebackEnd), (Z.leb_spec 0xA0000000 a), (a <=? kPhysical16MEnd), (Z.leb_spec 0xE0000000 a), (a <=? kPhysical4KHeapEnd);
    cbn [andb]; lia.
Qed.

Lemma make_hot_entry_same g s s' :
  mmio_ranges_ s' = mmio_ranges_ s -> page_at g s' = page_at g s ->
  (frame_ok (alias_frame g) ->
     pm_current_protect (metadata (alias_frame g) (physical s')) = pm_current_protect (metadata (alias_frame g) (physical s))) ->
  make_hot_entry g s' = make_hot_entry g s.
Proof.
  intros Hm Hp Hd. unfold make_hot_entry, page_has_mmio. rewrite Hm, Hp.
  assert (Hprot : physical_protect (physical_alias_address (u32 (Z.shiftl g kPageShift))) (physical s') =
    physical_protect (physical_alias_address (u32 (Z.shiftl g kPageShift))) (physical s)); [|by rewrite Hprot].
  unfold physical_protect. destruct (Z.leb_spec kPhysicalMemorySize (physical_alias_address (u32 (Z.shiftl g kPageShift)))) as [|Hlt]; [done|].
  apply Hd. unfold alias_frame, frame_ok. rewrite shiftr_page. pose proof (alias_address_nonneg (u32 (Z.shiftl g kPageShift)) (u32_range _)).
  change kPhysicalMemorySize with (0x20000 * 4096) in Hlt. change kPhysicalPageCount with 0x20000. Z.to_euclidean_division_equations; lia.
Qed.

Lemma published_entry s s' g : published s s' -> make_hot_entry g s' = make_hot_entry g s.
Proof.
  intros Hp. pose proof (published_page s s' g Hp) as Hpg. destruct Hp as (_ & Hm & m & E). apply make_hot_entry_same; [done..|]. intros _. by rewrite E.
Qed.

Lemma publish_pages_entries l s g : page_ok_index g ->
  entry_at g (publish_pages l s) = if decide (g ∈ l) then make_hot_entry g s else entry_at g s.
Proof.
  intros Hg. revert s. induction l as [|i l IH]; intros s; cbn [publish_pages foldl].
  - rewrite decide_False by apply not_elem_of_nil. done.
  - change (foldl _ (publish_hot_page i s) l) with (publish_pages l (publish_hot_page i s)). rewrite IH, (published_entry s) by apply publish_hot_page_published.
    destruct (decide (g ∈ l)); [by rewrite decide_True by (by right)|]. destruct (decide (g = i)) as [->|Hne].
    + rewrite decide_True by (by left). unfold publish_hot_page, publish_hot_entry, entry_at.
      rewrite (proj2 (Z.leb_gt kPageCount i)) by apply Hg. cbn [hot_pages_]. by rewrite lookup_insert_eq.
    + rewrite decide_False by (by rewrite elem_of_cons; intros [?|?]). unfold publish_hot_page, publish_hot_entry, entry_at.
      destruct (_ <=? _); [done|]. cbn [hot_pages_]. by rewrite lookup_insert_ne.
Qed.

(** A step that leaves the devices alone and the table as coherent as it was. *)
Definition refreshed (s s' : AddressSpace) : Prop := mmio_ranges_ s' = mmio_ranges_ s /\ (coherent s -> coherent s').

Lemma refreshed_refl s : refreshed s s.
Proof. done. Qed.
#[export] Hint Resolve refreshed_refl : core.
Lemma refreshed_trans s1 s2 s3 : refreshed s1 s2 -> refreshed s2 s3 -> refreshed s1 s3.
Proof. intros [A1 A2] [B1 B2]. split; [congruence|auto]. Qed.

Lemma publish_refreshes l s s1 :
  hot_pages_ s1 = hot_pages_ s -> mmio_ranges_ s1 = mmio_ranges_ s ->
  (forall g, page_ok_index g -> g ∉ l -> make_hot_entry g s1 = make_hot_entry g s) -> refreshed s (publish_pages l s1).
Proof.
  intros Hh Hm Hg. pose proof (publish_pages_published l s1) as Hpub. split.
  - destruct Hpub as (_ & -> & _). done.
  - intros Hc g Hi. rewrite publish_pages_entries, (published_entry s1 _ g Hpub) by done. destruct (decide (g ∈ l)); [done|].
    rewrite Hg by done. rewrite <- Hc by done. unfold entry_at. by rewrite Hh.
Qed.

(** Nothing that the table shows changed. *)
Lemma unchanged_refreshes s s1 :
  hot_pages_ s1 = hot_pages_ s -> mmio_ranges_ s1 = mmio_ranges_ s -> (forall g, page_ok_index g -> make_hot_entry g s1 = make_hot_entry g s) -> refreshed s s1.
Proof. intros Hh Hm Hg. apply (publish_refreshes [] s s1); auto. Qed.

(** *** The pages a publication covers *)

Definition range_list (base size : Z) : list Z :=
  if size =? 0 then []
  else seqZ (Z.shiftr base kPageShift) (Z.min (Z.shiftr (u64 (base + size - 1)) kPageShift) (kPageCount - 1) - Z.shiftr base kPageShift + 1).
Definition both_list (r : RegionDescriptor) (base size : Z) : list Z :=
  range_list base size ++ if is_xex r then range_list (xex_alias base) size else [].

Lemma publish_hot_range_list base size s : publish_hot_range base size s = publish_pages (range_list base size) s.
Proof. unfold publish_hot_range, range_list. by destruct (size =? 0). Qed.
Lemma publish_both_list r base size s : publish_both r base size s = publish_pages (both_list r base size) s.
Proof.
  unfold publish_both, both_list. rewrite !publish_hot_range_list. destruct (is_xex r); [|by rewrite app_nil_r].
  unfold publish_pages. by rewrite foldl_app.
Qed.

Lemma in_range_list base size g : is_u32 base -> 0 < size <= 0x100000000 -> page_ok_index g ->
  base / 4096 <= g <= (base + size - 1) / 4096 -> g ∈ range_list base size.
Proof.
  intros Hb Hs Hg Hin. unfold range_list. rewrite (proj2 (Z.eqb_neq size 0)) by lia. unfold is_u32 in Hb.
  rewrite u64_small by (unfold is_u64; lia). rewrite !shiftr_page. apply elem_of_seqZ. unfold page_ok_index in Hg. change kPageCount with 0x100000 in *. lia.
Qed.

Lemma xex_alias_word base : is_u32 (xex_alias base).
Proof. unfold xex_alias. destruct (_ <? _); apply u32_range. Qed.

(** A heap range and its other view. *)
Lemma touched_published r first count base size g :
  all_pages r first count -> is_u32 base -> base / 4096 = first -> (first + count - 1) * 4096 < base + size -> 0 < size <= 0x100000000 ->
  page_ok_index g -> touched_by r first count g -> g ∈ both_list r base size.
Proof.
  intros Hp Hb Hf Hcov Hs Hg (k & Hk & Ht). apply elem_of_app. destruct Ht as [->|[Hx ->]].
  - left. apply in_range_list; try done. split; [lia|]. apply Z.div_le_lower_bound; lia.
  - right. rewrite Hx. assert (Hpf : heap_page r first) by (apply Hp; lia). pose proof (xex_range r first Hpf Hx) as Hxf.
    destruct (alias_shift r first k Hpf (Hp k Hk) Hx) as [Ea _].
    assert (Eb : xex_alias base / 4096 = alias_page first) by (rewrite <- shiftr_page, <- Hf, <- shiftr_page; apply alias_base; [done|rewrite shiftr_page; lia]).
    pose proof (Z.mod_pos_bound base 4096 ltac:(lia)) as Hm. pose proof (Z.div_mod base 4096 ltac:(lia)) as Hd.
    assert (Em : xex_alias base mod 4096 = base mod 4096).
    { unfold xex_alias, u32. destruct (base <? kXex4KBase); Z.to_euclidean_division_equations; lia. }
    pose proof (Z.div_mod (xex_alias base) 4096 ltac:(lia)) as Hd'.
    apply in_range_list; [apply xex_alias_word|done|done|]. rewrite Eb, Ea. split; [lia|]. apply Z.div_le_lower_bound; lia.
Qed.

Lemma stepped_refreshes r first count base size s s1 :
  stepped r first count s s1 -> all_pages r first count -> is_u32 base -> base / 4096 = first ->
  (0 < count -> (first + count - 1) * 4096 < base + size /\ 0 < size <= 0x100000000) -> refreshed s (publish_both r base size s1).
Proof.
  intros Hst Hp Hb Hf Hcov. rewrite publish_both_list. apply publish_refreshes; [apply Hst|apply Hst|].
  intros g Hg Hno. apply make_hot_entry_same; [apply Hst| |].
  - apply (st_pages _ _ _ _ _ Hst). intros k Hk Ht. apply Hno. destruct Hcov as [H1 H2]; [lia|].
    apply (touched_published r first count); try done. by exists k.
  - intros _. by rewrite (st_metadata _ _ _ _ _ Hst).
Qed.

(** The same for pages that were replaced. *)
Lemma replaced_refreshes r first count p base size s s1 :
  paired_all r (seqZ first count) p s s1 -> same_metadata (physical s) (physical s1) -> hot_pages_ s1 = hot_pages_ s -> mmio_ranges_ s1 = mmio_ranges_ s ->
  all_pages r first count -> is_u32 base -> base / 4096 = first ->
  (0 < count -> (first + count - 1) * 4096 < base + size /\ 0 < size <= 0x100000000) -> refreshed s (publish_both r base size s1).
Proof.
  intros Hpair Hm Hh Hq Hp Hb Hf Hcov. destruct (paired_all_at r first count p s s1 Hp Hpair) as (_ & _ & Hout).
  rewrite publish_both_list. apply publish_refreshes; [done|done|].
  intros g Hg Hno. apply make_hot_entry_same; [done| |].
  - apply Hout. intros (k & Hk & Ht). apply Hno. destruct Hcov as [H1 H2]; [lia|]. apply (touched_published r first count); try done. by exists k.
  - intros _. by rewrite Hm.
Qed.

Definition alias_list (address size : Z) : list Z :=
  if (size =? 0) || (kPhysicalMemorySize <=? address) then []
  else seqZ (Z.shiftr address kPageShift) (Z.shiftr (Z.min (address + size) kPhysicalMemorySize - 1) kPageShift - Z.shiftr address kPageShift + 1) ≫= alias_pages.

Lemma publish_alias_list address size s : publish_physical_alias_range address size s = publish_pages (alias_list address size) s.
Proof. unfold publish_physical_alias_range, alias_list. by destruct (_ || _). Qed.

(** Every direct view of a frame is among its aliases. *)
Lemma alias_pages_cover g : page_ok_index g -> frame_ok (alias_frame g) -> g ∈ alias_pages (alias_frame g).
Proof.
  unfold page_ok_index, frame_ok, alias_frame. change kPageCount with 0x100000. change kPhysicalPageCount with 0x20000. intros Hg.
  rewrite shiftl_page, (u32_small (g * 4096)) by (unfold is_u32; lia). unfold physical_alias_address.
  unfold kGpuWritebackBase, kGpuWritebackEnd, kPhysical64KBase, kPhysical16MEnd, kPhysical4KBase, kPhysical4KHeapEnd, kPhysical4KViewOffset.
  destruct (Z.leb_spec 0x7F000000 (g * 4096)), (Z.leb_spec (g * 4096) 0x7FFFFFFF); cbn [andb].
  { replace (g * 4096 - 0x7F000000) with ((g - 0x7F000) * 4096) by lia. rewrite shiftr_page, Z.div_mul by done. intros _. unfold alias_pages.
    change kBasePageSize with 4096. rewrite u32_small by (unfold is_u32; lia). unfold kGpuWritebackBase, kGpuWritebackEnd.
    rewrite (proj2 (Z.ltb_lt _ _)) by lia. rewrite u32_small by (unfold is_u32; lia). apply elem_of_app. left. apply list_elem_of_singleton.
    rewrite shiftr_page. apply Z.div_unique with 0; lia. }
  all: destruct (Z.leb_spec 0xA0000000 (g * 4096)), (Z.leb_spec (g * 4096) 0xDFFFFFFF); cbn [andb].
  all: try (destruct (Z.leb_spec 0xE0000000 (g * 4096)), (Z.leb_spec (g * 4096) 0xFFCFFFFF); cbn [andb]).
  all: try (rewrite shiftr_page; change (0xFFFFFFFF / 4096) with 0xFFFFF; lia). all: try lia.
  - change 0x1FFFFFFF with (Z.ones 29). rewrite Z.land_ones, shiftr_page by done. change (2 ^ 29) with (0x20000 * 4096).
    rewrite Z.mul_mod_distr_r, Z.div_mul by done. intros _. set (f := g mod 0x20000).
    assert (Hf : 0 <= f < 0x20000 /\ (g = 0xA0000 + f \/ g = 0xC0000 + f)) by (unfold f; Z.to_euclidean_division_equations; lia).
    unfold alias_pages. change kBasePageSize with 4096. rewrite (u32_small (f * 4096)) by (unfold is_u32; lia).
    change (kPhysical64KEnd - kPhysical64KBase) with 0x1FFFFFFF. change (kPhysical16MEnd - kPhysical16MBase) with 0x1FFFFFFF.
    rewrite (proj2 (Z.leb_le (f * 4096) 0x1FFFFFFF)) by lia. unfold kPhysical64KBase, kPhysical16MBase.
    rewrite (u32_small (0xA0000000 + f * 4096)), (u32_small (0xC0000000 + f * 4096)) by (unfold is_u32; lia). rewrite !shiftr_page, !elem_of_app, !list_elem_of_singleton.
    destruct Hf as [_ [Hf|Hf]]; [right; left|right; right; left]; apply Z.div_unique with 0; lia.
  - replace (g * 4096 - 0xE0000000 + 4096) with ((g - 0xE0000 + 1) * 4096) by lia. rewrite shiftr_page, Z.div_mul by done. intros _. unfold alias_pages.
    change kBasePageSize with 4096. rewrite (u32_small ((g - 0xE0000 + 1) * 4096)) by (unfold is_u32; lia).
    unfold kPhysical4KViewOffset, kPhysical4KBase, kPhysical4KHeapEnd. rewrite (proj2 (Z.leb_le 4096 _)) by lia.
    rewrite (proj2 (Z.leb_le (0xE0000000 + (g - 0xE0000 + 1) * 4096 - 4096) _)) by lia. rewrite (u32_small (0xE0000000 + (g - 0xE0000 + 1) * 4096 - 4096)) by (unfold is_u32; lia).
    rewrite !elem_of_app. right. right. right. apply list_elem_of_singleton. rewrite shiftr_page. apply Z.div_unique with 0; lia.
Qed.

Lemma alias_list_cover address size g :
  0 <= address -> 0 < size -> page_ok_index g -> frame_ok (alias_frame g) -> Z.shiftr address kPageShift <= alias_frame g ->
  alias_frame g * 4096 < address + size -> g ∈ alias_list address size.
Proof.
  intros Ha Hs Hg Hf H1 H2. unfold alias_list. rewrite (proj2 (Z.eqb_neq size 0)) by lia. rewrite shiftr_page in *.
  assert (Hf' := Hf). unfold frame_ok in Hf'. change kPhysicalPageCount with 0x20000 in Hf'. change kPhysicalMemorySize with (0x20000 * 4096).
  rewrite (proj2 (Z.leb_gt _ address)). 2: { Z.to_euclidean_division_equations; lia. } cbn [orb].
  apply list_elem_of_bind. exists (alias_frame g). split; [by apply alias_pages_cover|]. rewrite shiftr_page. apply elem_of_seqZ.
  Z.to_euclidean_division_equations; lia.
Qed.
