(* ===== verification/AddressSpaceOps.v ===== *)
(** * The operations of the address space

    Every operation of [AddressSpace], on any arguments of its types, returns a result and
    keeps the address space [consistent]; consistency implies the repository's own
    invariant check. Placement is first fit. *)

From S2P Require Import Prelude.
From S2P Require Import Words.
From S2P Require Import PhysicalRanges.
From S2P Require Import AddressSpace.
From S2P Require Import AddressSpaceInv.
From Stdlib Require Import Sorted.

(** ** Ranges of a region *)

Record consistent (s : AddressSpace) : Prop := mkConsistent {
  co_space : space_ok s;
  co_extents : extents_ok s
}.

(** The outcome of an operation: it does not throw and leaves a consistent state. *)
Definition keeps {A} (Q : A -> AddressSpace -> Prop) (o : option (A * AddressSpace)) : Prop :=
  exists a s, o = Some (a, s) /\ consistent s /\ Q a s.

Lemma region_bounds r : r ∈ kRegions -> 0 <= rg_base r <= rg_end r /\ rg_end r < 0x100000000 /\ rg_base r mod 4096 = 0 /\ rg_end r mod 4096 = 4095.
Proof.
  intros Hr. assert (H : Forall (λ r, 0 <= rg_base r <= rg_end r /\ rg_end r < 0x100000000 /\ rg_base r mod 4096 = 0 /\ rg_end r mod 4096 = 4095) kRegions)
    by (repeat constructor; done).
  rewrite Forall_forall in H. by apply H.
Qed.

Lemma region_for_in a r : region_for a = Some r -> r ∈ kRegions /\ rg_base r <= a <= rg_end r.
Proof.
  intros H%find_some. destruct H as [Hin Hb]. unfold in_region in Hb. rewrite andb_true_iff, !Z.leb_le in Hb.
  split; [by apply list_elem_of_In|done].
Qed.

Lemma region_word a r : region_for a = Some r -> is_u32 a.
Proof. intros H. destruct (region_for_in a r H) as [Hin Hb]. destruct (region_bounds r Hin) as (B1 & B2 & _). unfold is_u32. lia. Qed.

Lemma pages_of_region r first count :
  r ∈ kRegions -> is_heap r = true -> rg_base r <= first * 4096 -> (first + count) * 4096 <= rg_end r + 1 -> all_pages r first count.
Proof.
  intros Hr Hh Hb He k Hk. destruct (region_bounds r Hr) as (? & ? & _). split_and!.
  - unfold page_ok_index. change kPageCount with 0x100000. lia.
  - apply region_unique; [done|]. lia.
  - done.
Qed.

Lemma range_pages r base size :
  region_for base = Some r -> is_heap r = true -> 0 <= size -> base + size - 1 <= rg_end r ->
  all_pages r (Z.shiftr base kPageShift) (Z.shiftr size kPageShift).
Proof.
  intros Hr Hh Hs He. destruct (region_for_in base r Hr) as [Hin Hb]. destruct (region_bounds r Hin) as (H1 & H2 & H3 & H4).
  rewrite !shiftr_page. apply pages_of_region; [done..| |]; Z.to_euclidean_division_equations; lia.
Qed.

(** ** Reserving and committing *)

Lemma extents_stepped r first count s s' : stepped r first count s s' -> extents_ok s -> extents_ok s'.
Proof. intros H. apply extents_skeleton, H. Qed.

Lemma published_consistent s s' : published s s' -> consistent s -> consistent s'.
Proof.
  intros Hp [H1 H2]. split; [by apply (published_ok s)|]. apply (extents_skeleton s); [|done].
  intros j. by rewrite (published_page s s' j Hp).
Qed.

Lemma same_pages_extents s s' : (forall j, page_at j s' = page_at j s) -> extents_ok s -> extents_ok s'.
Proof. intros H. apply extents_skeleton. intros j. by rewrite H. Qed.

Lemma owned_check first count s :
  existsb (λ i, bool_decide (state (page_at i s) = Free) || permanent_guard (page_at i s)) (seqZ first count) = false <->
  owned_pages first count s.
Proof. rewrite existsb_seqZ. unfold owned_pages. by setoid_rewrite orb_false_iff; setoid_rewrite bool_decide_eq_false. Qed.

(** A step on the pages of a range, then a publication. *)
Definition adjusted (r : RegionDescriptor) (first count : Z) (s s' : AddressSpace) : Prop :=
  exists s1, stepped r first count s s1 /\ published s1 s'.

Lemma adjusted_refl r first count s : adjusted r first count s s.
Proof. exists s. split; [apply stepped_refl|apply published_refl]. Qed.
Lemma adjusted_skeleton r first count s s' j : adjusted r first count s s' -> skeleton (page_at j s') = skeleton (page_at j s).
Proof. intros (s1 & H1 & H2). rewrite (published_page s1 s' j H2). apply H1. Qed.
Lemma adjusted_pages r first count s s' j : adjusted r first count s s' ->
  ~ touched_by r first count j -> page_at j s' = page_at j s.
Proof.
  intros (s1 & H1 & H2) Hj. rewrite (published_page s1 s' j H2). apply H1. intros k Hk Ht. apply Hj. by exists k.
Qed.

Lemma commit_pages_spec base size protect zero s r :
  region_for base = Some r -> all_pages r (Z.shiftr base kPageShift) (Z.shiftr size kPageShift) -> is_u32 size -> consistent s ->
  keeps (λ ok s', adjusted r (Z.shiftr base kPageShift) (Z.shiftr size kPageShift) s s' /\ (ok = true -> refreshed s s') /\
      (ok = true -> forall j, Z.shiftr base kPageShift <= j < Z.shiftr base kPageShift + Z.shiftr size kPageShift ->
         state (page_at j s') = Committed /\ current_protect (page_at j s') = protect) /\
      (ok = false -> valid_memory_type_protection protect = true -> owned_pages (Z.shiftr base kPageShift) (Z.shiftr size kPageShift) s ->
         exhausted (physical s')))
    (commit_pages base size protect zero s).
Proof.
  intros Hr Hp Hs [H1 H2]. unfold commit_pages.
  assert (Hno : forall Q : bool -> AddressSpace -> Prop, Q false s -> keeps Q (Some (false, s))) by (intros Q HQ; by exists false, s).
  destruct (valid_memory_type_protection protect); cbn [negb]; [|apply Hno; split_and!; [apply adjusted_refl|done..]].
  rewrite Hr. destruct (existsb _ _) eqn:E.
  { apply Hno. split_and!; [apply adjusted_refl|done..|]. intros _ _ Ho. exfalso. apply owned_check in Ho. congruence. }
  apply owned_check in E.
  assert (Hn : 0 <= Z.shiftr size kPageShift) by (apply Z.shiftr_nonneg, Hs).
  destruct (commit_loop_spec r protect zero (Z.shiftr base kPageShift) (Z.to_nat (Z.shiftr size kPageShift)) 0 [] s) as (ok & s' & -> & H3 & H4 & H5 & H6).
  - done.
  - rewrite Z.add_0_r, Z2Nat.id by done. exact Hp.
  - done.
  - intros g f Hf. by apply elem_of_nil in Hf.
  - by rewrite Z.add_0_r, Z2Nat.id.
  - cbn [mbind option_bind]. rewrite Z.add_0_r, Z2Nat.id in H5 by done. rewrite Z.add_0_l, Z2Nat.id in H4 by done.
    exists ok. eexists. split; [done|].
    assert (Hc : consistent s') by (split; [done|by eapply extents_stepped]).
    destruct ok; [|split; [done|]; split_and!; [exists s'; split; [done|apply published_refl]|done|done|intros _ _ _; by apply H6]].
    split; [eapply published_consistent; [apply publish_both_published|done]|]. split_and!.
    + exists s'. split; [done|apply publish_both_published].
    + intros _. apply (stepped_refreshes r (Z.shiftr base kPageShift) (Z.shiftr size kPageShift)); [by apply H5|done|by apply (region_word base r)|by rewrite shiftr_page|].
      rewrite !shiftr_page. unfold is_u32 in Hs. intros Hpos. Z.to_euclidean_division_equations; lia.
    + intros _ j Hj. rewrite (published_page s' _ j) by apply publish_both_published. by apply H5.
    + done.
Qed.

(** *** A new allocation *)

(** The pages of the range were free; now they are one allocation, the rest is as before. *)
Record fresh_allocation (r : RegionDescriptor) (first count : Z) (s s' : AddressSpace) : Prop := mkFresh {
  fa_free : forall j, first <= j < first + count -> page_at j s = new_page;
  fa_used : forall j, first <= j < first + count -> state (page_at j s') <> Free /\ permanent_guard (page_at j s') = false /\
    allocation_base_page (page_at j s') = first /\ allocation_page_count (page_at j s') = count /\ kind (page_at j s') = rg_kind r;
  fa_rest : forall j, ~ touched_by r first count j -> page_at j s' = page_at j s
}.

Lemma free_page s j : space_ok s -> state (page_at j s) = Free -> page_at j s = new_page.
Proof. intros [_ Hg] H. pose proof (go_shape s Hg j) as Hs. unfold page_shape in Hs. by rewrite H in Hs. Qed.

Lemma free_check s l : forallb (λ i, bool_decide (state (page_at i s) = Free)) l = true -> forall j, j ∈ l -> state (page_at j s) = Free.
Proof. intros H j Hj. rewrite forallb_forall in H. specialize (H j). rewrite bool_decide_eq_true in H. by apply H, list_elem_of_In. Qed.

Lemma fresh_adjusted r first count s s1 s' : fresh_allocation r first count s s1 -> adjusted r first count s1 s' ->
  fresh_allocation r first count s s'.
Proof.
  intros [F1 F2 F3] Ha. split; [done| |].
  - intros j Hj. destruct (F2 j Hj) as (A1 & A2 & A3 & A4 & A5). pose proof (adjusted_skeleton _ _ _ _ _ j Ha) as E.
    split; [by apply (skeleton_used s1)|]. split; [by rewrite (skeleton_guard s1 s' j E)|]. unfold skeleton in E. injection E. intros. split_and!; congruence.
  - intros j Hj. rewrite (adjusted_pages _ _ _ _ _ j Ha Hj). by apply F3.
Qed.

Lemma heap_page_of base r : is_u32 base -> region_for base = Some r -> is_heap r = true -> heap_page r (Z.shiftr base kPageShift).
Proof.
  intros Hb Hr Hh. split_and!; [|by rewrite <- region_for_page|done]. unfold page_ok_index. rewrite shiftr_page.
  change kPageCount with 0x100000. unfold is_u32 in Hb. Z.to_euclidean_division_equations; lia.
Qed.

Lemma reserve_pages_spec base size protect commit_now s r :
  is_u32 base -> region_for base = Some r -> is_heap r = true ->
  all_pages r (Z.shiftr base kPageShift) (Z.shiftr size kPageShift) -> is_u32 size -> consistent s ->
  keeps (λ ok s', (commit_now = false -> refreshed s s') /\ (ok = true -> fresh_allocation r (Z.shiftr base kPageShift) (Z.shiftr size kPageShift) s s'))
    (reserve_pages base size protect commit_now s).
Proof.
  intros Hb Hr Hh Hp Hs [H1 H2]. unfold reserve_pages. destruct (valid_memory_type_protection protect); cbn [negb]; [|by exists false, s].
  rewrite Hr. set (first := Z.shiftr base kPageShift) in *. set (count := Z.shiftr size kPageShift) in *.
  destruct (forallb _ _) eqn:E; cbn [negb]; [|by exists false, s].
  assert (Hfree : forall k, k ∈ seqZ first count -> state (page_at k s) = Free).
  { intros k Hk. rewrite forallb_forall in E. specialize (E k (proj1 (list_elem_of_In _ _) Hk)).
    apply andb_prop in E as [E _]. by apply bool_decide_eq_true in E. }
  destruct (reserve_loop_spec r base count protect (seqZ first count) s Hb) as (L1 & L2 & L3 & L4 & L5); [by apply heap_page_of| |apply NoDup_seqZ|done..|].
  { intros k Hk%elem_of_seqZ. apply Hp. lia. }
  set (s1 := foldl _ s (seqZ first count)) in *.
  assert (Hc1 : consistent s1).
  { split; [done|]. apply (extents_reserve r first count (reserved_page r base count protect) s); try done. intros k Hk. apply Hfree, elem_of_seqZ. lia. }
  assert (Hpub := publish_both_published r base size s1). set (s2 := publish_both r base size s1) in *.
  assert (Hc2 : consistent s2) by (by apply (published_consistent s1)).
  destruct (paired_all_at r first count _ s s1 Hp L2) as (P1 & _ & P3).
  assert (Hf2 : fresh_allocation r first count s s2).
  { split.
    - intros j Hj. apply free_page; [done|]. apply Hfree, elem_of_seqZ. lia.
    - intros j Hj. rewrite (published_page s1 s2 j Hpub), P1 by done. done.
    - intros j Hj. rewrite (published_page s1 s2 j Hpub). by apply P3. }
  destruct commit_now.
  2: { exists true, s2. split_and!; [done..| |done]. intros _. unfold is_u32 in Hs.
       apply (replaced_refreshes r first count (reserved_page r base count protect)); try done; [by rewrite L3|unfold first; by rewrite shiftr_page|].
       unfold first, count. rewrite !shiftr_page. intros Hpos. Z.to_euclidean_division_equations; lia. }
  destruct (commit_pages_spec base size protect true s2 r Hr Hp Hs Hc2) as (ok & s3 & -> & Hc3 & Ha & _).
  exists ok, s3. split_and!; [done..|]. intros _. by apply (fresh_adjusted r first count s s2).
Qed.

Lemma allocatable_range base size page_size :
  range_is_allocatable base size page_size = true -> 0 <= size ->
  exists r, region_for base = Some r /\ is_heap r = true /\ base + size - 1 <= rg_end r /\ 0 < size /\
    base .& (page_size - 1) = 0 /\ size .& (page_size - 1) = 0 /\ page_size = rg_page_size r.
Proof.
  unfold range_is_allocatable. intros H Hs. destruct (Z.eqb_spec size 0); [done|]. destruct (has_single_bit page_size); [|done]. cbn [orb negb] in H.
  destruct (region_for base) as [r|]; [|done]. rewrite !andb_true_iff, !Z.eqb_eq, Z.leb_le in H. exists r. split_and!; try tauto. lia.
Qed.

Lemma reserve_fixed_spec base size protect s :
  is_u32 base -> is_u32 size -> consistent s ->
  keeps (λ ok s', refreshed s s' /\ (ok = true -> exists r, region_for base = Some r /\ is_heap r = true /\ base + size - 1 <= rg_end r /\
      fresh_allocation r (Z.shiftr base kPageShift) (Z.shiftr size kPageShift) s s'))
    (reserve_fixed base size protect s).
Proof.
  intros Hb Hs Hc. unfold reserve_fixed. destruct (region_for base) as [r|] eqn:Hr; [|by exists false, s].
  destruct (range_is_allocatable base size (rg_page_size r)) eqn:E; [|by exists false, s].
  apply allocatable_range in E as (r' & Hr' & Hh & He & _); [|apply Hs]. rewrite Hr in Hr'. injection Hr' as <-.
  destruct (reserve_pages_spec base size protect false s r Hb Hr Hh) as (ok & s' & -> & Hc' & Href & Hok); [apply range_pages; [done|done|apply Hs|done]|done..|].
  exists ok, s'. split_and!; [done|done|by apply Href|]. intros E. exists r. split_and!; [done..|]. by apply Hok.
Qed.

Lemma commit_fixed_spec base size protect zero s :
  is_u32 base -> is_u32 size -> consistent s ->
  keeps (λ ok s', ok = true -> refreshed s s' /\ forall j, Z.shiftr base kPageShift <= j < Z.shiftr base kPageShift + Z.shiftr size kPageShift ->
      state (page_at j s') = Committed /\ current_protect (page_at j s') = protect)
    (commit_fixed base size protect zero s).
Proof.
  intros Hb Hs Hc. unfold commit_fixed. destruct (region_for base) as [r|] eqn:Hr; [|by exists false, s].
  destruct (range_is_allocatable base size (rg_page_size r)) eqn:E; [|by exists false, s].
  apply allocatable_range in E as (r' & Hr' & Hh & He & _); [|apply Hs]. rewrite Hr in Hr'. injection Hr' as <-.
  assert (Hp : all_pages r (Z.shiftr base kPageShift) (Z.shiftr size kPageShift)) by (apply range_pages; [done|done|apply Hs|done]).
  assert (Hfirst : keeps (λ _ s', refreshed s s') (if pages_free (Z.shiftr base kPageShift) (Z.shiftr size kPageShift) s
    then reserve_pages base size protect false s else Some (true, s))).
  { destruct (pages_free _ _ s); [|by exists true, s].
    destruct (reserve_pages_spec base size protect false s r Hb Hr Hh Hp Hs Hc) as (ok & s' & -> & Hc' & Href & _). exists ok, s'. split_and!; [done..|by apply Href]. }
  destruct Hfirst as (ok & s1 & -> & Hc1 & Hr1). cbn [mbind option_bind]. destruct ok; [|by exists false, s1].
  destruct (commit_pages_spec base size protect zero s1 r Hr Hp Hs Hc1) as (ok & s' & -> & Hc' & _ & Href & Hok & _). exists ok, s'.
  split_and!; [done..|]. intros E. split; [by eapply refreshed_trans; [|apply Href]|by apply Hok].
Qed.

(** ** Decommitting, releasing and protecting *)

Lemma align_down_floor32 k x : 0 <= k < 32 -> is_u32 x -> align_down x (2 ^ k) = x / 2 ^ k * 2 ^ k.
Proof. intros Hk Hx. by apply align_down_floor. Qed.

Lemma lor_ones k x : 0 <= k -> x .| (2 ^ k - 1) = x / 2 ^ k * 2 ^ k + (2 ^ k - 1).
Proof.
  intros Hk. replace (2 ^ k - 1) with (Z.ones k) by (rewrite Z.ones_equiv; lia).
  rewrite <- Z.shiftr_div_pow2, <- Z.shiftl_mul_pow2, <- Z.ldiff_ones_r by done.
  rewrite Z.add_nocarry_lxor. 2: { rewrite Z.ldiff_land, <- Z.land_assoc, (Z.land_comm (Z.lnot _)), Z.land_lnot_diag. apply Z.land_0_r. }
  apply Z.bits_inj'. intros i Hi. rewrite Z.lor_spec, Z.lxor_spec, Z.ldiff_spec. by destruct (Z.testbit x i), (Z.testbit (Z.ones k) i).
Qed.

Lemma heap_page_sizes r : r ∈ kRegions -> is_heap r = true ->
  exists k, (k = 12 \/ k = 16) /\ rg_page_size r = 2 ^ k /\ (2 ^ k | rg_base r) /\ (2 ^ k | rg_end r + 1).
Proof.
  assert (H : forallb (λ r, negb (is_heap r) || existsb (λ k, (rg_page_size r =? 2 ^ k) && (rg_base r mod 2 ^ k =? 0) &&
    ((rg_end r + 1) mod 2 ^ k =? 0)) [12; 16]) kRegions = true) by done.
  intros Hr%list_elem_of_In Hh. rewrite forallb_forall in H. specialize (H r Hr). rewrite Hh in H. cbn [negb orb] in H.
  apply existsb_exists in H as (k & Hk & H). rewrite !andb_true_iff, !Z.eqb_eq in H. destruct H as [[H1 H2] H3].
  assert (Hk2 : k = 12 \/ k = 16) by (destruct Hk as [<-|[<-|[]]]; auto).
  assert (Hpos : 2 ^ k <> 0) by (apply Z.pow_nonzero; lia).
  exists k. split_and!; [done|done|by apply Z.mod_divide|by apply Z.mod_divide].
Qed.

Lemma heap_pages_spec r base size :
  region_for base = Some r -> is_heap r = true -> 0 < size -> base + size - 1 <= rg_end r ->
  let '(first, last) := heap_pages r base size in
  all_pages r first (last - first + 1) /\ 0 <= last < kPageCount /\
  (first <= Z.shiftr base kPageShift /\ Z.shiftr (base + size - 1) kPageShift <= last) /\
  align_down base (rg_page_size r) = first * 4096 /\ first <= last.
Proof.
  intros Hr Hh Hs He. destruct (region_for_in base r Hr) as [Hin Hb]. destruct (region_bounds r Hin) as (B1 & B2 & B3 & B4).
  destruct (heap_page_sizes r Hin Hh) as (k & Hk & Ek & [q Hq] & [q' Hq']). unfold heap_pages. rewrite Ek.
  rewrite align_down_floor32 by (unfold is_u32; destruct Hk as [-> | ->]; lia). rewrite lor_ones by (destruct Hk as [-> | ->]; lia). change kPageCount with 0x100000. rewrite !shiftr_page.
  assert (Hall : forall u, (u = 4096 \/ u = 65536) -> rg_base r = q * u -> rg_end r + 1 = q' * u ->
    let first := base / u * u / 4096 in
    let last := u32 (Z.min (rg_end r) ((base + size - 1) / u * u + (u - 1)) / 4096) in
    rg_base r <= first * 4096 /\ (last + 1) * 4096 <= rg_end r + 1 /\ 0 <= last < 0x100000 /\ (first <= base / 4096 /\ (base + size - 1) / 4096 <= last) /\
    base / u * u = first * 4096 /\ first <= last).
  { intros u Hu E1 E2 first last.
    assert (El : last = Z.min (rg_end r) ((base + size - 1) / u * u + (u - 1)) / 4096).
    { apply u32_small. unfold is_u32. destruct Hu as [-> | ->]; Z.to_euclidean_division_equations; lia. }
    rewrite El. unfold first. clear El last first. destruct Hu as [-> | ->]; Z.to_euclidean_division_equations; lia. }
  destruct (Hall (2 ^ k)) as (A1 & A2 & A3 & A4 & A5 & A6); [destruct Hk as [-> | ->]; auto|done..|].
  split_and!; try tauto. apply pages_of_region; [done..|]. by rewrite Z.add_simpl_r || (etransitivity; [|exact A2]; lia).
Qed.

Lemma each_stepped r first count (f : Z -> AddressSpace -> option AddressSpace) (Q : Z -> Page -> Prop) s :
  all_pages r first count ->
  (forall i s, first <= i < first + count -> space_ok s -> state (page_at i s) <> Free -> permanent_guard (page_at i s) = false ->
     exists s', f i s = Some s' /\ space_ok s' /\ stepped r i 1 s s' /\ Q i (page_at i s')) ->
  space_ok s -> owned_pages first count s ->
  exists s', each f (seqZ first count) s = Some s' /\ space_ok s' /\ stepped r first count s s' /\
    forall j, first <= j < first + count -> Q j (page_at j s').
Proof.
  intros Hp Hf Hs Ho.
  assert (H : forall l s1 done_, (forall x, x ∈ l -> first <= x < first + count) -> NoDup (done_ ++ l) ->
    (forall x, x ∈ done_ -> first <= x < first + count) -> space_ok s1 -> stepped r first count s s1 ->
    (forall x, x ∈ done_ -> Q x (page_at x s1)) ->
    exists s', each f l s1 = Some s' /\ space_ok s' /\ stepped r first count s s' /\ forall x, x ∈ done_ ++ l -> Q x (page_at x s')).
  { induction l as [|x l IH]; intros s1 done_ Hl Hn Hd Hs1 Hst HQ; cbn [each]; [exists s1; by rewrite app_nil_r|].
    assert (Hx : first <= x < first + count) by (apply Hl; by left).
    destruct (owned_stepped _ _ _ _ _ _ _ Hst Ho x Hx) as [O1 O2].
    destruct (Hf x s1 Hx Hs1 O1 O2) as (s2 & -> & Hs2 & Hst2 & Hq). cbn [mbind option_bind].
    destruct (IH s2 (done_ ++ [x])) as (s' & E & A1 & A2 & A3).
    - intros y Hy. apply Hl. by right.
    - by rewrite <- app_assoc.
    - intros y [Hy| ->%list_elem_of_singleton]%elem_of_app; [by apply Hd|done].
    - done.
    - eapply stepped_trans; [exact Hst|]. eapply stepped_widen; [| |exact Hst2]; lia.
    - intros y [Hy| ->%list_elem_of_singleton]%elem_of_app; [|done].
      rewrite (st_pages _ _ _ _ _ Hst2); [by apply HQ|]. intros k Hk. replace k with x by lia. apply not_touched; [by apply Hp|by apply Hp, Hd|].
      intros ->. apply NoDup_app in Hn as (_ & Hn & _). apply (Hn x Hy). by left.
    - exists s'. split_and!; [done..|]. intros y Hy. apply A3. by rewrite <- app_assoc. }
  destruct (H (seqZ first count) s []) as (s' & E & A1 & A2 & A3).
  - intros x Hx%elem_of_seqZ. lia.
  - apply NoDup_seqZ.
  - intros x Hx. by apply elem_of_nil in Hx.
  - done.
  - apply stepped_refl.
  - intros x Hx. by apply elem_of_nil in Hx.
  - exists s'. split_and!; [done..|]. intros j Hj. apply A3, elem_of_seqZ. lia.
Qed.

Lemma space_decommit_spec base size s :
  is_u32 base -> 0 <= size -> consistent s ->
  keeps (λ ok s', refreshed s s' /\ (ok = true -> exists r, region_for base = Some r /\ is_heap r = true /\
      let '(first, last) := heap_pages r base size in
      adjusted r first (last - first + 1) s s' /\ forall j, first <= j <= last -> state (page_at j s') = Reserved))
    (space_decommit base size s).
Proof.
  intros Hb Hs [H1 H2]. unfold space_decommit. destruct (Z.eqb_spec size 0) as [|Hne]; [by exists false, s|].
  destruct (region_for base) as [r|] eqn:Hr; [|by exists false, s]. destruct (is_heap r) eqn:Hh; cbn [negb orb]; [|by exists false, s].
  destruct (Z.ltb_spec (rg_end r) (base + size - 1)) as [|Hend]; [by exists false, s|].
  pose proof (heap_pages_spec r base size Hr Hh ltac:(lia) Hend) as Hp. destruct (heap_pages r base size) as [first last] eqn:Ehp.
  destruct Hp as (Hp & Hl & _ & Hal & Hle). destruct (existsb _ _) eqn:E; [by exists false, s|]. apply owned_check in E.
  destruct (each_stepped r first (last - first + 1) (decommit_page r) (λ _ p, state p = Reserved) s Hp) as (s' & -> & A1 & A2 & A3); [|done..|].
  { intros i s1 Hi Hs1 Hf Hg. apply decommit_page_spec; [done|by apply Hp|done|done|lia]. }
  cbn [mbind option_bind]. exists true. eexists. split; [done|]. set (s2 := publish_both _ _ _ _).
  assert (Hpub : published s' s2) by apply publish_both_published.
  split; [apply (published_consistent s' s2 Hpub); split; [done|by eapply extents_stepped]|].
  change kPageCount with 0x100000 in Hl. change (rg_page_size r) with (rg_page_size r) in Hal. split.
  { assert (Hf0 : 0 <= first) by (destruct (Hp first ltac:(lia)) as [[? _] _]; done).
    apply (stepped_refreshes r first (last - first + 1)); [done|done|rewrite Hal; unfold is_u32; lia|rewrite Hal; by apply Z.div_mul|].
    rewrite Hal. change kBasePageSize with 4096. intros _. lia. }
  intros _. exists r. rewrite Ehp. split_and!; [done..| |].
  - by exists s'.
  - intros j Hj. rewrite (published_page s' s2 j Hpub). apply A3. lia.
Qed.

Lemma release_loop_spec r l s :
  (forall k, k ∈ l -> heap_page r k) -> NoDup l -> space_ok s ->
  (forall k, k ∈ l -> state (page_at k s) <> Free /\ permanent_guard (page_at k s) = false) ->
  exists s', each (release_page r) l s = Some s' /\ space_ok s' /\ paired_all r l new_page s s' /\
    same_metadata (physical s) (physical s') /\ hot_pages_ s' = hot_pages_ s /\ mmio_ranges_ s' = mmio_ranges_ s.
Proof.
  revert s. induction l as [|i l IH]; intros s Hl Hn Hs Ho; cbn [each]; [exists s; split_and!; [done|done|apply paired_all_nil|done..]|].
  apply NoDup_cons in Hn as [Hni Hn]. destruct (Ho i) as [O1 O2]; [by left|].
  destruct (release_page_spec r i s Hs) as (s1 & -> & A1 & A2 & A3 & A4 & A5); [apply Hl; by left|done..|]. cbn [mbind option_bind].
  destruct (IH s1) as (s' & -> & B1 & B2 & B3 & B4 & B5); [intros k Hk; apply Hl; by right|done|done| |].
  - intros k Hk. rewrite A2. rewrite decide_False by (intros ->; done).
    rewrite decide_False; [apply Ho; by right|]. apply not_touched; [apply Hl; by left|apply Hl; by right|intros ->; done].
  - exists s'. split_and!; [done|done| | |congruence..].
    + eapply paired_all_cons; [apply Hl; by left|intros k Hk; apply Hl; by right|exact A2|done].
    + intros p. by rewrite B3, A3.
Qed.

Lemma space_release_spec base s :
  is_u32 base -> consistent s ->
  keeps (λ ok s', refreshed s s' /\ (ok = true -> exists r, region_for base = Some r /\ is_heap r = true /\
      let first := Z.shiftr base kPageShift in
      let count := allocation_page_count (page_at first s) in
      0 < count /\ (forall j, first <= j < first + count -> page_at j s' = new_page) /\
      forall j, ~ touched_by r first count j -> page_at j s' = page_at j s))
    (space_release base s).
Proof.
  intros Hb [H1 H2]. unfold space_release. set (first := Z.shiftr base kPageShift).
  destruct (bool_decide_reflect (state (page_at first s) = Free)) as [|Hf]; [by exists false, s|].
  destruct (permanent_guard (page_at first s)) eqn:Hg; [by exists false, s|].
  destruct (Z.eqb_spec (allocation_base_page (page_at first s)) first) as [Eb|]; [|by exists false, s].
  destruct (Z.eqb_spec (allocation_page_count (page_at first s)) 0) as [|Ec]; [by exists false, s|]. cbn [orb negb].
  destruct (region_for base) as [r|] eqn:Hr; [|by exists false, s]. destruct (is_heap r) eqn:Hh; [|by exists false, s]. cbn [negb].
  destruct (H2 first Hf Hg) as [Hin Hall]. rewrite Eb in Hin, Hall. set (count := allocation_page_count (page_at first s)) in *.
  assert (Hp : all_pages r first count). { intros k Hk. destruct (Hall k Hk) as (_ & _ & _ & _ & A). by apply A, heap_page_of. }
  destruct (release_loop_spec r (seqZ first count) s) as (s' & -> & A1 & A2 & A3 & A4 & A5).
  - intros k Hk%elem_of_seqZ. apply Hp. lia.
  - apply NoDup_seqZ.
  - done.
  - intros k Hk%elem_of_seqZ. destruct (Hall k) as (? & ? & _); [lia|done].
  - cbn [mbind option_bind]. exists true. eexists. split; [done|]. set (s2 := publish_both _ _ _ _).
    assert (Hpub : published s' s2) by apply publish_both_published.
    destruct (paired_all_at r first count new_page s s' Hp A2) as (P1 & _ & P3).
    split.
    + apply (published_consistent s' s2 Hpub). split; [done|]. apply (extents_release r first count s); try done.
      intros k Hk. destruct (Hall k Hk) as (_ & _ & ? & ? & _). done.
    + split.
      { apply (replaced_refreshes r first count new_page); try done; [unfold first; by rewrite shiftr_page|]. intros _.
        destruct (Hp first ltac:(lia)) as [[F0 _] _]. destruct (Hp (first + count - 1) ltac:(lia)) as [[_ F1] _]. change kPageCount with 0x100000 in F1.
        change kBasePageSize with 4096. unfold is_u32 in Hb. assert (Efirst : first = base / 4096) by (unfold first; by rewrite shiftr_page).
        destruct (Z.eq_dec count 0x100000) as [E|]; [exfalso|].
        - destruct (Hp 0x7FFFF ltac:(lia)) as (_ & Er & Eh). change (region_of 0x7FFFF) with (Some (mkRegion kGpuWritebackBase kGpuWritebackEnd kLargePageSize GpuWriteback)) in Er.
          injection Er as <-. done.
        - rewrite u32_small by (unfold is_u32; lia). Z.to_euclidean_division_equations; lia. }
      intros _. exists r. split_and!; [done..|lia| |]; intros j Hj; rewrite (published_page s' s2 j Hpub); [by apply P1|by apply P3].
Qed.

Lemma mirror_protect p : current_protect (mirror p) = current_protect p.
Proof. unfold mirror. by destruct (bool_decide _). Qed.

Lemma protect_page_spec protect r i s first count :
  space_ok s -> heap_page r i -> state (page_at i s) = Committed -> permanent_guard (page_at i s) = false -> first <= i < first + count ->
  exists s1, stepped r first count s s1 /\ published s1 (protect_page protect i s) /\ space_ok s1 /\
    (forall j, current_protect (page_at j s1) = if decide (touches r i j) then protect else current_protect (page_at j s)) /\
    (forall j, state (page_at j s1) = state (page_at j s)) /\ refreshed s (protect_page protect i s).
Proof.
  intros Hs Hr Hc Hg Hi. unfold protect_page. set (s0 := if (_ && _)%bool then _ else s).
  assert (H0 : space_ok s0 /\ (forall j, page_at j s0 = page_at j s) /\ same_metadata (physical s) (physical s0) /\ hot_pages_ s0 = hot_pages_ s /\ mmio_ranges_ s0 = mmio_ranges_ s).
  { unfold s0. destruct (_ && _); [|done]. destruct Hs as [Hp Hgo]. split_and!; try done.
    - split; [by apply advance_ok|]. apply (guest_frame s); try done.
      + intros f g. cbn. unfold advance_executable_generation. by destruct (_ <? _).
      + intros f. cbn. unfold advance_executable_generation. by destruct (_ <? _).
    - intros p. cbn. unfold advance_executable_generation. by destruct (_ <? _). }
  destruct H0 as (H0 & Hpg & Hm & Hh & Hq).
  assert (Hk : bool_decide (kind (page_at i s) = Xex) = is_xex r).
  { destruct (page_place_kind r i (page_at i s) Hr) as [-> _]; [|done]. apply place_of; [done|by rewrite Hc]. }
  rewrite Hk. clearbody s0. fold (protect_pair r protect i s0).
  destruct (protect_pair_spec r protect i s0 first count H0 Hr) as (A1 & A2 & A3 & A4); [by rewrite Hpg..|done|].
  exists (protect_pair r protect i s0). split_and!.
  - eapply stepped_trans; [|exact A2]. split; try done. intros j. by rewrite Hpg.
  - destruct (is_xex r); [|apply publish_hot_page_published]. eapply published_trans; apply publish_hot_page_published.
  - done.
  - intros j. rewrite A3. destruct (decide (j = i)) as [->|]; [by rewrite decide_True by (by left)|].
    destruct (decide (touches r i j)); [by rewrite mirror_protect|by rewrite Hpg].
  - intros j. rewrite A3, Hpg. destruct (decide (j = i)) as [->|]; [done|].
    destruct (decide (touches r i j)) as [[?|[Hx ->]]|]; [done| |by rewrite Hpg].
    rewrite mirror_state. rewrite (go_mirror s (so_guest s Hs) r i Hr Hx), mirror_state. done.
  - assert (Hsame : forall g, ~ touches r i g -> make_hot_entry g (protect_pair r protect i s0) = make_hot_entry g s).
    { intros g Ht. apply make_hot_entry_same; [by rewrite (st_mmio _ _ _ _ _ A2)| |intros _; by rewrite (st_metadata _ _ _ _ _ A2), Hm].
      rewrite A3, Hpg. rewrite decide_False by (intros ->; apply Ht; by left). by rewrite decide_False. }
    assert (Hhot : hot_pages_ (protect_pair r protect i s0) = hot_pages_ s) by (by rewrite (st_hot _ _ _ _ _ A2)).
    assert (Hmm : mmio_ranges_ (protect_pair r protect i s0) = mmio_ranges_ s) by (by rewrite (st_mmio _ _ _ _ _ A2)).
    destruct (is_xex r) eqn:Hx.
    + apply (publish_refreshes [i; alias_page i]); [done..|]. intros g _ Hno. apply Hsame. intros [->|[_ ->]]; apply Hno; [by left|right; by left].
    + apply (publish_refreshes [i]); [done..|]. intros g _ Hno. apply Hsame. intros [->|[Hxe _]]; [apply Hno; by left|congruence].
Qed.

Lemma adjusted_trans r first count s1 s2 s3 : adjusted r first count s1 s2 -> adjusted r first count s2 s3 -> adjusted r first count s1 s3.
Proof.
  intros (t1 & A & P) (t2 & B & P').
  assert (Hpg : forall j, page_at j s2 = page_at j t1) by (intros j; by apply published_page).
  exists (set_hot (hot_pages_ s1) t2). split; [|done]. split; try done.
  - intros j. change (page_at j (set_hot _ t2)) with (page_at j t2). by rewrite (st_skeleton _ _ _ _ _ B), Hpg, (st_skeleton _ _ _ _ _ A).
  - intros j Hj. change (page_at j (set_hot _ t2)) with (page_at j t2). by rewrite (st_pages _ _ _ _ _ B j Hj), Hpg, (st_pages _ _ _ _ _ A j Hj).
  - intros p. cbn. rewrite (st_metadata _ _ _ _ _ B). destruct P as (_ & _ & m & ->). apply (st_metadata _ _ _ _ _ A).
  - cbn. rewrite (st_mmio _ _ _ _ _ B). destruct P as (_ & -> & _). apply A.
Qed.

Lemma adjusted_owned r first count first' count' s s' : adjusted r first' count' s s' -> owned_pages first count s -> owned_pages first count s'.
Proof.
  intros H Ho j Hj. destruct (Ho j Hj) as [H1 H2]. pose proof (adjusted_skeleton _ _ _ _ _ j H) as E.
  split; [by apply (skeleton_used s)|by rewrite (skeleton_guard s s' j E)].
Qed.

Lemma adjusted_extents r first count s s' : adjusted r first count s s' -> extents_ok s -> extents_ok s'.
Proof. intros H. apply extents_skeleton. intros j. by eapply adjusted_skeleton. Qed.

Lemma space_protect_spec base size protect s :
  is_u32 base -> 0 <= size -> consistent s ->
  let '(old, s') := space_protect base size protect s in
  consistent s' /\ refreshed s s' /\ (forall o, old = Some o -> exists r, region_for base = Some r /\ is_heap r = true /\
     let '(first, last) := heap_pages r base size in
     o = current_protect (page_at first s) /\ adjusted r first (last - first + 1) s s' /\
     forall j, first <= j <= last -> state (page_at j s') = Committed /\ current_protect (page_at j s') = protect).
Proof.
  intros Hb Hs Hc. unfold space_protect. destruct (_ || _) eqn:Eg; [done|]. apply orb_false_iff in Eg as [Hne%Z.eqb_neq _].
  destruct (region_for base) as [r|] eqn:Hr; [|done]. destruct (is_heap r) eqn:Hh; cbn [negb orb]; [|done].
  destruct (Z.ltb_spec (rg_end r) (base + size - 1)) as [|Hend]; [done|].
  pose proof (heap_pages_spec r base size Hr Hh ltac:(lia) Hend) as Hp. destruct (heap_pages r base size) as [first last] eqn:Ehp.
  destruct Hp as (Hp & Hl & _ & _ & Hle). rewrite (proj2 (Z.leb_gt kPageCount last)) by lia. destruct (existsb _ _) eqn:E; [done|].
  assert (Hall : forall j, first <= j < first + (last - first + 1) -> state (page_at j s) = Committed /\ permanent_guard (page_at j s) = false).
  { intros j Hj. rewrite existsb_seqZ in E. specialize (E j Hj). rewrite !orb_false_iff, negb_false_iff, bool_decide_eq_true in E. tauto. }
  set (count := last - first + 1) in *.
  assert (H : forall n i s1, 0 <= i -> i + Z.of_nat n = count -> space_ok s1 -> adjusted r first count s s1 -> refreshed s s1 ->
    (forall j, state (page_at j s1) = state (page_at j s)) -> (forall j, first <= j < first + i -> current_protect (page_at j s1) = protect) ->
    let s' := foldl (λ s i, protect_page protect i s) s1 (seqZ (first + i) (Z.of_nat n)) in
    space_ok s' /\ adjusted r first count s s' /\ refreshed s s' /\ (forall j, state (page_at j s') = state (page_at j s)) /\
    (forall j, first <= j < first + count -> current_protect (page_at j s') = protect)).
  { induction n as [|n IH]; intros i s1 Hi Hn Hs1 Ha Href Hst Hpr.
    - cbn [foldl]. change (seqZ (first + i) (Z.of_nat 0)) with (@nil Z). cbn [foldl]. split_and!; try done. intros j Hj. apply Hpr. lia.
    - rewrite seqZ_cons by lia. replace (Z.pred (Z.of_nat (S n))) with (Z.of_nat n) by lia. replace (Z.succ (first + i)) with (first + (i + 1)) by lia. cbn [foldl].
      destruct (Hall (first + i)) as [C1 C2]; [lia|].
      destruct (protect_page_spec protect r (first + i) s1 first count Hs1) as (s2 & A1 & A2 & A3 & A4 & A5 & A6).
      { apply Hp. lia. } { by rewrite Hst. } { by rewrite (skeleton_guard s s1 _ (adjusted_skeleton _ _ _ _ _ _ Ha)). } { lia. }
      assert (Hpg : forall j, page_at j (protect_page protect (first + i) s1) = page_at j s2) by (intros j; by apply published_page).
      apply IH; [lia|lia|by apply (published_ok s2)| | | |].
      + eapply adjusted_trans; [exact Ha|by exists s2].
      + by eapply refreshed_trans.
      + intros j. by rewrite Hpg, A5.
      + intros j Hj. rewrite Hpg, A4. destruct (decide (touches r (first + i) j)); [done|]. apply Hpr.
        destruct (Z.eq_dec j (first + i)) as [->|]; [|lia]. exfalso. apply n0. by left. }
  destruct (H (Z.to_nat count) 0 s) as (A1 & A2 & A0 & A3 & A4); [done|unfold count; lia|apply Hc|apply adjusted_refl|done|done|intros j Hj; lia|].
  rewrite Z.add_0_r, Z2Nat.id in A1, A2, A3, A4, A0 by lia. set (s' := foldl _ _ _) in *. split_and!.
  - split; [done|]. eapply adjusted_extents; [exact A2|apply Hc].
  - done.
  - intros o [= <-]. exists r. rewrite Ehp. split_and!; [done..|]. intros j Hj. split; [|apply A4; lia].
    rewrite A3. apply Hall. lia.
Qed.

(** ** Explicit mappings *)

Definition in_run (i : Z) (r : Z * Z) : Prop := fst r <= i < fst r + snd r.

(** The runs are the maximal stretches with [f]; here: they have [f], lie in the range, are
    ascending, and miss nothing. *)
Lemma runs_spec f n a cur :
  match cur with Some (x, c) => 0 < c /\ x + c = a /\ forall i, x <= i < a -> f i = true | None => True end ->
  let lo := match cur with Some (x, _) => x | None => a end in
  let l := runs f cur (seqZ a (Z.of_nat n)) in
  Forall (λ r, 0 < snd r /\ lo <= fst r /\ fst r + snd r <= a + Z.of_nat n /\ forall i, in_run i r -> f i = true) l /\
  StronglySorted (λ r r', fst r + snd r <= fst r') l /\
  forall i, lo <= i < a + Z.of_nat n -> f i = true -> Exists (in_run i) l.
Proof.
  revert a cur. induction n as [|n IH]; intros a cur Hcur lo l.
  - unfold l. change (seqZ a (Z.of_nat 0)) with (@nil Z). cbn [runs]. destruct cur as [[x c]|]; unfold lo, in_run.
    + destruct Hcur as (Hc & <- & Hf). split_and!.
      * apply Forall_cons_2; [|apply Forall_nil_2]. cbn. split_and!; [lia..|]. intros i Hi. apply Hf. lia.
      * repeat constructor.
      * intros i Hi _. apply Exists_cons_hd. cbn. lia.
    + split_and!; [apply Forall_nil_2|constructor|]. intros i Hi. lia.
  - unfold l. rewrite seqZ_cons by lia. replace (Z.pred (Z.of_nat (S n))) with (Z.of_nat n) by lia. cbn [runs]. destruct (f a) eqn:Ef.
    + destruct (IH (Z.succ a) (Some match cur with Some (first, count) => (first, count + 1) | None => (a, 1) end)) as (A & B & C).
      { destruct cur as [[x c]|]; [destruct Hcur as (Hc & <- & Hf)|]; split_and!; try lia.
        - intros i Hi. destruct (Z.eq_dec i (x + c)) as [->|]; [done|]. apply Hf. lia.
        - intros i Hi. by replace i with a by lia. }
      set (l' := runs _ _ _) in *. split_and!; [|done|].
      * eapply Forall_impl; [exact A|]. cbv beta. intros r (R1 & R2 & R3 & R4). split_and!; [done|unfold lo; destruct cur as [[x c]|]; cbn in R2; lia|lia|done].
      * intros i Hi. apply C. unfold lo in Hi. destruct cur as [[x c]|]; cbn; lia.
    + destruct (IH (Z.succ a) None I) as (A & B & C). destruct cur as [[x c]|].
      * destruct Hcur as (Hc & <- & Hf). split_and!.
        -- apply Forall_cons_2; [cbn; split_and!; [lia..|]; intros i Hi; apply Hf; unfold in_run in Hi; cbn in Hi; lia|].
           eapply Forall_impl; [exact A|]. cbv beta. unfold lo. intros r (R1 & R2 & R3 & R4). split_and!; [done|lia|lia|done].
        -- constructor; [done|]. eapply List.Forall_impl; [|exact A]. cbv beta. cbn. intros r (_ & R & _). lia.
        -- intros i Hi Hfi. unfold lo in Hi. destruct (Z.lt_ge_cases i (x + c)); [apply Exists_cons_hd; unfold in_run; cbn; lia|].
           apply Exists_cons_tl, C; [|done]. destruct (Z.eq_dec i (x + c)) as [->|]; [congruence|lia].
      * split_and!; [|done|].
        -- eapply Forall_impl; [exact A|]. cbv beta. unfold lo. intros r (R1 & R2 & R3 & R4). split_and!; [done|lia|lia|done].
        -- intros i Hi Hfi. apply C; [|done]. unfold lo in Hi. destruct (Z.eq_dec i a) as [->|]; [congruence|lia].
Qed.

Lemma until_seqZ (f : Z -> bool) n a : exists m, until f (seqZ a (Z.of_nat n)) = seqZ a (Z.of_nat m) /\ (m <= n)%nat.
Proof.
  revert a. induction n as [|n IH]; intros a; [by exists 0%nat|]. rewrite seqZ_cons by lia. cbn [until]. destruct (f a); [exists 0%nat; split; [done|lia]|].
  replace (Z.pred (Z.of_nat (S n))) with (Z.of_nat n) by lia. destruct (IH (Z.succ a)) as (m & -> & Hm). exists (S m). split; [|lia].
  rewrite (seqZ_cons a) by lia. f_equal. f_equal. lia.
Qed.

Lemma claim_run_spec protect first count s :
  phys_ok s -> valid_memory_type_protection protect = true -> 0 <= first -> 0 < count -> first + count <= kPhysicalPageCount ->
  (forall p, first <= p < first + count -> used p s = kPhysicalFree) ->
  exists s', claim_run protect (first, count) s = Some s' /\ phys_ok s' /\ same_maps s s' /\
    (forall p, used p s' = fill_at first count kPhysicalExplicit (λ p, used p s) p) /\
    forall p, ~ first <= p < first + count -> metadata p s' = metadata p s.
Proof.
  intros Hs Hv Hf Hc He Hfree. assert (Hw : is_u32 first /\ is_u32 count) by (change kPhysicalPageCount with 0x20000 in He; unfold is_u32; lia).
  unfold claim_run. destruct (claim_spec first count (physical_allocator_ s) (po_ranges _ Hs)) as (a & -> & Ha & HR & HF); [apply Hw..|done| |].
  { intros p Hp. apply (po_free _ Hs). split; [unfold frame_ok; lia|by apply Hfree]. }
  cbn [negb]. eexists. split; [done|]. set (s' := set_allocation _ _ _ _ _).
  assert (Hu : forall p, used p s' = fill_at first count kPhysicalExplicit (λ p, used p s) p) by (intros p; apply (used_fill first count kPhysicalExplicit (physical_page_used_ s) s p)).
  assert (Hd : forall p, metadata p s' = fill_at first count (mkMetadata first count kBasePageSize protect protect true) (λ p, metadata p s) p)
    by (intros p; apply (metadata_fill first count _ (physical_page_metadata_ s) s p)).
  split_and!; try done; [by apply (explicit_change s s' first count kBasePageSize protect)|].
  intros p Hp. rewrite Hd. unfold fill_at. by rewrite bool_decide_false.
Qed.

Lemma claim_runs_spec protect l s :
  phys_ok s -> valid_memory_type_protection protect = true ->
  Forall (λ r, 0 < snd r /\ 0 <= fst r /\ fst r + snd r <= kPhysicalPageCount /\ forall i, in_run i r -> used i s = kPhysicalFree) l ->
  StronglySorted (λ r r', fst r + snd r <= fst r') l ->
  exists s', each (claim_run protect) l s = Some s' /\ phys_ok s' /\ same_maps s s' /\
    (forall p, used p s' = if decide (Exists (in_run p) l) then kPhysicalExplicit else used p s) /\
    forall p, ~ Exists (in_run p) l -> metadata p s' = metadata p s.
Proof.
  intros Hs Hv. revert s Hs. induction l as [|[x c] l IH]; intros s Hs Hl Hsort; cbn [each].
  { exists s. by split_and!. }
  apply Forall_cons in Hl as [(H1 & H2 & H3 & H4) Hl]. apply StronglySorted_inv in Hsort as [Hsort Hx]. cbn in H1, H2, H3.
  destruct (claim_run_spec protect x c s Hs Hv H2 H1 H3 H4) as (s1 & -> & Hs1 & Hm1 & Hu1 & Hd1). cbn [mbind option_bind].
  destruct (IH s1 Hs1) as (s' & -> & Hs' & Hm' & Hu' & Hd'); [|done|].
  - rewrite List.Forall_forall in Hl, Hx |- *. intros r Hr. destruct (Hl r Hr) as (R1 & R2 & R3 & R4). split_and!; [done..|].
    intros i Hi. specialize (Hx r Hr). cbn in Hx. unfold in_run in Hi. rewrite Hu1. unfold fill_at. rewrite bool_decide_false by lia. by apply R4.
  - exists s'. split_and!; [done|done|unfold same_maps in *; congruence| |].
    2: { intros p Hp. rewrite Hd' by (intros ?; apply Hp; by apply Exists_cons_tl). apply Hd1. intros ?. apply Hp. by apply Exists_cons_hd. }
    intros p. rewrite Hu', Hu1. unfold fill_at.
    destruct (decide (Exists (in_run p) l)) as [He|He]; [by rewrite decide_True by (by apply Exists_cons_tl)|].
    destruct (bool_decide_reflect (x <= p < x + c)) as [Hp|Hp]; [by rewrite decide_True by (by apply Exists_cons_hd)|].
    rewrite decide_False; [done|]. by intros [?|?]%Exists_cons.
Qed.

Lemma reclaimed_refreshes s ph : reclaimed (physical s) ph -> refreshed s (with_physical ph s).
Proof. intros (_ & Hd & _). apply unchanged_refreshes; [done|done|]. intros g _. apply make_hot_entry_same; [done|done|]. intros _. cbn. by rewrite Hd. Qed.

Definition mapping_page (first physical_first count : Z) (protect : Protect) (i : Z) : Page :=
  mkPage (physical_first + i) first count protect protect Committed Virtual true false.

Lemma map_page_spec r first physical_first count protect i s :
  space_ok s -> heap_page r (first + i) -> rg_kind r = Virtual -> state (page_at (first + i) s) = Free ->
  frame_ok (physical_first + i) -> used (physical_first + i) (physical s) <> kPhysicalFree -> used (physical_first + i) (physical s) <> kPhysicalRetired ->
  exists s', map_page first physical_first count protect i s = Some s' /\ space_ok s' /\
    paired r (first + i) (mapping_page first physical_first count protect i) s s' /\ same_used (physical s) (physical s') /\
    same_metadata (physical s) (physical s') /\ hot_pages_ s' = hot_pages_ s /\ mmio_ranges_ s' = mmio_ranges_ s.
Proof.
  intros [Hp Hg] Hr Hk Hf Hfr Hu1 Hu2. unfold map_page. set (q := mkPage _ _ _ _ _ _ _ _ _).
  assert (Hq : q = mapping_page first physical_first count protect i) by (unfold q; rewrite (free_page s (first + i) (mkSpaceOk s Hp Hg) Hf); done).
  rewrite Hq. clear q Hq. set (q := mapping_page _ _ _ _ _). set (f := physical_first + i) in *. set (g := first + i) in *.
  assert (Hx : is_xex r = false) by (unfold is_xex; by rewrite Hk).
  assert (Hno : maps (physical s) f g = false).
  { apply not_true_iff_false. rewrite (go_backed s Hg). intros [Hc _]. by rewrite Hf in Hc. }
  destruct (add_ref_spec f g (physical s) Hp Hfr (proj1 Hr) Hno Hu1 Hu2) as (ph & E & Hp' & Hsu & Hsm & Hm).
  unfold lift_physical. cbn [physical set_page]. rewrite E. cbn [mbind option_bind]. eexists. split; [done|].
  set (s' := with_physical ph (set_page g q s)).
  assert (Hpair : paired r g q s s').
  { intros j. unfold s'. rewrite page_at_physical, page_at_set. destruct (decide (j = g)); [done|]. rewrite decide_False; [done|]. intros [?|[? _]]; [done|congruence]. }
  assert (Ht : forall j, touches r g j <-> j = g) by (intros j; unfold touches; split; [intros [?|[? _]]; [done|congruence]|by left]).
  split_and!; try done. split; [done|]. apply (guest_update s s' r g q); try done.
  - unfold page_shape. cbn. split; [exists r; split_and!; [done|done|congruence]|done].
  - intros f' j. change (physical s') with ph. rewrite Hm, orb_true_iff, bool_decide_eq_true. destruct (decide (touches r g j)) as [Hj|Hj].
    + apply Ht in Hj as ->. rewrite (go_backed s Hg). unfold backed_by. cbn. split; [intros [[Hc _]|[-> _]]; [by rewrite Hf in Hc|done]|intros (_ & _ & <-); by right].
    + split; [intros [?|[_ ->]]; [done|exfalso; apply Hj; by left]|by left].
  - intros f' Hf'. right. change (physical s') with ph in Hf'. rewrite Hsu in Hf'. split; [done|]. intros [[Hc _] _]. by rewrite Hf in Hc.
Qed.

Lemma map_loop_spec r first physical_first count protect n i s :
  space_ok s -> rg_kind r = Virtual -> (forall k, i <= k < i + Z.of_nat n -> heap_page r (first + k) /\ state (page_at (first + k) s) = Free /\
    frame_ok (physical_first + k) /\ used (physical_first + k) (physical s) <> kPhysicalFree /\ used (physical_first + k) (physical s) <> kPhysicalRetired) ->
  exists s', each (map_page first physical_first count protect) (seqZ i (Z.of_nat n)) s = Some s' /\ space_ok s' /\
    same_metadata (physical s) (physical s') /\ hot_pages_ s' = hot_pages_ s /\ mmio_ranges_ s' = mmio_ranges_ s /\
    forall j, page_at j s' = if decide (first + i <= j < first + i + Z.of_nat n) then mapping_page first physical_first count protect (j - first) else page_at j s.
Proof.
  intros Hs Hk. revert i s Hs. induction n as [|n IH]; intros i s Hs H.
  { exists s. split_and!; [done..|]. intros j. rewrite decide_False; [done|lia]. }
  rewrite seqZ_cons by lia. replace (Z.pred (Z.of_nat (S n))) with (Z.of_nat n) by lia. cbn [each].
  destruct (H i) as (H1 & H2 & H3 & H4 & H5); [lia|].
  destruct (map_page_spec r first physical_first count protect i s Hs H1 Hk H2 H3 H4 H5) as (s1 & -> & Hs1 & Hpair & Hu & Hd & Hh & Hq). cbn [mbind option_bind].
  assert (Hpg : forall j, page_at j s1 = if decide (j = first + i) then mapping_page first physical_first count protect i else page_at j s).
  { intros j. rewrite Hpair. destruct (decide (j = first + i)); [done|]. rewrite decide_False; [done|].
    intros [?|[Hx _]]; [done|]. unfold is_xex in Hx. by rewrite Hk in Hx. }
  destruct (IH (Z.succ i) s1 Hs1) as (s' & -> & Hs' & Hd' & Hh' & Hq' & Hall).
  - intros k Hk'. destruct (H k) as (K1 & K2 & K3 & K4 & K5); [lia|]. rewrite Hpg, decide_False by lia. by rewrite !Hu.
  - exists s'. split_and!; [done|done|intros p; by rewrite Hd', Hd|congruence..|]. intros j. rewrite Hall, Hpg. destruct (decide (j = first + i)) as [->|].
    + rewrite decide_False by lia. rewrite decide_True by lia. f_equal. lia.
    + destruct (decide (first + Z.succ i <= j < first + Z.succ i + Z.of_nat n)); [by rewrite decide_True by lia|by rewrite decide_False by lia].
Qed.

(** The table where all the pages of the range became [p]. *)
Lemma extents_map r first count (q : Z -> Page) s s' :
  all_pages r first count -> is_xex r = false -> space_ok s -> extents_ok s -> (forall k, first <= k < first + count -> state (page_at k s) = Free) ->
  (forall k, first <= k < first + count -> exists p, q k = p /\ state p <> Free /\ permanent_guard p = false /\
     allocation_base_page p = first /\ allocation_page_count p = count /\ kind p = rg_kind r) ->
  (forall j, page_at j s' = if decide (first <= j < first + count) then q j else page_at j s) -> extents_ok s'.
Proof.
  intros Hp Hx Hs He Hfree Hq Hpg.
  set (p := mkPage 0 first count 0 0 Reserved (rg_kind r) false false).
  set (s0 := mkSpace (physical s) (fill_n first count p (pages_ s)) (hot_pages_ s) (mmio_ranges_ s)).
  assert (Hpg0 : forall j, page_at j s0 = if decide (first <= j < first + count) then p else page_at j s).
  { intros j. unfold page_at, s0. cbn [pages_]. rewrite fill_n_lookup. destruct (decide (first <= j < first + count)); [by rewrite bool_decide_true|by rewrite bool_decide_false]. }
  apply (extents_skeleton s0).
  - intros j. rewrite Hpg, Hpg0. destruct (decide (first <= j < first + count)) as [Hj|]; [|done].
    destruct (Hq j Hj) as (? & -> & Q1 & Q2 & Q3 & Q4 & Q5). unfold skeleton. rewrite bool_decide_false by done. by rewrite Q2, Q3, Q4, Q5.
  - apply (extents_reserve r first count p s); try done. intros j. rewrite Hpg0. destruct (decide (first <= j < first + count)) as [Hj|Hj].
    + rewrite decide_True; [done|]. apply elem_of_seqZ. lia.
    + rewrite decide_False by (rewrite elem_of_seqZ; lia). rewrite decide_False; [done|].
      intros (k & Hk%elem_of_seqZ & [->|[? _]])%Exists_exists; [lia|congruence].
Qed.

Lemma owned_runs_free n a s m :
  phys_ok s -> 0 <= a -> a + Z.of_nat n <= kPhysicalPageCount -> (m <= n)%nat ->
  let l := runs (λ i, bool_decide (used i s = kPhysicalFree)) None (seqZ a (Z.of_nat m)) in
  Forall (λ r, 0 < snd r /\ 0 <= fst r /\ fst r + snd r <= kPhysicalPageCount /\ forall i, in_run i r -> used i s = kPhysicalFree) l /\
  StronglySorted (λ r r', fst r + snd r <= fst r') l /\
  (forall p, a <= p < a + Z.of_nat m -> used p s = kPhysicalFree -> Exists (in_run p) l) /\
  (forall p, Exists (in_run p) l -> a <= p < a + Z.of_nat m) /\
  forallb (λ r, contains_free (fst r) (snd r) (physical_allocator_ s)) l = true.
Proof.
  intros Hs Ha Hn Hm l. destruct (runs_spec (λ i, bool_decide (used i s = kPhysicalFree)) m a None I) as (A & B & C). fold l in A, B, C.
  assert (D : Forall (λ r, 0 < snd r /\ 0 <= fst r /\ fst r + snd r <= kPhysicalPageCount /\ forall i, in_run i r -> used i s = kPhysicalFree) l).
  { eapply Forall_impl; [exact A|]. cbv beta. intros r (R1 & R2 & R3 & R4). split_and!; [lia..|]. intros i Hi. specialize (R4 i Hi). by apply bool_decide_eq_true in R4. }
  split_and!; [done|done| | |].
  - intros p Hp Hu. apply C; [done|]. by apply bool_decide_true.
  - intros p (r & Hr & Hp)%List.Exists_exists. rewrite List.Forall_forall in A. destruct (A r Hr) as (_ & A1 & A2 & _). unfold in_run in Hp. lia.
  - apply forallb_forall. intros r Hr. rewrite List.Forall_forall in D. destruct (D r Hr) as (R1 & R2 & R3 & R4).
    apply contains_spec; [apply (po_ranges _ Hs)|lia|]. split; [done|]. intros p Hp. apply (po_free _ Hs). split; [unfold frame_ok; lia|by apply R4].
Qed.

Lemma land_page_zero x : 0 <= x -> (x .& (kBasePageSize - 1) =? 0) = true -> x = Z.shiftr x kPageShift * 4096.
Proof.
  intros Hx. change (kBasePageSize - 1) with (Z.ones 12). rewrite Z.land_ones, Z.eqb_eq, shiftr_page by done. change (2 ^ 12) with 4096. intros H.
  pose proof (Z.div_mod x 4096). lia.
Qed.

(** Pages of one explicit mapping: consecutive frames, not owned by an allocation of pages. *)
Lemma map_virtual_to_physical_spec virtual_base physical_base size protect s :
  is_u32 virtual_base -> is_u32 physical_base -> is_u32 size -> consistent s ->
  keeps (λ ok s', refreshed s s' /\ (ok = true ->
      let first := Z.shiftr virtual_base kPageShift in
      let count := Z.shiftr size kPageShift in
      forall j, page_at j s' = if decide (first <= j < first + count)
        then mapping_page first (physical_base / kBasePageSize) count protect (j - first) else page_at j s))
    (map_virtual_to_physical virtual_base physical_base size protect s).
Proof.
  intros Hvb Hpb Hsz Hc. unfold map_virtual_to_physical.
  assert (Hno : forall ph, phys_ok ph -> reclaimed (physical s) ph -> consistent (with_physical ph s)).
  { intros ph Hph (R1 & R2 & R3). destruct Hc as [[H1 H2] H3]. split.
    - split; [done|]. apply (guest_frame s); try done; [intros f g; cbn; by rewrite R1|].
      intros f Hf. cbn in Hf. destruct (R3 f) as [E|[_ E]]; congruence.
    - by apply (same_pages_extents s). }
  destruct (valid_memory_type_protection protect) eqn:Hv; cbn [negb orb]; [|by exists false, s].
  destruct (Z.eqb_spec size 0) as [|Hne]; cbn [orb]; [by exists false, s|].
  destruct (virtual_base .& (kBasePageSize - 1) =? 0) eqn:Ev; cbn [negb orb]; [|by exists false, s].
  destruct (physical_base .& (kBasePageSize - 1) =? 0) eqn:Ep; cbn [negb orb]; [|by exists false, s].
  destruct (size .& (kBasePageSize - 1) =? 0) eqn:Es; cbn [negb orb]; [|by exists false, s].
  destruct (Z.ltb_spec kPhysicalMemorySize (physical_base + size)) as [|Hmem]; [by exists false, s|].
  destruct ((physical_base <? kPhysicalMemorySize) && _); [by exists false, s|].
  destruct (region_for virtual_base) as [r|] eqn:Hr; [|by exists false, s].
  destruct (bool_decide_reflect (rg_kind r = Virtual)) as [Hk|]; cbn [negb orb]; [|by exists false, s].
  destruct (Z.ltb_spec (rg_end r) (virtual_base + size - 1)) as [|Hend]; [by exists false, s|]. unfold is_u32 in Hvb, Hpb, Hsz.
  assert (Hh : is_heap r = true) by (unfold is_heap; by rewrite bool_decide_true). assert (Hx : is_xex r = false) by (unfold is_xex; by rewrite Hk).
  apply land_page_zero in Es; [|lia]. apply land_page_zero in Ep; [|lia].
  pose proof (range_pages r virtual_base size Hr Hh ltac:(lia) Hend) as Hp.
  set (first := Z.shiftr virtual_base kPageShift) in *. set (count := Z.shiftr size kPageShift) in *.
  destruct (pages_free first count s) eqn:Ef; cbn [negb]; [|by exists false, s].
  assert (Hfree : forall k, first <= k < first + count -> state (page_at k s) = Free) by (intros k Hk'; apply (free_check s _ Ef), elem_of_seqZ; lia).
  destruct (reclaim_spec (physical s) (so_physical s (co_space s Hc))) as (ph & -> & Hph & Hrec). cbn [mbind option_bind]. pose proof (Hno ph Hph Hrec) as Hc1.
  set (pf := physical_base / kBasePageSize). change kPhysicalMemorySize with (0x20000 * 4096) in Hmem.
  assert (Hpf : 0 <= pf /\ pf + count <= kPhysicalPageCount).
  { change kPhysicalPageCount with 0x20000. unfold pf. change kBasePageSize with 4096. rewrite shiftr_page in Ep. lia. }
  cbv zeta. replace count with (Z.of_nat (Z.to_nat count)) in Hpf |- * by (rewrite Z2Nat.id; [done|lia]). set (n := Z.to_nat count) in *.
  destruct (until_seqZ (λ i, bool_decide (used i ph = kPhysicalRetired)) n pf) as (m & -> & Hm).
  destruct (owned_runs_free n pf ph m Hph ltac:(lia) ltac:(lia) Hm) as (_ & _ & _ & _ & ->). cbn [negb].
  destruct (existsb _ _) eqn:Er; [exists false, (with_physical ph s); split_and!; [done..|by apply reclaimed_refreshes|done]|].
  destruct (owned_runs_free n pf ph n Hph ltac:(lia) ltac:(lia) ltac:(lia)) as (R1 & R2 & R3 & R4 & _).
  destruct (claim_runs_spec protect _ ph Hph Hv R1 R2) as (ph2 & -> & Hph2 & Hm2 & Hu2 & Hd2). cbn [mbind option_bind].
  set (l := runs _ None (seqZ pf (Z.of_nat n))) in *.
  assert (Hg2 : space_ok (with_physical ph2 s)).
  { split; [done|]. apply (guest_frame (with_physical ph s)); [apply Hc1|done|intros f g; cbn; by rewrite Hm2|].
    intros f Hf. cbn in Hf |- *. rewrite Hu2 in Hf. destruct (decide (Exists (in_run f) l)); [done|exact Hf]. }
  destruct (map_loop_spec r first pf (Z.of_nat n) protect n 0 (with_physical ph2 s) Hg2 Hk) as (s1 & -> & Hs1 & Hd1 & Hh1 & Hq1 & Hpg1).
  { intros k Hk'. rewrite page_at_physical. split_and!; [apply Hp; lia|apply Hfree; lia|unfold frame_ok; lia|..]; cbn; rewrite Hu2;
      destruct (decide (Exists (in_run (pf + k)) l)) as [He|He]; try done.
    - intros Hu. apply He, R3; [lia|done].
    - rewrite existsb_seqZ in Er. specialize (Er (pf + k) ltac:(lia)). by apply bool_decide_eq_false in Er. }
  rewrite !Z.add_0_r in Hpg1. assert (Hcount : Z.of_nat n = count) by (unfold n; rewrite Z2Nat.id; [done|lia]). rewrite Hcount in *.
  cbn [mbind option_bind]. exists true. eexists. split; [done|]. set (s2 := publish_physical_alias_range _ _ _).
  assert (Hpub : published s1 s2) by (eapply published_trans; [apply publish_hot_range_published|apply publish_alias_published]).
  split.
  - apply (published_consistent s1 s2 Hpub). split; [done|].
    apply (extents_map r first count (λ j, mapping_page first pf count protect (j - first)) s); try done; [apply Hc|apply Hc|].
    intros k Hk'. eexists. split; [done|]. by rewrite Hk.
  - split; [|intros _ j; rewrite (published_page s1 s2 j Hpub); apply Hpg1].
    unfold s2. rewrite publish_alias_list, publish_hot_range_list. unfold publish_pages at 1 2. rewrite <- foldl_app.
    apply publish_refreshes; [done|done|]. intros g Hgi Hout. apply not_elem_of_app in Hout as [N1 N2]. apply make_hot_entry_same; [done| |].
    + rewrite Hpg1. rewrite decide_False; [done|]. intros Hin. apply N1. apply in_range_list; [done|lia|done|].
      unfold first, count in Hin. rewrite !shiftr_page in Hin. Z.to_euclidean_division_equations; lia.
    + intros Hfr. rewrite Hd1. cbn [physical with_physical]. rewrite Hd2; [by destruct Hrec as (_ & -> & _)|]. intros Hin%R4. apply N2.
      assert (Epf : physical_base = pf * 4096) by (unfold pf; change kBasePageSize with 4096; by rewrite <- shiftr_page).
      apply alias_list_cover; [lia|lia|done|done|rewrite shiftr_page, Epf, Z.div_mul by done; lia|]. rewrite Epf. lia.
Qed.

(** ** Physical allocations *)

(** New owners of physical pages, none of them anonymous. *)
Lemma with_physical_ok s ph :
  consistent s -> phys_ok ph -> same_maps (physical s) ph ->
  (forall f, used f ph = kPhysicalAnonymous -> used f (physical s) = kPhysicalAnonymous) -> consistent (with_physical ph s).
Proof.
  intros [[H1 H2] H3] Hph Hm Hu. split; [|by apply (same_pages_extents s)].
  split; [done|]. apply (guest_frame s); try done. intros f g. cbn. by rewrite Hm.
Qed.

(** The pages [first, count) became an explicit allocation. *)
Record granted (first count page_size : Z) (protect : Protect) (s s' : Physical) : Prop := mkGranted {
  gr_range : 0 <= first /\ first + count <= kPhysicalPageCount;
  gr_free : forall p, first <= p < first + count -> used p s = kPhysicalFree \/ used p s = kPhysicalRetired;
  gr_used : forall p, first <= p < first + count -> used p s' = kPhysicalExplicit /\
    metadata p s' = mkMetadata first count page_size protect protect true;
  gr_rest : forall p, ~ first <= p < first + count -> metadata p s' = metadata p s /\
    (used p s' = used p s \/ (used p s = kPhysicalRetired /\ used p s' = kPhysicalFree))
}.

Lemma reserve_physical_run_spec count alignment top_down minimum maximum page_size protect s :
  phys_ok s -> is_u32 count -> is_u32 alignment -> is_u32 minimum -> is_u32 maximum -> valid_memory_type_protection protect = true ->
  has_single_bit page_size = true -> kBasePageSize <= page_size ->
  exists o ph, reserve_physical_run count alignment top_down minimum maximum s = Some (o, ph) /\
    match o with
    | None => phys_ok ph /\ reclaimed s ph
    | Some first => let ph' := set_allocation first count page_size protect ph in
        phys_ok ph' /\ same_maps s ph' /\ granted first count page_size protect s ph' /\
        0 < count /\ (alignment | first) /\ minimum <= first /\ first + count <= maximum
    end.
Proof.
  intros Hs Hc Ha Hmin Hmax Hv Hb1 Hb2. unfold reserve_physical_run.
  destruct (_ || _) eqn:Eg; [exists None, s; split_and!; [done..|apply reclaimed_refl]|].
  destruct (reclaim_spec s Hs) as (s1 & -> & Hs1 & Hrec). cbn [mbind option_bind].
  pose proof (range_allocate_spec count alignment top_down minimum maximum (physical_allocator_ s1) (po_ranges _ Hs1) Hc Ha Hmin Hmax) as H.
  destruct (range_allocate _ _ _ _ _ _) as [[x a]|]; [|by exists None, s1].
  destruct H as (_ & Ha' & Hserve & HR & HF). exists (Some x). eexists. split; [done|]. cbv zeta.
  assert (Hpos : 0 < count).
  { rewrite !orb_false_iff, Z.eqb_neq in Eg. unfold is_u32 in Hc. lia. }
  destruct (serves_frame _ _ _ _ _ _ (po_ranges _ Hs1) Hpos Hserve) as [Hx0 Hx1]. destruct Hserve as (S1 & S2 & S3 & S4).
  assert (Hfree : forall p, x <= p < x + count -> used p s1 = kPhysicalFree).
  { intros p Hp. apply (po_free _ Hs1 p). apply S4. unfold run_of. lia. }
  set (ph := set_allocator a _). set (ph' := set_allocation x count page_size protect ph).
  assert (Hu : forall p, used p ph' = fill_at x count kPhysicalExplicit (λ p, used p s1) p)
    by (intros p; apply (used_fill x count kPhysicalExplicit (physical_page_used_ s1) s1 p)).
  assert (Hd : forall p, metadata p ph' = fill_at x count (mkMetadata x count page_size protect protect true) (λ p, metadata p s1) p)
    by (intros p; apply (metadata_fill x count _ (physical_page_metadata_ s1) s1 p)).
  destruct Hrec as (M1 & M2 & M3). split_and!; try done.
  - apply (explicit_change s1 ph' x count page_size protect); done.
  - split; [done|..]; intros p Hp.
    + destruct (M3 p) as [E|[E _]]; [left; rewrite <- E; by apply Hfree|by right].
    + rewrite Hu, Hd. unfold fill_at. by rewrite !bool_decide_true.
    + rewrite Hu, Hd. unfold fill_at. rewrite !bool_decide_false by done. split; [apply M2|apply M3].
Qed.

Lemma granted_anonymous first count page_size protect s s' f :
  granted first count page_size protect s s' -> used f s' = kPhysicalAnonymous -> used f s = kPhysicalAnonymous.
Proof.
  intros [_ _ H1 H2] Hf. destruct (decide (first <= f < first + count)) as [Hin|Hout].
  - destruct (H1 f Hin) as [E _]. congruence.
  - destruct (H2 f Hout) as [_ [E|[_ E]]]; congruence.
Qed.

Lemma align_up_ceil k x : 0 <= k < 32 -> is_u32 x -> align_up x (2 ^ k) = u32 ((x + 2 ^ k - 1) / 2 ^ k * 2 ^ k).
Proof.
  intros Hk Hx. unfold align_up. f_equal. unfold is_u32 in Hx.
  assert (Hb : 0 < 2 ^ k <= 2 ^ 31) by (split; [apply Z.pow_pos_nonneg; lia|apply Z.pow_le_mono_r; lia]). change (2 ^ 31) with 0x80000000 in Hb.
  rewrite (u64_small (x + 2 ^ k - 1)), (u64_small (2 ^ k - 1)) by (unfold is_u64; lia).
  set (y := x + 2 ^ k - 1) in *. assert (Hy : 0 <= y < 2 ^ 64) by (unfold y; change (2 ^ 64) with 0x10000000000000000; lia).
  replace (2 ^ k - 1) with (Z.ones k) by (rewrite Z.ones_equiv; lia).
  unfold not64. change (u64 (Z.lnot (Z.ones k))) with (Z.lnot (Z.ones k) mod 2 ^ 64). rewrite <- Z.land_ones by lia.
  rewrite (Z.land_comm (Z.lnot _)), Z.land_assoc, (Z.land_ones y), Z.mod_small, <- Z.ldiff_land by (done || lia).
  by rewrite Z.ldiff_ones_r, Z.shiftl_mul_pow2, Z.shiftr_div_pow2 by lia.
Qed.

(** Rounding up, when it does not wrap around. *)
Lemma align_up_spec32 k x : 0 <= k < 32 -> is_u32 x ->
  is_u32 (align_up x (2 ^ k)) /\ (2 ^ k | align_up x (2 ^ k)) /\ ((align_up x (2 ^ k) = 0 /\ 0x100000000 < x + 2 ^ k) \/ x <= align_up x (2 ^ k) < x + 2 ^ k).
Proof.
  intros Hk Hx. rewrite align_up_ceil by done. split; [apply u32_range|]. unfold is_u32 in Hx.
  assert (Hb : 0 < 2 ^ k) by (apply Z.pow_pos_nonneg; lia).
  assert (Hmul : 0x100000000 = 2 ^ (32 - k) * 2 ^ k) by (rewrite <- Z.pow_add_r by lia; by replace (32 - k + k) with 32 by lia).
  pose proof (Z.div_mod (x + 2 ^ k - 1) (2 ^ k) ltac:(lia)) as D. pose proof (Z.mod_pos_bound (x + 2 ^ k - 1) (2 ^ k) Hb) as M.
  set (d := (x + 2 ^ k - 1) / 2 ^ k) in *. rewrite Z.mul_comm in D.
  assert (Hd : 0 <= d <= 2 ^ (32 - k)). { split; [apply Z.div_pos; lia|]. apply Z.lt_succ_r. apply Z.div_lt_upper_bound; [done|]. rewrite Z.mul_succ_r, (Z.mul_comm (2 ^ k)), <- Hmul. lia. }
  assert (Hle : d * 2 ^ k <= 0x100000000) by (rewrite Hmul; apply Z.mul_le_mono_nonneg_r; lia).
  destruct (Z.eq_dec (d * 2 ^ k) 0x100000000) as [Hwrap|Hne].
  - rewrite Hwrap. change (u32 0x100000000) with 0. split; [apply Z.divide_0_r|left; lia].
  - rewrite u32_small by (unfold is_u32; nia). split; [apply Z.divide_factor_r|]. right. lia.
Qed.

Lemma class_size c : exists k, physical_page_class_size c = 2 ^ k /\ 12 <= k <= 24.
Proof. destruct c; [by exists 12|by exists 16|by exists 24]. Qed.

Lemma allocate_physical_spec size options s :
  is_u32 size -> is_u32 (po_alignment options) -> is_u32 (minimum_address options) -> is_u32 (maximum_address options) -> consistent s ->
  keeps (λ o s', refreshed s s' /\ forall address, o = Some address -> exists first count,
      let page_size := physical_page_class_size (page_class options) in
      address = first * kBasePageSize /\ size <= count * kBasePageSize < size + page_size /\ (Z.max (po_alignment options) page_size | address) /\
      minimum_address options <= address /\ address + count * kBasePageSize <= maximum_address options + 1 /\
      count = align_up size page_size / kBasePageSize /\ same_maps (physical s) (physical s') /\
      granted first count page_size (po_protect options) (physical s) (physical s') /\ forall j, page_at j s' = page_at j s)
    (allocate_physical size options s).
Proof.
  intros Hsz Hal Hmn Hmx Hc. unfold allocate_physical. cbv zeta. set (prot := po_protect options). set (ps := physical_page_class_size (page_class options)).
  destruct (class_size (page_class options)) as (k & Ek & Hk). fold ps in Ek.
  assert (Hps : 0x1000 <= ps <= 0x1000000). { rewrite Ek. split; [change 0x1000 with (2 ^ 12)|change 0x1000000 with (2 ^ 24)]; apply Z.pow_le_mono_r; lia. }
  destruct (Z.eqb_spec size 0) as [|Hne]; [by exists None, s|]. destruct (valid_memory_type_protection prot) eqn:Hv; cbn [negb orb]; [|by exists None, s].
  destruct (has prot kRead); cbn [negb]; [|by exists None, s].
  set (al := Z.max (if po_alignment options =? 0 then ps else po_alignment options) ps). destruct (has_single_bit al) eqn:Hbit; cbn [negb]; [|by exists None, s].
  assert (Hal32 : is_u32 al /\ ps <= al) by (unfold al, is_u32 in *; destruct (po_alignment options =? 0); lia).
  set (mn := Z.max (minimum_address options) _). set (mx0 := Z.min (maximum_address options) _). set (mx := match page_class options with Page4K => Z.min mx0 kPhysical4KAddressableEndInclusive | _ => mx0 end).
  assert (Hmxle : mx <= maximum_address options /\ is_u32 mx).
  { change (kPhysicalAllocatableEndExclusive - 1) with 0x1FFEFFFF in mx0. change kPhysical4KAddressableEndInclusive with 0x1FD00FFF in mx. unfold mx, mx0, is_u32 in *. destruct (page_class options); lia. }
  assert (Hmnle : minimum_address options <= mn /\ is_u32 mn) by (change kPhysicalSystemReserveSize with 0x1000000 in mn; unfold mn, is_u32 in *; lia).
  destruct (Z.ltb_spec mx mn) as [|Hmnx]; [by exists None, s|].
  destruct (align_up_spec32 k size ltac:(lia) Hsz) as (A1 & A2 & A3). rewrite <- Ek in A1, A2, A3.
  destruct (align_up_spec32 12 mn ltac:(lia) (proj2 Hmnle)) as (B1 & B2 & B3). change (2 ^ 12) with kBasePageSize in B1, B2, B3.
  set (count := align_up size ps / kBasePageSize) in *. set (mnp := align_up mn kBasePageSize / kBasePageSize) in *. set (mxp := u32 ((mx + 1) / kBasePageSize)) in *.
  destruct (_ || _) eqn:Ep; [by exists None, s|]. apply orb_false_iff in Ep as [_ Ep%Z.ltb_ge].
  assert (Hk12 : (kBasePageSize | ps)). { rewrite Ek. exists (2 ^ (k - 12)). change kBasePageSize with (2 ^ 12). rewrite <- Z.pow_add_r by lia. f_equal. lia. }
  assert (Hcount : count * kBasePageSize = align_up size ps).
  { unfold count. rewrite Z.mul_comm. symmetry. apply Z_div_exact_full_2; [done|]. apply Z.mod_divide; [done|]. by etransitivity. }
  assert (Hmnp : mnp * kBasePageSize = align_up mn kBasePageSize).
  { unfold mnp. rewrite Z.mul_comm. symmetry. apply Z_div_exact_full_2; [done|]. by apply Z.mod_divide. }
  assert (Hmxp : mxp * kBasePageSize <= mx + 1 /\ is_u32 mxp).
  { unfold mxp. destruct Hmxle as [_ Hm]. unfold is_u32 in Hm. rewrite u32_small; unfold is_u32; change kBasePageSize with 4096; Z.to_euclidean_division_equations; lia. }
  change kBasePageSize with 4096 in Hcount, Hmnp, Hmxp, B1, B3. destruct Hal32 as [Hal32 Hal2]. unfold is_u32 in A1, B1, Hal32, Hsz.
  assert (Hdiv : al = al / kBasePageSize * 4096).
  { assert (Hd : (4096 | al)); [|destruct Hd as [q ->]; change kBasePageSize with 4096; by rewrite Z.div_mul].
    apply has_single_bit_spec in Hbit as (e & He & Hal3); [|lia]. rewrite Hal3. change 4096 with (2 ^ 12).
    assert (12 <= e). { apply Z.pow_le_mono_r_iff with 2; [lia..|]. rewrite <- Hal3. change (2 ^ 12) with 4096. lia. }
    exists (2 ^ (e - 12)). rewrite <- Z.pow_add_r by lia. f_equal. lia. }
  destruct (reserve_physical_run_spec count (al / kBasePageSize) (po_top_down options) mnp mxp ps prot (physical s)) as (o & ph & -> & H);
    [apply Hc|unfold is_u32; lia|unfold is_u32; lia|unfold is_u32; lia|apply Hmxp|done|apply has_single_bit_spec; [lia|exists k; split; [lia|done]]|change kBasePageSize with 4096; lia|].
  cbn [mbind option_bind]. destruct o as [x|].
  2: { destruct H as (H1 & H2 & H3 & H4). exists None, (with_physical ph s). split_and!; [done| |by apply reclaimed_refreshes|done].
       apply with_physical_ok; [done..|]. intros f Hf. destruct (H4 f) as [E|[_ E]]; congruence. }
  destruct H as (H1 & H2 & H3 & H4 & H5 & H6 & H7). set (ph1 := set_allocation x count ps prot ph) in *.
  set (ph2 := if po_zero_initialize options then _ else ph1).
  assert (Hph2 : phys_ok ph2 /\ same_maps (physical s) ph2 /\ granted x count ps prot (physical s) ph2).
  { unfold ph2. destruct (po_zero_initialize options); [|done]. split_and!; [by apply clear_physical_ok|done|]. destruct H3. by split. }
  destruct Hph2 as (P1 & P2 & P3).
  assert (Hc2 : consistent (with_physical ph2 s)) by (apply with_physical_ok; [done..|]; intros f; by apply (granted_anonymous x count ps prot)).
  exists (Some (u32 (x * kBasePageSize))). eexists. split; [done|]. set (s2 := publish_physical_alias_range _ _ _).
  assert (Hpub : published (with_physical ph2 s) s2) by apply publish_alias_published.
  split; [by apply (published_consistent (with_physical ph2 s))|]. split.
  { unfold s2. rewrite publish_alias_list. apply publish_refreshes; [done|done|]. intros g Hgi Hout. apply make_hot_entry_same; [done|done|].
    intros Hfr. cbn [physical with_physical]. destruct (decide (x <= alias_frame g < x + count)) as [Hin|Hin]; [|by destruct (gr_rest _ _ _ _ _ _ P3 _ Hin) as [-> _]].
    exfalso. apply Hout. destruct (gr_range _ _ _ _ _ _ P3) as [G1 G2]. change kPhysicalPageCount with 0x20000 in G2. change kBasePageSize with 4096.
    rewrite !u32_small by (unfold is_u32; lia). apply alias_list_cover; [lia|lia|done|done|rewrite shiftr_page, Z.div_mul by done; lia|lia]. }
  intros address [= <-]. exists x, count.
  destruct (gr_range _ _ _ _ _ _ P3) as [G1 G2]. change kPhysicalPageCount with 0x20000 in G2. change kBasePageSize with 4096 in *.
  rewrite u32_small by (unfold is_u32; lia). split_and!; try done.
  - destruct A3; lia.
  - destruct A3; lia.
  - replace (Z.max (po_alignment options) ps) with al by (unfold al, is_u32 in *; destruct (Z.eqb_spec (po_alignment options) 0); lia).
    rewrite Hdiv. by apply Z.mul_divide_mono_r.
  - assert (mn <= 0x1FFEFFFF).
    { change (kPhysicalAllocatableEndExclusive - 1) with 0x1FFEFFFF in mx0. change kPhysical4KAddressableEndInclusive with 0x1FD00FFF in mx. unfold mx, mx0 in Hmnx. destruct (page_class options); lia. }
    destruct B3; lia.
  - lia.
  - destruct Hpub as (_ & _ & m & E). by rewrite E.
  - destruct Hpub as (_ & _ & m & E). rewrite E. destruct P3. by split.
  - intros j. by rewrite (published_page _ s2 j Hpub).
Qed.

Lemma retire_page_frame i s : used i (retire_page i s) = kPhysicalRetired /\ metadata i (retire_page i s) = new_metadata /\
  (forall p, p <> i -> used p (retire_page i s) = used p s /\ metadata p (retire_page i s) = metadata p s) /\
  same_maps s (retire_page i s) /\ physical_mapping_refs_ (retire_page i s) = physical_mapping_refs_ s /\
  physical_allocator_ (retire_page i s) = physical_allocator_ s.
Proof.
  unfold retire_page, same_maps. set (s1 := if has _ _ then advance_executable_generation i s else s).
  assert (H : physical_page_used_ s1 = physical_page_used_ s /\ physical_page_metadata_ s1 = physical_page_metadata_ s /\
    physical_reverse_mappings_ s1 = physical_reverse_mappings_ s /\ physical_mapping_refs_ s1 = physical_mapping_refs_ s /\
    physical_allocator_ s1 = physical_allocator_ s).
  { unfold s1, advance_executable_generation. destruct (has _ _); [|done]. by destruct (_ <? _). }
  destruct H as (E1 & E2 & E3 & E4 & E5). cbn. split_and!; try done.
  - unfold used. cbn. by rewrite lookup_insert_eq.
  - unfold metadata. cbn. by rewrite lookup_insert_eq.
  - intros p Hp. unfold used, metadata. cbn. by rewrite !lookup_insert_ne, E1, E2.
Qed.

Lemma retire_loop_frame l s :
  let s' := foldl (λ s i, retire_page i s) s l in
  (forall p, used p s' = if decide (p ∈ l) then kPhysicalRetired else used p s) /\
  (forall p, metadata p s' = if decide (p ∈ l) then new_metadata else metadata p s) /\
  same_maps s s' /\ physical_mapping_refs_ s' = physical_mapping_refs_ s /\ physical_allocator_ s' = physical_allocator_ s.
Proof.
  revert s. induction l as [|i l IH]; intros s; cbn [foldl].
  - cbv zeta. split_and!; try done; intros p; by rewrite decide_False by apply not_elem_of_nil.
  - destruct (retire_page_frame i s) as (A1 & A2 & A3 & A4 & A5 & A6). destruct (IH (retire_page i s)) as (B1 & B2 & B3 & B4 & B5).
    unfold same_maps in *. cbv zeta in *. split_and!; [| |congruence..]; intros p; rewrite ?B1, ?B2.
    + destruct (decide (p ∈ l)); [by rewrite decide_True by (by right)|]. destruct (decide (p = i)) as [->|].
      * by rewrite decide_True by (by left).
      * rewrite decide_False by (by rewrite elem_of_cons; intros [?|?]). by apply A3.
    + destruct (decide (p ∈ l)); [by rewrite decide_True by (by right)|]. destruct (decide (p = i)) as [->|].
      * by rewrite decide_True by (by left).
      * rewrite decide_False by (by rewrite elem_of_cons; intros [?|?]). by apply A3.
Qed.

Lemma same_allocation_spec first count m : same_allocation first count m = true <->
  explicit_allocation m = true /\ pm_base_page m = first /\ pm_page_count m = count.
Proof. unfold same_allocation. rewrite !andb_true_iff, !Z.eqb_eq. tauto. Qed.

(** Refs are those of the mapping table, also as stored. *)
Lemma stored_refs s s' p : physical_mapping_refs_ s' = physical_mapping_refs_ s -> refs p s' = refs p s.
Proof. unfold refs. by intros ->. Qed.

Lemma free_physical_spec base size s :
  is_u32 base -> is_u32 size -> consistent s ->
  keeps (λ ok s', refreshed s s' /\ (ok = true ->
      let first := base / kBasePageSize in
      let m := metadata first (physical s) in
      explicit_allocation m = true /\ pm_base_page m = first /\
      (forall p, first <= p < first + pm_page_count m -> refs p (physical s) = 0 /\
         used p (physical s') = kPhysicalRetired /\ metadata p (physical s') = new_metadata) /\
      (forall p, ~ first <= p < first + pm_page_count m -> used p (physical s') = used p (physical s) /\ metadata p (physical s') = metadata p (physical s)) /\
      forall j, page_at j s' = page_at j s))
    (free_physical base size s).
Proof.
  intros Hb Hsz Hc. unfold free_physical. cbv zeta. destruct (Z.eqb_spec size 0); [by exists false, s|].
  destruct (base .& (kBasePageSize - 1) =? 0) eqn:Eal; cbn [negb orb]; [|by exists false, s]. destruct (kPhysicalMemorySize <? base + size); [by exists false, s|].
  set (first := base / kBasePageSize). set (m := metadata first (physical s)).
  destruct (_ || _); [by exists false, s|]. set (count := if explicit_allocation m then pm_page_count m else _).
  destruct (same_allocation first count m) eqn:Es; cbn [negb]; [|by exists false, s]. apply same_allocation_spec in Es as (S1 & S2 & S3).
  clearbody count. subst count. set (count := pm_page_count m) in *.
  destruct (forallb _ _) eqn:Ef; cbn [negb]; [|by exists false, s]. rewrite forallb_seqZ in Ef.
  destruct (po_allocation _ (so_physical s (co_space s Hc)) first S1) as [Hfr Hex]. fold m in Hex. destruct Hex as (X1 & X2 & X3).
  fold m in X1, X2. cbv beta in X1, X2. rewrite S2 in X1, X2. fold count in X2.
  assert (Hrun : forall p, first <= p < first + count -> frame_ok p /\ used p (physical s) = kPhysicalExplicit /\ refs p (physical s) = 0 /\
    same_allocation first count (metadata p (physical s)) = true).
  { intros p Hp. specialize (Ef p Hp). rewrite !andb_true_iff, bool_decide_eq_true, Z.eqb_eq in Ef. split; [unfold frame_ok; lia|tauto]. }
  destruct (retire_loop_frame (seqZ first count) (physical s)) as (R1 & R2 & R3 & R4 & R5). set (ph := foldl _ _ _) in *.
  assert (Hword : is_u32 first /\ is_u32 count) by (change kPhysicalPageCount with 0x20000 in X2; unfold is_u32; lia).
  destruct (retire_spec first count (physical_allocator_ ph)) as (a & -> & Ha & HF & HR); rewrite ?R5.
  { apply Hc. } { apply Hword. } { apply Hword. } { lia. } { lia. }
  { intros p Hp Hcov. apply (po_retired _ (so_physical s (co_space s Hc))) in Hcov as [_ E]. destruct (Hrun p Hp) as (_ & E' & _). congruence. }
  cbn [negb]. exists true. eexists. split; [done|]. set (s2 := publish_physical_alias_range _ _ _). rewrite R5 in HF, HR.
  assert (Hfill : forall A (v : A) f p, (if decide (p ∈ seqZ first count) then v else f p) = fill_at first count v f p).
  { intros A v f p. unfold fill_at. destruct (decide _) as [E|E]; rewrite elem_of_seqZ in E; [by rewrite bool_decide_true by lia|by rewrite bool_decide_false by lia]. }
  assert (Hu : forall p, used p (set_allocator a ph) = fill_at first count kPhysicalRetired (λ p, used p (physical s)) p) by (intros p; rewrite <- Hfill; apply R1).
  assert (Hd : forall p, metadata p (set_allocator a ph) = fill_at first count new_metadata (λ p, metadata p (physical s)) p) by (intros p; rewrite <- Hfill; apply R2).
  assert (Hph : phys_ok (set_allocator a ph)).
  { apply (retire_change (physical s) _ first count); try done; [apply Hc|]. intros p. by apply stored_refs. }
  assert (Hc2 : consistent (with_physical (set_allocator a ph) s)).
  { apply with_physical_ok; try done. intros f. rewrite Hu. unfold fill_at. by destruct (bool_decide _). }
  assert (Hpub : published (with_physical (set_allocator a ph) s) s2) by apply publish_alias_published.
  split; [by apply (published_consistent (with_physical (set_allocator a ph) s))|]. split.
  { unfold s2. rewrite publish_alias_list. apply publish_refreshes; [done|done|]. intros g Hgi Hout. apply make_hot_entry_same; [done|done|].
    intros Hfa. cbn [physical with_physical]. rewrite Hd. unfold fill_at. destruct (bool_decide_reflect (first <= alias_frame g < first + count)) as [Hin|Hin]; [|done].
    exfalso. apply Hout. unfold is_u32 in Hb. apply land_page_zero in Eal; [|lia].
    assert (Ebase : base = first * 4096) by (unfold first; change kBasePageSize with 4096; by rewrite <- shiftr_page).
    change kPhysicalPageCount with 0x20000 in X2. change kBasePageSize with 4096. rewrite u32_small by (unfold is_u32; lia). rewrite Ebase.
    apply alias_list_cover; [lia|lia|done|done|rewrite shiftr_page, Z.div_mul by done; lia|lia]. }
  intros _.
  assert (Hps : exists g, physical s2 = set_generations g (set_allocator a ph)) by apply Hpub. destruct Hps as [g Eg]. rewrite Eg.
  split_and!; try done.
  - intros p Hp. destruct (Hrun p Hp) as (_ & _ & E & _). split; [done|].
    change (used p (set_generations g ?x)) with (used p x). change (metadata p (set_generations g ?x)) with (metadata p x). rewrite Hu, Hd. unfold fill_at. by rewrite !bool_decide_true.
  - intros p Hp. change (used p (set_generations g ?x)) with (used p x). change (metadata p (set_generations g ?x)) with (metadata p x). rewrite Hu, Hd. unfold fill_at. by rewrite !bool_decide_false.
  - intros j. by rewrite (published_page _ s2 j Hpub).
Qed.

(** Nothing maps the pages of a new allocation. *)
Lemma granted_unmapped first count page_size protect s ph p : consistent s -> granted first count page_size protect (physical s) ph ->
  first <= p < first + count -> refs p (physical s) = 0.
Proof.
  intros Hc Hg Hp. apply (po_unmapped _ (so_physical s (co_space s Hc))); [|by apply (gr_free _ _ _ _ _ _ Hg)].
  destruct (gr_range _ _ _ _ _ _ Hg). unfold frame_ok. lia.
Qed.

(** What [allocate_physical] granted can be freed. *)
Lemma free_granted first count page_size protect size s s1 : consistent s -> consistent s1 -> same_maps (physical s) (physical s1) ->
  granted first count page_size protect (physical s) (physical s1) -> 0 < size <= count * kBasePageSize ->
  count = align_up size page_size / kBasePageSize -> exists s', free_physical (first * kBasePageSize) size s1 = Some (true, s').
Proof.
  intros Hc Hc1 Hm Hg Hs Hcount. destruct (gr_range _ _ _ _ _ _ Hg) as [Hf0 Hf1]. change kPhysicalPageCount with 0x20000 in Hf1. change kBasePageSize with 4096 in *.
  destruct (gr_used _ _ _ _ _ _ Hg first ltac:(lia)) as [_ Hmeta]. unfold free_physical. cbv zeta. change kBasePageSize with 4096.
  rewrite Z.div_mul, Hmeta by done. cbn [explicit_allocation pm_page_size pm_page_count]. rewrite <- Hcount.
  assert (Hland : first * 4096 .& (4096 - 1) = 0). { change (4096 - 1) with (Z.ones 12). rewrite Z.land_ones by done. by apply Z.mod_mul. }
  rewrite (proj2 (Z.eqb_neq size 0)), Hland, Z.eqb_refl by lia. change kPhysicalMemorySize with (0x20000 * 4096).
  rewrite (proj2 (Z.ltb_ge _ _)) by lia. cbn [orb negb]. change kPhysicalPageCount with 0x20000. rewrite u32_small by (unfold is_u32; lia).
  rewrite (proj2 (Z.ltb_ge _ _)), Z.eqb_refl by lia. cbn [orb negb].
  unfold same_allocation at 1. cbn [explicit_allocation pm_base_page pm_page_count]. rewrite !Z.eqb_refl. cbn [andb negb].
  assert (Hall : forallb (λ i, bool_decide (used i (physical s1) = kPhysicalExplicit) && (refs i (physical s1) =? 0) &&
    same_allocation first count (metadata i (physical s1))) (seqZ first count) = true).
  { apply forallb_seqZ. intros p Hp. destruct (gr_used _ _ _ _ _ _ Hg p Hp) as [Eu Em]. rewrite Em. unfold same_allocation. cbn [explicit_allocation pm_base_page pm_page_count].
    rewrite bool_decide_true, !Z.eqb_refl by done. cbn [andb]. rewrite (same_maps_refs (physical s) (physical s1)) by (apply Hc || apply Hc1 || done).
    rewrite (granted_unmapped first count page_size protect s (physical s1)); done. }
  rewrite Hall. cbn [negb]. destruct (retire_loop_frame (seqZ first count) (physical s1)) as (_ & _ & _ & _ & ->).
  destruct (retire_spec first count (physical_allocator_ (physical s1))) as (a & -> & _); [apply Hc1|unfold is_u32; lia..|lia|change kPhysicalPageCount with 0x20000; lia| |by eexists].
  intros p Hp Hcov. apply (po_retired _ (so_physical s1 (co_space s1 Hc1))) in Hcov as [_ Hcov].
  destruct (gr_used _ _ _ _ _ _ Hg p Hp) as [Eu _]. congruence.
Qed.


Lemma protect_physical_page_frame protect i s :
  (forall p, metadata p (protect_physical_page protect i s) = if decide (p = i) then with_protect protect (metadata i s) else metadata p s) /\
  (forall p, used p (protect_physical_page protect i s) = used p s) /\
  same_maps s (protect_physical_page protect i s) /\ physical_mapping_refs_ (protect_physical_page protect i s) = physical_mapping_refs_ s /\
  physical_allocator_ (protect_physical_page protect i s) = physical_allocator_ s.
Proof.
  unfold protect_physical_page, same_maps. cbv zeta. set (s1 := if negb _ then advance_executable_generation i s else s).
  assert (H : physical_page_used_ s1 = physical_page_used_ s /\ physical_page_metadata_ s1 = physical_page_metadata_ s /\
    physical_reverse_mappings_ s1 = physical_reverse_mappings_ s /\ physical_mapping_refs_ s1 = physical_mapping_refs_ s /\
    physical_allocator_ s1 = physical_allocator_ s).
  { unfold s1, advance_executable_generation. destruct (negb _); [|done]. by destruct (_ <? _). }
  destruct H as (E1 & E2 & E3 & E4 & E5). split_and!; try done.
  - intros p. unfold metadata at 1. cbn. destruct (decide (p = i)) as [->|]; [by rewrite lookup_insert_eq|]. rewrite lookup_insert_ne by done. by rewrite E2.
  - intros p. unfold used. cbn. by rewrite E1.
Qed.

Lemma with_protect_twice v m : with_protect v (with_protect v m) = with_protect v m.
Proof. done. Qed.

Lemma protect_physical_loop protect l s :
  let s' := foldl (λ s i, protect_physical_page protect i s) s l in
  (forall p, metadata p s' = if decide (p ∈ l) then with_protect protect (metadata p s) else metadata p s) /\
  (forall p, used p s' = used p s) /\ same_maps s s' /\ physical_mapping_refs_ s' = physical_mapping_refs_ s /\ physical_allocator_ s' = physical_allocator_ s.
Proof.
  revert s. induction l as [|i l IH]; intros s; cbn [foldl].
  - cbv zeta. split_and!; try done; intros p; by rewrite decide_False by apply not_elem_of_nil.
  - destruct (protect_physical_page_frame protect i s) as (A1 & A2 & A3 & A4 & A5). destruct (IH (protect_physical_page protect i s)) as (B1 & B2 & B3 & B4 & B5).
    unfold same_maps in *. cbv zeta in *. split_and!; [| |congruence..]; intros p; rewrite ?B1, ?B2, ?A1, ?A2; [|done].
    destruct (decide (p = i)) as [->|Hne].
    + rewrite (decide_True (P := i ∈ i :: l)) by (by left). by destruct (decide (i ∈ l)).
    + destruct (decide (p ∈ l)); [by rewrite decide_True by (by right)|]. rewrite decide_False; [done|]. by rewrite elem_of_cons; intros [?|?].
Qed.

Lemma protect_physical_spec base size protect s :
  is_u32 base -> is_u32 size -> consistent s ->
  let '(old, s') := protect_physical base size protect s in
  consistent s' /\ refreshed s s' /\ (forall o, old = Some o -> exists first last, o = pm_current_protect (metadata first (physical s)) /\
     (forall p, metadata p (physical s') = if decide (first <= p <= last) then with_protect protect (metadata p (physical s)) else metadata p (physical s)) /\
     (forall p, first <= p <= last -> same_allocation (pm_base_page (metadata (base / kBasePageSize) (physical s)))
        (pm_page_count (metadata (base / kBasePageSize) (physical s))) (metadata p (physical s)) = true) /\
     (forall p, used p (physical s') = used p (physical s)) /\ forall j, page_at j s' = page_at j s).
Proof.
  intros Hb Hsz Hc. unfold protect_physical. cbv zeta. destruct (size =? 0); [done|].
  destruct (valid_memory_type_protection protect) eqn:Hv; cbn [negb orb]; [|done]. destruct (kPhysicalMemorySize <? base + size); [done|].
  set (m := metadata (base / kBasePageSize) (physical s)). destruct (negb (explicit_allocation m) || _ || _); [done|].
  set (allocation_base := u32 (pm_base_page m * kBasePageSize)). destruct (_ || _); [done|].
  set (first := align_down base (pm_page_size m) / kBasePageSize). set (last := u32 _). destruct (forallb _ _) eqn:Ef; cbn [negb]; [|done].
  rewrite forallb_seqZ in Ef.
  destruct (protect_physical_loop protect (seqZ first (last - first + 1)) (physical s)) as (R1 & R2 & R3 & R4 & R5). set (ph := foldl _ _ _) in *.
  set (s2 := publish_physical_alias_range _ _ _).
  assert (Hin : forall p, p ∈ seqZ first (last - first + 1) -> same_allocation (pm_base_page m) (pm_page_count m) (metadata p (physical s)) = true).
  { intros p Hp%elem_of_seqZ. specialize (Ef p Hp). by apply andb_true_iff in Ef as [? _]. }
  assert (Hph : phys_ok ph).
  { apply (protect_change (physical s) ph protect); try done; [apply Hc|intros p; by apply stored_refs|].
    intros p. rewrite R1. destruct (decide _) as [Hp|]; [right|by left]. apply Hin, same_allocation_spec in Hp as (? & _). done. }
  assert (Hc2 : consistent (with_physical ph s)) by (apply with_physical_ok; try done; intros f; by rewrite R2).
  assert (Hpub : published (with_physical ph s) s2) by apply publish_alias_published.
  assert (Hps : exists g, physical s2 = set_generations g ph) by apply Hpub. destruct Hps as [g Eg2].
  split; [by apply (published_consistent (with_physical ph s))|]. split.
  { unfold s2. rewrite publish_alias_list. apply publish_refreshes; [done|done|]. intros h Hgi Hout. apply make_hot_entry_same; [done|done|].
    intros Hfa. cbn [physical with_physical]. rewrite R1. destruct (decide (alias_frame h ∈ _)) as [Hmem|]; [|done]. exfalso. apply Hout.
    assert (Hall : forall p, first <= p < first + (last - first + 1) -> frame_ok p).
    { intros p Hp. apply (po_allocation _ (so_physical s (co_space s Hc))). apply elem_of_seqZ, Hin, same_allocation_spec in Hp as (? & _). done. }
    apply elem_of_seqZ in Hmem. destruct (Hall first ltac:(lia)) as [F0 F1]. destruct (Hall last ltac:(lia)) as [F2 F3].
    change kPhysicalPageCount with 0x20000 in *. change kBasePageSize with 4096. rewrite !u32_small by (unfold is_u32; lia).
    apply alias_list_cover; [lia|lia|done|done|rewrite shiftr_page, Z.div_mul by done; lia|lia]. }
  intros o [= <-]. exists first, last. rewrite Eg2. split_and!; try done.
  - intros p. change (metadata p (set_generations g ph)) with (metadata p ph). rewrite R1.
    destruct (decide (first <= p <= last)) as [Hp|Hp]; [by rewrite decide_True by (apply elem_of_seqZ; lia)|by rewrite decide_False by (rewrite elem_of_seqZ; lia)].
  - intros p Hp. apply Hin, elem_of_seqZ. lia.
  - intros j. by rewrite (published_page _ s2 j Hpub).
Qed.

(** ** Devices *)

Lemma set_mmio_consistent l s : consistent s -> consistent (set_mmio l s).
Proof.
  intros [[H1 H2] H3]. split; [|by apply (same_pages_extents s)]. split; [done|]. by apply (guest_frame s).
Qed.

Lemma add_mmio_range_consistent base size s : consistent s -> consistent (snd (add_mmio_range base size s)).
Proof.
  intros Hs. unfold add_mmio_range. destruct (_ || _); [done|]. cbv zeta. destruct (match head _ with Some _ => _ | None => _ end); [done|].
  destruct (match last _ with Some _ => _ | None => _ end); [done|]. cbn [snd].
  eapply published_consistent; [apply publish_hot_range_published|by apply set_mmio_consistent].
Qed.

Lemma rebuild_published s : published s (rebuild_hot_pages s).
Proof. unfold rebuild_hot_pages. generalize (seqZ 0 kPageCount). intros l. apply publish_pages_published. Qed.
Lemma rebuild_coherent s : coherent (rebuild_hot_pages s).
Proof.
  intros g Hg. pose proof (rebuild_published s) as Hp. rewrite (published_entry s _ g Hp). unfold rebuild_hot_pages.
  assert (Hin : g ∈ seqZ 0 kPageCount) by (apply elem_of_seqZ; unfold page_ok_index in Hg; lia). revert Hin. generalize (seqZ 0 kPageCount). intros l Hin.
  rewrite publish_pages_entries by done. by rewrite decide_True.
Qed.
#[local] Opaque rebuild_hot_pages.

Lemma clear_mmio_ranges_consistent s : consistent s -> consistent (clear_mmio_ranges s).
Proof. intros Hs. unfold clear_mmio_ranges. apply (published_consistent (set_mmio [] s)); [apply rebuild_published|by apply set_mmio_consistent]. Qed.

(** *** The device ranges stay sorted and apart *)

Definition mmio_ok (l : list (Z * Z)) : Prop :=
  StronglySorted (λ r r', fst r + snd r <= fst r') l /\ Forall (λ r, 0 <= fst r /\ 0 < snd r /\ fst r + snd r <= 0x100000000) l.

(** The last range that starts below a bound; the others end before it starts. *)
Lemma last_below l e : mmio_ok l ->
  match last (List.filter (λ r, fst r <? e) l) with
  | None => forall r, r ∈ l -> e <= fst r
  | Some r => r ∈ l /\ fst r < e /\ forall r', r' ∈ l -> fst r' < e -> r' = r \/ fst r' + snd r' <= fst r
  end.
Proof.
  intros [Hs Hf]. induction l as [|x l IH]; cbn [List.filter].
  { intros r Hr. by apply elem_of_nil in Hr. }
  apply StronglySorted_inv in Hs as [Hs Hx]. apply Forall_cons in Hf as [Hx0 Hf]. specialize (IH Hs Hf). rewrite List.Forall_forall in Hx.
  assert (Hxl : forall r, r ∈ l -> fst x + snd x <= fst r) by (intros r Hr; by apply Hx, list_elem_of_In).
  destruct (Z.ltb_spec (fst x) e) as [Hlt|Hge].
  - rewrite last_cons. destruct (last (List.filter _ l)) as [r|].
    + destruct IH as (I1 & I2 & I3). split_and!; [by right|done|]. intros r' [->|Hr']%elem_of_cons He; [right; by apply Hxl|by apply I3].
    + split_and!; [by left|done|]. intros r' [->|Hr']%elem_of_cons He; [by left|]. specialize (IH r' Hr'). lia.
  - assert (Hno : List.filter (λ r, fst r <? e) l = []).
    { destruct (List.filter (λ r, fst r <? e) l) as [|y l'] eqn:E; [done|]. exfalso.
      assert (Hy : In y (List.filter (λ r, fst r <? e) l)) by (rewrite E; by left). apply filter_In in Hy as [Hy1 Hy2%Z.ltb_lt].
      specialize (Hxl y (proj2 (list_elem_of_In _ _) Hy1)). lia. }
    rewrite Hno. intros r [->|Hr]%elem_of_cons; [done|]. specialize (Hxl r Hr). lia.
Qed.

Definition on_device (a n : Z) (s : AddressSpace) : Prop := exists r, r ∈ mmio_ranges_ s /\ fst r < a + n /\ a < fst r + snd r.

Lemma page_has_mmio_spec g s : mmio_ok (mmio_ranges_ s) -> page_ok_index g -> page_has_mmio g s = true <-> on_device (g * 4096) 4096 s.
Proof.
  intros Hok Hg. unfold page_ok_index in Hg. change kPageCount with 0x100000 in Hg. unfold page_has_mmio. cbv zeta.
  rewrite shiftl_page, u32_small by (unfold is_u32; lia). change kBasePageSize with 4096. unfold on_device.
  pose proof (last_below (mmio_ranges_ s) (g * 4096 + 4096) Hok) as H. destruct (last _) as [[b n]|].
  - destruct H as (H1 & H2 & H3). rewrite Z.ltb_lt. split; [intros ?; by exists (b, n)|]. intros (r & R1 & R2 & R3).
    destruct (H3 r R1 R2) as [->|]; [done|]. destruct Hok as [_ Hf]. rewrite Forall_forall in Hf. specialize (Hf _ H1). cbn in *. lia.
  - split; [done|]. intros (r & R1 & R2 & R3). specialize (H r R1). lia.
Qed.

(** The range found is the one that holds the whole access. *)
Lemma find_mmio_spec address width s r : mmio_ok (mmio_ranges_ s) -> 0 < width -> address + width <= 0x100000000 ->
  find_mmio address width s = Some r <-> r ∈ mmio_ranges_ s /\ fst r <= address /\ address + width <= fst r + snd r.
Proof.
  intros Hok Hw He. unfold find_mmio. rewrite (proj2 (Z.eqb_neq width 0)), (proj2 (Z.ltb_ge _ _)) by (change (2 ^ 32) with 0x100000000; lia). cbn [orb].
  assert (Ef : List.filter (λ r, fst r <=? address) (mmio_ranges_ s) = List.filter (λ r, fst r <? address + 1) (mmio_ranges_ s)).
  { apply List.filter_ext. intros x. apply eq_true_iff_eq. rewrite Z.leb_le, Z.ltb_lt. lia. }
  rewrite Ef. pose proof (last_below (mmio_ranges_ s) (address + 1) Hok) as H. destruct (last _) as [[b n]|].
  - destruct H as (H1 & H2 & H3). cbn in H2. destruct (Z.ltb_spec address b) as [|_]; [lia|]. destruct (Z.ltb_spec (b + n) (address + width)); cbn [orb].
    + split; [done|]. intros (R1 & R2 & R3). destruct (H3 r R1 ltac:(lia)) as [->|]; cbn in *; lia.
    + split; [intros [= <-]; cbn; split_and!; [done|lia|lia]|]. intros (R1 & R2 & R3). destruct (H3 r R1 ltac:(lia)) as [->|]; [done|cbn in *; lia].
  - split; [done|]. intros (R1 & R2 & R3). specialize (H r R1). lia.
Qed.

Lemma split_sorted l e : mmio_ok l -> l = List.filter (λ r, fst r <? e) l ++ List.filter (λ r, negb (fst r <? e)) l.
Proof.
  intros [Hs Hf]. induction l as [|x l IH]; [done|]. apply StronglySorted_inv in Hs as [Hs Hx]. apply Forall_cons in Hf as [Hx0 Hf]. cbn [List.filter].
  destruct (Z.ltb_spec (fst x) e); cbn [negb]; [cbn; by rewrite <- IH|]. rewrite List.Forall_forall in Hx.
  assert (Hno : forall r, In r l -> (fst r <? e) = false) by (intros r Hr; apply Z.ltb_ge; specialize (Hx r Hr); cbn in Hx; lia).
  assert (E1 : List.filter (λ r, fst r <? e) l = []).
  { clear -Hno. induction l as [|y l IH]; [done|]. cbn. rewrite Hno by (by left). apply IH. intros r Hr. apply Hno. by right. }
  specialize (IH Hs Hf). rewrite E1 in IH |- *. cbn. f_equal. exact IH.
Qed.

Lemma sorted_insert {A} (R : A -> A -> Prop) l1 x l2 :
  StronglySorted R (l1 ++ l2) -> Forall (λ r, R r x) l1 -> Forall (R x) l2 -> StronglySorted R (l1 ++ x :: l2).
Proof.
  induction l1 as [|y l1 IH]; cbn; intros Hs H1 H2; [by constructor|]. apply StronglySorted_inv in Hs as [Hs Hy]. apply Forall_cons in H1 as [Hyx H1].
  constructor; [by apply IH|]. apply Forall_app in Hy as [Hy1 Hy2]. apply Forall_app. split; [done|]. by apply Forall_cons.
Qed.

Lemma overlaps_spec a n b m : overlaps a n b m = true <-> a < b + m /\ b < a + n.
Proof. unfold overlaps. by rewrite andb_true_iff, !Z.ltb_lt. Qed.

Lemma add_mmio_range_spec base size s :
  is_u32 base -> is_u32 size -> mmio_ok (mmio_ranges_ s) ->
  let '(ok, s') := add_mmio_range base size s in
  mmio_ok (mmio_ranges_ s') /\
  (ok = true <-> 0 < size /\ base + size <= 0x100000000 /\ ~ on_device base size s) /\
  (forall r, r ∈ mmio_ranges_ s' <-> r ∈ mmio_ranges_ s \/ (ok = true /\ r = (base, size))) /\
  (ok = false -> s' = s).
Proof.
  intros Hb Hsz Hok. unfold is_u32 in Hb, Hsz. unfold add_mmio_range. cbv zeta.
  assert (Hno : forall P : Prop, ~ P -> mmio_ok (mmio_ranges_ s) /\ (false = true <-> P) /\
    (forall r, r ∈ mmio_ranges_ s <-> r ∈ mmio_ranges_ s \/ (false = true /\ r = (base, size))) /\ (false = false -> s = s)).
  { intros P HP. split_and!; [done|by split|intros r; split; [by left|by intros [?|[? _]]]|done]. }
  destruct (Z.eqb_spec size 0) as [|Hne]; [apply Hno; lia|]. change (2 ^ 32) with 0x100000000.
  destruct (Z.ltb_spec 0x100000000 (base + size)) as [|Hend]; [apply Hno; lia|]. cbn [orb].
  pose proof (split_sorted (mmio_ranges_ s) base Hok) as Hsplit. pose proof (last_below (mmio_ranges_ s) base Hok) as Hlast.
  set (l1 := List.filter (λ r, fst r <? base) (mmio_ranges_ s)) in *. set (l2 := List.filter (λ r, negb (fst r <? base)) (mmio_ranges_ s)) in *.
  assert (H1 : forall r, r ∈ l1 -> r ∈ mmio_ranges_ s /\ fst r < base).
  { intros r Hr%list_elem_of_In%filter_In. destruct Hr as [R1 R2%Z.ltb_lt]. split; [by apply list_elem_of_In|done]. }
  assert (H2 : forall r, r ∈ l2 -> r ∈ mmio_ranges_ s /\ base <= fst r).
  { intros r Hr%list_elem_of_In%filter_In. destruct Hr as [R1 R2%negb_true_iff%Z.ltb_ge]. split; [by apply list_elem_of_In|done]. }
  destruct Hok as [Hs Hf]. rewrite Forall_forall in Hf.
  destruct (match head l2 with Some r => overlaps base size (fst r) (snd r) | None => false end) eqn:Eh.
  { destruct l2 as [|r l2'] eqn:E2; [done|]. cbn in Eh. apply overlaps_spec in Eh. apply Hno. intros (_ & _ & Hn). apply Hn. exists r. split_and!; [apply H2; by left|lia..]. }
  destruct (match last l1 with Some r => overlaps base size (fst r) (snd r) | None => false end) eqn:El.
  { destruct (last l1) as [r|] eqn:E1; [|done]. apply overlaps_spec in El. apply Hno. intros (_ & _ & Hn). apply Hn. exists r. split_and!; [apply Hlast|lia..]. }
  assert (Hlow : forall r, r ∈ l1 -> fst r + snd r <= base).
  { intros r Hr. destruct (H1 r Hr) as [R1 R2]. destruct (last l1) as [r0|] eqn:E1; [|specialize (Hlast r R1); lia].
    destruct Hlast as (L1 & L2 & L3). apply not_true_iff_false in El. rewrite overlaps_spec in El. destruct (L3 r R1 R2) as [->|]; [|lia]. lia. }
  assert (Hhigh : forall r, r ∈ l2 -> base + size <= fst r).
  { intros r Hr. rewrite Hsplit in Hs. assert (Hs2 : StronglySorted (λ r r', fst r + snd r <= fst r') l2) by (clear -Hs; induction l1; [done|]; apply StronglySorted_inv in Hs as [Hs _]; auto).
    destruct l2 as [|r0 l2']; [by apply elem_of_nil in Hr|]. cbn in Eh. apply not_true_iff_false in Eh. rewrite overlaps_spec in Eh.
    destruct (H2 r0 ltac:(by left)) as [R1 R2]. specialize (Hf r0 R1). apply elem_of_cons in Hr as [->|Hr]; [lia|].
    apply StronglySorted_inv in Hs2 as [_ Hs2]. rewrite List.Forall_forall in Hs2. specialize (Hs2 r (proj1 (list_elem_of_In _ _) Hr)). cbn in Hs2. lia. }
  pose proof (publish_hot_range_published base size (set_mmio (l1 ++ (base, size) :: l2) s)) as (_ & Em & _). rewrite Em. cbn [mmio_ranges_ set_mmio].
  assert (Hin : forall r, r ∈ mmio_ranges_ s <-> r ∈ l1 \/ r ∈ l2) by (intros r; rewrite Hsplit; apply elem_of_app).
  split_and!.
  - split.
    + apply sorted_insert; [by rewrite <- Hsplit|..]; apply List.Forall_forall; intros r Hr%list_elem_of_In; cbn; auto.
    + apply Forall_app. split; [|apply Forall_cons; split; [cbn; lia|]]; apply Forall_forall; intros r Hr; apply Hf, Hin; auto.
  - split; [intros _|done]. split_and!; [lia|lia|]. intros (r & Hr%Hin & O1 & O2). destruct Hr as [Hr|Hr]; [specialize (Hlow r Hr)|specialize (Hhigh r Hr)]; lia.
  - intros r. rewrite Hin, elem_of_app, elem_of_cons. tauto.
  - done.
Qed.

(** ** Initial state *)

Lemma mapping_empty f g : mapping_contains f g (∅ : mapping) = false.
Proof. unfold mapping_contains, mapped_guests. by rewrite lookup_empty. Qed.

Lemma reset_used s p : used p (reset_physical s) =
  if bool_decide (kAllocatableEndPage <= p < kPhysicalPageCount) || bool_decide (0 <= p < kFirstFrame) then kPhysicalSystem else kPhysicalFree.
Proof.
  unfold used, reset_physical. cbn [physical_page_used_]. rewrite !fill_n_lookup, lookup_empty.
  change (kAllocatableEndPage + kPhysicalTopReservedSize / kBasePageSize) with kPhysicalPageCount.
  change (0 + kPhysicalSystemReserveSize / kBasePageSize) with kFirstFrame. by destruct (bool_decide _), (bool_decide _).
Qed.

Lemma reset_metadata s p : metadata p (reset_physical s) =
  if bool_decide (kAllocatableEndPage <= p < kPhysicalPageCount) then mkMetadata kInvalidPhysicalPage 0 kBasePageSize kNoAccess kNoAccess false else new_metadata.
Proof.
  unfold metadata, reset_physical. cbn [physical_page_metadata_]. rewrite fill_n_lookup, lookup_empty.
  change (kAllocatableEndPage + kPhysicalTopReservedSize / kBasePageSize) with kPhysicalPageCount. by destruct (bool_decide _).
Qed.

Lemma reset_physical_ok s : phys_ok (reset_physical s).
Proof.
  set (s0 := reset_physical s).
  destruct (reset_pages kFirstFrame (kAllocatableEndPage - kFirstFrame)) as [Ha Hcov]; [done|done|done|].
  assert (Hmap : physical_reverse_mappings_ s0 = ∅) by done. assert (Hrefs : forall p, refs p s0 = 0) by done.
  assert (Hal : physical_allocator_ s0 = range_reset kFirstFrame (kAllocatableEndPage - kFirstFrame)) by done.
  pose proof (reset_used s) as Hu. pose proof (reset_metadata s) as Hd. fold s0 in Hu, Hd. clearbody s0.
  change kAllocatableEndPage with 0x1FFF0 in *. change kFirstFrame with 0x1000 in *. unfold frame_ok.
  assert (Hno : forall p, explicit_allocation (metadata p s0) = false) by (intros p; rewrite Hd; by destruct (bool_decide _)).
  split; rewrite ?Hmap, ?Hal; try done.
  - intros p. etransitivity; [apply Hcov|]. unfold run_of, frame_ok. rewrite Hu. change kPhysicalPageCount with 0x20000. 
    destruct (bool_decide_reflect (0x1FFF0 <= p < 0x20000)); [split; [lia|by intros [_ ?]]|].
    destruct (bool_decide_reflect (0 <= p < 0x1000)); cbn [orb]; [split; [lia|by intros [_ ?]]|]. split; [intros; split; [lia|done]|intros [? _]; lia].
  - intros p. split; [|intros [_ Hp]; rewrite Hu in Hp; by destruct (_ || _)]. unfold range_reset. destruct (_ =? 0); by intros ?%covers_nil.
  - intros p Hp. change kFirstFrame with 0x1000 in Hp. rewrite Hu. destruct (bool_decide_reflect (0 <= p < 0x1000)); [by rewrite orb_true_r|lia].
  - intros p Hp. rewrite Hu in Hp. by destruct (_ || _).
  - intros p _. rewrite Hno, Hu. split; [done|]. by destruct (_ || _).
  - intros p. by rewrite Hno.
  - intros p Hp _ Hs. rewrite Hu in Hs. rewrite Hd. destruct (bool_decide_reflect (0x1FFF0 <= p < kPhysicalPageCount)); [done|done].
Qed.

Lemma space_reset_pages s : (forall j, page_at j (space_reset s) = if decide (0 <= j < kGuardPages) then guard_page else new_page) /\
  exists m, physical (space_reset s) = set_generations m (reset_physical (physical s)).
Proof.
  unfold space_reset. set (s0 := mkSpace _ _ _ _).
  assert (Hpub : published s0 (rebuild_hot_pages s0)) by apply rebuild_published.
  split; [|apply Hpub]. intros j. rewrite (published_page s0 _ j Hpub). unfold page_at, s0. cbn [pages_]. rewrite fill_n_lookup, lookup_empty.
  destruct (decide (0 <= j < kGuardPages)); [by rewrite bool_decide_true by lia|by rewrite bool_decide_false by lia].
Qed.

Lemma reset_consistent s : consistent (space_reset s).
Proof.
  destruct (space_reset_pages s) as [Hpg [m Hph]]. set (s0 := space_reset s) in *. clearbody s0.
  assert (Hguard : forall j, 0 <= j < kGuardPages -> heap_page (mkRegion kVirtual4KBase kVirtual4KEnd kBasePageSize Virtual) j).
  { intros j. change kGuardPages with 16. intros Hj. split_and!; [unfold page_ok_index; change kPageCount with 0x100000; lia| |done].
    apply region_unique; [unfold kRegions; set_solver|cbn [rg_base rg_end]; unfold kVirtual4KBase, kVirtual4KEnd; lia]. }
  assert (Hphys : phys_ok (physical s0)) by (rewrite Hph; apply set_generations_ok, reset_physical_ok).
  assert (Hno : forall f g, maps (physical s0) f g = false) by (intros f g; rewrite Hph; apply mapping_empty).
  split.
  - split; [done|]. split.
    + intros g. rewrite Hpg. destruct (decide _) as [Hg|]; [|done]. unfold page_shape. cbn. split; [|done].
      exists (mkRegion kVirtual4KBase kVirtual4KEnd kBasePageSize Virtual). split_and!; [by apply Hguard|done|done].
    + intros f g. rewrite Hno, Hpg. split; [done|]. intros (Hc & Hgd & _). by destruct (decide _).
    + intros r g Hr Hx. pose proof (xex_range r g Hr Hx) as Hg. rewrite !Hpg, alias_page_spec by done. change kGuardPages with 16.
      rewrite !decide_False; [done|lia|]. destruct (g <? 0x90000); lia.
    + intros f Hf. rewrite Hph in Hf. change (used f (reset_physical (physical s)) = kPhysicalAnonymous) in Hf. rewrite reset_used in Hf. by destruct (_ || _).
    + intros f g g' (Hc & Hgd & _). rewrite Hpg in Hc, Hgd. by destruct (decide _).
  - intros g Hg1 Hg2. rewrite Hpg in Hg1, Hg2. by destruct (decide _).
Qed.

(** ** Placement *)

(** The range lies in the region at an aligned address, and its pages are free. *)
Definition fits (r : RegionDescriptor) (size alignment : Z) (s : AddressSpace) (a : Z) : Prop :=
  (alignment | a) /\ rg_base r <= a /\ a + size - 1 <= rg_end r /\ pages_free (Z.shiftr a kPageShift) (Z.shiftr size kPageShift) s = true.

Section Placement.
Context (r : RegionDescriptor) (size alignment : Z) (s : AddressSpace).
Hypothesis Hr : r ∈ kRegions.
Hypothesis Hsize : 0 < size <= 0xFFFFFFFF.
Hypothesis Halign : 0 < alignment <= 0x80000000.

Lemma in_bounds c : 0 <= c -> c + size - 1 <= rg_end r -> u32 c = c /\ page_index_in_bounds (Z.shiftr c kPageShift) (Z.shiftr size kPageShift) = true.
Proof using Hr Hsize.
  intros Hc He. destruct (region_bounds r Hr) as (B1 & B2 & _). split; [apply u32_small; unfold is_u32; lia|].
  unfold page_index_in_bounds. rewrite !shiftr_page. change kPageCount with 0x100000. apply orb_true_iff. right. apply Z.ltb_lt. Z.to_euclidean_division_equations; lia.
Qed.

Lemma search_up_spec fuel c :
  (alignment | c) -> 0 <= c <= 0x200000000 -> rg_end r - c < Z.of_nat fuel * alignment ->
  match search_up fuel size alignment (rg_end r) c s with
  | Some a => (alignment | a) /\ c <= a /\ a + size - 1 <= rg_end r /\ pages_free (Z.shiftr a kPageShift) (Z.shiftr size kPageShift) s = true /\
      forall b, (alignment | b) -> c <= b < a -> pages_free (Z.shiftr b kPageShift) (Z.shiftr size kPageShift) s = false
  | None => forall b, (alignment | b) -> c <= b -> b + size - 1 <= rg_end r -> pages_free (Z.shiftr b kPageShift) (Z.shiftr size kPageShift) s = false
  end.
Proof using Hr Hsize Halign.
  revert c. induction fuel as [|fuel IH]; intros c Hd Hc Hf; cbn [search_up]; [intros b Hb Hb1 Hb2; lia|].
  destruct (region_bounds r Hr) as (B1 & B2 & _). rewrite (u64_small (c + size - 1)) by (unfold is_u64; lia).
  destruct (Z.leb_spec (c + size - 1) (rg_end r)) as [Hle|Hgt]; cbn [negb]; [|intros b Hb Hb1 Hb2; lia].
  destruct (in_bounds c ltac:(lia) Hle) as [-> ->]. cbn [negb].
  destruct (pages_free (Z.shiftr c kPageShift) (Z.shiftr size kPageShift) s) eqn:Ef; [split_and!; [done|lia|done|done|intros b _ Hb; lia]|].
  assert (Hnext : forall b, (alignment | b) -> c <= b -> b = c \/ c + alignment <= b).
  { intros b [y ->] Hb. destruct Hd as [x ->]. destruct (Z.eq_dec y x) as [->|Hne]; [by left|right]. nia. }
  rewrite u64_small by (unfold is_u64; lia). specialize (IH (c + alignment) (Z.divide_add_r _ _ _ Hd (Z.divide_refl _)) ltac:(lia) ltac:(lia)).
  destruct (search_up _ _ _ _ _ _) as [a|].
  - destruct IH as (I1 & I2 & I3 & I4 & I5). split_and!; [done|lia|done|done|]. intros b Hb Hb1. destruct (Hnext b Hb ltac:(lia)) as [->|]; [done|]. apply I5; [done|lia].
  - intros b Hb Hb1 Hb2. destruct (Hnext b Hb Hb1) as [->|]; [done|]. by apply IH.
Qed.

Lemma search_down_spec fuel c :
  (alignment | c) -> 0 <= c -> c + size - 1 <= rg_end r -> rg_base r + alignment < 0x100000000 -> c - rg_base r < Z.of_nat fuel * alignment ->
  match search_down fuel size alignment (rg_base r) c s with
  | Some a => (alignment | a) /\ a <= c /\ rg_base r <= a /\ pages_free (Z.shiftr a kPageShift) (Z.shiftr size kPageShift) s = true /\
      forall b, (alignment | b) -> a < b <= c -> pages_free (Z.shiftr b kPageShift) (Z.shiftr size kPageShift) s = false
  | None => forall b, (alignment | b) -> b <= c -> rg_base r <= b -> pages_free (Z.shiftr b kPageShift) (Z.shiftr size kPageShift) s = false
  end.
Proof using Hr Hsize Halign.
  revert c. induction fuel as [|fuel IH]; intros c Hd Hc He Hw Hf; cbn [search_down]; [intros b Hb Hb1 Hb2; lia|].
  destruct (region_bounds r Hr) as (B1 & B2 & _). destruct (Z.ltb_spec c (rg_base r)) as [Hlt|Hge]; [intros b Hb Hb1 Hb2; lia|].
  destruct (in_bounds c Hc He) as [-> ->]. cbn [negb].
  destruct (pages_free (Z.shiftr c kPageShift) (Z.shiftr size kPageShift) s) eqn:Ef; [split_and!; [done|lia|done|done|intros b _ Hb; lia]|].
  assert (Hnext : forall b, (alignment | b) -> b <= c -> b = c \/ b <= c - alignment).
  { intros b [y ->] Hb. destruct Hd as [x ->]. destruct (Z.eq_dec y x) as [->|Hne]; [by left|right]. nia. }
  rewrite u32_small by (unfold is_u32; lia). destruct (Z.ltb_spec c (rg_base r + alignment)) as [Hlast|Hmore].
  - intros b Hb Hb1 Hb2. destruct (Hnext b Hb Hb1) as [->|]; [done|lia].
  - rewrite u64_small by (unfold is_u64; lia). specialize (IH (c - alignment) (Z.divide_sub_r _ _ _ Hd (Z.divide_refl _)) ltac:(lia) ltac:(lia) Hw ltac:(lia)).
    destruct (search_down _ _ _ _ _ _) as [a|].
    + destruct IH as (I1 & I2 & I3 & I4 & I5). split_and!; [done|lia|done|done|]. intros b Hb Hb1. destruct (Hnext b Hb ltac:(lia)) as [->|]; [done|]. apply I5; [done|lia].
    + intros b Hb Hb1 Hb2. destruct (Hnext b Hb Hb1) as [->|]; [done|]. by apply IH.
Qed.
End Placement.

Lemma heap_region_in page_size r : heap_region page_size = Some r ->
  r ∈ kRegions /\ rg_kind r = Virtual /\ rg_page_size r = page_size /\
  (r = mkRegion kVirtual4KBase kVirtual4KEnd kBasePageSize Virtual \/ r = mkRegion kVirtual64KBase kVirtual64KEnd kLargePageSize Virtual).
Proof.
  unfold heap_region, kRegions. cbn [List.find rg_kind rg_page_size]. 
  rewrite !(bool_decide_true (Virtual = Virtual)) by done. cbn [andb].
  destruct (Z.eqb_spec kBasePageSize page_size) as [<-|]; [intros [= <-]; split_and!; [unfold kRegions; set_solver|done|done|by left]|].
  destruct (Z.eqb_spec kLargePageSize page_size) as [<-|]; [intros [= <-]; split_and!; [unfold kRegions; set_solver|done|done|by right]|].
  rewrite !bool_decide_false by done. done.
Qed.

Lemma fuel_enough alignment : 0 < alignment -> 0x100000000 < Z.of_nat (candidates alignment) * alignment.
Proof.
  intros Ha. unfold candidates. change (2 ^ 32) with 0x100000000. pose proof (Z.div_pos 0x100000000 alignment). rewrite Z2Nat.id by lia.
  pose proof (Z.div_mod 0x100000000 alignment). pose proof (Z.mod_pos_bound 0x100000000 alignment Ha). lia.
Qed.

(** First fit, from the bottom or the top. Without the bound on the alignment, the top-down
    search can leave the region: the candidate of a size beyond the region wraps around. *)
Lemma place_spec page_size r size k top_down s :
  heap_region page_size = Some r -> 0 < size <= 0xFFFFFFFF -> (4096 | size) -> 12 <= k <= 31 -> (top_down = true -> k <= 30) ->
  match place r size (2 ^ k) top_down s with
  | Some a => fits r size (2 ^ k) s a /\ forall b, fits r size (2 ^ k) s b -> if top_down then b <= a else a <= b
  | None => forall b, ~ fits r size (2 ^ k) s b
  end.
Proof.
  intros Hreg Hsize Hpages Hk Htd. destruct (heap_region_in page_size r Hreg) as (Hr & _ & _ & Hcases). destruct (region_bounds r Hr) as (B1 & B2 & _).
  assert (Hal : 0 < 2 ^ k <= 0x80000000) by (split; [apply Z.pow_pos_nonneg; lia|change 0x80000000 with (2 ^ 31); apply Z.pow_le_mono_r; lia]).
  assert (Hb : 0 <= rg_base r <= 0x40000000 /\ 0x40000000 <= rg_end r + 1 <= 0x7F000000)
    by (destruct Hcases as [-> | ->]; cbn [rg_base rg_end]; unfold kVirtual4KBase, kVirtual4KEnd, kVirtual64KBase, kVirtual64KEnd; lia).
  pose proof (fuel_enough (2 ^ k) ltac:(lia)) as Hfuel. unfold place. destruct top_down.
  - assert (Hal30 : 2 ^ k <= 0x40000000) by (change 0x40000000 with (2 ^ 30); apply Z.pow_le_mono_r; [lia|auto]).
    destruct (Z.le_gt_cases size (rg_end r + 1)) as [Hle|Hgt].
    + rewrite u64_small by (unfold is_u64; lia). rewrite u32_small by (unfold is_u32; lia). rewrite align_down_floor32 by (lia || (unfold is_u32; lia)).
      set (c := (rg_end r + 1 - size) / 2 ^ k * 2 ^ k).
      pose proof (Z.div_mod (rg_end r + 1 - size) (2 ^ k) ltac:(lia)) as D. pose proof (Z.mod_pos_bound (rg_end r + 1 - size) (2 ^ k) ltac:(lia)) as M.
      assert (Hc0 : 0 <= c) by (apply Z.mul_nonneg_nonneg; [apply Z.div_pos|]; lia). assert (Hcd : (2 ^ k | c)) by apply Z.divide_factor_r.
      assert (Hmax : forall b, (2 ^ k | b) -> b + size - 1 <= rg_end r -> b <= c).
      { intros b [y ->] Hy. unfold c. apply Z.mul_le_mono_nonneg_r; [lia|]. apply Z.div_le_lower_bound; lia. }
      pose proof (search_down_spec r size (2 ^ k) s Hr Hsize Hal (candidates (2 ^ k)) c Hcd Hc0 ltac:(unfold c in *; lia) ltac:(lia) ltac:(unfold c in *; lia)) as H.
      destruct (search_down _ _ _ _ _ _) as [a|].
      * destruct H as (H1 & H2 & H3 & H4 & H5). split; [split_and!; [done..|unfold c in H2; lia|done]|].
        intros b (F1 & F2 & F3 & F4). destruct (Z.le_gt_cases b a) as [|Hba]; [done|]. exfalso. rewrite H5 in F4; [done|done|]. specialize (Hmax b F1 F3). lia.
      * intros b (F1 & F2 & F3 & F4). rewrite (H b F1 (Hmax b F1 F3) F2) in F4. done.
    + assert (Hno : forall b, ~ fits r size (2 ^ k) s b) by (intros b (F1 & F2 & F3 & F4); lia).
      assert (Hnone : search_down (candidates (2 ^ k)) size (2 ^ k) (rg_base r) (align_down (u32 (u64 (rg_end r + 1 - size))) (2 ^ k)) s = None); [|by rewrite Hnone].
      rewrite u32_u64. replace (u32 (rg_end r + 1 - size)) with (0x100000000 + (rg_end r + 1 - size)).
      2: { unfold u32. rewrite <- (Z.mod_add _ 1) by lia. rewrite Z.mod_small by lia. lia. }
      rewrite align_down_floor32 by (lia || (unfold is_u32; lia)). set (x := 0x100000000 + (rg_end r + 1 - size)).
      pose proof (Z.div_mod x (2 ^ k) ltac:(lia)) as D. pose proof (Z.mod_pos_bound x (2 ^ k) ltac:(lia)) as M. set (c := x / 2 ^ k * 2 ^ k).
      assert (Hc0 : 0 <= c < 0x100000000) by (unfold c, x in *; split; [apply Z.mul_nonneg_nonneg; [apply Z.div_pos; lia|]|]; lia).
      assert (Hc4 : (4096 | c)). { unfold c. apply Z.divide_mul_r. change 4096 with (2 ^ 12). exists (2 ^ (k - 12)). rewrite <- Z.pow_add_r by lia. f_equal. lia. }
      destruct (candidates (2 ^ k)); [done|]. cbn [search_down]. destruct (c <? rg_base r); [done|]. rewrite (u32_small c) by (unfold is_u32; lia).
      assert (Hob : page_index_in_bounds (Z.shiftr c kPageShift) (Z.shiftr size kPageShift) = false); [|by rewrite Hob].
      unfold page_index_in_bounds. rewrite !shiftr_page. change kPageCount with 0x100000. destruct Hpages as [z Hz], Hc4 as [y Hy].
      rewrite Hz, Hy, !Z.div_mul by lia. apply orb_false_iff. unfold c, x in *. split; [apply Z.eqb_neq; lia|apply Z.ltb_ge; lia].
  - destruct (align_up_spec32 k (rg_base r) ltac:(lia) ltac:(unfold is_u32; lia)) as (A1 & A2 & A3). set (c := align_up (rg_base r) (2 ^ k)) in *.
    destruct A3 as [A3|A3]; [lia|]. unfold is_u32 in A1.
    pose proof (search_up_spec r size (2 ^ k) s Hr Hsize Hal (candidates (2 ^ k)) c A2 ltac:(lia) ltac:(lia)) as H.
    assert (Hmin : forall b, (2 ^ k | b) -> rg_base r <= b -> c <= b).
    { intros b [y ->] Hy. destruct A2 as [x Hx]. rewrite Hx in A3 |- *. apply Z.mul_le_mono_nonneg_r; [lia|]. nia. }
    destruct (search_up _ _ _ _ _ _) as [a|].
    + destruct H as (H1 & H2 & H3 & H4 & H5). split; [split_and!; [done|lia|done|done]|].
      intros b (F1 & F2 & F3 & F4). destruct (Z.le_gt_cases a b) as [|Hba]; [done|]. exfalso. rewrite H5 in F4; [done|done|]. specialize (Hmin b F1 F2). lia.
    + intros b (F1 & F2 & F3 & F4). rewrite (H b F1 (Hmin b F1 F2) F3) in F4. done.
Qed.

(** The size and the alignment that [allocate] uses. *)
Definition rounded_alignment (alignment page_size : Z) : Z := Z.max (if alignment =? 0 then page_size else alignment) page_size.

Lemma align_up_pages page_size r size : heap_region page_size = Some r -> is_u32 size ->
  is_u32 (align_up size page_size) /\ (4096 | align_up size page_size) /\
  ((align_up size page_size = 0 /\ 0x100000000 < size + page_size) \/ size <= align_up size page_size < size + page_size).
Proof.
  intros Hr Hs. destruct (heap_region_in page_size r Hr) as (_ & _ & <- & [-> | ->]); cbn [rg_page_size].
  - destruct (align_up_spec32 12 size ltac:(lia) Hs) as (A1 & A2 & A3). by split_and!.
  - destruct (align_up_spec32 16 size ltac:(lia) Hs) as (A1 & A2 & A3). split_and!; [apply A1| |done].
    etransitivity; [|exact A2]. by exists 16.
Qed.

(** What an allocation request is answered with; [s'] when it succeeds. *)
Definition allocated (size alignment : Z) (protect : Protect) (top_down : bool) (page_size : Z) (committed : bool)
    (o : option Z) (s s' : AddressSpace) : Prop :=
  forall r, heap_region page_size = Some r ->
    let length := align_up size page_size in
    match o with
    | Some a =>
        (length = 0 /\ s' = s) \/
        (fits r length alignment s a /\ (forall b, fits r length alignment s b -> if top_down then b <= a else a <= b) /\
         fresh_allocation r (Z.shiftr a kPageShift) (Z.shiftr length kPageShift) s s' /\
         (committed = true -> forall j, Z.shiftr a kPageShift <= j < Z.shiftr a kPageShift + Z.shiftr length kPageShift ->
            state (page_at j s') = Committed /\ current_protect (page_at j s') = protect))
    | None => valid_memory_type_protection protect = true -> 0 < length ->
        (forall b, ~ fits r length alignment s b) \/ (committed = true /\ exhausted (physical s'))
    end.

Lemma reserve_nothing base protect s r :
  valid_memory_type_protection protect = true -> region_for base = Some r -> reserve_pages base 0 protect false s = Some (true, s).
Proof. intros Hv Hr. unfold reserve_pages, publish_both, publish_hot_range. rewrite Hv, Hr. cbn. by destruct (is_xex r). Qed.
Lemma commit_nothing base protect zero s r :
  valid_memory_type_protection protect = true -> region_for base = Some r -> commit_pages base 0 protect zero s = Some (true, s).
Proof. intros Hv Hr. unfold commit_pages, publish_both, publish_hot_range. rewrite Hv, Hr. cbn. by destruct (is_xex r). Qed.

Lemma place_word r size alignment top_down s a : place r size alignment top_down s = Some a -> is_u32 a.
Proof.
  assert (Hup : forall fuel last c, search_up fuel size alignment last c s = Some a -> is_u32 a).
  { induction fuel as [|fuel IH]; intros last c; cbn; [done|]. destruct (negb _); [done|]. destruct (negb _); [done|].
    destruct (pages_free _ _ s); [intros [= <-]; apply u32_range|apply IH]. }
  assert (Hdown : forall fuel base c, search_down fuel size alignment base c s = Some a -> is_u32 a).
  { induction fuel as [|fuel IH]; intros base c; cbn; [done|]. destruct (_ <? _); [done|]. destruct (negb _); [done|].
    destruct (pages_free _ _ s); [intros [= <-]; apply u32_range|]. destruct (_ <? _); [done|apply IH]. }
  unfold place. destruct top_down; [apply Hdown|apply Hup].
Qed.

Lemma fits_pages page_size r length alignment s a : heap_region page_size = Some r -> 0 < length -> fits r length alignment s a ->
  is_u32 a /\ region_for a = Some r /\ is_heap r = true /\ all_pages r (Z.shiftr a kPageShift) (Z.shiftr length kPageShift).
Proof.
  intros Hreg Hl (_ & H2 & H3 & _). destruct (heap_region_in page_size r Hreg) as (Hr & Hk & _). destruct (region_bounds r Hr) as (B1 & B2 & B3 & B4).
  assert (Hh : is_heap r = true) by (unfold is_heap; by rewrite Hk).
  assert (Hfor : region_for a = Some r). { rewrite region_for_page, shiftr_page. apply region_unique; [done|]. Z.to_euclidean_division_equations; lia. }
  split_and!; [unfold is_u32; lia..|done|done|]. apply range_pages; [done|done|lia|lia].
Qed.

(** Reserving free pages of an ordinary heap succeeds. *)
Lemma reserve_pages_free base size protect s r ok s' :
  valid_memory_type_protection protect = true -> region_for base = Some r -> is_xex r = false ->
  pages_free (Z.shiftr base kPageShift) (Z.shiftr size kPageShift) s = true ->
  reserve_pages base size protect false s = Some (ok, s') -> ok = true /\
  forall j, page_at j s' = page_at j (foldl (λ s i, reserve_page r base (Z.shiftr size kPageShift) protect i s) s
    (seqZ (Z.shiftr base kPageShift) (Z.shiftr size kPageShift))).
Proof.
  intros Hv Hr Hx Hf. unfold reserve_pages. rewrite Hv, Hr, Hx. cbn [negb orb]. unfold pages_free in Hf.
  assert (Hall : forallb (λ i, bool_decide (state (page_at i s) = Free) && true) (seqZ (Z.shiftr base kPageShift) (Z.shiftr size kPageShift)) = true).
  { rewrite forallb_forall in Hf |- *. intros x Hx'. by rewrite (Hf x Hx'). }
  rewrite Hall. cbn [negb]. intros [= <- <-]. split; [done|]. intros j. apply published_page, publish_both_published.
Qed.

Lemma space_allocate_spec size alignment protect top_down requested options s :
  is_u32 size -> is_u32 alignment -> (top_down = true -> alignment <= 0x40000000) -> consistent s ->
  keeps (λ o s', ((o <> None \/ commit options = false) -> refreshed s s') /\
      (allocated size (rounded_alignment alignment (default kBasePageSize requested)) protect top_down (default kBasePageSize requested) (commit options) o s s'
      \/ o = None /\ (size = 0 \/ has_single_bit (rounded_alignment alignment (default kBasePageSize requested)) = false)))
    (space_allocate size alignment protect top_down requested options s).
Proof.
  intros Hsz Hal Htd Hc. unfold space_allocate. destruct (Z.eqb_spec size 0) as [|Hne]; [exists None, s; split_and!; [done..|]; auto|].
  cbv zeta. set (ps := default kBasePageSize requested). destruct (heap_region ps) as [r|] eqn:Hreg.
  2: { exists None, s. split_and!; [done..|]. left. intros r Hr. congruence. }
  fold (rounded_alignment alignment ps). set (al := rounded_alignment alignment ps).
  destruct (has_single_bit al) eqn:Hbit; cbn [negb]; [|exists None, s; split_and!; [done..|]; auto].
  destruct (align_up_pages ps r size Hreg Hsz) as (L1 & L2 & L3). set (len := align_up size ps) in *.
  destruct (heap_region_in ps r Hreg) as (Hr & Hk & Hpsr & Hcases).
  assert (Hps : 0x1000 <= ps <= 0x10000) by (rewrite <- Hpsr; destruct Hcases as [-> | ->]; cbn [rg_page_size]; unfold kBasePageSize, kLargePageSize; lia).
  assert (Hal32 : is_u32 al /\ ps <= al /\ (top_down = true -> al <= 0x40000000)).
  { unfold al, rounded_alignment, is_u32 in *. destruct (alignment =? 0); split_and!; try lia; intros Ht; specialize (Htd Ht); lia. }
  destruct Hal32 as (Hal32 & Hal2 & Hal3). unfold is_u32 in Hal32, L1.
  assert (Hpow : exists k, 12 <= k <= 31 /\ al = 2 ^ k /\ (top_down = true -> k <= 30)).
  { apply has_single_bit_spec in Hbit as (k & Hk0 & Ek); [|lia]. exists k. rewrite Ek in *.
    assert (H1 : 12 <= k) by (apply Z.pow_le_mono_r_iff with 2; [lia..|]; change (2 ^ 12) with 0x1000; lia).
    assert (H2 : k < 32) by (apply Z.pow_lt_mono_r_iff with 2; [lia..|]; change (2 ^ 32) with 0x100000000; lia).
    split_and!; [lia..|done|]. intros Ht. apply Z.pow_le_mono_r_iff with 2; [lia..|]. change (2 ^ 30) with 0x40000000. auto. }
  destruct Hpow as (k & Hk12 & Ek & Hk30).
  assert (Hno : forall o s1, o = None -> consistent s1 -> (commit options = false -> refreshed s s1) -> (valid_memory_type_protection protect = true -> 0 < len -> (forall b, ~ fits r len al s b) \/ (commit options = true /\ exhausted (physical s1))) ->
    keeps (λ o s', ((o <> None \/ commit options = false) -> refreshed s s') /\ (allocated size al protect top_down ps (commit options) o s s' \/ (o = None /\ (size = 0 \/ true = false)))) (Some (o, s1))).
  { intros o s1 -> Hc1 Href Hn. exists None, s1. split_and!; [done|done|intros [?|?]; [done|auto]|]. left. intros r' Hr'. replace r' with r by congruence. exact Hn. }
  rewrite Ek. destruct (place r len (2 ^ k) top_down s) as [a|] eqn:Epl.
  2: { rewrite <- Ek. apply Hno; [done|done|done|]. intros _ Hpos. left. rewrite Ek.
       pose proof (place_spec ps r len k top_down s Hreg ltac:(lia) L2 Hk12 Hk30) as H. by rewrite Epl in H. }
  pose proof (place_word _ _ _ _ _ _ Epl) as Ha. rewrite <- Ek in *.
  destruct (Z.eq_dec len 0) as [E0|Hpos].
  - rewrite E0 in *. destruct (valid_memory_type_protection protect) eqn:Hv.
    2: { unfold reserve_pages. rewrite Hv. cbn. apply Hno; [done|done|done|intros; lia]. }
    destruct (region_for a) as [r'|] eqn:Hra.
    2: { unfold reserve_pages. rewrite Hv, Hra. cbn. apply Hno; [done|done|done|intros; lia]. }
    rewrite (reserve_nothing a protect s r' Hv Hra). cbn [mbind option_bind negb].
    assert (Hok : keeps (λ o s', ((o <> None \/ commit options = false) -> refreshed s s') /\ (allocated size al protect top_down ps (commit options) o s s' \/ (o = None /\ (size = 0 \/ true = false)))) (Some (Some a, s))).
    { exists (Some a), s. split_and!; [done..|]. left. intros r2 Hr2. left. done. }
    destruct (commit options); cbn [negb]; [|exact Hok]. rewrite (commit_nothing a protect _ s r' Hv Hra). exact Hok.
  - pose proof (place_spec ps r len k top_down s Hreg ltac:(lia) L2 Hk12 Hk30) as H. rewrite <- Ek, Epl in H. destruct H as [Hfit Hbest].
    destruct (fits_pages ps r len al s a Hreg ltac:(lia) Hfit) as (_ & Hra & Hh & Hp).
    destruct (valid_memory_type_protection protect) eqn:Hv.
    2: { unfold reserve_pages. rewrite Hv. cbn. apply Hno; done. }
    destruct (reserve_pages_spec a len protect false s r Ha Hra Hh Hp L1 Hc) as (ok & s1 & Eres & Hc1 & Href & Hok). rewrite Eres. cbn [mbind option_bind].
    destruct (reserve_pages_free a len protect s r ok s1 Hv Hra ltac:(unfold is_xex; by rewrite Hk) (proj2 (proj2 (proj2 Hfit))) Eres) as [-> _]. cbn [negb].
    specialize (Hok eq_refl). specialize (Href eq_refl). destruct (commit options) eqn:Ecm; cbn [negb].
    + destruct (commit_pages_spec a len protect (zero_initialize options) s1 r Hra Hp L1 Hc1) as (ok & s2 & -> & Hc2 & Hadj & Href2 & Hcom & Hex). cbn [mbind option_bind].
      destruct ok.
      2: { apply Hno; [done|done|congruence|]. intros _ _. right. split; [done|]. apply Hex; [done|done|]. intros j Hj. by destruct (fa_used _ _ _ _ _ Hok j Hj) as (? & ? & _). }
      exists (Some a), s2. split_and!; [done|done|intros _; eapply refreshed_trans; [exact Href|by apply Href2]|]. left. intros r2 Hr2. replace r2 with r by congruence. right.
      split_and!; [done|done|by apply (fresh_adjusted r _ _ s s1)|]. intros _. by apply Hcom.
    + exists (Some a), s1. split_and!; [done..|]. left. intros r2 Hr2. replace r2 with r by congruence. right. by split_and!.
Qed.

(** Top down with an alignment of 2 GiB, the candidate for a size beyond the region wraps
    to an address outside it, and is taken when the pages there are free. *)
Lemma wrapped_candidate_leaves_region s :
  pages_free 0x80000 0x40001 s = true ->
  place (mkRegion kVirtual4KBase kVirtual4KEnd kBasePageSize Virtual) 0x40001000 0x80000000 true s = Some kXex64KBase.
Proof.
  intros Hf. unfold place. change (candidates 0x80000000) with 3%nat.
  change (align_down _ 0x80000000) with 0x80000000. cbn [search_down rg_base].
  change (Z.shiftr (u32 0x80000000) kPageShift) with 0x80000. change (Z.shiftr 0x40001000 kPageShift) with 0x40001. by rewrite Hf.
Qed.

(** A size that rounds up to 4 GiB wraps to nothing: the request succeeds with an address
    where nothing is reserved, whatever the memory holds. *)
Lemma oversized_request_succeeds size protect options s :
  0x100000000 - kBasePageSize < size < 0x100000000 -> valid_memory_type_protection protect = true ->
  space_allocate size 0 protect true None options s = Some (Some 0x40000000, s).
Proof.
  intros Hs Hv. unfold space_allocate. rewrite (proj2 (Z.eqb_neq size 0)) by (change kBasePageSize with 4096 in Hs; lia). cbv zeta. cbn [default].
  change (heap_region kBasePageSize) with (Some (mkRegion kVirtual4KBase kVirtual4KEnd kBasePageSize Virtual)). cbv iota.
  change (Z.max (if 0 =? 0 then kBasePageSize else 0) kBasePageSize) with kBasePageSize. change (has_single_bit kBasePageSize) with true. cbn [negb].
  assert (El : align_up size kBasePageSize = 0).
  { change kBasePageSize with (2 ^ 12) in *. rewrite align_up_ceil by (lia || (unfold is_u32; lia)).
    replace ((size + 2 ^ 12 - 1) / 2 ^ 12) with (2 ^ 20); [done|]. apply Z.div_unique with (size + 2 ^ 12 - 1 - 2 ^ 32); lia. }
  assert (Epl : place (mkRegion kVirtual4KBase kVirtual4KEnd kBasePageSize Virtual) 0 kBasePageSize true s = Some 0x40000000).
  { unfold place. pose proof (fuel_enough kBasePageSize ltac:(done)) as Hf. by destruct (candidates kBasePageSize). }
  rewrite El, Epl.
  rewrite (reserve_nothing _ protect s (mkRegion kVirtual64KBase kVirtual64KEnd kLargePageSize Virtual) Hv) by done. cbn [mbind option_bind negb].
  destruct (commit options); cbn [negb]; [|done]. by rewrite (commit_nothing _ protect _ s (mkRegion kVirtual64KBase kVirtual64KEnd kLargePageSize Virtual) Hv) by done.
Qed.

(** ** The repository's invariant check *)

Lemma valid_ownership_ok s i : space_ok s -> frame_ok i -> valid_ownership i (physical s) = true.
Proof.
  intros [Hp Hg] Hi. unfold valid_ownership.
  assert (Hfree : contains_free i 1 (physical_allocator_ (physical s)) = bool_decide (used i (physical s) = kPhysicalFree)).
  { apply eq_true_iff_eq. rewrite bool_decide_eq_true. etransitivity; [apply contains_spec; [apply (po_ranges _ Hp)|done]|].
    split; [intros [_ H]; by apply (po_free _ Hp i), H; lia|]. intros E. split; [done|]. intros p Hp'. replace p with i by lia. by apply (po_free _ Hp). }
  assert (Hret : contains_retired i 1 (physical_allocator_ (physical s)) = bool_decide (used i (physical s) = kPhysicalRetired)).
  { apply eq_true_iff_eq. rewrite bool_decide_eq_true. etransitivity; [apply contains_spec; [apply (po_ranges _ Hp)|done]|].
    split; [intros [_ H]; by apply (po_retired _ Hp i), H; lia|]. intros E. split; [done|]. intros p Hp'. replace p with i by lia. by apply (po_retired _ Hp). }
  rewrite Hfree, Hret, <- (po_refs _ Hp), Z.eqb_refl. cbn [andb].
  pose proof (po_unmapped _ Hp i Hi) as Hun. pose proof (po_pending _ Hp i) as Hpe.
  assert (Han : used i (physical s) = kPhysicalAnonymous -> refs i (physical s) <> 0).
  { intros E Hz. destruct (go_owner s Hg i E) as (g & Hb & _). apply (go_backed s Hg) in Hb.
    apply (proj1 (refs_zero _ i Hp)) with g in Hz. cbn in Hz. congruence. }
  destruct (used i (physical s)) eqn:E; cbn; rewrite ?Hun by auto; try done; by rewrite (proj2 (Z.eqb_neq _ _)) by auto.
Qed.

Lemma valid_metadata_ok s i : phys_ok s -> frame_ok i -> valid_metadata i s = true.
Proof.
  intros Hs Hi. unfold valid_metadata. pose proof (po_explicit _ Hs i Hi) as He. pose proof (po_allocation _ Hs i) as Ha.
  destruct (explicit_allocation (metadata i s)) eqn:E.
  - rewrite (bool_decide_true (used i s = kPhysicalExplicit)) by tauto. destruct (Ha eq_refl) as [_ (H1 & H2 & H3 & H4 & H5 & H6 & H7)].
    destruct Hi as [Hi0 Hi1]. destruct (H7 (pm_base_page (metadata i s)) ltac:(lia)) as (Q1 & Q2 & Q3 & Q4 & Q5).
    cbv beta in *. rewrite Q1, Q2, Q3, Q4, Q5, !Z.eqb_refl, H3, H5, H6. cbn [andb].
    assert (Hinv : pm_base_page (metadata i s) <> kInvalidPhysicalPage) by (change kPhysicalPageCount with 0x20000 in Hi1; change kInvalidPhysicalPage with 0xFFFFFFFF; lia).
    rewrite (proj2 (Z.eqb_neq _ _) Hinv), (proj2 (Z.eqb_neq (pm_page_count (metadata i s)) 0)) by lia. cbn [negb andb].
    rewrite !andb_true_iff, Z.ltb_lt, !Z.leb_le. split_and!; try done; lia.
  - rewrite bool_decide_false; [done|]. intros Hu. by apply He in Hu.
Qed.

Lemma valid_reverse_ok s frame guests : space_ok s -> (frame, guests) ∈ map_to_list (physical_reverse_mappings_ (physical s)) ->
  valid_reverse frame guests s = true.
Proof.
  intros [Hp Hg] Hin. apply elem_of_map_to_list in Hin. destruct (po_mapping _ Hp frame guests Hin) as [Hne Hnd].
  assert (Hm : forall g, g ∈ guests -> maps (physical s) frame g = true).
  { intros g Hin'. unfold mapping_contains, mapped_guests. rewrite Hin. by apply bool_decide_true. }
  destruct guests as [|g0 l]; [done|]. destruct (po_bounds _ Hp frame g0 (Hm g0 ltac:(by left))) as [[Hf0 Hf1] _].
  unfold valid_reverse. rewrite (proj2 (Z.ltb_lt _ _) Hf1), bool_decide_true, andb_true_r by done. cbn [andb]. apply forallb_forall. intros g Hin'%list_elem_of_In.
  specialize (Hm g Hin'). destruct (po_bounds _ Hp frame g Hm) as [_ [_ Hg1]]. apply (go_backed s Hg) in Hm as (B1 & B2 & B3).
  rewrite (proj2 (Z.ltb_lt _ _) Hg1), bool_decide_true, B3, Z.eqb_refl by done. done.
Qed.

Lemma valid_page_ok s i : space_ok s -> page_ok_index i -> valid_page i s = true.
Proof.
  intros Hs Hi. assert (Hs' := Hs). destruct Hs' as [Hp Hg]. unfold valid_page. pose proof (go_shape s Hg i) as Hsh. unfold page_shape in Hsh.
  set (p := page_at i s) in *.
  assert (Halias : state p <> Free -> (if bool_decide (kind p = Xex) && negb (bool_decide (state p = Free)) then
       let q := page_at (alias_page i) s in
       (alias_page i <? kPageCount) && bool_decide (kind q = Xex) && bool_decide (state q = state p) &&
       (allocation_page_count q =? allocation_page_count p) && (allocation_protect q =? allocation_protect p) &&
       (current_protect q =? current_protect p) && (physical_page q =? physical_page p)
     else true) = true).
  { intros Hf. destruct (place_of s i Hs Hf) as (r & Hr & Hk & _). fold p in Hk. rewrite Hk. rewrite (bool_decide_false (state p = Free)) by done. fold (is_xex r).
    destruct (is_xex r) eqn:Hx; [|done]. cbn [negb andb]. cbv zeta. destruct (alias_page_xex r i Hr Hx) as (r' & ((_ & Hlt) & _) & _). rewrite (proj2 (Z.ltb_lt _ _) Hlt).
    rewrite (go_mirror s Hg r i Hr Hx). fold p. rewrite mirror_used by done. cbn. rewrite Hk, (xex_kind r Hx), !Z.eqb_refl. by rewrite !bool_decide_true. }
  destruct (state p) eqn:Est.
  - by rewrite Hsh.
  - destruct Hsh as (Hpl & E1 & E2 & E3). rewrite E1 in Halias |- *. rewrite E2, E3.
    rewrite (bool_decide_false (Reserved = Committed)), Z.eqb_refl by done. cbn [andb negb orb]. by apply Halias.
  - destruct Hsh as (Hpl & Hgd & Hex). rewrite (bool_decide_true (Committed = Committed)) by done. cbn [andb negb]. destruct (permanent_guard p) eqn:Egd.
    + by rewrite (Hgd eq_refl).
    + assert (Hb : backed_by (physical_page p) p) by done. destruct (backed_frame s _ i Hs Hb) as [[Hf0 Hf1] Hne]. apply (go_backed s Hg) in Hb.
      rewrite (proj2 (Z.eqb_neq _ _) Hne), (proj2 (Z.ltb_lt _ _) Hf1), Hb, orb_true_r, andb_false_r. cbn [andb negb]. by apply Halias.
Qed.

Lemma consistent_valid s : consistent s -> validate_invariants s = true.
Proof.
  intros [Hs _]. unfold validate_invariants. rewrite !andb_true_iff, !forallb_forall. split_and!.
  - intros i Hi%list_elem_of_In%elem_of_seqZ. rewrite valid_ownership_ok, valid_metadata_ok; [done|apply Hs|unfold frame_ok; lia|done|unfold frame_ok; lia].
  - intros [f l] Hin%list_elem_of_In. by apply valid_reverse_ok.
  - intros i Hi%list_elem_of_In%elem_of_seqZ. apply valid_page_ok; [done|unfold page_ok_index; lia].
Qed.

(** ** Sequences of operations *)

Inductive space_op : Type :=
| Reset
| ReserveFixed (base size : Z) (protect : Protect)
| CommitFixed (base size : Z) (protect : Protect) (zero : bool)
| Allocate (size alignment : Z) (protect : Protect) (top_down : bool) (page_size : option Z) (options : VirtualAllocationOptions)
| Decommit (base size : Z)
| Release (base : Z)
| Reprotect (base size : Z) (protect : Protect)
| AllocatePhysical (size : Z) (options : PhysicalAllocationOptions)
| FreePhysical (base size : Z)
| ReprotectPhysical (base size : Z) (protect : Protect)
| MapToPhysical (virtual_base physical_base size : Z) (protect : Protect)
| AddMmio (base size : Z)
| ClearMmio.

(** The arguments are 32-bit words; an alignment of 2 GiB is left out top down. *)
Definition op_ok (op : space_op) : Prop :=
  match op with
  | ReserveFixed base size _ | CommitFixed base size _ _ | Decommit base size | Reprotect base size _
  | FreePhysical base size | ReprotectPhysical base size _ => is_u32 base /\ is_u32 size
  | Allocate size alignment _ top_down _ _ => is_u32 size /\ is_u32 alignment /\ (top_down = true -> alignment <= 0x40000000)
  | Release base => is_u32 base
  | AllocatePhysical size options =>
      is_u32 size /\ is_u32 (po_alignment options) /\ is_u32 (minimum_address options) /\ is_u32 (maximum_address options)
  | MapToPhysical virtual_base physical_base size _ => is_u32 virtual_base /\ is_u32 physical_base /\ is_u32 size
  | AddMmio base size => is_u32 base /\ is_u32 size
  | Reset | ClearMmio => True
  end.

Definition outcome {A} (o : option (A * AddressSpace)) : option AddressSpace := snd <$> o.

Definition space_step (op : space_op) (s : AddressSpace) : option AddressSpace :=
  match op with
  | Reset => Some (space_reset s)
  | ReserveFixed base size protect => outcome (reserve_fixed base size protect s)
  | CommitFixed base size protect zero => outcome (commit_fixed base size protect zero s)
  | Allocate size alignment protect top_down page_size options => outcome (space_allocate size alignment protect top_down page_size options s)
  | Decommit base size => outcome (space_decommit base size s)
  | Release base => outcome (space_release base s)
  | Reprotect base size protect => Some (snd (space_protect base size protect s))
  | AllocatePhysical size options => outcome (allocate_physical size options s)
  | FreePhysical base size => outcome (free_physical base size s)
  | ReprotectPhysical base size protect => Some (snd (protect_physical base size protect s))
  | MapToPhysical virtual_base physical_base size protect => outcome (map_virtual_to_physical virtual_base physical_base size protect s)
  | AddMmio base size => Some (snd (add_mmio_range base size s))
  | ClearMmio => Some (clear_mmio_ranges s)
  end.

Definition space_run (ops : list space_op) (s : AddressSpace) : option AddressSpace := each space_step ops s.

Lemma keeps_outcome {A} (Q : A -> AddressSpace -> Prop) o : keeps Q o -> exists s, outcome o = Some s /\ consistent s.
Proof. intros (a & s & -> & Hc & _). by exists s. Qed.

Lemma space_step_consistent op s : op_ok op -> consistent s -> exists s', space_step op s = Some s' /\ consistent s'.
Proof.
  intros Hop Hc. destruct op; cbn [op_ok] in Hop; cbn [space_step].
  - eexists. split; [done|apply reset_consistent].
  - by eapply keeps_outcome, reserve_fixed_spec; [apply Hop|apply Hop|].
  - by eapply keeps_outcome, commit_fixed_spec; [apply Hop|apply Hop|].
  - by eapply keeps_outcome, space_allocate_spec; [apply Hop|apply Hop|apply Hop|].
  - by eapply keeps_outcome, space_decommit_spec; [apply Hop|apply Hop|].
  - by eapply keeps_outcome, space_release_spec.
  - eexists. split; [done|]. pose proof (space_protect_spec base size protect s (proj1 Hop) (proj1 (proj2 Hop)) Hc) as H.
    destruct (space_protect base size protect s). apply H.
  - by eapply keeps_outcome, allocate_physical_spec; [apply Hop|apply Hop|apply Hop|apply Hop|].
  - by eapply keeps_outcome, free_physical_spec; [apply Hop|apply Hop|].
  - eexists. split; [done|]. pose proof (protect_physical_spec base size protect s (proj1 Hop) (proj2 Hop) Hc) as H. destruct (protect_physical base size protect s). apply H.
  - by eapply keeps_outcome, map_virtual_to_physical_spec; [apply Hop|apply Hop|apply Hop|].
  - eexists. split; [done|by apply add_mmio_range_consistent].
  - eexists. split; [done|by apply clear_mmio_ranges_consistent].
Qed.

Lemma space_run_consistent ops s : Forall op_ok ops -> consistent s -> exists s', space_run ops s = Some s' /\ consistent s'.
Proof.
  intros Hops Hc. apply (each_inv space_step consistent); [|done]. intros op s' Hin Hs'. rewrite Forall_forall in Hops.
  apply space_step_consistent; [by apply Hops|done].
Qed.

Lemma initialize_consistent drains : consistent (initialize drains).
Proof. apply reset_consistent. Qed.

(** ** The translation table follows the pages *)

(** The table is coherent and the devices are in order. *)
Definition table_ok (s : AddressSpace) : Prop := coherent s /\ mmio_ok (mmio_ranges_ s).

Lemma refreshed_table s s' : refreshed s s' -> table_ok s -> table_ok s'.
Proof. intros [H1 H2] [H3 H4]. split; [auto|by rewrite H1]. Qed.

Lemma mmio_entry_same g l s : page_ok_index g -> page_has_mmio g (set_mmio l s) = page_has_mmio g s -> make_hot_entry g (set_mmio l s) = make_hot_entry g s.
Proof. intros Hg H. unfold make_hot_entry. by rewrite H. Qed.

Lemma add_mmio_table base size s : is_u32 base -> is_u32 size -> table_ok s -> table_ok (snd (add_mmio_range base size s)).
Proof.
  intros Hb Hsz [Hc Hm]. pose proof (add_mmio_range_spec base size s Hb Hsz Hm) as H. destruct (add_mmio_range base size s) as [ok s'] eqn:E.
  destruct H as (H1 & H2 & H3 & H4). cbn [snd]. destruct ok; [|by rewrite H4]. split; [|done].
  assert (Es : exists l, s' = publish_pages (range_list base size) (set_mmio l s)).
  { unfold add_mmio_range in E. destruct (_ || _) in E; [done|]. cbv zeta in E. destruct (match head _ with Some _ => _ | None => _ end) in E; [done|].
    destruct (match last _ with Some _ => _ | None => _ end) in E; [done|]. injection E as <-. eexists. apply publish_hot_range_list. }
  destruct Es as [l ->]. pose proof (publish_pages_published (range_list base size) (set_mmio l s)) as Hp.
  destruct (proj1 H2 eq_refl) as (P1 & P2 & _). unfold is_u32 in Hb.
  intros g Hg. rewrite publish_pages_entries by done. rewrite (published_entry (set_mmio l s) _ g Hp). destruct (decide (g ∈ range_list base size)) as [Hin|Hout]; [done|].
  rewrite mmio_entry_same; [by apply Hc|done|]. apply eq_true_iff_eq.
  assert (Em : mmio_ranges_ (publish_pages (range_list base size) (set_mmio l s)) = mmio_ranges_ (set_mmio l s)) by apply Hp.
  rewrite Em in H1, H3. rewrite !page_has_mmio_spec by done. unfold on_device. split; intros (r & R1 & R2 & R3); exists r; split_and!; try done.
  - apply H3 in R1 as [R1|[_ ->]]; [done|]. exfalso. apply Hout. cbn in R2, R3. apply in_range_list; [unfold is_u32; lia|lia|done|]. Z.to_euclidean_division_equations; lia.
  - apply H3. by left.
Qed.

Lemma reset_table s : mmio_ok (mmio_ranges_ s) -> table_ok (space_reset s).
Proof.
  intros Hm. unfold space_reset. set (s0 := mkSpace _ _ _ _). split; [apply rebuild_coherent|]. by destruct (rebuild_published s0) as (_ & -> & _).
Qed.
#[local] Opaque space_reset.

(** A commitment that the operation asks for succeeds. *)
Definition commits (op : space_op) (s : AddressSpace) : Prop :=
  match op with
  | CommitFixed base size protect zero => exists s', commit_fixed base size protect zero s = Some (true, s')
  | Allocate size alignment protect top_down page_size options =>
      commit options = true -> exists a s', space_allocate size alignment protect top_down page_size options s = Some (Some a, s')
  | _ => True
  end.

(** A run in which every commitment succeeds. *)
Fixpoint commits_run (ops : list space_op) (s : AddressSpace) : Prop :=
  match ops with
  | [] => True
  | op :: ops => commits op s /\ forall s', space_step op s = Some s' -> commits_run ops s'
  end.

Lemma keeps_step {A} (Q : A -> AddressSpace -> Prop) o s' : keeps Q o -> outcome o = Some s' -> exists a, o = Some (a, s') /\ Q a s'.
Proof. intros (a & s1 & -> & _ & HQ). cbn. intros [= <-]. by exists a. Qed.

Lemma space_step_table op s s' : op_ok op -> consistent s -> commits op s -> space_step op s = Some s' -> table_ok s -> table_ok s'.
Proof.
  intros Hop Hc Hcm Hs Ht. destruct op; cbn [op_ok] in Hop; cbn [commits] in Hcm; cbn [space_step] in Hs.
  - apply Some_inj in Hs as <-. apply reset_table, Ht.
  - destruct (keeps_step _ _ _ (reserve_fixed_spec base size protect s (proj1 Hop) (proj2 Hop) Hc) Hs) as (a & _ & Hr & _). by apply (refreshed_table s).
  - destruct (keeps_step _ _ _ (commit_fixed_spec base size protect zero s (proj1 Hop) (proj2 Hop) Hc) Hs) as (a & E & Hr). destruct Hcm as [s2 E2]. rewrite E2 in E. injection E as <- ->.
    apply (refreshed_table s); [by apply Hr|done].
  - destruct (keeps_step _ _ _ (space_allocate_spec size alignment protect top_down page_size options s (proj1 Hop) (proj1 (proj2 Hop)) (proj2 (proj2 Hop)) Hc) Hs) as (a & E & Hr & _).
    apply (refreshed_table s); [|done]. apply Hr. destruct (commit options); [left|by right]. destruct Hcm as (x & s2 & E2); [done|]. congruence.
  - destruct (keeps_step _ _ _ (space_decommit_spec base size s (proj1 Hop) (proj1 (proj2 Hop)) Hc) Hs) as (a & _ & Hr & _). by apply (refreshed_table s).
  - destruct (keeps_step _ _ _ (space_release_spec base s Hop Hc) Hs) as (a & _ & Hr & _). by apply (refreshed_table s).
  - pose proof (space_protect_spec base size protect s (proj1 Hop) (proj1 (proj2 Hop)) Hc) as H. destruct (space_protect base size protect s) as [o s2].
    injection Hs as <-. apply (refreshed_table s); [apply H|done].
  - destruct (keeps_step _ _ _ (allocate_physical_spec size options s (proj1 Hop) (proj1 (proj2 Hop)) (proj1 (proj2 (proj2 Hop))) (proj2 (proj2 (proj2 Hop))) Hc) Hs) as (a & _ & Hr & _).
    by apply (refreshed_table s).
  - destruct (keeps_step _ _ _ (free_physical_spec base size s (proj1 Hop) (proj2 Hop) Hc) Hs) as (a & _ & Hr & _). by apply (refreshed_table s).
  - pose proof (protect_physical_spec base size protect s (proj1 Hop) (proj2 Hop) Hc) as H. destruct (protect_physical base size protect s) as [o s2].
    injection Hs as <-. apply (refreshed_table s); [apply H|done].
  - destruct (keeps_step _ _ _ (map_virtual_to_physical_spec virtual_base physical_base size protect s (proj1 Hop) (proj1 (proj2 Hop)) (proj2 (proj2 Hop)) Hc) Hs) as (a & _ & Hr & _).
    by apply (refreshed_table s).
  - injection Hs as <-. apply add_mmio_table; [apply Hop|apply Hop|done].
  - apply Some_inj in Hs as <-. unfold clear_mmio_ranges. destruct (rebuild_published (set_mmio [] s)) as (_ & E & _). split; [apply rebuild_coherent|]. rewrite E. split; constructor.
Qed.

Lemma space_run_table ops s s' : Forall op_ok ops -> consistent s -> commits_run ops s -> space_run ops s = Some s' -> table_ok s -> table_ok s'.
Proof.
  revert s. induction ops as [|op ops IH]; intros s Ho Hc Hcm Hs Ht; cbn in Hs; [by injection Hs as <-|]. apply Forall_cons in Ho as [Hop Ho].
  destruct Hcm as [Hcm1 Hcm2]. destruct (space_step_consistent op s Hop Hc) as (s1 & E & Hc1). rewrite E in Hs. cbn [mbind option_bind] in Hs.
  apply (IH s1); try done; [by apply Hcm2|]. by apply (space_step_table op s).
Qed.

Lemma initialize_table drains : table_ok (initialize drains).
Proof. apply reset_table. split; constructor. Qed.

(** ** Access through the table *)

Lemma encode_page_bits f r w x slow no_cache combine : 0 <= f < 0x20000 ->
  let e := encode_page f r w x slow no_cache combine in
  e .& kPhysicalPageMask = f /\ (e .& (kMapped .| kHotRead) =? kMapped .| kHotRead) = r /\ (e .& (kMapped .| kHotWrite) =? kMapped .| kHotWrite) = w /\
  (e .& kSlow =? 0) = negb slow /\ (e .& kHotNoCache =? 0) = negb no_cache /\ (e .& kHotWriteCombine =? 0) = negb combine.
Proof.
  intros Hf e. set (c := kMapped .| flag r kHotRead .| flag w kHotWrite .| flag x kHotExecute .| flag slow kSlow .| flag no_cache kHotNoCache .| flag combine kHotWriteCombine).
  assert (Hmask : f .& kPhysicalPageMask = f) by (unfold kPhysicalPageMask; rewrite Z.land_ones by done; by apply Z.mod_small).
  assert (He : e = f .| c) by (unfold e, encode_page, c; by rewrite Hmask, !Z.lor_assoc).
  assert (Hhigh : forall K, kPhysicalPageMask .& K = 0 -> e .& K = c .& K).
  { intros K HK. rewrite He, Z.land_lor_distr_l, <- Hmask, <- Z.land_assoc, HK, Z.land_0_r. apply Z.lor_0_l. }
  split.
  - rewrite He, Z.land_lor_distr_l, Hmask. replace (c .& kPhysicalPageMask) with 0; [apply Z.lor_0_r|]. unfold c. by destruct r, w, x, slow, no_cache, combine.
  - rewrite !Hhigh by done. unfold c. by destruct r, w, x, slow, no_cache, combine.
Qed.

(** Within a page, the direct views are linear. *)
Lemma alias_address_linear a : is_u32 a -> physical_alias_address (a / 4096 * 4096) <> 0xFFFFFFFF \/ physical_alias_address a <> 0xFFFFFFFF ->
  physical_alias_address a = physical_alias_address (a / 4096 * 4096) + a mod 4096 /\ physical_alias_address a < kPhysicalMemorySize /\
  physical_alias_address (a / 4096 * 4096) mod 4096 = 0.
Proof.
  intros Ha. unfold is_u32 in Ha. change kPhysicalMemorySize with 0x20000000. unfold physical_alias_address.
  unfold kGpuWritebackBase, kGpuWritebackEnd, kPhysical64KBase, kPhysical16MEnd, kPhysical4KBase, kPhysical4KHeapEnd, kPhysical4KViewOffset.
  change 0x1FFFFFFF with (Z.ones 29). rewrite !Z.land_ones by done. change (2 ^ 29) with 0x20000000.
  pose proof (Z.div_mod a 4096 ltac:(lia)) as D. pose proof (Z.mod_pos_bound a 4096 ltac:(lia)) as M. set (q := a / 4096) in *. set (m := a mod 4096) in *. clearbody q m. subst a.
  repeat match goal with |- context [?x <=? ?y] => destruct (Z.leb_spec x y); try (exfalso; lia); cbn [andb] end.
  all: intros Hd; try (exfalso; destruct Hd as [Hd|Hd]; by apply Hd).
  all: Z.to_euclidean_division_equations; lia.
Qed.

Lemma frame_of_direct d : 0 <= d < kPhysicalMemorySize -> 0 <= Z.shiftr d kPageShift < 0x20000.
Proof. change kPhysicalMemorySize with (0x20000 * 4096). rewrite shiftr_page. intros Hd. Z.to_euclidean_division_equations; lia. Qed.
(** What the entry of a page grants is what the slow path resolves. *)
Definition grants (e : Z) (write : bool) : bool :=
  e .& (kMapped .| if write then kHotWrite else kHotRead) =? kMapped .| if write then kHotWrite else kHotRead.
Definition access_of (write : bool) : AccessKind := if write then Write else Read.

Lemma flag_grants slow write : grants (flag slow kSlow) write = false.
Proof. by destruct slow, write. Qed.

Lemma encode_protect_bits f protect slow write : 0 <= f < 0x20000 ->
  let e := encode_protect f protect slow in
  grants e write = has protect (right_for (access_of write)) /\ e .& kPhysicalPageMask = f /\ (e .& kSlow =? 0) = negb slow.
Proof.
  intros Hf e. destruct (encode_page_bits f (has protect kRead) (has protect kWrite) (has protect kExecute) slow (has protect kNoCache) (has protect kWriteCombine) Hf)
    as (H1 & H2 & H3 & H4 & _). split_and!; [|done|done]. by destruct write.
Qed.

Lemma heap_entry_resolves s a write : consistent s -> is_u32 a -> physical_alias_address (a / 4096 * 4096) = 0xFFFFFFFF ->
  let e := make_hot_entry (Z.shiftr a kPageShift) s in
  match resolve_byte a (access_of write) s with
  | inr p => grants e write = true /\ e .& kPhysicalPageMask * 4096 + a mod 4096 = p /\ p mod 4096 = a mod 4096 /\ 0 <= p < kPhysicalMemorySize /\
      (e .& kSlow =? 0) = negb (page_has_mmio (Z.shiftr a kPageShift) s)
  | inl _ => grants e write = false
  end.
Proof.
  intros Hc Ha Ed e. set (g := Z.shiftr a kPageShift) in *. assert (Hg : g = a / 4096) by (unfold g; by rewrite shiftr_page). unfold is_u32 in Ha.
  assert (Hgi : page_ok_index g) by (unfold page_ok_index; change kPageCount with 0x100000; Z.to_euclidean_division_equations; lia).
  assert (Hw : u32 (Z.shiftl g kPageShift) = a / 4096 * 4096) by (rewrite shiftl_page, Hg; apply u32_small; unfold is_u32; Z.to_euclidean_division_equations; lia).
  assert (He : e = make_hot_entry g s) by done. clearbody e. unfold make_hot_entry in He. rewrite (proj2 (Z.leb_gt kPageCount g)) in He by apply Hgi. cbv zeta in He. rewrite Hw in He.
  pose proof (alias_address_linear a ltac:(unfold is_u32; lia)) as Hlin. unfold resolve_byte. cbv zeta. fold g.
  pose proof (Z.mod_pos_bound a 4096 ltac:(lia)) as Hm. assert (Hpos0 : 0 <= a / 4096 * 4096) by (apply Z.mul_nonneg_nonneg; [apply Z.div_pos|]; lia).
  pose proof (Z.div_mod a 4096 ltac:(lia)) as Hdm.
  rewrite (proj2 (Z.eqb_eq _ _) Ed) in He. cbn [negb andb] in He.
  assert (Ea : physical_alias_address a = 0xFFFFFFFF).
  { destruct (Z.eq_dec (physical_alias_address a) 0xFFFFFFFF) as [|Hne]; [done|]. destruct (Hlin (or_intror Hne)) as (H1 & H2 & _). rewrite Ed in H1.
    change kPhysicalMemorySize with 0x20000000 in H2. lia. }
  rewrite Ea, Z.eqb_refl. cbn [negb].
  assert (Er : region_for a = region_for (a / 4096 * 4096)) by (rewrite region_for_page; fold g; unfold region_of; by rewrite shiftl_page, Hg).
  rewrite Er. destruct (region_for (a / 4096 * 4096)) as [r|] eqn:Hr; [|rewrite He; apply flag_grants].
  assert (Hother : is_heap r = false -> state (page_at g s) = Free).
  { intros Hh. destruct (state (page_at g s)) eqn:Est; [done|exfalso..]; destruct (place_of s g (co_space s Hc)) as (r' & (_ & R1 & R2) & _); try (rewrite Est; done).
    all: unfold region_of in R1; rewrite shiftl_page, Hg, Hr in R1; congruence. }
  destruct (rg_kind r) eqn:Hk; rewrite ?(bool_decide_false (_ = Mmio)) by done.
  3,4: rewrite Hother by (unfold is_heap, is_xex; by rewrite Hk); rewrite He; apply flag_grants.
  3: by rewrite He; destruct write.
  all: set (p := page_at g s) in *; destruct (state p) eqn:Est; cbn [negb orb] in He; try (rewrite He; apply flag_grants).
  all: destruct (Z.eqb_spec (physical_page p) kInvalidPhysicalPage) as [Ei|Ei]; rewrite ?orb_true_r, ?orb_false_r in He.
  all: try (rewrite He, flag_grants; by destruct (has _ _)).
  all: assert (Hb : backed_by (physical_page p) p) by (apply backed_of_physical; [apply Hc|done]).
  all: destruct (backed_frame s _ g (co_space s Hc) Hb) as [[F0 F1] _]; change kPhysicalPageCount with 0x20000 in F1.
  all: rewrite bool_decide_true in He by done; cbn [negb] in He.
  all: destruct (encode_protect_bits (physical_page p) (current_protect p) (page_has_mmio g s) write ltac:(lia)) as (E1 & E2 & E3); rewrite <- He in E1, E2, E3.
  all: destruct (has (current_protect p) (right_for (access_of write))); cbn [negb]; [|done].
  all: change kBasePageSize with 4096; change (4096 - 1) with (Z.ones 12); rewrite Z.land_ones by done; change (2 ^ 12) with 4096.
  all: rewrite u32_small by (unfold is_u32; lia); rewrite E2; change kPhysicalMemorySize with 0x20000000; split_and!; try done; try lia.
  all: rewrite Z.add_comm, Z.mod_add by done; by rewrite Z.mod_mod.
Qed.

Lemma direct_entry_resolves s a write : consistent s -> is_u32 a -> physical_alias_address (a / 4096 * 4096) <> 0xFFFFFFFF ->
  let e := make_hot_entry (Z.shiftr a kPageShift) s in
  match resolve_byte a (access_of write) s with
  | inr p => grants e write = true /\ e .& kPhysicalPageMask * 4096 + a mod 4096 = p /\ p mod 4096 = a mod 4096 /\ 0 <= p < kPhysicalMemorySize /\
      (e .& kSlow =? 0) = negb (page_has_mmio (Z.shiftr a kPageShift) s)
  | inl _ => grants e write = false
  end.
Proof.
  intros Hc Ha Ed e. set (g := Z.shiftr a kPageShift) in *. assert (Hg : g = a / 4096) by (unfold g; by rewrite shiftr_page). unfold is_u32 in Ha.
  assert (Hgi : page_ok_index g) by (unfold page_ok_index; change kPageCount with 0x100000; Z.to_euclidean_division_equations; lia).
  assert (Hw : u32 (Z.shiftl g kPageShift) = a / 4096 * 4096) by (rewrite shiftl_page, Hg; apply u32_small; unfold is_u32; Z.to_euclidean_division_equations; lia).
  assert (He : e = make_hot_entry g s) by done. clearbody e. unfold make_hot_entry in He. rewrite (proj2 (Z.leb_gt kPageCount g)) in He by apply Hgi. cbv zeta in He. rewrite Hw in He.
  pose proof (alias_address_linear a ltac:(unfold is_u32; lia)) as Hlin. unfold resolve_byte. cbv zeta. fold g.
  pose proof (Z.mod_pos_bound a 4096 ltac:(lia)) as Hm. assert (Hpos0 : 0 <= a / 4096 * 4096) by (apply Z.mul_nonneg_nonneg; [apply Z.div_pos|]; lia).
  pose proof (Z.div_mod a 4096 ltac:(lia)) as Hdm.
  rewrite (proj2 (Z.eqb_neq _ _) Ed) in He. cbn [negb andb] in He.
  destruct (Hlin (or_introl Ed)) as (H1 & H2 & H3). set (d0 := physical_alias_address (a / 4096 * 4096)) in *. set (d := physical_alias_address a) in *.
  assert (Hd0 : 0 <= d0) by (apply alias_address_nonneg; unfold is_u32; lia). clearbody d d0.
  assert (Emem : kPhysicalMemorySize = 0x20000000) by reflexivity. rewrite Emem in H2, He |- *.
  rewrite (proj2 (Z.ltb_lt d0 0x20000000)) in He by lia. rewrite (proj2 (Z.eqb_neq d 0xFFFFFFFF)), (proj2 (Z.leb_gt 0x20000000 d)) by lia. cbn [negb].
  assert (Hsh : Z.shiftr d kPageShift = Z.shiftr d0 kPageShift) by (rewrite !shiftr_page, H1; Z.to_euclidean_division_equations; lia).
  assert (Hprot : physical_protect d (physical s) = physical_protect d0 (physical s)).
  { unfold physical_protect. rewrite Emem, !(proj2 (Z.leb_gt _ _)) by lia. by rewrite Hsh. }
  rewrite Hprot. pose proof (frame_of_direct d0 ltac:(rewrite Emem; lia)) as Hf.
  destruct (encode_protect_bits (Z.shiftr d0 kPageShift) (physical_protect d0 (physical s)) (page_has_mmio g s) write Hf) as (E1 & E2 & E3). rewrite <- He in E1, E2, E3.
  destruct (has (physical_protect d0 (physical s)) (right_for (access_of write))); cbn [negb]; [|done].
  rewrite E2, shiftr_page. pose proof (Z.div_mod d0 4096 ltac:(lia)). rewrite H1. split_and!; try done; try lia.
  rewrite Z.add_mod, H3, Z.add_0_l, !Z.mod_mod by done. done.
Qed.

Lemma entry_resolves s a write : consistent s -> is_u32 a ->
  let e := make_hot_entry (Z.shiftr a kPageShift) s in
  match resolve_byte a (access_of write) s with
  | inr p => grants e write = true /\ e .& kPhysicalPageMask * 4096 + a mod 4096 = p /\ p mod 4096 = a mod 4096 /\ 0 <= p < kPhysicalMemorySize /\
      (e .& kSlow =? 0) = negb (page_has_mmio (Z.shiftr a kPageShift) s)
  | inl _ => grants e write = false
  end.
Proof.
  intros Hc Ha. destruct (Z.eq_dec (physical_alias_address (a / 4096 * 4096)) 0xFFFFFFFF) as [E|E]; [by apply heap_entry_resolves|by apply direct_entry_resolves].
Qed.

Lemma same_page_bytes a n i : 0 <= a -> a / 4096 = (a + n - 1) / 4096 -> 0 <= i < n -> (a + i) / 4096 = a / 4096 /\ (a + i) mod 4096 = a mod 4096 + i.
Proof. intros Ha Hp Hi. Z.to_euclidean_division_equations; lia. Qed.

Lemma fast_entry_word s g : table_ok s -> page_ok_index g -> default 0 (hot_pages_ s !! g) = make_hot_entry g s.
Proof. intros [Hc _] Hg. by apply Hc. Qed.

Lemma word_page a : is_u32 a -> page_ok_index (Z.shiftr a kPageShift) /\ Z.shiftr a kPageShift = a / 4096.
Proof. unfold is_u32, page_ok_index. change kPageCount with 0x100000. rewrite shiftr_page. intros Ha. split; [|done]. Z.to_euclidean_division_equations; lia. Qed.

Section FastAccess.
Context (s : AddressSpace) (address width : Z) (write : bool).
Hypothesis Hc : consistent s.
Hypothesis Ht : table_ok s.
Hypothesis Ha : is_u32 address.
Hypothesis Hw : 0 < width.
Hypothesis Hend : address + width <= 0x100000000.

Lemma byte_word i : 0 <= i < width -> is_u32 (address + i).
Proof using Ha Hend. unfold is_u32 in *. lia. Qed.

(** What the fast path accepts. *)
Lemma resolve_fast_inv host alignment p d : resolve_fast host address width write alignment s = Some (p, d) ->
  let g := Z.shiftr address kPageShift in
  let e := make_hot_entry g s in
  g = Z.shiftr (address + width - 1) kPageShift /\ grants e write = true /\ (e .& kSlow =? 0) = true /\
  p = e .& kPhysicalPageMask * 4096 + address mod 4096.
Proof using Ht Ha Hw Hend.
  unfold resolve_fast. rewrite (proj2 (Z.eqb_neq width 0)), (proj2 (Z.ltb_ge 0xFFFFFFFF _)) by lia. cbv zeta.
  destruct (word_page address Ha) as [Hg _]. rewrite (fast_entry_word s _ Ht Hg), (proj2 (Z.leb_gt kPageCount _)) by apply Hg. cbn [orb].
  set (g := Z.shiftr address kPageShift). set (e := make_hot_entry g s). fold (grants e write).
  destruct (Z.eqb_spec g (Z.shiftr (address + width - 1) kPageShift)) as [Ep|]; cbn [negb]; [|done].
  destruct (grants e write); cbn [negb orb]; [|done]. destruct (e .& kSlow =? 0); cbn [negb]; [|done].
  destruct (_ <? _); [done|]. destruct (_ && _); [done|]. intros [= <- _]. split_and!; try done.
  change (Z.shiftl 1 kPageShift) with 4096. change (4096 - 1) with (Z.ones 12). by rewrite Z.land_ones.
Qed.

Lemma fast_access_sound host alignment p d : resolve_fast host address width write alignment s = Some (p, d) ->
  ~ on_device address width s /\ forall i, 0 <= i < width -> resolve_byte (address + i) (access_of write) s = inr (p + i).
Proof using Hc Ht Ha Hw Hend.
  intros H. destruct (resolve_fast_inv host alignment p d H) as (Hpage & Hgr & Hslow & Hp). cbv zeta in *. destruct (word_page address Ha) as [Hg Hgd]. rewrite !shiftr_page in Hpage.
  unfold is_u32 in Ha.
  assert (Hbyte : forall i, 0 <= i < width -> resolve_byte (address + i) (access_of write) s = inr (p + i) /\ page_has_mmio (Z.shiftr address kPageShift) s = false).
  { intros i Hi. destruct (same_page_bytes address width i ltac:(lia) Hpage Hi) as [Hq Hm].
    pose proof (entry_resolves s (address + i) write Hc (byte_word i Hi)) as He. rewrite shiftr_page, Hq, <- shiftr_page in He. cbv zeta in He.
    destruct (resolve_byte (address + i) (access_of write) s) as [f|q]; [congruence|]. destruct He as (_ & E1 & _ & _ & E2). rewrite E2 in Hslow.
    split; [f_equal; lia|]. by destruct (page_has_mmio _ _). }
  split; [|intros i Hi; by apply Hbyte]. destruct (Hbyte 0 ltac:(lia)) as [_ Hno]. intros (r & R1 & R2 & R3).
  apply not_true_iff_false in Hno. apply Hno, page_has_mmio_spec; [apply Ht|done|]. exists r. split_and!; [done|..]; rewrite Hgd; Z.to_euclidean_division_equations; lia.
Qed.

(** And it accepts every access within a page that the slow path resolves, off the devices. *)
Lemma fast_access_complete host p : Z.shiftr address kPageShift = Z.shiftr (address + width - 1) kPageShift ->
  page_has_mmio (Z.shiftr address kPageShift) s = false -> resolve_byte address (access_of write) s = inr p ->
  exists d, resolve_fast host address width write 1 s = Some (p, d).
Proof using Hc Ht Ha Hw Hend.
  intros Hpage Hno Hb. pose proof (entry_resolves s address write Hc Ha) as He. cbv zeta in He. rewrite Hb in He. destruct He as (Hgr & Hp & Hpm & Hpb & Hslow).
  unfold resolve_fast. rewrite (proj2 (Z.eqb_neq width 0)), (proj2 (Z.ltb_ge 0xFFFFFFFF _)) by lia. cbv zeta.
  destruct (word_page address Ha) as [Hg _]. rewrite (fast_entry_word s _ Ht Hg), (proj2 (Z.leb_gt kPageCount _)) by apply Hg. cbn [orb].
  set (g := Z.shiftr address kPageShift) in *. set (e := make_hot_entry g s) in *. fold (grants e write). rewrite <- Hpage, Z.eqb_refl, Hgr, Hslow, Hno. cbn [negb orb].
  change (Z.shiftl 1 kPageShift) with 4096. change (4096 - 1) with (Z.ones 12). rewrite Z.land_ones by done. change (2 ^ 12) with 4096. rewrite Hp.
  rewrite (proj2 (Z.ltb_ge kPhysicalMemorySize _)); [by eexists|].
  unfold g in Hpage. rewrite !shiftr_page in Hpage. unfold is_u32 in Ha. destruct (same_page_bytes address width (width - 1) ltac:(lia) Hpage ltac:(lia)) as [_ Hm].
  pose proof (Z.mod_pos_bound (address + (width - 1)) 4096 ltac:(lia)). pose proof (Z.div_mod p 4096 ltac:(lia)) as Hd.
  change kPhysicalMemorySize with (0x20000 * 4096) in Hpb |- *. assert (p / 4096 < 0x20000) by (apply Z.div_lt_upper_bound; lia). lia.
Qed.
End FastAccess.

Lemma views_linear a n : is_u32 a -> 0 < n -> a + n <= 0x100000000 -> physical_alias_address a <> 0xFFFFFFFF ->
  physical_alias_address (a + n - 1) = physical_alias_address a + n - 1 -> physical_alias_address (a + n - 1) < kPhysicalMemorySize ->
  forall i, 0 <= i < n -> physical_alias_address (a + i) = physical_alias_address a + i.
Proof.
  intros Ha Hn He. unfold is_u32 in Ha. change kPhysicalMemorySize with 0x20000000. unfold physical_alias_address.
  unfold kGpuWritebackBase, kGpuWritebackEnd, kPhysical64KBase, kPhysical16MEnd, kPhysical4KBase, kPhysical4KHeapEnd, kPhysical4KViewOffset.
  change 0x1FFFFFFF with (Z.ones 29). rewrite !Z.land_ones by done. change (2 ^ 29) with 0x20000000. intros Hd Hl Hb i Hi. rewrite Z.land_ones by done. change (2 ^ 29) with 0x20000000.
  repeat match goal with |- context [?x <=? ?y] => destruct (Z.leb_spec x y); try (exfalso; lia); cbn [andb] in * end;
    repeat match goal with H : context [?x <=? ?y] |- _ => destruct (Z.leb_spec x y); try (exfalso; lia); cbn [andb] in * end;
    try (exfalso; by apply Hd); try lia.
  all: Z.to_euclidean_division_equations; lia.
Qed.

Lemma off_views a i : is_u32 a -> is_u32 (a + i) -> a / 4096 = (a + i) / 4096 -> physical_alias_address a = 0xFFFFFFFF -> physical_alias_address (a + i) = 0xFFFFFFFF.
Proof.
  intros Ha Hai Hp Hd. destruct (Z.eq_dec (physical_alias_address (a + i)) 0xFFFFFFFF) as [|Hne]; [done|]. exfalso.
  destruct (alias_address_linear (a + i) Hai (or_intror Hne)) as (H1 & H2 & _). rewrite <- Hp in H1.
  destruct (Z.eq_dec (physical_alias_address (a / 4096 * 4096)) 0xFFFFFFFF) as [E|E].
  - rewrite E in H1. change kPhysicalMemorySize with 0x20000000 in H2. pose proof (Z.mod_pos_bound (a + i) 4096). lia.
  - destruct (alias_address_linear a Ha (or_introl E)) as (_ & H4 & _). rewrite Hd in H4. done.
Qed.

(** The stretch that the slow path resolves at once is what it resolves byte by byte. *)
Lemma contiguous_bytes s a n access : is_u32 a -> 0 < n -> a + n <= 0x100000000 -> consistent s ->
  match resolve_contiguous a n access s with
  | Some (inr p) => forall i, 0 <= i < n -> resolve_byte (a + i) access s = inr (p + i)
  | Some (inl _) => exists i f, 0 <= i < n /\ resolve_byte (a + i) access s = inl f
  | None => True
  end.
Proof.
  intros Ha Hn He Hc. unfold resolve_contiguous. rewrite (proj2 (Z.eqb_neq n 0)), (proj2 (Z.ltb_ge 0xFFFFFFFF _)) by lia. cbv zeta.
  assert (Hai : forall i, 0 <= i < n -> is_u32 (a + i)) by (unfold is_u32 in *; lia).
  destruct (Z.eqb_spec (physical_alias_address a) 0xFFFFFFFF) as [Ed|Ed]; cbn [negb].
  - destruct (Z.eqb_spec (Z.shiftr a kPageShift) (Z.shiftr (a + n - 1) kPageShift)) as [Ep|]; cbn [negb]; [|done].
    destruct (region_for a) as [r|] eqn:Hr; [|done]. destruct (is_heap r) eqn:Hh; cbn [negb]; [|done]. rewrite !shiftr_page in Ep.
    assert (Hm : bool_decide (rg_kind r = Mmio) = false) by (unfold is_heap, is_xex in Hh; by destruct (rg_kind r)).
    assert (Hbyte : forall i, 0 <= i < n -> resolve_byte (a + i) access s =
      let p := page_at (Z.shiftr a kPageShift) s in
      match state p with
      | Free => inl Unmapped
      | Reserved => inl Uncommitted
      | Committed => if negb (has (current_protect p) (right_for access)) then inl Protection
          else if physical_page p =? kInvalidPhysicalPage then inl Uncommitted else inr (u32 (physical_page p * kBasePageSize + (a + i) .& (kBasePageSize - 1)))
      end).
    { intros i Hi. destruct (same_page_bytes a n i ltac:(apply Ha) Ep Hi) as [Hq _]. unfold resolve_byte. cbv zeta.
      rewrite (off_views a i Ha (Hai i Hi) ltac:(done) Ed), Z.eqb_refl. cbn [negb].
      assert (Er : region_for (a + i) = Some r) by (by rewrite region_for_page, shiftr_page, Hq, <- shiftr_page, <- region_for_page).
      rewrite Er, Hm, (shiftr_page (a + i)), Hq, <- shiftr_page. done. }
    cbv zeta in Hbyte. destruct (state (page_at (Z.shiftr a kPageShift) s)) eqn:Est.
    1,2: exists 0; eexists; split; [lia|]; apply Hbyte; lia.
    destruct (has _ _); cbn [negb] in *; [|exists 0; eexists; split; [lia|]; apply Hbyte; lia].
    destruct (Z.eqb_spec (physical_page (page_at (Z.shiftr a kPageShift) s)) kInvalidPhysicalPage) as [Ei|Ei]; [exists 0; eexists; split; [lia|]; apply Hbyte; lia|].
    intros i Hi. rewrite Hbyte by done. f_equal. change kBasePageSize with 4096. change (4096 - 1) with (Z.ones 12). rewrite !Z.land_ones by done. change (2 ^ 12) with 4096.
    destruct (same_page_bytes a n i ltac:(apply Ha) Ep Hi) as [_ Hmod]. rewrite Hmod.
    assert (Hb : backed_by (physical_page (page_at (Z.shiftr a kPageShift) s)) (page_at (Z.shiftr a kPageShift) s)) by (apply backed_of_physical; [apply Hc|done]).
    destruct (backed_frame s _ _ (co_space s Hc) Hb) as [[F0 F1] _]. change kPhysicalPageCount with 0x20000 in F1.
    pose proof (Z.mod_pos_bound a 4096 ltac:(lia)). pose proof (Z.mod_pos_bound (a + i) 4096 ltac:(lia)). rewrite !u32_small by (unfold is_u32; lia). lia.
  - destruct (Z.eqb_spec (physical_alias_address (a + n - 1)) (physical_alias_address a + n - 1)) as [El|]; cbn [andb]; [|done].
    destruct (Z.ltb_spec (physical_alias_address (a + n - 1)) kPhysicalMemorySize) as [Hlt|]; [|done].
    pose proof (views_linear a n Ha Hn He Ed El Hlt) as Hlin. set (d := physical_alias_address a) in *. assert (Hd0 : 0 <= d) by (apply alias_address_nonneg, Ha).
    assert (Emem : kPhysicalMemorySize = 0x20000000) by reflexivity. rewrite El in *. rewrite Emem in Hlt.
    assert (Hbyte : forall i, 0 <= i < n -> resolve_byte (a + i) access s =
      if negb (has (pm_current_protect (metadata (Z.shiftr (d + i) kPageShift) (physical s))) (right_for access)) then inl Protection else inr (d + i)).
    { intros i Hi. unfold resolve_byte, physical_protect. cbv zeta. rewrite (Hlin i Hi), Emem. clearbody d.
      rewrite (proj2 (Z.eqb_neq (d + i) 0xFFFFFFFF)), (proj2 (Z.leb_gt 0x20000000 (d + i))) by lia. done. }
    clearbody d. destruct (forallb _ _) eqn:Ef.
    + intros i Hi. rewrite Hbyte by done. rewrite forallb_seqZ in Ef. rewrite Ef; [done|]. rewrite !shiftr_page. Z.to_euclidean_division_equations; lia.
    + apply not_true_iff_false in Ef. rewrite forallb_forall in Ef.
      destruct (decide (Exists (λ q, has (pm_current_protect (metadata q (physical s))) (right_for access) = false)
        (seqZ (Z.shiftr d kPageShift) (Z.shiftr (d + n - 1) kPageShift - Z.shiftr d kPageShift + 1)))) as [Hex|Hex].
      * apply Exists_exists in Hex as (q & Hq%elem_of_seqZ & Hno). rewrite !shiftr_page in Hq.
        exists (Z.max 0 (q * 4096 - d)), Protection. assert (Hi : 0 <= Z.max 0 (q * 4096 - d) < n) by (Z.to_euclidean_division_equations; lia). split; [done|].
        rewrite Hbyte by done. replace (Z.shiftr (d + Z.max 0 (q * 4096 - d)) kPageShift) with q; [by rewrite Hno|]. rewrite shiftr_page. Z.to_euclidean_division_equations; lia.
      * exfalso. apply Ef. intros q Hq%list_elem_of_In. apply not_false_is_true. intros Hf. apply Hex, Exists_exists. by exists q.
Qed.

(** ** The properties *)

(** C15: The address space stays consistent. From [initialize], whatever the pattern in which
    fast readers drain, every sequence of reservations, commitments, allocations,
    decommitments, releases, protections, explicit mappings, physical allocations and
    device registrations runs without throwing, on any 32-bit arguments (top down, on any
    alignment up to 1 GiB). In the state it ends in, each physical page has one owner whose
    references are exactly the guest pages that translate to it, free and retired pages
    have none, both XEX views agree, the pages of an allocation agree about it, and the
    repository's own [validate_invariants] accepts it. Two guest pages share a frame only
    as the two views of a XEX page, or by an explicit mapping. *)
Theorem address_space_consistent drains ops :
  Forall op_ok ops ->
  exists s, space_run ops (initialize drains) = Some s /\ consistent s /\ validate_invariants s = true /\
    forall f g g', backed_by f (page_at g s) -> backed_by f (page_at g' s) ->
      explicit_physical_mapping (page_at g s) = false -> explicit_physical_mapping (page_at g' s) = false ->
      g' = g \/ (0x80000 <= g < 0xA0000 /\ g' = alias_page g).
Proof.
  intros Hops. destruct (space_run_consistent ops (initialize drains) Hops (initialize_consistent drains)) as (s & Hrun & Hc).
  exists s. split_and!; [done|done|by apply consistent_valid|]. apply go_unshared, Hc.
Qed.

Definition sample_ops : list space_op :=
  [Allocate 0x5000 0 kReadWrite true None (mkVirtualOptions true true); Release 0x3FFFB000;
   ReserveFixed 0x82000000 0x20000 (kRead .| kExecute); CommitFixed 0x82010000 0x10000 kReadWrite true;
   MapToPhysical 0x100000 0x1000000 0x3000 kReadWrite; AddMmio 0x7FC80000 0x10000; Decommit 0x82010000 4].

Lemma address_space_consistent_witness :
  Forall op_ok sample_ops /\ exists s, space_run sample_ops (initialize [false; true]) = Some s /\ consistent s /\ validate_invariants s = true /\
    forall f g g', backed_by f (page_at g s) -> backed_by f (page_at g' s) ->
      explicit_physical_mapping (page_at g s) = false -> explicit_physical_mapping (page_at g' s) = false ->
      g' = g \/ (0x80000 <= g < 0xA0000 /\ g' = alias_page g).
Proof.
  assert (H : Forall op_ok sample_ops).
  { repeat apply Forall_cons_2; [..|apply Forall_nil_2]; cbn [op_ok]; unfold is_u32; split_and?; try lia; done. }
  split; [exact H|exact (address_space_consistent [false; true] sample_ops H)].
Defined.

(** C19: Virtual allocation is first fit and exclusive. On a consistent address space, a
    well-formed request for an ordinary heap returns the lowest aligned address of the
    region (top down, the highest) at which all pages are free; they become one allocation,
    committed with the requested rights when that was asked for, and no other page changes.
    It returns nothing only if no such address exists, or the pages had to be committed and
    no physical page is left free. *)
Theorem virtual_allocation_first_fit s r size alignment protect top_down page_size options :
  consistent s -> heap_region page_size = Some r -> 0 < size <= 0x100000000 - page_size -> is_u32 alignment ->
  (top_down = true -> alignment <= 0x40000000) -> has_single_bit (rounded_alignment alignment page_size) = true ->
  valid_memory_type_protection protect = true ->
  exists o s', space_allocate size alignment protect top_down (Some page_size) options s = Some (o, s') /\ consistent s' /\
    let length := align_up size page_size in
    let placed := fits r length (rounded_alignment alignment page_size) s in
    size <= length < size + page_size /\
    match o with
    | Some a =>
        placed a /\ (forall b, placed b -> if top_down then b <= a else a <= b) /\
        fresh_allocation r (Z.shiftr a kPageShift) (Z.shiftr length kPageShift) s s' /\
        (commit options = true -> forall j, Z.shiftr a kPageShift <= j < Z.shiftr a kPageShift + Z.shiftr length kPageShift ->
           state (page_at j s') = Committed /\ current_protect (page_at j s') = protect)
    | None => (forall b, ~ placed b) \/ (commit options = true /\ exhausted (physical s'))
    end.
Proof.
  intros Hc Hr Hs Ha Htd Hbit Hv.
  assert (Hps : 0x1000 <= page_size) by (destruct (heap_region_in page_size r Hr) as (_ & _ & <- & [-> | ->]); by cbn).
  assert (Hw : is_u32 size) by (unfold is_u32; lia).
  destruct (space_allocate_spec size alignment protect top_down (Some page_size) options s Hw Ha Htd Hc) as (o & s' & E & Hc' & _ & Hq).
  change (default kBasePageSize (Some page_size)) with page_size in Hq.
  destruct (align_up_pages page_size r size Hr Hw) as (_ & _ & Hlen). exists o, s'. cbv zeta. split; [done|]. split; [done|]. split; [lia|].
  destruct Hq as [Hq|[-> [|]]]; [|lia|congruence]. specialize (Hq r Hr). cbv zeta in *. destruct o as [a|].
  - destruct Hq as [[H0 _]|Hq]; [lia|done].
  - apply Hq; [done|lia].
Qed.

Lemma virtual_allocation_first_fit_witness :
  let r := mkRegion kVirtual4KBase kVirtual4KEnd kBasePageSize Virtual in
  heap_region 4096 = Some r /\
  exists o s', space_allocate 0x5001 0 kReadWrite false (Some 4096) (mkVirtualOptions false false) (initialize []) = Some (o, s') /\ consistent s' /\
    let length := align_up 0x5001 4096 in
    let placed := fits r length (rounded_alignment 0 4096) (initialize []) in
    0x5001 <= length < 0x5001 + 4096 /\
    match o with
    | Some a =>
        placed a /\ (forall b, placed b -> a <= b) /\
        fresh_allocation r (Z.shiftr a kPageShift) (Z.shiftr length kPageShift) (initialize []) s' /\
        (false = true -> forall j, Z.shiftr a kPageShift <= j < Z.shiftr a kPageShift + Z.shiftr length kPageShift ->
           state (page_at j s') = Committed /\ current_protect (page_at j s') = kReadWrite)
    | None => (forall b, ~ placed b) \/ (false = true /\ exhausted (physical s'))
    end.
Proof.
  intros r. split; [reflexivity|].
  apply (virtual_allocation_first_fit (initialize []) r 0x5001 0 kReadWrite false 4096 (mkVirtualOptions false false)).
  - apply initialize_consistent.
  - reflexivity.
  - lia.
  - unfold is_u32; lia.
  - discriminate.
  - reflexivity.
  - reflexivity.
Defined.

(** C20: Physical allocation and its inverse. On a consistent address space a physical
    allocation, when it succeeds, starts at an address with the requested alignment,
    covers the size rounded up to pages of the requested class within the requested
    bounds, and takes pages that were free or retired with nothing mapping them. Freeing
    that address with the same size then succeeds and retires exactly these pages. *)
Theorem physical_allocation_roundtrip size options s :
  consistent s -> is_u32 size -> is_u32 (po_alignment options) -> is_u32 (minimum_address options) -> is_u32 (maximum_address options) ->
  exists o s1, allocate_physical size options s = Some (o, s1) /\ consistent s1 /\
    forall address, o = Some address -> exists first count s2,
      let page_size := physical_page_class_size (page_class options) in
      address = first * kBasePageSize /\ size <= count * kBasePageSize < size + page_size /\ (Z.max (po_alignment options) page_size | address) /\
      minimum_address options <= address /\ address + count * kBasePageSize <= maximum_address options + 1 /\
      granted first count page_size (po_protect options) (physical s) (physical s1) /\
      (forall p, first <= p < first + count -> refs p (physical s) = 0) /\
      free_physical address size s1 = Some (true, s2) /\ consistent s2 /\
      forall p, used p (physical s2) = if decide (first <= p < first + count) then kPhysicalRetired else used p (physical s1).
Proof.
  intros Hc Hs Ha Hmn Hmx. destruct (allocate_physical_spec size options s Hs Ha Hmn Hmx Hc) as (o & s1 & E & Hc1 & _ & Ho). exists o, s1. split_and!; [done..|].
  intros address Haddr. destruct (Ho address Haddr) as (first & count & -> & H2 & H3 & H4 & H5 & Hcount & Hm & Hg & _). cbv zeta in H2, H3, Hcount, Hg |- *.
  set (ps := physical_page_class_size (page_class options)) in *.
  pose proof (λ p, granted_unmapped _ _ _ _ s _ p Hc Hg) as Hrefs.
  destruct (gr_range _ _ _ _ _ _ Hg) as [Hf0 Hf1]. change kPhysicalPageCount with 0x20000 in Hf1. change kBasePageSize with 4096 in *.
  assert (Hpos : 0 < size) by (unfold is_u32 in Hs; destruct (Z.eq_dec size 0) as [->|]; [cbn in E; congruence|lia]).
  assert (Hbase : is_u32 (first * 4096)) by (unfold is_u32; lia).
  destruct (free_physical_spec (first * 4096) size s1 Hbase Hs Hc1) as (ok & s2 & Ef & Hc2 & _ & Hok).
  assert (Hdiv : first * 4096 / kBasePageSize = first) by (change kBasePageSize with 4096; by apply Z.div_mul).
  destruct (gr_used _ _ _ _ _ _ Hg first ltac:(lia)) as [_ Hmeta].
  assert (Htrue : ok = true).
  { destruct (free_granted first count ps (po_protect options) size s s1 Hc Hc1 Hm Hg) as (s' & Es'); [change kBasePageSize with 4096; lia|done|].
    change kBasePageSize with 4096 in Es'. congruence. }
  subst ok. specialize (Hok eq_refl). cbv zeta in Hok. rewrite Hdiv, Hmeta in Hok. cbn [pm_page_count] in Hok.
  destruct Hok as (_ & _ & O1 & O2 & _). exists first, count, s2. split_and!; try done; try lia.
  intros p. destruct (decide (first <= p < first + count)) as [Hp|Hp]; [by destruct (O1 p Hp) as (_ & ? & _)|by destruct (O2 p Hp)].
Qed.

Lemma physical_allocation_roundtrip_witness :
  let options := mkPhysicalOptions Page64K 0 0 0xFFFFFFFF kReadWrite true false in
  let s := initialize [] in
  exists o s1, allocate_physical 0x1800000 options s = Some (o, s1) /\ consistent s1 /\
    forall address, o = Some address -> exists first count s2,
      let page_size := physical_page_class_size (page_class options) in
      address = first * kBasePageSize /\ 0x1800000 <= count * kBasePageSize < 0x1800000 + page_size /\ (Z.max (po_alignment options) page_size | address) /\
      minimum_address options <= address /\ address + count * kBasePageSize <= maximum_address options + 1 /\
      granted first count page_size (po_protect options) (physical s) (physical s1) /\
      (forall p, first <= p < first + count -> refs p (physical s) = 0) /\
      free_physical address 0x1800000 s1 = Some (true, s2) /\ consistent s2 /\
      forall p, used p (physical s2) = if decide (first <= p < first + count) then kPhysicalRetired else used p (physical s1).
Proof.
  intros options s. apply (physical_allocation_roundtrip 0x1800000 options s).
  - apply initialize_consistent.
  - unfold is_u32; lia.
  - unfold is_u32; cbn; lia.
  - unfold is_u32; cbn; lia.
  - unfold is_u32; cbn; lia.
Defined.

(** C16: Translation agrees on every path. After any operations from [initialize] whose
    commitments succeed, an access of generated code that the compact table lets through
    touches no device range, and gives each of its bytes the physical address that the
    slow path resolves for it, with the right it needs; it lets through every aligned
    access within a page that the slow path resolves, when no device lies on the page. The
    contiguous resolution gives the same addresses, and faults only if a byte does. *)
Theorem translations_agree drains ops s address width write :
  Forall op_ok ops -> commits_run ops (initialize drains) -> space_run ops (initialize drains) = Some s ->
  is_u32 address -> 0 < width -> address + width <= 0x100000000 ->
  (forall host alignment p d, resolve_fast host address width write alignment s = Some (p, d) ->
     ~ on_device address width s /\ forall i, 0 <= i < width -> resolve_byte (address + i) (access_of write) s = inr (p + i)) /\
  (forall host p, Z.shiftr address kPageShift = Z.shiftr (address + width - 1) kPageShift ->
     ~ on_device (Z.shiftr address kPageShift * 4096) 4096 s -> resolve_byte address (access_of write) s = inr p ->
     exists d, resolve_fast host address width write 1 s = Some (p, d)) /\
  match resolve_contiguous address width (access_of write) s with
  | Some (inr p) => forall i, 0 <= i < width -> resolve_byte (address + i) (access_of write) s = inr (p + i)
  | Some (inl _) => exists i f, 0 <= i < width /\ resolve_byte (address + i) (access_of write) s = inl f
  | None => True
  end.
Proof.
  intros Hops Hcm Hrun Ha Hw He. destruct (space_run_consistent ops (initialize drains) Hops (initialize_consistent drains)) as (s' & Hrun' & Hc).
  rewrite Hrun in Hrun'. injection Hrun' as <-.
  pose proof (space_run_table ops (initialize drains) s Hops (initialize_consistent drains) Hcm Hrun (initialize_table drains)) as Ht.
  split_and!.
  - intros host alignment p d. by apply fast_access_sound.
  - intros host p Hpage Hno Hb. apply (fast_access_complete s address width write Hc Ht Ha Hw He host p Hpage); [|done].
    apply not_true_iff_false. intros Hm. by apply Hno, page_has_mmio_spec; [apply Ht|apply word_page|].
  - by apply contiguous_bytes.
Qed.

Definition mapped_ops : list space_op :=
  [MapToPhysical 0x100000 0x1000000 0x3000 kReadWrite; AddMmio 0x7FC80000 0x10000; Reprotect 0x101000 0x1000 kRead; Decommit 0x102000 0x1000].

Lemma translations_agree_witness :
  Forall op_ok mapped_ops /\ commits_run mapped_ops (initialize [true]) /\
  exists s, space_run mapped_ops (initialize [true]) = Some s /\
  (forall host alignment p d, resolve_fast host 0x100FFC 4 true alignment s = Some (p, d) ->
     ~ on_device 0x100FFC 4 s /\ forall i, 0 <= i < 4 -> resolve_byte (0x100FFC + i) (access_of true) s = inr (p + i)) /\
  (forall host p, Z.shiftr 0x100FFC kPageShift = Z.shiftr (0x100FFC + 4 - 1) kPageShift ->
     ~ on_device (Z.shiftr 0x100FFC kPageShift * 4096) 4096 s -> resolve_byte 0x100FFC (access_of true) s = inr p ->
     exists d, resolve_fast host 0x100FFC 4 true 1 s = Some (p, d)) /\
  match resolve_contiguous 0x100FFC 4 (access_of true) s with
  | Some (inr p) => forall i, 0 <= i < 4 -> resolve_byte (0x100FFC + i) (access_of true) s = inr (p + i)
  | Some (inl _) => exists i f, 0 <= i < 4 /\ resolve_byte (0x100FFC + i) (access_of true) s = inl f
  | None => True
  end.
Proof.
  assert (H : Forall op_ok mapped_ops).
  { repeat apply Forall_cons_2; [..|apply Forall_nil_2]; cbn [op_ok]; unfold is_u32; split_and?; lia. }
  assert (Hcm : commits_run mapped_ops (initialize [true])).
  { split; [exact I|]. intros s1 _. split; [exact I|]. intros s2 _. split; [exact I|]. intros s3 _. split; [exact I|]. intros s4 _. exact I. }
  split; [exact H|]. split; [exact Hcm|].
  destruct (space_run_consistent mapped_ops (initialize [true]) H (initialize_consistent [true])) as (s & Hrun & _).
  exists s. split; [exact Hrun|]. apply (translations_agree [true] mapped_ops s 0x100FFC 4 true H Hcm Hrun).
  - unfold is_u32; lia.
  - lia.
  - lia.
Defined.

(** A commitment that runs out of physical pages leaves the new rights on the pages that
    were committed before, and their table entries as they were: here a page becomes
    read-only while generated code may still write to it. *)
Definition full_memory : AddressSpace :=
  let page := λ f st, mkPage f 0x100 2 kReadWrite kReadWrite st Virtual false false in
  mkSpace (mkPhysical {[0x1000 := kPhysicalAnonymous]} {[0x1000 := 1]} ∅ (mkRangeAllocator [] []) {[0x1000 := [0x100]]} ∅ [] [])
    {[0x100 := page 0x1000 Committed; 0x101 := page kInvalidPhysicalPage Reserved]}
    {[0x100 := encode_protect 0x1000 kReadWrite false]} [].

Lemma failed_commit_keeps_the_table :
  entry_at 0x100 full_memory = make_hot_entry 0x100 full_memory /\
  match commit_fixed 0x100000 0x2000 kRead false full_memory with
  | Some (ok, s) =>
      (ok, current_protect (page_at 0x100 s), resolve_byte 0x100000 Write s, resolve_fast 0 0x100000 4 true 4 s) =
      (false, kRead, inl Protection, Some (0x1000000, Normal))
  | None => False
  end.
Proof. split; vm_compute; reflexivity. Qed.
